(* ===== verification/_CoqProject ===== *)
-Q . S2P
Prelude.v
Bitops.v
Bitmap.v
HostUtils.v
Irq.v
I8259.v
I8254.v
Rtc.v
TimerList.v
Timer.v
Ps2.v
Pckbd.v
Pcspk.v
Serial.v
Dma.v
IoPort.v
IsaBoard.v
Sbuf.v
NetQueue.v
Checksum.v
QDict.v
JsonLexTable.v
JsonLexer.v
JsonParser.v
QDictGet.v
QJson.v
JsonText.v
QJsonRoundTrip.v
Stm.v
QemuFile.v
Vmstate.v
SaveVm.v
Async.v
Apic.v
ApicBus.v
Block.v
RawWin32.v
Qcow2Cache.v
Qcow2Refcount.v
