(* ===== verification/Prelude.v ===== *)
(** * Verification of parts of WinQEMU

    WinQEMU is the QEMU machine emulator built for Windows.  This library
    models parts of it as executable functions and proves what makes them
    correct.  All sources are under src/qemu.

    ** Parts of the program and the files that model them

    Shared by everything:
    - [Prelude] (this file): C integers as [Z] with explicit wrap-around
      ([wrap], [in_u], [to_signed]), bit reasoning ([bits_simpl], the [cbits]
      and [width] hint databases), the option monad in rewriting steps
      ([bind_step]).
    - [Bitops] (bitops.h, bitops.c) and [Bitmap] (bitmap.c, bitmap.h): word
      helpers, searches, range updates, free-area search.  [unsigned long] has
      32 bits, as on Windows.
    - [HostUtils] (host-utils.c, host-utils.h, [muldiv64] of qemu-common.h):
      128-bit products, leading and trailing zeros, the scaling of clocks.

    The PC board, from the processor's instruction to the devices and back:
    - [IoPort] (ioport.c, ioport.h, iorange.h): the tables that map ports to
      handlers, registration and the six access functions.
    - [Irq] (hw/irq.c, hw/irq.h): interrupt lines, and the class
      [IrqController] of what devices rely on.
    - [I8259] (hw/i8259.c): the pair of interrupt controllers, an instance of
      that class.
    - [Apic] (hw/apic.c, hw/ioapic.c, and their connections in hw/pc.c and
      cpu-exec.c): the local controllers of the processors and the I/O controller
      on one bus, beside the pair of [I8259]; [ApicBus] has their invariants and
      theorems.
    - [I8254] (hw/i8254.c): the interval timer, using [HostUtils].
    - [Rtc] (hw/mc146818rtc.c, [mktimegm] of cutils.c): the real-time clock
      and its CMOS memory, using [HostUtils].
    - [Ps2] (hw/ps2.c) and [Pckbd] (hw/pckbd.c): keyboard and mouse behind
      their byte queues, and the controller that multiplexes them.
    - [Pcspk] (hw/pcspk.c, port 92 of hw/pc.c): the speaker, driven by channel
      2 of [I8254], and the fast A20 and reset port.
    - [Serial] (hw/serial.c): the serial port with its FIFOs and timers, over a
      character device and an [IrqController].
    - [Dma] (hw/dma.c): the two DMA controllers.
    - [IsaBoard] (hw/pc.c, and the port registrations of the devices): the
      devices behind [IoPort] and their lines into the interrupt controllers.

    Time:
    - [TimerList] and [Timer] (qemu-timer.c): the linked lists of armed timers
      with their pointers, the clocks, the cycle counter, arming, running and
      saving timers, and the instruction-count mode.
    - [Async] (async.c): bottom halves, the work the main loop runs as soon as it
      can, and the stack of contexts that keep requests apart.

    The network:
    - [Sbuf] (slirp/sbuf.c, slirp/sbuf.h): the socket ring buffer.
    - [NetQueue] (net/queue.c): the packet queue with re-entrant clients.
    - [Checksum] (net/checksum.c): TCP and UDP checksums.

    Storage, from bytes of a guest disk image to sectors of a host file:
    - [Stm]: the state monad with failure these files are written in, and its
      rules for post-conditions.
    - [Block] (block.c, block.h, block_int.h): sector and byte access over a
      driver, the dirty bitmap, sizes and flushing; the class [SectorStore] is
      what it expects of a driver.
    - [RawWin32] (block/raw-win32.c): the driver for host files, an instance of
      that class as long as the Windows calls transfer what they are asked to.
    - [Qcow2Cache] (block/qcow2-cache.c, block/qcow2.h): the write-back caches of
      the tables of an image, with the order they keep on disk.
    - [Qcow2Refcount] (block/qcow2-refcount.c): reference counts of clusters over
      those caches, allocation and freeing, growth of the table.

    Saved machines:
    - [QemuFile] (savevm.c): the buffered streams device state is saved to, over
      media that satisfy the classes [Sink] and [Source]; files are instances.
    - [Vmstate] (savevm.c, hw/hw.h): descriptions of device memory, and saving and
      loading by them over those streams.
    - [SaveVm] (savevm.c): the registered devices, and saving and loading a whole
      machine by sections.

    The machine protocol, from bytes to objects and back:
    - [JsonLexTable] and [JsonLexer] (json-lexer.c, json-streamer.c): the
      transition tables, the lexer over them and the message splitter.
    - [JsonParser] (json-parser.c): the recursive-descent parser.
    - [QDict] and [QDictGet] (qdict.c and the accessors of the object types):
      the hash table and its typed access.
    - [QJson] (qjson.c): printing; [JsonText] and [QJsonRoundTrip]: printed
      text read back through lexer, splitter and parser.

    ** Conventions

    A struct is a [Record], an operation a function from the old to the new
    state; [None] is a failure of the C program (an assertion, [hw_error], a
    division by zero, an access outside an array) or, where a file says so,
    fuel that ran out.  Code of other components (DMA transfer handlers, guest
    memory, [strtod], the socket send, packet receivers and callbacks) is a
    parameter of the definitions that use it.

    ** What the theorems show

    - Bit operations: the searches stay inside the array and return the least
      set bit; the free-area search ends and returns the first aligned area.
    - Wide arithmetic: the products are exact, the most negative number
      included.
    - Interrupt controllers: the selection refines a declarative priority
      specification; every reachable state is well formed; acknowledge, end of
      interrupt, edges and the cascade do what the data sheet says.
    - Local controllers: no sequence of operations of any number of processors and
      devices fails, and a processor with an interrupt to take is told, as long as
      no 8259 is initialised again; accepted interrupts nest like a stack; messages
      reach exactly the addressed controllers; a level line is served until it
      goes down.
    - Timer: no sequence of operations divides by zero or leaves a register
      width; the next transition is the exact first change of the output and
      lies in a bounded future; latched counts read back; the HPET hand-overs
      change a static variable and never the device.
    - Clock: a step of the calendar is one second of [mktimegm]; dates and
      registers convert into each other; the periodic timer makes progress;
      the 12-hour format misplaces noon and midnight.
    - Keyboard: the byte queues refine bounded first-in first-out queues; mouse
      packets add up to the motion; in every reachable state of the controller
      the status bits, lines and pending flags agree; bytes are read in order.
    - Speaker: the buffer holds the square wave of the count, and the audio
      callback plays it inside the buffer from where the last call stopped.
    - Serial port: in every reachable state no access fails and the interrupt
      register and line show the most urgent cause, against a table of the
      causes; bytes go out once and in order, or come back in loopback; the
      receive FIFO refines a queue of sixteen bytes; a byte interrupts
      the processor at the trigger level or after the timeout.
    - Timers: the pointer code refines insertion into a sorted queue; one run
      fires exactly the expired timers in order; the cycle counter never goes
      backwards while it runs; timers survive saving and loading.
    - Bottom halves: a poll gives each of them one turn, frees exactly the deleted
      ones and returns, whatever the callbacks do to the list; leaving a context
      gives the parent back.
    - DMA: the byte-wise register protocol round-trips; a run serves exactly
      the channels that ask; what decrement mode really transfers.
    - Ports: registration is exact or refused; wide accesses are split in
      order; the board has the documented port map; interrupts of the timer,
      of the clock (through the cascade) and of the keyboard reach the processor
      with their vector.
    - Network: the socket buffer refines a byte queue and keeps the stream in
      order; the packet queue neither loses nor duplicates packets, returns as
      long as its clients send finitely many, and keeps their order; patched checksums verify, and short frames overrun.
    - Storage: byte access at any alignment refines an array of bytes, and an
      error changes nothing outside the sectors of the request; the dirty counter is exact, and its bitmap too short for some
      disks; failed host I/O is taken for success; the two caches over the file
      are one array of bytes, and write in the order of their dependencies;
      counts are updated exactly, allocation finds only free clusters and ends,
      and growing the refcount table overruns a buffer exactly from a certain
      size on.
    - Saved machines: what is put into a stream is got back in order, across any
      number of buffers; a device saved by its description, and a machine of such
      devices, is loaded back exactly, every described byte and nothing else;
      automatic registration gives every device a name under which it is found.
    - JSON: the two transition tables agree; the splitter is safe, independent
      of buffer boundaries and resynchronises; the parser is total on what the
      lexer makes; printing
      and parsing round-trip up to dictionary order; the dictionary refines a
      finite map.

    ** Bounds and fuel

    Loops of the C code that are not structural carry fuel that the theorems
    show to be enough: one unit per word or bit in the searches, eight rounds
    in the priority search, the token count in the parser, three rounds in the
    checksum folding (32-bit sums), the port count in registrations, one unit
    per timer or bottom half in the list walks, one unit per byte in the copies of a stream,
    one per level of nesting of a description, one per subsection and per section
    of a file, one more than the expired timers in a run, one
    more than the motion in the mouse packets and than the free samples in the
    speaker, three levels of flushing in the caches (a dependency has none
    itself), one unit per cluster the table describes in the search for free
    clusters, one per cluster of the request in an update and its undo, and one
    round more than the packets queued and still to be sent in a flush.  The
    sizing loop of a growing refcount table has 64 rounds; the theorem about it
    is for the sizes it finds within them; the theorems about counts hold
    while the hits of a cache entry stay below [INT_MAX].  Clients that answer
    for ever make a flush of packets endless in the program as well: the theorem
    is about those that send finitely many packets.  Callbacks that always
    schedule more work do the same to the flush of a context: there the theorems
    are about the flushes that return.

    ** Not modelled

    The dynamic translator and the processor front ends (their correctness is
    about two instruction sets), software floating point and disassemblers
    (third-party), the cluster mapping and snapshots of qcow2, the other image
    formats and asynchronous block requests, the rest of the user-mode network
    stack, host back ends (display, sound, USB, sockets), the main loop and the
    host alarm sources, monitor commands, live migration over sockets, the
    description tables of single devices, user-mode emulation,
    Windows glue and vendored libraries.  Of the modelled files, the migration descriptions, debug printing and tracing are left out.

    ** Plan

    Next: the cluster mapping of qcow2 over the counts and caches, its snapshots
    and consistency check, then the merging of write requests in the block
    layer. *)

From Stdlib Require Import ZArith Lia Btauto.
From stdpp Require Import base list option numbers.

Local Open Scope Z_scope.

(** ** C scalar conventions

    A [w]-bit unsigned integer is a [Z] in [0, 2^w); [wrap w] is the
    conversion the C standard gives to such a type.  [c_bool] is the value of
    a C comparison and [c_true] the test of a scalar in an [if]. *)

Definition wrap (w z : Z) : Z := z mod 2 ^ w.

Definition in_u (w x : Z) : Prop := 0 <= x < 2 ^ w.

Definition to_signed (w z : Z) : Z :=
  if wrap w z <? 2 ^ (w - 1) then wrap w z else wrap w z - 2 ^ w.

Definition c_bool (b : bool) : Z := if b then 1 else 0.

Definition c_true (x : Z) : bool := negb (x =? 0).

Declare Scope c_scope.
Delimit Scope c_scope with C.
Notation "x .& y" := (Z.land x y) (at level 40, left associativity) : c_scope.
Notation "x .| y" := (Z.lor x y) (at level 45, left associativity) : c_scope.
Notation "x .^ y" := (Z.lxor x y) (at level 44, left associativity) : c_scope.
Notation ".~ x" := (Z.lnot x) (at level 35, right associativity) : c_scope.
Notation "x .<< y" := (Z.shiftl x y) (at level 39, left associativity) : c_scope.
Notation "x .>> y" := (Z.shiftr x y) (at level 39, left associativity) : c_scope.

(** The [n] bytes of a number, most significant first *)
Fixpoint be_bytes (n : nat) (v : Z) : list Z :=
  match n with
  | O => []
  | S n => (Z.shiftr v (8 * Z.of_nat n)) mod 256 :: be_bytes n v
  end.

(** The byte type of the device registers. *)
Definition byte_wf (x : Z) : Prop := in_u 8 x.

#[global] Instance in_u_dec (w x : Z) : Decision (in_u w x).
Proof. unfold in_u. apply _. Defined.

#[global] Instance byte_wf_dec (x : Z) : Decision (byte_wf x).
Proof. unfold byte_wf. apply _. Defined.

(** ** Bit-level reasoning *)

Lemma testbit_high (w x i : Z) : 0 <= w -> in_u w x -> w <= i -> Z.testbit x i = false.
Proof.
  intros Hw [Hx Hlt] Hi. destruct (decide (x = 0)) as [-> | Hne].
  - apply Z.bits_0.
  - apply Z.bits_above_log2; [done |].
    apply Z.lt_le_trans with w; [| done]. apply Z.log2_lt_pow2; lia.
Qed.

Lemma in_u_testbit (w x : Z) :
  0 <= w -> 0 <= x -> (forall i, w <= i -> Z.testbit x i = false) -> in_u w x.
Proof.
  intros Hw Hx Hhi. split; [done |].
  destruct (decide (x = 0)) as [-> | Hne]; [apply Z.pow_pos_nonneg; lia |].
  apply Z.log2_lt_pow2; [lia |]. apply Z.nle_gt. intros Hle.
  specialize (Hhi _ Hle). rewrite Z.bit_log2 in Hhi; [done | lia].
Qed.

Lemma in_u_wrap (w z : Z) : 0 <= w -> in_u w (wrap w z).
Proof. intros Hw. apply Z.mod_pos_bound, Z.pow_pos_nonneg; lia. Qed.

Lemma wrap_small (w z : Z) : in_u w z -> wrap w z = z.
Proof. intros [? ?]. by apply Z.mod_small. Qed.

Lemma wrap_testbit (w z i : Z) :
  0 <= w -> Z.testbit (wrap w z) i = (i <? w) && Z.testbit z i.
Proof.
  intros Hw. unfold wrap. destruct (Z.ltb_spec i w).
  - by rewrite Z.mod_pow2_bits_low.
  - by rewrite Z.mod_pow2_bits_high.
Qed.

Lemma in_u_land_l (w x y : Z) : 0 <= w -> in_u w x -> in_u w (Z.land x y).
Proof.
  intros Hw Hx. apply in_u_testbit; [done | apply Z.land_nonneg; left; apply Hx |].
  intros i Hi. by rewrite Z.land_spec, (testbit_high w x).
Qed.

Lemma in_u_land_r (w x y : Z) : 0 <= w -> in_u w y -> in_u w (Z.land x y).
Proof. rewrite Z.land_comm. apply in_u_land_l. Qed.

Lemma in_u_lor (w x y : Z) : 0 <= w -> in_u w x -> in_u w y -> in_u w (Z.lor x y).
Proof.
  intros Hw Hx Hy. apply in_u_testbit; [done | apply Z.lor_nonneg; split; [apply Hx | apply Hy] |].
  intros i Hi. by rewrite Z.lor_spec, (testbit_high w x), (testbit_high w y).
Qed.

Lemma in_u_lxor (w x y : Z) : 0 <= w -> in_u w x -> in_u w y -> in_u w (Z.lxor x y).
Proof.
  intros Hw Hx Hy.
  apply in_u_testbit; [done | apply Z.lxor_nonneg; split; intros; [apply Hy | apply Hx] |].
  intros i Hi. by rewrite Z.lxor_spec, (testbit_high w x), (testbit_high w y).
Qed.

Lemma in_u_bit (w i : Z) : 0 <= i < w -> in_u w (Z.shiftl 1 i).
Proof.
  intros Hi. rewrite Z.shiftl_1_l. split; [apply Z.pow_nonneg; lia |].
  apply Z.pow_lt_mono_r; lia.
Qed.

Lemma in_u_mono (w w' x : Z) : 0 <= w <= w' -> in_u w x -> in_u w' x.
Proof.
  intros Hw [? ?]. split; [done |]. apply Z.lt_le_trans with (2 ^ w); [done |].
  apply Z.pow_le_mono_r; lia.
Qed.

Lemma testbit_bit (i j : Z) :
  0 <= i -> Z.testbit (Z.shiftl 1 i) j = bool_decide (i = j).
Proof.
  intros Hi. rewrite Z.shiftl_1_l. destruct (decide (0 <= j)).
  - rewrite Z.pow2_bits_eqb by lia. case_bool_decide; destruct (Z.eqb_spec i j); done.
  - rewrite Z.testbit_neg_r by lia. case_bool_decide; [lia | done].
Qed.

Lemma testbit_ones (n i : Z) :
  0 <= n -> Z.testbit (Z.ones n) i = (0 <=? i) && (i <? n).
Proof.
  intros Hn. destruct (Z.leb_spec 0 i); cbn.
  - destruct (Z.ltb_spec i n); [apply Z.ones_spec_low | apply Z.ones_spec_high]; lia.
  - by apply Z.testbit_neg_r.
Qed.

Lemma land_7 (x : Z) : Z.land x 7 = x mod 8.
Proof. by apply (Z.land_ones x 3). Qed.

Lemma land_1 (x : Z) : Z.land x 1 = x mod 2.
Proof. by apply (Z.land_ones x 1). Qed.

(** Testing one bit with [mask & (1 << i)], the idiom of every device. *)
Lemma land_bit_eq0 (x i : Z) :
  0 <= i -> Z.land x (Z.shiftl 1 i) = 0 <-> Z.testbit x i = false.
Proof.
  intros Hi. split; intros H.
  - apply (f_equal (fun z => Z.testbit z i)) in H.
    rewrite Z.land_spec, testbit_bit, bool_decide_eq_true_2, andb_true_r, Z.bits_0 in H by done.
    done.
  - apply Z.bits_inj'. intros j Hj. rewrite Z.land_spec, testbit_bit, Z.bits_0 by done.
    case_bool_decide; subst; [by rewrite H | apply andb_false_r].
Qed.

Lemma land_bit_eqb (x i : Z) :
  0 <= i -> (Z.land x (Z.shiftl 1 i) =? 0) = negb (Z.testbit x i).
Proof.
  intros Hi. destruct (Z.testbit x i) eqn:E; cbn.
  - apply Z.eqb_neq. intros H. apply land_bit_eq0 in H; [congruence | done].
  - by apply Z.eqb_eq, land_bit_eq0.
Qed.

Lemma c_true_land_bit (x i : Z) :
  0 <= i -> c_true (Z.land x (Z.shiftl 1 i)) = Z.testbit x i.
Proof. intros Hi. unfold c_true. by rewrite land_bit_eqb, negb_involutive. Qed.

Lemma c_true_nonzero (x : Z) : c_true x = true <-> x <> 0.
Proof. unfold c_true. rewrite negb_true_iff. apply Z.eqb_neq. Qed.

Lemma exists_bit (w x : Z) :
  0 <= w -> in_u w x -> x <> 0 -> exists i, 0 <= i < w /\ Z.testbit x i = true.
Proof.
  intros Hw Hx Hne. exists (Z.log2 x). pose proof (Z.log2_nonneg x).
  rewrite Z.bit_log2 by (destruct Hx; lia).
  split; [split; [done |] | done]. apply Z.log2_lt_pow2; destruct Hx; lia.
Qed.

Lemma bits_eq_0 (x : Z) : (forall i, 0 <= i -> Z.testbit x i = false) -> x = 0.
Proof. intros H. apply Z.bits_inj'. intros i Hi. rewrite Z.bits_0. by apply H. Qed.

(** ** The rewriting and hint databases of the development *)

Create HintDb width.
#[export] Hint Resolve in_u_wrap in_u_land_l in_u_land_r in_u_lor in_u_lxor in_u_bit : width.
#[export] Hint Extern 4 (0 <= _) => lia : width.
#[export] Hint Extern 4 (0 <= _ < _) => lia : width.
#[export] Hint Extern 1 (in_u _ _) => (split; [discriminate | reflexivity]) : width.

Create Rewrite HintDb cbits.
#[export] Hint Rewrite Z.land_spec Z.lor_spec Z.lxor_spec Z.bits_0 : cbits.
#[export] Hint Rewrite Z.lnot_spec Z.shiftr_spec Z.shiftl_spec using lia : cbits.
#[export] Hint Rewrite testbit_bit wrap_testbit testbit_ones using lia : cbits.

(** Reduce the bit tests of the goal, deciding the comparisons of positions. *)
Ltac bits_simpl :=
  autorewrite with cbits;
  repeat match goal with
  | |- context [bool_decide (?i = ?j)] =>
      first [ rewrite (bool_decide_eq_true_2 (i = j)) by lia
            | rewrite (bool_decide_eq_false_2 (i = j)) by lia ]
  | |- context [?i <? ?j] =>
      first [ rewrite (proj2 (Z.ltb_lt i j)) by lia
            | rewrite (proj2 (Z.ltb_ge i j)) by lia ]
  | |- context [?i <=? ?j] =>
      first [ rewrite (proj2 (Z.leb_le i j)) by lia
            | rewrite (proj2 (Z.leb_gt i j)) by lia ]
  end;
  rewrite ?andb_true_r, ?andb_false_r, ?orb_true_r, ?orb_false_r; cbn [andb orb negb xorb].

(** Split on every boolean comparison of integers in the goal. *)
Ltac case_cmp :=
  repeat match goal with
  | |- context [?x =? ?y] => destruct (Z.eqb_spec x y)
  | |- context [?x <? ?y] => destruct (Z.ltb_spec x y)
  | |- context [?x <=? ?y] => destruct (Z.leb_spec x y)
  end.

(** Prove a decidable closed proposition by evaluating its decision. *)
Ltac by_eval := apply (bool_decide_unpack _); vm_compute; exact I.

(** Solve a register-width side condition. *)
Ltac width :=
  lazymatch goal with
  | |- in_u _ _ => eauto 8 with width
  | |- _ => assumption
  end.

(** ** Lists indexed by integers *)

Lemma drop_head_lookup {A} (l : list A) (n : nat) : head (drop n l) = l !! n.
Proof. revert n. induction l as [| x l IH]; intros [| n]; cbn; auto. Qed.

(** Filters that keep everything or nothing *)
Lemma filter_all {A} (P : A -> Prop) `{!forall x, Decision (P x)} (l : list A) :
  Forall P l -> filter P l = l.
Proof. induction 1; [done |]. rewrite filter_cons_True by done. by f_equal. Qed.

Lemma filter_none {A} (P : A -> Prop) `{!forall x, Decision (P x)} (l : list A) :
  Forall (fun x => ~ P x) l -> filter P l = [].
Proof. induction 1; [done |]. by rewrite filter_cons_False. Qed.

Lemma filter_same {A} (P Q : A -> Prop) `{!forall x, Decision (P x), !forall x, Decision (Q x)} (l : list A) :
  (forall x, x ∈ l -> (P x <-> Q x)) -> filter P l = filter Q l.
Proof.
  induction l as [| x l IH]; intros Hpq; [done |]. rewrite !filter_cons, IH by (intros y Hy; apply Hpq; by right).
  pose proof (Hpq x ltac:(left)). repeat case_decide; tauto.
Qed.

(** Disjoint fields: [or] is addition. *)
Lemma lor_shiftl_add (k hi lo : Z) :
  0 <= k -> in_u k lo -> Z.lor (Z.shiftl hi k) lo = hi * 2 ^ k + lo.
Proof.
  intros Hk Hlo. rewrite <- Z.shiftl_mul_pow2 by lia.
  rewrite <- Z.lxor_lor; [symmetry; apply Z.add_nocarry_lxor |];
    apply Z.bits_inj'; intros n Hn; rewrite Z.land_spec, Z.bits_0, Z.shiftl_spec by lia;
    (destruct (Z.ltb_spec n k);
       [rewrite (Z.testbit_neg_r hi) by lia; done
       | rewrite (testbit_high k lo n) by (done || lia); apply andb_false_r]).
Qed.

(** One step of the option monad by rewriting: the terms after the bind stay
    folded for the kernel. *)
Lemma bind_some {A B} (x : A) (f : A -> option B) : (Some x ≫= f) = f x.
Proof. done. Qed.

Ltac bind_step := rewrite bind_some; cbv beta iota.
