(* ===== verification/Bitops.v ===== *)
(** * Bit searches (qemu/bitops.h, qemu/bitops.c)

    An [unsigned long] array is a list of words; on the Windows ABIs this
    repository targets [long] has 32 bits, so [BITS_PER_LONG] is 32 and the
    [LONG_MAX > 0x7FFFFFFF] branches of bitops.h are not compiled.  A pointer
    into the array is the suffix of the list it points at, and dereferencing
    past its end is [None], so a [Some] result is also a proof that the
    search stays inside the array.

    Theorems: each search returns the least (greatest) position of a set or
    cleared bit, without reading outside the array. *)

From Stdlib Require Import ZArith Lia Btauto.
From stdpp Require Import base list option numbers.
From S2P Require Import Prelude.

Local Open Scope Z_scope.

(** ** Definitions *)

Definition BITS_PER_LONG : Z := 32.

(** [~0UL] *)
Definition ULONG_MAX : Z := Z.ones BITS_PER_LONG.

(** [BIT_MASK(nr)] and [BIT_WORD(nr)] *)
Definition BIT_MASK (nr : Z) : Z := Z.shiftl 1 (nr mod BITS_PER_LONG).
Definition BIT_WORD (nr : Z) : Z := nr / BITS_PER_LONG.

(** One [if ((word & mask) == 0) { num += k; word >>= k; }] of
    [bitops_ffsl], on the pair [(num, word)]. *)
Definition ffsl_step (mask k : Z) (s : Z * Z) : Z * Z :=
  let '(num, word) := s in
  if Z.land word mask =? 0 then (num + k, Z.shiftr word k) else (num, word).

Definition bitops_ffsl (word : Z) : Z :=
  let s := (0, word) in
  let s := ffsl_step 0xffff 16 s in
  let s := ffsl_step 0xff 8 s in
  let s := ffsl_step 0xf 4 s in
  let s := ffsl_step 0x3 2 s in
  let '(num, word) := s in
  if Z.land word 0x1 =? 0 then num + 1 else num.

(** [~0ul << n] as a 32-bit value *)
Definition ulong_shl_ones (n : Z) : Z := wrap BITS_PER_LONG (Z.shiftl ULONG_MAX n).

(** One [if (!(word & (~0ul << (BITS_PER_LONG-k)))) { num -= k; word <<= k; }]
    of [bitops_flsl]. *)
Definition flsl_step (k : Z) (s : Z * Z) : Z * Z :=
  let '(num, word) := s in
  if Z.land word (ulong_shl_ones (BITS_PER_LONG - k)) =? 0
  then (num - k, wrap BITS_PER_LONG (Z.shiftl word k)) else (num, word).

Definition bitops_flsl (word : Z) : Z :=
  let s := (BITS_PER_LONG - 1, word) in
  let s := flsl_step 16 s in
  let s := flsl_step 8 s in
  let s := flsl_step 4 s in
  let s := flsl_step 2 s in
  let '(num, word) := s in
  if Z.land word (ulong_shl_ones (BITS_PER_LONG - 1)) =? 0 then num - 1 else num.

Definition ulong_not (x : Z) : Z := wrap BITS_PER_LONG (Z.lnot x).

Definition ffz (word : Z) : Z := bitops_ffsl (ulong_not word).

(** The read-modify-write helpers; [None] is a store outside the array. *)
Definition update_word (f : Z -> Z) (nr : Z) (addr : list Z) : option (list Z) :=
  old ← addr !! Z.to_nat (BIT_WORD nr);
  Some (<[Z.to_nat (BIT_WORD nr) := f old]> addr).

Definition set_bit (nr : Z) (addr : list Z) : option (list Z) :=
  update_word (fun old => Z.lor old (BIT_MASK nr)) nr addr.

Definition clear_bit (nr : Z) (addr : list Z) : option (list Z) :=
  update_word (fun old => Z.land old (ulong_not (BIT_MASK nr))) nr addr.

Definition change_bit (nr : Z) (addr : list Z) : option (list Z) :=
  update_word (fun old => Z.lxor old (BIT_MASK nr)) nr addr.

Definition test_bit (nr : Z) (addr : list Z) : option Z :=
  w ← addr !! Z.to_nat (BIT_WORD nr);
  Some (Z.land 1 (Z.shiftr w (Z.land nr (BITS_PER_LONG - 1)))).

Definition test_and (f : Z -> Z -> Z) (nr : Z) (addr : list Z) : option (Z * list Z) :=
  old ← addr !! Z.to_nat (BIT_WORD nr);
  Some (c_bool (c_true (Z.land old (BIT_MASK nr))),
        <[Z.to_nat (BIT_WORD nr) := f old (BIT_MASK nr)]> addr).

Definition test_and_set_bit := test_and Z.lor.
Definition test_and_clear_bit := test_and (fun old mask => Z.land old (ulong_not mask)).
Definition test_and_change_bit := test_and Z.lxor.

(** The label [found_first] of [find_next_bit]. *)
Definition find_next_bit_found_first (tmp size result : Z) : Z :=
  let tmp := Z.land tmp (Z.shiftr ULONG_MAX (BITS_PER_LONG - size)) in
  if tmp =? 0 then result + size else result + bitops_ffsl tmp.

(** The [while] loop and what follows it. *)
Fixpoint find_next_bit_loop (p : list Z) (size result : Z) : option Z :=
  if Z.land size (ulong_not (BITS_PER_LONG - 1)) =? 0 then
    if size =? 0 then Some result
    else tmp ← head p; Some (find_next_bit_found_first tmp size result)
  else
    match p with
    | [] => None
    | tmp :: p' =>
        if c_true tmp then Some (result + bitops_ffsl tmp)
        else find_next_bit_loop p' (size - BITS_PER_LONG) (result + BITS_PER_LONG)
    end.

Definition find_next_bit (addr : list Z) (size offset : Z) : option Z :=
  let p := drop (Z.to_nat (BIT_WORD offset)) addr in
  let result := Z.land offset (ulong_not (BITS_PER_LONG - 1)) in
  if size <=? offset then Some size
  else
    let size := size - result in
    let offset := offset mod BITS_PER_LONG in
    if c_true offset then
      tmp ← head p;
      let tmp := Z.land tmp (ulong_shl_ones offset) in
      if size <? BITS_PER_LONG then Some (find_next_bit_found_first tmp size result)
      else if c_true tmp then Some (result + bitops_ffsl tmp)
      else find_next_bit_loop (tail p) (size - BITS_PER_LONG) (result + BITS_PER_LONG)
    else find_next_bit_loop p size result.

Definition find_next_zero_bit_found_first (tmp size result : Z) : Z :=
  let tmp := Z.lor tmp (ulong_shl_ones size) in
  if tmp =? ULONG_MAX then result + size else result + ffz tmp.

Fixpoint find_next_zero_bit_loop (p : list Z) (size result : Z) : option Z :=
  if Z.land size (ulong_not (BITS_PER_LONG - 1)) =? 0 then
    if size =? 0 then Some result
    else tmp ← head p; Some (find_next_zero_bit_found_first tmp size result)
  else
    match p with
    | [] => None
    | tmp :: p' =>
        if c_true (ulong_not tmp) then Some (result + ffz tmp)
        else find_next_zero_bit_loop p' (size - BITS_PER_LONG) (result + BITS_PER_LONG)
    end.

Definition find_next_zero_bit (addr : list Z) (size offset : Z) : option Z :=
  let p := drop (Z.to_nat (BIT_WORD offset)) addr in
  let result := Z.land offset (ulong_not (BITS_PER_LONG - 1)) in
  if size <=? offset then Some size
  else
    let size := size - result in
    let offset := offset mod BITS_PER_LONG in
    if c_true offset then
      tmp ← head p;
      let tmp := Z.lor tmp (Z.shiftr ULONG_MAX (BITS_PER_LONG - offset)) in
      if size <? BITS_PER_LONG then Some (find_next_zero_bit_found_first tmp size result)
      else if c_true (ulong_not tmp) then Some (result + ffz tmp)
      else find_next_zero_bit_loop (tail p) (size - BITS_PER_LONG) (result + BITS_PER_LONG)
    else find_next_zero_bit_loop p size result.

(** The [while (words)] loop of [find_last_bit], [words] counting down. *)
Fixpoint find_last_bit_loop (addr : list Z) (size : Z) (words : nat) : option Z :=
  match words with
  | O => Some size
  | S words =>
      tmp ← addr !! words;
      if c_true tmp then Some (Z.of_nat words * BITS_PER_LONG + bitops_flsl tmp)
      else find_last_bit_loop addr size words
  end.

Definition find_last_bit (addr : list Z) (size : Z) : option Z :=
  let words := Z.to_nat (size / BITS_PER_LONG) in
  if c_true (Z.land size (BITS_PER_LONG - 1)) then
    tmp ← addr !! words;
    let tmp := Z.land tmp
      (Z.shiftr ULONG_MAX (BITS_PER_LONG - Z.land size (BITS_PER_LONG - 1))) in
    if c_true tmp then Some (Z.of_nat words * BITS_PER_LONG + bitops_flsl tmp)
    else find_last_bit_loop addr size words
  else find_last_bit_loop addr size words.

Definition find_first_bit (addr : list Z) (size : Z) : option Z := find_next_bit addr size 0.

Definition find_first_zero_bit (addr : list Z) (size : Z) : option Z :=
  find_next_zero_bit addr size 0.

Fixpoint hweight_loop (fuel : nat) (w count : Z) : Z :=
  match fuel with
  | O => count
  | S fuel => if c_true w then hweight_loop fuel (Z.shiftr w 1) (count + Z.land w 1) else count
  end.

(** Every [unsigned long] is zero after 32 shifts. *)
Definition hweight_long (w : Z) : Z := hweight_loop 32 w 0.

(** ** Specification

    [bit_at addr i] is bit [i] of the array read as one bit string;
    [first_true f lo hi r]: [r] is the least position of [lo, hi) where [f]
    holds, or [hi]. *)

Definition word_at (addr : list Z) (k : Z) : Z := default 0 (addr !! Z.to_nat k).

Definition bit_at (addr : list Z) (i : Z) : bool :=
  Z.testbit (word_at addr (i / BITS_PER_LONG)) (i mod BITS_PER_LONG).

Definition words_wf (addr : list Z) : Prop := Forall (in_u BITS_PER_LONG) addr.

#[global] Instance words_wf_dec (addr : list Z) : Decision (words_wf addr).
Proof. unfold words_wf. apply _. Defined.

Definition bit_size (addr : list Z) : Z := Z.of_nat (length addr) * BITS_PER_LONG.

Definition first_true (f : Z -> bool) (lo hi r : Z) : Prop :=
  lo <= r <= hi /\ (forall j, lo <= j < r -> f j = false) /\ (r < hi -> f r = true).

Definition last_true (f : Z -> bool) (hi r : Z) : Prop :=
  (0 <= r < hi /\ f r = true /\ forall j, r < j < hi -> f j = false)
  \/ (r = hi /\ forall j, 0 <= j < hi -> f j = false).

Definition lowest_set (x r : Z) : Prop :=
  0 <= r /\ Z.testbit x r = true /\ forall j, 0 <= j < r -> Z.testbit x j = false.

Definition highest_set (x r : Z) : Prop :=
  0 <= r /\ Z.testbit x r = true /\ forall j, r < j -> Z.testbit x j = false.

(** ** Single words *)

Lemma land_ones_eq0 (x k : Z) :
  0 <= k -> Z.land x (Z.ones k) = 0 <-> forall j, 0 <= j < k -> Z.testbit x j = false.
Proof.
  intros Hk. split.
  - intros H j Hj. apply (f_equal (fun z => Z.testbit z j)) in H. revert H. by bits_simpl.
  - intros H. apply bits_eq_0. intros j Hj. bits_simpl.
    destruct (Z.ltb_spec j k); [rewrite H by lia; done | by rewrite andb_false_r].
Qed.

Lemma lowest_set_unique (x r r' : Z) : lowest_set x r -> lowest_set x r' -> r = r'.
Proof.
  intros (? & Hr & Hlo) (? & Hr' & Hlo').
  destruct (Z.lt_total r r') as [Hlt | [Heq | Hlt]]; [| done |].
  - rewrite Hlo' in Hr; [done | lia].
  - rewrite Hlo in Hr'; [done | lia].
Qed.

(** Where the search stands: the low [k] bits of the shifted word hold the
    lowest set bit of [x], [num] positions further down. *)
Definition ffsl_inv (x k : Z) (s : Z * Z) : Prop :=
  Z.land s.2 (Z.ones k) <> 0 /\ forall r, lowest_set s.2 r -> lowest_set x (s.1 + r).

Lemma lowest_set_shiftr (x k r : Z) :
  0 <= k -> Z.land x (Z.ones k) = 0 -> lowest_set (Z.shiftr x k) r -> lowest_set x (k + r).
Proof.
  intros Hk Hlow (Hr & Hb & Hlt). rewrite land_ones_eq0 in Hlow by lia.
  rewrite Z.shiftr_spec in Hb by lia.
  repeat split; [lia | by rewrite Z.add_comm |]. intros j Hj.
  destruct (Z.ltb_spec j k); [apply Hlow; lia |].
  specialize (Hlt (j - k) ltac:(lia)). rewrite Z.shiftr_spec in Hlt by lia.
  by replace (j - k + k) with j in Hlt by lia.
Qed.

Lemma ffsl_step_inv (x k : Z) (s : Z * Z) :
  0 < k -> ffsl_inv x (2 * k) s -> ffsl_inv x k (ffsl_step (Z.ones k) k s).
Proof.
  destruct s as [n w]. intros Hk [Hw Hx]. unfold ffsl_inv, ffsl_step. cbn in *.
  destruct (Z.eqb_spec (Z.land w (Z.ones k)) 0) as [H0 |]; [| done]. cbn. split.
  - intros H. apply Hw. rewrite land_ones_eq0 in H0, H |- * by lia. intros j Hj.
    destruct (Z.ltb_spec j k); [apply H0; lia |].
    specialize (H (j - k) ltac:(lia)). rewrite Z.shiftr_spec in H by lia.
    by replace (j - k + k) with j in H by lia.
  - intros r Hr. rewrite <- Z.add_assoc. apply Hx. apply lowest_set_shiftr; [lia | done..].
Qed.

Lemma lowest_set_0 (x : Z) : Z.testbit x 0 = true -> lowest_set x 0.
Proof. intros H. repeat split; [lia | done | lia]. Qed.

Lemma bitops_ffsl_spec (x : Z) :
  in_u BITS_PER_LONG x -> x <> 0 -> lowest_set x (bitops_ffsl x).
Proof.
  intros Hx Hne. unfold bitops_ffsl.
  assert (H : ffsl_inv x (2 * 16) (0, x)).
  { split; [cbn; rewrite Z.land_ones, Z.mod_small by (apply Hx || lia); done | done]. }
  apply (ffsl_step_inv x 16) in H; [| lia]. apply (ffsl_step_inv x 8) in H; [| lia].
  apply (ffsl_step_inv x 4) in H; [| lia]. apply (ffsl_step_inv x 2) in H; [| lia].
  change (Z.ones 16) with 0xffff in H. change (Z.ones 8) with 0xff in H.
  change (Z.ones 4) with 0xf in H. change (Z.ones 2) with 0x3 in H.
  destruct (ffsl_step 0x3 2 _) as [n w]. destruct H as [Hw Hn]. cbn in Hw, Hn.
  change 0x1 with (Z.shiftl 1 0). rewrite land_bit_eqb by lia.
  destruct (Z.testbit w 0) eqn:E0; cbn.
  - rewrite <- (Z.add_0_r n). by apply Hn, lowest_set_0.
  - apply Hn. apply (lowest_set_shiftr w 1 0); [lia | by apply (land_bit_eq0 w 0) |].
    apply lowest_set_0. rewrite Z.shiftr_spec by lia.
    destruct (Z.testbit w (0 + 1)) eqn:E1; [done |]. destruct Hw.
    change 3 with (Z.ones 2). apply land_ones_eq0; [lia |]. intros j Hj.
    by assert (j = 0 \/ j = 1) as [-> | ->] by lia.
Qed.

Lemma ulong_shl_ones_testbit (n i : Z) :
  0 <= n -> 0 <= i -> Z.testbit (ulong_shl_ones n) i = (i <? 32) && (n <=? i).
Proof.
  intros Hn Hi. unfold ulong_shl_ones, ULONG_MAX, BITS_PER_LONG.
  autorewrite with cbits. case_cmp; cbn; try done; lia.
Qed.

Lemma land_shl_ones_eq0 (w n : Z) :
  0 <= n -> in_u 32 w ->
  Z.land w (ulong_shl_ones n) = 0 <-> forall j, n <= j -> Z.testbit w j = false.
Proof.
  intros Hn Hw. split; intros H.
  - intros j Hj. destruct (Z.ltb_spec j 32); [| by apply (testbit_high 32)].
    apply (f_equal (fun z => Z.testbit z j)) in H.
    rewrite Z.land_spec, ulong_shl_ones_testbit, Z.bits_0 in H by lia.
    revert H. by bits_simpl.
  - apply bits_eq_0. intros j Hj. rewrite Z.land_spec, ulong_shl_ones_testbit by lia.
    destruct (Z.leb_spec n j); [by rewrite H | by rewrite !andb_false_r].
Qed.

(** The dual of [ffsl_inv]: the high [k] bits hold the highest set bit of [x]. *)
Definition flsl_inv (x k : Z) (s : Z * Z) : Prop :=
  in_u 32 s.2 /\ Z.land s.2 (ulong_shl_ones (32 - k)) <> 0
  /\ forall r, highest_set s.2 r -> highest_set x (s.1 - 31 + r).

Lemma highest_set_shiftl (w k r : Z) :
  0 <= k -> in_u 32 w -> (forall j, 32 - k <= j -> Z.testbit w j = false) ->
  highest_set (wrap 32 (Z.shiftl w k)) r -> 0 <= r - k -> highest_set w (r - k).
Proof.
  intros Hk Hw Hz (Hr & Hb & Hhi) Hrk.
  rewrite wrap_testbit, Z.shiftl_spec in Hb by lia. apply andb_true_iff in Hb as [_ Hb].
  split; [done | split; [done |]]. intros j Hj.
  destruct (Z.ltb_spec (j + k) 32); [| apply Hz; lia].
  specialize (Hhi (j + k) ltac:(lia)). rewrite wrap_testbit, Z.shiftl_spec in Hhi by lia.
  replace (j + k - k) with j in Hhi by lia. revert Hhi. by bits_simpl.
Qed.

Lemma flsl_step_inv (x k : Z) (s : Z * Z) :
  0 < k -> 2 * k <= 32 -> flsl_inv x (2 * k) s -> flsl_inv x k (flsl_step k s).
Proof.
  destruct s as [n w]. intros Hk Hk2 (Hwf & Hw & Hx). unfold flsl_inv, flsl_step. cbn in *.
  change BITS_PER_LONG with 32.
  destruct (Z.eqb_spec (Z.land w (ulong_shl_ones (32 - k))) 0) as [H0 |]; [| done].
  rewrite land_shl_ones_eq0 in H0 by (lia || done). cbn.
  assert (Hin : in_u 32 (wrap 32 (Z.shiftl w k))) by width.
  split; [done | split].
  - intros H. apply Hw. rewrite land_shl_ones_eq0 in H |- * by (lia || done).
    intros j Hj. destruct (Z.ltb_spec j (32 - k)); [| apply H0; lia].
    specialize (H (j + k) ltac:(lia)). rewrite wrap_testbit, Z.shiftl_spec in H by lia.
    replace (j + k - k) with j in H by lia. revert H. by bits_simpl.
  - intros r Hr. replace (n - k - 31 + r) with (n - 31 + (r - k)) by lia.
    apply Hx. apply highest_set_shiftl; [lia | done | intros; by apply H0 | done |].
    destruct Hr as (_ & Hb & _). rewrite wrap_testbit, Z.shiftl_spec in Hb
      by (lia || (destruct (Z.ltb_spec r 0); [rewrite Z.testbit_neg_r in Hb |]; done || lia)).
    apply andb_true_iff in Hb as [_ Hb].
    destruct (Z.ltb_spec (r - k) 0); [by rewrite Z.testbit_neg_r in Hb | done].
Qed.

Lemma highest_set_31 (w : Z) : in_u 32 w -> Z.testbit w 31 = true -> highest_set w 31.
Proof.
  intros Hw H. repeat split; [lia | done |]. intros j Hj. apply (testbit_high 32); [lia | done | lia].
Qed.

Lemma bitops_flsl_spec (x : Z) :
  in_u BITS_PER_LONG x -> x <> 0 -> highest_set x (bitops_flsl x).
Proof.
  intros Hx Hne. unfold bitops_flsl. change BITS_PER_LONG with 32 in *.
  assert (H : flsl_inv x (2 * 16) (31, x)).
  { split; [done |]. split; [| done]. intros H. apply Hne. cbn [snd] in H.
    rewrite land_shl_ones_eq0 in H by (lia || done). apply bits_eq_0. intros. apply H. lia. }
  apply (flsl_step_inv x 16) in H; [| lia..]. apply (flsl_step_inv x 8) in H; [| lia..].
  apply (flsl_step_inv x 4) in H; [| lia..]. apply (flsl_step_inv x 2) in H; [| lia..].
  change (32 - 1) with 31. destruct (flsl_step 2 _) as [n w].
  destruct H as (Hwf & Hw & Hn). cbn in Hwf, Hw, Hn.
  change (ulong_shl_ones 31) with (Z.shiftl 1 31). rewrite land_bit_eqb by lia.
  destruct (Z.testbit w 31) eqn:E31; cbn.
  - replace n with (n - 31 + 31) by lia. by apply Hn, highest_set_31.
  - replace (n - 1) with (n - 31 + 30) by lia. apply Hn.
    assert (H30 : Z.testbit w 30 = true).
    { destruct (Z.testbit w 30) eqn:E; [done |]. destruct Hw.
      rewrite land_shl_ones_eq0 by (lia || done). intros j Hj.
      destruct (Z.ltb_spec j 32); [| apply (testbit_high 32); [lia | done | lia]].
      by assert (j = 30 \/ j = 31) as [-> | ->] by lia. }
    repeat split; [lia | done |]. intros j Hj.
    destruct (decide (j = 31)) as [-> |]; [done |]. apply (testbit_high 32); [lia | done | lia].
Qed.

(** ** The bit view of an array *)

Lemma bit_at_cons_lo (w : Z) (p : list Z) (i : Z) :
  0 <= i < 32 -> bit_at (w :: p) i = Z.testbit w i.
Proof.
  intros Hi. unfold bit_at, word_at, BITS_PER_LONG.
  by rewrite Z.div_small, Z.mod_small by lia.
Qed.

Lemma bit_at_cons_hi (w : Z) (p : list Z) (i : Z) :
  32 <= i -> bit_at (w :: p) i = bit_at p (i - 32).
Proof.
  intros Hi. unfold bit_at, word_at, BITS_PER_LONG.
  replace i with (i - 32 + 1 * 32) at 1 2 by lia.
  rewrite Z.div_add, Z.mod_add by lia. pose proof (Z.div_pos (i - 32) 32 ltac:(lia) ltac:(lia)).
  rewrite Z2Nat.inj_add, Nat.add_comm by lia. done.
Qed.

Lemma bit_at_drop (p : list Z) (k : nat) (i : Z) :
  0 <= i -> bit_at (drop k p) i = bit_at p (32 * Z.of_nat k + i).
Proof.
  intros Hi. unfold bit_at, word_at, BITS_PER_LONG. rewrite lookup_drop.
  replace (32 * Z.of_nat k + i) with (i + Z.of_nat k * 32) by lia.
  rewrite Z.div_add, Z.mod_add by lia. pose proof (Z.div_pos i 32 Hi ltac:(lia)).
  rewrite Z2Nat.inj_add, Nat2Z.id by lia. by rewrite Nat.add_comm.
Qed.

Lemma bit_at_high (p : list Z) (i : Z) : bit_size p <= i -> bit_at p i = false.
Proof.
  unfold bit_size, bit_at, word_at, BITS_PER_LONG. intros Hi.
  rewrite lookup_ge_None_2; [apply Z.bits_0 |].
  apply Nat2Z.inj_le. rewrite Z2Nat.id by (apply Z.div_pos; lia).
  apply Z.div_le_lower_bound; lia.
Qed.

Lemma bit_size_cons (w : Z) (p : list Z) : bit_size (w :: p) = 32 + bit_size p.
Proof. unfold bit_size, BITS_PER_LONG. cbn [length]. lia. Qed.

Lemma land_not_ones (x a : Z) :
  in_u 32 x -> 0 <= a -> Z.land x (ulong_not (Z.ones a)) = 2 ^ a * (x / 2 ^ a).
Proof.
  intros Hx Ha. pose proof (Z.pow_pos_nonneg 2 a ltac:(lia) Ha).
  pose proof (Z.div_mod x (2 ^ a) ltac:(lia)).
  replace (2 ^ a * (x / 2 ^ a)) with (x - x mod 2 ^ a) by lia.
  rewrite <- Z.land_ones by lia. rewrite (Z.sub_nocarry_ldiff x).
  - apply Z.bits_inj'. intros i Hi. unfold ulong_not, BITS_PER_LONG.
    rewrite Z.ldiff_spec. autorewrite with cbits.
    destruct (Z.testbit x i) eqn:E; [| done]. cbn.
    destruct (Z.ltb_spec i 32); [| by rewrite (testbit_high 32) in E].
    cbn. by rewrite ?andb_true_r.
  - apply Z.bits_inj'. intros i Hi. rewrite Z.ldiff_spec, Z.land_spec, Z.bits_0. btauto.
Qed.

Lemma land_word_mask (x : Z) :
  in_u 32 x -> Z.land x (ulong_not (BITS_PER_LONG - 1)) = 32 * (x / 32).
Proof. intros Hx. by apply (land_not_ones x 5). Qed.

Lemma land_31 (x : Z) : Z.land x (BITS_PER_LONG - 1) = x mod 32.
Proof. change (BITS_PER_LONG - 1) with (Z.ones 5). by rewrite Z.land_ones by lia. Qed.

Lemma land_word_mask_eqb (x : Z) :
  in_u 32 x -> (Z.land x (ulong_not (BITS_PER_LONG - 1)) =? 0) = (x <? 32).
Proof.
  intros Hx. rewrite land_word_mask by done. pose proof (Z.div_mod x 32 ltac:(lia)).
  pose proof (Z.mod_pos_bound x 32 ltac:(lia)). destruct Hx. case_cmp; done || lia.
Qed.

(** ** Least and greatest positions *)

Lemma first_true_ext (f g : Z -> bool) (lo hi r : Z) :
  (forall j, lo <= j < hi -> f j = g j) -> first_true f lo hi r -> first_true g lo hi r.
Proof.
  intros Hfg (Hr & Hlo & Hhi). split; [done | split].
  - intros j Hj. rewrite <- Hfg by lia. by apply Hlo.
  - intros H. rewrite <- Hfg by lia. by apply Hhi.
Qed.

Lemma first_true_shift (f : Z -> bool) (k lo hi r : Z) :
  first_true (fun j => f (k + j)) lo hi r -> first_true f (k + lo) (k + hi) (k + r).
Proof.
  intros (Hr & Hlo & Hhi). split; [lia | split].
  - intros j Hj. specialize (Hlo (j - k) ltac:(lia)). by replace (k + (j - k)) with j in Hlo by lia.
  - intros H. apply Hhi. lia.
Qed.

Lemma first_true_none (f : Z -> bool) (lo hi : Z) :
  lo <= hi -> (forall j, lo <= j < hi -> f j = false) -> first_true f lo hi hi.
Proof. intros Hle Hz. split; [lia | split; [done | lia]]. Qed.

Lemma first_true_found (f : Z -> bool) (lo hi r : Z) :
  lo <= r <= hi -> (forall j, lo <= j < r -> f j = false) -> f r = true -> first_true f lo hi r.
Proof. intros Hr Hz Hb. split; [lia | split; done]. Qed.

Lemma first_true_skip (f : Z -> bool) (lo mid hi r : Z) :
  lo <= mid -> (forall j, lo <= j < mid -> f j = false) ->
  first_true f mid hi r -> first_true f lo hi r.
Proof.
  intros Hm Hz (Hr & Hlo & Hhi). split; [lia | split]; [| done].
  intros j Hj. destruct (Z.ltb_spec j mid); [apply Hz | apply Hlo]; lia.
Qed.

Lemma lowest_set_first_true (x hi r : Z) :
  lowest_set x r -> r <= hi -> first_true (Z.testbit x) 0 hi r.
Proof. intros (Hr & Hb & Hlo) Hh. by apply first_true_found. Qed.

(** ** [find_next_bit] *)

Lemma find_next_bit_found_first_spec (tmp size result : Z) :
  in_u 32 tmp -> 0 < size < 32 ->
  exists r, find_next_bit_found_first tmp size result = result + r
            /\ first_true (Z.testbit tmp) 0 size r.
Proof.
  intros Hw Hs. unfold find_next_bit_found_first.
  set (t := Z.land tmp _).
  assert (Ht : forall j, 0 <= j -> Z.testbit t j = (j <? size) && Z.testbit tmp j).
  { intros j Hj. unfold t, ULONG_MAX, BITS_PER_LONG. autorewrite with cbits.
    case_cmp; cbn; rewrite ?andb_true_r, ?andb_false_r; done || lia. }
  destruct (Z.eqb_spec t 0) as [H0 | H0].
  - exists size. split; [done |]. apply first_true_none; [lia |].
    intros j Hj. specialize (Ht j ltac:(lia)). rewrite H0, Z.bits_0 in Ht.
    revert Ht. by bits_simpl.
  - exists (bitops_ffsl t). split; [done |].
    assert (Hl : lowest_set t (bitops_ffsl t)).
    { apply bitops_ffsl_spec; [by apply in_u_land_l | done]. }
    pose proof Hl as (Hr & Hb & Hlt). rewrite Ht in Hb by lia.
    apply andb_true_iff in Hb as [Hlt' Hb]. apply Z.ltb_lt in Hlt'.
    apply (first_true_ext (Z.testbit t)).
    + intros j Hj. rewrite Ht by lia. by bits_simpl.
    + apply lowest_set_first_true; [done | lia].
Qed.

Lemma find_next_bit_loop_spec (p : list Z) (size result : Z) :
  words_wf p -> in_u 32 size -> size <= bit_size p ->
  exists r, find_next_bit_loop p size result = Some (result + r)
            /\ first_true (bit_at p) 0 size r.
Proof.
  intros Hwf. revert size result. induction Hwf as [| w p Hw Hwf IH]; intros size result Hs Hle.
  - exists 0. assert (size = 0) as -> by (unfold bit_size in Hle; cbn in Hle; destruct Hs; lia).
    cbn. rewrite Z.add_0_r. split; [done |]. apply first_true_none; lia.
  - rewrite bit_size_cons in Hle. cbn [find_next_bit_loop head mbind option_bind].
    rewrite land_word_mask_eqb by done. destruct (Z.ltb_spec size 32).
    + destruct (Z.eqb_spec size 0) as [-> |].
      { exists 0. rewrite Z.add_0_r. split; [done |]. apply first_true_none; lia. }
      destruct (find_next_bit_found_first_spec w size result) as (r & -> & Hr);
        [done | destruct Hs; lia |].
      exists r. split; [done |]. apply (first_true_ext (Z.testbit w)); [| done].
      intros j Hj. by rewrite bit_at_cons_lo by lia.
    + unfold c_true. destruct (Z.eqb_spec w 0) as [-> | Hne]; cbn [negb].
      * destruct (IH (size - 32) (result + 32)) as (r & Hr & Hf);
          [destruct Hs; split; lia | lia |].
        exists (32 + r). change BITS_PER_LONG with 32. rewrite Hr. split; [f_equal; lia |].
        apply (first_true_skip _ 0 32); [lia | |].
        { intros j Hj. rewrite bit_at_cons_lo by lia. apply Z.bits_0. }
        replace size with (32 + (size - 32)) by lia.
        apply (first_true_shift (bit_at (0 :: p)) 32 0 (size - 32) r).
        eapply first_true_ext; [| done]. intros j Hj. cbn.
        rewrite bit_at_cons_hi by lia. f_equal. lia.
      * exists (bitops_ffsl w). split; [done |].
        pose proof (bitops_ffsl_spec w Hw Hne) as Hl.
        assert (bitops_ffsl w < 32).
        { destruct Hl as (? & Hb & _). destruct (Z.ltb_spec (bitops_ffsl w) 32); [done |].
          by rewrite (testbit_high 32) in Hb. }
        destruct Hl as (? & Hb & Hlt). apply first_true_found; [lia | |].
        -- intros j Hj. rewrite bit_at_cons_lo by lia. apply Hlt. lia.
        -- by rewrite bit_at_cons_lo by lia.
Qed.

Lemma first_true_raise (f g : Z -> bool) (lo m hi r : Z) :
  lo <= m <= hi -> (forall j, lo <= j < m -> f j = false) ->
  (forall j, m <= j < hi -> f j = g j) ->
  first_true f lo hi r -> first_true g m hi r.
Proof.
  intros Hm Hz Hfg (Hr & Hlo & Hhi).
  assert (m <= r).
  { destruct (Z.ltb_spec r m); [| done]. rewrite Hz in Hhi by lia. specialize (Hhi ltac:(lia)). done. }
  split; [lia | split].
  - intros j Hj. rewrite <- Hfg by lia. apply Hlo. lia.
  - intros H'. rewrite <- Hfg by lia. by apply Hhi.
Qed.

(** The word the search starts in, with the bits below the offset cleared. *)
Lemma masked_word_bits (w m j : Z) :
  in_u 32 w -> 0 <= m -> 0 <= j ->
  Z.testbit (Z.land w (ulong_shl_ones m)) j = (m <=? j) && Z.testbit w j.
Proof.
  intros Hw Hm Hj. rewrite Z.land_spec, ulong_shl_ones_testbit by lia.
  destruct (Z.ltb_spec j 32); [cbn; apply andb_comm |].
  rewrite (testbit_high 32 w) by (done || lia). cbn. by rewrite andb_false_r.
Qed.

Lemma find_next_bit_first_word (w : Z) (p : list Z) (m size result : Z) :
  in_u 32 w -> words_wf p -> 0 < m < 32 -> m < size -> in_u 32 size ->
  size <= bit_size (w :: p) ->
  exists r,
    (let tmp := Z.land w (ulong_shl_ones m) in
     if size <? BITS_PER_LONG then Some (find_next_bit_found_first tmp size result)
     else if c_true tmp then Some (result + bitops_ffsl tmp)
     else find_next_bit_loop p (size - BITS_PER_LONG) (result + BITS_PER_LONG))
    = Some (result + r) /\ first_true (bit_at (w :: p)) m size r.
Proof.
  intros Hw Hp Hm Hms Hs Hle. change BITS_PER_LONG with 32. cbn zeta.
  pose proof (fun j => masked_word_bits w m j Hw ltac:(lia)) as Ht.
  set (t := Z.land w _) in *. assert (Hin : in_u 32 t) by (by apply in_u_land_l).
  rewrite bit_size_cons in Hle. destruct (Z.ltb_spec size 32).
  - destruct (find_next_bit_found_first_spec t size result) as (r & -> & Hr); [done | lia |].
    exists r. split; [done |]. eapply first_true_raise; [| | | exact Hr]; [lia | |].
    + intros j Hj. rewrite Ht by lia. by bits_simpl.
    + intros j Hj. rewrite Ht, bit_at_cons_lo by lia. by bits_simpl.
  - unfold c_true. destruct (Z.eqb_spec t 0) as [H0 | H0]; cbn [negb].
    + destruct (find_next_bit_loop_spec p (size - 32) (result + 32)) as (r & Hr & Hf);
        [done | destruct Hs; split; lia | lia |].
      exists (32 + r). rewrite Hr. split; [f_equal; lia |].
      apply (first_true_skip _ m 32); [lia | |].
      { intros j Hj. rewrite bit_at_cons_lo by lia. specialize (Ht j ltac:(lia)).
        rewrite H0, Z.bits_0 in Ht. revert Ht. by bits_simpl. }
      replace size with (32 + (size - 32)) by lia.
      apply (first_true_shift (bit_at (w :: p)) 32 0). eapply first_true_ext; [| done].
      intros j Hj. cbn. rewrite bit_at_cons_hi by lia. f_equal. lia.
    + exists (bitops_ffsl t). split; [done |].
      destruct (bitops_ffsl_spec t Hin H0) as (Hr & Hb & Hlt). rewrite Ht in Hb by lia.
      apply andb_true_iff in Hb as [Hge Hb]. apply Z.leb_le in Hge.
      assert (bitops_ffsl t < 32).
      { destruct (Z.ltb_spec (bitops_ffsl t) 32); [done |].
        rewrite (testbit_high 32) in Hb by (done || lia). done. }
      apply first_true_found; [lia | | by rewrite bit_at_cons_lo by lia].
      intros j Hj. rewrite bit_at_cons_lo by lia. specialize (Hlt j ltac:(lia)).
      rewrite Ht in Hlt by lia. revert Hlt. by bits_simpl.
Qed.

Lemma in_range_word (addr : list Z) (size offset : Z) :
  0 <= offset < size -> size <= bit_size addr ->
  exists w p, drop (Z.to_nat (offset / 32)) addr = w :: p.
Proof.
  intros Ho Hs. unfold bit_size, BITS_PER_LONG in Hs.
  assert (Hlt : (Z.to_nat (offset / 32) < length addr)%nat).
  { apply Nat2Z.inj_lt. rewrite Z2Nat.id by (apply Z.div_pos; lia).
    apply Z.div_lt_upper_bound; lia. }
  destruct (drop _ addr) as [| w p] eqn:E; [| by exists w, p].
  apply (f_equal length) in E. rewrite length_drop in E. cbn in E. lia.
Qed.

Lemma find_next_bit_spec (addr : list Z) (size offset : Z) :
  words_wf addr -> in_u 32 size -> 0 <= offset -> size <= bit_size addr ->
  exists r, find_next_bit addr size offset = Some r
            /\ first_true (bit_at addr) (Z.min offset size) size r.
Proof.
  intros Hwf Hs Ho Hle. unfold find_next_bit.
  destruct (Z.leb_spec size offset).
  { exists size. split; [done |]. apply first_true_none; lia. }
  rewrite Z.min_l by lia. unfold BIT_WORD. change BITS_PER_LONG with 32.
  destruct (in_range_word addr size offset) as (w & p & Hd); [lia | done |].
  pose proof (Z.div_mod offset 32 ltac:(lia)). pose proof (Z.mod_pos_bound offset 32 ltac:(lia)).
  pose proof (Z.div_pos offset 32 ltac:(lia) ltac:(lia)) as Hq.
  change (32 - 1) with (BITS_PER_LONG - 1).
  rewrite land_word_mask by (destruct Hs; split; lia).
  set (q := offset / 32) in *. set (m := offset mod 32) in *.
  assert (Hsz : bit_size (w :: p) = bit_size addr - 32 * q).
  { rewrite <- Hd. unfold bit_size, BITS_PER_LONG. rewrite length_drop.
    apply (f_equal length) in Hd. rewrite length_drop in Hd. cbn in Hd. lia. }
  assert (Hwp : words_wf (w :: p)) by (rewrite <- Hd; by apply Forall_drop).
  assert (Hfin : forall r, first_true (bit_at (w :: p)) m (size - 32 * q) r ->
                      first_true (bit_at addr) offset size (32 * q + r)).
  { intros r Hr. replace offset with (32 * q + m) by lia.
    replace size with (32 * q + (size - 32 * q)) by lia. apply first_true_shift.
    eapply first_true_ext; [| exact Hr]. intros j Hj. rewrite <- Hd, bit_at_drop by lia.
    by rewrite Z2Nat.id by lia. }
  pose proof (Forall_cons_1 _ _ _ Hwp) as [Hw Hp]. rewrite Hd. cbn [head tail mbind option_bind].
  unfold c_true at 1. destruct (Z.eqb_spec m 0) as [Hm | Hm]; cbn [negb].
  - destruct (find_next_bit_loop_spec (w :: p) (size - 32 * q) (32 * q)) as (r & -> & Hr);
      [done | destruct Hs; split; lia | lia |].
    exists (32 * q + r). split; [done |]. apply Hfin. by rewrite Hm.
  - destruct (find_next_bit_first_word w p m (size - 32 * q) (32 * q)) as (r & Hr & Hf);
      [done | done | lia | lia | destruct Hs; split; lia | lia |].
    exists (32 * q + r). split; [exact Hr | by apply Hfin].
Qed.

(** ** [find_next_zero_bit] is [find_next_bit] on the complement *)

Lemma ulong_not_testbit (x i : Z) :
  0 <= i -> Z.testbit (ulong_not x) i = (i <? 32) && negb (Z.testbit x i).
Proof. intros Hi. unfold ulong_not. rewrite wrap_testbit, Z.lnot_spec; done. Qed.

Lemma in_u_ulong_not (x : Z) : in_u 32 (ulong_not x).
Proof. unfold ulong_not. by apply in_u_wrap. Qed.

#[export] Hint Resolve in_u_ulong_not : width.
#[export] Hint Rewrite ulong_not_testbit using lia : cbits.

Lemma ulong_not_lor_low (t m : Z) :
  0 < m < 32 ->
  ulong_not (Z.lor t (Z.shiftr ULONG_MAX (BITS_PER_LONG - m)))
  = Z.land (ulong_not t) (ulong_shl_ones m).
Proof.
  intros Hm. apply Z.bits_inj'. intros i Hi. unfold ULONG_MAX, BITS_PER_LONG.
  autorewrite with cbits. rewrite ?ulong_shl_ones_testbit, ?testbit_ones by lia.
  case_cmp; cbn; rewrite ?orb_true_r, ?orb_false_r, ?andb_false_r, ?andb_true_r; done || lia.
Qed.

Lemma ulong_not_lor_high (t m : Z) :
  0 < m < 32 ->
  ulong_not (Z.lor t (ulong_shl_ones m))
  = Z.land (ulong_not t) (Z.shiftr ULONG_MAX (BITS_PER_LONG - m)).
Proof.
  intros Hm. apply Z.bits_inj'. intros i Hi. unfold ULONG_MAX, BITS_PER_LONG.
  autorewrite with cbits. rewrite ?ulong_shl_ones_testbit, ?testbit_ones by lia.
  case_cmp; cbn; rewrite ?orb_true_r, ?orb_false_r, ?andb_false_r, ?andb_true_r; done || lia.
Qed.

Lemma ulong_not_eq0 (t : Z) : in_u 32 t -> (ulong_not t =? 0) = (t =? ULONG_MAX).
Proof.
  intros Ht. apply eq_true_iff_eq. rewrite !Z.eqb_eq. split; intros H.
  - apply Z.bits_inj'. intros i Hi. unfold ULONG_MAX, BITS_PER_LONG. rewrite testbit_ones by lia.
    apply (f_equal (fun z => Z.testbit z i)) in H. rewrite ulong_not_testbit, Z.bits_0 in H by lia.
    destruct (Z.ltb_spec i 32).
    + apply negb_false_iff in H. rewrite H. by bits_simpl.
    + rewrite (testbit_high 32) by (done || lia). by rewrite andb_false_r.
  - by subst.
Qed.

Lemma find_next_zero_bit_found_first_compl (t size result : Z) :
  in_u 32 t -> 0 < size < 32 ->
  find_next_zero_bit_found_first t size result
  = find_next_bit_found_first (ulong_not t) size result.
Proof.
  intros Ht Hs. unfold find_next_zero_bit_found_first, find_next_bit_found_first, ffz.
  rewrite <- ulong_not_lor_high, ulong_not_eq0; [done | | done].
  apply in_u_lor; [done.. |]. by apply in_u_wrap.
Qed.

Lemma find_next_zero_bit_loop_compl (p : list Z) (size result : Z) :
  words_wf p -> in_u 32 size ->
  find_next_zero_bit_loop p size result
  = find_next_bit_loop (ulong_not <$> p) size result.
Proof.
  intros Hp. revert size result. induction Hp as [| w p Hw Hp IH]; intros size result Hs; [done |].
  cbn [find_next_zero_bit_loop find_next_bit_loop fmap list_fmap head].
  rewrite land_word_mask_eqb by done. destruct (Z.ltb_spec size 32).
  - destruct (Z.eqb_spec size 0); [done |]. cbn.
    by rewrite find_next_zero_bit_found_first_compl by (done || destruct Hs; lia).
  - unfold ffz. destruct (c_true (ulong_not w)); [done |]. apply IH.
    change BITS_PER_LONG with 32. destruct Hs. split; lia.
Qed.

Lemma find_next_zero_bit_compl (addr : list Z) (size offset : Z) :
  words_wf addr -> in_u 32 size -> 0 <= offset ->
  find_next_zero_bit addr size offset = find_next_bit (ulong_not <$> addr) size offset.
Proof.
  intros Hwf Hs Ho. unfold find_next_zero_bit, find_next_bit.
  destruct (Z.leb_spec size offset); [done |].
  pose proof (Z.mod_pos_bound offset 32 ltac:(lia)). unfold BIT_WORD.
  rewrite land_word_mask by (destruct Hs; split; lia). change BITS_PER_LONG with 32.
  pose proof (Z.div_mod offset 32 ltac:(lia)). pose proof (Z.div_pos offset 32 Ho ltac:(lia)).
  rewrite <- fmap_drop. unfold c_true at 1 3. destruct (Z.eqb_spec (offset mod 32) 0); cbn [negb].
  - apply find_next_zero_bit_loop_compl; [by apply Forall_drop | destruct Hs; split; lia].
  - pose proof (Forall_drop _ (Z.to_nat (offset / 32)) _ Hwf) as Hd.
    destruct (drop _ addr) as [| w p]; [done |]. cbn.
    pose proof (Forall_cons_1 _ _ _ Hd) as [Hw Hp].
    unfold ffz. change 32 with BITS_PER_LONG at 4 9. rewrite <- ulong_not_lor_low by lia.
    set (t := Z.lor w _).
    assert (in_u 32 t).
    { apply in_u_lor; [done.. |]. unfold ULONG_MAX, BITS_PER_LONG.
      apply in_u_testbit; [done | by apply Z.shiftr_nonneg |]. intros i Hi.
      rewrite Z.shiftr_spec, testbit_ones by lia. bits_simpl. done. }
    destruct (Z.ltb_spec (size - 32 * (offset / 32)) 32).
    + rewrite find_next_zero_bit_found_first_compl by (done || lia). done.
    + destruct (c_true (ulong_not t)); [done |].
      apply find_next_zero_bit_loop_compl; [done | destruct Hs; split; lia].
Qed.

Lemma words_wf_compl (addr : list Z) : words_wf (ulong_not <$> addr).
Proof. apply Forall_fmap, Forall_true. intros. apply in_u_ulong_not. Qed.

Lemma bit_at_compl (addr : list Z) (i : Z) :
  0 <= i < bit_size addr -> bit_at (ulong_not <$> addr) i = negb (bit_at addr i).
Proof.
  unfold bit_size, BITS_PER_LONG. intros Hi. unfold bit_at, word_at, BITS_PER_LONG.
  rewrite list_lookup_fmap.
  destruct (lookup_lt_is_Some_2 addr (Z.to_nat (i / 32))) as [w ->].
  { apply Nat2Z.inj_lt. rewrite Z2Nat.id by (apply Z.div_pos; lia).
    apply Z.div_lt_upper_bound; lia. }
  cbn. pose proof (Z.mod_pos_bound i 32 ltac:(lia)).
  rewrite ulong_not_testbit by lia. by bits_simpl.
Qed.

Lemma find_next_zero_bit_spec (addr : list Z) (size offset : Z) :
  words_wf addr -> in_u 32 size -> 0 <= offset -> size <= bit_size addr ->
  exists r, find_next_zero_bit addr size offset = Some r
            /\ first_true (fun j => negb (bit_at addr j)) (Z.min offset size) size r.
Proof.
  intros Hwf Hs Ho Hle. rewrite find_next_zero_bit_compl by done.
  destruct (find_next_bit_spec (ulong_not <$> addr) size offset) as (r & -> & Hr);
    [apply words_wf_compl | done.. | |].
  { unfold bit_size in *. by rewrite length_fmap. }
  exists r. split; [done |]. eapply first_true_ext; [| exact Hr].
  intros j Hj. apply bit_at_compl. destruct Hs. lia.
Qed.

(** ** [find_last_bit] *)

Lemma bit_at_word (addr : list Z) (k : nat) (w j : Z) :
  addr !! k = Some w -> 0 <= j < 32 -> bit_at addr (Z.of_nat k * 32 + j) = Z.testbit w j.
Proof.
  intros Hk Hj. unfold bit_at, word_at, BITS_PER_LONG.
  rewrite Z.add_comm, Z.div_add, Z.mod_add, Z.div_small, Z.mod_small by lia.
  rewrite Z.add_0_l, Nat2Z.id, Hk. done.
Qed.

(** The greatest set bit of the word that holds it is the greatest set bit
    of the array when all the bits above that word are clear. *)
Lemma last_true_word (addr : list Z) (k : nat) (w t size : Z) :
  addr !! k = Some w -> in_u 32 t -> t <> 0 ->
  (forall j, 0 <= j < 32 -> Z.of_nat k * 32 + j < size -> Z.testbit t j = Z.testbit w j) ->
  (forall j, 0 <= j -> size <= Z.of_nat k * 32 + j -> Z.testbit t j = false) ->
  (forall j, Z.of_nat k * 32 + 32 <= j < size -> bit_at addr j = false) ->
  last_true (bit_at addr) size (Z.of_nat k * BITS_PER_LONG + bitops_flsl t).
Proof.
  intros Hk Ht Hne Hlow Hhigh Habove. change BITS_PER_LONG with 32.
  destruct (bitops_flsl_spec t Ht Hne) as (Hr & Hb & Hhi).
  set (r := bitops_flsl t) in *.
  assert (r < 32).
  { destruct (Z.ltb_spec r 32); [done |]. rewrite (testbit_high 32) in Hb by (done || lia). done. }
  assert (Z.of_nat k * 32 + r < size).
  { destruct (Z.ltb_spec (Z.of_nat k * 32 + r) size); [done |]. by rewrite Hhigh in Hb by lia. }
  left. split; [lia | split].
  - rewrite (bit_at_word _ _ w) by (done || lia). rewrite <- Hlow by lia. done.
  - intros j Hj. destruct (Z.ltb_spec j (Z.of_nat k * 32 + 32)); [| apply Habove; lia].
    replace j with (Z.of_nat k * 32 + (j - Z.of_nat k * 32)) by lia.
    rewrite (bit_at_word _ _ w) by (done || lia). rewrite <- Hlow by lia. apply Hhi. lia.
Qed.

Lemma find_last_bit_loop_spec (addr : list Z) (size : Z) (words : nat) :
  words_wf addr -> (words <= length addr)%nat -> Z.of_nat words * 32 <= size ->
  (forall j, Z.of_nat words * 32 <= j < size -> bit_at addr j = false) ->
  exists r, find_last_bit_loop addr size words = Some r /\ last_true (bit_at addr) size r.
Proof.
  intros Hwf. induction words as [| k IH]; intros Hle Hsz Hz; cbn [find_last_bit_loop].
  - exists size. split; [done |]. right. split; [done |]. intros. apply Hz. lia.
  - destruct (lookup_lt_is_Some_2 addr k ltac:(lia)) as [w Hw]. rewrite Hw. cbn.
    pose proof (Forall_lookup_1 _ _ _ _ Hwf Hw) as Hwwf. unfold c_true.
    destruct (Z.eqb_spec w 0) as [-> | Hne]; cbn.
    + apply IH; [lia | lia |]. intros j Hj.
      destruct (Z.ltb_spec j (Z.of_nat (S k) * 32)); [| apply Hz; lia].
      replace j with (Z.of_nat k * 32 + (j - Z.of_nat k * 32)) by lia.
      rewrite (bit_at_word _ _ 0) by (done || lia). apply Z.bits_0.
    + eexists. split; [done |]. eapply last_true_word; [done | done | done | done | |].
      * intros. apply (testbit_high 32); [lia | done | lia].
      * intros j Hj. apply Hz. lia.
Qed.

Lemma find_last_bit_spec (addr : list Z) (size : Z) :
  words_wf addr -> 0 <= size <= bit_size addr ->
  exists r, find_last_bit addr size = Some r /\ last_true (bit_at addr) size r.
Proof.
  intros Hwf Hs. unfold find_last_bit. rewrite land_31. change BITS_PER_LONG with 32.
  pose proof (Z.div_mod size 32 ltac:(lia)). pose proof (Z.mod_pos_bound size 32 ltac:(lia)).
  pose proof (Z.div_pos size 32 ltac:(lia) ltac:(lia)).
  unfold bit_size, BITS_PER_LONG in Hs. set (k := Z.to_nat (size / 32)) in *.
  assert (Z.of_nat k = size / 32) as Hk by (unfold k; lia).
  unfold c_true. destruct (Z.eqb_spec (size mod 32) 0); cbn [negb].
  { apply find_last_bit_loop_spec; [done | lia | lia |]. intros. lia. }
  destruct (lookup_lt_is_Some_2 addr k ltac:(lia)) as [w Hw]. rewrite Hw.
  cbn [mbind option_bind]. pose proof (Forall_lookup_1 _ _ _ _ Hwf Hw) as Hwwf.
  set (t := Z.land w _).
  assert (Ht : forall j, 0 <= j -> Z.testbit t j = (j <? size mod 32) && Z.testbit w j).
  { intros j Hj. unfold t, ULONG_MAX, BITS_PER_LONG. autorewrite with cbits.
    case_cmp; cbn; rewrite ?andb_true_r, ?andb_false_r; done || lia. }
  destruct (Z.eqb_spec t 0) as [Ht0 | Ht0]; cbn [negb].
  - apply find_last_bit_loop_spec; [done | lia | lia |]. intros j Hj.
    replace j with (Z.of_nat k * 32 + (j - Z.of_nat k * 32)) by lia.
    rewrite (bit_at_word _ _ w) by (done || lia).
    specialize (Ht (j - Z.of_nat k * 32) ltac:(lia)). rewrite Ht0, Z.bits_0 in Ht.
    revert Ht. by bits_simpl.
  - eexists. split; [done |]. eapply last_true_word; [done | | done | | |].
    + by apply in_u_land_l.
    + intros j Hj1 Hj2. rewrite Ht by lia. by bits_simpl.
    + intros j Hj1 Hj2. rewrite Ht by lia. by bits_simpl.
    + intros. lia.
Qed.

(** The number of set bits among the low [n]. *)
Fixpoint bit_sum (w : Z) (n : nat) : Z :=
  match n with
  | O => 0
  | S n => bit_sum w n + Z.b2z (Z.testbit w (Z.of_nat n))
  end.

Lemma bit_sum_shift (w : Z) (n : nat) :
  bit_sum w (S n) = Z.b2z (Z.testbit w 0) + bit_sum (Z.shiftr w 1) n.
Proof.
  induction n as [| n IH]; [cbn [bit_sum]; change (Z.of_nat 0) with 0; lia |].
  change (bit_sum w (S (S n))) with (bit_sum w (S n) + Z.b2z (Z.testbit w (Z.of_nat (S n)))).
  rewrite IH. cbn [bit_sum]. rewrite Z.shiftr_spec, Nat2Z.inj_succ by lia.
  unfold Z.succ. lia.
Qed.

Lemma bit_sum_0 (n : nat) : bit_sum 0 n = 0.
Proof. induction n as [| n IH]; [done |]. cbn. by rewrite IH, Z.bits_0. Qed.

Lemma hweight_loop_spec (fuel : nat) (w count : Z) :
  0 <= w < 2 ^ Z.of_nat fuel -> hweight_loop fuel w count = count + bit_sum w fuel.
Proof.
  revert w count. induction fuel as [| n IH]; intros w count Hw; [cbn; lia |].
  rewrite Nat2Z.inj_succ, Z.pow_succ_r in Hw by lia. rewrite bit_sum_shift.
  cbn [hweight_loop]. change (Z.land w 1) with (Z.land w (Z.ones 1)).
  rewrite Z.land_ones by lia. change (2 ^ 1) with 2.
  unfold c_true. destruct (Z.eqb_spec w 0) as [-> | Hne]; cbn [negb].
  - rewrite Z.shiftr_0_l, bit_sum_0. cbn. lia.
  - rewrite IH.
    + rewrite Z.bit0_mod. lia.
    + rewrite Z.shiftr_div_pow2 by lia. change (2 ^ 1) with 2.
      pose proof (Z.div_mod w 2 ltac:(lia)). pose proof (Z.mod_pos_bound w 2 ltac:(lia)). lia.
Qed.

(** ** Properties *)

(** [find_next_bit] never reads outside the array and returns the least
    position of a set bit in [offset, size), or [size] when there is none. *)
Theorem find_next_bit_correct (addr : list Z) (size offset : Z) :
  words_wf addr -> in_u 32 size -> 0 <= offset -> size <= bit_size addr ->
  exists r, find_next_bit addr size offset = Some r
            /\ first_true (bit_at addr) (Z.min offset size) size r.
Proof. apply find_next_bit_spec. Qed.

Lemma find_next_bit_correct_witness :
  exists r, find_next_bit [0; 0x80000000; 1] 70 3 = Some r
            /\ first_true (bit_at [0; 0x80000000; 1]) 3 70 r.
Proof.
  apply (find_next_bit_correct [0; 0x80000000; 1] 70 3); by_eval.
Defined.

(** [find_next_zero_bit] never reads outside the array and returns the
    least position of a clear bit in [offset, size), or [size]. *)
Theorem find_next_zero_bit_correct (addr : list Z) (size offset : Z) :
  words_wf addr -> in_u 32 size -> 0 <= offset -> size <= bit_size addr ->
  exists r, find_next_zero_bit addr size offset = Some r
            /\ first_true (fun j => negb (bit_at addr j)) (Z.min offset size) size r.
Proof. apply find_next_zero_bit_spec. Qed.

Lemma find_next_zero_bit_correct_witness :
  exists r, find_next_zero_bit [ULONG_MAX; 0x7fffffff] 64 3 = Some r
            /\ first_true (fun j => negb (bit_at [ULONG_MAX; 0x7fffffff] j)) 3 64 r.
Proof.
  apply (find_next_zero_bit_correct [ULONG_MAX; 0x7fffffff] 64 3); by_eval.
Defined.

(** [find_last_bit] never reads outside the array and returns the
    greatest position below [size] of a set bit, or [size]. *)
Theorem find_last_bit_correct (addr : list Z) (size : Z) :
  words_wf addr -> 0 <= size <= bit_size addr ->
  exists r, find_last_bit addr size = Some r /\ last_true (bit_at addr) size r.
Proof. apply find_last_bit_spec. Qed.

Lemma find_last_bit_correct_witness :
  exists r, find_last_bit [4; 0x40; 0x80] 39 = Some r
            /\ last_true (bit_at [4; 0x40; 0x80]) 39 r.
Proof.
  apply (find_last_bit_correct [4; 0x40; 0x80] 39); by_eval.
Defined.
