(* ===== verification/Bitmap.v ===== *)
(** * Bitmaps (qemu/bitmap.c, qemu/bitmap.h)

    The routines of bitmap.c on the word arrays of [Bitops]: predicates over
    the first [bits] bits, the word-wise logical operations, setting and
    clearing a range of bits, and the search for a free area.  Reading or
    writing past the end of an array is [None].

    Theorems: each predicate decides its statement about the first [bits]
    bits whatever the unused bits of the last word hold; setting and clearing
    change exactly the requested range; the area search terminates and
    returns the first aligned free area. *)

From Stdlib Require Import ZArith Lia Btauto.
From stdpp Require Import base list option numbers.
From S2P Require Import Prelude Bitops.

Local Open Scope Z_scope.

(** ** Definitions *)

(** [BITMAP_LAST_WORD_MASK(nbits)] *)
Definition BITMAP_LAST_WORD_MASK (nbits : Z) : Z :=
  if c_true (nbits mod BITS_PER_LONG)
  then wrap BITS_PER_LONG (Z.shiftl 1 (nbits mod BITS_PER_LONG)) - 1 else ULONG_MAX.

(** [BITMAP_FIRST_WORD_MASK(start)] *)
Definition BITMAP_FIRST_WORD_MASK (start : Z) : Z := ulong_shl_ones (start mod BITS_PER_LONG).

(** [BITS_TO_LONGS(nr)], that is [DIV_ROUND_UP(nr, 8 * sizeof(long))] *)
Definition BITS_TO_LONGS (nr : Z) : Z := (nr + BITS_PER_LONG - 1) / BITS_PER_LONG.

(** [for (k = 0; k < lim; ++k) if (bad(word k)) return hit;] over arrays
    read at the same index; [Some true] when some word is bad. *)
Fixpoint scan1 (bad : Z -> bool) (p : list Z) (lim : nat) : option bool :=
  match lim with
  | O => Some false
  | S lim =>
      match p with
      | [] => None
      | w :: p => if bad w then Some true else scan1 bad p lim
      end
  end.

Fixpoint scan2 (bad : Z -> Z -> bool) (p q : list Z) (lim : nat) : option bool :=
  match lim with
  | O => Some false
  | S lim =>
      match p, q with
      | v :: p, w :: q => if bad v w then Some true else scan2 bad p q lim
      | _, _ => None
      end
  end.

Definition slow_bitmap_empty (bitmap : list Z) (bits : Z) : option Z :=
  let lim := Z.to_nat (bits / BITS_PER_LONG) in
  hit ← scan1 c_true bitmap lim;
  if hit : bool then Some 0
  else if c_true (bits mod BITS_PER_LONG) then
    w ← bitmap !! lim;
    if c_true (Z.land w (BITMAP_LAST_WORD_MASK bits)) then Some 0 else Some 1
  else Some 1.

Definition slow_bitmap_full (bitmap : list Z) (bits : Z) : option Z :=
  let lim := Z.to_nat (bits / BITS_PER_LONG) in
  hit ← scan1 (fun w => c_true (ulong_not w)) bitmap lim;
  if hit : bool then Some 0
  else if c_true (bits mod BITS_PER_LONG) then
    w ← bitmap !! lim;
    if c_true (Z.land (ulong_not w) (BITMAP_LAST_WORD_MASK bits)) then Some 0 else Some 1
  else Some 1.

Definition slow_bitmap_equal (bitmap1 bitmap2 : list Z) (bits : Z) : option Z :=
  let lim := Z.to_nat (bits / BITS_PER_LONG) in
  hit ← scan2 (fun v w => negb (v =? w)) bitmap1 bitmap2 lim;
  if hit : bool then Some 0
  else if c_true (bits mod BITS_PER_LONG) then
    v ← bitmap1 !! lim; w ← bitmap2 !! lim;
    if c_true (Z.land (Z.lxor v w) (BITMAP_LAST_WORD_MASK bits)) then Some 0 else Some 1
  else Some 1.

Definition slow_bitmap_intersects (bitmap1 bitmap2 : list Z) (bits : Z) : option Z :=
  let lim := Z.to_nat (bits / BITS_PER_LONG) in
  hit ← scan2 (fun v w => c_true (Z.land v w)) bitmap1 bitmap2 lim;
  if hit : bool then Some 1
  else if c_true (bits mod BITS_PER_LONG) then
    v ← bitmap1 !! lim; w ← bitmap2 !! lim;
    if c_true (Z.land (Z.land v w) (BITMAP_LAST_WORD_MASK bits)) then Some 1 else Some 0
  else Some 0.

(** [for (k = 0; k < n; k++) dst[k] = f(src1[k], src2[k])], the destination
    distinct from the sources. *)
Fixpoint store2 (f : Z -> Z -> Z) (dst p q : list Z) (n : nat) : option (list Z) :=
  match n with
  | O => Some dst
  | S n =>
      match dst, p, q with
      | _ :: dst, v :: p, w :: q => rest ← store2 f dst p q n; Some (f v w :: rest)
      | _, _, _ => None
      end
  end.

Fixpoint store1 (f : Z -> Z) (dst p : list Z) (n : nat) : option (list Z) :=
  match n with
  | O => Some dst
  | S n =>
      match dst, p with
      | _ :: dst, w :: p => rest ← store1 f dst p n; Some (f w :: rest)
      | _, _ => None
      end
  end.

Definition slow_bitmap_complement (dst src : list Z) (bits : Z) : option (list Z) :=
  let lim := Z.to_nat (bits / BITS_PER_LONG) in
  dst ← store1 ulong_not dst src lim;
  if c_true (bits mod BITS_PER_LONG) then
    w ← src !! lim; _ ← dst !! lim;
    Some (<[lim := Z.land (ulong_not w) (BITMAP_LAST_WORD_MASK bits)]> dst)
  else Some dst.

(** [result |= (dst[k] = ...)]: whether a stored word is non-zero. *)
Definition any_nonzero (dst : list Z) (n : nat) : Z :=
  c_bool (c_true (foldl Z.lor 0 (take n dst))).

Definition slow_bitmap_and (dst bitmap1 bitmap2 : list Z) (bits : Z) : option (Z * list Z) :=
  let nr := Z.to_nat (BITS_TO_LONGS bits) in
  dst ← store2 Z.land dst bitmap1 bitmap2 nr; Some (any_nonzero dst nr, dst).

Definition slow_bitmap_or (dst bitmap1 bitmap2 : list Z) (bits : Z) : option (list Z) :=
  store2 Z.lor dst bitmap1 bitmap2 (Z.to_nat (BITS_TO_LONGS bits)).

Definition slow_bitmap_xor (dst bitmap1 bitmap2 : list Z) (bits : Z) : option (list Z) :=
  store2 Z.lxor dst bitmap1 bitmap2 (Z.to_nat (BITS_TO_LONGS bits)).

Definition slow_bitmap_andnot (dst bitmap1 bitmap2 : list Z) (bits : Z)
  : option (Z * list Z) :=
  let nr := Z.to_nat (BITS_TO_LONGS bits) in
  dst ← store2 (fun v w => Z.land v (ulong_not w)) dst bitmap1 bitmap2 nr;
  Some (any_nonzero dst nr, dst).

(** The [while (nr - bits_to_set >= 0)] loop of [bitmap_set] and
    [bitmap_clear] and the partial word after it; [upd mask w] is the store. *)
Fixpoint range_loop (upd : Z -> Z -> Z) (p : list Z) (size nr todo mask : Z)
  : option (list Z) :=
  if 0 <=? nr - todo then
    match p with
    | [] => None
    | w :: p =>
        rest ← range_loop upd p size (nr - todo) BITS_PER_LONG ULONG_MAX;
        Some (upd mask w :: rest)
    end
  else if c_true nr then
    match p with
    | [] => None
    | w :: p => Some (upd (Z.land mask (BITMAP_LAST_WORD_MASK size)) w :: p)
    end
  else Some p.

Definition range_update (upd : Z -> Z -> Z) (map : list Z) (start nr : Z)
  : option (list Z) :=
  let k := Z.to_nat (BIT_WORD start) in
  let size := start + nr in
  let todo := BITS_PER_LONG - (start mod BITS_PER_LONG) in
  rest ← range_loop upd (drop k map) size nr todo (BITMAP_FIRST_WORD_MASK start);
  Some (take k map ++ rest).

Definition bitmap_set : list Z -> Z -> Z -> option (list Z) :=
  range_update (fun mask w => Z.lor w mask).

Definition bitmap_clear : list Z -> Z -> Z -> option (list Z) :=
  range_update (fun mask w => Z.land w (ulong_not mask)).

(** [ALIGN_MASK(x, mask)] in [unsigned long] arithmetic *)
Definition ALIGN_MASK (x mask : Z) : Z :=
  Z.land (wrap BITS_PER_LONG (x + mask)) (ulong_not mask).

(** The [again:] loop; [None] stands for running out of fuel or a read past
    the end of the array. *)
Fixpoint bitmap_find_next_zero_area_loop (fuel : nat) (map : list Z)
    (size start nr align_mask : Z) : option Z :=
  match fuel with
  | O => None
  | S fuel =>
      index ← find_next_zero_bit map size start;
      let index := ALIGN_MASK index align_mask in
      let end_ := wrap BITS_PER_LONG (index + nr) in
      if size <? end_ then Some end_
      else
        i ← find_next_bit map end_ index;
        if i <? end_
        then bitmap_find_next_zero_area_loop fuel map size
               (wrap BITS_PER_LONG (i + 1)) nr align_mask
        else Some index
  end.

(** One iteration per position is enough. *)
Definition bitmap_find_next_zero_area (map : list Z) (size start nr align_mask : Z)
  : option Z :=
  bitmap_find_next_zero_area_loop (S (Z.to_nat size)) map size start nr align_mask.

(** ** Predicates: is some bit below [bits] set in a word-wise difference? *)

Definition any_bit_below (d : list Z) (bits : Z) : option bool :=
  let lim := Z.to_nat (bits / BITS_PER_LONG) in
  hit ← scan1 c_true d lim;
  if hit : bool then Some true
  else if c_true (bits mod BITS_PER_LONG) then
    w ← d !! lim; Some (c_true (Z.land w (BITMAP_LAST_WORD_MASK bits)))
  else Some false.

Lemma last_word_mask_testbit (n j : Z) :
  0 <= n -> n mod 32 <> 0 -> 0 <= j -> Z.testbit (BITMAP_LAST_WORD_MASK n) j = (j <? n mod 32).
Proof.
  intros Hn Hm Hj. unfold BITMAP_LAST_WORD_MASK. change BITS_PER_LONG with 32.
  pose proof (Z.mod_pos_bound n 32 ltac:(lia)).
  rewrite (proj2 (c_true_nonzero _)) by done. rewrite wrap_small by (apply in_u_bit; lia).
  rewrite Z.sub_1_r, Z.shiftl_1_l, <- Z.ones_equiv, testbit_ones by lia. by bits_simpl.
Qed.

Lemma scan1_bits (d : list Z) (lim : nat) :
  words_wf d -> (lim <= length d)%nat ->
  exists b, scan1 c_true d lim = Some b
    /\ (b = true <-> exists i, 0 <= i < 32 * Z.of_nat lim /\ bit_at d i = true).
Proof.
  intros Hwf. revert lim. induction Hwf as [| w d Hw Hwf IH]; intros [| lim] Hlim; cbn in Hlim.
  1, 3: exists false; split; [done | split; [done | intros (i & Hi & _); lia]].
  { lia. }
  cbn [scan1]. destruct (c_true w) eqn:Ew.
  - exists true. split; [done | split; [intros _ | done]].
    apply c_true_nonzero in Ew. destruct (exists_bit 32 w) as (i & Hi & Hb); [done.. |].
    exists i. split; [lia |]. by rewrite bit_at_cons_lo by lia.
  - assert (w = 0) as -> by (unfold c_true in Ew; apply negb_false_iff, Z.eqb_eq in Ew; done).
    destruct (IH lim ltac:(lia)) as (b & -> & Hb). exists b. split; [done |]. rewrite Hb.
    split; intros (i & Hi & Hbit).
    + exists (i + 32). split; [lia |]. rewrite bit_at_cons_hi by lia.
      by replace (i + 32 - 32) with i by lia.
    + destruct (Z.ltb_spec i 32).
      { rewrite bit_at_cons_lo, Z.bits_0 in Hbit by lia. done. }
      exists (i - 32). split; [lia |]. by rewrite bit_at_cons_hi in Hbit by lia.
Qed.

Lemma any_bit_below_spec (d : list Z) (bits : Z) :
  words_wf d -> 0 <= bits <= bit_size d ->
  exists b, any_bit_below d bits = Some b
    /\ (b = true <-> exists i, 0 <= i < bits /\ bit_at d i = true).
Proof.
  intros Hwf Hb. unfold any_bit_below, bit_size in *. change BITS_PER_LONG with 32 in *.
  pose proof (Z.div_mod bits 32 ltac:(lia)). pose proof (Z.mod_pos_bound bits 32 ltac:(lia)).
  pose proof (Z.div_pos bits 32 ltac:(lia) ltac:(lia)).
  set (lim := Z.to_nat (bits / 32)) in *. assert (Hlim : Z.of_nat lim = bits / 32) by lia.
  destruct (scan1_bits d lim) as (hit & -> & Hhit); [done | lia |]. cbn [mbind option_bind].
  destruct hit.
  { exists true. split; [done | split; [intros _ | done]].
    destruct (proj1 Hhit eq_refl) as (i & Hi & Hbit). exists i. split; [lia | done]. }
  assert (Hlow : forall i, 0 <= i < 32 * Z.of_nat lim -> bit_at d i = false).
  { intros i Hi. destruct (bit_at d i) eqn:E; [| done]. cut (false = true); [done |].
    apply Hhit. by exists i. }
  unfold c_true at 1. destruct (Z.eqb_spec (bits mod 32) 0) as [Hm0 | Hm0]; cbn [negb].
  { exists false. split; [done | split; [done |]]. intros (i & Hi & Hbit).
    rewrite Hlow in Hbit by lia. done. }
  destruct (lookup_lt_is_Some_2 d lim ltac:(lia)) as [w Hw]. rewrite Hw. cbn [mbind option_bind].
  eexists. split; [done |]. rewrite c_true_nonzero.
  assert (Hm : forall j, 0 <= j -> Z.testbit (Z.land w (BITMAP_LAST_WORD_MASK bits)) j
                           = Z.testbit w j && (j <? bits mod 32)).
  { intros j Hj. by rewrite Z.land_spec, last_word_mask_testbit by lia. }
  split.
  - intros Hne. destruct (exists_bit 32 _ ltac:(done)
      (in_u_land_l 32 w _ ltac:(done) (Forall_lookup_1 _ _ _ _ Hwf Hw)) Hne) as (j & Hj & Hbit).
    rewrite Hm in Hbit by lia. apply andb_true_iff in Hbit as [Hbit Hlt]. apply Z.ltb_lt in Hlt.
    exists (Z.of_nat lim * 32 + j). split; [lia |]. by rewrite (bit_at_word _ _ w) by (done || lia).
  - intros (i & Hi & Hbit) Heq.
    destruct (Z.ltb_spec i (32 * Z.of_nat lim)); [by rewrite Hlow in Hbit by lia |].
    specialize (Hm (i - Z.of_nat lim * 32) ltac:(lia)). rewrite Heq, Z.bits_0 in Hm.
    replace i with (Z.of_nat lim * 32 + (i - Z.of_nat lim * 32)) in Hbit by lia.
    rewrite (bit_at_word _ _ w) in Hbit by (done || lia). rewrite Hbit in Hm.
    revert Hm. by bits_simpl.
Qed.

Lemma scan1_map (f : Z -> Z) (bad : Z -> bool) (p : list Z) (lim : nat) :
  (forall w, bad w = c_true (f w)) -> scan1 bad p lim = scan1 c_true (f <$> p) lim.
Proof.
  intros Hf. revert p. induction lim as [| lim IH]; intros [| w p]; cbn; try done.
  rewrite Hf, IH. done.
Qed.

Lemma scan2_zip (f : Z -> Z -> Z) (bad : Z -> Z -> bool) (p q : list Z) (lim : nat) :
  (forall v w, bad v w = c_true (f v w)) ->
  scan2 bad p q lim = scan1 c_true (zip_with f p q) lim.
Proof.
  intros Hf. revert p q. induction lim as [| lim IH]; intros [| v p] [| w q]; cbn; try done.
  rewrite Hf, IH. done.
Qed.

(** Every predicate is [any_bit_below] of a word-wise difference. *)
Lemma slow_bitmap_empty_any (p : list Z) (bits : Z) :
  slow_bitmap_empty p bits = (fun b : bool => c_bool (negb b)) <$> any_bit_below p bits.
Proof.
  unfold slow_bitmap_empty, any_bit_below. destruct (scan1 _ _ _) as [[|] |]; cbn; try done.
  destruct (c_true (bits mod _)); [| done]. destruct (p !! _) as [w |]; cbn; [| done].
  by destruct (c_true _).
Qed.

Lemma slow_bitmap_full_any (p : list Z) (bits : Z) :
  slow_bitmap_full p bits
  = (fun b : bool => c_bool (negb b)) <$> any_bit_below (ulong_not <$> p) bits.
Proof.
  unfold slow_bitmap_full, any_bit_below.
  rewrite (scan1_map ulong_not (fun w => c_true (ulong_not w))), list_lookup_fmap by done.
  destruct (scan1 _ _ _) as [[|] |]; cbn; try done.
  destruct (c_true (bits mod _)); [| done]. destruct (p !! _) as [w |]; cbn; [| done].
  by destruct (c_true _).
Qed.

Lemma slow_bitmap_equal_any (p q : list Z) (bits : Z) :
  slow_bitmap_equal p q bits
  = (fun b : bool => c_bool (negb b)) <$> any_bit_below (zip_with Z.lxor p q) bits.
Proof.
  unfold slow_bitmap_equal, any_bit_below. rewrite (scan2_zip Z.lxor).
  2: { intros v w. unfold c_true. f_equal. apply eq_true_iff_eq.
       by rewrite !Z.eqb_eq, Z.lxor_eq_0_iff. }
  rewrite lookup_zip_with. destruct (scan1 _ _ _) as [[|] |]; cbn; try done.
  destruct (c_true (bits mod _)); [| done]. destruct (p !! _), (q !! _); cbn; try done.
  by destruct (c_true _).
Qed.

Lemma slow_bitmap_intersects_any (p q : list Z) (bits : Z) :
  slow_bitmap_intersects p q bits = c_bool <$> any_bit_below (zip_with Z.land p q) bits.
Proof.
  unfold slow_bitmap_intersects, any_bit_below. rewrite (scan2_zip Z.land) by done.
  rewrite lookup_zip_with. destruct (scan1 _ _ _) as [[|] |]; cbn; try done.
  destruct (c_true (bits mod _)); [| done]. destruct (p !! _), (q !! _); cbn; try done.
  by destruct (c_true _).
Qed.

Lemma words_wf_zip (f : Z -> Z -> Z) (p q : list Z) :
  (forall v w, in_u 32 v -> in_u 32 w -> in_u 32 (f v w)) ->
  words_wf p -> words_wf q -> words_wf (zip_with f p q).
Proof.
  intros Hf Hp. revert q. induction Hp as [| v p Hv Hp IH]; intros [| w q] Hq; cbn; constructor.
  - apply Hf; [done |]. by apply Forall_cons_1 in Hq as [? _].
  - apply IH. by apply Forall_cons_1 in Hq as [_ ?].
Qed.

Lemma bit_at_zip (f : Z -> Z -> Z) (g : bool -> bool -> bool) (p q : list Z) (i : Z) :
  (forall v w j, 0 <= j < 32 -> Z.testbit (f v w) j = g (Z.testbit v j) (Z.testbit w j)) ->
  0 <= i < Z.min (bit_size p) (bit_size q) ->
  bit_at (zip_with f p q) i = g (bit_at p i) (bit_at q i).
Proof.
  unfold bit_size, BITS_PER_LONG. intros Hf Hi. unfold bit_at, word_at, BITS_PER_LONG.
  assert (Hlt : forall l : list Z, i < Z.of_nat (length l) * 32 ->
                  (Z.to_nat (i / 32) < length l)%nat).
  { intros l Hl. apply Nat2Z.inj_lt. rewrite Z2Nat.id by (apply Z.div_pos; lia).
    apply Z.div_lt_upper_bound; lia. }
  rewrite lookup_zip_with.
  destruct (lookup_lt_is_Some_2 p _ (Hlt p ltac:(lia))) as [v ->].
  destruct (lookup_lt_is_Some_2 q _ (Hlt q ltac:(lia))) as [w ->]. cbn.
  apply Hf, Z.mod_pos_bound. lia.
Qed.

Lemma bit_size_zip (f : Z -> Z -> Z) (p q : list Z) :
  bit_size (zip_with f p q) = Z.min (bit_size p) (bit_size q).
Proof. unfold bit_size, BITS_PER_LONG. rewrite length_zip_with. lia. Qed.

(** ** Setting and clearing a range *)

Section RangeUpdate.
Context (upd : Z -> Z -> Z) (v : bool).
Context (upd_wf : forall mask w, in_u 32 w -> in_u 32 mask -> in_u 32 (upd mask w)).
Context (upd_bits : forall mask w j, 0 <= j < 32 ->
  Z.testbit (upd mask w) j = if Z.testbit mask j then v else Z.testbit w j).

(** What the loop does to the words from its pointer on: exactly the bits
    [32 - todo, 32 - todo + nr) become [v]. *)
Definition range_post (p rest : list Z) (lo nr : Z) : Prop :=
  length rest = length p /\ words_wf rest
  /\ forall i, 0 <= i -> bit_at rest i = if (lo <=? i) && (i <? lo + nr) then v else bit_at p i.

Lemma range_loop_spec (p : list Z) (size nr todo mask : Z) :
  words_wf p -> 0 <= nr -> 1 <= todo <= 32 -> in_u 32 mask -> 0 <= size ->
  (forall j, 0 <= j < 32 -> Z.testbit mask j = (32 - todo <=? j)) ->
  (size - nr + todo) mod 32 = 0 -> (nr = 0 \/ 32 - todo + nr <= bit_size p) ->
  exists rest, range_loop upd p size nr todo mask = Some rest
               /\ range_post p rest (32 - todo) nr.
Proof.
  intros Hwf. revert nr todo mask.
  induction Hwf as [| w p Hw Hwf IH]; intros nr todo mask Hnr Htodo Hmask Hsize Hbits Hal Hsz.
  - assert (nr = 0) as -> by (unfold bit_size in Hsz; cbn in Hsz; lia).
    exists []. cbn. destruct (Z.leb_spec 0 (0 - todo)); [lia |]. split; [done |].
    split; [done | split; [constructor |]]. intros i Hi. case_cmp; cbn; done || lia.
  - cbn [range_loop]. change BITS_PER_LONG with 32. rewrite bit_size_cons in Hsz.
    destruct (Z.leb_spec 0 (nr - todo)).
    + destruct (IH (nr - todo) 32 ULONG_MAX) as (rest & -> & Hlen & Hrwf & Hrbits);
        [lia | lia | done | lia | | | lia |].
      { intros j Hj. unfold ULONG_MAX, BITS_PER_LONG. rewrite testbit_ones by lia. by bits_simpl. }
      { replace (size - (nr - todo) + 32) with (size - nr + todo + 1 * 32) by lia.
        by rewrite Z.mod_add by lia. }
      eexists. split; [done |]. split; [cbn; lia | split; [constructor; auto |]].
      intros i Hi. destruct (Z.ltb_spec i 32).
      * rewrite !bit_at_cons_lo, upd_bits, Hbits by lia. case_cmp; cbn; done || lia.
      * rewrite !bit_at_cons_hi, Hrbits by lia. case_cmp; cbn; done || lia.
    + unfold c_true. destruct (Z.eqb_spec nr 0) as [-> |]; cbn [negb].
      { eexists. split; [done |]. split; [done | split; [constructor; auto |]].
        intros i Hi. case_cmp; cbn; done || lia. }
      assert (Hm : size mod 32 = 32 - todo + nr).
      { pose proof (Z.div_mod (size - nr + todo) 32 ltac:(lia)). rewrite Hal in *.
        symmetry. apply (Z.mod_unique size 32 ((size - nr + todo) / 32 - 1)); [left |]; lia. }
      eexists. split; [done |]. split; [done | split].
      * constructor; [| done]. apply upd_wf; [done | by apply in_u_land_l].
      * intros i Hi. destruct (Z.ltb_spec i 32).
        -- rewrite !bit_at_cons_lo, upd_bits, Z.land_spec, Hbits, last_word_mask_testbit by lia.
           rewrite Hm. case_cmp; cbn; done || lia.
        -- rewrite !bit_at_cons_hi by lia. case_cmp; cbn; done || lia.
Qed.

Lemma bit_at_app_r (p q : list Z) (i : Z) :
  bit_size p <= i -> bit_at (p ++ q) i = bit_at q (i - bit_size p).
Proof.
  revert i. induction p as [| w p IH]; intros i Hi.
  - unfold bit_size. cbn. by rewrite Z.sub_0_r.
  - rewrite bit_size_cons in *. assert (0 <= bit_size p) by (unfold bit_size, BITS_PER_LONG; lia).
    cbn [app]. rewrite bit_at_cons_hi, IH by lia. f_equal. lia.
Qed.

Lemma bit_at_app_l (p q : list Z) (i : Z) :
  0 <= i < bit_size p -> bit_at (p ++ q) i = bit_at p i.
Proof.
  revert i. induction p as [| w p IH]; intros i Hi.
  - unfold bit_size in Hi. cbn in Hi. lia.
  - rewrite bit_size_cons in Hi. cbn [app]. destruct (Z.ltb_spec i 32).
    + by rewrite !bit_at_cons_lo by lia.
    + by rewrite !bit_at_cons_hi, IH by lia.
Qed.

Lemma range_update_spec (map : list Z) (start nr : Z) :
  words_wf map -> 0 <= start -> 0 <= nr -> start + nr <= bit_size map ->
  exists map', range_update upd map start nr = Some map'
    /\ length map' = length map /\ words_wf map'
    /\ forall i, 0 <= i ->
         bit_at map' i = if (start <=? i) && (i <? start + nr) then v else bit_at map i.
Proof.
  intros Hwf Hs Hnr Hle. unfold range_update, BIT_WORD. change BITS_PER_LONG with 32.
  pose proof (Z.div_mod start 32 ltac:(lia)). pose proof (Z.mod_pos_bound start 32 ltac:(lia)).
  pose proof (Z.div_pos start 32 Hs ltac:(lia)).
  unfold bit_size, BITS_PER_LONG in Hle. set (k := Z.to_nat (start / 32)).
  assert (Hk : Z.of_nat k = start / 32) by lia.
  destruct (range_loop_spec (drop k map) (start + nr) nr (32 - start mod 32)
              (BITMAP_FIRST_WORD_MASK start)) as (rest & -> & Hlen & Hrwf & Hbits).
  - by apply Forall_drop.
  - done.
  - lia.
  - by apply in_u_wrap.
  - lia.
  - intros j Hj. unfold BITMAP_FIRST_WORD_MASK. change BITS_PER_LONG with 32.
    rewrite ulong_shl_ones_testbit by lia. bits_simpl. f_equal. lia.
  - replace (start + nr - nr + (32 - start mod 32)) with ((start / 32 + 1) * 32) by lia.
    by rewrite Z.mod_mul by lia.
  - unfold bit_size, BITS_PER_LONG. rewrite length_drop. lia.
  - replace (32 - (32 - start mod 32)) with (start mod 32) in Hbits by lia.
    cbn [mbind option_bind]. eexists. split; [done |].
    assert (Hmap : map = take k map ++ drop k map) by (by rewrite take_drop).
    rewrite length_drop in Hlen.
    split; [rewrite length_app, length_take, Hlen; lia | split].
    { apply Forall_app. split; [by apply Forall_take | done]. }
    assert (Hk32 : (k <= length map)%nat -> bit_size (take k map) = Z.of_nat k * 32).
    { intros. unfold bit_size, BITS_PER_LONG. rewrite length_take. lia. }
    intros i Hi. destruct (decide (k <= length map)%nat) as [Hin |].
    + rewrite Hmap at 2. destruct (Z.ltb_spec i (Z.of_nat k * 32)).
      * rewrite !bit_at_app_l by (rewrite Hk32; lia). case_cmp; cbn; done || lia.
      * rewrite !bit_at_app_r, Hk32, Hbits by (rewrite ?Hk32; lia).
        case_cmp; cbn; done || lia.
    + lia.
Qed.

End RangeUpdate.

Lemma bitmap_set_spec (map : list Z) (start nr : Z) :
  words_wf map -> 0 <= start -> 0 <= nr -> start + nr <= bit_size map ->
  exists map', bitmap_set map start nr = Some map'
    /\ length map' = length map /\ words_wf map'
    /\ forall i, 0 <= i ->
         bit_at map' i = if (start <=? i) && (i <? start + nr) then true else bit_at map i.
Proof.
  apply range_update_spec.
  - intros mask w Hw Hm. by apply in_u_lor.
  - intros mask w j Hj. rewrite Z.lor_spec. destruct (Z.testbit mask j); btauto.
Qed.

Lemma bitmap_clear_spec (map : list Z) (start nr : Z) :
  words_wf map -> 0 <= start -> 0 <= nr -> start + nr <= bit_size map ->
  exists map', bitmap_clear map start nr = Some map'
    /\ length map' = length map /\ words_wf map'
    /\ forall i, 0 <= i ->
         bit_at map' i = if (start <=? i) && (i <? start + nr) then false else bit_at map i.
Proof.
  apply range_update_spec.
  - intros mask w Hw Hm. by apply in_u_land_l.
  - intros mask w j Hj. rewrite Z.land_spec, ulong_not_testbit by lia. bits_simpl.
    destruct (Z.testbit mask j); btauto.
Qed.

(** ** The search for a free area *)

Section Area.
Context (map : list Z) (size nr a : Z).
Context (map_wf : words_wf map) (size_le : 0 <= size <= bit_size map).
Context (nr_pos : 0 < nr) (a_nonneg : 0 <= a).
Context (no_overflow : size + nr + 2 ^ a < 2 ^ 32).

(** An area the caller may use: aligned, inside the bitmap, all clear. *)
Definition free_area (start i : Z) : Prop :=
  start <= i /\ i mod 2 ^ a = 0 /\ i + nr <= size
  /\ forall j, i <= j < i + nr -> bit_at map j = false.

Lemma ALIGN_MASK_spec (x : Z) :
  0 <= x -> x + 2 ^ a <= 2 ^ 32 ->
  exists y, ALIGN_MASK x (2 ^ a - 1) = y /\ x <= y < x + 2 ^ a /\ y mod 2 ^ a = 0
            /\ forall c, x <= c -> c mod 2 ^ a = 0 -> y <= c.
Proof.
  intros Hx Hb. pose proof (Z.pow_pos_nonneg 2 a ltac:(lia) a_nonneg) as Hp.
  unfold ALIGN_MASK. change BITS_PER_LONG with 32.
  rewrite wrap_small by (split; lia).
  replace (ulong_not (2 ^ a - 1)) with (ulong_not (Z.ones a))
    by (f_equal; rewrite Z.ones_equiv; lia).
  rewrite land_not_ones by (lia || split; lia).
  set (q := (x + (2 ^ a - 1)) / 2 ^ a).
  pose proof (Z.div_mod (x + (2 ^ a - 1)) (2 ^ a) ltac:(lia)) as Hd. fold q in Hd.
  pose proof (Z.mod_pos_bound (x + (2 ^ a - 1)) (2 ^ a) Hp).
  exists (2 ^ a * q). split; [done | split; [lia | split]].
  - rewrite Z.mul_comm. apply Z.mod_mul. lia.
  - intros c Hc Hm. pose proof (Z.div_mod c (2 ^ a) ltac:(lia)) as Hdc. rewrite Hm in Hdc.
    destruct (Z.leb_spec q (c / 2 ^ a)) as [Hle | Hlt].
    + pose proof (Z.mul_le_mono_nonneg_l q (c / 2 ^ a) (2 ^ a) ltac:(lia) Hle). lia.
    + pose proof (Z.mul_le_mono_nonneg_l (c / 2 ^ a) (q - 1) (2 ^ a) ltac:(lia) ltac:(lia)). lia.
Qed.

Lemma find_area_loop_spec (fuel : nat) (start : Z) :
  0 <= start -> start < 2 ^ 32 -> size - start < Z.of_nat fuel -> 0 < Z.of_nat fuel ->
  exists r, bitmap_find_next_zero_area_loop fuel map size start nr (2 ^ a - 1) = Some r
    /\ ((free_area start r /\ forall i, free_area start i -> r <= i)
        \/ (size < r /\ forall i, ~ free_area start i)).
Proof.
  revert start. induction fuel as [| fuel IH]; intros start Hs0 Hs Hf Hf0; [lia |].
  cbn [bitmap_find_next_zero_area_loop].
  pose proof (Z.pow_pos_nonneg 2 a ltac:(lia) a_nonneg) as Hp.
  assert (Hsz : in_u 32 size) by (split; lia).
  destruct (find_next_zero_bit_spec map size start) as (z & -> & Hz); [done | done | done | lia |].
  cbn [mbind option_bind]. destruct Hz as (Hzr & Hzlow & Hzbit).
  destruct (ALIGN_MASK_spec z) as (index & -> & Hiz & Hial & Himin); [lia | lia |].
  change BITS_PER_LONG with 32. rewrite (wrap_small 32 (index + nr)) by (split; lia).
  assert (Hcand : forall c, free_area start c -> index <= c).
  { intros c (Hc & Hcal & Hcsz & Hcfree). apply Himin; [| done].
    destruct (Z.leb_spec z c); [done |]. specialize (Hzlow c ltac:(lia)).
    rewrite Hcfree in Hzlow by lia. done. }
  destruct (Z.ltb_spec size (index + nr)).
  { eexists. split; [done |]. right. split; [lia |]. intros c Hc.
    specialize (Hcand c Hc). destruct Hc as (_ & _ & Hc & _). lia. }
  destruct (find_next_bit_spec map (index + nr) index) as (i & -> & Hi);
    [done | split; lia | lia | lia |].
  rewrite Z.min_l in Hi by lia. destruct Hi as (Hir & Hilow & Hibit). cbn [mbind option_bind].
  destruct (Z.ltb_spec i (index + nr)).
  - specialize (Hibit ltac:(lia)). rewrite (wrap_small 32 (i + 1)) by (split; lia).
    assert (Hnext : forall c, free_area start c <-> free_area (i + 1) c).
    { intros c. split; intros (Hc & Hcal & Hcsz & Hcfree); split_and!; try done; [| lia].
      assert (index <= c) by (apply Hcand; by split_and!).
      destruct (Z.ltb_spec i c); [lia |]. rewrite Hcfree in Hibit by lia. done. }
    destruct (IH (i + 1)) as (r & -> & Hr); [lia.. |]. exists r. split; [done |].
    destruct Hr as [[Hr Hmin] | [Hr Hno]]; [left | right].
    + split; [by apply Hnext |]. intros c Hc. by apply Hmin, Hnext.
    + split; [done |]. intros c Hc. by apply (Hno c), Hnext.
  - exists index. split; [done |]. left. split; [| done].
    split_and!; [lia | done | lia |]. intros j Hj. apply Hilow. lia.
Qed.

End Area.

(** ** Properties *)

(** [bitmap_set] stays inside the bitmap and sets exactly the bits
    [start, start + nr), leaving every other bit and the length unchanged. *)
Theorem bitmap_set_correct (map : list Z) (start nr : Z) :
  words_wf map -> 0 <= start -> 0 <= nr -> start + nr <= bit_size map ->
  exists map', bitmap_set map start nr = Some map'
    /\ length map' = length map /\ words_wf map'
    /\ forall i, 0 <= i ->
         bit_at map' i = if (start <=? i) && (i <? start + nr) then true else bit_at map i.
Proof. apply bitmap_set_spec. Qed.

Lemma bitmap_set_correct_witness :
  exists map', bitmap_set [1; 0; 0] 30 40 = Some map'
    /\ length map' = 3%nat /\ words_wf map'
    /\ forall i, 0 <= i ->
         bit_at map' i = if (30 <=? i) && (i <? 30 + 40) then true else bit_at [1; 0; 0] i.
Proof. apply (bitmap_set_correct [1; 0; 0] 30 40); by_eval. Defined.

(** Clearing a range after setting it restores every bit that was clear,
    and the two only touch the range. *)
Theorem bitmap_clear_set (map map1 : list Z) (start nr : Z) :
  words_wf map -> 0 <= start -> 0 <= nr -> start + nr <= bit_size map ->
  (forall i, start <= i < start + nr -> bit_at map i = false) ->
  bitmap_set map start nr = Some map1 ->
  exists map2, bitmap_clear map1 start nr = Some map2
    /\ length map2 = length map /\ forall i, 0 <= i -> bit_at map2 i = bit_at map i.
Proof.
  intros Hwf Hs Hnr Hle Hfree Hset.
  destruct (bitmap_set_spec map start nr) as (m1 & Hm1 & Hl1 & Hw1 & Hb1); [done.. |].
  simplify_eq.
  destruct (bitmap_clear_spec map1 start nr) as (m2 & Hm2 & Hl2 & Hw2 & Hb2); [done.. | |].
  { unfold bit_size in *. by rewrite Hl1. }
  exists m2. split; [done | split; [lia |]]. intros i Hi. rewrite Hb2, Hb1 by done.
  destruct (Z.leb_spec start i), (Z.ltb_spec i (start + nr)); cbn; try done.
  by rewrite Hfree by lia.
Qed.

Lemma bitmap_clear_set_witness :
  exists map2, bitmap_clear [0xfffffff1; 1] 4 29 = Some map2
    /\ length map2 = 2%nat /\ forall i, 0 <= i -> bit_at map2 i = bit_at [1; 0] i.
Proof.
  destruct (bitmap_clear_set [1; 0] [0xfffffff1; 1] 4 29) as (m & Hm & H1 & H2);
    [by_eval | by_eval | by_eval | by_eval | | by_eval |].
  - intros i Hi. unfold bit_at, word_at, BITS_PER_LONG.
    destruct (Z.ltb_spec i 32).
    + rewrite Z.div_small, Z.mod_small by lia. cbn. apply (testbit_high 1); [lia | by_eval | lia].
    + replace i with 32 by lia. done.
  - exists m. by split_and!.
Defined.

(** [slow_bitmap_empty], [slow_bitmap_full], [slow_bitmap_equal] and
    [slow_bitmap_intersects] decide the statement their names make about the
    first [bits] bits; the unused bits of the last word do not matter. *)
Theorem slow_bitmap_predicates_correct (p q : list Z) (bits : Z) :
  words_wf p -> words_wf q -> 0 <= bits -> bits <= bit_size p -> bits <= bit_size q ->
  (slow_bitmap_empty p bits = Some 1 <-> forall i, 0 <= i < bits -> bit_at p i = false)
  /\ (slow_bitmap_full p bits = Some 1 <-> forall i, 0 <= i < bits -> bit_at p i = true)
  /\ (slow_bitmap_equal p q bits = Some 1
      <-> forall i, 0 <= i < bits -> bit_at p i = bit_at q i)
  /\ (slow_bitmap_intersects p q bits = Some 1
      <-> exists i, 0 <= i < bits /\ bit_at p i = true /\ bit_at q i = true)
  /\ Forall (fun o => o = Some 0 \/ o = Some 1)
       [slow_bitmap_empty p bits; slow_bitmap_full p bits;
        slow_bitmap_equal p q bits; slow_bitmap_intersects p q bits].
Proof.
  intros Hp Hq Hb Hbp Hbq.
  destruct (any_bit_below_spec p bits) as (b1 & E1 & H1); [done | lia |].
  destruct (any_bit_below_spec (ulong_not <$> p) bits) as (b2 & E2 & H2);
    [apply words_wf_compl | unfold bit_size in *; rewrite length_fmap; lia |].
  destruct (any_bit_below_spec (zip_with Z.lxor p q) bits) as (b3 & E3 & H3);
    [apply words_wf_zip; [intros; by apply in_u_lxor | done..] | rewrite bit_size_zip; lia |].
  destruct (any_bit_below_spec (zip_with Z.land p q) bits) as (b4 & E4 & H4);
    [apply words_wf_zip; [intros; by apply in_u_land_l | done..] | rewrite bit_size_zip; lia |].
  rewrite slow_bitmap_empty_any, slow_bitmap_full_any, slow_bitmap_equal_any,
    slow_bitmap_intersects_any, E1, E2, E3, E4. cbn [fmap option_fmap option_map].
  assert (Hneg : forall (d : list Z) (b : bool),
    (b = true <-> exists i, 0 <= i < bits /\ bit_at d i = true) ->
    (Some (c_bool (negb b)) = Some 1 <-> forall i, 0 <= i < bits -> bit_at d i = false)).
  { intros d b Hd. split.
    - intros Hc i Hi. destruct (bit_at d i) eqn:E; [| done].
      rewrite (proj2 Hd) in Hc by (by exists i). done.
    - intros Hc. destruct b; [| done]. destruct (proj1 Hd eq_refl) as (i & Hi & E).
      by rewrite Hc in E by done. }
  split_and!.
  - by apply Hneg.
  - rewrite (Hneg _ _ H2). split; intros H i Hi; specialize (H i Hi).
    + rewrite bit_at_compl in H by lia. by apply negb_false_iff.
    + by rewrite bit_at_compl, H by lia.
  - rewrite (Hneg _ _ H3). split; intros H i Hi; specialize (H i Hi).
    + rewrite (bit_at_zip Z.lxor xorb) in H by (intros; apply Z.lxor_spec || lia).
      by apply xorb_eq.
    + rewrite (bit_at_zip Z.lxor xorb) by (intros; apply Z.lxor_spec || lia).
      rewrite H. apply xorb_nilpotent.
  - split.
    + intros Hc. destruct b4; [| done]. destruct (proj1 H4 eq_refl) as (i & Hi & E).
      rewrite (bit_at_zip Z.land andb) in E by (intros; apply Z.land_spec || lia).
      apply andb_true_iff in E. by exists i.
    + intros (i & Hi & Ep & Eq). rewrite (proj2 H4); [done |]. exists i. split; [done |].
      rewrite (bit_at_zip Z.land andb) by (intros; apply Z.land_spec || lia). by rewrite Ep, Eq.
  - repeat apply Forall_cons_2; [destruct b1 | destruct b2 | destruct b3 | destruct b4 |]; auto.
Qed.

Lemma slow_bitmap_predicates_correct_witness :
  slow_bitmap_equal [5; 0xff00] [5; 0x0f00] 44 = Some 1
  <-> forall i, 0 <= i < 44 -> bit_at [5; 0xff00] i = bit_at [5; 0x0f00] i.
Proof. apply (slow_bitmap_predicates_correct [5; 0xff00] [5; 0x0f00] 44); by_eval. Defined.

(** [bitmap_find_next_zero_area] terminates within one iteration per bit
    and returns the first aligned clear area of [nr] bits at or after
    [start], or a value beyond [size] when there is none. *)
Theorem bitmap_find_next_zero_area_correct (map : list Z) (size start nr a : Z) :
  words_wf map -> 0 <= size <= bit_size map -> 0 <= start < 2 ^ 32 -> 0 < nr -> 0 <= a ->
  size + nr + 2 ^ a < 2 ^ 32 ->
  exists r, bitmap_find_next_zero_area map size start nr (2 ^ a - 1) = Some r
    /\ ((free_area map size nr a start r
         /\ forall i, free_area map size nr a start i -> r <= i)
        \/ (size < r /\ forall i, ~ free_area map size nr a start i)).
Proof.
  intros Hwf Hs Hst Hnr Ha Hov. unfold bitmap_find_next_zero_area.
  apply find_area_loop_spec; [done.. | lia | lia | lia | lia].
Qed.

Lemma bitmap_find_next_zero_area_correct_witness :
  exists r, bitmap_find_next_zero_area [0xf0f; 0] 64 0 9 (2 ^ 3 - 1) = Some r
    /\ ((free_area [0xf0f; 0] 64 9 3 0 r
         /\ forall i, free_area [0xf0f; 0] 64 9 3 0 i -> r <= i)
        \/ (64 < r /\ forall i, ~ free_area [0xf0f; 0] 64 9 3 0 i)).
Proof. apply (bitmap_find_next_zero_area_correct [0xf0f; 0] 64 0 9 3); by_eval. Defined.
