(* ===== verification/HostUtils.v ===== *)
(** * Wide arithmetic and bit counting (qemu/host-utils.c, host-utils.h, qemu-common.h)

    The portable versions, which hosts without GCC builtins use, and
    [muldiv64] of qemu-common.h, which scales clock values.  A 128-bit number
    is the pair of its 64-bit halves; division by zero is [None].

    Theorems: [mulu64] and [muls64] are exact 64 by 64 to 128-bit
    multiplications, unsigned and two's complement; [muldiv64] is the quotient
    of the full product.  Lemmas: [clz32] and [clz64] count leading zeros, [ctz32]
    trailing zeros. *)

From Stdlib Require Import ZArith Lia.
From stdpp Require Import base option numbers list.
From S2P Require Import Prelude.

Local Open Scope Z_scope.

(** ** Definitions *)

(** Results are [(low, high)]. *)
Definition add128 (low high a b : Z) : Z * Z :=
  let low := wrap 64 (low + a) in
  let high := if low <? a then wrap 64 (high + 1) else high in
  (low, wrap 64 (high + b)).

Definition neg128 (low high : Z) : Z * Z :=
  add128 (wrap 64 (Z.lnot low)) (wrap 64 (Z.lnot high)) 1 0.

Definition mul64 (a b : Z) : Z * Z :=
  let a0 := wrap 32 a in
  let a1 := wrap 32 (Z.shiftr a 32) in
  let b0 := wrap 32 b in
  let b1 := wrap 32 (Z.shiftr b 32) in
  let v := wrap 64 (a0 * b0) in
  let '(low, high) := (v, 0) in
  let v := wrap 64 (a0 * b1) in
  let '(low, high) := add128 low high (wrap 64 (Z.shiftl v 32)) (Z.shiftr v 32) in
  let v := wrap 64 (a1 * b0) in
  let '(low, high) := add128 low high (wrap 64 (Z.shiftl v 32)) (Z.shiftr v 32) in
  let v := wrap 64 (a1 * b1) in
  (low, wrap 64 (high + v)).

Definition mulu64 (a b : Z) : Z * Z := mul64 a b.

(** [a] and [b] are [int64_t]; negation and the conversion of the arguments of
    [mul64] to [uint64_t] wrap around. *)
Definition muls64 (a b : Z) : Z * Z :=
  let sa := c_bool (a <? 0) in
  let a := if c_true sa then to_signed 64 (- a) else a in
  let sb := c_bool (b <? 0) in
  let b := if c_true sb then to_signed 64 (- b) else b in
  let '(low, high) := mul64 (wrap 64 a) (wrap 64 b) in
  if c_true (Z.lxor sa sb) then neg128 low high else (low, high).

(** [a] has 64 bits, [b] and [c] 32; [u] and [res] are unions of a 64-bit
    number with its two halves. *)
Definition muldiv64 (a b c : Z) : option Z :=
  let rl := wrap 64 (wrap 32 a * b) in
  let rh := wrap 64 (wrap 32 (Z.shiftr a 32) * b) in
  let rh := wrap 64 (rh + Z.shiftr rl 32) in
  if c =? 0 then None
  else
    let res_high := wrap 32 (rh / c) in
    let res_low := wrap 32 (wrap 64 (wrap 64 (Z.shiftl (rh mod c) 32) + Z.land rl 0xffffffff) / c) in
    Some (res_low + Z.shiftl res_high 32).

(** One [if (!(val & mask)) { cnt += k; val <<= k; }] of the search *)
Definition clz_step (mask k : Z) (s : Z * Z) : Z * Z :=
  let '(cnt, val) := s in
  if Z.land val mask =? 0 then (cnt + k, wrap 32 (Z.shiftl val k)) else (cnt, val).

Definition clz32 (val : Z) : Z :=
  let s := clz_step 0xFFFF0000 16 (0, val) in
  let s := clz_step 0xFF000000 8 s in
  let s := clz_step 0xF0000000 4 s in
  let s := clz_step 0xC0000000 2 s in
  let '(cnt, val) := clz_step 0x80000000 1 s in
  if Z.land val 0x80000000 =? 0 then cnt + 1 else cnt.

Definition clo32 (val : Z) : Z := clz32 (wrap 32 (Z.lnot val)).

Definition clz64 (val : Z) : Z :=
  let '(cnt, val) :=
    if Z.shiftr val 32 =? 0 then (32, val) else (0, Z.shiftr val 32) in
  cnt + clz32 (wrap 32 val).

Definition clo64 (val : Z) : Z := clz64 (wrap 64 (Z.lnot val)).

(** One [if (!(val & mask)) { cnt += k; val >>= k; }] *)
Definition ctz_step (mask k : Z) (s : Z * Z) : Z * Z :=
  let '(cnt, val) := s in
  if Z.land val mask =? 0 then (cnt + k, Z.shiftr val k) else (cnt, val).

Definition ctz32 (val : Z) : Z :=
  let s := ctz_step 0x0000FFFF 16 (0, val) in
  let s := ctz_step 0x000000FF 8 s in
  let s := ctz_step 0x0000000F 4 s in
  let s := ctz_step 0x00000003 2 s in
  let '(cnt, val) := ctz_step 0x00000001 1 s in
  if Z.land val 0x00000001 =? 0 then cnt + 1 else cnt.

Definition cto32 (val : Z) : Z := ctz32 (wrap 32 (Z.lnot val)).

Definition ctz64 (val : Z) : Z :=
  let '(cnt, val) := if wrap 32 val =? 0 then (32, Z.shiftr val 32) else (0, val) in
  cnt + ctz32 (wrap 32 val).

Definition cto64 (val : Z) : Z := ctz64 (wrap 64 (Z.lnot val)).

(** ** 128-bit values *)

Definition value128 (p : Z * Z) : Z := p.1 + p.2 * 2 ^ 64.

Definition in_u128 (p : Z * Z) : Prop := in_u 64 p.1 /\ in_u 64 p.2.

Lemma wrap_in_u (w z : Z) : 0 <= w -> in_u w (wrap w z).
Proof. intros Hw. unfold in_u, wrap. apply Z.mod_pos_bound. lia. Qed.

Lemma value128_wrap (p : Z * Z) (v : Z) :
  in_u128 p -> (exists k, value128 p = v + k * 2 ^ 128) -> value128 p = wrap 128 v.
Proof.
  unfold in_u128, in_u, value128, wrap. intros [Hl Hh] [k Hk]. symmetry. rewrite Hk.
  rewrite <- (Z_mod_plus_full v k (2 ^ 128)), <- Hk. apply Z.mod_small. lia.
Qed.

Lemma add128_spec (low high a b : Z) :
  in_u 64 low -> in_u 64 high -> in_u 64 a ->
  in_u128 (add128 low high a b)
  /\ exists k, value128 (add128 low high a b) = low + high * 2 ^ 64 + (a + b * 2 ^ 64) + k * 2 ^ 128.
Proof.
  unfold add128, in_u128, value128. cbn [fst snd]. intros Hl Hh Ha. split.
  { split; apply wrap_in_u; lia. }
  unfold in_u, wrap in *.
  assert (exists c, (c = 0 \/ c = 1) /\ (low + a) mod 2 ^ 64 = low + a - c * 2 ^ 64
    /\ ((low + a) mod 2 ^ 64 <? a) = (c =? 1)) as (c & Hc & Hmod & ->).
  { destruct (Z.ltb_spec (low + a) (2 ^ 64)).
    - exists 0. rewrite Z.mod_small by lia. split_and!; [lia | lia |]. apply Z.ltb_ge. lia.
    - exists 1. assert ((low + a) mod 2 ^ 64 = low + a - 2 ^ 64) as ->
        by (symmetry; apply (Z.mod_unique_pos _ _ 1); lia).
      split_and!; [lia | lia |]. apply Z.ltb_lt. lia. }
  rewrite Hmod. set (h := if c =? 1 then (high + 1) mod 2 ^ 64 else high).
  assert (exists k1, h = high + c + k1 * 2 ^ 64) as [k1 ->].
  { subst h. destruct Hc as [-> | ->]; cbn [Z.eqb Pos.eqb]; [exists 0; lia |].
    exists (- ((high + 1) / 2 ^ 64)). pose proof (Z.div_mod (high + 1) (2 ^ 64) ltac:(lia)). lia. }
  pose proof (Z.div_mod (high + c + k1 * 2 ^ 64 + b) (2 ^ 64) ltac:(lia)) as Hdm.
  exists (k1 - (high + c + k1 * 2 ^ 64 + b) / 2 ^ 64). lia.
Qed.

Lemma neg128_spec (low high : Z) :
  in_u 64 low -> in_u 64 high ->
  value128 (neg128 low high) = wrap 128 (- (low + high * 2 ^ 64)).
Proof.
  intros Hl Hh. unfold neg128.
  assert (forall x, in_u 64 x -> wrap 64 (Z.lnot x) = 2 ^ 64 - 1 - x) as Hnot.
  { intros x Hx. unfold in_u, wrap, Z.lnot in *. symmetry. apply (Z.mod_unique_pos _ _ (-1)); lia. }
  rewrite !Hnot by done. unfold in_u in *.
  destruct (add128_spec (2 ^ 64 - 1 - low) (2 ^ 64 - 1 - high) 1 0) as [Hu [k Hk]];
    unfold in_u; [lia.. |].
  apply value128_wrap; [done |]. exists (k + 1). rewrite Hk. lia.
Qed.

Lemma split_shift (v : Z) :
  in_u 64 v ->
  in_u 64 (wrap 64 (Z.shiftl v 32))
  /\ wrap 64 (Z.shiftl v 32) + Z.shiftr v 32 * 2 ^ 64 = v * 2 ^ 32.
Proof.
  intros Hv. split; [apply wrap_in_u; lia |]. unfold wrap, in_u in *.
  rewrite Z.shiftl_mul_pow2, Z.shiftr_div_pow2 by lia.
  change (2 ^ 64) with (2 ^ 32 * 2 ^ 32). rewrite Z.mul_mod_distr_r by lia.
  pose proof (Z.div_mod v (2 ^ 32) ltac:(lia)). lia.
Qed.

Lemma wrap_mul32 (x y : Z) :
  0 <= x < 2 ^ 32 -> 0 <= y < 2 ^ 32 -> wrap 64 (x * y) = x * y /\ 0 <= x * y <= (2 ^ 32 - 1) * (2 ^ 32 - 1).
Proof.
  intros Hx Hy. assert (0 <= x * y <= (2 ^ 32 - 1) * (2 ^ 32 - 1)) as Hb
    by (split; [apply Z.mul_nonneg_nonneg | apply Z.mul_le_mono_nonneg]; lia).
  split; [| done]. unfold wrap. apply Z.mod_small. lia.
Qed.

Lemma halves (v : Z) :
  in_u 64 v ->
  v = wrap 32 v + wrap 32 (Z.shiftr v 32) * 2 ^ 32 /\ 0 <= wrap 32 v < 2 ^ 32
  /\ 0 <= wrap 32 (Z.shiftr v 32) < 2 ^ 32.
Proof.
  unfold wrap, in_u. intros Hv. rewrite Z.shiftr_div_pow2 by lia.
  pose proof (Z.div_mod v (2 ^ 32) ltac:(lia)). pose proof (Z.mod_pos_bound v (2 ^ 32) ltac:(lia)).
  assert (0 <= v / 2 ^ 32 < 2 ^ 32) by (split; [apply Z.div_pos | apply Z.div_lt_upper_bound]; lia).
  rewrite (Z.mod_small (v / 2 ^ 32)) by lia. lia.
Qed.

Lemma mul64_spec (a b : Z) :
  in_u 64 a -> in_u 64 b -> in_u128 (mul64 a b) /\ value128 (mul64 a b) = a * b.
Proof.
  intros Ha Hb.
  assert (in_u128 (mul64 a b) /\ value128 (mul64 a b) = wrap 128 (a * b)) as [Hu Hv].
  2: { split; [done |]. rewrite Hv. unfold wrap, in_u in *. apply Z.mod_small. nia. }
  unfold mul64.
  destruct (halves a Ha) as (Hda & Ha0 & Ha1). destruct (halves b Hb) as (Hdb & Hb0 & Hb1).
  set (a0 := wrap 32 a) in *. set (a1 := wrap 32 (Z.shiftr a 32)) in *.
  set (b0 := wrap 32 b) in *. set (b1 := wrap 32 (Z.shiftr b 32)) in *.
  destruct (wrap_mul32 a0 b0 Ha0 Hb0) as [-> Hr00]. destruct (wrap_mul32 a0 b1 Ha0 Hb1) as [-> Hr01].
  destruct (wrap_mul32 a1 b0 Ha1 Hb0) as [-> Hr10]. destruct (wrap_mul32 a1 b1 Ha1 Hb1) as [-> Hr11].
  destruct (split_shift (a0 * b1)) as [Hu1 Hs1]; [unfold in_u; lia |].
  destruct (split_shift (a1 * b0)) as [Hu2 Hs2]; [unfold in_u; lia |].
  cbv zeta.
  pose proof (add128_spec (a0 * b0) 0 (wrap 64 (Z.shiftl (a0 * b1) 32)) (Z.shiftr (a0 * b1) 32)
    ltac:(unfold in_u; lia) ltac:(unfold in_u; lia) Hu1) as [[Hl1 Hh1] [k1 Hv1]].
  destruct (add128 (a0 * b0) 0 _ _) as [l1 h1]. cbn [fst snd value128] in Hl1, Hh1, Hv1.
  pose proof (add128_spec l1 h1 (wrap 64 (Z.shiftl (a1 * b0) 32)) (Z.shiftr (a1 * b0) 32)
    Hl1 Hh1 Hu2) as [[Hl2 Hh2] [k2 Hv2]].
  destruct (add128 l1 h1 _ _) as [l2 h2]. unfold value128 in *. cbn [fst snd] in *.
  split; [split; [done | apply wrap_in_u; lia] |].
  apply (value128_wrap (l2, wrap 64 (h2 + a1 * b1))); [split; [done | apply wrap_in_u; lia] |].
  unfold value128, wrap. cbn [fst snd].
  pose proof (Z.div_mod (h2 + a1 * b1) (2 ^ 64) ltac:(lia)) as Hdm.
  exists (k1 + k2 - (h2 + a1 * b1) / 2 ^ 64). rewrite Hda, Hdb.
  replace ((a0 + a1 * 2 ^ 32) * (b0 + b1 * 2 ^ 32))
    with (a0 * b0 + a0 * b1 * 2 ^ 32 + a1 * b0 * 2 ^ 32 + a1 * b1 * 2 ^ 64) by lia.
  lia.
Qed.

Lemma to_signed_neg (a : Z) :
  - 2 ^ 63 <= a < 0 -> wrap 64 (to_signed 64 (- a)) = - a.
Proof.
  intros Ha. unfold to_signed, wrap.
  rewrite (Z.mod_small (- a)) by lia. change (64 - 1) with 63.
  destruct (Z.ltb_spec (- a) (2 ^ 63)); [apply Z.mod_small; lia |].
  symmetry. apply (Z.mod_unique_pos _ _ (-1)); lia.
Qed.

Lemma wrap_abs (a : Z) :
  - 2 ^ 63 <= a < 2 ^ 63 ->
  wrap 64 (if c_true (c_bool (a <? 0)) then to_signed 64 (- a) else a) = Z.abs a
  /\ in_u 64 (Z.abs a).
Proof.
  intros Ha. unfold in_u. split; [| lia]. destruct (Z.ltb_spec a 0); cbn.
  - rewrite to_signed_neg by lia. lia.
  - unfold wrap. rewrite Z.mod_small; lia.
Qed.

Lemma land_low32 (x : Z) : 0 <= x -> Z.land x 0xffffffff = x mod 2 ^ 32.
Proof. intros Hx. change 0xffffffff with (Z.ones 32). by rewrite Z.land_ones by lia. Qed.

Lemma muldiv64_spec (a b c : Z) :
  in_u 64 a -> in_u 32 b -> 0 < c < 2 ^ 32 -> muldiv64 a b c = Some (wrap 64 (a * b / c)).
Proof.
  intros Ha Hb Hc. destruct (halves a Ha) as (Hda & Hlo & Hhi). unfold muldiv64, in_u in *.
  set (lo := wrap 32 a) in *. set (hi := wrap 32 (Z.shiftr a 32)) in *.
  destruct (wrap_mul32 lo b Hlo Hb) as [-> Hr1]. destruct (wrap_mul32 hi b Hhi Hb) as [-> Hr2].
  destruct (Z.eqb_spec c 0); [lia |]. rewrite land_low32 by lia.
  rewrite Z.shiftr_div_pow2 by lia.
  pose proof (Z.div_mod (lo * b) (2 ^ 32) ltac:(lia)) as Hdl.
  pose proof (Z.mod_pos_bound (lo * b) (2 ^ 32) ltac:(lia)) as Hml.
  set (q := lo * b / 2 ^ 32) in *. set (r := (lo * b) mod 2 ^ 32) in *.
  assert (wrap 64 (hi * b + q) = hi * b + q) as -> by (unfold wrap; apply Z.mod_small; lia).
  set (rh := hi * b + q) in *. pose proof (Z.div_mod rh c ltac:(lia)) as Hdc.
  pose proof (Z.mod_pos_bound rh c ltac:(lia)) as Hmc.
  rewrite !Z.shiftl_mul_pow2 by lia.
  assert (wrap 64 (rh mod c * 2 ^ 32) = rh mod c * 2 ^ 32) as -> by (unfold wrap; apply Z.mod_small; lia).
  set (m := rh mod c * 2 ^ 32 + r).
  assert (wrap 64 m = m) as -> by (unfold wrap; apply Z.mod_small; lia).
  assert (0 <= m / c < 2 ^ 32) as Hmdiv
    by (split; [apply Z.div_pos | apply Z.div_lt_upper_bound]; subst m; nia).
  assert (wrap 32 (m / c) = m / c) as -> by (unfold wrap; apply Z.mod_small; lia).
  assert (a * b / c = rh / c * 2 ^ 32 + m / c) as ->.
  { replace (a * b) with (rh / c * 2 ^ 32 * c + m) by (subst m rh; lia).
    rewrite Z.div_add_l by lia. done. }
  f_equal. unfold wrap. change (2 ^ 64) with (2 ^ 32 * 2 ^ 32).
  assert (0 <= rh / c) by (apply Z.div_pos; lia).
  rewrite Z.add_mul_mod_distr_r by lia. lia.
Qed.

(** ** Leading zeros *)

(** The number of leading zeros of a [w]-bit value *)
Definition leading_zeros (w v : Z) : Z := if v =? 0 then w else w - 1 - Z.log2 v.

Lemma land_high_mask (val k : Z) :
  0 < k < 32 -> 0 <= val < 2 ^ 32 ->
  (Z.land val (2 ^ 32 - 2 ^ (32 - k)) =? 0) = (val <? 2 ^ (32 - k)).
Proof.
  intros Hk Hv.
  assert (Z.land val (2 ^ 32 - 2 ^ (32 - k)) = Z.shiftl (Z.shiftr val (32 - k)) (32 - k)) as ->.
  { replace (2 ^ 32 - 2 ^ (32 - k)) with (Z.shiftl (Z.ones k) (32 - k)).
    - apply Z.bits_inj'. intros n Hn. rewrite Z.land_spec, !Z.shiftl_spec, testbit_ones by lia.
      destruct (Z.ltb_spec n (32 - k)).
      + rewrite !(Z.testbit_neg_r _ (n - (32 - k))) by lia.
        replace (0 <=? n - (32 - k)) with false by (symmetry; apply Z.leb_gt; lia).
        by rewrite andb_false_l, andb_false_r.
      + rewrite Z.shiftr_spec by lia. replace (n - (32 - k) + (32 - k)) with n by lia.
        destruct (Z.ltb_spec (n - (32 - k)) k) as [|Hge].
        * replace (0 <=? n - (32 - k)) with true by (symmetry; apply Z.leb_le; lia).
          by rewrite andb_true_r.
        * rewrite (testbit_high 32 val n) by (unfold in_u; lia). done.
    - rewrite Z.shiftl_mul_pow2, Z.ones_equiv by lia. unfold Z.pred.
      replace (2 ^ 32) with (2 ^ k * 2 ^ (32 - k)) by (rewrite <- Z.pow_add_r by lia; f_equal; lia). lia. }
  rewrite Z.shiftl_mul_pow2, Z.shiftr_div_pow2 by lia.
  assert (0 < 2 ^ (32 - k)) by (apply Z.pow_pos_nonneg; lia).
  pose proof (Z.div_pos val (2 ^ (32 - k)) ltac:(lia) ltac:(lia)).
  destruct (Z.ltb_spec val (2 ^ (32 - k))).
  - rewrite Z.div_small by lia. done.
  - apply Z.eqb_neq. assert (0 < val / 2 ^ (32 - k)) by (apply Z.div_str_pos; lia). nia.
Qed.

Lemma clz_step_spec (k cnt val : Z) :
  0 < k <= 16 -> 2 ^ (32 - 2 * k) <= val < 2 ^ 32 ->
  exists cnt' val', clz_step (2 ^ 32 - 2 ^ (32 - k)) k (cnt, val) = (cnt', val')
  /\ 2 ^ (32 - k) <= val' < 2 ^ 32 /\ cnt' - Z.log2 val' = cnt - Z.log2 val.
Proof.
  intros Hk Hv. assert (0 < 2 ^ (32 - 2 * k)) by (apply Z.pow_pos_nonneg; lia).
  unfold clz_step. rewrite land_high_mask by lia. destruct (Z.ltb_spec val (2 ^ (32 - k))).
  - eexists _, _. split; [done |].
    assert (val * 2 ^ k < 2 ^ 32).
    { replace (2 ^ 32) with (2 ^ (32 - k) * 2 ^ k) by (rewrite <- Z.pow_add_r by lia; f_equal; lia).
      apply Z.mul_lt_mono_pos_r; [apply Z.pow_pos_nonneg; lia | lia]. }
    rewrite Z.shiftl_mul_pow2 by lia.
    assert (0 <= val * 2 ^ k) by (apply Z.mul_nonneg_nonneg; [lia | apply Z.pow_nonneg; lia]).
    unfold wrap. rewrite Z.mod_small by lia. split.
    + split; [| done].
      replace (2 ^ (32 - k)) with (2 ^ (32 - 2 * k) * 2 ^ k) by (rewrite <- Z.pow_add_r by lia; f_equal; lia).
      apply Z.mul_le_mono_nonneg_r; [apply Z.pow_nonneg; lia | lia].
    + rewrite Z.log2_mul_pow2 by lia. lia.
  - eexists _, _. split; [done |]. split; [lia | done].
Qed.

Lemma clz32_spec (val : Z) : in_u 32 val -> clz32 val = leading_zeros 32 val.
Proof.
  unfold in_u, leading_zeros. intros Hv. destruct (Z.eqb_spec val 0) as [-> | Hne]; [done |].
  unfold clz32.
  destruct (clz_step_spec 16 0 val) as (c1 & v1 & H16 & Hv1 & Hc1); [lia.. |].
  destruct (clz_step_spec 8 c1 v1) as (c2 & v2 & H8 & Hv2 & Hc2); [lia.. |].
  destruct (clz_step_spec 4 c2 v2) as (c3 & v3 & H4 & Hv3 & Hc3); [lia.. |].
  destruct (clz_step_spec 2 c3 v3) as (c4 & v4 & H2' & Hv4 & Hc4); [lia.. |].
  destruct (clz_step_spec 1 c4 v4) as (c5 & v5 & H1' & Hv5 & Hc5); [lia.. |].
  change 0xFFFF0000 with (2 ^ 32 - 2 ^ (32 - 16)). rewrite H16.
  change 0xFF000000 with (2 ^ 32 - 2 ^ (32 - 8)). rewrite H8.
  change 0xF0000000 with (2 ^ 32 - 2 ^ (32 - 4)). rewrite H4.
  change 0xC0000000 with (2 ^ 32 - 2 ^ (32 - 2)). rewrite H2'.
  change 0x80000000 with (2 ^ 32 - 2 ^ (32 - 1)). rewrite H1'.
  rewrite land_high_mask by lia. destruct (Z.ltb_spec v5 (2 ^ (32 - 1))); [lia |].
  rewrite (Z.log2_unique v5 31) in Hc5 by lia. lia.
Qed.

Lemma clz64_spec (val : Z) : in_u 64 val -> clz64 val = leading_zeros 64 val.
Proof.
  unfold in_u. intros Hv. unfold clz64. rewrite Z.shiftr_div_pow2 by lia.
  assert (0 <= val / 2 ^ 32 < 2 ^ 32) by (split; [apply Z.div_pos | apply Z.div_lt_upper_bound]; lia).
  destruct (Z.eqb_spec (val / 2 ^ 32) 0) as [Hz | Hz].
  - apply Z.div_small_iff in Hz; [| lia]. unfold wrap. rewrite Z.mod_small by lia.
    rewrite clz32_spec by (unfold in_u; lia). unfold leading_zeros. case_cmp; lia.
  - unfold wrap. rewrite Z.mod_small by lia. rewrite clz32_spec by (unfold in_u; lia).
    unfold leading_zeros. destruct (Z.eqb_spec val 0) as [-> |]; [done |].
    destruct (Z.eqb_spec (val / 2 ^ 32) 0); [done |].
    rewrite <- Z.shiftr_div_pow2, Z.log2_shiftr by lia.
    assert (32 <= Z.log2 val) by (apply Z.log2_le_pow2; [lia |];
      pose proof (Z.div_mod val (2 ^ 32) ltac:(lia)); pose proof (Z.mod_pos_bound val (2 ^ 32) ltac:(lia)); nia).
    lia.
Qed.

(** ** Trailing zeros *)

Lemma ctz_step_spec (k cnt val : Z) :
  0 < k -> val mod 2 ^ (2 * k) <> 0 -> 0 <= val < 2 ^ 32 ->
  exists cnt' val', ctz_step (Z.ones k) k (cnt, val) = (cnt', val') /\
    val' mod 2 ^ k <> 0 /\ 0 <= val' < 2 ^ 32 /\ cnt <= cnt' /\ val = val' * 2 ^ (cnt' - cnt).
Proof.
  intros Hk Hm Hv. unfold ctz_step. rewrite Z.land_ones by lia. assert (0 < 2 ^ k) by lia.
  destruct (Z.eqb_spec (val mod 2 ^ k) 0) as [E | E]; eexists _, _; (split; [reflexivity |]).
  - rewrite Z.shiftr_div_pow2 by lia. pose proof (Z.div_mod val (2 ^ k) ltac:(lia)) as Hd. rewrite E, Z.add_0_r in Hd.
    split; [| split; [split; [by apply Z.div_pos; lia | apply Z.le_lt_trans with val; [apply Z.div_le_upper_bound; nia | lia]] | split; [lia |]]].
    + contradict Hm. apply Z.mod_divide in Hm as [q Hq]; [| lia]. rewrite Hd, Hq.
      replace (2 * k) with (k + k) by lia. rewrite Z.pow_add_r by lia. apply Z.mod_divide; [lia |]. exists q. lia.
    + replace (cnt + k - cnt) with k by lia. lia.
  - split; [done |]. split; [done |]. split; [lia |]. rewrite Z.sub_diag. lia.
Qed.

(** [ctz32] is the position of the lowest set bit, and 32 without any. *)
Lemma ctz32_spec (val : Z) :
  in_u 32 val -> val <> 0 ->
  0 <= ctz32 val < 32 /\ Z.testbit val (ctz32 val) = true /\
  forall j, 0 <= j < ctz32 val -> Z.testbit val j = false.
Proof.
  unfold in_u. intros Hv Hne. unfold ctz32.
  destruct (ctz_step_spec 16 0 val) as (c1 & v1 & E1 & M1 & R1 & L1 & V1); [lia | by rewrite Z.mod_small | lia |].
  destruct (ctz_step_spec 8 c1 v1) as (c2 & v2 & E2 & M2 & R2 & L2 & V2); [lia | exact M1 | exact R1 |].
  destruct (ctz_step_spec 4 c2 v2) as (c3 & v3 & E3 & M3 & R3 & L3 & V3); [lia | exact M2 | exact R2 |].
  destruct (ctz_step_spec 2 c3 v3) as (c4 & v4 & E4 & M4 & R4 & L4 & V4); [lia | exact M3 | exact R3 |].
  destruct (ctz_step_spec 1 c4 v4) as (c5 & v5 & E5 & M5 & R5 & L5 & V5); [lia | exact M4 | exact R4 |].
  change 0x0000FFFF with (Z.ones 16). rewrite E1. change 0x000000FF with (Z.ones 8). rewrite E2.
  change 0x0000000F with (Z.ones 4). rewrite E3. change 0x00000003 with (Z.ones 2). rewrite E4.
  change (ctz_step 0x00000001 1) with (ctz_step (Z.ones 1) 1). rewrite E5, land_1.
  rewrite (proj2 (Z.eqb_neq _ _)) by done.
  assert (E : val = Z.shiftl v5 c5).
  { rewrite Z.shiftl_mul_pow2 by lia. rewrite V1, V2, V3, V4, V5, <- !Z.mul_assoc, <- !Z.pow_add_r by lia. f_equal. f_equal. lia. }
  assert (Hodd : Z.testbit v5 0 = true).
  { rewrite Z.bit0_odd, Zodd_mod. apply Z.eqb_eq. pose proof (Z.mod_pos_bound v5 2 ltac:(lia)). change (2 ^ 1) with 2 in M5. lia. }
  assert (Htest : Z.testbit val c5 = true) by (rewrite E, Z.shiftl_spec, Z.sub_diag by lia; done).
  split; [| split; [done |]].
  - split; [lia |]. destruct (Z.lt_ge_cases c5 32) as [|Hge]; [done |]. rewrite (testbit_high 32) in Htest by (unfold in_u; lia). done.
  - intros j Hj. by rewrite E, Z.shiftl_spec_low by lia.
Qed.

(** ** Properties *)

(** [mulu64] is the exact 128-bit product of two unsigned 64-bit numbers. *)
Theorem mulu64_exact (a b : Z) :
  in_u 64 a -> in_u 64 b ->
  in_u128 (mulu64 a b) /\ value128 (mulu64 a b) = a * b.
Proof. apply mul64_spec. Qed.

Lemma mulu64_exact_witness :
  in_u128 (mulu64 (2 ^ 64 - 1) (2 ^ 64 - 1))
  /\ value128 (mulu64 (2 ^ 64 - 1) (2 ^ 64 - 1)) = (2 ^ 64 - 1) * (2 ^ 64 - 1).
Proof. apply mulu64_exact; unfold in_u; lia. Defined.

(** [muls64] is the product of two signed 64-bit numbers in two's
    complement on 128 bits, also when a factor is the least [int64_t], whose
    negation wraps around. *)
Theorem muls64_exact (a b : Z) :
  - 2 ^ 63 <= a < 2 ^ 63 -> - 2 ^ 63 <= b < 2 ^ 63 ->
  value128 (muls64 a b) = wrap 128 (a * b).
Proof.
  intros Ha Hb. unfold muls64.
  destruct (wrap_abs a Ha) as [-> Hua]. destruct (wrap_abs b Hb) as [-> Hub].
  destruct (mul64_spec _ _ Hua Hub) as [[Hl Hh] Hv].
  destruct (mul64 (Z.abs a) (Z.abs b)) as [low high]. unfold value128 in Hv. cbn [fst snd] in *.
  destruct (Z.ltb_spec a 0), (Z.ltb_spec b 0).
  - change (low + high * 2 ^ 64 = wrap 128 (a * b)). rewrite Hv. unfold wrap. rewrite Z.mod_small; nia.
  - change (value128 (neg128 low high) = wrap 128 (a * b)). rewrite neg128_spec, Hv by done.
    f_equal. nia.
  - change (value128 (neg128 low high) = wrap 128 (a * b)). rewrite neg128_spec, Hv by done.
    f_equal. nia.
  - change (low + high * 2 ^ 64 = wrap 128 (a * b)). rewrite Hv. unfold wrap.
    rewrite Z.mod_small; nia.
Qed.

Lemma muls64_exact_witness :
  value128 (muls64 (- 2 ^ 63) 3) = wrap 128 (- 2 ^ 63 * 3).
Proof. apply muls64_exact; lia. Defined.

(** [muldiv64] divides the full 96-bit product [a * b] by [c]; only the
    quotient is cut to 64 bits. *)
Theorem muldiv64_exact (a b c : Z) :
  in_u 64 a -> in_u 32 b -> 0 < c < 2 ^ 32 ->
  muldiv64 a b c = Some (wrap 64 (a * b / c)).
Proof. apply muldiv64_spec. Qed.

Lemma muldiv64_exact_witness :
  muldiv64 (2 ^ 63) 1193182 1000000000 = Some (wrap 64 (2 ^ 63 * 1193182 / 1000000000)).
Proof. apply muldiv64_exact; unfold in_u; lia. Defined.
