(* ===== verification/Irq.v ===== *)
(** * Interrupt lines (qemu/hw/irq.c, hw/irq.h)

    A line is a handler with a number, here a function on a machine state [S]
    (the opaque pointer is part of the handler).  [IrqController] is what a
    device on a line relies on: from an idle controller, raising the line makes
    an interrupt pending, and the acknowledge returns the line's vector.  The
    interrupt controllers of [I8259] are an instance, and the board of
    [IsaBoard] uses only the interface.

    Lemmas: allocated lines reach their handler, splitting and inverting do
    what they say, and a raised line is delivered. *)

From Stdlib Require Import ZArith Lia.
From stdpp Require Import base option numbers list.
From S2P Require Import Prelude.

Local Open Scope Z_scope.

Section Lines.
Context {S : Type}.

(** [qemu_irq_handler] with its opaque pointer applied *)
Definition irq_handler_t : Type := Z -> Z -> S -> S.

(** [struct IRQState]; a [qemu_irq] is an [option] of it, [None] for NULL. *)
Record IRQState := mkIRQ {
  handler : irq_handler_t;
  n : Z
}.

Definition qemu_set_irq (irq : option IRQState) (level : Z) (s : S) : S :=
  match irq with
  | None => s
  | Some irq => irq.(handler) irq.(n) level s
  end.

Definition qemu_irq_raise (irq : option IRQState) (s : S) : S := qemu_set_irq irq 1 s.
Definition qemu_irq_lower (irq : option IRQState) (s : S) : S := qemu_set_irq irq 0 s.
Definition qemu_irq_pulse (irq : option IRQState) (s : S) : S :=
  qemu_set_irq irq 0 (qemu_set_irq irq 1 s).

(** The loop [for (i = 0; i < n; i++)] *)
Fixpoint allocate_loop (h : irq_handler_t) (count : nat) (i : Z) : list IRQState :=
  match count with
  | O => []
  | Datatypes.S count => mkIRQ h i :: allocate_loop h count (i + 1)
  end.

Definition qemu_allocate_irqs (h : irq_handler_t) (count : nat) : list IRQState :=
  allocate_loop h count 0.

Definition qemu_notirq (irq : IRQState) : irq_handler_t := fun line level s =>
  irq.(handler) irq.(n) (c_bool (level =? 0)) s.

(** The inverted line, and the state after raising the original once *)
Definition qemu_irq_invert (irq : IRQState) (s : S) : option IRQState * S :=
  (head (qemu_allocate_irqs (qemu_notirq irq) 1), qemu_irq_raise (Some irq) s).

Definition qemu_splitirq (irq1 irq2 : IRQState) : irq_handler_t := fun line level s =>
  irq2.(handler) irq2.(n) level (irq1.(handler) irq1.(n) level s).

Definition qemu_irq_split (irq1 irq2 : IRQState) : option IRQState :=
  head (qemu_allocate_irqs (qemu_splitirq irq1 irq2) 1).

(** ** Lines reach their handlers *)

Lemma allocate_loop_lookup h count i k :
  (k < count)%nat -> allocate_loop h count i !! k = Some (mkIRQ h (i + Z.of_nat k)).
Proof.
  revert i k. induction count as [| count IH]; intros i k Hk; [lia |].
  destruct k as [| k]; cbn; [by rewrite Z.add_0_r |]. rewrite IH by lia. do 2 f_equal. lia.
Qed.

Lemma set_allocated h count k level s :
  0 <= k < Z.of_nat count ->
  qemu_set_irq (qemu_allocate_irqs h count !! Z.to_nat k) level s = h k level s.
Proof.
  intros Hk. unfold qemu_allocate_irqs. rewrite allocate_loop_lookup by lia. cbn.
  f_equal. lia.
Qed.

Lemma split_drives_both irq1 irq2 level s :
  qemu_set_irq (qemu_irq_split irq1 irq2) level s =
  qemu_set_irq (Some irq2) level (qemu_set_irq (Some irq1) level s).
Proof. done. Qed.

(** Two inverters in a row pass the two levels on. *)
Lemma invert_twice irq s s' level :
  level = 0 \/ level = 1 ->
  forall irq', (qemu_irq_invert irq s).1 = Some irq' ->
  qemu_set_irq (qemu_irq_invert irq' s').1 level s = qemu_set_irq (Some irq) level s.
Proof. intros [-> | ->] irq' [= <-]; done. Qed.
End Lines.

(** ** What a controller promises to the devices on its lines *)

Class IrqController (S : Type) := {
  (** drive line [n] to a level *)
  irq_handler : Z -> Z -> S -> S;
  (** the acknowledge of the processor: a vector and the new state *)
  irq_ack : S -> Z * S;
  (** the processor's line is raised *)
  irq_pending : S -> Prop;
  (** line [n] is enabled and low, and nothing else is going on *)
  irq_idle : S -> Z -> Prop;
  (** line [n] is low, and nothing depends on its level *)
  irq_low : S -> Z -> Prop;
  irq_vector : S -> Z -> Z;
  irq_raise_law : forall s i, irq_idle s i ->
    irq_pending (irq_handler i 1 s) /\ (irq_ack (irq_handler i 1 s)).1 = irq_vector s i;
  (** lowering a low line matters neither to an idle line nor to one just raised *)
  irq_lower_idle_law : forall s i j, irq_idle s i -> irq_low s j ->
    irq_idle (irq_handler j 0 s) i /\ irq_vector (irq_handler j 0 s) i = irq_vector s i;
  irq_lower_raised_law : forall s i j, irq_idle s i -> irq_low s j -> i <> j ->
    irq_pending (irq_handler j 0 (irq_handler i 1 s)) /\
    (irq_ack (irq_handler j 0 (irq_handler i 1 s))).1 = irq_vector s i
}.

(** A device that raises its line is heard. *)
Lemma raise_delivered {M} `{IrqController M} (count : nat) (k : Z) (s : M) :
  0 <= k < Z.of_nat count -> irq_idle s k ->
  let s' := qemu_irq_raise (qemu_allocate_irqs irq_handler count !! Z.to_nat k) s in
  irq_pending s' /\ (irq_ack s').1 = irq_vector s k.
Proof.
  intros Hk Hi. unfold qemu_irq_raise. rewrite set_allocated by done. by apply irq_raise_law.
Qed.
