(* ===== verification/I8259.v ===== *)
(** * The 8259A interrupt controllers (qemu/hw/i8259.c)

    The PC's two cascaded controllers: [PicState] is one controller, register
    by register, and [PicState2] the pair.  The C code passes a pointer to one
    controller and reaches the other through [pics_state]; here the pair is
    the state and [which] says which controller the pointer designates.
    [parent_irq] records the levels driven on the output line, latest first.
    A call of [hw_error], which aborts the emulator, is [None].

    Theorems: the priority search, the interrupt selection against its
    declarative specification, the acknowledge/EOI life cycle, the
    initialisation sequence, and the register invariant over every sequence
    of operations. *)

From Stdlib Require Import ZArith Lia.
From stdpp Require Import base list option numbers.
From S2P Require Import Prelude Irq.

Local Open Scope Z_scope.

(** ** State *)

(** The registers of one controller, each a [uint8_t]. *)
Record PicState := mkPicState {
  last_irr : Z;
  irr : Z;
  imr : Z;
  isr : Z;
  priority_add : Z;
  irq_base : Z;
  read_reg_select : Z;
  poll : Z;
  special_mask : Z;
  init_state : Z;
  auto_eoi : Z;
  rotate_on_auto_eoi : Z;
  special_fully_nested_mode : Z;
  init4 : Z;
  single_mode : Z;
  elcr : Z;
  elcr_mask : Z
}.

Definition set_last_irr (v : Z) (s : PicState) : PicState :=
  mkPicState v s.(irr) s.(imr) s.(isr) s.(priority_add) s.(irq_base) s.(read_reg_select)
    s.(poll) s.(special_mask) s.(init_state) s.(auto_eoi) s.(rotate_on_auto_eoi)
    s.(special_fully_nested_mode) s.(init4) s.(single_mode) s.(elcr) s.(elcr_mask).
Definition set_irr (v : Z) (s : PicState) : PicState :=
  mkPicState s.(last_irr) v s.(imr) s.(isr) s.(priority_add) s.(irq_base)
    s.(read_reg_select) s.(poll) s.(special_mask) s.(init_state) s.(auto_eoi)
    s.(rotate_on_auto_eoi) s.(special_fully_nested_mode) s.(init4) s.(single_mode)
    s.(elcr) s.(elcr_mask).
Definition set_imr (v : Z) (s : PicState) : PicState :=
  mkPicState s.(last_irr) s.(irr) v s.(isr) s.(priority_add) s.(irq_base)
    s.(read_reg_select) s.(poll) s.(special_mask) s.(init_state) s.(auto_eoi)
    s.(rotate_on_auto_eoi) s.(special_fully_nested_mode) s.(init4) s.(single_mode)
    s.(elcr) s.(elcr_mask).
Definition set_isr (v : Z) (s : PicState) : PicState :=
  mkPicState s.(last_irr) s.(irr) s.(imr) v s.(priority_add) s.(irq_base)
    s.(read_reg_select) s.(poll) s.(special_mask) s.(init_state) s.(auto_eoi)
    s.(rotate_on_auto_eoi) s.(special_fully_nested_mode) s.(init4) s.(single_mode)
    s.(elcr) s.(elcr_mask).
Definition set_priority_add (v : Z) (s : PicState) : PicState :=
  mkPicState s.(last_irr) s.(irr) s.(imr) s.(isr) v s.(irq_base) s.(read_reg_select)
    s.(poll) s.(special_mask) s.(init_state) s.(auto_eoi) s.(rotate_on_auto_eoi)
    s.(special_fully_nested_mode) s.(init4) s.(single_mode) s.(elcr) s.(elcr_mask).
Definition set_irq_base (v : Z) (s : PicState) : PicState :=
  mkPicState s.(last_irr) s.(irr) s.(imr) s.(isr) s.(priority_add) v s.(read_reg_select)
    s.(poll) s.(special_mask) s.(init_state) s.(auto_eoi) s.(rotate_on_auto_eoi)
    s.(special_fully_nested_mode) s.(init4) s.(single_mode) s.(elcr) s.(elcr_mask).
Definition set_read_reg_select (v : Z) (s : PicState) : PicState :=
  mkPicState s.(last_irr) s.(irr) s.(imr) s.(isr) s.(priority_add) s.(irq_base) v s.(poll)
    s.(special_mask) s.(init_state) s.(auto_eoi) s.(rotate_on_auto_eoi)
    s.(special_fully_nested_mode) s.(init4) s.(single_mode) s.(elcr) s.(elcr_mask).
Definition set_poll (v : Z) (s : PicState) : PicState :=
  mkPicState s.(last_irr) s.(irr) s.(imr) s.(isr) s.(priority_add) s.(irq_base)
    s.(read_reg_select) v s.(special_mask) s.(init_state) s.(auto_eoi)
    s.(rotate_on_auto_eoi) s.(special_fully_nested_mode) s.(init4) s.(single_mode)
    s.(elcr) s.(elcr_mask).
Definition set_special_mask (v : Z) (s : PicState) : PicState :=
  mkPicState s.(last_irr) s.(irr) s.(imr) s.(isr) s.(priority_add) s.(irq_base)
    s.(read_reg_select) s.(poll) v s.(init_state) s.(auto_eoi) s.(rotate_on_auto_eoi)
    s.(special_fully_nested_mode) s.(init4) s.(single_mode) s.(elcr) s.(elcr_mask).
Definition set_init_state (v : Z) (s : PicState) : PicState :=
  mkPicState s.(last_irr) s.(irr) s.(imr) s.(isr) s.(priority_add) s.(irq_base)
    s.(read_reg_select) s.(poll) s.(special_mask) v s.(auto_eoi) s.(rotate_on_auto_eoi)
    s.(special_fully_nested_mode) s.(init4) s.(single_mode) s.(elcr) s.(elcr_mask).
Definition set_auto_eoi (v : Z) (s : PicState) : PicState :=
  mkPicState s.(last_irr) s.(irr) s.(imr) s.(isr) s.(priority_add) s.(irq_base)
    s.(read_reg_select) s.(poll) s.(special_mask) s.(init_state) v s.(rotate_on_auto_eoi)
    s.(special_fully_nested_mode) s.(init4) s.(single_mode) s.(elcr) s.(elcr_mask).
Definition set_rotate_on_auto_eoi (v : Z) (s : PicState) : PicState :=
  mkPicState s.(last_irr) s.(irr) s.(imr) s.(isr) s.(priority_add) s.(irq_base)
    s.(read_reg_select) s.(poll) s.(special_mask) s.(init_state) s.(auto_eoi) v
    s.(special_fully_nested_mode) s.(init4) s.(single_mode) s.(elcr) s.(elcr_mask).
Definition set_special_fully_nested_mode (v : Z) (s : PicState) : PicState :=
  mkPicState s.(last_irr) s.(irr) s.(imr) s.(isr) s.(priority_add) s.(irq_base)
    s.(read_reg_select) s.(poll) s.(special_mask) s.(init_state) s.(auto_eoi)
    s.(rotate_on_auto_eoi) v s.(init4) s.(single_mode) s.(elcr) s.(elcr_mask).
Definition set_init4 (v : Z) (s : PicState) : PicState :=
  mkPicState s.(last_irr) s.(irr) s.(imr) s.(isr) s.(priority_add) s.(irq_base)
    s.(read_reg_select) s.(poll) s.(special_mask) s.(init_state) s.(auto_eoi)
    s.(rotate_on_auto_eoi) s.(special_fully_nested_mode) v s.(single_mode) s.(elcr)
    s.(elcr_mask).
Definition set_single_mode (v : Z) (s : PicState) : PicState :=
  mkPicState s.(last_irr) s.(irr) s.(imr) s.(isr) s.(priority_add) s.(irq_base)
    s.(read_reg_select) s.(poll) s.(special_mask) s.(init_state) s.(auto_eoi)
    s.(rotate_on_auto_eoi) s.(special_fully_nested_mode) s.(init4) v s.(elcr)
    s.(elcr_mask).
Definition set_elcr (v : Z) (s : PicState) : PicState :=
  mkPicState s.(last_irr) s.(irr) s.(imr) s.(isr) s.(priority_add) s.(irq_base)
    s.(read_reg_select) s.(poll) s.(special_mask) s.(init_state) s.(auto_eoi)
    s.(rotate_on_auto_eoi) s.(special_fully_nested_mode) s.(init4) s.(single_mode) v
    s.(elcr_mask).
Definition set_elcr_mask (v : Z) (s : PicState) : PicState :=
  mkPicState s.(last_irr) s.(irr) s.(imr) s.(isr) s.(priority_add) s.(irq_base)
    s.(read_reg_select) s.(poll) s.(special_mask) s.(init_state) s.(auto_eoi)
    s.(rotate_on_auto_eoi) s.(special_fully_nested_mode) s.(init4) s.(single_mode)
    s.(elcr) v.

Inductive which := Master | Slave.

#[global] Instance which_eq_dec : EqDecision which.
Proof. solve_decision. Defined.

Record PicState2 := mkPicState2 {
  pic_master : PicState;
  pic_slave : PicState;
  parent_irq : list Z
}.

Definition pics (w : which) (s : PicState2) : PicState :=
  match w with Master => s.(pic_master) | Slave => s.(pic_slave) end.

Definition set_pics (w : which) (p : PicState) (s : PicState2) : PicState2 :=
  match w with
  | Master => mkPicState2 p s.(pic_slave) s.(parent_irq)
  | Slave => mkPicState2 s.(pic_master) p s.(parent_irq)
  end.

(** [qemu_irq_raise] and [qemu_irq_lower] on the parent line *)
Definition parent_set (level : Z) (s : PicState2) : PicState2 :=
  mkPicState2 s.(pic_master) s.(pic_slave) (level :: s.(parent_irq)).

(** [1 << irq] and [x & ~(1 << irq)] *)
Definition bit (i : Z) : Z := Z.shiftl 1 i.
Definition clear (x i : Z) : Z := Z.land x (Z.lnot (bit i)).

(** ** Operations *)

Definition pic_set_irq1 (irq level : Z) (s : PicState) : PicState :=
  let mask := bit irq in
  if c_true (Z.land s.(elcr) mask) then
    (* level triggered *)
    if c_true level
    then set_last_irr (Z.lor s.(last_irr) mask) (set_irr (Z.lor s.(irr) mask) s)
    else set_last_irr (clear s.(last_irr) irq) (set_irr (clear s.(irr) irq) s)
  else
    (* edge triggered *)
    if c_true level then
      let s := if Z.land s.(last_irr) mask =? 0
               then set_irr (Z.lor s.(irr) mask) s else s in
      set_last_irr (Z.lor s.(last_irr) mask) s
    else set_last_irr (clear s.(last_irr) irq) s.

(** The [while] loop of [get_priority]; a non-zero byte mask has one of its
    eight rotated bits set, so eight tests are enough. *)
Fixpoint get_priority_loop (fuel : nat) (padd mask priority : Z) : Z :=
  match fuel with
  | O => priority
  | S fuel =>
      if Z.land mask (bit (Z.land (priority + padd) 7)) =? 0
      then get_priority_loop fuel padd mask (priority + 1) else priority
  end.

Definition get_priority (s : PicState) (mask : Z) : Z :=
  if mask =? 0 then 8 else get_priority_loop 8 s.(priority_add) mask 0.

Definition pic_get_irq (w : which) (s : PicState) : Z :=
  let mask := Z.land s.(irr) (Z.lnot s.(imr)) in
  let priority := get_priority s mask in
  if priority =? 8 then -1
  else
    let mask := s.(isr) in
    let mask := if c_true s.(special_mask) then Z.land mask (Z.lnot s.(imr)) else mask in
    let mask := if c_true s.(special_fully_nested_mode) && bool_decide (w = Master)
                then clear mask 2 else mask in
    let cur_priority := get_priority s mask in
    if priority <? cur_priority then Z.land (priority + s.(priority_add)) 7 else -1.

Definition pic_update_irq (s : PicState2) : PicState2 :=
  let irq2 := pic_get_irq Slave s.(pic_slave) in
  let s := if 0 <=? irq2
           then set_pics Master (pic_set_irq1 2 0 (pic_set_irq1 2 1 s.(pic_master))) s
           else s in
  let irq := pic_get_irq Master s.(pic_master) in
  if 0 <=? irq then parent_set 1 s else s.

Definition i8259_set_irq (irq level : Z) (s : PicState2) : PicState2 :=
  let w := if Z.shiftr irq 3 =? 0 then Master else Slave in
  pic_update_irq (set_pics w (pic_set_irq1 (Z.land irq 7) level (pics w s)) s).

Definition pic_intack (irq : Z) (s : PicState) : PicState :=
  let s :=
    if c_true s.(auto_eoi) then
      if c_true s.(rotate_on_auto_eoi) then set_priority_add (Z.land (irq + 1) 7) s else s
    else set_isr (Z.lor s.(isr) (bit irq)) s in
  if c_true (Z.land s.(elcr) (bit irq)) then s else set_irr (clear s.(irr) irq) s.

Definition pic_read_irq (s : PicState2) : Z * PicState2 :=
  let irq := pic_get_irq Master s.(pic_master) in
  let '(intno, s) :=
    if 0 <=? irq then
      let s := set_pics Master (pic_intack irq s.(pic_master)) s in
      if irq =? 2 then
        let irq2 := pic_get_irq Slave s.(pic_slave) in
        let '(irq2, s) :=
          if 0 <=? irq2 then (irq2, set_pics Slave (pic_intack irq2 s.(pic_slave)) s)
          else (7, s) in
        (s.(pic_slave).(irq_base) + irq2, s)
      else (s.(pic_master).(irq_base) + irq, s)
    else (s.(pic_master).(irq_base) + 7, s) in
  (intno, pic_update_irq s).

Definition pic_reset (s : PicState) : PicState :=
  mkPicState 0 0 0 0 0 0 0 0 0 0 0 0 0 0 0 s.(elcr) s.(elcr_mask).

(** [update w f s]: change the controller the pointer designates *)
Definition update (w : which) (f : PicState -> PicState) (s : PicState2) : PicState2 :=
  set_pics w (f (pics w s)) s.

(** OCW2: the commands selected by [val >> 5] *)
Definition pic_ocw2 (w : which) (val : Z) (s : PicState2) : PicState2 :=
  let cmd := Z.shiftr val 5 in
  if (cmd =? 0) || (cmd =? 4) then update w (set_rotate_on_auto_eoi (Z.shiftr cmd 2)) s
  else if (cmd =? 1) || (cmd =? 5) then
    let p := pics w s in
    let priority := get_priority p p.(isr) in
    if priority =? 8 then s
    else
      let irq := Z.land (priority + p.(priority_add)) 7 in
      let s := update w (set_isr (clear p.(isr) irq)) s in
      let s := if cmd =? 5 then update w (set_priority_add (Z.land (irq + 1) 7)) s else s in
      pic_update_irq s
  else if cmd =? 3 then
    let irq := Z.land val 7 in
    pic_update_irq (update w (fun p => set_isr (clear p.(isr) irq) p) s)
  else if cmd =? 6 then
    pic_update_irq (update w (set_priority_add (Z.land (val + 1) 7)) s)
  else if cmd =? 7 then
    let irq := Z.land val 7 in
    let s := update w (fun p => set_isr (clear p.(isr) irq) p) s in
    pic_update_irq (update w (set_priority_add (Z.land (irq + 1) 7)) s)
  else s.

(** OCW3: poll, register select and special mask *)
Definition pic_ocw3 (val : Z) (p : PicState) : PicState :=
  let p := if c_true (Z.land val 0x04) then set_poll 1 p else p in
  let p := if c_true (Z.land val 0x02) then set_read_reg_select (Z.land val 1) p else p in
  if c_true (Z.land val 0x40) then set_special_mask (Z.land (Z.shiftr val 5) 1) p else p.

(** ICW1: start of an initialisation *)
Definition pic_icw1 (w : which) (val : Z) (s : PicState2) : option PicState2 :=
  let s := update w pic_reset s in
  let s := parent_set 0 s in
  let s := update w (fun p =>
    set_single_mode (Z.land val 2) (set_init4 (Z.land val 1) (set_init_state 1 p))) s in
  if c_true (Z.land val 0x08) then None else Some s.

(** The [switch (s->init_state)] of a write to the odd port *)
Definition pic_write_data (w : which) (val : Z) (s : PicState2) : PicState2 :=
  let p := pics w s in
  if p.(init_state) =? 0 then pic_update_irq (update w (set_imr (wrap 8 val)) s)
  else if p.(init_state) =? 1 then
    update w (fun p =>
      set_init_state (if c_true p.(single_mode) then (if c_true p.(init4) then 3 else 0) else 2)
        (set_irq_base (Z.land val 0xf8) p)) s
  else if p.(init_state) =? 2 then
    update w (fun p => set_init_state (if c_true p.(init4) then 3 else 0) p) s
  else if p.(init_state) =? 3 then
    update w (fun p =>
      set_init_state 0
        (set_auto_eoi (Z.land (Z.shiftr val 1) 1)
           (set_special_fully_nested_mode (Z.land (Z.shiftr val 4) 1) p))) s
  else s.

Definition pic_ioport_write (w : which) (addr val : Z) (s : PicState2) : option PicState2 :=
  if Z.land addr 1 =? 0 then
    if c_true (Z.land val 0x10) then pic_icw1 w val s
    else if c_true (Z.land val 0x08) then Some (update w (pic_ocw3 val) s)
    else Some (pic_ocw2 w val s)
  else Some (pic_write_data w val s).

Definition pic_poll_read (w : which) (addr1 : Z) (s : PicState2) : Z * PicState2 :=
  let ret := pic_get_irq w (pics w s) in
  if 0 <=? ret then
    let s := if c_true (Z.shiftr addr1 7)
             then update Master (fun p =>
                    set_irr (clear p.(irr) 2) (set_isr (clear p.(isr) 2) p)) s
             else s in
    let s := update w (fun p =>
               set_isr (clear p.(isr) ret) (set_irr (clear p.(irr) ret) p)) s in
    (ret, if c_true (Z.shiftr addr1 7) || negb (ret =? 2) then pic_update_irq s else s)
  else (0x07, pic_update_irq s).

Definition pic_ioport_read (w : which) (addr1 : Z) (s : PicState2) : Z * PicState2 :=
  let addr := Z.land addr1 1 in
  if c_true (pics w s).(poll) then
    let '(ret, s) := pic_poll_read w addr1 s in
    (ret, update w (set_poll 0) s)
  else if addr =? 0 then
    (if c_true (pics w s).(read_reg_select) then (pics w s).(isr) else (pics w s).(irr), s)
  else ((pics w s).(imr), s).

Definition pic_intack_read (s : PicState2) : Z * PicState2 :=
  let '(ret, s) := pic_poll_read Master 0x00 s in
  let '(ret, s) :=
    if ret =? 2 then
      let '(ret2, s) := pic_poll_read Slave 0x80 s in (ret2 + 8, s)
    else (ret, s) in
  (ret, update Master (set_read_reg_select 1) s).

Definition elcr_ioport_write (w : which) (val : Z) (s : PicState2) : PicState2 :=
  update w (fun p => set_elcr (wrap 8 (Z.land val p.(elcr_mask))) p) s.

Definition elcr_ioport_read (w : which) (s : PicState2) : Z := (pics w s).(elcr).

(** The state [i8259_init] leaves: zeroed memory, then the two masks. *)
Definition i8259_init : PicState2 :=
  mkPicState2 (mkPicState 0 0 0 0 0 0 0 0 0 0 0 0 0 0 0 0 0xf8)
              (mkPicState 0 0 0 0 0 0 0 0 0 0 0 0 0 0 0 0 0xde) [].

(** ** Specification

    [rank s i] is the priority of line [i] under the current rotation, 0 the
    highest.  [wanted] is a requested, unmasked line; [blocking] a line in
    service that counts for the priority comparison. *)

Definition rank (s : PicState) (i : Z) : Z := (i - s.(priority_add)) mod 8.

Definition line (i : Z) : Prop := 0 <= i < 8.

Definition wanted (s : PicState) (i : Z) : Prop :=
  line i /\ Z.testbit s.(irr) i = true /\ Z.testbit s.(imr) i = false.

Definition blocking (w : which) (s : PicState) (i : Z) : Prop :=
  line i /\ Z.testbit s.(isr) i = true
  /\ (s.(special_mask) <> 0 -> Z.testbit s.(imr) i = false)
  /\ (s.(special_fully_nested_mode) <> 0 -> w = Master -> i <> 2).

(** Line [i] is the one the controller must present. *)
Definition selected (w : which) (s : PicState) (i : Z) : Prop :=
  wanted s i
  /\ (forall j, wanted s j -> rank s i <= rank s j)
  /\ (forall j, blocking w s j -> rank s i < rank s j).

Record pic_wf (p : PicState) : Prop := {
  wf_last_irr : in_u 8 p.(last_irr);
  wf_irr : in_u 8 p.(irr);
  wf_imr : in_u 8 p.(imr);
  wf_isr : in_u 8 p.(isr);
  wf_priority_add : in_u 3 p.(priority_add);
  wf_irq_base : in_u 8 p.(irq_base);
  wf_read_reg_select : in_u 1 p.(read_reg_select);
  wf_poll : in_u 1 p.(poll);
  wf_special_mask : in_u 1 p.(special_mask);
  wf_init_state : in_u 2 p.(init_state);
  wf_auto_eoi : in_u 1 p.(auto_eoi);
  wf_rotate : in_u 1 p.(rotate_on_auto_eoi);
  wf_sfnm : in_u 1 p.(special_fully_nested_mode);
  wf_init4 : in_u 1 p.(init4);
  wf_single_mode : in_u 2 p.(single_mode);
  wf_elcr : in_u 8 p.(elcr);
  wf_elcr_mask : in_u 8 p.(elcr_mask);
  wf_elcr_sub : forall i, Z.testbit p.(elcr) i = true -> Z.testbit p.(elcr_mask) i = true
}.

(** The pair: each controller is well formed and its mask of lines that may
    be level triggered is the one set at initialisation. *)
Record pics_wf (s : PicState2) : Prop := {
  wf_master : pic_wf s.(pic_master);
  wf_slave : pic_wf s.(pic_slave);
  wf_master_mask : s.(pic_master).(elcr_mask) = 0xf8;
  wf_slave_mask : s.(pic_slave).(elcr_mask) = 0xde
}.

(** ** Operations as a transition system *)

Inductive pic_step : PicState2 -> PicState2 -> Prop :=
| step_set_irq s irq level :
    0 <= irq < 16 -> pic_step s (i8259_set_irq irq level s)
| step_read_irq s n s' : pic_read_irq s = (n, s') -> pic_step s s'
| step_write s w addr val s' :
    in_u 8 val -> pic_ioport_write w addr val s = Some s' -> pic_step s s'
| step_read s w addr n s' : pic_ioport_read w addr s = (n, s') -> pic_step s s'
| step_intack_read s n s' : pic_intack_read s = (n, s') -> pic_step s s'
| step_elcr_write s w val : in_u 8 val -> pic_step s (elcr_ioport_write w val s)
| step_reset s w : pic_step s (update w pic_reset s).

Inductive pic_reachable : PicState2 -> Prop :=
| reach_init : pic_reachable i8259_init
| reach_step s s' : pic_reachable s -> pic_step s s' -> pic_reachable s'.

(** ** The priority search *)

Lemma clear_testbit (x i j : Z) :
  0 <= i -> 0 <= j -> Z.testbit (clear x i) j = Z.testbit x j && negb (bool_decide (i = j)).
Proof. intros Hi Hj. unfold clear, bit. by rewrite Z.land_spec, Z.lnot_spec, testbit_bit. Qed.

Lemma in_u_clear (w x i : Z) : 0 <= w -> in_u w x -> in_u w (clear x i).
Proof. intros. by apply in_u_land_l. Qed.

Lemma in_u_bit_line (i : Z) : line i -> in_u 8 (bit i).
Proof. intros. unfold bit. by apply in_u_bit. Qed.

#[export] Hint Resolve in_u_clear in_u_bit_line : width.

Lemma get_priority_loop_spec (fuel : nat) (padd mask pr : Z) :
  let r := get_priority_loop fuel padd mask pr in
  pr <= r <= pr + Z.of_nat fuel
  /\ (forall q, pr <= q < r -> Z.testbit mask ((q + padd) mod 8) = false)
  /\ (r < pr + Z.of_nat fuel -> Z.testbit mask ((r + padd) mod 8) = true).
Proof.
  revert pr. induction fuel as [| fuel IH]; intros pr.
  - cbn. split; [lia | split; intros; lia].
  - cbn [get_priority_loop]. rewrite land_7. unfold bit.
    pose proof (Z.mod_pos_bound (pr + padd) 8 ltac:(lia)).
    rewrite land_bit_eqb by lia.
    destruct (Z.testbit mask ((pr + padd) mod 8)) eqn:E; cbn [negb].
    + cbn zeta. split; [lia | split]; [intros; lia | done].
    + destruct (IH (pr + 1)) as (Hr & Hlow & Hhit). cbn zeta. split; [lia | split].
      * intros q Hq. destruct (decide (q = pr)) as [-> |]; [done |]. apply Hlow. lia.
      * intros Hlt. apply Hhit. lia.
Qed.

(** The rotation turns a priority into a line and back. *)
Lemma rank_line (s : PicState) (q : Z) :
  0 <= q < 8 -> rank s ((q + s.(priority_add)) mod 8) = q.
Proof.
  intros Hq. unfold rank. rewrite Zminus_mod_idemp_l.
  replace (q + s.(priority_add) - s.(priority_add)) with q by lia. by apply Z.mod_small.
Qed.

Lemma line_rank (s : PicState) (i : Z) :
  line i -> (rank s i + s.(priority_add)) mod 8 = i.
Proof.
  intros Hi. unfold rank. rewrite Z.add_mod_idemp_l by lia.
  replace (i - s.(priority_add) + s.(priority_add)) with i by lia. by apply Z.mod_small.
Qed.

Lemma rank_range (s : PicState) (i : Z) : 0 <= rank s i < 8.
Proof. apply Z.mod_pos_bound. lia. Qed.

(** [get_priority] is the least rank of a line of the mask, 8 for none. *)
Lemma get_priority_spec (s : PicState) (mask : Z) :
  in_u 8 mask ->
  let r := get_priority s mask in
  0 <= r <= 8
  /\ (forall i, line i -> Z.testbit mask i = true -> r <= rank s i)
  /\ (r < 8 -> exists i, line i /\ Z.testbit mask i = true /\ rank s i = r
                        /\ Z.land (r + s.(priority_add)) 7 = i).
Proof.
  intros Hm. cbn zeta. unfold get_priority. destruct (Z.eqb_spec mask 0) as [-> | Hne].
  - split; [lia | split; [| lia]]. intros i Hi Hb. by rewrite Z.bits_0 in Hb.
  - destruct (get_priority_loop_spec 8 s.(priority_add) mask 0) as (Hr & Hlow & Hhit).
    set (r := get_priority_loop _ _ _ _) in *. change (0 + Z.of_nat 8) with 8 in *.
    split; [done | split].
    + intros i Hi Hb. destruct (Z.leb_spec r (rank s i)); [done |].
      pose proof (rank_range s i). specialize (Hlow (rank s i) ltac:(lia)).
      rewrite line_rank in Hlow by done. congruence.
    + intros Hlt. exists ((r + s.(priority_add)) mod 8). split_and!.
      * apply Z.mod_pos_bound. lia.
      * by apply Hhit.
      * apply rank_line. lia.
      * apply land_7.
Qed.

Lemma get_priority_8 (s : PicState) (mask : Z) :
  in_u 8 mask -> get_priority s mask = 8 <-> mask = 0.
Proof.
  intros Hm. split; [| intros ->; done]. intros H8.
  destruct (decide (mask = 0)) as [| Hne]; [done |].
  destruct (exists_bit 8 mask ltac:(done) Hm Hne) as (i & Hi & Hb).
  destruct (get_priority_spec s mask Hm) as (_ & Hle & _).
  specialize (Hle i Hi Hb). pose proof (rank_range s i). lia.
Qed.

(** ** Interrupt selection *)

Definition request_mask (s : PicState) : Z := Z.land s.(irr) (Z.lnot s.(imr)).

Definition service_mask (w : which) (s : PicState) : Z :=
  let mask := if c_true s.(special_mask) then Z.land s.(isr) (Z.lnot s.(imr)) else s.(isr) in
  if c_true s.(special_fully_nested_mode) && bool_decide (w = Master) then clear mask 2 else mask.

Lemma request_mask_wanted (s : PicState) (i : Z) :
  line i -> Z.testbit (request_mask s) i = true <-> wanted s i.
Proof.
  intros Hi. unfold request_mask, wanted, line in *.
  rewrite Z.land_spec, Z.lnot_spec by lia. rewrite andb_true_iff, negb_true_iff. tauto.
Qed.

Lemma service_mask_blocking (w : which) (s : PicState) (i : Z) :
  line i -> Z.testbit (service_mask w s) i = true <-> blocking w s i.
Proof.
  intros Hi. unfold service_mask, blocking. set (m := if c_true s.(special_mask) then _ else _).
  assert (Hm : Z.testbit m i = true <-> Z.testbit s.(isr) i = true
                 /\ (s.(special_mask) <> 0 -> Z.testbit s.(imr) i = false)).
  { unfold m. destruct (c_true s.(special_mask)) eqn:E.
    - apply c_true_nonzero in E. rewrite Z.land_spec, Z.lnot_spec by (unfold line in Hi; lia).
      rewrite andb_true_iff, negb_true_iff. tauto.
    - assert (s.(special_mask) = 0) as ->
        by (unfold c_true in E; apply negb_false_iff, Z.eqb_eq in E; done). tauto. }
  destruct (c_true s.(special_fully_nested_mode)) eqn:E; cbn [andb].
  - apply c_true_nonzero in E. case_bool_decide as Hw.
    + rewrite clear_testbit, andb_true_iff, negb_true_iff, bool_decide_eq_false, Hm
        by (unfold line in Hi; lia).
      split; [intros ((? & ?) & Hne) | intros (_ & ? & ? & Hne)]; split_and!; auto.
      intros <-. by apply Hne.
    + rewrite Hm. split; [intros (? & ?) | intros (_ & ? & ? & _)]; split_and!; done.
  - assert (s.(special_fully_nested_mode) = 0)
      by (unfold c_true in E; apply negb_false_iff, Z.eqb_eq in E; done).
    rewrite Hm. split; [intros (? & ?) | intros (_ & ? & ? & _)]; split_and!; done.
Qed.

Lemma in_u_request_mask (s : PicState) : pic_wf s -> in_u 8 (request_mask s).
Proof. intros []. unfold request_mask. width. Qed.

Lemma in_u_service_mask (w : which) (s : PicState) : pic_wf s -> in_u 8 (service_mask w s).
Proof. intros []. unfold service_mask. repeat case_match; width. Qed.

Lemma pic_get_irq_eq (w : which) (s : PicState) :
  pic_get_irq w s =
    if get_priority s (request_mask s) =? 8 then -1
    else if get_priority s (request_mask s) <? get_priority s (service_mask w s)
    then Z.land (get_priority s (request_mask s) + s.(priority_add)) 7 else -1.
Proof. done. Qed.

(** The selection meets its specification, in both directions. *)
Lemma pic_get_irq_selected (w : which) (s : PicState) :
  pic_wf s ->
  (pic_get_irq w s = -1 /\ forall i, ~ selected w s i)
  \/ (line (pic_get_irq w s) /\ selected w s (pic_get_irq w s)).
Proof.
  intros Hwf. rewrite pic_get_irq_eq.
  pose proof (get_priority_spec s _ (in_u_request_mask s Hwf)) as (Hr & Hrmin & Hrex).
  pose proof (get_priority_spec s _ (in_u_service_mask w s Hwf)) as (Hc & Hcmin & Hcex).
  set (r := get_priority s (request_mask s)) in *. set (c := get_priority s (service_mask w s)) in *.
  destruct (Z.eqb_spec r 8) as [H8 | H8].
  { left. split; [done |]. intros i ((Hi & Hw) & _).
    specialize (Hrmin i Hi). rewrite request_mask_wanted in Hrmin by done.
    specialize (Hrmin (conj Hi Hw)). pose proof (rank_range s i). lia. }
  destruct (Hrex ltac:(lia)) as (i & Hi & Hib & Hrank & Hland).
  destruct (Z.ltb_spec r c) as [Hlt | Hge]; [right; rewrite Hland | left].
  - split; [done |]. split; [by apply request_mask_wanted | split].
    + intros j Hj. rewrite Hrank. apply Hrmin; [apply Hj |].
      apply request_mask_wanted; [apply Hj | done].
    + intros j Hj. rewrite Hrank. pose proof (Hcmin j (proj1 Hj)) as Hcj.
      rewrite service_mask_blocking in Hcj by apply Hj. specialize (Hcj Hj). lia.
  - split; [done |]. intros j (Hwj & Hmin & Hblk).
    destruct (Hcex ltac:(lia)) as (k & Hk & Hkb & Hkrank & _).
    rewrite service_mask_blocking in Hkb by done. specialize (Hblk k Hkb).
    specialize (Hrmin j (proj1 Hwj)). rewrite request_mask_wanted in Hrmin by apply Hwj.
    specialize (Hrmin Hwj). lia.
Qed.

Lemma selected_unique (w : which) (s : PicState) (i j : Z) :
  selected w s i -> selected w s j -> i = j.
Proof.
  intros (Hwi & Hmi & _) (Hwj & Hmj & _).
  assert (Heq : rank s i = rank s j) by (specialize (Hmi j Hwj); specialize (Hmj i Hwi); lia).
  rewrite <- (line_rank s i), <- (line_rank s j) by (apply Hwi || apply Hwj). by rewrite Heq.
Qed.

Lemma pic_get_irq_some (w : which) (s : PicState) (i : Z) :
  pic_wf s -> selected w s i -> pic_get_irq w s = i.
Proof.
  intros Hwf Hsel. destruct (pic_get_irq_selected w s Hwf) as [[_ Hno] | [_ Hsel']].
  - by destruct (Hno i).
  - by eapply selected_unique.
Qed.

Lemma pic_get_irq_range (w : which) (s : PicState) :
  pic_wf s -> pic_get_irq w s = -1 \/ line (pic_get_irq w s).
Proof. intros Hwf. destruct (pic_get_irq_selected w s Hwf) as [[? _] | [? _]]; auto. Qed.

(** ** The register invariant *)

Lemma pic_set_irq1_wf (irq level : Z) (p : PicState) :
  line irq -> pic_wf p -> pic_wf (pic_set_irq1 irq level p).
Proof.
  intros Hi []. unfold pic_set_irq1. repeat case_match; constructor; cbn; width.
Qed.

Lemma pic_intack_wf (irq : Z) (p : PicState) :
  line irq -> pic_wf p -> pic_wf (pic_intack irq p).
Proof. intros Hi []. unfold pic_intack. repeat case_match; constructor; cbn; width. Qed.

Lemma pic_reset_wf (p : PicState) : pic_wf p -> pic_wf (pic_reset p).
Proof. intros []. constructor; cbn; width. Qed.

Lemma pic_ocw3_wf (val : Z) (p : PicState) : pic_wf p -> pic_wf (pic_ocw3 val p).
Proof. intros []. unfold pic_ocw3. repeat case_match; constructor; cbn; width. Qed.

(** [elcr_mask] is written by nothing but [i8259_init]. *)
Definition keeps_mask (f : PicState -> PicState) : Prop :=
  forall p, (f p).(elcr_mask) = p.(elcr_mask).

Lemma update_wf (w : which) (f : PicState -> PicState) (s : PicState2) :
  (forall p, pic_wf p -> pic_wf (f p)) -> keeps_mask f -> pics_wf s -> pics_wf (update w f s).
Proof.
  intros Hf Hk []. destruct w; constructor; cbn; rewrite ?Hk; auto.
Qed.

Lemma keeps_set_irq1 (irq level : Z) : keeps_mask (pic_set_irq1 irq level).
Proof. intros p. unfold pic_set_irq1. by repeat case_match. Qed.

Lemma keeps_intack (irq : Z) : keeps_mask (pic_intack irq).
Proof. intros p. unfold pic_intack. by repeat case_match. Qed.

Lemma keeps_ocw3 (val : Z) : keeps_mask (pic_ocw3 val).
Proof. intros p. unfold pic_ocw3. by repeat case_match. Qed.

Lemma parent_set_wf (level : Z) (s : PicState2) : pics_wf s -> pics_wf (parent_set level s).
Proof. intros []. by constructor. Qed.

Lemma pics_get_wf (w : which) (s : PicState2) : pics_wf s -> pic_wf (pics w s).
Proof. intros []. by destruct w. Qed.

Create HintDb pic.
#[local] Hint Resolve pic_set_irq1_wf pic_intack_wf pic_reset_wf pic_ocw3_wf
  keeps_set_irq1 keeps_intack keeps_ocw3 parent_set_wf : pic.

Lemma pic_update_irq_wf (s : PicState2) : pics_wf s -> pics_wf (pic_update_irq s).
Proof.
  intros Hs. unfold pic_update_irq.
  set (s1 := if 0 <=? _ then _ else s).
  assert (pics_wf s1).
  { unfold s1. destruct (0 <=? _); [| done].
    apply (update_wf Master (fun p => pic_set_irq1 2 0 (pic_set_irq1 2 1 p))); [| | done].
    - intros p Hp. apply pic_set_irq1_wf; [done |]. by apply pic_set_irq1_wf.
    - intros p. by rewrite !keeps_set_irq1. }
  clearbody s1. destruct (0 <=? _); auto with pic.
Qed.

(** An update by field setters whose new values fit keeps the invariant. *)
Ltac field_update :=
  apply update_wf; [intros ? []; constructor; cbn; width | by intros ? | done].

Lemma pic_ocw2_wf (w : which) (val : Z) (s : PicState2) :
  in_u 8 val -> pics_wf s -> pics_wf (pic_ocw2 w val s).
Proof.
  intros Hv Hs. pose proof (pics_get_wf w s Hs) as Hp. unfold pic_ocw2.
  set (cmd := Z.shiftr val 5).
  destruct ((cmd =? 0) || (cmd =? 4)) eqn:E04.
  { apply update_wf; [| by intros ? | done]. intros p []. constructor; cbn; try width.
    apply orb_true_iff in E04 as [->%Z.eqb_eq | ->%Z.eqb_eq]; width. }
  destruct ((cmd =? 1) || (cmd =? 5)).
  { case_match; [done |]. apply pic_update_irq_wf.
    set (irq := Z.land (get_priority _ _ + _) 7).
    assert (H1 : pics_wf (update w (set_isr (clear (pics w s).(isr) irq)) s)).
    { apply update_wf; [| by intros ? | done].
      intros q []; constructor; cbn; try width. destruct Hp. width. }
    destruct (cmd =? 5); [| done]. field_update. }
  destruct (cmd =? 3); [apply pic_update_irq_wf; field_update |].
  destruct (cmd =? 6); [apply pic_update_irq_wf; field_update |].
  destruct (cmd =? 7); [| done]. apply pic_update_irq_wf.
  assert (H1 : pics_wf (update w (fun p => set_isr (clear p.(isr) (Z.land val 7)) p) s))
    by field_update.
  field_update.
Qed.

Lemma pic_write_data_wf (w : which) (val : Z) (s : PicState2) :
  in_u 8 val -> pics_wf s -> pics_wf (pic_write_data w val s).
Proof.
  intros Hv Hs. unfold pic_write_data.
  destruct (_ =? 0); [apply pic_update_irq_wf; field_update |].
  destruct (_ =? 1).
  { apply update_wf; [| by intros ? | done]. intros p []. constructor; cbn; repeat case_match; width. }
  destruct (_ =? 2).
  { apply update_wf; [| by intros ? | done]. intros p []. constructor; cbn; repeat case_match; width. }
  destruct (_ =? 3); [field_update | done].
Qed.

Lemma pic_ioport_write_wf (w : which) (addr val : Z) (s s' : PicState2) :
  in_u 8 val -> pic_ioport_write w addr val s = Some s' -> pics_wf s -> pics_wf s'.
Proof.
  intros Hv H Hs. unfold pic_ioport_write in H.
  destruct (_ =? 0); [| simplify_eq; by apply pic_write_data_wf].
  destruct (c_true (Z.land val 0x10)).
  - unfold pic_icw1 in H. destruct (c_true _); [done |]. simplify_eq.
    apply update_wf; [intros ? []; constructor; cbn; width | by intros ? |].
    apply parent_set_wf, update_wf; auto with pic. by intros ?.
  - destruct (c_true _); simplify_eq; [| by apply pic_ocw2_wf].
    apply update_wf; auto with pic.
Qed.

Lemma pic_poll_read_wf (w : which) (addr1 : Z) (s : PicState2) :
  pics_wf s -> pics_wf (pic_poll_read w addr1 s).2.
Proof.
  intros Hs. unfold pic_poll_read.
  destruct (pic_get_irq_range w (pics w s) (pics_get_wf w s Hs)) as [-> | Hl].
  { cbn. by apply pic_update_irq_wf. }
  destruct (0 <=? _); [| cbn; by apply pic_update_irq_wf]. cbn [snd].
  set (s1 := if c_true _ then _ else s).
  assert (pics_wf s1) by (unfold s1; destruct (c_true _); [field_update | done]).
  clearbody s1. set (s2 := update w _ s1). assert (pics_wf s2) by (unfold s2; field_update).
  clearbody s2.
  destruct (_ || _); [by apply pic_update_irq_wf | done].
Qed.

Lemma pic_read_irq_wf (s : PicState2) : pics_wf s -> pics_wf (pic_read_irq s).2.
Proof.
  intros Hs. unfold pic_read_irq.
  destruct (pic_get_irq_range Master s.(pic_master) (wf_master s Hs)) as [-> | Hl].
  { cbn. by apply pic_update_irq_wf. }
  set (irq := pic_get_irq Master s.(pic_master)) in *.
  destruct (0 <=? irq); [| cbn; by apply pic_update_irq_wf].
  assert (H1 : pics_wf (set_pics Master (pic_intack irq s.(pic_master)) s)).
  { apply (update_wf Master (pic_intack irq)); auto with pic. }
  destruct (irq =? 2); [| cbn; by apply pic_update_irq_wf].
  set (s1 := set_pics Master _ s) in *. clearbody s1.
  destruct (pic_get_irq_range Slave s1.(pic_slave) (wf_slave s1 H1)) as [-> | Hl2].
  { cbn. by apply pic_update_irq_wf. }
  destruct (0 <=? _); cbn; apply pic_update_irq_wf; [| done].
  apply (update_wf Slave (pic_intack (pic_get_irq Slave s1.(pic_slave)))); auto with pic.
Qed.

Lemma pic_step_wf (s s' : PicState2) : pic_step s s' -> pics_wf s -> pics_wf s'.
Proof.
  intros Hstep Hs. destruct Hstep as
    [s irq level Hi | s n s' H | s w addr val s' Hv H | s w addr n s' H | s n s' H
    | s w val Hv | s w].
  - unfold i8259_set_irq. apply pic_update_irq_wf.
    apply (update_wf _ (pic_set_irq1 (Z.land irq 7) level)); auto with pic.
    intros p. apply pic_set_irq1_wf. rewrite land_7. apply Z.mod_pos_bound. lia.
  - apply (f_equal snd) in H. cbn in H. subst. by apply pic_read_irq_wf.
  - by eapply pic_ioport_write_wf.
  - unfold pic_ioport_read in H. destruct (c_true _).
    + pose proof (pic_poll_read_wf w addr s Hs).
      destruct (pic_poll_read w addr s) as [r s1]. simplify_eq. field_update.
    + by destruct (_ =? 0); simplify_eq.
  - unfold pic_intack_read in H. pose proof (pic_poll_read_wf Master 0 s Hs) as H1.
    destruct (pic_poll_read Master 0 s) as [r s1]. cbn in H1.
    destruct (r =? 2); [| simplify_eq; field_update].
    pose proof (pic_poll_read_wf Slave 0x80 s1 H1) as H2.
    destruct (pic_poll_read Slave 0x80 s1) as [r2 s2]. simplify_eq. cbn in H2. field_update.
  - apply update_wf; [| by intros ? | done]. intros p []. constructor; cbn; try width.
    intros i Hb. rewrite wrap_testbit, Z.land_spec in Hb by lia.
    apply andb_true_iff in Hb as [_ Hb]. by apply andb_true_iff in Hb as [_ Hb].
  - apply update_wf; auto with pic. by intros ?.
Qed.

(** ** Acknowledge, service and end of interrupt *)

(** [pic_update_irq] touches only the request registers of the master and the
    output line. *)
Lemma pic_update_irq_frame (s : PicState2) :
  (pic_update_irq s).(pic_slave) = s.(pic_slave)
  /\ exists r l, (pic_update_irq s).(pic_master) = set_last_irr l (set_irr r s.(pic_master)).
Proof.
  assert (Hset : forall irq level p, exists r l,
            pic_set_irq1 irq level p = set_last_irr l (set_irr r p)).
  { intros irq level p. unfold pic_set_irq1.
    destruct p. repeat case_match; eexists _, _; reflexivity. }
  unfold pic_update_irq. destruct (0 <=? pic_get_irq Slave _).
  - destruct (Hset 2 1 s.(pic_master)) as (r1 & l1 & E1).
    destruct (Hset 2 0 (pic_set_irq1 2 1 s.(pic_master))) as (r2 & l2 & E2).
    split; [by destruct (0 <=? _) | exists r2, l2].
    destruct (0 <=? _); cbn; rewrite E2, E1; done.
  - split; [by destruct (0 <=? _) |]. eexists s.(pic_master).(irr), s.(pic_master).(last_irr).
    destruct (0 <=? _); cbn; by destruct s.(pic_master).
Qed.

Lemma get_irq_below_service (w : which) (s : PicState) (i : Z) :
  pic_wf s -> blocking w s i ->
  pic_get_irq w s = -1 \/ rank s (pic_get_irq w s) < rank s i.
Proof.
  intros Hwf Hi. destruct (pic_get_irq_selected w s Hwf) as [[? _] | [_ (_ & _ & Hb)]]; auto.
Qed.

Lemma blocking_fully_nested (w : which) (s : PicState) (i : Z) :
  line i -> Z.testbit s.(isr) i = true -> s.(special_mask) = 0 ->
  s.(special_fully_nested_mode) = 0 -> blocking w s i.
Proof. intros Hi Hb Hm Hn. split; [done |]. rewrite Hm, Hn. done. Qed.

(** A controller whose only request is line [i], with nothing in service,
    selects [i]. *)
Lemma get_irq_single (w : which) (s : PicState) (i : Z) :
  pic_wf s -> line i -> s.(irr) = bit i -> s.(isr) = 0 -> Z.testbit s.(imr) i = false ->
  pic_get_irq w s = i.
Proof.
  intros Hwf Hi Hirr Hisr Himr. apply pic_get_irq_some; [done |].
  unfold bit in Hirr. unfold line in Hi. split; [| split].
  - split; [done |]. rewrite Hirr, testbit_bit by lia. by rewrite bool_decide_eq_true_2.
  - intros j (Hj & Hb & _). rewrite Hirr, testbit_bit in Hb by lia.
    by apply bool_decide_eq_true in Hb as ->.
  - intros j (_ & Hb & _). by rewrite Hisr, Z.bits_0 in Hb.
Qed.

Lemma get_irq_none (w : which) (s : PicState) :
  s.(irr) = 0 -> pic_get_irq w s = -1.
Proof. intros H. unfold pic_get_irq. rewrite H. reflexivity. Qed.

Lemma c_true_testbit_false (x i : Z) :
  0 <= i -> Z.testbit x i = false -> c_true (Z.land x (bit i)) = false.
Proof. intros Hi Hb. unfold bit. by rewrite c_true_land_bit. Qed.

Lemma clear_bit_self (i : Z) : 0 <= i -> clear (bit i) i = 0.
Proof.
  intros Hi. apply bits_eq_0. intros j Hj. rewrite clear_testbit by done.
  unfold bit. rewrite testbit_bit by done. by destruct (bool_decide (i = j)).
Qed.

(** An edge on an idle line latches exactly that line. *)
Lemma set_irq1_edge (p : PicState) (i : Z) :
  line i -> Z.testbit p.(elcr) i = false -> Z.testbit p.(last_irr) i = false ->
  pic_set_irq1 i 1 p = set_last_irr (Z.lor p.(last_irr) (bit i)) (set_irr (Z.lor p.(irr) (bit i)) p).
Proof.
  intros Hi He Hl. unfold pic_set_irq1, line in *.
  rewrite c_true_testbit_false by (done || lia). cbn [c_true Z.eqb negb].
  unfold bit. rewrite land_bit_eqb, Hl by lia. done.
Qed.

(** A level already seen latches nothing. *)
Lemma set_irq1_held (p : PicState) (i : Z) :
  line i -> Z.testbit p.(elcr) i = false -> Z.testbit p.(last_irr) i = true ->
  (pic_set_irq1 i 1 p).(irr) = p.(irr).
Proof.
  intros Hi He Hl. unfold pic_set_irq1, line in *.
  rewrite c_true_testbit_false by (done || lia). cbn [c_true Z.eqb negb].
  unfold bit. rewrite land_bit_eqb, Hl by lia. done.
Qed.

Lemma update_irq_quiet_slave (s : PicState2) :
  s.(pic_slave).(irr) = 0 ->
  pic_update_irq s
  = if 0 <=? pic_get_irq Master s.(pic_master) then parent_set 1 s else s.
Proof. intros H. unfold pic_update_irq. by rewrite (get_irq_none Slave _ H). Qed.

(** ** Properties *)

(** C2: [pic_get_irq] returns line [i] exactly when [i] is requested and
    unmasked, no requested unmasked line has a higher priority under the
    current rotation, and every line in service that counts (special mask
    mode, special fully nested mode) has a strictly lower priority; it
    returns -1 exactly when no line qualifies. *)
Theorem pic_get_irq_correct (w : which) (s : PicState) :
  pic_wf s ->
  (forall i, 0 <= i -> pic_get_irq w s = i <-> selected w s i)
  /\ (pic_get_irq w s = -1 <-> forall i, ~ selected w s i).
Proof.
  intros Hwf. destruct (pic_get_irq_selected w s Hwf) as [[Hm Hno] | [Hl Hsel]].
  - split; [| done]. intros i Hi. split; [lia |]. intros Hs. by destruct (Hno i).
  - unfold line in Hl. split.
    + intros i Hi. split; [by intros <- |]. intros Hs. by eapply selected_unique.
    + split; [lia |]. intros Hno. by destruct (Hno _ Hsel).
Qed.

Lemma pic_get_irq_correct_witness :
  let s := mkPicState 0 0x18 0x08 0x20 0 0x20 0 0 0 0 0 0 0 1 0 0 0xf8 in
  pic_get_irq Master s = 4 <-> selected Master s 4.
Proof.
  apply (pic_get_irq_correct Master (mkPicState 0 0x18 0x08 0x20 0 0x20 0 0 0 0 0 0 0 1 0 0 0xf8));
    [| lia].
  constructor; cbn; try by_eval. intros i H. by rewrite Z.bits_0 in H.
Defined.

(** C7: in every state the operations can reach, all registers are within
    their width, and the system timer, keyboard, cascade, clock and
    coprocessor lines (IRQ 0, 1, 2, 8, 13) are edge triggered. *)
Theorem pic_reachable_wf (s : PicState2) :
  pic_reachable s ->
  pics_wf s
  /\ (forall i, i ∈ [0; 1; 2] -> Z.testbit s.(pic_master).(elcr) i = false)
  /\ (forall i, i ∈ [0; 5] -> Z.testbit s.(pic_slave).(elcr) i = false).
Proof.
  intros Hr. assert (Hwf : pics_wf s).
  { induction Hr as [| s s' _ IH Hs]; [| by eapply pic_step_wf].
    constructor; [| | done..]; constructor; cbn; try width; intros i H; by rewrite Z.bits_0 in H. }
  split; [done |]. destruct Hwf as [Hm Hs Em Es].
  split; intros i Hi; [destruct (Z.testbit s.(pic_master).(elcr) i) eqn:E
                      | destruct (Z.testbit s.(pic_slave).(elcr) i) eqn:E]; try done.
  - apply (wf_elcr_sub _ Hm) in E. rewrite Em in E.
    rewrite !elem_of_cons in Hi. destruct Hi as [-> | [-> | [-> | []%not_elem_of_nil]]]; done.
  - apply (wf_elcr_sub _ Hs) in E. rewrite Es in E.
    rewrite !elem_of_cons in Hi. destruct Hi as [-> | [-> | []%not_elem_of_nil]]; done.
Qed.

Lemma pic_reachable_wf_witness :
  pics_wf (i8259_set_irq 4 1 (elcr_ioport_write Master 0xff i8259_init)).
Proof.
  apply pic_reachable_wf.
  apply (reach_step (elcr_ioport_write Master 0xff i8259_init)); [| apply step_set_irq; lia].
  apply (reach_step i8259_init); [apply reach_init | apply step_elcr_write; by_eval].
Defined.

(** Once a fully nested controller has acknowledged line [i], it presents
    no line of the same or a lower priority until the end of interrupt: the
    master's next request, if any, has a strictly higher priority. *)
Theorem pic_read_irq_blocks (s : PicState2) (i : Z) :
  pics_wf s -> pic_get_irq Master s.(pic_master) = i -> 0 <= i ->
  s.(pic_master).(auto_eoi) = 0 -> s.(pic_master).(special_mask) = 0 ->
  s.(pic_master).(special_fully_nested_mode) = 0 ->
  let m := (pic_read_irq s).2.(pic_master) in
  Z.testbit m.(isr) i = true
  /\ (pic_get_irq Master m = -1 \/ rank m (pic_get_irq Master m) < rank m i).
Proof.
  intros Hwf Hirq Hi Haeoi Hsm Hsf. cbn zeta.
  assert (Hl : line i).
  { destruct (pic_get_irq_range Master _ (wf_master _ Hwf)); [lia | by subst]. }
  pose proof (wf_master _ (pic_read_irq_wf s Hwf)) as Hm'.
  assert (Hm : exists r l, (pic_read_irq s).2.(pic_master)
             = set_last_irr l (set_irr r (pic_intack i s.(pic_master)))).
  { unfold pic_read_irq. rewrite Hirq. destruct (Z.leb_spec 0 i); [| lia].
    destruct (i =? 2); [destruct (0 <=? _) |]; cbn [snd];
      match goal with |- context [pic_update_irq ?s1] =>
        destruct (proj2 (pic_update_irq_frame s1)) as (r & l & ->); by exists r, l end. }
  destruct Hm as (r & l & Hm). rewrite Hm in *.
  assert (Hisr : (pic_intack i s.(pic_master)).(isr) = Z.lor s.(pic_master).(isr) (bit i)).
  { unfold pic_intack. rewrite Haeoi. cbn [c_true Z.eqb negb]. by destruct (c_true _). }
  assert (Hk : (pic_intack i s.(pic_master)).(special_mask) = 0
               /\ (pic_intack i s.(pic_master)).(special_fully_nested_mode) = 0).
  { unfold pic_intack. rewrite Haeoi. cbn [c_true Z.eqb negb]. by destruct (c_true _). }
  assert (Hb : Z.testbit (Z.lor s.(pic_master).(isr) (bit i)) i = true).
  { unfold line in Hl. unfold bit. bits_simpl. done. }
  cbn [isr set_last_irr set_irr]. rewrite Hisr. split; [done |].
  apply get_irq_below_service; [done |].
  apply blocking_fully_nested; [done | cbn; by rewrite Hisr | apply Hk | apply Hk].
Qed.

Lemma pic_read_irq_blocks_witness :
  let m := (pic_read_irq (i8259_set_irq 3 1 i8259_init)).2.(pic_master) in
  Z.testbit m.(isr) 3 = true
  /\ (pic_get_irq Master m = -1 \/ rank m (pic_get_irq Master m) < rank m 3).
Proof.
  apply (pic_read_irq_blocks (i8259_set_irq 3 1 i8259_init) 3); try reflexivity; [| lia].
  apply (pic_step_wf i8259_init); [apply step_set_irq; lia |].
  constructor; [| | done..]; constructor; cbn; try by_eval; intros i H; by rewrite Z.bits_0 in H.
Defined.

(** A non-specific EOI ends the service of the highest-priority line in
    service and of no other; with nothing in service it changes nothing. *)
Theorem pic_eoi_correct (w : which) (s : PicState2) :
  pics_wf s ->
  exists s', pic_ioport_write w 0 0x20 s = Some s' /\
  (((pics w s).(isr) = 0 /\ s' = s)
   \/ exists i, line i /\ Z.testbit (pics w s).(isr) i = true
        /\ (forall j, line j -> Z.testbit (pics w s).(isr) j = true ->
              rank (pics w s) i <= rank (pics w s) j)
        /\ forall j, 0 <= j -> Z.testbit (pics w s').(isr) j
                     = Z.testbit (pics w s).(isr) j && negb (bool_decide (i = j))).
Proof.
  intros Hwf. pose proof (pics_get_wf w s Hwf) as Hp. eexists. split; [reflexivity |].
  unfold pic_ocw2. change (Z.shiftr 0x20 5) with 1. cbn [Z.eqb orb Pos.eqb].
  destruct (get_priority_spec (pics w s) (pics w s).(isr) (wf_isr _ Hp)) as (Hr & Hmin & Hex).
  destruct (Z.eqb_spec (get_priority (pics w s) (pics w s).(isr)) 8) as [H8 | H8].
  - left. split; [| done]. by apply (get_priority_8 (pics w s)), H8; apply Hp.
  - right. destruct (Hex ltac:(lia)) as (i & Hi & Hb & Hrank & ->). exists i.
    split_and!; [done | done | intros j Hj Hbj; rewrite Hrank; by apply Hmin |].
    intros j Hj. rewrite <- clear_testbit by (done || unfold line in Hi; lia). f_equal.
    match goal with |- context [pic_update_irq ?s1] =>
      destruct (pic_update_irq_frame s1) as (Hsl & r & l & Hma) end.
    destruct w; cbn [pics] in *; [rewrite Hma | rewrite Hsl]; done.
Qed.

Lemma pic_eoi_correct_witness :
  let s := (pic_read_irq (i8259_set_irq 3 1 i8259_init)).2 in
  exists s', pic_ioport_write Master 0 0x20 s = Some s' /\
  (((pics Master s).(isr) = 0 /\ s' = s)
   \/ exists i, line i /\ Z.testbit (pics Master s).(isr) i = true
        /\ (forall j, line j -> Z.testbit (pics Master s).(isr) j = true ->
              rank (pics Master s) i <= rank (pics Master s) j)
        /\ forall j, 0 <= j -> Z.testbit (pics Master s').(isr) j
                     = Z.testbit (pics Master s).(isr) j && negb (bool_decide (i = j))).
Proof.
  apply (pic_eoi_correct Master). vm_compute pic_read_irq.
  constructor; [| | done..]; constructor; cbn; try by_eval; intros i H; by rewrite Z.bits_0 in H.
Defined.

(** The four-byte initialisation sequence (ICW1 with ICW4 announced and
    cascading, then ICW2, ICW3, ICW4) always succeeds, ends the
    initialisation and leaves every register at its documented value, from
    any state of the controller. *)
Theorem pic_init_sequence (w : which) (icw2 icw3 icw4 : Z) (s : PicState2) :
  exists s', (s1 ← pic_ioport_write w 0 0x11 s; s2 ← pic_ioport_write w 1 icw2 s1;
              s3 ← pic_ioport_write w 1 icw3 s2; pic_ioport_write w 1 icw4 s3) = Some s'
  /\ pics w s' = mkPicState 0 0 0 0 0 (Z.land icw2 0xf8) 0 0 0 0
                   (Z.land (Z.shiftr icw4 1) 1) 0 (Z.land (Z.shiftr icw4 4) 1) 1 0
                   (pics w s).(elcr) (pics w s).(elcr_mask)
  /\ head s'.(parent_irq) = Some 0.
Proof. destruct w; eexists; split_and!; reflexivity. Qed.

(** The only writes that stop the emulator are the initialisation
    commands asking for level triggered mode. *)
Theorem pic_write_error (w : which) (addr val : Z) (s : PicState2) :
  pic_ioport_write w addr val s = None
  <-> (addr mod 2 = 0 /\ Z.testbit val 4 = true /\ Z.testbit val 3 = true).
Proof.
  unfold pic_ioport_write. rewrite land_1.
  destruct (Z.eqb_spec (addr mod 2) 0) as [He | He]; [| split; [done | intros (? & _); lia]].
  change 0x10 with (Z.shiftl 1 4). rewrite c_true_land_bit by lia.
  change 0x08 with (Z.shiftl 1 3). rewrite c_true_land_bit by lia.
  destruct (Z.testbit val 4) eqn:E4; [| destruct (Z.testbit val 3); (split; [done | by intros (_ & ? & _)])].
  unfold pic_icw1. change 0x08 with (Z.shiftl 1 3). rewrite c_true_land_bit by lia.
  destruct (Z.testbit val 3); split; try done. by intros (_ & _ & ?).
Qed.

Lemma i8259_init_wf : pics_wf i8259_init.
Proof.
  constructor; [| | done..]; constructor; cbn; try by_eval; intros i Hb; by rewrite Z.bits_0 in Hb.
Qed.

(** A rising edge on an idle pair *)
Section Edge.
Context (s : PicState2) (i : Z).
Context (Hwf : pics_wf s) (Hi : line i) (Hi2 : i <> 2).
Context (Hirr : s.(pic_master).(irr) = 0) (Hisr : s.(pic_master).(isr) = 0).
Context (Hslave : s.(pic_slave).(irr) = 0).
Context (Helcr : Z.testbit s.(pic_master).(elcr) i = false).
Context (Himr : Z.testbit s.(pic_master).(imr) i = false).
Context (Hlast : Z.testbit s.(pic_master).(last_irr) i = false).

(** The master with the request latched *)
Definition edge_latched : PicState :=
  set_last_irr (Z.lor s.(pic_master).(last_irr) (bit i)) (set_irr (bit i) s.(pic_master)).

Lemma edge_latched_wf : pic_wf edge_latched.
Proof using Hi Hwf. unfold line in Hi. destruct (wf_master _ Hwf). constructor; cbn; width. Qed.

Lemma edge_raised : i8259_set_irq i 1 s = parent_set 1 (set_pics Master edge_latched s).
Proof using All.
  pose proof edge_latched_wf. unfold line in Hi.
  unfold i8259_set_irq. rewrite Z.shiftr_div_pow2, Z.div_small by lia. cbn [Z.eqb pics].
  rewrite land_7, Z.mod_small by lia. rewrite set_irq1_edge by done. rewrite Hirr, Z.lor_0_l.
  rewrite update_irq_quiet_slave by done. cbn [pic_master set_pics].
  rewrite (get_irq_single Master _ i) by done. by destruct (Z.leb_spec 0 i); [| lia].
Qed.

Lemma edge_selected : pic_get_irq Master edge_latched = i.
Proof using All. pose proof edge_latched_wf. by apply get_irq_single. Qed.

Lemma edge_vector : (pic_read_irq (i8259_set_irq i 1 s)).1 = s.(pic_master).(irq_base) + i.
Proof using All.
  rewrite edge_raised. unfold line in Hi. unfold pic_read_irq. cbn [pic_master parent_set set_pics].
  rewrite edge_selected. destruct (Z.leb_spec 0 i); [| lia].
  destruct (Z.eqb_spec i 2); [done |]. cbn. unfold pic_intack. repeat case_match; done.
Qed.
End Edge.

(** Life of an edge: on an idle pair, a rising edge on an unmasked edge
    triggered line [i] of the master raises the output and the acknowledge
    returns its vector, moves the request into service, and the level held
    high afterwards produces no second interrupt (the acknowledge is
    spurious). *)
Theorem pic_edge_life_cycle (s : PicState2) (i : Z) :
  pics_wf s -> line i -> i <> 2 ->
  s.(pic_master).(irr) = 0 -> s.(pic_master).(isr) = 0 -> s.(pic_slave).(irr) = 0 ->
  Z.testbit s.(pic_master).(elcr) i = false -> Z.testbit s.(pic_master).(imr) i = false ->
  Z.testbit s.(pic_master).(last_irr) i = false -> s.(pic_master).(auto_eoi) = 0 ->
  let s1 := i8259_set_irq i 1 s in
  let '(vec, s2) := pic_read_irq s1 in
  head s1.(parent_irq) = Some 1
  /\ vec = s.(pic_master).(irq_base) + i
  /\ s2.(pic_master).(isr) = bit i /\ s2.(pic_master).(irr) = 0
  /\ (pic_read_irq (i8259_set_irq i 1 s2)).1 = s.(pic_master).(irq_base) + 7.
Proof.
  intros Hwf Hi Hi2 Hirr Hisr Hslave Helcr Himr Hlast Haeoi. cbn zeta.
  pose proof Hi as Hi'. unfold line in Hi'.
  rewrite edge_raised by done.
  pose proof (edge_selected s i Hwf Hi Hi2 Hirr Hisr Hslave Helcr Himr Hlast) as Hget.
  unfold edge_latched in *. set (m1 := set_last_irr _ _) in *.
  assert (Hack : pic_intack i m1 = set_irr 0 (set_isr (bit i) m1)).
  { unfold pic_intack. cbn [auto_eoi m1 set_last_irr set_irr]. rewrite Haeoi.
    cbn [c_true Z.eqb negb elcr set_isr m1]. cbn. rewrite c_true_testbit_false by (done || lia).
    rewrite Hisr, Z.lor_0_l. rewrite clear_bit_self by lia. done. }
  unfold pic_read_irq at 1. cbn [pic_master parent_set set_pics]. fold m1. rewrite Hget.
  destruct (Z.leb_spec 0 i); [| lia]. destruct (Z.eqb_spec i 2); [done |]. rewrite Hack.
  rewrite update_irq_quiet_slave by done. cbn [pic_master set_pics].
  rewrite get_irq_none by done. cbn [Z.leb Z.compare pic_master set_pics].
  split_and!; try done.
  set (s2 := mkPicState2 _ _ _).
  assert (Hlr : Z.testbit s2.(pic_master).(last_irr) i = true).
  { cbn. unfold bit. bits_simpl. done. }
  assert (Hq : (pic_set_irq1 i 1 s2.(pic_master)).(irr) = 0) by (by rewrite set_irq1_held).
  unfold i8259_set_irq. rewrite Z.shiftr_div_pow2, Z.div_small by lia. cbn [Z.eqb pics].
  rewrite land_7, Z.mod_small by lia. rewrite update_irq_quiet_slave by done.
  cbn [pic_master set_pics]. rewrite get_irq_none by done. cbn [Z.leb Z.compare].
  unfold pic_read_irq. cbn [pic_master set_pics]. rewrite get_irq_none by done.
  cbn [Z.leb Z.compare fst pic_master set_pics].
  unfold pic_set_irq1. repeat case_match; done.
Qed.

Lemma pic_edge_life_cycle_witness :
  let s1 := i8259_set_irq 4 1 i8259_init in
  let '(vec, s2) := pic_read_irq s1 in
  head s1.(parent_irq) = Some 1
  /\ vec = 0 + 4
  /\ s2.(pic_master).(isr) = bit 4 /\ s2.(pic_master).(irr) = 0
  /\ (pic_read_irq (i8259_set_irq 4 1 s2)).1 = 0 + 7.
Proof.
  apply (pic_edge_life_cycle i8259_init 4); try reflexivity; try (unfold line; lia).
  apply i8259_init_wf.
Defined.

Lemma cascade_delivered (s : PicState2) (j : Z) :
  pics_wf s -> pic_get_irq Slave s.(pic_slave) = j -> 0 <= j ->
  s.(pic_master).(irr) = 0 -> s.(pic_master).(isr) = 0 ->
  Z.testbit s.(pic_master).(imr) 2 = false -> Z.testbit s.(pic_master).(last_irr) 2 = false ->
  let s1 := pic_update_irq s in
  head s1.(parent_irq) = Some 1
  /\ pic_get_irq Master s1.(pic_master) = 2
  /\ (pic_read_irq s1).1 = s.(pic_slave).(irq_base) + j.
Proof.
  intros Hwf Hj Hj0 Hirr Hisr Himr Hlast. cbn zeta.
  assert (Helcr : Z.testbit s.(pic_master).(elcr) 2 = false).
  { destruct (Z.testbit s.(pic_master).(elcr) 2) eqn:E; [| done].
    apply (wf_elcr_sub _ (wf_master _ Hwf)) in E. by rewrite (wf_master_mask _ Hwf) in E. }
  set (m := pic_set_irq1 2 0 (pic_set_irq1 2 1 s.(pic_master))).
  assert (Hm : m.(irr) = bit 2 /\ m.(isr) = 0 /\ m.(imr) = s.(pic_master).(imr)).
  { unfold m. rewrite set_irq1_edge by done. unfold pic_set_irq1. cbn.
    change 4 with (bit 2). rewrite c_true_testbit_false by done. cbn. by rewrite Hirr. }
  assert (Hmwf : pic_wf m).
  { apply pic_set_irq1_wf; [done |]. apply pic_set_irq1_wf; [done | apply Hwf]. }
  assert (H2 : pic_get_irq Master m = 2).
  { apply get_irq_single; [done | done | apply Hm | apply Hm |].
    destruct Hm as (_ & _ & ->). done. }
  assert (Hs1 : pic_update_irq s = parent_set 1 (set_pics Master m s)).
  { unfold pic_update_irq. rewrite Hj. destruct (Z.leb_spec 0 j); [| lia].
    cbn [pic_master set_pics]. fold m. by rewrite H2. }
  rewrite Hs1. split_and!; [done | done |].
  unfold pic_read_irq. cbn [pic_master pic_slave parent_set set_pics]. rewrite H2.
  cbn [Z.leb Z.compare Z.eqb Pos.eqb pic_slave set_pics]. rewrite Hj.
  destruct (Z.leb_spec 0 j); [| lia]. cbn.
  unfold pic_intack. repeat case_match; done.
Qed.

(** ** The interface to the devices *)

(** Both controllers have nothing pending or in service but what the master's
    mask leaves out, and line [i] is enabled, edge triggered and low; for a line
    of the slave the cascade line is free as well. *)
Record line_idle (p : PicState) (i : Z) : Prop := {
  li_line : line i;
  li_elcr : Z.testbit p.(elcr) i = false;
  li_imr : Z.testbit p.(imr) i = false;
  li_last : Z.testbit p.(last_irr) i = false
}.

Record pics_quiet (s : PicState2) : Prop := {
  pq_wf : pics_wf s;
  pq_irr : s.(pic_master).(irr) = 0;
  pq_isr : s.(pic_master).(isr) = 0;
  pq_slave : s.(pic_slave).(irr) = 0
}.

Definition pics_idle (s : PicState2) (i : Z) : Prop :=
  pics_quiet s /\
  if i <? 8 then line_idle s.(pic_master) i /\ i <> 2
  else line_idle s.(pic_slave) (i - 8) /\ s.(pic_slave).(isr) = 0
       /\ Z.testbit s.(pic_master).(imr) 2 = false
       /\ Z.testbit s.(pic_master).(last_irr) 2 = false.

Definition pics_vector (s : PicState2) (i : Z) : Z :=
  if i <? 8 then s.(pic_master).(irq_base) + i else s.(pic_slave).(irq_base) + (i - 8).

Lemma master_edge_delivered s i :
  pics_quiet s -> line_idle s.(pic_master) i -> i <> 2 ->
  head (i8259_set_irq i 1 s).(parent_irq) = Some 1
  /\ (pic_read_irq (i8259_set_irq i 1 s)).1 = s.(pic_master).(irq_base) + i.
Proof.
  intros [Hwf Hirr Hisr Hs] [Hl He Hm Hla] H2. split; [by rewrite edge_raised | by apply edge_vector].
Qed.

Lemma slave_edge_delivered s j :
  pics_quiet s -> line_idle s.(pic_slave) j -> s.(pic_slave).(isr) = 0 ->
  Z.testbit s.(pic_master).(imr) 2 = false -> Z.testbit s.(pic_master).(last_irr) 2 = false ->
  head (i8259_set_irq (8 + j) 1 s).(parent_irq) = Some 1
  /\ (pic_read_irq (i8259_set_irq (8 + j) 1 s)).1 = s.(pic_slave).(irq_base) + j.
Proof.
  intros [Hwf Hirr Hisr Hs] [Hl He Hm Hla] Hsisr Hm2 Hl2. pose proof Hl as Hj. unfold line in Hj.
  unfold i8259_set_irq. rewrite Z.shiftr_div_pow2 by lia. change (2 ^ 3) with 8.
  rewrite <- (Z.div_unique (8 + j) 8 1 j) by lia. cbn [Z.eqb Pos.eqb pics].
  rewrite land_7, <- (Z.mod_unique (8 + j) 8 1 j) by lia.
  rewrite set_irq1_edge, Hs, Z.lor_0_l by done. set (p := set_last_irr _ _).
  assert (Hp : pic_wf p).
  { destruct (wf_slave _ Hwf). unfold p. constructor; cbn; width. }
  assert (Hwf' : pics_wf (set_pics Slave p s)) by (destruct Hwf; by constructor).
  assert (Hget : pic_get_irq Slave p = j) by (by apply get_irq_single).
  destruct (cascade_delivered (set_pics Slave p s) j Hwf' Hget ltac:(lia) Hirr Hisr Hm2 Hl2)
    as (Hh & _ & Hv).
  by split.
Qed.

(** A line that is edge triggered and low *)
Definition low_on (p : PicState) (i : Z) : Prop :=
  line i /\ Z.testbit p.(elcr) i = false /\ Z.testbit p.(last_irr) i = false.

Definition pics_low (s : PicState2) (j : Z) : Prop :=
  if j <? 8 then low_on s.(pic_master) j else low_on s.(pic_slave) (j - 8).

Lemma clear_clear_bit x i : 0 <= i -> Z.testbit x i = false -> clear x i = x.
Proof.
  intros Hi Hx. apply Z.bits_inj'. intros n Hn. rewrite clear_testbit by lia.
  destruct (decide (n = i)) as [-> | Hne]; [by rewrite Hx |].
  by rewrite bool_decide_eq_false_2, andb_true_r.
Qed.

Lemma set_irq1_low p i : low_on p i -> pic_set_irq1 i 0 p = p.
Proof.
  intros ([Hi _] & He & Hl). unfold pic_set_irq1. rewrite c_true_testbit_false by done. cbn.
  rewrite clear_clear_bit by done. by destruct p.
Qed.

(** Lowering a low line only repeats the update. *)
Lemma lower_low s j : pics_low s j -> i8259_set_irq j 0 s = pic_update_irq s.
Proof.
  unfold pics_low, i8259_set_irq. intros Hl. destruct (Z.ltb_spec j 8).
  - pose proof (proj1 Hl) as Hj. unfold line in Hj.
    rewrite Z.shiftr_div_pow2, Z.div_small by lia. cbn [Z.eqb pics].
    rewrite land_7, Z.mod_small, set_irq1_low by (done || lia). by destruct s.
  - pose proof (proj1 Hl) as Hj. unfold line in Hj.
    rewrite Z.shiftr_div_pow2 by lia. change (2 ^ 3) with 8.
    rewrite <- (Z.div_unique j 8 1 (j - 8)) by lia. cbn [Z.eqb Pos.eqb pics].
    rewrite land_7, <- (Z.mod_unique j 8 1 (j - 8)), set_irq1_low by (done || lia). by destruct s.
Qed.

(** A repeated update does not change what the processor is given. *)
Definition same_chips (s s' : PicState2) : Prop :=
  s'.(pic_master) = s.(pic_master) /\ s'.(pic_slave) = s.(pic_slave).

Lemma read_same_chips s s' : same_chips s s' -> (pic_read_irq s').1 = (pic_read_irq s).1.
Proof.
  intros [Hm Hs]. unfold pic_read_irq. rewrite Hm. cbn. rewrite Hs.
  repeat case_match; simplify_eq; cbn in *; congruence.
Qed.

Lemma update_quiet s : s.(pic_slave).(irr) = 0 -> same_chips s (pic_update_irq s).
Proof. intros Hs. rewrite update_irq_quiet_slave by done. by destruct (0 <=? _). Qed.

Lemma set_last_twice a b p : set_last_irr a (set_last_irr b p) = set_last_irr a p.
Proof. done. Qed.

Lemma set_irr_twice a b p : set_irr a (set_irr b p) = set_irr a p.
Proof. done. Qed.

Lemma set_irr_last a b p : set_irr a (set_last_irr b p) = set_last_irr b (set_irr a p).
Proof. done. Qed.

Lemma cascade_pulse_idem p :
  Z.testbit p.(elcr) 2 = false -> Z.testbit p.(last_irr) 2 = false ->
  let q := pic_set_irq1 2 0 (pic_set_irq1 2 1 p) in
  Z.testbit q.(last_irr) 2 = false /\ pic_set_irq1 2 0 (pic_set_irq1 2 1 q) = q.
Proof.
  intros He Hl.
  assert (Hlow : forall q, Z.testbit q.(elcr) 2 = false ->
            pic_set_irq1 2 0 q = set_last_irr (clear q.(last_irr) 2) q).
  { intros q Hq. unfold pic_set_irq1. rewrite c_true_testbit_false by (done || lia). done. }
  cbn zeta. rewrite set_irq1_edge by (done || (unfold line; lia)). rewrite Hlow by done.
  assert (Hl1 : forall x, Z.testbit (clear x 2) 2 = false).
  { intros x. rewrite clear_testbit by lia. rewrite bool_decide_eq_true_2 by done. apply andb_false_r. }
  split; [apply Hl1 |]. rewrite set_irq1_edge by (apply Hl1 || done || (unfold line; lia)). rewrite Hlow by done.
  rewrite !set_irr_last, !set_last_twice, set_irr_twice.
  cbn [last_irr irr set_last_irr set_irr].
  assert (E1 : forall x, clear (Z.lor (clear x 2) (bit 2)) 2 = clear x 2).
  { intros x. apply Z.bits_inj'. intros n Hn. rewrite clear_testbit, Z.lor_spec by lia.
    rewrite !clear_testbit by lia. unfold bit. rewrite testbit_bit by lia.
    destruct (bool_decide (2 = n)); cbn [negb]; by rewrite ?andb_false_r, ?andb_true_r, ?orb_false_r. }
  rewrite E1, <- Z.lor_assoc, Z.lor_diag. reflexivity.
Qed.

Lemma master_no_level s : pics_wf s -> Z.testbit s.(pic_master).(elcr) 2 = false.
Proof.
  intros Hwf. destruct (Z.testbit s.(pic_master).(elcr) 2) eqn:E; [| done].
  apply (wf_elcr_sub _ (wf_master _ Hwf)) in E. by rewrite (wf_master_mask _ Hwf) in E.
Qed.

(** Lowering a low line leaves an idle pair as it is. *)
Lemma lower_idle s i j : pics_idle s i -> pics_low s j -> i8259_set_irq j 0 s = s.
Proof.
  intros [[Hwf Hirr Hisr Hs] _] Hl. rewrite lower_low, update_irq_quiet_slave by done.
  by rewrite (get_irq_none Master _ Hirr).
Qed.

(** The pair after a line was raised: the update once more changes nothing, and
    the other lines are as low as before. *)
Definition settled (s : PicState2) : Prop :=
  s.(pic_slave).(irr) = 0 \/
  (Z.testbit s.(pic_master).(elcr) 2 = false /\ Z.testbit s.(pic_master).(last_irr) 2 = false).

Lemma update_chips s :
  (pic_update_irq s).(pic_slave) = s.(pic_slave) /\
  (pic_update_irq s).(pic_master) =
    if 0 <=? pic_get_irq Slave s.(pic_slave)
    then pic_set_irq1 2 0 (pic_set_irq1 2 1 s.(pic_master)) else s.(pic_master).
Proof.
  unfold pic_update_irq. destruct (0 <=? pic_get_irq Slave s.(pic_slave));
    by destruct (0 <=? pic_get_irq Master _).
Qed.

Lemma update_settled s :
  settled s -> same_chips (pic_update_irq s) (pic_update_irq (pic_update_irq s)).
Proof.
  intros Hset. unfold same_chips.
  destruct (update_chips (pic_update_irq s)) as [-> ->], (update_chips s) as [-> ->].
  split; [| done]. destruct (0 <=? pic_get_irq Slave s.(pic_slave)) eqn:E; [| done].
  destruct Hset as [Hs | [He Hl]]; [by rewrite (get_irq_none Slave _ Hs) in E |].
  by destruct (cascade_pulse_idem _ He Hl).
Qed.

Lemma update_parent s : head s.(parent_irq) = Some 1 -> head (pic_update_irq s).(parent_irq) = Some 1.
Proof. intros Hp. unfold pic_update_irq. repeat case_match; done. Qed.

Lemma low_lor p i j x :
  low_on p j -> i <> j -> line i ->
  low_on (set_last_irr (Z.lor p.(last_irr) (bit i)) (set_irr x p)) j.
Proof.
  intros (Hj & He & Hl) Hne Hi. unfold line in *. split; [done |]. split; [done |]. cbn [last_irr set_last_irr].
  rewrite Z.lor_spec, Hl. unfold bit. rewrite testbit_bit by lia. by rewrite bool_decide_eq_false_2.
Qed.

Lemma low_clear p j x y : low_on p j -> low_on (set_last_irr (clear (Z.lor p.(last_irr) (bit y)) y) (set_irr x p)) j \/ y < 0.
Proof.
  intros (Hj & He & Hl). destruct (decide (y < 0)) as [| Hy]; [by right | left]. unfold line in *.
  split; [done |]. split; [done |]. cbn [last_irr set_last_irr].
  rewrite clear_testbit, Z.lor_spec, Hl by lia. unfold bit. rewrite testbit_bit by lia.
  destruct (bool_decide (y = j)); done.
Qed.

(** The chip of a line, with the line raised, before the update *)
Definition latched (s : PicState2) (i : Z) : PicState2 :=
  let w := if i <? 8 then Master else Slave in
  set_pics w (pic_set_irq1 (i mod 8) 1 (pics w s)) s.

Lemma set_irq_latched s i : 0 <= i < 16 -> i8259_set_irq i 1 s = pic_update_irq (latched s i).
Proof.
  intros Hi. unfold i8259_set_irq, latched. rewrite land_7, Z.shiftr_div_pow2 by lia.
  change (2 ^ 3) with 8. destruct (Z.ltb_spec i 8).
  - by rewrite Z.div_small by lia.
  - by rewrite <- (Z.div_unique i 8 1 (i - 8)) by lia.
Qed.

Lemma idle_range s i : pics_idle s i -> 0 <= i < 16.
Proof.
  unfold pics_idle. intros [_ Hi]. destruct (Z.ltb_spec i 8).
  - destruct Hi as [[Hl _ _ _] _]. unfold line in Hl. lia.
  - destruct Hi as [[Hl _ _ _] _]. unfold line in Hl. lia.
Qed.

Lemma raised_low s i j :
  pics_idle s i -> pics_low s j -> i <> j ->
  pics_low (pic_update_irq (latched s i)) j /\ settled (latched s i).
Proof.
  intros Hidle Hlow Hne. pose proof (idle_range s i Hidle) as Hr.
  destruct Hidle as [[Hwf Hirr Hisr Hs] Hi]. pose proof (master_no_level s Hwf) as He2.
  unfold latched, pics_low in *. destruct (Z.ltb_spec i 8) as [Hi8 | Hi8].
  - destruct Hi as [[Hl He Hm Hla] H2]. rewrite (Z.mod_small i 8) by lia. cbn [pics].
    rewrite set_irq1_edge by done. set (X := set_pics _ _ _).
    assert (Hset : settled X) by (by left). split; [| done].
    destruct (update_quiet X Hs) as [-> ->]. destruct (j <? 8); [| done]. by apply low_lor.
  - destruct Hi as (Hl & Hsisr & Hm2 & Hl2). destruct Hl as [Hl He Hm Hla].
    rewrite <- (Z.mod_unique i 8 1 (i - 8)) by lia. cbn [pics]. rewrite set_irq1_edge by done.
    set (X := set_pics _ _ _).
    assert (Hset : settled X) by (by right). split; [| done].
    destruct (update_chips X) as [-> ->]. destruct (Z.ltb_spec j 8).
    + cbn [pic_master pic_slave X set_pics]. destruct (0 <=? _); [| done].
      rewrite set_irq1_edge by (done || (unfold line; lia)).
      assert (E : forall q, Z.testbit q.(elcr) 2 = false ->
                pic_set_irq1 2 0 q = set_last_irr (clear q.(last_irr) 2) q)
        by (intros q Hq; unfold pic_set_irq1; rewrite c_true_testbit_false by (done || lia); done).
      rewrite E by done. rewrite set_last_twice. cbn [last_irr set_last_irr].
      destruct (low_clear s.(pic_master) j (Z.lor s.(pic_master).(irr) (bit 2)) 2 Hlow); [done | lia].
    + cbn [pic_master pic_slave X set_pics]. apply low_lor; [done | lia | done].
Qed.

Lemma lower_raised s i j :
  pics_idle s i -> pics_low s j -> i <> j ->
  same_chips (i8259_set_irq i 1 s) (i8259_set_irq j 0 (i8259_set_irq i 1 s)) /\
  (head (i8259_set_irq i 1 s).(parent_irq) = Some 1 ->
   head (i8259_set_irq j 0 (i8259_set_irq i 1 s)).(parent_irq) = Some 1).
Proof.
  intros Hi Hl Hne. destruct (raised_low s i j Hi Hl Hne) as [Hlow Hset].
  rewrite (set_irq_latched s i) by (by eapply idle_range).
  rewrite lower_low by done. split; [by apply update_settled | apply update_parent].
Qed.

Lemma idle_raised s i :
  pics_idle s i ->
  head (i8259_set_irq i 1 s).(parent_irq) = Some 1 /\
  (pic_read_irq (i8259_set_irq i 1 s)).1 = pics_vector s i.
Proof.
  intros [Hq Hi]. unfold pics_vector. destruct (i <? 8).
  - destruct Hi. by apply master_edge_delivered.
  - destruct Hi as (Hl & Hisr & Hm & Hla). replace i with (8 + (i - 8)) at 1 2 by lia.
    by apply slave_edge_delivered.
Qed.

#[global] Program Instance pics_controller : IrqController PicState2 := {|
  irq_handler := i8259_set_irq;
  irq_ack := pic_read_irq;
  irq_pending s := head s.(parent_irq) = Some 1;
  irq_idle := pics_idle;
  irq_low := pics_low;
  irq_vector := pics_vector
|}.
Next Obligation. apply idle_raised. Qed.
Next Obligation. intros s i j Hi Hl. by rewrite (lower_idle s i j Hi Hl). Qed.
Next Obligation.
  intros s i j Hi Hl Hne. destruct (idle_raised s i Hi) as [Hp Hv].
  destruct (lower_raised s i j Hi Hl Hne) as [Hc Hh].
  split; [by apply Hh | by rewrite (read_same_chips _ _ Hc)].
Qed.

(** Cascade: when the slave selects line [j] and the master is idle with
    its cascade line unmasked, the update raises the output and the
    acknowledge returns the slave's vector for [j]. *)
Theorem pic_cascade_delivery (s : PicState2) (j : Z) :
  pics_wf s -> pic_get_irq Slave s.(pic_slave) = j -> 0 <= j ->
  s.(pic_master).(irr) = 0 -> s.(pic_master).(isr) = 0 ->
  Z.testbit s.(pic_master).(imr) 2 = false -> Z.testbit s.(pic_master).(last_irr) 2 = false ->
  let s1 := pic_update_irq s in
  head s1.(parent_irq) = Some 1
  /\ pic_get_irq Master s1.(pic_master) = 2
  /\ (pic_read_irq s1).1 = s.(pic_slave).(irq_base) + j.
Proof. apply cascade_delivered. Qed.

Lemma pic_cascade_delivery_witness :
  let s := set_pics Slave (set_irr 0x10 i8259_init.(pic_slave)) i8259_init in
  let s1 := pic_update_irq s in
  head s1.(parent_irq) = Some 1
  /\ pic_get_irq Master s1.(pic_master) = 2
  /\ (pic_read_irq s1).1 = 0 + 4.
Proof.
  apply (pic_cascade_delivery
           (set_pics Slave (set_irr 0x10 i8259_init.(pic_slave)) i8259_init) 4);
    try reflexivity; [| lia].
  constructor; [| | done..]; constructor; cbn; try by_eval; intros i H; by rewrite Z.bits_0 in H.
Defined.
