(* ===== verification/I8254.v ===== *)
(** * The 8254 interval timer (qemu/hw/i8254.c)

    Three counters clocked at [PIT_FREQ], computed on demand from the virtual
    clock.  The clock is an argument [now] of the operations that read it;
    timers are the expiry time they are armed for; the interrupt line is the
    list of levels driven.  [None] is undefined behaviour: a division by a zero
    count or an access to a fourth channel.

    Theorems: every sequence of operations after reset keeps a usable count
    and registers within width, so no operation divides by zero; the next
    transition is later than the current time and, in clock ticks, exact;
    a latched count is read back unchanged. *)

From Stdlib Require Import ZArith Lia.
From stdpp Require Import base option numbers list.
From S2P Require Import Prelude HostUtils.

Local Open Scope Z_scope.

(** ** State *)

(** One channel.  [irq_timer] is [None] for a NULL timer, otherwise the expiry
    time it is armed for, if any; [irq_out] records the levels driven on the
    interrupt line, latest first. *)
Record PITChannelState := mkChannel {
  count : Z;
  latched_count : Z;
  count_latched : Z;
  status_latched : Z;
  status : Z;
  read_state : Z;
  write_state : Z;
  write_latch : Z;
  rw_mode : Z;
  mode : Z;
  bcd : Z;
  gate : Z;
  count_load_time : Z;
  next_transition_time : Z;
  irq_timer : option (option Z);
  irq_out : list Z
}.

Definition set_count (v : Z) (s : PITChannelState) : PITChannelState :=
  mkChannel v s.(latched_count) s.(count_latched) s.(status_latched) s.(status)
    s.(read_state) s.(write_state) s.(write_latch) s.(rw_mode) s.(mode) s.(bcd) s.(gate)
    s.(count_load_time) s.(next_transition_time) s.(irq_timer) s.(irq_out).
Definition set_latched_count (v : Z) (s : PITChannelState) : PITChannelState :=
  mkChannel s.(count) v s.(count_latched) s.(status_latched) s.(status) s.(read_state)
    s.(write_state) s.(write_latch) s.(rw_mode) s.(mode) s.(bcd) s.(gate)
    s.(count_load_time) s.(next_transition_time) s.(irq_timer) s.(irq_out).
Definition set_count_latched (v : Z) (s : PITChannelState) : PITChannelState :=
  mkChannel s.(count) s.(latched_count) v s.(status_latched) s.(status) s.(read_state)
    s.(write_state) s.(write_latch) s.(rw_mode) s.(mode) s.(bcd) s.(gate)
    s.(count_load_time) s.(next_transition_time) s.(irq_timer) s.(irq_out).
Definition set_status_latched (v : Z) (s : PITChannelState) : PITChannelState :=
  mkChannel s.(count) s.(latched_count) s.(count_latched) v s.(status) s.(read_state)
    s.(write_state) s.(write_latch) s.(rw_mode) s.(mode) s.(bcd) s.(gate)
    s.(count_load_time) s.(next_transition_time) s.(irq_timer) s.(irq_out).
Definition set_status (v : Z) (s : PITChannelState) : PITChannelState :=
  mkChannel s.(count) s.(latched_count) s.(count_latched) s.(status_latched) v
    s.(read_state) s.(write_state) s.(write_latch) s.(rw_mode) s.(mode) s.(bcd) s.(gate)
    s.(count_load_time) s.(next_transition_time) s.(irq_timer) s.(irq_out).
Definition set_read_state (v : Z) (s : PITChannelState) : PITChannelState :=
  mkChannel s.(count) s.(latched_count) s.(count_latched) s.(status_latched) s.(status) v
    s.(write_state) s.(write_latch) s.(rw_mode) s.(mode) s.(bcd) s.(gate)
    s.(count_load_time) s.(next_transition_time) s.(irq_timer) s.(irq_out).
Definition set_write_state (v : Z) (s : PITChannelState) : PITChannelState :=
  mkChannel s.(count) s.(latched_count) s.(count_latched) s.(status_latched) s.(status)
    s.(read_state) v s.(write_latch) s.(rw_mode) s.(mode) s.(bcd) s.(gate)
    s.(count_load_time) s.(next_transition_time) s.(irq_timer) s.(irq_out).
Definition set_write_latch (v : Z) (s : PITChannelState) : PITChannelState :=
  mkChannel s.(count) s.(latched_count) s.(count_latched) s.(status_latched) s.(status)
    s.(read_state) s.(write_state) v s.(rw_mode) s.(mode) s.(bcd) s.(gate)
    s.(count_load_time) s.(next_transition_time) s.(irq_timer) s.(irq_out).
Definition set_rw_mode (v : Z) (s : PITChannelState) : PITChannelState :=
  mkChannel s.(count) s.(latched_count) s.(count_latched) s.(status_latched) s.(status)
    s.(read_state) s.(write_state) s.(write_latch) v s.(mode) s.(bcd) s.(gate)
    s.(count_load_time) s.(next_transition_time) s.(irq_timer) s.(irq_out).
Definition set_mode (v : Z) (s : PITChannelState) : PITChannelState :=
  mkChannel s.(count) s.(latched_count) s.(count_latched) s.(status_latched) s.(status)
    s.(read_state) s.(write_state) s.(write_latch) s.(rw_mode) v s.(bcd) s.(gate)
    s.(count_load_time) s.(next_transition_time) s.(irq_timer) s.(irq_out).
Definition set_bcd (v : Z) (s : PITChannelState) : PITChannelState :=
  mkChannel s.(count) s.(latched_count) s.(count_latched) s.(status_latched) s.(status)
    s.(read_state) s.(write_state) s.(write_latch) s.(rw_mode) s.(mode) v s.(gate)
    s.(count_load_time) s.(next_transition_time) s.(irq_timer) s.(irq_out).
Definition set_gate (v : Z) (s : PITChannelState) : PITChannelState :=
  mkChannel s.(count) s.(latched_count) s.(count_latched) s.(status_latched) s.(status)
    s.(read_state) s.(write_state) s.(write_latch) s.(rw_mode) s.(mode) s.(bcd) v
    s.(count_load_time) s.(next_transition_time) s.(irq_timer) s.(irq_out).
Definition set_count_load_time (v : Z) (s : PITChannelState) : PITChannelState :=
  mkChannel s.(count) s.(latched_count) s.(count_latched) s.(status_latched) s.(status)
    s.(read_state) s.(write_state) s.(write_latch) s.(rw_mode) s.(mode) s.(bcd) s.(gate) v
    s.(next_transition_time) s.(irq_timer) s.(irq_out).
Definition set_next_transition_time (v : Z) (s : PITChannelState) : PITChannelState :=
  mkChannel s.(count) s.(latched_count) s.(count_latched) s.(status_latched) s.(status)
    s.(read_state) s.(write_state) s.(write_latch) s.(rw_mode) s.(mode) s.(bcd) s.(gate)
    s.(count_load_time) v s.(irq_timer) s.(irq_out).
Definition set_irq_timer (v : option (option Z)) (s : PITChannelState) : PITChannelState :=
  mkChannel s.(count) s.(latched_count) s.(count_latched) s.(status_latched) s.(status)
    s.(read_state) s.(write_state) s.(write_latch) s.(rw_mode) s.(mode) s.(bcd) s.(gate)
    s.(count_load_time) s.(next_transition_time) v s.(irq_out).
Definition set_irq_out (v : list Z) (s : PITChannelState) : PITChannelState :=
  mkChannel s.(count) s.(latched_count) s.(count_latched) s.(status_latched) s.(status)
    s.(read_state) s.(write_state) s.(write_latch) s.(rw_mode) s.(mode) s.(bcd) s.(gate)
    s.(count_load_time) s.(next_transition_time) s.(irq_timer) v.

(** [channels[3]] of [PITState] *)
Abbreviation PITState := (list PITChannelState).

Definition RW_STATE_LSB : Z := 1.
Definition RW_STATE_MSB : Z := 2.
Definition RW_STATE_WORD0 : Z := 3.
Definition RW_STATE_WORD1 : Z := 4.

Definition PIT_FREQ : Z := 1193182.
Definition get_ticks_per_sec : Z := 1000000000.

(** ** Counters *)

(** Clock ticks since the count was loaded, a [uint64_t] *)
Definition pit_ticks (s : PITChannelState) (now : Z) : option Z :=
  muldiv64 (wrap 64 (now - s.(count_load_time))) PIT_FREQ get_ticks_per_sec.

(** [x % y] *)
Definition c_mod (x y : Z) : option Z := if y =? 0 then None else Some (x mod y).

(** [x / y] *)
Definition c_div (x y : Z) : option Z := if y =? 0 then None else Some (x / y).

Definition pit_get_count (s : PITChannelState) (now : Z) : option Z :=
  d ← pit_ticks s now;
  if (s.(mode) =? 0) || (s.(mode) =? 1) || (s.(mode) =? 4) || (s.(mode) =? 5) then
    Some (Z.land (wrap 64 (s.(count) - d)) 0xffff)
  else if s.(mode) =? 3 then
    r ← c_mod (wrap 64 (2 * d)) s.(count);
    Some (s.(count) - r)
  else
    r ← c_mod d s.(count);
    Some (s.(count) - r).

(** The output bit after [d] ticks *)
Definition pit_out_at (s : PITChannelState) (d : Z) : option Z :=
  if s.(mode) =? 1 then Some (c_bool (d <? s.(count)))
  else if s.(mode) =? 2 then
    r ← c_mod d s.(count);
    Some (c_bool ((r =? 0) && negb (d =? 0)))
  else if s.(mode) =? 3 then
    r ← c_mod d s.(count);
    Some (c_bool (r <? Z.shiftr (s.(count) + 1) 1))
  else if (s.(mode) =? 4) || (s.(mode) =? 5) then Some (c_bool (d =? s.(count)))
  else Some (c_bool (s.(count) <=? d)).

Definition pit_get_out1 (s : PITChannelState) (current_time : Z) : option Z :=
  d ← pit_ticks s current_time;
  pit_out_at s d.

(** The [switch] of [pit_get_next_transition_time]: the tick of the next
    transition, [Some None] for the return of -1 *)
Definition next_transition_tick (s : PITChannelState) (d : Z) : option (option Z) :=
  if s.(mode) =? 2 then
    q ← c_div d s.(count);
    let base := wrap 64 (q * s.(count)) in
    Some (Some (if (wrap 64 (d - base) =? 0) && negb (d =? 0)
                then wrap 64 (base + s.(count)) else wrap 64 (base + s.(count) + 1)))
  else if s.(mode) =? 3 then
    q ← c_div d s.(count);
    let base := wrap 64 (q * s.(count)) in
    let period2 := Z.shiftr (s.(count) + 1) 1 in
    Some (Some (if wrap 64 (d - base) <? period2
                then wrap 64 (base + period2) else wrap 64 (base + s.(count))))
  else if (s.(mode) =? 4) || (s.(mode) =? 5) then
    Some (if d <? s.(count) then Some s.(count)
          else if d =? s.(count) then Some (s.(count) + 1) else None)
  else Some (if d <? s.(count) then Some s.(count) else None).

Definition pit_get_next_transition_time (s : PITChannelState) (current_time : Z) : option Z :=
  d ← pit_ticks s current_time;
  tick ← next_transition_tick s d;
  match tick with
  | None => Some (-1)
  | Some next_time =>
      t ← muldiv64 next_time get_ticks_per_sec PIT_FREQ;
      let next_time := wrap 64 (s.(count_load_time) + t) in
      Some (to_signed 64
              (if next_time <=? wrap 64 current_time then wrap 64 (current_time + 1)
               else next_time))
  end.

(** ** Interrupts and loading *)

(** [qemu_mod_timer] and [qemu_del_timer] set what the timer is armed for. *)
Definition pit_irq_timer_update (s : PITChannelState) (current_time : Z)
  : option PITChannelState :=
  match s.(irq_timer) with
  | None => Some s
  | Some _ =>
      expire_time ← pit_get_next_transition_time s current_time;
      irq_level ← pit_get_out1 s current_time;
      let s := set_irq_out (irq_level :: s.(irq_out)) s in
      let s := set_next_transition_time expire_time s in
      Some (set_irq_timer (Some (if expire_time =? -1 then None else Some expire_time)) s)
  end.

Definition pit_irq_timer (s : PITChannelState) : option PITChannelState :=
  pit_irq_timer_update s s.(next_transition_time).

Definition pit_load_count (s : PITChannelState) (val now : Z) : option PITChannelState :=
  let val := if val =? 0 then 0x10000 else val in
  let s := set_count val (set_count_load_time now s) in
  pit_irq_timer_update s s.(count_load_time).

Definition pit_latch_count (s : PITChannelState) (now : Z) : option PITChannelState :=
  if c_true s.(count_latched) then Some s
  else
    c ← pit_get_count s now;
    Some (set_count_latched s.(rw_mode) (set_latched_count (wrap 16 c) s)).

(** [s = &pit->channels[channel]] and an update of [*s] *)
Definition on_channel (pit : PITState) (channel : Z)
    (f : PITChannelState -> option PITChannelState) : option PITState :=
  s ← (if channel <? 0 then None else pit !! Z.to_nat channel);
  s ← f s;
  Some (<[Z.to_nat channel := s]> pit).

Definition set_gate_channel (val now : Z) (s : PITChannelState) : option PITChannelState :=
  s ← (if ((s.(mode) =? 1) || (s.(mode) =? 5) || (s.(mode) =? 2) || (s.(mode) =? 3))
          && (s.(gate) <? val)
       then let s := set_count_load_time now s in pit_irq_timer_update s s.(count_load_time)
       else Some s);
  Some (set_gate (wrap 8 val) s).

Definition pit_set_gate (pit : PITState) (channel val now : Z) : option PITState :=
  on_channel pit channel (set_gate_channel val now).

Definition pit_get_out (pit : PITState) (channel current_time : Z) : option Z :=
  s ← (if channel <? 0 then None else pit !! Z.to_nat channel);
  pit_get_out1 s current_time.

Definition pit_field (f : PITChannelState -> Z) (pit : PITState) (channel : Z) : option Z :=
  if channel <? 0 then None else f <$> pit !! Z.to_nat channel.

Definition pit_get_gate (pit : PITState) (channel : Z) : option Z := pit_field gate pit channel.
Definition pit_get_initial_count (pit : PITState) (channel : Z) : option Z := pit_field count pit channel.
Definition pit_get_mode (pit : PITState) (channel : Z) : option Z := pit_field mode pit channel.

(** ** Registers *)

(** The body of the read-back loop for one selected channel *)
Definition read_back_channel (val now : Z) (s : PITChannelState) : option PITChannelState :=
  s ← (if c_true (Z.land val 0x20) then Some s else pit_latch_count s now);
  if negb (c_true (Z.land val 0x10)) && negb (c_true s.(status_latched)) then
    out ← pit_get_out1 s now;
    Some (set_status_latched 1
            (set_status (wrap 8 (Z.lor (Z.lor (Z.lor (Z.shiftl out 7) (Z.shiftl s.(rw_mode) 4))
                                          (Z.shiftl s.(mode) 1)) s.(bcd))) s))
  else Some s.

(** [for(channel = 0; channel < 3; channel++)] *)
Fixpoint read_back_loop (n : nat) (channel : Z) (pit : PITState) (val now : Z)
  : option PITState :=
  match n with
  | O => Some pit
  | S n =>
      pit ← (if c_true (Z.land val (Z.shiftl 2 channel))
             then on_channel pit channel (read_back_channel val now)
             else Some pit);
      read_back_loop n (channel + 1) pit val now
  end.

(** The control word for one channel *)
Definition control_word (val now : Z) (s : PITChannelState) : option PITChannelState :=
  let access := Z.land (Z.shiftr val 4) 3 in
  if access =? 0 then pit_latch_count s now
  else
    let s := set_rw_mode access s in
    let s := set_read_state access s in
    let s := set_write_state access s in
    Some (set_bcd (Z.land val 1) (set_mode (Z.land (Z.shiftr val 1) 7) s)).

(** A write to a counter *)
Definition write_counter (val now : Z) (s : PITChannelState) : option PITChannelState :=
  if s.(write_state) =? RW_STATE_MSB then pit_load_count s (Z.shiftl val 8) now
  else if s.(write_state) =? RW_STATE_WORD0 then
    Some (set_write_state RW_STATE_WORD1 (set_write_latch (wrap 8 val) s))
  else if s.(write_state) =? RW_STATE_WORD1 then
    s ← pit_load_count s (Z.lor s.(write_latch) (Z.shiftl val 8)) now;
    Some (set_write_state RW_STATE_WORD0 s)
  else pit_load_count s val now.

(** [val] is the byte written. *)
Definition pit_ioport_write (pit : PITState) (addr val now : Z) : option PITState :=
  let addr := Z.land addr 3 in
  if addr =? 3 then
    let channel := Z.shiftr val 6 in
    if channel =? 3 then read_back_loop 3 0 pit val now
    else on_channel pit channel (control_word val now)
  else on_channel pit addr (write_counter val now).

(** The value read and the channel after it *)
Definition read_counter (now : Z) (s : PITChannelState) : option (Z * PITChannelState) :=
  if c_true s.(status_latched) then Some (s.(status), set_status_latched 0 s)
  else if c_true s.(count_latched) then
    if s.(count_latched) =? RW_STATE_MSB
    then Some (Z.shiftr s.(latched_count) 8, set_count_latched 0 s)
    else if s.(count_latched) =? RW_STATE_WORD0
    then Some (Z.land s.(latched_count) 0xff, set_count_latched RW_STATE_MSB s)
    else Some (Z.land s.(latched_count) 0xff, set_count_latched 0 s)
  else
    count ← pit_get_count s now;
    if s.(read_state) =? RW_STATE_MSB then Some (Z.land (Z.shiftr count 8) 0xff, s)
    else if s.(read_state) =? RW_STATE_WORD0
    then Some (Z.land count 0xff, set_read_state RW_STATE_WORD1 s)
    else if s.(read_state) =? RW_STATE_WORD1
    then Some (Z.land (Z.shiftr count 8) 0xff, set_read_state RW_STATE_WORD0 s)
    else Some (Z.land count 0xff, s).

Definition pit_ioport_read (pit : PITState) (addr now : Z) : option (Z * PITState) :=
  let addr := Z.land addr 3 in
  s ← pit !! Z.to_nat addr;
  '(ret, s) ← read_counter now s;
  Some (ret, <[Z.to_nat addr := s]> pit).

(** ** Reset *)

Fixpoint pit_reset_loop (n : nat) (i : Z) (pit : PITState) (now : Z) : option PITState :=
  match n with
  | O => Some pit
  | S n =>
      pit ← on_channel pit i (fun s =>
              pit_load_count (set_gate (c_bool (negb (i =? 2))) (set_mode 3 s)) 0 now);
      pit_reset_loop n (i + 1) pit now
  end.

Definition pit_reset (pit : PITState) (now : Z) : option PITState := pit_reset_loop 3 0 pit now.

(** The static [pit_state] of the file, zero: no device is at it, since
    [pit_init] creates one of its own, and its timer is NULL.  The two functions
    that the HPET calls work on this variable. *)
Definition pit_state : PITState :=
  let zero := mkChannel 0 0 0 0 0 0 0 0 0 0 0 0 0 0 None [] in [zero; zero; zero].

Definition hpet_pit_disable (static : PITState) : option PITState :=
  on_channel static 0 (fun s =>
    match s.(irq_timer) with
    | None => Some s
    | Some _ => Some (set_irq_timer (Some None) s)
    end).

Definition hpet_pit_enable (static : PITState) (now : Z) : option PITState :=
  on_channel static 0 (fun s => pit_load_count (set_gate 1 (set_mode 3 s)) 0 now).

(** A device fresh from [pit_initfn]: everything zero, and a timer on
    channel 0 *)
Definition pit_initfn : PITState :=
  let zero t := mkChannel 0 0 0 0 0 0 0 0 0 0 0 0 0 0 t [] in
  [zero (Some None); zero None; zero None].

(** ** The register invariant *)

Record channel_wf (s : PITChannelState) : Prop := {
  wf_count : 1 <= s.(count) <= 0x10000;
  wf_latched_count : in_u 16 s.(latched_count);
  wf_count_latched : 0 <= s.(count_latched) <= 3;
  wf_status : in_u 8 s.(status);
  wf_read_state : 0 <= s.(read_state) <= 4;
  wf_write_state : 0 <= s.(write_state) <= 4;
  wf_write_latch : in_u 8 s.(write_latch);
  wf_rw_mode : 0 <= s.(rw_mode) <= 3;
  wf_mode : 0 <= s.(mode) <= 7;
  wf_bcd : 0 <= s.(bcd) <= 1;
  wf_gate : in_u 8 s.(gate)
}.

Definition pit_wf (pit : PITState) : Prop := length pit = 3%nat /\ Forall channel_wf pit.

(** The operations the rest of the emulator calls *)
Inductive pit_op :=
| OpWrite (addr val now : Z)
| OpRead (addr now : Z)
| OpGate (channel val now : Z)
| OpTimer
| OpReset (now : Z)
| OpHpetDisable
| OpHpetEnable (now : Z).

Definition op_valid (op : pit_op) : Prop :=
  match op with
  | OpWrite _ val _ => in_u 8 val
  | OpRead addr _ => Z.land addr 3 <> 3
  | OpGate channel _ _ => 0 <= channel < 3
  | _ => True
  end.

(** What the operations do to the device: those of the HPET do nothing. *)
Definition device_op (pit : PITState) (op : pit_op) : option PITState :=
  match op with
  | OpWrite addr val now => pit_ioport_write pit addr val now
  | OpRead addr now => snd <$> pit_ioport_read pit addr now
  | OpGate channel val now => pit_set_gate pit channel val now
  | OpTimer => on_channel pit 0 pit_irq_timer
  | OpReset now => pit_reset pit now
  | OpHpetDisable | OpHpetEnable _ => Some pit
  end.

(** The static variable and the device *)
Record pits := mkPits { pit_static : PITState; pit_device : PITState }.

Definition pit_run (m : pits) (op : pit_op) : option pits :=
  match op with
  | OpHpetDisable => static ← hpet_pit_disable m.(pit_static); Some (mkPits static m.(pit_device))
  | OpHpetEnable now => static ← hpet_pit_enable m.(pit_static) now; Some (mkPits static m.(pit_device))
  | _ => pit ← device_op m.(pit_device) op; Some (mkPits m.(pit_static) pit)
  end.

Fixpoint pit_run_all (m : pits) (ops : list pit_op) : option pits :=
  match ops with
  | [] => Some m
  | op :: ops => m ← pit_run m op; pit_run_all m ops
  end.

Fixpoint device_run (pit : PITState) (ops : list pit_op) : option PITState :=
  match ops with
  | [] => Some pit
  | op :: ops => pit ← device_op pit op; device_run pit ops
  end.

(** *** Reading the counters never fails *)

Lemma ticks_some (s : PITChannelState) (now : Z) :
  exists d, pit_ticks s now = Some d /\ in_u 64 d.
Proof.
  unfold pit_ticks. rewrite muldiv64_spec.
  - eexists. split; [done |]. apply wrap_in_u. lia.
  - apply wrap_in_u. lia.
  - unfold in_u, PIT_FREQ. lia.
  - unfold get_ticks_per_sec. lia.
Qed.

Lemma c_mod_some (x y : Z) : 0 < y -> c_mod x y = Some (x mod y) /\ 0 <= x mod y < y.
Proof.
  intros Hy. unfold c_mod. destruct (Z.eqb_spec y 0); [lia |]. split; [done |].
  by apply Z.mod_pos_bound.
Qed.

Lemma c_div_some (x y : Z) : 0 < y -> c_div x y = Some (x / y).
Proof. intros Hy. unfold c_div. by destruct (Z.eqb_spec y 0); [lia |]. Qed.

Lemma get_count_some (s : PITChannelState) (now : Z) :
  channel_wf s -> exists c, pit_get_count s now = Some c /\ 0 <= c <= 0x10000.
Proof.
  intros [Hc]. unfold pit_get_count. destruct (ticks_some s now) as (d & -> & Hd).
  cbn [mbind option_bind].
  destruct (_ || _ || _ || _).
  { eexists. split; [done |]. change 0xffff with (Z.ones 16). rewrite Z.land_ones by lia.
    pose proof (Z.mod_pos_bound (wrap 64 (count s - d)) (2 ^ 16) ltac:(lia)). lia. }
  destruct (s.(mode) =? 3).
  - destruct (c_mod_some (wrap 64 (2 * d)) s.(count)) as [-> Hm]; [lia |]. eexists. split; [done |]. lia.
  - destruct (c_mod_some d s.(count)) as [-> Hm]; [lia |]. eexists. split; [done |]. lia.
Qed.

Lemma out_at_some (s : PITChannelState) (d : Z) :
  channel_wf s -> exists b : bool, pit_out_at s d = Some (c_bool b).
Proof.
  intros [Hc]. unfold pit_out_at. destruct (c_mod_some d s.(count)) as [-> _]; [lia |].
  repeat case_match; by eexists.
Qed.

Lemma get_out_some (s : PITChannelState) (now : Z) :
  channel_wf s -> exists b : bool, pit_get_out1 s now = Some (c_bool b).
Proof.
  intros Hwf. unfold pit_get_out1. destruct (ticks_some s now) as (d & -> & _).
  by apply out_at_some.
Qed.

Lemma next_tick_some (s : PITChannelState) (d : Z) :
  channel_wf s -> exists t, next_transition_tick s d = Some t
  /\ forall n, t = Some n -> in_u 64 n.
Proof.
  intros [Hc]. unfold next_transition_tick. rewrite c_div_some by lia. cbn [mbind option_bind].
  repeat case_match; eexists; (split; [reflexivity |]); intros n [= <-];
    first [apply wrap_in_u; lia | unfold in_u; lia].
Qed.

Lemma next_transition_some (s : PITChannelState) (now : Z) :
  channel_wf s -> exists t, pit_get_next_transition_time s now = Some t.
Proof.
  intros Hwf. unfold pit_get_next_transition_time. destruct (ticks_some s now) as (d & -> & _).
  bind_step. destruct (next_tick_some s d Hwf) as ([n |] & -> & Hn); bind_step; [| by eexists].
  rewrite muldiv64_spec;
    [bind_step; by eexists | auto | unfold in_u, get_ticks_per_sec; lia | unfold PIT_FREQ; lia].
Qed.

(** *** Every operation keeps the invariant *)

(** [f] succeeds on well-formed channels and keeps them so. *)
Definition keeps (f : PITChannelState -> option PITChannelState) : Prop :=
  forall s, channel_wf s -> exists s', f s = Some s' /\ channel_wf s'.

Lemma timer_update_wf (s : PITChannelState) (now : Z) :
  channel_wf s -> exists s', pit_irq_timer_update s now = Some s' /\ channel_wf s'.
Proof.
  intros Hwf. unfold pit_irq_timer_update. destruct (irq_timer s); [| by eexists].
  destruct (next_transition_some s now Hwf) as [t ->].
  destruct (get_out_some s now Hwf) as [b ->]. cbn [mbind option_bind].
  eexists. split; [done |]. by destruct Hwf.
Qed.

Lemma load_count_wf (s : PITChannelState) (val now : Z) :
  0 <= val < 0x10000 ->
  (forall c, 1 <= c <= 0x10000 -> channel_wf (set_count c s)) ->
  exists s', pit_load_count s val now = Some s' /\ channel_wf s'.
Proof.
  intros Hv Hwf. unfold pit_load_count. apply timer_update_wf.
  destruct (Hwf (if val =? 0 then 0x10000 else val)) as []; [case_cmp; lia |]. by split.
Qed.

Lemma wf_set_count (s : PITChannelState) :
  channel_wf s -> forall c, 1 <= c <= 0x10000 -> channel_wf (set_count c s).
Proof. intros [] c Hc. by split. Qed.

Lemma latch_count_wf (now : Z) : keeps (fun s => pit_latch_count s now).
Proof.
  intros s Hwf. unfold pit_latch_count. destruct (c_true _); [by eexists |].
  destruct (get_count_some s now Hwf) as (c & -> & _). cbn [mbind option_bind].
  eexists. split; [done |]. destruct Hwf. split; try done. cbn. apply wrap_in_u. lia.
Qed.

Lemma set_gate_wf (val now : Z) : keeps (set_gate_channel val now).
Proof.
  intros s Hwf. unfold set_gate_channel.
  assert (exists s', (if ((mode s =? 1) || (mode s =? 5) || (mode s =? 2) || (mode s =? 3))
      && (gate s <? val)
    then pit_irq_timer_update (set_count_load_time now s) (count_load_time (set_count_load_time now s))
    else Some s) = Some s' /\ channel_wf s') as (s' & -> & Hwf').
  { destruct (_ && _); [| by eexists]. apply timer_update_wf. by destruct Hwf. }
  cbn [mbind option_bind]. eexists. split; [done |]. destruct Hwf'. split; try done.
  cbn. apply wrap_in_u. lia.
Qed.

Lemma read_back_wf (val now : Z) : keeps (read_back_channel val now).
Proof.
  intros s Hwf. unfold read_back_channel.
  assert (exists s', (if c_true (Z.land val 0x20) then Some s else pit_latch_count s now) = Some s'
    /\ channel_wf s') as (s' & -> & Hwf').
  { destruct (c_true _); [by eexists |]. by apply latch_count_wf. }
  cbn [mbind option_bind]. destruct (_ && _); [| by eexists].
  destruct (get_out_some s' now Hwf') as [b ->]. cbn [mbind option_bind].
  eexists. split; [done |]. destruct Hwf'. split; try done. cbn. apply wrap_in_u. lia.
Qed.

Lemma land3 (x : Z) : 0 <= Z.land x 3 < 4.
Proof. change 3 with (Z.ones 2). rewrite Z.land_ones by lia. apply Z.mod_pos_bound. lia. Qed.

Lemma control_word_wf (val now : Z) : keeps (control_word val now).
Proof.
  intros s Hwf. unfold control_word.
  destruct (Z.eqb_spec (Z.land (Z.shiftr val 4) 3) 0); [by apply latch_count_wf |].
  eexists. split; [done |]. pose proof (land3 (Z.shiftr val 4)). destruct Hwf.
  split; try done; cbn; try lia.
  - rewrite land_7. pose proof (Z.mod_pos_bound (Z.shiftr val 1) 8 ltac:(lia)). lia.
  - rewrite land_1. pose proof (Z.mod_pos_bound val 2 ltac:(lia)). lia.
Qed.

Lemma lor_shift8 (lo hi : Z) :
  in_u 8 lo -> Z.lor lo (Z.shiftl hi 8) = lo + hi * 2 ^ 8.
Proof. intros Hlo. rewrite Z.lor_comm, lor_shiftl_add by (done || lia). lia. Qed.

Lemma write_counter_wf (val now : Z) : in_u 8 val -> keeps (write_counter val now).
Proof.
  intros Hval s Hwf. pose proof (wf_set_count s Hwf) as Hset. unfold in_u in Hval.
  unfold write_counter. destruct (s.(write_state) =? RW_STATE_MSB).
  { apply load_count_wf; [rewrite Z.shiftl_mul_pow2 by lia; lia | done]. }
  destruct (s.(write_state) =? RW_STATE_WORD0).
  { eexists. split; [done |]. destruct Hwf. split; try done. cbn. apply wrap_in_u. lia. }
  destruct (s.(write_state) =? RW_STATE_WORD1); [| apply load_count_wf; [lia | done]].
  pose proof (wf_write_latch s Hwf) as Hlatch. unfold in_u in Hlatch.
  destruct (load_count_wf s (Z.lor s.(write_latch) (Z.shiftl val 8)) now) as (s' & -> & Hwf').
  { rewrite lor_shift8 by done. lia. }
  { done. }
  cbn [mbind option_bind]. eexists. split; [done |]. destruct Hwf'. by split.
Qed.

Lemma read_counter_wf (now : Z) (s : PITChannelState) :
  channel_wf s -> exists v s', read_counter now s = Some (v, s') /\ channel_wf s' /\ in_u 8 v.
Proof.
  intros Hwf. unfold read_counter. destruct (get_count_some s now Hwf) as (c & -> & Hc).
  pose proof (wf_latched_count s Hwf) as Hlc. unfold in_u in Hlc.
  assert (forall x, in_u 8 (Z.land x 0xff)) as Hbyte.
  { intros x. change 0xff with (Z.ones 8). rewrite Z.land_ones by lia. apply wrap_in_u. lia. }
  assert (in_u 8 (Z.shiftr s.(latched_count) 8)) as Hhi.
  { rewrite Z.shiftr_div_pow2 by lia. unfold in_u.
    split; [apply Z.div_pos | apply Z.div_lt_upper_bound]; lia. }
  assert (in_u 8 s.(status)) as Hst by apply Hwf.
  cbn [mbind option_bind]. repeat case_match; eexists _, _; (split; [done |]); (split; [| done || auto]);
    destruct Hwf; split; try done; cbn; unfold RW_STATE_MSB; lia.
Qed.

Lemma on_channel_wf (pit : PITState) (channel : Z) (f : PITChannelState -> option PITChannelState) :
  keeps f -> pit_wf pit -> 0 <= channel < 3 ->
  exists pit', on_channel pit channel f = Some pit' /\ pit_wf pit'.
Proof.
  intros Hf [Hlen Hall] Hc. unfold on_channel. destruct (Z.ltb_spec channel 0); [lia |].
  destruct (lookup_lt_is_Some_2 pit (Z.to_nat channel)) as [s Hs]; [lia |]. rewrite Hs.
  cbn [mbind option_bind]. destruct (Hf s) as (s' & -> & Hwf'); [by eapply Forall_lookup_1 in Hall |].
  cbn [mbind option_bind]. eexists. split; [done |]. split; [by rewrite length_insert |].
  by apply Forall_insert.
Qed.

Lemma read_back_loop_wf (n : nat) (val now : Z) : forall channel pit,
  pit_wf pit -> 0 <= channel -> channel + Z.of_nat n <= 3 ->
  exists pit', read_back_loop n channel pit val now = Some pit' /\ pit_wf pit'.
Proof.
  induction n as [| n IH]; intros channel pit Hwf Hc Hn; cbn [read_back_loop]; [by eexists |].
  assert (exists pit', (if c_true (Z.land val (Z.shiftl 2 channel))
    then on_channel pit channel (read_back_channel val now) else Some pit) = Some pit'
    /\ pit_wf pit') as (pit' & -> & Hwf').
  { destruct (c_true _); [| by eexists]. apply on_channel_wf; [apply read_back_wf | done | lia]. }
  apply IH; [done | lia | lia].
Qed.

Lemma reset_channel_wf (g now : Z) (s : PITChannelState) :
  in_u 8 g -> (forall c, 1 <= c <= 0x10000 -> channel_wf (set_count c s)) ->
  exists s', pit_load_count (set_gate g (set_mode 3 s)) 0 now = Some s' /\ channel_wf s'.
Proof.
  intros Hg Hwf. apply load_count_wf; [lia |]. intros c Hc. destruct (Hwf c Hc).
  split; try done.
Qed.

Lemma reset_loop_wf (n : nat) (now : Z) : forall i pit,
  pit_wf pit -> 0 <= i -> i + Z.of_nat n <= 3 ->
  exists pit', pit_reset_loop n i pit now = Some pit' /\ pit_wf pit'.
Proof.
  induction n as [| n IH]; intros i pit Hwf Hi Hn; cbn [pit_reset_loop]; [by eexists |].
  edestruct (on_channel_wf pit i) as (pit' & -> & Hwf'); [| done | lia | apply IH; [done | lia | lia]].
  intros s Hs. apply reset_channel_wf; [destruct (i =? 2); unfold in_u; cbn; lia |].
  by apply wf_set_count.
Qed.

Lemma device_op_wf (pit : PITState) (op : pit_op) :
  pit_wf pit -> op_valid op -> exists pit', device_op pit op = Some pit' /\ pit_wf pit'.
Proof.
  intros Hwf Hop. destruct op as [addr val now | addr now | channel val now | | now | | now]; cbn [device_op].
  - cbn in Hop. unfold pit_ioport_write. pose proof (land3 addr).
    destruct (Z.eqb_spec (Z.land addr 3) 3);
      [| apply on_channel_wf; [by apply write_counter_wf | done | lia]].
    assert (0 <= Z.shiftr val 6 < 4) as Hsh.
    { unfold in_u in Hop. rewrite Z.shiftr_div_pow2 by lia.
      split; [apply Z.div_pos | apply Z.div_lt_upper_bound]; lia. }
    destruct (Z.eqb_spec (Z.shiftr val 6) 3); [apply read_back_loop_wf; [done | lia | lia] |].
    apply on_channel_wf; [apply control_word_wf | done | lia].
  - cbn in Hop. unfold pit_ioport_read. pose proof (land3 addr). destruct Hwf as [Hlen Hall].
    destruct (lookup_lt_is_Some_2 pit (Z.to_nat (Z.land addr 3))) as [s Hs]; [lia |]. rewrite Hs.
    cbn [mbind option_bind].
    destruct (read_counter_wf now s) as (v & s' & -> & Hwf' & _); [by eapply Forall_lookup_1 in Hall |].
    exists (<[Z.to_nat (Z.land addr 3) := s']> pit). split; [done |].
    split; [by rewrite length_insert | by apply Forall_insert].
  - cbn in Hop. apply on_channel_wf; [apply set_gate_wf | done | lia].
  - apply on_channel_wf; [| done | lia]. intros s Hs. by apply timer_update_wf.
  - apply reset_loop_wf; [done | lia | lia].
  - by exists pit.
  - by exists pit.
Qed.

(** Nothing is at the static variable: its timer stays NULL. *)
Definition static_ok (static : PITState) : Prop := exists s, static !! 0%nat = Some s /\ s.(irq_timer) = None.

Lemma static_update (static : PITState) f :
  static_ok static -> (forall s, s.(irq_timer) = None -> exists s', f s = Some s' /\ s'.(irq_timer) = None) ->
  exists static', on_channel static 0 f = Some static' /\ static_ok static'.
Proof.
  intros (s & Hs & Ht) Hf. destruct (Hf s Ht) as (s' & Hs' & Ht'). unfold on_channel. change (Z.to_nat 0) with 0%nat.
  cbn [Z.ltb Z.compare]. rewrite Hs. cbn [mbind option_bind]. rewrite Hs'. cbn [mbind option_bind]. eexists. split; [done |]. exists s'.
  split; [| done]. apply list_lookup_insert_eq. by eapply lookup_lt_Some.
Qed.

Lemma pit_run_wf (m : pits) (op : pit_op) :
  static_ok m.(pit_static) -> pit_wf m.(pit_device) -> op_valid op ->
  exists static pit, pit_run m op = Some (mkPits static pit) /\ static_ok static /\
    device_op m.(pit_device) op = Some pit /\ pit_wf pit.
Proof.
  intros Hst Hwf Hop. destruct (device_op_wf m.(pit_device) op Hwf Hop) as (pit & Hpit & Hwf').
  assert (Hdis : exists static, hpet_pit_disable m.(pit_static) = Some static /\ static_ok static).
  { apply static_update; [done |]. intros s Hs. rewrite Hs. by exists s. }
  assert (Hen : forall now, exists static, hpet_pit_enable m.(pit_static) now = Some static /\ static_ok static).
  { intros now. apply static_update; [done |]. intros s Hs. unfold pit_load_count, pit_irq_timer_update.
    cbn [irq_timer set_count set_count_load_time set_gate set_mode]. rewrite Hs. eexists. by split. }
  destruct op; cbn [pit_run]; try (rewrite Hpit; by exists m.(pit_static), pit).
  - destruct Hdis as (static & -> & Hok). by exists static, pit; injection Hpit as ->.
  - destruct (Hen now) as (static & -> & Hok). by exists static, pit; injection Hpit as ->.
Qed.

Lemma pit_run_all_wf (ops : list pit_op) : forall m,
  static_ok m.(pit_static) -> pit_wf m.(pit_device) -> Forall op_valid ops ->
  exists static pit, pit_run_all m ops = Some (mkPits static pit) /\
    device_run m.(pit_device) ops = Some pit /\ pit_wf pit.
Proof.
  induction ops as [| op ops IH]; intros m Hst Hwf Hops; cbn [pit_run_all device_run].
  { exists m.(pit_static), m.(pit_device). by destruct m. }
  apply Forall_cons_1 in Hops as [Hop Hops].
  destruct (pit_run_wf m op Hst Hwf Hop) as (static & pit & -> & Hst' & -> & Hwf'). by apply IH.
Qed.

Lemma reset_loop_step (n : nat) (i : Z) (pit : PITState) (now : Z) (s s' : PITChannelState) :
  0 <= i -> pit !! Z.to_nat i = Some s ->
  pit_load_count (set_gate (c_bool (negb (i =? 2))) (set_mode 3 s)) 0 now = Some s' ->
  pit_reset_loop (S n) i pit now = pit_reset_loop n (i + 1) (<[Z.to_nat i := s']> pit) now.
Proof.
  intros Hc Hs Hf. cbn [pit_reset_loop]. unfold on_channel. destruct (Z.ltb_spec i 0); [lia |].
  rewrite Hs. cbn [mbind option_bind]. by rewrite Hf.
Qed.

Lemma reset_init_wf (now : Z) : exists pit, pit_reset pit_initfn now = Some pit /\ pit_wf pit.
Proof.
  assert (forall t, exists s',
    pit_load_count (set_gate 1 (set_mode 3 (mkChannel 0 0 0 0 0 0 0 0 0 0 0 0 0 0 t []))) 0 now
      = Some s' /\ channel_wf s') as Hch.
  { intros t. apply reset_channel_wf; [unfold in_u; lia |]. intros c Hc.
    split; cbn; unfold in_u; lia. }
  assert (exists s',
    pit_load_count (set_gate 0 (set_mode 3 (mkChannel 0 0 0 0 0 0 0 0 0 0 0 0 0 0 None []))) 0 now
      = Some s' /\ channel_wf s') as (s2 & Hs2 & Hwf2).
  { apply reset_channel_wf; [unfold in_u; lia |]. intros c Hc. split; cbn; unfold in_u; lia. }
  destruct (Hch (Some None)) as (s0 & Hs0 & Hwf0). destruct (Hch None) as (s1 & Hs1 & Hwf1).
  exists [s0; s1; s2]. split.
  2: { split; [done |]. do 2 (apply Forall_cons_2; [done |]). by apply Forall_singleton. }
  unfold pit_reset, pit_initfn.
  erewrite reset_loop_step; [| lia | reflexivity | exact Hs0].
  erewrite reset_loop_step; [| lia | reflexivity | exact Hs1].
  erewrite reset_loop_step; [| lia | reflexivity | exact Hs2]. reflexivity.
Qed.

(** ** Transitions of the output *)

(** In every mode but 2, the computed tick is the next one at which the
    output changes, and "none" means that it never changes again. *)
Definition exact_transition (s : PITChannelState) (d : Z) (t : option Z) : Prop :=
  match t with
  | None => forall d', d <= d' -> pit_out_at s d' = pit_out_at s d
  | Some n =>
      d < n /\ (forall d', d <= d' < n -> pit_out_at s d' = pit_out_at s d)
      /\ pit_out_at s n <> pit_out_at s d
  end.

Lemma out_square (s : PITChannelState) (d : Z) :
  s.(mode) = 3 -> 0 < s.(count) ->
  pit_out_at s d = Some (c_bool (d mod s.(count) <? (s.(count) + 1) / 2)).
Proof.
  intros Hm Hc. unfold pit_out_at. rewrite Hm. cbn [Z.eqb Pos.eqb].
  destruct (c_mod_some d s.(count) Hc) as [-> _]. cbn [mbind option_bind].
  by rewrite Z.shiftr_div_pow2 by lia.
Qed.

Lemma next_tick_square (s : PITChannelState) (d : Z) :
  s.(mode) = 3 -> 1 < s.(count) <= 0x10000 -> 0 <= d < 2 ^ 62 ->
  exists n, next_transition_tick s d = Some (Some n) /\ exact_transition s d (Some n).
Proof.
  intros Hm Hc Hd. unfold next_transition_tick. rewrite Hm. cbn [Z.eqb Pos.eqb].
  rewrite c_div_some by lia. cbn [mbind option_bind]. rewrite Z.shiftr_div_pow2 by lia.
  change (2 ^ 1) with 2. set (c := s.(count)) in *. set (p := (c + 1) / 2).
  assert (c + 1 = 2 * p + (c + 1) mod 2) as Hp by (apply Z.div_mod; lia).
  pose proof (Z.mod_pos_bound (c + 1) 2 ltac:(lia)) as Hp2.
  pose proof (Z.div_mod d c ltac:(lia)) as Hdm. pose proof (Z.mod_pos_bound d c ltac:(lia)) as Hr.
  set (q := d / c) in *. set (r := d mod c) in *.
  assert (0 <= q) by (apply Z.div_pos; lia).
  assert (0 <= q * c <= d) by (split; [apply Z.mul_nonneg_nonneg |]; lia).
  assert (wrap 64 (q * c) = q * c) as -> by (unfold wrap; apply Z.mod_small; lia).
  assert (wrap 64 (d - q * c) = r) as -> by (unfold wrap; rewrite Z.mod_small; lia).
  assert (forall k, 0 <= k < c -> pit_out_at s (q * c + k) = Some (c_bool (k <? p))) as Hout.
  { intros k Hk. rewrite out_square by (done || lia). fold c p.
    by rewrite Z.add_comm, Z_mod_plus_full, Z.mod_small by lia. }
  assert (pit_out_at s d = Some (c_bool (r <? p))) as Houtd
    by (replace d with (q * c + r) at 1 by lia; apply Hout; lia).
  destruct (Z.ltb_spec r p).
  - eexists. split; [reflexivity |]. unfold wrap. rewrite Z.mod_small by lia. split_and!; [lia | |].
    + intros d' Hd'. replace d' with (q * c + (d' - q * c)) by lia.
      rewrite Hout, Houtd by lia. destruct (Z.ltb_spec (d' - q * c) p); [done | lia].
    + rewrite Hout, Houtd by lia. by rewrite Z.ltb_irrefl.
  - eexists. split; [reflexivity |]. unfold wrap. rewrite Z.mod_small by lia. split_and!; [lia | |].
    + intros d' Hd'. replace d' with (q * c + (d' - q * c)) by lia.
      rewrite Hout, Houtd by lia. destruct (Z.ltb_spec (d' - q * c) p); [lia | done].
    + rewrite out_square, Houtd by (done || lia). fold c p.
      replace (q * c + c) with (0 + (q + 1) * c) by lia.
      rewrite Z_mod_plus_full, Z.mod_small by lia. by destruct (Z.ltb_spec 0 p); [| lia].
Qed.

Lemma next_tick_exact (s : PITChannelState) (d : Z) :
  channel_wf s -> s.(mode) <> 2 -> 1 < s.(count) -> 0 <= d < 2 ^ 62 ->
  exists t, next_transition_tick s d = Some t /\ exact_transition s d t.
Proof.
  intros [Hc] Hm Hc1 Hd. destruct (Z.eq_dec s.(mode) 3) as [H3 |].
  { destruct (next_tick_square s d H3) as (n & Hn & Hex); [lia | lia |]. by exists (Some n). }
  unfold next_transition_tick, exact_transition, pit_out_at.
  destruct (Z.eqb_spec s.(mode) 2); [done |]. destruct (Z.eqb_spec s.(mode) 3); [done |].
  destruct ((s.(mode) =? 4) || (s.(mode) =? 5)) eqn:H45.
  - assert ((s.(mode) =? 1) = false) as ->
      by (rewrite orb_true_iff, !Z.eqb_eq in H45; apply Z.eqb_neq; lia).
    destruct (Z.ltb_spec d s.(count)); [| destruct (Z.eqb_spec d s.(count))];
      (eexists; split; [reflexivity |]); cbn beta iota.
    + split_and!; [lia | |]; [intros d' Hd'; case_cmp; lia || done |]. case_cmp; lia || done.
    + split_and!; [lia | |]; [intros d' Hd'; case_cmp; lia || done |]. case_cmp; lia || done.
    + intros d' Hd'. case_cmp; lia || done.
  - destruct (Z.ltb_spec d s.(count)); (eexists; split; [reflexivity |]); cbn beta iota.
    + split_and!; [lia | |]; [intros d' Hd' |]; destruct (s.(mode) =? 1); case_cmp; lia || done.
    + intros d' Hd'. destruct (s.(mode) =? 1); case_cmp; lia || done.
Qed.

(** ** Transition times *)

Lemma next_tick_le (s : PITChannelState) (d n : Z) :
  channel_wf s -> 0 <= d < 2 ^ 62 -> next_transition_tick s d = Some (Some n) ->
  0 <= n <= d + 0x10001.
Proof.
  intros [Hc] Hd. unfold next_transition_tick. rewrite c_div_some by lia. cbn [mbind option_bind].
  pose proof (Z.div_mod d s.(count) ltac:(lia)) as Hdm.
  pose proof (Z.mod_pos_bound d s.(count) ltac:(lia)) as Hr.
  assert (0 <= d / s.(count)) by (apply Z.div_pos; lia).
  assert (0 <= d / s.(count) * s.(count) <= d) by (split; [apply Z.mul_nonneg_nonneg |]; lia).
  assert (0 <= Z.shiftr (s.(count) + 1) 1 <= 0x10000).
  { rewrite Z.shiftr_div_pow2 by lia. split; [apply Z.div_pos; lia |].
    apply Z.div_le_upper_bound; lia. }
  assert (forall x, 0 <= x < 2 ^ 64 -> wrap 64 x = x) as Hw by (intros; unfold wrap; by apply Z.mod_small).
  rewrite (Hw (d / s.(count) * s.(count))) by lia. rewrite !Hw by lia.
  repeat case_match; intros [= <-]; lia.
Qed.

(** The conversion from ticks to nanoseconds, and back *)
Lemma ticks_value (s : PITChannelState) (t : Z) :
  0 <= s.(count_load_time) <= t -> t < 2 ^ 62 ->
  pit_ticks s t = Some ((t - s.(count_load_time)) * PIT_FREQ / get_ticks_per_sec)
  /\ 0 <= (t - s.(count_load_time)) * PIT_FREQ / get_ticks_per_sec < 2 ^ 62.
Proof.
  intros Hl Ht. unfold PIT_FREQ, get_ticks_per_sec.
  assert (0 <= (t - s.(count_load_time)) * 1193182 / 1000000000 < 2 ^ 62) as Hb
    by (split; [apply Z.div_pos | apply Z.div_lt_upper_bound]; lia).
  split; [| done]. unfold pit_ticks, PIT_FREQ, get_ticks_per_sec.
  assert (wrap 64 (t - s.(count_load_time)) = t - s.(count_load_time)) as ->
    by (unfold wrap; apply Z.mod_small; lia).
  rewrite muldiv64_spec by (unfold in_u; lia). f_equal. unfold wrap. apply Z.mod_small. lia.
Qed.

(** 65537 ticks in nanoseconds, rounded up *)
Definition MAX_DELAY : Z := 54926240.

Lemma next_transition_bounds (s : PITChannelState) (t : Z) :
  channel_wf s -> 0 <= s.(count_load_time) <= t -> t < 2 ^ 62 ->
  exists d tick n, pit_ticks s t = Some d /\ next_transition_tick s d = Some tick /\
    pit_get_next_transition_time s t = Some n /\
    (if tick is Some _ then t < n <= t + MAX_DELAY else n = -1).
Proof.
  intros Hwf Hl Ht. unfold pit_get_next_transition_time.
  destruct (ticks_value s t Hl Ht) as [-> Hd]. bind_step.
  set (d := (t - s.(count_load_time)) * PIT_FREQ / get_ticks_per_sec) in *.
  destruct (next_tick_some s d Hwf) as ([n |] & Hn & Hnu); rewrite Hn; bind_step;
    [exists d, (Some n) | by exists d, None, (-1)].
  pose proof (next_tick_le s d n Hwf Hd Hn) as Hle.
  rewrite muldiv64_spec by (auto || unfold in_u, get_ticks_per_sec, PIT_FREQ; lia).
  bind_step.
  assert (0 <= n * get_ticks_per_sec / PIT_FREQ <= t - s.(count_load_time) + MAX_DELAY) as Hq.
  { assert (d * get_ticks_per_sec <= (t - s.(count_load_time)) * PIT_FREQ)
      by (subst d; rewrite Z.mul_comm; apply Z.mul_div_le; unfold get_ticks_per_sec; lia).
    unfold get_ticks_per_sec, PIT_FREQ, MAX_DELAY in *.
    split; [apply Z.div_pos; lia | apply Z.div_le_upper_bound; lia]. }
  set (q := n * get_ticks_per_sec / PIT_FREQ) in *. unfold MAX_DELAY in *.
  assert (forall x, 0 <= x < 2 ^ 63 -> wrap 64 x = x /\ to_signed 64 x = x) as Hw.
  { intros x Hx. assert (wrap 64 x = x) as Hwx by (unfold wrap; apply Z.mod_small; lia).
    split; [done |]. unfold to_signed. rewrite Hwx. change (64 - 1) with 63.
    destruct (Z.ltb_spec x (2 ^ 63)); [done | lia]. }
  destruct (Hw q) as [-> _]; [lia |]. destruct (Hw (s.(count_load_time) + q)) as [-> Hs1]; [lia |].
  destruct (Hw t) as [-> _]; [lia |]. destruct (Hw (t + 1)) as [-> Hs2]; [lia |].
  eexists. split; [done |]. split; [done |]. split; [reflexivity |].
  destruct (Z.leb_spec (s.(count_load_time) + q) t); [rewrite Hs2 | rewrite Hs1]; lia.
Qed.

(** A channel whose output is high has a next transition, except in mode 0 (and
    in the two unused modes that are treated like it), where it stays high. *)
Lemma high_output_changes (s : PITChannelState) (d : Z) (tick : option Z) :
  channel_wf s -> pit_out_at s d = Some 1 -> next_transition_tick s d = Some tick ->
  is_Some tick <-> 1 <= s.(mode) <= 5.
Proof.
  intros Hwf. pose proof (wf_mode s Hwf) as Hm. pose proof (wf_count s Hwf) as Hc.
  unfold pit_out_at, next_transition_tick, c_mod, c_div. rewrite (proj2 (Z.eqb_neq s.(count) 0)) by lia.
  cbn [mbind option_bind].
  assert (s.(mode) = 0 \/ s.(mode) = 1 \/ s.(mode) = 2 \/ s.(mode) = 3 \/ s.(mode) = 4 \/ s.(mode) = 5 \/
          s.(mode) = 6 \/ s.(mode) = 7) as [-> | [-> | [-> | [-> | [-> | [-> | [-> | ->]]]]]]] by lia;
    cbn [Z.eqb Pos.eqb orb]; intros Hout; injection Hout as Hout; intros [= <-].
  - destruct (Z.leb_spec s.(count) d); [| done]. rewrite (proj2 (Z.ltb_ge _ _)) by lia. split; [by intros [] | lia].
  - destruct (Z.ltb_spec d s.(count)); [| done]. split; [lia | by eexists].
  - split; [lia | by eexists].
  - split; [lia | by eexists].
  - destruct (Z.eqb_spec d s.(count)); [| done]. rewrite (proj2 (Z.ltb_ge _ _)) by lia. split; [lia | by eexists].
  - destruct (Z.eqb_spec d s.(count)); [| done]. rewrite (proj2 (Z.ltb_ge _ _)) by lia. split; [lia | by eexists].
  - destruct (Z.leb_spec s.(count) d); [| done]. rewrite (proj2 (Z.ltb_ge _ _)) by lia. split; [by intros [] | lia].
  - destruct (Z.leb_spec s.(count) d); [| done]. rewrite (proj2 (Z.ltb_ge _ _)) by lia. split; [by intros [] | lia].
Qed.

(** ** Properties *)

(** C36: After reset, any sequence of register accesses, gate changes, timer
    expiries, resets and HPET hand-overs runs without undefined behaviour
    (no division by a zero count), and keeps the count of every channel of the
    device in 1..65536 and every register within its width.  The hand-overs work
    on the static variable, where no device is: the device ends as if they had
    not happened. *)
Theorem pit_operations_total (now : Z) (ops : list pit_op) :
  Forall op_valid ops ->
  exists pit static pit', pit_reset pit_initfn now = Some pit
  /\ pit_run_all (mkPits pit_state pit) ops = Some (mkPits static pit') /\ pit_wf pit'
  /\ device_run pit ops = Some pit'.
Proof.
  intros Hops. destruct (reset_init_wf now) as (pit & Hreset & Hwf).
  destruct (pit_run_all_wf ops (mkPits pit_state pit)) as (static & pit' & Hrun & Hdev & Hwf');
    [by eexists | done | done |]. by exists pit, static, pit'.
Qed.

Lemma pit_operations_total_witness :
  exists pit static pit', pit_reset pit_initfn 5 = Some pit
  /\ pit_run_all (mkPits pit_state pit)
       [OpWrite 0x43 0x34 100; OpWrite 0x40 0x9c 200; OpHpetDisable; OpWrite 0x40 0x2e 300;
        OpTimer; OpRead 0x40 9000; OpGate 2 1 9500; OpHpetEnable 9600] = Some (mkPits static pit') /\ pit_wf pit'
  /\ device_run pit
       [OpWrite 0x43 0x34 100; OpWrite 0x40 0x9c 200; OpHpetDisable; OpWrite 0x40 0x2e 300;
        OpTimer; OpRead 0x40 9000; OpGate 2 1 9500; OpHpetEnable 9600] = Some pit'.
Proof.
  apply pit_operations_total.
  repeat (apply Forall_cons_2); [.. | constructor]; cbn [op_valid]; unfold in_u; first [lia | discriminate | exact I].
Defined.

(** When the HPET takes over, the timer of the device stays armed: the guest
    still gets its interrupts. *)
Lemma hpet_leaves_timer_armed :
  (pit ← pit_reset pit_initfn 5;
   m ← pit_run_all (mkPits pit_state pit) [OpHpetDisable];
   s ← m.(pit_device) !! 0%nat; s.(irq_timer)) =
  (pit ← pit_reset pit_initfn 5; s ← pit !! 0%nat; s.(irq_timer)) /\
  (pit ← pit_reset pit_initfn 5; s ← pit !! 0%nat; s.(irq_timer)) = Some (Some 27462705).
Proof. split; vm_compute; reflexivity. Qed.

(** In every mode but 2, [pit_get_next_transition_time] computes the
    first tick at which [pit_get_out1] changes, and returns -1 exactly when
    the output never changes again. *)
Theorem pit_next_transition_exact (s : PITChannelState) (d : Z) :
  channel_wf s -> s.(mode) <> 2 -> 1 < s.(count) -> 0 <= d < 2 ^ 62 ->
  exists t, next_transition_tick s d = Some t /\ exact_transition s d t.
Proof. apply next_tick_exact. Qed.

(** A channel in square-wave mode with an odd count *)
Definition sample_channel : PITChannelState :=
  mkChannel 7 0 0 0 0 3 3 0 3 3 0 1 1000 0 (Some None) [].

Lemma sample_channel_wf : channel_wf sample_channel.
Proof. split; cbn; unfold in_u; lia. Qed.

Lemma pit_next_transition_exact_witness :
  exists t, next_transition_tick sample_channel 10 = Some t /\ exact_transition sample_channel 10 t.
Proof. apply pit_next_transition_exact; [apply sample_channel_wf | cbn; lia..]. Defined.

(** The interrupt timer is always armed for a time after the current one
    and at most 55 ms later, so the timer neither stalls nor fires in the
    past, in every mode. *)
Theorem pit_timer_progress (s : PITChannelState) (t : Z) :
  channel_wf s -> 0 <= s.(count_load_time) <= t -> t < 2 ^ 62 ->
  exists n, pit_get_next_transition_time s t = Some n
  /\ (n = -1 \/ t < n <= t + MAX_DELAY).
Proof.
  intros Hwf Hl Ht. destruct (next_transition_bounds s t Hwf Hl Ht) as (d & [k |] & n & _ & _ & E & Hn);
    exists n; (split; [done |]); [by right | by left].
Qed.

Lemma pit_timer_progress_witness :
  exists n, pit_get_next_transition_time sample_channel 5000 = Some n
  /\ (n = -1 \/ 5000 < n <= 5000 + MAX_DELAY).
Proof. apply pit_timer_progress; [apply sample_channel_wf | cbn; lia | lia]. Defined.

Lemma read_channel (pit : PITState) (ch now : Z) (s s' : PITChannelState) (v : Z) :
  0 <= ch < 3 -> pit !! Z.to_nat ch = Some s -> read_counter now s = Some (v, s') ->
  pit_ioport_read pit ch now = Some (v, <[Z.to_nat ch := s']> pit).
Proof.
  intros Hc Hs Hr. unfold pit_ioport_read.
  assert (Z.land ch 3 = ch) as -> by (change 3 with (Z.ones 2); rewrite Z.land_ones, Z.mod_small; lia).
  rewrite Hs. cbn [mbind option_bind]. by rewrite Hr.
Qed.

(** The latched channel, read twice *)
Lemma read_latched_word (s : PITChannelState) (t1 t2 : Z) :
  s.(status_latched) = 0 -> s.(count_latched) = RW_STATE_WORD0 ->
  exists s1 s2, read_counter t1 s = Some (Z.land s.(latched_count) 0xff, s1)
  /\ read_counter t2 s1 = Some (Z.shiftr s.(latched_count) 8, s2)
  /\ s2.(count_latched) = 0.
Proof.
  intros Hst Hcl. exists (set_count_latched RW_STATE_MSB s), (set_count_latched 0 s).
  unfold read_counter. cbn [status_latched count_latched latched_count set_count_latched].
  rewrite Hst, Hcl. by split_and!.
Qed.

Lemma latch_write (pit : PITState) (ch now c : Z) (s : PITChannelState) :
  0 <= ch < 3 -> pit !! Z.to_nat ch = Some s -> s.(count_latched) = 0 ->
  pit_get_count s now = Some c ->
  pit_ioport_write pit 3 (Z.shiftl ch 6) now =
    Some (<[Z.to_nat ch := set_count_latched s.(rw_mode) (set_latched_count (wrap 16 c) s)]> pit).
Proof.
  intros Hch Hs Hcl Hc. assert (ch = 0 \/ ch = 1 \/ ch = 2) as Hcases by lia.
  assert (pit_ioport_write pit 3 (Z.shiftl ch 6) now =
          on_channel pit ch (fun s => pit_latch_count s now)) as ->
    by (destruct Hcases as [-> | [-> | ->]]; reflexivity).
  unfold on_channel. destruct (Z.ltb_spec ch 0); [lia |]. rewrite Hs. cbn [mbind option_bind].
  unfold pit_latch_count. rewrite Hcl, Hc. done.
Qed.

(** A counter latch command on a channel in 16-bit access mode freezes
    the count: the next two reads return its low and its high byte as they
    were at the time of the command, however late they come, and release the
    latch. *)
Theorem pit_latch_round_trip (pit : PITState) (ch now t1 t2 c : Z) (s : PITChannelState) :
  0 <= ch < 3 -> pit !! Z.to_nat ch = Some s ->
  s.(rw_mode) = RW_STATE_WORD0 -> s.(count_latched) = 0 -> s.(status_latched) = 0 ->
  pit_get_count s now = Some c ->
  exists pit1 pit2 pit3 lo hi,
    pit_ioport_write pit 3 (Z.shiftl ch 6) now = Some pit1
    /\ pit_ioport_read pit1 ch t1 = Some (lo, pit2)
    /\ pit_ioport_read pit2 ch t2 = Some (hi, pit3)
    /\ lo + hi * 2 ^ 8 = wrap 16 c
    /\ count_latched <$> (pit3 !! Z.to_nat ch) = Some 0.
Proof.
  intros Hch Hs Hrw Hcl Hst Hc.
  set (s1 := set_count_latched s.(rw_mode) (set_latched_count (wrap 16 c) s)).
  destruct (read_latched_word s1 t1 t2 Hst) as (s2 & s3 & Hr1 & Hr2 & Hcl3); [by subst s1 |].
  pose proof (lookup_lt_Some pit _ _ Hs) as Hlt.
  exists (<[Z.to_nat ch := s1]> pit), (<[Z.to_nat ch := s2]> (<[Z.to_nat ch := s1]> pit)),
    (<[Z.to_nat ch := s3]> (<[Z.to_nat ch := s2]> (<[Z.to_nat ch := s1]> pit))).
  eexists _, _. split_and!.
  - by apply latch_write.
  - eapply read_channel; [done | by apply list_lookup_insert_eq | exact Hr1].
  - eapply read_channel; [done | apply list_lookup_insert_eq; by rewrite length_insert | exact Hr2].
  - change (latched_count s1) with (wrap 16 c). change 0xff with (Z.ones 8).
    rewrite Z.land_ones, Z.shiftr_div_pow2 by lia.
    pose proof (Z.div_mod (wrap 16 c) (2 ^ 8) ltac:(lia)). lia.
  - rewrite list_lookup_insert_eq by by rewrite !length_insert. cbn. by rewrite Hcl3.
Qed.

Lemma pit_latch_round_trip_witness :
  exists pit1 pit2 pit3 lo hi,
    pit_ioport_write [sample_channel; sample_channel; sample_channel] 3 (Z.shiftl 1 6) 5000 = Some pit1
    /\ pit_ioport_read pit1 1 6000 = Some (lo, pit2)
    /\ pit_ioport_read pit2 1 70000 = Some (hi, pit3)
    /\ lo + hi * 2 ^ 8 = wrap 16 6
    /\ count_latched <$> (pit3 !! Z.to_nat 1) = Some 0.
Proof.
  apply (pit_latch_round_trip _ 1 5000 6000 70000 6 sample_channel);
    [lia | reflexivity | reflexivity | reflexivity | reflexivity | vm_compute; reflexivity].
Defined.
