(* ===== verification/Rtc.v ===== *)
(** * The real-time clock and CMOS memory (qemu/hw/mc146818rtc.c)

    Registers, calendar, alarm and the three timers of the clock.  The current
    time of [rtc_clock] is the parameter [now]; [rtc_td_hack] and the answer of
    [apic_get_irq_delivered] (another component) are parameters of the
    operations that use them.  The code is the one for x86 targets.  [None] is
    a division by zero or a signed overflow.

    Theorems: the calendar counts seconds, agreeing with [mktimegm] of
    cutils.c; date and registers convert into each other; the periodic timer is
    armed in a bounded future; what the 12-hour format does with noon and
    midnight. *)

From Stdlib Require Import ZArith Lia.
From stdpp Require Import base option numbers list.
From S2P Require Import Prelude HostUtils.

Local Open Scope Z_scope.

(** ** State *)

(** [struct tm], the fields the clock uses *)
Record tm := mkTm {
  tm_sec : Z;
  tm_min : Z;
  tm_hour : Z;
  tm_mday : Z;
  tm_mon : Z;
  tm_year : Z;
  tm_wday : Z
}.

Definition set_tm_sec (v : Z) (s : tm) : tm :=
  mkTm v s.(tm_min) s.(tm_hour) s.(tm_mday) s.(tm_mon) s.(tm_year) s.(tm_wday).
Definition set_tm_min (v : Z) (s : tm) : tm :=
  mkTm s.(tm_sec) v s.(tm_hour) s.(tm_mday) s.(tm_mon) s.(tm_year) s.(tm_wday).
Definition set_tm_hour (v : Z) (s : tm) : tm :=
  mkTm s.(tm_sec) s.(tm_min) v s.(tm_mday) s.(tm_mon) s.(tm_year) s.(tm_wday).
Definition set_tm_mday (v : Z) (s : tm) : tm :=
  mkTm s.(tm_sec) s.(tm_min) s.(tm_hour) v s.(tm_mon) s.(tm_year) s.(tm_wday).
Definition set_tm_mon (v : Z) (s : tm) : tm :=
  mkTm s.(tm_sec) s.(tm_min) s.(tm_hour) s.(tm_mday) v s.(tm_year) s.(tm_wday).
Definition set_tm_year (v : Z) (s : tm) : tm :=
  mkTm s.(tm_sec) s.(tm_min) s.(tm_hour) s.(tm_mday) s.(tm_mon) v s.(tm_wday).
Definition set_tm_wday (v : Z) (s : tm) : tm :=
  mkTm s.(tm_sec) s.(tm_min) s.(tm_hour) s.(tm_mday) s.(tm_mon) s.(tm_year) v.

(** A timer is what it is armed for, if anything.  [irq] and [sqw_irq] record the
    levels driven on the lines, latest first ([None] is a line that is not
    connected), [mon_events] the times reported to the monitor. *)
Record RTCState := mkRTC {
  cmos_data : list Z;
  cmos_index : Z;
  current_tm : tm;
  base_year : Z;
  irq : list Z;
  sqw_irq : option (list Z);
  periodic_timer : option Z;
  next_periodic_time : Z;
  next_second_time : Z;
  irq_reinject_on_ack_count : Z;
  irq_coalesced : Z;
  period : Z;
  coalesced_timer : option Z;
  second_timer : option Z;
  second_timer2 : option Z;
  mon_events : list tm
}.

Definition set_cmos_data (v : list Z) (s : RTCState) : RTCState :=
  mkRTC v s.(cmos_index) s.(current_tm) s.(base_year) s.(irq) s.(sqw_irq)
    s.(periodic_timer) s.(next_periodic_time) s.(next_second_time)
    s.(irq_reinject_on_ack_count) s.(irq_coalesced) s.(period) s.(coalesced_timer)
    s.(second_timer) s.(second_timer2) s.(mon_events).
Definition set_cmos_index (v : Z) (s : RTCState) : RTCState :=
  mkRTC s.(cmos_data) v s.(current_tm) s.(base_year) s.(irq) s.(sqw_irq)
    s.(periodic_timer) s.(next_periodic_time) s.(next_second_time)
    s.(irq_reinject_on_ack_count) s.(irq_coalesced) s.(period) s.(coalesced_timer)
    s.(second_timer) s.(second_timer2) s.(mon_events).
Definition set_current_tm (v : tm) (s : RTCState) : RTCState :=
  mkRTC s.(cmos_data) s.(cmos_index) v s.(base_year) s.(irq) s.(sqw_irq)
    s.(periodic_timer) s.(next_periodic_time) s.(next_second_time)
    s.(irq_reinject_on_ack_count) s.(irq_coalesced) s.(period) s.(coalesced_timer)
    s.(second_timer) s.(second_timer2) s.(mon_events).
Definition set_base_year (v : Z) (s : RTCState) : RTCState :=
  mkRTC s.(cmos_data) s.(cmos_index) s.(current_tm) v s.(irq) s.(sqw_irq)
    s.(periodic_timer) s.(next_periodic_time) s.(next_second_time)
    s.(irq_reinject_on_ack_count) s.(irq_coalesced) s.(period) s.(coalesced_timer)
    s.(second_timer) s.(second_timer2) s.(mon_events).
Definition set_irq (v : list Z) (s : RTCState) : RTCState :=
  mkRTC s.(cmos_data) s.(cmos_index) s.(current_tm) s.(base_year) v s.(sqw_irq)
    s.(periodic_timer) s.(next_periodic_time) s.(next_second_time)
    s.(irq_reinject_on_ack_count) s.(irq_coalesced) s.(period) s.(coalesced_timer)
    s.(second_timer) s.(second_timer2) s.(mon_events).
Definition set_sqw_irq (v : option (list Z)) (s : RTCState) : RTCState :=
  mkRTC s.(cmos_data) s.(cmos_index) s.(current_tm) s.(base_year) s.(irq) v
    s.(periodic_timer) s.(next_periodic_time) s.(next_second_time)
    s.(irq_reinject_on_ack_count) s.(irq_coalesced) s.(period) s.(coalesced_timer)
    s.(second_timer) s.(second_timer2) s.(mon_events).
Definition set_periodic_timer (v : option Z) (s : RTCState) : RTCState :=
  mkRTC s.(cmos_data) s.(cmos_index) s.(current_tm) s.(base_year) s.(irq) s.(sqw_irq) v
    s.(next_periodic_time) s.(next_second_time) s.(irq_reinject_on_ack_count)
    s.(irq_coalesced) s.(period) s.(coalesced_timer) s.(second_timer) s.(second_timer2)
    s.(mon_events).
Definition set_next_periodic_time (v : Z) (s : RTCState) : RTCState :=
  mkRTC s.(cmos_data) s.(cmos_index) s.(current_tm) s.(base_year) s.(irq) s.(sqw_irq)
    s.(periodic_timer) v s.(next_second_time) s.(irq_reinject_on_ack_count)
    s.(irq_coalesced) s.(period) s.(coalesced_timer) s.(second_timer) s.(second_timer2)
    s.(mon_events).
Definition set_next_second_time (v : Z) (s : RTCState) : RTCState :=
  mkRTC s.(cmos_data) s.(cmos_index) s.(current_tm) s.(base_year) s.(irq) s.(sqw_irq)
    s.(periodic_timer) s.(next_periodic_time) v s.(irq_reinject_on_ack_count)
    s.(irq_coalesced) s.(period) s.(coalesced_timer) s.(second_timer) s.(second_timer2)
    s.(mon_events).
Definition set_irq_reinject_on_ack_count (v : Z) (s : RTCState) : RTCState :=
  mkRTC s.(cmos_data) s.(cmos_index) s.(current_tm) s.(base_year) s.(irq) s.(sqw_irq)
    s.(periodic_timer) s.(next_periodic_time) s.(next_second_time) v s.(irq_coalesced)
    s.(period) s.(coalesced_timer) s.(second_timer) s.(second_timer2) s.(mon_events).
Definition set_irq_coalesced (v : Z) (s : RTCState) : RTCState :=
  mkRTC s.(cmos_data) s.(cmos_index) s.(current_tm) s.(base_year) s.(irq) s.(sqw_irq)
    s.(periodic_timer) s.(next_periodic_time) s.(next_second_time)
    s.(irq_reinject_on_ack_count) v s.(period) s.(coalesced_timer) s.(second_timer)
    s.(second_timer2) s.(mon_events).
Definition set_period (v : Z) (s : RTCState) : RTCState :=
  mkRTC s.(cmos_data) s.(cmos_index) s.(current_tm) s.(base_year) s.(irq) s.(sqw_irq)
    s.(periodic_timer) s.(next_periodic_time) s.(next_second_time)
    s.(irq_reinject_on_ack_count) s.(irq_coalesced) v s.(coalesced_timer) s.(second_timer)
    s.(second_timer2) s.(mon_events).
Definition set_coalesced_timer (v : option Z) (s : RTCState) : RTCState :=
  mkRTC s.(cmos_data) s.(cmos_index) s.(current_tm) s.(base_year) s.(irq) s.(sqw_irq)
    s.(periodic_timer) s.(next_periodic_time) s.(next_second_time)
    s.(irq_reinject_on_ack_count) s.(irq_coalesced) s.(period) v s.(second_timer)
    s.(second_timer2) s.(mon_events).
Definition set_second_timer (v : option Z) (s : RTCState) : RTCState :=
  mkRTC s.(cmos_data) s.(cmos_index) s.(current_tm) s.(base_year) s.(irq) s.(sqw_irq)
    s.(periodic_timer) s.(next_periodic_time) s.(next_second_time)
    s.(irq_reinject_on_ack_count) s.(irq_coalesced) s.(period) s.(coalesced_timer) v
    s.(second_timer2) s.(mon_events).
Definition set_second_timer2 (v : option Z) (s : RTCState) : RTCState :=
  mkRTC s.(cmos_data) s.(cmos_index) s.(current_tm) s.(base_year) s.(irq) s.(sqw_irq)
    s.(periodic_timer) s.(next_periodic_time) s.(next_second_time)
    s.(irq_reinject_on_ack_count) s.(irq_coalesced) s.(period) s.(coalesced_timer)
    s.(second_timer) v s.(mon_events).
Definition set_mon_events (v : list tm) (s : RTCState) : RTCState :=
  mkRTC s.(cmos_data) s.(cmos_index) s.(current_tm) s.(base_year) s.(irq) s.(sqw_irq)
    s.(periodic_timer) s.(next_periodic_time) s.(next_second_time)
    s.(irq_reinject_on_ack_count) s.(irq_coalesced) s.(period) s.(coalesced_timer)
    s.(second_timer) s.(second_timer2) v.

Definition RTC_REINJECT_ON_ACK_COUNT : Z := 20.

Definition RTC_SECONDS : nat := 0.
Definition RTC_SECONDS_ALARM : nat := 1.
Definition RTC_MINUTES : nat := 2.
Definition RTC_MINUTES_ALARM : nat := 3.
Definition RTC_HOURS : nat := 4.
Definition RTC_HOURS_ALARM : nat := 5.
Definition RTC_DAY_OF_WEEK : nat := 6.
Definition RTC_DAY_OF_MONTH : nat := 7.
Definition RTC_MONTH : nat := 8.
Definition RTC_YEAR : nat := 9.
Definition RTC_REG_A : nat := 10.
Definition RTC_REG_B : nat := 11.
Definition RTC_REG_C : nat := 12.
Definition RTC_REG_D : nat := 13.

Definition REG_A_UIP : Z := 0x80.
Definition REG_B_SET : Z := 0x80.
Definition REG_B_PIE : Z := 0x40.
Definition REG_B_AIE : Z := 0x20.
Definition REG_B_UIE : Z := 0x10.
Definition REG_B_SQWE : Z := 0x08.
Definition REG_B_DM : Z := 0x04.
Definition REG_B_24H : Z := 0x02.
Definition REG_C_UF : Z := 0x10.
Definition REG_C_IRQF : Z := 0x80.
Definition REG_C_PF : Z := 0x40.
Definition REG_C_AF : Z := 0x20.

Definition get_ticks_per_sec : Z := 1000000000.

(** [s->cmos_data[i]], and an assignment to it *)
Definition cmos (s : RTCState) (i : nat) : Z := default 0 (s.(cmos_data) !! i).
Definition put (i : nat) (v : Z) (s : RTCState) : RTCState :=
  set_cmos_data (<[i := wrap 8 v]> s.(cmos_data)) s.

(** [s->cmos_data[i] & flag] as a condition *)
Definition flag (s : RTCState) (i : nat) (m : Z) : bool := c_true (Z.land (cmos s i) m).

(** [qemu_irq_raise(s->irq)] and [qemu_irq_lower(s->irq)] *)
Definition drive (level : Z) (s : RTCState) : RTCState := set_irq (level :: s.(irq)) s.

(** ** The calendar *)

Definition days_tab : list Z := [31; 28; 31; 30; 31; 30; 31; 31; 30; 31; 30; 31].

Definition get_days_in_month (month year : Z) : Z :=
  if 12 <=? wrap 32 month then 31
  else
    let d := default 0 (days_tab !! Z.to_nat month) in
    if (month =? 1) && (Z.rem year 4 =? 0)
       && (negb (Z.rem year 100 =? 0) || (Z.rem year 400 =? 0))
    then d + 1 else d.

Definition rtc_next_day (t : tm) : tm :=
  let t := set_tm_wday (t.(tm_wday) + 1) t in
  let t := if 7 <=? wrap 32 t.(tm_wday) then set_tm_wday 0 t else t in
  let days_in_month := get_days_in_month t.(tm_mon) (t.(tm_year) + 1900) in
  let t := set_tm_mday (t.(tm_mday) + 1) t in
  if t.(tm_mday) <? 1 then set_tm_mday 1 t
  else if days_in_month <? t.(tm_mday) then
    let t := set_tm_mon (t.(tm_mon) + 1) (set_tm_mday 1 t) in
    if 12 <=? t.(tm_mon) then set_tm_year (t.(tm_year) + 1) (set_tm_mon 0 t) else t
  else t.

Definition rtc_next_second (t : tm) : tm :=
  let t := set_tm_sec (t.(tm_sec) + 1) t in
  if 60 <=? wrap 32 t.(tm_sec) then
    let t := set_tm_min (t.(tm_min) + 1) (set_tm_sec 0 t) in
    if 60 <=? wrap 32 t.(tm_min) then
      let t := set_tm_hour (t.(tm_hour) + 1) (set_tm_min 0 t) in
      if 24 <=? wrap 32 t.(tm_hour) then rtc_next_day (set_tm_hour 0 t) else t
    else t
  else t.

(** [mktimegm]: the day number is an [int], and so is its product with 86400;
    [time_t] has 64 bits. *)
Definition day_number (t : tm) : Z :=
  let y := t.(tm_year) + 1900 in
  let m := t.(tm_mon) + 1 in
  let d := t.(tm_mday) in
  let '(m, y) := if m <? 3 then (m + 12, y - 1) else (m, y) in
  d + Z.quot (153 * m - 457) 5 + 365 * y + Z.quot y 4 - Z.quot y 100 + Z.quot y 400 - 719469.

Definition mktimegm (t : tm) : option Z :=
  let days := 86400 * day_number t in
  if (- 2 ^ 31 <=? days) && (days <? 2 ^ 31)
  then Some (days + (3600 * t.(tm_hour) + 60 * t.(tm_min) + t.(tm_sec)))
  else None.

(** ** Date and registers *)

Definition rtc_to_bcd (s : RTCState) (a : Z) : Z :=
  if flag s RTC_REG_B REG_B_DM then a else Z.lor (Z.shiftl (Z.quot a 10) 4) (Z.rem a 10).

Definition rtc_from_bcd (s : RTCState) (a : Z) : Z :=
  if flag s RTC_REG_B REG_B_DM then a else Z.shiftr a 4 * 10 + Z.land a 0x0f.

Definition rtc_set_time (s : RTCState) : RTCState :=
  let hour := rtc_from_bcd s (Z.land (cmos s RTC_HOURS) 0x7f) in
  let hour := if negb (flag s RTC_REG_B REG_B_24H) && flag s RTC_HOURS 0x80
              then hour + 12 else hour in
  let t := mkTm (rtc_from_bcd s (cmos s RTC_SECONDS))
             (rtc_from_bcd s (cmos s RTC_MINUTES))
             hour
             (rtc_from_bcd s (cmos s RTC_DAY_OF_MONTH))
             (rtc_from_bcd s (cmos s RTC_MONTH) - 1)
             (rtc_from_bcd s (cmos s RTC_YEAR) + s.(base_year) - 1900)
             (rtc_from_bcd s (cmos s RTC_DAY_OF_WEEK) - 1) in
  set_mon_events (t :: s.(mon_events)) (set_current_tm t s).

(** The hour register *)
Definition copy_hour (s : RTCState) : RTCState :=
  let hour := s.(current_tm).(tm_hour) in
  if flag s RTC_REG_B REG_B_24H then put RTC_HOURS (rtc_to_bcd s hour) s
  else
    let s := put RTC_HOURS (rtc_to_bcd s (Z.rem hour 12)) s in
    if 12 <=? hour then put RTC_HOURS (Z.lor (cmos s RTC_HOURS) 0x80) s else s.

Definition rtc_copy_date (s : RTCState) : RTCState :=
  let t := s.(current_tm) in
  let s := put RTC_SECONDS (rtc_to_bcd s t.(tm_sec)) s in
  let s := put RTC_MINUTES (rtc_to_bcd s t.(tm_min)) s in
  let s := copy_hour s in
  let s := put RTC_DAY_OF_WEEK (rtc_to_bcd s (t.(tm_wday) + 1)) s in
  let s := put RTC_DAY_OF_MONTH (rtc_to_bcd s t.(tm_mday)) s in
  let s := put RTC_MONTH (rtc_to_bcd s (t.(tm_mon) + 1)) s in
  let year := Z.rem (t.(tm_year) - s.(base_year)) 100 in
  let year := if year <? 0 then year + 100 else year in
  put RTC_YEAR (rtc_to_bcd s year) s.

(** ** Timers *)

Definition rtc_coalesced_timer_update (now : Z) (s : RTCState) : option RTCState :=
  if s.(irq_coalesced) =? 0 then Some (set_coalesced_timer None s)
  else
    let c := Z.min s.(irq_coalesced) 7 + 1 in
    d ← muldiv64 (s.(period) / c) get_ticks_per_sec 32768;
    Some (set_coalesced_timer (Some (now + d)) s).

(** [delivered]: what [apic_get_irq_delivered] says after the line was raised *)
Definition rtc_coalesced_timer (now : Z) (delivered : bool) (s : RTCState) : option RTCState :=
  let s :=
    if negb (s.(irq_coalesced) =? 0) then
      let s := drive 1 (put RTC_REG_C (Z.lor (cmos s RTC_REG_C) 0xc0) s) in
      if delivered then set_irq_coalesced (wrap 32 (s.(irq_coalesced) - 1)) s else s
    else s in
  rtc_coalesced_timer_update now s.

(** The period code of register A in 32 kHz cycles *)
Definition rtc_period (s : RTCState) : Z :=
  let period_code := Z.land (cmos s RTC_REG_A) 0x0f in
  let period_code := if period_code <=? 2 then period_code + 7 else period_code in
  Z.shiftl 1 (period_code - 1).

Definition rtc_timer_update (current_time : Z) (s : RTCState) : option RTCState :=
  if negb (Z.land (cmos s RTC_REG_A) 0x0f =? 0)
     && (flag s RTC_REG_B REG_B_PIE
         || (flag s RTC_REG_B REG_B_SQWE && bool_decide (is_Some s.(sqw_irq)))) then
    let p := rtc_period s in
    let s := if negb (p =? s.(period))
             then set_irq_coalesced (wrap 32 (s.(irq_coalesced) * s.(period)) / p) s
             else s in
    let s := set_period p s in
    cur_clock ← muldiv64 (wrap 64 current_time) 32768 get_ticks_per_sec;
    let next_irq_clock := Z.land cur_clock (Z.lnot (p - 1)) + p in
    next ← muldiv64 next_irq_clock get_ticks_per_sec 32768;
    Some (set_periodic_timer (Some (next + 1)) (set_next_periodic_time (next + 1) s))
  else Some (set_periodic_timer None (set_irq_coalesced 0 s)).

Definition rtc_periodic_timer (rtc_td_hack : bool) (now : Z) (delivered : bool) (s : RTCState)
  : option RTCState :=
  s ← rtc_timer_update s.(next_periodic_time) s;
  s ← (if flag s RTC_REG_B REG_B_PIE then
         let s := put RTC_REG_C (Z.lor (cmos s RTC_REG_C) 0xc0) s in
         if rtc_td_hack then
           let s := if RTC_REINJECT_ON_ACK_COUNT <=? s.(irq_reinject_on_ack_count)
                    then set_irq_reinject_on_ack_count 0 s else s in
           let s := drive 1 s in
           if delivered then Some s
           else rtc_coalesced_timer_update now (set_irq_coalesced (wrap 32 (s.(irq_coalesced) + 1)) s)
         else Some (drive 1 s)
       else Some s);
  Some (if flag s RTC_REG_B REG_B_SQWE
        then set_sqw_irq ((fun l => 1 :: l) <$> s.(sqw_irq)) s else s).

Definition rtc_update_second (s : RTCState) : RTCState :=
  if negb (Z.land (cmos s RTC_REG_A) 0x70 =? 0x20) then
    let s := set_next_second_time (s.(next_second_time) + get_ticks_per_sec) s in
    set_second_timer (Some s.(next_second_time)) s
  else
    let s := set_current_tm (rtc_next_second s.(current_tm)) s in
    let s := if negb (flag s RTC_REG_B REG_B_SET)
             then put RTC_REG_A (Z.lor (cmos s RTC_REG_A) REG_A_UIP) s else s in
    let delay := Z.quot (get_ticks_per_sec * 1) 100 in
    let delay := if delay <? 1 then 1 else delay in
    set_second_timer2 (Some (s.(next_second_time) + delay)) s.

(** One of the three comparisons of the alarm *)
Definition alarm_matches (s : RTCState) (i : nat) (v : Z) : bool :=
  (Z.land (cmos s i) 0xc0 =? 0xc0) || (rtc_from_bcd s (cmos s i) =? v).

Definition rtc_update_second2 (s : RTCState) : RTCState :=
  let s := if negb (flag s RTC_REG_B REG_B_SET) then rtc_copy_date s else s in
  let s :=
    if flag s RTC_REG_B REG_B_AIE
       && (alarm_matches s RTC_SECONDS_ALARM s.(current_tm).(tm_sec)
           && alarm_matches s RTC_MINUTES_ALARM s.(current_tm).(tm_min)
           && alarm_matches s RTC_HOURS_ALARM s.(current_tm).(tm_hour))
    then drive 1 (put RTC_REG_C (Z.lor (cmos s RTC_REG_C) 0xa0) s)
    else s in
  let s := put RTC_REG_C (Z.lor (cmos s RTC_REG_C) REG_C_UF) s in
  let s := if flag s RTC_REG_B REG_B_UIE
           then drive 1 (put RTC_REG_C (Z.lor (cmos s RTC_REG_C) REG_C_IRQF) s) else s in
  let s := put RTC_REG_A (Z.land (cmos s RTC_REG_A) (Z.lnot REG_A_UIP)) s in
  let s := set_next_second_time (s.(next_second_time) + get_ticks_per_sec) s in
  set_second_timer (Some s.(next_second_time)) s.

(** ** Ports *)

Definition write_reg_b (data now : Z) (s : RTCState) : option RTCState :=
  let '(data, s) :=
    if c_true (Z.land data REG_B_SET) then
      (Z.land data (Z.lnot REG_B_UIE),
       put RTC_REG_A (Z.land (cmos s RTC_REG_A) (Z.lnot REG_A_UIP)) s)
    else (data, if flag s RTC_REG_B REG_B_SET then rtc_set_time s else s) in
  let s :=
    if c_true (Z.land (Z.lxor (cmos s RTC_REG_B) data) (Z.lor REG_B_DM REG_B_24H))
       && negb (c_true (Z.land data REG_B_SET))
    then rtc_copy_date (put RTC_REG_B data s)
    else put RTC_REG_B data s in
  rtc_timer_update now s.

Definition cmos_ioport_write (addr data now : Z) (s : RTCState) : option RTCState :=
  if Z.land addr 1 =? 0 then Some (set_cmos_index (Z.land data 0x7f) s)
  else
    let i := Z.to_nat s.(cmos_index) in
    if bool_decide (i ∈ [RTC_SECONDS_ALARM; RTC_MINUTES_ALARM; RTC_HOURS_ALARM])
    then Some (put i data s)
    else if bool_decide (i ∈ [RTC_SECONDS; RTC_MINUTES; RTC_HOURS; RTC_DAY_OF_WEEK;
                              RTC_DAY_OF_MONTH; RTC_MONTH; RTC_YEAR]) then
      let s := put i data s in
      Some (if negb (flag s RTC_REG_B REG_B_SET) then rtc_set_time s else s)
    else if bool_decide (i = RTC_REG_A) then
      rtc_timer_update now
        (put RTC_REG_A (Z.lor (Z.land data (Z.lnot REG_A_UIP))
                          (Z.land (cmos s RTC_REG_A) REG_A_UIP)) s)
    else if bool_decide (i = RTC_REG_B) then write_reg_b data now s
    else if bool_decide (i ∈ [RTC_REG_C; RTC_REG_D]) then Some s
    else Some (put i data s).

Definition cmos_ioport_read (addr : Z) (delivered : bool) (s : RTCState) : Z * RTCState :=
  if Z.land addr 1 =? 0 then (0xff, s)
  else
    let i := Z.to_nat s.(cmos_index) in
    let ret := cmos s i in
    if bool_decide (i = RTC_REG_C) then
      let s := drive 0 s in
      if negb (s.(irq_coalesced) =? 0)
         && (s.(irq_reinject_on_ack_count) <? RTC_REINJECT_ON_ACK_COUNT) then
        let s := set_irq_reinject_on_ack_count (wrap 16 (s.(irq_reinject_on_ack_count) + 1)) s in
        let s := drive 1 s in
        (ret, if delivered then set_irq_coalesced (wrap 32 (s.(irq_coalesced) - 1)) s else s)
      else (ret, put RTC_REG_C 0x00 s)
    else (ret, s).

(** ** Set-up and reset *)

Definition rtc_set_memory (addr val : Z) (s : RTCState) : RTCState :=
  if (0 <=? addr) && (addr <=? 127) then put (Z.to_nat addr) val s else s.

Definition rtc_set_date (t : tm) (s : RTCState) : RTCState := rtc_copy_date (set_current_tm t s).

(** [host_time] is what [qemu_get_timedate] returns. *)
Definition rtc_set_date_from_host (host_time : tm) (s : RTCState) : RTCState :=
  let s := rtc_set_date host_time s in
  let val := rtc_to_bcd s (Z.quot host_time.(tm_year) 100 + 19) in
  rtc_set_memory 0x37 val (rtc_set_memory 0x32 val s).

Definition rtc_reset (rtc_td_hack : bool) (s : RTCState) : RTCState :=
  let s := put RTC_REG_B (Z.land (cmos s RTC_REG_B)
             (Z.lnot (Z.lor (Z.lor REG_B_PIE REG_B_AIE) REG_B_SQWE))) s in
  let s := put RTC_REG_C (Z.land (cmos s RTC_REG_C)
             (Z.lnot (Z.lor (Z.lor (Z.lor REG_C_UF REG_C_IRQF) REG_C_PF) REG_C_AF))) s in
  let s := drive 0 s in
  if rtc_td_hack then set_irq_coalesced 0 s else s.

(** [rtc_initfn] on the zeroed state of a new device; the port registrations
    are in [IsaBoard]. *)
Definition rtc_initfn (base_year : Z) (host_time : tm) (now : Z) : RTCState :=
  let s := mkRTC (replicate 128 0) 0 (mkTm 0 0 0 0 0 0 0) base_year [] None None 0 0 0 0 0
             None None None [] in
  let s := put RTC_REG_D 0x80 (put RTC_REG_C 0x00 (put RTC_REG_B 0x02 (put RTC_REG_A 0x26 s))) in
  let s := rtc_set_date_from_host host_time s in
  let s := set_next_second_time (now + Z.quot (get_ticks_per_sec * 99) 100) s in
  set_second_timer2 (Some s.(next_second_time)) s.

(** ** The calendar counts seconds *)

Record tm_valid (t : tm) : Prop := {
  v_sec : 0 <= t.(tm_sec) < 60;
  v_min : 0 <= t.(tm_min) < 60;
  v_hour : 0 <= t.(tm_hour) < 24;
  v_mon : 0 <= t.(tm_mon) < 12;
  v_mday : 1 <= t.(tm_mday) <= get_days_in_month t.(tm_mon) (t.(tm_year) + 1900);
  v_wday : 0 <= t.(tm_wday) < 7;
  v_year : 0 <= t.(tm_year)
}.

Definition leap (y : Z) : bool := (y mod 4 =? 0) && (negb (y mod 100 =? 0) || (y mod 400 =? 0)).

Lemma wrap32_small x : 0 <= x < 2 ^ 32 -> wrap 32 x = x.
Proof. intros. by apply wrap_small. Qed.

Lemma days_in_month_table month year :
  0 <= month < 12 -> 0 <= year ->
  get_days_in_month month year =
  default 0 (days_tab !! Z.to_nat month) + (if (month =? 1) && leap year then 1 else 0).
Proof.
  intros Hm Hy. unfold get_days_in_month, leap. rewrite wrap32_small by lia.
  rewrite (proj2 (Z.leb_gt _ _)) by lia. rewrite !Z.rem_mod_nonneg by lia.
  destruct (month =? 1), (year mod 4 =? 0), (negb _ || _); cbn [andb]; lia.
Qed.

(** The months one by one *)
Lemma month_cases m : 0 <= m < 12 -> In m [0; 1; 2; 3; 4; 5; 6; 7; 8; 9; 10; 11].
Proof. intros. cbn. lia. Qed.

Lemma day_number_eq t :
  0 <= t.(tm_mon) < 12 -> 0 <= t.(tm_year) ->
  day_number t =
  let m := t.(tm_mon) + 1 in
  let y := t.(tm_year) + 1900 in
  let m' := if m <? 3 then m + 12 else m in
  let y' := if m <? 3 then y - 1 else y in
  t.(tm_mday) + (153 * m' - 457) / 5 + 365 * y' + y' / 4 - y' / 100 + y' / 400 - 719469.
Proof.
  intros Hm Hy. unfold day_number. cbn zeta.
  destruct (Z.ltb_spec (t.(tm_mon) + 1) 3); rewrite !Z.quot_div_nonneg by lia; done.
Qed.

Lemma leap_cases y :
  (leap y = true /\ y mod 4 = 0 /\ (y mod 100 <> 0 \/ y mod 400 = 0)) \/
  (leap y = false /\ ~ (y mod 4 = 0 /\ (y mod 100 <> 0 \/ y mod 400 = 0))).
Proof. unfold leap. case_cmp; cbn; intuition congruence. Qed.

(** Look a constant month up in the table. *)
Ltac eval_days :=
  match goal with
  | |- context [default 0 (days_tab !! Z.to_nat ?m)] =>
      let v := eval vm_compute in (default 0 (days_tab !! Z.to_nat m)) in
      change (default 0 (days_tab !! Z.to_nat m)) with v
  end.

Ltac eval_month_days :=
  match goal with
  | |- context [(153 * ?m - 457) / 5] =>
      let v := eval vm_compute in ((153 * m - 457) / 5) in
      change ((153 * m - 457) / 5) with v
  end.

(** Going to the first of the next month adds one day. *)
Lemma next_month m d y w :
  0 <= m < 12 -> 0 <= y -> d = get_days_in_month m (y + 1900) ->
  forall s1 s2 s3 s4 s5 s6 w',
  day_number (if 12 <=? m + 1 then mkTm s1 s2 s3 1 0 (y + 1) w' else mkTm s1 s2 s3 1 (m + 1) y w') =
  day_number (mkTm s4 s5 s6 d m y w) + 1.
Proof.
  intros Hm Hy -> s1 s2 s3 s4 s5 s6 w'. rewrite days_in_month_table by lia.
  rewrite (day_number_eq (mkTm s4 _ _ _ _ _ _)) by (cbn [tm_mon tm_year]; lia).
  pose proof (month_cases m Hm) as Hc. cbn in Hc.
  destruct (Z.leb_spec 12 (m + 1));
    rewrite day_number_eq by (cbn [tm_mon tm_year]; lia); cbn [tm_mon tm_mday tm_year];
    replace (y + 1 + 1900 - 1) with (y + 1900) by lia;
    repeat destruct Hc as [<- | Hc]; try done; try lia; eval_days; case_cmp; try lia;
    cbn [andb]; repeat eval_month_days; try lia.
  all: destruct (leap_cases (y + 1900)) as [[-> Hl] | [-> Hl]];
    Z.to_euclidean_division_equations; lia.
Qed.

Lemma days_in_month_pos m y : 0 <= m < 12 -> 0 <= y -> 28 <= get_days_in_month m y <= 31.
Proof.
  intros Hm Hy. rewrite days_in_month_table by done. pose proof (month_cases m Hm) as Hc. cbn in Hc.
  repeat destruct Hc as [<- | Hc]; try done; eval_days; destruct (_ && _); lia.
Qed.

(** The clock of a date, and what a step of the calendar owes to it *)
Definition date_of (t : tm) : Z * Z * Z := (t.(tm_sec), t.(tm_min), t.(tm_hour)).

Lemma rtc_next_day_eq sec min hour mday mon year wday :
  rtc_next_day (mkTm sec min hour mday mon year wday) =
  let w' := if 7 <=? wrap 32 (wday + 1) then 0 else wday + 1 in
  if mday + 1 <? 1 then mkTm sec min hour 1 mon year w'
  else if get_days_in_month mon (year + 1900) <? mday + 1
  then if 12 <=? mon + 1 then mkTm sec min hour 1 0 (year + 1) w'
       else mkTm sec min hour 1 (mon + 1) year w'
  else mkTm sec min hour (mday + 1) mon year w'.
Proof. unfold rtc_next_day. cbn -[get_days_in_month wrap]. by destruct (7 <=? wrap 32 (wday + 1)). Qed.

Lemma rtc_next_second_eq sec min hour mday mon year wday :
  rtc_next_second (mkTm sec min hour mday mon year wday) =
  if 60 <=? wrap 32 (sec + 1) then
    if 60 <=? wrap 32 (min + 1) then
      if 24 <=? wrap 32 (hour + 1) then rtc_next_day (mkTm 0 0 0 mday mon year wday)
      else mkTm 0 0 (hour + 1) mday mon year wday
    else mkTm 0 (min + 1) hour mday mon year wday
  else mkTm (sec + 1) min hour mday mon year wday.
Proof. reflexivity. Qed.

Ltac tm_cbn := cbn [tm_sec tm_min tm_hour tm_mday tm_mon tm_year tm_wday] in *.

Lemma rtc_next_day_correct t :
  tm_valid t ->
  tm_valid (rtc_next_day t) /\ date_of (rtc_next_day t) = date_of t /\
  day_number (rtc_next_day t) = day_number t + 1 /\
  (rtc_next_day t).(tm_wday) = (t.(tm_wday) + 1) mod 7 /\
  t.(tm_year) <= (rtc_next_day t).(tm_year) <= t.(tm_year) + 1.
Proof.
  destruct t as [sec min hour mday mon year wday]. intros [? ? ? ? ? ? ?]. tm_cbn.
  rewrite rtc_next_day_eq, wrap32_small by lia. cbn zeta.
  replace (if 7 <=? wday + 1 then 0 else wday + 1) with ((wday + 1) mod 7)
    by (destruct (Z.leb_spec 7 (wday + 1)); [assert (wday = 6) as -> by lia; done | by rewrite Z.mod_small by lia]).
  set (w' := (wday + 1) mod 7) in *.
  assert (Hw' : 0 <= w' < 7) by (apply Z.mod_pos_bound; lia).
  rewrite (proj2 (Z.ltb_ge (mday + 1) 1)) by lia.
  destruct (Z.ltb_spec (get_days_in_month mon (year + 1900)) (mday + 1)) as [Hlast | Hin].
  - pose proof (next_month mon mday year wday ltac:(done) ltac:(done) ltac:(lia)
                  sec min hour sec min hour w') as Hn.
    destruct (Z.leb_spec 12 (mon + 1)) as [Hdec | Hdec]; (split; [| split; [done | split; [done | split; [done | cbn; lia]]]]).
    + constructor; tm_cbn; try lia.
      pose proof (days_in_month_pos 0 (year + 1 + 1900)). lia.
    + constructor; tm_cbn; try lia.
      pose proof (days_in_month_pos (mon + 1) (year + 1900)). lia.
  - split; [constructor; tm_cbn; lia |].
    split; [done |]. split; [| split; [done | cbn; lia]].
    unfold day_number. tm_cbn.
    destruct (mon + 1 <? 3); lia.
Qed.

(** Seconds since the epoch, without the overflow of [mktimegm] *)
Definition epoch_seconds (t : tm) : Z :=
  86400 * day_number t + (3600 * t.(tm_hour) + 60 * t.(tm_min) + t.(tm_sec)).

Lemma rtc_next_second_correct t :
  tm_valid t ->
  tm_valid (rtc_next_second t) /\ epoch_seconds (rtc_next_second t) = epoch_seconds t + 1 /\
  (rtc_next_second t).(tm_wday) = (t.(tm_wday) + (day_number (rtc_next_second t) - day_number t)) mod 7 /\
  t.(tm_year) <= (rtc_next_second t).(tm_year) <= t.(tm_year) + 1.
Proof.
  destruct t as [sec min hour mday mon year wday]. intros [? ? ? ? ? ? ?]. tm_cbn.
  unfold epoch_seconds. rewrite rtc_next_second_eq, !wrap32_small by lia.
  destruct (Z.leb_spec 60 (sec + 1)); [destruct (Z.leb_spec 60 (min + 1));
    [destruct (Z.leb_spec 24 (hour + 1)) |] |].
  1: { destruct (rtc_next_day_correct (mkTm 0 0 0 mday mon year wday)) as (Hv' & Hd & Hn & Hw & Hy).
       { constructor; tm_cbn; lia. }
       injection Hd as -> -> ->. rewrite Hn, Hw.
       change (day_number (mkTm 0 0 0 mday mon year wday)) with (day_number (mkTm sec min hour mday mon year wday)).
       tm_cbn.
       split_and!; [done | lia | f_equal; lia | lia | lia]. }
  all: tm_cbn.
  all: split; [constructor; tm_cbn; lia |].
  all: match goal with |- context [day_number (mkTm ?a ?b ?c _ _ _ _)] =>
         change (day_number (mkTm a b c mday mon year wday)) with (day_number (mkTm sec min hour mday mon year wday)) end.
  all: split_and!; [lia | rewrite Z.sub_diag, Z.add_0_r, Z.mod_small; lia | lia | lia].
Qed.


Lemma day_number_range t :
  tm_valid t -> 2 <= t.(tm_year) <= 137 -> -24837 <= day_number t <= 24836.
Proof.
  intros [_ _ _ Hmon Hmday _ Hy] Hyear. rewrite day_number_eq by done. cbn zeta.
  pose proof (days_in_month_pos t.(tm_mon) (t.(tm_year) + 1900) Hmon ltac:(lia)).
  destruct (Z.ltb_spec (t.(tm_mon) + 1) 3); Z.to_euclidean_division_equations; lia.
Qed.

(** The day of the week is that of the date; day 0 was a Thursday. *)
Definition weekday_right (t : tm) : Prop := t.(tm_wday) = (day_number t + 4) mod 7.

(** C30: One step of the clock is one second of the calendar: from a valid time
    between 1902 and 2037, [rtc_next_second] gives a valid time which
    [mktimegm] maps to the next second, leap days and the turn of the year
    included, and a right day of the week stays right. *)
Theorem rtc_next_second_counts t :
  tm_valid t -> 2 <= t.(tm_year) <= 137 ->
  tm_valid (rtc_next_second t) /\
  (exists x, mktimegm t = Some x /\ mktimegm (rtc_next_second t) = Some (x + 1)) /\
  (weekday_right t -> weekday_right (rtc_next_second t)).
Proof.
  intros Hv Hy. destruct (rtc_next_second_correct t Hv) as (Hv' & He & Hw & Hy').
  split; [done |]. pose proof (day_number_range t Hv Hy) as Hr. pose proof Hv as [? ? ? _ _ _ _].
  pose proof Hv' as [? ? ? _ _ _ _]. unfold epoch_seconds in He. split.
  - unfold mktimegm. rewrite !(proj2 (Z.leb_le (- 2 ^ 31) _)), !(proj2 (Z.ltb_lt _ (2 ^ 31))) by lia.
    eexists. split; [done |]. cbn [andb]. f_equal. lia.
  - unfold weekday_right. intros Hwd. rewrite Hw, Hwd, Z.add_mod_idemp_l by lia. f_equal. lia.
Qed.

(** The last second of February 1904, a leap year; it was a Monday. *)
Definition leap_second : tm := mkTm 59 59 23 29 1 4 1.

Lemma rtc_next_second_counts_witness :
  rtc_next_second leap_second = mkTm 0 0 0 1 2 4 2 /\
  exists x, mktimegm leap_second = Some x /\ mktimegm (mkTm 0 0 0 1 2 4 2) = Some (x + 1).
Proof.
  split; [reflexivity |].
  destruct (rtc_next_second_counts leap_second) as (_ & Hx & _); [constructor; by_eval | by_eval |].
  exact Hx.
Defined.

(** ** Date and registers *)

(** The digits of BCD *)
Lemma bcd_inverse a : 0 <= a < 100 ->
  let b := Z.lor (Z.shiftl (Z.quot a 10) 4) (Z.rem a 10) in
  0 <= b <= 2 * a /\ Z.shiftr b 4 * 10 + Z.land b 0x0f = a.
Proof.
  intros Ha. cbn zeta. rewrite Z.quot_div_nonneg, Z.rem_mod_nonneg by lia.
  pose proof (Z.mod_pos_bound a 10). pose proof (Z.div_mod a 10).
  assert (0 <= a / 10 < 10) by (split; [apply Z.div_pos | apply Z.div_lt_upper_bound]; lia).
  rewrite lor_shiftl_add by (unfold in_u; lia). change (2 ^ 4) with 16. split; [lia |].
  change 0x0f with (Z.ones 4). rewrite Z.land_ones, Z.shiftr_div_pow2 by lia. change (2 ^ 4) with 16.
  rewrite (Z.add_comm (a / 10 * 16)), Z.mod_add, Z.div_add, Z.div_small, (Z.mod_small (a mod 10)) by lia.
  lia.
Qed.

Lemma to_from_bcd s s' a :
  flag s RTC_REG_B REG_B_DM = flag s' RTC_REG_B REG_B_DM -> 0 <= a < 100 ->
  0 <= rtc_to_bcd s a <= 2 * a /\ rtc_from_bcd s' (rtc_to_bcd s a) = a.
Proof.
  intros Hf Ha. unfold rtc_to_bcd, rtc_from_bcd. rewrite <- Hf.
  destruct (flag s RTC_REG_B REG_B_DM); [lia | by apply bcd_inverse].
Qed.

Lemma cmos_put i v s j :
  (i < length s.(cmos_data))%nat ->
  cmos (put i v s) j = if decide (i = j) then wrap 8 v else cmos s j.
Proof.
  intros Hi. unfold cmos, put. cbn [set_cmos_data cmos_data]. destruct (decide (i = j)) as [-> |].
  - by rewrite list_lookup_insert_eq.
  - by rewrite list_lookup_insert_ne.
Qed.

Lemma put_length i v s : length (put i v s).(cmos_data) = length s.(cmos_data).
Proof. apply length_insert. Qed.

Lemma put_put i v v' s : put i v' (put i v s) = put i v' s.
Proof. unfold put, set_cmos_data. cbn. by rewrite list_insert_insert_eq. Qed.

(** The value [copy_hour] stores *)
Definition hour_register (s : RTCState) : Z :=
  let hour := s.(current_tm).(tm_hour) in
  if flag s RTC_REG_B REG_B_24H then rtc_to_bcd s hour
  else
    let r := wrap 8 (rtc_to_bcd s (Z.rem hour 12)) in
    if 12 <=? hour then Z.lor r 0x80 else r.

Lemma wrap8_idem v : wrap 8 (wrap 8 v) = wrap 8 v.
Proof. apply wrap_small, in_u_wrap. lia. Qed.

Lemma copy_hour_put s :
  length s.(cmos_data) = 128%nat -> copy_hour s = put RTC_HOURS (hour_register s) s.
Proof.
  intros Hl. unfold copy_hour, hour_register. destruct (flag s RTC_REG_B REG_B_24H); [done |].
  destruct (12 <=? s.(current_tm).(tm_hour)).
  - rewrite cmos_put by (rewrite Hl; unfold RTC_HOURS; lia). rewrite decide_True by done. apply put_put.
  - unfold put. by rewrite wrap8_idem.
Qed.

(** [%] rounds towards zero, and a negative remainder is corrected. *)
Lemma c_rem_year x : (if Z.rem x 100 <? 0 then Z.rem x 100 + 100 else Z.rem x 100) = x mod 100.
Proof. destruct (Z.ltb_spec (Z.rem x 100) 0); Z.to_euclidean_division_equations; lia. Qed.

(** The seven registers after [rtc_copy_date], and what stays *)
Lemma rtc_copy_date_cmos s :
  length s.(cmos_data) = 128%nat ->
  let s' := rtc_copy_date s in
  let t := s.(current_tm) in
  cmos s' RTC_SECONDS = wrap 8 (rtc_to_bcd s t.(tm_sec)) /\
  cmos s' RTC_MINUTES = wrap 8 (rtc_to_bcd s t.(tm_min)) /\
  cmos s' RTC_HOURS = wrap 8 (hour_register s) /\
  cmos s' RTC_DAY_OF_WEEK = wrap 8 (rtc_to_bcd s (t.(tm_wday) + 1)) /\
  cmos s' RTC_DAY_OF_MONTH = wrap 8 (rtc_to_bcd s t.(tm_mday)) /\
  cmos s' RTC_MONTH = wrap 8 (rtc_to_bcd s (t.(tm_mon) + 1)) /\
  cmos s' RTC_YEAR = wrap 8 (rtc_to_bcd s ((t.(tm_year) - s.(base_year)) mod 100)) /\
  cmos s' RTC_REG_B = cmos s RTC_REG_B /\
  s'.(base_year) = s.(base_year).
Proof.
  intros Hl. unfold rtc_copy_date. cbn zeta. rewrite copy_hour_put by (by rewrite !put_length).
  rewrite c_rem_year.
  destruct s as [l]. cbn [cmos_data] in Hl.
  do 14 (destruct l as [| ? l]; [discriminate Hl |]). split_and!; reflexivity.
Qed.

Lemma bcd_register s s' a :
  cmos s' RTC_REG_B = cmos s RTC_REG_B -> 0 <= a < 100 ->
  rtc_from_bcd s' (wrap 8 (rtc_to_bcd s a)) = a.
Proof.
  intros Hb Ha. destruct (to_from_bcd s s' a) as [Hr E]; [unfold flag; by rewrite Hb | done |].
  rewrite wrap_small by (unfold in_u; lia). exact E.
Qed.

Lemma land_7f_low r : 0 <= r < 128 -> Z.land r 0x7f = r /\ Z.land r 0x80 = 0.
Proof.
  intros Hr. split; [change 0x7f with (Z.ones 7); rewrite Z.land_ones by lia; by apply Z.mod_small |].
  change 0x80 with (Z.shiftl 1 7). apply land_bit_eq0; [lia |]. apply (testbit_high 7); unfold in_u; lia.
Qed.

Lemma lor_80 r : 0 <= r < 128 ->
  0 <= Z.lor r 0x80 < 256 /\ Z.land (Z.lor r 0x80) 0x7f = r /\ Z.land (Z.lor r 0x80) 0x80 = 0x80.
Proof.
  intros Hr. destruct (land_7f_low r Hr) as [E7 E8].
  split; [apply (in_u_lor 8); unfold in_u; lia |].
  rewrite !Z.land_lor_distr_l, E7, E8. split; [apply Z.lor_0_r | done].
Qed.

(** The hour register decodes to the hour, in both formats. *)
Lemma hour_register_decodes s s' :
  cmos s' RTC_REG_B = cmos s RTC_REG_B -> 0 <= s.(current_tm).(tm_hour) < 24 ->
  let h := wrap 8 (hour_register s) in
  rtc_from_bcd s' (Z.land h 0x7f) +
  (if negb (flag s' RTC_REG_B REG_B_24H) && c_true (Z.land h 0x80) then 12 else 0) =
  s.(current_tm).(tm_hour).
Proof.
  intros Hb Hh. cbn zeta. unfold hour_register, flag. rewrite Hb.
  destruct (c_true (Z.land (cmos s RTC_REG_B) REG_B_24H)); cbn [negb andb].
  - destruct (to_from_bcd s s' s.(current_tm).(tm_hour)) as [Hr E]; [unfold flag; by rewrite Hb | lia |].
    rewrite wrap_small by (unfold in_u; lia).
    destruct (land_7f_low (rtc_to_bcd s s.(current_tm).(tm_hour))) as [-> _]; [lia |].
    rewrite E. lia.
  - set (r := Z.rem (current_tm s).(tm_hour) 12).
    assert (Hr12 : 0 <= r < 12) by (unfold r; Z.to_euclidean_division_equations; lia).
    destruct (to_from_bcd s s' r) as [Hr E]; [unfold flag; by rewrite Hb | lia |].
    rewrite (wrap_small 8 (rtc_to_bcd s r)) by (unfold in_u; lia).
    destruct (Z.leb_spec 12 (current_tm s).(tm_hour)).
    + destruct (lor_80 (rtc_to_bcd s r)) as (Hb8 & E7 & E8); [lia |].
      rewrite wrap_small, E7, E8, E by done. cbn. unfold r. Z.to_euclidean_division_equations; lia.
    + destruct (land_7f_low (rtc_to_bcd s r)) as [E7 E8]; [lia |].
      rewrite wrap_small, E7, E8, E by (unfold in_u; lia). cbn. unfold r.
      Z.to_euclidean_division_equations; lia.
Qed.

(** The registers the clock shows for a valid time within the century of
    its base year decode to exactly that time, in binary and BCD, in 24-hour
    and 12-hour format: storing the date and setting the time from the
    registers changes nothing. *)
Theorem rtc_date_round_trip s :
  length s.(cmos_data) = 128%nat -> tm_valid s.(current_tm) ->
  s.(base_year) <= s.(current_tm).(tm_year) + 1900 < s.(base_year) + 100 ->
  (rtc_set_time (rtc_copy_date s)).(current_tm) = s.(current_tm).
Proof.
  intros Hl [? ? ? ? Hmday ? ?] Hyear.
  destruct (rtc_copy_date_cmos s Hl) as (Es & Em & Eh & Ew & Ed & Eo & Ey & Eb & Eby).
  pose proof (days_in_month_pos s.(current_tm).(tm_mon) (s.(current_tm).(tm_year) + 1900)
                ltac:(done) ltac:(lia)).
  pose proof (hour_register_decodes s (rtc_copy_date s) Eb ltac:(done)) as Hhour.
  set (s' := rtc_copy_date s) in *. unfold rtc_set_time. cbn [set_mon_events set_current_tm current_tm].
  rewrite Es, Em, Ew, Ed, Eo, Ey, Eby. unfold flag at 2. rewrite Eh.
  rewrite !bcd_register by (done || lia || (Z.to_euclidean_division_equations; lia)).
  replace (if negb _ && _ then _ + 12 else _) with (s.(current_tm).(tm_hour))
    by (rewrite <- Hhour; destruct (_ && _); lia).
  destruct s.(current_tm) as [sec min hour mday mon year wday]. tm_cbn.
  f_equal; Z.to_euclidean_division_equations; lia.
Qed.

(** A clock set to 12:34:56 on 29 February 2008 *)
Definition sample_rtc (reg_b : Z) : RTCState :=
  put RTC_REG_B reg_b (rtc_initfn 2000 (mkTm 56 34 12 29 1 108 5) 0).

Lemma rtc_date_round_trip_witness :
  (rtc_set_time (rtc_copy_date (sample_rtc 0))).(current_tm) = mkTm 56 34 12 29 1 108 5.
Proof.
  apply (rtc_date_round_trip (sample_rtc 0)); [reflexivity | constructor; by_eval | by_eval].
Defined.

(** In 12-hour format the clock counts the hours 0 to 11 instead of 12, 1
    to 11: noon and midnight are shown as hour 0, a guest that writes the noon
    of the data sheet (12 with the PM bit) sets hour 24, and one that writes
    midnight (12 without it) sets noon. *)
Theorem rtc_12_hour_noon s :
  length s.(cmos_data) = 128%nat -> flag s RTC_REG_B REG_B_24H = false ->
  (s.(current_tm).(tm_hour) = 0 \/ s.(current_tm).(tm_hour) = 12 ->
   Z.land (cmos (rtc_copy_date s) RTC_HOURS) 0x7f = 0) /\
  (cmos s RTC_HOURS = Z.lor (rtc_to_bcd s 12) 0x80 ->
   (rtc_set_time s).(current_tm).(tm_hour) = 24) /\
  (cmos s RTC_HOURS = rtc_to_bcd s 12 -> (rtc_set_time s).(current_tm).(tm_hour) = 12).
Proof.
  intros Hl H24. destruct (to_from_bcd s s 12 eq_refl) as [Hr E]; [lia |].
  destruct (lor_80 (rtc_to_bcd s 12)) as (_ & E7 & E8); [lia |].
  destruct (land_7f_low (rtc_to_bcd s 12)) as [L7 L8]; [lia |]. split_and!.
  - intros Hh. destruct (rtc_copy_date_cmos s Hl) as (_ & _ & -> & _). unfold hour_register. rewrite H24.
    destruct Hh as [-> | ->]; unfold rtc_to_bcd; by destruct (flag s RTC_REG_B REG_B_DM).
  - intros Hc. unfold rtc_set_time. cbn [set_mon_events set_current_tm current_tm tm_hour].
    unfold flag at 2. by rewrite H24, Hc, E7, E8, E.
  - intros Hc. unfold rtc_set_time. cbn [set_mon_events set_current_tm current_tm tm_hour].
    unfold flag at 2. by rewrite H24, Hc, L7, L8, E.
Qed.

Lemma rtc_12_hour_noon_witness :
  Z.land (cmos (rtc_copy_date (sample_rtc 0)) RTC_HOURS) 0x7f = 0 /\
  (rtc_set_time (put RTC_HOURS 0x92 (sample_rtc 0))).(current_tm).(tm_hour) = 24.
Proof.
  split.
  - apply (rtc_12_hour_noon (sample_rtc 0) eq_refl eq_refl). by right.
  - apply (rtc_12_hour_noon (put RTC_HOURS 0x92 (sample_rtc 0)) eq_refl eq_refl). reflexivity.
Defined.

(** ** The periodic timer *)

Definition periodic_enabled (s : RTCState) : Prop :=
  Z.land (cmos s RTC_REG_A) 0x0f <> 0 /\ flag s RTC_REG_B REG_B_PIE = true.

Lemma rtc_period_bounds s :
  Z.land (cmos s RTC_REG_A) 0x0f <> 0 ->
  exists k, 2 <= k <= 14 /\ rtc_period s = 2 ^ k.
Proof.
  intros Hne. unfold rtc_period. change 0x0f with (Z.ones 4) in *. rewrite Z.land_ones in * by lia.
  pose proof (Z.mod_pos_bound (cmos s RTC_REG_A) (2 ^ 4) ltac:(lia)) as Hc.
  set (c := cmos s RTC_REG_A mod 2 ^ 4) in *. change (2 ^ 4) with 16 in Hc.
  destruct (Z.leb_spec c 2);
    [exists (c + 7 - 1) | exists (c - 1)]; (split; [lia | by rewrite Z.shiftl_1_l]).
Qed.

Lemma land_lnot_ones x k : 0 <= k -> Z.land x (Z.lnot (2 ^ k - 1)) = x - x mod 2 ^ k.
Proof.
  intros Hk. rewrite <- Z.ldiff_land. replace (2 ^ k - 1) with (Z.ones k) by (rewrite Z.ones_equiv; lia).
  rewrite Z.ldiff_ones_r, Z.shiftl_mul_pow2, Z.shiftr_div_pow2 by done.
  pose proof (Z.div_mod x (2 ^ k) ltac:(lia)). lia.
Qed.

(** With the periodic interrupt enabled the timer is armed strictly after
    the given time and at most one period (plus one nanosecond) later, on a
    multiple of the period of the 32 kHz clock; the period has between 4 and
    16384 cycles. *)
Theorem rtc_timer_progress s t :
  0 <= t < 2 ^ 62 -> periodic_enabled s ->
  exists s' k next, rtc_timer_update t s = Some s' /\
    2 <= k <= 14 /\ s'.(period) = 2 ^ k /\ next mod 2 ^ k = 0 /\
    s'.(periodic_timer) = Some (next * 1000000000 / 32768 + 1) /\
    t < next * 1000000000 / 32768 + 1 <= t + 2 ^ k * 1000000000 / 32768 + 2.
Proof.
  intros Ht [Ha Hpie]. destruct (rtc_period_bounds s Ha) as (k & Hk & Hp).
  unfold rtc_timer_update. rewrite (proj2 (Z.eqb_neq _ _) Ha), Hpie. cbn [negb andb orb]. rewrite Hp.
  assert (Hpow : 4 <= 2 ^ k <= 16384)
    by (split; [apply (Z.pow_le_mono_r 2 2) | apply (Z.pow_le_mono_r 2 k 14)]; lia).
  rewrite (wrap_small 64 t) by (unfold in_u; lia).
  rewrite muldiv64_spec by (unfold in_u, get_ticks_per_sec; lia). bind_step.
  set (cur := t * 32768 / get_ticks_per_sec).
  assert (Hcur : 0 <= cur < 2 ^ 62 /\ cur * 1000000000 <= t * 32768 < (cur + 1) * 1000000000).
  { unfold cur, get_ticks_per_sec. pose proof (Z.div_mod (t * 32768) 1000000000 ltac:(lia)).
    pose proof (Z.mod_pos_bound (t * 32768) 1000000000 ltac:(lia)).
    pose proof (Z.div_pos (t * 32768) 1000000000 ltac:(lia) ltac:(lia)). lia. }
  rewrite (wrap_small 64 cur) by (unfold in_u; lia). rewrite land_lnot_ones by lia.
  pose proof (Z.mod_pos_bound cur (2 ^ k) ltac:(lia)) as Hm.
  assert (Hdiv : (cur - cur mod 2 ^ k + 2 ^ k) mod 2 ^ k = 0).
  { pose proof (Z.div_mod cur (2 ^ k) ltac:(lia)).
    replace (cur - cur mod 2 ^ k + 2 ^ k) with ((cur / 2 ^ k + 1) * 2 ^ k) by lia.
    apply Z.mod_mul. lia. }
  set (next := cur - cur mod 2 ^ k + 2 ^ k) in *.
  assert (Hq : next * 1000000000 / 32768 * 32768 <= next * 1000000000 < (next * 1000000000 / 32768 + 1) * 32768).
  { pose proof (Z.div_mod (next * 1000000000) 32768 ltac:(lia)).
    pose proof (Z.mod_pos_bound (next * 1000000000) 32768 ltac:(lia)). lia. }
  assert (Hq2 : 2 ^ k * 1000000000 < (2 ^ k * 1000000000 / 32768 + 1) * 32768).
  { pose proof (Z.div_mod (2 ^ k * 1000000000) 32768 ltac:(lia)).
    pose proof (Z.mod_pos_bound (2 ^ k * 1000000000) 32768 ltac:(lia)). lia. }
  rewrite muldiv64_spec by (unfold in_u, get_ticks_per_sec; lia). bind_step.
  assert (Hfit : in_u 64 (next * get_ticks_per_sec / 32768))
    by (unfold in_u, get_ticks_per_sec; split; [apply Z.div_pos |]; lia).
  rewrite (wrap_small 64 _ Hfit). unfold get_ticks_per_sec.
  eexists _, k, next. split; [reflexivity |]. split_and!; try done; lia.
Qed.

Lemma rtc_timer_progress_witness :
  exists s' k next, rtc_timer_update 12345678901 (sample_rtc 0x42) = Some s' /\
    2 <= k <= 14 /\ s'.(period) = 2 ^ k /\ next mod 2 ^ k = 0 /\
    s'.(periodic_timer) = Some (next * 1000000000 / 32768 + 1) /\
    12345678901 < next * 1000000000 / 32768 + 1 <= 12345678901 + 2 ^ k * 1000000000 / 32768 + 2.
Proof. apply rtc_timer_progress; [lia | split; by_eval]. Defined.
