(* ===== verification/TimerList.v ===== *)
(** * The active timer lists (qemu/qemu-timer.c)

    The timer objects live in a heap indexed by their addresses, and the
    active timers of each of the three clocks are a singly linked list through
    their [next] fields, sorted by expiry time.  The functions below follow
    the pointers the way the C loops do: [pt] is the address of a link, either
    the list head or the [next] field of a timer.  [None] is undefined
    behaviour: a freed or NULL timer is dereferenced, or the links are not
    followed to an end (the loops have as much fuel as there are timers).

    Theorems: the pointer operations refine a specification on lists of
    (timer, expiry time) pairs; deleting and arming never fail on a
    well-formed heap and keep every list duplicate-free and sorted, timers of
    equal expiry in the order they were armed; other clocks are untouched. *)

From Stdlib Require Import ZArith Lia.
From stdpp Require Import base option numbers fin_maps gmap fin_sets sorting list.
From S2P Require Import Prelude.

Local Open Scope Z_scope.

(** ** State *)

(** A timer; [clock] is the type of its clock, [cb] and [opaque] name its
    callback, [next] is the link of the active list. *)
Record QEMUTimer := mkTimer {
  clock : nat;
  expire_time : Z;
  scale : Z;
  cb : nat;
  opaque : nat;
  next : option nat
}.

Definition set_next (v : option nat) (t : QEMUTimer) : QEMUTimer :=
  mkTimer t.(clock) t.(expire_time) t.(scale) t.(cb) t.(opaque) v.
Definition set_expire_time (v : Z) (t : QEMUTimer) : QEMUTimer :=
  mkTimer t.(clock) v t.(scale) t.(cb) t.(opaque) t.(next).

(** The heap of timers and the array [active_timers] *)
Record tlists := mkLists {
  timers : gmap nat QEMUTimer;
  active_timers : list (option nat)
}.

Definition QEMU_CLOCK_REALTIME : nat := 0.
Definition QEMU_CLOCK_VIRTUAL : nat := 1.
Definition QEMU_CLOCK_HOST : nat := 2.
Definition QEMU_NUM_CLOCKS : nat := 3.

Definition SCALE_MS : Z := 1000000.
Definition SCALE_US : Z := 1000.
Definition SCALE_NS : Z := 1.

(** ** The operations *)

(** [qemu_mallocz] gives a timer at an address not in use; all its fields but
    the four assigned are zero. *)
Definition qemu_new_timer (ty : nat) (sc : Z) (f arg : nat) (s : tlists) : nat * tlists :=
  let ts := fresh (dom s.(timers)) in
  (ts, mkLists (<[ts := mkTimer ty 0 sc f arg None]> s.(timers)) s.(active_timers)).

Definition qemu_free_timer (ts : nat) (s : tlists) : tlists :=
  mkLists (delete ts s.(timers)) s.(active_timers).

(** [*pt] and [*pt = v]; [pt] is [None] for [&active_timers[type]] and
    [Some t] for [&t->next] *)
Definition load_link (ty : nat) (pt : option nat) (s : tlists) : option (option nat) :=
  match pt with
  | None => s.(active_timers) !! ty
  | Some i => next <$> s.(timers) !! i
  end.

Definition store_link (ty : nat) (pt v : option nat) (s : tlists) : option tlists :=
  match pt with
  | None =>
      _ ← s.(active_timers) !! ty;
      Some (mkLists s.(timers) (<[ty := v]> s.(active_timers)))
  | Some i =>
      t ← s.(timers) !! i;
      Some (mkLists (<[i := set_next v t]> s.(timers)) s.(active_timers))
  end.

Definition loop_fuel (s : tlists) : nat := S (size s.(timers)).

Fixpoint del_loop (fuel : nat) (ty ts : nat) (pt : option nat) (s : tlists) : option tlists :=
  match fuel with
  | O => None
  | S fuel =>
      t ← load_link ty pt s;
      match t with
      | None => Some s
      | Some t =>
          if decide (t = ts) then
            o ← s.(timers) !! t;
            store_link ty pt o.(next) s
          else del_loop fuel ty ts (Some t) s
      end
  end.

Definition qemu_del_timer (ts : nat) (s : tlists) : option tlists :=
  o ← s.(timers) !! ts;
  del_loop (loop_fuel s) o.(clock) ts None s.

Definition qemu_timer_expired_ns (timer_head : option nat) (current_time : Z) (s : tlists)
    : option bool :=
  match timer_head with
  | None => Some false
  | Some t => o ← s.(timers) !! t; Some (o.(expire_time) <=? current_time)
  end.

(** The search for the place of a new expiry time; the result is the link to
    change *)
Fixpoint insert_loop (fuel : nat) (ty : nat) (expire : Z) (pt : option nat) (s : tlists)
    : option (option nat) :=
  match fuel with
  | O => None
  | S fuel =>
      t ← load_link ty pt s;
      b ← qemu_timer_expired_ns t expire s;
      if (b : bool) then insert_loop fuel ty expire t s else Some pt
  end.

(** The list part of [qemu_mod_timer_ns]: the link that now holds the timer,
    and the new lists *)
Definition mod_timer_links (ts : nat) (expire : Z) (s : tlists) : option (option nat * tlists) :=
  s ← qemu_del_timer ts s;
  o ← s.(timers) !! ts;
  pt ← insert_loop (loop_fuel s) o.(clock) expire None s;
  q ← load_link o.(clock) pt s;
  let s := mkLists (<[ts := set_next q (set_expire_time expire o)]> s.(timers))
             s.(active_timers) in
  s ← store_link o.(clock) pt (Some ts) s;
  Some (pt, s).

Fixpoint pending_loop (fuel : nat) (ts : nat) (t : option nat) (s : tlists) : option bool :=
  match fuel with
  | O => None
  | S fuel =>
      match t with
      | None => Some false
      | Some t =>
          if decide (t = ts) then Some true
          else o ← s.(timers) !! t; pending_loop fuel ts o.(next) s
      end
  end.

Definition qemu_timer_pending (ts : nat) (s : tlists) : option bool :=
  o ← s.(timers) !! ts;
  hd ← s.(active_timers) !! o.(clock);
  pending_loop (loop_fuel s) ts hd s.

(** ** The specification: queues of (timer, expiry time) pairs *)

Abbreviation queue := (list (nat * Z)).

Definition spec_del (ts : nat) (q : queue) : queue := filter (fun p => p.1 <> ts) q.

Fixpoint spec_insert (ts : nat) (e : Z) (q : queue) : queue :=
  match q with
  | [] => [(ts, e)]
  | p :: q => if p.2 <=? e then p :: spec_insert ts e q else (ts, e) :: p :: q
  end.

(** A run of links from [p] to [r] through the timers of [q], all of clock
    [ty] and armed for the times of [q] *)
Fixpoint seg (h : gmap nat QEMUTimer) (ty : nat) (p : option nat) (q : queue) (r : option nat)
    : Prop :=
  match q with
  | [] => p = r
  | (t, e) :: q =>
      p = Some t /\
      exists o, h !! t = Some o /\ o.(clock) = ty /\ o.(expire_time) = e /\ seg h ty o.(next) q r
  end.

Definition earlier (p p' : nat * Z) : Prop := p.2 <= p'.2.

(** The list of clock [ty] holds the queue [q]. *)
Record clock_queue (s : tlists) (ty : nat) (q : queue) : Prop := {
  cq_seg : exists hd, s.(active_timers) !! ty = Some hd /\ seg s.(timers) ty hd q None;
  cq_nodup : NoDup q.*1;
  cq_sorted : StronglySorted earlier q
}.

(** The whole state holds the queues [Q]. *)
Definition holds (s : tlists) (Q : nat -> queue) : Prop :=
  forall ty, (ty < QEMU_NUM_CLOCKS)%nat -> clock_queue s ty (Q ty).

Definition set_queue (ty : nat) (q : queue) (Q : nat -> queue) : nat -> queue :=
  fun ty' => if decide (ty' = ty) then q else Q ty'.

(** ** Segments *)

Lemma seg_app h ty p q1 q2 r :
  seg h ty p (q1 ++ q2) r <-> exists m, seg h ty p q1 m /\ seg h ty m q2 r.
Proof.
  revert p. induction q1 as [| [t e] q1 IH]; intros p; cbn.
  - split; [intros; by exists p | by intros (? & -> & ?)].
  - setoid_rewrite IH. split.
    + intros (-> & o & ? & ? & ? & m & ? & ?). exists m. eauto 8.
    + intros (m & (-> & o & ? & ? & ? & ?) & ?). eauto 10.
Qed.

Lemma seg_frame h ty p q r i o :
  i ∉ q.*1 -> seg (<[i := o]> h) ty p q r <-> seg h ty p q r.
Proof.
  revert p. induction q as [| [t e] q IH]; intros p Hi; cbn; [done |].
  cbn in Hi. apply not_elem_of_cons in Hi as [Hne Hi].
  rewrite lookup_insert_ne by done. by setoid_rewrite IH.
Qed.

Lemma seg_clock h ty p q r i :
  seg h ty p q r -> i ∈ q.*1 -> exists o, h !! i = Some o /\ o.(clock) = ty.
Proof.
  revert p. induction q as [| [t e] q IH]; intros p; cbn; [set_solver |].
  intros (-> & o & Ho & Hty & _ & Hseg) [-> | Hi]%elem_of_cons; eauto.
Qed.

(** A timer of another clock, or a new one, is on no other list. *)
Lemma seg_frame_clock h ty p q r i o :
  (forall o', h !! i = Some o' -> o'.(clock) <> ty) ->
  seg h ty p q r -> seg (<[i := o]> h) ty p q r.
Proof.
  intros Hne Hseg. apply seg_frame; [| done]. intros Hi.
  destruct (seg_clock _ _ _ _ _ _ Hseg Hi) as (o' & Ho' & Hc). by apply (Hne o').
Qed.

(** A list without duplicates is shorter than the heap. *)
Lemma seg_length h ty p q r : seg h ty p q r -> NoDup q.*1 -> (length q <= size h)%nat.
Proof.
  intros Hseg Hnd. rewrite <- (length_fmap fst q), <- size_dom.
  rewrite <- (size_list_to_set (C := gset nat)) by done.
  apply subseteq_size. intros i Hi%elem_of_list_to_set.
  destruct (seg_clock _ _ _ _ _ _ Hseg Hi) as (o & Ho & _). by apply elem_of_dom_2 in Ho.
Qed.

(** The address of the link after the timers of [pre] *)
Definition pt_of (pre : queue) : option nat := fst <$> last pre.

Lemma pt_of_snoc pre t e : pt_of (pre ++ [(t, e)]) = Some t.
Proof. unfold pt_of. by rewrite last_snoc. Qed.

(** A part of a list, [s] holding [pre] followed by what [m] points to *)
Definition split_at (s : tlists) (ty : nat) (pre : queue) (m : option nat) : Prop :=
  exists hd, s.(active_timers) !! ty = Some hd /\ seg s.(timers) ty hd pre m.

Lemma load_split s ty pre m : split_at s ty pre m -> load_link ty (pt_of pre) s = Some m.
Proof.
  intros (hd & Hhd & Hseg). destruct pre as [| [t e] pre _] using rev_ind.
  - cbn in *. by subst.
  - rewrite pt_of_snoc. apply seg_app in Hseg as (? & _ & -> & o & Ho & _ & _ & <-).
    cbn. by rewrite Ho.
Qed.

Lemma split_snoc s ty pre t e o :
  split_at s ty pre (Some t) -> s.(timers) !! t = Some o -> o.(clock) = ty ->
  o.(expire_time) = e ->
  split_at s ty (pre ++ [(t, e)]) o.(next).
Proof.
  intros (hd & Hhd & Hseg) Ho Hc He. exists hd. split; [done |].
  apply seg_app. exists (Some t). split; [done |]. split; [done |]. by exists o.
Qed.

(** Only links of clock [ty] differ: the other lists and the other fields of
    the timers are as before. *)
Record only_links (ty : nat) (s s' : tlists) : Prop := {
  ol_length : length s'.(active_timers) = length s.(active_timers);
  ol_others : forall ty' q r, ty' <> ty -> split_at s ty' q r -> split_at s' ty' q r;
  ol_timers : forall t o, s.(timers) !! t = Some o ->
    exists n, s'.(timers) !! t = Some (set_next n o);
  ol_size : size s'.(timers) = size s.(timers)
}.

Lemma set_next_id o : set_next o.(next) o = o.
Proof. by destruct o. Qed.

Lemma only_links_refl ty s : only_links ty s s.
Proof.
  constructor; try done. intros t o Ho. exists o.(next). by rewrite set_next_id.
Qed.

Lemma store_head s ty m v :
  s.(active_timers) !! ty = Some m ->
  exists s', store_link ty None v s = Some s' /\ s'.(active_timers) !! ty = Some v /\
    s'.(timers) = s.(timers) /\ only_links ty s s'.
Proof.
  intros Hm. cbn. rewrite Hm. eexists. split; [reflexivity |].
  cbn [active_timers timers]. split; [ | split; [done | ] ].
  - by rewrite list_lookup_insert_eq by (by eapply lookup_lt_Some).
  - constructor; cbn [active_timers timers]; [apply length_insert | | | done].
    + intros ty' q r Hne (hd & Hhd & Hseg). exists hd. cbn [active_timers timers].
      by rewrite list_lookup_insert_ne.
    + intros t o Ho. exists o.(next). by rewrite set_next_id.
Qed.

Lemma store_next s ty t o v :
  s.(timers) !! t = Some o -> o.(clock) = ty ->
  exists s', store_link ty (Some t) v s = Some s' /\
    s'.(active_timers) = s.(active_timers) /\
    s'.(timers) = <[t := set_next v o]> s.(timers) /\ only_links ty s s'.
Proof.
  intros Ho Hc. cbn. rewrite Ho. eexists. split; [reflexivity |].
  cbn [active_timers timers]. split_and!; [done | done |].
  constructor; cbn [active_timers timers]; [done | | |].
  - intros ty' q r Hne (hd & Hhd & Hseg). exists hd. split; [done |].
    apply seg_frame_clock; [| done]. intros o' Ho'. cbn in Ho'. congruence.
  - intros t' o' Ho'. destruct (decide (t' = t)) as [-> | Hne].
    + rewrite lookup_insert_eq. simplify_eq. by exists v.
    + rewrite lookup_insert_ne by done. exists o'.(next). by rewrite set_next_id.
  - apply map_size_insert_Some. by exists o.
Qed.

(** Writing the link after [pre] keeps [pre], and whatever does not use the
    timers of [pre]. *)
Lemma store_split s ty pre m v :
  split_at s ty pre m -> NoDup pre.*1 ->
  exists s', store_link ty (pt_of pre) v s = Some s' /\ split_at s' ty pre v /\
    (forall p q r, (forall t, t ∈ pre.*1 -> t ∉ q.*1) ->
       seg s.(timers) ty p q r -> seg s'.(timers) ty p q r) /\
    only_links ty s s'.
Proof.
  intros (hd & Hhd & Hseg) Hnd. destruct pre as [| [t e] pre _] using rev_ind.
  - destruct (store_head s ty hd v Hhd) as (s' & Es & Hhd' & Ht & Hol).
    exists s'. split; [done |]. split; [by exists v |]. by rewrite Ht.
  - rewrite pt_of_snoc. rewrite fmap_app in Hnd. cbn in Hnd.
    apply seg_app in Hseg as (? & Hpre & -> & o & Ho & Hc & He & Hm).
    apply NoDup_app in Hnd as (Hnd & Hdisj & _).
    destruct (store_next s ty t o v Ho Hc) as (s' & Es & Ha & Ht & Hol).
    exists s'. split; [done |]. rewrite Ht. split; [| split; [| done]].
    + exists hd. rewrite Ha, Ht. split; [done |]. apply seg_app. exists (Some t). cbn [seg].
      split; [apply seg_frame; [| done]; intros Hin; apply (Hdisj t Hin); left |].
      split; [done |]. exists (set_next v o). by rewrite lookup_insert_eq.
    + intros p q r Hq Hs. apply seg_frame; [| done]. apply Hq.
      rewrite fmap_app. apply elem_of_app. right. left.
Qed.

(** ** Deleting *)

Lemma spec_del_id ts q : ts ∉ q.*1 -> spec_del ts q = q.
Proof.
  induction q as [| [t e] q IH]; [done |]. rewrite fmap_cons. intros [Hne Hin]%not_elem_of_cons.
  unfold spec_del. rewrite filter_cons_True by done. f_equal. by apply IH.
Qed.

Lemma spec_del_cons_eq ts e q : ts ∉ q.*1 -> spec_del ts ((ts, e) :: q) = q.
Proof.
  intros Hin. unfold spec_del. rewrite filter_cons_False by (cbn; tauto). by apply spec_del_id.
Qed.

Lemma spec_del_cons_ne ts t e q : t <> ts -> spec_del ts ((t, e) :: q) = (t, e) :: spec_del ts q.
Proof. intros Hne. unfold spec_del. by rewrite filter_cons_True. Qed.

Lemma del_loop_spec fuel s ty ts pre m post :
  (length post < fuel)%nat -> split_at s ty pre m -> seg s.(timers) ty m post None ->
  NoDup (pre ++ post).*1 ->
  exists s', del_loop fuel ty ts (pt_of pre) s = Some s' /\
    split_at s' ty (pre ++ spec_del ts post) None /\ only_links ty s s'.
Proof.
  revert s pre m post. induction fuel as [| fuel IH]; intros s pre m post Hf Hpre Hpost Hnd;
    [lia |]. cbn [del_loop]. rewrite (load_split _ _ _ _ Hpre). bind_step.
  destruct post as [| [t e] post]; cbn in Hpost.
  - subst m. exists s. rewrite app_nil_r. split_and!; [done | done | apply only_links_refl].
  - destruct Hpost as (-> & o & Ho & Hc & He & Hpost). cbn [length] in Hf.
    rewrite fmap_app in Hnd. apply NoDup_app in Hnd as Hnd'. cbn in Hnd'.
    destruct Hnd' as (Hnd1 & Hdisj & [Ht Hnd2]%NoDup_cons).
    destruct (decide (t = ts)) as [-> | Hne].
    + rewrite Ho. bind_step. rewrite spec_del_cons_eq by done.
      destruct (store_split s ty pre _ o.(next) Hpre Hnd1) as (s' & Es & (hd & Hhd & Hsp) & Hk & Hol).
      exists s'. split_and!; [done | | done]. exists hd. split; [done |].
      apply seg_app. exists o.(next). split; [done |]. apply Hk; [| done].
      intros x Hx Hx'. apply (Hdisj x Hx). by right.
    + pose proof (split_snoc s ty pre t e o Hpre Ho Hc He) as Hpre'.
      destruct (IH s (pre ++ [(t, e)]) o.(next) post ltac:(lia) Hpre' Hpost) as (s' & Es & Hsp & Hol).
      { rewrite <- app_assoc. cbn. by rewrite fmap_app. }
      rewrite pt_of_snoc in Es. exists s'. split_and!; [done | | done].
      rewrite spec_del_cons_ne by done. by rewrite <- app_assoc in Hsp.
Qed.

Lemma spec_del_elem ts q p : p ∈ spec_del ts q <-> p ∈ q /\ p.1 <> ts.
Proof. unfold spec_del. rewrite list_elem_of_filter. tauto. Qed.

Lemma spec_del_ids ts q i : i ∈ (spec_del ts q).*1 <-> i ∈ q.*1 /\ i <> ts.
Proof.
  rewrite !list_elem_of_fmap. setoid_rewrite spec_del_elem. split.
  - intros (p & -> & Hp & Hne). split; [by exists p | done].
  - intros ((p & -> & Hp) & Hne). by exists p.
Qed.

Lemma spec_del_nodup ts q : NoDup q.*1 -> NoDup (spec_del ts q).*1.
Proof.
  induction q as [| [t e] q IH]; [done |]. rewrite fmap_cons, NoDup_cons. intros [Hin Hnd].
  destruct (decide (t = ts)) as [-> | Hne]; [by rewrite spec_del_cons_eq |].
  rewrite spec_del_cons_ne, fmap_cons, NoDup_cons by done.
  split; [| by apply IH]. rewrite spec_del_ids. tauto.
Qed.

Lemma spec_del_sorted ts q : StronglySorted earlier q -> StronglySorted earlier (spec_del ts q).
Proof.
  induction q as [| p q IH]; [done |]. rewrite StronglySorted_cons. intros [Hp Hs].
  specialize (IH Hs). destruct p as [t e]. destruct (decide (t = ts)) as [-> | Hne].
  { unfold spec_del. rewrite filter_cons_False by (cbn; tauto). exact IH. }
  rewrite spec_del_cons_ne by done. apply StronglySorted_cons. split; [| done].
  apply Forall_forall. intros p' [Hp' _]%spec_del_elem. rewrite Forall_forall in Hp. by apply Hp.
Qed.

(** A change of the links of clock [ty] carries the queues of the others. *)
Lemma holds_update s s' Q ty q :
  holds s Q -> only_links ty s s' -> split_at s' ty q None -> NoDup q.*1 ->
  StronglySorted earlier q -> holds s' (set_queue ty q Q).
Proof.
  intros HQ Hol Hq Hnd Hs ty' Hty. unfold set_queue. destruct (decide (ty' = ty)) as [-> | Hne].
  - by constructor.
  - destruct (HQ ty' Hty) as [Hseg Hnd' Hs']. constructor; [| done | done].
    by apply (ol_others _ _ _ Hol).
Qed.

Lemma fuel_enough s ty hd q :
  seg s.(timers) ty hd q None -> NoDup q.*1 -> (length q < loop_fuel s)%nat.
Proof. intros Hs Hnd. pose proof (seg_length _ _ _ _ _ Hs Hnd). unfold loop_fuel. lia. Qed.

Lemma del_timer_holds s Q ts o :
  holds s Q -> s.(timers) !! ts = Some o -> (o.(clock) < QEMU_NUM_CLOCKS)%nat ->
  exists s', qemu_del_timer ts s = Some s' /\ only_links o.(clock) s s' /\
    split_at s' o.(clock) (spec_del ts (Q o.(clock))) None /\
    holds s' (set_queue o.(clock) (spec_del ts (Q o.(clock))) Q).
Proof.
  intros HQ Ho Hty. destruct (HQ _ Hty) as [(hd & Hhd & Hseg) Hnd Hs].
  unfold qemu_del_timer. rewrite Ho. bind_step.
  destruct (del_loop_spec (loop_fuel s) s o.(clock) ts [] hd (Q o.(clock)))
    as (s' & Es & Hsp & Hol); [by eapply fuel_enough | by exists hd | done | done |].
  exists s'. split_and!; [done | done | done |].
  apply (holds_update s); [done | done | done | by apply spec_del_nodup | by apply spec_del_sorted].
Qed.

(** ** Arming *)

(** The queue splits where the search stops: every timer before is due no later
    than [e], the first one after is due later. *)
Lemma spec_insert_split ts e pre post :
  Forall (fun p => p.2 <= e) pre ->
  from_option (fun p => e < p.2) True (head post) ->
  spec_insert ts e (pre ++ post) = pre ++ (ts, e) :: post.
Proof.
  intros Hpre Hpost. induction Hpre as [| p pre Hp Hpre IH]; cbn.
  - destruct post as [| p post]; [done |]. cbn in *.
    rewrite (proj2 (Z.leb_gt p.2 e)) by lia. done.
  - rewrite (proj2 (Z.leb_le p.2 e)) by lia. by rewrite IH.
Qed.

Lemma insert_loop_spec fuel s ty e pre m post :
  (length post < fuel)%nat -> split_at s ty pre m -> seg s.(timers) ty m post None ->
  Forall (fun p => p.2 <= e) pre ->
  exists pre' m' post', insert_loop fuel ty e (pt_of pre) s = Some (pt_of pre') /\
    pre ++ post = pre' ++ post' /\ split_at s ty pre' m' /\ seg s.(timers) ty m' post' None /\
    Forall (fun p => p.2 <= e) pre' /\ from_option (fun p => e < p.2) True (head post').
Proof.
  revert pre m post. induction fuel as [| fuel IH]; intros pre m post Hf Hpre Hpost Hle; [lia |].
  cbn [insert_loop]. rewrite (load_split _ _ _ _ Hpre). bind_step.
  destruct post as [| [t e'] post]; cbn in Hpost.
  - subst m. cbn. exists pre, None, []. rewrite app_nil_r. done.
  - destruct Hpost as (-> & o & Ho & Hc & He & Hpost). cbn [length] in Hf.
    cbn [qemu_timer_expired_ns]. rewrite Ho. do 2 bind_step. destruct (Z.leb_spec o.(expire_time) e).
    + pose proof (split_snoc s ty pre t e' o Hpre Ho Hc He) as Hpre'.
      destruct (IH (pre ++ [(t, e')]) o.(next) post ltac:(lia) Hpre' Hpost)
        as (pre2 & m2 & post2 & E & Happ & Hrest).
      { apply Forall_app. split; [done |]. constructor; [cbn; lia | done]. }
      rewrite pt_of_snoc in E. exists pre2, m2, post2. split; [done |].
      rewrite <- app_assoc in Happ. done.
    + exists pre, (Some t), ((t, e') :: post). split_and!; [done | done | done | | done | cbn; lia].
      split; [done |]. by exists o.
Qed.

Lemma spec_insert_ids ts e q : (spec_insert ts e q).*1 ≡ₚ ts :: q.*1.
Proof.
  induction q as [| p q IH]; cbn; [done |]. destruct (p.2 <=? e); cbn; [| done].
  rewrite IH. apply perm_swap.
Qed.

Lemma spec_insert_perm ts e q : spec_insert ts e q ≡ₚ (ts, e) :: q.
Proof.
  induction q as [| p q IH]; cbn; [done |]. destruct (p.2 <=? e); cbn; [| done].
  rewrite IH. apply perm_swap.
Qed.

Lemma spec_insert_sorted ts e q :
  StronglySorted earlier q -> StronglySorted earlier (spec_insert ts e q).
Proof.
  induction q as [| p q IH]; cbn; [intros; repeat constructor |].
  rewrite StronglySorted_cons. intros [Hp Hs].
  destruct (Z.leb_spec p.2 e); rewrite !StronglySorted_cons.
  - split; [| by apply IH]. rewrite spec_insert_perm. constructor; [done |]. done.
  - split_and!; [| done | done]. constructor; [unfold earlier; cbn; lia |].
    eapply Forall_impl; [exact Hp |]. unfold earlier. intros p' Hp'. cbn in *. lia.
Qed.

(** What a timer keeps while it is armed and disarmed *)
Definition static (o : QEMUTimer) : nat * Z * nat * nat :=
  (o.(clock), o.(scale), o.(cb), o.(opaque)).

Definition keeps (s s' : tlists) : Prop :=
  forall t o, s.(timers) !! t = Some o -> exists o', s'.(timers) !! t = Some o' /\ static o' = static o.

Lemma keeps_trans s1 s2 s3 : keeps s1 s2 -> keeps s2 s3 -> keeps s1 s3.
Proof.
  intros H12 H23 t o Ho. destruct (H12 t o Ho) as (o2 & Ho2 & <-).
  destruct (H23 t o2 Ho2) as (o3 & Ho3 & <-). eauto.
Qed.

Lemma only_links_keeps ty s s' : only_links ty s s' -> keeps s s'.
Proof. intros Hol t o Ho. destruct (ol_timers _ _ _ Hol t o Ho) as (n & Hn). eauto. Qed.

(** Giving a timer that is on no list its new time and link *)
Lemma set_timer_split s ty q r ts o :
  split_at s ty q r -> ts ∉ q.*1 ->
  split_at (mkLists (<[ts := o]> s.(timers)) s.(active_timers)) ty q r.
Proof. intros (hd & Hhd & Hseg) Hin. exists hd. split; [done |]. by apply seg_frame. Qed.

Lemma link_in s Q ts o e q0 :
  let ty := o.(clock) in
  holds s Q -> s.(timers) !! ts = Some o -> (ty < QEMU_NUM_CLOCKS)%nat ->
  Q ty = q0 -> ts ∉ q0.*1 -> StronglySorted earlier q0 -> NoDup q0.*1 ->
  exists pt q s', insert_loop (loop_fuel s) ty e None s = Some pt /\
    load_link ty pt s = Some q /\
    store_link ty pt (Some ts)
      (mkLists (<[ts := set_next q (set_expire_time e o)]> s.(timers)) s.(active_timers)) = Some s' /\
    holds s' (set_queue ty (spec_insert ts e q0) Q) /\ keeps s s' /\
    (pt = None <-> head (spec_insert ts e q0) = Some (ts, e)).
Proof.
  intros ty HQ Ho Hty Hq Hin Hs Hnd. destruct (HQ ty Hty) as [(hd & Hhd & Hseg) _ _].
  rewrite Hq in Hseg.
  destruct (insert_loop_spec (loop_fuel s) s ty e [] hd q0) as
    (pre & m & post & Ei & Happ & Hpre & Hpost & Hle & Hgt);
    [by eapply fuel_enough | by exists hd | done | done |]. cbn in Happ.
  rewrite Happ in Hin, Hnd, Hs |- *.
  set (o' := set_next m (set_expire_time e o)).
  set (s2 := mkLists (<[ts := o']> s.(timers)) s.(active_timers)).
  rewrite fmap_app in Hin, Hnd. apply not_elem_of_app in Hin as [Hin1 Hin2].
  apply NoDup_app in Hnd as (Hnd1 & Hdisj & Hnd2).
  destruct (store_split s2 ty pre m (Some ts)) as (s3 & Es & (hd3 & Hhd3 & Hp3) & Hk & Hol);
    [by apply set_timer_split | done |].
  exists (pt_of pre), m, s3. split_and!; [done | by apply load_split | done | | |].
  - intros ty' Hty'. unfold set_queue. destruct (decide (ty' = ty)) as [-> | Hne].
    + rewrite spec_insert_split by done. constructor.
      * exists hd3. split; [done |]. apply seg_app. exists (Some ts). split; [done |].
        apply Hk; [intros t Ht; cbn; rewrite not_elem_of_cons; split;
                     [by intros -> | intros Ht'; by apply (Hdisj t)] |].
        split; [done |]. exists o'. cbn [s2 timers]. rewrite lookup_insert_eq.
        split_and!; [done | done | done |]. by apply seg_frame.
      * rewrite fmap_app, fmap_cons. apply NoDup_app. split_and!; [done | | by constructor].
        intros t Ht. cbn. rewrite not_elem_of_cons. split; [by intros -> | by apply Hdisj].
      * rewrite <- spec_insert_split by done. by apply spec_insert_sorted.
    + destruct (HQ ty' Hty') as [(hd' & Hhd' & Hseg') Hnd' Hs']. constructor; [| done | done].
      apply (ol_others _ _ _ Hol ty' (Q ty') None Hne). exists hd'. split; [done |].
      apply seg_frame_clock; [| done]. intros o1 Ho1. rewrite Ho in Ho1. injection Ho1 as <-. by apply not_eq_sym.
  - apply (keeps_trans s s2); [| by eapply only_links_keeps].
    intros t o1 Ho1. cbn [s2 timers]. destruct (decide (t = ts)) as [-> | Hne].
    + rewrite lookup_insert_eq. simplify_eq. by exists o'.
    + rewrite lookup_insert_ne by done. by exists o1.
  - rewrite spec_insert_split by done. destruct pre as [| [t1 e1] pre _] using rev_ind; [done |].
    rewrite pt_of_snoc. split; [done |]. intros Hh. exfalso. apply Hin1.
    destruct pre as [| [t2 e2] pre]; cbn in *; simplify_eq; left.
Qed.

Lemma mod_timer_links_holds s Q ts o e :
  holds s Q -> s.(timers) !! ts = Some o -> (o.(clock) < QEMU_NUM_CLOCKS)%nat ->
  exists pt s', mod_timer_links ts e s = Some (pt, s') /\
    holds s' (set_queue o.(clock) (spec_insert ts e (spec_del ts (Q o.(clock)))) Q) /\
    keeps s s' /\
    (pt = None <-> head (spec_insert ts e (spec_del ts (Q o.(clock)))) = Some (ts, e)).
Proof.
  intros HQ Ho Hty. destruct (HQ _ Hty) as [_ Hnd Hs].
  destruct (del_timer_holds s Q ts o HQ Ho Hty) as (s1 & E1 & Hol & _ & H1).
  unfold mod_timer_links. rewrite E1. bind_step.
  destruct (ol_timers _ _ _ Hol ts o Ho) as (n & Hn). rewrite Hn. bind_step.
  destruct (link_in s1 _ ts (set_next n o) e (spec_del ts (Q o.(clock))) H1 Hn Hty)
    as (pt & q & s' & Ei & El & Es & H' & Hk & Hpt).
  { unfold set_queue. by rewrite decide_True. }
  { rewrite spec_del_ids. tauto. }
  { by apply spec_del_sorted. }
  { by apply spec_del_nodup. }
  rewrite Ei. bind_step. rewrite El. bind_step. cbv zeta. rewrite Es. bind_step.
  exists pt, s'. split_and!; [done | | | done].
  - intros ty Hty'. specialize (H' ty Hty'). unfold set_queue in *. cbn [clock set_next] in *.
    by destruct (decide (ty = o.(clock))).
  - apply (keeps_trans s s1); [by eapply only_links_keeps | done].
Qed.

(** On a sorted queue the place found is after all timers due no later. *)
Lemma spec_insert_filter ts e q :
  StronglySorted earlier q ->
  spec_insert ts e q = filter (fun p => p.2 <= e) q ++ (ts, e) :: filter (fun p => e < p.2) q.
Proof.
  induction q as [| p q IH]; [done |]. rewrite StronglySorted_cons. intros [Hp Hs].
  cbn [spec_insert]. destruct (Z.leb_spec p.2 e).
  - rewrite filter_cons_True, filter_cons_False by lia. rewrite IH by done. done.
  - assert (Hall : Forall (fun p' => e < p'.2) (p :: q)).
    { constructor; [lia |]. eapply Forall_impl; [exact Hp |]. unfold earlier. intros; lia. }
    assert (Hle : filter (fun p' : nat * Z => p'.2 <= e) (p :: q) = []).
    { apply filter_none. eapply Forall_impl; [exact Hall |]. cbn; intros; lia. }
    by rewrite Hle, filter_all.
Qed.

(** ** Pending timers *)

Lemma pending_loop_spec fuel s ty ts p q :
  (length q < fuel)%nat -> seg s.(timers) ty p q None ->
  pending_loop fuel ts p s = Some (bool_decide (ts ∈ q.*1)).
Proof.
  revert p q. induction fuel as [| fuel IH]; intros p q Hf Hseg; [lia |].
  destruct q as [| [t e] q]; cbn in Hseg.
  - subst p. done.
  - destruct Hseg as (-> & o & Ho & _ & _ & Hseg). cbn [pending_loop length] in *.
    rewrite fmap_cons. cbn [fst]. destruct (decide (t = ts)) as [-> | Hne].
    + rewrite bool_decide_eq_true_2; [done | left].
    + rewrite Ho. bind_step. rewrite (IH _ q) by (done || lia). f_equal.
      apply bool_decide_ext. rewrite elem_of_cons. split; [by right | by intros [-> |]].
Qed.

Lemma timer_pending_holds s Q ts o :
  holds s Q -> s.(timers) !! ts = Some o -> (o.(clock) < QEMU_NUM_CLOCKS)%nat ->
  qemu_timer_pending ts s = Some (bool_decide (ts ∈ (Q o.(clock)).*1)).
Proof.
  intros HQ Ho Hty. destruct (HQ _ Hty) as [(hd & Hhd & Hseg) Hnd _].
  unfold qemu_timer_pending. rewrite Ho. bind_step. rewrite Hhd. bind_step.
  eapply pending_loop_spec; [by eapply fuel_enough | done].
Qed.

(** ** Allocation *)

Lemma seg_frame_delete h ty p q r i :
  i ∉ q.*1 -> seg (delete i h) ty p q r <-> seg h ty p q r.
Proof.
  revert p. induction q as [| [t e] q IH]; intros p Hi; cbn; [done |].
  cbn in Hi. apply not_elem_of_cons in Hi as [Hne Hi].
  rewrite lookup_delete_ne by done. by setoid_rewrite IH.
Qed.

Lemma new_timer_holds s Q ty sc f arg :
  holds s Q ->
  let '(ts, s') := qemu_new_timer ty sc f arg s in
  s.(timers) !! ts = None /\ s'.(timers) !! ts = Some (mkTimer ty 0 sc f arg None) /\
  holds s' Q /\ keeps s s'.
Proof.
  intros HQ. unfold qemu_new_timer. set (ts := fresh (dom s.(timers))).
  assert (Hts : s.(timers) !! ts = None) by (apply not_elem_of_dom, is_fresh).
  split_and!; [done | by cbn; rewrite lookup_insert_eq | |].
  - intros ty' Hty'. destruct (HQ ty' Hty') as [(hd & Hhd & Hseg) Hnd Hs].
    constructor; [| done | done]. exists hd. split; [done |].
    apply seg_frame_clock; [| done]. intros o Ho. congruence.
  - intros t o Ho. cbn. rewrite lookup_insert_ne by congruence. by exists o.
Qed.

Lemma free_timer_holds s Q ts o :
  holds s Q -> s.(timers) !! ts = Some o -> ts ∉ (Q o.(clock)).*1 -> holds (qemu_free_timer ts s) Q.
Proof.
  intros HQ Ho Hin ty Hty. destruct (HQ ty Hty) as [(hd & Hhd & Hseg) Hnd Hs].
  constructor; [| done | done]. exists hd. split; [done |]. apply seg_frame_delete; [| done].
  intros Hts. destruct (seg_clock _ _ _ _ _ _ Hseg Hts) as (o' & Ho' & <-). by simplify_eq.
Qed.
