(* ===== verification/Timer.v ===== *)
(** * Clocks and timers (qemu/qemu-timer.c)

    The three clocks, the guest cycle counter, the instruction counter's
    corrections, the alarm that wakes the main loop, and arming, running,
    saving and loading timers, over the lists of [TimerList].  The readings of
    the host's clocks, the counter of the host processor and whether all
    virtual processors sleep are a parameter, a sequence of values: the [n]th
    look at the host gives the [n]th value.  The callbacks of timers are a
    parameter too: operations that may arm and disarm timers.

    Operations are in a state monad; [None] is undefined behaviour or the end
    of the process: a NULL or freed timer, an overflow of a signed 64-bit
    operation, a failed assertion.

    Theorems: arming implements its specification on queues and rearms the
    alarm exactly when the first timer of the clock changes; the main loop
    fires exactly the expired timers, in order, each once, and ends; the cycle
    counter never goes back and stops while disabled; saving and loading a
    timer restores it. *)

From Stdlib Require Import ZArith Lia.
From stdpp Require Import base option numbers fin_maps gmap sorting list.
From S2P Require Import Prelude TimerList.

Local Open Scope Z_scope.

(** ** State *)

(** The alarm of the host; [rearm] says whether it has a rearm function
    (dynamic ticks), [delays] records the delays in milliseconds it was set
    to, latest first. *)
Record qemu_alarm_timer := mkAlarm {
  rearm : bool;
  expired : bool;
  pending : bool;
  delays : list Z
}.

(** The globals of the file.  [warp_timer] is the field of [vm_clock], the
    only clock that has one; [enabled] are the flags of the three clocks;
    [notified] counts the calls of [qemu_notify_event]; [cpu_icount_left] is
    what the running processor has not executed of its budget of
    instructions, [None] outside of the processor loop; [reads] counts the
    looks at the host. *)
Record tstate := mkTS {
  lists : tlists;
  enabled : list bool;
  warp_timer : option nat;
  alarm_timer : option qemu_alarm_timer;
  notified : nat;
  vm_running : bool;
  use_icount : Z;
  icount_time_shift : Z;
  qemu_icount_bias : Z;
  qemu_icount : Z;
  cpu_icount_left : option Z;
  vm_clock_warp_start : Z;
  last_delta : Z;
  cpu_ticks_prev : Z;
  cpu_ticks_offset : Z;
  cpu_clock_offset : Z;
  cpu_ticks_enabled : bool;
  reads : nat
}.

Definition set_lists (v : tlists) (s : tstate) : tstate :=
  mkTS v s.(enabled) s.(warp_timer) s.(alarm_timer) s.(notified) s.(vm_running)
    s.(use_icount) s.(icount_time_shift) s.(qemu_icount_bias) s.(qemu_icount)
    s.(cpu_icount_left) s.(vm_clock_warp_start) s.(last_delta) s.(cpu_ticks_prev)
    s.(cpu_ticks_offset) s.(cpu_clock_offset) s.(cpu_ticks_enabled) s.(reads).
Definition set_enabled (v : list bool) (s : tstate) : tstate :=
  mkTS s.(lists) v s.(warp_timer) s.(alarm_timer) s.(notified) s.(vm_running)
    s.(use_icount) s.(icount_time_shift) s.(qemu_icount_bias) s.(qemu_icount)
    s.(cpu_icount_left) s.(vm_clock_warp_start) s.(last_delta) s.(cpu_ticks_prev)
    s.(cpu_ticks_offset) s.(cpu_clock_offset) s.(cpu_ticks_enabled) s.(reads).
Definition set_warp_timer (v : option nat) (s : tstate) : tstate :=
  mkTS s.(lists) s.(enabled) v s.(alarm_timer) s.(notified) s.(vm_running) s.(use_icount)
    s.(icount_time_shift) s.(qemu_icount_bias) s.(qemu_icount) s.(cpu_icount_left)
    s.(vm_clock_warp_start) s.(last_delta) s.(cpu_ticks_prev) s.(cpu_ticks_offset)
    s.(cpu_clock_offset) s.(cpu_ticks_enabled) s.(reads).
Definition set_alarm_timer (v : option qemu_alarm_timer) (s : tstate) : tstate :=
  mkTS s.(lists) s.(enabled) s.(warp_timer) v s.(notified) s.(vm_running) s.(use_icount)
    s.(icount_time_shift) s.(qemu_icount_bias) s.(qemu_icount) s.(cpu_icount_left)
    s.(vm_clock_warp_start) s.(last_delta) s.(cpu_ticks_prev) s.(cpu_ticks_offset)
    s.(cpu_clock_offset) s.(cpu_ticks_enabled) s.(reads).
Definition set_notified (v : nat) (s : tstate) : tstate :=
  mkTS s.(lists) s.(enabled) s.(warp_timer) s.(alarm_timer) v s.(vm_running)
    s.(use_icount) s.(icount_time_shift) s.(qemu_icount_bias) s.(qemu_icount)
    s.(cpu_icount_left) s.(vm_clock_warp_start) s.(last_delta) s.(cpu_ticks_prev)
    s.(cpu_ticks_offset) s.(cpu_clock_offset) s.(cpu_ticks_enabled) s.(reads).
Definition set_vm_running (v : bool) (s : tstate) : tstate :=
  mkTS s.(lists) s.(enabled) s.(warp_timer) s.(alarm_timer) s.(notified) v s.(use_icount)
    s.(icount_time_shift) s.(qemu_icount_bias) s.(qemu_icount) s.(cpu_icount_left)
    s.(vm_clock_warp_start) s.(last_delta) s.(cpu_ticks_prev) s.(cpu_ticks_offset)
    s.(cpu_clock_offset) s.(cpu_ticks_enabled) s.(reads).
Definition set_use_icount (v : Z) (s : tstate) : tstate :=
  mkTS s.(lists) s.(enabled) s.(warp_timer) s.(alarm_timer) s.(notified) s.(vm_running) v
    s.(icount_time_shift) s.(qemu_icount_bias) s.(qemu_icount) s.(cpu_icount_left)
    s.(vm_clock_warp_start) s.(last_delta) s.(cpu_ticks_prev) s.(cpu_ticks_offset)
    s.(cpu_clock_offset) s.(cpu_ticks_enabled) s.(reads).
Definition set_icount_time_shift (v : Z) (s : tstate) : tstate :=
  mkTS s.(lists) s.(enabled) s.(warp_timer) s.(alarm_timer) s.(notified) s.(vm_running)
    s.(use_icount) v s.(qemu_icount_bias) s.(qemu_icount) s.(cpu_icount_left)
    s.(vm_clock_warp_start) s.(last_delta) s.(cpu_ticks_prev) s.(cpu_ticks_offset)
    s.(cpu_clock_offset) s.(cpu_ticks_enabled) s.(reads).
Definition set_qemu_icount_bias (v : Z) (s : tstate) : tstate :=
  mkTS s.(lists) s.(enabled) s.(warp_timer) s.(alarm_timer) s.(notified) s.(vm_running)
    s.(use_icount) s.(icount_time_shift) v s.(qemu_icount) s.(cpu_icount_left)
    s.(vm_clock_warp_start) s.(last_delta) s.(cpu_ticks_prev) s.(cpu_ticks_offset)
    s.(cpu_clock_offset) s.(cpu_ticks_enabled) s.(reads).
Definition set_qemu_icount (v : Z) (s : tstate) : tstate :=
  mkTS s.(lists) s.(enabled) s.(warp_timer) s.(alarm_timer) s.(notified) s.(vm_running)
    s.(use_icount) s.(icount_time_shift) s.(qemu_icount_bias) v s.(cpu_icount_left)
    s.(vm_clock_warp_start) s.(last_delta) s.(cpu_ticks_prev) s.(cpu_ticks_offset)
    s.(cpu_clock_offset) s.(cpu_ticks_enabled) s.(reads).
Definition set_cpu_icount_left (v : option Z) (s : tstate) : tstate :=
  mkTS s.(lists) s.(enabled) s.(warp_timer) s.(alarm_timer) s.(notified) s.(vm_running)
    s.(use_icount) s.(icount_time_shift) s.(qemu_icount_bias) s.(qemu_icount) v
    s.(vm_clock_warp_start) s.(last_delta) s.(cpu_ticks_prev) s.(cpu_ticks_offset)
    s.(cpu_clock_offset) s.(cpu_ticks_enabled) s.(reads).
Definition set_vm_clock_warp_start (v : Z) (s : tstate) : tstate :=
  mkTS s.(lists) s.(enabled) s.(warp_timer) s.(alarm_timer) s.(notified) s.(vm_running)
    s.(use_icount) s.(icount_time_shift) s.(qemu_icount_bias) s.(qemu_icount)
    s.(cpu_icount_left) v s.(last_delta) s.(cpu_ticks_prev) s.(cpu_ticks_offset)
    s.(cpu_clock_offset) s.(cpu_ticks_enabled) s.(reads).
Definition set_last_delta (v : Z) (s : tstate) : tstate :=
  mkTS s.(lists) s.(enabled) s.(warp_timer) s.(alarm_timer) s.(notified) s.(vm_running)
    s.(use_icount) s.(icount_time_shift) s.(qemu_icount_bias) s.(qemu_icount)
    s.(cpu_icount_left) s.(vm_clock_warp_start) v s.(cpu_ticks_prev) s.(cpu_ticks_offset)
    s.(cpu_clock_offset) s.(cpu_ticks_enabled) s.(reads).
Definition set_cpu_ticks_prev (v : Z) (s : tstate) : tstate :=
  mkTS s.(lists) s.(enabled) s.(warp_timer) s.(alarm_timer) s.(notified) s.(vm_running)
    s.(use_icount) s.(icount_time_shift) s.(qemu_icount_bias) s.(qemu_icount)
    s.(cpu_icount_left) s.(vm_clock_warp_start) s.(last_delta) v s.(cpu_ticks_offset)
    s.(cpu_clock_offset) s.(cpu_ticks_enabled) s.(reads).
Definition set_cpu_ticks_offset (v : Z) (s : tstate) : tstate :=
  mkTS s.(lists) s.(enabled) s.(warp_timer) s.(alarm_timer) s.(notified) s.(vm_running)
    s.(use_icount) s.(icount_time_shift) s.(qemu_icount_bias) s.(qemu_icount)
    s.(cpu_icount_left) s.(vm_clock_warp_start) s.(last_delta) s.(cpu_ticks_prev) v
    s.(cpu_clock_offset) s.(cpu_ticks_enabled) s.(reads).
Definition set_cpu_clock_offset (v : Z) (s : tstate) : tstate :=
  mkTS s.(lists) s.(enabled) s.(warp_timer) s.(alarm_timer) s.(notified) s.(vm_running)
    s.(use_icount) s.(icount_time_shift) s.(qemu_icount_bias) s.(qemu_icount)
    s.(cpu_icount_left) s.(vm_clock_warp_start) s.(last_delta) s.(cpu_ticks_prev)
    s.(cpu_ticks_offset) v s.(cpu_ticks_enabled) s.(reads).
Definition set_cpu_ticks_enabled (v : bool) (s : tstate) : tstate :=
  mkTS s.(lists) s.(enabled) s.(warp_timer) s.(alarm_timer) s.(notified) s.(vm_running)
    s.(use_icount) s.(icount_time_shift) s.(qemu_icount_bias) s.(qemu_icount)
    s.(cpu_icount_left) s.(vm_clock_warp_start) s.(last_delta) s.(cpu_ticks_prev)
    s.(cpu_ticks_offset) s.(cpu_clock_offset) v s.(reads).
Definition set_reads (v : nat) (s : tstate) : tstate :=
  mkTS s.(lists) s.(enabled) s.(warp_timer) s.(alarm_timer) s.(notified) s.(vm_running)
    s.(use_icount) s.(icount_time_shift) s.(qemu_icount_bias) s.(qemu_icount)
    s.(cpu_icount_left) s.(vm_clock_warp_start) s.(last_delta) s.(cpu_ticks_prev)
    s.(cpu_ticks_offset) s.(cpu_clock_offset) s.(cpu_ticks_enabled) v.

(** The host *)
Record host := mkHost {
  get_clock : nat -> Z;
  get_clock_realtime : nat -> Z;
  cpu_get_real_ticks : nat -> Z;
  all_cpu_threads_idle : nat -> bool
}.

(** ** The monad *)

Definition ST (A : Type) : Type := tstate -> option (A * tstate).

#[global] Instance st_ret : MRet ST := fun A x s => Some (x, s).
#[global] Instance st_bind : MBind ST := fun A B f m s =>
  match m s with Some (x, s') => f x s' | None => None end.

Definition get {A} (f : tstate -> A) : ST A := fun s => Some (f s, s).
Definition modify (f : tstate -> tstate) : ST unit := fun s => Some (tt, f s).
Definition lift {A} (o : option A) : ST A := fun s => x ← o; Some (x, s).
Definition fail {A} : ST A := fun _ => None.

(** A function of the lists alone *)
Definition with_lists {A} (f : tlists -> option (A * tlists)) : ST A :=
  fun s => '(x, l) ← f s.(lists); Some (x, set_lists l s).

(** A look at the host *)
Definition read {A} (f : nat -> A) : ST A := fun s =>
  Some (f s.(reads), set_reads (S s.(reads)) s).

(** A signed 64-bit result *)
Definition s64 (z : Z) : ST Z :=
  if (- 2 ^ 63 <=? z) && (z <? 2 ^ 63) then mret z else fail.

Definition when (b : bool) (m : ST unit) : ST unit := if b then m else mret tt.

Definition INT32_MAX : Z := 2147483647.
Definition ENOENT : Z := 2.
Definition MAX_ICOUNT_SHIFT : Z := 10.
Definition get_ticks_per_sec : Z := 1000000000.
Definition ICOUNT_WOBBLE : Z := Z.quot get_ticks_per_sec 10.

Section host.
Context (hw : host).

(** ** The guest cycle counter *)

Definition cpu_get_icount : ST Z :=
  s ← get id;
  icount ← match s.(cpu_icount_left) with
           | Some n => s64 (s.(qemu_icount) - n)
           | None => mret s.(qemu_icount)
           end;
  v ← s64 (Z.shiftl icount s.(icount_time_shift));
  s64 (s.(qemu_icount_bias) + v).

Definition cpu_get_ticks : ST Z :=
  s ← get id;
  if c_true s.(use_icount) then cpu_get_icount
  else if negb s.(cpu_ticks_enabled) then mret s.(cpu_ticks_offset)
  else
    ticks ← read hw.(cpu_get_real_ticks);
    when (ticks <? s.(cpu_ticks_prev))
      (d ← s64 (s.(cpu_ticks_prev) - ticks);
       off ← s64 (s.(cpu_ticks_offset) + d);
       modify (set_cpu_ticks_offset off));;
    modify (set_cpu_ticks_prev ticks);;
    off ← get cpu_ticks_offset;
    s64 (ticks + off).

Definition cpu_get_clock : ST Z :=
  s ← get id;
  if negb s.(cpu_ticks_enabled) then mret s.(cpu_clock_offset)
  else ti ← read hw.(get_clock); s64 (ti + s.(cpu_clock_offset)).

Definition cpu_enable_ticks : ST unit :=
  s ← get id;
  when (negb s.(cpu_ticks_enabled))
    (t ← read hw.(cpu_get_real_ticks);
     off ← s64 (s.(cpu_ticks_offset) - t);
     modify (set_cpu_ticks_offset off);;
     c ← read hw.(get_clock);
     off ← s64 (s.(cpu_clock_offset) - c);
     modify (set_cpu_clock_offset off);;
     modify (set_cpu_ticks_enabled true)).

Definition cpu_disable_ticks : ST unit :=
  s ← get id;
  when s.(cpu_ticks_enabled)
    (t ← cpu_get_ticks;
     modify (set_cpu_ticks_offset t);;
     c ← cpu_get_clock;
     modify (set_cpu_clock_offset c);;
     modify (set_cpu_ticks_enabled false)).

(** ** The clocks *)

Definition qemu_get_clock_ns (ty : nat) : ST Z :=
  if decide (ty = QEMU_CLOCK_REALTIME) then read hw.(get_clock)
  else if decide (ty = QEMU_CLOCK_HOST) then read hw.(get_clock_realtime)
  else
    s ← get id;
    if c_true s.(use_icount) then cpu_get_icount else cpu_get_clock.

Definition qemu_get_clock_ms (ty : nat) : ST Z :=
  t ← qemu_get_clock_ns ty; mret (Z.quot t SCALE_MS).

Definition qemu_clock_enable (ty : nat) (b : bool) : ST unit :=
  modify (fun s => set_enabled (<[ty := b]> s.(enabled)) s).

(** ** Deadlines *)

(** [active_timers[type]], and the expiry time of the first timer if any *)
Definition active (ty : nat) : ST (option nat) :=
  s ← get id; lift (s.(lists).(active_timers) !! ty).

Definition first_expiry (ty : nat) : ST (option Z) :=
  t ← active ty;
  match t with
  | None => mret None
  | Some t => s ← get id; o ← lift (s.(lists).(timers) !! t); mret (Some o.(expire_time))
  end.

(** [expire_time - qemu_get_clock_ns(clock)] of the first timer *)
Definition time_left (ty : nat) : ST (option Z) :=
  e ← first_expiry ty;
  match e with
  | None => mret None
  | Some e => now ← qemu_get_clock_ns ty; d ← s64 (e - now); mret (Some d)
  end.

Definition qemu_next_icount_deadline : ST Z :=
  ic ← get use_icount;
  if c_true ic then
    d ← time_left QEMU_CLOCK_VIRTUAL;
    mret (Z.max 0 (default INT32_MAX d))
  else fail.

Definition earliest (delta : Z) (d : option Z) : Z :=
  match d with Some d => if d <? delta then d else delta | None => delta end.

Definition qemu_next_alarm_deadline : ST Z :=
  ic ← get use_icount;
  d ← (if c_true ic then mret None else time_left QEMU_CLOCK_VIRTUAL);
  let delta := default INT32_MAX d in
  d ← time_left QEMU_CLOCK_HOST;
  let delta := earliest delta d in
  d ← time_left QEMU_CLOCK_REALTIME;
  mret (earliest delta d).

(** ** The alarm *)

Definition deref_alarm : ST qemu_alarm_timer := a ← get alarm_timer; lift a.

(** [mm_rearm_timer] and [win32_rearm_timer]: the delay the host alarm is set
    to; nothing is done without an active timer. *)
Definition rearm_timer : ST unit :=
  rt ← active QEMU_CLOCK_REALTIME;
  vm ← active QEMU_CLOCK_VIRTUAL;
  hc ← active QEMU_CLOCK_HOST;
  match rt, vm, hc with
  | None, None, None => mret tt
  | _, _, _ =>
      d ← qemu_next_alarm_deadline;
      d ← s64 (d + 999999);
      let nearest_delta_ms := to_signed 32 (Z.quot d 1000000) in
      let nearest_delta_ms := if nearest_delta_ms <? 1 then 1 else nearest_delta_ms in
      a ← deref_alarm;
      modify (set_alarm_timer
        (Some (mkAlarm a.(rearm) a.(expired) a.(pending) (nearest_delta_ms :: a.(delays)))))
  end.

Definition qemu_rearm_alarm_timer : ST unit :=
  a ← deref_alarm; when a.(rearm) rearm_timer.

Definition qemu_notify_event : ST unit :=
  modify (fun s => set_notified (S s.(notified)) s).

Definition host_alarm_handler : ST unit :=
  a ← get alarm_timer;
  match a with
  | None => mret tt
  | Some a =>
      fire ← (if a.(rearm) then mret true else d ← qemu_next_alarm_deadline; mret (d <=? 0));
      when fire
        (a ← deref_alarm;
         modify (set_alarm_timer (Some (mkAlarm a.(rearm) a.(rearm) true a.(delays))));;
         qemu_notify_event)
  end.

(** The alarms of the host in order of preference: whether each has dynamic
    ticks, and the result of its [start] function *)
Fixpoint init_timer_alarm (alarms : list (bool * Z)) : ST Z :=
  match alarms with
  | [] => mret (- ENOENT)
  | (dyn, err) :: alarms =>
      if err =? 0 then
        modify (set_alarm_timer (Some (mkAlarm dyn false true [])));; mret 0
      else init_timer_alarm alarms
  end.

Definition quit_timers : ST unit := deref_alarm;; modify (set_alarm_timer None).

Definition alarm_timer_on_change_state_rearm (running : bool) : ST unit :=
  when running qemu_rearm_alarm_timer.

(** ** Timers *)

Definition del_timer (ts : nat) : ST unit :=
  with_lists (fun l => l ← qemu_del_timer ts l; Some (tt, l)).

(** The public test reads the scale of the timer before it looks whether there
    is one. *)
Definition qemu_timer_expired (timer_head : option nat) (current_time : Z) : ST bool :=
  t ← lift timer_head;
  s ← get id;
  o ← lift (s.(lists).(timers) !! t);
  now ← s64 (current_time * o.(scale));
  lift (qemu_timer_expired_ns (Some t) now s.(lists)).

Definition icount_warp_rt : ST unit :=
  s ← get id;
  if s.(vm_clock_warp_start) =? -1 then mret tt
  else
    when s.(vm_running)
      (clock ← qemu_get_clock_ns QEMU_CLOCK_REALTIME;
       warp_delta ← s64 (clock - s.(vm_clock_warp_start));
       delta ← (if s.(use_icount) =? 1 then mret warp_delta
                else
                  cur_time ← cpu_get_clock;
                  cur_icount ← qemu_get_clock_ns QEMU_CLOCK_VIRTUAL;
                  delta ← s64 (cur_time - cur_icount);
                  mret (Z.min warp_delta delta));
       bias ← s64 (s.(qemu_icount_bias) + delta);
       modify (set_qemu_icount_bias bias);;
       hd ← active QEMU_CLOCK_VIRTUAL;
       now ← qemu_get_clock_ns QEMU_CLOCK_VIRTUAL;
       b ← qemu_timer_expired hd now;
       when b qemu_notify_event);;
    modify (set_vm_clock_warp_start (-1)).

(** [mod_timer] is the function that arms the warp timer. *)
Definition qemu_clock_warp (mod_timer : nat -> Z -> ST unit) (ty : nat) : ST unit :=
  w ← get (fun s => if decide (ty = QEMU_CLOCK_VIRTUAL) then s.(warp_timer) else None);
  match w with
  | None => mret tt
  | Some w =>
      icount_warp_rt;;
      idle ← read hw.(all_cpu_threads_idle);
      hd ← active ty;
      if negb idle || bool_decide (hd = None) then del_timer w
      else
        start ← qemu_get_clock_ns QEMU_CLOCK_REALTIME;
        modify (set_vm_clock_warp_start start);;
        deadline ← qemu_next_icount_deadline;
        if 0 <? deadline then e ← s64 (start + deadline); mod_timer w e
        else qemu_notify_event
  end.

(** The body of [qemu_mod_timer_ns], given the clock warp *)
Definition mod_timer_body (warp : nat -> ST unit) (ts : nat) (expire : Z) : ST unit :=
  pt ← with_lists (mod_timer_links ts expire);
  s ← get id;
  o ← lift (s.(lists).(timers) !! ts);
  when (bool_decide (pt = None))
    (a ← deref_alarm;
     when (negb a.(pending)) qemu_rearm_alarm_timer;;
     warp o.(clock);;
     ic ← get use_icount;
     when (c_true ic) qemu_notify_event).

(** Arming a timer of [vm_clock] may arm the warp timer, which is a timer of
    [rt_clock] and warps nothing: two levels of calls. *)
Fixpoint mod_timer_ns (depth : nat) (ts : nat) (expire : Z) : ST unit :=
  match depth with
  | O => fail
  | S depth =>
      mod_timer_body
        (qemu_clock_warp (fun w e =>
           s ← get id;
           o ← lift (s.(lists).(timers) !! w);
           e ← s64 (e * o.(scale));
           mod_timer_ns depth w e)) ts expire
  end.

Definition qemu_mod_timer_ns : nat -> Z -> ST unit := mod_timer_ns 2.

Definition qemu_mod_timer (ts : nat) (expire : Z) : ST unit :=
  s ← get id;
  o ← lift (s.(lists).(timers) !! ts);
  e ← s64 (expire * o.(scale));
  qemu_mod_timer_ns ts e.

(** ** Saving and loading: the 64-bit big-endian value of the file *)

Definition qemu_put_timer (ts : nat) : ST Z :=
  s ← get id;
  b ← lift (qemu_timer_pending ts s.(lists));
  if (b : bool) then o ← lift (s.(lists).(timers) !! ts); mret (wrap 64 o.(expire_time))
  else mret (wrap 64 (-1)).

Definition qemu_get_timer (ts : nat) (v : Z) : ST unit :=
  if v =? wrap 64 (-1) then del_timer ts else qemu_mod_timer_ns ts (to_signed 64 v).

(** ** Adjusting the instruction counter to real time *)

Definition icount_adjust : ST unit :=
  s ← get id;
  when s.(vm_running)
    (cur_time ← cpu_get_clock;
     cur_icount ← qemu_get_clock_ns QEMU_CLOCK_VIRTUAL;
     delta ← s64 (cur_icount - cur_time);
     twice ← s64 (delta * 2);
     up ← (if 0 <? delta then s64 (s.(last_delta) + ICOUNT_WOBBLE) else mret 0);
     down ← (if delta <? 0 then s64 (s.(last_delta) - ICOUNT_WOBBLE) else mret 0);
     let shift := s.(icount_time_shift) in
     let shift := if (0 <? delta) && (up <? twice) && (0 <? shift) then shift - 1 else shift in
     let shift := if (delta <? 0) && (twice <? down) && (shift <? MAX_ICOUNT_SHIFT)
                  then shift + 1 else shift in
     modify (set_icount_time_shift shift);;
     modify (set_last_delta delta);;
     v ← s64 (Z.shiftl s.(qemu_icount) shift);
     bias ← s64 (cur_icount - v);
     modify (set_qemu_icount_bias bias)).

Definition icount_adjust_rt (icount_rt_timer : nat) : ST unit :=
  now ← qemu_get_clock_ms QEMU_CLOCK_REALTIME;
  e ← s64 (now + 1000);
  qemu_mod_timer icount_rt_timer e;;
  icount_adjust.

Definition icount_adjust_vm (icount_vm_timer : nat) : ST unit :=
  now ← qemu_get_clock_ns QEMU_CLOCK_VIRTUAL;
  e ← s64 (now + Z.quot get_ticks_per_sec 10);
  qemu_mod_timer icount_vm_timer e;;
  icount_adjust.

Definition qemu_icount_round (count : Z) : ST Z :=
  shift ← get icount_time_shift;
  v ← s64 (count + Z.shiftl 1 shift - 1);
  mret (Z.shiftr v shift).

(** The option of the instruction counter: absent, a shift, or [auto]; the
    result is the pair of timers of the automatic mode.  [f_rt] and [f_vm] name
    the callbacks [icount_adjust_rt] and [icount_adjust_vm]. *)
Definition new_timer (ty : nat) (sc : Z) (f : nat) : ST nat :=
  with_lists (fun l => Some (qemu_new_timer ty sc f 0 l)).

Definition configure_icount (option : option (option Z)) (f_rt f_vm : nat)
    : ST (Datatypes.option (nat * nat)) :=
  match option with
  | None => mret None
  | Some (Some shift) =>
      modify (set_icount_time_shift shift);; modify (set_use_icount 1);; mret None
  | Some None =>
      modify (set_use_icount 2);;
      modify (set_icount_time_shift 3);;
      rt ← new_timer QEMU_CLOCK_REALTIME SCALE_MS f_rt;
      now ← qemu_get_clock_ms QEMU_CLOCK_REALTIME;
      e ← s64 (now + 1000);
      qemu_mod_timer rt e;;
      vm ← new_timer QEMU_CLOCK_VIRTUAL SCALE_NS f_vm;
      now ← qemu_get_clock_ns QEMU_CLOCK_VIRTUAL;
      e ← s64 (now + Z.quot get_ticks_per_sec 10);
      qemu_mod_timer vm e;;
      mret (Some (rt, vm))
  end.

(** Without [CONFIG_IOTHREAD] *)
Definition qemu_icount_delta : ST Z :=
  ic ← get use_icount;
  if negb (c_true ic) then mret (5000 * 1000000)
  else if ic =? 1 then mret 0
  else i ← cpu_get_icount; c ← cpu_get_clock; s64 (i - c).

Definition qemu_calculate_timeout : ST Z :=
  run ← get vm_running;
  if negb run then mret 5000
  else
    delta ← qemu_icount_delta;
    if 0 <? delta then
      d ← s64 (delta + 999999); mret (to_signed 32 (Z.quot d 1000000))
    else
      add ← qemu_next_icount_deadline;
      let add := if 10000000 <? add then 10000000 else add in
      delta ← s64 (delta + add);
      r ← qemu_icount_round add;
      s ← get id;
      n ← s64 (s.(qemu_icount) + r);
      modify (set_qemu_icount n);;
      let timeout := to_signed 32 (Z.quot delta 1000000) in
      mret (if timeout <? 0 then 0 else timeout).

(** ** Running the timers *)

Section callbacks.
Context (callback : nat -> nat -> ST unit).

(** [ts->cb(ts->opaque)]; the result names the timer whose callback ran. *)
Definition run_callback (t : nat) (o : QEMUTimer) : ST (list nat) :=
  callback o.(cb) o.(opaque);; mret [t].

(** The loop of [qemu_run_timers]; the result is the list of the timers
    whose callbacks ran. *)
Fixpoint run_loop (fuel : nat) (ty : nat) (current_time : Z) : ST (list nat) :=
  match fuel with
  | O => fail
  | S fuel =>
      s ← get id;
      ts ← active ty;
      b ← lift (qemu_timer_expired_ns ts current_time s.(lists));
      if negb b then mret []
      else
        t ← lift ts;
        o ← lift (s.(lists).(timers) !! t);
        with_lists (fun l => l ← store_link ty None o.(next) l; Some (tt, l));;
        with_lists (fun l => l ← store_link ty (Some t) None l; Some (tt, l));;
        first ← run_callback t o;
        fired ← run_loop fuel ty current_time;
        mret (first ++ fired)
  end.

Definition qemu_run_timers (fuel ty : nat) : ST (list nat) :=
  s ← get id;
  on ← lift (s.(enabled) !! ty);
  if negb on then mret []
  else now ← qemu_get_clock_ns ty; run_loop fuel ty now.

Definition qemu_run_all_timers (fuel : nat) : ST (list nat) :=
  a ← deref_alarm;
  modify (set_alarm_timer (Some (mkAlarm a.(rearm) a.(expired) false a.(delays))));;
  when a.(expired)
    (modify (set_alarm_timer (Some (mkAlarm a.(rearm) false false a.(delays))));;
     qemu_rearm_alarm_timer);;
  run ← get vm_running;
  f1 ← (if (run : bool) then qemu_run_timers fuel QEMU_CLOCK_VIRTUAL else mret []);
  f2 ← qemu_run_timers fuel QEMU_CLOCK_REALTIME;
  f3 ← qemu_run_timers fuel QEMU_CLOCK_HOST;
  mret (f1 ++ f2 ++ f3).

End callbacks.
End host.

(** ** The monad's equations *)

Lemma st_bind_some {A B} (m : ST A) (f : A -> ST B) s x s' :
  m s = Some (x, s') -> (m ≫= f) s = f x s'.
Proof. intros E. unfold mbind, st_bind. by rewrite E. Qed.

Lemma st_bind_get {A B} (g : tstate -> A) (f : A -> ST B) s : (get g ≫= f) s = f (g s) s.
Proof. done. Qed.

Lemma st_bind_modify {B} (g : tstate -> tstate) (f : unit -> ST B) s :
  (modify g ≫= f) s = f tt (g s).
Proof. done. Qed.

Lemma st_bind_read {A B} (g : nat -> A) (f : A -> ST B) s :
  (read g ≫= f) s = f (g s.(reads)) (set_reads (S s.(reads)) s).
Proof. done. Qed.

Lemma s64_ok z s : - 2 ^ 63 <= z < 2 ^ 63 -> s64 z s = Some (z, s).
Proof.
  intros Hz. unfold s64.
  rewrite (proj2 (Z.leb_le _ _)), (proj2 (Z.ltb_lt _ _)) by lia. done.
Qed.

Lemma st_bind_s64 {B} z (f : Z -> ST B) s :
  - 2 ^ 63 <= z < 2 ^ 63 -> (s64 z ≫= f) s = f z s.
Proof. intros Hz. by apply st_bind_some, s64_ok. Qed.

Lemma st_bind_lift {A B} (o : option A) x (f : A -> ST B) s :
  o = Some x -> (lift o ≫= f) s = f x s.
Proof. intros ->. done. Qed.

Lemma st_bind_ret {A B} (x : A) (f : A -> ST B) s : (mret x ≫= f) s = f x s.
Proof. done. Qed.

Lemma st_bind_assoc {A B C} (m : ST A) (f : A -> ST B) (g : B -> ST C) s :
  ((m ≫= f) ≫= g) s = (m ≫= (fun x => f x ≫= g)) s.
Proof. unfold mbind, st_bind. by destruct (m s) as [[x s'] |]. Qed.

Lemma with_lists_ok {A B} (g : tlists -> option (A * tlists)) x l (f : A -> ST B) s :
  g s.(lists) = Some (x, l) -> (with_lists g ≫= f) s = f x (set_lists l s).
Proof. intros E. apply st_bind_some. unfold with_lists. by rewrite E. Qed.

Ltac st_step :=
  first [ rewrite st_bind_get | rewrite st_bind_modify | rewrite st_bind_read
        | rewrite st_bind_ret | rewrite st_bind_assoc ]; cbv beta.

(** ** Readings *)

(** The ranges in which no clock arithmetic overflows: times of the host below
    2^61 ns (73 years), times armed below 2^62 ns; no instruction counter. *)
Record sane (hw : host) (s : tstate) : Prop := {
  sane_clock : forall n, 0 <= hw.(get_clock) n < 2 ^ 61;
  sane_realtime : forall n, 0 <= hw.(get_clock_realtime) n < 2 ^ 61;
  sane_offset : - 2 ^ 61 <= s.(cpu_clock_offset) <= 2 ^ 61;
  sane_icount : s.(use_icount) = 0;
  sane_warp : s.(warp_timer) = None
}.

Definition sane_times (Q : nat -> list (nat * Z)) : Prop :=
  forall ty, (ty < QEMU_NUM_CLOCKS)%nat -> Forall (fun p => 0 <= p.2 < 2 ^ 62) (Q ty).

(** The number the [n]th look at the host gives for a clock *)
Definition clock_reading (hw : host) (s : tstate) (ty n : nat) : Z :=
  if decide (ty = QEMU_CLOCK_REALTIME) then hw.(get_clock) n
  else if decide (ty = QEMU_CLOCK_HOST) then hw.(get_clock_realtime) n
  else if s.(cpu_ticks_enabled) then hw.(get_clock) n + s.(cpu_clock_offset)
  else s.(cpu_clock_offset).

Lemma sane_reads hw s n : sane hw s -> sane hw (set_reads n s).
Proof. by intros []. Qed.

Lemma clock_reading_bound hw s ty n :
  sane hw s -> - 2 ^ 61 <= clock_reading hw s ty n < 2 ^ 62.
Proof.
  intros [Hc Hr Ho _ _]. unfold clock_reading.
  pose proof (Hc n). pose proof (Hr n). repeat case_decide; [lia.. |].
  destruct (cpu_ticks_enabled s); lia.
Qed.

Lemma get_clock_ns_ok hw s ty :
  sane hw s ->
  exists n, qemu_get_clock_ns hw ty s = Some (clock_reading hw s ty s.(reads), set_reads n s).
Proof.
  intros Hs. pose proof (clock_reading_bound hw s ty s.(reads) Hs) as Hb.
  unfold qemu_get_clock_ns, clock_reading in *. repeat case_decide; [by eexists.. |].
  st_step. cbn [id]. rewrite (sane_icount _ _ Hs). cbn [c_true Z.eqb negb].
  unfold cpu_get_clock. st_step. cbn [id]. destruct (cpu_ticks_enabled s); cbn [negb].
  - st_step. eexists. apply s64_ok. lia.
  - exists s.(reads). by destruct s.
Qed.

Lemma holds_head s Q ty :
  holds s Q -> (ty < QEMU_NUM_CLOCKS)%nat ->
  s.(active_timers) !! ty = Some (fst <$> head (Q ty)) /\
  match head (Q ty) with
  | None => True
  | Some (t, e) => exists o, s.(timers) !! t = Some o /\ o.(clock) = ty /\ o.(expire_time) = e /\
      seg s.(timers) ty o.(next) (tail (Q ty)) None
  end.
Proof.
  intros HQ Hty. destruct (HQ ty Hty) as [(hd & Hhd & Hseg) _ _]. rewrite Hhd.
  destruct (Q ty) as [| [t e] q]; cbn in *; [by subst |].
  destruct Hseg as (-> & o & Ho & Hc & He & Hseg). split; [done |]. by exists o.
Qed.

Lemma first_expiry_ok Q ty s :
  holds s.(lists) Q -> (ty < QEMU_NUM_CLOCKS)%nat ->
  first_expiry ty s = Some (snd <$> head (Q ty), s).
Proof.
  intros HQ Hty. destruct (holds_head _ _ _ HQ Hty) as [Ha Hh].
  unfold first_expiry, active. st_step. st_step. cbn [id]. rewrite (st_bind_lift _ _ _ _ Ha).
  destruct (head (Q ty)) as [[t e] |]; cbn [fmap option_fmap option_map fst snd]; [| done].
  destruct Hh as (o & Ho & _ & <- & _). st_step. cbn [id].
  by rewrite (st_bind_lift _ _ _ _ Ho).
Qed.

(** The time left of the first timer of a clock *)
Definition left_of (hw : host) (s : tstate) (ty : nat) (q : list (nat * Z)) (n : nat) : option Z :=
  (fun p => p.2 - clock_reading hw s ty n) <$> head q.

Lemma time_left_ok hw s Q ty :
  sane hw s -> holds s.(lists) Q -> sane_times Q -> (ty < QEMU_NUM_CLOCKS)%nat ->
  exists n, time_left hw ty s = Some (left_of hw s ty (Q ty) s.(reads), set_reads n s).
Proof.
  intros Hs HQ Ht Hty. unfold time_left, left_of.
  rewrite (st_bind_some _ _ _ _ _ (first_expiry_ok Q ty s HQ Hty)).
  specialize (Ht ty Hty). destruct (Q ty) as [| [t e] q]; cbn [head fmap option_fmap option_map snd].
  - exists s.(reads). by destruct s.
  - apply Forall_cons_1 in Ht as [He _]. cbn in He.
    destruct (get_clock_ns_ok hw s ty Hs) as (n & En).
    pose proof (clock_reading_bound hw s ty s.(reads) Hs).
    rewrite (st_bind_some _ _ _ _ _ En), st_bind_s64 by lia. by exists n.
Qed.

Lemma clock_reading_reads hw s ty n m : clock_reading hw (set_reads m s) ty n = clock_reading hw s ty n.
Proof. done. Qed.

(** The deadline of the alarm: the least of the times left of the three
    clocks, each measured at the look at the host it takes, and [INT32_MAX]
    when [vm_clock] has no timer. *)
Definition deadline_of (hw : host) (s : tstate) (Q : nat -> list (nat * Z)) (n1 n2 n3 : nat) : Z :=
  earliest (earliest
    (default INT32_MAX (left_of hw s QEMU_CLOCK_VIRTUAL (Q QEMU_CLOCK_VIRTUAL) n1))
    (left_of hw s QEMU_CLOCK_HOST (Q QEMU_CLOCK_HOST) n2))
    (left_of hw s QEMU_CLOCK_REALTIME (Q QEMU_CLOCK_REALTIME) n3).

Lemma next_alarm_deadline_ok hw s Q :
  sane hw s -> holds s.(lists) Q -> sane_times Q ->
  exists n1 n2 n3 n,
    qemu_next_alarm_deadline hw s = Some (deadline_of hw s Q n1 n2 n3, set_reads n s).
Proof.
  intros Hs HQ Ht. unfold qemu_next_alarm_deadline. st_step.
  rewrite (sane_icount _ _ Hs). cbn [c_true Z.eqb negb].
  destruct (time_left_ok hw s Q QEMU_CLOCK_VIRTUAL Hs HQ Ht) as (m1 & E1); [by_eval |].
  rewrite (st_bind_some _ _ _ _ _ E1).
  destruct (time_left_ok hw (set_reads m1 s) Q QEMU_CLOCK_HOST (sane_reads _ _ _ Hs) HQ Ht)
    as (m2 & E2); [by_eval |].
  rewrite (st_bind_some _ _ _ _ _ E2).
  destruct (time_left_ok hw (set_reads m2 s) Q QEMU_CLOCK_REALTIME (sane_reads _ _ _ Hs) HQ Ht)
    as (m3 & E3); [by_eval |].
  eexists _, _, _, _. rewrite (st_bind_some _ _ _ _ _ E3). reflexivity.
Qed.

Lemma deadline_bound hw s Q n1 n2 n3 :
  sane hw s -> sane_times Q -> - 2 ^ 62 < deadline_of hw s Q n1 n2 n3 < 2 ^ 62 + 2 ^ 61.
Proof.
  intros Hs Ht.
  assert (Hl : forall ty n, (ty < QEMU_NUM_CLOCKS)%nat ->
    from_option (fun d => - 2 ^ 62 < d < 2 ^ 62 + 2 ^ 61) True (left_of hw s ty (Q ty) n)).
  { intros ty n Hty. specialize (Ht ty Hty). unfold left_of.
    destruct (Q ty) as [| p q]; cbn; [done |]. apply Forall_cons_1 in Ht as [He _].
    pose proof (clock_reading_bound hw s ty n Hs). lia. }
  unfold deadline_of, earliest.
  pose proof (Hl QEMU_CLOCK_VIRTUAL n1 ltac:(by_eval)).
  pose proof (Hl QEMU_CLOCK_HOST n2 ltac:(by_eval)).
  pose proof (Hl QEMU_CLOCK_REALTIME n3 ltac:(by_eval)).
  unfold INT32_MAX. destruct (left_of hw s QEMU_CLOCK_VIRTUAL _ n1),
    (left_of hw s QEMU_CLOCK_HOST _ n2), (left_of hw s QEMU_CLOCK_REALTIME _ n3); cbn in *;
    repeat case_match; lia.
Qed.

(** ** Setting the alarm *)

(** The delay in milliseconds for a deadline in nanoseconds *)
Definition alarm_delay (d : Z) : Z :=
  let ms := to_signed 32 (Z.quot (d + 999999) 1000000) in if ms <? 1 then 1 else ms.

(** Below 2^31 ms the delay is the time left rounded up to a millisecond. *)
Lemma alarm_delay_spec d :
  d <= INT32_MAX * 1000000 ->
  - 2 ^ 31 * 1000000 < d ->
  1 <= alarm_delay d /\ d <= alarm_delay d * 1000000 /\ alarm_delay d * 1000000 < Z.max 1 d + 1000000.
Proof.
  intros Hd Hlo. unfold alarm_delay, INT32_MAX, to_signed, wrap in *.
  assert (Hq : - 2 ^ 31 <= Z.quot (d + 999999) 1000000 < 2 ^ 31) by (Z.to_euclidean_division_equations; lia).
  set (q := Z.quot (d + 999999) 1000000) in *.
  assert (Hw : (if q mod 2 ^ 32 <? 2 ^ (32 - 1) then q mod 2 ^ 32 else q mod 2 ^ 32 - 2 ^ 32) = q).
  { destruct (Z.ltb_spec (q mod 2 ^ 32) (2 ^ (32 - 1))); Z.to_euclidean_division_equations; lia. }
  rewrite Hw. subst q. clear Hw Hq.
  destruct (Z.ltb_spec (Z.quot (d + 999999) 1000000) 1); Z.to_euclidean_division_equations; lia.
Qed.

(** What the operations leave alone: everything but the lists, the alarm and
    the number of looks at the host *)
Definition only_alarm (s s' : tstate) : Prop :=
  exists l a n, s' = set_lists l (set_alarm_timer a (set_reads n s)).

Lemma active_ok Q ty s :
  holds s.(lists) Q -> (ty < QEMU_NUM_CLOCKS)%nat ->
  active ty s = Some (fst <$> head (Q ty), s).
Proof.
  intros HQ Hty. destruct (holds_head _ _ _ HQ Hty) as [Ha _].
  unfold active. st_step. cbn [id]. unfold lift. by rewrite Ha.
Qed.

Lemma rearm_timer_ok hw s Q a :
  sane hw s -> holds s.(lists) Q -> sane_times Q -> s.(alarm_timer) = Some a ->
  (exists ty, (ty < QEMU_NUM_CLOCKS)%nat /\ Q ty <> []) ->
  exists n1 n2 n3 n, rearm_timer hw s =
    Some (tt, set_alarm_timer (Some (mkAlarm a.(rearm) a.(expired) a.(pending)
                (alarm_delay (deadline_of hw s Q n1 n2 n3) :: a.(delays)))) (set_reads n s)).
Proof.
  intros Hs HQ Ht Ha (ty & Hty & Hne).
  destruct (next_alarm_deadline_ok hw s Q Hs HQ Ht) as (n1 & n2 & n3 & n & En).
  exists n1, n2, n3, n. pose proof (deadline_bound hw s Q n1 n2 n3 Hs Ht) as Hb.
  unfold rearm_timer.
  rewrite (st_bind_some _ _ _ _ _ (active_ok Q QEMU_CLOCK_REALTIME s HQ ltac:(by_eval))).
  rewrite (st_bind_some _ _ _ _ _ (active_ok Q QEMU_CLOCK_VIRTUAL s HQ ltac:(by_eval))).
  rewrite (st_bind_some _ _ _ _ _ (active_ok Q QEMU_CLOCK_HOST s HQ ltac:(by_eval))).
  assert (Hany : fst <$> head (Q QEMU_CLOCK_REALTIME) <> None \/
                 fst <$> head (Q QEMU_CLOCK_VIRTUAL) <> None \/
                 fst <$> head (Q QEMU_CLOCK_HOST) <> None).
  { unfold QEMU_NUM_CLOCKS in Hty.
    destruct ty as [| [| [| ty]]]; [left | right; left | right; right | lia];
      unfold QEMU_CLOCK_REALTIME, QEMU_CLOCK_VIRTUAL, QEMU_CLOCK_HOST;
      (destruct (Q _) as [| [t e] q]; done). }
  repeat case_match; try (by destruct Hany as [? | [? | ?]]);
    rewrite (st_bind_some _ _ _ _ _ En), st_bind_s64 by lia; unfold deref_alarm;
    (do 2 st_step); cbn [alarm_timer set_reads]; rewrite (st_bind_lift _ _ _ _ Ha); done.
Qed.

(** ** Arming a timer *)

Lemma clock_warp_none hw f ty s : s.(warp_timer) = None -> qemu_clock_warp hw f ty s = Some (tt, s).
Proof. intros Hw. unfold qemu_clock_warp. st_step. case_decide; [by rewrite Hw | done]. Qed.

Definition armed (ts : nat) (e : Z) (q : list (nat * Z)) : list (nat * Z) :=
  filter (fun p => p.2 <= e) (spec_del ts q) ++ (ts, e) :: filter (fun p => e < p.2) (spec_del ts q).

Lemma armed_insert ts e q :
  StronglySorted earlier q -> armed ts e q = spec_insert ts e (spec_del ts q).
Proof. intros Hs. unfold armed. by rewrite spec_insert_filter by (by apply spec_del_sorted). Qed.

Lemma sane_times_armed Q ty ts e :
  (ty < QEMU_NUM_CLOCKS)%nat ->
  sane_times Q -> 0 <= e < 2 ^ 62 -> sane_times (set_queue ty (armed ts e (Q ty)) Q).
Proof.
  intros Hty Ht He ty' Hty'. unfold set_queue. case_decide; [| by apply Ht].
  specialize (Ht ty Hty). rewrite Forall_forall in Ht. apply Forall_forall.
  intros p. unfold armed. rewrite elem_of_app, elem_of_cons, !list_elem_of_filter, !spec_del_elem.
  intros [(_ & Hp & _) | [-> | (_ & Hp & _)]]; [by apply Ht | done | by apply Ht].
Qed.

(** The delays the alarm is set to when a timer is armed *)
Definition alarm_set (hw : host) (s : tstate) (Q : nat -> list (nat * Z)) (first : bool)
    (a a' : qemu_alarm_timer) : Prop :=
  a'.(rearm) = a.(rearm) /\ a'.(expired) = a.(expired) /\ a'.(pending) = a.(pending) /\
  if first && negb a.(pending) && a.(rearm) then
    exists n1 n2 n3, a'.(delays) = alarm_delay (deadline_of hw s Q n1 n2 n3) :: a.(delays)
  else a'.(delays) = a.(delays).

Lemma armed_head_nonempty ts e q : armed ts e q <> [].
Proof. unfold armed. by destruct (filter _ _). Qed.

Lemma qemu_rearm_ok hw s Q a :
  sane hw s -> holds s.(lists) Q -> sane_times Q -> s.(alarm_timer) = Some a ->
  (exists ty, (ty < QEMU_NUM_CLOCKS)%nat /\ Q ty <> []) ->
  exists a' n, (when (negb a.(pending)) (qemu_rearm_alarm_timer hw)) s =
      Some (tt, set_alarm_timer (Some a') (set_reads n s)) /\
    alarm_set hw s Q true a a'.
Proof.
  intros Hs HQ Ht Ha Hne. unfold alarm_set. destruct (pending a) eqn:Ep; cbn [negb when andb].
  { exists a, s.(reads). split; [| done]. rewrite <- Ha. by destruct s. }
  unfold qemu_rearm_alarm_timer, deref_alarm. do 2 st_step.
  rewrite (st_bind_lift _ _ _ _ Ha). destruct (rearm a) eqn:Er; cbn [when].
  - destruct (rearm_timer_ok hw s Q a Hs HQ Ht Ha Hne) as (n1 & n2 & n3 & n & En).
    eexists _, n. split; [exact En |]. cbn. rewrite Er, Ep. split_and!; [done.. |].
    by exists n1, n2, n3.
  - exists a, s.(reads). split; [| done]. rewrite <- Ha. by destruct s.
Qed.

Lemma mod_timer_ns_ok hw depth s Q ts o e a :
  sane hw s -> holds s.(lists) Q -> sane_times Q -> 0 <= e < 2 ^ 62 ->
  s.(alarm_timer) = Some a ->
  s.(lists).(timers) !! ts = Some o -> (o.(clock) < QEMU_NUM_CLOCKS)%nat ->
  let q := armed ts e (Q o.(clock)) in
  let Q' := set_queue o.(clock) q Q in
  exists l a' n,
    mod_timer_ns hw (S depth) ts e s = Some (tt, set_lists l (set_alarm_timer (Some a') (set_reads n s))) /\
    holds l Q' /\ keeps s.(lists) l /\
    alarm_set hw s Q' (bool_decide (head q = Some (ts, e))) a a'.
Proof.
  intros Hs HQ Ht He Ha Ho Hty q Q'. destruct (HQ _ Hty) as [_ _ Hsort].
  destruct (mod_timer_links_holds _ Q ts o e HQ Ho Hty) as (pt & l & El & Hl & Hk & Hpt).
  rewrite <- armed_insert in Hl, Hpt by done. fold q in Hl, Hpt. fold Q' in Hl.
  destruct (Hk ts o Ho) as (o' & Ho' & Hst).
  cbn [mod_timer_ns]. unfold mod_timer_body.
  rewrite (with_lists_ok _ _ _ _ _ El). st_step. cbn [id lists set_lists].
  rewrite (st_bind_lift _ _ _ _ Ho').
  rewrite (bool_decide_ext (pt = None) _ Hpt). case_bool_decide; cbn [when].
  - unfold deref_alarm. do 2 st_step. cbn [alarm_timer set_lists].
    rewrite (st_bind_lift _ _ _ _ Ha).
    destruct (qemu_rearm_ok hw (set_lists l s) Q' a) as (a' & n & Er & Hset).
    + by destruct Hs.
    + done.
    + by apply sane_times_armed.
    + done.
    + exists o.(clock). split; [done |]. unfold Q', set_queue. rewrite decide_True by done.
      apply armed_head_nonempty.
    + exists l, a', n. split; [| by split_and!].
      rewrite (st_bind_some _ _ _ _ _ Er).
      assert (Hw : warp_timer (set_alarm_timer (Some a') (set_reads n (set_lists l s))) = None)
        by apply Hs.
      rewrite (st_bind_some _ _ _ _ _ (clock_warp_none hw _ _ _ Hw)).
      st_step. cbn [use_icount set_alarm_timer set_reads set_lists].
      rewrite (sane_icount _ _ Hs). done.
  - exists l, a, s.(reads). split; [| by split_and!]. rewrite <- Ha. by destruct s.
Qed.

(** ** Running *)

Abbreviation due now := (filter (fun p : nat * Z => p.2 <= now)).

(** Taking the first timer off its list *)
Lemma pop_holds l Q ty t e q o :
  holds l Q -> (ty < QEMU_NUM_CLOCKS)%nat -> Q ty = (t, e) :: q -> l.(timers) !! t = Some o ->
  exists l1 l2, store_link ty None o.(next) l = Some l1 /\ store_link ty (Some t) None l1 = Some l2 /\
    holds l2 (set_queue ty q Q) /\ keeps l l2 /\ l1.(timers) !! t = Some o.
Proof.
  intros HQ Hty Eq Ho. pose proof (HQ ty Hty) as [(hd & Hhd & Hseg) Hnd Hs].
  rewrite Eq in Hseg, Hnd, Hs. destruct Hseg as (-> & o' & Ho' & Hc & He & Hseg).
  cbn in Hnd. apply NoDup_cons in Hnd as [Hin Hnd]. apply StronglySorted_cons in Hs as [_ Hs].
  simplify_eq.
  destruct (store_head l o.(clock) (Some t) o.(next) Hhd) as (l1 & E1 & Hh1 & Ht1 & Ol1).
  assert (Ho1 : l1.(timers) !! t = Some o) by (by rewrite Ht1).
  destruct (store_next l1 o.(clock) t o None Ho1 eq_refl) as (l2 & E2 & Ha2 & Ht2 & Ol2).
  exists l1, l2. split_and!; [done | done | | | done].
  - intros ty' Hty'. unfold set_queue. destruct (decide (ty' = o.(clock))) as [-> | Hne].
    + constructor; [| done | done]. exists o.(next). rewrite Ha2, Ht2, Ht1.
      split; [done |]. by apply seg_frame.
    + destruct (HQ ty' Hty') as [Hseg' Hnd' Hs']. constructor; [| done | done].
      apply (ol_others _ _ _ Ol2 ty' _ None Hne), (ol_others _ _ _ Ol1 ty' _ None Hne). exact Hseg'.
  - apply (keeps_trans l l1); by eapply only_links_keeps.
Qed.

(** Of a sorted queue, the due timers are a prefix. *)
Lemma due_nil now q :
  StronglySorted earlier q -> match head q with None => True | Some p => now < p.2 end ->
  due now q = [].
Proof.
  intros Hs Hh. apply filter_none. destruct q as [| p q]; [done |].
  apply StronglySorted_cons in Hs as [Hp _]. cbn in Hh. constructor; [lia |].
  eapply Forall_impl; [exact Hp |]. unfold earlier. cbn. intros; lia.
Qed.

Section running.
Context (callback : nat -> nat -> ST unit) (ty : nat) (now : Z).
Context (good : tstate -> (nat -> list (nat * Z)) -> Prop).
Hypothesis ty_ok : (ty < QEMU_NUM_CLOCKS)%nat.
Hypothesis good_holds : forall s Q, good s Q -> holds s.(lists) Q.
Hypothesis good_pop : forall s Q p q l,
  good s Q -> Q ty = p :: q -> holds l (set_queue ty q Q) -> keeps s.(lists) l ->
  good (set_lists l s) (set_queue ty q Q).
(** The callback of a timer, called while that timer is not armed, neither
    fails nor disarms a timer that is due, and arms timers for later only. *)
Hypothesis callback_ok : forall s Q t o,
  good s Q -> s.(lists).(timers) !! t = Some o -> t ∉ (Q ty).*1 ->
  exists s' Q', callback o.(cb) o.(opaque) s = Some (tt, s') /\ good s' Q' /\
    due now (Q' ty) = due now (Q ty).

Lemma run_loop_ok fuel s Q :
  good s Q -> (length (due now (Q ty)) < fuel)%nat ->
  exists s' Q', run_loop callback fuel ty now s = Some ((due now (Q ty)).*1, s') /\
    good s' Q' /\ due now (Q' ty) = [].
Proof using All.
  revert s Q. induction fuel as [| fuel IH]; intros s Q Hg Hf; [lia |].
  pose proof (good_holds s Q Hg) as HQ. destruct (HQ ty ty_ok) as [_ Hnd Hs].
  destruct (holds_head _ _ _ HQ ty_ok) as [_ Hh].
  cbn [run_loop]. st_step. rewrite (st_bind_some _ _ _ _ _ (active_ok Q ty s HQ ty_ok)). cbn [id].
  destruct (Q ty) as [| [t e] q] eqn:Eq; cbn [head fmap option_fmap option_map fst].
  { exists s, Q. rewrite Eq. done. }
  destruct Hh as (o & Ho & Hc & He & _). cbn [qemu_timer_expired_ns]. rewrite Ho, bind_some.
  rewrite (st_bind_lift _ _ _ _ eq_refl), He. destruct (Z.leb_spec e now) as [Hle | Hgt]; cbn [negb].
  - rewrite (st_bind_lift _ t _ _ eq_refl), (st_bind_lift _ _ _ _ Ho).
    destruct (pop_holds _ Q ty t e q o HQ ty_ok Eq Ho) as (l1 & l2 & E1 & E2 & Hl2 & Hk & Ho1).
    rewrite (with_lists_ok _ tt l1) by (by rewrite E1).
    rewrite (with_lists_ok _ tt l2) by (cbn [lists set_lists]; by rewrite E2).
    change (set_lists l2 (set_lists l1 s)) with (set_lists l2 s).
    destruct (Hk t o Ho) as (o2 & Ho2 & [= _ _ Hcb Hop]).
    cbn in Hnd. apply NoDup_cons in Hnd as [Hin _].
    destruct (callback_ok (set_lists l2 s) (set_queue ty q Q) t o2) as (s3 & Q3 & E3 & Hg3 & Hd3).
    { by apply (good_pop s Q (t, e)). }
    { done. }
    { unfold set_queue. by rewrite decide_True. }
    unfold set_queue in Hd3. rewrite decide_True in Hd3 by done. rewrite Hcb, Hop in E3.
    unfold run_callback. rewrite st_bind_assoc, (st_bind_some _ _ _ _ _ E3), st_bind_ret.
    rewrite filter_cons_True in Hf by done. cbn [length] in Hf.
    destruct (IH s3 Q3 Hg3) as (s' & Q' & E' & Hg' & Hd'); [rewrite Hd3; lia |].
    exists s', Q'. split; [| done]. rewrite (st_bind_some _ _ _ _ _ E').
    rewrite filter_cons_True, Hd3 by done. done.
  - exists s, Q. rewrite due_nil by (done || (cbn; lia)). split; [done |]. split; [done |].
    rewrite Eq. apply due_nil; [done | cbn; lia].
Qed.

End running.

(** ** A sample machine *)

(** Host clocks that advance 10 ns at every look, up to 10 us *)
Definition sample_host : host :=
  mkHost (fun n => 1000 + 10 * (Z.of_nat n mod 1000)) (fun n => 5000 + 10 * (Z.of_nat n mod 1000))
    (fun n => 7 * Z.of_nat n) (fun _ => true).

(** Timers 0 and 1 of [rt_clock], armed in this order for times 900 and 950,
    and timer 2, not armed *)
Definition sample_lists : tlists :=
  mkLists
    (<[0%nat := mkTimer 0 900 SCALE_NS 0 0 (Some 1%nat)]>
    (<[1%nat := mkTimer 0 950 SCALE_NS 0 1 None]>
    (<[2%nat := mkTimer 0 0 SCALE_MS 0 2 None]> ∅)))
    [Some 0%nat; None; None].

Definition sample_queue (ty : nat) : list (nat * Z) :=
  if decide (ty = 0%nat) then [(0%nat, 900); (1%nat, 950)] else [].

Definition sample_state : tstate :=
  mkTS sample_lists [true; true; true] None (Some (mkAlarm true false false []))
    0 true 0 0 0 0 None (-1) 0 0 0 0 true 0.

Lemma sample_holds : holds sample_state.(lists) sample_queue.
Proof.
  intros ty Hty. unfold QEMU_NUM_CLOCKS in Hty.
  destruct ty as [| [| [| ty]]]; [| | | lia]; constructor; try by_eval.
  - exists (Some 0%nat). split; [done |]. split; [done |].
    exists (mkTimer 0 900 SCALE_NS 0 0 (Some 1%nat)).
    split_and!; [done | done | done |]. split; [done |].
    exists (mkTimer 0 950 SCALE_NS 0 1 None). done.
  - repeat constructor; unfold earlier; cbn; lia.
  - by exists None.
  - repeat constructor.
  - by exists None.
  - repeat constructor.
Qed.

Lemma sample_times : sane_times sample_queue.
Proof.
  intros ty _. unfold sample_queue. case_decide; repeat constructor; cbn; lia.
Qed.

Lemma sample_sane : sane sample_host sample_state.
Proof.
  constructor; cbn; try done; try lia; intros k;
    pose proof (Z.mod_pos_bound (Z.of_nat k) 1000 ltac:(lia)); lia.
Qed.

(** A callback that arms its timer again, 100 ns after [now] *)
Definition sample_callback (now : Z) (f arg : nat) : ST unit :=
  s ← get id;
  match s.(lists).(timers) !! arg with
  | None => mret tt
  | Some o =>
      if decide (o.(clock) < QEMU_NUM_CLOCKS)%nat then
        b ← lift (qemu_timer_pending arg s.(lists));
        if (b : bool) then mret tt else qemu_mod_timer_ns sample_host arg (now + 100)
      else mret tt
  end.

(** States in which timers can be armed *)
Record ready (hw : host) (s : tstate) (Q : nat -> list (nat * Z)) : Prop := {
  ready_sane : sane hw s;
  ready_holds : holds s.(lists) Q;
  ready_times : sane_times Q;
  ready_alarm : is_Some s.(alarm_timer)
}.

Lemma ready_pop hw ty s Q p q l :
  (ty < QEMU_NUM_CLOCKS)%nat ->
  ready hw s Q -> Q ty = p :: q -> holds l (set_queue ty q Q) -> keeps s.(lists) l ->
  ready hw (set_lists l s) (set_queue ty q Q).
Proof.
  intros Hty [Hs HQ Ht Ha] Eq Hl _. constructor; [by destruct Hs | done | | done].
  intros ty' Hty'. unfold set_queue. case_decide; [| by apply Ht].
  specialize (Ht ty Hty). rewrite Eq in Ht. by apply Forall_cons_1 in Ht as [_ ?].
Qed.

(** Arming a timer that is not pending for a later time leaves the timers
    that are due. *)
Lemma due_armed now ts e q :
  now < e -> ts ∉ q.*1 -> due now (armed ts e q) = due now q.
Proof.
  intros He Hin. unfold armed. rewrite spec_del_id by done.
  rewrite filter_app, filter_cons_False by (cbn; lia).
  rewrite !list_filter_filter.
  rewrite (list_filter_iff _ (fun p : nat * Z => p.2 <= now)) by (intros; lia).
  rewrite (filter_none (fun x : nat * Z => x.2 <= now /\ e < x.2)); [by rewrite app_nil_r |].
  apply Forall_forall. intros; lia.
Qed.

Lemma sample_callback_ok now ty s Q f arg :
  0 <= now < 2 ^ 61 -> ready sample_host s Q ->
  exists s' Q', sample_callback now f arg s = Some (tt, s') /\ ready sample_host s' Q' /\
    due now (Q' ty) = due now (Q ty).
Proof.
  intros Hnow Hr. pose proof Hr as [Hs HQ Ht [a Ha]]. unfold sample_callback. st_step. cbn [id].
  destruct (timers (lists s) !! arg) as [o |] eqn:Ho; [| by exists s, Q].
  case_decide as Hty; [| by exists s, Q].
  rewrite (st_bind_lift _ _ _ _ (timer_pending_holds _ _ _ _ HQ Ho Hty)).
  case_bool_decide as Hin; [by exists s, Q |].
  destruct (mod_timer_ns_ok sample_host 1 s Q arg o (now + 100) a Hs HQ Ht ltac:(lia) Ha Ho Hty)
    as (l & a' & n & E & Hl & _ & _).
  eexists _, _. split; [exact E |]. split.
  - constructor; [by destruct Hs | done | by apply sane_times_armed; [done | done | lia] | by eexists].
  - unfold set_queue. case_decide; [subst ty | done]. apply due_armed; [lia | done].
Qed.

(** ** Arming implements its specification *)

(** C6: Arming a timer puts it on the list of its clock after every timer due no
    later and before every timer due later, having taken it off its old
    place; the lists of the other clocks and the fixed fields of all timers
    are unchanged, nothing fails, and the host alarm is set anew exactly when
    the timer became the first of its clock, no alarm is pending and the alarm
    has dynamic ticks: to the least time left of the three clocks, in
    milliseconds. *)
Theorem qemu_mod_timer_refines hw s Q ts o e a :
  sane hw s -> holds s.(lists) Q -> sane_times Q -> s.(alarm_timer) = Some a ->
  s.(lists).(timers) !! ts = Some o -> (o.(clock) < QEMU_NUM_CLOCKS)%nat ->
  0 <= e * o.(scale) < 2 ^ 62 ->
  let q := armed ts (e * o.(scale)) (Q o.(clock)) in
  let Q' := set_queue o.(clock) q Q in
  exists l a' n,
    qemu_mod_timer hw ts e s = Some (tt, set_lists l (set_alarm_timer (Some a') (set_reads n s))) /\
    holds l Q' /\ keeps s.(lists) l /\
    alarm_set hw s Q' (bool_decide (head q = Some (ts, e * o.(scale)))) a a'.
Proof.
  intros Hs HQ Ht Ha Ho Hty He. unfold qemu_mod_timer. st_step. cbn [id].
  rewrite (st_bind_lift _ _ _ _ Ho), st_bind_s64 by lia.
  exact (mod_timer_ns_ok hw 1 s Q ts o _ a Hs HQ Ht He Ha Ho Hty).
Qed.

Lemma qemu_mod_timer_refines_witness :
  let q := armed 2 (1 * SCALE_MS) (sample_queue 0) in
  q = [(0%nat, 900); (1%nat, 950); (2%nat, 1000000)] /\
  exists l a' n,
    qemu_mod_timer sample_host 2 1 sample_state =
      Some (tt, set_lists l (set_alarm_timer (Some a') (set_reads n sample_state))) /\
    holds l (set_queue 0 q sample_queue) /\ keeps sample_lists l /\
    alarm_set sample_host sample_state (set_queue 0 q sample_queue)
      (bool_decide (head q = Some (2%nat, 1 * SCALE_MS))) (mkAlarm true false false []) a'.
Proof.
  split; [vm_compute; reflexivity |].
  apply (qemu_mod_timer_refines sample_host sample_state sample_queue 2
           (mkTimer 0 0 SCALE_MS 0 2 None) 1 (mkAlarm true false false []));
    [apply sample_sane | apply sample_holds | apply sample_times | done | done | by_eval |].
  vm_compute. split; [discriminate | done].
Defined.

(** ** Running fires what is due *)

(** C5: When the main loop runs the timers of an enabled clock, and callbacks
    neither fail nor disarm a timer that is due nor arm one for a time that
    has passed, the loop ends and the timers fired are exactly those due at
    the time it read, each once, in the order of their expiry times; afterwards
    no timer that was due is left. *)
Theorem run_timers_fires_due hw (callback : nat -> nat -> ST unit) ty
    (good : tstate -> (nat -> list (nat * Z)) -> Prop) s Q fuel :
  let now := clock_reading hw s ty s.(reads) in
  (ty < QEMU_NUM_CLOCKS)%nat -> sane hw s -> s.(enabled) !! ty = Some true ->
  (forall s Q, good s Q -> holds s.(lists) Q) ->
  (forall s Q n, good s Q -> good (set_reads n s) Q) ->
  (forall s Q p q l, good s Q -> Q ty = p :: q -> holds l (set_queue ty q Q) ->
     keeps s.(lists) l -> good (set_lists l s) (set_queue ty q Q)) ->
  (forall s Q t o, good s Q -> s.(lists).(timers) !! t = Some o -> t ∉ (Q ty).*1 ->
     exists s' Q', callback o.(cb) o.(opaque) s = Some (tt, s') /\ good s' Q' /\
       due now (Q' ty) = due now (Q ty)) ->
  good s Q -> (length (due now (Q ty)) < fuel)%nat ->
  exists s' Q', qemu_run_timers hw callback fuel ty s = Some ((due now (Q ty)).*1, s') /\
    holds s'.(lists) Q' /\ due now (Q' ty) = [].
Proof.
  intros now Hty Hs Hen Hh Hr Hp Hcb Hg Hf. unfold qemu_run_timers. st_step. cbn [id].
  rewrite (st_bind_lift _ _ _ _ Hen). cbn [negb].
  destruct (get_clock_ns_ok hw s ty Hs) as (n & En). rewrite (st_bind_some _ _ _ _ _ En).
  destruct (run_loop_ok callback ty now good Hty Hh Hp Hcb fuel (set_reads n s) Q (Hr s Q n Hg) Hf)
    as (s' & Q' & E & Hg' & Hd). exists s', Q'. split; [exact E |]. split; [by apply Hh | done].
Qed.

Lemma run_timers_fires_due_witness :
  exists s' Q', qemu_run_timers sample_host (sample_callback 1000) 10 0 sample_state =
      Some ([0%nat; 1%nat], s') /\
    holds s'.(lists) Q' /\ due 1000 (Q' 0%nat) = [].
Proof.
  apply (run_timers_fires_due sample_host (sample_callback 1000) 0 (ready sample_host)
           sample_state sample_queue 10); try by_eval.
  - apply sample_sane.
  - by intros s Q [].
  - intros s Q n []. constructor; [by apply sane_reads | done..].
  - intros s Q p q l Hr Eq Hl Hk. by apply (ready_pop _ 0 s Q p q l); [by_eval | ..].
  - intros s Q t o Hr _ _. apply (sample_callback_ok 1000 0); [lia | done].
  - constructor; [apply sample_sane | apply sample_holds | apply sample_times | by eexists].
Defined.

(** ** The cycle counter *)

(** [k] readings of the counter in a row *)
Fixpoint ticks_readings (hw : host) (k : nat) : ST (list Z) :=
  match k with
  | O => mret []
  | S k => v ← cpu_get_ticks hw; vs ← ticks_readings hw k; mret (v :: vs)
  end.

(** What the readings are meant to be: the counter starts at [v] and advances
    by the advance of the host's counter, nothing when that goes back. *)
Fixpoint ticks_spec (v prev : Z) (ts : list Z) : list Z :=
  match ts with
  | [] => []
  | t :: ts => let v := v + Z.max 0 (t - prev) in v :: ticks_spec v t ts
  end.

(** The next [k] values of the host's counter *)
Definition host_ticks (hw : host) (n k : nat) : list Z := map hw.(cpu_get_real_ticks) (seq n k).

Lemma get_ticks_step hw s B :
  s.(use_icount) = 0 -> s.(cpu_ticks_enabled) = true ->
  let t := hw.(cpu_get_real_ticks) s.(reads) in
  let off := s.(cpu_ticks_offset) + Z.max 0 (s.(cpu_ticks_prev) - t) in
  0 <= t <= B -> 0 <= s.(cpu_ticks_prev) <= B -> 0 <= B ->
  - 2 ^ 63 + B <= s.(cpu_ticks_offset) <= 2 ^ 63 - 1 - 2 * B ->
  cpu_get_ticks hw s =
    Some (t + off, set_cpu_ticks_prev t (set_cpu_ticks_offset off (set_reads (S s.(reads)) s))).
Proof.
  intros Hi He t off Ht Hp HB Ho. unfold cpu_get_ticks. st_step. cbn [id].
  rewrite Hi, He. cbn [c_true Z.eqb negb]. st_step. fold t.
  destruct (Z.ltb_spec t s.(cpu_ticks_prev)); cbn [when].
  - rewrite st_bind_assoc, st_bind_s64 by lia. rewrite st_bind_assoc, st_bind_s64 by lia.
    st_step. st_step. st_step. cbn [cpu_ticks_offset set_cpu_ticks_offset set_cpu_ticks_prev].
    replace (s.(cpu_ticks_offset) + (s.(cpu_ticks_prev) - t)) with off by lia.
    apply s64_ok. lia.
  - st_step. st_step. st_step. cbn [cpu_ticks_offset set_cpu_ticks_prev set_reads].
    replace off with s.(cpu_ticks_offset) by lia. rewrite s64_ok by lia. by destruct s.
Qed.

Lemma ticks_readings_ok hw k s B :
  s.(use_icount) = 0 -> s.(cpu_ticks_enabled) = true ->
  (forall n, 0 <= hw.(cpu_get_real_ticks) n <= B) -> 0 <= s.(cpu_ticks_prev) <= B ->
  - 2 ^ 63 + B <= s.(cpu_ticks_offset) -> s.(cpu_ticks_offset) + (Z.of_nat k + 2) * B < 2 ^ 63 ->
  exists s', ticks_readings hw k s =
    Some (ticks_spec (s.(cpu_ticks_prev) + s.(cpu_ticks_offset)) s.(cpu_ticks_prev)
            (host_ticks hw s.(reads) k), s').
Proof.
  intros Hi He Ht. revert s Hi He. induction k as [| k IH]; intros s Hi He Hp Hlo Hhi.
  { by exists s. }
  pose proof (Ht s.(reads)) as Ht0. cbn [ticks_readings].
  assert (HB : 0 <= B) by lia.
  assert (Hk : 0 <= Z.of_nat k * B) by (apply Z.mul_nonneg_nonneg; lia).
  replace ((Z.of_nat (S k) + 2) * B) with (Z.of_nat k * B + 3 * B) in Hhi by lia.
  erewrite st_bind_some by (apply (get_ticks_step hw s B); try done; lia).
  set (t := hw.(cpu_get_real_ticks) s.(reads)) in *.
  edestruct (IH (set_cpu_ticks_prev t (set_cpu_ticks_offset
      (s.(cpu_ticks_offset) + Z.max 0 (s.(cpu_ticks_prev) - t)) (set_reads (S s.(reads)) s))))
    as (s' & E); [done | done | done | cbn; lia | cbn; lia |].
  exists s'. rewrite (st_bind_some _ _ _ _ _ E). unfold host_ticks. cbn [map seq ticks_spec].
  cbn [cpu_ticks_prev cpu_ticks_offset reads set_cpu_ticks_prev set_cpu_ticks_offset set_reads].
  fold t. cbv zeta. unfold mret, st_ret.
  replace (t + (s.(cpu_ticks_offset) + Z.max 0 (s.(cpu_ticks_prev) - t)))
    with (s.(cpu_ticks_prev) + s.(cpu_ticks_offset) + Z.max 0 (t - s.(cpu_ticks_prev))) by lia.
  done.
Qed.

Lemma ticks_spec_bound v p ts : Forall (fun x => v <= x) (ticks_spec v p ts).
Proof.
  revert v p. induction ts as [| t ts IH]; intros v p; cbn; [done |].
  constructor; [lia |]. eapply Forall_impl; [apply IH |]. cbn. intros; lia.
Qed.

Lemma ticks_spec_sorted v p ts : StronglySorted Z.le (ticks_spec v p ts).
Proof.
  revert v p. induction ts as [| t ts IH]; intros v p; cbn; [constructor |].
  apply StronglySorted_cons. split; [apply ticks_spec_bound | apply IH].
Qed.

(** Whatever the host's cycle counter does (it may be set back by a suspend),
    the readings the guest takes while the counter runs never decrease, and
    each advances by exactly the advance of the host's counter, by nothing
    when that went back. *)
Theorem cpu_ticks_monotone hw k s B :
  s.(use_icount) = 0 -> s.(cpu_ticks_enabled) = true ->
  (forall n, 0 <= hw.(cpu_get_real_ticks) n <= B) -> 0 <= s.(cpu_ticks_prev) <= B ->
  - 2 ^ 63 + B <= s.(cpu_ticks_offset) -> s.(cpu_ticks_offset) + (Z.of_nat k + 2) * B < 2 ^ 63 ->
  exists vs s', ticks_readings hw k s = Some (vs, s') /\ StronglySorted Z.le vs /\
    vs = ticks_spec (s.(cpu_ticks_prev) + s.(cpu_ticks_offset)) s.(cpu_ticks_prev)
           (host_ticks hw s.(reads) k).
Proof.
  intros Hi He Ht Hp Hlo Hhi. destruct (ticks_readings_ok hw k s B Hi He Ht Hp Hlo Hhi) as (s' & E).
  eexists _, s'. split; [exact E |]. split; [apply ticks_spec_sorted | done].
Qed.

(** A host whose counter is set back from 100 to 40 between looks *)
Definition suspend_host : host :=
  mkHost (fun _ => 0) (fun _ => 0)
    (fun n => match n with O => 90 | 1%nat => 100 | 2%nat => 40 | _ => 55 end) (fun _ => true).

Lemma cpu_ticks_monotone_witness :
  exists vs s', ticks_readings suspend_host 4 sample_state = Some (vs, s') /\
    StronglySorted Z.le vs /\ vs = [90; 100; 100; 115].
Proof.
  apply (cpu_ticks_monotone suspend_host 4 sample_state 100); try done; try (cbn; lia).
  intros [| [| [| n]]]; cbn; lia.
Defined.

(** Stopping and restarting: with the counter at [t1] when it is stopped,
    [t2] when it is restarted and [t3] at the next reading, the guest sees the
    value at the stop plus the advance since the restart, plus how far [t3] is
    behind [t1]. *)
Lemma ticks_stop_restart hw s :
  s.(use_icount) = 0 -> s.(cpu_ticks_enabled) = true ->
  let r := hw.(cpu_get_real_ticks) in
  let n := s.(reads) in
  (forall n, 0 <= r n <= 2 ^ 58) -> (forall n, 0 <= hw.(get_clock) n <= 2 ^ 58) ->
  0 <= s.(cpu_ticks_prev) <= 2 ^ 58 ->
  - 2 ^ 60 <= s.(cpu_ticks_offset) <= 2 ^ 60 -> - 2 ^ 60 <= s.(cpu_clock_offset) <= 2 ^ 60 ->
  let v := r n + s.(cpu_ticks_offset) + Z.max 0 (s.(cpu_ticks_prev) - r n) in
  exists s', (cpu_disable_ticks hw;; cpu_enable_ticks hw;; cpu_get_ticks hw) s =
    Some (v + (r (n + 4)%nat - r (n + 2)%nat) + Z.max 0 (r n - r (n + 4)%nat), s').
Proof.
  intros Hi He r n Hr Hc Hp Ho Hco v. unfold cpu_disable_ticks.
  rewrite st_bind_assoc, st_bind_get. cbn [id]. rewrite He. cbn [when].
  rewrite st_bind_assoc. pose proof (Hr n) as Hn.
  erewrite st_bind_some by (apply (get_ticks_step hw s (2 ^ 58)); try done; lia).
  fold n. fold (r n). st_step. st_step. unfold cpu_get_clock. st_step. st_step. st_step. cbn [id].
  cbn [cpu_ticks_enabled set_cpu_ticks_offset set_cpu_ticks_prev set_reads]. rewrite He. cbn [negb].
  st_step. st_step. cbn [reads set_cpu_ticks_offset set_cpu_ticks_prev set_reads]. fold n.
  cbn [cpu_clock_offset set_cpu_ticks_offset set_cpu_ticks_prev set_reads].
  pose proof (Hc (S n)). rewrite st_bind_s64 by lia. do 3 st_step.
  unfold cpu_enable_ticks. st_step. st_step. cbn [id].
  cbn [cpu_ticks_enabled set_cpu_ticks_enabled negb when]. st_step. st_step. cbn [reads set_reads
    set_cpu_ticks_enabled set_cpu_clock_offset set_cpu_ticks_offset set_cpu_ticks_prev
    cpu_ticks_offset cpu_clock_offset]. fold (r (S (S n))).
  pose proof (Hr (S (S n))). pose proof (Hc (S (S (S n)))). pose proof (Hr (S (S (S (S n))))).
  rewrite ?st_bind_assoc, st_bind_s64 by lia. repeat st_step.
  cbn [reads set_reads set_cpu_ticks_offset].
  rewrite ?st_bind_assoc, st_bind_s64 by lia. repeat st_step.
  rewrite (get_ticks_step hw _ (2 ^ 58)) by (done || (cbn; fold r; lia)).
  eexists. cbn [reads set_reads set_cpu_ticks_enabled set_cpu_clock_offset set_cpu_ticks_offset
    set_cpu_ticks_prev cpu_ticks_offset cpu_ticks_prev]. fold r.
  rewrite !Nat.add_succ_r, Nat.add_0_r. f_equal. f_equal. lia.
Qed.

(** The host's counter set back between the restart and the first reading is
    not noticed, because the restart does not record the counter it used: the
    guest reads 100 at the stop and -200 after. *)
Definition set_back_host : host :=
  mkHost (fun _ => 0) (fun _ => 0)
    (fun n => match n with O => 100 | 2%nat => 500 | 4%nat => 200 | _ => 0 end) (fun _ => true).

Lemma ticks_restart_goes_back :
  fst <$> cpu_get_ticks set_back_host sample_state = Some 100 /\
  fst <$> (cpu_disable_ticks set_back_host;; cpu_enable_ticks set_back_host;;
           cpu_get_ticks set_back_host) sample_state = Some (-200).
Proof. by vm_compute. Qed.

(** ** Saving and loading *)

Lemma pending_expiry s Q ts o :
  holds s Q -> s.(timers) !! ts = Some o -> (o.(clock) < QEMU_NUM_CLOCKS)%nat ->
  ts ∈ (Q o.(clock)).*1 -> (ts, o.(expire_time)) ∈ Q o.(clock).
Proof.
  intros HQ Ho Hty Hin. destruct (HQ _ Hty) as [(hd & _ & Hseg) _ _].
  apply list_elem_of_fmap in Hin as ([t e] & -> & Hin). cbn [fst] in *.
  assert (He : o.(expire_time) = e); [| by rewrite He].
  clear HQ Hty. revert hd Hseg. induction (Q o.(clock)) as [| [t' e'] q IH]; [by apply not_elem_of_nil in Hin |].
  intros hd (_ & o' & Ho' & _ & He' & Hseg). apply elem_of_cons in Hin as [[= <- <-] | Hin].
  - congruence.
  - by eapply IH.
Qed.

(** What loading the saved value of a timer makes of its queue *)
Definition restored (q : list (nat * Z)) (ts : nat) (expiry : option Z) : list (nat * Z) :=
  match expiry with Some e => armed ts e q | None => spec_del ts q end.

(** The value saved for a timer, loaded in any other state of the machine,
    arms the timer for the time it was armed for, and disarms it when it was
    not armed. *)
Theorem timer_save_load hw s Q s2 Q2 ts o o2 a :
  holds s.(lists) Q -> sane_times Q -> s.(lists).(timers) !! ts = Some o ->
  (o.(clock) < QEMU_NUM_CLOCKS)%nat ->
  ready hw s2 Q2 -> s2.(alarm_timer) = Some a ->
  s2.(lists).(timers) !! ts = Some o2 -> o2.(clock) = o.(clock) ->
  exists v s2',
    qemu_put_timer ts s = Some (v, s) /\ in_u 64 v /\
    qemu_get_timer hw ts v s2 = Some (tt, s2') /\
    holds s2'.(lists) (set_queue o.(clock)
      (restored (Q2 o.(clock)) ts
         (if bool_decide (ts ∈ (Q o.(clock)).*1) then Some o.(expire_time) else None)) Q2).
Proof.
  intros HQ Ht Ho Hty [Hs2 HQ2 Ht2 _] Ha Ho2 Hc. rewrite <- Hc in Hty |- *.
  unfold qemu_put_timer. st_step. cbn [id].
  rewrite (st_bind_lift _ _ _ _ (timer_pending_holds _ _ _ _ HQ Ho ltac:(by rewrite <- Hc))).
  rewrite <- Hc. case_bool_decide as Hin.
  - rewrite (st_bind_lift _ _ _ _ Ho). rewrite Hc in Hin.
    pose proof (pending_expiry _ _ _ _ HQ Ho ltac:(by rewrite <- Hc) Hin) as He.
    specialize (Ht o.(clock) ltac:(by rewrite <- Hc)). rewrite Forall_forall in Ht.
    apply Ht in He. cbn in He.
    destruct (mod_timer_ns_ok hw 1 s2 Q2 ts o2 o.(expire_time) a Hs2 HQ2 Ht2 He Ha Ho2 Hty)
      as (l & a' & n & E & Hl & _ & _).
    exists (wrap 64 o.(expire_time)), (set_lists l (set_alarm_timer (Some a') (set_reads n s2))).
    split; [reflexivity |]. rewrite wrap_small by (split; lia).
    split; [split; lia |]. split; [| exact Hl]. unfold qemu_get_timer.
    rewrite (proj2 (Z.eqb_neq _ _)) by (change (wrap 64 (-1)) with (2 ^ 64 - 1); lia).
    unfold to_signed. rewrite wrap_small by (split; lia).
    rewrite (proj2 (Z.ltb_lt _ _)) by lia. exact E.
  - destruct (del_timer_holds _ Q2 ts o2 HQ2 Ho2 Hty) as (l & E & _ & _ & Hl).
    exists (wrap 64 (-1)), (set_lists l s2). split; [reflexivity |]. split; [by apply in_u_wrap |].
    split; [| exact Hl]. unfold qemu_get_timer. rewrite Z.eqb_refl. unfold del_timer, with_lists.
    by rewrite E.
Qed.

Lemma timer_save_load_witness :
  exists v s2',
    qemu_put_timer 1 sample_state = Some (v, sample_state) /\ in_u 64 v /\
    qemu_get_timer sample_host 1 v sample_state = Some (tt, s2') /\
    holds s2'.(lists) (set_queue 0 (restored (sample_queue 0) 1 (Some 950)) sample_queue).
Proof.
  apply (timer_save_load sample_host sample_state sample_queue sample_state sample_queue 1
           (mkTimer 0 950 SCALE_NS 0 1 None) (mkTimer 0 950 SCALE_NS 0 1 None)
           (mkAlarm true false false [])); try done; try by_eval.
  - apply sample_holds.
  - apply sample_times.
  - constructor; [apply sample_sane | apply sample_holds | apply sample_times | by eexists].
Defined.

(** ** The warp of the virtual clock *)

Lemma st_bind_s64_none {B} z (f : Z -> ST B) s : f z s = None -> (s64 z ≫= f) s = None.
Proof. intros Hf. unfold s64. by destruct ((_ <=? z) && _). Qed.

Lemma st_bind_none {A B} (m : ST A) (f : A -> ST B) s : m s = None -> (m ≫= f) s = None.
Proof. intros E. unfold mbind, st_bind. by rewrite E. Qed.

(** The instruction counter with a warp under way, and no timer of [vm_clock]:
    the test of its first timer reads the scale of a NULL timer. *)
Lemma warp_without_timers_crashes hw s l :
  s.(use_icount) = 1 -> s.(vm_running) = true -> s.(vm_clock_warp_start) <> -1 ->
  s.(lists) = mkLists l [None; None; None] -> icount_warp_rt hw s = None.
Proof.
  intros Hi Hr Hne Hl. unfold icount_warp_rt. rewrite st_bind_get. cbn [id].
  rewrite (proj2 (Z.eqb_neq _ _) Hne), Hr. cbn [when]. apply st_bind_none.
  change (qemu_get_clock_ns hw QEMU_CLOCK_REALTIME) with (read hw.(get_clock)).
  rewrite st_bind_read. apply st_bind_s64_none. rewrite Hi, Z.eqb_refl, st_bind_ret.
  apply st_bind_s64_none. rewrite st_bind_modify.
  rewrite (st_bind_some _ _ _ None (set_qemu_icount_bias
    (qemu_icount_bias s + (get_clock hw (reads s) - vm_clock_warp_start s)) (set_reads (S (reads s)) s)))
    by (unfold active; rewrite st_bind_get; cbn; by rewrite Hl).
  unfold mbind at 1, st_bind at 1. by destruct (qemu_get_clock_ns _ _ _) as [[now s'] |].
Qed.
