(* ===== verification/Ps2.v ===== *)
(** * PS/2 keyboard and mouse (qemu/hw/ps2.c)

    The 256-byte ring buffer each device sends through, the commands of the
    keyboard and of the mouse, key codes and motion packets.  The calls of
    [update_irq] are recorded in order, latest first; the keyboard controller
    ([Pckbd]) acts on them.  [None] is undefined behaviour: an access outside
    the buffer, or an overflow of the motion counters.

    Theorems: the ring buffer refines a queue of at most 256 bytes that drops
    what does not fit; every operation keeps the devices well formed and never
    fails; key codes arrive in order; the packets of a motion add up to it and
    the loop that sends them ends; the knock that turns on the wheel. *)

From Stdlib Require Import ZArith Lia.
From stdpp Require Import base option numbers list.
From S2P Require Import Prelude.

Local Open Scope Z_scope.

(** ** State *)

Definition PS2_QUEUE_SIZE : Z := 256.

Record PS2Queue := mkQueue {
  data : list Z;
  rptr : Z;
  wptr : Z;
  count : Z
}.

(** [update] records the levels passed to [update_irq], latest first. *)
Record PS2State := mkPS2 {
  queue : PS2Queue;
  write_cmd : Z;
  update : list Z
}.

Definition set_write_cmd (v : Z) (s : PS2State) : PS2State := mkPS2 s.(queue) v s.(update).

(** The keyboard; [leds] records the calls of [kbd_put_ledstate], latest first. *)
Record PS2KbdState := mkKbd {
  common : PS2State;
  scan_enabled : Z;
  translate : Z;
  scancode_set : Z;
  leds : list Z
}.

Definition set_common (v : PS2State) (s : PS2KbdState) : PS2KbdState :=
  mkKbd v s.(scan_enabled) s.(translate) s.(scancode_set) s.(leds).
Definition set_scan_enabled (v : Z) (s : PS2KbdState) : PS2KbdState :=
  mkKbd s.(common) v s.(translate) s.(scancode_set) s.(leds).
Definition set_translate (v : Z) (s : PS2KbdState) : PS2KbdState :=
  mkKbd s.(common) s.(scan_enabled) v s.(scancode_set) s.(leds).
Definition set_scancode_set (v : Z) (s : PS2KbdState) : PS2KbdState :=
  mkKbd s.(common) s.(scan_enabled) s.(translate) v s.(leds).
Definition set_leds (v : list Z) (s : PS2KbdState) : PS2KbdState :=
  mkKbd s.(common) s.(scan_enabled) s.(translate) s.(scancode_set) v.

(** The mouse; the deltas are the motion not yet sent. *)
Record PS2MouseState := mkMouse {
  mcommon : PS2State;
  mouse_status : Z;
  mouse_resolution : Z;
  mouse_sample_rate : Z;
  mouse_wrap : Z;
  mouse_type : Z;
  mouse_detect_state : Z;
  mouse_dx : Z;
  mouse_dy : Z;
  mouse_dz : Z;
  mouse_buttons : Z
}.

Definition set_mcommon (v : PS2State) (s : PS2MouseState) : PS2MouseState :=
  mkMouse v s.(mouse_status) s.(mouse_resolution) s.(mouse_sample_rate) s.(mouse_wrap)
    s.(mouse_type) s.(mouse_detect_state) s.(mouse_dx) s.(mouse_dy) s.(mouse_dz)
    s.(mouse_buttons).
Definition set_mouse_status (v : Z) (s : PS2MouseState) : PS2MouseState :=
  mkMouse s.(mcommon) v s.(mouse_resolution) s.(mouse_sample_rate) s.(mouse_wrap)
    s.(mouse_type) s.(mouse_detect_state) s.(mouse_dx) s.(mouse_dy) s.(mouse_dz)
    s.(mouse_buttons).
Definition set_mouse_resolution (v : Z) (s : PS2MouseState) : PS2MouseState :=
  mkMouse s.(mcommon) s.(mouse_status) v s.(mouse_sample_rate) s.(mouse_wrap)
    s.(mouse_type) s.(mouse_detect_state) s.(mouse_dx) s.(mouse_dy) s.(mouse_dz)
    s.(mouse_buttons).
Definition set_mouse_sample_rate (v : Z) (s : PS2MouseState) : PS2MouseState :=
  mkMouse s.(mcommon) s.(mouse_status) s.(mouse_resolution) v s.(mouse_wrap)
    s.(mouse_type) s.(mouse_detect_state) s.(mouse_dx) s.(mouse_dy) s.(mouse_dz)
    s.(mouse_buttons).
Definition set_mouse_wrap (v : Z) (s : PS2MouseState) : PS2MouseState :=
  mkMouse s.(mcommon) s.(mouse_status) s.(mouse_resolution) s.(mouse_sample_rate) v
    s.(mouse_type) s.(mouse_detect_state) s.(mouse_dx) s.(mouse_dy) s.(mouse_dz)
    s.(mouse_buttons).
Definition set_mouse_type (v : Z) (s : PS2MouseState) : PS2MouseState :=
  mkMouse s.(mcommon) s.(mouse_status) s.(mouse_resolution) s.(mouse_sample_rate)
    s.(mouse_wrap) v s.(mouse_detect_state) s.(mouse_dx) s.(mouse_dy) s.(mouse_dz)
    s.(mouse_buttons).
Definition set_mouse_detect_state (v : Z) (s : PS2MouseState) : PS2MouseState :=
  mkMouse s.(mcommon) s.(mouse_status) s.(mouse_resolution) s.(mouse_sample_rate)
    s.(mouse_wrap) s.(mouse_type) v s.(mouse_dx) s.(mouse_dy) s.(mouse_dz)
    s.(mouse_buttons).
Definition set_mouse_dx (v : Z) (s : PS2MouseState) : PS2MouseState :=
  mkMouse s.(mcommon) s.(mouse_status) s.(mouse_resolution) s.(mouse_sample_rate)
    s.(mouse_wrap) s.(mouse_type) s.(mouse_detect_state) v s.(mouse_dy) s.(mouse_dz)
    s.(mouse_buttons).
Definition set_mouse_dy (v : Z) (s : PS2MouseState) : PS2MouseState :=
  mkMouse s.(mcommon) s.(mouse_status) s.(mouse_resolution) s.(mouse_sample_rate)
    s.(mouse_wrap) s.(mouse_type) s.(mouse_detect_state) s.(mouse_dx) v s.(mouse_dz)
    s.(mouse_buttons).
Definition set_mouse_dz (v : Z) (s : PS2MouseState) : PS2MouseState :=
  mkMouse s.(mcommon) s.(mouse_status) s.(mouse_resolution) s.(mouse_sample_rate)
    s.(mouse_wrap) s.(mouse_type) s.(mouse_detect_state) s.(mouse_dx) s.(mouse_dy) v
    s.(mouse_buttons).
Definition set_mouse_buttons (v : Z) (s : PS2MouseState) : PS2MouseState :=
  mkMouse s.(mcommon) s.(mouse_status) s.(mouse_resolution) s.(mouse_sample_rate)
    s.(mouse_wrap) s.(mouse_type) s.(mouse_detect_state) s.(mouse_dx) s.(mouse_dy)
    s.(mouse_dz) v.

Definition ps2_raw_keycode : list Z :=
  [0; 118; 22; 30; 38; 37; 46; 54; 61; 62; 70; 69; 78; 85; 102; 13;
   21; 29; 36; 45; 44; 53; 60; 67; 68; 77; 84; 91; 90; 20; 28; 27;
   35; 43; 52; 51; 59; 66; 75; 76; 82; 14; 18; 93; 26; 34; 33; 42;
   50; 49; 58; 65; 73; 74; 89; 124; 17; 41; 88; 5; 6; 4; 12; 3;
   11; 2; 10; 1; 9; 119; 126; 108; 117; 125; 123; 107; 115; 116; 121; 105;
   114; 122; 112; 113; 127; 96; 97; 120; 7; 15; 23; 31; 39; 47; 55; 63;
   71; 79; 86; 94; 8; 16; 24; 32; 40; 48; 56; 64; 72; 80; 87; 111;
   19; 25; 57; 81; 83; 92; 95; 98; 99; 100; 101; 103; 104; 106; 109; 110].

Definition ps2_raw_keycode_set3 : list Z :=
  [0; 8; 22; 30; 38; 37; 46; 54; 61; 62; 70; 69; 78; 85; 102; 13;
   21; 29; 36; 45; 44; 53; 60; 67; 68; 77; 84; 91; 90; 17; 28; 27;
   35; 43; 52; 51; 59; 66; 75; 76; 82; 14; 18; 92; 26; 34; 33; 42;
   50; 49; 58; 65; 73; 74; 89; 126; 25; 41; 20; 7; 15; 23; 31; 39;
   47; 2; 63; 71; 79; 118; 95; 108; 117; 125; 132; 107; 115; 116; 124; 105;
   114; 122; 112; 113; 127; 96; 97; 86; 94; 15; 23; 31; 39; 47; 55; 63;
   71; 79; 86; 94; 8; 16; 24; 32; 40; 48; 56; 64; 72; 80; 87; 111;
   19; 25; 57; 81; 83; 92; 95; 98; 99; 100; 101; 103; 104; 106; 109; 110].

(** ** The ring buffer *)

Definition ps2_queue (b : Z) (s : PS2State) : option PS2State :=
  let q := s.(queue) in
  if PS2_QUEUE_SIZE <=? q.(count) then Some s
  else if (0 <=? q.(wptr)) && (q.(wptr) <? PS2_QUEUE_SIZE) then
    let data := <[Z.to_nat q.(wptr) := wrap 8 b]> q.(data) in
    let wptr := if q.(wptr) + 1 =? PS2_QUEUE_SIZE then 0 else q.(wptr) + 1 in
    Some (mkPS2 (mkQueue data q.(rptr) wptr (q.(count) + 1)) s.(write_cmd) (1 :: s.(update)))
  else None.

Definition data_at (q : PS2Queue) (i : Z) : option Z :=
  if (0 <=? i) && (i <? PS2_QUEUE_SIZE) then q.(data) !! Z.to_nat i else None.

Definition ps2_read_data (s : PS2State) : option (Z * PS2State) :=
  let q := s.(queue) in
  if q.(count) =? 0 then
    let index := q.(rptr) - 1 in
    let index := if index <? 0 then PS2_QUEUE_SIZE - 1 else index in
    val ← data_at q index;
    Some (val, s)
  else
    val ← data_at q q.(rptr);
    let rptr := if q.(rptr) + 1 =? PS2_QUEUE_SIZE then 0 else q.(rptr) + 1 in
    let count := q.(count) - 1 in
    Some (val, mkPS2 (mkQueue q.(data) rptr q.(wptr) count) s.(write_cmd)
                 (c_bool (negb (count =? 0)) :: 0 :: s.(update))).

Definition ps2_common_reset (s : PS2State) : PS2State :=
  mkPS2 (mkQueue s.(queue).(data) 0 0 0) (-1) (0 :: s.(update)).

(** ** The keyboard *)

Definition KBD_CMD_SET_LEDS : Z := 0xED.
Definition KBD_CMD_ECHO : Z := 0xEE.
Definition KBD_CMD_SCANCODE : Z := 0xF0.
Definition KBD_CMD_GET_ID : Z := 0xF2.
Definition KBD_CMD_SET_RATE : Z := 0xF3.
Definition KBD_CMD_ENABLE : Z := 0xF4.
Definition KBD_CMD_RESET_DISABLE : Z := 0xF5.
Definition KBD_CMD_RESET_ENABLE : Z := 0xF6.
Definition KBD_CMD_RESET : Z := 0xFF.
Definition KBD_REPLY_POR : Z := 0xAA.
Definition KBD_REPLY_ID : Z := 0xAB.
Definition KBD_REPLY_ACK : Z := 0xFA.
Definition KBD_REPLY_RESEND : Z := 0xFE.

(** [ps2_queue(&s->common, b)] for the two devices *)
Definition kput (b : Z) (s : PS2KbdState) : option PS2KbdState :=
  c ← ps2_queue b s.(common); Some (set_common c s).

Definition ps2_put_keycode (keycode : Z) (s : PS2KbdState) : option PS2KbdState :=
  if negb (c_true s.(translate)) && (keycode <? 0xe0) && (1 <? s.(scancode_set)) then
    s ← (if c_true (Z.land keycode 0x80) then kput 0xf0 s else Some s);
    keycode ← (if s.(scancode_set) =? 2 then ps2_raw_keycode !! Z.to_nat (Z.land keycode 0x7f)
               else if s.(scancode_set) =? 3
               then ps2_raw_keycode_set3 !! Z.to_nat (Z.land keycode 0x7f)
               else Some keycode);
    kput keycode s
  else kput keycode s.

Definition kbd_put_ledstate (v : Z) (s : PS2KbdState) : PS2KbdState := set_leds (v :: s.(leds)) s.

Definition ps2_reset_keyboard (s : PS2KbdState) : PS2KbdState :=
  kbd_put_ledstate 0 (set_scancode_set 2 (set_scan_enabled 1 s)).

Definition set_kbd_cmd (v : Z) (s : PS2KbdState) : PS2KbdState :=
  set_common (set_write_cmd v s.(common)) s.

(** A command byte *)
Definition kbd_command (val : Z) (s : PS2KbdState) : option PS2KbdState :=
  if val =? 0x00 then kput KBD_REPLY_ACK s
  else if val =? 0x05 then kput KBD_REPLY_RESEND s
  else if val =? KBD_CMD_GET_ID then
    s ← kput KBD_REPLY_ACK s;
    s ← kput KBD_REPLY_ID s;
    if c_true s.(translate) then kput 0x41 s else kput 0x83 s
  else if val =? KBD_CMD_ECHO then kput KBD_CMD_ECHO s
  else if val =? KBD_CMD_ENABLE then kput KBD_REPLY_ACK (set_scan_enabled 1 s)
  else if (val =? KBD_CMD_SCANCODE) || (val =? KBD_CMD_SET_LEDS) || (val =? KBD_CMD_SET_RATE) then
    kput KBD_REPLY_ACK (set_kbd_cmd val s)
  else if val =? KBD_CMD_RESET_DISABLE then
    kput KBD_REPLY_ACK (set_scan_enabled 0 (ps2_reset_keyboard s))
  else if val =? KBD_CMD_RESET_ENABLE then
    kput KBD_REPLY_ACK (set_scan_enabled 1 (ps2_reset_keyboard s))
  else if val =? KBD_CMD_RESET then
    s ← kput KBD_REPLY_ACK (ps2_reset_keyboard s);
    kput KBD_REPLY_POR s
  else kput KBD_REPLY_ACK s.

(** The argument of [KBD_CMD_SCANCODE] *)
Definition kbd_scancode (val : Z) (s : PS2KbdState) : option PS2KbdState :=
  if val =? 0 then
    if s.(scancode_set) =? 1 then ps2_put_keycode 0x43 s
    else if s.(scancode_set) =? 2 then ps2_put_keycode 0x41 s
    else if s.(scancode_set) =? 3 then ps2_put_keycode 0x3f s
    else Some s
  else
    kput KBD_REPLY_ACK (if (1 <=? val) && (val <=? 3) then set_scancode_set val s else s).

Definition ps2_write_keyboard (val : Z) (s : PS2KbdState) : option PS2KbdState :=
  let cmd := s.(common).(write_cmd) in
  if cmd =? KBD_CMD_SCANCODE then s ← kbd_scancode val s; Some (set_kbd_cmd (-1) s)
  else if cmd =? KBD_CMD_SET_LEDS then
    s ← kput KBD_REPLY_ACK (kbd_put_ledstate val s); Some (set_kbd_cmd (-1) s)
  else if cmd =? KBD_CMD_SET_RATE then
    s ← kput KBD_REPLY_ACK s; Some (set_kbd_cmd (-1) s)
  else kbd_command val s.

Definition ps2_keyboard_set_translation (mode : Z) (s : PS2KbdState) : PS2KbdState :=
  set_translate mode s.

Definition ps2_kbd_reset (s : PS2KbdState) : PS2KbdState :=
  set_scancode_set 0 (set_translate 0 (set_scan_enabled 0
    (set_common (ps2_common_reset s.(common)) s))).

(** The state [qemu_mallocz] and [ps2_kbd_init] make *)
Definition ps2_zero : PS2State := mkPS2 (mkQueue (replicate 256 0) 0 0 0) 0 [].
Definition ps2_kbd_init : PS2KbdState := mkKbd ps2_zero 0 0 2 [].

Definition ps2_kbd_post_load (version_id : Z) (s : PS2KbdState) : PS2KbdState :=
  if version_id =? 2 then set_scancode_set 2 s else s.

(** ** The mouse *)

Definition AUX_SET_SCALE11 : Z := 0xE6.
Definition AUX_SET_SCALE21 : Z := 0xE7.
Definition AUX_SET_RES : Z := 0xE8.
Definition AUX_GET_SCALE : Z := 0xE9.
Definition AUX_SET_STREAM : Z := 0xEA.
Definition AUX_POLL : Z := 0xEB.
Definition AUX_RESET_WRAP : Z := 0xEC.
Definition AUX_SET_WRAP : Z := 0xEE.
Definition AUX_SET_REMOTE : Z := 0xF0.
Definition AUX_GET_TYPE : Z := 0xF2.
Definition AUX_SET_SAMPLE : Z := 0xF3.
Definition AUX_ENABLE_DEV : Z := 0xF4.
Definition AUX_DISABLE_DEV : Z := 0xF5.
Definition AUX_SET_DEFAULT : Z := 0xF6.
Definition AUX_RESET : Z := 0xFF.
Definition AUX_ACK : Z := 0xFA.
Definition MOUSE_STATUS_REMOTE : Z := 0x40.
Definition MOUSE_STATUS_ENABLED : Z := 0x20.
Definition MOUSE_STATUS_SCALE21 : Z := 0x10.

Definition mput (b : Z) (s : PS2MouseState) : option PS2MouseState :=
  c ← ps2_queue b s.(mcommon); Some (set_mcommon c s).

Definition clamp (n x : Z) : Z := if n <? x then n else if x <? - n then - n else x.

(** The bytes of one packet and the motion it takes *)
Definition packet_head (dx1 dy1 buttons : Z) : Z :=
  Z.lor (Z.lor (Z.lor 0x08 (Z.shiftl (c_bool (dx1 <? 0)) 4)) (Z.shiftl (c_bool (dy1 <? 0)) 5))
    (Z.land buttons 0x07).

Definition ps2_mouse_send_packet (s : PS2MouseState) : option PS2MouseState :=
  let dx1 := clamp 127 s.(mouse_dx) in
  let dy1 := clamp 127 s.(mouse_dy) in
  let dz1 := s.(mouse_dz) in
  s ← mput (packet_head dx1 dy1 s.(mouse_buttons)) s;
  s ← mput (Z.land dx1 0xff) s;
  s ← mput (Z.land dy1 0xff) s;
  '(dz1, s) ←
    (if s.(mouse_type) =? 3 then
       let dz1 := clamp 127 dz1 in
       s ← mput (Z.land dz1 0xff) s; Some (dz1, s)
     else if s.(mouse_type) =? 4 then
       let dz1 := clamp 7 dz1 in
       s ← mput (Z.lor (Z.land dz1 0x0f) (Z.shiftl (Z.land s.(mouse_buttons) 0x18) 1)) s;
       Some (dz1, s)
     else Some (dz1, s));
  Some (set_mouse_dz (s.(mouse_dz) - dz1) (set_mouse_dy (s.(mouse_dy) - dy1)
          (set_mouse_dx (s.(mouse_dx) - dx1) s))).

Definition still (s : PS2MouseState) : bool :=
  (s.(mouse_dx) =? 0) && (s.(mouse_dy) =? 0) && (s.(mouse_dz) =? 0).

(** The loop of [ps2_mouse_event], with fuel for the packets *)
Fixpoint send_packets (fuel : nat) (s : PS2MouseState) : option PS2MouseState :=
  match fuel with
  | O => None
  | S fuel =>
      s ← ps2_mouse_send_packet s;
      if still s then Some s else send_packets fuel s
  end.

(** As many packets as a motion of one axis can take *)
Definition packet_fuel (s : PS2MouseState) : nat :=
  S (Z.to_nat (Z.max (Z.abs s.(mouse_dx)) (Z.max (Z.abs s.(mouse_dy)) (Z.abs s.(mouse_dz))))).

(** A sum of the [int] counters *)
Definition s32 (z : Z) : option Z :=
  if (- 2 ^ 31 <=? z) && (z <? 2 ^ 31) then Some z else None.

Definition ps2_mouse_event (dx dy dz buttons_state : Z) (s : PS2MouseState) : option PS2MouseState :=
  if negb (c_true (Z.land s.(mouse_status) MOUSE_STATUS_ENABLED)) then Some s
  else
    x ← s32 (s.(mouse_dx) + dx);
    y ← s32 (s.(mouse_dy) - dy);
    z ← s32 (s.(mouse_dz) + dz);
    let s := set_mouse_dz z (set_mouse_dy y (set_mouse_dx x s)) in
    if still s && (s.(mouse_buttons) =? buttons_state) then Some s
    else
      let s := set_mouse_buttons (wrap 8 buttons_state) s in
      if negb (c_true (Z.land s.(mouse_status) MOUSE_STATUS_REMOTE)) &&
         (s.(mcommon).(queue).(count) <? PS2_QUEUE_SIZE - 16)
      then send_packets (packet_fuel s) s
      else Some s.

Definition ps2_mouse_fake_event (s : PS2MouseState) : option PS2MouseState :=
  ps2_mouse_event 1 0 0 0 s.

Definition set_mouse_cmd (v : Z) (s : PS2MouseState) : PS2MouseState :=
  set_mcommon (set_write_cmd v s.(mcommon)) s.

Definition clear_status (m : Z) (s : PS2MouseState) : PS2MouseState :=
  set_mouse_status (Z.land s.(mouse_status) (Z.lnot m)) s.
Definition raise_status (m : Z) (s : PS2MouseState) : PS2MouseState :=
  set_mouse_status (Z.lor s.(mouse_status) m) s.

(** The assignments [AUX_SET_DEFAULT] and [AUX_RESET] share *)
Definition mouse_defaults (s : PS2MouseState) : PS2MouseState :=
  set_mouse_status 0 (set_mouse_resolution 2 (set_mouse_sample_rate 100 s)).

Definition mouse_command (val : Z) (s : PS2MouseState) : option PS2MouseState :=
  if val =? AUX_SET_SCALE11 then mput AUX_ACK (clear_status MOUSE_STATUS_SCALE21 s)
  else if val =? AUX_SET_SCALE21 then mput AUX_ACK (raise_status MOUSE_STATUS_SCALE21 s)
  else if val =? AUX_SET_STREAM then mput AUX_ACK (clear_status MOUSE_STATUS_REMOTE s)
  else if val =? AUX_SET_WRAP then mput AUX_ACK (set_mouse_wrap 1 s)
  else if val =? AUX_SET_REMOTE then mput AUX_ACK (raise_status MOUSE_STATUS_REMOTE s)
  else if val =? AUX_GET_TYPE then s ← mput AUX_ACK s; mput s.(mouse_type) s
  else if (val =? AUX_SET_RES) || (val =? AUX_SET_SAMPLE) then mput AUX_ACK (set_mouse_cmd val s)
  else if val =? AUX_GET_SCALE then
    s ← mput AUX_ACK s;
    s ← mput s.(mouse_status) s;
    s ← mput s.(mouse_resolution) s;
    mput s.(mouse_sample_rate) s
  else if val =? AUX_POLL then s ← mput AUX_ACK s; ps2_mouse_send_packet s
  else if val =? AUX_ENABLE_DEV then mput AUX_ACK (raise_status MOUSE_STATUS_ENABLED s)
  else if val =? AUX_DISABLE_DEV then mput AUX_ACK (clear_status MOUSE_STATUS_ENABLED s)
  else if val =? AUX_SET_DEFAULT then mput AUX_ACK (mouse_defaults s)
  else if val =? AUX_RESET then
    s ← mput AUX_ACK (set_mouse_type 0 (mouse_defaults s));
    s ← mput 0xaa s;
    mput s.(mouse_type) s
  else Some s.

(** The detection of a wheel by a sequence of sample rates: the type and the
    next state *)
Definition detect (val : Z) (s : PS2MouseState) : PS2MouseState :=
  let d := s.(mouse_detect_state) in
  if d =? 1 then
    set_mouse_detect_state (if val =? 100 then 2 else if val =? 200 then 3 else 0) s
  else if d =? 2 then
    set_mouse_detect_state 0 (if val =? 80 then set_mouse_type 3 s else s)
  else if d =? 3 then
    set_mouse_detect_state 0 (if val =? 80 then set_mouse_type 4 s else s)
  else if val =? 200 then set_mouse_detect_state 1 s else s.

Definition ps2_write_mouse (val : Z) (s : PS2MouseState) : option PS2MouseState :=
  let cmd := s.(mcommon).(write_cmd) in
  if cmd =? AUX_SET_SAMPLE then
    s ← mput AUX_ACK (detect val (set_mouse_sample_rate (wrap 8 val) s));
    Some (set_mouse_cmd (-1) s)
  else if cmd =? AUX_SET_RES then
    s ← mput AUX_ACK (set_mouse_resolution (wrap 8 val) s);
    Some (set_mouse_cmd (-1) s)
  else if c_true s.(mouse_wrap) && (val =? AUX_RESET_WRAP) then
    mput AUX_ACK (set_mouse_wrap 0 s)
  else if c_true s.(mouse_wrap) && negb (val =? AUX_RESET) then mput val s
  else mouse_command val s.

Definition ps2_mouse_reset (s : PS2MouseState) : PS2MouseState :=
  mkMouse (ps2_common_reset s.(mcommon)) 0 0 0 0 0 0 0 0 0 0.

Definition ps2_mouse_init : PS2MouseState := mkMouse ps2_zero 0 0 0 0 0 0 0 0 0 0.

(** ** The ring buffer refines a bounded queue *)

Record queue_wf (q : PS2Queue) : Prop := {
  qw_data : length q.(data) = 256%nat;
  qw_bytes : Forall (in_u 8) q.(data);
  qw_rptr : 0 <= q.(rptr) < 256;
  qw_count : 0 <= q.(count) <= 256;
  qw_wptr : q.(wptr) = (q.(rptr) + q.(count)) mod 256
}.

(** The [i]th byte waiting, and all of them *)
Definition cell (q : PS2Queue) (i : nat) : Z :=
  default 0 (q.(data) !! Z.to_nat ((q.(rptr) + Z.of_nat i) mod 256)).

Definition contents (q : PS2Queue) : list Z := cell q <$> seq 0 (Z.to_nat q.(count)).

(** The abstract queue: 256 bytes, what does not fit is dropped. *)
Definition spec_push (b : Z) (c : list Z) : list Z :=
  if decide (length c < 256)%nat then c ++ [wrap 8 b] else c.

Lemma queue_contents_length q : queue_wf q -> Z.of_nat (length (contents q)) = q.(count).
Proof. intros []. unfold contents. rewrite length_fmap, length_seq. lia. Qed.

(** Incrementing an index the way the code does *)
Lemma ring_succ i : 0 <= i < 256 -> (if i + 1 =? PS2_QUEUE_SIZE then 0 else i + 1) = (i + 1) mod 256.
Proof.
  intros Hi. unfold PS2_QUEUE_SIZE. destruct (Z.eqb_spec (i + 1) 256) as [-> | Hne]; [done |].
  rewrite Z.mod_small by lia. done.
Qed.

Lemma in_range_bool i : 0 <= i < 256 -> (0 <=? i) && (i <? PS2_QUEUE_SIZE) = true.
Proof. intros Hi. unfold PS2_QUEUE_SIZE. lia. Qed.

Lemma ps2_queue_ok b s :
  queue_wf s.(queue) ->
  exists q u, ps2_queue b s = Some (mkPS2 q s.(write_cmd) (u ++ s.(update))) /\ queue_wf q /\
    contents q = spec_push b (contents s.(queue)) /\
    u = (if decide (length (contents s.(queue)) < 256)%nat then [1] else []).
Proof.
  intros Hq. pose proof (queue_contents_length _ Hq) as Hlen. destruct Hq as [Hd Hb Hr Hc Hw].
  unfold ps2_queue, spec_push. destruct (Z.leb_spec PS2_QUEUE_SIZE s.(queue).(count)) as [Hfull | Hroom];
    unfold PS2_QUEUE_SIZE in *.
  - rewrite !decide_False by lia. exists s.(queue), []. destruct s. done.
  - rewrite !decide_True by lia.
    pose proof (Z.mod_pos_bound (s.(queue).(rptr) + s.(queue).(count)) 256 ltac:(lia)) as Hwb.
    rewrite <- Hw in Hwb. fold PS2_QUEUE_SIZE. rewrite in_range_bool, ring_succ by done.
    eexists _, [1]. split; [reflexivity |]. split; [| split; [| done]].
    + constructor; cbn [data rptr wptr count]; [by rewrite length_insert | | done | lia |].
      * apply Forall_insert; [done |]. by apply in_u_wrap.
      * rewrite Hw, Zplus_mod_idemp_l. f_equal. lia.
    + unfold contents. cbn [count].
      rewrite Z2Nat.inj_add, Nat.add_1_r, seq_S, fmap_app by lia. f_equal.
      * apply list_fmap_ext. intros i j Hj. apply lookup_seq in Hj as [-> Hi].
        unfold cell. cbn [data rptr]. rewrite list_lookup_insert_ne; [done |].
        rewrite Hw. intros E. apply (f_equal Z.of_nat) in E.
        rewrite !Z2Nat.id in E by (apply Z.mod_pos_bound; lia).
        Z.to_euclidean_division_equations. lia.
      * cbn. f_equal. unfold cell. cbn [data rptr]. rewrite Z2Nat.id, <- Hw by lia.
        rewrite list_lookup_insert_eq by lia. done.
Qed.

Lemma ps2_read_ok s :
  queue_wf s.(queue) ->
  match contents s.(queue) with
  | [] => exists v, ps2_read_data s = Some (v, s) /\ in_u 8 v
  | v :: rest =>
      exists q, ps2_read_data s =
          Some (v, mkPS2 q s.(write_cmd) (c_bool (negb (bool_decide (rest = []))) :: 0 :: s.(update))) /\
        queue_wf q /\ contents q = rest /\ in_u 8 v
  end.
Proof.
  intros Hq. pose proof (queue_contents_length _ Hq) as Hlen. destruct Hq as [Hd Hb Hr Hc Hw].
  assert (Hat : forall i, 0 <= i < 256 -> exists v, data_at s.(queue) i = Some v /\
            default 0 (s.(queue).(data) !! Z.to_nat i) = v /\ in_u 8 v).
  { intros i Hi. unfold data_at. rewrite in_range_bool by done.
    destruct (lookup_lt_is_Some_2 s.(queue).(data) (Z.to_nat i)) as [v Hv]; [lia |].
    exists v. rewrite Hv. split_and!; [done | done |]. by eapply Forall_lookup_1. }
  unfold ps2_read_data. destruct (Z.eqb_spec s.(queue).(count) 0) as [E0 | Hne].
  - unfold contents. rewrite E0. cbn.
    set (i := if s.(queue).(rptr) - 1 <? 0 then PS2_QUEUE_SIZE - 1 else s.(queue).(rptr) - 1).
    destruct (Hat i) as (v & -> & _ & Hv).
    { unfold i, PS2_QUEUE_SIZE. destruct (Z.ltb_spec (s.(queue).(rptr) - 1) 0); lia. }
    exists v. done.
  - destruct (Hat s.(queue).(rptr) Hr) as (v & -> & Hv & Hbv). bind_step.
    unfold contents. replace (Z.to_nat s.(queue).(count)) with (S (Z.to_nat (s.(queue).(count) - 1))) by lia.
    rewrite ring_succ by done. cbn [seq]. rewrite fmap_cons.
    set (q' := mkQueue s.(queue).(data) ((s.(queue).(rptr) + 1) mod 256) s.(queue).(wptr) (s.(queue).(count) - 1)).
    assert (Hrest : cell s.(queue) <$> seq 1 (Z.to_nat (s.(queue).(count) - 1)) = contents q').
    { unfold contents. cbn [count q']. rewrite <- fmap_S_seq, <- list_fmap_compose.
      apply list_fmap_ext. intros i j _. unfold cell. cbn [data rptr q' compose].
      rewrite Zplus_mod_idemp_l.
      by replace (rptr (queue s) + Z.of_nat (S j)) with (rptr (queue s) + 1 + Z.of_nat j) by lia. }
    assert (Hq' : queue_wf q').
    { constructor; cbn [data rptr wptr count q']; [done | done | apply Z.mod_pos_bound; lia | lia |].
      rewrite Hw, Zplus_mod_idemp_l. f_equal. lia. }
    rewrite Hrest. exists q'. replace (cell s.(queue) 0) with v.
    2: { unfold cell. rewrite Z.add_0_r, Z.mod_small by lia. by rewrite Hv. }
    split; [| done].
    pose proof (queue_contents_length _ Hq') as Hl'. cbn [count q'] in Hl'.
    do 5 f_equal. case_bool_decide as He.
    + rewrite He in Hl'. cbn in Hl'. lia.
    + destruct (contents q'); [done |]. cbn in Hl'. lia.
Qed.

(** ** Steps of a device *)

Definition waiting (s : PS2State) : list Z := contents s.(queue).

(** The level [update_irq] should end at *)
Definition level (s : PS2State) : Z := c_bool (negb (bool_decide (waiting s = []))).

(** An operation leaves the buffer well formed, and the last level it passed to
    [update_irq], if any, tells whether a byte is waiting. *)
Definition pstep (s s' : PS2State) : Prop :=
  queue_wf s'.(queue) /\
  exists u, s'.(update) = u ++ s.(update) /\
    match u with [] => waiting s' = waiting s | l :: _ => l = level s' end.

Lemma pstep_refl s : queue_wf s.(queue) -> pstep s s.
Proof. intros Hq. split; [done |]. by exists []. Qed.

Lemma pstep_trans s1 s2 s3 : pstep s1 s2 -> pstep s2 s3 -> pstep s1 s3.
Proof.
  intros (_ & u & Eu & Hu) (Hq & v & Ev & Hv). split; [done |].
  exists (v ++ u). rewrite Ev, Eu, app_assoc. split; [done |].
  destruct v as [| l v]; [| done]. cbn [app]. unfold level in *. rewrite Hv. destruct u; [congruence | done].
Qed.

Lemma spec_push_nonempty b c : spec_push b c <> [].
Proof.
  unfold spec_push. case_decide as Hl; [by destruct c |]. intros ->. cbn in Hl. lia.
Qed.

Lemma push_step b s :
  queue_wf s.(queue) ->
  exists s', ps2_queue b s = Some s' /\ pstep s s' /\ s'.(write_cmd) = s.(write_cmd) /\
    waiting s' = spec_push b (waiting s).
Proof.
  intros Hq. destruct (ps2_queue_ok b s Hq) as (q & u & E & Hq' & Hc & Hu).
  eexists. split; [exact E |]. split; [| done]. split; [done |]. exists u. split; [done |].
  unfold waiting, level. cbn [queue]. rewrite Hu. unfold waiting. cbn [queue].
  pose proof (spec_push_nonempty b (contents s.(queue))). rewrite Hc.
  unfold spec_push in *. destruct (decide (length (contents (queue s)) < 256)%nat); [| done].
  by rewrite bool_decide_eq_false_2.
Qed.

Lemma read_step s :
  queue_wf s.(queue) ->
  exists v s', ps2_read_data s = Some (v, s') /\ pstep s s' /\ s'.(write_cmd) = s.(write_cmd) /\
    in_u 8 v /\ waiting s' = tail (waiting s) /\ (forall w, head (waiting s) = Some w -> v = w).
Proof.
  intros Hq. pose proof (ps2_read_ok s Hq) as Hr. unfold waiting.
  destruct (contents s.(queue)) as [| v rest] eqn:Ec.
  - destruct Hr as (v & E & Hv). exists v, s. split_and!; [done | by apply pstep_refl | done | done | done |].
    done.
  - destruct Hr as (q & E & Hq' & Hc & Hv). eexists v, _. split; [exact E |].
    split_and!; [| done | done | done | by intros w [= ->]].
    split; [done |]. eexists [_; _]. split; [reflexivity |]. unfold level, waiting. cbn [queue].
    by rewrite Hc.
Qed.

Lemma reset_step s : queue_wf s.(queue) -> pstep s (ps2_common_reset s).
Proof.
  intros []. split; [by constructor |]. by exists [0].
Qed.

Lemma zero_wf : queue_wf ps2_zero.(queue).
Proof.
  constructor; [done | | cbn; lia | cbn; lia | done]. apply Forall_replicate. split; lia.
Qed.

(** ** The keyboard *)

Record kbd_dev_wf (s : PS2KbdState) : Prop := {
  kw_queue : queue_wf s.(common).(queue);
  kw_set : 0 <= s.(scancode_set) <= 3;
  kw_scan : 0 <= s.(scan_enabled) <= 1;
  kw_translate : 0 <= s.(translate) <= 1
}.

(** [s'] is [s] with other bytes waiting *)
Definition kbd_same (s s' : PS2KbdState) : Prop :=
  exists c, s' = set_common c s /\ c.(write_cmd) = s.(common).(write_cmd).

Lemma kput_ok b s :
  kbd_dev_wf s ->
  exists s', kput b s = Some s' /\ kbd_dev_wf s' /\ pstep s.(common) s'.(common) /\ kbd_same s s' /\
    waiting s'.(common) = spec_push b (waiting s.(common)).
Proof.
  intros [Hq Hset Hscan Htr]. destruct (push_step b s.(common) Hq) as (c & E & Hp & Hw & Hc).
  unfold kput. rewrite E. exists (set_common c s). split; [done |].
  split; [constructor; [apply Hp | done..] |]. split; [done |]. split; [by exists c | done].
Qed.

(** An operation that succeeds and steps the device *)
Definition kbd_runs (m : option PS2KbdState) (s : PS2KbdState) : Prop :=
  exists s', m = Some s' /\ kbd_dev_wf s' /\ pstep s.(common) s'.(common).

Lemma kput_runs b s s0 :
  kbd_dev_wf s -> pstep s0.(common) s.(common) -> kbd_runs (kput b s) s0.
Proof.
  intros Hs H0. destruct (kput_ok b s Hs) as (s' & E & Hw & Hp & _).
  exists s'. split_and!; [done | done | by eapply pstep_trans].
Qed.

Lemma kbd_runs_bind m f s :
  kbd_runs m s ->
  (forall s', kbd_dev_wf s' -> pstep s.(common) s'.(common) -> kbd_runs (f s') s) ->
  kbd_runs (m ≫= f) s.
Proof. intros (s' & -> & Hw & Hp) Hf. by apply Hf. Qed.

Lemma kbd_runs_ret s s0 : kbd_dev_wf s -> pstep s0.(common) s.(common) -> kbd_runs (Some s) s0.
Proof. intros. by exists s. Qed.

Lemma raw_keycode_is_some (t : list Z) k : length t = 128%nat -> is_Some (t !! Z.to_nat (Z.land k 0x7f)).
Proof.
  intros Hl. apply lookup_lt_is_Some_2.
  pose proof (Z.mod_pos_bound k (2 ^ 7) ltac:(lia)). change 0x7f with (Z.ones 7). rewrite Z.land_ones by lia. lia.
Qed.

Lemma put_keycode_runs k s s0 :
  kbd_dev_wf s -> pstep s0.(common) s.(common) -> kbd_runs (ps2_put_keycode k s) s0.
Proof.
  intros Hs H0. unfold ps2_put_keycode. destruct (_ && _ && _); [| by apply kput_runs].
  apply kbd_runs_bind.
  - destruct (c_true _); [by apply kput_runs | by apply kbd_runs_ret].
  - intros s1 Hs1 H1.
    destruct (raw_keycode_is_some ps2_raw_keycode k) as [x Ex]; [done |].
    destruct (raw_keycode_is_some ps2_raw_keycode_set3 k) as [y Ey]; [done |].
    rewrite Ex, Ey. repeat case_match; simplify_option_eq; by apply kput_runs.
Qed.

Lemma set_kbd_cmd_wf v s s0 :
  kbd_dev_wf s -> pstep s0.(common) s.(common) ->
  kbd_dev_wf (set_kbd_cmd v s) /\ pstep s0.(common) (set_kbd_cmd v s).(common).
Proof. intros [] Hp. split; [by constructor | exact Hp]. Qed.

(** Run the bytes an operation sends, and see that the fields it sets stay in
    range. *)
Ltac kbd_run :=
  repeat match goal with
  | |- kbd_runs (_ ≫= _) _ => apply kbd_runs_bind; [| intros ? ? ?]
  | |- kbd_runs (kput _ _) _ => apply kput_runs
  | |- kbd_runs (ps2_put_keycode _ _) _ => apply put_keycode_runs
  | |- kbd_runs (Some _) _ => apply kbd_runs_ret
  | |- kbd_runs (if ?b then _ else _) _ => destruct b eqn:?
  | |- pstep _ _ => assumption
  | |- kbd_dev_wf _ => first [assumption
      | match goal with H : kbd_dev_wf _ |- _ => by destruct H; constructor; cbn; (assumption || lia) end]
  end.

Lemma kbd_command_runs val s : kbd_dev_wf s -> kbd_runs (kbd_command val s) s.
Proof.
  intros Hs. pose proof (pstep_refl _ (kw_queue _ Hs)) as Hp. unfold kbd_command. kbd_run.
Qed.

Lemma kbd_scancode_runs val s : kbd_dev_wf s -> kbd_runs (kbd_scancode val s) s.
Proof.
  intros Hs. pose proof (pstep_refl _ (kw_queue _ Hs)) as Hp. unfold kbd_scancode.
  destruct ((1 <=? val) && (val <=? 3)) eqn:E; kbd_run.
Qed.

Lemma write_keyboard_runs val s : kbd_dev_wf s -> kbd_runs (ps2_write_keyboard val s) s.
Proof.
  intros Hs. pose proof (pstep_refl _ (kw_queue _ Hs)) as Hp. unfold ps2_write_keyboard.
  pose proof (kbd_scancode_runs val s Hs). pose proof (kbd_command_runs val s Hs).
  kbd_run; try assumption.
Qed.

Lemma kbd_reset_runs s :
  kbd_dev_wf s -> kbd_dev_wf (ps2_kbd_reset s) /\ pstep s.(common) (ps2_kbd_reset s).(common).
Proof.
  intros Hs. pose proof (reset_step _ (kw_queue _ Hs)) as Hp.
  split; [| done]. destruct Hs. constructor; [apply Hp | cbn; lia..].
Qed.

(** ** The mouse *)

Record mouse_wf (s : PS2MouseState) : Prop := {
  mw_queue : queue_wf s.(mcommon).(queue);
  mw_status : in_u 8 s.(mouse_status);
  mw_resolution : in_u 8 s.(mouse_resolution);
  mw_sample_rate : in_u 8 s.(mouse_sample_rate);
  mw_wrap : 0 <= s.(mouse_wrap) <= 1;
  mw_type : s.(mouse_type) = 0 \/ s.(mouse_type) = 3 \/ s.(mouse_type) = 4;
  mw_detect : 0 <= s.(mouse_detect_state) <= 3;
  mw_dx : - 2 ^ 31 <= s.(mouse_dx) < 2 ^ 31;
  mw_dy : - 2 ^ 31 <= s.(mouse_dy) < 2 ^ 31;
  mw_dz : - 2 ^ 31 <= s.(mouse_dz) < 2 ^ 31;
  mw_buttons : in_u 8 s.(mouse_buttons)
}.

Lemma mput_eq b s :
  queue_wf s.(mcommon).(queue) ->
  exists c, mput b s = Some (set_mcommon c s) /\ pstep s.(mcommon) c /\
    c.(write_cmd) = s.(mcommon).(write_cmd) /\ waiting c = spec_push b (waiting s.(mcommon)).
Proof.
  intros Hq. destruct (push_step b s.(mcommon) Hq) as (c & E & Hc).
  unfold mput. rewrite E. by exists c.
Qed.

Lemma set_mcommon_wf c s : mouse_wf s -> queue_wf c.(queue) -> mouse_wf (set_mcommon c s).
Proof. intros [] Hc. by constructor. Qed.

Lemma mput_ok b s :
  mouse_wf s ->
  exists s', mput b s = Some s' /\ mouse_wf s' /\ pstep s.(mcommon) s'.(mcommon).
Proof.
  intros Hs. destruct (mput_eq b s (mw_queue _ Hs)) as (c & E & Hp & _).
  exists (set_mcommon c s). split_and!; [done | apply set_mcommon_wf; [done | apply Hp] | done].
Qed.

Definition mouse_runs (m : option PS2MouseState) (s : PS2MouseState) : Prop :=
  exists s', m = Some s' /\ mouse_wf s' /\ pstep s.(mcommon) s'.(mcommon).

Lemma mput_runs b s s0 :
  mouse_wf s -> pstep s0.(mcommon) s.(mcommon) -> mouse_runs (mput b s) s0.
Proof.
  intros Hs H0. destruct (mput_ok b s Hs) as (s' & E & Hw & Hp).
  exists s'. split_and!; [done | done | by eapply pstep_trans].
Qed.

Lemma mouse_runs_bind m f s :
  mouse_runs m s ->
  (forall s', mouse_wf s' -> pstep s.(mcommon) s'.(mcommon) -> mouse_runs (f s') s) ->
  mouse_runs (m ≫= f) s.
Proof. intros (s' & -> & Hw & Hp) Hf. by apply Hf. Qed.

Lemma mouse_runs_ret s s0 : mouse_wf s -> pstep s0.(mcommon) s.(mcommon) -> mouse_runs (Some s) s0.
Proof. intros. by exists s. Qed.

(** The motion a packet takes: what is left moves towards zero. *)
Definition taken_z (s : PS2MouseState) : Z :=
  if s.(mouse_type) =? 3 then clamp 127 s.(mouse_dz)
  else if s.(mouse_type) =? 4 then clamp 7 s.(mouse_dz) else s.(mouse_dz).

Definition packet (s : PS2MouseState) : list Z :=
  let dx1 := clamp 127 s.(mouse_dx) in
  let dy1 := clamp 127 s.(mouse_dy) in
  [packet_head dx1 dy1 s.(mouse_buttons); Z.land dx1 0xff; Z.land dy1 0xff] ++
  (if s.(mouse_type) =? 3 then [Z.land (taken_z s) 0xff]
   else if s.(mouse_type) =? 4
   then [Z.lor (Z.land (taken_z s) 0x0f) (Z.shiftl (Z.land s.(mouse_buttons) 0x18) 1)]
   else []).

Definition after_packet (s : PS2MouseState) : PS2MouseState :=
  set_mouse_dz (s.(mouse_dz) - taken_z s) (set_mouse_dy (s.(mouse_dy) - clamp 127 s.(mouse_dy))
    (set_mouse_dx (s.(mouse_dx) - clamp 127 s.(mouse_dx)) s)).

(** Pushing several bytes *)
Definition push_all (bs c : list Z) : list Z := fold_left (fun c b => spec_push b c) bs c.

(** Pushing several bytes through [mput] *)
Fixpoint mput_all (bs : list Z) (s : PS2MouseState) : option PS2MouseState :=
  match bs with [] => Some s | b :: bs => s ← mput b s; mput_all bs s end.

Lemma mput_all_eq bs s :
  queue_wf s.(mcommon).(queue) ->
  exists c, mput_all bs s = Some (set_mcommon c s) /\ pstep s.(mcommon) c /\
    c.(write_cmd) = s.(mcommon).(write_cmd) /\ waiting c = push_all bs (waiting s.(mcommon)).
Proof.
  revert s. induction bs as [| b bs IH]; intros s Hq; cbn [mput_all].
  - exists s.(mcommon). split; [by destruct s |]. split; [by apply pstep_refl | done].
  - destruct (mput_eq b s Hq) as (c1 & -> & Hp1 & Hw1 & Hc1). bind_step.
    destruct (IH (set_mcommon c1 s)) as (c2 & E2 & Hp2 & Hw2 & Hc2); [apply Hp1 |].
    exists c2. rewrite E2. split; [done |]. split; [by eapply pstep_trans |].
    cbn in *. rewrite Hw2, Hc2, Hc1. done.
Qed.

Lemma send_packet_all s :
  ps2_mouse_send_packet s =
    (s' ← mput_all (packet s) s;
     Some (set_mouse_dz (s'.(mouse_dz) - taken_z s)
            (set_mouse_dy (s'.(mouse_dy) - clamp 127 s.(mouse_dy))
              (set_mouse_dx (s'.(mouse_dx) - clamp 127 s.(mouse_dx)) s')))).
Proof.
  unfold ps2_mouse_send_packet, packet, taken_z. cbn [app mput_all]. unfold mput.
  destruct (ps2_queue _ (mcommon s)) as [c1 |]; [cbn | done].
  destruct (ps2_queue _ c1) as [c2 |]; [cbn | done].
  destruct (ps2_queue _ c2) as [c3 |]; [cbn | done].
  destruct (mouse_type s =? 3); [cbn | destruct (mouse_type s =? 4); cbn; [| done]];
    unfold mput; cbn; (destruct (ps2_queue _ c3) as [c4 |]; [cbn | done]); done.
Qed.

Lemma clamp_bound n x : 0 <= n -> - n <= clamp n x <= n.
Proof. intros. unfold clamp. case_cmp; lia. Qed.

(** What a packet leaves is between nothing and what there was. *)
Lemma clamp_left n x : 0 <= n -> Z.abs (x - clamp n x) = Z.max 0 (Z.abs x - n) /\ 0 <= x * (x - clamp n x).
Proof. intros. unfold clamp. case_cmp; split; try lia; nia. Qed.

Lemma taken_z_left s :
  mouse_wf s -> exists n, 1 <= n /\ Z.abs (s.(mouse_dz) - taken_z s) = Z.max 0 (Z.abs s.(mouse_dz) - n) /\
    - 2 ^ 31 <= s.(mouse_dz) - taken_z s < 2 ^ 31.
Proof.
  intros Hs. pose proof (mw_dz _ Hs) as Hz. unfold taken_z.
  destruct (mouse_type s =? 3); [exists 127 | destruct (mouse_type s =? 4); [exists 7 | exists (2 ^ 31)]];
    (split; [lia |]); unfold clamp; case_cmp; lia.
Qed.

Lemma after_packet_wf s : mouse_wf s -> mouse_wf (after_packet s).
Proof.
  intros Hs. destruct (taken_z_left s Hs) as (n & _ & _ & Hz).
  destruct Hs. constructor; cbn; try done; unfold clamp; case_cmp; lia.
Qed.

Lemma send_packet_ok s :
  mouse_wf s ->
  exists c, ps2_mouse_send_packet s = Some (set_mcommon c (after_packet s)) /\
    pstep s.(mcommon) c /\ c.(write_cmd) = s.(mcommon).(write_cmd) /\
    waiting c = push_all (packet s) (waiting s.(mcommon)).
Proof.
  intros Hs. rewrite send_packet_all.
  destruct (mput_all_eq (packet s) s (mw_queue _ Hs)) as (c & -> & Hc). bind_step. by exists c.
Qed.

(** The largest of the motions left *)
Definition motion (s : PS2MouseState) : Z :=
  Z.max (Z.abs s.(mouse_dx)) (Z.max (Z.abs s.(mouse_dy)) (Z.abs s.(mouse_dz))).

Lemma motion_decreases s : mouse_wf s -> motion (after_packet s) <= Z.max 0 (motion s - 1).
Proof.
  intros Hs. destruct (taken_z_left s Hs) as (n & Hn & Hz & _). unfold motion. cbn.
  pose proof (clamp_left 127 s.(mouse_dx) ltac:(lia)). pose proof (clamp_left 127 s.(mouse_dy) ltac:(lia)). lia.
Qed.

Lemma still_motion s : still s = true <-> motion s = 0.
Proof. unfold still, motion. rewrite !andb_true_iff, !Z.eqb_eq. lia. Qed.

(** The packets of a motion, in order *)
Fixpoint packets (fuel : nat) (s : PS2MouseState) : list (list Z) :=
  match fuel with
  | O => []
  | S fuel => packet s :: if still (after_packet s) then [] else packets fuel (after_packet s)
  end.

Definition rest (s : PS2MouseState) : PS2MouseState := set_mouse_dz 0 (set_mouse_dy 0 (set_mouse_dx 0 s)).

Lemma packet_mcommon c s : packet (set_mcommon c s) = packet s.
Proof. done. Qed.

Lemma packets_mcommon fuel c s : packets fuel (set_mcommon c s) = packets fuel s.
Proof.
  revert c s. induction fuel as [| fuel IH]; intros c s; [done |]. cbn [packets].
  change (after_packet (set_mcommon c s)) with (set_mcommon c (after_packet s)).
  rewrite IH. done.
Qed.

Lemma push_all_app bs1 bs2 c : push_all (bs1 ++ bs2) c = push_all bs2 (push_all bs1 c).
Proof. apply fold_left_app. Qed.

Lemma send_packets_ok fuel s :
  mouse_wf s -> motion s < Z.of_nat fuel ->
  exists c, send_packets fuel s = Some (set_mcommon c (rest s)) /\ pstep s.(mcommon) c /\
    c.(write_cmd) = s.(mcommon).(write_cmd) /\
    waiting c = push_all (concat (packets fuel s)) (waiting s.(mcommon)).
Proof.
  revert s. induction fuel as [| fuel IH]; intros s Hs Hm.
  { unfold motion in Hm. lia. }
  cbn [send_packets]. destruct (send_packet_ok s Hs) as (c & -> & Hp & Hw & Hc). bind_step.
  change (still (set_mcommon c (after_packet s))) with (still (after_packet s)).
  cbn [packets concat]. destruct (still (after_packet s)) eqn:Est.
  - exists c. rewrite app_nil_r. split; [| done]. unfold still in Est. cbn in Est.
    rewrite !andb_true_iff, !Z.eqb_eq in Est. destruct Est as [[E1 E2] E3].
    unfold after_packet, rest. cbn. rewrite E1, E2, E3. done.
  - pose proof (motion_decreases s Hs). 
    assert (Hne : motion (after_packet s) <> 0) by (rewrite <- still_motion; congruence).
    destruct (IH (set_mcommon c (after_packet s))) as (c2 & E2 & Hp2 & Hw2 & Hc2).
    { apply set_mcommon_wf; [by apply after_packet_wf | apply Hp]. }
    { change (motion (set_mcommon c (after_packet s))) with (motion (after_packet s)).
      unfold motion in *. lia. }
    exists c2. rewrite E2. split; [done |]. split; [by eapply pstep_trans |].
    cbn [mcommon set_mcommon] in *. rewrite Hw2, Hc2, push_all_app, packets_mcommon, Hc. done.
Qed.

(** ** What the driver decodes *)

(** The motion a driver reads in a packet of a mouse of type [ty]: nine-bit
    signed [x] and [y], the wheel in an eighth or a half byte *)
Definition decode (ty : Z) (p : list Z) : Z * Z * Z :=
  match p with
  | h :: x :: y :: p =>
      (x - 256 * Z.b2z (Z.testbit h 4), y - 256 * Z.b2z (Z.testbit h 5),
       match p with
       | [z] => if ty =? 3 then to_signed 8 z else if ty =? 4 then to_signed 4 (Z.land z 0x0f) else 0
       | _ => 0
       end)
  | _ => (0, 0, 0)
  end.

Definition add3 (a b : Z * Z * Z) : Z * Z * Z := (a.1.1 + b.1.1, a.1.2 + b.1.2, a.2 + b.2).
Definition total (ty : Z) (ps : list (list Z)) : Z * Z * Z := foldr (fun p => add3 (decode ty p)) (0, 0, 0) ps.

Lemma packet_head_sign a b btn :
  Z.testbit (packet_head a b btn) 4 = (a <? 0) /\ Z.testbit (packet_head a b btn) 5 = (b <? 0).
Proof.
  unfold packet_head. rewrite !Z.lor_spec, !Z.land_spec, !Z.shiftl_spec by lia.
  change (4 - 4) with 0. change (4 - 5) with (-1). change (5 - 4) with 1. change (5 - 5) with 0.
  change (Z.testbit 7 4) with false. change (Z.testbit 7 5) with false.
  rewrite !andb_false_r. destruct (a <? 0), (b <? 0); done.
Qed.

Lemma land_255 x : Z.land x 0xff = x mod 256.
Proof. by apply (Z.land_ones x 8). Qed.

Lemma land_15 x : Z.land x 0x0f = x mod 16.
Proof. by apply (Z.land_ones x 4). Qed.

Lemma axis_decode x : - 127 <= x <= 127 -> Z.land x 0xff - 256 * Z.b2z (x <? 0) = x.
Proof.
  intros Hx. rewrite land_255. destruct (Z.ltb_spec x 0); cbn [Z.b2z].
  - replace (x mod 256) with (x + 256) by (Z.to_euclidean_division_equations; lia). lia.
  - rewrite Z.mod_small by lia. lia.
Qed.

Lemma to_signed_mod w x : 0 < w -> - 2 ^ (w - 1) <= x < 2 ^ (w - 1) -> to_signed w (x mod 2 ^ w) = x.
Proof.
  intros Hw Hx. unfold to_signed, wrap.
  assert (Hp : 2 ^ w = 2 * 2 ^ (w - 1)) by (rewrite <- Z.pow_succ_r by lia; f_equal; lia).
  rewrite Z.mod_mod by lia. destruct (decide (0 <= x)).
  - rewrite Z.mod_small by lia. rewrite (proj2 (Z.ltb_lt _ _)) by lia. done.
  - replace (x mod 2 ^ w) with (x + 2 ^ w).
    + rewrite (proj2 (Z.ltb_ge _ _)) by lia. lia.
    + apply (Z.mod_unique _ _ (-1)); [left; lia | lia].
Qed.

(** The wheel byte of an IMEX mouse keeps the motion in its low half. *)
Lemma imex_low a btn : Z.land (Z.lor (Z.land a 0x0f) (Z.shiftl (Z.land btn 0x18) 1)) 0x0f = a mod 16.
Proof.
  rewrite <- land_15. apply Z.bits_inj'. intros n Hn.
  rewrite !Z.land_spec, !Z.lor_spec, !Z.land_spec, Z.shiftl_spec, Z.land_spec by lia.
  destruct (Z.testbit 15 n) eqn:E15; [| by rewrite !andb_false_r].
  assert (n < 4).
  { destruct (decide (n < 4)); [done |].
    rewrite (testbit_high 4 15 n) in E15; [done | lia | split; lia | lia]. }
  assert (E24 : Z.testbit 24 (n - 1) = false).
  { assert (Hn' : n = 0 \/ n = 1 \/ n = 2 \/ n = 3) by lia.
    destruct Hn' as [-> | [-> | [-> | ->]]]; done. }
  rewrite E24, !andb_true_r, andb_false_r, orb_false_r. done.
Qed.

(** What a packet says is what it takes. *)
Lemma decode_packet s :
  mouse_wf s ->
  decode s.(mouse_type) (packet s) =
    (clamp 127 s.(mouse_dx), clamp 127 s.(mouse_dy),
     if s.(mouse_type) =? 0 then 0 else taken_z s).
Proof.
  intros Hs. destruct (packet_head_sign (clamp 127 s.(mouse_dx)) (clamp 127 s.(mouse_dy)) s.(mouse_buttons))
    as [H4 H5].
  unfold packet. cbn [app decode]. rewrite H4, H5.
  rewrite !axis_decode by (apply (clamp_bound 127); lia). f_equal. unfold taken_z.
  destruct (mw_type _ Hs) as [-> | [-> | ->]]; cbn [Z.eqb Pos.eqb]; [done | |].
  - rewrite land_255. apply (to_signed_mod 8); [lia |].
    pose proof (clamp_bound 127 s.(mouse_dz) ltac:(lia)). lia.
  - rewrite imex_low. apply (to_signed_mod 4); [lia |].
    pose proof (clamp_bound 7 s.(mouse_dz) ltac:(lia)). lia.
Qed.

(** The packets of a motion add up to it; a mouse without a wheel does not
    tell the wheel's. *)
Lemma packets_total fuel s :
  mouse_wf s -> motion s < Z.of_nat fuel ->
  total s.(mouse_type) (packets fuel s) =
    (s.(mouse_dx), s.(mouse_dy), if s.(mouse_type) =? 0 then 0 else s.(mouse_dz)).
Proof.
  revert s. induction fuel as [| fuel IH]; intros s Hs Hm.
  { unfold motion in Hm. lia. }
  cbn [packets total foldr]. rewrite decode_packet by done.
  destruct (still (after_packet s)) eqn:Est.
  - unfold still in Est. cbn in Est. rewrite !andb_true_iff, !Z.eqb_eq in Est.
    destruct Est as [[E1 E2] E3]. unfold add3. cbn [foldr fst snd].
    destruct (mouse_type s =? 0); repeat f_equal; lia.
  - pose proof (motion_decreases s Hs).
    assert (Hne : motion (after_packet s) <> 0) by (rewrite <- still_motion; congruence).
    pose proof (IH (after_packet s) (after_packet_wf s Hs)) as IHs.
    unfold total in IHs. cbn [mouse_type after_packet set_mouse_dz set_mouse_dy set_mouse_dx] in IHs.
    rewrite IHs by (unfold motion in *; lia). unfold add3. cbn.
    destruct (mouse_type s =? 0); repeat f_equal; lia.
Qed.

Lemma packet_bytes s : Forall (in_u 8) (packet s).
Proof.
  assert (Hff : in_u 8 0xff) by (split; lia). assert (Hf : in_u 8 0x0f) by (split; lia).
  assert (H18 : in_u 8 (Z.shiftl (Z.land s.(mouse_buttons) 0x18) 1)).
  { apply in_u_testbit; [lia | apply Z.shiftl_nonneg, Z.land_nonneg; right; lia |].
    intros i Hi. rewrite Z.shiftl_spec, Z.land_spec, (testbit_high 5 0x18) by (lia || (split; lia)).
    apply andb_false_r. }
  unfold packet. constructor; [| constructor; [| constructor]].
  - unfold packet_head. repeat apply in_u_lor; try lia; try (split; lia).
    + destruct (clamp _ _ <? 0); split; vm_compute; (discriminate || reflexivity).
    + destruct (clamp _ _ <? 0); split; vm_compute; (discriminate || reflexivity).
    + apply in_u_land_r; [lia | split; lia].
  - by apply in_u_land_r.
  - by apply in_u_land_r.
  - destruct (mouse_type s =? 3); [constructor; [by apply in_u_land_r | done] |].
    destruct (mouse_type s =? 4); [constructor; [| done] | done].
    apply in_u_lor; [lia | by apply in_u_land_r | done].
Qed.

Lemma packets_bytes fuel s : Forall (in_u 8) (concat (packets fuel s)).
Proof.
  revert s. induction fuel as [| fuel IH]; intros s; cbn [packets concat]; [done |].
  apply Forall_app. split; [apply packet_bytes |]. by destruct (still (after_packet s)); [| apply IH].
Qed.

(** Bytes that fit are appended. *)
Lemma push_all_room bs c :
  Forall (in_u 8) bs -> (length c + length bs <= 256)%nat -> push_all bs c = c ++ bs.
Proof.
  intros Hb. revert c. induction Hb as [| b bs Hb Hbs IH]; intros c Hl; cbn.
  - by rewrite app_nil_r.
  - cbn in Hl. unfold spec_push. rewrite decide_True, wrap_small by (done || lia).
    rewrite IH by (rewrite length_app; cbn; lia). by rewrite <- app_assoc.
Qed.

Lemma packet_fuel_enough s : motion s < Z.of_nat (packet_fuel s).
Proof. unfold packet_fuel, motion. lia. Qed.

Lemma s32_ok z : - 2 ^ 31 <= z < 2 ^ 31 -> s32 z = Some z.
Proof. intros Hz. unfold s32. rewrite (proj2 (Z.leb_le _ _)), (proj2 (Z.ltb_lt _ _)) by lia. done. Qed.

(** The mouse after the event is recorded *)
Definition moved (dx dy dz btn : Z) (s : PS2MouseState) : PS2MouseState :=
  set_mouse_buttons (wrap 8 btn) (set_mouse_dz (s.(mouse_dz) + dz)
    (set_mouse_dy (s.(mouse_dy) - dy) (set_mouse_dx (s.(mouse_dx) + dx) s))).

(** The sums of an event stay within [int]. *)
Definition event_fits (dx dy dz : Z) (s : PS2MouseState) : Prop :=
  - 2 ^ 31 <= s.(mouse_dx) + dx < 2 ^ 31 /\ - 2 ^ 31 <= s.(mouse_dy) - dy < 2 ^ 31 /\
  - 2 ^ 31 <= s.(mouse_dz) + dz < 2 ^ 31.

Lemma moved_wf dx dy dz btn s : mouse_wf s -> event_fits dx dy dz s -> mouse_wf (moved dx dy dz btn s).
Proof. intros [] (? & ? & ?). constructor; cbn; try done. by apply in_u_wrap. Qed.

Lemma mouse_event_runs dx dy dz btn s :
  mouse_wf s -> event_fits dx dy dz s -> mouse_runs (ps2_mouse_event dx dy dz btn s) s.
Proof.
  intros Hs Hf. pose proof (pstep_refl _ (mw_queue _ Hs)) as Hp.
  pose proof (moved_wf dx dy dz btn s Hs Hf) as Hm. destruct Hf as (Hx & Hy & Hz).
  unfold ps2_mouse_event. destruct (negb _); [by apply mouse_runs_ret |].
  rewrite (s32_ok (s.(mouse_dx) + dx)), (s32_ok (s.(mouse_dy) - dy)), (s32_ok (s.(mouse_dz) + dz)) by done.
  rewrite !bind_some. cbv zeta. destruct (still _ && _).
  { apply mouse_runs_ret; [| done]. destruct Hs. by constructor. }
  fold (moved dx dy dz btn s). destruct (negb _ && _); [| by apply mouse_runs_ret].
  destruct (send_packets_ok _ _ Hm (packet_fuel_enough _)) as (c & -> & Hc & _).
  eexists. split; [reflexivity |]. split; [| done].
  apply set_mcommon_wf; [| apply Hc]. destruct Hm. constructor; cbn; (done || lia).
Qed.

Lemma send_packet_runs s s0 :
  mouse_wf s -> pstep s0.(mcommon) s.(mcommon) -> mouse_runs (ps2_mouse_send_packet s) s0.
Proof.
  intros Hs H0. destruct (send_packet_ok s Hs) as (c & -> & Hc & _).
  eexists. split; [reflexivity |]. split.
  - apply set_mcommon_wf; [by apply after_packet_wf | apply Hc].
  - by eapply pstep_trans.
Qed.

Lemma clear_status_wf m s : mouse_wf s -> mouse_wf (clear_status m s).
Proof. intros []. constructor; cbn; try done. by apply in_u_land_l. Qed.

Lemma raise_status_wf m s : in_u 8 m -> mouse_wf s -> mouse_wf (raise_status m s).
Proof. intros Hm []. constructor; cbn; try done. by apply in_u_lor. Qed.

Lemma defaults_wf s : mouse_wf s -> mouse_wf (mouse_defaults s).
Proof. intros []. constructor; cbn; try done; split; lia. Qed.

Lemma detect_wf v s : mouse_wf s -> mouse_wf (detect v s).
Proof.
  intros []. unfold detect. repeat case_match; constructor; cbn; try done; try lia; tauto.
Qed.

Ltac mouse_run :=
  repeat match goal with
  | |- mouse_runs (_ ≫= _) _ => apply mouse_runs_bind; [| intros ? ? ?]
  | |- mouse_runs (mput _ _) _ => apply mput_runs
  | |- mouse_runs (ps2_mouse_send_packet _) _ => apply send_packet_runs
  | |- mouse_runs (Some _) _ => apply mouse_runs_ret
  | |- mouse_runs (if ?b then _ else _) _ => destruct b eqn:?
  | H : pstep ?a ?b |- pstep ?a ?c => exact H
  | |- mouse_wf (clear_status _ _) => apply clear_status_wf
  | |- mouse_wf (raise_status _ _) => apply raise_status_wf; [split; vm_compute; (discriminate || reflexivity) |]
  | |- mouse_wf (mouse_defaults _) => apply defaults_wf
  | |- mouse_wf (detect _ _) => apply detect_wf
  | |- mouse_wf _ => first [assumption
      | match goal with H : mouse_wf _ |- _ => by destruct H; constructor; cbn;
          (assumption || lia || (by apply in_u_wrap) || tauto) end]
  end.

Lemma mouse_command_runs val s : mouse_wf s -> mouse_runs (mouse_command val s) s.
Proof.
  intros Hs. pose proof (pstep_refl _ (mw_queue _ Hs)) as Hp. unfold mouse_command. mouse_run.
  all: try done.
  apply (defaults_wf s) in Hs. destruct Hs. constructor; cbn; try assumption; tauto.
Qed.

Lemma write_mouse_runs val s : mouse_wf s -> mouse_runs (ps2_write_mouse val s) s.
Proof.
  intros Hs. pose proof (pstep_refl _ (mw_queue _ Hs)) as Hp. unfold ps2_write_mouse.
  pose proof (mouse_command_runs val s Hs).
  assert (Hw : mouse_wf (set_mouse_sample_rate (wrap 8 val) s)).
  { destruct Hs. constructor; cbn; try done. by apply in_u_wrap. }
  assert (Hd : pstep (mcommon s) (mcommon (detect val (set_mouse_sample_rate (wrap 8 val) s)))).
  { unfold detect. repeat case_match; exact Hp. }
  mouse_run; done.
Qed.

Lemma mouse_reset_runs s :
  mouse_wf s -> mouse_wf (ps2_mouse_reset s) /\ pstep s.(mcommon) (ps2_mouse_reset s).(mcommon).
Proof.
  intros Hs. pose proof (reset_step _ (mw_queue _ Hs)) as Hp.
  split; [| done]. constructor; [apply Hp | ..]; cbn; try (split; lia); tauto.
Qed.

(** ** The buffer as a queue *)

Inductive qop := Push (b : Z) | Pop.

(** The bytes read by a sequence of operations *)
Fixpoint run_ops (ops : list qop) (s : PS2State) : option (list Z * PS2State) :=
  match ops with
  | [] => Some ([], s)
  | Push b :: ops => s ← ps2_queue b s; run_ops ops s
  | Pop :: ops =>
      '(v, s) ← ps2_read_data s;
      '(vs, s) ← run_ops ops s;
      Some (v :: vs, s)
  end.

Fixpoint spec_ops (ops : list qop) (c : list Z) : list (option Z) * list Z :=
  match ops with
  | [] => ([], c)
  | Push b :: ops => spec_ops ops (spec_push b c)
  | Pop :: ops => let r := spec_ops ops (tail c) in (head c :: r.1, r.2)
  end.

(** C29: The ring buffer of a PS/2 device behaves as a first-in first-out queue of
    at most 256 bytes, whatever the order of bytes sent and read: no access
    is outside the buffer, a byte read is the oldest one waiting, a byte sent
    to a full queue is dropped, and a read from an empty queue gives some byte
    and changes nothing. *)
Theorem ps2_queue_refines ops s :
  queue_wf s.(queue) ->
  exists vs s', run_ops ops s = Some (vs, s') /\ queue_wf s'.(queue) /\
    waiting s' = (spec_ops ops (waiting s)).2 /\
    Forall2 (fun v o => from_option (eq v) (in_u 8 v) o) vs (spec_ops ops (waiting s)).1.
Proof.
  revert s. induction ops as [| [b |] ops IH]; intros s Hq; cbn [run_ops spec_ops].
  - exists [], s. by split_and!.
  - destruct (push_step b s Hq) as (s1 & -> & [Hq1 _] & _ & Hc). bind_step. rewrite <- Hc. by apply IH.
  - destruct (read_step s Hq) as (v & s1 & -> & [Hq1 _] & _ & Hv & Hc & Hh). bind_step.
    destruct (IH s1 Hq1) as (vs & s2 & -> & Hq2 & Hc2 & Hf). bind_step.
    exists (v :: vs), s2. rewrite <- Hc. split_and!; [done | done | done |].
    constructor; [| done]. destruct (head (waiting s)) as [w |]; [by apply Hh | done].
Qed.

Lemma ps2_queue_refines_witness :
  exists vs s', run_ops [Push 0x1c; Push 0xf0; Pop; Push 0x1c; Pop; Pop] ps2_zero = Some (vs, s') /\
    queue_wf s'.(queue) /\ waiting s' = [] /\
    Forall2 (fun v o => from_option (eq v) (in_u 8 v) o) vs [Some 0x1c; Some 0xf0; Some 0x1c].
Proof. apply (ps2_queue_refines [Push 0x1c; Push 0xf0; Pop; Push 0x1c; Pop; Pop] ps2_zero zero_wf). Defined.

(** ** Motion *)

(** A motion event of an enabled mouse in stream mode sends whole packets
    when there is room for them: the packets a driver decodes add up exactly
    to the motion pending and the new motion (the wheel's where the mouse has
    one), nothing stays pending, and the loop that sends them ends. *)
Theorem mouse_motion_reported dx dy dz btn s :
  mouse_wf s -> event_fits dx dy dz s ->
  Z.testbit s.(mouse_status) 5 = true -> Z.testbit s.(mouse_status) 6 = false ->
  s.(mcommon).(queue).(count) < 240 ->
  (still (moved dx dy dz btn s) = false \/ s.(mouse_buttons) <> btn) ->
  let ps := packets (packet_fuel (moved dx dy dz btn s)) (moved dx dy dz btn s) in
  (length (waiting s.(mcommon)) + length (concat ps) <= 256)%nat ->
  exists s', ps2_mouse_event dx dy dz btn s = Some s' /\
    waiting s'.(mcommon) = waiting s.(mcommon) ++ concat ps /\ motion s' = 0 /\
    total s.(mouse_type) ps =
      (s.(mouse_dx) + dx, s.(mouse_dy) - dy, if s.(mouse_type) =? 0 then 0 else s.(mouse_dz) + dz).
Proof.
  intros Hs Hf H5 H6 Hcount Hnew ps Hroom. pose proof (moved_wf dx dy dz btn s Hs Hf) as Hm.
  destruct (send_packets_ok _ _ Hm (packet_fuel_enough _)) as (c & Ec & _ & _ & Hc).
  pose proof (packets_total _ _ Hm (packet_fuel_enough _)) as Ht. destruct Hf as (Hx & Hy & Hz).
  exists (set_mcommon c (rest (moved dx dy dz btn s))). split_and!; [| | done | exact Ht].
  - unfold ps2_mouse_event. rewrite (c_true_land_bit _ 5) by lia. rewrite H5. cbn [negb].
    rewrite (s32_ok (s.(mouse_dx) + dx)), (s32_ok (s.(mouse_dy) - dy)), (s32_ok (s.(mouse_dz) + dz)) by done.
    rewrite !bind_some. cbv zeta. cbn [mouse_buttons set_mouse_dz set_mouse_dy set_mouse_dx].
    match goal with |- context [still ?x] => change (still x) with (still (moved dx dy dz btn s)) end.
    replace (still _ && _) with false
      by (symmetry; apply andb_false_iff; destruct Hnew; [by left | right; by apply Z.eqb_neq]).
    fold (moved dx dy dz btn s). cbn [mouse_status mcommon moved set_mouse_buttons].
    cbn [set_mouse_dz set_mouse_dy set_mouse_dx mouse_status mcommon].
    rewrite (c_true_land_bit _ 6), H6 by lia. cbn [negb andb].
    rewrite (proj2 (Z.ltb_lt _ _)) by (unfold PS2_QUEUE_SIZE; lia). exact Ec.
  - cbn [mcommon set_mcommon]. rewrite Hc. apply push_all_room; [apply packets_bytes | exact Hroom].
Qed.

(** An enabled wheel mouse with nothing pending *)
Definition sample_mouse : PS2MouseState := mkMouse ps2_zero 0x20 2 100 0 3 0 0 0 0 0.

Lemma sample_mouse_wf : mouse_wf sample_mouse.
Proof. constructor; [apply zero_wf | ..]; cbn; try (split; lia); tauto. Qed.

Lemma mouse_motion_reported_witness :
  exists s', ps2_mouse_event 200 (-5) 1 0 sample_mouse = Some s' /\
    waiting s'.(mcommon) = [0x08; 127; 5; 1; 0x08; 73; 0; 0] /\ motion s' = 0 /\
    total 3 [[0x08; 127; 5; 1]; [0x08; 73; 0; 0]] = (0 + 200, 0 - -5, 0 + 1).
Proof.
  apply (mouse_motion_reported 200 (-5) 1 0 sample_mouse); try done.
  - apply sample_mouse_wf.
  - by left.
  - vm_compute. lia.
Defined.

(** A motion with more packets than fit leaves a part of a packet, and the
    stream out of step: 90 packets of three bytes fill the 256 bytes. *)
Lemma large_motion_truncated :
  (fun s => (length (waiting s.(mcommon)), motion s)) <$>
    ps2_mouse_event (90 * 127) 0 0 0 (set_mouse_type 0 sample_mouse) = Some (256%nat, 0).
Proof. by vm_compute. Qed.

(** ** The knock that turns on the wheel *)

Fixpoint write_bytes (bs : list Z) (s : PS2MouseState) : option PS2MouseState :=
  match bs with [] => Some s | b :: bs => s ← ps2_write_mouse b s; write_bytes bs s end.

(** Setting the sample rate steps the detection, in any state of the buffer. *)
Lemma sample_rate_step v s :
  mouse_wf s -> s.(mcommon).(write_cmd) = -1 -> s.(mouse_wrap) = 0 ->
  exists c, write_bytes [AUX_SET_SAMPLE; v] s =
      Some (set_mcommon c (detect v (set_mouse_sample_rate (wrap 8 v) s))) /\
    queue_wf c.(queue) /\ c.(write_cmd) = -1.
Proof.
  intros Hs Hw H0. cbn [write_bytes].
  assert (E1 : ps2_write_mouse AUX_SET_SAMPLE s = mput AUX_ACK (set_mouse_cmd AUX_SET_SAMPLE s))
    by (unfold ps2_write_mouse; by rewrite Hw, H0).
  rewrite E1.
  destruct (mput_eq AUX_ACK (set_mouse_cmd AUX_SET_SAMPLE s)) as (c1 & -> & [Hq1 _] & Hw1 & _);
    [apply Hs |]. bind_step.
  set (s2 := set_mcommon c1 (set_mouse_cmd AUX_SET_SAMPLE s)).
  set (s3 := detect v (set_mouse_sample_rate (wrap 8 v) s2)).
  assert (E2 : ps2_write_mouse v s2 = (s ← mput AUX_ACK s3; Some (set_mouse_cmd (-1) s)))
    by (unfold ps2_write_mouse; cbn [mcommon s2 set_mcommon]; by rewrite Hw1).
  rewrite E2.
  assert (Hc : mcommon s3 = c1) by (unfold s3, detect; by repeat case_match).
  destruct (mput_eq AUX_ACK s3) as (c2 & -> & [Hq2 _] & _); [by rewrite Hc |]. bind_step.
  exists (set_write_cmd (-1) c2). split; [| done]. bind_step. f_equal.
  unfold s3, detect. cbn. by repeat case_match.
Qed.

Lemma write_bytes_app bs1 bs2 s :
  write_bytes (bs1 ++ bs2) s = (s ← write_bytes bs1 s; write_bytes bs2 s).
Proof.
  revert s. induction bs1 as [| b bs1 IH]; intros s; cbn [app write_bytes]; [done |].
  destruct (ps2_write_mouse b s) as [s1 |]; [| done]. apply IH.
Qed.

(** The knocks: sample rates 200, 100, 80 make a wheel mouse of type 3, and
    200, 200, 80 one of type 4; the last rate stays. *)
Lemma wheel_knock r ty s :
  mouse_wf s -> s.(mcommon).(write_cmd) = -1 -> s.(mouse_wrap) = 0 -> s.(mouse_detect_state) = 0 ->
  (r = 100 /\ ty = 3) \/ (r = 200 /\ ty = 4) ->
  exists s', write_bytes [AUX_SET_SAMPLE; 200; AUX_SET_SAMPLE; r; AUX_SET_SAMPLE; 80] s = Some s' /\
    mouse_wf s' /\ s'.(mouse_type) = ty /\ s'.(mouse_sample_rate) = 80 /\ s'.(mouse_detect_state) = 0.
Proof.
  intros Hs Hw H0 Hd Hr.
  change [AUX_SET_SAMPLE; 200; AUX_SET_SAMPLE; r; AUX_SET_SAMPLE; 80]
    with ([AUX_SET_SAMPLE; 200] ++ [AUX_SET_SAMPLE; r] ++ [AUX_SET_SAMPLE; 80]).
  assert (Hstep : forall v s, mouse_wf s -> s.(mcommon).(write_cmd) = -1 -> s.(mouse_wrap) = 0 ->
    exists s', write_bytes [AUX_SET_SAMPLE; v] s = Some s' /\ mouse_wf s' /\
      s'.(mcommon).(write_cmd) = -1 /\ s'.(mouse_wrap) = 0 /\
      s'.(mouse_detect_state) = (detect v s).(mouse_detect_state) /\
      s'.(mouse_type) = (detect v s).(mouse_type) /\ s'.(mouse_sample_rate) = wrap 8 v).
  { clear. intros v s Hs Hw H0. destruct (sample_rate_step v s Hs Hw H0) as (c & -> & Hq & Hc).
    eexists. split; [reflexivity |]. split.
    - apply set_mcommon_wf; [| done]. apply detect_wf. destruct Hs. constructor; cbn; try done.
      by apply in_u_wrap.
    - cbn. unfold detect. cbn. repeat case_match; done. }
  rewrite write_bytes_app. destruct (Hstep 200 s Hs Hw H0) as (s1 & -> & Hs1 & Hw1 & Hr1 & Hd1 & _).
  bind_step. rewrite write_bytes_app.
  destruct (Hstep r s1 Hs1 Hw1 Hr1) as (s2 & -> & Hs2 & Hw2 & Hr2 & Hd2 & _).
  bind_step. destruct (Hstep 80 s2 Hs2 Hw2 Hr2) as (s3 & -> & Hs3 & _ & _ & Hd3 & Ht3 & Hsr).
  unfold detect in Hd1. rewrite Hd in Hd1. cbn in Hd1. unfold detect in Hd2. rewrite Hd1 in Hd2.
  exists s3. split_and!; [done | done | | by rewrite Hsr | ].
  - rewrite Ht3. unfold detect. rewrite Hd2. destruct Hr as [[-> ->] | [-> ->]]; done.
  - rewrite Hd3. unfold detect. rewrite Hd2. destruct Hr as [[-> ->] | [-> ->]]; done.
Qed.

(** ** The scan code set *)

(** Asked for its set in set 3 without translation, the keyboard answers 39,
    the set 3 code of the key 0x3f, where set 2 is answered by 2. *)
Lemma scancode_query_set3 :
  (fun s => waiting s.(common)) <$>
    kbd_scancode 0 (set_scancode_set 3 ps2_kbd_init) = Some [39] /\
  (fun s => waiting s.(common)) <$> kbd_scancode 0 ps2_kbd_init = Some [2].
Proof. by vm_compute. Qed.

(** A reset of the machine leaves a set that is none of the three: the query is
    not answered, and key codes are sent untranslated although translation is
    off. *)
Lemma reset_scancode_set s :
  (ps2_kbd_reset s).(scancode_set) = 0 /\
  kbd_scancode 0 (ps2_kbd_reset s) = Some (ps2_kbd_reset s) /\
  (forall k, ps2_put_keycode k (ps2_kbd_reset s) = kput k (ps2_kbd_reset s)).
Proof.
  split_and!; [done | done |]. intros k. unfold ps2_put_keycode. cbn.
  by destruct (k <? 224).
Qed.

(** A reset command in wrap mode is obeyed, but does not end wrap mode. *)
Lemma reset_keeps_wrap :
  (fun s => (s.(mouse_wrap), waiting s.(mcommon))) <$>
    write_bytes [AUX_RESET; AUX_ENABLE_DEV] (set_mouse_wrap 1 sample_mouse) =
  Some (1, [AUX_ACK; 0xaa; 0; AUX_ENABLE_DEV]).
Proof. by vm_compute. Qed.

(** ** Loading a saved state *)

(** [vmstate_ps2_common] takes the indices of the file as they are. *)
Definition vmstate_ps2_common (cmd r w n : Z) (d : list Z) (s : PS2State) : PS2State :=
  mkPS2 (mkQueue d r w n) cmd s.(update).

(** A file with a write index of 300 makes the next byte land outside the
    buffer. *)
Lemma load_unchecked :
  ps2_queue 0 (vmstate_ps2_common (-1) 0 300 0 (replicate 256 0) ps2_zero) = None.
Proof. by vm_compute. Qed.
