(* ===== verification/Pckbd.v ===== *)
(** * The keyboard controller (qemu/hw/pckbd.c)

    The 8042 behind ports 0x60 and 0x64: status, mode and output port
    registers, the two-byte commands, the interrupt lines 1 and 12, the A20
    line and the reset request, on top of the PS/2 devices of [Ps2].  The
    [update_irq] calls a device makes are processed in order after its
    operation: the device does not look at the controller.

    Theorems: every reachable state is well formed, its status register tells
    whether and from which device a byte is waiting and its interrupt lines
    are at the level the mode asks for; no operation fails; the guest reads the
    bytes of both devices in order, the keyboard's first; the output port and
    the A20 line. *)

From Stdlib Require Import ZArith Lia.
From stdpp Require Import base option numbers list.
From S2P Require Import Prelude Ps2.

Local Open Scope Z_scope.

(** ** State *)

(** The controller with its two devices.  [ctl_cmd] is the field [write_cmd];
    [irqs] records the levels driven on lines 1 and 12, latest first, and
    [a20_out] those of the A20 line where there is one; [resets] counts the
    requests of a system reset; [mask] selects the register of the
    memory-mapped variant. *)
Record KBDState := mkKBD {
  ctl_cmd : Z;
  status : Z;
  mode : Z;
  outport : Z;
  pending : Z;
  kbd : PS2KbdState;
  mouse : PS2MouseState;
  irqs : list (Z * Z);
  a20_out : option (list Z);
  resets : nat;
  mask : Z
}.

Definition set_ctl_cmd (v : Z) (s : KBDState) : KBDState :=
  mkKBD v s.(status) s.(mode) s.(outport) s.(pending) s.(kbd) s.(mouse) s.(irqs)
    s.(a20_out) s.(resets) s.(mask).
Definition set_status (v : Z) (s : KBDState) : KBDState :=
  mkKBD s.(ctl_cmd) v s.(mode) s.(outport) s.(pending) s.(kbd) s.(mouse) s.(irqs)
    s.(a20_out) s.(resets) s.(mask).
Definition set_mode (v : Z) (s : KBDState) : KBDState :=
  mkKBD s.(ctl_cmd) s.(status) v s.(outport) s.(pending) s.(kbd) s.(mouse) s.(irqs)
    s.(a20_out) s.(resets) s.(mask).
Definition set_outport (v : Z) (s : KBDState) : KBDState :=
  mkKBD s.(ctl_cmd) s.(status) s.(mode) v s.(pending) s.(kbd) s.(mouse) s.(irqs)
    s.(a20_out) s.(resets) s.(mask).
Definition set_pending (v : Z) (s : KBDState) : KBDState :=
  mkKBD s.(ctl_cmd) s.(status) s.(mode) s.(outport) v s.(kbd) s.(mouse) s.(irqs)
    s.(a20_out) s.(resets) s.(mask).
Definition set_kbd (v : PS2KbdState) (s : KBDState) : KBDState :=
  mkKBD s.(ctl_cmd) s.(status) s.(mode) s.(outport) s.(pending) v s.(mouse) s.(irqs)
    s.(a20_out) s.(resets) s.(mask).
Definition set_mouse (v : PS2MouseState) (s : KBDState) : KBDState :=
  mkKBD s.(ctl_cmd) s.(status) s.(mode) s.(outport) s.(pending) s.(kbd) v s.(irqs)
    s.(a20_out) s.(resets) s.(mask).
Definition set_irqs (v : list (Z * Z)) (s : KBDState) : KBDState :=
  mkKBD s.(ctl_cmd) s.(status) s.(mode) s.(outport) s.(pending) s.(kbd) s.(mouse) v
    s.(a20_out) s.(resets) s.(mask).
Definition set_a20_out (v : option (list Z)) (s : KBDState) : KBDState :=
  mkKBD s.(ctl_cmd) s.(status) s.(mode) s.(outport) s.(pending) s.(kbd) s.(mouse) s.(irqs)
    v s.(resets) s.(mask).
Definition set_resets (v : nat) (s : KBDState) : KBDState :=
  mkKBD s.(ctl_cmd) s.(status) s.(mode) s.(outport) s.(pending) s.(kbd) s.(mouse) s.(irqs)
    s.(a20_out) v s.(mask).
Definition set_mask (v : Z) (s : KBDState) : KBDState :=
  mkKBD s.(ctl_cmd) s.(status) s.(mode) s.(outport) s.(pending) s.(kbd) s.(mouse) s.(irqs)
    s.(a20_out) s.(resets) v.

Definition KBD_CCMD_READ_MODE : Z := 0x20.
Definition KBD_CCMD_WRITE_MODE : Z := 0x60.
Definition KBD_CCMD_MOUSE_DISABLE : Z := 0xA7.
Definition KBD_CCMD_MOUSE_ENABLE : Z := 0xA8.
Definition KBD_CCMD_TEST_MOUSE : Z := 0xA9.
Definition KBD_CCMD_SELF_TEST : Z := 0xAA.
Definition KBD_CCMD_KBD_TEST : Z := 0xAB.
Definition KBD_CCMD_KBD_DISABLE : Z := 0xAD.
Definition KBD_CCMD_KBD_ENABLE : Z := 0xAE.
Definition KBD_CCMD_READ_INPORT : Z := 0xC0.
Definition KBD_CCMD_READ_OUTPORT : Z := 0xD0.
Definition KBD_CCMD_WRITE_OUTPORT : Z := 0xD1.
Definition KBD_CCMD_WRITE_OBUF : Z := 0xD2.
Definition KBD_CCMD_WRITE_AUX_OBUF : Z := 0xD3.
Definition KBD_CCMD_WRITE_MOUSE : Z := 0xD4.
Definition KBD_CCMD_DISABLE_A20 : Z := 0xDD.
Definition KBD_CCMD_ENABLE_A20 : Z := 0xDF.
Definition KBD_CCMD_PULSE_BITS_3_0 : Z := 0xF0.
Definition KBD_CCMD_RESET : Z := 0xFE.
Definition KBD_CCMD_NO_OP : Z := 0xFF.

Definition KBD_STAT_OBF : Z := 0x01.
Definition KBD_STAT_SELFTEST : Z := 0x04.
Definition KBD_STAT_CMD : Z := 0x08.
Definition KBD_STAT_UNLOCKED : Z := 0x10.
Definition KBD_STAT_MOUSE_OBF : Z := 0x20.

Definition KBD_MODE_KBD_INT : Z := 0x01.
Definition KBD_MODE_MOUSE_INT : Z := 0x02.
Definition KBD_MODE_DISABLE_KBD : Z := 0x10.
Definition KBD_MODE_DISABLE_MOUSE : Z := 0x20.
Definition KBD_MODE_KCC : Z := 0x40.

Definition KBD_OUT_RESET : Z := 0x01.
Definition KBD_OUT_A20 : Z := 0x02.
Definition KBD_OUT_OBF : Z := 0x10.
Definition KBD_OUT_MOUSE_OBF : Z := 0x20.

Definition KBD_PENDING_KBD : Z := 1.
Definition KBD_PENDING_AUX : Z := 2.

(** ** Interrupts *)

(** The two levels [kbd_update_irq] computes *)
Definition irq_kbd_level (s : KBDState) : Z :=
  c_bool (c_true s.(pending) && negb (s.(pending) =? KBD_PENDING_AUX) &&
          (c_true (Z.land s.(mode) KBD_MODE_KBD_INT) &&
           negb (c_true (Z.land s.(mode) KBD_MODE_DISABLE_KBD)))).

Definition irq_mouse_level (s : KBDState) : Z :=
  c_bool (c_true s.(pending) && (s.(pending) =? KBD_PENDING_AUX) &&
          c_true (Z.land s.(mode) KBD_MODE_MOUSE_INT)).

Definition kbd_update_irq (s : KBDState) : KBDState :=
  let s := set_status (Z.land s.(status) (Z.lnot (Z.lor KBD_STAT_OBF KBD_STAT_MOUSE_OBF))) s in
  let s := set_outport (Z.land s.(outport) (Z.lnot (Z.lor KBD_OUT_OBF KBD_OUT_MOUSE_OBF))) s in
  let s :=
    if c_true s.(pending) then
      let s := set_status (Z.lor s.(status) KBD_STAT_OBF) s in
      let s := set_outport (Z.lor s.(outport) KBD_OUT_OBF) s in
      if s.(pending) =? KBD_PENDING_AUX then
        let s := set_status (Z.lor s.(status) KBD_STAT_MOUSE_OBF) s in
        set_outport (Z.lor s.(outport) KBD_OUT_MOUSE_OBF) s
      else s
    else s in
  let s := set_irqs ((1, irq_kbd_level s) :: s.(irqs)) s in
  set_irqs ((12, irq_mouse_level s) :: s.(irqs)) s.

Definition update_pending (bit level : Z) (s : KBDState) : KBDState :=
  kbd_update_irq
    (set_pending (if c_true level then Z.lor s.(pending) bit
                  else Z.land s.(pending) (Z.lnot bit)) s).

Definition kbd_update_kbd_irq (level : Z) (s : KBDState) : KBDState :=
  update_pending KBD_PENDING_KBD level s.
Definition kbd_update_aux_irq (level : Z) (s : KBDState) : KBDState :=
  update_pending KBD_PENDING_AUX level s.

(** ** Operations of the devices, with the [update_irq] calls they make *)

Definition drain (c : PS2State) : PS2State := mkPS2 c.(queue) c.(write_cmd) [].

(** The calls in [c], oldest first *)
Definition calls (f : Z -> KBDState -> KBDState) (c : PS2State) (s : KBDState) : KBDState :=
  foldr f s c.(update).

Definition after_kbd (k : PS2KbdState) (s : KBDState) : KBDState :=
  calls kbd_update_kbd_irq k.(common) (set_kbd (set_common (drain k.(common)) k) s).

Definition after_mouse (m : PS2MouseState) (s : KBDState) : KBDState :=
  calls kbd_update_aux_irq m.(mcommon) (set_mouse (set_mcommon (drain m.(mcommon)) m) s).

Definition with_kbd (f : PS2KbdState -> option PS2KbdState) (s : KBDState) : option KBDState :=
  k ← f s.(kbd); Some (after_kbd k s).

Definition with_mouse (f : PS2MouseState -> option PS2MouseState) (s : KBDState) : option KBDState :=
  m ← f s.(mouse); Some (after_mouse m s).

(** ** The ports *)

Definition kbd_read_status (s : KBDState) : Z := s.(status).

Definition kbd_queue (b : Z) (aux : bool) (s : KBDState) : option KBDState :=
  if aux then with_mouse (mput b) s else with_kbd (kput b) s.

Definition set_a20 (level : Z) (s : KBDState) : KBDState :=
  match s.(a20_out) with
  | Some l => set_a20_out (Some (level :: l)) s
  | None => s
  end.

Definition qemu_system_reset_request (s : KBDState) : KBDState := set_resets (S s.(resets)) s.

Definition outport_write (val : Z) (s : KBDState) : KBDState :=
  let s := set_a20 (Z.land (Z.shiftr val 1) 1) (set_outport (wrap 8 val) s) in
  if negb (c_true (Z.land val 1)) then qemu_system_reset_request s else s.

Definition kbd_write_command (val : Z) (s : KBDState) : option KBDState :=
  let val :=
    if Z.land val KBD_CCMD_PULSE_BITS_3_0 =? KBD_CCMD_PULSE_BITS_3_0 then
      if negb (c_true (Z.land val 1)) then KBD_CCMD_RESET else KBD_CCMD_NO_OP
    else val in
  if val =? KBD_CCMD_READ_MODE then kbd_queue s.(mode) false s
  else if (val =? KBD_CCMD_WRITE_MODE) || (val =? KBD_CCMD_WRITE_OBUF) ||
          (val =? KBD_CCMD_WRITE_AUX_OBUF) || (val =? KBD_CCMD_WRITE_MOUSE) ||
          (val =? KBD_CCMD_WRITE_OUTPORT) then Some (set_ctl_cmd (wrap 8 val) s)
  else if val =? KBD_CCMD_MOUSE_DISABLE then
    Some (set_mode (Z.lor s.(mode) KBD_MODE_DISABLE_MOUSE) s)
  else if val =? KBD_CCMD_MOUSE_ENABLE then
    Some (set_mode (Z.land s.(mode) (Z.lnot KBD_MODE_DISABLE_MOUSE)) s)
  else if val =? KBD_CCMD_TEST_MOUSE then kbd_queue 0x00 false s
  else if val =? KBD_CCMD_SELF_TEST then
    kbd_queue 0x55 false (set_status (Z.lor s.(status) KBD_STAT_SELFTEST) s)
  else if val =? KBD_CCMD_KBD_TEST then kbd_queue 0x00 false s
  else if val =? KBD_CCMD_KBD_DISABLE then
    Some (kbd_update_irq (set_mode (Z.lor s.(mode) KBD_MODE_DISABLE_KBD) s))
  else if val =? KBD_CCMD_KBD_ENABLE then
    Some (kbd_update_irq (set_mode (Z.land s.(mode) (Z.lnot KBD_MODE_DISABLE_KBD)) s))
  else if val =? KBD_CCMD_READ_INPORT then kbd_queue 0x00 false s
  else if val =? KBD_CCMD_READ_OUTPORT then kbd_queue s.(outport) false s
  else if val =? KBD_CCMD_ENABLE_A20 then
    let s := set_a20 1 s in Some (set_outport (Z.lor s.(outport) KBD_OUT_A20) s)
  else if val =? KBD_CCMD_DISABLE_A20 then
    let s := set_a20 0 s in Some (set_outport (Z.land s.(outport) (Z.lnot KBD_OUT_A20)) s)
  else if val =? KBD_CCMD_RESET then Some (qemu_system_reset_request s)
  else Some s.

Definition kbd_read_data (s : KBDState) : option (Z * KBDState) :=
  if s.(pending) =? KBD_PENDING_AUX then
    '(val, c) ← ps2_read_data s.(mouse).(mcommon);
    Some (val, after_mouse (set_mcommon c s.(mouse)) s)
  else
    '(val, c) ← ps2_read_data s.(kbd).(common);
    Some (val, after_kbd (set_common c s.(kbd)) s).

Definition kbd_write_data (val : Z) (s : KBDState) : option KBDState :=
  let cmd := s.(ctl_cmd) in
  s ← (if cmd =? 0 then with_kbd (ps2_write_keyboard val) s
       else if cmd =? KBD_CCMD_WRITE_MODE then
         let s := set_mode (wrap 8 val) s in
         let s := set_kbd (ps2_keyboard_set_translation
                    (c_bool (c_true (Z.land s.(mode) KBD_MODE_KCC))) s.(kbd)) s in
         Some (kbd_update_irq s)
       else if cmd =? KBD_CCMD_WRITE_OBUF then kbd_queue val false s
       else if cmd =? KBD_CCMD_WRITE_AUX_OBUF then kbd_queue val true s
       else if cmd =? KBD_CCMD_WRITE_OUTPORT then Some (outport_write val s)
       else if cmd =? KBD_CCMD_WRITE_MOUSE then with_mouse (ps2_write_mouse val) s
       else Some s);
  Some (set_ctl_cmd 0 s).

Definition kbd_reset (s : KBDState) : KBDState :=
  set_outport (Z.lor KBD_OUT_RESET KBD_OUT_A20)
    (set_status (Z.lor KBD_STAT_CMD KBD_STAT_UNLOCKED)
      (set_mode (Z.lor KBD_MODE_KBD_INT KBD_MODE_MOUSE_INT) s)).

(** The reset handlers of the three devices, in the order they are registered *)
Definition i8042_reset (s : KBDState) : KBDState :=
  let s := after_kbd (ps2_kbd_reset s.(kbd)) s in
  let s := after_mouse (ps2_mouse_reset s.(mouse)) s in
  kbd_reset s.

(** The memory-mapped variant *)
Definition kbd_mm_readb (addr : Z) (s : KBDState) : option (Z * KBDState) :=
  if c_true (Z.land addr s.(mask)) then Some (Z.land (kbd_read_status s) 0xff, s)
  else '(v, s) ← kbd_read_data s; Some (Z.land v 0xff, s).

Definition kbd_mm_writeb (addr value : Z) (s : KBDState) : option KBDState :=
  if c_true (Z.land addr s.(mask)) then kbd_write_command (Z.land value 0xff) s
  else kbd_write_data (Z.land value 0xff) s.

Definition i8042_isa_mouse_fake_event (s : KBDState) : option KBDState :=
  with_mouse ps2_mouse_fake_event s.

Definition i8042_setup_a20_line (s : KBDState) : KBDState := set_a20_out (Some []) s.

(** The state after [i8042_initfn], and after [i8042_mm_init] with a mask *)
Definition i8042_initfn : KBDState :=
  mkKBD 0 0 0 0 0 ps2_kbd_init ps2_mouse_init [] None 0 0.

Definition i8042_mm_init (m : Z) : KBDState := set_mask m i8042_initfn.

(** ** The invariant *)

(** The level last driven on a line *)
Fixpoint line (n : Z) (l : list (Z * Z)) : Z :=
  match l with
  | [] => 0
  | (m, v) :: l => if m =? n then v else line n l
  end.

Record regs_wf (s : KBDState) : Prop := {
  rw_cmd : in_u 8 s.(ctl_cmd);
  rw_status : in_u 8 s.(status);
  rw_mode : in_u 8 s.(mode);
  rw_outport : in_u 8 s.(outport);
  rw_pending : 0 <= s.(pending) <= 3
}.

(** The status register and the interrupt lines tell what is pending. *)
Record signals_ok (s : KBDState) : Prop := {
  so_obf : Z.testbit s.(status) 0 = negb (s.(pending) =? 0);
  so_aux : Z.testbit s.(status) 5 = (s.(pending) =? 2);
  so_irq1 : line 1 s.(irqs) = irq_kbd_level s;
  so_irq12 : line 12 s.(irqs) = irq_mouse_level s
}.

(** What is waiting in the two devices *)
Definition pending_of (s : KBDState) : Z :=
  level s.(kbd).(common) + 2 * level s.(mouse).(mcommon).

Record kbd_wf (s : KBDState) : Prop := {
  w_kbd : kbd_dev_wf s.(kbd);
  w_mouse : mouse_wf s.(mouse);
  w_kbd_calls : s.(kbd).(common).(update) = [];
  w_mouse_calls : s.(mouse).(mcommon).(update) = [];
  w_regs : regs_wf s;
  w_pending : s.(pending) = pending_of s;
  w_signals : signals_ok s
}.

(** The fields [kbd_update_irq] does not touch *)
Definition frame (s : KBDState) :=
  (s.(ctl_cmd), s.(mode), s.(kbd), s.(mouse), s.(a20_out), s.(resets), s.(mask)).

Lemma status_bits st p :
  0 <= p <= 3 ->
  let st := Z.land st (Z.lnot (Z.lor KBD_STAT_OBF KBD_STAT_MOUSE_OBF)) in
  let st := if c_true p
            then if p =? 2 then Z.lor (Z.lor st KBD_STAT_OBF) KBD_STAT_MOUSE_OBF
                 else Z.lor st KBD_STAT_OBF
            else st in
  Z.testbit st 0 = negb (p =? 0) /\ Z.testbit st 5 = (p =? 2).
Proof.
  intros Hp. assert (Hc : p = 0 \/ p = 1 \/ p = 2 \/ p = 3) by lia.
  destruct Hc as [-> | [-> | [-> | ->]]]; cbn zeta;
    cbn [c_true Z.eqb Pos.eqb negb]; cbn iota;
    rewrite ?Z.lor_spec, ?Z.land_spec;
    change (Z.testbit (Z.lnot (Z.lor KBD_STAT_OBF KBD_STAT_MOUSE_OBF)) 0) with false;
    change (Z.testbit (Z.lnot (Z.lor KBD_STAT_OBF KBD_STAT_MOUSE_OBF)) 5) with false;
    rewrite ?andb_false_r; done.
Qed.

Lemma update_irq_ok s :
  regs_wf s ->
  regs_wf (kbd_update_irq s) /\ signals_ok (kbd_update_irq s) /\
  frame (kbd_update_irq s) = frame s /\ (kbd_update_irq s).(pending) = s.(pending).
Proof.
  intros [Hc Hs Hm Ho Hp]. destruct (status_bits s.(status) s.(pending) Hp) as [H0 H5].
  assert (Hlo : forall x m, in_u 8 x -> in_u 8 (Z.land x (Z.lnot m))) by (intros; by apply in_u_land_l).
  assert (H1 : in_u 8 KBD_STAT_OBF) by (split; vm_compute; (discriminate || reflexivity)).
  assert (H2 : in_u 8 KBD_STAT_MOUSE_OBF) by (split; vm_compute; (discriminate || reflexivity)).
  assert (H3 : in_u 8 KBD_OUT_OBF) by (split; vm_compute; (discriminate || reflexivity)).
  unfold kbd_update_irq. cbn [pending set_status set_outport].
  change KBD_PENDING_AUX with 2. cbn zeta in H0, H5.
  destruct (c_true (pending s)); [destruct (pending s =? 2) eqn:E2 |]; cbn in *;
    (split_and!; [constructor; cbn; try done; repeat apply in_u_lor; (done || lia || by apply Hlo)
                 | constructor; cbn; rewrite ?E2; done | done | done]).
Qed.

(** Setting and clearing one of the two bits *)
Definition with_bit (bit : Z) (b : bool) (p : Z) : Z :=
  if bit =? 1 then c_bool b + 2 * c_bool (2 <=? p) else p mod 2 + 2 * c_bool b.

Lemma with_bit_ok bit l p :
  bit = 1 \/ bit = 2 -> 0 <= p <= 3 ->
  (if c_true l then Z.lor p bit else Z.land p (Z.lnot bit)) = with_bit bit (c_true l) p /\
  0 <= with_bit bit (c_true l) p <= 3.
Proof.
  intros Hb Hp. assert (Hc : p = 0 \/ p = 1 \/ p = 2 \/ p = 3) by lia.
  destruct Hb as [-> | ->], Hc as [-> | [-> | [-> | ->]]], (c_true l); vm_compute;
    (split; [done | split; done]).
Qed.

Lemma update_pending_ok bit l s :
  bit = 1 \/ bit = 2 -> regs_wf s ->
  let s' := update_pending bit l s in
  regs_wf s' /\ signals_ok s' /\ frame s' = frame s /\
  s'.(pending) = with_bit bit (c_true l) s.(pending).
Proof.
  intros Hb Hs. destruct (with_bit_ok bit l s.(pending) Hb (rw_pending _ Hs)) as [Ew Hw].
  unfold update_pending. rewrite Ew.
  destruct (update_irq_ok (set_pending (with_bit bit (c_true l) s.(pending)) s)) as (H1 & H2 & H3 & H4).
  { destruct Hs. by constructor. }
  split_and!; [done | done | done |]. by rewrite H4.
Qed.

Lemma with_bit_twice bit b b' p :
  bit = 1 \/ bit = 2 -> 0 <= p <= 3 -> with_bit bit b (with_bit bit b' p) = with_bit bit b p.
Proof.
  intros Hb Hp. assert (Hc : p = 0 \/ p = 1 \/ p = 2 \/ p = 3) by lia.
  destruct Hb as [-> | ->], Hc as [-> | [-> | [-> | ->]]], b, b'; done.
Qed.

(** The calls of one device, the last of which counts *)
Lemma calls_ok bit u s :
  bit = 1 \/ bit = 2 -> regs_wf s -> signals_ok s ->
  let s' := foldr (update_pending bit) s u in
  regs_wf s' /\ signals_ok s' /\ frame s' = frame s /\
  s'.(pending) = match u with [] => s.(pending) | l :: _ => with_bit bit (c_true l) s.(pending) end.
Proof.
  intros Hb Hs Hsig. induction u as [| l u IH]; cbn [foldr]; [done |].
  destruct IH as (H1 & H2 & H3 & H4).
  destruct (update_pending_ok bit l _ Hb H1) as (K1 & K2 & K3 & K4).
  split_and!; [done | done | by rewrite K3 |]. rewrite K4, H4.
  destruct u; [done |]. apply with_bit_twice; [done | apply Hs].
Qed.

Lemma level_bool c : level c = 0 \/ level c = 1.
Proof. unfold level, c_bool. destruct (negb _); auto. Qed.

Lemma c_true_level c : c_bool (c_true (level c)) = level c.
Proof. by destruct (level_bool c) as [-> | ->]. Qed.

Lemma drain_step c c' : pstep c c' -> c.(update) = [] ->
  queue_wf (drain c').(queue) /\ level (drain c') = level c' /\
  match c'.(update) with [] => level c' = level c | l :: _ => l = level c' end.
Proof.
  intros (Hq & u & Eu & Hu) Hc. rewrite Hc, app_nil_r in Eu. rewrite Eu.
  split_and!; [done | done |]. destruct u; [| done]. unfold level. by rewrite Hu.
Qed.

(** The state after the calls of an operation of one device *)
Lemma after_kbd_wf k s :
  kbd_wf s -> kbd_dev_wf k -> pstep s.(kbd).(common) k.(common) -> kbd_wf (after_kbd k s).
Proof.
  intros [Hk Hm Hku Hmu Hr Hp Hs] Hwk Hstep.
  destruct (drain_step _ _ Hstep Hku) as (Hq & Hl & Hu).
  set (k' := set_common (drain k.(common)) k).
  destruct (calls_ok 1 k.(common).(update) (set_kbd k' s)) as (R & S & F & P).
  { by left. } { by destruct Hr. } { by destruct Hs. }
  unfold after_kbd, calls. fold k'.
  change kbd_update_kbd_irq with (update_pending 1).
  set (s' := foldr _ _ _) in *. cbn [pending set_kbd] in P.
  injection F as _ _ Fk Fm _ _ _. constructor.
  - rewrite Fk. destruct Hwk. by constructor.
  - by rewrite Fm.
  - by rewrite Fk.
  - by rewrite Fm.
  - done.
  - rewrite P. unfold pending_of. rewrite Fk, Fm. cbn [kbd mouse set_kbd].
    change (level (common k')) with (level (drain k.(common))). rewrite Hl.
    rewrite Hp. unfold pending_of.
    destruct (update (common k)) as [| l u].
    + by rewrite Hu.
    + subst l. unfold with_bit. cbn [Z.eqb Pos.eqb]. rewrite c_true_level.
      destruct (level_bool (mcommon (mouse s))) as [-> | ->],
        (level_bool (common (kbd s))) as [-> | ->]; done.
  - done.
Qed.

Lemma after_mouse_wf m s :
  kbd_wf s -> mouse_wf m -> pstep s.(mouse).(mcommon) m.(mcommon) -> kbd_wf (after_mouse m s).
Proof.
  intros [Hk Hm Hku Hmu Hr Hp Hs] Hwm Hstep.
  destruct (drain_step _ _ Hstep Hmu) as (Hq & Hl & Hu).
  set (m' := set_mcommon (drain m.(mcommon)) m).
  destruct (calls_ok 2 m.(mcommon).(update) (set_mouse m' s)) as (R & S & F & P).
  { by right. } { by destruct Hr. } { by destruct Hs. }
  unfold after_mouse, calls. fold m'.
  change kbd_update_aux_irq with (update_pending 2).
  set (s' := foldr _ _ _) in *. cbn [pending set_mouse] in P.
  injection F as _ _ Fk Fm _ _ _. constructor.
  - by rewrite Fk.
  - rewrite Fm. by apply set_mcommon_wf.
  - by rewrite Fk.
  - by rewrite Fm.
  - done.
  - rewrite P. unfold pending_of. rewrite Fk, Fm. cbn [kbd mouse set_mouse].
    change (level (mcommon m')) with (level (drain m.(mcommon))). rewrite Hl.
    rewrite Hp. unfold pending_of.
    destruct (update (mcommon m)) as [| l u].
    + by rewrite Hu.
    + subst l. unfold with_bit. cbn [Z.eqb Pos.eqb]. rewrite c_true_level.
      destruct (level_bool (mcommon (mouse s))) as [-> | ->],
        (level_bool (common (kbd s))) as [-> | ->]; done.
  - done.
Qed.

Definition ctl_runs (m : option KBDState) : Prop := exists s', m = Some s' /\ kbd_wf s'.

Lemma with_kbd_runs f s :
  kbd_wf s -> kbd_runs (f s.(kbd)) s.(kbd) -> ctl_runs (with_kbd f s).
Proof.
  intros Hs (k & E & Hk & Hp). unfold with_kbd. rewrite E. eexists. split; [reflexivity |].
  by apply after_kbd_wf.
Qed.

Lemma with_mouse_runs f s :
  kbd_wf s -> mouse_runs (f s.(mouse)) s.(mouse) -> ctl_runs (with_mouse f s).
Proof.
  intros Hs (m & E & Hm & Hp). unfold with_mouse. rewrite E. eexists. split; [reflexivity |].
  by apply after_mouse_wf.
Qed.

Lemma kbd_queue_runs b aux s : kbd_wf s -> ctl_runs (kbd_queue b aux s).
Proof.
  intros Hs. unfold kbd_queue. destruct aux.
  - apply with_mouse_runs; [done |].
    apply mput_runs; [apply Hs | apply pstep_refl, mw_queue, Hs].
  - apply with_kbd_runs; [done |].
    apply kput_runs; [apply Hs | apply pstep_refl, kw_queue, Hs].
Qed.

(** A register that does not bear on the signals *)
Lemma set_quiet_wf s s' :
  kbd_wf s -> s'.(kbd) = s.(kbd) -> s'.(mouse) = s.(mouse) -> s'.(pending) = s.(pending) ->
  s'.(irqs) = s.(irqs) -> Z.testbit s'.(status) 0 = Z.testbit s.(status) 0 ->
  Z.testbit s'.(status) 5 = Z.testbit s.(status) 5 ->
  irq_kbd_level s' = irq_kbd_level s -> irq_mouse_level s' = irq_mouse_level s ->
  regs_wf s' -> kbd_wf s'.
Proof.
  intros [Hk Hm Hku Hmu _ Hp [H0 H5 H1 H12]] Ek Em Ep Ei E0 E5 E1 E12 Hr.
  constructor; rewrite ?Ek, ?Em; try done.
  - unfold pending_of. by rewrite Ek, Em, Ep.
  - constructor; [by rewrite E0, Ep | by rewrite E5, Ep | by rewrite Ei, E1 | by rewrite Ei, E12].
Qed.

(** A register change followed by [kbd_update_irq] *)
Lemma update_irq_wf s :
  kbd_dev_wf s.(kbd) -> mouse_wf s.(mouse) -> s.(kbd).(common).(update) = [] ->
  s.(mouse).(mcommon).(update) = [] -> s.(pending) = pending_of s -> regs_wf s ->
  kbd_wf (kbd_update_irq s).
Proof.
  intros Hk Hm Hku Hmu Hp Hr. destruct (update_irq_ok s Hr) as (R & S & F & P).
  set (s' := kbd_update_irq s) in *. clearbody s'. injection F as _ _ Fk Fm _ _ _.
  constructor; rewrite ?Fk, ?Fm; try done. unfold pending_of. by rewrite P, Fk, Fm.
Qed.

Lemma ctl_runs_ret s : kbd_wf s -> ctl_runs (Some s).
Proof. intros Hs. by exists s. Qed.

Lemma ctl_cmd_wf v s : in_u 8 v -> kbd_wf s -> kbd_wf (set_ctl_cmd v s).
Proof. intros Hv Hs. apply (set_quiet_wf s); try done. destruct (w_regs _ Hs). by constructor. Qed.

Lemma outport_wf v s : in_u 8 v -> kbd_wf s -> kbd_wf (set_outport v s).
Proof. intros Hv Hs. apply (set_quiet_wf s); try done. destruct (w_regs _ Hs). by constructor. Qed.

Lemma a20_wf l s : kbd_wf s -> kbd_wf (set_a20 l s).
Proof.
  intros Hs. unfold set_a20. destruct (a20_out s); [| done].
  apply (set_quiet_wf s); try done. destruct (w_regs _ Hs). by constructor.
Qed.

Lemma reset_request_wf s : kbd_wf s -> kbd_wf (qemu_system_reset_request s).
Proof. intros Hs. apply (set_quiet_wf s); try done. destruct (w_regs _ Hs). by constructor. Qed.

Lemma outport_write_wf v s : kbd_wf s -> kbd_wf (outport_write v s).
Proof.
  intros Hs. unfold outport_write.
  assert (Ho : kbd_wf (set_a20 (Z.land (Z.shiftr v 1) 1) (set_outport (wrap 8 v) s)))
    by (apply a20_wf, outport_wf; [by apply in_u_wrap | done]).
  destruct (negb _); [by apply reset_request_wf | done].
Qed.

(** The mouse's enable bit does not bear on the interrupt lines. *)
Lemma mode_bit5_wf m s :
  kbd_wf s -> in_u 8 m -> (forall i, i <> 5 -> 0 <= i -> Z.testbit m i = Z.testbit s.(mode) i) ->
  kbd_wf (set_mode m s).
Proof.
  intros Hs Hm Hb.
  assert (Hl : forall i, i <> 5 -> 0 <= i ->
    c_true (Z.land m (Z.shiftl 1 i)) = c_true (Z.land s.(mode) (Z.shiftl 1 i)))
    by (intros; rewrite !c_true_land_bit by lia; by apply Hb).
  apply (set_quiet_wf s); try done.
  - unfold irq_kbd_level. cbn [mode pending set_mode].
    change KBD_MODE_KBD_INT with (Z.shiftl 1 0). change KBD_MODE_DISABLE_KBD with (Z.shiftl 1 4).
    by rewrite !Hl by lia.
  - unfold irq_mouse_level. cbn [mode pending set_mode].
    change KBD_MODE_MOUSE_INT with (Z.shiftl 1 1). by rewrite !Hl by lia.
  - destruct (w_regs _ Hs). by constructor.
Qed.

(** Changing the mode and driving the lines again *)
Lemma mode_update_wf m s : kbd_wf s -> in_u 8 m -> kbd_wf (kbd_update_irq (set_mode m s)).
Proof.
  intros [Hk Hm Hku Hmu Hr Hp _] Hmode. apply update_irq_wf; try done.
  destruct Hr. by constructor.
Qed.

Ltac const8 := split; vm_compute; (discriminate || reflexivity).

Lemma write_command_runs v s : kbd_wf s -> ctl_runs (kbd_write_command v s).
Proof.
  intros Hs. pose proof (w_regs _ Hs) as [_ Hst Hm Ho _].
  assert (H20 : in_u 8 KBD_MODE_DISABLE_MOUSE) by const8.
  assert (H10 : in_u 8 KBD_MODE_DISABLE_KBD) by const8.
  assert (H2 : in_u 8 KBD_OUT_A20) by const8.
  unfold kbd_write_command.
  set (c := if Z.land v KBD_CCMD_PULSE_BITS_3_0 =? KBD_CCMD_PULSE_BITS_3_0 then _ else _).
  clearbody c. cbv zeta.
  repeat match goal with |- ctl_runs (if ?b then _ else _) => destruct b end;
    try (by apply kbd_queue_runs); apply ctl_runs_ret || idtac.
  - apply ctl_cmd_wf; [by apply in_u_wrap | done].
  - apply mode_bit5_wf; [done | by apply in_u_lor |]. intros i Hi H0.
    change KBD_MODE_DISABLE_MOUSE with (Z.shiftl 1 5). bits_simpl. done.
  - apply mode_bit5_wf; [done | by apply in_u_land_l |]. intros i Hi H0.
    change KBD_MODE_DISABLE_MOUSE with (Z.shiftl 1 5). bits_simpl. done.
  - apply kbd_queue_runs. apply (set_quiet_wf s); try done.
    + cbn [status set_status]. rewrite Z.lor_spec. by rewrite orb_false_r.
    + cbn [status set_status]. rewrite Z.lor_spec. by rewrite orb_false_r.
    + destruct (w_regs _ Hs). constructor; cbn; try done. apply in_u_lor; [lia | done | const8].
  - apply mode_update_wf; [done | by apply in_u_lor].
  - apply mode_update_wf; [done | by apply in_u_land_l].
  - apply outport_wf; [| by apply a20_wf]. apply in_u_lor; [lia | | done].
    unfold set_a20. by destruct (a20_out s).
  - apply outport_wf; [| by apply a20_wf]. apply in_u_land_l; [lia |].
    unfold set_a20. by destruct (a20_out s).
  - by apply reset_request_wf.
  - done.
Qed.

Lemma write_data_runs v s : kbd_wf s -> ctl_runs (kbd_write_data v s).
Proof.
  intros Hs. unfold kbd_write_data.
  assert (Hm : ctl_runs
    (if ctl_cmd s =? 0 then with_kbd (ps2_write_keyboard v) s
     else if ctl_cmd s =? KBD_CCMD_WRITE_MODE then
       Some (kbd_update_irq (set_kbd (ps2_keyboard_set_translation
               (c_bool (c_true (Z.land (wrap 8 v) KBD_MODE_KCC))) s.(kbd)) (set_mode (wrap 8 v) s)))
     else if ctl_cmd s =? KBD_CCMD_WRITE_OBUF then kbd_queue v false s
     else if ctl_cmd s =? KBD_CCMD_WRITE_AUX_OBUF then kbd_queue v true s
     else if ctl_cmd s =? KBD_CCMD_WRITE_OUTPORT then Some (outport_write v s)
     else if ctl_cmd s =? KBD_CCMD_WRITE_MOUSE then with_mouse (ps2_write_mouse v) s
     else Some s)).
  { repeat match goal with |- ctl_runs (if ?b then _ else _) => destruct b end;
      try (by apply kbd_queue_runs); try (apply ctl_runs_ret).
    - apply with_kbd_runs; [done | apply write_keyboard_runs, Hs].
    - destruct Hs as [Hk Hmo Hku Hmu Hr Hp _]. apply update_irq_wf; try done.
      + destruct Hk. constructor; cbn; try done. destruct (c_true _); cbn; lia.
      + destruct Hr. constructor; cbn; try done. by apply in_u_wrap.
    - by apply outport_write_wf.
    - apply with_mouse_runs; [done | apply write_mouse_runs, Hs].
    - done. }
  destruct Hm as (s' & E & Hs'). cbv zeta. cbn [mode set_mode].
  match goal with |- ctl_runs (?m ≫= _) => change m with (Some s') || (replace m with (Some s') by (symmetry; exact E)) end.
  bind_step. apply ctl_runs_ret, ctl_cmd_wf; [split; lia | done].
Qed.

Lemma read_data_runs s :
  kbd_wf s -> exists v s', kbd_read_data s = Some (v, s') /\ in_u 8 v /\ kbd_wf s'.
Proof.
  intros Hs. unfold kbd_read_data. destruct (pending s =? KBD_PENDING_AUX).
  - destruct (read_step _ (mw_queue _ (w_mouse _ Hs))) as (v & c & -> & Hp & _ & Hv & _). bind_step.
    eexists v, _. split; [reflexivity |]. split; [done |].
    apply after_mouse_wf; [done | apply set_mcommon_wf; [apply Hs | apply Hp] | done].
  - destruct (read_step _ (kw_queue _ (w_kbd _ Hs))) as (v & c & -> & Hp & _ & Hv & _). bind_step.
    eexists v, _. split; [reflexivity |]. split; [done |].
    apply after_kbd_wf; [done | | done]. destruct (w_kbd _ Hs). by constructor; [apply Hp | ..].
Qed.

Lemma update_irq_frame s : frame (kbd_update_irq s) = frame s.
Proof.
  unfold kbd_update_irq. cbn [pending set_status set_outport].
  by destruct (c_true (pending s)); [destruct (pending s =? KBD_PENDING_AUX) |].
Qed.

Lemma calls_frame bit u s : frame (foldr (update_pending bit) s u) = frame s.
Proof.
  induction u as [| l u IH]; [done |]. cbn [foldr]. unfold update_pending at 1.
  rewrite update_irq_frame. exact IH.
Qed.

Lemma after_kbd_devs k s :
  (after_kbd k s).(kbd) = set_common (drain k.(common)) k /\ (after_kbd k s).(mouse) = s.(mouse).
Proof.
  pose proof (calls_frame 1 k.(common).(update) (set_kbd (set_common (drain k.(common)) k) s)) as F.
  by injection F.
Qed.

Lemma after_mouse_devs m s :
  (after_mouse m s).(mouse) = set_mcommon (drain m.(mcommon)) m /\ (after_mouse m s).(kbd) = s.(kbd).
Proof.
  pose proof (calls_frame 2 m.(mcommon).(update) (set_mouse (set_mcommon (drain m.(mcommon)) m) s)) as F.
  by injection F.
Qed.

Lemma kbd_reset_wf s : kbd_wf s -> s.(pending) = 0 -> kbd_wf (kbd_reset s).
Proof.
  intros [Hk Hm Hku Hmu [Hc _ _ _ _] Hp [_ _ H1 H12]] H0.
  unfold irq_kbd_level in H1. unfold irq_mouse_level in H12. rewrite H0 in H1, H12.
  constructor; [done | done | done | done | | done |].
  - constructor; cbn; try done; try lia; const8.
  - constructor; cbn [status irqs pending kbd_reset set_outport set_status set_mode].
    + by rewrite H0.
    + by rewrite H0.
    + rewrite H1. unfold irq_kbd_level. cbn [pending kbd_reset set_outport set_status set_mode].
      by rewrite H0.
    + rewrite H12. unfold irq_mouse_level. cbn [pending kbd_reset set_outport set_status set_mode].
      by rewrite H0.
Qed.

Lemma level_reset c : level (drain (ps2_common_reset c)) = 0.
Proof. done. Qed.

Lemma i8042_reset_wf s : kbd_wf s -> kbd_wf (i8042_reset s).
Proof.
  intros Hs. unfold i8042_reset.
  destruct (kbd_reset_runs _ (w_kbd _ Hs)) as [Hk Hkp].
  pose proof (after_kbd_wf _ s Hs Hk Hkp) as Hs1.
  destruct (after_kbd_devs (ps2_kbd_reset s.(kbd)) s) as [Ek1 _].
  revert Hs1 Ek1. generalize (after_kbd (ps2_kbd_reset s.(kbd)) s). intros s1 Hs1 Ek1.
  destruct (mouse_reset_runs _ (w_mouse _ Hs1)) as [Hm Hmp].
  pose proof (after_mouse_wf _ s1 Hs1 Hm Hmp) as Hs2.
  destruct (after_mouse_devs (ps2_mouse_reset s1.(mouse)) s1) as [Em Ek].
  revert Hs2 Em Ek. generalize (after_mouse (ps2_mouse_reset s1.(mouse)) s1). intros s2 Hs2 Em Ek.
  apply kbd_reset_wf; [done |]. rewrite (w_pending _ Hs2). unfold pending_of. rewrite Em, Ek, Ek1.
  cbn [common mcommon set_common set_mcommon ps2_kbd_reset ps2_mouse_reset
    set_scancode_set set_translate set_scan_enabled]. by rewrite !level_reset.
Qed.

Lemma i8042_init_wf : kbd_wf i8042_initfn.
Proof.
  constructor; try done.
  - constructor; cbn; try lia. apply zero_wf.
  - constructor; [apply zero_wf | ..]; cbn; try (split; lia); tauto.
Qed.

(** ** Sequences of events *)

(** The guest at the ports, the keys and the motions of the host, and a reset *)
Inductive kbd_event :=
  | ReadStatus
  | ReadData
  | WriteCommand (v : Z)
  | WriteData (v : Z)
  | Key (keycode : Z)
  | Motion (dx dy dz buttons : Z)
  | SetupA20
  | Reset.

Definition kbd_step (e : kbd_event) (s : KBDState) : option KBDState :=
  match e with
  | ReadStatus => Some s
  | ReadData => snd <$> kbd_read_data s
  | WriteCommand v => kbd_write_command v s
  | WriteData v => kbd_write_data v s
  | Key k => with_kbd (ps2_put_keycode k) s
  | Motion dx dy dz b => with_mouse (ps2_mouse_event dx dy dz b) s
  | SetupA20 => Some (i8042_setup_a20_line s)
  | Reset => Some (i8042_reset s)
  end.

(** The motion not yet reported does not overflow an [int]. *)
Definition admissible (e : kbd_event) (s : KBDState) : Prop :=
  match e with Motion dx dy dz _ => event_fits dx dy dz s.(mouse) | _ => True end.

Inductive kbd_reachable : KBDState -> Prop :=
  | kr_init : kbd_reachable i8042_initfn
  | kr_step e s s' : kbd_reachable s -> admissible e s -> kbd_step e s = Some s' -> kbd_reachable s'.

Lemma kbd_step_runs e s : kbd_wf s -> admissible e s -> ctl_runs (kbd_step e s).
Proof.
  intros Hs Ha. destruct e; cbn [kbd_step].
  - by apply ctl_runs_ret.
  - destruct (read_data_runs s Hs) as (v & s' & -> & _ & Hs'). by exists s'.
  - by apply write_command_runs.
  - by apply write_data_runs.
  - apply with_kbd_runs; [done |]. apply put_keycode_runs; [apply Hs | apply pstep_refl, kw_queue, Hs].
  - apply with_mouse_runs; [done |]. apply mouse_event_runs; [apply Hs | done].
  - apply ctl_runs_ret. apply (set_quiet_wf s); try done. destruct (w_regs _ Hs). by constructor.
  - by apply ctl_runs_ret, i8042_reset_wf.
Qed.

Lemma kbd_reachable_wf s : kbd_reachable s -> kbd_wf s.
Proof.
  induction 1 as [| e s s' _ IH Ha E]; [apply i8042_init_wf |].
  destruct (kbd_step_runs e s IH Ha) as (s2 & E2 & Hs2). congruence.
Qed.

Lemma kbd_reachable_default e s d :
  kbd_reachable s -> admissible e s -> kbd_reachable (default d (kbd_step e s)).
Proof.
  intros Hr Ha. destruct (kbd_step_runs e s (kbd_reachable_wf s Hr) Ha) as (s' & E & _).
  rewrite E. by apply (kr_step e s).
Qed.

(** C8: Every sequence of port accesses, key strokes, motions and resets keeps the
    keyboard controller and its two devices well formed: registers and
    buffer bytes within 8 bits, buffer indices within the buffer, device
    settings within their ranges; the pending bits tell which device has a
    byte waiting, the status register shows it, and both interrupt lines are
    at the level the mode register asks for; and no access, key stroke, motion
    or reset fails in such a state. *)
Theorem kbd_controller_invariant s :
  kbd_reachable s ->
  kbd_wf s /\ (forall e, admissible e s -> exists s', kbd_step e s = Some s').
Proof.
  intros Hr. pose proof (kbd_reachable_wf s Hr) as Hs. split; [done |].
  intros e Ha. destruct (kbd_step_runs e s Hs Ha) as (s' & E & _). by exists s'.
Qed.

(** The controller after a reset and a key stroke *)
Definition sample_kbd : KBDState := default i8042_initfn (kbd_step (Key 0x1e) (i8042_reset i8042_initfn)).

Lemma kbd_reachable_reset : kbd_reachable (i8042_reset i8042_initfn).
Proof. apply (kr_step Reset i8042_initfn); [constructor | exact I | reflexivity]. Qed.

Lemma sample_kbd_reachable : kbd_reachable sample_kbd.
Proof. apply kbd_reachable_default; [apply kbd_reachable_reset | exact I]. Qed.

Lemma kbd_controller_invariant_witness :
  kbd_wf sample_kbd /\ (forall e, admissible e sample_kbd -> exists s', kbd_step e sample_kbd = Some s').
Proof. apply (kbd_controller_invariant sample_kbd sample_kbd_reachable). Defined.

(** ** What the guest reads *)

Abbreviation kbd_bytes s := (waiting (common (kbd s))).
Abbreviation mouse_bytes s := (waiting (mcommon (mouse s))).

Lemma level_empty c : level c = 0 <-> waiting c = [].
Proof. unfold level. case_bool_decide; cbn; split; congruence. Qed.

(** One read of the data port *)
Lemma read_data_order s :
  kbd_wf s ->
  exists v s', kbd_read_data s = Some (v, s') /\ kbd_wf s' /\
    match kbd_bytes s, mouse_bytes s with
    | w :: ks, ms => v = w /\ kbd_bytes s' = ks /\ mouse_bytes s' = ms
    | [], w :: ms => v = w /\ kbd_bytes s' = [] /\ mouse_bytes s' = ms
    | [], [] => kbd_bytes s' = [] /\ mouse_bytes s' = []
    end.
Proof.
  intros Hs. pose proof (w_pending _ Hs) as Hp. unfold pending_of in Hp.
  pose proof (level_empty (common (kbd s))) as Lk. pose proof (level_empty (mcommon (mouse s))) as Lm.
  destruct (level_bool (common (kbd s))) as [Ek | Ek], (level_bool (mcommon (mouse s))) as [Em | Em].
  all: unfold kbd_read_data; rewrite Hp, Ek, Em; change KBD_PENDING_AUX with 2; cbn [Z.eqb Pos.eqb Z.add Z.mul Pos.add Pos.mul].
  2: { destruct (read_step _ (mw_queue _ (w_mouse _ Hs))) as (v & c & -> & Hst & _ & _ & Ht & Hh).
       bind_step. eexists v, _. split; [reflexivity |].
       split; [apply after_mouse_wf; [done | apply set_mcommon_wf; [apply Hs | apply Hst] | done] |].
       destruct (after_mouse_devs (set_mcommon c s.(mouse)) s) as [-> ->]. cbn [mcommon set_mcommon].
       change (waiting (drain c)) with (waiting c). rewrite Ht, (proj1 Lk Ek).
       destruct (mouse_bytes s) as [| w ms]; [by rewrite (proj2 Lm eq_refl) in Em |].
       split; [by apply Hh | done]. }
  all: destruct (read_step _ (kw_queue _ (w_kbd _ Hs))) as (v & c & -> & Hst & _ & _ & Ht & Hh);
    bind_step; eexists v, _; (split; [reflexivity |]);
    (split; [apply after_kbd_wf; [done | destruct (w_kbd _ Hs); by constructor; [apply Hst | ..] | done] |]);
    destruct (after_kbd_devs (set_common c s.(kbd)) s) as [-> ->]; cbn [common set_common];
    change (waiting (drain c)) with (waiting c); rewrite Ht;
    (destruct (kbd_bytes s) as [| w ks];
       [try (by rewrite (proj2 Lk eq_refl) in Ek) | split; [by apply Hh | done]]).
  rewrite (proj1 Lm Em). done.
Qed.

Fixpoint read_bytes (n : nat) (s : KBDState) : option (list Z * KBDState) :=
  match n with
  | O => Some ([], s)
  | S n =>
      '(v, s) ← kbd_read_data s;
      '(vs, s) ← read_bytes n s;
      Some (v :: vs, s)
  end.

(** C28: Reading the data port as often as bytes are waiting gives the bytes of the
    keyboard in the order they were sent, then those of the mouse in theirs,
    none lost or repeated; then the output buffer reads as empty and both
    interrupt lines are low. *)
Theorem kbd_read_in_order s :
  kbd_reachable s ->
  exists s', read_bytes (length (kbd_bytes s) + length (mouse_bytes s)) s =
      Some (kbd_bytes s ++ mouse_bytes s, s') /\
    kbd_bytes s' = [] /\ mouse_bytes s' = [] /\
    Z.testbit (kbd_read_status s') 0 = false /\ line 1 s'.(irqs) = 0 /\ line 12 s'.(irqs) = 0.
Proof.
  intros Hr. apply kbd_reachable_wf in Hr as Hs. clear Hr.
  remember (length (kbd_bytes s) + length (mouse_bytes s))%nat as n eqn:En.
  revert s Hs En. induction n as [| n IH]; intros s Hs En.
  - destruct (kbd_bytes s) eqn:Ek; [| done]. destruct (mouse_bytes s) eqn:Em; [| done].
    assert (Hp : s.(pending) = 0).
    { rewrite (w_pending _ Hs). unfold pending_of.
      by rewrite (proj2 (level_empty _) Ek), (proj2 (level_empty _) Em). }
    destruct (w_signals _ Hs) as [H0 _ H1 H12]. exists s. split_and!; [done | done | done | | |].
    + unfold kbd_read_status. by rewrite H0, Hp.
    + rewrite H1. unfold irq_kbd_level. by rewrite Hp.
    + rewrite H12. unfold irq_mouse_level. by rewrite Hp.
  - destruct (read_data_order s Hs) as (v & s1 & E1 & Hs1 & Ho). cbn [read_bytes]. rewrite E1. bind_step.
    destruct (kbd_bytes s) as [| w ks] eqn:Ek; [destruct (mouse_bytes s) as [| w ms] eqn:Em; [done |] |];
      destruct Ho as (-> & Ek1 & Em1); cbn [length] in En;
      (destruct (IH s1 Hs1) as (s2 & E2 & Hs2); [rewrite Ek1, Em1; cbn [length]; lia |]);
      rewrite Ek1, Em1 in E2; rewrite E2; bind_step; by exists s2.
Qed.

Lemma kbd_read_in_order_witness :
  exists s', read_bytes 1 sample_kbd = Some ([0x1e], s') /\
    kbd_bytes s' = [] /\ mouse_bytes s' = [] /\
    Z.testbit (kbd_read_status s') 0 = false /\ line 1 s'.(irqs) = 0 /\ line 12 s'.(irqs) = 0.
Proof. apply (kbd_read_in_order sample_kbd sample_kbd_reachable). Defined.

(** ** The output port and A20 *)

(** The A20 line follows the output port: every write of the port and both
    commands drive it to bit 1 of the port, and a write of the port with bit 0
    clear asks for a reset. *)
Lemma a20_follows_outport s l v :
  s.(a20_out) = Some l -> s.(ctl_cmd) = KBD_CCMD_WRITE_OUTPORT -> in_u 8 v ->
  exists s', kbd_write_data v s = Some s' /\ s'.(outport) = v /\
    s'.(a20_out) = Some (Z.b2z (Z.testbit v 1) :: l) /\
    s'.(resets) = (if Z.testbit v 0 then s.(resets) else S s.(resets)).
Proof.
  intros Ha Hc Hv. unfold kbd_write_data. rewrite Hc.
  change (KBD_CCMD_WRITE_OUTPORT =? 0) with false.
  change (KBD_CCMD_WRITE_OUTPORT =? KBD_CCMD_WRITE_MODE) with false.
  change (KBD_CCMD_WRITE_OUTPORT =? KBD_CCMD_WRITE_OBUF) with false.
  change (KBD_CCMD_WRITE_OUTPORT =? KBD_CCMD_WRITE_AUX_OBUF) with false.
  change (KBD_CCMD_WRITE_OUTPORT =? KBD_CCMD_WRITE_OUTPORT) with true. cbv iota. bind_step.
  eexists. split; [reflexivity |]. unfold outport_write, set_a20. cbn [a20_out set_outport]. rewrite Ha.
  change (Z.land v 1) with (Z.land v (Z.shiftl 1 0)).
  rewrite (c_true_land_bit v 0) by lia. rewrite (wrap_small 8 v Hv).
  assert (E1 : Z.land (Z.shiftr v 1) 1 = Z.b2z (Z.testbit v 1)).
  { rewrite land_1, Z.testbit_spec', Z.shiftr_div_pow2 by lia. done. }
  rewrite E1. destruct (Z.testbit v 0); done.
Qed.

(** ** The half-written command *)

(** A reset does not forget the first byte of a two-byte command, which takes
    the next data byte although the reset machine did not send it. *)
Lemma after_kbd_cmd k s : (after_kbd k s).(ctl_cmd) = s.(ctl_cmd).
Proof. exact (f_equal (fun f => f.1.1.1.1.1.1) (calls_frame 1 _ _)). Qed.

Lemma after_mouse_cmd m s : (after_mouse m s).(ctl_cmd) = s.(ctl_cmd).
Proof. exact (f_equal (fun f => f.1.1.1.1.1.1) (calls_frame 2 _ _)). Qed.

Lemma reset_cmd s : (kbd_reset s).(ctl_cmd) = s.(ctl_cmd).
Proof. done. Qed.

Lemma reset_keeps_command s : (i8042_reset s).(ctl_cmd) = s.(ctl_cmd).
Proof. unfold i8042_reset. cbv zeta. by rewrite reset_cmd, after_mouse_cmd, after_kbd_cmd. Qed.

(** ** A key stroke raises line 1 *)

Lemma update_irq_irqs s :
  (kbd_update_irq s).(irqs) = (12, irq_mouse_level s) :: (1, irq_kbd_level s) :: s.(irqs).
Proof.
  unfold kbd_update_irq. cbn [pending set_status set_outport].
  by destruct (c_true (pending s)); [destruct (pending s =? KBD_PENDING_AUX) |].
Qed.

Lemma key_raises k s :
  kbd_wf s -> s.(pending) = 0 -> c_true s.(kbd).(translate) = true ->
  Z.testbit s.(mode) 0 = true -> Z.testbit s.(mode) 4 = false ->
  exists s', with_kbd (ps2_put_keycode k) s = Some s' /\ kbd_wf s' /\
    s'.(irqs) = (12, 0) :: (1, 1) :: s.(irqs) /\ s'.(a20_out) = s.(a20_out) /\
    kbd_bytes s' = [wrap 8 k] /\ mouse_bytes s' = [].
Proof.
  intros Hs H0 Ht Hm0 Hm4.
  assert (Hl : level s.(kbd).(common) = 0 /\ level s.(mouse).(mcommon) = 0).
  { rewrite (w_pending _ Hs) in H0. unfold pending_of in H0.
    destruct (level_bool s.(kbd).(common)), (level_bool s.(mouse).(mcommon)); lia. }
  destruct Hl as [Hk%level_empty Hmo%level_empty].
  pose proof (kw_queue _ (w_kbd _ Hs)) as Hq.
  destruct (ps2_queue_ok k s.(kbd).(common) Hq) as (q & u & E & Hq' & Hc & Hu).
  unfold waiting in Hk. rewrite Hk in Hc, Hu. unfold spec_push in Hc.
  rewrite decide_True in Hc, Hu by (cbn; lia). cbn [app] in Hc.
  unfold with_kbd, ps2_put_keycode. rewrite Ht. cbn [negb andb]. unfold kput. rewrite E. do 2 bind_step.
  set (c := mkPS2 q _ _). eexists. split; [reflexivity |].
  assert (Hstep : pstep s.(kbd).(common) c).
  { split; [done |]. exists u. split; [done |]. rewrite Hu. unfold level, waiting. cbn [queue c].
    by rewrite Hc. }
  split; [apply after_kbd_wf; [done | destruct (w_kbd _ Hs); by constructor | done] |].
  destruct (after_kbd_devs (set_common c s.(kbd)) s) as [Ek Em]. rewrite Ek, Em.
  split; [| split; [exact (f_equal (fun f => f.1.1.2) (calls_frame 1 _ _)) | split; [exact Hc | done]]].
  unfold after_kbd, calls. cbn [common set_common c update]. rewrite Hu, (w_kbd_calls _ Hs).
  cbn [app foldr]. unfold kbd_update_kbd_irq, update_pending. rewrite update_irq_irqs.
  cbn [pending set_pending set_kbd irqs c_true Z.eqb negb]. rewrite H0.
  unfold irq_kbd_level, irq_mouse_level. cbn [pending mode set_pending set_kbd].
  change KBD_MODE_KBD_INT with (Z.shiftl 1 0). change KBD_MODE_DISABLE_KBD with (Z.shiftl 1 4).
  rewrite !c_true_land_bit, Hm0, Hm4 by lia. done.
Qed.
