(* ===== verification/Pcspk.v ===== *)
(** * The PC speaker (qemu/hw/pcspk.c) and port 92 (qemu/hw/pc.c)

    Port 0x61 gates counter 2 of the interval timer and reads its output; the
    audio callback plays a square wave of the counter's frequency from a
    buffer of 1792 samples.  The audio system is a parameter: [AUD_write n b]
    is the number of bytes its [n]th call takes of [b].  Port 0x92 is a second
    way to drive the A20 line and to reset the machine.  [None] is undefined
    behaviour: a division by zero or an access outside the buffer.

    Theorems: for every count of the timer the buffer holds whole periods of a
    square wave of the counter's frequency, so the callback neither divides by
    zero nor leaves the buffer, it ends, and what it plays continues the wave
    where the last call stopped. *)

From Stdlib Require Import ZArith Lia.
From stdpp Require Import base option numbers list.
From S2P Require Import Prelude HostUtils I8254.

Local Open Scope Z_scope.

(** ** State *)

Definition PCSPK_BUF_LEN : Z := 1792.
Definition PCSPK_SAMPLE_RATE : Z := 32000.
Definition PCSPK_MAX_FREQ : Z := Z.shiftr PCSPK_SAMPLE_RATE 1.
Definition PCSPK_MIN_COUNT : Z := (PIT_FREQ + PCSPK_MAX_FREQ - 1) / PCSPK_MAX_FREQ.

(** The speaker; [voice] tells whether an output was opened, [active] records
    the calls of [AUD_set_active_out], latest first. *)
Record PCSpkState := mkSpk {
  sample_buf : list Z;
  voice : bool;
  pit_count : Z;
  samples : Z;
  play_pos : Z;
  data_on : Z;
  dummy_refresh_clock : Z;
  active : list Z
}.

Definition set_sample_buf (v : list Z) (s : PCSpkState) : PCSpkState :=
  mkSpk v s.(voice) s.(pit_count) s.(samples) s.(play_pos) s.(data_on)
    s.(dummy_refresh_clock) s.(active).
Definition set_voice (v : bool) (s : PCSpkState) : PCSpkState :=
  mkSpk s.(sample_buf) v s.(pit_count) s.(samples) s.(play_pos) s.(data_on)
    s.(dummy_refresh_clock) s.(active).
Definition set_pit_count (v : Z) (s : PCSpkState) : PCSpkState :=
  mkSpk s.(sample_buf) s.(voice) v s.(samples) s.(play_pos) s.(data_on)
    s.(dummy_refresh_clock) s.(active).
Definition set_samples (v : Z) (s : PCSpkState) : PCSpkState :=
  mkSpk s.(sample_buf) s.(voice) s.(pit_count) v s.(play_pos) s.(data_on)
    s.(dummy_refresh_clock) s.(active).
Definition set_play_pos (v : Z) (s : PCSpkState) : PCSpkState :=
  mkSpk s.(sample_buf) s.(voice) s.(pit_count) s.(samples) v s.(data_on)
    s.(dummy_refresh_clock) s.(active).
Definition set_data_on (v : Z) (s : PCSpkState) : PCSpkState :=
  mkSpk s.(sample_buf) s.(voice) s.(pit_count) s.(samples) s.(play_pos) v
    s.(dummy_refresh_clock) s.(active).
Definition set_dummy_refresh_clock (v : Z) (s : PCSpkState) : PCSpkState :=
  mkSpk s.(sample_buf) s.(voice) s.(pit_count) s.(samples) s.(play_pos) s.(data_on) v
    s.(active).
Definition set_active (v : list Z) (s : PCSpkState) : PCSpkState :=
  mkSpk s.(sample_buf) s.(voice) s.(pit_count) s.(samples) s.(play_pos) s.(data_on)
    s.(dummy_refresh_clock) v.

(** The static state: zero, and no output opened *)
Definition pcspk_state : PCSpkState := mkSpk (replicate 1792 0) false 0 0 0 0 0 [].

Definition pcspk_audio_init (opened : bool) (s : PCSpkState) : Z * PCSpkState :=
  let s := set_voice opened s in (if opened then 0 else -1, s).

(** ** The wave *)

(** [sample_buf[i] = v] for the first [n] indices *)
Definition fill (n : Z) (f : Z -> Z) (b : list Z) : option (list Z) :=
  if n <=? Z.of_nat (length b) then
    Some ((f ∘ Z.of_nat <$> seq 0 (Z.to_nat n)) ++ drop (Z.to_nat n) b)
  else None.

Definition wave_sample (n i : Z) : Z :=
  wrap 8 (Z.land 64 (Z.shiftr (wrap 32 (n * i)) 25) - 32).

Definition generate_samples (s : PCSpkState) : option PCSpkState :=
  if c_true s.(pit_count) then
    let m := wrap 32 (PCSPK_SAMPLE_RATE * s.(pit_count)) in
    if m =? 0 then None
    else
      let n := wrap 32 (Z.shiftl PIT_FREQ 32 / m) in
      let k := Z.shiftr
                 (wrap 32 (wrap 32 (PCSPK_BUF_LEN * PIT_FREQ / m * m) / Z.shiftr PIT_FREQ 1 + 1)) 1 in
      b ← fill k (wave_sample n) s.(sample_buf);
      Some (set_sample_buf b (set_samples k s))
  else
    b ← fill PCSPK_BUF_LEN (fun _ => 128) s.(sample_buf);
    Some (set_sample_buf b (set_samples PCSPK_BUF_LEN s)).

Section audio.
Context (AUD_write : nat -> list Z -> Z).

(** The loop of [pcspk_callback]; the bytes the audio system took *)
Fixpoint play (fuel : nat) (call : nat) (free : Z) (s : PCSpkState) : option (list Z * PCSpkState) :=
  match fuel with
  | O => None
  | S fuel =>
      if 0 <? free then
        let n := Z.min (wrap 32 (s.(samples) - s.(play_pos))) free in
        if (s.(play_pos) + n <=? Z.of_nat (length s.(sample_buf))) then
          let b := take (Z.to_nat n) (drop (Z.to_nat s.(play_pos)) s.(sample_buf)) in
          let n := AUD_write call b in
          if n =? 0 then Some ([], s)
          else if s.(samples) =? 0 then None
          else
            '(out, s) ← play fuel (S call) (free - n)
                          (set_play_pos ((s.(play_pos) + n) mod s.(samples)) s);
            Some (take (Z.to_nat n) b ++ out, s)
        else None
      else Some ([], s)
  end.

Definition pcspk_callback (pit : PITState) (free : Z) (s : PCSpkState)
    : option (list Z * PCSpkState) :=
  mode ← pit_get_mode pit 2;
  if negb (mode =? 3) then Some ([], s)
  else
    n ← pit_get_initial_count pit 2;
    let n := if n <? PCSPK_MIN_COUNT then 0 else n in
    s ← (if negb (s.(pit_count) =? n)
         then generate_samples (set_play_pos 0 (set_pit_count n s)) else Some s);
    play (S (Z.to_nat free)) 0 free s.
End audio.

(** ** The port *)

Definition pcspk_ioport_read (pit : PITState) (now : Z) (s : PCSpkState) : option (Z * PCSpkState) :=
  let s := set_dummy_refresh_clock (Z.lxor s.(dummy_refresh_clock) (Z.shiftl 1 4)) s in
  out ← pit_get_out pit 2 now;
  gate ← pit_get_gate pit 2;
  Some (Z.lor (Z.lor (Z.lor gate (Z.shiftl s.(data_on) 1)) s.(dummy_refresh_clock))
          (Z.shiftl out 5), s).

Definition pcspk_ioport_write (val : Z) (pit : PITState) (now : Z) (s : PCSpkState)
    : option (PITState * PCSpkState) :=
  let gate := Z.land val 1 in
  let s := set_data_on (Z.land (Z.shiftr val 1) 1) s in
  pit ← pit_set_gate pit 2 gate now;
  Some (pit,
    if s.(voice) then
      let s := if c_true gate then set_play_pos 0 s else s in
      set_active (Z.land gate s.(data_on) :: s.(active)) s
    else s).

(** ** Port 92: the register, with the level it drives on the A20 line and
    whether it asks for a reset *)

Definition port92_write (val : Z) : Z * Z * bool :=
  (wrap 8 val, Z.land (Z.shiftr val 1) 1, c_true (Z.land val 1)).

Definition port92_reset (outport : Z) : Z := Z.land outport (Z.lnot 1).

(** ** The wave fits *)

Lemma wave_length c :
  PCSPK_MIN_COUNT <= c <= 0x10000 ->
  let m := wrap 32 (PCSPK_SAMPLE_RATE * c) in
  let k := Z.shiftr
             (wrap 32 (wrap 32 (PCSPK_BUF_LEN * PIT_FREQ / m * m) / Z.shiftr PIT_FREQ 1 + 1)) 1 in
  m = PCSPK_SAMPLE_RATE * c /\ m <> 0 /\ 1 <= k <= PCSPK_BUF_LEN /\
  exists q, 1 <= q /\ 2 * Z.abs (k * PIT_FREQ - q * m) <= PIT_FREQ.
Proof.
  change PCSPK_MIN_COUNT with 75. unfold PCSPK_SAMPLE_RATE, PCSPK_BUF_LEN, PIT_FREQ. intros Hc.
  change (Z.shiftr 1193182 1) with 596591. change (1792 * 1193182) with 2138182144. cbv zeta.
  rewrite (wrap_small 32 (32000 * c)) by (split; lia). set (m := 32000 * c).
  assert (Hm : 2400000 <= m <= 2097152000) by lia.
  pose proof (Z.div_mod 2138182144 m ltac:(lia)). pose proof (Z.mod_pos_bound 2138182144 m ltac:(lia)).
  set (q := 2138182144 / m) in *. replace (q * m) with (m * q) by lia.
  rewrite (wrap_small 32 (m * q)) by (split; lia).
  pose proof (Z.div_mod (m * q) 596591 ltac:(lia)). pose proof (Z.mod_pos_bound (m * q) 596591 ltac:(lia)).
  set (r := m * q / 596591) in *.
  assert (Hr : 68 <= r <= 3584) by lia.
  rewrite wrap_small by (split; lia). rewrite Z.shiftr_div_pow2 by lia. change (2 ^ 1) with 2.
  split; [done |]. split; [lia |]. split; [Z.to_euclidean_division_equations; lia |].
  exists q. split; [apply Z.div_le_lower_bound; lia |].
  pose proof (Z.div_mod (r + 1) 2 ltac:(lia)). pose proof (Z.mod_pos_bound (r + 1) 2 ltac:(lia)). lia.
Qed.

(** The buffer is a square wave of a counter that starts at [c]: it holds a whole
    number of periods to half a sample, and sample [i] is low in the first half
    of the period and high in the second, for a phase [x], in parts of [2 ^ 32] of a
    period, that is at most [i] parts behind. *)
Definition square_wave (c : Z) (s : PCSpkState) : Prop :=
  let m := PCSPK_SAMPLE_RATE * c in
  (exists q, 1 <= q /\ 2 * Z.abs (s.(samples) * PIT_FREQ - q * m) <= PIT_FREQ) /\
  forall i, 0 <= i < s.(samples) -> exists x,
    x * m <= 2 ^ 32 * PIT_FREQ * i < (x + Z.max 1 i) * m /\
    s.(sample_buf) !! Z.to_nat i = Some (if x mod 2 ^ 32 <? 2 ^ 31 then 224 else 32).

Definition silence (s : PCSpkState) : Prop :=
  s.(samples) = 0 \/
  s.(samples) = PCSPK_BUF_LEN /\ forall i, 0 <= i < PCSPK_BUF_LEN -> s.(sample_buf) !! Z.to_nat i = Some 128.

(** The buffer goes with the count it was made for. *)
Definition in_tune (s : PCSpkState) : Prop :=
  if s.(pit_count) =? 0 then silence s else square_wave s.(pit_count) s.

Record spk_wf (s : PCSpkState) : Prop := {
  sw_buf : length s.(sample_buf) = 1792%nat;
  sw_samples : 0 <= s.(samples) <= PCSPK_BUF_LEN;
  sw_pos : 0 <= s.(play_pos) /\ (s.(play_pos) < s.(samples) \/ s.(samples) = 0 /\ s.(play_pos) = 0);
  sw_tune : in_tune s
}.

Lemma wave_sample_level n i : wave_sample n i = if (n * i) mod 2 ^ 32 <? 2 ^ 31 then 224 else 32.
Proof.
  unfold wave_sample. rewrite Z.land_comm. change 64 with (Z.shiftl 1 6) at 1.
  assert (Hy : 0 <= wrap 32 (n * i) < 2 ^ 32) by (apply (wrap_in_u 32); lia).
  change ((n * i) mod 2 ^ 32) with (wrap 32 (n * i)). set (y := wrap 32 (n * i)) in *. clearbody y.
  assert (Hb : Z.testbit (Z.shiftr y 25) 6 = negb (y <? 2 ^ 31)).
  { rewrite Z.shiftr_spec by lia. change (6 + 25) with 31. rewrite Z.testbit_odd, Z.shiftr_div_pow2 by lia.
    destruct (Z.ltb_spec y (2 ^ 31)); cbn [negb].
    - by rewrite Z.div_small by lia.
    - replace (y / 2 ^ 31) with 1; [done |]. apply (Z.div_unique _ _ _ (y - 2 ^ 31)); lia. }
  assert (Z.land (Z.shiftr y 25) (Z.shiftl 1 6) = if y <? 2 ^ 31 then 0 else 64) as ->; [| by destruct (y <? 2 ^ 31)].
  apply Z.bits_inj'. intros j Hj. rewrite Z.land_spec, Z.shiftl_spec by lia.
  destruct (decide (j = 6)) as [-> | Hne].
  - rewrite Hb. by destruct (y <? 2 ^ 31).
  - assert (Z.testbit 1 (j - 6) = false) as ->.
    { destruct (decide (j < 6)); [apply Z.testbit_neg_r; lia |]. apply Z.bits_above_log2; cbn; lia. }
    rewrite andb_false_r. destruct (y <? 2 ^ 31); [by rewrite Z.bits_0 |].
    change 64 with (2 ^ 6). by rewrite Z.pow2_bits_false by lia.
Qed.

(** The phase that [n] per sample gives *)
Lemma wave_phase m i :
  2400000 <= m -> 0 <= i -> let n := wrap 32 (Z.shiftl PIT_FREQ 32 / m) in
  n * i * m <= 2 ^ 32 * PIT_FREQ * i < (n * i + Z.max 1 i) * m.
Proof.
  intros Hm Hi. rewrite Z.shiftl_mul_pow2 by lia. cbv zeta. set (F := PIT_FREQ * 2 ^ 32).
  pose proof (Z.div_mod F m ltac:(lia)). pose proof (Z.mod_pos_bound F m ltac:(lia)).
  assert (0 <= F / m < 2 ^ 32).
  { split; [apply Z.div_pos; unfold F, PIT_FREQ; lia |]. apply Z.div_lt_upper_bound; unfold F, PIT_FREQ; lia. }
  rewrite wrap_small by done. replace (2 ^ 32 * PIT_FREQ * i) with (F * i) by (unfold F; lia).
  set (n := F / m) in *. clearbody n F. nia.
Qed.

Lemma fill_ok n f b :
  0 <= n <= Z.of_nat (length b) ->
  exists b', fill n f b = Some b' /\ length b' = length b /\
    forall i, 0 <= i < n -> b' !! Z.to_nat i = Some (f i).
Proof.
  intros Hn. unfold fill. rewrite (proj2 (Z.leb_le _ _)) by lia. eexists. split; [reflexivity |]. split.
  - rewrite length_app, length_fmap, length_seq, length_drop. lia.
  - intros i Hi. rewrite lookup_app_l by (rewrite length_fmap, length_seq; lia).
    rewrite list_lookup_fmap, lookup_seq_lt by lia. cbn. by rewrite Z2Nat.id by lia.
Qed.

(** The buffer after the wave is generated *)
Lemma generate_samples_ok s :
  length s.(sample_buf) = 1792%nat -> s.(play_pos) = 0 ->
  s.(pit_count) = 0 \/ PCSPK_MIN_COUNT <= s.(pit_count) <= 0x10000 ->
  exists s', generate_samples s = Some s' /\ spk_wf s' /\ s'.(pit_count) = s.(pit_count) /\
    s'.(play_pos) = 0 /\ 1 <= s'.(samples).
Proof.
  intros Hb H0 Hc. unfold generate_samples. destruct Hc as [E | Hc].
  - rewrite E. cbn [c_true Z.eqb negb].
    destruct (fill_ok PCSPK_BUF_LEN (fun _ => 128) s.(sample_buf)) as (b & -> & Hl & Hf);
      [unfold PCSPK_BUF_LEN; lia |]. bind_step.
    eexists. split; [reflexivity |]. split_and!; [| done | done | by unfold PCSPK_BUF_LEN].
    constructor; cbn [sample_buf samples play_pos set_sample_buf set_samples]; unfold PCSPK_BUF_LEN in *; [lia.. |].
    unfold in_tune. cbn [pit_count set_sample_buf set_samples]. rewrite E. right. by split.
  - destruct (wave_length _ Hc) as (Hmc & Hm & Hk & Hq).
    rewrite (proj2 (c_true_nonzero _)) by (change PCSPK_MIN_COUNT with 75 in Hc; lia).
    cbv zeta. rewrite (proj2 (Z.eqb_neq _ _) Hm). rewrite Hmc in *.
    set (k := Z.shiftr _ 1) in *.
    edestruct (fill_ok k) as (b & -> & Hl & Hf); [rewrite Hb; unfold PCSPK_BUF_LEN in Hk; lia |].
    bind_step. eexists. split; [reflexivity |].
    cbn [pit_count play_pos samples set_sample_buf set_samples].
    split_and!; [| done | done | lia]. clearbody k.
    constructor; cbn [sample_buf samples play_pos set_sample_buf set_samples]; [lia | lia | lia |].
    unfold in_tune. cbn [pit_count set_sample_buf set_samples].
    change PCSPK_MIN_COUNT with 75 in Hc. rewrite (proj2 (Z.eqb_neq _ 0)) by lia. split; [done |].
    intros i Hi. cbn [samples sample_buf set_sample_buf set_samples] in *. rewrite Hf by done.
    eexists. split; [apply wave_phase; unfold PCSPK_SAMPLE_RATE; lia |]. by rewrite wave_sample_level.
Qed.

(** ** Playing *)

Section playing.
Context (AUD_write : nat -> list Z -> Z).
(** [AUD_write] takes a part of what it is offered. *)
Hypothesis AUD_write_part : forall k b, 0 <= AUD_write k b <= Z.of_nat (length b).

(** The wave repeated for ever, from position [p] *)
Definition wave_at (s : PCSpkState) (p : Z) : Z :=
  default 0 (s.(sample_buf) !! Z.to_nat (p mod s.(samples))).

Definition continues (s : PCSpkState) (out : list Z) : Prop :=
  forall i v, out !! i = Some v -> v = wave_at s (s.(play_pos) + Z.of_nat i).

Lemma continues_app s n b out :
  0 < s.(samples) -> 0 <= s.(play_pos) < s.(samples) -> n = Z.of_nat (length b) ->
  continues s b -> continues (set_play_pos ((s.(play_pos) + n) mod s.(samples)) s) out ->
  continues s (b ++ out).
Proof.
  intros Hs Hp -> Hb Ho i v Hi. destruct (decide (i < length b)%nat) as [Hlt | Hge].
  - rewrite lookup_app_l in Hi by done. by apply Hb.
  - rewrite lookup_app_r in Hi by lia. apply Ho in Hi. rewrite Hi. unfold wave_at. cbn.
    rewrite Zplus_mod_idemp_l. do 3 f_equal. f_equal. lia.
Qed.

Lemma set_play_pos_id s : set_play_pos s.(play_pos) s = s.
Proof. by destruct s. Qed.

(** The position after [n] samples *)
Definition advanced (n : nat) (s : PCSpkState) : PCSpkState :=
  set_play_pos ((s.(play_pos) + Z.of_nat n) mod s.(samples)) s.

Lemma advanced_0 s : spk_wf s -> advanced 0 s = s.
Proof.
  intros [_ _ [H0 H1] _]. unfold advanced. rewrite Z.add_0_r.
  assert (s.(play_pos) mod s.(samples) = s.(play_pos)) as ->; [| apply set_play_pos_id].
  destruct H1 as [H1 | [-> ->]]; [by apply Z.mod_small | done].
Qed.

Lemma advanced_add n k s : advanced n (advanced k s) = advanced (k + n) s.
Proof.
  unfold advanced. cbn. rewrite Zplus_mod_idemp_l, Nat2Z.inj_add, Z.add_assoc. done.
Qed.

Lemma play_ok fuel call free s :
  spk_wf s -> Z.max 0 free < Z.of_nat fuel ->
  exists out, play AUD_write fuel call free s = Some (out, advanced (length out) s) /\
    spk_wf (advanced (length out) s) /\ continues s out /\ Z.of_nat (length out) <= Z.max 0 free.
Proof using AUD_write_part.
  revert call free s. induction fuel as [| fuel IH]; intros call free s Hs Hf; [lia |]. cbn [play].
  assert (Hstop : exists out, Some ([], s) = Some (out, advanced (length out) s) /\
    spk_wf (advanced (length out) s) /\ continues s out /\ Z.of_nat (length out) <= Z.max 0 free).
  { exists []. cbn [length]. rewrite advanced_0 by done. split_and!; [done | done | done | cbn; lia]. }
  destruct (Z.ltb_spec 0 free) as [Hfree |]; [| done].
  pose proof Hs as [Hb Hsam [Hp0 Hp] Htune]. unfold PCSPK_BUF_LEN in Hsam.
  rewrite (wrap_small 32) by (split; lia). set (n := Z.min (s.(samples) - s.(play_pos)) free).
  assert (Hn : 0 <= n <= s.(samples) - s.(play_pos)) by lia.
  rewrite (proj2 (Z.leb_le _ _)) by lia. set (b := take _ _).
  assert (Hlb : Z.of_nat (length b) = n).
  { unfold b. rewrite length_take, length_drop. lia. }
  pose proof (AUD_write_part call b) as Hw. set (w := AUD_write call b) in *.
  destruct (Z.eqb_spec w 0) as [| Hw0]; [done |].
  rewrite (proj2 (Z.eqb_neq s.(samples) 0)) by lia.
  assert (Hlw : length (take (Z.to_nat w) b) = Z.to_nat w) by (rewrite length_take; lia).
  set (s1 := set_play_pos ((s.(play_pos) + w) mod s.(samples)) s).
  assert (E1 : s1 = advanced (length (take (Z.to_nat w) b)) s) by (unfold advanced; by rewrite Hlw, Z2Nat.id by lia).
  assert (Hs1 : spk_wf s1).
  { constructor; cbn; [done | done | | done].
    pose proof (Z.mod_pos_bound (s.(play_pos) + w) s.(samples) ltac:(lia)). lia. }
  destruct (IH (S call) (free - w) s1 Hs1 ltac:(lia)) as (out & -> & Hs2 & Hc & Hl). bind_step.
  rewrite E1, advanced_add, <- length_app in *.
  exists (take (Z.to_nat w) b ++ out). split_and!; [done | done | | rewrite length_app, Hlw; lia].
  apply (continues_app s w); [lia | lia | lia | | rewrite <- E1 in Hc; exact Hc].
  intros i v Hi. pose proof (lookup_lt_Some _ _ _ Hi) as Hlt. rewrite Hlw in Hlt.
  rewrite lookup_take_lt in Hi by lia. unfold b in Hi. rewrite lookup_take_lt, lookup_drop in Hi by lia.
  unfold wave_at. rewrite Z.mod_small by lia.
  replace (Z.to_nat (s.(play_pos) + Z.of_nat i)) with (Z.to_nat s.(play_pos) + i)%nat by lia.
  by rewrite Hi.
Qed.

(** The state the callback plays from: as it was, or, when the count of the
    counter changed, with a new buffer and from its start.  The buffer goes with
    the count; above half the sample rate it is silence. *)
Definition tuned (pit : PITState) (s s' : PCSpkState) : Prop :=
  exists ch, pit !! 2%nat = Some ch /\
    s'.(pit_count) = (if ch.(count) <? PCSPK_MIN_COUNT then 0 else ch.(count)) /\
    (s'.(pit_count) = s.(pit_count) -> s' = s) /\
    (s'.(pit_count) <> s.(pit_count) -> s'.(play_pos) = 0 /\ 1 <= s'.(samples)) /\
    spk_wf s' /\ in_tune s'.

(** C38: For every setting of the timer's counter 2 and every audio system that
    takes a part of what it is offered, the audio callback ends, divides by
    no zero and reads and writes inside the sample buffer, and hands over at most
    the space asked for.  The buffer holds whole periods, to half a sample, of the
    square wave of the counter's frequency (silence if that is too high to play).
    While the count is unchanged, what is handed over continues the wave at the
    position where the last call stopped, and the position moves on by as many
    samples as the audio system took; a new count starts its wave at the
    beginning. *)
Theorem pcspk_callback_gapless pit free s :
  pit_wf pit -> spk_wf s ->
  exists out s', pcspk_callback AUD_write pit free s = Some (out, s') /\ spk_wf s' /\
    Z.of_nat (length out) <= Z.max 0 free /\
    (pit_get_mode pit 2 = Some 3 ->
     exists s1, tuned pit s s1 /\ s' = advanced (length out) s1 /\ continues s1 out).
Proof using AUD_write_part.
  intros [Hlen Hch] Hs. destruct pit as [| c0 [| c1 [| ch []]]]; try done.
  apply Forall_cons in Hch as [_ Hch]. apply Forall_cons in Hch as [_ Hch].
  apply Forall_cons in Hch as [Hch _]. pose proof (wf_count _ Hch) as Hcount.
  unfold pcspk_callback. cbn [pit_get_mode pit_get_initial_count pit_field Z.ltb Z.compare].
  change (mode <$> [c0; c1; ch] !! Z.to_nat 2) with (Some ch.(mode)).
  change (count <$> [c0; c1; ch] !! Z.to_nat 2) with (Some ch.(count)). bind_step.
  destruct (Z.eqb_spec ch.(mode) 3) as [Em | Em]; cbn [negb].
  2: { exists [], s. split_and!; [done | done | cbn; lia | congruence]. }
  bind_step. set (n := if ch.(count) <? PCSPK_MIN_COUNT then 0 else ch.(count)).
  assert (Hn : n = 0 \/ PCSPK_MIN_COUNT <= n <= 0x10000).
  { unfold n. destruct (Z.ltb_spec ch.(count) PCSPK_MIN_COUNT); [by left | right; lia]. }
  assert (Htuned : exists s1, (if negb (s.(pit_count) =? n)
      then generate_samples (set_play_pos 0 (set_pit_count n s)) else Some s) = Some s1 /\
      tuned [c0; c1; ch] s s1).
  { destruct (Z.eqb_spec s.(pit_count) n) as [E | E]; cbn [negb].
    - exists s. split; [done |]. exists ch. rewrite E. split_and!; [done.. | apply Hs].
    - destruct (generate_samples_ok (set_play_pos 0 (set_pit_count n s))) as (s1 & E1 & Hs1 & Hc1 & Hp1 & Hk1);
        [apply Hs | done | exact Hn |].
      exists s1. split; [done |]. exists ch. cbn in Hc1. split_and!; [done | exact Hc1 | | done | done | apply Hs1].
      intros Heq. congruence. }
  destruct Htuned as (s1 & -> & Ht). bind_step. pose proof Ht as (ch' & _ & _ & _ & _ & Hs1 & _).
  destruct (play_ok (S (Z.to_nat free)) 0 free s1 Hs1 ltac:(lia)) as (out & -> & Hs2 & Hc & Hl).
  exists out, (advanced (length out) s1). split_and!; [done | done | done |]. intros _. by exists s1.
Qed.
End playing.

(** A counter at 1 kHz, and an audio system that takes what it is offered *)
Definition sample_pit : PITState :=
  let ch := mkChannel 1193 0 0 0 0 0 0 0 0 3 0 1 0 0 None [] in [ch; ch; ch].

Lemma sample_pit_wf : pit_wf sample_pit.
Proof.
  split; [done |]. repeat constructor; cbn; try lia; split; lia.
Qed.

Lemma pcspk_state_wf : spk_wf pcspk_state.
Proof. constructor; [done | cbn; unfold PCSPK_BUF_LEN; lia | cbn; lia | by left]. Qed.

Lemma pcspk_callback_gapless_witness :
  exists out s', pcspk_callback (fun _ b => Z.of_nat (length b)) sample_pit 100 pcspk_state = Some (out, s') /\
    spk_wf s' /\ Z.of_nat (length out) <= Z.max 0 100 /\
    exists s1, tuned sample_pit pcspk_state s1 /\ s' = advanced (length out) s1 /\ continues s1 out.
Proof.
  destruct (pcspk_callback_gapless (fun _ b => Z.of_nat (length b))) with (pit := sample_pit) (free := 100)
    (s := pcspk_state) as (out & s' & E & Hw & Hl & Hm).
  - intros _ b. lia.
  - apply sample_pit_wf.
  - apply pcspk_state_wf.
  - exists out, s'. split; [exact E |]. split; [exact Hw |]. split; [exact Hl |]. by apply Hm.
Defined.
