(* ===== verification/Serial.v ===== *)
(** * The serial port (qemu/hw/serial.c)

    The 16550A UART: registers, the two FIFOs, interrupts, loopback, modem
    status, the three timers, break, reset, and the port and memory-mapped
    access functions.  The character device behind the port is a parameter
    ([CharDriver]): it is written to and asked for and told line parameters.
    [qemu_chr_accept_input], which lets the device send more, is the last thing
    a read does; what it may send is a following [serial_receive1].

    An access outside a FIFO or a division by zero gives [None].

    Theorems: no operation fails in a reachable state, where the transmitter is
    always empty and the line and the interrupt register show the most urgent
    cause that is present and enabled; bytes go out once and in order, to the
    device or in loopback to the receiver; the receive FIFO is a queue of sixteen
    bytes that reports what it loses; a byte from outside interrupts the
    processor, at the trigger level or after the timeout. *)

From Stdlib Require Import ZArith Lia.
From stdpp Require Import base option numbers list.
From S2P Require Import Prelude Irq I8259.

Local Open Scope Z_scope.

Definition UART_LCR_DLAB : Z := 0x80.
Definition UART_IER_MSI : Z := 0x08.
Definition UART_IER_RLSI : Z := 0x04.
Definition UART_IER_THRI : Z := 0x02.
Definition UART_IER_RDI : Z := 0x01.
Definition UART_IIR_NO_INT : Z := 0x01.
Definition UART_IIR_ID : Z := 0x06.
Definition UART_IIR_MSI : Z := 0x00.
Definition UART_IIR_THRI : Z := 0x02.
Definition UART_IIR_RDI : Z := 0x04.
Definition UART_IIR_RLSI : Z := 0x06.
Definition UART_IIR_CTI : Z := 0x0C.
Definition UART_IIR_FENF : Z := 0x80.
Definition UART_IIR_FE : Z := 0xC0.
Definition UART_MCR_LOOP : Z := 0x10.
Definition UART_MCR_OUT2 : Z := 0x08.
Definition UART_MCR_OUT1 : Z := 0x04.
Definition UART_MCR_RTS : Z := 0x02.
Definition UART_MCR_DTR : Z := 0x01.
Definition UART_MSR_DCD : Z := 0x80.
Definition UART_MSR_RI : Z := 0x40.
Definition UART_MSR_DSR : Z := 0x20.
Definition UART_MSR_CTS : Z := 0x10.
Definition UART_MSR_DDCD : Z := 0x08.
Definition UART_MSR_TERI : Z := 0x04.
Definition UART_MSR_DDSR : Z := 0x02.
Definition UART_MSR_DCTS : Z := 0x01.
Definition UART_MSR_ANY_DELTA : Z := 0x0F.
Definition UART_LSR_TEMT : Z := 0x40.
Definition UART_LSR_THRE : Z := 0x20.
Definition UART_LSR_BI : Z := 0x10.
Definition UART_LSR_FE : Z := 0x08.
Definition UART_LSR_PE : Z := 0x04.
Definition UART_LSR_OE : Z := 0x02.
Definition UART_LSR_DR : Z := 0x01.
Definition UART_LSR_INT_ANY : Z := 0x1E.
Definition UART_FCR_ITL_1 : Z := 0x00.
Definition UART_FCR_ITL_2 : Z := 0x40.
Definition UART_FCR_ITL_3 : Z := 0x80.
Definition UART_FCR_ITL_4 : Z := 0xC0.
Definition UART_FCR_DMS : Z := 0x08.
Definition UART_FCR_XFR : Z := 0x04.
Definition UART_FCR_RFR : Z := 0x02.
Definition UART_FCR_FE : Z := 0x01.
Definition UART_FIFO_LENGTH : Z := 16.
Definition XMIT_FIFO : Z := 0.
Definition RECV_FIFO : Z := 1.
Definition MAX_XMIT_RETRY : Z := 4.
Definition CHR_EVENT_BREAK : Z := 0.
Definition CHR_TIOCM_CTS : Z := 0x020.
Definition CHR_TIOCM_CAR : Z := 0x040.
Definition CHR_TIOCM_DSR : Z := 0x100.
Definition CHR_TIOCM_RI : Z := 0x080.
Definition CHR_TIOCM_DTR : Z := 0x002.
Definition CHR_TIOCM_RTS : Z := 0x004.

(** [get_ticks_per_sec()] *)
Definition ticks_per_sec : Z := 1000000000.

(** The line parameters of [QEMUSerialSetParams] *)
Record QEMUSerialSetParams := mkParams { speed : Z; parity : Z; data_bits : Z; stop_bits : Z }.

(** What the port uses of the character device: [qemu_chr_write] of one byte
    with its result, and the requests of [qemu_chr_ioctl].  Asking for the modem
    lines says whether the device knows them, and what the variable for them
    holds afterwards. *)
Record CharDriver (C : Type) := mkChr {
  chr_write : Z -> C -> Z * C;
  chr_set_params : QEMUSerialSetParams -> C -> C;
  chr_set_break : Z -> C -> C;
  chr_get_tiocm : C -> bool * Z;
  chr_set_tiocm : Z -> C -> C
}.
Arguments mkChr {_}.
Arguments chr_write {_}.
Arguments chr_set_params {_}.
Arguments chr_set_break {_}.
Arguments chr_get_tiocm {_}.
Arguments chr_set_tiocm {_}.

(** [struct SerialFIFO] *)
Record SerialFIFO := mkFIFO {
  f_data : list Z;
  f_count : Z;
  f_itl : Z;
  f_tail : Z;
  f_head : Z
}.

Definition set_f_data (v : list Z) (s : SerialFIFO) : SerialFIFO :=
  mkFIFO v s.(f_count) s.(f_itl) s.(f_tail) s.(f_head).
Definition set_f_count (v : Z) (s : SerialFIFO) : SerialFIFO :=
  mkFIFO s.(f_data) v s.(f_itl) s.(f_tail) s.(f_head).
Definition set_f_itl (v : Z) (s : SerialFIFO) : SerialFIFO :=
  mkFIFO s.(f_data) s.(f_count) v s.(f_tail) s.(f_head).
Definition set_f_tail (v : Z) (s : SerialFIFO) : SerialFIFO :=
  mkFIFO s.(f_data) s.(f_count) s.(f_itl) v s.(f_head).
Definition set_f_head (v : Z) (s : SerialFIFO) : SerialFIFO :=
  mkFIFO s.(f_data) s.(f_count) s.(f_itl) s.(f_tail) v.

Section Serial.
Context {C : Type} (drv : CharDriver C).

(** [struct SerialState]: [irq] has the levels driven on the line, latest first, [chr]
    is the state of the character device, and a timer is the time it is armed for. *)
Record SerialState := mkSerial {
  divider : Z;
  rbr : Z;
  thr : Z;
  tsr : Z;
  ier : Z;
  iir : Z;
  lcr : Z;
  mcr : Z;
  lsr : Z;
  msr : Z;
  scr : Z;
  fcr : Z;
  fcr_vmstate : Z;
  thr_ipending : Z;
  irq : list Z;
  chr : C;
  last_break_enable : Z;
  it_shift : Z;
  baudbase : Z;
  tsr_retry : Z;
  last_xmit_ts : Z;
  recv_fifo : SerialFIFO;
  xmit_fifo : SerialFIFO;
  fifo_timeout_timer : option Z;
  timeout_ipending : Z;
  transmit_timer : option Z;
  char_transmit_time : Z;
  poll_msl : Z;
  modem_status_poll : option Z
}.

Definition set_divider (v : Z) (s : SerialState) : SerialState :=
  mkSerial v s.(rbr) s.(thr) s.(tsr) s.(ier) s.(iir) s.(lcr) s.(mcr) s.(lsr) s.(msr)
    s.(scr) s.(fcr) s.(fcr_vmstate) s.(thr_ipending) s.(irq) s.(chr) s.(last_break_enable)
    s.(it_shift) s.(baudbase) s.(tsr_retry) s.(last_xmit_ts) s.(recv_fifo) s.(xmit_fifo)
    s.(fifo_timeout_timer) s.(timeout_ipending) s.(transmit_timer) s.(char_transmit_time)
    s.(poll_msl) s.(modem_status_poll).
Definition set_rbr (v : Z) (s : SerialState) : SerialState :=
  mkSerial s.(divider) v s.(thr) s.(tsr) s.(ier) s.(iir) s.(lcr) s.(mcr) s.(lsr) s.(msr)
    s.(scr) s.(fcr) s.(fcr_vmstate) s.(thr_ipending) s.(irq) s.(chr) s.(last_break_enable)
    s.(it_shift) s.(baudbase) s.(tsr_retry) s.(last_xmit_ts) s.(recv_fifo) s.(xmit_fifo)
    s.(fifo_timeout_timer) s.(timeout_ipending) s.(transmit_timer) s.(char_transmit_time)
    s.(poll_msl) s.(modem_status_poll).
Definition set_thr (v : Z) (s : SerialState) : SerialState :=
  mkSerial s.(divider) s.(rbr) v s.(tsr) s.(ier) s.(iir) s.(lcr) s.(mcr) s.(lsr) s.(msr)
    s.(scr) s.(fcr) s.(fcr_vmstate) s.(thr_ipending) s.(irq) s.(chr) s.(last_break_enable)
    s.(it_shift) s.(baudbase) s.(tsr_retry) s.(last_xmit_ts) s.(recv_fifo) s.(xmit_fifo)
    s.(fifo_timeout_timer) s.(timeout_ipending) s.(transmit_timer) s.(char_transmit_time)
    s.(poll_msl) s.(modem_status_poll).
Definition set_tsr (v : Z) (s : SerialState) : SerialState :=
  mkSerial s.(divider) s.(rbr) s.(thr) v s.(ier) s.(iir) s.(lcr) s.(mcr) s.(lsr) s.(msr)
    s.(scr) s.(fcr) s.(fcr_vmstate) s.(thr_ipending) s.(irq) s.(chr) s.(last_break_enable)
    s.(it_shift) s.(baudbase) s.(tsr_retry) s.(last_xmit_ts) s.(recv_fifo) s.(xmit_fifo)
    s.(fifo_timeout_timer) s.(timeout_ipending) s.(transmit_timer) s.(char_transmit_time)
    s.(poll_msl) s.(modem_status_poll).
Definition set_ier (v : Z) (s : SerialState) : SerialState :=
  mkSerial s.(divider) s.(rbr) s.(thr) s.(tsr) v s.(iir) s.(lcr) s.(mcr) s.(lsr) s.(msr)
    s.(scr) s.(fcr) s.(fcr_vmstate) s.(thr_ipending) s.(irq) s.(chr) s.(last_break_enable)
    s.(it_shift) s.(baudbase) s.(tsr_retry) s.(last_xmit_ts) s.(recv_fifo) s.(xmit_fifo)
    s.(fifo_timeout_timer) s.(timeout_ipending) s.(transmit_timer) s.(char_transmit_time)
    s.(poll_msl) s.(modem_status_poll).
Definition set_iir (v : Z) (s : SerialState) : SerialState :=
  mkSerial s.(divider) s.(rbr) s.(thr) s.(tsr) s.(ier) v s.(lcr) s.(mcr) s.(lsr) s.(msr)
    s.(scr) s.(fcr) s.(fcr_vmstate) s.(thr_ipending) s.(irq) s.(chr) s.(last_break_enable)
    s.(it_shift) s.(baudbase) s.(tsr_retry) s.(last_xmit_ts) s.(recv_fifo) s.(xmit_fifo)
    s.(fifo_timeout_timer) s.(timeout_ipending) s.(transmit_timer) s.(char_transmit_time)
    s.(poll_msl) s.(modem_status_poll).
Definition set_lcr (v : Z) (s : SerialState) : SerialState :=
  mkSerial s.(divider) s.(rbr) s.(thr) s.(tsr) s.(ier) s.(iir) v s.(mcr) s.(lsr) s.(msr)
    s.(scr) s.(fcr) s.(fcr_vmstate) s.(thr_ipending) s.(irq) s.(chr) s.(last_break_enable)
    s.(it_shift) s.(baudbase) s.(tsr_retry) s.(last_xmit_ts) s.(recv_fifo) s.(xmit_fifo)
    s.(fifo_timeout_timer) s.(timeout_ipending) s.(transmit_timer) s.(char_transmit_time)
    s.(poll_msl) s.(modem_status_poll).
Definition set_mcr (v : Z) (s : SerialState) : SerialState :=
  mkSerial s.(divider) s.(rbr) s.(thr) s.(tsr) s.(ier) s.(iir) s.(lcr) v s.(lsr) s.(msr)
    s.(scr) s.(fcr) s.(fcr_vmstate) s.(thr_ipending) s.(irq) s.(chr) s.(last_break_enable)
    s.(it_shift) s.(baudbase) s.(tsr_retry) s.(last_xmit_ts) s.(recv_fifo) s.(xmit_fifo)
    s.(fifo_timeout_timer) s.(timeout_ipending) s.(transmit_timer) s.(char_transmit_time)
    s.(poll_msl) s.(modem_status_poll).
Definition set_lsr (v : Z) (s : SerialState) : SerialState :=
  mkSerial s.(divider) s.(rbr) s.(thr) s.(tsr) s.(ier) s.(iir) s.(lcr) s.(mcr) v s.(msr)
    s.(scr) s.(fcr) s.(fcr_vmstate) s.(thr_ipending) s.(irq) s.(chr) s.(last_break_enable)
    s.(it_shift) s.(baudbase) s.(tsr_retry) s.(last_xmit_ts) s.(recv_fifo) s.(xmit_fifo)
    s.(fifo_timeout_timer) s.(timeout_ipending) s.(transmit_timer) s.(char_transmit_time)
    s.(poll_msl) s.(modem_status_poll).
Definition set_msr (v : Z) (s : SerialState) : SerialState :=
  mkSerial s.(divider) s.(rbr) s.(thr) s.(tsr) s.(ier) s.(iir) s.(lcr) s.(mcr) s.(lsr) v
    s.(scr) s.(fcr) s.(fcr_vmstate) s.(thr_ipending) s.(irq) s.(chr) s.(last_break_enable)
    s.(it_shift) s.(baudbase) s.(tsr_retry) s.(last_xmit_ts) s.(recv_fifo) s.(xmit_fifo)
    s.(fifo_timeout_timer) s.(timeout_ipending) s.(transmit_timer) s.(char_transmit_time)
    s.(poll_msl) s.(modem_status_poll).
Definition set_scr (v : Z) (s : SerialState) : SerialState :=
  mkSerial s.(divider) s.(rbr) s.(thr) s.(tsr) s.(ier) s.(iir) s.(lcr) s.(mcr) s.(lsr)
    s.(msr) v s.(fcr) s.(fcr_vmstate) s.(thr_ipending) s.(irq) s.(chr)
    s.(last_break_enable) s.(it_shift) s.(baudbase) s.(tsr_retry) s.(last_xmit_ts)
    s.(recv_fifo) s.(xmit_fifo) s.(fifo_timeout_timer) s.(timeout_ipending)
    s.(transmit_timer) s.(char_transmit_time) s.(poll_msl) s.(modem_status_poll).
Definition set_fcr (v : Z) (s : SerialState) : SerialState :=
  mkSerial s.(divider) s.(rbr) s.(thr) s.(tsr) s.(ier) s.(iir) s.(lcr) s.(mcr) s.(lsr)
    s.(msr) s.(scr) v s.(fcr_vmstate) s.(thr_ipending) s.(irq) s.(chr)
    s.(last_break_enable) s.(it_shift) s.(baudbase) s.(tsr_retry) s.(last_xmit_ts)
    s.(recv_fifo) s.(xmit_fifo) s.(fifo_timeout_timer) s.(timeout_ipending)
    s.(transmit_timer) s.(char_transmit_time) s.(poll_msl) s.(modem_status_poll).
Definition set_fcr_vmstate (v : Z) (s : SerialState) : SerialState :=
  mkSerial s.(divider) s.(rbr) s.(thr) s.(tsr) s.(ier) s.(iir) s.(lcr) s.(mcr) s.(lsr)
    s.(msr) s.(scr) s.(fcr) v s.(thr_ipending) s.(irq) s.(chr) s.(last_break_enable)
    s.(it_shift) s.(baudbase) s.(tsr_retry) s.(last_xmit_ts) s.(recv_fifo) s.(xmit_fifo)
    s.(fifo_timeout_timer) s.(timeout_ipending) s.(transmit_timer) s.(char_transmit_time)
    s.(poll_msl) s.(modem_status_poll).
Definition set_thr_ipending (v : Z) (s : SerialState) : SerialState :=
  mkSerial s.(divider) s.(rbr) s.(thr) s.(tsr) s.(ier) s.(iir) s.(lcr) s.(mcr) s.(lsr)
    s.(msr) s.(scr) s.(fcr) s.(fcr_vmstate) v s.(irq) s.(chr) s.(last_break_enable)
    s.(it_shift) s.(baudbase) s.(tsr_retry) s.(last_xmit_ts) s.(recv_fifo) s.(xmit_fifo)
    s.(fifo_timeout_timer) s.(timeout_ipending) s.(transmit_timer) s.(char_transmit_time)
    s.(poll_msl) s.(modem_status_poll).
Definition set_irq (v : list Z) (s : SerialState) : SerialState :=
  mkSerial s.(divider) s.(rbr) s.(thr) s.(tsr) s.(ier) s.(iir) s.(lcr) s.(mcr) s.(lsr)
    s.(msr) s.(scr) s.(fcr) s.(fcr_vmstate) s.(thr_ipending) v s.(chr)
    s.(last_break_enable) s.(it_shift) s.(baudbase) s.(tsr_retry) s.(last_xmit_ts)
    s.(recv_fifo) s.(xmit_fifo) s.(fifo_timeout_timer) s.(timeout_ipending)
    s.(transmit_timer) s.(char_transmit_time) s.(poll_msl) s.(modem_status_poll).
Definition set_chr (v : C) (s : SerialState) : SerialState :=
  mkSerial s.(divider) s.(rbr) s.(thr) s.(tsr) s.(ier) s.(iir) s.(lcr) s.(mcr) s.(lsr)
    s.(msr) s.(scr) s.(fcr) s.(fcr_vmstate) s.(thr_ipending) s.(irq) v
    s.(last_break_enable) s.(it_shift) s.(baudbase) s.(tsr_retry) s.(last_xmit_ts)
    s.(recv_fifo) s.(xmit_fifo) s.(fifo_timeout_timer) s.(timeout_ipending)
    s.(transmit_timer) s.(char_transmit_time) s.(poll_msl) s.(modem_status_poll).
Definition set_last_break_enable (v : Z) (s : SerialState) : SerialState :=
  mkSerial s.(divider) s.(rbr) s.(thr) s.(tsr) s.(ier) s.(iir) s.(lcr) s.(mcr) s.(lsr)
    s.(msr) s.(scr) s.(fcr) s.(fcr_vmstate) s.(thr_ipending) s.(irq) s.(chr) v
    s.(it_shift) s.(baudbase) s.(tsr_retry) s.(last_xmit_ts) s.(recv_fifo) s.(xmit_fifo)
    s.(fifo_timeout_timer) s.(timeout_ipending) s.(transmit_timer) s.(char_transmit_time)
    s.(poll_msl) s.(modem_status_poll).
Definition set_it_shift (v : Z) (s : SerialState) : SerialState :=
  mkSerial s.(divider) s.(rbr) s.(thr) s.(tsr) s.(ier) s.(iir) s.(lcr) s.(mcr) s.(lsr)
    s.(msr) s.(scr) s.(fcr) s.(fcr_vmstate) s.(thr_ipending) s.(irq) s.(chr)
    s.(last_break_enable) v s.(baudbase) s.(tsr_retry) s.(last_xmit_ts) s.(recv_fifo)
    s.(xmit_fifo) s.(fifo_timeout_timer) s.(timeout_ipending) s.(transmit_timer)
    s.(char_transmit_time) s.(poll_msl) s.(modem_status_poll).
Definition set_baudbase (v : Z) (s : SerialState) : SerialState :=
  mkSerial s.(divider) s.(rbr) s.(thr) s.(tsr) s.(ier) s.(iir) s.(lcr) s.(mcr) s.(lsr)
    s.(msr) s.(scr) s.(fcr) s.(fcr_vmstate) s.(thr_ipending) s.(irq) s.(chr)
    s.(last_break_enable) s.(it_shift) v s.(tsr_retry) s.(last_xmit_ts) s.(recv_fifo)
    s.(xmit_fifo) s.(fifo_timeout_timer) s.(timeout_ipending) s.(transmit_timer)
    s.(char_transmit_time) s.(poll_msl) s.(modem_status_poll).
Definition set_tsr_retry (v : Z) (s : SerialState) : SerialState :=
  mkSerial s.(divider) s.(rbr) s.(thr) s.(tsr) s.(ier) s.(iir) s.(lcr) s.(mcr) s.(lsr)
    s.(msr) s.(scr) s.(fcr) s.(fcr_vmstate) s.(thr_ipending) s.(irq) s.(chr)
    s.(last_break_enable) s.(it_shift) s.(baudbase) v s.(last_xmit_ts) s.(recv_fifo)
    s.(xmit_fifo) s.(fifo_timeout_timer) s.(timeout_ipending) s.(transmit_timer)
    s.(char_transmit_time) s.(poll_msl) s.(modem_status_poll).
Definition set_last_xmit_ts (v : Z) (s : SerialState) : SerialState :=
  mkSerial s.(divider) s.(rbr) s.(thr) s.(tsr) s.(ier) s.(iir) s.(lcr) s.(mcr) s.(lsr)
    s.(msr) s.(scr) s.(fcr) s.(fcr_vmstate) s.(thr_ipending) s.(irq) s.(chr)
    s.(last_break_enable) s.(it_shift) s.(baudbase) s.(tsr_retry) v s.(recv_fifo)
    s.(xmit_fifo) s.(fifo_timeout_timer) s.(timeout_ipending) s.(transmit_timer)
    s.(char_transmit_time) s.(poll_msl) s.(modem_status_poll).
Definition set_recv_fifo (v : SerialFIFO) (s : SerialState) : SerialState :=
  mkSerial s.(divider) s.(rbr) s.(thr) s.(tsr) s.(ier) s.(iir) s.(lcr) s.(mcr) s.(lsr)
    s.(msr) s.(scr) s.(fcr) s.(fcr_vmstate) s.(thr_ipending) s.(irq) s.(chr)
    s.(last_break_enable) s.(it_shift) s.(baudbase) s.(tsr_retry) s.(last_xmit_ts) v
    s.(xmit_fifo) s.(fifo_timeout_timer) s.(timeout_ipending) s.(transmit_timer)
    s.(char_transmit_time) s.(poll_msl) s.(modem_status_poll).
Definition set_xmit_fifo (v : SerialFIFO) (s : SerialState) : SerialState :=
  mkSerial s.(divider) s.(rbr) s.(thr) s.(tsr) s.(ier) s.(iir) s.(lcr) s.(mcr) s.(lsr)
    s.(msr) s.(scr) s.(fcr) s.(fcr_vmstate) s.(thr_ipending) s.(irq) s.(chr)
    s.(last_break_enable) s.(it_shift) s.(baudbase) s.(tsr_retry) s.(last_xmit_ts)
    s.(recv_fifo) v s.(fifo_timeout_timer) s.(timeout_ipending) s.(transmit_timer)
    s.(char_transmit_time) s.(poll_msl) s.(modem_status_poll).
Definition set_fifo_timeout_timer (v : option Z) (s : SerialState) : SerialState :=
  mkSerial s.(divider) s.(rbr) s.(thr) s.(tsr) s.(ier) s.(iir) s.(lcr) s.(mcr) s.(lsr)
    s.(msr) s.(scr) s.(fcr) s.(fcr_vmstate) s.(thr_ipending) s.(irq) s.(chr)
    s.(last_break_enable) s.(it_shift) s.(baudbase) s.(tsr_retry) s.(last_xmit_ts)
    s.(recv_fifo) s.(xmit_fifo) v s.(timeout_ipending) s.(transmit_timer)
    s.(char_transmit_time) s.(poll_msl) s.(modem_status_poll).
Definition set_timeout_ipending (v : Z) (s : SerialState) : SerialState :=
  mkSerial s.(divider) s.(rbr) s.(thr) s.(tsr) s.(ier) s.(iir) s.(lcr) s.(mcr) s.(lsr)
    s.(msr) s.(scr) s.(fcr) s.(fcr_vmstate) s.(thr_ipending) s.(irq) s.(chr)
    s.(last_break_enable) s.(it_shift) s.(baudbase) s.(tsr_retry) s.(last_xmit_ts)
    s.(recv_fifo) s.(xmit_fifo) s.(fifo_timeout_timer) v s.(transmit_timer)
    s.(char_transmit_time) s.(poll_msl) s.(modem_status_poll).
Definition set_transmit_timer (v : option Z) (s : SerialState) : SerialState :=
  mkSerial s.(divider) s.(rbr) s.(thr) s.(tsr) s.(ier) s.(iir) s.(lcr) s.(mcr) s.(lsr)
    s.(msr) s.(scr) s.(fcr) s.(fcr_vmstate) s.(thr_ipending) s.(irq) s.(chr)
    s.(last_break_enable) s.(it_shift) s.(baudbase) s.(tsr_retry) s.(last_xmit_ts)
    s.(recv_fifo) s.(xmit_fifo) s.(fifo_timeout_timer) s.(timeout_ipending) v
    s.(char_transmit_time) s.(poll_msl) s.(modem_status_poll).
Definition set_char_transmit_time (v : Z) (s : SerialState) : SerialState :=
  mkSerial s.(divider) s.(rbr) s.(thr) s.(tsr) s.(ier) s.(iir) s.(lcr) s.(mcr) s.(lsr)
    s.(msr) s.(scr) s.(fcr) s.(fcr_vmstate) s.(thr_ipending) s.(irq) s.(chr)
    s.(last_break_enable) s.(it_shift) s.(baudbase) s.(tsr_retry) s.(last_xmit_ts)
    s.(recv_fifo) s.(xmit_fifo) s.(fifo_timeout_timer) s.(timeout_ipending)
    s.(transmit_timer) v s.(poll_msl) s.(modem_status_poll).
Definition set_poll_msl (v : Z) (s : SerialState) : SerialState :=
  mkSerial s.(divider) s.(rbr) s.(thr) s.(tsr) s.(ier) s.(iir) s.(lcr) s.(mcr) s.(lsr)
    s.(msr) s.(scr) s.(fcr) s.(fcr_vmstate) s.(thr_ipending) s.(irq) s.(chr)
    s.(last_break_enable) s.(it_shift) s.(baudbase) s.(tsr_retry) s.(last_xmit_ts)
    s.(recv_fifo) s.(xmit_fifo) s.(fifo_timeout_timer) s.(timeout_ipending)
    s.(transmit_timer) s.(char_transmit_time) v s.(modem_status_poll).
Definition set_modem_status_poll (v : option Z) (s : SerialState) : SerialState :=
  mkSerial s.(divider) s.(rbr) s.(thr) s.(tsr) s.(ier) s.(iir) s.(lcr) s.(mcr) s.(lsr)
    s.(msr) s.(scr) s.(fcr) s.(fcr_vmstate) s.(thr_ipending) s.(irq) s.(chr)
    s.(last_break_enable) s.(it_shift) s.(baudbase) s.(tsr_retry) s.(last_xmit_ts)
    s.(recv_fifo) s.(xmit_fifo) s.(fifo_timeout_timer) s.(timeout_ipending)
    s.(transmit_timer) s.(char_transmit_time) s.(poll_msl) v.

(** ** The FIFOs *)

Definition get_fifo (fifo : Z) (s : SerialState) : SerialFIFO :=
  if fifo =? XMIT_FIFO then s.(xmit_fifo) else s.(recv_fifo).
Definition set_fifo (fifo : Z) (f : SerialFIFO) (s : SerialState) : SerialState :=
  if fifo =? XMIT_FIFO then set_xmit_fifo f s else set_recv_fifo f s.

Definition fifo_clear (fifo : Z) (s : SerialState) : SerialState :=
  let f := get_fifo fifo s in
  set_fifo fifo (mkFIFO (replicate 16 0) 0 f.(f_itl) 0 0) s.

Definition next_index (i : Z) : Z :=
  let i := wrap 8 (i + 1) in if i =? UART_FIFO_LENGTH then 0 else i.

Definition fifo_put (fifo c : Z) (s : SerialState) : option SerialState :=
  let f := get_fifo fifo s in
  f ← (if (fifo =? XMIT_FIFO) || (f.(f_count) <? UART_FIFO_LENGTH) then
         if f.(f_head) <? UART_FIFO_LENGTH then
           Some (mkFIFO (<[Z.to_nat f.(f_head) := c]> f.(f_data)) f.(f_count) f.(f_itl) f.(f_tail)
                   (next_index f.(f_head)))
         else None
       else Some f);
  Some (if f.(f_count) <? UART_FIFO_LENGTH then set_fifo fifo (set_f_count (f.(f_count) + 1) f) s
        else
          let s := set_fifo fifo f s in
          if fifo =? RECV_FIFO then set_lsr (Z.lor s.(lsr) UART_LSR_OE) s else s).

Definition fifo_get (fifo : Z) (s : SerialState) : option (Z * SerialState) :=
  let f := get_fifo fifo s in
  if f.(f_count) =? 0 then Some (0, s)
  else
    c ← f.(f_data) !! Z.to_nat f.(f_tail);
    Some (c, set_fifo fifo
      (mkFIFO f.(f_data) (f.(f_count) - 1) f.(f_itl) (next_index f.(f_tail)) f.(f_head)) s).

(** ** Interrupts *)

Definition flag (x mask : Z) : bool := c_true (Z.land x mask).

(** The most urgent enabled cause, as the interrupt register codes it *)
Definition tmp_iir (s : SerialState) : Z :=
    if flag s.(ier) UART_IER_RLSI && flag s.(lsr) UART_LSR_INT_ANY then UART_IIR_RLSI
    else if flag s.(ier) UART_IER_RDI && c_true s.(timeout_ipending) then UART_IIR_CTI
    else if flag s.(ier) UART_IER_RDI && flag s.(lsr) UART_LSR_DR &&
            (negb (flag s.(fcr) UART_FCR_FE) || (s.(recv_fifo).(f_itl) <=? s.(recv_fifo).(f_count)))
    then UART_IIR_RDI
    else if flag s.(ier) UART_IER_THRI && c_true s.(thr_ipending) then UART_IIR_THRI
    else if flag s.(ier) UART_IER_MSI && flag s.(msr) UART_MSR_ANY_DELTA then UART_IIR_MSI
    else UART_IIR_NO_INT.

Definition serial_update_irq (s : SerialState) : SerialState :=
  let tmp := tmp_iir s in
  let s := set_iir (Z.lor tmp (Z.land s.(iir) 0xF0)) s in
  set_irq (c_bool (negb (tmp =? UART_IIR_NO_INT)) :: s.(irq)) s.

Definition serial_update_parameters (s : SerialState) : option SerialState :=
  if s.(divider) =? 0 then Some s
  else
    let parity_bits := if flag s.(lcr) 0x08 then 1 else 0 in
    let parity := if flag s.(lcr) 0x08 then if flag s.(lcr) 0x10 then 69 else 79 else 78 in
    let stop_bits := if flag s.(lcr) 0x04 then 2 else 1 in
    let data_bits := Z.land s.(lcr) 0x03 + 5 in
    let frame_size := 1 + parity_bits + (data_bits + stop_bits) in
    let speed := s.(baudbase) `quot` s.(divider) in
    if speed =? 0 then None
    else
      let s := set_char_transmit_time (wrap 64 ((ticks_per_sec `quot` speed) * frame_size)) s in
      Some (set_chr (drv.(chr_set_params) (mkParams speed parity data_bits stop_bits) s.(chr)) s).

(** One modem line of [serial_update_msl] *)
Definition line_bit (flags tiocm bit msr : Z) : Z :=
  if flag flags tiocm then Z.lor msr bit else Z.land msr (Z.lnot bit).

Definition serial_update_msl (now : Z) (s : SerialState) : SerialState :=
  let s := set_modem_status_poll None s in
  let '(known, flags) := drv.(chr_get_tiocm) s.(chr) in
  if negb known then set_poll_msl (-1) s
  else
    let omsr := s.(msr) in
    let m := line_bit flags CHR_TIOCM_CTS UART_MSR_CTS omsr in
    let m := line_bit flags CHR_TIOCM_DSR UART_MSR_DSR m in
    let m := line_bit flags CHR_TIOCM_CAR UART_MSR_DCD m in
    let m := line_bit flags CHR_TIOCM_RI UART_MSR_RI m in
    let s :=
      if m =? omsr then set_msr m s
      else
        let m := Z.lor m (Z.lxor (Z.shiftr m 4) (Z.shiftr omsr 4)) in
        let m := if flag m UART_MSR_TERI && negb (flag omsr UART_MSR_RI)
                 then Z.land m (Z.lnot UART_MSR_TERI) else m in
        serial_update_irq (set_msr m s) in
    if c_true s.(poll_msl) then set_modem_status_poll (Some (now + ticks_per_sec / 100)) s else s.

(** ** Receiving and sending *)

Fixpoint put_all (l : list Z) (s : SerialState) : option SerialState :=
  match l with
  | [] => Some s
  | c :: l => s ← fifo_put RECV_FIFO c s; put_all l s
  end.

Definition serial_receive1 (now : Z) (buf : list Z) (s : SerialState) : option SerialState :=
  s ← (if flag s.(fcr) UART_FCR_FE then
         s ← put_all buf s;
         let s := set_lsr (Z.lor s.(lsr) UART_LSR_DR) s in
         Some (set_fifo_timeout_timer (Some (now + s.(char_transmit_time) * 4)) s)
       else
         let s := if flag s.(lsr) UART_LSR_DR then set_lsr (Z.lor s.(lsr) UART_LSR_OE) s else s in
         c ← buf !! 0%nat;
         let s := set_rbr c s in
         Some (set_lsr (Z.lor s.(lsr) UART_LSR_DR) s));
  Some (serial_update_irq s).

(** The transmit shift register is filled unless a byte is being retried. *)
Definition load_tsr (s : SerialState) : option SerialState :=
  if s.(tsr_retry) <=? 0 then
    if flag s.(fcr) UART_FCR_FE then
      '(c, s) ← fifo_get XMIT_FIFO s;
      let s := set_tsr c s in
      Some (if s.(xmit_fifo).(f_count) =? 0 then set_lsr (Z.lor s.(lsr) UART_LSR_THRE) s else s)
    else
      let s := set_tsr s.(thr) s in
      Some (set_lsr (Z.lor s.(lsr) UART_LSR_THRE) s)
  else Some s.

(** The end of [serial_xmit] *)
Definition xmit_done (now : Z) (s : SerialState) : SerialState :=
  let s := set_last_xmit_ts now s in
  let s := if flag s.(lsr) UART_LSR_THRE then s
           else set_transmit_timer (Some (s.(last_xmit_ts) + s.(char_transmit_time))) s in
  if flag s.(lsr) UART_LSR_THRE then
    serial_update_irq (set_thr_ipending 1 (set_lsr (Z.lor s.(lsr) UART_LSR_TEMT) s))
  else s.

Definition serial_xmit (now : Z) (s : SerialState) : option SerialState :=
  let new_xmit_ts := now in
  s ← load_tsr s;
  if flag s.(mcr) UART_MCR_LOOP then
    s ← serial_receive1 now [s.(tsr)] s;
    Some (xmit_done now s)
  else
    let '(ret, c) := drv.(chr_write) s.(tsr) s.(chr) in
    let s := set_chr c s in
    if negb (ret =? 1) then
      if (0 <? s.(tsr_retry)) && (s.(tsr_retry) <=? MAX_XMIT_RETRY) then
        let s := set_tsr_retry (s.(tsr_retry) + 1) s in
        Some (set_transmit_timer (Some (new_xmit_ts + s.(char_transmit_time))) s)
      else if s.(poll_msl) <? 0 then Some (xmit_done now (set_tsr_retry (-1) s))
      else Some (xmit_done now s)
    else Some (xmit_done now (set_tsr_retry 0 s)).

(** ** The registers *)

(** Writing the transmit register *)
Definition write_thr (now val : Z) (s : SerialState) : option SerialState :=
  let s := set_thr (wrap 8 val) s in
  s ← (if flag s.(fcr) UART_FCR_FE then
         s ← fifo_put XMIT_FIFO s.(thr) s;
         let s := set_thr_ipending 0 s in
         let s := set_lsr (Z.land s.(lsr) (Z.lnot UART_LSR_TEMT)) s in
         let s := set_lsr (Z.land s.(lsr) (Z.lnot UART_LSR_THRE)) s in
         Some (serial_update_irq s)
       else
         let s := set_thr_ipending 0 s in
         let s := set_lsr (Z.land s.(lsr) (Z.lnot UART_LSR_THRE)) s in
         Some (serial_update_irq s));
  serial_xmit now s.

Definition write_ier (now val : Z) (s : SerialState) : SerialState :=
  let s := set_ier (Z.land val 0x0f) s in
  let s :=
    if 0 <=? s.(poll_msl) then
      if flag s.(ier) UART_IER_MSI then serial_update_msl now (set_poll_msl 1 s)
      else set_poll_msl 0 (set_modem_status_poll None s)
    else s in
  if flag s.(lsr) UART_LSR_THRE then serial_update_irq (set_thr_ipending 1 s) else s.

(** The trigger level that the two upper bits of the FIFO register choose *)
Definition trigger_level (val : Z) : Z :=
  let v := Z.land val 0xC0 in
  if v =? UART_FCR_ITL_1 then 1
  else if v =? UART_FCR_ITL_2 then 4
  else if v =? UART_FCR_ITL_3 then 8
  else 14.

Definition write_fcr (val : Z) (s : SerialState) : SerialState :=
  let val := Z.land val 0xFF in
  if s.(fcr) =? val then s
  else
    let val := if flag (Z.lxor val s.(fcr)) UART_FCR_FE
               then Z.lor val (Z.lor UART_FCR_XFR UART_FCR_RFR) else val in
    let s := if flag val UART_FCR_RFR
             then fifo_clear RECV_FIFO (set_timeout_ipending 0 (set_fifo_timeout_timer None s)) else s in
    let s := if flag val UART_FCR_XFR then fifo_clear XMIT_FIFO s else s in
    let s :=
      if flag val UART_FCR_FE then
        let s := set_iir (Z.lor s.(iir) UART_IIR_FE) s in
        set_recv_fifo (set_f_itl (trigger_level val) s.(recv_fifo)) s
      else set_iir (Z.land s.(iir) (Z.lnot UART_IIR_FE)) s in
    serial_update_irq (set_fcr (Z.land val 0xC9) s).

Definition write_lcr (val : Z) (s : SerialState) : option SerialState :=
  s ← serial_update_parameters (set_lcr (wrap 8 val) s);
  let break_enable := Z.land (Z.shiftr val 6) 1 in
  Some (if break_enable =? s.(last_break_enable) then s
        else
          let s := set_last_break_enable break_enable s in
          set_chr (drv.(chr_set_break) break_enable s.(chr)) s).

Definition write_mcr (now val : Z) (s : SerialState) : SerialState :=
  let old_mcr := s.(mcr) in
  let s := set_mcr (Z.land val 0x1f) s in
  if flag val UART_MCR_LOOP then s
  else if (0 <=? s.(poll_msl)) && negb (old_mcr =? s.(mcr)) then
    let flags := (drv.(chr_get_tiocm) s.(chr)).2 in
    let flags := Z.land flags (Z.lnot (Z.lor CHR_TIOCM_RTS CHR_TIOCM_DTR)) in
    let flags := if flag val UART_MCR_RTS then Z.lor flags CHR_TIOCM_RTS else flags in
    let flags := if flag val UART_MCR_DTR then Z.lor flags CHR_TIOCM_DTR else flags in
    let s := set_chr (drv.(chr_set_tiocm) flags s.(chr)) s in
    set_modem_status_poll (Some (now + s.(char_transmit_time))) s
  else s.

Definition serial_ioport_write (now addr val : Z) (s : SerialState) : option SerialState :=
  let addr := Z.land addr 7 in
  if addr =? 1 then
    if flag s.(lcr) UART_LCR_DLAB
    then serial_update_parameters
           (set_divider (wrap 16 (Z.lor (Z.land s.(divider) 0x00ff) (Z.shiftl val 8))) s)
    else Some (write_ier now val s)
  else if addr =? 2 then Some (write_fcr val s)
  else if addr =? 3 then write_lcr val s
  else if addr =? 4 then Some (write_mcr now val s)
  else if (addr =? 5) || (addr =? 6) then Some s
  else if addr =? 7 then Some (set_scr (wrap 8 val) s)
  else if flag s.(lcr) UART_LCR_DLAB
  then serial_update_parameters (set_divider (wrap 16 (Z.lor (Z.land s.(divider) 0xff00) val)) s)
  else write_thr now val s.

(** Reading the receive register *)
Definition read_rbr (now : Z) (s : SerialState) : option (Z * SerialState) :=
  '(ret, s) ← (if flag s.(fcr) UART_FCR_FE then
      '(ret, s) ← fifo_get RECV_FIFO s;
      let s := if s.(recv_fifo).(f_count) =? 0
               then set_lsr (Z.land s.(lsr) (Z.lnot (Z.lor UART_LSR_DR UART_LSR_BI))) s
               else set_fifo_timeout_timer (Some (now + s.(char_transmit_time) * 4)) s in
      Some (ret, set_timeout_ipending 0 s)
    else Some (s.(rbr), set_lsr (Z.land s.(lsr) (Z.lnot (Z.lor UART_LSR_DR UART_LSR_BI))) s));
  Some (ret, serial_update_irq s).

(** Reading the modem status *)
Definition read_msr (now : Z) (s : SerialState) : Z * SerialState :=
  if flag s.(mcr) UART_MCR_LOOP then
    (Z.lor (Z.lor (Z.shiftl (Z.land s.(mcr) 0x0c) 4) (Z.shiftl (Z.land s.(mcr) 0x02) 3))
       (Z.shiftl (Z.land s.(mcr) 0x01) 5), s)
  else
    let s := if 0 <=? s.(poll_msl) then serial_update_msl now s else s in
    let ret := s.(msr) in
    (ret, if flag s.(msr) UART_MSR_ANY_DELTA
          then serial_update_irq (set_msr (Z.land s.(msr) 0xF0) s) else s).

Definition serial_ioport_read (now addr : Z) (s : SerialState) : option (Z * SerialState) :=
  let addr := Z.land addr 7 in
  if addr =? 1 then
    Some (if flag s.(lcr) UART_LCR_DLAB then Z.land (Z.shiftr s.(divider) 8) 0xff else s.(ier), s)
  else if addr =? 2 then
    let ret := s.(iir) in
    Some (ret, if Z.land ret UART_IIR_ID =? UART_IIR_THRI
               then serial_update_irq (set_thr_ipending 0 s) else s)
  else if addr =? 3 then Some (s.(lcr), s)
  else if addr =? 4 then Some (s.(mcr), s)
  else if addr =? 5 then
    let ret := s.(lsr) in
    Some (ret, if flag s.(lsr) (Z.lor UART_LSR_BI UART_LSR_OE)
               then serial_update_irq (set_lsr (Z.land s.(lsr) (Z.lnot (Z.lor UART_LSR_BI UART_LSR_OE))) s)
               else s)
  else if addr =? 6 then Some (read_msr now s)
  else if addr =? 7 then Some (s.(scr), s)
  else if flag s.(lcr) UART_LCR_DLAB then Some (Z.land s.(divider) 0xff, s)
  else read_rbr now s.

(** ** The character device, the timers, reset *)

Definition serial_can_receive (s : SerialState) : Z :=
  if flag s.(fcr) UART_FCR_FE then
    let f := s.(recv_fifo) in
    if f.(f_count) <? UART_FIFO_LENGTH then
      if f.(f_count) <=? f.(f_itl) then f.(f_itl) - f.(f_count) else 1
    else 0
  else c_bool (negb (flag s.(lsr) UART_LSR_DR)).

Definition serial_can_receive1 (s : SerialState) : Z := serial_can_receive s.

Definition serial_receive_break (s : SerialState) : option SerialState :=
  s ← fifo_put RECV_FIFO 0 (set_rbr 0 s);
  Some (serial_update_irq (set_lsr (Z.lor s.(lsr) (Z.lor UART_LSR_BI UART_LSR_DR)) s)).

Definition fifo_timeout_int (s : SerialState) : SerialState :=
  if c_true s.(recv_fifo).(f_count) then serial_update_irq (set_timeout_ipending 1 s) else s.

Definition serial_event (event : Z) (s : SerialState) : option SerialState :=
  if event =? CHR_EVENT_BREAK then serial_receive_break s else Some s.

Definition serial_pre_save (s : SerialState) : SerialState := set_fcr_vmstate s.(fcr) s.

Definition serial_post_load (version_id : Z) (s : SerialState) : option SerialState :=
  let s := if version_id <? 3 then set_fcr_vmstate 0 s else s in
  s ← serial_ioport_write 0 0x02 s.(fcr_vmstate) s;
  serial_update_parameters s.

Definition serial_reset (now : Z) (s : SerialState) : SerialState :=
  let s := set_rbr 0 s in
  let s := set_ier 0 s in
  let s := set_iir UART_IIR_NO_INT s in
  let s := set_lcr 0 s in
  let s := set_lsr (Z.lor UART_LSR_TEMT UART_LSR_THRE) s in
  let s := set_msr (Z.lor (Z.lor UART_MSR_DCD UART_MSR_DSR) UART_MSR_CTS) s in
  let s := set_divider 0x0C s in
  let s := set_mcr UART_MCR_OUT2 s in
  let s := set_scr 0 s in
  let s := set_tsr_retry 0 s in
  let s := set_char_transmit_time (ticks_per_sec `quot` 9600 * 10) s in
  let s := set_poll_msl 0 s in
  let s := fifo_clear RECV_FIFO s in
  let s := fifo_clear XMIT_FIFO s in
  let s := set_last_xmit_ts now s in
  let s := set_thr_ipending 0 s in
  let s := set_last_break_enable 0 s in
  set_irq (0 :: s.(irq)) s.

(** A new port, its memory cleared, with its three timers *)
Definition serial_init_core (baud shift : Z) (c : C) : SerialState :=
  mkSerial 0 0 0 0 0 0 0 0 0 0 0 0 0 0 [] c 0 shift baud 0 0
    (mkFIFO (replicate 16 0) 0 0 0 0) (mkFIFO (replicate 16 0) 0 0 0 0) None 0 None 0 0 None.

Definition serial_init (baud : Z) (c : C) : SerialState := serial_init_core baud 0 c.

Definition serial_mm_init (now shift baud : Z) (c : C) : SerialState :=
  serial_update_msl now (serial_init_core baud shift c).

Definition serial_set_frequency (frequency : Z) (s : SerialState) : option SerialState :=
  serial_update_parameters (set_baudbase frequency s).

(** The memory-mapped interface *)
Definition bswap16 (x : Z) : Z :=
  Z.lor (Z.shiftl (Z.land x 0x00ff) 8) (Z.shiftr (Z.land x 0xff00) 8).
Definition bswap32 (x : Z) : Z :=
  Z.lor (Z.lor (Z.lor (Z.shiftl (Z.land x 0x000000ff) 24) (Z.shiftl (Z.land x 0x0000ff00) 8))
           (Z.shiftr (Z.land x 0x00ff0000) 8)) (Z.shiftr (Z.land x 0xff000000) 24).

Definition mm_read (now addr : Z) (f : Z -> Z) (s : SerialState) : option (Z * SerialState) :=
  '(v, s') ← serial_ioport_read now (Z.shiftr addr s.(it_shift)) s; Some (f v, s').
Definition serial_mm_readb (now addr : Z) := mm_read now addr (fun v => Z.land v 0xFF).
Definition serial_mm_readw_be (now addr : Z) := mm_read now addr (fun v => bswap16 (Z.land v 0xFFFF)).
Definition serial_mm_readw_le (now addr : Z) := mm_read now addr (fun v => Z.land v 0xFFFF).
Definition serial_mm_readl_be (now addr : Z) := mm_read now addr bswap32.
Definition serial_mm_readl_le (now addr : Z) := mm_read now addr (fun v => v).

Definition mm_write (now addr value : Z) (s : SerialState) : option SerialState :=
  serial_ioport_write now (Z.shiftr addr s.(it_shift)) value s.
Definition serial_mm_writeb (now addr value : Z) := mm_write now addr (Z.land value 0xFF).
Definition serial_mm_writew_be (now addr value : Z) := mm_write now addr (Z.land (bswap16 value) 0xFFFF).
Definition serial_mm_writew_le (now addr value : Z) := mm_write now addr (Z.land value 0xFFFF).
Definition serial_mm_writel_be (now addr value : Z) := mm_write now addr (bswap32 value).
Definition serial_mm_writel_le (now addr value : Z) := mm_write now addr value.

(** ** Operations as steps *)

(** What can happen to a port, at a time of the virtual clock *)
Inductive op :=
  | Write (now addr val : Z)
  | Read (now addr : Z)
  | Receive (now : Z) (buf : list Z)
  | Event (event : Z)
  | Timers (now : Z)
  | Reset (now : Z)
  | Frequency (frequency : Z).

(** An expired timer is disarmed and its function runs. *)
Definition expires (timer : option Z) (now : Z) : bool := from_option (fun t => t <=? now) false timer.

Definition run_timers (now : Z) (s : SerialState) : option SerialState :=
  if expires s.(fifo_timeout_timer) now then Some (fifo_timeout_int (set_fifo_timeout_timer None s))
  else if expires s.(modem_status_poll) now then Some (serial_update_msl now (set_modem_status_poll None s))
  else if expires s.(transmit_timer) now then serial_xmit now (set_transmit_timer None s)
  else Some s.

Definition run_op (o : op) (s : SerialState) : option SerialState :=
  match o with
  | Write now addr val => serial_ioport_write now addr val s
  | Read now addr => snd <$> serial_ioport_read now addr s
  | Receive now buf => serial_receive1 now buf s
  | Event event => serial_event event s
  | Timers now => run_timers now s
  | Reset now => Some (serial_reset now s)
  | Frequency frequency => serial_set_frequency frequency s
  end.

(** The device hands over bytes, and clocks are fast enough for every divider. *)
Definition op_ok (o : op) : Prop :=
  match o with
  | Receive _ buf => buf <> [] /\ Forall byte_wf buf
  | Frequency frequency => 65536 <= frequency
  | _ => True
  end.

Inductive reachable : SerialState -> Prop :=
  | reach_start now baud c : 65536 <= baud -> reachable (serial_reset now (serial_init baud c))
  | reach_step o s s' : reachable s -> op_ok o -> run_op o s = Some s' -> reachable s'.

(** ** The invariant *)

Record fifo_ok (f : SerialFIFO) : Prop := {
  ff_data : length f.(f_data) = 16%nat;
  ff_bytes : Forall byte_wf f.(f_data);
  ff_tail : 0 <= f.(f_tail) < 16;
  ff_count : 0 <= f.(f_count) <= 16;
  ff_head : f.(f_head) = (f.(f_tail) + f.(f_count)) mod 16;
  ff_itl : 0 <= f.(f_itl) <= 14
}.

(** Widths and FIFOs, which every step keeps *)
Record core (s : SerialState) : Prop := {
  co_rbr : in_u 8 s.(rbr);
  co_thr : in_u 8 s.(thr);
  co_tsr : in_u 8 s.(tsr);
  co_ier : in_u 4 s.(ier);
  co_iir : in_u 8 s.(iir);
  co_lcr : in_u 8 s.(lcr);
  co_mcr : in_u 5 s.(mcr);
  co_lsr : in_u 8 s.(lsr);
  co_msr : in_u 8 s.(msr);
  co_scr : in_u 8 s.(scr);
  co_fcr : in_u 8 s.(fcr);
  co_divider : in_u 16 s.(divider);
  co_baud : 65536 <= s.(baudbase);
  co_retry : s.(tsr_retry) = 0 \/ s.(tsr_retry) = -1;
  co_timer : s.(transmit_timer) = None;
  co_recv : fifo_ok s.(recv_fifo);
  co_xmit : fifo_ok s.(xmit_fifo)
}.

(** The transmitter is empty. *)
Definition sent (s : SerialState) : Prop :=
  Z.testbit s.(lsr) 5 = true /\ Z.testbit s.(lsr) 6 = true /\ s.(xmit_fifo).(f_count) = 0.

(** The interrupt register and the line show the cause. *)
Definition shows (s : SerialState) : Prop :=
  Z.land s.(iir) 0x0F = tmp_iir s /\
  head s.(irq) = Some (c_bool (negb (tmp_iir s =? UART_IIR_NO_INT))).

Definition wf (s : SerialState) : Prop := core s /\ sent s /\ shows s.

(** ** The FIFOs are queues *)

(** The bytes of a FIFO, oldest first *)
Definition contents (f : SerialFIFO) : list Z :=
  (fun i => default 0 (f.(f_data) !! Z.to_nat ((f.(f_tail) + i) mod 16))) <$> seqZ 0 f.(f_count).

Definition pushed (c : Z) (f : SerialFIFO) : SerialFIFO :=
  mkFIFO (<[Z.to_nat f.(f_head) := c]> f.(f_data)) (f.(f_count) + 1) f.(f_itl) f.(f_tail)
    (next_index f.(f_head)).
Definition popped (f : SerialFIFO) : SerialFIFO :=
  mkFIFO f.(f_data) (f.(f_count) - 1) f.(f_itl) (next_index f.(f_tail)) f.(f_head).

Lemma next_index_mod i : 0 <= i < 16 -> next_index i = (i + 1) mod 16.
Proof.
  intros Hi. unfold next_index, UART_FIFO_LENGTH. rewrite wrap_small by (split; cbn; lia).
  destruct (Z.eqb_spec (i + 1) 16) as [E |]; [by rewrite E | by rewrite Z.mod_small by lia].
Qed.

Lemma fifo_head_bound f : fifo_ok f -> 0 <= f.(f_head) < 16.
Proof. intros []. rewrite ff_head0. apply Z.mod_pos_bound. lia. Qed.

Lemma pushed_ok c f : fifo_ok f -> byte_wf c -> f.(f_count) < 16 -> fifo_ok (pushed c f).
Proof.
  intros Hf Hc Hlt. pose proof (fifo_head_bound f Hf) as Hh. destruct Hf. split; cbn; try done.
  - by rewrite length_insert.
  - by apply Forall_insert.
  - lia.
  - rewrite next_index_mod by done. rewrite ff_head0. rewrite Zplus_mod_idemp_l. f_equal. lia.
Qed.

Lemma popped_ok f : fifo_ok f -> 0 < f.(f_count) -> fifo_ok (popped f).
Proof.
  intros [] Hlt. split; cbn; try done; rewrite ?next_index_mod by done.
  - apply Z.mod_pos_bound. lia.
  - lia.
  - rewrite Zplus_mod_idemp_l, ff_head0. f_equal. lia.
Qed.

Lemma fifo_length f : fifo_ok f -> Z.of_nat (length (contents f)) = f.(f_count).
Proof. intros []. unfold contents. rewrite length_fmap, length_seqZ. lia. Qed.

Lemma contents_pushed c f :
  fifo_ok f -> f.(f_count) < 16 -> contents (pushed c f) = contents f ++ [c].
Proof.
  intros [] Hlt. unfold contents, pushed. cbn [f_data f_count f_tail].
  rewrite seqZ_app, fmap_app, (seqZ_cons (0 + _)), (seqZ_nil _ (Z.pred 1)) by lia. cbn [fmap list_fmap].
  rewrite Z.add_0_l, <- ff_head0.
  rewrite list_lookup_insert_eq; [| rewrite ff_data0, ff_head0;
    pose proof (Z.mod_pos_bound (f.(f_tail) + f.(f_count)) 16); lia]. f_equal.
  apply list_fmap_ext. intros i x Hx. rewrite lookup_seqZ in Hx. destruct Hx as [-> Hx]. f_equal.
  apply list_lookup_insert_ne. rewrite ff_head0. rewrite Z.add_0_l in *.
  pose proof (Z.mod_pos_bound (f.(f_tail) + f.(f_count)) 16 ltac:(lia)).
  pose proof (Z.mod_pos_bound (f.(f_tail) + Z.of_nat i) 16 ltac:(lia)).
  intros E. apply Z2Nat.inj in E; [| lia | lia]. Z.to_euclidean_division_equations. lia.
Qed.

Lemma contents_popped f :
  fifo_ok f -> 0 < f.(f_count) ->
  exists c, f.(f_data) !! Z.to_nat f.(f_tail) = Some c /\ byte_wf c /\ contents f = c :: contents (popped f).
Proof.
  intros [] Hlt. destruct (lookup_lt_is_Some_2 f.(f_data) (Z.to_nat f.(f_tail))) as [c Hc]; [lia |].
  exists c. split; [done |]. split; [by apply (Forall_lookup_1 _ _ _ _ ff_bytes0 Hc) |].
  unfold contents, popped. cbn [f_data f_count f_tail].
  rewrite (seqZ_cons 0) by lia. cbn. rewrite Z.add_0_r, (Z.mod_small f.(f_tail)), Hc by lia. cbn. f_equal.
  rewrite <- (fmap_add_seqZ 1 0), <- list_fmap_compose. apply list_fmap_ext. intros i x _. cbn.
  rewrite next_index_mod by lia. rewrite Zplus_mod_idemp_l. do 4 f_equal. lia.
Qed.

(** ** Primitive steps *)

(** Bits of a register to which constant masks were applied *)
Ltac reg_bits :=
  cbn [lsr xmit_fifo serial_update_irq set_irq set_iir set_lsr set_recv_fifo set_rbr set_fifo_timeout_timer
       set_thr_ipending set_timeout_ipending];
  rewrite ?Z.lor_spec, ?Z.land_spec;
  repeat match goal with
  | |- context [Z.testbit ?c ?i] =>
      let b := eval vm_compute in (Z.testbit c i) in
      first [ constr_eq b true | constr_eq b false ]; change (Z.testbit c i) with b
  end;
  rewrite ?orb_false_r, ?orb_true_r, ?andb_true_r, ?andb_false_r; done.

Ltac keep H := destruct H; split; cbn; eauto 8 with width.

Lemma put_recv c s :
  fifo_ok s.(recv_fifo) ->
  fifo_put RECV_FIFO c s =
    Some (if s.(recv_fifo).(f_count) <? 16 then set_recv_fifo (pushed c s.(recv_fifo)) s
          else set_lsr (Z.lor s.(lsr) UART_LSR_OE) (set_recv_fifo s.(recv_fifo) s)).
Proof.
  intros Hf. pose proof (fifo_head_bound _ Hf) as Hh. unfold fifo_put, get_fifo, set_fifo, UART_FIFO_LENGTH.
  cbn [RECV_FIFO XMIT_FIFO Z.eqb orb]. destruct (Z.ltb_spec s.(recv_fifo).(f_count) 16); cbn [mbind option_bind].
  - rewrite (proj2 (Z.ltb_lt _ _)) by lia. cbn [mbind option_bind f_count].
    by rewrite (proj2 (Z.ltb_lt _ _)) by lia.
  - by rewrite (proj2 (Z.ltb_ge _ _)) by lia.
Qed.

Lemma put_xmit c s :
  fifo_ok s.(xmit_fifo) -> s.(xmit_fifo).(f_count) < 16 ->
  fifo_put XMIT_FIFO c s = Some (set_xmit_fifo (pushed c s.(xmit_fifo)) s).
Proof.
  intros Hf Hlt. pose proof (fifo_head_bound _ Hf) as Hh. unfold fifo_put, get_fifo, set_fifo, UART_FIFO_LENGTH.
  cbn [XMIT_FIFO Z.eqb orb]. rewrite (proj2 (Z.ltb_lt _ 16)) by lia. cbn [mbind option_bind f_count].
  by rewrite (proj2 (Z.ltb_lt _ _)) by lia.
Qed.

Lemma get_fifo_some fifo s :
  fifo_ok (get_fifo fifo s) -> 0 < (get_fifo fifo s).(f_count) ->
  exists c, fifo_get fifo s = Some (c, set_fifo fifo (popped (get_fifo fifo s)) s) /\ byte_wf c /\
    contents (get_fifo fifo s) = c :: contents (popped (get_fifo fifo s)).
Proof.
  intros Hf Hlt. destruct (contents_popped _ Hf Hlt) as (c & Hc & Hb & Hcs). exists c.
  unfold fifo_get. rewrite (proj2 (Z.eqb_neq _ 0)) by lia. by rewrite Hc.
Qed.

Lemma cleared_ok itl : 0 <= itl <= 14 -> fifo_ok (mkFIFO (replicate 16 0) 0 itl 0 0).
Proof. intros Hi. split; cbn; try done; lia || (repeat constructor; done). Qed.

Lemma flag_bit x i : 0 <= i -> flag x (Z.shiftl 1 i) = Z.testbit x i.
Proof. apply c_true_land_bit. Qed.

Lemma tmp_iir_cases s :
  tmp_iir s = 6 \/ tmp_iir s = 12 \/ tmp_iir s = 4 \/ tmp_iir s = 2 \/ tmp_iir s = 0 \/ tmp_iir s = 1.
Proof. unfold tmp_iir. repeat case_match; vm_compute; tauto. Qed.

Lemma update_irq_core s : core s -> core (serial_update_irq s).
Proof.
  intros H. assert (in_u 8 (tmp_iir s)) by (destruct (tmp_iir_cases s) as [-> | [-> | [-> | [-> | [-> | ->]]]]]; by split).
  keep H.
Qed.

Lemma update_irq_shows s : shows (serial_update_irq s).
Proof.
  split; [| done]. change (tmp_iir (serial_update_irq s)) with (tmp_iir s). cbn [serial_update_irq iir set_iir set_irq].
  rewrite Z.land_lor_distr_l, <- Z.land_assoc. change (Z.land 0xF0 0x0F) with 0. rewrite Z.land_0_r, Z.lor_0_r.
  by destruct (tmp_iir_cases s) as [-> | [-> | [-> | [-> | [-> | ->]]]]].
Qed.

Lemma serial_irq_wf s : core s -> sent s -> wf (serial_update_irq s).
Proof. intros Hc Hs. split; [by apply update_irq_core |]. split; [done | apply update_irq_shows]. Qed.

(** Line parameters can always be computed. *)
Lemma update_parameters_some s :
  core s -> exists s', serial_update_parameters s = Some s' /\ core s' /\ (wf s -> wf s').
Proof.
  intros Hc. unfold serial_update_parameters. destruct (Z.eqb_spec s.(divider) 0) as [| Hd]; [by exists s |].
  pose proof (co_divider s Hc) as [Hd0 Hd1]. pose proof (co_baud s Hc) as Hb. cbn in Hd1.
  assert (1 <= s.(baudbase) `quot` s.(divider)) by (apply Z.quot_le_lower_bound; lia).
  rewrite (proj2 (Z.eqb_neq (_ `quot` _) 0)) by lia. eexists. split; [reflexivity |].
  assert (Hcore : core (set_chr (drv.(chr_set_params) (mkParams (s.(baudbase) `quot` s.(divider))
    (if flag s.(lcr) 0x08 then if flag s.(lcr) 0x10 then 69 else 79 else 78)
    (Z.land s.(lcr) 0x03 + 5) (if flag s.(lcr) 0x04 then 2 else 1)) s.(chr))
    (set_char_transmit_time (wrap 64 ((ticks_per_sec `quot` (s.(baudbase) `quot` s.(divider))) *
       (1 + (if flag s.(lcr) 0x08 then 1 else 0) + (Z.land s.(lcr) 0x03 + 5 +
         (if flag s.(lcr) 0x04 then 2 else 1))))) s))) by (keep Hc).
  split; [exact Hcore |]. intros (_ & Hs & Hsh). split; [exact Hcore |]. split; [exact Hs | exact Hsh].
Qed.

(** ** Receiving *)

Lemma set_same s : set_lsr s.(lsr) (set_recv_fifo s.(recv_fifo) s) = s.
Proof. by destruct s. Qed.

(** Bytes go to the FIFO while there is room; losing one sets the overrun flag. *)
Lemma put_all_some buf s :
  fifo_ok s.(recv_fifo) -> Forall byte_wf buf ->
  exists f, put_all buf s =
      Some (set_lsr (if 16 <? s.(recv_fifo).(f_count) + Z.of_nat (length buf)
                     then Z.lor s.(lsr) UART_LSR_OE else s.(lsr)) (set_recv_fifo f s)) /\
    fifo_ok f /\ f.(f_itl) = s.(recv_fifo).(f_itl) /\
    contents f = take 16 (contents s.(recv_fifo) ++ buf).
Proof.
  revert s. induction buf as [| c buf IH]; intros s Hf Hb; cbn [put_all].
  - exists s.(recv_fifo). pose proof (ff_count _ Hf). rewrite (proj2 (Z.ltb_ge _ _)) by (cbn; lia).
    rewrite set_same, app_nil_r, take_ge; [done |]. pose proof (fifo_length _ Hf). lia.
  - apply Forall_cons in Hb as [Hc Hb]. rewrite put_recv by done. cbn [mbind option_bind].
    pose proof (ff_count _ Hf) as Hcount. pose proof (fifo_length _ Hf) as Hlen.
    destruct (Z.ltb_spec s.(recv_fifo).(f_count) 16) as [Hlt | Hge].
    + destruct (IH (set_recv_fifo (pushed c s.(recv_fifo)) s)) as (f & E & Hok & Hi & Hcs); [by apply pushed_ok | done |].
      exists f. split; [| split; [done | split; [done |]]].
      * rewrite E. cbn [set_recv_fifo recv_fifo pushed f_count lsr]. do 2 f_equal.
        replace (Z.of_nat (length (c :: buf))) with (1 + Z.of_nat (length buf)) by (cbn; lia).
        by rewrite Z.add_assoc.
      * rewrite Hcs. cbn [set_recv_fifo recv_fifo]. rewrite contents_pushed by done. by rewrite <- app_assoc.
    + destruct (IH (set_lsr (Z.lor s.(lsr) UART_LSR_OE) (set_recv_fifo s.(recv_fifo) s))) as (f & E & Hok & Hi & Hcs);
        [done | done |].
      exists f. split; [| split; [done | split; [done |]]].
      * rewrite E. rewrite (proj2 (Z.ltb_lt 16 (f_count (recv_fifo s) + Z.of_nat (length (c :: buf))))) by (cbn [length]; lia).
        transitivity (Some (set_lsr (if 16 <? s.(recv_fifo).(f_count) + Z.of_nat (length buf)
          then Z.lor (Z.lor s.(lsr) UART_LSR_OE) UART_LSR_OE else Z.lor s.(lsr) UART_LSR_OE) (set_recv_fifo f s)));
          [reflexivity |]. rewrite <- Z.lor_assoc, Z.lor_diag. by destruct (16 <? _).
      * rewrite Hcs. cbn [set_recv_fifo set_lsr recv_fifo]. rewrite !take_app_le by lia. done.
Qed.

(** Bytes at the receiver: the FIFO takes what it has room for, without it the
    register keeps the first byte of a transfer. *)
Definition arrived (buf : list Z) (s s' : SerialState) : Prop :=
  Z.testbit s'.(lsr) 0 = true /\
  if flag s.(fcr) UART_FCR_FE
  then contents s'.(recv_fifo) = take 16 (contents s.(recv_fifo) ++ buf) /\ s'.(rbr) = s.(rbr)
  else s'.(recv_fifo) = s.(recv_fifo) /\ s'.(rbr) = default s.(rbr) (head buf).

(** What a reception keeps, whatever the mode *)
Record received (buf : list Z) (s s' : SerialState) : Prop := {
  rv_core : core s';
  rv_shows : shows s';
  rv_sent : (Z.testbit s'.(lsr) 5, Z.testbit s'.(lsr) 6, s'.(xmit_fifo)) =
            (Z.testbit s.(lsr) 5, Z.testbit s.(lsr) 6, s.(xmit_fifo));
  rv_rest : (s'.(chr), s'.(mcr), s'.(lcr)) = (s.(chr), s.(mcr), s.(lcr));
  rv_fcr : s'.(fcr) = s.(fcr);
  rv_data : arrived buf s s'
}.

Lemma receive1_some now buf s :
  core s -> buf <> [] -> Forall byte_wf buf ->
  exists s', serial_receive1 now buf s = Some s' /\ received buf s s'.
Proof.
  intros Hc Hne Hb. unfold serial_receive1. destruct (flag s.(fcr) UART_FCR_FE) eqn:Hfe.
  - destruct (put_all_some buf s (co_recv s Hc) Hb) as (f & -> & Hok & Hi & Hcs). cbn [mbind option_bind].
    eexists. split; [reflexivity |]. split; [| apply update_irq_shows | | done | done |].
    + apply update_irq_core. case_match; keep Hc.
    + case_match; reg_bits.
    + unfold arrived. rewrite Hfe. split; [case_match; reg_bits | done].
  - destruct buf as [| c buf]; [done |]. apply Forall_cons in Hb as [Hbc _]. cbn [lookup list_lookup mbind option_bind].
    eexists. split; [reflexivity |]. split; [| apply update_irq_shows | | by case_match | by case_match |].
    + apply update_irq_core. case_match; keep Hc.
    + case_match; reg_bits.
    + unfold arrived. rewrite Hfe. split; [case_match; reg_bits | by case_match].
Qed.

(** ** Sending *)

(** Sending to the device leaves the receiver alone. *)
Definition same_receiver (s s' : SerialState) : Prop :=
  s'.(fcr) = s.(fcr) /\ s'.(recv_fifo) = s.(recv_fifo) /\ s'.(rbr) = s.(rbr) /\
  Z.testbit s'.(lsr) 0 = Z.testbit s.(lsr) 0.

Lemma xmit_done_wf now s :
  core s -> s.(xmit_fifo).(f_count) = 0 -> Z.testbit s.(lsr) 5 = true ->
  wf (xmit_done now s) /\
  let s' := xmit_done now s in
  (s'.(chr), s'.(mcr), s'.(lcr)) = (s.(chr), s.(mcr), s.(lcr)) /\ same_receiver s s'.
Proof.
  intros Hc Hx Hb. unfold xmit_done. assert (Hf : flag s.(lsr) UART_LSR_THRE = true) by (by rewrite (flag_bit _ 5)).
  change (lsr (set_last_xmit_ts now s)) with (lsr s). rewrite Hf. cbv iota.
  change (lsr (set_last_xmit_ts now s)) with (lsr s). rewrite Hf.
  split; [| split; [done |]]; [| split_and!; [done.. |];
    cbn [lsr serial_update_irq set_irq set_iir set_thr_ipending set_lsr]; by rewrite Z.lor_spec, orb_false_r].
  apply serial_irq_wf; [keep Hc |]. split; [| split; [| done]]; cbn [lsr set_lsr set_thr_ipending];
    rewrite Z.lor_spec; [by rewrite Hb | apply orb_true_r].
Qed.

(** The byte to send is taken, and the transmitter is free again. *)
Lemma load_tsr_some s b :
  core s -> byte_wf b ->
  (if flag s.(fcr) UART_FCR_FE then contents s.(xmit_fifo) = [b] else s.(thr) = b /\ s.(xmit_fifo).(f_count) = 0) ->
  exists s', load_tsr s = Some s' /\ core s' /\ s'.(tsr) = b /\ s'.(xmit_fifo).(f_count) = 0 /\
    Z.testbit s'.(lsr) 5 = true /\ (s'.(chr), s'.(mcr), s'.(lcr)) = (s.(chr), s.(mcr), s.(lcr)) /\
    same_receiver s s'.
Proof.
  intros Hc Hb Hsrc. unfold load_tsr. rewrite (proj2 (Z.leb_le _ 0)) by (destruct (co_retry s Hc); lia).
  destruct (flag s.(fcr) UART_FCR_FE).
  - pose proof (fifo_length _ (co_xmit s Hc)) as Hlen. rewrite Hsrc in Hlen. cbn in Hlen.
    destruct (get_fifo_some XMIT_FIFO s (co_xmit s Hc)) as (c & -> & _ & Hcs); [cbn; lia |].
    cbn [get_fifo XMIT_FIFO Z.eqb] in Hcs. rewrite Hsrc in Hcs. injection Hcs as -> Hnil.
    cbn [mbind option_bind]. unfold set_fifo, get_fifo. cbn [XMIT_FIFO Z.eqb].
    cbn [set_xmit_fifo set_tsr xmit_fifo popped f_count]. rewrite (proj2 (Z.eqb_eq (_ - 1) 0)) by lia.
    eexists. split; [reflexivity |]. split; [| split; [done | split; [cbn; lia | split; [| split; [done |]]]]].
    + pose proof (popped_ok _ (co_xmit s Hc) ltac:(lia)). keep Hc.
    + cbn [lsr set_lsr]. rewrite Z.lor_spec. apply orb_true_r.
    + split_and!; [done.. |]. cbn [lsr set_lsr]. by rewrite Z.lor_spec, orb_false_r.
  - destruct Hsrc as [<- Hx]. eexists. split; [reflexivity |].
    split; [keep Hc |]. split; [done |]. split; [done |]. split; [| split; [done |]].
    + cbn [lsr set_lsr]. rewrite Z.lor_spec. apply orb_true_r.
    + split_and!; [done.. |]. cbn [lsr set_lsr]. by rewrite Z.lor_spec, orb_false_r.
Qed.

(** The fate of a byte that is sent: it goes to the receiver in loopback, and to
    the character device otherwise *)
Definition went (b : Z) (s s' : SerialState) : Prop :=
  (s'.(mcr), s'.(lcr), s'.(fcr)) = (s.(mcr), s.(lcr), s.(fcr)) /\
  if flag s.(mcr) UART_MCR_LOOP then s'.(chr) = s.(chr) /\ arrived [b] s s'
  else s'.(chr) = (drv.(chr_write) b s.(chr)).2 /\ same_receiver s s'.

Lemma went_from b s0 s s' :
  (s.(chr), s.(mcr), s.(lcr)) = (s0.(chr), s0.(mcr), s0.(lcr)) -> same_receiver s0 s -> went b s s' -> went b s0 s'.
Proof.
  unfold went, arrived, same_receiver. intros [= -> -> ->] (Hf & Hr & Hb & Hd). by rewrite Hf, Hr, Hb, Hd.
Qed.

(** A byte is offered to the character device once, and never again. *)
Lemma xmit_some now s b :
  core s -> byte_wf b ->
  (if flag s.(fcr) UART_FCR_FE then contents s.(xmit_fifo) = [b] else s.(thr) = b /\ s.(xmit_fifo).(f_count) = 0) ->
  exists s', serial_xmit now s = Some s' /\ wf s' /\ went b s s'.
Proof.
  intros Hc Hb Hsrc. unfold serial_xmit.
  destruct (load_tsr_some s b Hc Hb Hsrc) as (s1 & -> & Hc1 & Ht & Hx & Hthre & Hrest & Hsame).
  cbn [mbind option_bind].
  cut (exists s', (if flag s1.(mcr) UART_MCR_LOOP
    then s2 ← serial_receive1 now [s1.(tsr)] s1; Some (xmit_done now s2)
    else let '(ret, c) := drv.(chr_write) s1.(tsr) s1.(chr) in
      let s2 := set_chr c s1 in
      if negb (ret =? 1) then
        if (0 <? s2.(tsr_retry)) && (s2.(tsr_retry) <=? MAX_XMIT_RETRY) then
          let s2 := set_tsr_retry (s2.(tsr_retry) + 1) s2 in
          Some (set_transmit_timer (Some (now + s2.(char_transmit_time))) s2)
        else if s2.(poll_msl) <? 0 then Some (xmit_done now (set_tsr_retry (-1) s2))
        else Some (xmit_done now s2)
      else Some (xmit_done now (set_tsr_retry 0 s2))) = Some s' /\ wf s' /\ went b s1 s').
  { intros (s' & E & Hw & Hwent). exists s'. split; [exact E |]. split; [done |]. by apply (went_from b s s1). }
  unfold went. destruct (flag s1.(mcr) UART_MCR_LOOP).
  - destruct (receive1_some now [s1.(tsr)] s1 Hc1) as (s2 & -> & [Hc2 _ Hs2 Hr2 Hf2 Hd2]);
      [done | by rewrite Ht, Forall_singleton |]. cbn [mbind option_bind].
    assert (Z.testbit s2.(lsr) 5 = Z.testbit s1.(lsr) 5 /\ s2.(xmit_fifo) = s1.(xmit_fifo)) as [H5 Hx2]
      by (split; congruence).
    destruct (xmit_done_wf now s2 Hc2) as (Hw & Hd & Hsame2); [by rewrite Hx2 | by rewrite H5 |].
    eexists. split; [reflexivity |]. split; [done |].
    destruct Hsame2 as (E1 & E2 & E3 & E4). injection Hd as F1 F2 F3. injection Hr2 as G1 G2 G3.
    unfold arrived in *. rewrite E1, E2, E3, E4, F1, F2, F3, G1, G2, G3, Hf2, <- Ht. done.
  - rewrite Ht. destruct (chr_write drv b (chr s1)) as [ret c']. cbn [snd].
    assert (Hstep : forall s2, core s2 -> (s2.(chr), s2.(mcr), s2.(lcr)) = (c', s1.(mcr), s1.(lcr)) ->
      s2.(xmit_fifo) = s1.(xmit_fifo) -> s2.(lsr) = s1.(lsr) -> same_receiver s1 s2 ->
      exists s', Some (xmit_done now s2) = Some s' /\ wf s' /\
        (s'.(mcr), s'.(lcr), s'.(fcr)) = (s1.(mcr), s1.(lcr), s1.(fcr)) /\ s'.(chr) = c' /\ same_receiver s1 s').
    { intros s2 H1 [= <- <- <-] H3 H4 Hr. destruct (xmit_done_wf now s2 H1) as (Hw & Hd & Hsame2);
        [by rewrite H3 | by rewrite H4 |].
      eexists. split; [reflexivity |]. split; [done |]. injection Hd as F1 F2 F3. destruct Hsame2 as (E1 & E2 & E3 & E4).
      unfold same_receiver in *. destruct Hr as (R1 & R2 & R3 & R4). rewrite E1, E2, E3, E4, F1, F2, F3, R1, R2, R3, R4. done. }
    destruct (negb (ret =? 1)); [| apply Hstep; [keep Hc1 | done..]].
    cbn [set_chr tsr_retry poll_msl]. rewrite (proj2 (Z.ltb_ge 0 _)) by (destruct (co_retry s1 Hc1); lia).
    cbn [andb]. destruct (s1.(poll_msl) <? 0); (apply Hstep; [keep Hc1 | done..]).
Qed.

Lemma write_thr_some now val s :
  wf s -> exists s', write_thr now val s = Some s' /\ wf s' /\ went (wrap 8 val) s s'.
Proof.
  intros (Hc & (H5 & H6 & Hx) & _). unfold write_thr.
  assert (Hb : byte_wf (wrap 8 val)) by (apply in_u_wrap; lia).
  assert (Hc1 : core (set_thr (wrap 8 val) s)) by (keep Hc).
  assert (Hbit : forall m, Z.testbit m 0 = true -> Z.testbit (Z.land s.(lsr) m) 0 = Z.testbit s.(lsr) 0)
    by (intros m Hm; by rewrite Z.land_spec, Hm, andb_true_r).
  cbn [set_thr fcr]. destruct (flag s.(fcr) UART_FCR_FE) eqn:Hfe.
  - rewrite put_xmit by (done || (cbn; lia) || apply Hc). cbn [mbind option_bind].
    lazymatch goal with |- context [serial_xmit now ?t] =>
      destruct (xmit_some now t (wrap 8 val)) as (s' & E & Hr & Hw); [| done | |
        exists s'; split; [done |]; split; [done |]; revert Hw; apply went_from; [done |]] end.
    + apply update_irq_core. pose proof (pushed_ok (wrap 8 val) _ (co_xmit s Hc) Hb ltac:(lia)). keep Hc1.
    + assert (Hsrc : contents (pushed (wrap 8 val) s.(xmit_fifo)) = [wrap 8 val]).
      { rewrite contents_pushed by (apply Hc || lia). assert (contents s.(xmit_fifo) = []) as ->; [| done].
        apply nil_length_inv. pose proof (fifo_length _ (co_xmit s Hc)). lia. }
      lazymatch goal with |- if ?b then _ else _ => change b with (flag s.(fcr) UART_FCR_FE) end. by rewrite Hfe.
    + split_and!; [done.. |].
      cbn [lsr serial_update_irq set_irq set_iir set_thr_ipending set_lsr set_xmit_fifo set_thr].
      rewrite <- Z.land_assoc. by apply Hbit.
  - cbn [mbind option_bind].
    lazymatch goal with |- context [serial_xmit now ?t] =>
      destruct (xmit_some now t (wrap 8 val)) as (s' & E & Hr & Hw); [| done | |
        exists s'; split; [done |]; split; [done |]; revert Hw; apply went_from; [done |]] end.
    + apply update_irq_core. keep Hc1.
    + lazymatch goal with |- if ?b then _ else _ => change b with (flag s.(fcr) UART_FCR_FE) end. by rewrite Hfe.
    + split_and!; [done.. |].
      cbn [lsr serial_update_irq set_irq set_iir set_thr_ipending set_lsr set_thr]. by apply Hbit.
Qed.

(** ** Every operation keeps the invariant *)

Lemma line_bit_u8 flags t b m : in_u 8 b -> in_u 8 m -> in_u 8 (line_bit flags t b m).
Proof. intros Hb Hm. unfold line_bit. case_match; eauto with width. Qed.

Lemma in_u_shiftr w x k : 0 <= w -> 0 <= k -> in_u w x -> in_u w (Z.shiftr x k).
Proof.
  intros Hw Hk [H0 H1]. rewrite Z.shiftr_div_pow2 by done. pose proof (Z.pow_pos_nonneg 2 k).
  split; [apply Z.div_pos; lia |]. apply Z.le_lt_trans with x; [| done]. apply Z.div_le_upper_bound; nia.
Qed.

Lemma update_msl_wf now s :
  core s -> sent s -> wf (serial_update_msl now s) \/
  (exists t p, serial_update_msl now s = set_poll_msl p (set_modem_status_poll t s)).
Proof.
  intros Hc Hs. unfold serial_update_msl.
  destruct (chr_get_tiocm drv _) as [known flags]. destruct known; cbn [negb]; [| right; by exists None, (-1)].
  change (msr (set_modem_status_poll None s)) with (msr s).
  set (m := line_bit flags CHR_TIOCM_RI _ _).
  assert (Hm : in_u 8 m) by (unfold m; repeat apply line_bit_u8; (apply Hc || by split)).
  destruct (Z.eqb_spec m s.(msr)) as [E | Hne].
  - right. rewrite E. change (poll_msl (set_msr _ _)) with (poll_msl s).
    destruct (c_true s.(poll_msl)); [eexists (Some _), s.(poll_msl) | exists None, s.(poll_msl)];
      destruct s; reflexivity.
  - left. lazymatch goal with |- context [set_msr ?x _] => set (m' := x) end. set (m0 := Z.lor m _) in *.
    assert (Hm0 : in_u 8 m0).
    { apply in_u_lor; [lia | done |]. apply in_u_lxor; [lia | |]; (apply in_u_shiftr; [lia | lia |]); [done | apply Hc]. }
    assert (in_u 8 m') by (unfold m'; case_match; eauto with width).
    assert (Hw : wf (serial_update_irq (set_msr m' (set_modem_status_poll None s)))).
    { apply serial_irq_wf; [keep Hc | done]. }
    case_match; [| exact Hw]. destruct Hw as (Hc1 & Hs1 & Hsh1). split; [keep Hc1 | done].
Qed.

(** With the interrupts shown before, they are shown after. *)
Lemma update_msl_keeps now s : wf s -> wf (serial_update_msl now s).
Proof.
  intros (Hc & Hs & Hsh). destruct (update_msl_wf now s Hc Hs) as [? | (t & p & ->)]; [done |].
  split; [keep Hc | done].
Qed.

Lemma write_ier_wf now val s : wf s -> wf (write_ier now val s).
Proof.
  intros (Hc & Hs & _). unfold write_ier.
  assert (Hc1 : core (set_ier (Z.land val 0x0f) s)) by (keep Hc).
  set (s1 := set_ier _ s) in *. assert (Hs1 : sent s1) by done.
  set (s2 := if 0 <=? s1.(poll_msl) then _ else s1).
  assert (Hw2 : core s2 /\ sent s2).
  { unfold s2. case_match; [| done]. case_match; [| split; [keep Hc1 | done]].
    destruct (update_msl_wf now (set_poll_msl 1 s1)) as [(? & ? & _) | (t & p & ->)];
      [keep Hc1 | done | done | split; [keep Hc1 | done]]. }
  destruct Hw2 as [Hc2 Hs2]. rewrite (flag_bit _ 5) by lia. rewrite (proj1 Hs2).
  apply serial_irq_wf; [keep Hc2 | done].
Qed.

Lemma trigger_level_bounds val : 0 <= trigger_level val <= 14.
Proof. unfold trigger_level. repeat case_match; lia. Qed.

Lemma write_fcr_wf val s : wf s -> wf (write_fcr val s).
Proof.
  intros (Hc & Hs & Hsh). unfold write_fcr. case_match; [by split |].
  set (v := if flag (Z.lxor _ _) _ then _ else _). pose proof (trigger_level_bounds v).
  pose proof (cleared_ok _ (ff_itl _ (co_recv s Hc))). pose proof (cleared_ok _ (ff_itl _ (co_xmit s Hc))).
  assert (Hitl : forall f, fifo_ok f -> fifo_ok (set_f_itl (trigger_level v) f)) by (intros f []; by split).
  set (s1 := if flag v UART_FCR_RFR then _ else s).
  assert (Hc1 : core s1 /\ sent s1) by (unfold s1; case_match; [split; [keep Hc | done] | done]).
  clearbody s1. destruct Hc1 as [Hc1 (H5 & H6 & Hx)]. pose proof (cleared_ok _ (ff_itl _ (co_xmit s1 Hc1))).
  set (s2 := if flag v UART_FCR_XFR then _ else s1).
  assert (Hc2 : core s2 /\ sent s2) by (unfold s2; case_match; [split; [keep Hc1 | done] | done]).
  clearbody s2. destruct Hc2 as [Hc2 Hs2]. apply serial_irq_wf; [| case_match; done].
  pose proof (Hitl _ (co_recv s2 Hc2)). case_match; keep Hc2.
Qed.

Lemma write_lcr_wf val s : wf s -> exists s', write_lcr val s = Some s' /\ wf s'.
Proof.
  intros (Hc & Hs & Hsh). unfold write_lcr. assert (Hc1 : core (set_lcr (wrap 8 val) s)) by (keep Hc).
  destruct (update_parameters_some _ Hc1) as (s1 & -> & Hcore & Hw). cbn [mbind option_bind].
  destruct Hw as (Hc2 & Hs2 & Hsh2); [done |]. eexists. split; [reflexivity |].
  case_match; [done |]. split; [keep Hc2 | done].
Qed.

Lemma write_mcr_wf now val s : wf s -> wf (write_mcr now val s).
Proof.
  intros (Hc & Hs & Hsh). unfold write_mcr. repeat case_match; (split; [keep Hc | done]).
Qed.

Lemma ioport_write_some now addr val s :
  wf s -> exists s', serial_ioport_write now addr val s = Some s' /\ wf s'.
Proof.
  intros Hw. pose proof Hw as (Hc & Hs & Hsh). unfold serial_ioport_write.
  assert (Hdiv : forall d, exists s', serial_update_parameters (set_divider (wrap 16 d) s) = Some s' /\ wf s').
  { intros d. assert (Hc1 : core (set_divider (wrap 16 d) s)) by (keep Hc).
    destruct (update_parameters_some _ Hc1) as (s1 & -> & _ & H). exists s1. split; [done |]. by apply H. }
  repeat case_match; try apply Hdiv; try (eexists; split; [reflexivity |]).
  - by apply write_ier_wf.
  - by apply write_fcr_wf.
  - by apply write_lcr_wf.
  - by apply write_mcr_wf.
  - done.
  - split; [keep Hc | done].
  - destruct (write_thr_some now val s Hw) as (s' & E & Hw' & _). by exists s'.
Qed.

Lemma get_recv s :
  core s -> exists c f, fifo_get RECV_FIFO s = Some (c, set_recv_fifo f s) /\ fifo_ok f /\ byte_wf c /\
    c = default 0 (head (contents s.(recv_fifo))) /\ contents f = tail (contents s.(recv_fifo)).
Proof.
  intros Hc. destruct (decide (0 < s.(recv_fifo).(f_count))) as [Hlt | Hge].
  - destruct (get_fifo_some RECV_FIFO s (co_recv s Hc) Hlt) as (c & E & Hb & Hcs).
    exists c, (popped s.(recv_fifo)). split; [exact E |]. split; [by apply popped_ok, Hlt; apply Hc |].
    split; [done |]. cbn [get_fifo RECV_FIFO XMIT_FIFO Z.eqb] in Hcs. by rewrite Hcs.
  - pose proof (ff_count _ (co_recv s Hc)). pose proof (fifo_length _ (co_recv s Hc)) as Hl.
    assert (contents s.(recv_fifo) = []) as -> by (apply nil_length_inv; lia).
    exists 0, s.(recv_fifo). unfold fifo_get, get_fifo. cbn [RECV_FIFO XMIT_FIFO Z.eqb].
    rewrite (proj2 (Z.eqb_eq _ 0)) by lia. split; [by destruct s |]. split; [apply Hc |].
    split; [by split |]. split; [done |]. apply nil_length_inv. lia.
Qed.

Lemma read_rbr_some now s :
  wf s -> exists v s', read_rbr now s = Some (v, s') /\ wf s' /\
    (flag s.(fcr) UART_FCR_FE = true -> v = default 0 (head (contents s.(recv_fifo))) /\
       contents s'.(recv_fifo) = tail (contents s.(recv_fifo))) /\
    (flag s.(fcr) UART_FCR_FE = false -> v = s.(rbr) /\ flag s'.(lsr) UART_LSR_DR = false).
Proof.
  intros (Hc & (H5 & H6 & Hx) & _). unfold read_rbr. destruct (flag s.(fcr) UART_FCR_FE) eqn:Hfe.
  - destruct (get_recv s Hc) as (c & f & -> & Hf & Hb & Hcv & Hcs). cbn [mbind option_bind].
    eexists _, _. split; [reflexivity |]. split; [| by split; [intros _; case_match |]].
    apply serial_irq_wf; [case_match; keep Hc |]. case_match; (split; [| split; [| done]]);
      cbn [lsr set_lsr set_timeout_ipending set_recv_fifo set_fifo_timeout_timer]; rewrite ?Z.land_spec, ?H5, ?H6; done.
  - eexists _, _. split; [reflexivity |]. split; [| split; [done |]].
    + apply serial_irq_wf; [keep Hc |]. split; [| split; [| done]]; cbn [lsr set_lsr];
        rewrite Z.land_spec, ?H5, ?H6; done.
    + intros _. split; [done |]. rewrite (flag_bit _ 0) by lia.
      cbn [lsr set_lsr serial_update_irq set_irq set_iir]. rewrite Z.land_spec. apply andb_false_r.
Qed.

Lemma read_msr_wf now s : wf s -> wf (read_msr now s).2.
Proof.
  intros Hw. unfold read_msr. case_match; [done |]. cbn [snd].
  set (s1 := if 0 <=? poll_msl s then _ else s).
  assert (Hw1 : wf s1) by (unfold s1; case_match; [by apply update_msl_keeps | done]). clearbody s1.
  case_match; [| done]. destruct Hw1 as (Hc1 & Hs1 & _). apply serial_irq_wf; [keep Hc1 | done].
Qed.

Lemma ioport_read_some now addr s :
  wf s -> exists v s', serial_ioport_read now addr s = Some (v, s') /\ wf s'.
Proof.
  intros Hw. pose proof Hw as (Hc & (H5 & H6 & Hx) & Hsh). unfold serial_ioport_read.
  set (a := Z.land addr 7).
  destruct (a =? 1); [by eexists _, _ |].
  destruct (a =? 2).
  { eexists _, _. split; [reflexivity |]. case_match; [| done]. apply serial_irq_wf; [keep Hc | done]. }
  destruct (a =? 3); [by eexists _, _ |]. destruct (a =? 4); [by eexists _, _ |]. destruct (a =? 5).
  { eexists _, _. split; [reflexivity |]. case_match; [| done]. apply serial_irq_wf; [keep Hc |].
    split; [| split; [| done]]; cbn [lsr set_lsr]; rewrite Z.land_spec, ?H5, ?H6; done. }
  destruct (a =? 6).
  { exists (read_msr now s).1, (read_msr now s).2. split; [by rewrite <- surjective_pairing | by apply read_msr_wf]. }
  destruct (a =? 7); [by eexists _, _ |]. destruct (flag s.(lcr) UART_LCR_DLAB); [by eexists _, _ |].
  destruct (read_rbr_some now s Hw) as (v & s' & E & Hw' & _). by exists v, s'.
Qed.

Lemma receive_break_some s : wf s -> exists s', serial_receive_break s = Some s' /\ wf s'.
Proof.
  intros (Hc & (H5 & H6 & Hx) & _). unfold serial_receive_break. rewrite put_recv by apply Hc.
  cbn [mbind option_bind]. eexists. split; [reflexivity |].
  pose proof (co_recv s Hc) as Hf. cbn [set_rbr recv_fifo lsr] in *.
  destruct (Z.ltb_spec s.(recv_fifo).(f_count) 16) as [Hlt |].
  - pose proof (pushed_ok 0 _ Hf ltac:(by split) Hlt). apply serial_irq_wf; [keep Hc |].
    split; [| split; [| done]]; cbn [lsr set_lsr set_recv_fifo set_rbr]; rewrite Z.lor_spec, ?H5, ?H6; done.
  - apply serial_irq_wf; [keep Hc |].
    split; [| split; [| done]]; cbn [lsr set_lsr set_recv_fifo set_rbr]; rewrite !Z.lor_spec, ?H5, ?H6; done.
Qed.

Lemma run_timers_some now s : wf s -> exists s', run_timers now s = Some s' /\ wf s'.
Proof.
  intros (Hc & Hs & Hsh). unfold run_timers. rewrite (co_timer s Hc). cbn [expires from_option].
  destruct (expires s.(fifo_timeout_timer) now).
  { eexists. split; [reflexivity |]. unfold fifo_timeout_int. case_match.
    - apply serial_irq_wf; [keep Hc | done].
    - split; [keep Hc | done]. }
  destruct (expires s.(modem_status_poll) now); (eexists; split; [reflexivity |]); [| done].
  apply update_msl_keeps. split; [keep Hc | done].
Qed.

Lemma reset_wf now s : 65536 <= s.(baudbase) -> s.(transmit_timer) = None ->
  in_u 8 s.(thr) -> in_u 8 s.(tsr) -> in_u 8 s.(fcr) ->
  fifo_ok s.(recv_fifo) -> fifo_ok s.(xmit_fifo) -> wf (serial_reset now s).
Proof.
  intros Hb Ht H1 H2 H3 Hr Hx. pose proof (cleared_ok _ (ff_itl _ Hr)). pose proof (cleared_ok _ (ff_itl _ Hx)).
  split; [split; cbn; eauto with width | split; done].
Qed.

Lemma run_op_wf o s : wf s -> op_ok o -> exists s', run_op o s = Some s' /\ wf s'.
Proof.
  intros Hw Ho. pose proof Hw as (Hc & Hs & Hsh). destruct o as [now addr val | now addr | now buf | event | now | now | fr];
    cbn [run_op op_ok] in *.
  - by apply ioport_write_some.
  - destruct (ioport_read_some now addr s Hw) as (v & s' & -> & Hw'). by exists s'.
  - destruct (receive1_some now buf s Hc) as (s' & E & [Hc' Hsh' Hs' _ _ _]); [apply Ho | apply Ho |].
    exists s'. split; [done |]. split; [done |]. split; [| done]. destruct Hs as (H5 & H6 & Hx).
    unfold sent. split; [| split]; congruence.
  - unfold serial_event. case_match; [by apply receive_break_some | by exists s].
  - by apply run_timers_some.
  - eexists. split; [reflexivity |]. destruct Hc. by apply reset_wf.
  - unfold serial_set_frequency. assert (Hc1 : core (set_baudbase fr s)) by (keep Hc).
    destruct (update_parameters_some _ Hc1) as (s1 & -> & _ & H). exists s1. split; [done |]. by apply H.
Qed.

Lemma reachable_wf s : reachable s -> wf s.
Proof.
  induction 1 as [now baud c Hb | o s s' _ IH Ho E].
  - pose proof (cleared_ok 0 ltac:(lia)). apply reset_wf; cbn; done || by split.
  - destruct (run_op_wf o s IH Ho) as (s1 & E1 & Hw). congruence.
Qed.

(** ** The causes of an interrupt *)

(** The causes that the data sheet lists, the code of each and their urgency, one
    for the most urgent *)
Inductive cause := LineStatus | CharTimeout | DataReady | TransmitEmpty | ModemStatus.

Definition urgency (c : cause) : Z :=
  match c with
  | LineStatus => 1 | CharTimeout => 2 | DataReady => 3 | TransmitEmpty => 4 | ModemStatus => 5
  end.

Definition code (c : cause) : Z :=
  match c with
  | LineStatus => 0x06 | CharTimeout => 0x0C | DataReady => 0x04 | TransmitEmpty => 0x02 | ModemStatus => 0x00
  end.

(** A cause is present and enabled, in terms of the registers. *)
Definition pending (c : cause) (s : SerialState) : Prop :=
  match c with
  | LineStatus => Z.testbit s.(ier) 2 = true /\ Z.land s.(lsr) 0x1E <> 0
  | CharTimeout => Z.testbit s.(ier) 0 = true /\ s.(timeout_ipending) <> 0
  | DataReady => Z.testbit s.(ier) 0 = true /\ Z.testbit s.(lsr) 0 = true /\
      (Z.testbit s.(fcr) 0 = true -> s.(recv_fifo).(f_itl) <= Z.of_nat (length (contents s.(recv_fifo))))
  | TransmitEmpty => Z.testbit s.(ier) 1 = true /\ s.(thr_ipending) <> 0
  | ModemStatus => Z.testbit s.(ier) 3 = true /\ Z.land s.(msr) 0x0F <> 0
  end.

Definition most_urgent (c : cause) (s : SerialState) : Prop :=
  pending c s /\ forall c', pending c' s -> urgency c <= urgency c'.

(** The conditions of [serial_update_irq] *)
Definition cause_test (c : cause) (s : SerialState) : bool :=
  match c with
  | LineStatus => flag s.(ier) UART_IER_RLSI && flag s.(lsr) UART_LSR_INT_ANY
  | CharTimeout => flag s.(ier) UART_IER_RDI && c_true s.(timeout_ipending)
  | DataReady => flag s.(ier) UART_IER_RDI && flag s.(lsr) UART_LSR_DR &&
      (negb (flag s.(fcr) UART_FCR_FE) || (s.(recv_fifo).(f_itl) <=? s.(recv_fifo).(f_count)))
  | TransmitEmpty => flag s.(ier) UART_IER_THRI && c_true s.(thr_ipending)
  | ModemStatus => flag s.(ier) UART_IER_MSI && flag s.(msr) UART_MSR_ANY_DELTA
  end.

Lemma pending_test c s : core s -> pending c s <-> cause_test c s = true.
Proof.
  intros Hc. pose proof (fifo_length _ (co_recv s Hc)) as Hlen.
  assert (Hbit : forall x i m, 0 <= i -> Z.shiftl 1 i = m -> flag x m = Z.testbit x i)
    by (intros x i m Hi <-; by apply flag_bit).
  destruct c; cbn [pending cause_test]; rewrite ?Hlen, ?andb_true_iff, ?orb_true_iff, ?negb_true_iff, ?Z.leb_le.
  - rewrite (Hbit _ 2) by (done || lia). unfold flag. by rewrite c_true_nonzero.
  - rewrite (Hbit _ 0) by (done || lia). by rewrite c_true_nonzero.
  - rewrite !(Hbit _ 0) by (done || lia). destruct (Z.testbit s.(fcr) 0); intuition congruence.
  - rewrite (Hbit _ 1) by (done || lia). by rewrite c_true_nonzero.
  - rewrite (Hbit _ 3) by (done || lia). unfold flag. by rewrite c_true_nonzero.
Qed.

Ltac refute :=
  exfalso; match goal with H : pending ?c ?s, N : _ -> ~ pending ?c ?s |- _ => by apply (N eq_refl H) end.

(** The code that the interrupt register gets is that of the most urgent cause. *)
Lemma tmp_iir_urgent s :
  core s -> (forall c, tmp_iir s = code c <-> most_urgent c s) /\
  (tmp_iir s = UART_IIR_NO_INT <-> forall c, ~ pending c s).
Proof.
  intros Hc.
  assert (Hn : forall c, cause_test c s = false -> ~ pending c s)
    by (intros c H Hp; apply pending_test in Hp; congruence).
  assert (Hp : forall c, cause_test c s = true -> pending c s) by (intros c; by apply pending_test).
  pose proof (Hn LineStatus) as N1. pose proof (Hn CharTimeout) as N2. pose proof (Hn DataReady) as N3.
  pose proof (Hn TransmitEmpty) as N4. pose proof (Hn ModemStatus) as N5. clear Hn.
  pose proof (Hp LineStatus) as P1. pose proof (Hp CharTimeout) as P2. pose proof (Hp DataReady) as P3.
  pose proof (Hp TransmitEmpty) as P4. pose proof (Hp ModemStatus) as P5. clear Hp.
  assert (Hcode : forall c, pending c s -> (forall c', pending c' s -> urgency c <= urgency c') ->
    tmp_iir s = code c -> (forall c, tmp_iir s = code c <-> most_urgent c s) /\
    (tmp_iir s = UART_IIR_NO_INT <-> forall c, ~ pending c s)).
  { intros c H1 H2 ->. split; [| split; [by destruct c | intros H; by destruct (H c)]].
    intros c'. split; [intros E; assert (c = c') as <- by (by destruct c, c'); done |].
    intros [Hp Hu]. pose proof (H2 _ Hp). pose proof (Hu _ H1). by destruct c, c'. }
  unfold tmp_iir in *. unfold cause_test in *.
  destruct (flag s.(ier) UART_IER_RLSI && _); [apply (Hcode LineStatus); [auto | | done]; by intros [] |].
  destruct (flag s.(ier) UART_IER_RDI && c_true _).
  { apply (Hcode CharTimeout); [auto | | done]. intros [] H; done || refute. }
  destruct (flag s.(ier) UART_IER_RDI && _ && _).
  { apply (Hcode DataReady); [auto | | done]. intros [] H; done || refute. }
  destruct (flag s.(ier) UART_IER_THRI && _).
  { apply (Hcode TransmitEmpty); [auto | | done]. intros [] H; done || refute. }
  destruct (flag s.(ier) UART_IER_MSI && _).
  { apply (Hcode ModemStatus); [auto | | done]. intros [] H; done || refute. }
  split; [| split; [| done]].
  - intros c. split; [by destruct c | intros [H _]; destruct c; refute].
  - intros _ [] H; refute.
Qed.

Lemma tmp_iir_code s : tmp_iir s <> UART_IIR_NO_INT -> exists c, tmp_iir s = code c.
Proof.
  intros H. destruct (tmp_iir_cases s) as [E | [E | [E | [E | [E | E]]]]]; rewrite E in *; [.. | done];
    [by exists LineStatus | by exists CharTimeout | by exists DataReady | by exists TransmitEmpty | by exists ModemStatus].
Qed.
End Serial.

(** The cause when only receive interrupts are enabled *)
Lemma tmp_iir_rdi {C} (s : SerialState (C := C)) :
  s.(ier) = UART_IER_RDI ->
  tmp_iir s =
    if c_true s.(timeout_ipending) then UART_IIR_CTI
    else if Z.testbit s.(lsr) 0 &&
            (negb (flag s.(fcr) UART_FCR_FE) || (s.(recv_fifo).(f_itl) <=? s.(recv_fifo).(f_count)))
    then UART_IIR_RDI else UART_IIR_NO_INT.
Proof. intros H. unfold tmp_iir. by rewrite H, <- (flag_bit _ 0) by lia. Qed.

(** ** Sequences of operations *)

Section runs.
Context {C : Type} (drv : CharDriver C).

Fixpoint run_ops (ops : list op) (s : SerialState (C := C)) : option SerialState :=
  match ops with
  | [] => Some s
  | o :: ops => s ← run_op drv o s; run_ops ops s
  end.

Lemma run_ops_reachable ops s s' :
  reachable drv s -> Forall op_ok ops -> run_ops ops s = Some s' -> reachable drv s'.
Proof.
  revert s. induction ops as [| o ops IH]; intros s Hs Ho E; cbn [run_ops] in E; [by injection E as <- |].
  apply Forall_cons in Ho as [Ho Hops]. destruct (run_op drv o s) as [s1 |] eqn:E1; [| done].
  apply (IH s1); [by apply (reach_step drv o s) | done | done].
Qed.

Lemma take_again (a b : list Z) n : take n (take n a ++ b) = take n (a ++ b).
Proof.
  destruct (decide (length a <= n)%nat); [by rewrite (take_ge a) by done |].
  rewrite !take_app_le by (rewrite ?length_take; lia). by rewrite take_take, Nat.min_id.
Qed.

(** Bytes that are sent one after the other: in loopback they arrive at the
    receiver, else they are offered to the device. *)
Definition all_went (bytes : list Z) (s s' : SerialState (C := C)) : Prop :=
  if flag s.(mcr) UART_MCR_LOOP then
    s'.(chr) = s.(chr) /\ Z.testbit s'.(lsr) 0 = Z.testbit s.(lsr) 0 || bool_decide (bytes <> []) /\
    if flag s.(fcr) UART_FCR_FE
    then contents s'.(recv_fifo) = take 16 (contents s.(recv_fifo) ++ bytes)
    else s'.(rbr) = default s.(rbr) (last bytes)
  else s'.(chr) = foldl (fun c b => (drv.(chr_write) b c).2) s.(chr) bytes /\ same_receiver s s'.

Lemma all_went_cons b bytes s s1 s2 :
  went drv b s s1 -> all_went bytes s1 s2 -> all_went (b :: bytes) s s2.
Proof.
  unfold went, all_went, arrived, same_receiver. intros [[= -> _ ->] H].
  destruct (flag s.(mcr) UART_MCR_LOOP).
  - destruct H as (-> & -> & Harr). intros (-> & -> & Hdata). split; [done |].
    rewrite orb_true_l, orb_true_r. split; [done |].
    destruct (flag s.(fcr) UART_FCR_FE).
    + destruct Harr as [Harr _]. rewrite Hdata, Harr, take_again. by rewrite <- app_assoc.
    + destruct Harr as [_ Harr]. rewrite Hdata, Harr. destruct bytes as [| b' bytes]; [done |].
      change (last (b :: b' :: bytes)) with (last (b' :: bytes)). by destruct (last_is_Some (b' :: bytes)) as [_ [? ->]].
  - destruct H as (-> & H1 & H2 & H3 & H4). intros (-> & G1 & G2 & G3 & G4). split; [done |]. by rewrite G2, G3, G4.
Qed.

Lemma write_bytes_some l s :
  wf s -> flag s.(lcr) UART_LCR_DLAB = false ->
  exists s', run_ops ((fun tv => Write tv.1 0 tv.2) <$> l) s = Some s' /\ wf s' /\
    all_went ((fun tv => wrap 8 tv.2) <$> l) s s'.
Proof.
  revert s. induction l as [| [now v] l IH]; intros s Hw Hd.
  - exists s. split; [done |]. split; [done |]. unfold all_went. case_match; [| done].
    split; [done |]. rewrite orb_false_r. split; [done |]. case_match; [| done]. cbn. rewrite app_nil_r, take_ge; [done |].
    destruct Hw as (Hc & _). pose proof (fifo_length _ (co_recv s Hc)). pose proof (ff_count _ (co_recv s Hc)). lia.
  - cbn [fmap list_fmap run_ops run_op fst snd]. unfold serial_ioport_write. cbn [Z.land Z.eqb orb]. rewrite Hd.
    destruct (write_thr_some drv now v s Hw) as (s1 & -> & Hw1 & Hwent). cbn [mbind option_bind].
    assert (Hlcr : s1.(lcr) = s.(lcr)) by (destruct Hwent as [[= _ H _] _]; done).
    destruct (IH s1 Hw1) as (s2 & E & Hw2 & Hall); [by rewrite Hlcr |].
    exists s2. split; [exact E |]. split; [done |]. by apply (all_went_cons _ _ s s1).
Qed.
End runs.

(** ** Sample devices *)

(** A device that records what it gets, and one that takes nothing *)
Definition recorder : CharDriver (list Z) :=
  mkChr (fun b l => (1, l ++ [b])) (fun _ l => l) (fun _ l => l) (fun _ => (false, 0)) (fun _ l => l).
Definition refuser : CharDriver (list Z) :=
  mkChr (fun b l => (0, l ++ [b])) (fun _ l => l) (fun _ l => l) (fun _ => (false, 0)) (fun _ l => l).

Definition fresh : SerialState (C := list Z) := serial_reset 0 (serial_init 115200 []).

Lemma fresh_reachable (drv : CharDriver (list Z)) : reachable drv fresh.
Proof. apply (reach_start drv 0 115200 []). lia. Qed.

(** The FIFO is emptied by its reset bit, but data stay announced: a zero that
    nobody sent is read. *)
Lemma fifo_reset_keeps_ready :
  (s ← run_ops recorder [Write 0 2 0x01; Receive 0 [65]; Write 0 2 0x03] fresh;
   '(l, s) ← serial_ioport_read recorder 0 5 s;
   '(v, _) ← serial_ioport_read recorder 0 0 s; Some (contents s.(recv_fifo), Z.testbit l 0, v)) =
  Some ([], true, 0).
Proof. vm_compute. reflexivity. Qed.

(** A reset does not leave FIFO mode and keeps a pending timeout, which
    interrupts as soon as receive interrupts are enabled, without any data. *)
Lemma reset_keeps_timeout :
  (s ← run_ops recorder [Write 0 2 0x81; Receive 0 [65]; Timers 10000000000; Reset 0; Write 0 1 1] fresh;
   Some (flag s.(fcr) UART_FCR_FE, contents s.(recv_fifo), tmp_iir s, head s.(irq))) =
  Some (true, [], UART_IIR_CTI, Some 1).
Proof. vm_compute. reflexivity. Qed.

(** Breaks fill the FIFO also when it is off, and then report overruns that did
    not happen. *)
Lemma breaks_overrun :
  (s ← run_ops recorder (concat (replicate 17 [Event CHR_EVENT_BREAK; Read 0 0])) fresh;
   Some (flag s.(fcr) UART_FCR_FE, Z.testbit s.(lsr) 1)) = Some (false, true).
Proof. vm_compute. reflexivity. Qed.

(** ** Data waiting at the receiver *)

(** The number of waiting bytes that interrupts *)
Definition level {C} (s : SerialState (C := C)) : Z := if flag s.(fcr) UART_FCR_FE then s.(recv_fifo).(f_itl) else 1.

(** [q] waits, oldest first, and only receive interrupts are enabled. *)
Record waiting {C} (q : list Z) (s : SerialState (C := C)) : Prop := {
  wt_core : core s;
  wt_ier : s.(ier) = UART_IER_RDI;
  wt_dlab : flag s.(lcr) UART_LCR_DLAB = false;
  wt_ready : Z.testbit s.(lsr) 0 = true;
  wt_some : q <> [];
  wt_data : if flag s.(fcr) UART_FCR_FE then contents s.(recv_fifo) = q else q = [s.(rbr)]
}.

Definition reached {C} (q : list Z) (s : SerialState (C := C)) : bool := level s <=? Z.of_nat (length q).

Lemma waiting_iir {C} q (s : SerialState (C := C)) :
  waiting q s ->
  tmp_iir s = if c_true s.(timeout_ipending) then UART_IIR_CTI
              else if reached q s then UART_IIR_RDI else UART_IIR_NO_INT.
Proof.
  intros []. rewrite tmp_iir_rdi by done. rewrite wt_ready0. unfold reached, level.
  pose proof (fifo_length _ (co_recv s wt_core0)) as Hlen.
  destruct (flag s.(fcr) UART_FCR_FE); cbn [negb orb andb].
  - by rewrite <- Hlen, wt_data0.
  - by rewrite wt_data0.
Qed.

(** A byte that arrives waits behind the others. *)
Lemma receive_waiting {C} now b (s : SerialState (C := C)) :
  core s -> byte_wf b -> s.(ier) = UART_IER_RDI -> flag s.(lcr) UART_LCR_DLAB = false -> s.(timeout_ipending) = 0 ->
  let q := if flag s.(fcr) UART_FCR_FE then take 16 (contents s.(recv_fifo) ++ [b]) else [b] in
  exists s', serial_receive1 now [b] s = Some s' /\ waiting q s' /\ level s' = level s /\ s'.(fcr) = s.(fcr) /\
    s'.(timeout_ipending) = 0 /\ s'.(irq) = c_bool (reached q s) :: s.(irq) /\
    (flag s.(fcr) UART_FCR_FE = true -> s'.(fifo_timeout_timer) = Some (now + s.(char_transmit_time) * 4)).
Proof.
  intros Hc Hb Hier Hd Hto q.
  destruct (receive1_some now [b] s Hc) as (s' & E & [Hc' Hsh _ Hrest Hfcr [Hdr Hdata]]);
    [done | by apply Forall_singleton |].
  assert (Hq : q <> []).
  { unfold q. case_match; [| done]. intros H0. apply (f_equal length) in H0.
    rewrite length_take, length_app in H0. cbn [length] in H0. lia. }
  assert (Hkeep : s'.(ier) = s.(ier) /\ s'.(timeout_ipending) = s.(timeout_ipending) /\
    s'.(recv_fifo).(f_itl) = s.(recv_fifo).(f_itl) /\ s'.(irq) = c_bool (negb (tmp_iir s' =? UART_IIR_NO_INT)) :: s.(irq) /\
    (flag s.(fcr) UART_FCR_FE = true -> s'.(fifo_timeout_timer) = Some (now + s.(char_transmit_time) * 4))).
  { revert E. unfold serial_receive1. destruct (flag s.(fcr) UART_FCR_FE).
    - destruct (put_all_some [b] s (co_recv s Hc)) as (f & -> & _ & Hi & _); [by apply Forall_singleton |].
      cbn [mbind option_bind]. by intros [= <-].
    - cbn [lookup list_lookup mbind option_bind]. intros [= <-]. by case_match. }
  destruct Hkeep as (Hi & Ht & Hitl & Hirq & Htimer). injection Hrest as _ _ Hlcr.
  assert (Hlevel : level s' = level s) by (unfold level; by rewrite Hfcr, Hitl).
  assert (Hw : waiting q s').
  { split; [done | congruence | by rewrite Hlcr | done | done |]. rewrite Hfcr. unfold q. revert Hdata.
    destruct (flag s.(fcr) UART_FCR_FE); [by intros [-> _] | by intros [_ ->]]. }
  exists s'. split_and!; [done | done | done | done | congruence | | done].
  rewrite Hirq, (waiting_iir q s' Hw), Ht, Hto. unfold reached. rewrite Hlevel.
  cbn [c_true Z.eqb negb]. by destruct (level s <=? _).
Qed.

(** Data that wait too long raise the line. *)
Lemma timeout_waiting {C} (drv : CharDriver C) q t d (s : SerialState (C := C)) :
  waiting q s -> flag s.(fcr) UART_FCR_FE = true -> s.(fifo_timeout_timer) = Some d -> d <= t ->
  exists s', run_timers drv t s = Some s' /\ waiting q s' /\ level s' = level s /\ s'.(fcr) = s.(fcr) /\
    s'.(timeout_ipending) = 1 /\ s'.(irq) = 1 :: s.(irq).
Proof.
  intros [] Hfe Hd Ht. unfold run_timers. rewrite Hd. cbn [expires from_option]. rewrite (proj2 (Z.leb_le d t)) by done.
  unfold fifo_timeout_int. pose proof (fifo_length _ (co_recv s wt_core0)) as Hlen. rewrite Hfe in wt_data0.
  change (recv_fifo (set_fifo_timeout_timer None s)) with s.(recv_fifo).
  assert (c_true s.(recv_fifo).(f_count) = true) as ->.
  { apply c_true_nonzero. rewrite <- Hlen, wt_data0. destruct q; [done | cbn; lia]. }
  eexists. split; [reflexivity |]. split; [| split_and!; try done].
  - split; try done.
    + apply update_irq_core. destruct wt_core0. by split.
    + lazymatch goal with |- if ?b then _ else _ => change b with (flag s.(fcr) UART_FCR_FE) end. by rewrite Hfe.
  - cbn [serial_update_irq set_irq irq]. by rewrite tmp_iir_rdi.
Qed.

(** A byte raises the line, at once or when it has waited too long. *)
Lemma byte_waits {C} (drv : CharDriver C) now t b (s : SerialState (C := C)) :
  core s -> byte_wf b -> s.(ier) = UART_IER_RDI -> flag s.(lcr) UART_LCR_DLAB = false -> s.(timeout_ipending) = 0 ->
  now + s.(char_transmit_time) * 4 <= t ->
  let q := if flag s.(fcr) UART_FCR_FE then take 16 (contents s.(recv_fifo) ++ [b]) else [b] in
  exists s', run_ops drv (Receive now [b] :: if reached q s then [] else [Timers t]) s = Some s' /\
    waiting q s' /\ level s' = level s /\ s'.(irq) = (if reached q s then [1] else [1; 0]) ++ s.(irq) /\
    tmp_iir s' = (if reached q s then UART_IIR_RDI else UART_IIR_CTI) /\
    (flag s'.(fcr) UART_FCR_FE = true \/ s'.(timeout_ipending) = 0).
Proof.
  intros Hc Hb Hier Hd Hto Ht q.
  destruct (receive_waiting now b s Hc Hb Hier Hd Hto) as (s1 & E1 & Hw1 & Hl1 & Hf1 & Hto1 & Hirq1 & Htimer).
  fold q in Hw1, Hirq1. cbn [run_ops run_op]. rewrite E1. cbn [mbind option_bind].
  destruct (reached q s) eqn:Hq.
  - exists s1. split_and!; [done | done | done | done | | by right].
    rewrite (waiting_iir q s1 Hw1), Hto1. unfold reached. rewrite Hl1. fold (reached q s). by rewrite Hq.
  - assert (Hfe : flag s.(fcr) UART_FCR_FE = true).
    { revert Hq. unfold reached, level, q. by destruct (flag s.(fcr) UART_FCR_FE). }
    destruct (timeout_waiting drv q t (now + s.(char_transmit_time) * 4) s1 Hw1)
      as (s2 & E2 & Hw2 & Hl2 & Hf2 & Hto2 & Hirq2); [by rewrite Hf1 | by apply Htimer | done |].
    exists s2. cbn [run_ops run_op]. rewrite E2. split_and!; [done | done | congruence | | | left; by rewrite Hf2, Hf1].
    + by rewrite Hirq2, Hirq1.
    + by rewrite (waiting_iir q s2 Hw2), Hto2.
Qed.

(** Reading takes the oldest byte, and the line follows what is left. *)
Lemma read_waiting {C} (drv : CharDriver C) now q (s : SerialState (C := C)) :
  waiting q s -> flag s.(fcr) UART_FCR_FE = true \/ s.(timeout_ipending) = 0 ->
  exists s', serial_ioport_read drv now 0 s = Some (default 0 (head q), s') /\
    s'.(irq) = c_bool (bool_decide (tail q <> []) && reached (tail q) s) :: s.(irq).
Proof.
  intros [] Hto. unfold serial_ioport_read. cbn [Z.land Z.eqb]. rewrite wt_dlab0. unfold read_rbr, reached, level.
  destruct (flag s.(fcr) UART_FCR_FE) eqn:Hfe.
  - destruct (get_recv s wt_core0) as (c & f & E & Hf & _ & -> & Hcs). rewrite E, wt_data0 in *.
    cbn [mbind option_bind set_recv_fifo recv_fifo]. pose proof (fifo_length _ Hf) as Hlen. rewrite Hcs in Hlen.
    assert (Hitl : f.(f_itl) = s.(recv_fifo).(f_itl)).
    { revert E. unfold fifo_get, get_fifo. cbn [RECV_FIFO XMIT_FIFO Z.eqb]. case_match.
      - intros [= _ E]. by apply (f_equal recv_fifo) in E as ->.
      - destruct (_ !! _); [| done]. cbn [mbind option_bind]. by intros [= _ <-]. }
    eexists. split; [reflexivity |]. cbn [serial_update_irq set_irq irq].
    rewrite (tmp_iir_rdi (set_timeout_ipending 0 _)) by (by case_match).
    cbn [timeout_ipending set_timeout_ipending c_true Z.eqb negb lsr fcr recv_fifo].
    destruct (Z.eqb_spec f.(f_count) 0) as [H0 | H0];
      cbn [lsr fcr recv_fifo irq set_lsr set_recv_fifo set_fifo_timeout_timer].
    + rewrite Z.land_spec, andb_false_r. cbn [andb]. rewrite bool_decide_eq_false_2; [done |].
      intros H. apply H, nil_length_inv. lia.
    + rewrite wt_ready0, Hfe, Hitl, <- Hlen. rewrite bool_decide_eq_true_2 by (intros H; rewrite H in Hlen; cbn in Hlen; lia).
      cbn [negb orb andb]. by destruct (_ <=? _).
  - destruct Hto as [| Hto]; [done |]. rewrite wt_data0. eexists. split; [reflexivity |].
    cbn [serial_update_irq set_irq irq]. f_equal. rewrite tmp_iir_rdi by done.
    change (timeout_ipending _) with s.(timeout_ipending) at 1. rewrite Hto.
    cbn [lsr set_lsr]. rewrite Z.land_spec. by rewrite andb_false_r.
Qed.

(** The levels that a device drove on line [k], newest first, as the controller
    saw them *)
Definition driven {M} `{!IrqController M} (k : Z) (levels : list Z) (m : M) : M := foldr (irq_handler k) m levels.

(** ** The theorems *)

(** C18: Whatever the guest, the character device and the timers do, no operation
    of the serial port fails: no FIFO access is out of range and no speed is
    zero.  In every state that is reached the registers are within their widths,
    the transmitter is empty and its timer idle; the interrupt register holds the
    code of a cause exactly when this is the most urgent one that is present and
    enabled, in the order line status, timeout, received data, transmitter,
    modem, and reports no interrupt exactly when there is none; the interrupt
    line is high exactly when some cause is present and enabled. *)
Theorem serial_reachable {C} (drv : CharDriver C) s :
  reachable drv s ->
  (forall o, op_ok o -> is_Some (run_op drv o s)) /\
  (Forall (in_u 8) [s.(rbr); s.(thr); s.(tsr); s.(iir); s.(lcr); s.(lsr); s.(msr); s.(scr); s.(fcr)] /\
   in_u 4 s.(ier) /\ in_u 5 s.(mcr) /\ in_u 16 s.(divider)) /\
  (Z.land s.(lsr) (Z.lor UART_LSR_THRE UART_LSR_TEMT) = Z.lor UART_LSR_THRE UART_LSR_TEMT /\
   contents s.(xmit_fifo) = [] /\ s.(transmit_timer) = None /\ s.(tsr_retry) <= 0) /\
  (forall c, Z.land s.(iir) 0x0F = code c <-> most_urgent c s) /\
  (Z.land s.(iir) 0x0F = UART_IIR_NO_INT <-> forall c, ~ pending c s) /\
  (head s.(irq) = Some 1 <-> exists c, pending c s) /\
  (head s.(irq) = Some 0 <-> forall c, ~ pending c s).
Proof.
  intros Hr. pose proof (reachable_wf drv s Hr) as Hw. pose proof Hw as (Hc & (H5 & H6 & Hx) & Hi & Hl).
  destruct (tmp_iir_urgent s Hc) as [Hcode Hnone]. rewrite Hi, Hl.
  split; [| split; [| split; [| split; [| split; [| split]]]]].
  - intros o Ho. destruct (run_op_wf drv o s Hw Ho) as (s' & -> & _). done.
  - destruct Hc. split; [| done]. by rewrite !Forall_cons, Forall_nil.
  - split_and!.
    + apply Z.bits_inj'. intros i Hi'. rewrite Z.land_spec.
      destruct (decide (i = 5)) as [-> | ]; [by rewrite H5 |]. destruct (decide (i = 6)) as [-> |]; [by rewrite H6 |].
      change (Z.lor UART_LSR_THRE UART_LSR_TEMT) with (Z.lor (Z.shiftl 1 5) (Z.shiftl 1 6)).
      bits_simpl. done.
    + apply nil_length_inv. pose proof (fifo_length _ (co_xmit s Hc)). lia.
    + apply Hc.
    + destruct (co_retry s Hc); lia.
  - done.
  - done.
  - destruct (Z.eqb_spec (tmp_iir s) UART_IIR_NO_INT) as [E | E]; cbn; split; try done.
    + intros [c H]. by apply (proj1 Hnone E) in H.
    + intros _. destruct (tmp_iir_code s) as [c Hc']; [done |]. exists c. by apply Hcode in Hc' as [? _].
  - rewrite <- Hnone. by destruct (Z.eqb_spec (tmp_iir s) UART_IIR_NO_INT).
Qed.

(** After reset with receive and transmit interrupts enabled, the empty transmitter
    is the cause; a byte that arrives is more urgent. *)
Lemma serial_reachable_witness :
  exists s, run_ops recorder [Write 0 1 3; Receive 0 [65]] fresh = Some s /\
    is_Some (run_op recorder (Read 0 2) s) /\ most_urgent DataReady s /\ pending TransmitEmpty s.
Proof.
  destruct (run_ops recorder [Write 0 1 3; Receive 0 [65]] fresh) as [s |] eqn:E; [| vm_compute in E; discriminate].
  exists s. split; [done |].
  destruct (serial_reachable recorder s) as (Hrun & _ & _ & Hcode & _).
  - apply (run_ops_reachable recorder [Write 0 1 3; Receive 0 [65]] fresh); [apply fresh_reachable | | done].
    repeat constructor; done.
  - split; [by apply Hrun |]. vm_compute in E. injection E as <-. split; [by apply Hcode | by split].
Defined.

(** C21: With the divisor latch off, every byte that the guest writes to the
    transmit register is sent at once, exactly once and in order, whether the
    FIFOs are on or not.  Without loopback it is handed to the character device,
    whatever the device answers, and the receiver is left alone: a byte that the
    device refuses is dropped after this one attempt, although the comment before
    the retry counter announces [MAX_XMIT_RETRY] of them.  In loopback the device
    sees nothing; the bytes arrive in the receive FIFO while it has room, or the
    last of them in the receive register, and data are announced. *)
Theorem serial_sends_in_order {C} (drv : CharDriver C) s (l : list (Z * Z)) :
  reachable drv s -> flag s.(lcr) UART_LCR_DLAB = false ->
  let bytes := (fun tv => wrap 8 tv.2) <$> l in
  exists s', run_ops drv ((fun tv => Write tv.1 0 tv.2) <$> l) s = Some s' /\
    contents s'.(xmit_fifo) = [] /\ s'.(transmit_timer) = None /\
    (flag s.(mcr) UART_MCR_LOOP = false ->
       s'.(chr) = foldl (fun c b => (drv.(chr_write) b c).2) s.(chr) bytes /\
       s'.(recv_fifo) = s.(recv_fifo) /\ s'.(rbr) = s.(rbr)) /\
    (flag s.(mcr) UART_MCR_LOOP = true ->
       s'.(chr) = s.(chr) /\ (bytes <> [] -> Z.testbit s'.(lsr) 0 = true) /\
       if flag s.(fcr) UART_FCR_FE
       then contents s'.(recv_fifo) = take 16 (contents s.(recv_fifo) ++ bytes)
       else s'.(rbr) = default s.(rbr) (last bytes)).
Proof.
  intros Hr Hd bytes.
  destruct (write_bytes_some drv l s (reachable_wf drv s Hr) Hd) as (s' & E & (Hc & (_ & _ & Hx) & _) & Hall).
  exists s'. split; [done |]. split; [apply nil_length_inv; pose proof (fifo_length _ (co_xmit s' Hc)); lia |].
  split; [apply Hc |]. unfold all_went in Hall. fold bytes in Hall.
  split; intros Hloop; rewrite Hloop in Hall.
  - destruct Hall as (H1 & _ & H2 & H3 & _). done.
  - destruct Hall as (H1 & H2 & H3). split; [done |]. split; [| done]. intros Hne. rewrite H2.
    by rewrite bool_decide_eq_true_2, orb_true_r.
Qed.

(** Three bytes to a device that refuses all of them, and two in loopback *)
Lemma serial_sends_in_order_witness :
  (exists s', run_ops refuser [Write 0 0 72; Write 1 0 105; Write 2 0 33] fresh = Some s' /\
    s'.(chr) = [72; 105; 33] /\ contents s'.(xmit_fifo) = []) /\
  (exists s s', run_ops recorder [Write 0 2 0x01; Write 0 4 0x10] fresh = Some s /\
    run_ops recorder [Write 0 0 72; Write 1 0 105] s = Some s' /\
    s'.(chr) = [] /\ contents s'.(recv_fifo) = [72; 105]).
Proof.
  split.
  - destruct (serial_sends_in_order refuser fresh [(0, 72); (1, 105); (2, 33)] (fresh_reachable refuser))
      as (s' & E & Hx & _ & Hc & _); [reflexivity |].
    exists s'. split; [exact E |]. split; [by apply Hc | exact Hx].
  - destruct (run_ops recorder [Write 0 2 0x01; Write 0 4 0x10] fresh) as [s |] eqn:E; [| vm_compute in E; discriminate].
    assert (Hr : reachable recorder s).
    { apply (run_ops_reachable recorder [Write 0 2 0x01; Write 0 4 0x10] fresh);
        [apply fresh_reachable | by repeat constructor | done]. }
    vm_compute in E. injection E as <-. eexists.
    destruct (serial_sends_in_order recorder _ [(0, 72); (1, 105)] Hr) as (s' & E' & _ & _ & _ & Hloop); [reflexivity |].
    exists s'. split; [vm_compute; reflexivity |]. split; [exact E' |].
    destruct (Hloop eq_refl) as (H1 & _ & H2). split; [exact H1 | exact H2].
Defined.

(** C22: With the FIFOs on, the receiver is a queue of sixteen bytes: what arrives
    is appended while there is room, losing a byte is reported as an overrun and
    nothing else is, reads return the oldest byte and zero when there is none.
    A character device that sends no more than the port says it can take never
    loses a byte. *)
Theorem serial_receives_in_order {C} (drv : CharDriver C) s now buf :
  reachable drv s -> flag s.(fcr) UART_FCR_FE = true -> buf <> [] -> Forall byte_wf buf ->
  (exists s', serial_receive1 now buf s = Some s' /\
     contents s'.(recv_fifo) = take 16 (contents s.(recv_fifo) ++ buf) /\
     Z.testbit s'.(lsr) 0 = true /\
     Z.testbit s'.(lsr) 1 = Z.testbit s.(lsr) 1 || bool_decide (16 < length (contents s.(recv_fifo) ++ buf))%nat /\
     (Z.of_nat (length buf) <= serial_can_receive1 s ->
        contents s'.(recv_fifo) = contents s.(recv_fifo) ++ buf /\ Z.testbit s'.(lsr) 1 = Z.testbit s.(lsr) 1)) /\
  (flag s.(lcr) UART_LCR_DLAB = false ->
   exists s', serial_ioport_read drv now 0 s = Some (default 0 (head (contents s.(recv_fifo))), s') /\
     contents s'.(recv_fifo) = tail (contents s.(recv_fifo))).
Proof.
  intros Hr Hfe Hne Hb. pose proof (reachable_wf drv s Hr) as Hw. pose proof Hw as (Hc & _ & _).
  pose proof (co_recv s Hc) as Hf. pose proof (fifo_length _ Hf) as Hlen. split.
  - destruct (put_all_some buf s Hf Hb) as (f & E & Hok & Hi & Hcs). unfold serial_receive1. rewrite Hfe, E.
    cbn [mbind option_bind]. eexists. split; [reflexivity |]. cbn [serial_update_irq set_irq set_iir recv_fifo
      set_fifo_timeout_timer set_lsr set_recv_fifo lsr]. split; [done |].
    assert (Hover : (16 <? s.(recv_fifo).(f_count) + Z.of_nat (length buf)) =
      bool_decide (16 < length (contents s.(recv_fifo) ++ buf))%nat).
    { rewrite length_app. case_bool_decide; [apply Z.ltb_lt | apply Z.ltb_ge]; lia. }
    rewrite Hover. split; [rewrite Z.lor_spec; apply orb_true_r |]. split.
    + rewrite Z.lor_spec, orb_false_r. case_bool_decide; [by rewrite Z.lor_spec | by rewrite orb_false_r].
    + unfold serial_can_receive1, serial_can_receive, UART_FIFO_LENGTH. rewrite Hfe. intros Hroom.
      pose proof (ff_itl _ Hf). assert (Hfit : (length (contents s.(recv_fifo) ++ buf) <= 16)%nat).
      { rewrite length_app. assert (buf = [] \/ 1 <= Z.of_nat (length buf)) as [-> |]
          by (destruct buf; [by left | right; cbn; lia]); [done |]. repeat case_match; lia. }
      rewrite bool_decide_eq_false_2 by lia. rewrite Hcs, take_ge, Z.lor_spec, orb_false_r by lia. done.
  - intros Hd. destruct (read_rbr_some now s Hw) as (v & s' & E & _ & Hval & _). destruct (Hval Hfe) as [-> Ht].
    exists s'. split; [| done]. unfold serial_ioport_read. cbn [Z.land Z.eqb]. by rewrite Hd.
Qed.

(** Two bytes into an empty FIFO *)
Lemma serial_receives_in_order_witness :
  exists s s', run_ops recorder [Write 0 2 0x81] fresh = Some s /\ serial_receive1 5 [72; 105] s = Some s' /\
    contents s'.(recv_fifo) = [72; 105] /\ Z.testbit s'.(lsr) 1 = false.
Proof.
  destruct (run_ops recorder [Write 0 2 0x81] fresh) as [s |] eqn:E; [| vm_compute in E; discriminate].
  exists s. destruct (serial_receives_in_order recorder s 5 [72; 105]) as [(s' & E' & _ & _ & _ & Hfit) _].
  - apply (run_ops_reachable recorder [Write 0 2 0x81] fresh); [apply fresh_reachable | by repeat constructor | done].
  - vm_compute in E. by injection E as <-.
  - done.
  - by_eval.
  - exists s'. split; [done |]. split; [done |]. vm_compute in E. injection E as <-. apply Hfit. by vm_compute.
Defined.

(** C23: A byte from outside reaches the processor.  At a port with only receive
    interrupts enabled, no timeout pending, and an interrupt controller [m] idle
    on its line [k]: if the bytes that now wait, the new one last, are as many as
    the trigger level (one when the FIFOs are off), the byte raises the line and
    the interrupt register names received data; if they are fewer, the line stays
    low until the timers run four character times later, and then is raised with
    the timeout as its cause.  Either way the processor is interrupted with the
    vector of the line; reading the port returns the oldest waiting byte, and the
    line stays high exactly when bytes are left that reach the level. *)
Theorem serial_byte_interrupts {C M} (drv : CharDriver C) `{!IrqController M} s now t now' b (m : M) k :
  reachable drv s -> byte_wf b -> s.(ier) = UART_IER_RDI -> flag s.(lcr) UART_LCR_DLAB = false ->
  s.(timeout_ipending) = 0 -> irq_idle m k -> irq_low m k -> now + s.(char_transmit_time) * 4 <= t ->
  let q := if flag s.(fcr) UART_FCR_FE then take 16 (contents s.(recv_fifo) ++ [b]) else [b] in
  let enough (q : list Z) := level s <=? Z.of_nat (length q) in
  let levels := if enough q then [1] else [1; 0] in
  exists s' s'', run_ops drv (Receive now [b] :: if enough q then [] else [Timers t]) s = Some s' /\
    s'.(irq) = levels ++ s.(irq) /\
    irq_pending (driven k levels m) /\ (irq_ack (driven k levels m)).1 = irq_vector m k /\
    Z.land s'.(iir) 0x0F = (if enough q then UART_IIR_RDI else UART_IIR_CTI) /\
    serial_ioport_read drv now' 0 s' = Some (default 0 (head q), s'') /\
    s''.(irq) = c_bool (bool_decide (tail q <> []) && enough (tail q)) :: s'.(irq).
Proof.
  intros Hr Hb Hier Hd Hto Hidle Hlow Ht q enough levels. pose proof (reachable_wf drv s Hr) as (Hc & _ & _).
  destruct (byte_waits drv now t b s Hc Hb Hier Hd Hto Ht) as (s' & E & Hw & Hl & Hirq & Hiir & Hfe).
  fold q in E, Hw, Hirq, Hiir. change (reached q s) with (enough q) in E, Hirq, Hiir.
  assert (Hcpu : irq_pending (driven k levels m) /\ (irq_ack (driven k levels m)).1 = irq_vector m k).
  { unfold levels. destruct (enough q); [by apply irq_raise_law |].
    destruct (irq_lower_idle_law m k k Hidle Hlow) as [Hi <-]. by apply irq_raise_law. }
  destruct (read_waiting drv now' q s' Hw Hfe) as (s'' & Eread & Hirq'').
  assert (Hr' : reachable drv s').
  { refine (run_ops_reachable drv _ s s' Hr _ E). constructor; [split; [done | by apply Forall_singleton] |].
    destruct (enough q); by repeat constructor. }
  pose proof (reachable_wf drv s' Hr') as (_ & _ & Hi & _).
  exists s', s''. split_and!; [done | done | apply Hcpu | apply Hcpu | congruence | done |].
  rewrite Hirq''. unfold reached. by rewrite Hl.
Qed.

(** The first port of the board, on line 4 of the interrupt controllers: a byte
    with the FIFOs off, and one below the trigger level of four *)
Lemma serial_byte_interrupts_witness :
  (exists s s' s'', run_ops recorder [Write 0 1 1] fresh = Some s /\ run_ops recorder [Receive 5 [65]] s = Some s' /\
    head (i8259_set_irq 4 1 i8259_init).(parent_irq) = Some 1 /\
    serial_ioport_read recorder 6 0 s' = Some (65, s'') /\ head s''.(irq) = Some 0) /\
  (exists s s' s'', run_ops recorder [Write 0 1 1; Write 0 2 0x41] fresh = Some s /\
    run_ops recorder [Receive 5 [65]; Timers 10000000] s = Some s' /\ Z.land s'.(iir) 0x0F = UART_IIR_CTI /\
    serial_ioport_read recorder 10000001 0 s' = Some (65, s'') /\ head s''.(irq) = Some 0).
Proof.
  assert (Hidle : pics_idle i8259_init 4).
  { split; [constructor; [apply i8259_init_wf | reflexivity..] |].
    split; [constructor; [split; lia | reflexivity..] | lia]. }
  assert (Hlow : pics_low i8259_init 4) by (by_eval).
  split.
  - destruct (run_ops recorder [Write 0 1 1] fresh) as [s |] eqn:E; [| vm_compute in E; discriminate].
    assert (Hr : reachable recorder s).
    { apply (run_ops_reachable recorder [Write 0 1 1] fresh); [apply fresh_reachable | by repeat constructor | done]. }
    exists s. vm_compute in E. injection E as <-.
    destruct (serial_byte_interrupts recorder _ 5 10000000 6 65 i8259_init 4 Hr)
      as (s' & s'' & H1 & _ & H3 & _ & _ & H6 & H7);
      [by split | reflexivity | reflexivity | reflexivity | exact Hidle | exact Hlow | by_eval |].
    exists s', s''. split; [vm_compute; reflexivity |]. split; [exact H1 |]. split; [exact H3 |]. split; [exact H6 |].
    by rewrite H7.
  - destruct (run_ops recorder [Write 0 1 1; Write 0 2 0x41] fresh) as [s |] eqn:E; [| vm_compute in E; discriminate].
    assert (Hr : reachable recorder s).
    { apply (run_ops_reachable recorder [Write 0 1 1; Write 0 2 0x41] fresh);
        [apply fresh_reachable | by repeat constructor | done]. }
    exists s. vm_compute in E. injection E as <-.
    destruct (serial_byte_interrupts recorder _ 5 10000000 10000001 65 i8259_init 4 Hr)
      as (s' & s'' & H1 & _ & _ & _ & H5 & H6 & H7);
      [by split | reflexivity | reflexivity | reflexivity | exact Hidle | exact Hlow | by_eval |].
    exists s', s''. split; [vm_compute; reflexivity |]. split; [exact H1 |]. split; [exact H5 |]. split; [exact H6 |].
    by rewrite H7.
Defined.
