(* ===== verification/Dma.v ===== *)
(** * The 8237 DMA controllers (qemu/hw/dma.c)

    Two controllers of four channels.  A channel moves data by calling the
    transfer handler its device registered; handlers are a parameter that may
    change the controllers as well (devices release their request from inside
    the handler).  The scheduling of the bottom half that runs the channels
    again is the boolean result of [DMA_run].  Guest memory is reached through
    [cpu_physical_memory_read] and [cpu_physical_memory_write] of exec.c,
    which are a parameter here.  [None] is an access to a fifth channel.

    Theorems: the byte-wise register protocol, which channels run, and what
    transfers in address-decrement mode really do. *)

From Stdlib Require Import ZArith Lia.
From stdpp Require Import base option numbers list.
From S2P Require Import Prelude.

Local Open Scope Z_scope.

Section Dma.
Context {H : Type}.

(** ** State *)

(** One channel; [transfer_handler] stands for the function pointer and its
    opaque argument. *)
Record dma_regs := mkRegs {
  now_addr : Z;
  now_count : Z;
  base_addr : Z;
  base_count : Z;
  mode : Z;
  page : Z;
  pageh : Z;
  transfer_handler : H
}.

Definition set_now_addr (v : Z) (r : dma_regs) : dma_regs :=
  mkRegs v r.(now_count) r.(base_addr) r.(base_count) r.(mode) r.(page) r.(pageh) r.(transfer_handler).
Definition set_now_count (v : Z) (r : dma_regs) : dma_regs :=
  mkRegs r.(now_addr) v r.(base_addr) r.(base_count) r.(mode) r.(page) r.(pageh) r.(transfer_handler).
Definition set_base_addr (v : Z) (r : dma_regs) : dma_regs :=
  mkRegs r.(now_addr) r.(now_count) v r.(base_count) r.(mode) r.(page) r.(pageh) r.(transfer_handler).
Definition set_base_count (v : Z) (r : dma_regs) : dma_regs :=
  mkRegs r.(now_addr) r.(now_count) r.(base_addr) v r.(mode) r.(page) r.(pageh) r.(transfer_handler).
Definition set_mode (v : Z) (r : dma_regs) : dma_regs :=
  mkRegs r.(now_addr) r.(now_count) r.(base_addr) r.(base_count) v r.(page) r.(pageh) r.(transfer_handler).
Definition set_page (v : Z) (r : dma_regs) : dma_regs :=
  mkRegs r.(now_addr) r.(now_count) r.(base_addr) r.(base_count) r.(mode) v r.(pageh) r.(transfer_handler).
Definition set_pageh (v : Z) (r : dma_regs) : dma_regs :=
  mkRegs r.(now_addr) r.(now_count) r.(base_addr) r.(base_count) r.(mode) r.(page) v r.(transfer_handler).
Definition set_transfer_handler (v : H) (r : dma_regs) : dma_regs :=
  mkRegs r.(now_addr) r.(now_count) r.(base_addr) r.(base_count) r.(mode) r.(page) r.(pageh) v.

(** One controller *)
Record dma_cont := mkCont {
  status : Z;
  command : Z;
  mask : Z;
  flip_flop : Z;
  dshift : Z;
  regs : list dma_regs
}.

Definition set_status (v : Z) (d : dma_cont) : dma_cont :=
  mkCont v d.(command) d.(mask) d.(flip_flop) d.(dshift) d.(regs).
Definition set_command (v : Z) (d : dma_cont) : dma_cont :=
  mkCont d.(status) v d.(mask) d.(flip_flop) d.(dshift) d.(regs).
Definition set_mask (v : Z) (d : dma_cont) : dma_cont :=
  mkCont d.(status) d.(command) v d.(flip_flop) d.(dshift) d.(regs).
Definition set_flip_flop (v : Z) (d : dma_cont) : dma_cont :=
  mkCont d.(status) d.(command) d.(mask) v d.(dshift) d.(regs).
Definition set_dshift (v : Z) (d : dma_cont) : dma_cont :=
  mkCont d.(status) d.(command) d.(mask) d.(flip_flop) v d.(regs).
Definition set_regs (v : list dma_regs) (d : dma_cont) : dma_cont :=
  mkCont d.(status) d.(command) d.(mask) d.(flip_flop) d.(dshift) v.

(** [dma_controllers[2]] *)
Abbreviation dma_state := (list dma_cont).

(** [d->regs[ichan]] updated by [f] *)
Definition on_regs (ichan : Z) (f : dma_regs -> dma_regs) (d : dma_cont) : option dma_cont :=
  r ← (if ichan <? 0 then None else d.(regs) !! Z.to_nat ichan);
  Some (set_regs (<[Z.to_nat ichan := f r]> d.(regs)) d).

Definition CMD_NOT_SUPPORTED : Z := 0xFB.

(** [static int channels[8]] *)
Definition channels : list Z := [-1; 2; 3; 1; -1; -1; -1; 0].

Definition channel_of (nport : Z) : Z := default (-1) (channels !! Z.to_nat (Z.land nport 7)).

(** ** Page registers *)

Definition write_page (d : dma_cont) (nport data : Z) : option dma_cont :=
  let ichan := channel_of nport in
  if -1 =? ichan then Some d else on_regs ichan (set_page (wrap 8 data)) d.

Definition write_pageh (d : dma_cont) (nport data : Z) : option dma_cont :=
  let ichan := channel_of nport in
  if -1 =? ichan then Some d else on_regs ichan (set_pageh (wrap 8 data)) d.

Definition read_page (d : dma_cont) (nport : Z) : option Z :=
  let ichan := channel_of nport in
  if -1 =? ichan then Some 0 else page <$> d.(regs) !! Z.to_nat ichan.

Definition read_pageh (d : dma_cont) (nport : Z) : option Z :=
  let ichan := channel_of nport in
  if -1 =? ichan then Some 0 else pageh <$> d.(regs) !! Z.to_nat ichan.

(** ** Channel registers *)

Definition init_chan (dshift : Z) (r : dma_regs) : dma_regs :=
  set_now_count 0 (set_now_addr (Z.shiftl r.(base_addr) dshift) r).

Definition getff (d : dma_cont) : Z * dma_cont :=
  (d.(flip_flop), set_flip_flop (c_bool (d.(flip_flop) =? 0)) d).

Definition read_chan (d : dma_cont) (nport : Z) : option (Z * dma_cont) :=
  let iport := Z.land (Z.shiftr nport d.(dshift)) 0x0f in
  let ichan := Z.shiftr iport 1 in
  let nreg := Z.land iport 1 in
  r ← d.(regs) !! Z.to_nat ichan;
  let dir := if c_true (Z.land (Z.shiftr r.(mode) 5) 1) then -1 else 1 in
  let '(ff, d) := getff d in
  let val := if c_true nreg then Z.shiftl r.(base_count) d.(dshift) - r.(now_count)
             else r.(now_addr) + r.(now_count) * dir in
  Some (Z.land (Z.shiftr val (d.(dshift) + Z.shiftl ff 3)) 0xff, d).

(** [r->base[nreg] = ...] *)
Definition update_base (nreg : Z) (f : Z -> Z) (r : dma_regs) : dma_regs :=
  if c_true nreg then set_base_count (wrap 16 (f r.(base_count))) r
  else set_base_addr (wrap 16 (f r.(base_addr))) r.

Definition write_chan (d : dma_cont) (nport data : Z) : option dma_cont :=
  let iport := Z.land (Z.shiftr nport d.(dshift)) 0x0f in
  let ichan := Z.shiftr iport 1 in
  let nreg := Z.land iport 1 in
  let '(ff, d) := getff d in
  if c_true ff then
    on_regs ichan (fun r =>
      init_chan d.(dshift)
        (update_base nreg
           (fun b => Z.lor (Z.land b 0xff) (Z.land (Z.shiftl data 8) 0xff00)) r)) d
  else
    on_regs ichan
      (update_base nreg (fun b => Z.lor (Z.land b 0xff00) (Z.land data 0xff))) d.

(** ** Running the channels *)

(** [handler(opaque, nchan, pos, size)]: the new position, and the
    controllers as the handler leaves them *)
Context (call : H -> Z -> Z -> Z -> dma_state -> Z * dma_state).

(** [dma_controllers[ncont]] updated by [f] *)
Definition on_cont (ncont : Z) (f : dma_cont -> option dma_cont) (s : dma_state)
  : option dma_state :=
  d ← s !! Z.to_nat ncont;
  d ← f d;
  Some (<[Z.to_nat ncont := d]> s).

Definition channel_run (s : dma_state) (ncont ichan : Z) : option dma_state :=
  d ← s !! Z.to_nat ncont;
  r ← d.(regs) !! Z.to_nat ichan;
  let '(n, s) := call r.(transfer_handler) (ichan + Z.shiftl ncont 2) r.(now_count)
                   (Z.shiftl (r.(base_count) + 1) ncont) s in
  on_cont ncont (on_regs ichan (set_now_count n)) s.

(** The condition of the inner loop *)
Definition runnable (d : dma_cont) (ichan : Z) : bool :=
  let m := Z.shiftl 1 ichan in
  (0 =? Z.land d.(mask) m) && negb (0 =? Z.land d.(status) (Z.shiftl m 4)).

(** [for (ichan = 0; ichan < 4; ichan++)] *)
Fixpoint run_channels (n : nat) (icont ichan : Z) (s : dma_state) (rearm : bool)
  : option (dma_state * bool) :=
  match n with
  | O => Some (s, rearm)
  | S n =>
      d ← s !! Z.to_nat icont;
      if runnable d ichan then
        s ← channel_run s icont ichan;
        run_channels n icont (ichan + 1) s true
      else run_channels n icont (ichan + 1) s rearm
  end.

(** [for (icont = 0; icont < 2; icont++, d++)] *)
Fixpoint run_controllers (n : nat) (icont : Z) (s : dma_state) (rearm : bool)
  : option (dma_state * bool) :=
  match n with
  | O => Some (s, rearm)
  | S n =>
      '(s, rearm) ← run_channels 4 icont 0 s rearm;
      run_controllers n (icont + 1) s rearm
  end.

(** The boolean says that the bottom half was scheduled. *)
Definition DMA_run (s : dma_state) : option (dma_state * bool) := run_controllers 2 0 s false.

(** ** Controller registers *)

Definition clear_mask (x m : Z) : Z := wrap 8 (Z.land x (Z.lnot m)).

(** The register update of [write_cont], and whether [DMA_run] follows *)
Definition write_cont_regs (d : dma_cont) (iport data : Z) : option (dma_cont * bool) :=
  if iport =? 0x08 then
    if negb (data =? 0) && c_true (Z.land data CMD_NOT_SUPPORTED) then Some (d, false)
    else Some (set_command (wrap 8 data) d, false)
  else if iport =? 0x09 then
    let ichan := Z.land data 3 in
    let d := if c_true (Z.land data 4)
             then set_status (wrap 8 (Z.lor d.(status) (Z.shiftl 1 (ichan + 4)))) d
             else set_status (clear_mask d.(status) (Z.shiftl 1 (ichan + 4))) d in
    Some (set_status (clear_mask d.(status) (Z.shiftl 1 ichan)) d, true)
  else if iport =? 0x0a then
    let m := Z.shiftl 1 (Z.land data 3) in
    Some (set_mask (if c_true (Z.land data 4) then wrap 8 (Z.lor d.(mask) m)
                    else clear_mask d.(mask) m) d, true)
  else if iport =? 0x0b then
    d ← on_regs (Z.land data 3) (set_mode (wrap 8 data)) d;
    Some (d, false)
  else if iport =? 0x0c then Some (set_flip_flop 0 d, false)
  else if iport =? 0x0d then
    Some (set_command 0 (set_status 0 (set_mask (wrap 8 (Z.lnot 0)) (set_flip_flop 0 d))), false)
  else if iport =? 0x0e then Some (set_mask 0 d, true)
  else if iport =? 0x0f then Some (set_mask (wrap 8 data) d, true)
  else Some (d, false).

Definition write_cont (s : dma_state) (ncont nport data : Z) : option (dma_state * bool) :=
  d ← s !! Z.to_nat ncont;
  '(d, run) ← write_cont_regs d (Z.land (Z.shiftr nport d.(dshift)) 0x0f) data;
  let s := <[Z.to_nat ncont := d]> s in
  if run : bool then DMA_run s else Some (s, false).

Definition read_cont (d : dma_cont) (nport : Z) : Z * dma_cont :=
  let iport := Z.land (Z.shiftr nport d.(dshift)) 0x0f in
  if iport =? 0x08 then (d.(status), set_status (Z.land d.(status) 0xf0) d)
  else if iport =? 0x0f then (d.(mask), d)
  else (0, d).

Definition dma_reset (s : dma_state) (ncont : Z) : option (dma_state * bool) :=
  d ← s !! Z.to_nat ncont;
  write_cont s ncont (Z.shiftl 0x0d d.(dshift)) 0.

(** ** Requests of devices *)

Definition DMA_hold_DREQ (s : dma_state) (nchan : Z) : option (dma_state * bool) :=
  let ncont := c_bool (3 <? nchan) in
  let ichan := Z.land nchan 3 in
  s ← on_cont ncont (fun d =>
        Some (set_status (wrap 8 (Z.lor d.(status) (Z.shiftl 1 (ichan + 4)))) d)) s;
  DMA_run s.

Definition DMA_release_DREQ (s : dma_state) (nchan : Z) : option (dma_state * bool) :=
  let ncont := c_bool (3 <? nchan) in
  let ichan := Z.land nchan 3 in
  s ← on_cont ncont (fun d => Some (set_status (clear_mask d.(status) (Z.shiftl 1 (ichan + 4))) d)) s;
  DMA_run s.

Definition DMA_register_channel (s : dma_state) (nchan : Z) (h : H) : option dma_state :=
  on_cont (c_bool (3 <? nchan)) (on_regs (Z.land nchan 3) (set_transfer_handler h)) s.

(** [&dma_controllers[nchan > 3].regs[nchan & 3]] *)
Definition get_channel (s : dma_state) (nchan : Z) : option dma_regs :=
  d ← s !! Z.to_nat (c_bool (3 <? nchan));
  d.(regs) !! Z.to_nat (Z.land nchan 3).

Definition DMA_get_channel_mode (s : dma_state) (nchan : Z) : option Z :=
  mode <$> get_channel s nchan.

(** The physical address of a channel, a [target_phys_addr_t] of 64 bits *)
Definition channel_addr (r : dma_regs) : Z :=
  Z.lor (Z.lor (Z.shiftl (Z.land r.(pageh) 0x7f) 24) (Z.shiftl r.(page) 16)) r.(now_addr).

(** The loop [for (i = 0; i < n; i++) p[i] = p[len - i - 1]] *)
Fixpoint copy_back (n i : nat) (p : list Z) : list Z :=
  match n with
  | O => p
  | S n => copy_back n (S i) (<[i := default 0 (p !! (length p - i - 1)%nat)]> p)
  end.

(** [memory_read addr len] is what [cpu_physical_memory_read] stores in the
    buffer; the result is the buffer after the call. *)
Definition DMA_read_memory (memory_read : Z -> nat -> list Z) (s : dma_state) (nchan pos : Z)
    (len : nat) : option (list Z) :=
  r ← get_channel s nchan;
  let addr := channel_addr r in
  if c_true (Z.land r.(mode) 0x20) then
    let buf := memory_read (wrap 64 (addr - pos - Z.of_nat len)) len in
    Some (copy_back (Nat.div2 len) 0 buf)
  else Some (memory_read (wrap 64 (addr + pos)) len).

(** The address and the bytes [cpu_physical_memory_write] is given, and the
    buffer after the call *)
Definition DMA_write_memory (s : dma_state) (nchan : Z) (buf : list Z) (pos : Z)
  : option (Z * list Z * list Z) :=
  r ← get_channel s nchan;
  let addr := channel_addr r in
  let len := length buf in
  if c_true (Z.land r.(mode) 0x20) then
    Some (wrap 64 (addr - pos - Z.of_nat len), buf, copy_back len 0 buf)
  else Some (wrap 64 (addr + pos), buf, buf).

(** [d->dshift = dshift; ...; dma_reset(d)], then the handlers.  The port
    registrations in between are in [IsaBoard]. *)
Definition dma_init2 (dma_phony_handler : H) (s : dma_state) (ncont dshift : Z)
  : option dma_state :=
  s ← on_cont ncont (fun d => Some (set_dshift dshift d)) s;
  '(s, _) ← dma_reset s ncont;
  on_cont ncont (fun d =>
    Some (set_regs (set_transfer_handler dma_phony_handler <$> d.(regs)) d)) s.

(** [static struct dma_cont dma_controllers[2]], zero before the first use *)
Definition dma_controllers (null : H) : dma_state :=
  replicate 2 (mkCont 0 0 0 0 0 (replicate 4 (mkRegs 0 0 0 0 0 0 0 null))).

Definition DMA_init (null dma_phony_handler : H) : option dma_state :=
  s ← dma_init2 dma_phony_handler (dma_controllers null) 0 0;
  dma_init2 dma_phony_handler s 1 1.
End Dma.

(** ** Shape of the state *)

Definition cont_wf {H} (d : dma_cont (H := H)) : Prop :=
  length d.(regs) = 4%nat /\ (d.(dshift) = 0 \/ d.(dshift) = 1).

Definition dma_wf {H} (s : list (dma_cont (H := H))) : Prop :=
  length s = 2%nat /\ Forall cont_wf s.

Lemma DMA_init_eq {H} call (null phony : H) :
  DMA_init call null phony =
  Some [mkCont 0 0 255 0 0 (replicate 4 (mkRegs 0 0 0 0 0 0 0 phony));
        mkCont 0 0 255 0 1 (replicate 4 (mkRegs 0 0 0 0 0 0 0 phony))].
Proof. reflexivity. Qed.

Lemma DMA_init_wf {H} call (null phony : H) :
  exists s, DMA_init call null phony = Some s /\ dma_wf s.
Proof. rewrite DMA_init_eq. eexists. split; [done |]. split; [done |].
  constructor; [split; [done | by left] |]. constructor; [split; [done | by right] | constructor].
Qed.

(** ** The byte protocol of the channel registers *)

Section Protocol.
Context {H : Type}.
Implicit Types d : dma_cont (H := H).

(** The register an access to [nport] selects, and the value it reads *)
Definition chan_reg (d : dma_cont (H := H)) (nport : Z) : option (dma_regs (H := H)) :=
  d.(regs) !! Z.to_nat (Z.shiftr (Z.land (Z.shiftr nport d.(dshift)) 0x0f) 1).

Definition chan_base (nreg : Z) (r : dma_regs (H := H)) : Z :=
  if c_true nreg then r.(base_count) else r.(base_addr).

Lemma lor_bytes (lo hi : Z) : in_u 8 lo -> Z.lor (Z.shiftl hi 8) lo = hi * 256 + lo.
Proof. intros. by apply (lor_shiftl_add 8). Qed.

Lemma low_byte_update (b lo : Z) :
  in_u 8 lo -> Z.land (wrap 16 (Z.lor (Z.land b 0xff00) (Z.land lo 0xff))) 0xff = lo.
Proof.
  intros Hlo. apply Z.bits_inj'. intros i Hi.
  change 0xff with (Z.ones 8). change 0xff00 with (Z.shiftl (Z.ones 8) 8).
  destruct (Z.ltb_spec i 8).
  - bits_simpl. done.
  - rewrite (testbit_high 8 lo) by (done || lia). bits_simpl. done.
Qed.

Lemma word_update (b lo hi : Z) :
  in_u 8 lo -> in_u 8 hi ->
  wrap 16 (Z.lor (Z.land (wrap 16 (Z.lor (Z.land b 0xff00) (Z.land lo 0xff))) 0xff)
                 (Z.land (Z.shiftl hi 8) 0xff00)) = hi * 256 + lo.
Proof.
  intros Hlo Hhi. rewrite low_byte_update by done.
  replace (Z.land (Z.shiftl hi 8) 0xff00) with (Z.shiftl hi 8).
  - rewrite Z.lor_comm, lor_bytes by done. apply wrap_small.
    unfold in_u in *. lia.
  - change 0xff00 with (Z.shiftl (Z.ones 8) 8). rewrite <- Z.shiftl_land.
    rewrite Z.land_ones, Z.mod_small by (done || lia). done.
Qed.

Lemma set_flip_flop_same d : set_flip_flop d.(flip_flop) d = d.
Proof. by destruct d. Qed.

Lemma on_regs_lookup d ichan f r :
  0 <= ichan -> d.(regs) !! Z.to_nat ichan = Some r ->
  on_regs ichan f d = Some (set_regs (<[Z.to_nat ichan := f r]> d.(regs)) d).
Proof. intros Hi Hr. unfold on_regs. by rewrite (proj2 (Z.ltb_ge _ _) Hi), Hr. Qed.

Lemma chan_base_update nreg f r :
  nreg = 0 \/ nreg = 1 -> chan_base nreg (update_base nreg f r) = wrap 16 (f (chan_base nreg r)).
Proof. by intros [-> | ->]. Qed.

(** A write of the first byte, of the second, and a read of either *)
Lemma write_chan_lo d nport lo r :
  d.(flip_flop) = 0 -> chan_reg d nport = Some r ->
  let iport := Z.land (Z.shiftr nport d.(dshift)) 0x0f in
  write_chan d nport lo =
    Some (set_regs (<[Z.to_nat (Z.shiftr iport 1) :=
            update_base (Z.land iport 1)
              (fun b => Z.lor (Z.land b 0xff00) (Z.land lo 0xff)) r]> d.(regs))
          (set_flip_flop 1 d)).
Proof.
  intros Hff Hr iport. unfold write_chan, getff. rewrite Hff. cbn -[Z.land Z.shiftr Z.lor Z.to_nat].
  erewrite on_regs_lookup; [reflexivity | apply Z.shiftr_nonneg, Z.land_nonneg; by right | exact Hr].
Qed.

Lemma write_chan_hi d nport hi r :
  d.(flip_flop) = 1 -> chan_reg d nport = Some r ->
  let iport := Z.land (Z.shiftr nport d.(dshift)) 0x0f in
  write_chan d nport hi =
    Some (set_regs (<[Z.to_nat (Z.shiftr iport 1) :=
            init_chan d.(dshift) (update_base (Z.land iport 1)
              (fun b => Z.lor (Z.land b 0xff) (Z.land (Z.shiftl hi 8) 0xff00)) r)]> d.(regs))
          (set_flip_flop 0 d)).
Proof.
  intros Hff Hr iport. unfold write_chan, getff. rewrite Hff. cbn -[Z.land Z.shiftr Z.lor Z.to_nat].
  erewrite on_regs_lookup; [reflexivity | apply Z.shiftr_nonneg, Z.land_nonneg; by right | exact Hr].
Qed.

Lemma shiftr_chan (v s ff : Z) :
  0 <= s -> 0 <= ff -> Z.shiftr (Z.shiftl v s) (s + ff) = Z.shiftr v ff.
Proof.
  intros. rewrite <- Z.shiftr_shiftr by done. by rewrite Z.shiftr_shiftl_l, Z.sub_diag, Z.shiftl_0_r by done.
Qed.

Lemma land_1_cases x : Z.land x 1 = 0 \/ Z.land x 1 = 1.
Proof. rewrite land_1. pose proof (Z.mod_pos_bound x 2). lia. Qed.

(** A freshly programmed register reads as its base, one byte at a time. *)
Lemma read_chan_fresh d nport r :
  0 <= d.(dshift) -> 0 <= d.(flip_flop) ->
  chan_reg d nport = Some (init_chan d.(dshift) r) ->
  let nreg := Z.land (Z.land (Z.shiftr nport d.(dshift)) 0x0f) 1 in
  read_chan d nport =
    Some (Z.land (Z.shiftr (chan_base nreg r) (Z.shiftl d.(flip_flop) 3)) 0xff,
          set_flip_flop (c_bool (d.(flip_flop) =? 0)) d).
Proof.
  intros Hs Hff Hr nreg. unfold read_chan. fold (chan_reg d nport). rewrite Hr.
  cbn -[Z.land Z.shiftr Z.shiftl Z.to_nat c_true]. fold nreg. unfold chan_base.
  rewrite Z.mul_0_l, Z.add_0_r, Z.sub_0_r.
  destruct (c_true nreg); by rewrite shiftr_chan by (done || (apply Z.shiftl_nonneg; lia)).
Qed.

Lemma bytes_of_word (lo hi : Z) :
  in_u 8 lo -> in_u 8 hi ->
  Z.land (Z.shiftr (hi * 256 + lo) 0) 0xff = lo /\ Z.land (Z.shiftr (hi * 256 + lo) 8) 0xff = hi.
Proof.
  intros [? ?] [? ?]. change 0xff with (Z.ones 8).
  rewrite !Z.land_ones, Z.shiftr_0_r, Z.shiftr_div_pow2 by lia. change (2 ^ 8) with 256 in *.
  split; [rewrite Z.add_comm, Z.mod_add by lia; by apply Z.mod_small |].
  rewrite Z.div_add_l, (Z.div_small lo), Z.add_0_r by lia. by apply Z.mod_small.
Qed.

Lemma read_word_fresh d nport r lo hi :
  0 <= d.(dshift) -> d.(flip_flop) = 0 ->
  chan_reg d nport = Some (init_chan d.(dshift) r) ->
  in_u 8 lo -> in_u 8 hi ->
  chan_base (Z.land (Z.land (Z.shiftr nport d.(dshift)) 0x0f) 1) r = hi * 256 + lo ->
  (read_chan d nport ≫= fun '(v1, d1) => read_chan d1 nport ≫= fun '(v2, d2) =>
     Some (v1, v2, d2)) = Some (lo, hi, d).
Proof.
  intros Hs Hff Hr Hlo Hhi Hb. destruct (bytes_of_word lo hi) as [Elo Ehi]; [done.. |].
  rewrite (read_chan_fresh d nport r) by (done || lia). bind_step.
  rewrite (read_chan_fresh _ nport r); [| done | by rewrite Hff | done]. bind_step.
  cbn [set_flip_flop dshift]. rewrite Hb, Hff. cbn [set_flip_flop flip_flop c_bool Z.eqb].
  change (Z.shiftl 0 3) with 0. change (Z.shiftl 1 3) with 8. rewrite Elo, Ehi.
  rewrite <- Hff at 1. by destruct d.
Qed.

(** Writing a low and a high byte to the address or the count port of a
    channel, with the flip-flop clear, programs that register and restarts the
    channel, touches no other channel, leaves the flip-flop clear, and the
    next two reads of the port return the two bytes. *)
Theorem chan_register_round_trip d nport lo hi r :
  cont_wf d -> d.(flip_flop) = 0 -> chan_reg d nport = Some r -> in_u 8 lo -> in_u 8 hi ->
  exists d', (write_chan d nport lo ≫= fun d1 => write_chan d1 nport hi) = Some d' /\
    (forall r', chan_reg d' nport = Some r' ->
       chan_base (Z.land (Z.land (Z.shiftr nport d.(dshift)) 0x0f) 1) r' = hi * 256 + lo /\
       r'.(now_addr) = Z.shiftl r'.(base_addr) d.(dshift) /\ r'.(now_count) = 0) /\
    (forall i, i <> Z.to_nat (Z.shiftr (Z.land (Z.shiftr nport d.(dshift)) 0x0f) 1) ->
       d'.(regs) !! i = d.(regs) !! i) /\
    (read_chan d' nport ≫= fun '(v1, d1) => read_chan d1 nport ≫= fun '(v2, d2) =>
       Some (v1, v2, d2)) = Some (lo, hi, d').
Proof.
  intros [Hlen Hs] Hff Hr Hlo Hhi.
  set (iport := Z.land (Z.shiftr nport d.(dshift)) 0x0f).
  set (k := Z.to_nat (Z.shiftr iport 1)). set (nreg := Z.land iport 1).
  assert (Hk : (k < length d.(regs))%nat) by (by eapply lookup_lt_Some).
  pose proof (land_1_cases iport) as Hn. fold nreg in Hn.
  rewrite (write_chan_lo d nport lo r) by done. bind_step.
  fold iport nreg k.
  rewrite (write_chan_hi _ nport hi
    (update_base nreg (fun b => Z.lor (Z.land b 0xff00) (Z.land lo 0xff)) r));
    [| done | unfold chan_reg; cbn -[Z.land Z.shiftr Z.to_nat]; fold iport k;
              by apply list_lookup_insert_eq].
  cbn [set_regs set_flip_flop regs dshift flip_flop]. fold iport nreg k.
  rewrite list_insert_insert_eq.
  set (r2 := update_base nreg _ (update_base nreg _ r)).
  assert (Hr2 : chan_base nreg r2 = hi * 256 + lo).
  { unfold r2. rewrite !chan_base_update by done. by apply word_update. }
  eexists. split; [done |]. split_and!.
  - intros r'. unfold chan_reg. cbn -[Z.land Z.shiftr Z.shiftl Z.to_nat init_chan]. fold iport k.
    rewrite list_lookup_insert_eq by done. intros [= <-].
    split; [exact Hr2 | done].
  - intros i Hi. cbn -[Z.land Z.shiftr Z.shiftl Z.to_nat init_chan]. by rewrite list_lookup_insert_ne.
  - apply (read_word_fresh _ nport r2); cbn -[Z.land Z.shiftr Z.shiftl Z.to_nat init_chan];
      [lia | done | unfold chan_reg; cbn -[Z.land Z.shiftr Z.shiftl Z.to_nat init_chan] | done..].
    by apply list_lookup_insert_eq.
Qed.
End Protocol.

(** A 16-bit controller as [DMA_init] leaves it *)
Definition sample_cont : dma_cont (H := unit) :=
  mkCont 0 0 255 0 1 (replicate 4 (mkRegs 0 0 0 0 0 0 0 ())).

Lemma chan_register_round_trip_witness :
  exists d', (write_chan sample_cont 0xc6 0x34 ≫= fun d1 => write_chan d1 0xc6 0x12) = Some d' /\
    (read_chan d' 0xc6 ≫= fun '(v1, d1) => read_chan d1 0xc6 ≫= fun '(v2, d2) =>
       Some (v1, v2, d2)) = Some (0x34, 0x12, d').
Proof.
  destruct (chan_register_round_trip sample_cont 0xc6 0x34 0x12 (mkRegs 0 0 0 0 0 0 0 ()))
    as (d' & Hw & _ & _ & Hrd); [split; [done | by right] | done | done | by_eval | by_eval |].
  exists d'. by split.
Defined.

(** ** Which channels a run serves *)

Section Run.
Context {H : Type} (f : H -> Z -> Z -> Z -> Z).
Implicit Types d : dma_cont (H := H).

(** A handler that leaves the controllers alone *)
Definition pure_call (h : H) (nchan pos size : Z) (s : list (dma_cont (H := H)))
  : Z * list (dma_cont (H := H)) := (f h nchan pos size, s).

(** What one run does to a channel and to a controller *)
Definition serve (d : dma_cont (H := H)) (ncont : Z) (i : nat) (r : dma_regs (H := H))
  : dma_regs (H := H) :=
  if runnable d (Z.of_nat i) then
    set_now_count (f r.(transfer_handler) (Z.of_nat i + 4 * ncont) r.(now_count)
                     ((r.(base_count) + 1) * 2 ^ ncont)) r
  else r.

Definition serve_cont (ncont : Z) (d : dma_cont (H := H)) : dma_cont (H := H) :=
  set_regs (imap (serve d ncont) d.(regs)) d.

Definition any_runnable (d : dma_cont (H := H)) : bool :=
  existsb (runnable d) [0; 1; 2; 3].

Lemma run_channels_step n (s : list (dma_cont (H := H))) ncont (i : nat) d r rearm :
  0 <= ncont -> s !! Z.to_nat ncont = Some d -> d.(regs) !! i = Some r ->
  run_channels pure_call (S n) ncont (Z.of_nat i) s rearm =
  run_channels pure_call n ncont (Z.of_nat (S i))
    (<[Z.to_nat ncont := set_regs (<[i := serve d ncont i r]> d.(regs)) d]> s)
    (rearm || runnable d (Z.of_nat i)).
Proof.
  intros Hn Hd Hr. cbn [run_channels]. rewrite Hd, Nat2Z.inj_succ, <- Z.add_1_r. bind_step. unfold serve.
  destruct (runnable d (Z.of_nat i)).
  - unfold channel_run. rewrite Hd. bind_step. rewrite Nat2Z.id, Hr. bind_step.
    unfold pure_call, on_cont. rewrite Hd. bind_step.
    rewrite (on_regs_lookup d _ _ r) by (lia || by rewrite Nat2Z.id). bind_step. bind_step.
    rewrite Nat2Z.id, !Z.shiftl_mul_pow2, orb_true_r by lia.
    replace (ncont * 2 ^ 2) with (4 * ncont) by lia. done.
  - rewrite orb_false_r, (list_insert_id _ _ _ Hr), (list_insert_id s); [done |].
    rewrite Hd. by destruct d.
Qed.

Lemma runnable_regs d l i : runnable (set_regs l d) i = runnable d i.
Proof. done. Qed.

Lemma run_controller (s : list (dma_cont (H := H))) ncont d rearm :
  0 <= ncont -> s !! Z.to_nat ncont = Some d -> length d.(regs) = 4%nat ->
  run_channels pure_call 4 ncont 0 s rearm =
  Some (<[Z.to_nat ncont := serve_cont ncont d]> s, rearm || any_runnable d).
Proof.
  intros Hn Hd Hlen. pose proof (lookup_lt_Some _ _ _ Hd).
  destruct d as [st cm mk ff ds l]. cbn [regs] in Hlen.
  destruct l as [| r0 [| r1 [| r2 [| r3 [|]]]]]; try discriminate Hlen.
  rewrite (run_channels_step 3 s ncont 0 _ r0) by done.
  do 3 (erewrite run_channels_step;
    [| done | by apply list_lookup_insert_eq | reflexivity]; rewrite list_insert_insert_eq).
  cbn [run_channels].
  do 2 f_equal. unfold any_runnable. cbn [existsb]. rewrite orb_false_r, !orb_assoc. done.
Qed.

(** When handlers leave the controllers alone, one run gives exactly the
    channels that are unmasked and have a request pending a new position from
    their handler, called with the channel's number, position and size in
    bytes; nothing else changes, and another run is scheduled iff some channel
    was served. *)
Theorem DMA_run_serves s d0 d1 :
  s = [d0; d1] -> dma_wf s ->
  DMA_run pure_call s =
  Some ([serve_cont 0 d0; serve_cont 1 d1], any_runnable d0 || any_runnable d1).
Proof.
  intros -> [_ Hwf]. inversion_clear Hwf as [| ? ? [Hl0 _] Hwf']. inversion_clear Hwf' as [| ? ? [Hl1 _] _].
  unfold DMA_run. cbn [run_controllers].
  rewrite (run_controller _ 0 d0) by done. bind_step. cbn [run_controllers].
  rewrite (run_controller _ 1 d1) by done. bind_step. done.
Qed.
End Run.

(** Channel 2 of the first controller asks for service. *)
Definition sample_request : list (dma_cont (H := unit)) :=
  [mkCont 0x40 0 0xfb 0 0 (replicate 4 (mkRegs 0 0 0 511 0 0 0 ())); sample_cont].

Lemma DMA_run_serves_witness :
  DMA_run (pure_call (fun _ _ _ size => size)) sample_request =
  Some ([mkCont 0x40 0 0xfb 0 0
           (<[2%nat := mkRegs 0 512 0 511 0 0 0 ()]> (replicate 4 (mkRegs 0 0 0 511 0 0 0 ())));
         sample_cont], true).
Proof.
  rewrite (DMA_run_serves (fun _ _ _ size => size) sample_request _ _ eq_refl);
    [reflexivity |].
  split; [done |]. constructor; [split; [done | by left] |].
  constructor; [split; [done | by right] | constructor].
Defined.

(** ** Transfers in address-decrement mode *)

Lemma copy_back_length n i p : length (copy_back n i p) = length p.
Proof. revert i p. induction n as [| n IH]; intros i p; cbn; [done |]. by rewrite IH, length_insert. Qed.

(** While the loop stays in the first half it reads only bytes it has not
    written. *)
Lemma copy_back_lookup n i p j :
  (2 * (i + n) <= length p)%nat ->
  copy_back n i p !! j =
  if decide (i <= j < i + n)%nat then p !! (length p - j - 1)%nat else p !! j.
Proof.
  revert i p. induction n as [| n IH]; intros i p Hn; cbn [copy_back].
  - rewrite decide_False by lia. done.
  - rewrite IH by (rewrite length_insert; lia). rewrite length_insert.
    destruct (lookup_lt_is_Some_2 p (length p - i - 1)) as [b Hb]; [lia |]. rewrite Hb. cbn [default].
    destruct (decide (j = i)) as [-> | Hj].
    + rewrite decide_False, decide_True by lia. by rewrite list_lookup_insert_eq by lia.
    + repeat case_decide; try lia; by rewrite list_lookup_insert_ne by lia.
Qed.

Lemma div2_bound (n : nat) : (2 * Nat.div2 n <= n <= 2 * Nat.div2 n + 1)%nat.
Proof.
  pose proof (Nat.div2_odd n) as Hn. revert Hn. destruct (Nat.odd n); cbn [Nat.b2n]; lia.
Qed.

Lemma copy_back_half p :
  copy_back (Nat.div2 (length p)) 0 p =
  take (Nat.div2 (length p)) (reverse p) ++ drop (Nat.div2 (length p)) p.
Proof.
  pose proof (div2_bound (length p)). set (h := Nat.div2 (length p)) in *.
  apply list_eq. intros j. rewrite copy_back_lookup by lia.
  destruct (decide (j < h)%nat).
  - rewrite decide_True, lookup_app_l, lookup_take_lt by (rewrite ?length_take, ?length_reverse; lia).
    rewrite reverse_lookup by lia. f_equal. lia.
  - rewrite decide_False, lookup_app_r, lookup_drop by (rewrite ?length_take, ?length_reverse; lia).
    f_equal. rewrite length_take, length_reverse. lia.
Qed.

Lemma half_mirror_palindrome (p : list Z) :
  copy_back (Nat.div2 (length p)) 0 p = reverse p <-> reverse p = p.
Proof.
  rewrite copy_back_half. set (h := Nat.div2 (length p)).
  split; intros E.
  - rewrite <- (take_drop h (reverse p)) in E at 2. apply app_inv_head in E.
    assert (Hhi : forall j, (h <= j < length p)%nat -> p !! j = p !! (length p - S j)%nat).
    { intros j Hj. rewrite <- reverse_lookup by lia.
      replace j with (h + (j - h))%nat by lia. by rewrite <- !lookup_drop, E. }
    pose proof (div2_bound (length p)) as Hb. fold h in Hb.
    apply list_eq_same_length with (length p); [done | apply length_reverse |].
    intros j x y Hj. rewrite reverse_lookup by lia.
    destruct (decide (h <= j)%nat); [rewrite (Hhi j) by lia; congruence |].
    rewrite (Hhi (length p - S j)%nat) by lia.
    replace (length p - S (length p - S j))%nat with j by lia. congruence.
  - rewrite E. apply take_drop.
Qed.

(** In address-decrement mode [DMA_read_memory] does not reverse what it
    read: the bytes arrive in reverse only if they read the same both ways,
    because the loop overwrites the first half and never restores it; and
    [DMA_write_memory] hands the buffer to memory before it rearranges it, so
    memory receives the bytes in ascending order. *)
Theorem decrement_transfer_not_reversed {H} (s : list (dma_cont (H := H))) nchan r memory_read pos
    (buf : list Z) :
  get_channel s nchan = Some r -> Z.testbit r.(mode) 5 = true ->
  (forall a n, length (memory_read a n) = n) ->
  (forall len, let m := memory_read (wrap 64 (channel_addr r - pos - Z.of_nat len)) len in
     DMA_read_memory memory_read s nchan pos len = Some (reverse m) <-> reverse m = m) /\
  (exists buf', DMA_write_memory s nchan buf pos =
     Some (wrap 64 (channel_addr r - pos - Z.of_nat (length buf)), buf, buf')).
Proof.
  intros Hr Hm Hlen. unfold DMA_read_memory, DMA_write_memory. rewrite Hr.
  change 0x20 with (Z.shiftl 1 5). setoid_rewrite bind_some.
  rewrite c_true_land_bit, Hm by done. split; [| by eexists].
  intros len. set (a := wrap 64 _).
  pose proof (half_mirror_palindrome (memory_read a len)) as Hp.
  rewrite Hlen in Hp. rewrite <- Hp.
  split; [by intros [= ->] | by intros ->].
Qed.

Definition decrement_state : list (dma_cont (H := unit)) :=
  [mkCont 0 0 0 0 0 (replicate 4 (mkRegs 0 0 0 0 0x20 0 0 ()))].

Definition counting_memory (a : Z) (n : nat) : list Z := Z.of_nat <$> seq 0 n.

Lemma decrement_transfer_not_reversed_witness :
  counting_memory (2 ^ 64 - 2) 2 = [0; 1] /\
  DMA_read_memory counting_memory decrement_state 1 0 2 = Some [1; 1] /\
  ~ DMA_read_memory counting_memory decrement_state 1 0 2 = Some [1; 0].
Proof.
  split; [reflexivity | split; [reflexivity |]].
  destruct (decrement_transfer_not_reversed decrement_state 1 (mkRegs 0 0 0 0 0x20 0 0 ())
              counting_memory 0 []) as [Hrd _];
    [done | done | intros; unfold counting_memory; by rewrite length_fmap, length_seq |].
  intros E. apply (Hrd 2%nat) in E. discriminate E.
Defined.
