(* ===== verification/IoPort.v ===== *)
(** * Port-mapped input and output (qemu/ioport.c)

    Tables of handlers for byte, word and long accesses to the 65536 ports,
    with one opaque pointer per port.  Function pointers are names of a type
    [F], interpreted by the parameter [call_read]/[call_write] over a machine
    state [M]; opaque pointers are [opaque].  [None] is what stops the
    emulator: [hw_error], an index outside the tables, or a failure of a
    device.

    Theorems: what a registration makes of every later access, how accesses of
    a width nobody registered are made up from bytes, and which registrations
    are refused. *)

From Stdlib Require Import ZArith Lia.
From stdpp Require Import base option numbers countable gmap list.
From S2P Require Import Prelude.

Local Open Scope Z_scope.

Definition MAX_IOPORTS : Z := 64 * 1024.
Definition IOPORTS_MASK : Z := MAX_IOPORTS - 1.

(** [struct IORange]; [iorange_ops] stands for the address of the range and of
    its operations. *)
Record IORange := mkIORange {
  iorange_ops : positive;
  iorange_base : Z;
  iorange_len : Z
}.

#[global] Instance IORange_eq_dec : EqDecision IORange.
Proof. solve_decision. Defined.

(** What a [void *opaque] points to *)
Inductive opaque (D : Type) :=
  | Device (d : D)
  | Range (r : IORange).
Arguments Device {D} d.
Arguments Range {D} r.

#[global] Instance opaque_eq_dec {D} `{EqDecision D} : EqDecision (opaque D).
Proof. solve_decision. Defined.

(** Values of the function pointers in the tables: the defaults of this file
    (at index 0, 1, 2 the byte, word and long version), the thunks for ranges,
    and the functions of devices. *)
Inductive iofunc (F : Type) :=
  | default_ioport
  | ioport_thunk (width : Z)
  | device_func (f : F).
Arguments default_ioport {F}.
Arguments ioport_thunk {F} width.
Arguments device_func {F} f.

#[global] Instance iofunc_eq_dec {F} `{EqDecision F} : EqDecision (iofunc F).
Proof. solve_decision. Defined.

Section IoPort.
Context {F D M : Type} `{EqDecision D}.

(** ** The tables; an absent entry is NULL. *)

Record ioports := mkPorts {
  ioport_opaque : gmap Z (opaque D);
  ioport_read_table : gmap (Z * Z) (iofunc F);
  ioport_write_table : gmap (Z * Z) (iofunc F)
}.

Definition ioport_init : ioports := mkPorts ∅ ∅ ∅.

Definition set_opaque (v : gmap Z (opaque D)) (p : ioports) : ioports :=
  mkPorts v p.(ioport_read_table) p.(ioport_write_table).
Definition set_read_table (v : gmap (Z * Z) (iofunc F)) (p : ioports) : ioports :=
  mkPorts p.(ioport_opaque) v p.(ioport_write_table).
Definition set_write_table (v : gmap (Z * Z) (iofunc F)) (p : ioports) : ioports :=
  mkPorts p.(ioport_opaque) p.(ioport_read_table) v.

(** ** Registration *)

Definition ioport_bsize (size : Z) : option Z :=
  if size =? 1 then Some 0 else if size =? 2 then Some 1 else if size =? 4 then Some 2 else None.

(** One round of the registration loops after the table entry: the check of
    the opaque pointer, then its update *)
Definition register_opaque (i : Z) (opq : option (opaque D)) (p : ioports) : option ioports :=
  match p.(ioport_opaque) !! i with
  | Some o => if decide (Some o = opq) then Some p else None
  | None => Some (set_opaque (partial_alter (fun _ => opq) i p.(ioport_opaque)) p)
  end.

(** [ioport_write_table[bsize][i] = func], or the same in the read table *)
Definition set_entry (write : bool) (bsize i : Z) (func : iofunc F) (p : ioports) : ioports :=
  if write then set_write_table (<[(bsize, i) := func]> p.(ioport_write_table)) p
  else set_read_table (<[(bsize, i) := func]> p.(ioport_read_table)) p.

(** [for (i = start; i < start + length; i += size)]; at most [n] rounds *)
Fixpoint register_loop (n : nat) (write : bool) (bsize size i stop : Z) (func : iofunc F)
    (opq : option (opaque D)) (p : ioports) : option ioports :=
  match n with
  | O => Some p
  | S n =>
      if i <? stop then
        if MAX_IOPORTS <=? i then None
        else
          p ← register_opaque i opq (set_entry write bsize i func p);
          register_loop n write bsize size (i + size) stop func opq p
      else Some p
  end.

Definition register_ioport_read (start length size : Z) (func : iofunc F)
    (opq : option (opaque D)) (p : ioports) : option ioports :=
  bsize ← ioport_bsize size;
  register_loop (Z.to_nat length) false bsize size start (start + length) func opq p.

Definition register_ioport_write (start length size : Z) (func : iofunc F)
    (opq : option (opaque D)) (p : ioports) : option ioports :=
  bsize ← ioport_bsize size;
  register_loop (Z.to_nat length) true bsize size start (start + length) func opq p.

Definition ioport_register (r : IORange) (p : ioports) : option ioports :=
  let o := Some (Range r) in
  p ← register_ioport_read r.(iorange_base) r.(iorange_len) 1 (ioport_thunk 1) o p;
  p ← register_ioport_read r.(iorange_base) r.(iorange_len) 2 (ioport_thunk 2) o p;
  p ← register_ioport_read r.(iorange_base) r.(iorange_len) 4 (ioport_thunk 4) o p;
  p ← register_ioport_write r.(iorange_base) r.(iorange_len) 1 (ioport_thunk 1) o p;
  p ← register_ioport_write r.(iorange_base) r.(iorange_len) 2 (ioport_thunk 2) o p;
  register_ioport_write r.(iorange_base) r.(iorange_len) 4 (ioport_thunk 4) o p.

(** The body of the loop of [isa_unassign_ioport] *)
Definition unassign_port (i : Z) (p : ioports) : ioports :=
  let defaults t := <[(0, i) := default_ioport]> (<[(1, i) := default_ioport]>
                      (<[(2, i) := default_ioport]> t)) in
  mkPorts (delete i p.(ioport_opaque)) (defaults p.(ioport_read_table))
    (defaults p.(ioport_write_table)).

Fixpoint unassign_loop (n : nat) (i : Z) (p : ioports) : option ioports :=
  match n with
  | O => Some p
  | S n => if MAX_IOPORTS <=? i then None else unassign_loop n (i + 1) (unassign_port i p)
  end.

Definition isa_unassign_ioport (start length : Z) (p : ioports) : option ioports :=
  unassign_loop (Z.to_nat length) start p.

(** ** Access *)

(** The functions of devices, and the operations of ranges, which are given
    the offset and the width *)
Context (call_read : F -> option (opaque D) -> Z -> M -> option (Z * M)).
Context (call_write : F -> option (opaque D) -> Z -> Z -> M -> option M).
Context (range_read : IORange -> Z -> Z -> M -> option (Z * M)).
Context (range_write : IORange -> Z -> Z -> Z -> M -> option M).

Definition read_thunk (width : Z) (o : option (opaque D)) (addr : Z) (s : M) : option (Z * M) :=
  match o with
  | Some (Range r) =>
      '(data, s) ← range_read r (wrap 64 (addr - r.(iorange_base))) width s;
      Some (wrap 32 data, s)
  | _ => None
  end.

Definition write_thunk (width : Z) (o : option (opaque D)) (addr data : Z) (s : M) : option M :=
  match o with
  | Some (Range r) => range_write r (wrap 64 (addr - r.(iorange_base))) width data s
  | _ => None
  end.

(** [ioport_read] with the default function of its index given *)
Definition read_with (default_func : Z -> M -> option (Z * M)) (p : ioports)
    (index address : Z) (s : M) : option (Z * M) :=
  if MAX_IOPORTS <=? address then None
  else
    let o := p.(ioport_opaque) !! address in
    match p.(ioport_read_table) !! (index, address) with
    | None | Some default_ioport => default_func address s
    | Some (ioport_thunk w) => read_thunk w o address s
    | Some (device_func f) => call_read f o address s
    end.

Definition write_with (default_func : Z -> Z -> M -> option M) (p : ioports)
    (index address data : Z) (s : M) : option M :=
  if MAX_IOPORTS <=? address then None
  else
    let o := p.(ioport_opaque) !! address in
    match p.(ioport_write_table) !! (index, address) with
    | None | Some default_ioport => default_func address data s
    | Some (ioport_thunk w) => write_thunk w o address data s
    | Some (device_func f) => call_write f o address data s
    end.

Definition default_ioport_readb (address : Z) (s : M) : option (Z * M) := Some (0xff, s).
Definition default_ioport_writeb (address data : Z) (s : M) : option M := Some s.

(** [ioport_read(0, address)] and [ioport_write(0, address, data)] *)
Definition ioport_readb (p : ioports) : Z -> M -> option (Z * M) := read_with default_ioport_readb p 0.
Definition ioport_writeb (p : ioports) : Z -> Z -> M -> option M := write_with default_ioport_writeb p 0.

Definition default_ioport_readw (p : ioports) (address : Z) (s : M) : option (Z * M) :=
  '(data, s) ← ioport_readb p address s;
  let address := Z.land (address + 1) IOPORTS_MASK in
  '(hi, s) ← ioport_readb p address s;
  Some (Z.lor data (wrap 32 (Z.shiftl hi 8)), s).

Definition default_ioport_writew (p : ioports) (address data : Z) (s : M) : option M :=
  s ← ioport_writeb p address (Z.land data 0xff) s;
  let address := Z.land (address + 1) IOPORTS_MASK in
  ioport_writeb p address (Z.land (Z.shiftr data 8) 0xff) s.

Definition default_ioport_readl (address : Z) (s : M) : option (Z * M) := Some (0xffffffff, s).
Definition default_ioport_writel (address data : Z) (s : M) : option M := Some s.

Definition ioport_read (p : ioports) (index : Z) : Z -> M -> option (Z * M) :=
  read_with (if index =? 0 then default_ioport_readb
             else if index =? 1 then default_ioport_readw p
             else default_ioport_readl) p index.

Definition ioport_write (p : ioports) (index : Z) : Z -> Z -> M -> option M :=
  write_with (if index =? 0 then default_ioport_writeb
              else if index =? 1 then default_ioport_writew p
              else default_ioport_writel) p index.

(** The parameters have the widths of their C types. *)
Definition cpu_outb (p : ioports) (addr val : Z) (s : M) : option M :=
  ioport_write p 0 addr (wrap 8 val) s.
Definition cpu_outw (p : ioports) (addr val : Z) (s : M) : option M :=
  ioport_write p 1 addr (wrap 16 val) s.
Definition cpu_outl (p : ioports) (addr val : Z) (s : M) : option M :=
  ioport_write p 2 addr (wrap 32 val) s.

Definition cpu_inb (p : ioports) (addr : Z) (s : M) : option (Z * M) :=
  '(val, s) ← ioport_read p 0 addr s; Some (wrap 8 val, s).
Definition cpu_inw (p : ioports) (addr : Z) (s : M) : option (Z * M) :=
  '(val, s) ← ioport_read p 1 addr s; Some (wrap 16 val, s).
Definition cpu_inl (p : ioports) (addr : Z) (s : M) : option (Z * M) :=
  '(val, s) ← ioport_read p 2 addr s; Some (wrap 32 val, s).
End IoPort.

(** ** Registration *)

(** The ports the registration loop visits *)
Definition covers (start stop size j : Z) : bool :=
  (start <=? j) && (j <? stop) && ((j - start) mod size =? 0).

Section Register.
Context {F D : Type} `{EqDecision D}.
Implicit Types (p : ioports (F := F) (D := D)) (opq : option (opaque D)) (func : iofunc F).

(** One entry of either table *)
Definition entry (p : ioports (F := F) (D := D)) (write : bool) (b j : Z) : option (iofunc F) :=
  if write then p.(ioport_write_table) !! (b, j) else p.(ioport_read_table) !! (b, j).

(** A port can be given [opq] when it has no other pointer yet. *)
Definition free_for (opq : option (opaque D)) (p : ioports (F := F) (D := D)) (j : Z) : Prop :=
  p.(ioport_opaque) !! j = None \/ p.(ioport_opaque) !! j = opq.

#[global] Instance free_for_dec opq p j : Decision (free_for opq p j).
Proof. unfold free_for. apply _. Defined.

(** [p'] is [p] with the covered ports registered. *)
Definition registered (write : bool) (bsize : Z) (cov : Z -> bool) func opq p p' : Prop :=
  (forall j, p'.(ioport_opaque) !! j = if cov j then opq else p.(ioport_opaque) !! j) /\
  (forall w b j, entry p' w b j =
     if cov j && eqb w write && (b =? bsize) then Some func else entry p w b j).

Lemma set_entry_opaque write b i func p : (set_entry write b i func p).(ioport_opaque) = p.(ioport_opaque).
Proof. by destruct write. Qed.

Lemma entry_set_opaque v p w b j : entry (set_opaque v p) w b j = entry p w b j.
Proof. by destruct w. Qed.

Lemma entry_set_entry write bsize i func p w b j :
  entry (set_entry write bsize i func p) w b j =
  if (j =? i) && eqb w write && (b =? bsize) then Some func else entry p w b j.
Proof.
  destruct write, w; cbn; rewrite ?andb_true_r, ?andb_false_r; try done.
  all: destruct (Z.eqb_spec j i), (Z.eqb_spec b bsize); cbn; subst;
    first [by rewrite lookup_insert_eq | by rewrite lookup_insert_ne by congruence].
Qed.

Lemma register_opaque_free write b i func opq p :
  free_for opq p i ->
  exists p', register_opaque i opq (set_entry write b i func p) = Some p' /\
    registered write b (fun j => j =? i) func opq p p'.
Proof.
  intros Hf. unfold register_opaque. rewrite set_entry_opaque.
  destruct (p.(ioport_opaque) !! i) as [o |] eqn:E.
  - destruct Hf as [Hf | Hf]; [congruence |]. rewrite E in Hf. rewrite decide_True by done.
    eexists. split; [done |]. split; intros; [| apply entry_set_entry].
    rewrite set_entry_opaque. destruct (Z.eqb_spec j i); subst; congruence.
  - eexists. split; [done |]. split; intros; [| rewrite entry_set_opaque; apply entry_set_entry].
    cbn. destruct (Z.eqb_spec j i); subst; [by rewrite lookup_partial_alter_eq |].
    by rewrite lookup_partial_alter_ne, ?set_entry_opaque by done.
Qed.

Lemma register_opaque_taken write b i func opq p :
  ~ free_for opq p i -> register_opaque i opq (set_entry write b i func p) = None.
Proof.
  intros Hf. unfold register_opaque. rewrite set_entry_opaque.
  destruct (p.(ioport_opaque) !! i) as [o |] eqn:E; [| by destruct Hf; left].
  rewrite decide_False; [done |]. intros <-. destruct Hf. by right.
Qed.

Lemma covers_step i stop size j :
  0 < size -> i < stop -> covers i stop size j = (j =? i) || covers (i + size) stop size j.
Proof.
  intros Hs Hi. unfold covers. destruct (Z.eqb_spec j i) as [-> | Hne].
  - by rewrite Z.sub_diag, Z.mod_0_l, Z.leb_refl, (proj2 (Z.ltb_lt i stop)) by lia.
  - replace (j - (i + size)) with (j - i + -1 * size) by lia. rewrite Z.mod_add by lia.
    cbn [orb]. destruct (Z.eqb_spec ((j - i) mod size) 0) as [E |]; [| by rewrite !andb_false_r].
    apply Z.div_exact in E; [| lia].
    generalize dependent ((j - i) / size). intros q E. assert (q <= 0 \/ 1 <= q) as [] by lia;
    case_cmp; cbn; first [done | nia].
Qed.

Lemma covers_end i stop size j : stop <= i -> covers i stop size j = false.
Proof. intros. unfold covers. case_cmp; cbn; done || lia. Qed.

Lemma free_for_registered write b i func opq p p' j :
  registered write b (fun j => j =? i) func opq p p' -> free_for opq p i ->
  free_for opq p' j <-> free_for opq p j.
Proof.
  intros [Ho _] Hi. unfold free_for in *. rewrite Ho.
  destruct (Z.eqb_spec j i) as [-> |]; [| done]. split; [done | by right].
Qed.

Lemma register_loop_spec n write bsize size i stop func opq p :
  0 < size -> stop - i <= Z.of_nat n -> stop <= MAX_IOPORTS ->
  ((forall j, covers i stop size j = true -> free_for opq p j) ->
   exists p', register_loop n write bsize size i stop func opq p = Some p' /\
     registered write bsize (covers i stop size) func opq p p') /\
  (forall j, covers i stop size j = true -> ~ free_for opq p j ->
     register_loop n write bsize size i stop func opq p = None).
Proof.
  intros Hs. revert i p. induction n as [| n IH]; intros i p Hn Hmax; cbn [register_loop].
  { split; [| intros j Hj; by rewrite covers_end in Hj by lia].
    intros _. exists p. split; [done |]. split; intros; by rewrite covers_end by lia. }
  destruct (Z.ltb_spec i stop) as [Hi | Hi].
  2: { split; [| intros j Hj; by rewrite covers_end in Hj by lia].
       intros _. exists p. split; [done |]. split; intros; by rewrite covers_end by lia. }
  rewrite (proj2 (Z.leb_gt MAX_IOPORTS i)) by lia. setoid_rewrite (covers_step i stop size); [| done..].
  destruct (decide (free_for opq p i)) as [Hf | Hf].
  2: { rewrite register_opaque_taken by done. split; [| done].
       intros H. destruct Hf. apply H. by rewrite Z.eqb_refl. }
  destruct (register_opaque_free write bsize i func opq p Hf) as (p1 & E & Hr). rewrite E. bind_step.
  destruct (IH (i + size) p1) as [Hok Hno]; [lia.. |]. split.
  - intros Hall. destruct Hok as (p' & E' & Ho & He).
    { intros j Hj. apply (free_for_registered _ _ _ _ _ _ _ _ Hr Hf), Hall. by rewrite Hj, orb_true_r. }
    exists p'. split; [done |]. destruct Hr as [Ho1 He1]. split; intros.
    + rewrite Ho, Ho1, (covers_step i) by done. destruct (j =? i); cbn [orb]; by destruct (covers _ _ _ j).
    + rewrite He, He1, (covers_step i) by done. destruct (j =? i); cbn [orb andb]; by destruct (covers _ _ _ j), (eqb w write), (b =? bsize).
  - intros j Hj Hnf. destruct (decide (j = i)) as [Heq | Hne]; [by rewrite Heq in Hnf |].
    rewrite (proj2 (Z.eqb_neq j i) Hne) in Hj. apply (Hno j Hj). by rewrite (free_for_registered _ _ _ _ _ _ _ _ Hr Hf).
Qed.

(** A registration of an access width succeeds exactly when no port it
    covers belongs to another device; then every covered port has the function
    for that width and the pointer, and all other ports, widths and the other
    direction are as before.  A width other than 1, 2 or 4 is refused. *)
Theorem register_ioport_correct (write : bool) start length size func opq p :
  0 <= length -> start + length <= MAX_IOPORTS ->
  let register := if write then register_ioport_write else register_ioport_read in
  match ioport_bsize size with
  | None => register start length size func opq p = None
  | Some bsize =>
      ((forall j, covers start (start + length) size j = true -> free_for opq p j) ->
       exists p', register start length size func opq p = Some p' /\
         registered write bsize (covers start (start + length) size) func opq p p') /\
      (forall j, covers start (start + length) size j = true -> ~ free_for opq p j ->
         register start length size func opq p = None)
  end.
Proof.
  intros Hl Hmax register.
  assert (Hreg : forall s f o p, register start length s f o p =
    bsize ← ioport_bsize s;
    register_loop (Z.to_nat length) write bsize s start (start + length) f o p)
    by (by destruct write).
  destruct (ioport_bsize size) as [bsize |] eqn:E; rewrite !Hreg, E; [| done].
  setoid_rewrite bind_some.
  apply register_loop_spec; [| lia | done].
  unfold ioport_bsize in E. repeat case_match; simplify_eq; lia.
Qed.
End Register.

(** One device [true] at ports 0x40 to 0x43, then another at 0x60 *)
Definition sample_ports : ioports (F := bool) (D := bool) :=
  default ioport_init (register_ioport_write 0x40 4 1 (device_func true) (Some (Device true)) ioport_init).

Lemma register_ioport_correct_witness :
  (exists p', register_ioport_write 0x60 1 1 (device_func false) (Some (Device false)) sample_ports
              = Some p' /\ entry p' true 0 0x41 = Some (device_func true)) /\
  register_ioport_write 0x43 1 1 (device_func false) (Some (Device false)) sample_ports = None.
Proof.
  split.
  - destruct (register_ioport_correct true 0x60 1 1 (device_func false) (Some (Device false))
                sample_ports) as [Hok _]; [lia | by_eval |].
    destruct Hok as (p' & E & _ & He).
    + intros j Hj. unfold covers in Hj. assert (j = 0x60) as -> by (revert Hj; case_cmp; cbn; lia || done).
      by left.
    + exists p'. split; [exact E |]. rewrite He. reflexivity.
  - apply (register_ioport_correct true 0x43 1 1 (device_func false) (Some (Device false))
             sample_ports ltac:(lia) ltac:(by_eval)) with (j := 0x43); [reflexivity |].
    intros [Hf | Hf]; discriminate Hf.
Defined.

(** ** Accesses wider than what is registered *)

Section Access.
Context {F D M : Type} `{EqDecision D}.
Context (call_read : F -> option (opaque D) -> Z -> M -> option (Z * M)).
Context (call_write : F -> option (opaque D) -> Z -> Z -> M -> option M).
Context (range_read : IORange -> Z -> Z -> M -> option (Z * M)).
Context (range_write : IORange -> Z -> Z -> Z -> M -> option M).

Local Abbreviation inb := (cpu_inb call_read range_read).
Local Abbreviation outb := (cpu_outb call_write range_write).
Local Abbreviation inw := (cpu_inw call_read range_read).
Local Abbreviation outw := (cpu_outw call_write range_write).

(** No function of a device or a range serves this width. *)
Definition unserved (p : ioports (F := F) (D := D)) (write : bool) (b addr : Z) : Prop :=
  entry p write b addr = None \/ entry p write b addr = Some default_ioport.

Lemma write_with_unserved d p b addr data (s : M) :
  addr < MAX_IOPORTS -> unserved p true b addr ->
  write_with call_write range_write d p b addr data s = d addr data s.
Proof.
  intros Ha Hu. unfold write_with. rewrite (proj2 (Z.leb_gt _ _)) by done.
  by destruct Hu as [Hu | Hu]; cbn in Hu; rewrite Hu.
Qed.

Lemma read_with_unserved d p b addr (s : M) :
  addr < MAX_IOPORTS -> unserved p false b addr ->
  read_with call_read range_read d p b addr s = d addr s.
Proof.
  intros Ha Hu. unfold read_with. rewrite (proj2 (Z.leb_gt _ _)) by done.
  by destruct Hu as [Hu | Hu]; cbn in Hu; rewrite Hu.
Qed.

Lemma next_port addr : 0 <= addr -> Z.land (addr + 1) IOPORTS_MASK = (addr + 1) mod MAX_IOPORTS.
Proof. intros. by apply (Z.land_ones (addr + 1) 16). Qed.

Lemma land_byte v : Z.land v 0xff = wrap 8 v.
Proof. by apply (Z.land_ones v 8). Qed.

(** A word access to a port without a word function is two byte accesses,
    the low byte first, the second at the next port modulo 65536; a long
    access without a long function reads all ones and writes nothing. *)
Theorem wide_access_by_bytes p addr v s :
  0 <= addr < MAX_IOPORTS ->
  (forall a s v s', ioport_readb call_read range_read p a s = Some (v, s') -> in_u 8 v) ->
  (unserved p true 1 addr ->
   outw p addr v s = outb p addr v s ≫= outb p ((addr + 1) mod MAX_IOPORTS) (wrap 16 v / 2 ^ 8)) /\
  (unserved p false 1 addr ->
   inw p addr s = '(lo, s) ← inb p addr s; '(hi, s) ← inb p ((addr + 1) mod MAX_IOPORTS) s;
                  Some (lo + hi * 2 ^ 8, s)) /\
  (unserved p true 2 addr -> cpu_outl call_write range_write p addr v s = Some s) /\
  (unserved p false 2 addr -> cpu_inl call_read range_read p addr s = Some (2 ^ 32 - 1, s)).
Proof.
  intros Ha Hbyte. split_and!; intros Hu.
  - unfold cpu_outw, ioport_write. rewrite write_with_unserved by (done || lia).
    cbn [Z.eqb Pos.eqb]. unfold default_ioport_writew, cpu_outb, ioport_write, ioport_writeb.
    rewrite next_port by lia. rewrite !land_byte, Z.shiftr_div_pow2 by lia. cbn [Z.eqb Pos.eqb].
    replace (wrap 8 (wrap 16 v)) with (wrap 8 v); [done |].
    apply Z.bits_inj'. intros i Hi. rewrite !wrap_testbit by lia. case_cmp; lia || done.
  - unfold cpu_inw, ioport_read. rewrite read_with_unserved by (done || lia).
    cbn [Z.eqb Pos.eqb]. unfold default_ioport_readw, cpu_inb, ioport_read. cbn [Z.eqb Pos.eqb].
    fold (ioport_readb call_read range_read p). rewrite next_port by lia.
    destruct (ioport_readb _ _ p addr s) as [[lo s1] |] eqn:E1; [| done]. repeat bind_step.
    destruct (ioport_readb _ _ p _ s1) as [[hi s2] |] eqn:E2; [| done]. repeat bind_step.
    apply Hbyte in E1, E2. rewrite !(wrap_small 8) by done. do 2 f_equal.
    rewrite (wrap_small 32), Z.lor_comm, lor_shiftl_add by (done || lia || (rewrite Z.shiftl_mul_pow2 by lia; unfold in_u in *; lia)).
    rewrite wrap_small; [lia |]. unfold in_u in *. lia.
  - unfold cpu_outl, ioport_write. by rewrite write_with_unserved by (done || lia).
  - unfold cpu_inl, ioport_read. by rewrite read_with_unserved by (done || lia).
Qed.
End Access.

(** A machine that records what is written *)
Definition record_write (f : bool) (o : option (opaque bool)) (a v : Z) (s : list (Z * Z))
  : option (list (Z * Z)) := Some ((a, v) :: s).
Definition read_zero (f : bool) (o : option (opaque bool)) (a : Z) (s : list (Z * Z))
  : option (Z * list (Z * Z)) := Some (0, s).

Lemma wide_access_by_bytes_witness :
  cpu_outw record_write (fun _ _ _ _ s => Some s) sample_ports 0x41 0x1234 [] =
    Some [(0x42, 0x12); (0x41, 0x34)] /\
  cpu_outl record_write (fun _ _ _ _ s => Some s) sample_ports 0x41 0x1234 [] = Some [].
Proof.
  destruct (wide_access_by_bytes read_zero record_write (fun _ _ _ s => Some (0, s))
              (fun _ _ _ _ s => Some s) sample_ports 0x41 0x1234 []) as (Hw & _ & Hl & _).
  - by_eval.
  - intros a s v s'. unfold ioport_readb, read_with, read_zero, read_thunk, default_ioport_readb.
    repeat case_match; try done; intros [= <- <-]; by_eval.
  - split; [rewrite (Hw (or_introl eq_refl)); reflexivity | exact (Hl (or_introl eq_refl))].
Defined.
