(* ===== verification/IsaBoard.v ===== *)
(** * The ISA devices of the PC board (qemu/hw/pc.c, pc_piix.c)

    The interrupt controllers, the interval timer, the real-time clock, the
    keyboard controller, the speaker, port 92 and the DMA controllers as the
    processor sees them: their ports are registered with [IoPort] in the order
    of the board's initialisation, accesses go through [cpu_inb] and its kin,
    and the lines of the timer (0), the keyboard (1), the clock (8) and the
    mouse (12) drive the interrupt controllers through [isa_irq_handler].  The
    board has no I/O APIC and no HPET; its serial and parallel ports, floppy
    controller and VMware port are left out.

    Theorems: the resulting port map, and the interrupts of the timer, the
    clock and the keyboard from their source to the vector the processor
    fetches. *)

From Stdlib Require Import ZArith Lia.
From stdpp Require Import base option numbers countable gmap list.
From S2P Require Import Prelude Ps2 Pckbd Pcspk Irq IoPort I8259 Rtc I8254 Dma.

Local Open Scope Z_scope.

(** What the opaque pointers of the ports point to *)
Inductive device := PIC (w : which) | PIT | RTC | DMA0 | DMA1 | KBD | SPK | PORT92.

#[global] Instance device_eq_dec : EqDecision device.
Proof. solve_decision. Defined.

(** The port functions of the devices *)
Inductive port_func :=
  | F_pic_write | F_pic_read | F_elcr_write | F_elcr_read
  | F_pit_write | F_pit_read | F_cmos_write | F_cmos_read
  | F_write_chan | F_read_chan | F_write_cont | F_read_cont
  | F_write_page | F_read_page | F_write_pageh | F_read_pageh
  | F_ioport80_write | F_ioportF0_write
  | F_kbd_write_data | F_kbd_read_data | F_kbd_write_command | F_kbd_read_status
  | F_pcspk_write | F_pcspk_read | F_port92_write | F_port92_read.

#[global] Instance port_func_eq_dec : EqDecision port_func.
Proof. solve_decision. Defined.

(** The keyboard controller, the speaker and port 92, the levels driven on the
    two A20 inputs of the processor (0 from the keyboard controller, 1 from
    port 92), latest first, and the number of resets port 92 asked for *)
Record isa_devs := mkIsa {
  i_kbd : KBDState;
  i_spk : PCSpkState;
  i_port92 : Z;
  i_a20 : list (Z * Z);
  i_resets : nat
}.

Definition isa_init : isa_devs :=
  mkIsa (i8042_setup_a20_line i8042_initfn) pcspk_state 0 [] 0.

Section Board.
Context {H : Type}.
Context (dma_call : H -> Z -> Z -> Z -> list (dma_cont (H := H)) -> Z * list (dma_cont (H := H))).
(** [apic_get_irq_delivered] after the clock raised its line *)
Context (delivered : bool).

(** The devices, and the time of the virtual clock in nanoseconds *)
Record board := mkBoard {
  b_pic : PicState2;
  b_pit : PITState;
  b_rtc : RTCState;
  b_dma : list (dma_cont (H := H));
  b_now : Z;
  b_isa : isa_devs
}.

(** ** Interrupt lines *)

(** The lines [i8259_init] returns *)
Definition i8259_irqs : list (IRQState (S := PicState2)) := qemu_allocate_irqs i8259_set_irq 16.

Definition isa_irq_handler (n level : Z) (pic : PicState2) : PicState2 :=
  if n <? 16 then qemu_set_irq (i8259_irqs !! Z.to_nat n) level pic else pic.

(** Drive the levels a channel has put on its line, oldest first, and forget
    them. *)
Definition drive_irq (n : Z) (levels : list Z) (pic : PicState2) : PicState2 :=
  foldr (isa_irq_handler n) pic levels.

Definition set_pit (pit : PITState) (m : board) : board :=
  match pit with
  | ch :: pit =>
      mkBoard (drive_irq 0 ch.(irq_out) m.(b_pic)) (set_irq_out [] ch :: pit) m.(b_rtc)
        m.(b_dma) m.(b_now) m.(b_isa)
  | [] => mkBoard m.(b_pic) [] m.(b_rtc) m.(b_dma) m.(b_now) m.(b_isa)
  end.

(** The same for the clock and its line 8 *)
Definition set_rtc (rtc : RTCState) (m : board) : board :=
  mkBoard (drive_irq 8 rtc.(irq) m.(b_pic)) m.(b_pit) (set_irq [] rtc) m.(b_dma) m.(b_now)
    m.(b_isa).

(** The clock reaches [t]; an expired timer of channel 0 calls
    [pit_irq_timer]. *)
Definition timer_event (t : Z) (m : board) : option board :=
  let m := mkBoard m.(b_pic) m.(b_pit) m.(b_rtc) m.(b_dma) t m.(b_isa) in
  match m.(b_pit) with
  | ch :: pit =>
      match ch.(irq_timer) with
      | Some (Some expire_time) =>
          if expire_time <=? t then
            ch ← pit_irq_timer ch;
            Some (set_pit (ch :: pit) m)
          else Some m
      | _ => Some m
      end
  | [] => Some m
  end.

(** A timer of the clock expires: it is disarmed and its function runs. *)
Definition expired (timer : option Z) (t : Z) : bool := from_option (fun e => e <=? t) false timer.

Definition rtc_event (rtc_td_hack : bool) (t : Z) (m : board) : option board :=
  let m := mkBoard m.(b_pic) m.(b_pit) m.(b_rtc) m.(b_dma) t m.(b_isa) in
  let s := m.(b_rtc) in
  if expired s.(second_timer) t then
    Some (set_rtc (rtc_update_second (set_second_timer None s)) m)
  else if expired s.(second_timer2) t then
    Some (set_rtc (rtc_update_second2 (set_second_timer2 None s)) m)
  else if expired s.(periodic_timer) t then
    s ← rtc_periodic_timer rtc_td_hack t delivered (set_periodic_timer None s);
    Some (set_rtc s m)
  else if expired s.(coalesced_timer) t then
    s ← rtc_coalesced_timer t delivered (set_coalesced_timer None s);
    Some (set_rtc s m)
  else Some m.

(** What was added at the front of a record of levels *)
Definition fresh_part {A} (old new : list A) : list A := take (length new - length old) new.

(** The keyboard controller drives lines 1 and 12 and an A20 input. *)
Definition drive_all (l : list (Z * Z)) (pic : PicState2) : PicState2 :=
  foldr (fun e => isa_irq_handler e.1 e.2) pic l.

Definition set_kbd_dev (k : KBDState) (m : board) : board :=
  let i := m.(b_isa) in
  let a20 := fresh_part (default [] (a20_out i.(i_kbd))) (default [] (a20_out k)) in
  mkBoard (drive_all (fresh_part (irqs i.(i_kbd)) (irqs k)) m.(b_pic)) m.(b_pit) m.(b_rtc)
    m.(b_dma) m.(b_now)
    (mkIsa k i.(i_spk) i.(i_port92) ((pair 0 <$> a20) ++ i.(i_a20)) i.(i_resets)).

(** Keys and motions from the host *)
Definition key_event (k : Z) (m : board) : option board :=
  d ← with_kbd (ps2_put_keycode k) m.(b_isa).(i_kbd); Some (set_kbd_dev d m).
Definition motion_event (dx dy dz buttons : Z) (m : board) : option board :=
  d ← with_mouse (ps2_mouse_event dx dy dz buttons) m.(b_isa).(i_kbd); Some (set_kbd_dev d m).

Definition set_spk (s : PCSpkState) (m : board) : board :=
  let i := m.(b_isa) in
  mkBoard m.(b_pic) m.(b_pit) m.(b_rtc) m.(b_dma) m.(b_now)
    (mkIsa i.(i_kbd) s i.(i_port92) i.(i_a20) i.(i_resets)).

Definition set_port92 (w : Z * Z * bool) (m : board) : board :=
  let i := m.(b_isa) in
  mkBoard m.(b_pic) m.(b_pit) m.(b_rtc) m.(b_dma) m.(b_now)
    (mkIsa i.(i_kbd) i.(i_spk) w.1.1 ((1, w.1.2) :: i.(i_a20))
       (if w.2 then S i.(i_resets) else i.(i_resets))).

(** ** The port functions *)

Definition set_pic (pic : PicState2) (m : board) : board :=
  mkBoard pic m.(b_pit) m.(b_rtc) m.(b_dma) m.(b_now) m.(b_isa).
Definition set_dma (dma : list (dma_cont (H := H))) (m : board) : board :=
  mkBoard m.(b_pic) m.(b_pit) m.(b_rtc) dma m.(b_now) m.(b_isa).

(** The controller an opaque pointer of the DMA ports points to *)
Definition dma_index (o : option (opaque device)) : option Z :=
  match o with
  | Some (Device DMA0) => Some 0
  | Some (Device DMA1) => Some 1
  | _ => None
  end.

Definition dma_write (o : option (opaque device))
    (f : Z -> list (dma_cont (H := H)) -> option (list (dma_cont (H := H)))) (m : board)
  : option board :=
  n ← dma_index o; s ← f n m.(b_dma); Some (set_dma s m).

Definition dma_read (o : option (opaque device))
    (f : dma_cont (H := H) -> option (Z * dma_cont (H := H))) (m : board)
  : option (Z * board) :=
  n ← dma_index o;
  d ← m.(b_dma) !! Z.to_nat n;
  '(v, d) ← f d;
  Some (v, set_dma (<[Z.to_nat n := d]> m.(b_dma)) m).

Definition ioport80_write (m : board) : board := m.
(** [ferr_irq] is line 13. *)
Definition ioportF0_write (m : board) : board := set_pic (isa_irq_handler 13 0 m.(b_pic)) m.

Definition call_write (f : port_func) (o : option (opaque device)) (a v : Z) (m : board)
  : option board :=
  match f, o with
  | F_pic_write, Some (Device (PIC w)) =>
      pic ← pic_ioport_write w a v m.(b_pic); Some (set_pic pic m)
  | F_elcr_write, Some (Device (PIC w)) => Some (set_pic (elcr_ioport_write w v m.(b_pic)) m)
  | F_pit_write, Some (Device PIT) =>
      pit ← pit_ioport_write m.(b_pit) a v m.(b_now); Some (set_pit pit m)
  | F_cmos_write, Some (Device RTC) =>
      rtc ← cmos_ioport_write a v m.(b_now) m.(b_rtc); Some (set_rtc rtc m)
  | F_write_chan, _ => dma_write o (fun n => on_cont n (fun d => write_chan d a v)) m
  | F_write_page, _ => dma_write o (fun n => on_cont n (fun d => write_page d a v)) m
  | F_write_pageh, _ => dma_write o (fun n => on_cont n (fun d => write_pageh d a v)) m
  | F_write_cont, _ => dma_write o (fun n s => fst <$> write_cont dma_call s n a v) m
  | F_ioport80_write, _ => Some (ioport80_write m)
  | F_ioportF0_write, _ => Some (ioportF0_write m)
  | F_kbd_write_data, Some (Device KBD) =>
      k ← kbd_write_data v m.(b_isa).(i_kbd); Some (set_kbd_dev k m)
  | F_kbd_write_command, Some (Device KBD) =>
      k ← kbd_write_command v m.(b_isa).(i_kbd); Some (set_kbd_dev k m)
  | F_pcspk_write, Some (Device SPK) =>
      '(pit, s) ← pcspk_ioport_write v m.(b_pit) m.(b_now) m.(b_isa).(i_spk);
      Some (set_spk s (set_pit pit m))
  | F_port92_write, Some (Device PORT92) => Some (set_port92 (port92_write v) m)
  | _, _ => None
  end.

Definition call_read (f : port_func) (o : option (opaque device)) (a : Z) (m : board)
  : option (Z * board) :=
  match f, o with
  | F_pic_read, Some (Device (PIC w)) =>
      let '(v, pic) := pic_ioport_read w a m.(b_pic) in Some (v, set_pic pic m)
  | F_elcr_read, Some (Device (PIC w)) => Some (elcr_ioport_read w m.(b_pic), m)
  | F_pit_read, Some (Device PIT) =>
      '(v, pit) ← pit_ioport_read m.(b_pit) a m.(b_now); Some (v, set_pit pit m)
  | F_cmos_read, Some (Device RTC) =>
      let '(v, rtc) := cmos_ioport_read a delivered m.(b_rtc) in Some (v, set_rtc rtc m)
  | F_read_chan, _ => dma_read o (fun d => read_chan d a) m
  | F_read_page, _ => dma_read o (fun d => v ← read_page d a; Some (v, d)) m
  | F_read_pageh, _ => dma_read o (fun d => v ← read_pageh d a; Some (v, d)) m
  | F_read_cont, _ => dma_read o (fun d => Some (read_cont d a)) m
  | F_kbd_read_data, Some (Device KBD) =>
      '(v, k) ← kbd_read_data m.(b_isa).(i_kbd); Some (v, set_kbd_dev k m)
  | F_kbd_read_status, Some (Device KBD) => Some (kbd_read_status m.(b_isa).(i_kbd), m)
  | F_pcspk_read, Some (Device SPK) =>
      '(v, s) ← pcspk_ioport_read m.(b_pit) m.(b_now) m.(b_isa).(i_spk); Some (v, set_spk s m)
  | F_port92_read, Some (Device PORT92) => Some (m.(b_isa).(i_port92), m)
  | _, _ => None
  end.

(** No device of this board registers a range. *)
Definition no_range_read (r : IORange) (off width : Z) (m : board) : option (Z * board) := None.
Definition no_range_write (r : IORange) (off width v : Z) (m : board) : option board := None.
End Board.

(** ** Port registration *)

Abbreviation port_table := (ioports (F := port_func) (D := device)).

Definition pic_init1 (io_addr elcr_addr : Z) (w : which) (p : port_table) : option port_table :=
  let o := Some (Device (PIC w)) in
  p ← register_ioport_write io_addr 2 1 (device_func F_pic_write) o p;
  p ← register_ioport_read io_addr 2 1 (device_func F_pic_read) o p;
  if 0 <=? elcr_addr then
    p ← register_ioport_write elcr_addr 1 1 (device_func F_elcr_write) o p;
    register_ioport_read elcr_addr 1 1 (device_func F_elcr_read) o p
  else Some p.

(** The registrations of [i8259_init] *)
Definition i8259_ports (p : port_table) : option port_table :=
  p ← pic_init1 0x20 0x4d0 Master p;
  pic_init1 0xa0 0x4d1 Slave p.

(** The registrations of [pit_initfn] *)
Definition pit_ports (iobase : Z) (p : port_table) : option port_table :=
  let o := Some (Device PIT) in
  p ← register_ioport_write iobase 4 1 (device_func F_pit_write) o p;
  register_ioport_read iobase 3 1 (device_func F_pit_read) o p.

(** The registrations of [rtc_initfn] *)
Definition rtc_ports (base : Z) (p : port_table) : option port_table :=
  let o := Some (Device RTC) in
  p ← register_ioport_write base 2 1 (device_func F_cmos_write) o p;
  register_ioport_read base 2 1 (device_func F_cmos_read) o p.

(** The registrations of [pcspk_init], [i8042_initfn] and [port92_initfn] *)
Definition pcspk_ports (p : port_table) : option port_table :=
  let o := Some (Device SPK) in
  p ← register_ioport_read 0x61 1 1 (device_func F_pcspk_read) o p;
  register_ioport_write 0x61 1 1 (device_func F_pcspk_write) o p.

Definition i8042_ports (p : port_table) : option port_table :=
  let o := Some (Device KBD) in
  p ← register_ioport_read 0x60 1 1 (device_func F_kbd_read_data) o p;
  p ← register_ioport_write 0x60 1 1 (device_func F_kbd_write_data) o p;
  p ← register_ioport_read 0x64 1 1 (device_func F_kbd_read_status) o p;
  register_ioport_write 0x64 1 1 (device_func F_kbd_write_command) o p.

Definition port92_ports (p : port_table) : option port_table :=
  let o := Some (Device PORT92) in
  p ← register_ioport_read 0x92 1 1 (device_func F_port92_read) o p;
  register_ioport_write 0x92 1 1 (device_func F_port92_write) o p.

(** A loop over registrations *)
Fixpoint register_all {A} (f : A -> port_table -> option port_table) (l : list A) (p : port_table)
  : option port_table :=
  match l with
  | [] => Some p
  | x :: l => p ← f x p; register_all f l p
  end.

(** One port with a function for each direction *)
Definition register_pair (port : Z) (w r : port_func) (o : option (opaque device)) (p : port_table)
  : option port_table :=
  p ← register_ioport_write port 1 1 (device_func w) o p;
  register_ioport_read port 1 1 (device_func r) o p.

Definition page_port_list : list Z := [0x1; 0x2; 0x3; 0x7].

(** The registrations of [dma_init2] *)
Definition dma_init2_ports (d : device) (base dshift page_base pageh_base : Z) (p : port_table)
  : option port_table :=
  let o := Some (Device d) in
  let eight := Z.of_nat <$> seq 0 8 in
  p ← register_all (fun i => register_pair (base + Z.shiftl i dshift) F_write_chan F_read_chan o)
        eight p;
  p ← register_all (fun pp p =>
        p ← register_pair (page_base + pp) F_write_page F_read_page o p;
        if 0 <=? pageh_base then register_pair (pageh_base + pp) F_write_pageh F_read_pageh o p
        else Some p) page_port_list p;
  register_all (fun i => register_pair (base + Z.shiftl (i + 8) dshift) F_write_cont F_read_cont o)
    eight p.

Definition DMA_ports (high_page_enable : bool) (p : port_table) : option port_table :=
  p ← dma_init2_ports DMA0 0x00 0 0x80 (if high_page_enable then 0x480 else -1) p;
  dma_init2_ports DMA1 0xc0 1 0x88 (if high_page_enable then 0x488 else -1) p.

(** [i8259_init], then [pc_basic_device_init] *)
Definition board_ports (high_page_enable : bool) : option port_table :=
  p ← i8259_ports ioport_init;
  p ← register_ioport_write 0x80 1 1 (device_func F_ioport80_write) None p;
  p ← register_ioport_write 0xf0 1 1 (device_func F_ioportF0_write) None p;
  p ← rtc_ports 0x70 p;
  p ← pit_ports 0x40 p;
  p ← pcspk_ports p;
  p ← i8042_ports p;
  p ← port92_ports p;
  DMA_ports high_page_enable p.

(** The devices as created *)
Definition board_init {H} dma_call (null dma_phony_handler : H) (host_time : tm) (now : Z)
  : option (board (H := H)) :=
  let rtc := rtc_initfn 2000 host_time now in
  pit ← pit_reset pit_initfn now;
  dma ← DMA_init dma_call null dma_phony_handler;
  Some (set_pit pit (set_rtc rtc (mkBoard i8259_init [] rtc dma now isa_init))).

(** ** The port map

    The ports of the board as the documentation of a PC lists them.  The page
    registers answer exactly where the table [channels] names a channel. *)

Definition page_port (a : Z) : bool := negb (channel_of a =? -1).

(** Ports [0xc0] to [0xdf] decode even addresses only. *)
Definition dma_target (chan cont page pageh : port_func) (hp : bool) (a : Z)
  : option (port_func * option device) :=
  if a <? 0x08 then Some (chan, Some DMA0)
  else if a <? 0x10 then Some (cont, Some DMA0)
  else if (0x80 <=? a) && (a <? 0x88) && page_port a then Some (page, Some DMA0)
  else if (0x88 <=? a) && (a <? 0x90) && page_port a then Some (page, Some DMA1)
  else if (0xc0 <=? a) && (a <? 0xd0) && Z.even a then Some (chan, Some DMA1)
  else if (0xd0 <=? a) && (a <? 0xe0) && Z.even a then Some (cont, Some DMA1)
  else if hp && (0x480 <=? a) && (a <? 0x488) && page_port a then Some (pageh, Some DMA0)
  else if hp && (0x488 <=? a) && (a <? 0x490) && page_port a then Some (pageh, Some DMA1)
  else None.

Definition pic_target (data elcr : port_func) (a : Z) : option (port_func * option device) :=
  if (a =? 0x20) || (a =? 0x21) then Some (data, Some (PIC Master))
  else if (a =? 0xa0) || (a =? 0xa1) then Some (data, Some (PIC Slave))
  else if a =? 0x4d0 then Some (elcr, Some (PIC Master))
  else if a =? 0x4d1 then Some (elcr, Some (PIC Slave))
  else None.

Definition write_target (hp : bool) (a : Z) : option (port_func * option device) :=
  if (a =? 0x70) || (a =? 0x71) then Some (F_cmos_write, Some RTC) else
  if (0x40 <=? a) && (a <=? 0x43) then Some (F_pit_write, Some PIT)
  else if a =? 0x60 then Some (F_kbd_write_data, Some KBD)
  else if a =? 0x64 then Some (F_kbd_write_command, Some KBD)
  else if a =? 0x61 then Some (F_pcspk_write, Some SPK)
  else if a =? 0x92 then Some (F_port92_write, Some PORT92)
  else if a =? 0x80 then Some (F_ioport80_write, None)
  else if a =? 0xf0 then Some (F_ioportF0_write, None)
  else match pic_target F_pic_write F_elcr_write a with
       | Some t => Some t
       | None => dma_target F_write_chan F_write_cont F_write_page F_write_pageh hp a
       end.

Definition read_target (hp : bool) (a : Z) : option (port_func * option device) :=
  if (a =? 0x70) || (a =? 0x71) then Some (F_cmos_read, Some RTC) else
  if (0x40 <=? a) && (a <=? 0x42) then Some (F_pit_read, Some PIT)
  else if a =? 0x60 then Some (F_kbd_read_data, Some KBD)
  else if a =? 0x64 then Some (F_kbd_read_status, Some KBD)
  else if a =? 0x61 then Some (F_pcspk_read, Some SPK)
  else if a =? 0x92 then Some (F_port92_read, Some PORT92)
  else match pic_target F_pic_read F_elcr_read a with
       | Some t => Some t
       | None => dma_target F_read_chan F_read_cont F_read_page F_read_pageh hp a
       end.

(** The tables and the map agree on one port, for one direction. *)
Definition agrees (p : port_table) (write : bool) (a : Z)
    (t : option (port_func * option device)) : Prop :=
  match t with
  | Some (f, d) => entry p write 0 a = Some (device_func f) /\ p.(ioport_opaque) !! a = Device <$> d
  | None => entry p write 0 a = None
  end.

#[global] Instance agrees_dec p write a t : Decision (agrees p write a t).
Proof. destruct t as [[f d] |]; cbn; apply _. Defined.

(** Beyond the highest registered port *)
Definition PORT_LIMIT : Z := 0x500.

Definition map_agrees (hp : bool) (p : port_table) : Prop :=
  Forall (fun a => agrees p true a (write_target hp a) /\ agrees p false a (read_target hp a))
    (seqZ 0 PORT_LIMIT) /\
  map_Forall (fun k _ => k.2 < PORT_LIMIT) p.(ioport_write_table) /\
  map_Forall (fun k _ => k.2 < PORT_LIMIT) p.(ioport_read_table).

#[global] Instance map_agrees_dec hp p : Decision (map_agrees hp p).
Proof. unfold map_agrees. apply _. Defined.

Lemma board_ports_some hp : is_Some (board_ports hp).
Proof. destruct hp; by_eval. Qed.

Lemma board_ports_agree hp : map_agrees hp (default ioport_init (board_ports hp)).
Proof. destruct hp; by_eval. Qed.

Lemma target_beyond hp a :
  PORT_LIMIT <= a -> write_target hp a = None /\ read_target hp a = None.
Proof.
  unfold PORT_LIMIT. intros Ha.
  assert (Hlt : forall n, n < 0x500 -> (a <? n) = false /\ (a <=? n) = false /\ (a =? n) = false).
  { intros n Hn. split_and!; [apply Z.ltb_ge | apply Z.leb_gt | apply Z.eqb_neq]; lia. }
  unfold write_target, read_target, pic_target, dma_target.
  repeat match goal with
  | |- context [a <? ?n] => rewrite (proj1 (Hlt n ltac:(reflexivity)))
  | |- context [a <=? ?n] => rewrite (proj1 (proj2 (Hlt n ltac:(reflexivity))))
  | |- context [a =? ?n] => rewrite (proj2 (proj2 (Hlt n ltac:(reflexivity))))
  end.
  rewrite !andb_false_r. done.
Qed.

Lemma board_port_lookup hp p a :
  board_ports hp = Some p -> 0 <= a ->
  agrees p true a (write_target hp a) /\ agrees p false a (read_target hp a).
Proof.
  intros Hp Ha. pose proof (board_ports_agree hp) as (Hlow & Hw & Hr). rewrite Hp in *. cbn [default] in *.
  destruct (Z.lt_ge_cases a PORT_LIMIT).
  - eapply Forall_forall in Hlow; [exact Hlow |]. apply elem_of_seqZ. lia.
  - destruct (target_beyond hp a) as [-> ->]; [done |]. cbn.
    split; apply eq_None_not_Some; intros [f Hf];
      [specialize (Hw _ _ Hf) | specialize (Hr _ _ Hf)]; cbn in *; lia.
Qed.

Section PortMap.
Context {H : Type}.
Context (dma_call : H -> Z -> Z -> Z -> list (dma_cont (H := H)) -> Z * list (dma_cont (H := H))).

Local Abbreviation outb := (cpu_outb (call_write dma_call) no_range_write).
Context (delivered : bool).
Local Abbreviation inb := (cpu_inb (call_read delivered) no_range_read).

Lemma outb_target hp p a v (m : board (H := H)) :
  board_ports hp = Some p -> 0 <= a < MAX_IOPORTS ->
  outb p a v m = match write_target hp a with
                 | Some (f, d) => call_write dma_call f (Device <$> d) a (wrap 8 v) m
                 | None => Some m
                 end.
Proof.
  intros Hp Ha. destruct (board_port_lookup hp p a Hp) as [Hw _]; [lia |].
  unfold cpu_outb, ioport_write, write_with. rewrite !(proj2 (Z.leb_gt MAX_IOPORTS a)) by lia. cbn [Z.eqb].
  destruct (write_target hp a) as [[f d] |]; [destruct Hw as [Hw ->] |]; cbn in Hw; by rewrite Hw.
Qed.

Lemma inb_target hp p a (m : board (H := H)) :
  board_ports hp = Some p -> 0 <= a < MAX_IOPORTS ->
  inb p a m = match read_target hp a with
              | Some (f, d) => '(v, m) ← call_read delivered f (Device <$> d) a m; Some (wrap 8 v, m)
              | None => Some (0xff, m)
              end.
Proof.
  intros Hp Ha. destruct (board_port_lookup hp p a Hp) as [_ Hr]; [lia |].
  unfold cpu_inb, ioport_read, read_with. rewrite !(proj2 (Z.leb_gt MAX_IOPORTS a)) by lia. cbn [Z.eqb].
  destruct (read_target hp a) as [[f d] |]; [destruct Hr as [Hr ->] |]; cbn in Hr; by rewrite Hr.
Qed.

(** C25: The registrations of the board succeed, without or with the high page
    registers, and give exactly the port map: a byte written to a port reaches
    the function and the device the map names and no other, a port outside
    the map ignores writes and reads as 0xff. *)
Theorem isa_port_map (hp : bool) :
  exists p, board_ports hp = Some p /\
  forall a v (m : board (H := H)), 0 <= a < MAX_IOPORTS ->
    outb p a v m = match write_target hp a with
                   | Some (f, d) => call_write dma_call f (Device <$> d) a (wrap 8 v) m
                   | None => Some m
                   end /\
    inb p a m = match read_target hp a with
                | Some (f, d) => '(v, m) ← call_read delivered f (Device <$> d) a m; Some (wrap 8 v, m)
                | None => Some (0xff, m)
                end.
Proof.
  destruct (board_ports_some hp) as [p Hp]. exists p. split; [done |]. intros a v m Ha.
  split; [by apply outb_target | by apply inb_target].
Qed.
End PortMap.

(** The board of the witnesses: no DMA device answers. *)
Definition no_dma (h : unit) (nchan pos size : Z) (s : list (dma_cont (H := unit))) := (pos, s).

Definition sample_board : board (H := unit) :=
  default (mkBoard i8259_init [] (sample_rtc 2) [] 0 isa_init)
    (board_init no_dma () () (mkTm 56 34 12 29 1 108 5) 0).

(** Masking every line of the slave, and reading a port nobody has *)
Lemma isa_port_map_witness :
  exists p m', board_ports false = Some p /\
  cpu_outb (call_write no_dma) no_range_write p 0xa1 0xff sample_board = Some m' /\
  m'.(b_pic).(pic_slave).(imr) = 0xff /\
  cpu_inb (call_read true) no_range_read p 0x43 sample_board = Some (0xff, sample_board).
Proof.
  destruct (isa_port_map no_dma true false) as (p & Hp & Hmap). exists p.
  destruct (Hmap 0xa1 0xff sample_board ltac:(by_eval)) as [Hw _].
  destruct (Hmap 0x43 0 sample_board ltac:(by_eval)) as [_ Hr].
  eexists. split; [exact Hp |]. split; [rewrite Hw; reflexivity |].
  split; [reflexivity | exact Hr].
Defined.

(** ** From the timer to the processor *)

(** A device that raises its line, seen through the interface *)
Lemma drive_raise n pic :
  0 <= n < 16 -> irq_idle pic n ->
  irq_pending (drive_irq n [1] pic) /\ (irq_ack (drive_irq n [1] pic)).1 = irq_vector pic n.
Proof.
  intros Hn Hi. cbn [drive_irq foldr]. unfold isa_irq_handler.
  rewrite (proj2 (Z.ltb_lt n 16)) by lia. exact (raise_delivered 16 n pic Hn Hi).
Qed.

(** The same in the terms of the two chips *)
Lemma drive_raise_pics n pic :
  0 <= n < 16 -> pics_idle pic n ->
  head (drive_irq n [1] pic).(parent_irq) = Some 1 /\
  (pic_read_irq (drive_irq n [1] pic)).1 = pics_vector pic n.
Proof. intros Hn Hi. exact (drive_raise n pic Hn Hi). Qed.

(** C26: When the timer of channel 0 expires with its output high, and line 0
    of the interrupt controllers is enabled and low and nothing else is going
    on, the processor's interrupt line is raised and the acknowledge fetches
    the vector of line 0; in modes 1 to 5 the timer is armed again for a later
    time at most 55 ms away, and in the other modes, where the output stays high,
    it is disarmed. *)
Theorem timer_interrupt_delivered {H} (m : board (H := H)) t ch pit :
  m.(b_pit) = ch :: pit -> channel_wf ch -> ch.(irq_out) = [] ->
  ch.(irq_timer) = Some (Some t) -> ch.(next_transition_time) = t ->
  0 <= ch.(count_load_time) <= t -> t < 2 ^ 62 -> pit_get_out1 ch t = Some 1 ->
  pics_idle m.(b_pic) 0 ->
  exists m' ch' expire, timer_event t m = Some m' /\
    head m'.(b_pic).(parent_irq) = Some 1 /\
    (pic_read_irq m'.(b_pic)).1 = m.(b_pic).(pic_master).(irq_base) + 0 /\
    m'.(b_pit) = ch' :: pit /\ ch'.(irq_timer) = Some expire /\
    (1 <= ch.(I8254.mode) <= 5 -> exists n, expire = Some n /\ t < n <= t + MAX_DELAY) /\
    (~ 1 <= ch.(I8254.mode) <= 5 -> expire = None).
Proof.
  intros Hpit Hwf Hout Htimer Hnext Hload Ht Hlevel Hidle.
  destruct (next_transition_bounds ch t) as (d & tick & n & Ed & Etick & En & Hn); [done.. |].
  assert (Hmode : is_Some tick <-> 1 <= ch.(I8254.mode) <= 5).
  { unfold pit_get_out1 in Hlevel. rewrite Ed in Hlevel. by apply (high_output_changes ch d). }
  unfold timer_event. cbn [b_pit]. rewrite Hpit, Htimer, Z.leb_refl.
  unfold pit_irq_timer, pit_irq_timer_update. rewrite Htimer, Hnext, En. bind_step.
  rewrite Hlevel. repeat bind_step. rewrite Hout.
  destruct (drive_raise_pics 0 m.(b_pic) ltac:(lia) Hidle) as [Hp Hv].
  eexists _, _, _. split; [reflexivity |]. split; [exact Hp |]. split; [exact Hv |].
  split; [reflexivity |]. split; [reflexivity |].
  destruct tick as [k |].
  - rewrite (proj2 (Z.eqb_neq n (-1))) by lia. split; [by exists n |]. intros Hno. by destruct Hno; apply Hmode.
  - subst n. split; [| done]. intros Hyes. by apply Hmode in Hyes as [].
Qed.

(** Channel 0 in square-wave mode with period 7, one period after its load *)
Definition ticking_channel : PITChannelState :=
  mkChannel 7 0 0 0 0 3 3 0 3 3 0 1 1000 6867 (Some (Some 6867)) [].

Lemma timer_interrupt_delivered_witness :
  exists m' ch' expire,
    timer_event 6867 (mkBoard (H := unit) i8259_init [ticking_channel] (sample_rtc 2) [] 6867 isa_init) = Some m' /\
    head m'.(b_pic).(parent_irq) = Some 1 /\
    (pic_read_irq m'.(b_pic)).1 = 0 + 0 /\
    m'.(b_pit) = [ch'] /\ ch'.(irq_timer) = Some expire /\
    exists n, expire = Some n /\ 6867 < n <= 6867 + MAX_DELAY.
Proof.
  destruct (timer_interrupt_delivered (mkBoard (H := unit) i8259_init [ticking_channel] (sample_rtc 2) [] 6867 isa_init)
           6867 ticking_channel []) as (m' & ch' & expire & H1 & H2 & H3 & H4 & H5 & H6 & _); try reflexivity; try by_eval.
  - constructor; by_eval.
  - split; [| split; [constructor; by_eval | done]]. constructor; [apply i8259_init_wf | done..].
  - exists m', ch', expire. split; [exact H1 |]. split; [exact H2 |]. split; [exact H3 |]. split; [exact H4 |].
    split; [exact H5 |]. apply H6. by_eval.
Defined.

(** ** From the clock to the processor *)

(** The levels [rtc_update_second2] drives when only the update interrupt is
    enabled *)
Lemma rtc_copy_date_irq s :
  length s.(cmos_data) = 128%nat ->
  (rtc_copy_date s).(irq) = s.(irq) /\ length (rtc_copy_date s).(cmos_data) = 128%nat.
Proof.
  intros Hl. unfold rtc_copy_date. cbn zeta. rewrite copy_hour_put by (by rewrite !put_length).
  split; [done | by rewrite !put_length].
Qed.

Lemma flag_put s i v j mask :
  i <> j -> (i < length s.(cmos_data))%nat -> flag (put i v s) j mask = flag s j mask.
Proof. intros Hne Hi. unfold flag. by rewrite cmos_put, decide_False. Qed.

Lemma update_second2_raises s :
  length s.(cmos_data) = 128%nat -> s.(irq) = [] ->
  flag s RTC_REG_B REG_B_AIE = false -> flag s RTC_REG_B REG_B_UIE = true ->
  (rtc_update_second2 s).(irq) = [1] /\
  (rtc_update_second2 s).(second_timer) = Some (s.(next_second_time) + 1000000000).
Proof.
  intros Hl Hirq Haie Huie. unfold rtc_update_second2.
  set (s1 := if negb (flag s RTC_REG_B REG_B_SET) then rtc_copy_date s else s).
  assert (Hs1 : s1.(irq) = [] /\ length s1.(cmos_data) = 128%nat /\
                cmos s1 RTC_REG_B = cmos s RTC_REG_B /\ s1.(next_second_time) = s.(next_second_time)).
  { unfold s1. destruct (flag s RTC_REG_B REG_B_SET); [done |]. cbn [negb].
    destruct (rtc_copy_date_irq s Hl) as [-> ->].
    destruct (rtc_copy_date_cmos s Hl) as (_ & _ & _ & _ & _ & _ & _ & -> & _).
    split_and!; try done. unfold rtc_copy_date. cbn zeta.
    by rewrite copy_hour_put by (by rewrite !put_length). }
  destruct Hs1 as (Hi1 & Hl1 & Hb1 & Hn1).
  assert (Haie1 : flag s1 RTC_REG_B REG_B_AIE = false) by (unfold flag in *; by rewrite Hb1).
  rewrite Haie1. cbn [andb]. rewrite flag_put by (done || (rewrite Hl1; unfold RTC_REG_C; lia)).
  assert (Huie1 : flag s1 RTC_REG_B REG_B_UIE = true) by (unfold flag in *; by rewrite Hb1).
  rewrite Huie1. cbn. by rewrite Hi1, Hn1.
Qed.

(** The event of the second half of the update, and what the board sees of it *)
Lemma rtc_event_second2 {H} delivered rtc_td_hack (m : board (H := H)) t :
  m.(b_rtc).(second_timer) = None -> m.(b_rtc).(second_timer2) = Some t ->
  rtc_event delivered rtc_td_hack t m =
    Some (set_rtc (rtc_update_second2 (set_second_timer2 None m.(b_rtc)))
            (mkBoard m.(b_pic) m.(b_pit) m.(b_rtc) m.(b_dma) t m.(b_isa))).
Proof.
  intros Ht1 Ht2. unfold rtc_event. cbn [b_rtc]. rewrite Ht1, Ht2.
  cbn [expired from_option]. by rewrite Z.leb_refl.
Qed.

Lemma set_rtc_pic {H} rtc pic pit rtc0 dma (now : Z) isa :
  (set_rtc rtc (mkBoard (H := H) pic pit rtc0 dma now isa)).(b_pic) = drive_irq 8 rtc.(irq) pic.
Proof. reflexivity. Qed.

Lemma set_rtc_second_timer {H} rtc (m : board (H := H)) :
  (set_rtc rtc m).(b_rtc).(second_timer) = rtc.(second_timer).
Proof. reflexivity. Qed.

(** When the second update of the clock ends with the update interrupt
    enabled, and line 8 is enabled and low and nothing else is going on, the
    interrupt passes the cascade: the processor's line is raised and the
    acknowledge fetches the slave's first vector; the next second is
    scheduled. *)
Theorem rtc_update_interrupt_delivered {H} delivered rtc_td_hack (m : board (H := H)) t :
  let s := m.(b_rtc) in
  length s.(cmos_data) = 128%nat -> s.(irq) = [] ->
  flag s RTC_REG_B REG_B_AIE = false -> flag s RTC_REG_B REG_B_UIE = true ->
  s.(second_timer) = None -> s.(second_timer2) = Some t ->
  pics_idle m.(b_pic) 8 ->
  exists m', rtc_event delivered rtc_td_hack t m = Some m' /\
    head m'.(b_pic).(parent_irq) = Some 1 /\
    (pic_read_irq m'.(b_pic)).1 = m.(b_pic).(pic_slave).(irq_base) + 0 /\
    m'.(b_rtc).(second_timer) = Some (s.(next_second_time) + 1000000000).
Proof.
  intros s Hl Hirq Haie Huie Ht1 Ht2 Hidle.
  destruct (update_second2_raises (set_second_timer2 None s) Hl Hirq Haie Huie) as [Hr Hn].
  destruct (drive_raise_pics 8 m.(b_pic) ltac:(lia) Hidle) as [Hp Hv].
  eexists. split; [by apply rtc_event_second2 |].
  rewrite set_rtc_pic, set_rtc_second_timer. fold s. rewrite Hr, Hn. by rewrite Hp, Hv.
Qed.

Lemma rtc_update_interrupt_delivered_witness :
  let m := mkBoard (H := unit) i8259_init [] (sample_rtc 0x12) [] 990000000 isa_init in
  exists m', rtc_event true false 990000000 m = Some m' /\
    head m'.(b_pic).(parent_irq) = Some 1 /\ (pic_read_irq m'.(b_pic)).1 = 0 + 0 /\
    m'.(b_rtc).(second_timer) = Some (990000000 + 1000000000).
Proof.
  apply (rtc_update_interrupt_delivered true false
           (mkBoard (H := unit) i8259_init [] (sample_rtc 0x12) [] 990000000 isa_init));
    try reflexivity.
  split; [| split; [constructor; by_eval | done]]. constructor; [apply i8259_init_wf | done..].
Defined.

(** ** From the keyboard to the guest *)

Lemma isa_handler_eq n l pic : 0 <= n < 16 -> isa_irq_handler n l pic = i8259_set_irq n l pic.
Proof.
  intros Hn. unfold isa_irq_handler, i8259_irqs. rewrite (proj2 (Z.ltb_lt n 16)) by lia.
  by rewrite set_allocated.
Qed.

(** The operations of the interface are those of the two chips. *)
Lemma pics_handler_eq : irq_handler = i8259_set_irq.
Proof. reflexivity. Qed.
Lemma pics_ack_eq : irq_ack = pic_read_irq.
Proof. reflexivity. Qed.

(** The law of the interface in the terms of the two chips *)
Lemma raise_then_lower pic i j :
  pics_idle pic i -> pics_low pic j -> i <> j ->
  head (i8259_set_irq j 0 (i8259_set_irq i 1 pic)).(parent_irq) = Some 1 /\
  (pic_read_irq (i8259_set_irq j 0 (i8259_set_irq i 1 pic))).1 = pics_vector pic i.
Proof.
  pose proof (irq_lower_raised_law pic i j) as Hlaw.
  rewrite pics_handler_eq, pics_ack_eq in Hlaw. exact Hlaw.
Qed.

Lemma fresh_part_app {A} (l1 l2 : list A) : fresh_part l2 (l1 ++ l2) = l1.
Proof.
  unfold fresh_part. rewrite length_app.
  replace (length l1 + length l2 - length l2)%nat with (length l1) by lia. apply take_app_length.
Qed.

(** C27: A key pressed while the keyboard controller has nothing waiting, its
    interrupt is enabled and translation is on, and lines 1 and 12 of the
    interrupt controllers are low, line 1 enabled and nothing else going on:
    the processor's line is raised, the acknowledge fetches the vector of line
    1, the status port shows a byte, and the data port gives the key's code. *)
Theorem key_interrupt_delivered {H} delivered (hp : bool) p (m : board (H := H)) k :
  let kb := m.(b_isa).(i_kbd) in
  board_ports hp = Some p ->
  kbd_wf kb -> Pckbd.pending kb = 0 -> c_true (translate (kbd kb)) = true ->
  Z.testbit (Pckbd.mode kb) 0 = true -> Z.testbit (Pckbd.mode kb) 4 = false ->
  pics_idle m.(b_pic) 1 -> pics_low m.(b_pic) 12 -> in_u 8 k ->
  exists m', key_event k m = Some m' /\
    head m'.(b_pic).(parent_irq) = Some 1 /\
    (pic_read_irq m'.(b_pic)).1 = m.(b_pic).(pic_master).(irq_base) + 1 /\
    (exists st, cpu_inb (call_read delivered) no_range_read p 0x64 m' = Some (st, m') /\
       Z.testbit st 0 = true) /\
    exists m'', cpu_inb (call_read delivered) no_range_read p 0x60 m' = Some (k, m'').
Proof.
  intros kb Hp Hwf H0 Ht Hm0 Hm4 Hidle Hlow Hk.
  destruct (key_raises k kb Hwf H0 Ht Hm0 Hm4) as (d & Ed & Hd & Hi & Ha & Hkb & _).
  unfold key_event. fold kb. rewrite Ed. bind_step. eexists. split; [reflexivity |].
  unfold set_kbd_dev. fold kb. rewrite Hi. cbn [b_pic].
  change ((12, 0) :: (1, 1) :: irqs kb) with ([(12, 0); (1, 1)] ++ irqs kb).
  rewrite fresh_part_app. cbn [drive_all foldr fst snd]. rewrite !isa_handler_eq by lia.
  destruct (raise_then_lower m.(b_pic) 1 12 Hidle Hlow) as [Hpend Hack]; [done |].
  rewrite Hpend, Hack. split; [done |]. split; [done |]. split.
  - exists (Pckbd.status d). rewrite (inb_target delivered hp p _ _ Hp) by (unfold MAX_IOPORTS; lia).
    change (read_target hp 0x64) with (Some (F_kbd_read_status, Some KBD)).
    cbv iota. cbn [fmap option_fmap option_map call_read]. bind_step. cbn [b_isa i_kbd kbd_read_status].
    rewrite wrap_small by apply (w_regs _ Hd).
    split; [done |]. rewrite (so_obf _ (w_signals _ Hd)), (w_pending _ Hd). unfold pending_of.
    pose proof (level_empty (common (kbd d))) as Hl. rewrite Hkb in Hl.
    destruct (level_bool (common (kbd d))) as [E | E]; [by apply Hl in E |].
    destruct (level_bool (mcommon (mouse d))) as [-> | ->]; by rewrite E.
  - destruct (read_data_order d Hd) as (v & d' & Er & _ & Ho). rewrite Hkb in Ho.
    destruct Ho as (-> & _ & _). eexists.
    rewrite (inb_target delivered hp p _ _ Hp) by (unfold MAX_IOPORTS; lia).
    change (read_target hp 0x60) with (Some (F_kbd_read_data, Some KBD)).
    cbv iota. cbn [fmap option_fmap option_map call_read b_isa i_kbd]. rewrite Er. do 2 bind_step.
    rewrite !wrap_small; [reflexivity | done | by rewrite wrap_small].
Qed.

(** A keyboard controller set up by the firmware: mode 0x45 *)
Definition ready_kbd : KBDState :=
  default i8042_initfn (kbd_step (WriteData 0x45)
    (default i8042_initfn (kbd_step (WriteCommand 0x60) (i8042_reset i8042_initfn)))).

Lemma ready_kbd_reachable : kbd_reachable ready_kbd.
Proof. do 2 (apply kbd_reachable_default; [| exact I]). apply kbd_reachable_reset. Qed.

Definition ready_board : board (H := unit) :=
  mkBoard i8259_init [] (sample_rtc 2) [] 0 (mkIsa ready_kbd pcspk_state 0 [] 0).

Lemma i8259_init_idle : pics_idle i8259_init 1.
Proof.
  split; [constructor; [apply i8259_init_wf | reflexivity..] |].
  split; [constructor; [split; lia | reflexivity..] | lia].
Qed.

Lemma i8259_init_low : pics_low i8259_init 12.
Proof. split; [split; lia | split; reflexivity]. Qed.

Lemma key_interrupt_delivered_witness :
  exists p m', board_ports false = Some p /\ key_event 0x1e ready_board = Some m' /\
    head m'.(b_pic).(parent_irq) = Some 1 /\ (pic_read_irq m'.(b_pic)).1 = 0 + 1 /\
    (exists st, cpu_inb (call_read true) no_range_read p 0x64 m' = Some (st, m') /\
       Z.testbit st 0 = true) /\
    exists m'', cpu_inb (call_read true) no_range_read p 0x60 m' = Some (0x1e, m'').
Proof.
  destruct (board_ports_some false) as [p Hp].
  destruct (key_interrupt_delivered true false p ready_board 0x1e) as (m' & Hm').
  - exact Hp.
  - apply kbd_reachable_wf, ready_kbd_reachable.
  - vm_compute. reflexivity.
  - vm_compute. reflexivity.
  - vm_compute. reflexivity.
  - vm_compute. reflexivity.
  - exact i8259_init_idle.
  - exact i8259_init_low.
  - split; lia.
  - exists p, m'. split; [exact Hp | exact Hm'].
Defined.
