(* ===== verification/Sbuf.v ===== *)
(** * Socket buffers of the user-mode network (qemu/slirp/sbuf.c, sbuf.h)

    A ring buffer with a read and a write pointer, here offsets into
    [sb_data].  [None] is undefined behaviour: a [memcpy] outside the buffer or
    through a NULL buffer.  Allocation is a parameter that says whether it
    succeeds and what the new memory holds, and so is the result of the
    non-blocking send.

    Theorems: the ring refines a queue of bytes, and [sbappend] keeps the
    order of the stream whatever part of the data could be sent at once. *)

From Stdlib Require Import ZArith Lia.
From stdpp Require Import base option numbers list.
From S2P Require Import Prelude.

Local Open Scope Z_scope.

(** ** Definitions *)

Record sbuf := mkSbuf {
  sb_cc : Z;
  sb_datalen : Z;
  sb_wptr : Z;
  sb_rptr : Z;
  sb_data : option (list Z)
}.

(** [memcpy(data + off, src, n)] with the first [n] bytes of [src] *)
Definition copy_in (data : list Z) (off : Z) (src : list Z) (n : Z) : option (list Z) :=
  if (0 <=? off) && (0 <=? n) && (off + n <=? Z.of_nat (length data))
     && (n <=? Z.of_nat (length src))
  then Some (take (Z.to_nat off) data ++ take (Z.to_nat n) src
             ++ drop (Z.to_nat (off + n)) data)
  else None.

(** The [n] bytes [memcpy(to, data + off, n)] copies *)
Definition copy_out (data : list Z) (off n : Z) : option (list Z) :=
  if (0 <=? off) && (0 <=? n) && (off + n <=? Z.of_nat (length data))
  then Some (take (Z.to_nat n) (drop (Z.to_nat off) data))
  else None.

Definition sbspace (sb : sbuf) : Z := sb.(sb_datalen) - sb.(sb_cc).

(** The comparison converts [num] to unsigned. *)
Definition sbdrop (sb : sbuf) (num : Z) : sbuf :=
  let num := if sb.(sb_cc) <? wrap 32 num then sb.(sb_cc) else num in
  let rptr := sb.(sb_rptr) + num in
  mkSbuf (wrap 32 (sb.(sb_cc) - num)) sb.(sb_datalen) sb.(sb_wptr)
    (if sb.(sb_datalen) <=? rptr then rptr - sb.(sb_datalen) else rptr) sb.(sb_data).

Definition sbflush (sb : sbuf) : sbuf := sbdrop sb sb.(sb_cc).

(** [alloc] is what [malloc] or [realloc] returns for [size] bytes. *)
Definition sbreserve (alloc : Z -> option (list Z)) (sb : sbuf) (size : Z) : sbuf :=
  let fresh :=
    match alloc size with
    | Some data => mkSbuf 0 (wrap 32 size) 0 0 (Some data)
    | None => mkSbuf 0 0 0 0 None
    end in
  match sb.(sb_data) with
  | Some _ => if sb.(sb_datalen) =? wrap 32 size then sb else fresh
  | None => fresh
  end.

(** [m] is the data of the mbuf, [m_len] bytes from [m_data]. *)
Definition sbappendsb (sb : sbuf) (m : list Z) : option sbuf :=
  data ← sb.(sb_data);
  let len := Z.of_nat (length m) in
  '(data, n) ←
    (if sb.(sb_wptr) <? sb.(sb_rptr) then
       let n := sb.(sb_rptr) - sb.(sb_wptr) in
       let n := if len <? n then len else n in
       data ← copy_in data sb.(sb_wptr) m n;
       Some (data, n)
     else
       let n := sb.(sb_datalen) - sb.(sb_wptr) in
       let n := if len <? n then len else n in
       data ← copy_in data sb.(sb_wptr) m n;
       let len := len - n in
       if len =? 0 then Some (data, n)
       else
         let nn := sb.(sb_rptr) in
         let nn := if len <? nn then len else nn in
         data ← copy_in data 0 (drop (Z.to_nat n) m) nn;
         Some (data, n + nn));
  let wptr := sb.(sb_wptr) + n in
  Some (mkSbuf (wrap 32 (sb.(sb_cc) + n)) sb.(sb_datalen)
          (if sb.(sb_datalen) <=? wptr then wptr - sb.(sb_datalen) else wptr)
          sb.(sb_rptr) (Some data)).

(** The bytes copied to [to] *)
Definition sbcopy (sb : sbuf) (off len : Z) : option (list Z) :=
  data ← sb.(sb_data);
  let from := sb.(sb_rptr) + off in
  let from := if sb.(sb_datalen) <=? from then from - sb.(sb_datalen) else from in
  if from <? sb.(sb_wptr) then
    copy_out data from (if sb.(sb_cc) <? wrap 32 len then sb.(sb_cc) else len)
  else
    let off := sb.(sb_datalen) - from in
    let off := if len <? off then len else off in
    first ← copy_out data from off;
    let len := len - off in
    if len =? 0 then Some first
    else
      second ← copy_out data 0 len;
      Some (first ++ second).

(** What [sbappend] does to the socket: the bytes that went out at once, the
    receive buffer, and whether [sosendoob] is called to send urgent data.
    [send] is the result of [slirp_send]. *)
Definition sbappend (send : Z) (so_urgc : Z) (so_rcv : sbuf) (m : list Z)
  : option (list Z * sbuf * bool) :=
  let m_len := Z.of_nat (length m) in
  if m_len <=? 0 then Some ([], so_rcv, false)
  else if c_true so_urgc then
    sb ← sbappendsb so_rcv m;
    Some ([], sb, true)
  else
    let ret := if so_rcv.(sb_cc) =? 0 then send else 0 in
    if ret <=? 0 then
      sb ← sbappendsb so_rcv m;
      Some ([], sb, false)
    else if negb (ret =? m_len) then
      sb ← sbappendsb so_rcv (drop (Z.to_nat ret) m);
      Some (take (Z.to_nat ret) m, sb, false)
    else Some (m, so_rcv, false).

(** ** Specification: the queue of bytes in the ring *)

(** The offset of the [i]-th byte from [r] in a ring of [l] bytes *)
Definition ring_index (l r i : Z) : Z := if r + i <? l then r + i else r + i - l.

Definition ring_get (data : list Z) (l r : Z) (i : nat) : Z :=
  default 0 (data !! Z.to_nat (ring_index l r (Z.of_nat i))).

Definition contents (sb : sbuf) : list Z :=
  match sb.(sb_data) with
  | None => []
  | Some data =>
      ring_get data sb.(sb_datalen) sb.(sb_rptr) <$> seq 0 (Z.to_nat sb.(sb_cc))
  end.

(** The buffer is allocated, both pointers are inside, and the write pointer
    is [sb_cc] bytes after the read pointer. *)
Record sbuf_wf (sb : sbuf) : Prop := {
  sbuf_wf_data : exists data, sb.(sb_data) = Some data
                              /\ Z.of_nat (length data) = sb.(sb_datalen);
  sbuf_wf_len : 0 < sb.(sb_datalen) < 2 ^ 31;
  sbuf_wf_rptr : 0 <= sb.(sb_rptr) < sb.(sb_datalen);
  sbuf_wf_cc : 0 <= sb.(sb_cc) <= sb.(sb_datalen);
  sbuf_wf_wptr :
    sb.(sb_wptr) = if sb.(sb_cc) =? sb.(sb_datalen) then sb.(sb_rptr)
                   else ring_index sb.(sb_datalen) sb.(sb_rptr) sb.(sb_cc)
}.

(** ** Copies *)

Lemma copy_in_spec (data src : list Z) (off n : Z) :
  0 <= off -> 0 <= n -> off + n <= Z.of_nat (length data) -> n <= Z.of_nat (length src) ->
  exists data', copy_in data off src n = Some data' /\ length data' = length data
  /\ forall j : nat, data' !! j =
       if (off <=? Z.of_nat j) && (Z.of_nat j <? off + n)
       then src !! (j - Z.to_nat off)%nat else data !! j.
Proof.
  intros Ho Hn Hlen Hsrc. unfold copy_in.
  destruct (Z.leb_spec 0 off); [| lia]. destruct (Z.leb_spec 0 n); [| lia].
  destruct (Z.leb_spec (off + n) (Z.of_nat (length data))); [| lia].
  destruct (Z.leb_spec n (Z.of_nat (length src))); [| lia]. cbn [andb].
  eexists. split; [done |]. split.
  { rewrite !length_app, length_drop, !length_take. lia. }
  intros j. destruct (Z.leb_spec off (Z.of_nat j)); cbn [andb].
  - rewrite lookup_app_r by (rewrite length_take; lia). rewrite length_take_le by lia.
    destruct (Z.ltb_spec (Z.of_nat j) (off + n)).
    + rewrite lookup_app_l by (rewrite length_take; lia). by rewrite lookup_take_lt by lia.
    + rewrite lookup_app_r by (rewrite length_take; lia). rewrite length_take_le by lia.
      rewrite lookup_drop. f_equal. lia.
  - rewrite lookup_app_l by (rewrite length_take; lia). by rewrite lookup_take_lt by lia.
Qed.

Lemma copy_out_spec (data : list Z) (off n : Z) :
  0 <= off -> 0 <= n -> off + n <= Z.of_nat (length data) ->
  copy_out data off n = Some ((fun j => default 0 (data !! j)) <$> seq (Z.to_nat off) (Z.to_nat n)).
Proof.
  intros Ho Hn Hlen. unfold copy_out.
  destruct (Z.leb_spec 0 off); [| lia]. destruct (Z.leb_spec 0 n); [| lia].
  destruct (Z.leb_spec (off + n) (Z.of_nat (length data))); [| lia]. cbn [andb]. f_equal.
  apply list_eq_same_length with (n := Z.to_nat n);
    [by rewrite length_fmap, length_seq | rewrite length_take, length_drop; lia |].
  intros i x y Hi Hx Hy. rewrite lookup_take_lt in Hx by lia. rewrite lookup_drop in Hx.
  rewrite list_lookup_fmap, lookup_seq_lt in Hy by lia. cbn in Hy. rewrite Hx in Hy. by injection Hy.
Qed.

(** ** The ring *)

Lemma ring_index_lt (l r i : Z) : 0 <= r < l -> 0 <= i < l -> 0 <= ring_index l r i < l.
Proof. unfold ring_index. intros. destruct (Z.ltb_spec (r + i) l); lia. Qed.

Lemma ring_index_0 (l r : Z) : 0 <= r < l -> ring_index l r 0 = r.
Proof. unfold ring_index. intros. destruct (Z.ltb_spec (r + 0) l); lia. Qed.

Lemma contents_length (sb : sbuf) : sbuf_wf sb -> Z.of_nat (length (contents sb)) = sb.(sb_cc).
Proof.
  intros [(data & Hd & _) _ _ ? _]. unfold contents. rewrite Hd, length_fmap, length_seq. lia.
Qed.

(** Two rings with the same bytes hold the same queue. *)
Lemma ring_get_ext (data data' : list Z) (l r r' : Z) (n off : nat) :
  (forall i, (i < n)%nat ->
     data !! Z.to_nat (ring_index l r (Z.of_nat (off + i)))
     = data' !! Z.to_nat (ring_index l r' (Z.of_nat i))) ->
  ring_get data l r <$> seq off n = ring_get data' l r' <$> seq 0 n.
Proof.
  intros He. apply list_eq_same_length with (n := n); [by rewrite length_fmap, length_seq.. |].
  intros i x y Hi. rewrite !list_lookup_fmap, !lookup_seq_lt by lia. cbn. unfold ring_get.
  rewrite He by done. congruence.
Qed.

Lemma sbdrop_spec (sb : sbuf) (num : Z) :
  sbuf_wf sb -> 0 <= num <= sb.(sb_cc) ->
  sbuf_wf (sbdrop sb num) /\ contents (sbdrop sb num) = drop (Z.to_nat num) (contents sb).
Proof.
  intros [(data & Hd & Hlen) Hl Hr Hc Hw] Hn. unfold sbdrop.
  assert (wrap 32 num = num) as -> by (unfold wrap; apply Z.mod_small; lia).
  destruct (Z.ltb_spec sb.(sb_cc) num); [lia |].
  assert (wrap 32 (sb.(sb_cc) - num) = sb.(sb_cc) - num) as -> by (unfold wrap; apply Z.mod_small; lia).
  set (l := sb.(sb_datalen)) in *. set (r' := if l <=? _ then _ else _).
  assert (0 <= r' < l /\ (num < l -> r' = ring_index l sb.(sb_rptr) num)
          /\ (num = l -> r' = sb.(sb_rptr))) as (Hr' & Hri & Hrl).
  { subst r'. unfold ring_index. destruct (Z.leb_spec l (sb.(sb_rptr) + num)); split_and!; try lia.
    - destruct (Z.ltb_spec (sb.(sb_rptr) + num) l); lia.
    - destruct (Z.ltb_spec (sb.(sb_rptr) + num) l); lia. }
  clearbody r'. split.
  - split; cbn; [by exists data | lia | lia | lia |]. fold l. rewrite Hw. unfold ring_index in *.
    revert Hri Hrl. case_cmp; lia.
  - unfold contents. cbn [sb_data sb_cc sb_datalen sb_rptr]. rewrite Hd. fold l.
    rewrite <- fmap_drop, drop_seq. cbn [Nat.add].
    replace (Z.to_nat sb.(sb_cc) - Z.to_nat num)%nat with (Z.to_nat (sb.(sb_cc) - num)) by lia.
    symmetry. apply ring_get_ext. intros i Hi. f_equal. f_equal. unfold ring_index in *.
    revert Hri Hrl. case_cmp; lia.
Qed.

(** The bytes of [m] are in the ring after the [sb_cc] old ones, which are
    unchanged. *)
Definition ring_written (sb : sbuf) (data data' m : list Z) : Prop :=
  length data' = length data
  /\ (forall i : nat, Z.of_nat i < sb.(sb_cc) ->
        let j := Z.to_nat (ring_index sb.(sb_datalen) sb.(sb_rptr) (Z.of_nat i)) in
        data' !! j = data !! j)
  /\ (forall i : nat, (i < length m)%nat ->
        data' !! Z.to_nat (ring_index sb.(sb_datalen) sb.(sb_rptr) (sb.(sb_cc) + Z.of_nat i))
        = m !! i).

Lemma ring_written_contents (sb : sbuf) (data data' m : list Z) (w' : Z) :
  sbuf_wf sb -> sb.(sb_data) = Some data -> ring_written sb data data' m ->
  Z.of_nat (length m) <= sbspace sb ->
  contents (mkSbuf (sb.(sb_cc) + Z.of_nat (length m)) sb.(sb_datalen) w' sb.(sb_rptr) (Some data'))
  = contents sb ++ m.
Proof.
  intros [_ _ _ Hc _] Hd (_ & Hold & Hnew) Hsp. unfold contents. cbn [sb_data sb_cc sb_datalen sb_rptr].
  rewrite Hd. replace (Z.to_nat (sb_cc sb + Z.of_nat (length m)))
    with (Z.to_nat (sb_cc sb) + length m)%nat by lia.
  rewrite seq_app, fmap_app. f_equal.
  - apply ring_get_ext. intros i Hi. cbn [Nat.add]. apply Hold. lia.
  - apply list_eq_same_length with (n := length m); [done | by rewrite length_fmap, length_seq |].
    intros i x y Hi. rewrite list_lookup_fmap, lookup_seq_lt by lia. cbn [fmap option_fmap option_map].
    unfold ring_get. replace (Z.of_nat (0 + Z.to_nat (sb_cc sb) + i)) with (sb_cc sb + Z.of_nat i) by lia.
    rewrite Hnew by done. intros [= <-] ->. done.
Qed.

(** Decide where an index of the ring falls. *)
Ltac ring_cases :=
  case_cmp; cbn [andb]; first [done | lia | (f_equal; lia)].

(** The whole of [sbappendsb], on the ring *)
Lemma sbappendsb_ring (sb : sbuf) (data m : list Z) :
  sbuf_wf sb -> sb.(sb_data) = Some data -> Z.of_nat (length m) <= sbspace sb ->
  exists data' w',
    sbappendsb sb m = Some (mkSbuf (sb.(sb_cc) + Z.of_nat (length m)) sb.(sb_datalen) w'
      sb.(sb_rptr) (Some data')) /\ ring_written sb data data' m
    /\ w' = if sb.(sb_cc) + Z.of_nat (length m) =? sb.(sb_datalen) then sb.(sb_rptr)
            else ring_index sb.(sb_datalen) sb.(sb_rptr) (sb.(sb_cc) + Z.of_nat (length m)).
Proof.
  intros [(data0 & Hd0 & Hlen) Hl Hr Hc Hw] Hd Hsp. unfold sbspace in Hsp.
  assert (data0 = data) as -> by congruence. clear Hd0.
  unfold sbappendsb. rewrite Hd. cbn [mbind option_bind].
  assert (wrap 32 (sb.(sb_cc) + Z.of_nat (length m)) = sb.(sb_cc) + Z.of_nat (length m)) as Hwrap
    by (unfold wrap; apply Z.mod_small; lia).
  set (L := sb.(sb_datalen)) in *. set (W := sb.(sb_wptr)) in *. set (R := sb.(sb_rptr)) in *.
  set (C := sb.(sb_cc)) in *. set (N := Z.of_nat (length m)) in *.
  unfold ring_index in Hw. unfold ring_written. fold C L R.
  destruct (Z.ltb_spec W R).
  - assert (W = R + C - L /\ L <= R + C) as [HW ?] by (revert Hw; case_cmp; lia).
    replace (if N <? R - W then N else R - W) with N by (case_cmp; lia).
    destruct (copy_in_spec data m W N) as (data' & -> & Hl' & Hlk); [lia.. |]. cbn [mbind option_bind].
    exists data'. eexists. rewrite Hwrap. split; [done |]. split; [| unfold ring_index; case_cmp; lia].
    split_and!; [done | |]; intros i Hi; cbn zeta; rewrite Hlk; unfold ring_index; ring_cases.
  - assert (W = R + C /\ R + C < L \/ C = L /\ N = 0 /\ W = R) as HW
      by (revert Hw; case_cmp; lia).
    destruct (Z.ltb_spec N (L - W)) as [Hn | Hn].
    + destruct (copy_in_spec data m W N) as (data' & -> & Hl' & Hlk); [lia.. |].
      cbn [mbind option_bind]. rewrite Z.sub_diag. cbn [Z.eqb mbind option_bind].
      exists data'. eexists. rewrite Hwrap. split; [done |]. split; [| unfold ring_index; case_cmp; lia].
      split_and!; [done | |]; intros i Hi; cbn zeta; rewrite Hlk; unfold ring_index; ring_cases.
    + destruct (copy_in_spec data m W (L - W)) as (data1 & -> & Hl1 & Hlk1); [lia.. |].
      cbn [mbind option_bind]. destruct (Z.eqb_spec (N - (L - W)) 0) as [Hz | Hz].
      * cbn [mbind option_bind]. exists data1. eexists. rewrite <- Hwrap.
        replace (L - W) with N by lia. split; [done |].
        split; [| unfold ring_index; case_cmp; lia].
        split_and!; [done | |]; intros i Hi; cbn zeta; rewrite Hlk1; unfold ring_index; ring_cases.
      * replace (if N - (L - W) <? R then N - (L - W) else R) with (N - (L - W)) by (case_cmp; lia).
        destruct (copy_in_spec data1 (drop (Z.to_nat (L - W)) m) 0 (N - (L - W)))
          as (data2 & -> & Hl2 & Hlk2); [lia.. | rewrite length_drop; lia |].
        cbn [mbind option_bind]. exists data2. eexists. rewrite <- Hwrap.
        replace (L - W + (N - (L - W))) with N by lia. split; [done |].
        split; [| unfold ring_index; case_cmp; lia].
        split_and!; [congruence | |]; intros i Hi; cbn zeta; rewrite Hlk2, Hlk1, lookup_drop;
          unfold ring_index; ring_cases.
Qed.

Lemma sbappendsb_spec (sb : sbuf) (m : list Z) :
  sbuf_wf sb -> Z.of_nat (length m) <= sbspace sb ->
  exists sb', sbappendsb sb m = Some sb' /\ sbuf_wf sb' /\ contents sb' = contents sb ++ m.
Proof.
  intros Hwf Hsp. pose proof Hwf as [(data & Hd & Hlen) Hl Hr Hc Hw].
  destruct (sbappendsb_ring sb data m Hwf Hd Hsp) as (data' & w' & -> & Hwr & Hw').
  unfold sbspace in Hsp. eexists. split; [done |]. split; [| by eapply ring_written_contents].
  split; cbn; [| lia | lia | lia | done]. exists data'. split; [done |].
  destruct Hwr as [-> _]. done.
Qed.

(** Consecutive bytes of the ring, from offset [from] on *)
Lemma ring_slice (data : list Z) (l r from : Z) (off n : nat) :
  (forall i, (i < n)%nat -> ring_index l r (Z.of_nat (off + i)) = from + Z.of_nat i) -> 0 <= from ->
  (fun j => default 0 (data !! j)) <$> seq (Z.to_nat from) n = ring_get data l r <$> seq off n.
Proof.
  intros Hi Hf. apply list_eq_same_length with (n := n); [by rewrite length_fmap, length_seq.. |].
  intros i x y Hlt. rewrite !list_lookup_fmap, !lookup_seq_lt by lia. cbn. unfold ring_get.
  rewrite Hi by done. replace (Z.to_nat (from + Z.of_nat i)) with (Z.to_nat from + i)%nat by lia.
  congruence.
Qed.

Lemma contents_slice (sb : sbuf) (data : list Z) (off len : Z) :
  sb.(sb_data) = Some data -> 0 <= off -> 0 <= len -> off + len <= sb.(sb_cc) ->
  take (Z.to_nat len) (drop (Z.to_nat off) (contents sb)) =
    ring_get data sb.(sb_datalen) sb.(sb_rptr) <$> seq (Z.to_nat off) (Z.to_nat len).
Proof.
  intros Hd Ho Hl Hc. unfold contents. rewrite Hd, <- fmap_drop, <- fmap_take, drop_seq, take_seq.
  f_equal. f_equal; lia.
Qed.

Lemma sbcopy_spec (sb : sbuf) (off len : Z) :
  sbuf_wf sb -> 0 <= off -> 0 <= len -> off + len <= sb.(sb_cc) ->
  sbcopy sb off len = Some (take (Z.to_nat len) (drop (Z.to_nat off) (contents sb))).
Proof.
  intros [(data & Hd & Hlen) Hl Hr Hc Hw] Ho Hn Hle. rewrite (contents_slice sb data) by done.
  unfold sbcopy. rewrite Hd. cbn [mbind option_bind].
  assert (wrap 32 len = len) as -> by (unfold wrap; apply Z.mod_small; lia).
  destruct (Z.ltb_spec sb.(sb_cc) len); [lia |]. unfold ring_index in Hw.
  set (L := sb.(sb_datalen)) in *. set (W := sb.(sb_wptr)) in *. set (R := sb.(sb_rptr)) in *.
  set (C := sb.(sb_cc)) in *.
  set (from := if L <=? R + off then R + off - L else R + off).
  assert (from = R + off /\ R + off < L \/ from = R + off - L /\ L <= R + off) as Hfrom
    by (subst from; case_cmp; lia).
  clearbody from.
  destruct (Z.ltb_spec from W).
  - rewrite copy_out_spec by (revert Hw; case_cmp; lia). f_equal.
    apply ring_slice; [| lia]. intros i Hi. unfold ring_index. revert Hw. case_cmp; lia.
  - destruct (Z.ltb_spec len (L - from)).
    + rewrite (copy_out_spec data from len) by (revert Hw; case_cmp; lia). cbn [mbind option_bind].
      rewrite Z.sub_diag. cbn [Z.eqb]. f_equal.
      apply ring_slice; [| lia]. intros i Hi. unfold ring_index. revert Hw. case_cmp; lia.
    + rewrite (copy_out_spec data from (L - from)) by (revert Hw; case_cmp; lia).
      cbn [mbind option_bind]. destruct (Z.eqb_spec (len - (L - from)) 0) as [Hz |].
      * replace (L - from) with len by lia. f_equal.
        apply ring_slice; [| lia]. intros i Hi. unfold ring_index. revert Hw. case_cmp; lia.
      * rewrite copy_out_spec by (revert Hw; case_cmp; lia). cbn [mbind option_bind]. f_equal.
        replace (Z.to_nat len) with (Z.to_nat (L - from) + Z.to_nat (len - (L - from)))%nat by lia.
        rewrite seq_app, fmap_app. f_equal.
        -- apply ring_slice; [| lia]. intros i Hi. unfold ring_index. revert Hw. case_cmp; lia.
        -- apply (ring_slice data L R 0); [| lia]. intros i Hi. unfold ring_index. revert Hw. case_cmp; lia.
Qed.

Lemma contents_nil (sb : sbuf) : sb.(sb_cc) = 0 -> contents sb = [].
Proof. intros Hc. unfold contents. rewrite Hc. by destruct (sb_data sb). Qed.

(** A successful allocation gives an empty buffer of the size asked for. *)
Lemma sbreserve_wf (alloc : Z -> option (list Z)) (sb : sbuf) (size : Z) (data : list Z) :
  0 < size < 2 ^ 31 -> alloc size = Some data -> Z.of_nat (length data) = size ->
  sb.(sb_data) = None \/ sb.(sb_datalen) <> size ->
  sbuf_wf (sbreserve alloc sb size) /\ contents (sbreserve alloc sb size) = [].
Proof.
  intros Hs Ha Hlen Hsb. assert (wrap 32 size = size) as Hw by (unfold wrap; apply Z.mod_small; lia).
  assert (sbreserve alloc sb size = mkSbuf 0 size 0 0 (Some data)) as ->.
  { unfold sbreserve. rewrite Ha, Hw. destruct (sb_data sb); [| done].
    destruct (Z.eqb_spec (sb_datalen sb) size); [| done]. destruct Hsb; done. }
  split; [| done]. split; cbn [sb_data sb_cc sb_datalen sb_rptr sb_wptr];
    [by exists data | lia | lia | lia |]. unfold ring_index. case_cmp; lia.
Qed.

(** ** Properties *)

(** C31: the ring buffer refines a queue of bytes: with enough room
    [sbappendsb] appends, [sbdrop] removes from the front, [sbcopy] reads any
    part without changing the buffer and never touches memory outside it, and
    all of them keep the pointers consistent. *)
Theorem sbuf_refines_queue (sb : sbuf) :
  sbuf_wf sb ->
  Z.of_nat (length (contents sb)) = sb.(sb_cc)
  /\ (forall m, Z.of_nat (length m) <= sbspace sb ->
        exists sb', sbappendsb sb m = Some sb' /\ sbuf_wf sb' /\ contents sb' = contents sb ++ m)
  /\ (forall num, 0 <= num <= sb.(sb_cc) ->
        sbuf_wf (sbdrop sb num) /\ contents (sbdrop sb num) = drop (Z.to_nat num) (contents sb))
  /\ (forall off len, 0 <= off -> 0 <= len -> off + len <= sb.(sb_cc) ->
        sbcopy sb off len = Some (take (Z.to_nat len) (drop (Z.to_nat off) (contents sb))))
  /\ contents (sbflush sb) = [].
Proof.
  intros Hwf. split_and!.
  - by apply contents_length.
  - intros m. by apply sbappendsb_spec.
  - intros num. by apply sbdrop_spec.
  - intros off len. by apply sbcopy_spec.
  - pose proof Hwf as [_ _ _ Hc _]. unfold sbflush.
    destruct (sbdrop_spec sb sb.(sb_cc) Hwf) as [_ ->]; [lia |].
    apply drop_ge. pose proof (contents_length sb Hwf). lia.
Qed.

(** A full buffer of four bytes whose contents wrap around *)
Definition sample_sbuf : sbuf := mkSbuf 3 4 1 2 (Some [30; 0; 10; 20]).

Lemma sample_sbuf_wf : sbuf_wf sample_sbuf.
Proof. split; [by eexists | cbn; lia.. | reflexivity]. Qed.

Lemma sbuf_refines_queue_witness :
  sbcopy sample_sbuf 1 2 = Some (take 2 (drop 1 (contents sample_sbuf))).
Proof. apply (sbuf_refines_queue sample_sbuf sample_sbuf_wf); cbn; lia. Defined.

(** [sbappend] keeps the stream in order: what is sent at once followed by
    what the buffer then holds is the old contents followed by the new data,
    whatever part of it the socket accepts; nothing is lost or duplicated. *)
Theorem sbappend_in_order (send so_urgc : Z) (so_rcv : sbuf) (m : list Z) :
  sbuf_wf so_rcv -> Z.of_nat (length m) <= sbspace so_rcv -> send <= Z.of_nat (length m) ->
  exists sent sb' oob, sbappend send so_urgc so_rcv m = Some (sent, sb', oob)
  /\ sbuf_wf sb' /\ sent ++ contents sb' = contents so_rcv ++ m.
Proof.
  intros Hwf Hsp Hsend. unfold sbappend. destruct (sbappendsb_spec _ m Hwf Hsp) as (sb' & Happ & Hwf' & Hc').
  destruct (Z.leb_spec (Z.of_nat (length m)) 0).
  { destruct m; [| cbn in *; lia]. eexists _, _, _. split; [done |]. by rewrite app_nil_r. }
  destruct (c_true so_urgc); [rewrite Happ; by eexists _, _, _ |].
  destruct (Z.eqb_spec (sb_cc so_rcv) 0) as [Hz |]; [| rewrite Happ; by eexists _, _, _].
  rewrite (contents_nil _ Hz).
  destruct (Z.leb_spec send 0); [rewrite Happ; rewrite (contents_nil _ Hz) in Hc'; by eexists _, _, _ |].
  destruct (Z.eqb_spec send (Z.of_nat (length m))) as [He | He]; cbn [negb].
  { eexists _, _, _. split; [done |]. by rewrite (contents_nil _ Hz), app_nil_r. }
  destruct (sbappendsb_spec so_rcv (drop (Z.to_nat send) m) Hwf) as (sb2 & -> & Hwf2 & Hc2);
    [rewrite length_drop; lia |].
  eexists _, _, _. split; [done |]. split; [done |]. rewrite Hc2, (contents_nil _ Hz). cbn [app].
  apply take_drop.
Qed.

Lemma sbappend_in_order_witness :
  exists sent sb' oob,
    sbappend 1 0 (mkSbuf 0 4 3 3 (Some [0; 0; 0; 0])) [7; 8; 9] = Some (sent, sb', oob)
    /\ sbuf_wf sb'
    /\ sent ++ contents sb' = contents (mkSbuf 0 4 3 3 (Some [0; 0; 0; 0])) ++ [7; 8; 9].
Proof.
  apply sbappend_in_order; [| by_eval | by_eval].
  split; [by eexists | cbn; lia.. | reflexivity].
Defined.
