(* ===== verification/NetQueue.v ===== *)
(** * Packet queues (qemu/net/queue.c)

    A queue in front of a receiver that may refuse a packet by returning 0.
    The receiver and the completion callbacks belong to other components and
    may send packets through the same queue while they run.  They are
    parameters, given as programs ([client]) whose only effect on the queue is
    to call [qemu_net_queue_send]; [W] is their state.  A send from inside a
    delivery finds [delivering] set and only appends; a send from a callback
    delivers and flushes again before the outer flush goes on.  Submissions,
    deliveries and callbacks are recorded as events.  [None] is a flush that
    did not end within its fuel, possible only if clients answer with new
    packets for ever.

    Theorems: a send and a flush end for clients that send finitely many
    packets, and no packet is lost or duplicated whatever they send; a flush
    keeps the order. *)

From Stdlib Require Import ZArith Lia.
From stdpp Require Import base option numbers list.
From S2P Require Import Prelude.

Local Open Scope Z_scope.

Section NetQueue.
Context {V C W : Type} `{EqDecision V}.

(** [struct NetPacket]; the size is the length of the data. *)
Record NetPacket := mkPacket {
  p_sender : V;
  p_flags : Z;
  p_data : list Z;
  p_sent_cb : option C
}.

Record NetQueue := mkQueue {
  packets : list NetPacket;
  delivering : bool
}.

Inductive event :=
  | Submitted (p : NetPacket)
  | Delivered (p : NetPacket) (ret : Z)
  | SentCb (cb : C) (sender : V) (ret : Z).

(** A program that may send: each send passes the state on and continues with
    the result and the state after it. *)
Inductive client (A : Type) :=
  | Done (a : A)
  | Send (w : W) (p : NetPacket) (k : Z -> W -> client A).
Arguments Done {A} a.
Arguments Send {A} w p k.

(** [queue->deliver], and a [NetPacketSent] *)
Context (recv : V -> Z -> list Z -> W -> client (Z * W)).
Context (run_cb : C -> V -> Z -> W -> client W).

Definition qemu_new_net_queue : NetQueue := mkQueue [] false.

(** The loop of [qemu_del_net_queue], which frees packet after packet *)
Fixpoint del_loop (l : list NetPacket) : list NetPacket :=
  match l with
  | [] => []
  | _ :: l => del_loop l
  end.

Definition qemu_del_net_queue (queue : NetQueue) : NetQueue :=
  mkQueue (del_loop queue.(packets)) queue.(delivering).

Definition insert_tail (p : NetPacket) (queue : NetQueue) : NetQueue :=
  mkQueue (queue.(packets) ++ [p]) queue.(delivering).

Definition set_delivering (b : bool) (queue : NetQueue) : NetQueue := mkQueue queue.(packets) b.

Definition qemu_net_queue_append (queue : NetQueue) (sender : V) (flags : Z) (buf : list Z)
    (sent_cb : option C) : Z * NetQueue :=
  (Z.of_nat (length buf), insert_tail (mkPacket sender flags buf sent_cb) queue).

(** The copying loop of the vectored version *)
Fixpoint copy_iov (iov : list (list Z)) (data : list Z) : list Z :=
  match iov with
  | [] => data
  | v :: iov => copy_iov iov (data ++ v)
  end.

Definition qemu_net_queue_append_iov (queue : NetQueue) (sender : V) (flags : Z)
    (iov : list (list Z)) (sent_cb : option C) : Z * NetQueue :=
  let data := copy_iov iov [] in
  (Z.of_nat (length data), insert_tail (mkPacket sender flags data sent_cb) queue).

Definition sender_fn : Type :=
  NetQueue -> NetPacket -> W -> list event -> option (Z * NetQueue * W * list event).

(** Run a client with [send] for its sends. *)
Fixpoint run_client {A} (send : sender_fn) (queue : NetQueue) (c : client A) (ev : list event)
  : option (A * NetQueue * list event) :=
  match c with
  | Done a => Some (a, queue, ev)
  | Send w p k =>
      '(ret, queue, w, ev) ← send queue p w ev;
      run_client send queue (k ret w) ev
  end.

(** The first branch of [qemu_net_queue_send], the only one a receiver can
    take *)
Definition send_delivering : sender_fn := fun queue p w ev =>
  let ev := ev ++ [Submitted p] in
  if queue.(delivering) then
    let '(ret, queue) := qemu_net_queue_append queue p.(p_sender) p.(p_flags) p.(p_data) None in
    Some (ret, queue, w, ev)
  else None.

Definition qemu_net_queue_deliver (queue : NetQueue) (p : NetPacket) (w : W) (ev : list event)
  : option (Z * NetQueue * W * list event) :=
  let queue := set_delivering true queue in
  '(ret, w, queue, ev) ←
     run_client send_delivering queue (recv p.(p_sender) p.(p_flags) p.(p_data) w) ev;
  Some (ret, set_delivering false queue, w, ev ++ [Delivered p ret]).

(** [qemu_net_queue_send] over the flush it ends with *)
Definition send_with (flush : NetQueue -> W -> list event -> option (NetQueue * W * list event))
  : sender_fn := fun queue p w ev =>
  if queue.(delivering) then send_delivering queue p w ev
  else
    '(ret, queue, w, ev) ← qemu_net_queue_deliver queue p w (ev ++ [Submitted p]);
    if ret =? 0 then
      let '(_, queue) :=
        qemu_net_queue_append queue p.(p_sender) p.(p_flags) p.(p_data) p.(p_sent_cb) in
      Some (0, queue, w, ev)
    else
      '(queue, w, ev) ← flush queue w ev;
      Some (ret, queue, w, ev).

Fixpoint qemu_net_queue_flush (fuel : nat) (queue : NetQueue) (w : W) (ev : list event)
  : option (NetQueue * W * list event) :=
  match fuel with
  | O => None
  | S fuel =>
      match queue.(packets) with
      | [] => Some (queue, w, ev)
      | p :: rest =>
          '(ret, queue, w, ev) ← qemu_net_queue_deliver (mkQueue rest queue.(delivering)) p w ev;
          if ret =? 0 then Some (mkQueue (p :: queue.(packets)) queue.(delivering), w, ev)
          else
            match p.(p_sent_cb) with
            | Some cb =>
                '(w, queue, ev) ←
                   run_client (send_with (qemu_net_queue_flush fuel)) queue
                     (run_cb cb p.(p_sender) ret w) (ev ++ [SentCb cb p.(p_sender) ret]);
                qemu_net_queue_flush fuel queue w ev
            | None => qemu_net_queue_flush fuel queue w ev
            end
      end
  end.

Definition qemu_net_queue_send (fuel : nat) : sender_fn := send_with (qemu_net_queue_flush fuel).

(** The vectored send: [deliver_iov] is a receiver of its own. *)
Definition qemu_net_queue_deliver_iov (recv_iov : V -> Z -> list (list Z) -> W -> client (Z * W))
    (queue : NetQueue) (sender : V) (flags : Z) (iov : list (list Z)) (cb : option C) (w : W)
    (ev : list event) : option (Z * NetQueue * W * list event) :=
  let queue := set_delivering true queue in
  '(ret, w, queue, ev) ← run_client send_delivering queue (recv_iov sender flags iov w) ev;
  Some (ret, set_delivering false queue, w,
        ev ++ [Delivered (mkPacket sender flags (concat iov) cb) ret]).

Definition qemu_net_queue_send_iov (recv_iov : V -> Z -> list (list Z) -> W -> client (Z * W))
    (fuel : nat) (queue : NetQueue) (sender : V) (flags : Z) (iov : list (list Z))
    (cb : option C) (w : W) (ev : list event) : option (Z * NetQueue * W * list event) :=
  let ev := ev ++ [Submitted (mkPacket sender flags (concat iov) cb)] in
  if queue.(delivering) then
    let '(ret, queue) := qemu_net_queue_append_iov queue sender flags iov None in
    Some (ret, queue, w, ev)
  else
    '(ret, queue, w, ev) ← qemu_net_queue_deliver_iov recv_iov queue sender flags iov cb w ev;
    if ret =? 0 then
      let '(_, queue) := qemu_net_queue_append_iov queue sender flags iov cb in
      Some (0, queue, w, ev)
    else
      '(queue, w, ev) ← qemu_net_queue_flush fuel queue w ev;
      Some (ret, queue, w, ev).

(** The loop of [qemu_net_queue_purge] *)
Fixpoint purge_loop (from : V) (l : list NetPacket) : list NetPacket :=
  match l with
  | [] => []
  | p :: l => if decide (p.(p_sender) = from) then purge_loop from l else p :: purge_loop from l
  end.

Definition qemu_net_queue_purge (queue : NetQueue) (from : V) : NetQueue :=
  mkQueue (purge_loop from queue.(packets)) queue.(delivering).

(** ** Accounting *)

(** A packet without its callback, which a nested send drops *)
Definition body (p : NetPacket) : V * Z * list Z := (p.(p_sender), p.(p_flags), p.(p_data)).

Definition submitted (e : event) : list (V * Z * list Z) :=
  match e with Submitted p => [body p] | _ => [] end.

Definition accepted (e : event) : list (V * Z * list Z) :=
  match e with Delivered p ret => if ret =? 0 then [] else [body p] | _ => [] end.

(** What was accepted, is in flight ([X]) or queued is what was there at the
    start ([L]) or was submitted since; the events extend [P]. *)
Definition balanced (P : list event) (L X : list (V * Z * list Z)) (queue : NetQueue)
    (ev : list event) : Prop :=
  P `prefix_of` ev /\ (ev ≫= accepted) ++ X ++ (body <$> queue.(packets)) ≡ₚ L ++ (ev ≫= submitted).

Lemma balanced_append P L X p cb queue ev :
  balanced P L (body p :: X) queue ev ->
  balanced P L X (insert_tail (mkPacket p.(p_sender) p.(p_flags) p.(p_data) cb) queue) ev.
Proof.
  unfold balanced. intros [? <-]. split; [done |]. cbn. rewrite fmap_app. cbn. fold (body p).
  solve_Permutation.
Qed.

Lemma balanced_event P L X queue ev e :
  balanced P L X queue ev -> submitted e = [] -> accepted e = [] -> balanced P L X queue (ev ++ [e]).
Proof.
  unfold balanced. intros [? Hb] Hs Ha. split; [by apply prefix_app_r |].
  rewrite !bind_app. cbn. by rewrite Hs, Ha, !app_nil_r.
Qed.

Lemma balanced_submit P L X p queue ev :
  balanced P L X queue ev -> balanced P L (body p :: X) queue (ev ++ [Submitted p]).
Proof.
  unfold balanced. intros [? Hb]. split; [by apply prefix_app_r |].
  rewrite !bind_app. cbn. rewrite !app_nil_r, app_assoc, <- Hb. solve_Permutation.
Qed.

Lemma balanced_accept P L X p ret queue ev :
  balanced P L (body p :: X) queue ev -> ret <> 0 -> balanced P L X queue (ev ++ [Delivered p ret]).
Proof.
  unfold balanced. intros [? Hb] Hr. split; [by apply prefix_app_r |].
  rewrite !bind_app. cbn. rewrite (proj2 (Z.eqb_neq _ _) Hr), !app_nil_r.
  rewrite <- Hb. solve_Permutation.
Qed.

Lemma send_delivering_eq queue p w ev :
  queue.(delivering) = true ->
  send_delivering queue p w ev =
  Some (Z.of_nat (length p.(p_data)),
        insert_tail (mkPacket p.(p_sender) p.(p_flags) p.(p_data) None) queue, w, ev ++ [Submitted p]).
Proof. intros Hd. unfold send_delivering. by rewrite Hd. Qed.

Lemma run_delivering_balanced {A} (c : client A) P L X queue ev :
  queue.(delivering) = true -> balanced P L X queue ev ->
  exists a q' ev', run_client send_delivering queue c ev = Some (a, q', ev') /\
    q'.(delivering) = true /\ balanced P L X q' ev'.
Proof.
  revert queue ev. induction c as [a | w p k IH]; intros queue ev Hd Hb; cbn [run_client].
  { by exists a, queue, ev. }
  rewrite send_delivering_eq by done. bind_step.
  apply IH; [done |]. by apply balanced_append, balanced_submit.
Qed.

Lemma deliver_balanced P L X p queue w ev :
  balanced P L (body p :: X) queue ev ->
  exists ret q' w' ev', qemu_net_queue_deliver queue p w ev = Some (ret, q', w', ev') /\
    q'.(delivering) = false /\
    balanced P L (if ret =? 0 then body p :: X else X) q' ev'.
Proof.
  intros Hb. unfold qemu_net_queue_deliver.
  destruct (run_delivering_balanced (recv p.(p_sender) p.(p_flags) p.(p_data) w) P L (body p :: X)
              (set_delivering true queue) ev) as ([ret w'] & q' & ev' & E & Hd & Hb'); [done | done |].
  rewrite E. bind_step. do 4 eexists. split; [done |]. split; [done |].
  destruct (Z.eqb_spec ret 0) as [-> | Hr]; [by apply balanced_event | by apply balanced_accept].
Qed.

(** What every way to send guarantees when no delivery is under way *)
Definition conserving (send : sender_fn) : Prop :=
  forall P L X queue p w ev ret q' w' ev',
    queue.(delivering) = false -> balanced P L X queue ev ->
    send queue p w ev = Some (ret, q', w', ev') -> q'.(delivering) = false /\ balanced P L X q' ev'.

Lemma run_client_balanced {A} (send : sender_fn) (c : client A) P L X queue ev a q' ev' :
  conserving send -> queue.(delivering) = false -> balanced P L X queue ev ->
  run_client send queue c ev = Some (a, q', ev') -> q'.(delivering) = false /\ balanced P L X q' ev'.
Proof.
  intros Hsend. revert queue ev. induction c as [a' | w p k IH]; intros queue ev Hd Hb; cbn [run_client].
  { by intros [= _ <- <-]. }
  destruct (send queue p w ev) as [[[[ret q1] w1] ev1] |] eqn:E; [| done]. bind_step.
  destruct (Hsend _ _ _ _ _ _ _ _ _ _ _ Hd Hb E) as [Hd1 Hb1]. by apply IH.
Qed.

Definition flush_conserving (flush : NetQueue -> W -> list event -> option (NetQueue * W * list event))
  : Prop :=
  forall P L X queue w ev q' w' ev', queue.(delivering) = false -> balanced P L X queue ev ->
    flush queue w ev = Some (q', w', ev') -> q'.(delivering) = false /\ balanced P L X q' ev'.

Lemma send_with_balanced flush P L X queue p w ev ret q' w' ev' :
  flush_conserving flush -> queue.(delivering) = false ->
  balanced P L (body p :: X) queue (ev ++ [Submitted p]) ->
  send_with flush queue p w ev = Some (ret, q', w', ev') ->
  q'.(delivering) = false /\ balanced P L X q' ev'.
Proof.
  intros Hflush Hd Hb. unfold send_with. rewrite Hd.
  destruct (deliver_balanced P L X p queue w (ev ++ [Submitted p]) Hb)
    as (r & q1 & w1 & ev1 & E & Hd1 & Hb1).
  rewrite E. bind_step. destruct (r =? 0); cbn [qemu_net_queue_append].
  - intros [= _ <- _ <-]. split; [done |]. by apply balanced_append.
  - destruct (flush q1 w1 ev1) as [[[q2 w2] ev2] |] eqn:Ef; [| done]. bind_step.
    intros [= _ <- _ <-]. by eapply Hflush.
Qed.

Lemma send_with_conserving flush : flush_conserving flush -> conserving (send_with flush).
Proof.
  intros Hflush P L X queue p w ev ret q' w' ev' Hd Hb.
  apply send_with_balanced; [done | done | by apply balanced_submit].
Qed.

Lemma balanced_pop P L X p rest queue ev :
  queue.(packets) = p :: rest -> balanced P L X queue ev ->
  balanced P L (body p :: X) (mkQueue rest queue.(delivering)) ev.
Proof. unfold balanced. intros -> [? <-]. split; [done |]. cbn. solve_Permutation. Qed.

Lemma balanced_push P L X p queue ev :
  balanced P L (body p :: X) queue ev ->
  balanced P L X (mkQueue (p :: queue.(packets)) queue.(delivering)) ev.
Proof. unfold balanced. intros [? <-]. split; [done |]. cbn. solve_Permutation. Qed.

Lemma flush_balanced fuel : flush_conserving (qemu_net_queue_flush fuel).
Proof.
  induction fuel as [| fuel IH]; intros P L X queue w ev q' w' ev' Hd Hb; cbn [qemu_net_queue_flush]; [done |].
  destruct (queue.(packets)) as [| p rest] eqn:Ep; [by intros [= <- _ <-] |].
  destruct (deliver_balanced P L X p (mkQueue rest queue.(delivering)) w ev)
    as (ret & q1 & w1 & ev1 & E & Hd1 & Hb1); [by apply balanced_pop |].
  rewrite E. bind_step. destruct (ret =? 0).
  { intros [= <- _ <-]. split; [done | by apply balanced_push]. }
  destruct (p.(p_sent_cb)) as [cb |]; [| by eapply IH].
  destruct (run_client _ q1 _ _) as [[[w2 q2] ev2] |] eqn:Ec; [| done]. bind_step.
  apply (run_client_balanced _ _ P L X) in Ec as [Hd2 Hb2];
    [| by apply send_with_conserving | done | by apply balanced_event].
  by eapply IH.
Qed.

(** ** Termination *)

(** [budget w]: how many packets the receivers and callbacks may still send from
    the state [w] of the clients.  A send costs one; what runs meanwhile may
    spend from the rest. *)
Section Budget.
Context (budget : W -> nat).

Inductive within {A} (final : A -> W) : nat -> client A -> Prop :=
  | within_done n a : (budget (final a) <= n)%nat -> within final n (Done a)
  | within_send n w p k :
      (budget w < n)%nat ->
      (forall ret w', (budget w' <= budget w)%nat -> within final (budget w') (k ret w')) ->
      within final n (Send w p k).

(** No client sends more than its state allows. *)
Definition frugal : Prop :=
  (forall v f d w, within snd (budget w) (recv v f d w)) /\
  (forall cb v r w, within id (budget w) (run_cb cb v r w)).

(** The budget did not grow, and with the queue it is at most [n]. *)
Definition spent (b n : nat) (queue : NetQueue) (w : W) : Prop :=
  queue.(delivering) = false /\ (budget w <= b)%nat /\ (budget w + length queue.(packets) <= n)%nat.

Lemma run_delivering_work {A} (final : A -> W) n (c : client A) queue ev :
  within final n c -> queue.(delivering) = true ->
  exists a q' ev', run_client send_delivering queue c ev = Some (a, q', ev') /\
    spent n (n + length queue.(packets)) (set_delivering false q') (final a).
Proof.
  intros Hc. revert queue ev. induction Hc as [n a Ha | n w p k Hw _ IH]; intros queue ev Hd; cbn [run_client].
  { exists a, queue, ev. split; [done |]. split; [done |]. cbn. lia. }
  rewrite send_delivering_eq by done. bind_step.
  destruct (IH (Z.of_nat (length p.(p_data))) w ltac:(lia)
    (insert_tail (mkPacket p.(p_sender) p.(p_flags) p.(p_data) None) queue) (ev ++ [Submitted p]))
    as (a & q' & ev' & E & Hd' & Hb & Hw'); [done |].
  exists a, q', ev'. split; [done |]. split; [done |]. cbn [insert_tail packets] in Hw'.
  rewrite length_app in Hw'. cbn [length] in Hw'. lia.
Qed.

Lemma deliver_work queue p w ev :
  frugal -> exists ret q' w' ev', qemu_net_queue_deliver queue p w ev = Some (ret, q', w', ev') /\
    spent (budget w) (budget w + length queue.(packets)) q' w'.
Proof.
  intros [Hr _]. unfold qemu_net_queue_deliver.
  destruct (run_delivering_work snd _ _ (set_delivering true queue) ev (Hr p.(p_sender) p.(p_flags) p.(p_data) w))
    as ([ret w'] & q' & ev' & -> & Hw); [done |].
  bind_step. do 4 eexists. split; [done |]. exact Hw.
Qed.

(** With fuel for all the work there is, a send and a flush return. *)
Definition send_ends (fuel : nat) (send : sender_fn) : Prop :=
  forall queue p w ev, queue.(delivering) = false -> (budget w + length queue.(packets) < fuel)%nat ->
    exists ret q' w' ev', send queue p w ev = Some (ret, q', w', ev') /\
      spent (budget w) (S (budget w + length queue.(packets))) q' w'.

Definition flush_ends (fuel : nat) : Prop :=
  forall queue w ev, queue.(delivering) = false -> (budget w + length queue.(packets) < fuel)%nat ->
    exists q' w' ev', qemu_net_queue_flush fuel queue w ev = Some (q', w', ev') /\
      spent (budget w) (budget w + length queue.(packets)) q' w'.

Lemma send_with_ends fuel : frugal -> flush_ends fuel -> send_ends fuel (send_with (qemu_net_queue_flush fuel)).
Proof.
  intros Hf Hflush queue p w ev Hd Hfuel. unfold send_with. rewrite Hd.
  destruct (deliver_work queue p w (ev ++ [Submitted p]) Hf) as (ret & q1 & w1 & ev1 & -> & Hd1 & Hb1 & Hw1).
  bind_step. destruct (ret =? 0); cbn [qemu_net_queue_append].
  - do 4 eexists. split; [done |]. split; [done |]. cbn. rewrite length_app. cbn. lia.
  - destruct (Hflush q1 w1 ev1 Hd1 ltac:(lia)) as (q2 & w2 & ev2 & -> & Hd2 & Hb2 & Hw2). bind_step.
    do 4 eexists. split; [done |]. split; [done | lia].
Qed.

Lemma run_client_work {A} fuel (send : sender_fn) (final : A -> W) n (c : client A) queue ev :
  send_ends fuel send -> within final n c -> queue.(delivering) = false ->
  (n + length queue.(packets) <= fuel)%nat ->
  exists a q' ev', run_client send queue c ev = Some (a, q', ev') /\
    spent n (n + length queue.(packets)) q' (final a).
Proof.
  intros Hsend Hc. revert queue ev. induction Hc as [n a Ha | n w p k Hw _ IH]; intros queue ev Hd Hfuel; cbn [run_client].
  { exists a, queue, ev. split; [done |]. split; [done | lia]. }
  destruct (Hsend queue p w ev Hd ltac:(lia)) as (ret & q1 & w1 & ev1 & -> & Hd1 & Hb1 & Hw1). bind_step.
  destruct (IH ret w1 Hb1 q1 ev1 Hd1 ltac:(lia)) as (a & q2 & ev2 & E & Hd2 & Hb2 & Hw2).
  exists a, q2, ev2. split; [done |]. split; [done | lia].
Qed.

Lemma flush_ends_all fuel : frugal -> flush_ends fuel.
Proof.
  intros Hf. induction fuel as [| fuel IH]; intros queue w ev Hd Hfuel; [lia |]. cbn [qemu_net_queue_flush].
  destruct (queue.(packets)) as [| p rest] eqn:Ep.
  { exists queue, w, ev. split; [done |]. split; [done |]. rewrite Ep. cbn. lia. }
  cbn [length] in Hfuel.
  destruct (deliver_work (mkQueue rest queue.(delivering)) p w ev Hf) as (ret & q1 & w1 & ev1 & -> & Hd1 & Hb1 & Hw1).
  cbn [packets] in Hw1. bind_step. destruct (ret =? 0).
  { do 3 eexists. split; [done |]. split; [done |]. cbn. lia. }
  assert (Hnext : exists w2 q2 ev2, match p.(p_sent_cb) with
      | Some cb => '(w, queue, ev) ← run_client (send_with (qemu_net_queue_flush fuel)) q1
                     (run_cb cb p.(p_sender) ret w1) (ev1 ++ [SentCb cb p.(p_sender) ret]);
                   qemu_net_queue_flush fuel queue w ev
      | None => qemu_net_queue_flush fuel q1 w1 ev1
      end = qemu_net_queue_flush fuel q2 w2 ev2 /\ spent (budget w1) (budget w1 + length q1.(packets)) q2 w2).
  { destruct (p.(p_sent_cb)) as [cb |]; [| by exists w1, q1, ev1].
    destruct (run_client_work fuel _ id _ (run_cb cb p.(p_sender) ret w1) q1 (ev1 ++ [SentCb cb p.(p_sender) ret])
      (send_with_ends fuel Hf IH) (proj2 Hf cb p.(p_sender) ret w1) Hd1 ltac:(lia)) as (w2 & q2 & ev2 & -> & Hs).
    bind_step. by exists w2, q2, ev2. }
  destruct Hnext as (w2 & q2 & ev2 & -> & Hd2 & Hb2 & Hw2).
  destruct (IH q2 w2 ev2 Hd2 ltac:(lia)) as (q3 & w3 & ev3 & -> & Hd3 & Hb3 & Hw3).
  exists q3, w3, ev3. split; [done |]. split; [done |]. cbn [length]. lia.
Qed.

(** C32: Receivers and callbacks may send through the queue while it works; as
    long as they send finitely many packets in all, a send and a flush return,
    within as many rounds as there are packets queued or still to be sent.
    Nothing is lost or duplicated: the packets accepted and those now queued are
    the packets queued before and those submitted, and no delivery is left marked
    as under way.  This includes a packet that is refused and has no sent callback:
    the code queues it, where the comment at the head of the file says that it is
    dropped. *)
Theorem net_queue_conserves fuel queue w p :
  frugal -> queue.(delivering) = false -> (budget w + length queue.(packets) < fuel)%nat ->
  (exists ret q' w' ev, qemu_net_queue_send fuel queue p w [] = Some (ret, q', w', ev) /\
     q'.(delivering) = false /\ Submitted p ∈ ev /\
     (ev ≫= accepted) ++ (body <$> q'.(packets)) ≡ₚ
     (body <$> queue.(packets)) ++ (ev ≫= submitted)) /\
  (exists q' w' ev, qemu_net_queue_flush fuel queue w [] = Some (q', w', ev) /\
     q'.(delivering) = false /\
     (ev ≫= accepted) ++ (body <$> q'.(packets)) ≡ₚ
     (body <$> queue.(packets)) ++ (ev ≫= submitted)).
Proof.
  intros Hf Hd Hfuel. pose proof (flush_ends_all fuel Hf) as Hends. split.
  - destruct (send_with_ends fuel Hf Hends queue p w [] Hd Hfuel) as (ret & q' & w' & ev & E & _).
    exists ret, q', w', ev. split; [exact E |].
    destruct (send_with_balanced (qemu_net_queue_flush fuel) [Submitted p]
                (body <$> queue.(packets)) [] queue p w [] ret q' w' ev)
      as (Hd' & [k ->] & Hb); [apply flush_balanced | done | | exact E |].
    + split; [done |]. cbn. solve_Permutation.
    + split; [done |]. split; [by left | done].
  - destruct (Hends queue w [] Hd Hfuel) as (q' & w' & ev & E & _). exists q', w', ev. split; [exact E |].
    destruct (flush_balanced fuel [] (body <$> queue.(packets)) [] queue w [] q' w' ev)
      as (Hd' & _ & Hb); [done | split; [done |]; cbn; by rewrite app_nil_r | exact E |]. done.
Qed.
End Budget.

(** ** A flush with clients that do not send *)

(** The events of a packet that was accepted with [ret], and of the packet
    that stopped the flush *)
Definition packet_events (p : NetPacket) (ret : Z) : list event :=
  Delivered p ret :: match p.(p_sent_cb) with
                     | Some cb => [SentCb cb p.(p_sender) ret]
                     | None => []
                     end.

Definition refusal (rest : list NetPacket) : list event :=
  match rest with [] => [] | p :: _ => [Delivered p 0] end.

Definition quiet {A} (c : client A) : Prop := exists a, c = Done a.

Section Quiet.
Context (Hrecv : forall v f d w, quiet (recv v f d w)).
Context (Hcb : forall cb v r w, quiet (run_cb cb v r w)).

Lemma deliver_quiet queue p w ev :
  exists ret w', qemu_net_queue_deliver queue p w ev =
    Some (ret, set_delivering false queue, w', ev ++ [Delivered p ret]).
Proof using Hrecv.
  unfold qemu_net_queue_deliver. destruct (Hrecv p.(p_sender) p.(p_flags) p.(p_data) w) as [[r w'] ->].
  by exists r, w'.
Qed.

Lemma flush_quiet fuel queue w ev :
  (length queue.(packets) < fuel)%nat ->
  exists done rest rets d w', queue.(packets) = done ++ rest /\
    length rets = length done /\ Forall (fun r => r <> 0) rets /\
    qemu_net_queue_flush fuel queue w ev =
    Some (mkQueue rest d, w', ev ++ concat (zip_with packet_events done rets) ++ refusal rest).
Proof using Hrecv Hcb.
  revert queue w ev. induction fuel as [| fuel IH]; intros [ps d] w ev Hf; cbn [packets] in Hf; [lia |].
  cbn [qemu_net_queue_flush packets]. destruct ps as [| p ps].
  { exists [], [], [], d, w. split_and!; [done.. |]. cbn. by rewrite app_nil_r. }
  destruct (deliver_quiet (mkQueue ps d) p w ev) as (ret & w1 & E). cbn [delivering]. rewrite E. bind_step.
  destruct (Z.eqb_spec ret 0) as [-> | Hr].
  { by exists [], (p :: ps), [], false, w1. }
  cbn [length] in Hf.
  set (ev1 := ev ++ packet_events p ret).
  assert (Hnext : exists w2, (match p.(p_sent_cb) with
      | Some cb => '(w, queue, ev) ← run_client (send_with (qemu_net_queue_flush fuel))
                     (set_delivering false (mkQueue ps d)) (run_cb cb p.(p_sender) ret w1)
                     ((ev ++ [Delivered p ret]) ++ [SentCb cb p.(p_sender) ret]);
                   qemu_net_queue_flush fuel queue w ev
      | None => qemu_net_queue_flush fuel (set_delivering false (mkQueue ps d)) w1
                  (ev ++ [Delivered p ret])
      end) = qemu_net_queue_flush fuel (set_delivering false (mkQueue ps d)) w2 ev1).
  { unfold ev1, packet_events. destruct (p.(p_sent_cb)) as [cb |]; [| by exists w1].
    destruct (Hcb cb p.(p_sender) ret w1) as [w2 ->]. exists w2. cbn [run_client]. bind_step.
    by rewrite <- app_assoc. }
  destruct Hnext as [w2 ->].
  destruct (IH (set_delivering false (mkQueue ps d)) w2 ev1) as (dn & rest & rets & d' & w' & Hps & Hl & Hn & Ef);
    [cbn [packets set_delivering]; lia |].
  cbn [packets set_delivering] in Hps.
  exists (p :: dn), rest, (ret :: rets), d', w'. split_and!;
    [by rewrite Hps | cbn; by rewrite Hl | by constructor |].
  rewrite Ef. unfold ev1. cbn [zip_with concat]. by rewrite !app_assoc.
Qed.
End Quiet.

(** With clients that do not send, a flush ends within as many rounds as
    there are packets, and offers them in order: every packet before the first
    refused one is delivered once and its callback, if it has one, runs right
    after it with the receiver's result; the refused packet and all behind it
    stay queued in order, and nothing is offered after a refusal. *)
Theorem flush_in_order queue w :
  (forall v f d w, quiet (recv v f d w)) -> (forall cb v r w, quiet (run_cb cb v r w)) ->
  exists done rest rets d w', queue.(packets) = done ++ rest /\
    length rets = length done /\ Forall (fun r => r <> 0) rets /\
    qemu_net_queue_flush (S (length queue.(packets))) queue w [] =
    Some (mkQueue rest d, w', concat (zip_with packet_events done rets) ++ refusal rest).
Proof. intros Hrecv Hcb. apply flush_quiet; [done.. | lia]. Qed.

(** ** The vectored send *)

Lemma copy_iov_concat iov data : copy_iov iov data = data ++ concat iov.
Proof.
  revert data. induction iov as [| v iov IH]; intros data; cbn; [by rewrite app_nil_r |].
  by rewrite IH, app_assoc.
Qed.

(** A vectored send is the plain send of the concatenation, when the vectored
    receiver agrees with the plain one. *)
Lemma send_iov_concat recv_iov fuel queue sender flags iov cb w ev :
  (forall w, recv_iov sender flags iov w = recv sender flags (concat iov) w) ->
  qemu_net_queue_send_iov recv_iov fuel queue sender flags iov cb w ev =
  qemu_net_queue_send fuel queue (mkPacket sender flags (concat iov) cb) w ev.
Proof.
  intros Hr. unfold qemu_net_queue_send_iov, qemu_net_queue_send, send_with, send_delivering,
    qemu_net_queue_deliver_iov, qemu_net_queue_deliver, qemu_net_queue_append_iov, qemu_net_queue_append.
  cbn [p_sender p_flags p_data p_sent_cb]. rewrite Hr, copy_iov_concat. by destruct (queue.(delivering)).
Qed.

(** A refused packet is queued even when the sender gave no callback. *)
Lemma refused_packet_queued fuel queue p w ev q1 w1 ev1 :
  queue.(delivering) = false ->
  qemu_net_queue_deliver queue p w (ev ++ [Submitted p]) = Some (0, q1, w1, ev1) ->
  qemu_net_queue_send fuel queue p w ev = Some (0, insert_tail p q1, w1, ev1).
Proof.
  intros Hd E. unfold qemu_net_queue_send, send_with. rewrite Hd, E. bind_step. by destruct p.
Qed.
End NetQueue.

(** A receiver that takes what it has credit for, and a callback that counts *)
Definition credit_recv (v : nat) (f : Z) (d : list Z) (w : nat * nat)
  : client (V := nat) (C := unit) (W := nat * nat) (Z * (nat * nat)) :=
  match w with
  | (O, n) => Done _ (0, (O, n))
  | (S c, n) => Done _ (Z.of_nat (length d), (c, n))
  end.
Definition count_cb (cb : unit) (v : nat) (r : Z) (w : nat * nat)
  : client (V := nat) (C := unit) (W := nat * nat) (nat * nat) := Done _ (w.1, S w.2).

Definition three_packets : NetQueue (V := nat) (C := unit) :=
  mkQueue [mkPacket 1%nat 0 [7] (Some ()); mkPacket 2%nat 0 [8; 8] None; mkPacket 3%nat 0 [9] None] false.

Lemma flush_in_order_witness :
  exists done rest rets d w', three_packets.(packets) = done ++ rest /\
    length rets = length done /\ Forall (fun r => r <> 0) rets /\
    qemu_net_queue_flush credit_recv count_cb 4 three_packets (1%nat, O) [] =
    Some (mkQueue rest d, w', concat (zip_with packet_events done rets) ++ refusal rest).
Proof.
  apply (flush_in_order credit_recv count_cb three_packets (1%nat, O)).
  - intros v f d [[| c] n]; by eexists.
  - intros. by eexists.
Defined.

(** The same receiver, answering every delivery with a packet of its own *)
Definition echo_recv (v : nat) (f : Z) (d : list Z) (w : nat * nat)
  : client (V := nat) (C := unit) (W := nat * nat) (Z * (nat * nat)) :=
  match w.1 with
  | O => Done _ (0, w)
  | S c => Send _ (c, w.2) (mkPacket 9%nat f d None) (fun ret w => Done _ (1, w))
  end.

(** It sends at most one packet for each credit, which is its budget. *)
Lemma echo_frugal : frugal echo_recv count_cb fst.
Proof.
  split.
  - intros v f d [[| c] n]; cbn [echo_recv fst]; [by apply within_done |].
    apply within_send; cbn [fst]; [lia |]. intros ret w' _. by apply within_done.
  - intros cb v r w. by apply within_done.
Qed.

Lemma net_queue_conserves_witness :
  exists q' w' ev,
    qemu_net_queue_flush echo_recv count_cb 10 three_packets (3%nat, O) [] = Some (q', w', ev) /\
    body <$> q'.(packets) = [(9%nat, 0, [7]); (9%nat, 0, [8; 8]); (9%nat, 0, [9])] /\
    (ev ≫= accepted) ++ (body <$> q'.(packets)) ≡ₚ
    (body <$> three_packets.(packets)) ++ (ev ≫= submitted).
Proof.
  destruct (net_queue_conserves echo_recv count_cb fst 10 three_packets (3%nat, O) (mkPacket 1%nat 0 [7] None)
    echo_frugal eq_refl) as [_ (q' & w' & ev & E & _ & Hb)]; [cbn; lia |].
  exists q', w', ev. split; [exact E |]. split; [| exact Hb].
  assert (Hc : (fun r => body <$> r.1.1.(packets)) <$>
    qemu_net_queue_flush echo_recv count_cb 10 three_packets (3%nat, O) [] =
    Some [(9%nat, 0, [7]); (9%nat, 0, [8; 8]); (9%nat, 0, [9])]) by reflexivity.
  rewrite E in Hc. by injection Hc.
Defined.
