(* ===== verification/Checksum.v ===== *)
(** * Internet checksums (qemu/net/checksum.c)

    The ones-complement sum over bytes, its folding, and the routine that
    patches the checksum of a TCP or UDP segment into an Ethernet frame.
    Frames are lists of bytes; [None] is an access outside the frame.

    Theorems: folding ends and is the ones-complement remainder; a patched
    frame verifies; which frames are accessed out of bounds. *)

From Stdlib Require Import ZArith Lia.
From stdpp Require Import base option numbers list.
From S2P Require Import Prelude.

Local Open Scope Z_scope.

Definition PROTO_TCP : Z := 6.
Definition PROTO_UDP : Z := 17.

(** [for (i = 0; i < len; i++)] over the [len] bytes at the head of [buf] *)
Fixpoint checksum_loop (len : nat) (i : Z) (buf : list Z) (sum : Z) : option Z :=
  match len with
  | O => Some sum
  | S len =>
      match buf with
      | [] => None
      | b :: buf =>
          checksum_loop len (i + 1) buf
            (wrap 32 (sum + if c_true (Z.land i 1) then b else Z.shiftl b 8))
      end
  end.

Definition net_checksum_add (len : Z) (buf : list Z) : option Z :=
  checksum_loop (Z.to_nat len) 0 buf 0.

(** [while (sum >> 16)]; three rounds are enough for 32 bits. *)
Fixpoint finish_loop (fuel : nat) (sum : Z) : option Z :=
  match fuel with
  | O => None
  | S fuel =>
      if c_true (Z.shiftr sum 16)
      then finish_loop fuel (wrap 32 (Z.land sum 0xFFFF + Z.shiftr sum 16))
      else Some sum
  end.

Definition net_checksum_finish (sum : Z) : option Z :=
  sum ← finish_loop 3 sum;
  Some (wrap 16 (Z.lnot sum)).

Definition net_checksum_tcpudp (length proto : Z) (addrs buf : list Z) : option Z :=
  a ← net_checksum_add length buf;
  let sum := wrap 32 (0 + a) in
  b ← net_checksum_add 8 addrs;
  let sum := wrap 32 (sum + b) in
  let sum := wrap 32 (sum + (proto + length)) in
  net_checksum_finish sum.

(** [data[i] = v] *)
Definition store (i v : Z) (data : list Z) : option (list Z) :=
  if (0 <=? i) && (i <? Z.of_nat (length data)) then Some (<[Z.to_nat i := wrap 8 v]> data) else None.

(** [csum_offset], or the early return for other protocols *)
Definition csum_offset_of (proto : Z) : option Z :=
  if proto =? PROTO_TCP then Some 16 else if proto =? PROTO_UDP then Some 6 else None.

(** The parameter [length] of the C function is not used by its body.  [plen]
    is passed as a [uint16_t]. *)
Definition net_checksum_calculate (data : list Z) : option (list Z) :=
  d14 ← data !! 14%nat;
  if negb (Z.land d14 0xf0 =? 0x40) then Some data
  else
    let hlen := Z.land d14 0x0f * 4 in
    d16 ← data !! 16%nat;
    d17 ← data !! 17%nat;
    let plen := Z.lor (Z.shiftl d16 8) d17 - hlen in
    proto ← data !! 23%nat;
    match csum_offset_of proto with
    | None => Some data
    | Some csum_offset =>
        if plen <? csum_offset + 2 then Some data
        else
          data ← store (14 + hlen + csum_offset) 0 data;
          data ← store (14 + hlen + csum_offset + 1) 0 data;
          csum ← net_checksum_tcpudp (wrap 16 plen) proto (drop 26 data)
                   (drop (Z.to_nat (14 + hlen)) data);
          data ← store (14 + hlen + csum_offset) (Z.shiftr csum 8) data;
          store (14 + hlen + csum_offset + 1) (Z.land csum 0xff) data
    end.

(** ** The sum *)

(** The plain sum of big-endian words, and its folding to a residue in
    [0, 65535] that is 0 only for 0 *)
Fixpoint word_sum (even : bool) (buf : list Z) : Z :=
  match buf with
  | [] => 0
  | b :: buf => (if even then b * 256 else b) + word_sum (negb even) buf
  end.

Definition ones_residue (x : Z) : Z := if x =? 0 then 0 else (x - 1) mod 65535 + 1.

Abbreviation bytes := (Forall (in_u 8)).

Lemma word_sum_bounds e buf : bytes buf -> 0 <= word_sum e buf <= 65280 * Z.of_nat (length buf).
Proof.
  intros Hb. revert e. induction Hb as [| b buf [? ?] _ IH]; intros e; cbn [word_sum length]; [lia |].
  specialize (IH (negb e)). destruct e; lia.
Qed.

Lemma even_succ i : Z.even (i + 1) = negb (Z.even i).
Proof. rewrite Z.even_add. by destruct (Z.even i). Qed.

Lemma checksum_loop_sum len i buf sum :
  bytes buf -> (len <= length buf)%nat -> 0 <= sum ->
  sum + word_sum (Z.even i) (take len buf) < 2 ^ 32 ->
  checksum_loop len i buf sum = Some (sum + word_sum (Z.even i) (take len buf)).
Proof.
  intros Hb. revert len i sum. induction Hb as [| b buf Hbyte Hb IH]; intros [| len] i sum Hl Hs Hlt;
    cbn [checksum_loop take word_sum length] in *; try (by rewrite Z.add_0_r); [lia |].
  pose proof (word_sum_bounds (negb (Z.even i)) (take len buf) (Forall_take _ _ _ Hb)).
  destruct Hbyte as [? ?]. rewrite <- even_succ in *.
  unfold c_true. rewrite land_1, Zmod_even, Z.shiftl_mul_pow2 by lia.
  assert (Hv : (if negb ((if Z.even i then 0 else 1) =? 0) then b else b * 2 ^ 8) =
               if Z.even i then b * 256 else b) by (by destruct (Z.even i)).
  rewrite Hv. rewrite wrap_small by (unfold in_u; destruct (Z.even i); lia).
  rewrite IH; [f_equal; lia | lia | destruct (Z.even i); lia | lia].
Qed.

Lemma net_checksum_add_sum len buf :
  bytes buf -> 0 <= len <= 65535 -> len <= Z.of_nat (length buf) ->
  net_checksum_add len buf = Some (word_sum true (take (Z.to_nat len) buf)).
Proof.
  intros Hb Hlen Hl. unfold net_checksum_add. rewrite checksum_loop_sum; [done | done | lia | lia |].
  pose proof (word_sum_bounds true (take (Z.to_nat len) buf) (Forall_take _ _ _ Hb)) as Hbound.
  rewrite length_take in Hbound. change (Z.even 0) with true. lia.
Qed.

Lemma net_checksum_add_short len buf :
  Z.of_nat (length buf) < len -> net_checksum_add len buf = None.
Proof.
  intros Hl. unfold net_checksum_add. assert (Hn : (length buf < Z.to_nat len)%nat) by lia.
  generalize 0 at 1. generalize 0. revert Hn. generalize (Z.to_nat len). clear.
  induction buf as [| b buf IH]; intros [| n] Hn sum i; cbn [checksum_loop length] in *; try lia; [done |].
  apply IH. lia.
Qed.

(** ** Folding *)

Lemma ones_residue_small x : 0 <= x < 65536 -> ones_residue x = x.
Proof.
  intros Hx. unfold ones_residue. destruct (Z.eqb_spec x 0); [done |]. rewrite Z.mod_small; lia.
Qed.

Lemma ones_residue_bounds x : 0 <= x -> 0 <= ones_residue x <= 65535.
Proof.
  intros Hx. unfold ones_residue. destruct (x =? 0); [lia |].
  pose proof (Z.mod_pos_bound (x - 1) 65535). lia.
Qed.

Lemma ones_residue_fold x : 0 <= x -> ones_residue (x mod 65536 + x / 65536) = ones_residue x.
Proof.
  intros Hx. unfold ones_residue. pose proof (Z.div_mod x 65536). pose proof (Z.mod_pos_bound x 65536).
  pose proof (Z.div_pos x 65536). set (q := x / 65536) in *. set (r := x mod 65536) in *.
  destruct (Z.eqb_spec (r + q) 0), (Z.eqb_spec x 0); try lia.
  replace (x - 1) with (r + q - 1 + q * 65535) by lia. by rewrite Z.mod_add by lia.
Qed.

Lemma ones_residue_complement x :
  0 <= x -> ones_residue (x + (65535 - ones_residue x)) = 65535.
Proof.
  intros Hx. unfold ones_residue at 2. destruct (Z.eqb_spec x 0) as [-> |]; [done |].
  pose proof (Z.div_mod (x - 1) 65535). pose proof (Z.mod_pos_bound (x - 1) 65535).
  pose proof (Z.div_pos (x - 1) 65535). set (q := (x - 1) / 65535) in *.
  replace (x + _) with ((q + 1) * 65535) by lia. unfold ones_residue.
  destruct (Z.eqb_spec ((q + 1) * 65535) 0); [lia |].
  replace ((q + 1) * 65535 - 1) with (65534 + q * 65535) by lia. rewrite Z.mod_add by lia. done.
Qed.

Lemma finish_step x fuel :
  in_u 32 x ->
  finish_loop (S fuel) x = if x <? 65536 then Some x else finish_loop fuel (x mod 65536 + x / 65536).
Proof.
  intros [? ?]. cbn [finish_loop]. rewrite Z.shiftr_div_pow2 by lia.
  change 0xFFFF with (Z.ones 16). rewrite Z.land_ones by lia. change (2 ^ 16) with 65536.
  unfold c_true. destruct (Z.ltb_spec x 65536).
  - by rewrite Z.div_small by lia.
  - assert (1 <= x / 65536) by (apply Z.div_le_lower_bound; lia).
    rewrite (proj2 (Z.eqb_neq _ 0)) by lia. cbn [negb]. rewrite wrap_small; [done |].
    pose proof (Z.mod_pos_bound x 65536). assert (x / 65536 < 65536) by (apply Z.div_lt_upper_bound; lia).
    unfold in_u. lia.
Qed.

Lemma finish_loop_residue x : in_u 32 x -> finish_loop 3 x = Some (ones_residue x).
Proof.
  intros Hx. pose proof Hx as [? ?]. rewrite finish_step by done.
  destruct (Z.ltb_spec x 65536); [by rewrite ones_residue_small by lia |].
  pose proof (Z.mod_pos_bound x 65536). assert (x / 65536 < 65536) by (apply Z.div_lt_upper_bound; lia).
  assert (1 <= x / 65536) by (apply Z.div_le_lower_bound; lia).
  rewrite <- (ones_residue_fold x) by lia. set (y := x mod 65536 + x / 65536) in *.
  assert (1 <= y < 131071) by lia. rewrite finish_step by (unfold in_u; lia).
  destruct (Z.ltb_spec y 65536); [by rewrite ones_residue_small by lia |].
  assert (y / 65536 = 1) as E by (symmetry; apply (Z.div_unique y 65536 1 (y - 65536)); lia).
  rewrite <- (ones_residue_fold y), E by lia.
  assert (y mod 65536 = y - 65536) as -> by (symmetry; apply (Z.mod_unique y 65536 1 (y - 65536)); lia).
  rewrite finish_step by (unfold in_u; lia). rewrite (proj2 (Z.ltb_lt _ _)) by lia.
  by rewrite ones_residue_small by lia.
Qed.

Lemma net_checksum_finish_residue x : in_u 32 x -> net_checksum_finish x = Some (65535 - ones_residue x).
Proof.
  intros Hx. unfold net_checksum_finish. rewrite finish_loop_residue by done. bind_step. f_equal.
  pose proof (ones_residue_bounds x ltac:(apply Hx)). unfold wrap, Z.lnot.
  rewrite <- (Z.mod_add _ 1) by lia. rewrite Z.mod_small; change (2 ^ 16) with 65536; lia.
Qed.

(** ** The pseudo-header sum *)

Definition segment_sum (len proto : Z) (addrs buf : list Z) : Z :=
  word_sum true (take (Z.to_nat len) buf) + word_sum true (take 8 addrs) + (proto + len).

Lemma segment_sum_bounds len proto addrs buf :
  bytes buf -> bytes addrs -> 0 <= len <= 65535 -> in_u 8 proto ->
  0 <= segment_sum len proto addrs buf < 2 ^ 32 - 65536.
Proof.
  intros Hb Ha Hlen [? ?]. unfold segment_sum.
  pose proof (word_sum_bounds true (take (Z.to_nat len) buf) (Forall_take _ _ _ Hb)) as B1.
  pose proof (word_sum_bounds true (take 8 addrs) (Forall_take _ _ _ Ha)) as B2.
  rewrite length_take in B1, B2. lia.
Qed.

Lemma net_checksum_tcpudp_residue len proto addrs buf :
  bytes buf -> bytes addrs -> 0 <= len <= 65535 -> in_u 8 proto ->
  len <= Z.of_nat (length buf) -> (8 <= length addrs)%nat ->
  net_checksum_tcpudp len proto addrs buf = Some (65535 - ones_residue (segment_sum len proto addrs buf)).
Proof.
  intros Hb Ha Hlen Hp Hl1 Hl2. pose proof (segment_sum_bounds len proto addrs buf Hb Ha Hlen Hp) as Hs.
  pose proof (word_sum_bounds true (take (Z.to_nat len) buf) (Forall_take _ _ _ Hb)) as B1.
  pose proof (word_sum_bounds true (take 8 addrs) (Forall_take _ _ _ Ha)) as B2.
  unfold segment_sum in *. destruct Hp as [? ?].
  unfold net_checksum_tcpudp. rewrite (net_checksum_add_sum len buf) by done. bind_step.
  rewrite (net_checksum_add_sum 8 addrs) by (done || lia). bind_step. change (Z.to_nat 8) with 8%nat.
  set (a := word_sum true (take (Z.to_nat len) buf)) in *. set (b := word_sum true (take 8 addrs)) in *.
  rewrite length_take in B1, B2.
  rewrite Z.add_0_l, (wrap_small 32 a), (wrap_small 32 (a + b)), (wrap_small 32 (a + b + _))
    by (unfold in_u; lia).
  apply net_checksum_finish_residue. unfold in_u. lia.
Qed.

(** ** Patching a frame *)

Lemma word_sum_insert e l k v old :
  l !! k = Some old ->
  word_sum e (<[k := v]> l) = word_sum e l + (v - old) * (if xorb e (Nat.odd k) then 256 else 1).
Proof.
  revert e k. induction l as [| x l IH]; intros e [| k] Hk; cbn in Hk; try done.
  - injection Hk as ->. cbn [word_sum insert list_insert]. rewrite xorb_false_r. destruct e; lia.
  - change (<[S k := v]> (x :: l)) with (x :: <[k := v]> l). cbn [word_sum].
    rewrite (IH (negb e)) by done. rewrite Nat.odd_succ, <- Nat.negb_odd.
    destruct e, (Nat.odd k); cbn; lia.
Qed.

Lemma store_ok i v data :
  0 <= i < Z.of_nat (length data) -> store i v data = Some (<[Z.to_nat i := wrap 8 v]> data).
Proof.
  intros Hi. unfold store. by rewrite (proj2 (Z.leb_le _ _)), (proj2 (Z.ltb_lt _ _)) by lia.
Qed.

Lemma store_length i v data d : store i v data = Some d -> length d = length data.
Proof. unfold store. case_match; [| done]. intros [= <-]. apply length_insert. Qed.

Lemma bytes_store i v data : bytes data -> bytes (<[i := wrap 8 v]> data).
Proof. intros Hb. apply Forall_insert; [done | by apply in_u_wrap]. Qed.

(** The header of a frame: an IPv4 datagram with options or without, of a
    protocol that has a checksum at [off], and a segment long enough for it *)
Record checksummed (data : list Z) (hlen plen proto off : Z) : Prop := {
  cs_bytes : bytes data;
  cs_version : exists d14, data !! 14%nat = Some d14 /\ Z.land d14 0xf0 = 0x40 /\
                           hlen = Z.land d14 0x0f * 4;
  cs_length : exists d16 d17, data !! 16%nat = Some d16 /\ data !! 17%nat = Some d17 /\
                              plen = Z.lor (Z.shiftl d16 8) d17 - hlen;
  cs_proto : data !! 23%nat = Some proto;
  cs_off : csum_offset_of proto = Some off;
  cs_min : off + 2 <= plen;
  cs_hlen : 20 <= hlen
}.

Lemma checksummed_bounds data hlen plen proto off :
  checksummed data hlen plen proto off ->
  in_u 8 proto /\ (off = 16 \/ off = 6) /\ 0 <= plen <= 65535.
Proof.
  intros [Hb (d14 & _ & _ & ->) (d16 & d17 & H16 & H17 & ->) Hp Hoff Hmin Hhl].
  eapply Forall_lookup_1 in H16, H17, Hp; [| done..]. split; [done |]. unfold csum_offset_of in Hoff.
  split; [repeat case_match; simplify_eq; auto |].
  rewrite lor_shiftl_add in * by (done || lia). destruct H16, H17.
  assert (off + 2 > 0) by (repeat case_match; simplify_eq; lia). lia.
Qed.

Lemma net_checksum_calculate_eq data hlen plen proto off :
  checksummed data hlen plen proto off ->
  net_checksum_calculate data =
  data ← store (14 + hlen + off) 0 data;
  data ← store (14 + hlen + off + 1) 0 data;
  csum ← net_checksum_tcpudp plen proto (drop 26 data) (drop (Z.to_nat (14 + hlen)) data);
  data ← store (14 + hlen + off) (Z.shiftr csum 8) data;
  store (14 + hlen + off + 1) (Z.land csum 0xff) data.
Proof.
  intros Hcs. destruct (checksummed_bounds _ _ _ _ _ Hcs) as (_ & _ & Hpl).
  destruct Hcs as [_ (d14 & H14 & Hv & ->) (d16 & d17 & H16 & H17 & ->) Hp Hoff Hmin _].
  unfold net_checksum_calculate. rewrite H14. bind_step. rewrite Hv. cbn [Z.eqb Pos.eqb negb].
  rewrite H16. bind_step. rewrite H17. bind_step. rewrite Hp. bind_step. rewrite Hoff.
  rewrite (proj2 (Z.ltb_ge _ _)) by lia. by rewrite (wrap_small 16) by (unfold in_u; lia).
Qed.

Lemma csum_bytes csum :
  0 <= csum <= 65535 -> wrap 8 (Z.shiftr csum 8) * 256 + wrap 8 (Z.land csum 0xff) = csum.
Proof.
  intros Hc. rewrite Z.shiftr_div_pow2 by lia. change 0xff with (Z.ones 8).
  rewrite Z.land_ones by lia. unfold wrap. rewrite Z.mod_mod by lia.
  change (2 ^ 8) with 256. pose proof (Z.div_mod csum 256). pose proof (Z.mod_pos_bound csum 256).
  assert (0 <= csum / 256 < 256) by (split; [apply Z.div_pos | apply Z.div_lt_upper_bound]; lia).
  rewrite (Z.mod_small (csum / 256)) by lia. lia.
Qed.

(** The checksum field is beyond the addresses and inside the segment. *)
Lemma drop_insert_field (data : list Z) (n off : nat) (x : Z) :
  drop n (<[(n + off)%nat := x]> data) = <[off := x]> (drop n data).
Proof. rewrite drop_insert_ge by lia. f_equal. lia. Qed.

Lemma addresses_untouched (data : list Z) (c : nat) (x : Z) :
  (34 <= c)%nat -> take 8 (drop 26 (<[c := x]> data)) = take 8 (drop 26 data).
Proof. intros Hc. rewrite drop_insert_ge, take_insert_ge by lia. done. Qed.

(** The segment with its checksum field set to [hi], [lo] *)
Lemma segment_sum_patched len proto addrs buf off hi lo :
  (off = 16 \/ off = 6)%nat -> (off + 2 <= Z.to_nat len)%nat -> (Z.to_nat len <= length buf)%nat ->
  let zeroed := <[S off := 0]> (<[off := 0]> buf) in
  segment_sum len proto addrs (<[S off := lo]> (<[off := hi]> zeroed)) =
  segment_sum len proto addrs zeroed + (hi * 256 + lo).
Proof.
  intros Hoff Hlen Hbuf zeroed. unfold segment_sum.
  assert (Hodd : Nat.odd off = false) by (by destruct Hoff as [-> | ->]).
  rewrite !take_insert_lt by lia.
  assert (Hz : length zeroed = length buf) by (unfold zeroed; by rewrite !length_insert).
  assert (H0 : take (Z.to_nat len) zeroed !! off = Some 0).
  { rewrite lookup_take_lt by lia. unfold zeroed. rewrite list_lookup_insert_ne by lia.
    apply list_lookup_insert_eq. lia. }
  assert (H1 : <[off:=hi]> (take (Z.to_nat len) zeroed) !! S off = Some 0).
  { rewrite list_lookup_insert_ne, lookup_take_lt by lia. unfold zeroed.
    apply list_lookup_insert_eq. rewrite length_insert. lia. }
  rewrite (word_sum_insert _ _ _ _ _ H1), (word_sum_insert _ _ _ _ _ H0).
  rewrite Nat.odd_succ, <- Nat.negb_odd, Hodd. cbn [xorb negb]. lia.
Qed.

(** C33: For a frame that contains the whole datagram its header announces,
    [net_checksum_calculate] stays inside the frame, changes only the two
    bytes of the checksum field, and leaves a segment whose checksum over the
    pseudo-header verifies (recomputing it gives 0). *)
Theorem net_checksum_calculate_verifies data hlen plen proto off :
  checksummed data hlen plen proto off -> 14 + hlen + plen <= Z.of_nat (length data) ->
  exists data', net_checksum_calculate data = Some data' /\
    (forall j, j <> Z.to_nat (14 + hlen + off) -> j <> S (Z.to_nat (14 + hlen + off)) ->
       data' !! j = data !! j) /\
    net_checksum_tcpudp plen proto (drop 26 data') (drop (Z.to_nat (14 + hlen)) data') = Some 0.
Proof.
  intros Hcs Hfit. destruct (checksummed_bounds _ _ _ _ _ Hcs) as (Hp & Hoff & Hpl).
  rewrite (net_checksum_calculate_eq _ _ _ _ _ Hcs). destruct Hcs as [Hb _ _ _ _ Hmin Hhl].
  set (c := Z.to_nat (14 + hlen + off)). assert (Hc1 : Z.to_nat (14 + hlen + off + 1) = S c) by lia.
  rewrite store_ok by lia. bind_step. rewrite store_ok by (rewrite length_insert; lia). bind_step.
  fold c. rewrite Hc1. change (wrap 8 0) with 0.
  set (z := <[S c := 0]> (<[c := 0]> data)).
  assert (Hzb : bytes z) by (apply (bytes_store _ 0), (bytes_store _ 0), Hb).
  assert (Hzl : length z = length data) by (unfold z; by rewrite !length_insert).
  rewrite net_checksum_tcpudp_residue
    by (done || lia || (by apply Forall_drop) || (rewrite length_drop; lia)). bind_step.
  set (s := segment_sum _ _ _ _).
  assert (Hs : 0 <= s < 2 ^ 32 - 65536) by (apply segment_sum_bounds; try done; by apply Forall_drop).
  pose proof (ones_residue_bounds s ltac:(lia)) as Hres. set (csum := 65535 - ones_residue s) in *.
  rewrite store_ok by lia. bind_step. rewrite store_ok by (rewrite length_insert; lia).
  fold c. rewrite Hc1. eexists. split; [done |]. split.
  { intros j Hj1 Hj2. unfold z. by rewrite !list_lookup_insert_ne by done. }
  set (hi := wrap 8 (Z.shiftr csum 8)). set (lo := wrap 8 (Z.land csum 0xff)).
  assert (Hcs : hi * 256 + lo = csum) by (apply csum_bytes; lia).
  assert (Hb' : bytes (<[S c := lo]> (<[c := hi]> z))) by (by apply bytes_store, bytes_store).
  rewrite net_checksum_tcpudp_residue
    by (done || lia || (by apply Forall_drop) || (rewrite length_drop, !length_insert; lia)).
  enough (segment_sum plen proto (drop 26 (<[S c := lo]> (<[c := hi]> z)))
            (drop (Z.to_nat (14 + hlen)) (<[S c := lo]> (<[c := hi]> z))) = s + csum) as ->.
  { unfold csum. rewrite ones_residue_complement by lia. done. }
  pose proof (segment_sum_patched plen proto (drop 26 z) (drop (Z.to_nat (14 + hlen)) data)
                (Z.to_nat off) hi lo ltac:(lia) ltac:(lia) ltac:(rewrite length_drop; lia)) as Hpatch.
  rewrite Hcs in Hpatch.
  assert (Hc : c = (Z.to_nat (14 + hlen) + Z.to_nat off)%nat) by lia.
  assert (HSc : S c = (Z.to_nat (14 + hlen) + S (Z.to_nat off))%nat) by lia.
  assert (Hz : drop (Z.to_nat (14 + hlen)) z =
    <[S (Z.to_nat off) := 0]> (<[Z.to_nat off := 0]> (drop (Z.to_nat (14 + hlen)) data))).
  { unfold z. by rewrite HSc, Hc, !drop_insert_field. }
  rewrite <- Hz in Hpatch. unfold s. rewrite <- Hpatch. unfold segment_sum.
  rewrite !addresses_untouched by lia. by rewrite HSc, Hc, !drop_insert_field.
Qed.

(** An empty UDP datagram from 10.0.2.15 to 10.0.2.2, and the same frame cut
    after the UDP ports *)
Definition udp_frame : list Z :=
  replicate 14 0 ++ [0x45; 0; 0; 28; 0; 0; 0; 0; 64; 17; 0; 0; 10; 0; 2; 15; 10; 0; 2; 2]
  ++ [0; 53; 0; 53; 0; 8; 0xde; 0xad].
Definition cut_frame : list Z := take 38 udp_frame.

Lemma udp_frame_checksummed : checksummed udp_frame 20 8 17 6.
Proof.
  constructor; [by_eval | by exists 0x45 | by exists 0, 28 | reflexivity | reflexivity | lia | lia].
Qed.

Lemma net_checksum_calculate_verifies_witness :
  exists data', net_checksum_calculate udp_frame = Some data' /\
    net_checksum_tcpudp 8 17 (drop 26 data') (drop 34 data') = Some 0.
Proof.
  destruct (net_checksum_calculate_verifies udp_frame 20 8 17 6 udp_frame_checksummed)
    as (data' & E & _ & Hv); [by_eval |].
  exists data'. by split.
Defined.

(** [net_checksum_calculate] trusts the length in the header and ignores
    the length of the frame: for a frame that ends before the announced
    datagram does, it reads beyond the end of the frame. *)
Theorem net_checksum_calculate_overrun data hlen plen proto off :
  checksummed data hlen plen proto off -> Z.of_nat (length data) < 14 + hlen + plen ->
  net_checksum_calculate data = None.
Proof.
  intros Hcs Hshort. destruct (checksummed_bounds _ _ _ _ _ Hcs) as (_ & Hoff & Hpl).
  rewrite (net_checksum_calculate_eq _ _ _ _ _ Hcs). destruct Hcs as [_ _ _ _ _ Hmin Hhl].
  destruct (store _ 0 data) as [d1 |] eqn:E1; [| done]. bind_step.
  destruct (store _ 0 d1) as [d2 |] eqn:E2; [| done]. bind_step.
  apply store_length in E1, E2. unfold net_checksum_tcpudp.
  rewrite (net_checksum_add_short plen); [done |]. rewrite length_drop. lia.
Qed.

Lemma net_checksum_calculate_overrun_witness : net_checksum_calculate cut_frame = None.
Proof.
  apply (net_checksum_calculate_overrun cut_frame 20 8 17 6); [| by_eval].
  constructor; [by_eval | by exists 0x45 | by exists 0, 28 | reflexivity | reflexivity | lia | lia].
Defined.
