(* ===== verification/QDict.v ===== *)
(** * QDict (qemu/qdict.c, qemu/qdict.h)

    The hash table behind QMP dictionaries: 512 buckets of chained entries,
    found with [tdb_hash].  Strings are lists of bytes without their
    terminating NUL, so [strcmp(a, b) == 0] is equality of lists.  Reference
    counts are not part of the model: a stored object is its value.

    Theorems: the table refines a finite map ([qdict_put_obj], [qdict_get],
    [qdict_haskey], [qdict_del], [qdict_size]), and iteration visits every
    binding exactly once. *)

From Stdlib Require Import ZArith Lia.
From stdpp Require Import base option numbers countable gmap list.
From S2P Require Import Prelude.

Local Open Scope Z_scope.

Abbreviation bytes := (list Z).

(** ** Definitions *)

Definition QDICT_BUCKET_MAX : Z := 512.

(** [QLIST_HEAD(,QDictEntry) table[QDICT_BUCKET_MAX]] and the entry count *)
Record QDict (V : Type) := mkQDict {
  qd_size : Z;
  qd_table : list (list (bytes * V))
}.
Arguments mkQDict {V} _ _.
Arguments qd_size {V} _.
Arguments qd_table {V} _.

(** The [for] loop of [tdb_hash]: [value] is an [unsigned], [i] its index. *)
Fixpoint tdb_hash_loop (name : bytes) (i value : Z) : Z :=
  match name with
  | [] => value
  | c :: name =>
      tdb_hash_loop name (wrap 32 (i + 1))
        (wrap 32 (value + Z.shiftl c (wrap 32 (i * 5) mod 24)))
  end.

Definition tdb_hash (name : bytes) : Z :=
  let value := tdb_hash_loop name 0 (wrap 32 (0x238F13AF * Z.of_nat (length name))) in
  wrap 32 (1103515243 * value + 12345).

Definition bucket_of (key : bytes) : nat := Z.to_nat (tdb_hash key mod QDICT_BUCKET_MAX).

Section QDict.
Context {V : Type}.

Definition qdict_new : QDict V := mkQDict 0 (replicate (Z.to_nat QDICT_BUCKET_MAX) []).

Definition bucket (qdict : QDict V) (b : nat) : list (bytes * V) :=
  default [] (qdict.(qd_table) !! b).

(** [qdict_find]: the first entry of the chain with this key *)
Fixpoint chain_find (key : bytes) (chain : list (bytes * V)) : option (bytes * V) :=
  match chain with
  | [] => None
  | e :: chain => if bool_decide (e.1 = key) then Some e else chain_find key chain
  end.

Definition qdict_find (qdict : QDict V) (key : bytes) (b : nat) : option (bytes * V) :=
  chain_find key (bucket qdict b).

(** [entry->value = value] on the entry [qdict_find] returned *)
Fixpoint chain_replace (key : bytes) (value : V) (chain : list (bytes * V))
  : list (bytes * V) :=
  match chain with
  | [] => []
  | e :: chain =>
      if bool_decide (e.1 = key) then (e.1, value) :: chain
      else e :: chain_replace key value chain
  end.

(** [QLIST_REMOVE(entry, next)] of that entry *)
Fixpoint chain_remove (key : bytes) (chain : list (bytes * V)) : list (bytes * V) :=
  match chain with
  | [] => []
  | e :: chain => if bool_decide (e.1 = key) then chain else e :: chain_remove key chain
  end.

Definition qdict_put_obj (qdict : QDict V) (key : bytes) (value : V) : QDict V :=
  let b := bucket_of key in
  match qdict_find qdict key b with
  | Some _ =>
      mkQDict qdict.(qd_size)
        (<[b := chain_replace key value (bucket qdict b)]> qdict.(qd_table))
  | None =>
      mkQDict (qdict.(qd_size) + 1)
        (<[b := (key, value) :: bucket qdict b]> qdict.(qd_table))
  end.

Definition qdict_get (qdict : QDict V) (key : bytes) : option V :=
  snd <$> qdict_find qdict key (bucket_of key).

Definition qdict_haskey (qdict : QDict V) (key : bytes) : Z :=
  match qdict_find qdict key (bucket_of key) with None => 0 | Some _ => 1 end.

Definition qdict_size (qdict : QDict V) : Z := qdict.(qd_size).

Definition qdict_del (qdict : QDict V) (key : bytes) : QDict V :=
  let b := bucket_of key in
  match qdict_find qdict key b with
  | Some _ =>
      mkQDict (qdict.(qd_size) - 1)
        (<[b := chain_remove key (bucket qdict b)]> qdict.(qd_table))
  | None => qdict
  end.

(** The nested loops over the buckets and their chains *)
Definition qdict_iter {A} (qdict : QDict V) (iter : A -> bytes -> V -> A) (opaque : A) : A :=
  foldl (fun a chain => foldl (fun a e => iter a e.1 e.2) a chain) opaque qdict.(qd_table).

(** The order in which [qdict_iter] calls its function *)
Definition qdict_entries (qdict : QDict V) : list (bytes * V) := concat qdict.(qd_table).

(** [qdict_next_entry]: the first entry of the first non-empty bucket from
    [first_bucket] on *)
Fixpoint next_entry (table : list (list (bytes * V))) : option (bytes * V) :=
  match table with
  | [] => None
  | [] :: table => next_entry table
  | (e :: _) :: _ => Some e
  end.

Definition qdict_next_entry (qdict : QDict V) (first_bucket : nat) : option (bytes * V) :=
  next_entry (drop first_bucket qdict.(qd_table)).

Definition qdict_first (qdict : QDict V) : option (bytes * V) := qdict_next_entry qdict 0.

(** [QLIST_NEXT(entry, next)] of the entry with this key in its chain *)
Fixpoint chain_next (key : bytes) (chain : list (bytes * V)) : option (bytes * V) :=
  match chain with
  | [] => None
  | e :: chain => if bool_decide (e.1 = key) then head chain else chain_next key chain
  end.

Definition qdict_next (qdict : QDict V) (entry : bytes * V) : option (bytes * V) :=
  match chain_next entry.1 (bucket qdict (bucket_of entry.1)) with
  | Some ret => Some ret
  | None => qdict_next_entry qdict (S (bucket_of entry.1))
  end.

(** ** Specification: the finite map the table stands for *)

Definition to_map (qdict : QDict V) : gmap bytes V := list_to_map (qdict_entries qdict).

(** Every entry is in the bucket of its key, no key occurs twice, and [size]
    counts the entries. *)
Record qdict_wf (qdict : QDict V) : Prop := {
  qdict_wf_len : length qdict.(qd_table) = 512%nat;
  qdict_wf_bucket : forall b chain k v,
    qdict.(qd_table) !! b = Some chain -> (k, v) ∈ chain -> bucket_of k = b;
  qdict_wf_nodup : forall b chain,
    qdict.(qd_table) !! b = Some chain -> NoDup chain.*1;
  qdict_wf_size : qdict.(qd_size) = Z.of_nat (length (qdict_entries qdict))
}.

(** ** Chains *)

Lemma chain_find_None (key : bytes) (chain : list (bytes * V)) :
  chain_find key chain = None <-> key ∉ chain.*1.
Proof.
  induction chain as [| [k v] chain IH]; cbn; [split; [intros _; apply not_elem_of_nil | done] |].
  rewrite not_elem_of_cons, <- IH. case_bool_decide; split; [done | by intros [? _] | auto | by intros [_ ?]].
Qed.

Lemma chain_find_Some (key : bytes) (chain : list (bytes * V)) (e : bytes * V) :
  chain_find key chain = Some e -> e ∈ chain /\ e.1 = key.
Proof.
  induction chain as [| [k v] chain IH]; cbn; [done |]. case_bool_decide; intros He.
  - simplify_eq/=. split; [left | done].
  - destruct (IH He). split; [by right | done].
Qed.

Lemma chain_find_elem (k : bytes) (v : V) (chain : list (bytes * V)) :
  NoDup chain.*1 -> (k, v) ∈ chain -> chain_find k chain = Some (k, v).
Proof.
  induction chain as [| [k' v'] chain IH]; cbn; intros Hnd Hin; [by apply not_elem_of_nil in Hin |].
  apply NoDup_cons in Hnd as [Hni Hnd]. apply elem_of_cons in Hin as [Heq | Hin].
  - simplify_eq. by rewrite bool_decide_eq_true_2.
  - case_bool_decide as Hk; cbn in Hk; [| by apply IH]. subst. destruct Hni.
    by apply (list_elem_of_fmap_2 fst) in Hin.
Qed.

Lemma chain_find_list_to_map (key : bytes) (chain : list (bytes * V)) :
  (list_to_map chain : gmap bytes V) !! key = snd <$> chain_find key chain.
Proof.
  induction chain as [| [k v] chain IH]; cbn; [apply lookup_empty |].
  rewrite lookup_insert. case_decide; case_bool_decide; cbn in *; congruence.
Qed.

Lemma chain_replace_keys (key : bytes) (value : V) (chain : list (bytes * V)) :
  (chain_replace key value chain).*1 = chain.*1.
Proof.
  induction chain as [| [k v] chain IH]; cbn; [done |]. case_bool_decide; cbn; congruence.
Qed.

Lemma chain_replace_find (key k : bytes) (value : V) (chain : list (bytes * V)) :
  key ∈ chain.*1 ->
  snd <$> chain_find k (chain_replace key value chain)
  = if decide (key = k) then Some value else snd <$> chain_find k chain.
Proof.
  induction chain as [| [k' v'] chain IH]; cbn; intros Hin; [by apply not_elem_of_nil in Hin |].
  case_bool_decide as Hk; cbn in *.
  - subst. repeat (case_decide || case_bool_decide); done.
  - apply elem_of_cons in Hin as [? | Hin]; [congruence |].
    case_bool_decide; cbn; [by rewrite decide_False by congruence | by apply IH].
Qed.

Lemma chain_remove_find (key k : bytes) (chain : list (bytes * V)) :
  NoDup chain.*1 ->
  snd <$> chain_find k (chain_remove key chain)
  = if decide (key = k) then None else snd <$> chain_find k chain.
Proof.
  induction chain as [| [k' v'] chain IH]; cbn; intros Hnd; [by case_decide |].
  apply NoDup_cons in Hnd as [Hni Hnd]. case_bool_decide as Hk; cbn in *.
  - subst. case_decide; subst.
    + by rewrite (proj2 (chain_find_None _ _)) by done.
    + by rewrite bool_decide_eq_false_2.
  - case_bool_decide; cbn; [by rewrite decide_False by congruence | by apply IH].
Qed.

Lemma chain_remove_sub (key : bytes) (chain : list (bytes * V)) :
  sublist (chain_remove key chain) chain.
Proof.
  induction chain as [| [k v] chain IH]; cbn; [constructor |].
  case_bool_decide; [by apply sublist_cons | by apply sublist_skip].
Qed.

Lemma chain_replace_length (key : bytes) (value : V) (chain : list (bytes * V)) :
  length (chain_replace key value chain) = length chain.
Proof. rewrite <- !(length_fmap fst), chain_replace_keys. done. Qed.

Lemma chain_remove_length (key : bytes) (chain : list (bytes * V)) :
  key ∈ chain.*1 -> S (length (chain_remove key chain)) = length chain.
Proof.
  induction chain as [| [k v] chain IH]; cbn; intros Hin; [by apply not_elem_of_nil in Hin |].
  case_bool_decide as Hk; cbn in *; [done |].
  apply elem_of_cons in Hin as [? | Hin]; [congruence |]. by rewrite IH.
Qed.

Lemma chain_replace_elem (key k : bytes) (value v : V) (chain : list (bytes * V)) :
  (k, v) ∈ chain_replace key value chain -> k ∈ chain.*1.
Proof.
  intros H. apply (list_elem_of_fmap_2 fst) in H. by rewrite chain_replace_keys in H.
Qed.

(** ** The table *)

Lemma bucket_of_lt (key : bytes) : (bucket_of key < 512)%nat.
Proof.
  unfold bucket_of, QDICT_BUCKET_MAX.
  pose proof (Z.mod_pos_bound (tdb_hash key) 512 ltac:(lia)). lia.
Qed.

Lemma bucket_lookup (d : QDict V) (b : nat) :
  qdict_wf d -> (b < 512)%nat -> d.(qd_table) !! b = Some (bucket d b).
Proof.
  intros Hwf Hb. unfold bucket.
  destruct (lookup_lt_is_Some_2 d.(qd_table) b) as [c Hc]; [by rewrite qdict_wf_len |].
  by rewrite Hc.
Qed.

Lemma chain_find_app (key : bytes) (c1 c2 : list (bytes * V)) :
  chain_find key (c1 ++ c2)
  = match chain_find key c1 with Some e => Some e | None => chain_find key c2 end.
Proof. induction c1 as [| [k v] c1 IH]; cbn; [done |]. by case_bool_decide. Qed.

Lemma chain_find_concat_None (key : bytes) (t : list (list (bytes * V))) :
  (forall b chain, t !! b = Some chain -> key ∉ chain.*1) -> chain_find key (concat t) = None.
Proof.
  induction t as [| c t IH]; cbn; intros Ht; [done |]. rewrite chain_find_app.
  rewrite (proj2 (chain_find_None key c)) by (by apply (Ht 0%nat)).
  apply IH. intros b chain Hb. by apply (Ht (S b)).
Qed.

(** A key is only ever found in its bucket. *)
Lemma chain_find_entries (d : QDict V) (key : bytes) :
  qdict_wf d -> chain_find key (qdict_entries d) = chain_find key (bucket d (bucket_of key)).
Proof.
  intros Hwf. pose proof (bucket_of_lt key) as Hlt.
  pose proof (bucket_lookup d _ Hwf Hlt) as Hb. unfold qdict_entries.
  rewrite <- (take_drop_middle _ _ _ Hb) at 1. rewrite concat_app. cbn [concat].
  assert (Hother : forall b chain, d.(qd_table) !! b = Some chain -> b <> bucket_of key ->
                     key ∉ chain.*1).
  { intros b chain Hc Hne Hin. apply list_elem_of_fmap in Hin as ([k v] & -> & Hin).
    by destruct Hne; symmetry; eapply qdict_wf_bucket. }
  rewrite !chain_find_app, chain_find_concat_None.
  2: { intros b chain Hc. apply lookup_take_Some in Hc as [Hc Hlt']. apply (Hother b); [done | lia]. }
  destruct (chain_find key (bucket d (bucket_of key))); [done |].
  apply chain_find_concat_None. intros b chain Hc. rewrite lookup_drop in Hc.
  eapply Hother; [done | lia].
Qed.

Lemma to_map_get (d : QDict V) (key : bytes) :
  qdict_wf d -> to_map d !! key = qdict_get d key.
Proof.
  intros Hwf. unfold to_map, qdict_get, qdict_find.
  by rewrite chain_find_list_to_map, chain_find_entries.
Qed.

Lemma length_concat_insert (t : list (list (bytes * V))) (b : nat) (c c' : list (bytes * V)) :
  t !! b = Some c ->
  (length (concat (<[b := c']> t)) + length c = length (concat t) + length c')%nat.
Proof.
  revert b. induction t as [| x t IH]; intros [| b] Hb; try done.
  - injection Hb as ->. cbn. rewrite !length_app. lia.
  - change (<[S b := c']> (x :: t)) with (x :: <[b := c']> t). cbn [concat].
    rewrite !length_app. specialize (IH b Hb). lia.
Qed.

Lemma qdict_wf_update (d : QDict V) (b : nat) (c' : list (bytes * V)) :
  qdict_wf d -> (b < 512)%nat ->
  (forall k v, (k, v) ∈ c' -> bucket_of k = b) -> NoDup c'.*1 ->
  qdict_wf (mkQDict (d.(qd_size) - Z.of_nat (length (bucket d b)) + Z.of_nat (length c'))
                    (<[b := c']> d.(qd_table))).
Proof.
  intros Hwf Hb Hc Hnd. pose proof (bucket_lookup d b Hwf Hb) as Hlook.
  constructor; cbn.
  - rewrite length_insert. apply Hwf.
  - intros b1 c1 k v Hc1 Hin. apply list_lookup_insert_Some in Hc1 as [(<- & <- & _) | [Hne Hc1]].
    + by eapply Hc.
    + by eapply qdict_wf_bucket.
  - intros b1 c1 Hc1. apply list_lookup_insert_Some in Hc1 as [(<- & <- & _) | [Hne Hc1]]; [done |].
    by eapply qdict_wf_nodup.
  - rewrite (qdict_wf_size d Hwf). unfold qdict_entries. cbn.
    pose proof (length_concat_insert _ _ _ c' Hlook). lia.
Qed.

Lemma bucket_insert (d : QDict V) (sz : Z) (b b1 : nat) (c' : list (bytes * V)) :
  qdict_wf d -> (b < 512)%nat ->
  bucket (mkQDict sz (<[b := c']> d.(qd_table))) b1 = if decide (b = b1) then c' else bucket d b1.
Proof.
  intros Hwf Hb. unfold bucket. cbn. case_decide; subst.
  - rewrite list_lookup_insert_eq by (by rewrite qdict_wf_len). done.
  - by rewrite list_lookup_insert_ne.
Qed.

Lemma chain_nodup (d : QDict V) (b : nat) :
  qdict_wf d -> (b < 512)%nat -> NoDup (bucket d b).*1.
Proof. intros Hwf Hb. eapply qdict_wf_nodup; [done |]. by apply bucket_lookup. Qed.

Lemma chain_bucket (d : QDict V) (b : nat) (k : bytes) (v : V) :
  qdict_wf d -> (b < 512)%nat -> (k, v) ∈ bucket d b -> bucket_of k = b.
Proof. intros Hwf Hb Hin. eapply qdict_wf_bucket; [done | by apply bucket_lookup | done]. Qed.

Lemma qdict_put_wf (d : QDict V) (key : bytes) (value : V) :
  qdict_wf d -> qdict_wf (qdict_put_obj d key value).
Proof.
  intros Hwf. pose proof (bucket_of_lt key) as Hlt.
  unfold qdict_put_obj, qdict_find. destruct (chain_find key _) as [e |] eqn:E.
  - replace d.(qd_size) with (d.(qd_size) - Z.of_nat (length (bucket d (bucket_of key)))
      + Z.of_nat (length (chain_replace key value (bucket d (bucket_of key)))))
      by (rewrite chain_replace_length; lia).
    apply qdict_wf_update; [done.. | | rewrite chain_replace_keys; by apply chain_nodup].
    intros k v Hin. apply chain_replace_elem in Hin.
    apply list_elem_of_fmap in Hin as ([k' v'] & -> & Hin). by eapply chain_bucket.
  - replace (d.(qd_size) + 1) with (d.(qd_size) - Z.of_nat (length (bucket d (bucket_of key)))
      + Z.of_nat (length ((key, value) :: bucket d (bucket_of key)))) by (cbn; lia).
    apply qdict_wf_update; [done.. | |].
    + intros k v Hin. apply elem_of_cons in Hin as [? | Hin]; [by simplify_eq |].
      by eapply chain_bucket.
    + cbn. apply NoDup_cons. split; [by apply chain_find_None | by apply chain_nodup].
Qed.

Lemma qdict_put_get (d : QDict V) (key k : bytes) (value : V) :
  qdict_wf d ->
  qdict_get (qdict_put_obj d key value) k
  = if decide (key = k) then Some value else qdict_get d k.
Proof.
  intros Hwf. pose proof (bucket_of_lt key) as Hlt.
  unfold qdict_get, qdict_put_obj, qdict_find at 2.
  destruct (chain_find key _) as [e |] eqn:E; unfold qdict_find; rewrite bucket_insert by done.
  - destruct (decide (bucket_of key = bucket_of k)) as [Hb | Hb].
    + rewrite <- Hb. apply chain_replace_find. apply chain_find_Some in E as [Hin <-].
      by apply (list_elem_of_fmap_2 fst).
    + by rewrite decide_False by congruence.
  - destruct (decide (bucket_of key = bucket_of k)) as [Hb | Hb].
    + cbn. case_bool_decide; case_decide; cbn in *; try congruence.
    + by rewrite decide_False by congruence.
Qed.

Lemma qdict_del_wf (d : QDict V) (key : bytes) : qdict_wf d -> qdict_wf (qdict_del d key).
Proof.
  intros Hwf. pose proof (bucket_of_lt key) as Hlt.
  unfold qdict_del, qdict_find. destruct (chain_find key _) as [e |] eqn:E; [| done].
  apply chain_find_Some in E as [Hin He]. apply (list_elem_of_fmap_2 fst) in Hin. rewrite He in Hin.
  pose proof (chain_remove_length _ _ Hin).
  replace (d.(qd_size) - 1) with (d.(qd_size) - Z.of_nat (length (bucket d (bucket_of key)))
    + Z.of_nat (length (chain_remove key (bucket d (bucket_of key))))) by lia.
  apply qdict_wf_update; [done.. | |].
  - intros k v Hk. eapply chain_bucket; [done.. |].
    eapply elem_of_sublist; [done | apply chain_remove_sub].
  - eapply sublist_NoDup; [by apply chain_nodup |]. apply fmap_sublist, chain_remove_sub.
Qed.

Lemma qdict_del_get (d : QDict V) (key k : bytes) :
  qdict_wf d ->
  qdict_get (qdict_del d key) k = if decide (key = k) then None else qdict_get d k.
Proof.
  intros Hwf. pose proof (bucket_of_lt key) as Hlt.
  unfold qdict_get, qdict_del, qdict_find at 2.
  destruct (chain_find key _) as [e |] eqn:E; unfold qdict_find.
  - rewrite bucket_insert by done. destruct (decide (bucket_of key = bucket_of k)) as [Hb | Hb].
    + rewrite <- Hb. apply chain_remove_find. by apply chain_nodup.
    + by rewrite decide_False by congruence.
  - case_decide; subst; [by rewrite E | done].
Qed.

Lemma qdict_new_wf : qdict_wf qdict_new.
Proof.
  constructor.
  - apply length_replicate.
  - intros b chain k v H Hin. apply lookup_replicate in H as [-> _].
    by apply not_elem_of_nil in Hin.
  - intros b chain H. apply lookup_replicate in H as [-> _]. constructor.
  - reflexivity.
Qed.

Lemma entries_nodup (d : QDict V) : qdict_wf d -> NoDup (qdict_entries d).*1.
Proof.
  intros Hwf. unfold qdict_entries.
  assert (Hgen : forall t off,
    (forall b chain k v, t !! b = Some chain -> (k, v) ∈ chain -> bucket_of k = (off + b)%nat) ->
    (forall b chain, t !! b = Some chain -> NoDup (chain : list (bytes * V)).*1) ->
    NoDup (concat t).*1).
  { induction t as [| c t IH]; cbn; intros off Hb Hn; [constructor |].
    rewrite fmap_app. apply NoDup_app. split_and!.
    - by apply (Hn 0%nat).
    - intros k Hk1 Hk2. apply list_elem_of_fmap in Hk1 as ([k1 v1] & -> & Hin1).
      apply list_elem_of_fmap in Hk2 as ([k2 v2] & Heq & Hin2). cbn in Heq. subst.
      apply list_elem_of_In, in_concat in Hin2 as (c2 & Hc2 & Hin2).
      apply list_elem_of_In, list_elem_of_lookup in Hc2 as (b2 & Hb2).
      pose proof (Hb 0%nat c k2 v1 eq_refl Hin1).
      pose proof (Hb (S b2) c2 k2 v2 Hb2 (proj2 (list_elem_of_In _ _) Hin2)). lia.
    - apply (IH (S off)); [| intros b chain Hc; by apply (Hn (S b))].
      intros b chain k v Hc Hin. rewrite (Hb (S b) chain k v Hc Hin). lia. }
  apply (Hgen _ 0%nat); [intros b chain k v; apply (qdict_wf_bucket d Hwf)
                        | intros b chain; apply (qdict_wf_nodup d Hwf)].
Qed.

Lemma entries_map_to_list (d : QDict V) :
  qdict_wf d -> qdict_entries d ≡ₚ map_to_list (to_map d).
Proof.
  intros Hwf. unfold to_map. by rewrite map_to_list_to_map by (by apply entries_nodup).
Qed.

(** ** Iteration with [qdict_first] and [qdict_next] *)

Lemma qdict_iter_entries {A} (d : QDict V) (iter : A -> bytes -> V -> A) (opaque : A) :
  qdict_iter d iter opaque = foldl (fun a e => iter a e.1 e.2) opaque (qdict_entries d).
Proof.
  unfold qdict_iter, qdict_entries. revert opaque.
  induction d.(qd_table) as [| chain t IH]; intros a; cbn; [done |]. by rewrite IH, foldl_app.
Qed.

Lemma next_entry_head (t : list (list (bytes * V))) : next_entry t = head (concat t).
Proof. induction t as [| [| e c] t IH]; cbn; auto. Qed.

Lemma chain_next_lookup (c : list (bytes * V)) (j : nat) (e : bytes * V) :
  NoDup c.*1 -> c !! j = Some e -> chain_next e.1 c = c !! S j.
Proof.
  revert j. induction c as [| e' c IH]; intros j Hnd Hj; [done |].
  apply NoDup_cons in Hnd as [Hni Hnd]. destruct j as [| j]; cbn in *.
  - simplify_eq. rewrite bool_decide_eq_true_2 by done. by destruct c.
  - rewrite bool_decide_eq_false_2; [by apply IH |]. intros Heq. apply Hni. rewrite Heq.
    apply (list_elem_of_fmap_2 fst). apply list_elem_of_lookup. by exists j.
Qed.

Lemma qdict_next_spec (d : QDict V) (i : nat) (e : bytes * V) :
  qdict_wf d -> qdict_entries d !! i = Some e -> qdict_next d e = qdict_entries d !! S i.
Proof.
  intros Hwf Hi. destruct e as [k v]. pose proof (bucket_of_lt k) as Hlt.
  pose proof (bucket_lookup d _ Hwf Hlt) as Hb. pose proof (entries_nodup d Hwf) as Hnd.
  assert (Hin : (k, v) ∈ bucket d (bucket_of k)).
  { assert (Hf : chain_find k (qdict_entries d) = Some (k, v)).
    { apply chain_find_elem; [done |]. apply list_elem_of_lookup. by exists i. }
    rewrite chain_find_entries in Hf by done. by apply chain_find_Some in Hf as [? _]. }
  apply list_elem_of_lookup in Hin as (j & Hj).
  pose proof (chain_next_lookup _ j (k, v) (chain_nodup d _ Hwf Hlt) Hj) as Hnext.
  unfold qdict_next. cbn [fst] in *. rewrite Hnext. unfold qdict_next_entry.
  rewrite next_entry_head. unfold qdict_entries in *.
  rewrite <- (take_drop_middle _ _ _ Hb) in Hi, Hnd |- *. rewrite concat_app in *.
  cbn [concat] in *. set (pre := concat (take _ _)) in *. set (c := bucket d _) in *.
  set (post := concat (drop _ _)) in *.
  assert (Hij : i = (length pre + j)%nat).
  { apply (NoDup_lookup _ i (length pre + j)%nat k Hnd); rewrite list_lookup_fmap.
    - by rewrite Hi.
    - rewrite lookup_app_r, Nat.add_sub' by lia. by rewrite lookup_app_l, Hj
        by (by eapply lookup_lt_Some). }
  rewrite lookup_app_r by lia. replace (S i - length pre)%nat with (S j) by lia.
  destruct (c !! S j) as [e |] eqn:Ec.
  - by rewrite lookup_app_l by (by eapply lookup_lt_Some).
  - apply lookup_ge_None in Ec. pose proof (lookup_lt_Some _ _ _ Hj).
    rewrite lookup_app_r by lia. replace (S j - length c)%nat with 0%nat by lia.
    rewrite <- head_lookup. by rewrite (take_drop_middle _ _ _ Hb).
Qed.
End QDict.

(** ** Properties *)

(** C35: [QDict] refines a finite map from strings to objects: the empty
    dictionary is the empty map, [qdict_put_obj] inserts or replaces,
    [qdict_del] deletes, [qdict_get] and [qdict_haskey] look up,
    [qdict_size] counts, and every operation keeps the table well formed. *)
Theorem qdict_refines_map {V : Type} (d : QDict V) :
  qdict_wf d ->
  qdict_wf (@qdict_new V) /\ to_map (@qdict_new V) = ∅
  /\ (forall k v, qdict_wf (qdict_put_obj d k v)
                  /\ to_map (qdict_put_obj d k v) = <[k := v]> (to_map d))
  /\ (forall k, qdict_wf (qdict_del d k) /\ to_map (qdict_del d k) = delete k (to_map d))
  /\ (forall k, qdict_get d k = to_map d !! k)
  /\ (forall k, qdict_haskey d k = 1 <-> is_Some (to_map d !! k))
  /\ qdict_size d = Z.of_nat (size (to_map d)).
Proof.
  intros Hwf. split_and!.
  - apply qdict_new_wf.
  - reflexivity.
  - intros k v. pose proof (qdict_put_wf d k v Hwf). split; [done |]. apply map_eq. intros k'.
    rewrite to_map_get, qdict_put_get, lookup_insert, to_map_get by done. done.
  - intros k. pose proof (qdict_del_wf d k Hwf). split; [done |]. apply map_eq. intros k'.
    rewrite to_map_get, qdict_del_get, lookup_delete, to_map_get by done. done.
  - intros k. by rewrite to_map_get.
  - intros k. rewrite to_map_get by done. unfold qdict_haskey, qdict_get.
    destruct (qdict_find d k _); cbn; split; try done; by intros [? ?].
  - unfold qdict_size. rewrite (qdict_wf_size d Hwf), (entries_map_to_list d Hwf).
    by rewrite length_map_to_list.
Qed.

Lemma qdict_refines_map_witness :
  qdict_size (qdict_put_obj (@qdict_new Z) [105; 100] 7)
  = Z.of_nat (size (to_map (qdict_put_obj (@qdict_new Z) [105; 100] 7))).
Proof.
  apply (qdict_refines_map (qdict_put_obj (@qdict_new Z) [105; 100] 7)).
  apply qdict_put_wf, qdict_new_wf.
Defined.

(** [qdict_iter] calls its function on each binding of the dictionary
    once, and iterating with [qdict_first] and [qdict_next] walks the entries
    in the same order. *)
Theorem qdict_iteration {V : Type} (d : QDict V) :
  qdict_wf d ->
  qdict_entries d ≡ₚ map_to_list (to_map d)
  /\ (forall (A : Type) (iter : A -> bytes -> V -> A) (opaque : A),
        qdict_iter d iter opaque = foldl (fun a e => iter a e.1 e.2) opaque (qdict_entries d))
  /\ qdict_first d = qdict_entries d !! 0%nat
  /\ forall i e, qdict_entries d !! i = Some e -> qdict_next d e = qdict_entries d !! S i.
Proof.
  intros Hwf. split_and!.
  - by apply entries_map_to_list.
  - intros A iter opaque. apply qdict_iter_entries.
  - unfold qdict_first, qdict_next_entry. rewrite drop_0, next_entry_head. apply head_lookup.
  - intros i e. by apply qdict_next_spec.
Qed.

Lemma qdict_iteration_witness :
  qdict_first (qdict_put_obj (@qdict_new Z) [105; 100] 7)
  = qdict_entries (qdict_put_obj (@qdict_new Z) [105; 100] 7) !! 0%nat.
Proof.
  apply (qdict_iteration (qdict_put_obj (@qdict_new Z) [105; 100] 7)).
  apply qdict_put_wf, qdict_new_wf.
Defined.
