(* ===== verification/JsonLexTable.v ===== *)
(** * The transition table of the JSON lexer (qemu/json-lexer.c)

    The table is an array of rows, one per state, written with designated
    initialisers.  The source holds it twice: with the GCC range designators
    and, for the compiler this repository builds with, expanded by hand to
    one designator per byte; the [TERMINAL] macro is duplicated the same way.
    A row is the list of its designators in source order, and, as in C, a
    later designator overrides an earlier one and an entry without designator
    is 0, that is [IN_ERROR].

    Theorem: the two tables are the same function. *)

From Stdlib Require Import ZArith Lia.
From stdpp Require Import base option numbers list.
From S2P Require Import Prelude.

Local Open Scope Z_scope.

(** ** States and token types *)

(** [enum json_lexer_state] *)
Definition IN_ERROR : Z := 0.
Definition IN_DQ_UCODE3 : Z := 1.
Definition IN_DQ_UCODE2 : Z := 2.
Definition IN_DQ_UCODE1 : Z := 3.
Definition IN_DQ_UCODE0 : Z := 4.
Definition IN_DQ_STRING_ESCAPE : Z := 5.
Definition IN_DQ_STRING : Z := 6.
Definition IN_SQ_UCODE3 : Z := 7.
Definition IN_SQ_UCODE2 : Z := 8.
Definition IN_SQ_UCODE1 : Z := 9.
Definition IN_SQ_UCODE0 : Z := 10.
Definition IN_SQ_STRING_ESCAPE : Z := 11.
Definition IN_SQ_STRING : Z := 12.
Definition IN_ZERO : Z := 13.
Definition IN_DIGITS : Z := 14.
Definition IN_DIGIT : Z := 15.
Definition IN_EXP_E : Z := 16.
Definition IN_MANTISSA : Z := 17.
Definition IN_MANTISSA_DIGITS : Z := 18.
Definition IN_NONZERO_NUMBER : Z := 19.
Definition IN_NEG_NONZERO_NUMBER : Z := 20.
Definition IN_KEYWORD : Z := 21.
Definition IN_ESCAPE : Z := 22.
Definition IN_ESCAPE_L : Z := 23.
Definition IN_ESCAPE_LL : Z := 24.
Definition IN_ESCAPE_I : Z := 25.
Definition IN_ESCAPE_I6 : Z := 26.
Definition IN_ESCAPE_I64 : Z := 27.
Definition IN_WHITESPACE : Z := 28.
Definition IN_START : Z := 29.

(** [enum json_token_type] of json-lexer.h *)
Definition JSON_OPERATOR : Z := 100.
Definition JSON_INTEGER : Z := 101.
Definition JSON_FLOAT : Z := 102.
Definition JSON_KEYWORD : Z := 103.
Definition JSON_STRING : Z := 104.
Definition JSON_ESCAPE : Z := 105.
Definition JSON_SKIP : Z := 106.
Definition JSON_ERROR : Z := 107.

(** ** Designators *)

(** [[lo ... hi] = state], or [[lo] = state] when the bounds coincide *)
Definition row : Type := list (Z * Z * Z).

Definition range_at (lo hi state : Z) : row := [(lo, hi, state)].

(** One designator per listed byte *)
Definition each (cs : list Z) (state : Z) : row := (fun c => (c, c, state)) <$> cs.

Definition row_get (r : row) (c : Z) : Z :=
  foldl (fun acc d => if (d.1.1 <=? c) && (c <=? d.1.2) then d.2 else acc) IN_ERROR r.

Fixpoint table_get (t : list (Z * row)) (state c : Z) : Z :=
  match t with
  | [] => IN_ERROR
  | (st, r) :: t => if st =? state then row_get r c else table_get t state c
  end.

Definition TERMINAL_gcc (state : Z) : row := range_at 0 0x7F state.

Definition TERMINAL_msvc (state : Z) : row :=
  each [0; 1; 2; 3; 4; 5; 6; 7; 8; 9; 10; 11; 12; 13; 14; 15; 16; 17; 18; 19; 20; 21; 22; 23; 24;
     25; 26; 27; 28; 29; 30; 31; 32; 33; 34; 35; 36; 37; 38; 39; 40; 41; 42; 43; 44; 45; 46;
     47; 48; 49; 50; 51; 52; 53; 54; 55; 56; 57; 58; 59; 60; 61; 62; 63; 64; 65; 66; 67; 68;
     69; 70; 71; 72; 73; 74; 75; 76; 77; 78; 79; 80; 81; 82; 83; 84; 85; 86; 87; 88; 89; 90;
     91; 92; 93; 94; 95; 96; 97; 98; 99; 100; 101; 102; 103; 104; 105; 106; 107; 108; 109; 110;
     111; 112; 113; 114; 115; 116; 117; 118; 119; 120; 121; 122; 123; 124; 125; 126; 127] state.

(** ** The table as GCC compiles it *)

Definition gcc_IN_DQ_UCODE3 : row :=
  range_at 48 57 IN_DQ_STRING ++
  range_at 97 102 IN_DQ_STRING ++
  range_at 65 70 IN_DQ_STRING.

Definition gcc_IN_DQ_UCODE2 : row :=
  range_at 48 57 IN_DQ_UCODE3 ++
  range_at 97 102 IN_DQ_UCODE3 ++
  range_at 65 70 IN_DQ_UCODE3.

Definition gcc_IN_DQ_UCODE1 : row :=
  range_at 48 57 IN_DQ_UCODE2 ++
  range_at 97 102 IN_DQ_UCODE2 ++
  range_at 65 70 IN_DQ_UCODE2.

Definition gcc_IN_DQ_UCODE0 : row :=
  range_at 48 57 IN_DQ_UCODE1 ++
  range_at 97 102 IN_DQ_UCODE1 ++
  range_at 65 70 IN_DQ_UCODE1.

Definition gcc_IN_DQ_STRING_ESCAPE : row :=
  each [98; 102; 110; 114; 116; 47; 92; 39; 34] IN_DQ_STRING ++
  each [117] IN_DQ_UCODE0.

Definition gcc_IN_DQ_STRING : row :=
  range_at 1 191 IN_DQ_STRING ++
  range_at 194 244 IN_DQ_STRING ++
  each [92] IN_DQ_STRING_ESCAPE ++
  each [34] JSON_STRING.

Definition gcc_IN_SQ_UCODE3 : row :=
  range_at 48 57 IN_SQ_STRING ++
  range_at 97 102 IN_SQ_STRING ++
  range_at 65 70 IN_SQ_STRING.

Definition gcc_IN_SQ_UCODE2 : row :=
  range_at 48 57 IN_SQ_UCODE3 ++
  range_at 97 102 IN_SQ_UCODE3 ++
  range_at 65 70 IN_SQ_UCODE3.

Definition gcc_IN_SQ_UCODE1 : row :=
  range_at 48 57 IN_SQ_UCODE2 ++
  range_at 97 102 IN_SQ_UCODE2 ++
  range_at 65 70 IN_SQ_UCODE2.

Definition gcc_IN_SQ_UCODE0 : row :=
  range_at 48 57 IN_SQ_UCODE1 ++
  range_at 97 102 IN_SQ_UCODE1 ++
  range_at 65 70 IN_SQ_UCODE1.

Definition gcc_IN_SQ_STRING_ESCAPE : row :=
  each [98; 102; 110; 114; 116] IN_SQ_STRING ++
  each [47; 92] IN_DQ_STRING ++
  each [39; 34] IN_SQ_STRING ++
  each [117] IN_SQ_UCODE0.

Definition gcc_IN_SQ_STRING : row :=
  range_at 1 191 IN_SQ_STRING ++
  range_at 194 244 IN_SQ_STRING ++
  each [92] IN_SQ_STRING_ESCAPE ++
  each [39] JSON_STRING.

Definition gcc_IN_ZERO : row :=
  TERMINAL_gcc JSON_INTEGER ++
  range_at 48 57 IN_ERROR ++
  each [46] IN_MANTISSA.

Definition gcc_IN_DIGITS : row :=
  TERMINAL_gcc JSON_FLOAT ++
  range_at 48 57 IN_DIGITS.

Definition gcc_IN_DIGIT : row :=
  range_at 48 57 IN_DIGITS.

Definition gcc_IN_EXP_E : row :=
  each [45; 43] IN_DIGIT ++
  range_at 48 57 IN_DIGITS.

Definition gcc_IN_MANTISSA_DIGITS : row :=
  TERMINAL_gcc JSON_FLOAT ++
  range_at 48 57 IN_MANTISSA_DIGITS ++
  each [101; 69] IN_EXP_E.

Definition gcc_IN_MANTISSA : row :=
  range_at 48 57 IN_MANTISSA_DIGITS.

Definition gcc_IN_NONZERO_NUMBER : row :=
  TERMINAL_gcc JSON_INTEGER ++
  range_at 48 57 IN_NONZERO_NUMBER ++
  each [101; 69] IN_EXP_E ++
  each [46] IN_MANTISSA.

Definition gcc_IN_NEG_NONZERO_NUMBER : row :=
  each [48] IN_ZERO ++
  range_at 49 57 IN_NONZERO_NUMBER.

Definition gcc_IN_KEYWORD : row :=
  TERMINAL_gcc JSON_KEYWORD ++
  range_at 97 122 IN_KEYWORD.

Definition gcc_IN_WHITESPACE : row :=
  TERMINAL_gcc JSON_SKIP ++
  each [32; 9; 13; 10] IN_WHITESPACE.

Definition gcc_IN_ESCAPE_LL : row :=
  each [100] JSON_ESCAPE.

Definition gcc_IN_ESCAPE_L : row :=
  each [100] JSON_ESCAPE ++
  each [108] IN_ESCAPE_LL.

Definition gcc_IN_ESCAPE_I64 : row :=
  each [100] JSON_ESCAPE.

Definition gcc_IN_ESCAPE_I6 : row :=
  each [52] IN_ESCAPE_I64.

Definition gcc_IN_ESCAPE_I : row :=
  each [54] IN_ESCAPE_I6.

Definition gcc_IN_ESCAPE : row :=
  each [100; 105; 112; 115; 102] JSON_ESCAPE ++
  each [108] IN_ESCAPE_L ++
  each [73] IN_ESCAPE_I.

Definition gcc_IN_START : row :=
  each [34] IN_DQ_STRING ++
  each [39] IN_SQ_STRING ++
  each [48] IN_ZERO ++
  range_at 49 57 IN_NONZERO_NUMBER ++
  each [45] IN_NEG_NONZERO_NUMBER ++
  each [123; 125; 91; 93; 44; 58] JSON_OPERATOR ++
  range_at 97 122 IN_KEYWORD ++
  each [37] IN_ESCAPE ++
  each [32; 9; 13; 10] IN_WHITESPACE.

Definition json_lexer_gcc : list (Z * row) :=
  [(IN_DQ_UCODE3, gcc_IN_DQ_UCODE3);
   (IN_DQ_UCODE2, gcc_IN_DQ_UCODE2);
   (IN_DQ_UCODE1, gcc_IN_DQ_UCODE1);
   (IN_DQ_UCODE0, gcc_IN_DQ_UCODE0);
   (IN_DQ_STRING_ESCAPE, gcc_IN_DQ_STRING_ESCAPE);
   (IN_DQ_STRING, gcc_IN_DQ_STRING);
   (IN_SQ_UCODE3, gcc_IN_SQ_UCODE3);
   (IN_SQ_UCODE2, gcc_IN_SQ_UCODE2);
   (IN_SQ_UCODE1, gcc_IN_SQ_UCODE1);
   (IN_SQ_UCODE0, gcc_IN_SQ_UCODE0);
   (IN_SQ_STRING_ESCAPE, gcc_IN_SQ_STRING_ESCAPE);
   (IN_SQ_STRING, gcc_IN_SQ_STRING);
   (IN_ZERO, gcc_IN_ZERO);
   (IN_DIGITS, gcc_IN_DIGITS);
   (IN_DIGIT, gcc_IN_DIGIT);
   (IN_EXP_E, gcc_IN_EXP_E);
   (IN_MANTISSA_DIGITS, gcc_IN_MANTISSA_DIGITS);
   (IN_MANTISSA, gcc_IN_MANTISSA);
   (IN_NONZERO_NUMBER, gcc_IN_NONZERO_NUMBER);
   (IN_NEG_NONZERO_NUMBER, gcc_IN_NEG_NONZERO_NUMBER);
   (IN_KEYWORD, gcc_IN_KEYWORD);
   (IN_WHITESPACE, gcc_IN_WHITESPACE);
   (IN_ESCAPE_LL, gcc_IN_ESCAPE_LL);
   (IN_ESCAPE_L, gcc_IN_ESCAPE_L);
   (IN_ESCAPE_I64, gcc_IN_ESCAPE_I64);
   (IN_ESCAPE_I6, gcc_IN_ESCAPE_I6);
   (IN_ESCAPE_I, gcc_IN_ESCAPE_I);
   (IN_ESCAPE, gcc_IN_ESCAPE);
   (IN_START, gcc_IN_START)].

(** ** The table as MSVC compiles it *)

Definition msvc_IN_DQ_UCODE3 : row :=
  each [48; 49; 50; 51; 52; 53; 54; 55; 56; 57; 97; 98; 99; 100; 101; 102; 65; 66; 67; 68; 69; 70] IN_DQ_STRING.

Definition msvc_IN_DQ_UCODE2 : row :=
  each [48; 49; 50; 51; 52; 53; 54; 55; 56; 57; 97; 98; 99; 100; 101; 102; 65; 66; 67; 68; 69; 70] IN_DQ_UCODE3.

Definition msvc_IN_DQ_UCODE1 : row :=
  each [48; 49; 50; 51; 52; 53; 54; 55; 56; 57; 97; 98; 99; 100; 101; 102; 65; 66; 67; 68; 69; 70] IN_DQ_UCODE2.

Definition msvc_IN_DQ_UCODE0 : row :=
  each [48; 49; 50; 51; 52; 53; 54; 55; 56; 57; 97; 98; 99; 100; 101; 102; 65; 66; 67; 68; 69; 70] IN_DQ_UCODE1.

Definition msvc_IN_DQ_STRING_ESCAPE : row :=
  each [98; 102; 110; 114; 116; 47; 92; 39; 34] IN_DQ_STRING ++
  each [117] IN_DQ_UCODE0.

Definition msvc_IN_DQ_STRING_ascii : row :=
  each [1; 2; 3; 4; 5; 6; 7; 8; 9; 10; 11; 12; 13; 14; 15; 16; 17; 18; 19; 20; 21; 22; 23; 24; 25;
     26; 27; 28; 29; 30; 31; 32; 33; 34; 35; 36; 37; 38; 39; 40; 41; 42; 43; 44; 45; 46; 47;
     48; 49; 50; 51; 52; 53; 54; 55; 56; 57; 58; 59; 60; 61; 62; 63; 64; 65; 66; 67; 68; 69;
     70; 71; 72; 73; 74; 75; 76; 77; 78; 79; 80; 81; 82; 83; 84; 85; 86; 87; 88; 89; 90; 91;
     92; 93; 94; 95; 96; 97; 98; 99; 100; 101; 102; 103; 104; 105; 106; 107; 108; 109; 110;
     111; 112; 113; 114; 115; 116; 117; 118; 119; 120; 121; 122; 123; 124; 125; 126; 127] IN_DQ_STRING.

Definition msvc_IN_DQ_STRING : row :=
  msvc_IN_DQ_STRING_ascii ++
  each [128; 129; 130; 131; 132; 133; 134; 135; 136; 137; 138; 139; 140; 141; 142; 143; 144; 145;
     146; 147; 148; 149; 150; 151; 152; 153; 154; 155; 156; 157; 158; 159; 160; 161; 162; 163;
     164; 165; 166; 167; 168; 169; 170; 171; 172; 173; 174; 175; 176; 177; 178; 179; 180; 181;
     182; 183; 184; 185; 186; 187; 188; 189; 190; 191; 194; 195; 196; 197; 198; 199; 200; 201;
     202; 203; 204; 205; 206; 207; 208; 209; 210; 211; 212; 213; 214; 215; 216; 217; 218; 219;
     220; 221; 222; 223; 224; 225; 226; 227; 228; 229; 230; 231; 232; 233; 234; 235; 236; 237;
     238; 239; 240; 241; 242; 243; 244] IN_DQ_STRING ++
  each [92] IN_DQ_STRING_ESCAPE ++
  each [34] JSON_STRING.

Definition msvc_IN_SQ_UCODE3 : row :=
  each [48; 49; 50; 51; 52; 53; 54; 55; 56; 57; 97; 98; 99; 100; 101; 102; 65; 66; 67; 68; 69; 70] IN_SQ_STRING.

Definition msvc_IN_SQ_UCODE2 : row :=
  each [48; 49; 50; 51; 52; 53; 54; 55; 56; 57; 97; 98; 99; 100; 101; 102; 65; 66; 67; 68; 69; 70] IN_SQ_UCODE3.

Definition msvc_IN_SQ_UCODE1 : row :=
  each [48; 49; 50; 51; 52; 53; 54; 55; 56; 57; 97; 98; 99; 100; 101; 102; 65; 66; 67; 68; 69; 70] IN_SQ_UCODE2.

Definition msvc_IN_SQ_UCODE0 : row :=
  each [48; 49; 50; 51; 52; 53; 54; 55; 56; 57; 97; 98; 99; 100; 101; 102; 65; 66; 67; 68; 69; 70] IN_SQ_UCODE1.

Definition msvc_IN_SQ_STRING_ESCAPE : row :=
  each [98; 102; 110; 114; 116] IN_SQ_STRING ++
  each [47; 92] IN_DQ_STRING ++
  each [39; 34] IN_SQ_STRING ++
  each [117] IN_SQ_UCODE0.

Definition msvc_IN_SQ_STRING_ascii : row :=
  each [1; 2; 3; 4; 5; 6; 7; 8; 9; 10; 11; 12; 13; 14; 15; 16; 17; 18; 19; 20; 21; 22; 23; 24; 25;
     26; 27; 28; 29; 30; 31; 32; 33; 34; 35; 36; 37; 38; 39; 40; 41; 42; 43; 44; 45; 46; 47;
     48; 49; 50; 51; 52; 53; 54; 55; 56; 57; 58; 59; 60; 61; 62; 63; 64; 65; 66; 67; 68; 69;
     70; 71; 72; 73; 74; 75; 76; 77; 78; 79; 80; 81; 82; 83; 84; 85; 86; 87; 88; 89; 90; 91;
     92; 93; 94; 95; 96; 97; 98; 99; 100; 101; 102; 103; 104; 105; 106; 107; 108; 109; 110;
     111; 112; 113; 114; 115; 116; 117; 118; 119; 120; 121; 122; 123; 124; 125; 126; 127] IN_SQ_STRING.

Definition msvc_IN_SQ_STRING : row :=
  msvc_IN_SQ_STRING_ascii ++
  each [128; 129; 130; 131; 132; 133; 134; 135; 136; 137; 138; 139; 140; 141; 142; 143; 144; 145;
     146; 147; 148; 149; 150; 151; 152; 153; 154; 155; 156; 157; 158; 159; 160; 161; 162; 163;
     164; 165; 166; 167; 168; 169; 170; 171; 172; 173; 174; 175; 176; 177; 178; 179; 180; 181;
     182; 183; 184; 185; 186; 187; 188; 189; 190; 191; 194; 195; 196; 197; 198; 199; 200; 201;
     202; 203; 204; 205; 206; 207; 208; 209; 210; 211; 212; 213; 214; 215; 216; 217; 218; 219;
     220; 221; 222; 223; 224; 225; 226; 227; 228; 229; 230; 231; 232; 233; 234; 235; 236; 237;
     238; 239; 240; 241; 242; 243; 244] IN_SQ_STRING ++
  each [92] IN_SQ_STRING_ESCAPE ++
  each [39] JSON_STRING.

Definition msvc_IN_ZERO : row :=
  TERMINAL_msvc JSON_INTEGER ++
  each [48; 49; 50; 51; 52; 53; 54; 55; 56; 57] IN_ERROR ++
  each [46] IN_MANTISSA.

Definition msvc_IN_DIGITS : row :=
  TERMINAL_msvc JSON_FLOAT ++
  each [48; 49; 50; 51; 52; 53; 54; 55; 56; 57] IN_DIGITS.

Definition msvc_IN_DIGIT : row :=
  each [48; 49; 50; 51; 52; 53; 54; 55; 56; 57] IN_DIGITS.

Definition msvc_IN_EXP_E : row :=
  each [45; 43] IN_DIGIT ++
  each [48; 49; 50; 51; 52; 53; 54; 55; 56; 57] IN_DIGITS.

Definition msvc_IN_MANTISSA_DIGITS : row :=
  TERMINAL_msvc JSON_FLOAT ++
  each [48; 49; 50; 51; 52; 53; 54; 55; 56; 57] IN_MANTISSA_DIGITS ++
  each [101; 69] IN_EXP_E.

Definition msvc_IN_MANTISSA : row :=
  each [48; 49; 50; 51; 52; 53; 54; 55; 56; 57] IN_MANTISSA_DIGITS.

Definition msvc_IN_NONZERO_NUMBER : row :=
  TERMINAL_msvc JSON_INTEGER ++
  each [48; 49; 50; 51; 52; 53; 54; 55; 56; 57] IN_NONZERO_NUMBER ++
  each [101; 69] IN_EXP_E ++
  each [46] IN_MANTISSA.

Definition msvc_IN_NEG_NONZERO_NUMBER : row :=
  each [48] IN_ZERO ++
  each [49; 50; 51; 52; 53; 54; 55; 56; 57] IN_NONZERO_NUMBER.

Definition msvc_IN_KEYWORD : row :=
  TERMINAL_msvc JSON_KEYWORD ++
  each [97; 98; 99; 100; 101; 102; 103; 104; 105; 106; 107; 108; 109; 110; 111; 112; 113; 114;
     115; 116; 117; 118; 119; 120; 121; 122] IN_KEYWORD.

Definition msvc_IN_WHITESPACE : row :=
  TERMINAL_msvc JSON_SKIP ++
  each [32; 9; 13; 10] IN_WHITESPACE.

Definition msvc_IN_ESCAPE_LL : row :=
  each [100] JSON_ESCAPE.

Definition msvc_IN_ESCAPE_L : row :=
  each [100] JSON_ESCAPE ++
  each [108] IN_ESCAPE_LL.

Definition msvc_IN_ESCAPE_I64 : row :=
  each [100] JSON_ESCAPE.

Definition msvc_IN_ESCAPE_I6 : row :=
  each [52] IN_ESCAPE_I64.

Definition msvc_IN_ESCAPE_I : row :=
  each [54] IN_ESCAPE_I6.

Definition msvc_IN_ESCAPE : row :=
  each [100; 105; 112; 115; 102] JSON_ESCAPE ++
  each [108] IN_ESCAPE_L ++
  each [73] IN_ESCAPE_I.

Definition msvc_IN_START : row :=
  each [34] IN_DQ_STRING ++
  each [39] IN_SQ_STRING ++
  each [48] IN_ZERO ++
  each [49; 50; 51; 52; 53; 54; 55; 56; 57] IN_NONZERO_NUMBER ++
  each [45] IN_NEG_NONZERO_NUMBER ++
  each [123; 125; 91; 93; 44; 58] JSON_OPERATOR ++
  each [97; 98; 99; 100; 101; 102; 103; 104; 105; 106; 107; 108; 109; 110; 111; 112; 113; 114;
     115; 116; 117; 118; 119; 120; 121; 122] IN_KEYWORD ++
  each [37] IN_ESCAPE ++
  each [32; 9; 13; 10] IN_WHITESPACE.

Definition json_lexer_msvc : list (Z * row) :=
  [(IN_DQ_UCODE3, msvc_IN_DQ_UCODE3);
   (IN_DQ_UCODE2, msvc_IN_DQ_UCODE2);
   (IN_DQ_UCODE1, msvc_IN_DQ_UCODE1);
   (IN_DQ_UCODE0, msvc_IN_DQ_UCODE0);
   (IN_DQ_STRING_ESCAPE, msvc_IN_DQ_STRING_ESCAPE);
   (IN_DQ_STRING, msvc_IN_DQ_STRING);
   (IN_SQ_UCODE3, msvc_IN_SQ_UCODE3);
   (IN_SQ_UCODE2, msvc_IN_SQ_UCODE2);
   (IN_SQ_UCODE1, msvc_IN_SQ_UCODE1);
   (IN_SQ_UCODE0, msvc_IN_SQ_UCODE0);
   (IN_SQ_STRING_ESCAPE, msvc_IN_SQ_STRING_ESCAPE);
   (IN_SQ_STRING, msvc_IN_SQ_STRING);
   (IN_ZERO, msvc_IN_ZERO);
   (IN_DIGITS, msvc_IN_DIGITS);
   (IN_DIGIT, msvc_IN_DIGIT);
   (IN_EXP_E, msvc_IN_EXP_E);
   (IN_MANTISSA_DIGITS, msvc_IN_MANTISSA_DIGITS);
   (IN_MANTISSA, msvc_IN_MANTISSA);
   (IN_NONZERO_NUMBER, msvc_IN_NONZERO_NUMBER);
   (IN_NEG_NONZERO_NUMBER, msvc_IN_NEG_NONZERO_NUMBER);
   (IN_KEYWORD, msvc_IN_KEYWORD);
   (IN_WHITESPACE, msvc_IN_WHITESPACE);
   (IN_ESCAPE_LL, msvc_IN_ESCAPE_LL);
   (IN_ESCAPE_L, msvc_IN_ESCAPE_L);
   (IN_ESCAPE_I64, msvc_IN_ESCAPE_I64);
   (IN_ESCAPE_I6, msvc_IN_ESCAPE_I6);
   (IN_ESCAPE_I, msvc_IN_ESCAPE_I);
   (IN_ESCAPE, msvc_IN_ESCAPE);
   (IN_START, msvc_IN_START)].


(** The table the build uses *)
Definition json_lexer (state c : Z) : Z := table_get json_lexer_msvc state c.

(** [TERMINAL_NEEDED_LOOKAHEAD(old_state, terminal)] *)
Definition TERMINAL_NEEDED_LOOKAHEAD (old_state terminal : Z) : bool :=
  json_lexer old_state 0 =? terminal.

(** ** Checking the finite table by computation *)

Definition all_bytes : list Z := seqZ 0 256.
Definition all_states : list Z := seqZ 0 30.

Lemma forall_byte (P : Z -> bool) :
  forallb P all_bytes = true -> forall c, 0 <= c < 256 -> P c = true.
Proof.
  intros H c Hc. rewrite forallb_forall in H. apply H, list_elem_of_In, elem_of_seqZ. lia.
Qed.

Lemma forall_state_byte (P : Z -> Z -> bool) :
  forallb (fun st => forallb (P st) all_bytes) all_states = true ->
  forall st c, 0 <= st < 30 -> 0 <= c < 256 -> P st c = true.
Proof.
  intros H st c Hst Hc. rewrite forallb_forall in H. apply (forall_byte (P st)); [| done].
  apply H, list_elem_of_In, elem_of_seqZ. lia.
Qed.

(** ** Properties *)

(** The hand-expanded table for MSVC and the range table for GCC give the
    same transition for every state and every byte. *)
Theorem json_lexer_tables_agree (st c : Z) :
  0 <= st < 30 -> 0 <= c < 256 ->
  table_get json_lexer_msvc st c = table_get json_lexer_gcc st c.
Proof.
  intros Hst Hc. apply Z.eqb_eq.
  apply (forall_state_byte (fun st c =>
    table_get json_lexer_msvc st c =? table_get json_lexer_gcc st c)); [| done..].
  vm_compute. reflexivity.
Qed.

Lemma json_lexer_tables_agree_witness :
  table_get json_lexer_msvc IN_DQ_STRING 0xC2 = table_get json_lexer_gcc IN_DQ_STRING 0xC2.
Proof. apply json_lexer_tables_agree; vm_compute; split; congruence. Defined.
