(* ===== verification/JsonLexer.v ===== *)
(** * The JSON lexer and message streamer (qemu/json-lexer.c, qemu/json-streamer.c)

    [JSONLexer] is fed byte by byte and calls its [emit] callback for each
    token; here the calls are collected in order as a list of [Token]s.  The
    callback of the message parser, [json_message_process_token], does not
    touch the lexer, so running it over the collected tokens is what the
    interleaved calls do.  [JSONMessageParser] groups tokens into balanced
    messages; each call of its own [emit] callback is recorded, [None]
    standing for the NULL token list of a lexical error.  The positions [x] and
    [y], which only decorate tokens, are unbounded integers here.

    Theorems: feeding bytes and flushing always terminate in a proper state,
    with exact bracket counts and bounded buffers, and messages are emitted
    exactly when they become balanced; cutting the input differently changes
    nothing; a byte foreign to UTF-8 resynchronises the stream; escapes of
    single-quoted strings are mishandled by the table. *)

From Stdlib Require Import ZArith Lia.
From stdpp Require Import base option numbers list.
From S2P Require Import Prelude JsonLexTable.

Create HintDb jsonlex discriminated.

#[global] Arguments json_lexer : simpl never.
#[global] Arguments TERMINAL_NEEDED_LOOKAHEAD : simpl never.

Local Open Scope Z_scope.

(** ** The lexer *)

Definition MAX_TOKEN_SIZE : Z := Z.shiftl 64 20.

Record Token := mkToken { tok_type : Z; tok_str : list Z; tok_x : Z; tok_y : Z }.

Record JSONLexer := mkLexer { lx_state : Z; lx_token : list Z; lx_x : Z; lx_y : Z }.

Definition json_lexer_init : JSONLexer := mkLexer IN_START [] 0 0.

Definition emit_token (lexer : JSONLexer) (type : Z) : Token :=
  mkToken type lexer.(lx_token) lexer.(lx_x) lexer.(lx_y).

(** [QDECREF(lexer->token); lexer->token = qstring_new(); state = IN_START] *)
Definition lexer_restart (lexer : JSONLexer) : JSONLexer :=
  mkLexer IN_START [] lexer.(lx_x) lexer.(lx_y).

(** The states of the [switch] that emit a token *)
Definition emits (new_state : Z) : bool :=
  (new_state =? JSON_OPERATOR) || (new_state =? JSON_ESCAPE) || (new_state =? JSON_INTEGER)
  || (new_state =? JSON_FLOAT) || (new_state =? JSON_KEYWORD) || (new_state =? JSON_STRING).

(** The [do ... while (!char_consumed && !flush)] loop.  The boolean of the
    result says that the error case returned from the function; [None] is
    running out of fuel. *)
Fixpoint feed_char_loop (fuel : nat) (lexer : JSONLexer) (ch : Z) (flush : bool)
  : option (JSONLexer * list Token * bool) :=
  match fuel with
  | O => None
  | S fuel =>
      let new_state := json_lexer lexer.(lx_state) ch in
      let char_consumed := negb (TERMINAL_NEEDED_LOOKAHEAD lexer.(lx_state) new_state) in
      let lexer :=
        if char_consumed
        then mkLexer lexer.(lx_state) (lexer.(lx_token) ++ [ch]) lexer.(lx_x) lexer.(lx_y)
        else lexer in
      if new_state =? IN_ERROR then
        Some (lexer_restart lexer, [emit_token lexer JSON_ERROR], true)
      else
        let '(lexer, out) :=
          if emits new_state then (lexer_restart lexer, [emit_token lexer new_state])
          else if new_state =? JSON_SKIP then (lexer_restart lexer, [])
          else (mkLexer new_state lexer.(lx_token) lexer.(lx_x) lexer.(lx_y), []) in
        if negb char_consumed && negb flush then
          '(lexer, out', returned) ← feed_char_loop fuel lexer ch flush;
          Some (lexer, out ++ out', returned)
        else Some (lexer, out, false)
  end.

(** Two iterations are enough: after a look-ahead the lexer is in [IN_START],
    where every byte is consumed or an error. *)
Definition json_lexer_feed_char (lexer : JSONLexer) (ch : Z) (flush : bool)
  : option (JSONLexer * list Token) :=
  let lexer :=
    if ch =? 10 then mkLexer lexer.(lx_state) lexer.(lx_token) 0 (lexer.(lx_y) + 1)
    else mkLexer lexer.(lx_state) lexer.(lx_token) (lexer.(lx_x) + 1) lexer.(lx_y) in
  '(lexer, out, returned) ← feed_char_loop 2 lexer ch flush;
  if returned : bool then Some (lexer, out)
  else if MAX_TOKEN_SIZE <? Z.of_nat (length lexer.(lx_token))
  then Some (lexer_restart lexer, out ++ [emit_token lexer lexer.(lx_state)])
  else Some (lexer, out).

Fixpoint json_lexer_feed (lexer : JSONLexer) (buffer : list Z)
  : option (JSONLexer * list Token) :=
  match buffer with
  | [] => Some (lexer, [])
  | c :: buffer =>
      '(lexer, out1) ← json_lexer_feed_char lexer c false;
      '(lexer, out2) ← json_lexer_feed lexer buffer;
      Some (lexer, out1 ++ out2)
  end.

Definition json_lexer_flush (lexer : JSONLexer) : option (JSONLexer * list Token) :=
  if lexer.(lx_state) =? IN_START then Some (lexer, [])
  else json_lexer_feed_char lexer 0 true.

(** ** The message streamer *)

Definition MAX_NESTING : Z := Z.shiftl 1 10.

Record JSONMessageParser := mkParser {
  mp_lexer : JSONLexer;
  mp_brace_count : Z;
  mp_bracket_count : Z;
  mp_tokens : list Token;
  mp_token_size : Z
}.

(** The message counters of the parser, what [json_message_process_token]
    updates *)
Definition json_message_parser_init : JSONMessageParser :=
  mkParser json_lexer_init 0 0 [] 0.

(** The counters after an operator token, by its first byte *)
Definition count_operator (c brace bracket : Z) : Z * Z :=
  if c =? 123 (* { *) then (brace + 1, bracket)
  else if c =? 125 (* } *) then (brace - 1, bracket)
  else if c =? 91 (* [ *) then (brace, bracket + 1)
  else if c =? 93 (* ] *) then (brace, bracket - 1)
  else (brace, bracket).

(** Returns the parser and the token list handed to [parser->emit], if any. *)
Definition json_message_process_token (parser : JSONMessageParser) (token : Token)
  : JSONMessageParser * list (option (list Token)) :=
  let '(brace, bracket) :=
    if token.(tok_type) =? JSON_OPERATOR
    then count_operator (default 0 (head token.(tok_str)))
           parser.(mp_brace_count) parser.(mp_bracket_count)
    else (parser.(mp_brace_count), parser.(mp_bracket_count)) in
  let size := parser.(mp_token_size) + Z.of_nat (length token.(tok_str)) in
  let tokens := parser.(mp_tokens) ++ [token] in
  let reset := mkParser parser.(mp_lexer) 0 0 [] 0 in
  if token.(tok_type) =? JSON_ERROR then (reset, [None])
  else if (brace <? 0) || (bracket <? 0) || ((brace =? 0) && (bracket =? 0))
  then (reset, [Some tokens])
  else if (MAX_TOKEN_SIZE <? size) || (MAX_NESTING <? bracket) || (MAX_NESTING <? brace)
  then (reset, [Some tokens])
  else (mkParser parser.(mp_lexer) brace bracket tokens size, []).

Fixpoint process_tokens (parser : JSONMessageParser) (ts : list Token)
  : JSONMessageParser * list (option (list Token)) :=
  match ts with
  | [] => (parser, [])
  | t :: ts =>
      let '(parser, out1) := json_message_process_token parser t in
      let '(parser, out2) := process_tokens parser ts in
      (parser, out1 ++ out2)
  end.

Definition set_lexer (lexer : JSONLexer) (p : JSONMessageParser) : JSONMessageParser :=
  mkParser lexer p.(mp_brace_count) p.(mp_bracket_count) p.(mp_tokens) p.(mp_token_size).

Definition json_message_parser_feed (parser : JSONMessageParser) (buffer : list Z)
  : option (JSONMessageParser * list (option (list Token))) :=
  '(lexer, ts) ← json_lexer_feed parser.(mp_lexer) buffer;
  Some (process_tokens (set_lexer lexer parser) ts).

Definition json_message_parser_flush (parser : JSONMessageParser)
  : option (JSONMessageParser * list (option (list Token))) :=
  '(lexer, ts) ← json_lexer_flush parser.(mp_lexer);
  Some (process_tokens (set_lexer lexer parser) ts).

(** ** The lexer: every byte is handled within two iterations *)

Definition is_state (st : Z) : Prop := 0 < st < 30.

(** In [IN_START], and only there, no byte of a token is buffered; the buffer
    is bounded. *)
Record lexer_wf (lexer : JSONLexer) : Prop := {
  lexer_wf_state : is_state lexer.(lx_state);
  lexer_wf_start : lexer.(lx_state) = IN_START <-> lexer.(lx_token) = [];
  lexer_wf_size : Z.of_nat (length lexer.(lx_token)) <= MAX_TOKEN_SIZE
}.

(** A token as [json_message_process_token] gets it: one of the token types,
    or an oversized token cut off in the state the lexer was in; all but errors
    have a byte at least. *)
Definition token_ok (t : Token) : Prop :=
  (JSON_OPERATOR <= t.(tok_type) <= JSON_ERROR /\ t.(tok_type) <> JSON_SKIP
   \/ is_state t.(tok_type) /\ Z.of_nat (length t.(tok_str)) = MAX_TOKEN_SIZE + 1)
  /\ (t.(tok_type) <> JSON_ERROR -> t.(tok_str) <> []).

(** What the table can lead to: an error, a proper state other than
    [IN_START], or a terminal *)
Definition target_ok (ns : Z) : bool :=
  (ns =? IN_ERROR) || ((0 <? ns) && (ns <? IN_START))
  || ((JSON_OPERATOR <=? ns) && (ns <=? JSON_SKIP)).

Definition terminal (ns : Z) : bool := emits ns || (ns =? JSON_SKIP).

(** The facts about the table the lexer depends on, for one state and byte *)
Definition table_check (st c : Z) : bool :=
  let ns := json_lexer st c in
  target_ok ns
  && (negb (TERMINAL_NEEDED_LOOKAHEAD st ns) || (ns =? IN_ERROR) || terminal ns)
  && (negb ((JSON_OPERATOR <=? ns) && (ns <=? JSON_SKIP)) || terminal ns)
  && (negb (TERMINAL_NEEDED_LOOKAHEAD IN_START (json_lexer IN_START c))
      || (json_lexer IN_START c =? IN_ERROR)).

Lemma table_facts (st c : Z) :
  0 <= st < 30 -> 0 <= c < 256 -> table_check st c = true.
Proof. apply forall_state_byte. vm_compute. reflexivity. Qed.

Lemma target_cases (st c : Z) :
  0 <= st < 30 -> 0 <= c < 256 ->
  json_lexer st c = IN_ERROR
  \/ 0 < json_lexer st c < IN_START /\ TERMINAL_NEEDED_LOOKAHEAD st (json_lexer st c) = false
  \/ terminal (json_lexer st c) = true /\ JSON_OPERATOR <= json_lexer st c <= JSON_SKIP.
Proof.
  intros Hst Hc. pose proof (table_facts st c Hst Hc) as Hf.
  unfold table_check, target_ok in Hf.
  rewrite !andb_true_iff, !orb_true_iff, !andb_true_iff, !negb_true_iff, andb_false_iff,
    !Z.eqb_eq, !Z.ltb_lt, !Z.leb_le, !Z.leb_gt in Hf.
  destruct Hf as [[[[[Hns | Hns] | Hns] Hla] Hterm] _].
  - by left.
  - right; left. split; [done |]. destruct Hla as [[Hla | Hla] | Hla]; [done | |].
    + unfold IN_ERROR in Hla. lia.
    + exfalso. unfold terminal, emits in Hla.
      rewrite !orb_true_iff, !Z.eqb_eq in Hla.
      unfold IN_START, JSON_OPERATOR, JSON_ESCAPE, JSON_INTEGER, JSON_FLOAT, JSON_KEYWORD,
        JSON_STRING, JSON_SKIP in *. lia.
  - right; right. split; [| done]. destruct Hterm as [[Ht | Ht] | Ht]; [lia.. | done].
Qed.

Lemma start_no_lookahead (c : Z) :
  0 <= c < 256 -> json_lexer IN_START c <> IN_ERROR ->
  TERMINAL_NEEDED_LOOKAHEAD IN_START (json_lexer IN_START c) = false.
Proof.
  intros Hc Hne. pose proof (table_facts 0 c ltac:(lia) Hc) as Hf. unfold table_check in Hf.
  rewrite !andb_true_iff, !orb_true_iff, !negb_true_iff, !Z.eqb_eq in Hf.
  destruct Hf as [_ [? | ?]]; done.
Qed.

(** *** One iteration of the loop, by the kind of transition *)

Definition push_char (lexer : JSONLexer) (ch : Z) : JSONLexer :=
  mkLexer lexer.(lx_state) (lexer.(lx_token) ++ [ch]) lexer.(lx_x) lexer.(lx_y).

(** The tokens a terminal state emits *)
Definition terminal_out (lexer : JSONLexer) (ns : Z) : list Token :=
  if emits ns then [emit_token lexer ns] else [].

Section Loop.
Context (n : nat) (lexer : JSONLexer) (ch : Z) (flush : bool).
Local Abbreviation ns := (json_lexer lexer.(lx_state) ch).
Local Abbreviation look := (TERMINAL_NEEDED_LOOKAHEAD lexer.(lx_state) ns).

Lemma loop_error :
  ns = IN_ERROR ->
  exists str, feed_char_loop (S n) lexer ch flush =
    Some (lexer_restart lexer,
          [mkToken JSON_ERROR str lexer.(lx_x) lexer.(lx_y)], true).
Proof.
  intros Hns. cbn [feed_char_loop]. rewrite Hns.
  destruct (TERMINAL_NEEDED_LOOKAHEAD _ _); eexists; reflexivity.
Qed.

Lemma loop_move :
  0 < ns < IN_START -> look = false ->
  feed_char_loop (S n) lexer ch flush =
    Some (mkLexer ns (lexer.(lx_token) ++ [ch]) lexer.(lx_x) lexer.(lx_y), [], false).
Proof.
  unfold IN_START. intros Hns Hl. cbn [feed_char_loop]. rewrite Hl. cbn [negb andb].
  unfold emits, IN_ERROR, JSON_OPERATOR, JSON_ESCAPE, JSON_INTEGER, JSON_FLOAT, JSON_KEYWORD,
    JSON_STRING, JSON_SKIP.
  case_cmp; first [lia | reflexivity].
Qed.

Lemma loop_terminal :
  terminal ns = true -> ns <> IN_ERROR -> look = false ->
  feed_char_loop (S n) lexer ch flush =
    Some (lexer_restart lexer, terminal_out (push_char lexer ch) ns, false).
Proof.
  unfold terminal, terminal_out. intros Ht Hne Hl. cbn [feed_char_loop]. rewrite Hl.
  destruct (Z.eqb_spec ns IN_ERROR); [done |]. cbn [negb andb].
  destruct (emits ns); [done |]. rewrite orb_false_l in Ht. by rewrite Ht.
Qed.

Lemma loop_lookahead :
  terminal ns = true -> ns <> IN_ERROR -> look = true ->
  feed_char_loop (S n) lexer ch flush =
    if flush then Some (lexer_restart lexer, terminal_out lexer ns, false)
    else '(l, out, r) ← feed_char_loop n (lexer_restart lexer) ch flush;
         Some (l, terminal_out lexer ns ++ out, r).
Proof.
  unfold terminal, terminal_out. intros Ht Hne Hl. cbn [feed_char_loop]. rewrite Hl.
  destruct (Z.eqb_spec ns IN_ERROR); [done |]. cbn [negb andb].
  destruct (emits ns); [by destruct flush |]. rewrite orb_false_l in Ht. rewrite Ht. by destruct flush.
Qed.
End Loop.

Lemma terminal_out_ok (lexer : JSONLexer) (ns : Z) :
  terminal ns = true -> JSON_OPERATOR <= ns <= JSON_SKIP -> lexer.(lx_token) <> [] ->
  Forall token_ok (terminal_out lexer ns).
Proof.
  unfold terminal, terminal_out. intros Ht Hns Htok. destruct (emits ns) eqn:He; [| done].
  apply Forall_singleton. split; [| done]. left. split; [cbn; unfold JSON_SKIP, JSON_ERROR in *; lia |].
  intros Hs. cbn in Hs. by rewrite Hs in He.
Qed.

Lemma push_char_token (lexer : JSONLexer) (ch : Z) : (push_char lexer ch).(lx_token) <> [].
Proof. cbn. by destruct (lx_token lexer). Qed.

(** A look-ahead ends a token that was begun. *)
Lemma lookahead_token (lexer : JSONLexer) (ch : Z) :
  lexer_wf lexer -> 0 <= ch < 256 -> json_lexer lexer.(lx_state) ch <> IN_ERROR ->
  TERMINAL_NEEDED_LOOKAHEAD lexer.(lx_state) (json_lexer lexer.(lx_state) ch) = true -> lexer.(lx_token) <> [].
Proof.
  intros [_ Hs _] Hc Hne Hl Hnil. apply Hs in Hnil. rewrite Hnil in *. by rewrite start_no_lookahead in Hl.
Qed.

Lemma restart_wf (lexer : JSONLexer) : lexer_wf (lexer_restart lexer).
Proof. by split. Qed.
#[export] Hint Resolve restart_wf terminal_out_ok push_char_token : jsonlex.

(** The result of the loop is a proper lexer, up to the size check that
    follows it. *)
Definition loop_ok (r : option (JSONLexer * list Token * bool)) : Prop :=
  exists l out ret, r = Some (l, out, ret) /\ Forall token_ok out
  /\ is_state l.(lx_state)
  /\ (l.(lx_state) = IN_START <-> l.(lx_token) = [])
  /\ Z.of_nat (length l.(lx_token)) <= MAX_TOKEN_SIZE + 1
  /\ (ret = true -> l.(lx_token) = []).

Lemma restart_loop_ok (lexer : JSONLexer) (out : list Token) (ret : bool) :
  Forall token_ok out -> loop_ok (Some (lexer_restart lexer, out, ret)).
Proof. intros Hout. exists (lexer_restart lexer), out, ret. by split_and!. Qed.

(** One iteration when no look-ahead is needed *)
Lemma loop_step_ok (n : nat) (lexer : JSONLexer) (ch : Z) (flush : bool) :
  lexer_wf lexer -> 0 <= ch < 256 ->
  (terminal (json_lexer lexer.(lx_state) ch) = true ->
   json_lexer lexer.(lx_state) ch <> IN_ERROR ->
   TERMINAL_NEEDED_LOOKAHEAD lexer.(lx_state) (json_lexer lexer.(lx_state) ch) = false
   \/ flush = true) ->
  loop_ok (feed_char_loop (S n) lexer ch flush).
Proof.
  intros Hwf Hc Hla. pose proof Hwf as [[? ?] Hs Hsz].
  destruct (target_cases lexer.(lx_state) ch) as [He | [[Hm Hl] | [Ht Hr]]]; [lia | lia | ..].
  - destruct (loop_error n lexer ch flush He) as [str ->]. apply restart_loop_ok.
    apply Forall_singleton. split; [left; cbn | done]. split; [| done].
    unfold JSON_OPERATOR, JSON_ERROR. lia.
  - rewrite loop_move by done. eexists _, _, _. split; [done |]. split; [constructor |].
    unfold is_state, IN_START in *. cbn. rewrite length_app. cbn.
    split; [lia |]. split; [split; [lia | by destruct (lx_token lexer)] |]. split; [lia | done].
  - assert (json_lexer lexer.(lx_state) ch <> IN_ERROR) as Hne
      by (unfold JSON_OPERATOR, IN_ERROR in *; lia).
    destruct (TERMINAL_NEEDED_LOOKAHEAD lexer.(lx_state) (json_lexer lexer.(lx_state) ch)) eqn:Hl.
    + destruct (Hla Ht Hne) as [? | ->]; [done |]. rewrite loop_lookahead by done.
      apply restart_loop_ok. apply terminal_out_ok; [done | done |]. by apply (lookahead_token lexer ch).
    + rewrite loop_terminal by done. apply restart_loop_ok. auto with jsonlex.
Qed.

(** Two iterations are enough. *)
Lemma loop_total (lexer : JSONLexer) (ch : Z) (flush : bool) :
  lexer_wf lexer -> 0 <= ch < 256 -> loop_ok (feed_char_loop 2 lexer ch flush).
Proof.
  intros Hwf Hc. set (ns := json_lexer lexer.(lx_state) ch).
  destruct (terminal ns) eqn:Ht; [| apply loop_step_ok; [done.. | by fold ns; rewrite Ht]].
  destruct (Z.eqb_spec ns IN_ERROR) as [? | Hne]; [by apply loop_step_ok |].
  destruct (TERMINAL_NEEDED_LOOKAHEAD lexer.(lx_state) ns) eqn:Hl; [| apply loop_step_ok; auto].
  destruct flush; [apply loop_step_ok; auto |].
  pose proof Hwf as [[? ?] _ _].
  destruct (target_cases lexer.(lx_state) ch) as [? | [[? ?] | [_ Hr]]]; [lia | lia | done | subst ns; congruence |].
  rewrite loop_lookahead by done.
  destruct (loop_step_ok 0 (lexer_restart lexer) ch false) as (l & out & ret & -> & Hout & Hrest);
    [auto with jsonlex | done | intros _ Hne'; left; by apply start_no_lookahead |].
  eexists _, _, _. split_and!; [done | | apply Hrest..]. apply Forall_app; split; [| done].
  apply terminal_out_ok; [done | done |]. by apply (lookahead_token lexer ch).
Qed.

Lemma feed_char_total (lexer : JSONLexer) (ch : Z) (flush : bool) :
  lexer_wf lexer -> 0 <= ch < 256 ->
  exists l out, json_lexer_feed_char lexer ch flush = Some (l, out)
  /\ lexer_wf l /\ Forall token_ok out.
Proof.
  intros Hwf Hc. unfold json_lexer_feed_char. set (lexer' := if ch =? 10 then _ else _).
  assert (lexer_wf lexer') as Hwf' by (subst lexer'; destruct Hwf; by destruct (ch =? 10)).
  destruct (loop_total lexer' ch flush Hwf' Hc) as (l & out & ret & -> & Hout & Hst & Hs & Hsz & Hret).
  cbn. destruct ret.
  - exists l, out. split_and!; [done | | done]. split; [done.. |]. by rewrite (Hret eq_refl).
  - destruct (Z.ltb_spec MAX_TOKEN_SIZE (Z.of_nat (length l.(lx_token)))).
    + eexists _, _. split_and!; [done | apply restart_wf |]. apply Forall_app; split; [done |].
      apply Forall_singleton. split; [right; cbn; split; [done | lia] |]. intros _. cbn.
      intros Hnil. rewrite Hnil in *. by vm_compute in H.
    + eexists _, _. split_and!; [done | by split | done].
Qed.

Lemma lexer_feed_total (buffer : list Z) : forall lexer : JSONLexer,
  lexer_wf lexer -> Forall byte_wf buffer ->
  exists l out, json_lexer_feed lexer buffer = Some (l, out)
  /\ lexer_wf l /\ Forall token_ok out.
Proof.
  induction buffer as [| c buffer IH]; intros lexer Hwf Hb; cbn [json_lexer_feed].
  { exists lexer, []. by split_and!. }
  apply Forall_cons_1 in Hb as [Hc Hb].
  destruct (feed_char_total lexer c false Hwf Hc) as (l1 & out1 & -> & Hwf1 & Hout1).
  destruct (IH l1 Hwf1 Hb) as (l2 & out2 & Heq & Hwf2 & Hout2). cbn. rewrite Heq. cbn.
  eexists _, _. split_and!; [done.. |]. by apply Forall_app.
Qed.

Lemma lexer_flush_total (lexer : JSONLexer) :
  lexer_wf lexer ->
  exists l out, json_lexer_flush lexer = Some (l, out)
  /\ l.(lx_state) = IN_START /\ l.(lx_token) = [] /\ Forall token_ok out.
Proof.
  intros [[? ?] Hs Hsz]. unfold json_lexer_flush.
  destruct (Z.eqb_spec lexer.(lx_state) IN_START) as [Hst |].
  { exists lexer, []. split_and!; [done.. | tauto | constructor]. }
  unfold json_lexer_feed_char. rewrite Z.eqb_sym. cbn [Z.eqb].
  set (l0 := mkLexer _ _ _ _).
  destruct (target_cases lexer.(lx_state) 0) as [He | [[Hm Hl] | [Ht Hr]]]; [lia | lia | ..].
  - destruct (loop_error 1 l0 0 true He) as [str ->]. eexists _, _.
    split_and!; [done.. |]. apply Forall_singleton. split; [left; cbn | done].
    unfold JSON_OPERATOR, JSON_ERROR. split; [lia | done].
  - unfold TERMINAL_NEEDED_LOOKAHEAD in Hl. by rewrite Z.eqb_refl in Hl.
  - rewrite (loop_lookahead 1 l0 0 true); [| done | | apply Z.eqb_refl].
    + eexists _, _. split_and!; [done.. |]. apply terminal_out_ok; [done | done |]. cbn. tauto.
    + unfold JSON_OPERATOR, IN_ERROR, l0 in *. cbn. lia.
Qed.

(** ** The streamer *)

Definition op_effect (t : Token) (b : Z * Z) : Z * Z :=
  if t.(tok_type) =? JSON_OPERATOR
  then count_operator (default 0 (head t.(tok_str))) b.1 b.2 else b.

(** Braces and brackets left open by a token sequence *)
Definition open_counts (ts : list Token) : Z * Z := foldl (fun b t => op_effect t b) (0, 0) ts.

Definition tokens_size (ts : list Token) : Z :=
  foldr (fun t n => Z.of_nat (length t.(tok_str)) + n) 0 ts.

(** The counters are those of the buffered tokens, and both limits hold; every
    non-empty prefix of the buffer leaves something open. *)
Record stream_wf (p : JSONMessageParser) : Prop := {
  stream_wf_counts : (p.(mp_brace_count), p.(mp_bracket_count)) = open_counts p.(mp_tokens);
  stream_wf_size : p.(mp_token_size) = tokens_size p.(mp_tokens);
  stream_wf_max : p.(mp_token_size) <= MAX_TOKEN_SIZE;
  stream_wf_brace : 0 <= p.(mp_brace_count) <= MAX_NESTING;
  stream_wf_bracket : 0 <= p.(mp_bracket_count) <= MAX_NESTING;
  stream_wf_noerr : Forall (fun t => t.(tok_type) <> JSON_ERROR) p.(mp_tokens);
  stream_wf_prefix : forall pre suf,
    p.(mp_tokens) = pre ++ suf -> pre <> [] -> open_counts pre <> (0, 0)
}.

(** A message handed to [parser->emit]: a lexical error, a sequence that is
    balanced at its end and not before, or one that closes too much or
    exceeds a limit. *)
Definition message_ok (m : option (list Token)) : Prop :=
  match m with
  | None => True
  | Some ts =>
      ts <> [] /\ Forall (fun t => t.(tok_type) <> JSON_ERROR) ts
      /\ (forall pre suf, ts = pre ++ suf -> pre <> [] -> suf <> [] ->
            open_counts pre <> (0, 0))
      /\ let '(brace, bracket) := open_counts ts in
         brace < 0 \/ bracket < 0 \/ (brace = 0 /\ bracket = 0)
         \/ MAX_TOKEN_SIZE < tokens_size ts \/ MAX_NESTING < bracket \/ MAX_NESTING < brace
  end.

Lemma open_counts_snoc (ts : list Token) (t : Token) :
  open_counts (ts ++ [t]) = op_effect t (open_counts ts).
Proof. unfold open_counts. by rewrite foldl_app. Qed.

Lemma tokens_size_snoc (ts : list Token) (t : Token) :
  tokens_size (ts ++ [t]) = tokens_size ts + Z.of_nat (length t.(tok_str)).
Proof. unfold tokens_size. induction ts; cbn in *; lia. Qed.

Lemma empty_stream_wf (lexer : JSONLexer) : stream_wf (mkParser lexer 0 0 [] 0).
Proof.
  split; cbn [mp_brace_count mp_bracket_count mp_tokens mp_token_size];
    [done | done | done | by_eval | by_eval | constructor |].
  intros pre suf Heq Hne. symmetry in Heq. by apply app_nil in Heq as [-> _].
Qed.

Lemma process_token_ok (p : JSONMessageParser) (t : Token) :
  stream_wf p ->
  stream_wf (json_message_process_token p t).1
  /\ Forall message_ok (json_message_process_token p t).2
  /\ mp_lexer (json_message_process_token p t).1 = p.(mp_lexer).
Proof.
  intros [Hc Hs Hmax Hbr Hbk Hne Hpre]. unfold json_message_process_token.
  set (counts := if _ =? JSON_OPERATOR then _ else _).
  assert (counts = open_counts (p.(mp_tokens) ++ [t])) as Hcounts
    by (rewrite open_counts_snoc, <- Hc; subst counts; unfold op_effect; cbn; by case_match).
  clearbody counts. destruct counts as [brace bracket].
  destruct (Z.eqb_spec t.(tok_type) JSON_ERROR) as [| Hnerr].
  { split; [apply empty_stream_wf |]. split; [by apply Forall_singleton | done]. }
  assert (Forall (fun t => t.(tok_type) <> JSON_ERROR) (p.(mp_tokens) ++ [t])) as Hne'
    by (apply Forall_app; split; [done | by apply Forall_singleton]).
  assert (forall pre suf, p.(mp_tokens) ++ [t] = pre ++ suf -> pre <> [] -> suf <> [] ->
            open_counts pre <> (0, 0)) as Hpre'.
  { intros pre suf Heq Hpn Hsn. destruct suf as [| y suf _] using rev_ind; [done |].
    rewrite app_assoc in Heq. apply app_inj_tail in Heq as [Heq _]. eauto. }
  rewrite Hs, <- tokens_size_snoc.
  assert (forall b, b = true ->
    ((brace <? 0) || (bracket <? 0) || ((brace =? 0) && (bracket =? 0)) = b
     \/ (MAX_TOKEN_SIZE <? tokens_size (p.(mp_tokens) ++ [t])) || (MAX_NESTING <? bracket)
        || (MAX_NESTING <? brace) = b) -> message_ok (Some (p.(mp_tokens) ++ [t]))) as Hmsg.
  { intros b -> Hb. split_and!; [by destruct p.(mp_tokens) | done | done |].
    rewrite <- Hcounts. rewrite !orb_true_iff, andb_true_iff, !Z.ltb_lt, !Z.eqb_eq in Hb. tauto. }
  destruct (_ || _ || (_ && _)) eqn:Hbal.
  { split; [apply empty_stream_wf |]. split; [apply Forall_singleton; eauto | done]. }
  destruct (_ || _ || (MAX_NESTING <? brace)) eqn:Hlim.
  { split; [apply empty_stream_wf |]. split; [apply Forall_singleton; eauto | done]. }
  split; [| by split]. rewrite !orb_false_iff, !Z.ltb_ge in *.
  destruct Hbal as [[? ?] Hnz]. apply andb_false_iff in Hnz.
  split; cbn; [done | done | lia | lia | lia | done |].
  intros pre suf Heq Hpn. destruct suf as [| y suf]; [| by eapply Hpre'].
  rewrite app_nil_r in Heq. rewrite <- Heq, <- Hcounts. intros [= -> ->]. by destruct Hnz.
Qed.

Lemma process_tokens_ok (ts : list Token) : forall p : JSONMessageParser,
  stream_wf p ->
  stream_wf (process_tokens p ts).1
  /\ Forall message_ok (process_tokens p ts).2
  /\ mp_lexer (process_tokens p ts).1 = p.(mp_lexer).
Proof.
  induction ts as [| t ts IH]; intros p Hwf; cbn [process_tokens]; [by split_and! |].
  pose proof (process_token_ok p t Hwf) as (Hwf1 & Hout1 & Hlx1).
  destruct (json_message_process_token p t) as [p1 out1]. cbn in *.
  pose proof (IH p1 Hwf1) as (Hwf2 & Hout2 & Hlx2).
  destruct (process_tokens p1 ts) as [p2 out2]. cbn in *.
  split_and!; [done | by apply Forall_app | congruence].
Qed.

Lemma process_tokens_app (ts1 ts2 : list Token) : forall p : JSONMessageParser,
  process_tokens p (ts1 ++ ts2) =
    let '(p1, out1) := process_tokens p ts1 in
    let '(p2, out2) := process_tokens p1 ts2 in (p2, out1 ++ out2).
Proof.
  induction ts1 as [| t ts1 IH]; intros p; cbn [process_tokens app].
  { by destruct (process_tokens p ts2). }
  destruct (json_message_process_token p t) as [p1 out1]. rewrite IH.
  destruct (process_tokens p1 ts1) as [p2 out2].
  destruct (process_tokens p2 ts2) as [p3 out3]. by rewrite app_assoc.
Qed.

Lemma lexer_feed_app (a b : list Z) : forall lexer : JSONLexer,
  json_lexer_feed lexer (a ++ b) =
    ('(l1, o1) ← json_lexer_feed lexer a; '(l2, o2) ← json_lexer_feed l1 b; Some (l2, o1 ++ o2)).
Proof.
  induction a as [| c a IH]; intros lexer; cbn [json_lexer_feed app].
  { cbn. by destruct (json_lexer_feed lexer b) as [[? ?] |]. }
  destruct (json_lexer_feed_char lexer c false) as [[l1 o1] |]; [cbn | done].
  rewrite IH. destruct (json_lexer_feed l1 a) as [[l2 o2] |]; [cbn | done].
  destruct (json_lexer_feed l2 b) as [[l3 o3] |]; [cbn | done]. by rewrite app_assoc.
Qed.

Lemma process_tokens_lexer (lexer : JSONLexer) (ts : list Token) : forall p : JSONMessageParser,
  process_tokens (set_lexer lexer p) ts =
    (set_lexer lexer (process_tokens p ts).1, (process_tokens p ts).2).
Proof.
  induction ts as [| t ts IH]; intros p; cbn [process_tokens]; [done |].
  assert (json_message_process_token (set_lexer lexer p) t =
    (set_lexer lexer (json_message_process_token p t).1, (json_message_process_token p t).2)) as ->.
  { unfold json_message_process_token, set_lexer. cbn.
    destruct (if _ =? JSON_OPERATOR then _ else _) as [b k]. by repeat case_match. }
  destruct (json_message_process_token p t) as [p1 out1]. cbn. rewrite IH.
  by destruct (process_tokens p1 ts).
Qed.

Lemma set_lexer_wf (lexer : JSONLexer) (p : JSONMessageParser) :
  stream_wf p -> stream_wf (set_lexer lexer p).
Proof. intros []. by split. Qed.

(** Bytes that no UTF-8 text contains: 0xC0, 0xC1 and 0xF5 to 0xFF *)
Definition never_in_utf8 (c : Z) : bool :=
  (c =? 0xC0) || (c =? 0xC1) || ((0xF5 <=? c) && (c <=? 0xFF)).

Lemma never_in_utf8_error (st c : Z) :
  0 <= st < 30 -> 0 <= c < 256 -> negb (never_in_utf8 c) || (json_lexer st c =? IN_ERROR) = true.
Proof. apply (forall_state_byte (fun st c => negb (never_in_utf8 c) || (json_lexer st c =? IN_ERROR))).
  vm_compute. reflexivity.
Qed.

Lemma feed_safe (parser : JSONMessageParser) (buffer : list Z) :
  lexer_wf parser.(mp_lexer) -> stream_wf parser -> Forall byte_wf buffer ->
  exists parser' msgs,
    json_message_parser_feed parser buffer = Some (parser', msgs)
    /\ lexer_wf parser'.(mp_lexer) /\ stream_wf parser' /\ Forall message_ok msgs.
Proof.
  intros Hl Hs Hb. unfold json_message_parser_feed.
  destruct (lexer_feed_total buffer _ Hl Hb) as (l & ts & -> & Hl' & _). cbn.
  pose proof (process_tokens_ok ts _ (set_lexer_wf l _ Hs)) as (Hs' & Hm & Hlx).
  destruct (process_tokens _ ts) as [p' msgs]. cbn in *. exists p', msgs.
  split_and!; [done | by rewrite Hlx | done | done].
Qed.

Lemma flush_safe (parser : JSONMessageParser) :
  lexer_wf parser.(mp_lexer) -> stream_wf parser ->
  exists parser' msgs,
    json_message_parser_flush parser = Some (parser', msgs)
    /\ parser'.(mp_lexer).(lx_state) = IN_START /\ parser'.(mp_lexer).(lx_token) = []
    /\ stream_wf parser' /\ Forall message_ok msgs.
Proof.
  intros Hl Hs. unfold json_message_parser_flush.
  destruct (lexer_flush_total _ Hl) as (l & ts & -> & Hst & Htok & _). cbn.
  pose proof (process_tokens_ok ts _ (set_lexer_wf l _ Hs)) as (Hs' & Hm & Hlx).
  destruct (process_tokens _ ts) as [p' msgs]. cbn in *. exists p', msgs.
  split_and!; [done | by rewrite Hlx.. | done | done].
Qed.

(** ** Properties *)

(** C34: feeding bytes to a message parser in a proper state always returns,
    keeps the lexer and the counters in a proper state (brackets counted
    exactly, at most [MAX_NESTING] deep, at most [MAX_TOKEN_SIZE] bytes
    buffered), and every emitted message is a lexical error, a token sequence
    that becomes balanced exactly at its end, or one rejected for a limit or
    for closing too much.  Flushing it then returns as well and leaves the
    lexer at the start of a token with nothing buffered. *)
Theorem json_message_parser_safe (parser : JSONMessageParser) (buffer : list Z) :
  lexer_wf parser.(mp_lexer) -> stream_wf parser -> Forall byte_wf buffer ->
  exists parser1 msgs1 parser2 msgs2,
    json_message_parser_feed parser buffer = Some (parser1, msgs1)
    /\ lexer_wf parser1.(mp_lexer) /\ stream_wf parser1 /\ Forall message_ok msgs1
    /\ json_message_parser_flush parser1 = Some (parser2, msgs2)
    /\ parser2.(mp_lexer).(lx_state) = IN_START /\ parser2.(mp_lexer).(lx_token) = []
    /\ stream_wf parser2 /\ Forall message_ok msgs2.
Proof.
  intros Hl Hs Hb. destruct (feed_safe parser buffer Hl Hs Hb) as (p1 & m1 & Hf & Hl1 & Hs1 & Hm1).
  destruct (flush_safe p1 Hl1 Hs1) as (p2 & m2 & Hfl & Hst & Htok & Hs2 & Hm2).
  exists p1, m1, p2, m2. by split_and!.
Qed.

Lemma json_message_parser_safe_witness :
  exists parser1 msgs1 parser2 msgs2,
    json_message_parser_feed json_message_parser_init [123; 34; 97; 34; 58; 49; 125] =
      Some (parser1, msgs1)
    /\ lexer_wf parser1.(mp_lexer) /\ stream_wf parser1 /\ Forall message_ok msgs1
    /\ json_message_parser_flush parser1 = Some (parser2, msgs2)
    /\ parser2.(mp_lexer).(lx_state) = IN_START /\ parser2.(mp_lexer).(lx_token) = []
    /\ stream_wf parser2 /\ Forall message_ok msgs2.
Proof.
  apply json_message_parser_safe; [apply (restart_wf json_lexer_init) | apply empty_stream_wf |].
  by_eval.
Defined.

(** The messages do not depend on how the input is cut into buffers:
    feeding a concatenation is feeding its parts in order. *)
Theorem json_message_parser_feed_app (parser : JSONMessageParser) (a b : list Z) :
  json_message_parser_feed parser (a ++ b) =
    ('(parser1, msgs1) ← json_message_parser_feed parser a;
     '(parser2, msgs2) ← json_message_parser_feed parser1 b;
     Some (parser2, msgs1 ++ msgs2)).
Proof.
  unfold json_message_parser_feed. rewrite lexer_feed_app.
  destruct (json_lexer_feed parser.(mp_lexer) a) as [[l1 ts1] |]; [cbn | done].
  rewrite (process_tokens_lexer l1 ts1). cbn.
  destruct (json_lexer_feed l1 b) as [[l2 ts2] |]; [cbn | done].
  rewrite process_tokens_lexer, process_tokens_app.
  destruct (process_tokens parser ts1) as [p1 o1]. cbn.
  change (set_lexer l2 (set_lexer l1 p1)) with (set_lexer l2 p1).
  rewrite process_tokens_lexer. by destruct (process_tokens p1 ts2).
Qed.

(** A byte that cannot occur in UTF-8 resynchronises the stream from any
    state: one error message is emitted, all buffered input is dropped, and
    the parser is back in its initial state (but for the position). *)
Theorem json_message_parser_resync (parser : JSONMessageParser) (c : Z) :
  lexer_wf parser.(mp_lexer) -> 0 <= c < 256 -> never_in_utf8 c = true ->
  exists x y, json_message_parser_feed parser [c] =
    Some (mkParser (mkLexer IN_START [] x y) 0 0 [] 0, [None]).
Proof.
  intros [[? ?] _ _] Hc Hn.
  pose proof (never_in_utf8_error parser.(mp_lexer).(lx_state) c ltac:(lia) Hc) as He.
  rewrite Hn in He. cbn in He. apply Z.eqb_eq in He.
  unfold json_message_parser_feed. cbn [json_lexer_feed]. unfold json_lexer_feed_char.
  set (l := if c =? 10 then _ else _).
  assert (lx_state l = lx_state parser.(mp_lexer)) as Hl by (subst l; by destruct (c =? 10)).
  rewrite <- Hl in He. destruct (loop_error 1 l c false He) as [str ->]. by eexists _, _.
Qed.

Lemma json_message_parser_resync_witness :
  exists x y, json_message_parser_feed
      (mkParser (mkLexer IN_DQ_STRING [34] 3 0) 1 0 [mkToken JSON_OPERATOR [123] 1 0] 1) [255] =
    Some (mkParser (mkLexer IN_START [] x y) 0 0 [] 0, [None]).
Proof.
  apply json_message_parser_resync; [| by_eval | reflexivity]. split; cbn;
    [by_eval | split; discriminate | by_eval].
Defined.

(** The table sends an escaped backslash or slash inside a single-quoted
    string to the double-quoted string state, so the closing quote of such a
    string is not recognised: the double-quoted form of the same text is one
    token, the single-quoted form yields none and an error at the end. *)
Theorem single_quoted_escape_lost :
  (exists lexer t, json_lexer_feed json_lexer_init [34; 92; 92; 34] = Some (lexer, [t])
     /\ t.(tok_type) = JSON_STRING /\ t.(tok_str) = [34; 92; 92; 34])
  /\ (exists lexer lexer' t,
       json_lexer_feed json_lexer_init [39; 92; 92; 39] = Some (lexer, [])
       /\ lexer.(lx_state) = IN_DQ_STRING
       /\ json_lexer_flush lexer = Some (lexer', [t]) /\ t.(tok_type) = JSON_ERROR).
Proof.
  split.
  - exists (mkLexer IN_START [] 4 0), (mkToken JSON_STRING [34; 92; 92; 34] 4 0).
    split_and!; vm_compute; reflexivity.
  - exists (mkLexer IN_DQ_STRING [39; 92; 92; 39] 4 0), (mkLexer IN_START [] 5 0),
      (mkToken JSON_ERROR [39; 92; 92; 39] 5 0).
    split_and!; vm_compute; reflexivity.
Qed.
