(* ===== verification/JsonParser.v ===== *)
(** * QObjects and the JSON parser (qemu/json-parser.c)

    [QObject] is the object model of QMP.  The parser is a recursive descent
    over a list of tokens with backtracking: each rule works on a copy of the
    token list and commits it on success.  A rule here takes the parser state
    (remaining tokens, last error of the context, remaining variable
    arguments) and returns the object it builds, [None] for NULL, with the new
    state; the tokens are unchanged when the result is NULL, except after a
    string with a bad escape, which is consumed.  Tokens are pairs of a type and a string: the parser reads nothing else of the dictionaries
    that carry them.  The outer [None] is undefined behaviour (an argument of
    the wrong type fetched with [va_arg], or a string token without any byte) or
    running out of fuel.

    [double] and the conversion [strtod] are parameters.

    Theorems: parsing the tokens of the lexer terminates without undefined
    behaviour; success consumes tokens and failure consumes none. *)

From Stdlib Require Import ZArith Lia.
From stdpp Require Import base option numbers list.
From S2P Require Import Prelude QDict JsonLexTable JsonLexer.

Local Open Scope Z_scope.

Create HintDb jsonparse discriminated.

(** ** Objects *)

#[warnings="-register-all"]
Inductive QObject (D : Type) :=
| QInt (v : Z)
| QString (s : bytes)
| QFloat (d : D)
| QBool (v : Z)
| QList (l : list (QObject D))
| QDictObj (d : QDict (QObject D)).
Arguments QInt {D} _.
Arguments QString {D} _.
Arguments QFloat {D} _.
Arguments QBool {D} _.
Arguments QList {D} _.
Arguments QDictObj {D} _.

(** A fetched variable argument, with the type it was passed with *)
Inductive va_value (D : Type) :=
| VaObj (o : QObject D)
| VaInt (v : Z)
| VaLong (v : Z)
| VaLongLong (v : Z)
| VaStr (s : bytes)
| VaDouble (d : D).
Arguments VaObj {D} _.
Arguments VaInt {D} _.
Arguments VaLong {D} _.
Arguments VaLongLong {D} _.
Arguments VaStr {D} _.
Arguments VaDouble {D} _.

Abbreviation ptoken := (Z * bytes)%type.

(** The messages passed to [parse_error] *)
Inductive parse_msg :=
| InvalidHexEscape
| InvalidEscape
| PrematureEOI
| KeyNotString
| MissingColon
| MissingValue
| ExpectedDictSeparator
| ExpectingValue
| ExpectedListSeparator
| InvalidKeyword (kw : bytes).

Record pstate (D : Type) := mkPState {
  ps_tokens : list ptoken;
  ps_err : option parse_msg;
  ps_ap : option (list (va_value D))
}.
Arguments mkPState {D} _ _ _.
Arguments ps_tokens {D} _.
Arguments ps_err {D} _.
Arguments ps_ap {D} _.

(** ** Tokens *)

Definition token_is_operator (t : ptoken) (op : Z) : bool :=
  (t.1 =? JSON_OPERATOR) && bool_decide (t.2 = [op]).

Definition token_is_keyword (t : ptoken) (value : bytes) : bool :=
  (t.1 =? JSON_KEYWORD) && bool_decide (t.2 = value).

Definition token_is_escape (t : ptoken) (value : bytes) : bool :=
  (t.1 =? JSON_ESCAPE) && bool_decide (t.2 = value).

(** ** Strings *)

Definition wchar_to_utf8 (wchar : Z) : bytes :=
  if wchar <=? 0x007F then
    let b := Z.land wchar 0x7F in if b =? 0 then [] else [b]
  else if wchar <=? 0x07FF then
    [Z.lor 0xC0 (Z.land (Z.shiftr wchar 6) 0x1F); Z.lor 0x80 (Z.land wchar 0x3F)]
  else
    [Z.lor 0xE0 (Z.land (Z.shiftr wchar 12) 0x0F);
     Z.lor 0x80 (Z.land (Z.shiftr wchar 6) 0x3F); Z.lor 0x80 (Z.land wchar 0x3F)].

Definition hex2decimal (ch : Z) : Z :=
  if (48 <=? ch) && (ch <=? 57) then ch - 48
  else if (97 <=? ch) && (ch <=? 102) then 10 + (ch - 97)
  else if (65 <=? ch) && (ch <=? 70) then 10 + (ch - 65)
  else -1.

Definition qemu_isxdigit (ch : Z) : bool :=
  ((48 <=? ch) && (ch <=? 57)) || ((97 <=? ch) && (ch <=? 102)) || ((65 <=? ch) && (ch <=? 70)).

(** The [for (i = 0; i < 4; i++)] loop of the [\u] escape: the code unit and
    the rest of the string, [None] for a byte that is not a hex digit (the
    terminating NUL included). *)
Fixpoint parse_ucode (n : nat) (ptr : bytes) (unicode_char : Z) : option (Z * bytes) :=
  match n with
  | O => Some (unicode_char, ptr)
  | S n =>
      match ptr with
      | [] => None
      | c :: ptr =>
          if qemu_isxdigit c
          then parse_ucode n ptr
                 (wrap 16 (Z.lor unicode_char (Z.shiftl (hex2decimal c) (Z.of_nat n * 4))))
          else None
      end
  end.

(** The bytes the simple escapes stand for *)
Definition simple_escape (c : Z) : option Z :=
  if c =? 34 then Some 34          (* quote *)
  else if c =? 39 then Some 39     (* apostrophe *)
  else if c =? 92 then Some 92     (* backslash *)
  else if c =? 47 then Some 47     (* slash *)
  else if c =? 98 then Some 8      (* b *)
  else if c =? 102 then Some 12    (* f *)
  else if c =? 110 then Some 10    (* n *)
  else if c =? 114 then Some 13    (* r *)
  else if c =? 116 then Some 9     (* t *)
  else None.

(** The [while] loop; the argument is the rest of the string from [ptr], where the
    end of the list is the terminating NUL.  [fuel] bounds the iterations by the
    length of the string. *)
Fixpoint unescape_loop (fuel : nat) (double_quote : bool) (ptr str : bytes)
  : parse_msg + bytes :=
  match fuel with
  | O => inr str
  | S fuel =>
      match ptr with
      | [] => inr str
      | c :: rest =>
          if (double_quote && (c =? 34)) || (negb double_quote && (c =? 39)) then inr str
          else if c =? 92 then
            match rest with
            | [] => inl InvalidEscape
            | e :: rest' =>
                match simple_escape e with
                | Some b => unescape_loop fuel double_quote rest' (str ++ [b])
                | None =>
                    if e =? 117 then
                      match parse_ucode 4 rest' 0 with
                      | Some (u, rest'') =>
                          unescape_loop fuel double_quote rest'' (str ++ wchar_to_utf8 u)
                      | None => inl InvalidHexEscape
                      end
                    else inl InvalidEscape
                end
            end
          else unescape_loop fuel double_quote rest (str ++ [c])
      end
  end.

(** [None]: of an empty string the code skips the terminating NUL, and reads on
    behind it. *)
Definition qstring_from_escaped_str (token : bytes) : option (parse_msg + bytes) :=
  match token with
  | [] => None
  | q :: ptr => Some (unescape_loop (length ptr) (q =? 34) ptr [])
  end.

(** ** Numbers: [strtoll(s, NULL, 10)] on the strings the lexer produces *)

Definition INT64_MAX : Z := 2 ^ 63 - 1.
Definition INT64_MIN : Z := - 2 ^ 63.

Fixpoint digits_value (s : bytes) (acc : Z) : Z :=
  match s with
  | [] => acc
  | c :: s => if (48 <=? c) && (c <=? 57) then digits_value s (acc * 10 + (c - 48)) else acc
  end.

Definition strtoll (s : bytes) : Z :=
  let v := match s with
           | 45 :: s => - digits_value s 0
           | s => digits_value s 0
           end in
  Z.max INT64_MIN (Z.min INT64_MAX v).

(** ** Rules *)

Section Rules.
Context {D : Type}.
Context (strtod : bytes -> D).

Definition rule : Type := pstate D -> option (option (QObject D) * pstate D).

(** [parse_error]: the last error replaces the previous one *)
Definition parse_error (msg : parse_msg) (st : pstate D) : pstate D :=
  mkPState st.(ps_tokens) (Some msg) st.(ps_ap).

(** Failure: the working copy is dropped, the error context and the consumed
    arguments remain. *)
Definition fail_rule (st0 st : pstate D) : option (option (QObject D) * pstate D) :=
  Some (None, mkPState st0.(ps_tokens) st.(ps_err) st.(ps_ap)).

Definition set_tokens (ts : list ptoken) (st : pstate D) : pstate D :=
  mkPState ts st.(ps_err) st.(ps_ap).

(** [parse_pair]: the updated dictionary on success *)
Definition parse_pair (parse_value : rule) (dict : QDict (QObject D)) (st : pstate D)
  : option (option (QDict (QObject D)) * pstate D) :=
  match st.(ps_tokens) with
  | [] => Some (None, parse_error PrematureEOI st)
  | _ =>
      '(key, w) ← parse_value st;
      match key with
      | Some (QString k) =>
          match w.(ps_tokens) with
          | [] => Some (None, set_tokens st.(ps_tokens) (parse_error PrematureEOI w))
          | t :: ts =>
              if token_is_operator t 58 (* : *) then
                '(value, w) ← parse_value (set_tokens ts w);
                match value with
                | Some v => Some (Some (qdict_put_obj dict k v), w)
                | None => Some (None, set_tokens st.(ps_tokens) (parse_error MissingValue w))
                end
              else Some (None, set_tokens st.(ps_tokens) (parse_error MissingColon w))
          end
      | _ => Some (None, set_tokens st.(ps_tokens) (parse_error KeyNotString w))
      end
  end.

(** After a pair: a closing brace, or a comma and another pair.  Every
    iteration pops a token, so the number of tokens bounds them. *)
Fixpoint parse_object_loop (fuel : nat) (parse_value : rule) (st0 : pstate D)
    (dict : QDict (QObject D)) (w : pstate D) : option (option (QObject D) * pstate D) :=
  match w.(ps_tokens) with
  | [] => fail_rule st0 (parse_error PrematureEOI w)
  | t :: ts =>
      if token_is_operator t 125 (* } *) then Some (Some (QDictObj dict), set_tokens ts w)
      else if token_is_operator t 44 (* , *) then
        match fuel with
        | O => None
        | S fuel =>
            '(od, w) ← parse_pair parse_value dict (set_tokens ts w);
            match od with
            | Some dict => parse_object_loop fuel parse_value st0 dict w
            | None => fail_rule st0 w
            end
        end
      else fail_rule st0 (parse_error ExpectedDictSeparator w)
  end.

Definition parse_object (parse_value : rule) (st : pstate D)
  : option (option (QObject D) * pstate D) :=
  match st.(ps_tokens) with
  | [] => fail_rule st st
  | t :: ts =>
      if token_is_operator t 123 (* { *) then
        match ts with
        | [] => fail_rule st (parse_error PrematureEOI st)
        | peek :: ts' =>
            if token_is_operator peek 125 (* } *)
            then Some (Some (QDictObj qdict_new), set_tokens ts' st)
            else
              '(od, w) ← parse_pair parse_value qdict_new (set_tokens ts st);
              match od with
              | Some dict => parse_object_loop (length ts) parse_value st dict w
              | None => fail_rule st w
              end
        end
      else fail_rule st st
  end.

Fixpoint parse_array_loop (fuel : nat) (parse_value : rule) (st0 : pstate D)
    (list : list (QObject D)) (w : pstate D) : option (option (QObject D) * pstate D) :=
  match w.(ps_tokens) with
  | [] => fail_rule st0 (parse_error PrematureEOI w)
  | t :: ts =>
      if token_is_operator t 93 (* ] *) then Some (Some (QList list), set_tokens ts w)
      else if token_is_operator t 44 (* , *) then
        match fuel with
        | O => None
        | S fuel =>
            '(obj, w) ← parse_value (set_tokens ts w);
            match obj with
            | Some o => parse_array_loop fuel parse_value st0 (list ++ [o]) w
            | None => fail_rule st0 (parse_error ExpectingValue w)
            end
        end
      else fail_rule st0 (parse_error ExpectedListSeparator w)
  end.

Definition parse_array (parse_value : rule) (st : pstate D)
  : option (option (QObject D) * pstate D) :=
  match st.(ps_tokens) with
  | [] => fail_rule st st
  | t :: ts =>
      if token_is_operator t 91 (* [ *) then
        match ts with
        | [] => fail_rule st (parse_error PrematureEOI st)
        | peek :: ts' =>
            if token_is_operator peek 93 (* ] *)
            then Some (Some (QList []), set_tokens ts' st)
            else
              '(obj, w) ← parse_value (set_tokens ts st);
              match obj with
              | Some o => parse_array_loop (length ts) parse_value st [o] w
              | None => fail_rule st (parse_error ExpectingValue w)
              end
        end
      else fail_rule st st
  end.

Definition parse_keyword (st : pstate D) : option (option (QObject D) * pstate D) :=
  match st.(ps_tokens) with
  | [] => fail_rule st st
  | t :: ts =>
      if negb (t.1 =? JSON_KEYWORD) then fail_rule st st
      else if token_is_keyword t [116; 114; 117; 101] (* true *)
      then Some (Some (QBool 1), set_tokens ts st)
      else if token_is_keyword t [102; 97; 108; 115; 101] (* false *)
      then Some (Some (QBool 0), set_tokens ts st)
      else fail_rule st (parse_error (InvalidKeyword t.2) st)
  end.

(** What [va_arg] of the conversion asked for yields, [None] when the next
    argument was passed with another type *)
Definition escape_value (str : bytes) (v : va_value D) : option (QObject D) :=
  match v with
  | VaObj o => if bool_decide (str = [37; 112]) then Some o else None
  | VaInt n =>
      if bool_decide (str = [37; 105]) then Some (QBool n)
      else if bool_decide (str = [37; 100]) then Some (QInt n) else None
  | VaLong n => if bool_decide (str = [37; 108; 100]) then Some (QInt n) else None
  | VaLongLong n =>
      if bool_decide (str = [37; 108; 108; 100]) || bool_decide (str = [37; 73; 54; 52; 100])
      then Some (QInt n) else None
  | VaStr s => if bool_decide (str = [37; 115]) then Some (QString s) else None
  | VaDouble d => if bool_decide (str = [37; 102]) then Some (QFloat d) else None
  end.

(** The conversions of the [if] chain: %p %i %d %ld %lld %I64d %s %f *)
Definition escapes : list bytes :=
  [[37; 112]; [37; 105]; [37; 100]; [37; 108; 100]; [37; 108; 108; 100];
   [37; 73; 54; 52; 100]; [37; 115]; [37; 102]].

Definition parse_escape (st : pstate D) : option (option (QObject D) * pstate D) :=
  match st.(ps_ap) with
  | None => fail_rule st st
  | Some ap =>
      match st.(ps_tokens) with
      | [] => fail_rule st st
      | t :: ts =>
          if existsb (token_is_escape t) escapes then
            match ap with
            | [] => None
            | v :: ap =>
                o ← escape_value t.2 v;
                Some (Some o, mkPState ts st.(ps_err) (Some ap))
            end
          else fail_rule st st
      end
  end.

Definition parse_literal (st : pstate D) : option (option (QObject D) * pstate D) :=
  match st.(ps_tokens) with
  | [] => fail_rule st st
  | t :: ts =>
      if t.1 =? JSON_STRING then
        r ← qstring_from_escaped_str t.2;
        match r with
        | inr s => Some (Some (QString s), set_tokens ts st)
        | inl msg => Some (None, set_tokens ts (parse_error msg st))
        end
      else if t.1 =? JSON_INTEGER then
        Some (Some (QInt (strtoll t.2)), set_tokens ts st)
      else if t.1 =? JSON_FLOAT then
        Some (Some (QFloat (strtod t.2)), set_tokens ts st)
      else fail_rule st st
  end.

(** [if (obj == NULL) obj = next(ctxt, tokens, ap);] *)
Definition or_else (first next : rule) : rule := fun st =>
  '(obj, st) ← first st;
  match obj with
  | Some o => Some (Some o, st)
  | None => next st
  end.

(** The alternatives in order, each tried when the previous returned NULL *)
Fixpoint parse_value (fuel : nat) (st : pstate D)
  : option (option (QObject D) * pstate D) :=
  match fuel with
  | O => None
  | S fuel =>
      or_else (parse_object (parse_value fuel)) (
      or_else (parse_array (parse_value fuel)) (
      or_else parse_escape (
      or_else parse_keyword parse_literal))) st
  end.

(** [json_parser_parse_err]: a NULL token list gives NULL; the other results
    are the error of the context and the arguments left in [*ap].  Nesting is
    bounded by the number of tokens. *)
Definition json_parser_parse_err (tokens : option (list Token))
    (ap : option (list (va_value D)))
  : option (option (QObject D) * option parse_msg * option (list (va_value D))) :=
  match tokens with
  | None => Some (None, None, ap)
  | Some ts =>
      '(obj, st) ← parse_value (S (length ts))
                     (mkPState ((fun t => (t.(tok_type), t.(tok_str))) <$> ts) None ap);
      Some (obj, st.(ps_err), st.(ps_ap))
  end.

Definition json_parser_parse (tokens : option (list Token)) (ap : option (list (va_value D)))
  : option (option (QObject D) * option (list (va_value D))) :=
  '(obj, err, ap) ← json_parser_parse_err tokens ap;
  Some (obj, ap).

(** ** Predictive parsing *)

(** The rule the first token selects *)
Definition parse_value_by_head (fuel : nat) (st : pstate D)
  : option (option (QObject D) * pstate D) :=
  match st.(ps_tokens) with
  | [] => Some (None, st)
  | t :: _ =>
      if token_is_operator t 123 then parse_object (parse_value fuel) st
      else if token_is_operator t 91 then parse_array (parse_value fuel) st
      else if t.1 =? JSON_ESCAPE then parse_escape st
      else if t.1 =? JSON_KEYWORD then parse_keyword st
      else parse_literal st
  end.

Lemma set_tokens_same (st : pstate D) : set_tokens st.(ps_tokens) st = st.
Proof. by destruct st. Qed.

Lemma fail_rule_same (st : pstate D) : fail_rule st st = Some (None, st).
Proof. unfold fail_rule. by destruct st. Qed.

(** A failing rule leaves the tokens alone. *)
Definition restores (st : pstate D) (r : option (option (QObject D) * pstate D)) : Prop :=
  forall st', r = Some (None, st') -> st'.(ps_tokens) = st.(ps_tokens).

Lemma fail_rule_restores (st0 st : pstate D) : restores st0 (fail_rule st0 st).
Proof. by intros st' [= <-]. Qed.

Lemma success_restores (st0 st : pstate D) (o : QObject D) : restores st0 (Some (Some o, st)).
Proof. by intros st' [=]. Qed.

Lemma none_restores (st0 : pstate D) : restores st0 None.
Proof. by intros st' [=]. Qed.

#[local] Hint Resolve fail_rule_restores success_restores none_restores : jsonparse.

Lemma parse_object_loop_restores (pv : rule) (st0 : pstate D) (fuel : nat) :
  forall dict w, restores st0 (parse_object_loop fuel pv st0 dict w).
Proof.
  induction fuel as [| fuel IH]; intros dict w; cbn [parse_object_loop];
    repeat case_match; auto with jsonparse.
  destruct (parse_pair _ _ _) as [[[?|] ?] |]; cbn [mbind option_bind]; auto with jsonparse.
Qed.

Lemma parse_array_loop_restores (pv : rule) (st0 : pstate D) (fuel : nat) :
  forall l w, restores st0 (parse_array_loop fuel pv st0 l w).
Proof.
  induction fuel as [| fuel IH]; intros l w; cbn [parse_array_loop];
    repeat case_match; auto with jsonparse.
  destruct (pv _) as [[[?|] ?] |]; cbn [mbind option_bind]; auto with jsonparse.
Qed.
#[local] Hint Resolve parse_object_loop_restores parse_array_loop_restores : jsonparse.

Lemma parse_object_restores (pv : rule) (st : pstate D) : restores st (parse_object pv st).
Proof.
  unfold parse_object. repeat case_match; auto with jsonparse.
  destruct (parse_pair _ _ _) as [[[?|] ?] |]; cbn [mbind option_bind]; auto with jsonparse.
Qed.

Lemma parse_array_restores (pv : rule) (st : pstate D) : restores st (parse_array pv st).
Proof.
  unfold parse_array. repeat case_match; auto with jsonparse.
  destruct (pv _) as [[[?|] ?] |]; cbn [mbind option_bind]; auto with jsonparse.
Qed.

Lemma operator_type (t : ptoken) (op : Z) : token_is_operator t op = true -> t.1 = JSON_OPERATOR.
Proof. unfold token_is_operator. rewrite andb_true_iff, Z.eqb_eq. tauto. Qed.

Lemma operator_unique (t : ptoken) (op op' : Z) :
  token_is_operator t op = true -> token_is_operator t op' = (op =? op').
Proof.
  unfold token_is_operator. rewrite andb_true_iff, bool_decide_eq_true. intros [-> ->]. cbn.
  destruct (Z.eqb_spec op op'); [subst; by apply bool_decide_eq_true |].
  apply bool_decide_eq_false. congruence.
Qed.

Lemma not_escape_exists (t : ptoken) (l : list bytes) :
  t.1 <> JSON_ESCAPE -> existsb (token_is_escape t) l = false.
Proof.
  intros Ht. induction l; cbn; [done |]. rewrite IHl. unfold token_is_escape.
  by destruct (Z.eqb_spec t.1 JSON_ESCAPE).
Qed.

(** Each rule rejects at once a token that belongs to another. *)
Section Reject.
Context (pv : rule) (st : pstate D) (t : ptoken) (ts : list ptoken).
Hypothesis Hst : st.(ps_tokens) = t :: ts.

Lemma object_rejects : token_is_operator t 123 = false -> parse_object pv st = Some (None, st).
Proof. intros Ht. unfold parse_object. rewrite Hst, Ht. apply fail_rule_same. Qed.

Lemma array_rejects : token_is_operator t 91 = false -> parse_array pv st = Some (None, st).
Proof. intros Ht. unfold parse_array. rewrite Hst, Ht. apply fail_rule_same. Qed.

Lemma escape_rejects : t.1 <> JSON_ESCAPE -> parse_escape st = Some (None, st).
Proof.
  intros Ht. unfold parse_escape. rewrite Hst, not_escape_exists by done.
  destruct (ps_ap st); apply fail_rule_same.
Qed.

Lemma keyword_rejects : t.1 <> JSON_KEYWORD -> parse_keyword st = Some (None, st).
Proof.
  intros Ht. unfold parse_keyword. rewrite Hst.
  destruct (Z.eqb_spec t.1 JSON_KEYWORD); [done | apply fail_rule_same].
Qed.

Lemma literal_rejects :
  t.1 <> JSON_STRING -> t.1 <> JSON_INTEGER -> t.1 <> JSON_FLOAT ->
  parse_literal st = Some (None, st).
Proof.
  intros H1' H2' H3'. unfold parse_literal. rewrite Hst.
  destruct (Z.eqb_spec t.1 JSON_STRING), (Z.eqb_spec t.1 JSON_INTEGER),
    (Z.eqb_spec t.1 JSON_FLOAT); try done. apply fail_rule_same.
Qed.
End Reject.

Lemma or_else_last (r1 r2 : rule) (st : pstate D) :
  (forall st', r1 st = Some (None, st') -> r2 st' = Some (None, st')) ->
  or_else r1 r2 st = r1 st.
Proof.
  intros Hr. unfold or_else. destruct (r1 st) as [[[o |] st'] |]; cbn; [done | | done].
  by rewrite (Hr st').
Qed.

Lemma or_else_skip (r1 r2 : rule) (st : pstate D) :
  r1 st = Some (None, st) -> or_else r1 r2 st = r2 st.
Proof. intros Hr. unfold or_else. by rewrite Hr. Qed.

Lemma tail_rejects (st : pstate D) (t : ptoken) (ts : list ptoken) :
  st.(ps_tokens) = t :: ts -> t.1 = JSON_OPERATOR ->
  or_else parse_escape (or_else parse_keyword parse_literal) st = Some (None, st).
Proof.
  intros Hst Ht. rewrite or_else_skip; [rewrite or_else_skip |].
  - eapply literal_rejects; [done | by rewrite Ht..].
  - eapply keyword_rejects; [done | by rewrite Ht].
  - eapply escape_rejects; [done | by rewrite Ht].
Qed.

Lemma parse_value_dispatch (fuel : nat) (st : pstate D) :
  parse_value (S fuel) st = parse_value_by_head fuel st.
Proof.
  cbn [parse_value]. unfold parse_value_by_head. destruct (ps_tokens st) as [| t ts] eqn:Hst.
  { unfold or_else, parse_object, parse_array, parse_escape, parse_keyword, parse_literal.
    rewrite Hst, fail_rule_same. cbn. rewrite Hst, fail_rule_same. cbn. destruct (ps_ap st);
      rewrite ?Hst, fail_rule_same; cbn; rewrite Hst, fail_rule_same; cbn; by rewrite Hst, fail_rule_same. }
  destruct (token_is_operator t 123) eqn:Hobj.
  { apply or_else_last. intros st' Hr. apply parse_object_restores in Hr. rewrite Hst in Hr.
    rewrite or_else_skip; [eapply tail_rejects; [done | by eapply operator_type] |].
    eapply array_rejects; [done | by rewrite (operator_unique _ _ _ Hobj)]. }
  rewrite or_else_skip by by eapply object_rejects.
  destruct (token_is_operator t 91) eqn:Harr.
  { apply or_else_last. intros st' Hr. apply parse_array_restores in Hr. rewrite Hst in Hr.
    eapply tail_rejects; [done | by eapply operator_type]. }
  rewrite or_else_skip by by eapply array_rejects.
  destruct (Z.eqb_spec t.1 JSON_ESCAPE) as [Hesc |].
  { apply or_else_last. intros st' Hr.
    assert (ps_tokens st' = t :: ts) as Hst'.
    { revert Hr. unfold parse_escape, fail_rule. rewrite Hst.
      repeat case_match; intros; by simplify_option_eq. }
    rewrite or_else_skip by (eapply keyword_rejects; [done | by rewrite Hesc]).
    eapply literal_rejects; [done | by rewrite Hesc..]. }
  rewrite or_else_skip by by eapply escape_rejects.
  destruct (Z.eqb_spec t.1 JSON_KEYWORD) as [Hkw |].
  { apply or_else_last. intros st' Hr.
    assert (ps_tokens st' = t :: ts) as Hst'.
    { revert Hr. unfold parse_keyword, fail_rule. rewrite Hst.
      repeat case_match; intros; by simplify_option_eq. }
    eapply literal_rejects; [done | by rewrite Hkw..]. }
  by rewrite or_else_skip by by eapply keyword_rejects.
Qed.

(** ** Termination *)

(** A string token is not empty. *)
Definition readable (t : ptoken) : Prop := t.1 = JSON_STRING -> t.2 <> [].

(** What every rule does without variable arguments: it returns; the tokens
    left are a suffix; success takes at least one token and reports nothing. *)
Definition res_ok {A} (st : pstate D) (r : option (option A * pstate D)) : Prop :=
  exists obj st', r = Some (obj, st') /\ st'.(ps_ap) = None
  /\ st'.(ps_tokens) `suffix_of` st.(ps_tokens)
  /\ (is_Some obj ->
        (length st'.(ps_tokens) < length st.(ps_tokens))%nat /\ st'.(ps_err) = st.(ps_err)).

Definition rule_ok (n : nat) (r : rule) : Prop :=
  forall st, (length st.(ps_tokens) <= n)%nat -> st.(ps_ap) = None -> Forall readable st.(ps_tokens) ->
    res_ok st (r st).

Lemma res_ok_none {A} (st0 st : pstate D) :
  st.(ps_ap) = None -> st.(ps_tokens) `suffix_of` st0.(ps_tokens) ->
  @res_ok A st0 (Some (None, st)).
Proof. intros Hap Hsuf. eexists _, _. split_and!; [done.. |]. by intros []. Qed.

Lemma res_ok_some {A} (st0 st : pstate D) (a : A) :
  st.(ps_ap) = None -> st.(ps_tokens) `suffix_of` st0.(ps_tokens) ->
  (length st.(ps_tokens) < length st0.(ps_tokens))%nat -> st.(ps_err) = st0.(ps_err) ->
  res_ok st0 (Some (Some a, st)).
Proof. intros. eexists _, _. by split_and!. Qed.

Lemma fail_rule_ok (st0 st : pstate D) : st.(ps_ap) = None -> res_ok st0 (fail_rule st0 st).
Proof. intros Hap. by apply res_ok_none. Qed.

(** What a later phase of a rule starts from: some token of [st0] is gone and
    nothing was reported. *)
Definition progress (st0 w : pstate D) : Prop :=
  w.(ps_ap) = None /\ w.(ps_tokens) `suffix_of` st0.(ps_tokens)
  /\ (length w.(ps_tokens) < length st0.(ps_tokens))%nat /\ w.(ps_err) = st0.(ps_err).

Lemma progress_pop (st0 w : pstate D) (t : ptoken) (ts : list ptoken) :
  progress st0 w -> w.(ps_tokens) = t :: ts -> progress st0 (set_tokens ts w).
Proof.
  intros (Hap & Hsuf & Hlen & Herr) Hw. rewrite Hw in Hsuf, Hlen. cbn in Hlen.
  split_and!; cbn; [done | by eapply suffix_cons_l | lia | done].
Qed.

Lemma progress_trans (st0 w w' : pstate D) :
  progress st0 w -> progress w w' -> progress st0 w'.
Proof.
  intros (? & ? & ? & ?) (? & ? & ? & ?).
  split_and!; [done | by etrans | lia | congruence].
Qed.

Lemma progress_readable (st0 w : pstate D) :
  progress st0 w -> Forall readable st0.(ps_tokens) -> Forall readable w.(ps_tokens).
Proof. intros (_ & [k ->] & _) [_ H]%Forall_app. done. Qed.

Lemma progress_some {A} (st0 w : pstate D) (a : A) :
  progress st0 w -> res_ok st0 (Some (Some a, w)).
Proof. intros (? & ? & ? & ?). by apply res_ok_some. Qed.

(** Run a sub-rule: it fails in some state without arguments, or progresses. *)
Lemma res_ok_cases {A} (st : pstate D) (r : option (option A * pstate D)) :
  res_ok st r ->
  (exists st', r = Some (None, st') /\ st'.(ps_ap) = None)
  \/ (exists a st', r = Some (Some a, st') /\ progress st st').
Proof.
  intros ([a |] & st' & -> & Hap & Hsuf & Hs); [right | left; eauto].
  destruct Hs; [by eexists |]. eexists _, _. by split_and!.
Qed.

Lemma parse_pair_ok (n : nat) (pv : rule) (dict : QDict (QObject D)) (st : pstate D) :
  rule_ok n pv -> (length st.(ps_tokens) <= n)%nat -> st.(ps_ap) = None -> Forall readable st.(ps_tokens) ->
  res_ok st (parse_pair pv dict st).
Proof.
  intros Hpv Hlen Hap Hrd. unfold parse_pair. destruct (ps_tokens st) as [| t0 ts0] eqn:Hst.
  { apply res_ok_none; [done |]. cbn. by rewrite Hst. }
  rewrite <- Hst in *. clear t0 ts0 Hst.
  destruct (res_ok_cases st _ (Hpv st Hlen Hap Hrd)) as [(w & -> & Hw) | (key & w & -> & Hp)];
    cbn [mbind option_bind]; [by apply res_ok_none |].
  pose proof Hp as (Hwap & _ & Hlt & _).
  destruct key; try by apply res_ok_none.
  destruct (ps_tokens w) as [| t ts] eqn:Hw; [by apply res_ok_none |].
  destruct (token_is_operator t 58); [| by apply res_ok_none].
  pose proof (progress_pop _ _ _ _ Hp Hw) as Hp'.
  destruct (res_ok_cases (set_tokens ts w) (pv (set_tokens ts w)))
    as [(w2 & -> & Hw2) | (v & w2 & -> & Hp2)]; cbn [mbind option_bind].
  - cbn in Hlt. apply Hpv; [cbn; lia | done | by apply (progress_readable st)].
  - by apply res_ok_none.
  - apply progress_some. by eapply progress_trans.
Qed.

Lemma parse_object_loop_ok (n : nat) (pv : rule) (st0 : pstate D) (fuel : nat) :
  rule_ok n pv -> Forall readable st0.(ps_tokens) -> forall dict w,
  progress st0 w -> (length w.(ps_tokens) <= n)%nat -> (length w.(ps_tokens) <= fuel)%nat ->
  res_ok st0 (parse_object_loop fuel pv st0 dict w).
Proof.
  intros Hpv Hrd. induction fuel as [| fuel IH]; intros dict w Hp Hn Hf; cbn [parse_object_loop];
    pose proof Hp as (Hap & _ & Hlt & _); destruct (ps_tokens w) as [| t ts] eqn:Hw;
    try (by apply fail_rule_ok); [cbn in Hf; lia |].
  pose proof (progress_pop _ _ _ _ Hp Hw) as Hp'. cbn in Hn, Hf.
  destruct (token_is_operator t 125); [by apply progress_some |].
  destruct (token_is_operator t 44); [| by apply fail_rule_ok].
  destruct (res_ok_cases (set_tokens ts w) (parse_pair pv dict (set_tokens ts w)))
    as [(w2 & -> & Hw2) | (d & w2 & -> & Hp2)]; cbn [mbind option_bind].
  - apply (parse_pair_ok n); [done | cbn; lia | done | by apply (progress_readable st0)].
  - by apply fail_rule_ok.
  - pose proof Hp2 as (_ & _ & Hlt2 & _). cbn in Hlt2.
    apply IH; [by eapply progress_trans | lia | lia].
Qed.

Lemma parse_array_loop_ok (n : nat) (pv : rule) (st0 : pstate D) (fuel : nat) :
  rule_ok n pv -> Forall readable st0.(ps_tokens) -> forall l w,
  progress st0 w -> (length w.(ps_tokens) <= n)%nat -> (length w.(ps_tokens) <= fuel)%nat ->
  res_ok st0 (parse_array_loop fuel pv st0 l w).
Proof.
  intros Hpv Hrd. induction fuel as [| fuel IH]; intros l w Hp Hn Hf; cbn [parse_array_loop];
    pose proof Hp as (Hap & _ & Hlt & _); destruct (ps_tokens w) as [| t ts] eqn:Hw;
    try (by apply fail_rule_ok); [cbn in Hf; lia |].
  pose proof (progress_pop _ _ _ _ Hp Hw) as Hp'. cbn in Hn, Hf.
  destruct (token_is_operator t 93); [by apply progress_some |].
  destruct (token_is_operator t 44); [| by apply fail_rule_ok].
  destruct (res_ok_cases (set_tokens ts w) (pv (set_tokens ts w)))
    as [(w2 & -> & Hw2) | (o & w2 & -> & Hp2)]; cbn [mbind option_bind].
  - apply Hpv; [cbn; lia | done | by apply (progress_readable st0)].
  - by apply fail_rule_ok.
  - pose proof Hp2 as (_ & _ & Hlt2 & _). cbn in Hlt2.
    apply IH; [by eapply progress_trans | lia | lia].
Qed.

(** The state after the first token of a rule *)
Lemma progress_first (st : pstate D) (t : ptoken) (ts : list ptoken) :
  st.(ps_ap) = None -> st.(ps_tokens) = t :: ts -> progress st (set_tokens ts st).
Proof.
  intros Hap Hst. split_and!; cbn; [done | | | done]; rewrite Hst; [by apply suffix_cons_r |].
  cbn. lia.
Qed.

Lemma progress_second (st : pstate D) (t t' : ptoken) (ts : list ptoken) :
  st.(ps_ap) = None -> st.(ps_tokens) = t :: t' :: ts -> progress st (set_tokens ts st).
Proof.
  intros Hap Hst. split_and!; cbn; [done | | | done]; rewrite Hst;
    [by apply suffix_cons_r, suffix_cons_r |]. cbn. lia.
Qed.

Lemma parse_object_ok (n : nat) (pv : rule) : rule_ok n pv -> rule_ok (S n) (parse_object pv).
Proof.
  intros Hpv st Hlen Hap Hrd. unfold parse_object.
  destruct (ps_tokens st) as [| t [| peek ts]] eqn:Hst; [by apply fail_rule_ok | |];
    destruct (token_is_operator t 123); try (by apply fail_rule_ok).
  destruct (token_is_operator peek 125).
  { apply progress_some. by eapply progress_second. }
  pose proof (progress_first _ _ _ Hap Hst) as Hp. rewrite <- Hst in Hrd. cbn [length] in Hlen.
  destruct (res_ok_cases (set_tokens (peek :: ts) st)
              (parse_pair pv qdict_new (set_tokens (peek :: ts) st)))
    as [(w2 & -> & Hw2) | (d & w2 & -> & Hp2)]; cbn [mbind option_bind].
  - apply (parse_pair_ok n); [done | cbn; lia | done | by apply (progress_readable st)].
  - by apply fail_rule_ok.
  - pose proof Hp2 as (_ & _ & Hlt2 & _). cbn in Hlt2.
    apply (parse_object_loop_ok n); [done | done | by eapply progress_trans | lia | cbn; lia].
Qed.

Lemma parse_array_ok (n : nat) (pv : rule) : rule_ok n pv -> rule_ok (S n) (parse_array pv).
Proof.
  intros Hpv st Hlen Hap Hrd. unfold parse_array.
  destruct (ps_tokens st) as [| t [| peek ts]] eqn:Hst; [by apply fail_rule_ok | |];
    destruct (token_is_operator t 91); try (by apply fail_rule_ok).
  destruct (token_is_operator peek 93).
  { apply progress_some. by eapply progress_second. }
  pose proof (progress_first _ _ _ Hap Hst) as Hp. rewrite <- Hst in Hrd. cbn [length] in Hlen.
  destruct (res_ok_cases (set_tokens (peek :: ts) st) (pv (set_tokens (peek :: ts) st)))
    as [(w2 & -> & Hw2) | (o & w2 & -> & Hp2)]; cbn [mbind option_bind].
  - apply Hpv; [cbn; lia | done | by apply (progress_readable st)].
  - by apply fail_rule_ok.
  - pose proof Hp2 as (_ & _ & Hlt2 & _). cbn in Hlt2.
    apply (parse_array_loop_ok n); [done | done | by eapply progress_trans | lia | cbn; lia].
Qed.

(** The contents of a string token are read. *)
Lemma readable_string (t : ptoken) :
  readable t -> t.1 = JSON_STRING -> is_Some (qstring_from_escaped_str t.2).
Proof.
  intros Hr Ht. specialize (Hr Ht). by destruct t as [ty [| q ptr]].
Qed.

Lemma parse_simple_ok (st : pstate D) :
  st.(ps_ap) = None -> Forall readable st.(ps_tokens) ->
  res_ok st (parse_escape st) /\ res_ok st (parse_keyword st) /\ res_ok st (parse_literal st).
Proof.
  intros Hap Hrd. unfold parse_escape, parse_keyword, parse_literal. rewrite Hap.
  destruct (ps_tokens st) as [| t ts] eqn:Hst; [split_and!; by apply fail_rule_ok |].
  pose proof (progress_first _ _ _ Hap Hst) as Hp.
  split_and!; [by apply fail_rule_ok | repeat case_match; try (by apply fail_rule_ok); by apply progress_some |].
  destruct (Z.eqb_spec t.1 JSON_STRING) as [Hty |];
    [| repeat case_match; try (by apply fail_rule_ok); by apply progress_some].
  destruct (readable_string t) as [[msg | str] ->]; [by apply Forall_cons in Hrd as [] | done | |];
    cbn [mbind option_bind]; [| by apply progress_some].
  destruct Hp as (? & ? & _). by apply res_ok_none.
Qed.

(** Nesting takes tokens, so their number bounds the recursion. *)
Lemma parse_value_ok (n : nat) : rule_ok n (parse_value (S n)).
Proof.
  induction n as [| n IH]; intros st Hlen Hap Hrd; rewrite parse_value_dispatch;
    unfold parse_value_by_head; destruct (ps_tokens st) as [| t ts] eqn:Hst;
    try (apply res_ok_none; [done | by rewrite Hst]); [cbn in Hlen; lia |].
  rewrite <- Hst in Hlen, Hrd. destruct (parse_simple_ok st Hap Hrd) as (? & ? & ?).
  repeat case_match; [apply (parse_object_ok n) | apply (parse_array_ok n) | ..]; done.
Qed.
End Rules.

(** ** Properties *)

(** A string token that is not empty *)
Definition readable_token (t : Token) : Prop := t.(tok_type) = JSON_STRING -> t.(tok_str) <> [].

(** Tokens of the lexer are readable. *)
Lemma token_ok_readable (ts : list Token) : Forall token_ok ts -> Forall readable_token ts.
Proof.
  intros H. apply (Forall_impl _ _ _ H). intros t [_ Ht] Hs. apply Ht. by rewrite Hs.
Qed.

(** C37: Parsing a token list in which no string token is empty, without variable
    arguments, returns: it reads no byte outside a token, and its nesting is
    bounded by the number of tokens; when an object is returned no error was
    reported.  The tokens that the lexer makes of any bytes are of this kind, so
    that lexing and parsing any input returns.  (The source steps over the end of
    an empty string token.) *)
Theorem json_parser_parse_total {D : Type} (strtod : bytes -> D) :
  (forall tokens : list Token, Forall readable_token tokens ->
     exists obj err, json_parser_parse_err strtod (Some tokens) None = Some (obj, err, None)
     /\ (is_Some obj -> err = None)) /\
  (forall buffer, Forall byte_wf buffer ->
     exists lexer tokens obj err, json_lexer_feed json_lexer_init buffer = Some (lexer, tokens)
     /\ Forall readable_token tokens
     /\ json_parser_parse_err strtod (Some tokens) None = Some (obj, err, None)
     /\ (is_Some obj -> err = None)).
Proof.
  assert (Hparse : forall tokens : list Token, Forall readable_token tokens ->
    exists obj err, json_parser_parse_err strtod (Some tokens) None = Some (obj, err, None)
    /\ (is_Some obj -> err = None)).
  { intros tokens Hrd. unfold json_parser_parse_err. set (st := mkPState _ _ _).
    destruct (parse_value_ok strtod (length tokens) st) as (obj & st' & -> & Hap & _ & Hs).
    - unfold st. cbn. by rewrite length_fmap.
    - done.
    - unfold st. cbn. by apply Forall_fmap.
    - exists obj, st'.(ps_err). cbn. rewrite Hap. split; [done |]. intros Hobj. by destruct (Hs Hobj). }
  split; [exact Hparse |]. intros buffer Hb.
  destruct (lexer_feed_total buffer json_lexer_init) as (l & ts & E & _ & Hts); [by split | done |].
  pose proof (token_ok_readable ts Hts) as Hrd. destruct (Hparse ts Hrd) as (obj & err & Ep & He).
  by exists l, ts, obj, err.
Qed.

(** Two bytes that are an empty object *)
Lemma json_parser_parse_total_witness :
  exists lexer tokens, json_lexer_feed json_lexer_init [123; 125] = Some (lexer, tokens) /\
    json_parser_parse_err (fun _ => tt) (Some tokens) None = Some (Some (QDictObj qdict_new), None, None).
Proof.
  destruct (json_parser_parse_total (fun _ => tt)) as [_ Hlex].
  destruct (Hlex [123; 125]) as (lexer & tokens & obj & err & El & _ & Ep & _); [by_eval |].
  exists lexer, tokens. split; [exact El |].
  assert (Hc : ('(_, ts) ← json_lexer_feed json_lexer_init [123; 125];
    json_parser_parse_err (fun _ => tt) (Some ts) None) = Some (Some (QDictObj qdict_new), None, None))
    by (vm_compute; reflexivity).
  by rewrite El in Hc.
Defined.

(** The backtracking parser is predictive: the first token alone decides
    which rule is used, whatever the arguments and the errors of the
    alternatives tried before it. *)
Theorem parse_value_predictive {D : Type} (strtod : bytes -> D) (fuel : nat) (st : pstate D) :
  parse_value strtod (S fuel) st = parse_value_by_head strtod fuel st.
Proof. apply parse_value_dispatch. Qed.
