(* ===== verification/QDictGet.v ===== *)
(** * Typed access to dictionaries (qemu/qdict.c)

    The accessors of QMP command handlers over the object model of
    JsonParser.v.  [None] is the failure of an assertion.  The conversion from
    [int64_t] to [double] is a parameter.

    Theorem: what each accessor returns after a [qdict_put], aborts included. *)

From Stdlib Require Import ZArith Lia.
From stdpp Require Import base option numbers countable gmap list.
From S2P Require Import Prelude QDict JsonParser.

Local Open Scope Z_scope.

(** [qtype_code] *)
Inductive qtype_code :=
| QTYPE_NONE | QTYPE_QINT | QTYPE_QSTRING | QTYPE_QDICT | QTYPE_QLIST | QTYPE_QFLOAT
| QTYPE_QBOOL | QTYPE_QERROR.

#[global] Instance qtype_code_eq_dec : EqDecision qtype_code.
Proof. solve_decision. Defined.

Section Getters.
Context {D : Type} (double_of_int : Z -> D).
Implicit Types (qdict : QDict (QObject D)) (key : bytes).

Definition qobject_type (obj : QObject D) : qtype_code :=
  match obj with
  | QInt _ => QTYPE_QINT
  | QString _ => QTYPE_QSTRING
  | QFloat _ => QTYPE_QFLOAT
  | QBool _ => QTYPE_QBOOL
  | QList _ => QTYPE_QLIST
  | QDictObj _ => QTYPE_QDICT
  end.

(** [qobject_to_qint] and its siblings: NULL for another type *)
Definition qobject_to_qint (obj : QObject D) : option Z :=
  match obj with QInt v => Some v | _ => None end.
Definition qobject_to_qbool (obj : QObject D) : option Z :=
  match obj with QBool v => Some v | _ => None end.
Definition qobject_to_qstring (obj : QObject D) : option bytes :=
  match obj with QString s => Some s | _ => None end.
Definition qobject_to_qlist (obj : QObject D) : option (list (QObject D)) :=
  match obj with QList l => Some l | _ => None end.
Definition qobject_to_qdict (obj : QObject D) : option (QDict (QObject D)) :=
  match obj with QDictObj d => Some d | _ => None end.

Definition qdict_get_obj qdict key (type : qtype_code) : option (QObject D) :=
  match qdict_get qdict key with
  | None => None
  | Some obj => if decide (qobject_type obj = type) then Some obj else None
  end.

Definition qdict_get_double qdict key : option D :=
  match qdict_get qdict key with
  | Some (QFloat d) => Some d
  | Some (QInt v) => Some (double_of_int v)
  | _ => None
  end.

Definition qdict_get_int qdict key : option Z :=
  obj ← qdict_get_obj qdict key QTYPE_QINT; qobject_to_qint obj.

Definition qdict_get_bool qdict key : option Z :=
  obj ← qdict_get_obj qdict key QTYPE_QBOOL; qobject_to_qbool obj.

Definition qdict_get_qlist qdict key : option (list (QObject D)) :=
  obj ← qdict_get_obj qdict key QTYPE_QLIST; qobject_to_qlist obj.

Definition qdict_get_qdict qdict key : option (QDict (QObject D)) :=
  obj ← qdict_get_obj qdict key QTYPE_QDICT; qobject_to_qdict obj.

Definition qdict_get_str qdict key : option bytes :=
  obj ← qdict_get_obj qdict key QTYPE_QSTRING; qobject_to_qstring obj.

Definition qdict_get_try_int qdict key (def_value : Z) : Z :=
  match qdict_get qdict key with
  | Some (QInt v) => v
  | _ => def_value
  end.

Definition qdict_get_try_bool qdict key (def_value : Z) : Z :=
  match qdict_get qdict key with
  | Some (QBool v) => v
  | _ => def_value
  end.

(** [None] is NULL *)
Definition qdict_get_try_str qdict key : option bytes :=
  match qdict_get qdict key with
  | Some (QString s) => Some s
  | _ => None
  end.

(** ** Properties *)

(** The object under [key], if it has the type of the accessor *)
Lemma qdict_get_obj_typed qdict key (type : qtype_code) :
  qdict_get_obj qdict key type =
    obj ← qdict_get qdict key; if decide (qobject_type obj = type) then Some obj else None.
Proof. unfold qdict_get_obj. by destruct (qdict_get qdict key). Qed.

Lemma get_int_spec qdict key :
  qdict_get_int qdict key = qdict_get qdict key ≫= qobject_to_qint.
Proof.
  unfold qdict_get_int. rewrite qdict_get_obj_typed. by destruct (qdict_get qdict key) as [[] |].
Qed.

Lemma get_bool_spec qdict key :
  qdict_get_bool qdict key = qdict_get qdict key ≫= qobject_to_qbool.
Proof.
  unfold qdict_get_bool. rewrite qdict_get_obj_typed. by destruct (qdict_get qdict key) as [[] |].
Qed.

Lemma get_str_spec qdict key :
  qdict_get_str qdict key = qdict_get qdict key ≫= qobject_to_qstring.
Proof.
  unfold qdict_get_str. rewrite qdict_get_obj_typed. by destruct (qdict_get qdict key) as [[] |].
Qed.

Lemma get_qlist_spec qdict key :
  qdict_get_qlist qdict key = qdict_get qdict key ≫= qobject_to_qlist.
Proof.
  unfold qdict_get_qlist. rewrite qdict_get_obj_typed. by destruct (qdict_get qdict key) as [[] |].
Qed.

Lemma get_qdict_spec qdict key :
  qdict_get_qdict qdict key = qdict_get qdict key ≫= qobject_to_qdict.
Proof.
  unfold qdict_get_qdict. rewrite qdict_get_obj_typed. by destruct (qdict_get qdict key) as [[] |].
Qed.
End Getters.

(** After storing an object under a key, the accessor of its type returns
    its content, every accessor of another type aborts, and the lenient
    accessors fall back to their default; the other keys read as before. *)
Theorem qdict_typed_access {D : Type} (d : QDict (QObject D)) (key : bytes) (obj : QObject D) :
  qdict_wf d ->
  let d' := qdict_put_obj d key obj in
  qdict_get_int d' key = qobject_to_qint obj
  /\ qdict_get_bool d' key = qobject_to_qbool obj
  /\ qdict_get_str d' key = qobject_to_qstring obj
  /\ qdict_get_qlist d' key = qobject_to_qlist obj
  /\ qdict_get_qdict d' key = qobject_to_qdict obj
  /\ (forall def, qdict_get_try_int d' key def = default def (qobject_to_qint obj))
  /\ (forall def, qdict_get_try_bool d' key def = default def (qobject_to_qbool obj))
  /\ qdict_get_try_str d' key = qobject_to_qstring obj
  /\ (forall k type, k <> key -> qdict_get_obj d' k type = qdict_get_obj d k type).
Proof.
  intros Hwf d'. assert (qdict_get d' key = Some obj) as Hget
    by (unfold d'; rewrite qdict_put_get by done; by rewrite decide_True).
  rewrite get_int_spec, get_bool_spec, get_str_spec, get_qlist_spec, get_qdict_spec, Hget.
  unfold qdict_get_try_int, qdict_get_try_bool, qdict_get_try_str. rewrite Hget.
  split_and!; try done; try (intros def); try (by destruct obj).
  intros type Hk. unfold qdict_get_obj, d'. rewrite qdict_put_get by done.
  by rewrite decide_False by done.
Qed.

Lemma qdict_typed_access_witness :
  qdict_get_int (qdict_put_obj (@qdict_new (QObject unit)) [105; 100] (QInt 9)) [105; 100] = Some 9.
Proof.
  apply (qdict_typed_access (@qdict_new (QObject unit)) [105; 100] (QInt 9)). apply qdict_new_wf.
Defined.
