(* ===== verification/QJson.v ===== *)
(** * JSON text and objects (qemu/qjson.c)

    [qobject_from_json] runs the message parser over a whole text and keeps
    the object of the last message; [qobject_to_json] and its pretty variant
    print an object.  [to_json] appends to the string it is given.  Bytes are
    unsigned numbers; where the source compares a (signed) [char] the sign is
    written out.  [strtod] and the text of [printf("%f")] are parameters.

    Theorem: a byte that is not ASCII and starts no multi-byte sequence is
    printed as U+FFFF, whatever its value.  The round trip of printing and
    parsing is in QJsonRoundTrip.v. *)

From Stdlib Require Import ZArith Lia.
From stdpp Require Import base option numbers countable gmap list.
From S2P Require Import Prelude QDict JsonLexTable JsonLexer JsonParser.

Local Open Scope Z_scope.

(** ** Number formats *)

(** The digits of [n], least significant first; [fuel] bounds their number. *)
Fixpoint digits_rev (base : Z) (fuel : nat) (n : Z) : list Z :=
  match fuel with
  | O => []
  | S fuel => n mod base :: (if n / base =? 0 then [] else digits_rev base fuel (n / base))
  end.

(** [printf("%" PRId64)]: 19 digits are enough for 64 bits. *)
Definition print_int (v : Z) : bytes :=
  let digits := rev ((fun d => 48 + d) <$> digits_rev 10 20 (Z.abs v)) in
  if v <? 0 then 45 :: digits else digits.

Definition hex_digit (d : Z) : Z := if d <? 10 then 48 + d else 65 + (d - 10).

(** [printf("%04X")] of a 32-bit value *)
Definition print_hex4 (v : Z) : bytes :=
  let ds := digits_rev 16 8 (wrap 32 v) in
  rev (hex_digit <$> (ds ++ replicate (4 - length ds) 0)).

(** [snprintf(escape, 7, "\\u%04X", v)]: at most six bytes are kept. *)
Definition u_escape (v : Z) : bytes := take 6 (92 :: 117 :: print_hex4 v).

(** ** Printing *)

(** The [switch] on a byte that starts no multi-byte sequence *)
Definition escape_char (c : Z) : bytes :=
  if c =? 34 then [92; 34]
  else if c =? 92 then [92; 92]
  else if c =? 8 then [92; 98]
  else if c =? 12 then [92; 102]
  else if c =? 10 then [92; 110]
  else if c =? 13 then [92; 114]
  else if c =? 9 then [92; 116]
  else if to_signed 8 c <=? 0x1F then u_escape (to_signed 8 c)
  else [c].

(** The [while] loop over the string; bytes past the end read as NUL. *)
Fixpoint escape_loop (fuel : nat) (ptr str : bytes) : bytes :=
  match fuel, ptr with
  | S fuel, c0 :: rest =>
      let c1 := default 0 (rest !! 0%nat) in
      let c2 := default 0 (rest !! 1%nat) in
      if (Z.land c0 0xE0 =? 0xE0) && negb (Z.land c1 0x80 =? 0) && negb (Z.land c2 0x80 =? 0) then
        let wchar := wrap 16 (Z.shiftl (Z.land c0 0x0F) 12) in
        let wchar := Z.lor wchar (Z.shiftl (Z.land c1 0x3F) 6) in
        let wchar := Z.lor wchar (Z.land c2 0x3F) in
        escape_loop fuel (drop 2 rest) (str ++ u_escape wchar)
      else if (Z.land c0 0xE0 =? 0xC0) && negb (Z.land c1 0x80 =? 0) then
        let wchar := Z.shiftl (Z.land c0 0x1F) 6 in
        let wchar := Z.lor wchar (Z.land c1 0x3F) in
        escape_loop fuel (drop 1 rest) (str ++ u_escape wchar)
      else escape_loop fuel rest (str ++ escape_char c0)
  | _, _ => str
  end.

(** The [QTYPE_QSTRING] case *)
Definition to_json_string (s str : bytes) : bytes :=
  escape_loop (length s) s (str ++ [34]) ++ [34].

(** ["\n"] and the indentation, when pretty *)
Definition new_line (pretty : bool) (indent : nat) (str : bytes) : bytes :=
  if pretty then str ++ [10] ++ concat (replicate indent [32; 32; 32; 32]) else str.

(** Trailing zeroes of the [%f] text, and the point if nothing follows it *)
Definition trim_float (buffer : bytes) : bytes :=
  let fix strip (r : bytes) := match r with 48 :: r => strip r | _ => r end in
  match strip (rev buffer) with
  | 46 :: r => rev r
  | r => rev r
  end.

Section QJson.
Context {D : Type}.
Context (strtod : bytes -> D) (print_f : D -> bytes).

Definition to_json_iter_start (pretty : bool) (indent : nat) (s : Z * bytes) : bytes :=
  let '(count, str) := s in
  new_line pretty indent (if count =? 0 then str else str ++ [44; 32]).

Fixpoint to_json (obj : QObject D) (str : bytes) (pretty : bool) (indent : nat) : bytes :=
  match obj with
  | QInt v => str ++ print_int v
  | QString s => to_json_string s str
  | QDictObj val =>
      let to_json_dict_iter (s : Z * bytes) (key : bytes) (obj : QObject D) : Z * bytes :=
        let str := to_json_string key (to_json_iter_start pretty (S indent) s) in
        (s.1 + 1, to_json obj (str ++ [58; 32]) pretty (S indent)) in
      let s := qdict_iter val to_json_dict_iter (0, str ++ [123]) in
      new_line pretty indent s.2 ++ [125]
  | QList val =>
      let to_json_list_iter (s : Z * bytes) (obj : QObject D) : Z * bytes :=
        (s.1 + 1, to_json obj (to_json_iter_start pretty (S indent) s) pretty (S indent)) in
      let s := foldl to_json_list_iter (0, str ++ [91]) val in
      new_line pretty indent s.2 ++ [93]
  | QFloat d => str ++ trim_float (print_f d)
  | QBool v => str ++ (if c_true v then [116; 114; 117; 101] else [102; 97; 108; 115; 101])
  end.

Definition qobject_to_json (obj : QObject D) : bytes := to_json obj [] false 0.

Definition qobject_to_json_pretty (obj : QObject D) : bytes := to_json obj [] true 0.

(** ** Parsing a text *)

(** [parse_json]: each message replaces the result. *)
Definition parse_json (s : option (option (QObject D) * option (list (va_value D))))
    (tokens : option (list Token)) : option (option (QObject D) * option (list (va_value D))) :=
  '(_, ap) ← s;
  json_parser_parse strtod tokens ap.

Definition qobject_from_jsonv (string : bytes) (ap : option (list (va_value D)))
  : option (option (QObject D)) :=
  '(parser, msgs1) ← json_message_parser_feed json_message_parser_init string;
  '(_, msgs2) ← json_message_parser_flush parser;
  '(result, _) ← foldl parse_json (Some (None, ap)) (msgs1 ++ msgs2);
  Some result.

Definition qobject_from_json (string : bytes) : option (option (QObject D)) :=
  qobject_from_jsonv string None.
End QJson.

(** ** Properties *)

Definition lone_byte_check (c : Z) : bool :=
  negb (0x80 <=? c)
  || bool_decide (to_json_string [c] [] = [34; 92; 117; 70; 70; 70; 70; 34]).

(** A lone byte outside ASCII is printed as the escape of U+FFFF, the same
    for all of them: the sign of [char] makes the value negative, and the
    buffer of seven bytes cuts the eight digits printed. *)
Theorem lone_byte_printed (c : Z) :
  0x80 <= c < 0x100 -> to_json_string [c] [] = [34; 92; 117; 70; 70; 70; 70; 34].
Proof.
  intros Hc. assert (lone_byte_check c = true) as Hok
    by (apply forall_byte; [vm_compute; reflexivity | lia]).
  unfold lone_byte_check in Hok. destruct (Z.leb_spec 0x80 c); [| lia].
  by apply bool_decide_eq_true in Hok.
Qed.

Lemma lone_byte_printed_witness : to_json_string [0xA9] [] = [34; 92; 117; 70; 70; 70; 70; 34].
Proof. apply lone_byte_printed. lia. Defined.
