(* ===== verification/JsonText.v ===== *)
(** * Lexing and decoding printed JSON

    Facts that connect the printer of QJson.v with the lexer and the string
    and number decoders: a printed string or number is one token, and decoding
    that token gives the string or the number back.

    [lexes st tok s ts] says that a lexer in state [st] that buffers [tok]
    turns the rest of the text [s], end of input included, into the tokens
    [ts], whatever its position is. *)

From Stdlib Require Import ZArith Lia.
From stdpp Require Import base option numbers countable gmap list.
From S2P Require Import Prelude QDict JsonLexTable JsonLexer JsonParser QJson.

Local Open Scope Z_scope.

(** ** Runs of the lexer *)

Definition strip (t : Token) : ptoken := (t.(tok_type), t.(tok_str)).

Definition strs_size (ts : list ptoken) : nat := foldr (fun t n => length t.2 + n)%nat 0%nat ts.

Lemma strs_size_cons (t : ptoken) (ts : list ptoken) :
  strs_size (t :: ts) = (length t.2 + strs_size ts)%nat.
Proof. done. Qed.

Definition lexes (st : Z) (tok s : bytes) (ts : list ptoken) : Prop :=
  Z.of_nat (length tok + length s) <= MAX_TOKEN_SIZE ->
  (strs_size ts <= length tok + length s)%nat
  /\ forall x y, exists l1 ts1 l2 ts2,
       json_lexer_feed (mkLexer st tok x y) s = Some (l1, ts1)
       /\ json_lexer_flush l1 = Some (l2, ts2)
       /\ strip <$> (ts1 ++ ts2) = ts.

(** A text lexed from the start of a token *)
Abbreviation lexes_text := (lexes IN_START []).

(** The position after a byte *)
Definition next_x (c x : Z) : Z := if c =? 10 then 0 else x + 1.
Definition next_y (c y : Z) : Z := if c =? 10 then y + 1 else y.

Lemma feed_char_unfold (st c x y : Z) (tok : bytes) (flush : bool) :
  json_lexer_feed_char (mkLexer st tok x y) c flush =
    ('(lexer, out, returned) ← feed_char_loop 2 (mkLexer st tok (next_x c x) (next_y c y)) c flush;
     if returned : bool then Some (lexer, out)
     else if MAX_TOKEN_SIZE <? Z.of_nat (length lexer.(lx_token))
     then Some (lexer_restart lexer, out ++ [emit_token lexer lexer.(lx_state)])
     else Some (lexer, out)).
Proof. unfold json_lexer_feed_char, next_x, next_y. by destruct (c =? 10). Qed.

Lemma restart_small (l : JSONLexer) :
  (MAX_TOKEN_SIZE <? Z.of_nat (length (lx_token (lexer_restart l)))) = false.
Proof. reflexivity. Qed.

Lemma max_token_pos : 0 < MAX_TOKEN_SIZE.
Proof. reflexivity. Qed.

(** The step moves on inside a token. *)
Definition moves (st c st' : Z) : bool :=
  (0 <=? c) && (c <? 256) && (json_lexer st c =? st')
  && (0 <? st') && (st' <? IN_START) && negb (TERMINAL_NEEDED_LOOKAHEAD st st').

Lemma moves_spec (st c st' : Z) :
  moves st c st' = true ->
  json_lexer st c = st' /\ 0 < st' < IN_START /\ TERMINAL_NEEDED_LOOKAHEAD st st' = false.
Proof.
  unfold moves. rewrite !andb_true_iff, !Z.ltb_lt, negb_true_iff, Z.eqb_eq. tauto.
Qed.

Lemma lexes_move (st c st' : Z) (tok s : bytes) (ts : list ptoken) :
  moves st c st' = true -> lexes st' (tok ++ [c]) s ts -> lexes st tok (c :: s) ts.
Proof.
  intros (Hst' & Hr & Hl)%moves_spec Hlex Hmax. rewrite length_cons in Hmax.
  assert (Z.of_nat (length (tok ++ [c]) + length s) <= MAX_TOKEN_SIZE) as Hmax'
    by (rewrite length_app; cbn; lia).
  destruct (Hlex Hmax') as [Hsz Hrun].
  split; [rewrite length_app in Hsz; cbn in *; lia |]. intros x y.
  destruct (Hrun (next_x c x) (next_y c y)) as (l1 & ts1 & l2 & ts2 & Hf & Hfl & Hts).
  exists l1, ts1, l2, ts2. split; [| done]. cbn [json_lexer_feed].
  rewrite feed_char_unfold, loop_move; cbn [lx_state lx_token lx_x lx_y];
    [| by rewrite Hst' | by rewrite Hst']. cbn [mbind option_bind].
  replace (MAX_TOKEN_SIZE <? _) with false
    by (symmetry; apply Z.ltb_ge; cbn [lx_token]; lia).
  rewrite Hst'. cbn [mbind option_bind]. rewrite Hf. done.
Qed.

(** A byte [c] that ends the token buffered, without belonging to it *)
Definition ends_before (st c ns : Z) : bool :=
  (json_lexer st c =? ns) && terminal ns && negb (ns =? IN_ERROR)
  && TERMINAL_NEEDED_LOOKAHEAD st ns.

(** The token a terminal state emits *)
Definition emitted (ns : Z) (tok : bytes) : list ptoken := if emits ns then [(ns, tok)] else [].

Lemma emitted_size (ns : Z) (tok : bytes) (ts : list ptoken) :
  (strs_size (emitted ns tok ++ ts) <= length tok + strs_size ts)%nat.
Proof. unfold emitted, strs_size. destruct (emits ns); cbn; lia. Qed.

Lemma terminal_out_strip (lexer : JSONLexer) (ns : Z) :
  strip <$> terminal_out lexer ns = emitted ns lexer.(lx_token).
Proof. unfold terminal_out, emitted. by destruct (emits ns). Qed.

(** A byte that ends a token and belongs to it *)
Definition ends (st c ns : Z) : bool :=
  (json_lexer st c =? ns) && emits ns && negb (TERMINAL_NEEDED_LOOKAHEAD st ns).

Lemma emits_not_error (ns : Z) : emits ns = true -> ns <> IN_ERROR.
Proof. intros He ->. done. Qed.

Lemma lexes_end (st c ns : Z) (tok s : bytes) (ts : list ptoken) :
  ends st c ns = true -> lexes_text s ts -> lexes st tok (c :: s) ((ns, tok ++ [c]) :: ts).
Proof.
  unfold ends. rewrite !andb_true_iff, negb_true_iff, Z.eqb_eq. intros [[Hns He] Hl] Hlex Hmax.
  rewrite length_cons in Hmax. destruct (Hlex ltac:(cbn; lia)) as [Hsz Hrun].
  split; [rewrite strs_size_cons; cbn [snd length] in *; rewrite length_app; cbn [length]; lia |].
  intros x y.
  destruct (Hrun (next_x c x) (next_y c y)) as (l1 & ts1 & l2 & ts2 & Hf & Hfl & Hts).
  eexists l1, (mkToken ns (tok ++ [c]) (next_x c x) (next_y c y) :: ts1), l2, ts2.
  split; [| split; [done | cbn; by rewrite Hts]]. cbn [json_lexer_feed].
  rewrite feed_char_unfold, loop_terminal; cbn [lx_state]; rewrite ?Hns;
    [| by unfold terminal; rewrite He | by apply emits_not_error | done].
  cbn [mbind option_bind]. rewrite restart_small. cbn [mbind option_bind].
  unfold lexer_restart. cbn [lx_x lx_y]. rewrite Hf. unfold terminal_out. rewrite He. done.
Qed.

Lemma loop_consumes_twice (lexer : JSONLexer) (c : Z) :
  0 <= c < 256 -> lexer.(lx_state) = IN_START ->
  feed_char_loop 2 lexer c false = feed_char_loop 1 lexer c false.
Proof.
  intros Hc Hst.
  destruct (target_cases IN_START c) as [He | [[Hm Hl] | [Ht Hr]]]; [cbv; by split | done | ..].
  - cbn [feed_char_loop]. by rewrite Hst, He.
  - by rewrite !loop_move by (rewrite Hst; done).
  - assert (json_lexer IN_START c <> IN_ERROR) by (unfold JSON_OPERATOR, IN_ERROR in *; lia).
    assert (TERMINAL_NEEDED_LOOKAHEAD IN_START (json_lexer IN_START c) = false)
      by by apply start_no_lookahead.
    by rewrite !loop_terminal by (rewrite Hst; done).
Qed.

Lemma lexes_end_before (st c ns : Z) (tok s : bytes) (ts : list ptoken) :
  0 <= c < 256 -> ends_before st c ns = true ->
  lexes_text (c :: s) ts -> lexes st tok (c :: s) (emitted ns tok ++ ts).
Proof.
  unfold ends_before. rewrite !andb_true_iff, negb_true_iff, Z.eqb_eq, Z.eqb_neq.
  intros Hc [[[Hns Ht] Hne] Hl] Hlex Hmax. destruct (Hlex ltac:(cbn in *; lia)) as [Hsz Hrun].
  split; [pose proof (emitted_size ns tok ts); cbn in *; lia |]. intros x y.
  destruct (Hrun x y) as (l1 & ts1 & l2 & ts2 & Hf & Hfl & Hts).
  eexists l1, (terminal_out (mkLexer st tok (next_x c x) (next_y c y)) ns ++ ts1), l2, ts2.
  split; [| split; [done | by rewrite <- app_assoc, fmap_app, terminal_out_strip, Hts]].
  revert Hf. cbn [json_lexer_feed]. rewrite !feed_char_unfold.
  rewrite (loop_lookahead 1 (mkLexer st tok (next_x c x) (next_y c y))); cbn [lx_state];
    rewrite ?Hns; [| done..].
  rewrite loop_consumes_twice by done. unfold lexer_restart at 1. cbn [lx_x lx_y].
  destruct (feed_char_loop 1 _ c false) as [[[l out] ret] |]; [| done]. cbn [mbind option_bind].
  destruct ret; [| destruct (MAX_TOKEN_SIZE <? _)]; cbn [mbind option_bind];
    destruct (json_lexer_feed _ s) as [[l' out'] |]; cbn [mbind option_bind]; [| done | | done | | done];
    intros [= <- <-]; by rewrite !app_assoc.
Qed.

(** The token buffered at the end of the input *)
Lemma lexes_end_input (st ns : Z) (tok : bytes) :
  st <> IN_START -> json_lexer st 0 = ns -> terminal ns = true -> ns <> IN_ERROR ->
  lexes st tok [] (emitted ns tok).
Proof.
  intros Hst Hns Ht Hne Hmax.
  split; [pose proof (emitted_size ns tok []); rewrite app_nil_r in *; cbn in *; lia |].
  intros x y. eexists _, _, _, _. split; [reflexivity |]. unfold json_lexer_flush. cbn [lx_state].
  destruct (Z.eqb_spec st IN_START); [done |]. rewrite feed_char_unfold.
  rewrite (loop_lookahead 1); cbn [lx_state]; rewrite ?Hns;
    [| done | done | unfold TERMINAL_NEEDED_LOOKAHEAD; by rewrite Hns, Z.eqb_refl].
  cbn [mbind option_bind]. rewrite restart_small. split; [done |].
  cbn [app]. by rewrite terminal_out_strip.
Qed.

Lemma lexes_nil : lexes_text [] [].
Proof. intros _. split; [done |]. intros x y. by eexists _, _, _, _. Qed.

(** *** Runs inside a token *)

Fixpoint path (st : Z) (s : bytes) (st' : Z) : bool :=
  match s with
  | [] => st =? st'
  | c :: s => moves st c (json_lexer st c) && path (json_lexer st c) s st'
  end.

Lemma path_app (st st1 st2 : Z) (s1 s2 : bytes) :
  path st s1 st1 = true -> path st1 s2 st2 = true -> path st (s1 ++ s2) st2 = true.
Proof.
  revert st. induction s1 as [| c s1 IH]; intros st; cbn.
  - rewrite Z.eqb_eq. by intros ->.
  - rewrite !andb_true_iff. intros [Hm Hp] Hp2. auto.
Qed.

Lemma lexes_path (st' : Z) (w s : bytes) (ts : list ptoken) : forall st tok,
  path st w st' = true -> lexes st' (tok ++ w) s ts -> lexes st tok (w ++ s) ts.
Proof.
  induction w as [| c w IH]; intros st tok; cbn.
  - rewrite app_nil_r, Z.eqb_eq. by intros ->.
  - rewrite andb_true_iff. intros [Hm Hp] Hlex. eapply lexes_move; [done |].
    apply IH; [done |]. by rewrite <- app_assoc.
Qed.

(** ** Strings *)

(** Well-formed UTF-8 of the characters of the basic plane, NUL excepted: what
    the 16-bit escapes can express *)
Inductive utf8_bmp : bytes -> Prop :=
| utf8_nil : utf8_bmp []
| utf8_one c s : 1 <= c < 0x80 -> utf8_bmp s -> utf8_bmp (c :: s)
| utf8_two c0 c1 s :
    0xC2 <= c0 < 0xE0 -> 0x80 <= c1 < 0xC0 -> utf8_bmp s -> utf8_bmp (c0 :: c1 :: s)
| utf8_three c0 c1 c2 s :
    0xE0 <= c0 < 0xF0 -> 0x80 <= c1 < 0xC0 -> 0x80 <= c2 < 0xC0 -> (c0 = 0xE0 -> 0xA0 <= c1) ->
    utf8_bmp s -> utf8_bmp (c0 :: c1 :: c2 :: s).

Lemma escape_loop_acc (fuel : nat) : forall s str,
  escape_loop fuel s str = str ++ escape_loop fuel s [].
Proof.
  induction fuel as [| fuel IH]; intros s str; [by rewrite app_nil_r |].
  destruct s as [| c0 s]; cbn [escape_loop]; [by rewrite app_nil_r |]. cbv zeta.
  repeat case_match; rewrite IH; cbn [app]; rewrite (IH _ (u_escape _)) || rewrite (IH _ (escape_char _));
    by rewrite app_assoc.
Qed.

(** *** The [\u] escapes, by evaluation on every code unit *)

Definition hex_ok (w : Z) : bool :=
  bool_decide (parse_ucode 4 (print_hex4 w) 0 = Some (w, []))
  && bool_decide (length (print_hex4 w) = 4%nat)
  && forallb qemu_isxdigit (print_hex4 w)
  && forallb (fun c => (0 <=? c) && (c <? 256)) (print_hex4 w).

(** The [k] least significant hexadecimal digits *)
Fixpoint hex_digits (k : nat) (n : Z) : list Z :=
  match k with
  | O => []
  | S k => n mod 16 :: hex_digits k (n / 16)
  end.

Lemma hex_digits_0 (k : nat) : hex_digits k 0 = replicate k 0.
Proof. induction k; cbn; [done |]. f_equal. exact IHk. Qed.

(** Padding with zeroes gives all the digits. *)
Lemma digits_rev_pad (k : nat) : forall (f : nat) (n : Z),
  (0 < k <= f)%nat -> 0 <= n < 16 ^ Z.of_nat k ->
  digits_rev 16 f n ++ replicate (k - length (digits_rev 16 f n)) 0 = hex_digits k n.
Proof.
  induction k as [| k IH]; intros f n Hk Hn; [lia |]. destruct f as [| f]; [lia |].
  cbn [digits_rev hex_digits app length]. rewrite Nat.sub_succ. f_equal.
  destruct (Z.eqb_spec (n / 16) 0) as [Hz | Hz].
  - rewrite Hz, hex_digits_0. cbn [app length]. by rewrite Nat.sub_0_r.
  - assert (0 <= n / 16 < 16 ^ Z.of_nat k) as Hb.
    { split; [apply Z.div_pos; lia |]. apply Z.div_lt_upper_bound; [lia |].
      rewrite <- Z.pow_succ_r by lia. rewrite <- Nat2Z.inj_succ. lia. }
    apply IH; [| exact Hb]. destruct k; [cbn in Hb; lia | lia].
Qed.

Lemma print_hex4_digits (w : Z) :
  0 <= w < 65536 ->
  print_hex4 w = hex_digit <$> [w / 4096; (w / 256) mod 16; (w / 16) mod 16; w mod 16].
Proof.
  intros Hw. unfold print_hex4. assert (wrap 32 w = w) as -> by (unfold wrap; apply Z.mod_small; lia).
  rewrite (digits_rev_pad 4 8 w) by (lia || (cbn; lia)). cbn [hex_digits].
  rewrite !Z.div_div by lia. change (16 * 16) with 256. change (256 * 16) with 4096.
  rewrite (Z.mod_small (w / 4096)) by (split; [apply Z.div_pos | apply Z.div_lt_upper_bound]; lia).
  done.
Qed.

(** A hexadecimal digit is printed as a byte that reads back. *)
Definition digit_ok (d : Z) : bool :=
  qemu_isxdigit (hex_digit d) && (hex2decimal (hex_digit d) =? d)
  && (0 <=? hex_digit d) && (hex_digit d <? 256).

Lemma digit_ok_all (d : Z) : 0 <= d < 16 -> digit_ok d = true.
Proof.
  intros Hd. assert (forallb digit_ok (seqZ 0 16) = true) as Hall by (vm_compute; reflexivity).
  rewrite forallb_forall in Hall. apply Hall, list_elem_of_In, elem_of_seqZ. lia.
Qed.

Lemma digit_facts (d : Z) :
  0 <= d < 16 ->
  qemu_isxdigit (hex_digit d) = true /\ hex2decimal (hex_digit d) = d
  /\ (0 <=? hex_digit d) && (hex_digit d <? 256) = true.
Proof.
  intros Hd. pose proof (digit_ok_all d Hd) as Hok. unfold digit_ok in Hok.
  rewrite !andb_true_iff, Z.eqb_eq in Hok. rewrite andb_true_iff. tauto.
Qed.

(** Reading one digit into a number whose low bits are still clear *)
Lemma parse_ucode_digit (n : nat) (d acc : Z) (s : bytes) :
  0 <= d < 16 -> 0 <= acc -> (acc * 16 + d) * 16 ^ Z.of_nat n < 65536 ->
  parse_ucode (S n) (hex_digit d :: s) (acc * 16 ^ Z.of_nat (S n)) =
    parse_ucode n s ((acc * 16 + d) * 16 ^ Z.of_nat n).
Proof.
  intros Hd Hacc Hlt. destruct (digit_facts d Hd) as (Hx & Hv & _). cbn [parse_ucode]. rewrite Hx, Hv.
  f_equal. assert (0 < 16 ^ Z.of_nat n) by (apply Z.pow_pos_nonneg; lia).
  assert (2 ^ (Z.of_nat n * 4) = 16 ^ Z.of_nat n) as Hpow
    by (rewrite Z.mul_comm, Z.pow_mul_r by lia; done).
  assert (Z.lor (acc * 16 ^ Z.of_nat (S n)) (Z.shiftl d (Z.of_nat n * 4)) =
          (acc * 16 + d) * 16 ^ Z.of_nat n) as ->.
  { replace (acc * 16 ^ Z.of_nat (S n)) with (Z.shiftl (Z.shiftl acc 4) (Z.of_nat n * 4)).
    - rewrite <- Z.shiftl_lor, lor_shiftl_add by (unfold in_u; lia).
      rewrite Z.shiftl_mul_pow2, Hpow by lia. change (2 ^ 4) with 16. done.
    - rewrite !Z.shiftl_mul_pow2, Hpow, Nat2Z.inj_succ, Z.pow_succ_r by lia.
      change (2 ^ 4) with 16. lia. }
  unfold wrap. apply Z.mod_small. nia.
Qed.

Lemma hex_ok_all (w : Z) : 0 <= w < 65536 -> hex_ok w = true.
Proof.
  intros Hw. unfold hex_ok. rewrite print_hex4_digits by done.
  pose proof (Z.div_mod w 16 ltac:(lia)) as H0'. pose proof (Z.div_mod (w / 16) 16 ltac:(lia)) as H1'.
  pose proof (Z.div_mod (w / 256) 16 ltac:(lia)) as H2'.
  rewrite Z.div_div in H1', H2' by lia. change (16 * 16) with 256 in *. change (256 * 16) with 4096 in *.
  pose proof (Z.mod_pos_bound w 16 ltac:(lia)) as Hd0.
  pose proof (Z.mod_pos_bound (w / 16) 16 ltac:(lia)) as Hd1.
  pose proof (Z.mod_pos_bound (w / 256) 16 ltac:(lia)) as Hd2.
  assert (0 <= w / 4096 < 16) as Hd3 by (split; [apply Z.div_pos | apply Z.div_lt_upper_bound]; lia).
  set (d3 := w / 4096) in *. set (d2 := (w / 256) mod 16) in *. set (d1 := (w / 16) mod 16) in *.
  set (d0 := w mod 16) in *. cbn [fmap list_fmap].
  destruct (digit_facts d0 Hd0) as (Hx0 & _ & Hb0). destruct (digit_facts d1 Hd1) as (Hx1 & _ & Hb1).
  destruct (digit_facts d2 Hd2) as (Hx2 & _ & Hb2). destruct (digit_facts d3 Hd3) as (Hx3 & _ & Hb3).
  cbn [forallb length]. rewrite Hx0, Hx1, Hx2, Hx3, Hb0, Hb1, Hb2, Hb3.
  rewrite (bool_decide_eq_true_2 (4%nat = 4%nat)) by done. rewrite !andb_true_r.
  apply bool_decide_eq_true. change 0 with (0 * 16 ^ Z.of_nat 4) at 1.
  rewrite (parse_ucode_digit 3 d3) by (cbn; lia). rewrite (parse_ucode_digit 2 d2) by (cbn; lia).
  rewrite (parse_ucode_digit 1 d1) by (cbn; lia). rewrite (parse_ucode_digit 0 d0) by (cbn; lia).
  cbn [parse_ucode]. do 2 f_equal. cbn. lia.
Qed.

Lemma parse_ucode_app (n : nat) : forall (s r : bytes) (w w' : Z),
  length s = n -> parse_ucode n s w = Some (w', []) -> parse_ucode n (s ++ r) w = Some (w', r).
Proof.
  induction n as [| n IH]; intros s r w w' Hlen; destruct s as [| c s]; try done; cbn.
  - by intros [= ->].
  - destruct (qemu_isxdigit c); [| done]. apply IH. by injection Hlen.
Qed.

Lemma u_escape_hex (w : Z) : 0 <= w < 65536 -> u_escape w = 92 :: 117 :: print_hex4 w.
Proof.
  intros Hw. pose proof (hex_ok_all w Hw) as Hok. unfold hex_ok in Hok.
  rewrite !andb_true_iff, !bool_decide_eq_true in Hok. destruct Hok as [[[_ Hlen] _] _].
  unfold u_escape. cbn [take]. do 2 f_equal. apply take_ge. lia.
Qed.

Lemma unescape_u (w : Z) (fuel : nat) (r acc : bytes) :
  0 <= w < 65536 ->
  unescape_loop (S fuel) true (u_escape w ++ r) acc =
    unescape_loop fuel true r (acc ++ wchar_to_utf8 w).
Proof.
  intros Hw. pose proof (hex_ok_all w Hw) as Hok. unfold hex_ok in Hok.
  rewrite !andb_true_iff, !bool_decide_eq_true in Hok. destruct Hok as [[[Hp Hlen] _] _].
  rewrite u_escape_hex by done. cbn [app unescape_loop Z.eqb Pos.eqb andb orb negb simple_escape].
  by rewrite (parse_ucode_app 4 _ _ _ _ Hlen Hp).
Qed.

Definition hex_moves (c : Z) : bool :=
  negb (qemu_isxdigit c)
  || moves IN_DQ_UCODE0 c IN_DQ_UCODE1 && moves IN_DQ_UCODE1 c IN_DQ_UCODE2
     && moves IN_DQ_UCODE2 c IN_DQ_UCODE3 && moves IN_DQ_UCODE3 c IN_DQ_STRING.

Lemma hex_moves_all (c : Z) : 0 <= c < 256 -> hex_moves c = true.
Proof. apply forall_byte. vm_compute. reflexivity. Qed.

Lemma path_cons (st c st1 st' : Z) (s : bytes) :
  moves st c st1 = true -> path st1 s st' = true -> path st (c :: s) st' = true.
Proof.
  intros Hm Hp. pose proof (moves_spec _ _ _ Hm) as [<- _]. cbn. by rewrite Hm, Hp.
Qed.

Lemma u_escape_path (w : Z) :
  0 <= w < 65536 -> path IN_DQ_STRING (u_escape w) IN_DQ_STRING = true.
Proof.
  intros Hw. pose proof (hex_ok_all w Hw) as Hok. unfold hex_ok in Hok.
  rewrite !andb_true_iff, !bool_decide_eq_true in Hok. destruct Hok as [[[_ Hlen] Hx] Hb].
  rewrite u_escape_hex by done.
  apply (path_cons _ _ IN_DQ_STRING_ESCAPE); [reflexivity |].
  apply (path_cons _ _ IN_DQ_UCODE0); [reflexivity |].
  destruct (print_hex4 w) as [| c0 [| c1 [| c2 [| c3 [|]]]]]; try done. clear Hlen.
  cbn in Hx, Hb. rewrite !andb_true_iff, !Z.leb_le, !Z.ltb_lt in *.
  assert (forall c, qemu_isxdigit c = true -> 0 <= c < 256 ->
    moves IN_DQ_UCODE0 c IN_DQ_UCODE1 && moves IN_DQ_UCODE1 c IN_DQ_UCODE2
    && moves IN_DQ_UCODE2 c IN_DQ_UCODE3 && moves IN_DQ_UCODE3 c IN_DQ_STRING = true) as Hm.
  { intros c Hc Hr. pose proof (hex_moves_all c Hr) as Hh. unfold hex_moves in Hh.
    by rewrite Hc in Hh. }
  destruct Hx as (Hx0 & Hx1 & Hx2 & Hx3 & _), Hb as (Hb0 & Hb1 & Hb2 & Hb3 & _).
  pose proof (Hm c0 Hx0 Hb0). pose proof (Hm c1 Hx1 Hb1). pose proof (Hm c2 Hx2 Hb2).
  pose proof (Hm c3 Hx3 Hb3). rewrite !andb_true_iff in *. destruct_and!.
  apply (path_cons _ _ IN_DQ_UCODE1); [done |]. apply (path_cons _ _ IN_DQ_UCODE2); [done |].
  apply (path_cons _ _ IN_DQ_UCODE3); [done |]. by apply (path_cons _ _ IN_DQ_STRING).
Qed.

(** *** One character *)

(** [e] is the escaped form of [u]: it stays inside the string token, and
    decoding it takes one iteration and yields [u]. *)
Definition escapes_to (u e : bytes) : Prop :=
  path IN_DQ_STRING e IN_DQ_STRING = true /\ e <> []
  /\ forall fuel r acc,
       unescape_loop (S fuel) true (e ++ r) acc = unescape_loop fuel true r (acc ++ u).

Lemma u_escapes_to (w : Z) : 0 <= w < 65536 -> escapes_to (wchar_to_utf8 w) (u_escape w).
Proof.
  intros Hw. split_and!; [by apply u_escape_path | by rewrite u_escape_hex |].
  intros. by apply unescape_u.
Qed.

(** The byte values that print as themselves, or as a [\u] escape *)
Definition one_ok (c : Z) : bool :=
  negb ((1 <=? c) && (c <? 0x80))
  || bool_decide (wchar_to_utf8 c = [c]) && (to_signed 8 c =? c)
     && ((c =? 34) || (c =? 92) || moves IN_DQ_STRING c IN_DQ_STRING)
     && negb (Z.land c 0xE0 =? 0xE0) && negb (Z.land c 0xE0 =? 0xC0).

Lemma one_ok_all (c : Z) : 1 <= c < 0x80 -> one_ok c = true.
Proof. intros Hc. apply forall_byte; [vm_compute; reflexivity | lia]. Qed.

Lemma one_facts (c : Z) :
  1 <= c < 0x80 ->
  wchar_to_utf8 c = [c] /\ to_signed 8 c = c
  /\ (c = 34 \/ c = 92 \/ moves IN_DQ_STRING c IN_DQ_STRING = true)
  /\ (Z.land c 0xE0 =? 0xE0) = false /\ (Z.land c 0xE0 =? 0xC0) = false.
Proof.
  intros Hc. pose proof (one_ok_all c Hc) as Hok. unfold one_ok in Hok.
  replace ((1 <=? c) && (c <? 0x80)) with true in Hok
    by (symmetry; apply andb_true_iff; rewrite Z.leb_le, Z.ltb_lt; lia).
  cbn [negb orb] in Hok.
  rewrite !andb_true_iff, !orb_true_iff, bool_decide_eq_true, !negb_true_iff, !Z.eqb_eq in Hok.
  tauto.
Qed.

Lemma escape_char_ok (c : Z) : 1 <= c < 0x80 -> escapes_to [c] (escape_char c).
Proof.
  intros Hc. destruct (one_facts c Hc) as (Hw & Hs & Hm & _). unfold escape_char.
  destruct (Z.eqb_spec c 34) as [-> | H34]; [by split_and! |].
  destruct (Z.eqb_spec c 92) as [-> | H92]; [by split_and! |].
  do 5 (match goal with |- context [c =? ?k] =>
          destruct (Z.eqb_spec c k) as [-> |]; [by split_and! |] end).
  rewrite Hs. destruct (Z.leb_spec c 0x1F).
  - rewrite <- Hw at 1. apply u_escapes_to. lia.
  - destruct Hm as [? | [? | Hm]]; [done.. |]. split_and!; [| done |].
    + eapply path_cons; [done | reflexivity].
    + intros fuel r acc. cbn [app unescape_loop].
      destruct (Z.eqb_spec c 34), (Z.eqb_spec c 92); done.
Qed.

Definition two_ok (c0 c1 : Z) : bool :=
  let w := Z.lor (Z.shiftl (Z.land c0 0x1F) 6) (Z.land c1 0x3F) in
  negb ((0xC2 <=? c0) && (c0 <? 0xE0) && (0x80 <=? c1) && (c1 <? 0xC0))
  || bool_decide (wchar_to_utf8 w = [c0; c1]) && (0 <=? w) && (w <? 65536)
     && negb (Z.land c0 0xE0 =? 0xE0) && (Z.land c0 0xE0 =? 0xC0) && negb (Z.land c1 0x80 =? 0).

Lemma two_ok_all (c0 c1 : Z) :
  0xC2 <= c0 < 0xE0 -> 0x80 <= c1 < 0xC0 -> two_ok c0 c1 = true.
Proof.
  intros Hc0 Hc1.
  assert (forallb (fun c0 => forallb (two_ok c0) (seqZ 0x80 64)) (seqZ 0xC2 30) = true) as Hall
    by (vm_compute; reflexivity).
  rewrite forallb_forall in Hall. specialize (Hall c0). rewrite forallb_forall in Hall.
  apply Hall; apply list_elem_of_In, elem_of_seqZ; lia.
Qed.

Definition three_ok (c0 c1 c2 : Z) : bool :=
  let w := Z.lor (Z.lor (wrap 16 (Z.shiftl (Z.land c0 0x0F) 12)) (Z.shiftl (Z.land c1 0x3F) 6))
             (Z.land c2 0x3F) in
  ((c0 =? 0xE0) && (c1 <? 0xA0))
  || bool_decide (wchar_to_utf8 w = [c0; c1; c2]) && (0 <=? w) && (w <? 65536)
     && (Z.land c0 0xE0 =? 0xE0) && negb (Z.land c1 0x80 =? 0) && negb (Z.land c2 0x80 =? 0).

(** The payload bits of a lead byte and of a continuation byte *)
Definition lead_ok (c : Z) : bool :=
  (Z.land c 0x0F =? c - 0xE0) && (Z.lor 0xE0 (Z.land (c - 0xE0) 0x0F) =? c) && (Z.land c 0xE0 =? 0xE0).

Definition cont_ok (c : Z) : bool :=
  (Z.land c 0x3F =? c - 0x80) && (Z.lor 0x80 (c - 0x80) =? c) && negb (Z.land c 0x80 =? 0).

Lemma lead_ok_all (c : Z) : 0xE0 <= c < 0xF0 -> lead_ok c = true.
Proof.
  intros Hc. assert (forallb lead_ok (seqZ 0xE0 16) = true) as Hall by (vm_compute; reflexivity).
  rewrite forallb_forall in Hall. apply Hall, list_elem_of_In, elem_of_seqZ. lia.
Qed.

Lemma cont_ok_all (c : Z) : 0x80 <= c < 0xC0 -> cont_ok c = true.
Proof.
  intros Hc. assert (forallb cont_ok (seqZ 0x80 64) = true) as Hall by (vm_compute; reflexivity).
  rewrite forallb_forall in Hall. apply Hall, list_elem_of_In, elem_of_seqZ. lia.
Qed.

(** Packing and unpacking three payloads *)
Lemma wchar_three (a b c : Z) :
  0 <= a < 16 -> 0 <= b < 64 -> 0 <= c < 64 ->
  Z.lor (Z.lor (wrap 16 (Z.shiftl a 12)) (Z.shiftl b 6)) c = a * 4096 + b * 64 + c
  /\ Z.shiftr (a * 4096 + b * 64 + c) 12 = a
  /\ Z.land (Z.shiftr (a * 4096 + b * 64 + c) 6) 0x3F = b
  /\ Z.land (a * 4096 + b * 64 + c) 0x3F = c.
Proof.
  intros Ha Hb Hc. change 0x3F with (Z.ones 6). rewrite !Z.land_ones, !Z.shiftr_div_pow2 by lia.
  change (2 ^ 12) with 4096. change (2 ^ 6) with 64. split_and!.
  - assert (wrap 16 (Z.shiftl a 12) = Z.shiftl a 12) as ->
      by (unfold wrap; rewrite Z.shiftl_mul_pow2 by lia; apply Z.mod_small; lia).
    replace (Z.shiftl a 12) with (Z.shiftl (Z.shiftl a 6) 6) by (rewrite Z.shiftl_shiftl by lia; done).
    rewrite <- Z.shiftl_lor, !lor_shiftl_add by (unfold in_u; lia). change (2 ^ 6) with 64. lia.
  - symmetry. apply (Z.div_unique_pos _ _ _ (b * 64 + c)); lia.
  - rewrite <- (Z.div_unique_pos (a * 4096 + b * 64 + c) 64 (a * 64 + b) c) by lia.
    symmetry. apply (Z.mod_unique_pos _ _ a); lia.
  - symmetry. apply (Z.mod_unique_pos _ _ (a * 64 + b)); lia.
Qed.

Lemma three_ok_all (c0 c1 c2 : Z) :
  0xE0 <= c0 < 0xF0 -> 0x80 <= c1 < 0xC0 -> 0x80 <= c2 < 0xC0 -> three_ok c0 c1 c2 = true.
Proof.
  intros Hc0 Hc1 Hc2. pose proof (lead_ok_all c0 Hc0) as H0'. pose proof (cont_ok_all c1 Hc1) as H1'.
  pose proof (cont_ok_all c2 Hc2) as H2'. unfold lead_ok, cont_ok in *.
  rewrite !andb_true_iff, !negb_true_iff, !Z.eqb_eq in *.
  destruct H0' as [[Hl0 Ho0] Hm0], H1' as [[Hl1 Ho1] Hm1], H2' as [[Hl2 Ho2] Hm2].
  unfold three_ok. rewrite Hl0, Hl1, Hl2, Hm0, Hm1, Hm2. cbn [negb].
  destruct (wchar_three (c0 - 0xE0) (c1 - 0x80) (c2 - 0x80)) as (-> & Hs & Hb & Hc); [lia.. |].
  cbv zeta. set (w := (c0 - 0xE0) * 4096 + (c1 - 0x80) * 64 + (c2 - 0x80)) in *.
  destruct ((c0 =? 0xE0) && (c1 <? 0xA0)) eqn:Hov; [done |]. cbn [orb].
  assert (0x800 <= w < 65536) as Hw.
  { apply andb_false_iff in Hov. rewrite Z.eqb_neq, Z.ltb_ge in Hov. subst w. lia. }
  rewrite !andb_true_iff, Z.leb_le, Z.ltb_lt, bool_decide_eq_true. split_and!; try (done || lia).
  unfold wchar_to_utf8. destruct (Z.leb_spec w 0x7F); [lia |]. destruct (Z.leb_spec w 0x7FF); [lia |].
  by rewrite Hs, Hb, Hc, Ho0, Ho1, Ho2.
Qed.

(** *** Whole strings *)

Lemma escape_loop_two (fuel : nat) (c0 c1 : Z) (s str : bytes) :
  (Z.land c0 0xE0 =? 0xE0) = false -> (Z.land c0 0xE0 =? 0xC0) = true ->
  (Z.land c1 0x80 =? 0) = false ->
  escape_loop (S fuel) (c0 :: c1 :: s) str =
    escape_loop fuel s (str ++ u_escape (Z.lor (Z.shiftl (Z.land c0 0x1F) 6) (Z.land c1 0x3F))).
Proof. intros Hn3 H2 Hc. cbn. by rewrite Hn3, H2, Hc. Qed.

Lemma escape_loop_three (fuel : nat) (c0 c1 c2 : Z) (s str : bytes) :
  (Z.land c0 0xE0 =? 0xE0) = true -> (Z.land c1 0x80 =? 0) = false ->
  (Z.land c2 0x80 =? 0) = false ->
  escape_loop (S fuel) (c0 :: c1 :: c2 :: s) str =
    escape_loop fuel s (str ++ u_escape
      (Z.lor (Z.lor (wrap 16 (Z.shiftl (Z.land c0 0x0F) 12)) (Z.shiftl (Z.land c1 0x3F) 6))
         (Z.land c2 0x3F))).
Proof. intros H3 Hc Hc'. cbn. by rewrite H3, Hc, Hc'. Qed.

(** Prefixing one escaped character to an escaped string *)
Definition string_ok (s e : bytes) : Prop :=
  path IN_DQ_STRING e IN_DQ_STRING = true
  /\ forall fuel r acc, (length e < fuel)%nat ->
       unescape_loop fuel true (e ++ 34 :: r) acc = inr (acc ++ s).

Lemma string_ok_cons (u e s es : bytes) :
  escapes_to u e -> string_ok s es -> string_ok (u ++ s) (e ++ es).
Proof.
  intros (Hp & Hne & Hu) [Hps Hs]. split; [by eapply path_app |].
  intros fuel r acc Hf. rewrite length_app in Hf. destruct fuel as [| fuel]; [lia |].
  rewrite <- app_assoc, Hu, Hs; [by rewrite app_assoc |]. destruct e; [done |]. cbn in Hf. lia.
Qed.

Lemma escape_loop_ok (s : bytes) :
  utf8_bmp s -> forall fuel, (length s <= fuel)%nat -> string_ok s (escape_loop fuel s []).
Proof.
  induction 1 as [| c s Hc Hs IH | c0 c1 s Hc0 Hc1 Hs IH | c0 c1 c2 s Hc0 Hc1 Hc2 Hov Hs IH];
    intros fuel Hf; (destruct fuel as [| fuel]; [try (cbn in Hf; lia) |]).
  - split; [done |]. intros fuel r acc Hf'. destruct fuel; [cbn in Hf'; lia |].
    cbn. by rewrite app_nil_r.
  - split; [done |]. intros fuel' r acc Hf'. destruct fuel'; [cbn in Hf'; lia |].
    cbn. by rewrite app_nil_r.
  - destruct (one_facts c Hc) as (_ & _ & _ & Hn3 & Hn2). cbn [escape_loop]. cbv zeta.
    rewrite Hn3, Hn2. cbn [andb]. rewrite escape_loop_acc. apply (string_ok_cons [c]).
    + by apply escape_char_ok.
    + apply IH. cbn in Hf. lia.
  - pose proof (two_ok_all c0 c1 Hc0 Hc1) as Hok. unfold two_ok in Hok.
    replace ((0xC2 <=? c0) && (c0 <? 0xE0) && (0x80 <=? c1) && (c1 <? 0xC0)) with true in Hok
      by (symmetry; rewrite !andb_true_iff, !Z.leb_le, !Z.ltb_lt; lia).
    cbn [negb orb] in Hok.
    rewrite !andb_true_iff, !negb_true_iff, bool_decide_eq_true, Z.leb_le, Z.ltb_lt in Hok.
    destruct Hok as [[[[[Hw Hlo] Hhi] Hn3] H2] Hc].
    rewrite escape_loop_two, escape_loop_acc by done. apply (string_ok_cons [c0; c1]).
    + rewrite <- Hw. apply u_escapes_to. lia.
    + apply IH. cbn in Hf. lia.
  - pose proof (three_ok_all c0 c1 c2 Hc0 Hc1 Hc2) as Hok. unfold three_ok in Hok.
    replace ((c0 =? 0xE0) && (c1 <? 0xA0)) with false in Hok
      by (symmetry; destruct (Z.eqb_spec c0 0xE0); [apply Z.ltb_ge; auto | done]).
    cbn [orb] in Hok.
    rewrite !andb_true_iff, !negb_true_iff, bool_decide_eq_true, Z.leb_le, Z.ltb_lt in Hok.
    destruct Hok as [[[[[Hw Hlo] Hhi] H3] Hc] Hc'].
    rewrite escape_loop_three, escape_loop_acc by done. apply (string_ok_cons [c0; c1; c2]).
    + rewrite <- Hw. apply u_escapes_to. lia.
    + apply IH. cbn in Hf. lia.
Qed.

Definition quoted (s : bytes) : bytes := to_json_string s [].

Lemma to_json_string_acc (s str : bytes) : to_json_string s str = str ++ quoted s.
Proof.
  unfold quoted, to_json_string.
  rewrite (escape_loop_acc _ _ (str ++ [34])), (escape_loop_acc _ _ ([] ++ [34])).
  by rewrite <- !app_assoc.
Qed.

Lemma quoted_cons (s : bytes) : quoted s = 34 :: escape_loop (length s) s [] ++ [34].
Proof. unfold quoted, to_json_string. by rewrite escape_loop_acc. Qed.

Lemma lexes_quoted (s r : bytes) (ts : list ptoken) :
  utf8_bmp s -> lexes_text r ts -> lexes_text (quoted s ++ r) ((JSON_STRING, quoted s) :: ts).
Proof.
  intros Hs Hr. destruct (escape_loop_ok s Hs (length s) ltac:(done)) as [Hp _].
  rewrite quoted_cons. cbn [app]. rewrite <- app_assoc.
  apply (lexes_move _ _ IN_DQ_STRING); [reflexivity |].
  apply (lexes_path IN_DQ_STRING); [done |]. cbn [app].
  apply (lexes_end IN_DQ_STRING 34 JSON_STRING (34 :: escape_loop (length s) s [])); [reflexivity | done].
Qed.

Lemma quoted_decodes (s : bytes) : utf8_bmp s -> qstring_from_escaped_str (quoted s) = Some (inr s).
Proof.
  intros Hs. destruct (escape_loop_ok s Hs (length s) ltac:(done)) as [_ Hu].
  rewrite quoted_cons. cbn [qstring_from_escaped_str Z.eqb Pos.eqb]. f_equal. apply (Hu _ [] []).
  rewrite length_app. cbn. lia.
Qed.

(** ** Numbers *)

Definition is_digit (d : Z) : bool := (48 <=? d) && (d <=? 57).

Lemma digits_value_app (s : bytes) (d : Z) : forall acc,
  forallb is_digit s = true -> is_digit d = true ->
  digits_value (s ++ [d]) acc = digits_value s acc * 10 + (d - 48).
Proof.
  induction s as [| c s IH]; intros acc Hs Hd; cbn; unfold is_digit in *.
  - by rewrite Hd.
  - cbn in Hs. apply andb_true_iff in Hs as [Hc Hs]. rewrite Hc. by apply IH.
Qed.

Lemma print_digits (fuel : nat) : forall n,
  0 <= n < 10 ^ Z.of_nat fuel ->
  let s := rev ((fun d => 48 + d) <$> digits_rev 10 fuel n) in
  forallb is_digit s = true /\ digits_value s 0 = n
  /\ (n = 0 -> fuel <> O -> s = [48]) /\ (0 < n -> exists c s', s = c :: s' /\ 49 <= c <= 57).
Proof.
  induction fuel as [| fuel IH]; intros n Hn; cbn zeta.
  { cbn in *. assert (n = 0) as -> by lia. split_and!; done. }
  cbn [digits_rev]. pose proof (Z.mod_pos_bound n 10 ltac:(lia)) as Hm.
  pose proof (Z.div_mod n 10 ltac:(lia)) as Hdm.
  assert (is_digit (48 + n mod 10) = true) as Hd
    by (unfold is_digit; rewrite andb_true_iff, !Z.leb_le; lia).
  destruct (Z.eqb_spec (n / 10) 0) as [H0 | H0].
  - cbn. rewrite Hd. unfold is_digit in Hd. rewrite Hd. split_and!; [done | lia | |].
    + by intros ->.
    + intros Hpos. eexists _, _. split; [done |]. lia.
  - rewrite fmap_cons. cbn [rev].
    assert (0 <= n / 10 < 10 ^ Z.of_nat fuel) as Hb.
    { split; [apply Z.div_pos; lia |]. apply Z.div_lt_upper_bound; [lia |].
      rewrite <- Z.pow_succ_r by lia. rewrite <- Nat2Z.inj_succ. lia. }
    destruct (IH (n / 10) Hb) as (Hall & Hv & _ & Hpos').
    rewrite forallb_app, Hall. cbn [forallb]. rewrite Hd.
    rewrite digits_value_app, Hv by done. split_and!; [done | lia | lia |].
    intros _. destruct Hpos' as (c & s' & -> & Hc); [lia |]. by eexists _, _.
Qed.

Definition int64 (v : Z) : Prop := INT64_MIN <= v <= INT64_MAX.

Lemma print_int_strtoll (v : Z) : int64 v -> strtoll (print_int v) = v.
Proof.
  unfold int64, INT64_MIN, INT64_MAX. intros Hv. unfold print_int.
  destruct (print_digits 20 (Z.abs v)) as (Hall & Hval & Hz & Hnz); [cbn; lia |].
  unfold strtoll, INT64_MIN, INT64_MAX.
  destruct (Z.ltb_spec v 0).
  - rewrite Hval. lia.
  - assert (forall s, forallb is_digit s = true -> digits_value s 0 = Z.abs v ->
      match s with 45 :: s => - digits_value s 0 | s => digits_value s 0 end = v) as Hd.
    { intros s Hs Hsv. destruct s as [| c s]; [cbn in *; lia |].
      cbn [forallb] in Hs. apply andb_true_iff in Hs as [Hc _].
      destruct (Z.eq_dec c 45) as [-> | Hne]; [done |].
      transitivity (digits_value (c :: s) 0); [| lia]. clear Hsv Hc.
      destruct c as [| p | p]; [done | | done]. repeat (destruct p as [p | p |]; try done). }
    rewrite (Hd _ Hall Hval). lia.
Qed.

(** ** Tokens that end before the next byte *)

(** What can follow a value in printed text: a comma, a closing bracket or
    brace, a new line, or the end *)
Definition delim (s : bytes) : bool :=
  match s with
  | [] => true
  | c :: _ => (c =? 44) || (c =? 93) || (c =? 125) || (c =? 10)
  end.

Lemma lexes_delim (st ns : Z) (tok s : bytes) (ts : list ptoken) :
  forallb (fun c => ends_before st c ns) [0; 10; 44; 93; 125] = true -> emits ns = true ->
  st <> IN_START -> delim s = true -> lexes_text s ts -> lexes st tok s ((ns, tok) :: ts).
Proof.
  intros Hends He Hst Hd Hlex. cbn in Hends. rewrite !andb_true_iff in Hends.
  destruct Hends as (H0' & H10 & H44 & H93 & H125 & _).
  assert (emitted ns tok = [(ns, tok)]) as Hem by (unfold emitted; by rewrite He).
  destruct s as [| c s].
  - unfold ends_before in H0'. rewrite !andb_true_iff, negb_true_iff, Z.eqb_eq, Z.eqb_neq in H0'.
    destruct H0' as [[[? ?] ?] ?].
    assert (ts = []) as ->.
    { destruct (Hlex ltac:(cbn; done)) as [_ Hrun].
      destruct (Hrun 0 0) as (l1 & ts1 & l2 & ts2 & [= <- <-] & Hfl & <-).
      cbn in Hfl. by simplify_eq. }
    rewrite <- Hem. by apply lexes_end_input.
  - change ((ns, tok) :: ts) with ([(ns, tok)] ++ ts). rewrite <- Hem. cbn in Hd.
    rewrite !orb_true_iff, !Z.eqb_eq in Hd.
    destruct Hd as [[[-> | ->] | ->] | ->];
      (apply lexes_end_before; [lia | assumption | assumption]).
Qed.

Definition digit_check (c : Z) : bool :=
  negb (is_digit c)
  || moves IN_NONZERO_NUMBER c IN_NONZERO_NUMBER
     && ((c =? 48) || moves IN_START c IN_NONZERO_NUMBER
                      && moves IN_NEG_NONZERO_NUMBER c IN_NONZERO_NUMBER).

Lemma digit_moves (c : Z) :
  is_digit c = true ->
  moves IN_NONZERO_NUMBER c IN_NONZERO_NUMBER = true
  /\ (c = 48 \/ moves IN_START c IN_NONZERO_NUMBER = true
               /\ moves IN_NEG_NONZERO_NUMBER c IN_NONZERO_NUMBER = true).
Proof.
  intros Hc. assert (digit_check c = true) as Hd.
  { apply forall_byte; [vm_compute; reflexivity |].
    unfold is_digit in Hc. rewrite andb_true_iff, !Z.leb_le in Hc. lia. }
  unfold digit_check in Hd. rewrite Hc in Hd. cbn [negb orb] in Hd.
  by rewrite !andb_true_iff, orb_true_iff, andb_true_iff, Z.eqb_eq in Hd.
Qed.

Lemma digits_path (s : bytes) :
  forallb is_digit s = true -> path IN_NONZERO_NUMBER s IN_NONZERO_NUMBER = true.
Proof.
  induction s as [| c s IH]; cbn [forallb]; [done |]. rewrite andb_true_iff. intros [Hc Hs].
  destruct (digit_moves c Hc) as [Hm _]. eapply path_cons; [exact Hm | auto].
Qed.

(** A printed integer is one token, in one of the two states of integers. *)
Lemma print_int_path (v : Z) :
  int64 v ->
  path IN_START (print_int v) IN_ZERO = true \/ path IN_START (print_int v) IN_NONZERO_NUMBER = true.
Proof.
  unfold int64, INT64_MIN, INT64_MAX. intros Hv. unfold print_int.
  destruct (print_digits 20 (Z.abs v)) as (Hall & _ & Hz & Hnz); [cbn; lia |].
  destruct (Z.eq_dec v 0) as [-> | Hne].
  { left. reflexivity. }
  right. destruct Hnz as (c & s & Heq & Hc); [lia |]. rewrite Heq in *. cbn [forallb] in Hall.
  apply andb_true_iff in Hall as [Hd Hs]. pose proof (digits_path s Hs) as Hp.
  destruct (digit_moves c Hd) as [_ [? | [Hm1 Hm2]]]; [lia |].
  destruct (v <? 0).
  - eapply (path_cons _ _ IN_NEG_NONZERO_NUMBER); [reflexivity |]. by eapply path_cons.
  - by eapply path_cons.
Qed.

Lemma lexes_int (v : Z) (s : bytes) (ts : list ptoken) :
  int64 v -> delim s = true -> lexes_text s ts ->
  lexes_text (print_int v ++ s) ((JSON_INTEGER, print_int v) :: ts).
Proof.
  intros Hv Hd Hs. destruct (print_int_path v Hv) as [Hp | Hp]; (eapply lexes_path; [exact Hp |]);
    (apply lexes_delim; [vm_compute; reflexivity | reflexivity | discriminate | exact Hd | exact Hs]).
Qed.

(** The text of a boolean *)
Definition bool_text (v : Z) : bytes :=
  if c_true v then [116; 114; 117; 101] else [102; 97; 108; 115; 101].

Lemma lexes_bool (v : Z) (s : bytes) (ts : list ptoken) :
  delim s = true -> lexes_text s ts ->
  lexes_text (bool_text v ++ s) ((JSON_KEYWORD, bool_text v) :: ts).
Proof.
  intros Hd Hs. apply (lexes_path IN_KEYWORD).
  - unfold bool_text. destruct (c_true v); vm_compute; reflexivity.
  - apply lexes_delim; [vm_compute; reflexivity | reflexivity | discriminate | exact Hd | exact Hs].
Qed.

(** ** Operators and white space *)

Lemma lexes_op (c : Z) (s : bytes) (ts : list ptoken) :
  c ∈ [44; 58; 91; 93; 123; 125] -> lexes_text s ts ->
  lexes_text (c :: s) ((JSON_OPERATOR, [c]) :: ts).
Proof.
  intros Hc Hs. apply (lexes_end IN_START c JSON_OPERATOR []); [| exact Hs].
  rewrite !elem_of_cons, elem_of_nil in Hc. decompose [or] Hc; subst; done || reflexivity.
Qed.

Definition is_ws (c : Z) : bool := (c =? 32) || (c =? 10).

(** The first byte of a token of printed text *)
Definition starts_token (s : bytes) : bool :=
  match s with
  | [] => false
  | c :: _ => is_digit c || (c =? 34) || (c =? 45) || (c =? 91) || (c =? 93) || (c =? 102)
              || (c =? 116) || (c =? 123) || (c =? 125)
  end.

Definition starts_check (c : Z) : bool :=
  negb (starts_token [c]) || ends_before IN_WHITESPACE c JSON_SKIP.

Lemma starts_token_ends (c : Z) (s : bytes) :
  starts_token (c :: s) = true -> 0 <= c < 256 /\ ends_before IN_WHITESPACE c JSON_SKIP = true.
Proof.
  intros Hc. assert (0 <= c < 256) as Hr.
  { cbn in Hc. unfold is_digit in Hc. rewrite !orb_true_iff, andb_true_iff, !Z.leb_le, !Z.eqb_eq in Hc. lia. }
  split; [exact Hr |]. assert (starts_check c = true) as Hok
    by (apply forall_byte; [vm_compute; reflexivity | exact Hr]).
  unfold starts_check in Hok. change (starts_token [c]) with (starts_token (c :: s)) in Hok.
  by rewrite Hc in Hok.
Qed.

Lemma lexes_in_ws (w s : bytes) (ts : list ptoken) : forall tok,
  forallb is_ws w = true -> starts_token s = true -> lexes_text s ts ->
  lexes IN_WHITESPACE tok (w ++ s) ts.
Proof.
  induction w as [| c w IH]; intros tok Hw Hst Hs; cbn [app].
  - destruct s as [| c s]; [done |]. destruct (starts_token_ends c s Hst) as [Hc He].
    apply (lexes_end_before _ c JSON_SKIP tok s ts Hc He Hs).
  - cbn [forallb] in Hw. apply andb_true_iff in Hw as [Hc Hw].
    apply (lexes_move _ _ IN_WHITESPACE); [| by apply IH].
    unfold is_ws in Hc. apply orb_true_iff in Hc as [->%Z.eqb_eq | ->%Z.eqb_eq]; reflexivity.
Qed.

Lemma lexes_ws (w s : bytes) (ts : list ptoken) :
  forallb is_ws w = true -> starts_token s = true -> lexes_text s ts -> lexes_text (w ++ s) ts.
Proof.
  destruct w as [| c w]; [done |]. cbn [forallb app]. rewrite andb_true_iff. intros [Hc Hw] Hst Hs.
  apply (lexes_move _ _ IN_WHITESPACE); [| by apply lexes_in_ws].
  unfold is_ws in Hc. apply orb_true_iff in Hc as [->%Z.eqb_eq | ->%Z.eqb_eq]; reflexivity.
Qed.
