(* ===== verification/QJsonRoundTrip.v ===== *)
(** * Printing and parsing objects: the round trip (qemu/qjson.c)

    [qobject_from_json] applied to the text of [qobject_to_json] or
    [qobject_to_json_pretty] returns the printed object, up to [qobj_equiv]:
    dictionaries may list their bindings in another order, and every true
    boolean comes back as 1.  The proof follows the pipeline: the text lexes to
    the tokens [toks obj], the streamer hands them over as one message, and
    the parser builds [rebuild obj] from them.  The typed accessors of
    QDictGet.v cannot tell equivalent dictionaries apart. *)

From Stdlib Require Import ZArith Lia.
From stdpp Require Import base option numbers countable gmap list.
From S2P Require Import Prelude QDict JsonLexTable JsonLexer JsonParser QDictGet QJson JsonText.

Local Open Scope Z_scope.

(** ** Induction on objects *)

Section Induction.
Context {D : Type} (P : QObject D -> Prop).
Hypothesis Pint : forall v, P (QInt v).
Hypothesis Pstr : forall s, P (QString s).
Hypothesis Pfloat : forall d, P (QFloat d).
Hypothesis Pbool : forall v, P (QBool v).
Hypothesis Plist : forall l, Forall P l -> P (QList l).
Hypothesis Pdict : forall d, Forall (fun e => P e.2) (qdict_entries d) -> P (QDictObj d).

Fixpoint qobject_ind' (obj : QObject D) : P obj :=
  match obj with
  | QInt v => Pint v
  | QString s => Pstr s
  | QFloat d => Pfloat d
  | QBool v => Pbool v
  | QList l =>
      Plist l ((fix go (l : list (QObject D)) : Forall P l :=
                  match l with
                  | [] => Forall_nil_2 _
                  | o :: l => Forall_cons_2 _ _ _ (qobject_ind' o) (go l)
                  end) l)
  | QDictObj (mkQDict n t) =>
      Pdict (mkQDict n t)
        ((fix gos (t : list (list (bytes * QObject D)))
            : Forall (fun e => P e.2) (concat t) :=
            match t with
            | [] => Forall_nil_2 _
            | c :: t =>
                Forall_app_2 _ _ _
                  ((fix go (c : list (bytes * QObject D)) : Forall (fun e => P e.2) c :=
                      match c with
                      | [] => Forall_nil_2 _
                      | e :: c => Forall_cons_2 _ _ _ (qobject_ind' e.2) (go c)
                      end) c)
                  (gos t)
            end) t)
  end.
End Induction.

(** ** Specification *)

Section Spec.
Context {D : Type}.

(** Objects the text can represent: 64-bit integers, strings of the basic
    plane, well-formed dictionaries, no floating point number *)
#[warnings="-register-all"]
Inductive printable : QObject D -> Prop :=
| printable_int v : int64 v -> printable (QInt v)
| printable_str s : utf8_bmp s -> printable (QString s)
| printable_bool v : printable (QBool v)
| printable_list l : Forall printable l -> printable (QList l)
| printable_dict d :
    qdict_wf d -> Forall (fun e => utf8_bmp e.1 /\ printable e.2) (qdict_entries d) ->
    printable (QDictObj d).

(** Equality up to the order in dictionaries and the value of true *)
#[warnings="-register-all"]
Inductive qobj_equiv : QObject D -> QObject D -> Prop :=
| equiv_int v : qobj_equiv (QInt v) (QInt v)
| equiv_str s : qobj_equiv (QString s) (QString s)
| equiv_bool v v' : c_true v = c_true v' -> qobj_equiv (QBool v) (QBool v')
| equiv_list l l' : Forall2 qobj_equiv l l' -> qobj_equiv (QList l) (QList l')
| equiv_dict d d' :
    qdict_wf d -> qdict_wf d' ->
    (forall k, option_Forall2 qobj_equiv (qdict_get d k) (qdict_get d' k)) ->
    qobj_equiv (QDictObj d) (QDictObj d').

Definition max_list (l : list nat) : nat := foldr Nat.max 0%nat l.

(** The nesting depth of lists and dictionaries *)
Fixpoint depth (obj : QObject D) : nat :=
  match obj with
  | QList l => S (max_list (map depth l))
  | QDictObj d => S (max_list (concat (map (map (fun e => depth e.2)) d.(qd_table))))
  | _ => 0
  end.

(** ** The tokens of an object *)

Definition op (c : Z) : ptoken := (JSON_OPERATOR, [c]).

(** Groups separated by commas *)
Definition commas (gs : list (list ptoken)) : list ptoken :=
  match gs with
  | [] => []
  | g :: gs => g ++ concat (map (cons (op 44)) gs)
  end.

Fixpoint toks (obj : QObject D) : list ptoken :=
  match obj with
  | QInt v => [(JSON_INTEGER, print_int v)]
  | QString s => [(JSON_STRING, quoted s)]
  | QFloat _ => []
  | QBool v => [(JSON_KEYWORD, bool_text v)]
  | QList l => op 91 :: commas (map toks l) ++ [op 93]
  | QDictObj d =>
      op 123
      :: commas (concat (map (map (fun e => (JSON_STRING, quoted e.1) :: op 58 :: toks e.2))
                   d.(qd_table)))
      ++ [op 125]
  end.

Definition pair_toks (e : bytes * QObject D) : list ptoken :=
  (JSON_STRING, quoted e.1) :: op 58 :: toks e.2.

Lemma toks_dict (d : QDict (QObject D)) :
  toks (QDictObj d) = op 123 :: commas (map pair_toks (qdict_entries d)) ++ [op 125].
Proof. cbn. unfold qdict_entries. by rewrite concat_map. Qed.

Lemma depth_dict (d : QDict (QObject D)) :
  depth (QDictObj d) = S (max_list (map (fun e => depth e.2) (qdict_entries d))).
Proof. cbn. unfold qdict_entries. by rewrite concat_map. Qed.

(** The object the parser builds: dictionaries are filled in printed order. *)
Fixpoint rebuild (obj : QObject D) : QObject D :=
  match obj with
  | QBool v => QBool (if c_true v then 1 else 0)
  | QList l => QList (map rebuild l)
  | QDictObj d =>
      QDictObj (qdict_iter d (fun d' k v => qdict_put_obj d' k (rebuild v)) qdict_new)
  | _ => obj
  end.
End Spec.

(** ** The printed text *)

Section Text.
Context {D : Type} (print_f : D -> bytes) (pretty : bool).

Definition text (indent : nat) (obj : QObject D) : bytes := to_json print_f obj [] pretty indent.

Definition nl (indent : nat) : bytes := new_line pretty indent [].

Lemma new_line_acc (indent : nat) (str : bytes) : new_line pretty indent str = str ++ nl indent.
Proof. unfold nl, new_line. by destruct pretty; [| rewrite app_nil_r]. Qed.

Lemma nl_ws (indent : nat) : forallb is_ws (nl indent) = true.
Proof.
  unfold nl, new_line. destruct pretty; [| done]. cbn. induction indent; [done |]. cbn. done.
Qed.

(** Items with their separators *)
Fixpoint items_text (indent : nat) (first : bool) (bodies : list bytes) : bytes :=
  match bodies with
  | [] => []
  | b :: bodies =>
      (if first then [] else [44; 32]) ++ nl indent ++ b ++ items_text indent false bodies
  end.

Lemma iter_text {A} (f : Z * bytes -> A -> Z * bytes) (body : A -> bytes) (indent : nat)
    (l : list A) :
  Forall (fun a => forall s, f s a =
    (s.1 + 1, to_json_iter_start pretty indent s ++ body a)) l ->
  forall n str, 0 <= n ->
  (foldl f (n, str) l).2 = str ++ items_text indent (n =? 0) (map body l).
Proof.
  induction 1 as [| a l Ha Hl IH]; intros n str Hn; cbn; [by rewrite app_nil_r |].
  rewrite Ha. cbn [fst]. rewrite IH by lia. destruct (Z.eqb_spec (n + 1) 0); [lia |].
  unfold to_json_iter_start. destruct (n =? 0); rewrite new_line_acc; by rewrite <- !app_assoc.
Qed.

Definition pair_text (indent : nat) (e : bytes * QObject D) : bytes :=
  quoted e.1 ++ [58; 32] ++ text indent e.2.

Lemma to_json_acc (obj : QObject D) : forall indent str,
  to_json print_f obj str pretty indent = str ++ text indent obj.
Proof.
  unfold text. induction obj as [v | s | d | v | l IH | d IH] using qobject_ind'; intros indent str.
  - done.
  - apply to_json_string_acc.
  - done.
  - done.
  - cbn. rewrite !new_line_acc.
    assert (forall str, (foldl (fun s o => (s.1 + 1,
      to_json print_f o (to_json_iter_start pretty (S indent) s) pretty (S indent))) (0, str) l).2 =
      str ++ items_text (S indent) true (map (fun o => to_json print_f o [] pretty (S indent)) l)) as Hit.
    { intros str'. apply iter_text; [| done]. eapply Forall_impl; [exact IH |].
      intros o Ho s. cbn. by rewrite Ho. }
    rewrite !Hit. by rewrite <- !app_assoc.
  - cbn. rewrite !new_line_acc, !qdict_iter_entries.
    assert (forall str, (foldl (fun a e => (a.1 + 1,
      to_json print_f e.2 (to_json_string e.1 (to_json_iter_start pretty (S indent) a) ++ [58; 32])
        pretty (S indent))) (0, str) (qdict_entries d)).2 =
      str ++ items_text (S indent) true (map (pair_text (S indent)) (qdict_entries d))) as Hit.
    { intros str'. apply iter_text; [| done]. eapply Forall_impl; [exact IH |].
      intros e He s. cbn. rewrite He, to_json_string_acc. unfold pair_text, text.
      by rewrite <- !app_assoc. }
    rewrite !Hit. by rewrite <- !app_assoc.
Qed.

Lemma text_list (indent : nat) (l : list (QObject D)) :
  text indent (QList l) =
    91 :: items_text (S indent) true (map (text (S indent)) l) ++ nl indent ++ [93].
Proof.
  unfold text at 1. cbn. rewrite new_line_acc, (iter_text _ (text (S indent)) (S indent)).
  - cbn. by rewrite <- !app_assoc.
  - apply Forall_forall. intros o _ s. by rewrite to_json_acc.
  - done.
Qed.

Lemma text_dict (indent : nat) (d : QDict (QObject D)) :
  text indent (QDictObj d) =
    123 :: items_text (S indent) true (map (pair_text (S indent)) (qdict_entries d))
      ++ nl indent ++ [125].
Proof.
  unfold text at 1. cbn.
  rewrite new_line_acc, qdict_iter_entries, (iter_text _ (pair_text (S indent)) (S indent)).
  - cbn. by rewrite <- !app_assoc.
  - apply Forall_forall. intros e _ s. rewrite to_json_acc, to_json_string_acc.
    unfold pair_text. by rewrite <- !app_assoc.
  - done.
Qed.

(** ** Lexing the text *)

(** The body [b] of an item lexes to the tokens [g]. *)
Definition lexes_as (b : bytes) (g : list ptoken) : Prop :=
  starts_token b = true /\ forall s ts, delim s = true -> lexes_text s ts ->
    lexes_text (b ++ s) (g ++ ts).

Lemma starts_token_app (b s : bytes) : starts_token b = true -> starts_token (b ++ s) = true.
Proof. by destruct b. Qed.

Lemma items_delim (indent : nat) (bodies : list bytes) (s : bytes) :
  delim s = true -> delim (items_text indent false bodies ++ s) = true.
Proof. by destruct bodies. Qed.

Lemma lexes_items (indent : nat) (bodies : list bytes) (gs : list (list ptoken)) :
  Forall2 lexes_as bodies gs -> forall s ts, delim s = true -> lexes_text s ts ->
  lexes_text (items_text indent false bodies ++ s) (concat (map (cons (op 44)) gs) ++ ts).
Proof.
  induction 1 as [| b g bodies gs [Hst Hb] Hall IH]; intros s ts Hd Hs; [done |].
  cbn [items_text map concat]. rewrite <- !app_assoc. cbn [app].
  apply lexes_op; [by_eval |].
  change (32 :: nl indent ++ b ++ items_text indent false bodies ++ s)
    with ((32 :: nl indent) ++ (b ++ items_text indent false bodies ++ s)).
  apply lexes_ws; [cbn [forallb]; by rewrite nl_ws | by apply starts_token_app |].
  apply Hb; [by apply items_delim | by apply IH].
Qed.

Lemma nl_close_delim (indent : nat) (c : Z) (s : bytes) :
  (c =? 93) || (c =? 125) = true -> delim (nl indent ++ c :: s) = true.
Proof.
  intros Hc. unfold nl, new_line. destruct pretty; [done |]. cbn.
  rewrite !orb_true_iff in *. tauto.
Qed.

Lemma lexes_container (indent : nat) (open close : Z) (bodies : list bytes)
    (gs : list (list ptoken)) (s : bytes) (ts : list ptoken) :
  (open, close) ∈ [(91, 93); (123, 125)] -> Forall2 lexes_as bodies gs -> lexes_text s ts ->
  lexes_text ((open :: items_text (S indent) true bodies ++ nl indent ++ [close]) ++ s)
    ((op open :: commas gs ++ [op close]) ++ ts).
Proof.
  intros Hoc Hall Hs.
  assert ((close =? 93) || (close =? 125) = true /\ open ∈ [44; 58; 91; 93; 123; 125]
          /\ close ∈ [44; 58; 91; 93; 123; 125] /\ starts_token [close] = true) as (Hcl & Ho & Hc & Hst).
  { rewrite !elem_of_cons, elem_of_nil in Hoc. destruct Hoc as [Heq | [Heq | []]]; simplify_eq;
      split_and!; by_eval. }
  cbn [app]. rewrite <- !app_assoc. apply lexes_op; [exact Ho |]. cbn [app].
  assert (lexes_text (nl indent ++ close :: s) (op close :: ts)) as Hclose.
  { apply lexes_ws; [apply nl_ws | by apply (starts_token_app [close]) | by apply lexes_op]. }
  destruct Hall as [| b g bodies gs [Hb1 Hb] Hall]; [exact Hclose |].
  cbn [items_text commas app]. rewrite <- !app_assoc.
  apply lexes_ws; [apply nl_ws | by apply starts_token_app |].
  apply Hb; [apply items_delim, nl_close_delim, Hcl |].
  apply lexes_items; [exact Hall | apply nl_close_delim, Hcl | exact Hclose].
Qed.

Lemma starts_int (v : Z) : int64 v -> starts_token (print_int v) = true.
Proof.
  unfold int64, INT64_MIN, INT64_MAX. intros Hv. unfold print_int.
  destruct (Z.ltb_spec v 0); [done |].
  destruct (print_digits 20 (Z.abs v)) as (Hall & _ & Hz & Hnz); [cbn; lia |].
  destruct (Z.eq_dec v 0) as [-> |]; [reflexivity |].
  destruct Hnz as (c & s & Heq & Hc); [lia |]. rewrite Heq in Hall |- *. cbn [forallb] in Hall.
  apply andb_true_iff in Hall as [Hd _]. cbn [starts_token]. by rewrite Hd.
Qed.

Lemma lexes_pair (indent : nat) (e : bytes * QObject D) :
  utf8_bmp e.1 -> lexes_as (text indent e.2) (toks e.2) ->
  lexes_as (pair_text indent e) (pair_toks e).
Proof.
  intros Hk [Hst Hv]. unfold pair_text, pair_toks. split; [by rewrite quoted_cons |].
  intros s ts Hd Hs. rewrite <- app_assoc. cbn [app]. apply lexes_quoted; [exact Hk |].
  apply lexes_op; [by_eval |].
  change (32 :: text indent e.2 ++ s) with ([32] ++ (text indent e.2 ++ s)).
  apply lexes_ws; [done | by apply starts_token_app | by apply Hv].
Qed.

Lemma lexes_obj (obj : QObject D) :
  printable obj -> forall indent, lexes_as (text indent obj) (toks obj).
Proof.
  induction obj as [v | s | d | v | l IH | d IH] using qobject_ind'; intros Hp indent;
    inversion Hp as [? Hv | ? Hs | | ? Hl | ? Hwf Hd]; subst.
  - split; [by apply starts_int |]. intros r ts Hdl Hr. by apply lexes_int.
  - unfold text. cbn. split; [fold (quoted s); by rewrite quoted_cons |].
    intros r ts _ Hr. by apply lexes_quoted.
  - split; [unfold text, bool_text; cbn; by destruct (c_true v) |].
    intros r ts Hdl Hr. by apply lexes_bool.
  - rewrite text_list. split; [done |]. intros r ts _ Hr.
    apply lexes_container; [by_eval | | exact Hr].
    apply Forall2_fmap, Forall_Forall2_diag.
    pose proof (conj IH Hl) as Hb. apply Forall_and in Hb.
    eapply Forall_impl; [exact Hb |]. intros o [Ho Hpo]. auto.
  - rewrite text_dict, toks_dict. split; [done |]. intros r ts _ Hr.
    apply lexes_container; [by_eval | | exact Hr].
    apply Forall2_fmap, Forall_Forall2_diag.
    pose proof (conj IH Hd) as Hb. apply Forall_and in Hb.
    eapply Forall_impl; [exact Hb |]. intros e [He [Hk Hpe]]. apply lexes_pair; auto.
Qed.
End Text.

(** ** The streamer sees one message *)

Definition ptoken_counts (t : ptoken) (b k : Z) : Z * Z :=
  if t.1 =? JSON_OPERATOR then count_operator (default 0 (head t.2)) b k else (b, k).

(** The counters after [ts], [None] when the streamer would emit on the way *)
Fixpoint run_counts (b k : Z) (ts : list ptoken) : option (Z * Z) :=
  match ts with
  | [] => Some (b, k)
  | t :: ts =>
      let '(b, k) := ptoken_counts t b k in
      if (t.1 =? JSON_ERROR) || (b <? 0) || (k <? 0) || ((b =? 0) && (k =? 0))
         || (MAX_NESTING <? k) || (MAX_NESTING <? b)
      then None else run_counts b k ts
  end.

Lemma run_counts_app (ts1 ts2 : list ptoken) : forall b k b' k',
  run_counts b k ts1 = Some (b', k') -> run_counts b k (ts1 ++ ts2) = run_counts b' k' ts2.
Proof.
  induction ts1 as [| t ts1 IH]; intros b k b' k'; cbn [run_counts app]; [by intros [= -> ->] |].
  destruct (ptoken_counts t b k) as [b1 k1]. case_match; [done |]. apply IH.
Qed.

Lemma process_tokens_run (tks : list Token) : forall lx b k b' k' pre size,
  run_counts b k (strip <$> tks) = Some (b', k') ->
  size + Z.of_nat (strs_size (strip <$> tks)) <= MAX_TOKEN_SIZE ->
  process_tokens (mkParser lx b k pre size) tks =
    (mkParser lx b' k' (pre ++ tks) (size + Z.of_nat (strs_size (strip <$> tks))), []).
Proof.
  induction tks as [| t tks IH]; intros lx b k b' k' pre size Hrun Hsz.
  { cbn in Hrun. simplify_eq. cbn. by rewrite app_nil_r, Z.add_0_r. }
  rewrite fmap_cons in *. rewrite strs_size_cons in *. cbn [run_counts] in Hrun.
  cbn [process_tokens]. unfold json_message_process_token. cbn [mp_brace_count mp_bracket_count
    mp_tokens mp_token_size mp_lexer].
  change (if tok_type t =? JSON_OPERATOR then count_operator (default 0 (head (tok_str t))) b k
          else (b, k)) with (ptoken_counts (strip t) b k).
  destruct (ptoken_counts (strip t) b k) as [b1 k1]. cbn [strip fst snd] in *.
  destruct (tok_type t =? JSON_ERROR); [done |]. cbn [orb] in Hrun.
  destruct ((b1 <? 0) || (k1 <? 0) || ((b1 =? 0) && (k1 =? 0))); [done |]. cbn [orb] in Hrun.
  destruct (Z.ltb_spec MAX_TOKEN_SIZE (size + Z.of_nat (length (tok_str t)))); [lia |].
  cbn [orb]. destruct ((MAX_NESTING <? k1) || (MAX_NESTING <? b1)); [done |].
  rewrite (IH _ _ _ b' k') by (done || lia).
  rewrite <- app_assoc. cbn [app]. f_equal. f_equal. lia.
Qed.

Section Stream.
Context {D : Type}.

(** Counters inside a message, with room for [n] more levels *)
Definition inside (n : nat) (b k : Z) : Prop :=
  0 <= b /\ 0 <= k /\ ~ (b = 0 /\ k = 0)
  /\ b + Z.of_nat n <= MAX_NESTING /\ k + Z.of_nat n <= MAX_NESTING.

Lemma inside_le (n m : nat) (b k : Z) : inside n b k -> (m <= n)%nat -> inside m b k.
Proof. unfold inside. lia. Qed.

Lemma run_counts_one (t : ptoken) (ts : list ptoken) (n : nat) (b k b' k' : Z) :
  ptoken_counts t b k = (b', k') -> t.1 <> JSON_ERROR -> inside n b' k' ->
  run_counts b k (t :: ts) = run_counts b' k' ts.
Proof.
  intros Hc Ht Hin. unfold inside in Hin. cbn [run_counts]. rewrite Hc.
  destruct (Z.eqb_spec t.1 JSON_ERROR); [done |].
  destruct (Z.ltb_spec b' 0); [lia |]. destruct (Z.ltb_spec k' 0); [lia |].
  destruct (Z.ltb_spec MAX_NESTING k'); [lia |]. destruct (Z.ltb_spec MAX_NESTING b'); [lia |].
  destruct (Z.eqb_spec b' 0), (Z.eqb_spec k' 0); try done. lia.
Qed.

(** A token sequence that comes back to the counters it started from *)
Definition neutral (n : nat) (ts : list ptoken) : Prop :=
  forall b k, inside n b k -> run_counts b k ts = Some (b, k).

Lemma neutral_app (n : nat) (ts1 ts2 : list ptoken) :
  neutral n ts1 -> neutral n ts2 -> neutral n (ts1 ++ ts2).
Proof. intros Hn1 Hn2 b k Hin. rewrite (run_counts_app ts1 ts2 b k b k); auto. Qed.

Lemma neutral_one (n : nat) (t : ptoken) :
  (forall b k, ptoken_counts t b k = (b, k)) -> t.1 <> JSON_ERROR -> neutral n [t].
Proof. intros Hc Ht b k Hin. by rewrite (run_counts_one t [] n b k b k). Qed.

Lemma neutral_commas (n : nat) (gs : list (list ptoken)) :
  Forall (neutral n) gs -> neutral n (commas gs).
Proof.
  intros Hall. destruct Hall as [| g gs Hg Hall]; [by intros b k |]. cbn [commas].
  apply neutral_app; [done |]. induction Hall as [| g' gs Hg' Hall IH]; [by intros b k |].
  cbn [map concat]. apply neutral_app; [| exact IH].
  apply (neutral_app n [op 44] g'); [by apply neutral_one | done].
Qed.

Lemma max_list_le (l : list nat) (n : nat) : n ∈ l -> (n <= max_list l)%nat.
Proof. unfold max_list. induction 1; cbn [foldr]; lia. Qed.

Lemma neutral_le (n m : nat) (ts : list ptoken) : neutral m ts -> (m <= n)%nat -> neutral n ts.
Proof. intros Hm Hle b k Hin. apply Hm. by eapply inside_le. Qed.

(** Inside the brackets of a container *)
Lemma container_run (c : Z) (gs : list (list ptoken)) (n : nat) (b k : Z) :
  c = 91 \/ c = 123 -> Forall (neutral n) gs ->
  0 <= b -> 0 <= k -> b + Z.of_nat (S n) <= MAX_NESTING -> k + Z.of_nat (S n) <= MAX_NESTING ->
  run_counts b k (op c :: commas gs) =
    Some (if c =? 91 then (b, k + 1) else (b + 1, k)).
Proof.
  intros Hc Hgs Hb Hk Hbn Hkn. destruct Hc as [-> | ->]; cbn [Z.eqb Pos.eqb].
  - rewrite (run_counts_one _ _ n b k b (k + 1)); [| done | done | unfold inside; lia].
    apply (neutral_commas n gs Hgs). unfold inside. lia.
  - rewrite (run_counts_one _ _ n b k (b + 1) k); [| done | done | unfold inside; lia].
    apply (neutral_commas n gs Hgs). unfold inside. lia.
Qed.

Lemma container_neutral (open close : Z) (gs : list (list ptoken)) (n : nat) :
  (open, close) ∈ [(91, 93); (123, 125)] -> Forall (neutral n) gs ->
  neutral (S n) (op open :: commas gs ++ [op close]).
Proof.
  intros Hoc Hgs b k Hin. unfold inside in Hin.
  change (op open :: commas gs ++ [op close]) with ((op open :: commas gs) ++ [op close]).
  rewrite !elem_of_cons, elem_of_nil in Hoc. destruct Hoc as [Heq | [Heq | []]]; simplify_eq.
  - rewrite (run_counts_app _ _ _ _ b (k + 1)) by (apply (container_run 91 _ n); auto; lia).
    by rewrite (run_counts_one _ _ 0 b (k + 1) b k)
      by (done || (unfold inside; lia) || (cbn; f_equal; lia)).
  - rewrite (run_counts_app _ _ _ _ (b + 1) k) by (apply (container_run 123 _ n); auto; lia).
    by rewrite (run_counts_one _ _ 0 (b + 1) k b k)
      by (done || (unfold inside; lia) || (cbn; f_equal; lia)).
Qed.

(** The groups of a container, each neutral in the room of the container *)
Lemma neutral_groups {A} (f : A -> list ptoken) (dep : A -> nat) (l : list A) :
  Forall (fun a => neutral (dep a) (f a)) l ->
  Forall (neutral (max_list (map dep l))) (map f l).
Proof.
  intros Hall. apply Forall_fmap, Forall_forall. intros a Ha.
  eapply neutral_le; [by eapply Forall_forall in Hall |].
  apply max_list_le. by apply list_elem_of_fmap_2.
Qed.

Lemma neutral_pair (e : bytes * QObject D) :
  neutral (depth e.2) (toks e.2) -> neutral (depth e.2) (pair_toks e).
Proof.
  intros He. unfold pair_toks.
  apply (neutral_app _ [(JSON_STRING, quoted e.1)]); [by apply neutral_one |].
  apply (neutral_app _ [op 58]); [by apply neutral_one | done].
Qed.

Lemma neutral_obj (obj : QObject D) : printable obj -> neutral (depth obj) (toks obj).
Proof.
  induction obj as [v | s | d | v | l IH | d IH] using qobject_ind'; intros Hp;
    inversion Hp as [? Hv | ? Hs | | ? Hl | ? Hwf Hd]; subst; try by apply neutral_one.
  - apply container_neutral; [by_eval |]. apply neutral_groups.
    pose proof (conj IH Hl) as Hb. apply Forall_and in Hb.
    eapply Forall_impl; [exact Hb |]. intros o [Ho Hpo]. auto.
  - rewrite toks_dict, depth_dict. apply container_neutral; [by_eval |].
    apply (neutral_groups pair_toks (fun e => depth e.2)).
    pose proof (conj IH Hd) as Hb. apply Forall_and in Hb.
    eapply Forall_impl; [exact Hb |]. intros e [He [Hk Hpe]]. apply neutral_pair. auto.
Qed.

(** A single token outside brackets is a message. *)
Lemma message_single (lx : JSONLexer) (t : Token) (pre : list Token) (b k size : Z) :
  ptoken_counts (strip t) b k = (0, 0) -> tok_type t <> JSON_ERROR ->
  process_tokens (mkParser lx b k pre size) [t] = (mkParser lx 0 0 [] 0, [Some (pre ++ [t])]).
Proof.
  intros Hc Ht. cbn [process_tokens]. unfold json_message_process_token.
  cbn [mp_brace_count mp_bracket_count mp_tokens mp_token_size mp_lexer].
  change (if tok_type t =? JSON_OPERATOR then count_operator (default 0 (head (tok_str t))) b k
          else (b, k)) with (ptoken_counts (strip t) b k).
  rewrite Hc. by destruct (Z.eqb_spec (tok_type t) JSON_ERROR).
Qed.

Lemma message_container (lx : JSONLexer) (open close : Z) (gs : list (list ptoken)) (n : nat)
    (tks : list Token) :
  (open, close) ∈ [(91, 93); (123, 125)] -> Forall (neutral n) gs ->
  Z.of_nat (S n) <= MAX_NESTING ->
  strip <$> tks = op open :: commas gs ++ [op close] ->
  Z.of_nat (strs_size (strip <$> tks)) <= MAX_TOKEN_SIZE ->
  process_tokens (mkParser lx 0 0 [] 0) tks = (mkParser lx 0 0 [] 0, [Some tks]).
Proof.
  intros Hoc Hgs Hn Htks Hsz.
  change (op open :: commas gs ++ [op close]) with ((op open :: commas gs) ++ [op close]) in Htks.
  apply fmap_app_inv in Htks as (tks1 & tks2 & Hs1 & Hs2 & ->).
  destruct tks2 as [| t [|]]; try done. injection Hs2 as Hty Hstr.
  assert (strs_size (strip <$> tks1) <= strs_size (strip <$> (tks1 ++ [t])))%nat as Hle.
  { rewrite fmap_app. clear. induction tks1; cbn in *; [lia |]. unfold strs_size in *. cbn. lia. }
  rewrite process_tokens_app.
  rewrite !elem_of_cons, elem_of_nil in Hoc. destruct Hoc as [Heq | [Heq | []]]; simplify_eq.
  - rewrite (process_tokens_run tks1 lx 0 0 0 1 [] 0);
      [| rewrite <- Hs1; apply (container_run 91 _ n); auto; lia | lia].
    rewrite message_single; [done | | by rewrite <- Hty].
    unfold strip. by rewrite <- Hty, <- Hstr.
  - rewrite (process_tokens_run tks1 lx 0 0 1 0 [] 0);
      [| rewrite <- Hs1; apply (container_run 123 _ n); auto; lia | lia].
    rewrite message_single; [done | | by rewrite <- Hty].
    unfold strip. by rewrite <- Hty, <- Hstr.
Qed.

Lemma message_obj (obj : QObject D) (lx : JSONLexer) (tks : list Token) :
  printable obj -> Z.of_nat (depth obj) <= MAX_NESTING ->
  strip <$> tks = toks obj -> Z.of_nat (strs_size (toks obj)) <= MAX_TOKEN_SIZE ->
  process_tokens (mkParser lx 0 0 [] 0) tks = (mkParser lx 0 0 [] 0, [Some tks]).
Proof.
  intros Hp Hdep Htks Hsz. rewrite <- Htks in Hsz.
  assert (forall ty s, toks obj = [(ty, s)] -> ty <> JSON_ERROR -> ty <> JSON_OPERATOR ->
    process_tokens (mkParser lx 0 0 [] 0) tks = (mkParser lx 0 0 [] 0, [Some tks])) as Hone.
  { intros ty s Hty He Ho. rewrite Hty in Htks.
    destruct tks as [| t [|]]; try done. injection Htks as Ht Hs.
    rewrite message_single; [done | | congruence]. unfold ptoken_counts, strip. cbn [fst].
    rewrite Ht. by destruct (Z.eqb_spec ty JSON_OPERATOR). }
  destruct obj as [v | s | d | v | l | d]; inversion Hp as [? Hv | ? Hs | | ? Hl | ? Hwf Hd]; subst;
    try (by eapply Hone).
  - apply (message_container lx 91 93 (map toks l) (max_list (map depth l)));
      [by_eval | | exact Hdep | exact Htks | exact Hsz].
    apply neutral_groups. eapply Forall_impl; [exact Hl |]. intros o Ho. by apply neutral_obj.
  - rewrite depth_dict in Hdep. rewrite toks_dict in Htks.
    apply (message_container lx 123 125 (map pair_toks (qdict_entries d))
             (max_list (map (fun e => depth e.2) (qdict_entries d))));
      [by_eval | | exact Hdep | exact Htks | exact Hsz].
    apply (neutral_groups pair_toks (fun e => depth e.2)).
    eapply Forall_impl; [exact Hd |]. intros e [_ He]. by apply neutral_pair, neutral_obj.
Qed.
End Stream.

(** ** The parser rebuilds the object *)

Section Parse.
Context {D : Type} (strtod : bytes -> D).
Local Abbreviation pvalue := (parse_value strtod).

(** [pv] builds [o] from the tokens [ts] and takes exactly these. *)
Definition parses (pv : @rule D) (ts : list ptoken) (o : QObject D) : Prop :=
  forall rest err ap, pv (mkPState (ts ++ rest) err ap) = Some (Some o, mkPState rest err ap).

(** The first token is not a closing bracket or brace. *)
Definition opens (ts : list ptoken) : Prop :=
  exists t ts', ts = t :: ts' /\ token_is_operator t 93 = false /\ token_is_operator t 125 = false.

Lemma opens_obj (obj : QObject D) : printable obj -> opens (toks obj).
Proof.
  intros Hp. destruct obj; inversion Hp; subst; eexists _, _; (split; [reflexivity | done]).
Qed.

Lemma parse_array_loop_toks (pv : rule) (gs : list (list ptoken)) (os : list (QObject D)) :
  Forall2 (parses pv) gs os -> forall fuel st0 acc rest err ap, (length gs <= fuel)%nat ->
  parse_array_loop fuel pv st0 acc
    (mkPState (concat (map (cons (op 44)) gs) ++ op 93 :: rest) err ap) =
    Some (Some (QList (acc ++ os)), mkPState rest err ap).
Proof.
  induction 1 as [| g o gs os Hg Hall IH]; intros fuel st0 acc rest err ap Hf.
  { destruct fuel; cbn; by rewrite app_nil_r. }
  destruct fuel as [| fuel]; [cbn in Hf; lia |]. cbn [map concat]. rewrite <- !app_assoc.
  change ((op 44 :: g) ++ concat (map (cons (op 44)) gs) ++ op 93 :: rest)
    with (op 44 :: g ++ concat (map (cons (op 44)) gs) ++ op 93 :: rest).
  cbn [parse_array_loop ps_tokens]. change (token_is_operator (op 44) 93) with false.
  change (token_is_operator (op 44) 44) with true. cbv iota.
  unfold set_tokens. cbn [ps_err ps_ap]. rewrite Hg. cbn [mbind option_bind].
  rewrite IH by (cbn in Hf; lia). by rewrite <- app_assoc.
Qed.

Lemma concat_commas_length (gs : list (list ptoken)) :
  (length gs <= length (concat (map (cons (op 44%Z)) gs)))%nat.
Proof. induction gs; cbn; [lia |]. rewrite length_app. lia. Qed.

Lemma parse_array_toks (pv : rule) (gs : list (list ptoken)) (os : list (QObject D)) :
  Forall2 (parses pv) gs os -> Forall opens gs ->
  parses (parse_array pv) (op 91 :: commas gs ++ [op 93]) (QList os).
Proof.
  intros Hall Hop rest err ap. unfold parse_array. cbn [app ps_tokens].
  change (token_is_operator (op 91) 91) with true. cbv iota.
  destruct Hall as [| g o gs os Hg Hall]; [done |].
  apply Forall_cons_1 in Hop as [(t & ts' & -> & Ht & _) _].
  cbn [commas app]. rewrite <- !app_assoc. cbn [app]. rewrite Ht.
  unfold set_tokens at 1. cbn [ps_err ps_ap].
  pose proof (Hg (concat (map (cons (op 44)) gs) ++ op 93 :: rest) err ap) as Hg'.
  cbn [app] in Hg'. rewrite Hg'. cbn [mbind option_bind].
  rewrite (parse_array_loop_toks pv gs os Hall); [done |].
  pose proof (concat_commas_length gs). cbn [length]. rewrite !length_app. lia.
Qed.

Lemma parse_pair_toks (pv : rule) (dict : QDict (QObject D)) (e : bytes * QObject D)
    (o : QObject D) (rest : list ptoken) err ap :
  parses pv [(JSON_STRING, quoted e.1)] (QString e.1) -> parses pv (toks e.2) o ->
  parse_pair pv dict (mkPState (pair_toks e ++ rest) err ap) =
    Some (Some (qdict_put_obj dict e.1 o), mkPState rest err ap).
Proof.
  intros Hk Hv. unfold parse_pair, pair_toks. cbn [app ps_tokens].
  pose proof (Hk (op 58 :: toks e.2 ++ rest) err ap) as Hk'. cbn [app] in Hk'. rewrite Hk'.
  cbn [mbind option_bind ps_tokens]. change (token_is_operator (op 58) 58) with true. cbv iota.
  unfold set_tokens. cbn [ps_err ps_ap]. by rewrite Hv.
Qed.

(** Filling a dictionary with parsed pairs *)
Definition put_all (dict : QDict (QObject D)) (es : list (bytes * QObject D)) :=
  foldl (fun d e => qdict_put_obj d e.1 (rebuild e.2)) dict es.

Definition pair_parses (pv : rule) (e : bytes * QObject D) : Prop :=
  parses pv [(JSON_STRING, quoted e.1)] (QString e.1) /\ parses pv (toks e.2) (rebuild e.2).

Lemma parse_object_loop_toks (pv : rule) (es : list (bytes * QObject D)) :
  Forall (pair_parses pv) es -> forall fuel st0 dict rest err ap, (length es <= fuel)%nat ->
  parse_object_loop fuel pv st0 dict
    (mkPState (concat (map (cons (op 44)) (map pair_toks es)) ++ op 125 :: rest) err ap) =
    Some (Some (QDictObj (put_all dict es)), mkPState rest err ap).
Proof.
  induction 1 as [| e es [Hk Hv] Hall IH]; intros fuel st0 dict rest err ap Hf.
  { by destruct fuel. }
  destruct fuel as [| fuel]; [cbn in Hf; lia |]. cbn [map concat]. rewrite <- !app_assoc.
  cbn [app parse_object_loop ps_tokens]. change (token_is_operator (op 44) 125) with false.
  change (token_is_operator (op 44) 44) with true. cbv iota.
  unfold set_tokens. cbn [ps_err ps_ap]. rewrite (parse_pair_toks pv dict e (rebuild e.2)) by done.
  cbn [mbind option_bind]. rewrite IH by (cbn in Hf; lia). done.
Qed.

Lemma parse_object_toks (pv : rule) (es : list (bytes * QObject D)) :
  Forall (pair_parses pv) es ->
  parses (parse_object pv) (op 123 :: commas (map pair_toks es) ++ [op 125])
    (QDictObj (put_all qdict_new es)).
Proof.
  intros Hall rest err ap. unfold parse_object. cbn [app ps_tokens].
  change (token_is_operator (op 123) 123) with true. cbv iota.
  destruct Hall as [| e es [Hk Hv] Hall]; [done |]. cbn [map commas]. rewrite <- !app_assoc.
  change ([op 125] ++ rest) with (op 125 :: rest).
  set (rest' := concat (map (cons (op 44)) (map pair_toks es)) ++ op 125 :: rest).
  unfold pair_toks at 1. cbn [app].
  change (token_is_operator (JSON_STRING, quoted e.1) 125) with false. cbv iota.
  unfold set_tokens at 1. cbn [ps_err ps_ap].
  change ((JSON_STRING, quoted e.1) :: op 58 :: toks e.2 ++ rest') with (pair_toks e ++ rest').
  rewrite (parse_pair_toks pv qdict_new e (rebuild e.2)) by done. cbn [mbind option_bind].
  unfold rest'. rewrite (parse_object_loop_toks pv es Hall); [done |].
  pose proof (concat_commas_length (map pair_toks es)). rewrite length_map in *.
  unfold pair_toks at 1. rewrite length_app. cbn [length]. rewrite !length_app. lia.
Qed.

Lemma parses_string (fuel : nat) (s : bytes) :
  utf8_bmp s -> parses (pvalue (S fuel)) [(JSON_STRING, quoted s)] (QString s).
Proof.
  intros Hs rest err ap. rewrite parse_value_dispatch. unfold parse_value_by_head.
  cbn [app ps_tokens]. change (parse_literal strtod (mkPState ((JSON_STRING, quoted s) :: rest) err ap)
    = Some (Some (QString s), mkPState rest err ap)).
  unfold parse_literal. cbn [ps_tokens fst snd]. rewrite Z.eqb_refl. by rewrite quoted_decodes.
Qed.

Lemma rebuild_dict (d : QDict (QObject D)) :
  rebuild (QDictObj d) = QDictObj (put_all qdict_new (qdict_entries d)).
Proof. cbn. by rewrite qdict_iter_entries. Qed.

Lemma parses_obj (obj : QObject D) :
  printable obj -> forall fuel, (depth obj < fuel)%nat -> parses (pvalue fuel) (toks obj) (rebuild obj).
Proof.
  induction obj as [v | s | d | v | l IH | d IH] using qobject_ind'; intros Hp fuel Hf;
    inversion Hp as [? Hv | ? Hs | | ? Hl | ? Hwf Hd]; subst;
    (destruct fuel as [| fuel]; [lia |]).
  - intros rest err ap. rewrite parse_value_dispatch. cbn -[print_int strtoll].
    unfold parse_literal. cbn -[print_int strtoll]. by rewrite print_int_strtoll.
  - by apply parses_string.
  - intros rest err ap. rewrite parse_value_dispatch. cbn. unfold bool_text.
    by destruct (c_true v).
  - intros rest err ap. rewrite parse_value_dispatch. cbn [toks rebuild].
    apply (parse_array_toks (pvalue fuel) (map toks l) (map rebuild l)).
    + apply Forall2_fmap, Forall_Forall2_diag, Forall_forall. intros o Ho.
      rewrite Forall_forall in IH, Hl. apply IH; [done | auto |].
      pose proof (max_list_le (map depth l) (depth o) ltac:(by apply list_elem_of_fmap_2)).
      cbn in Hf. lia.
    + apply Forall_fmap. eapply Forall_impl; [exact Hl |]. intros o Ho. by apply opens_obj.
  - rewrite depth_dict in Hf. intros rest err ap.
    rewrite toks_dict, rebuild_dict, parse_value_dispatch.
    apply (parse_object_toks (pvalue fuel)). apply Forall_forall. intros e He.
    rewrite Forall_forall in IH, Hd. destruct (Hd e He) as [Hk Hpe].
    pose proof (max_list_le (map (fun e => depth e.2) (qdict_entries d)) (depth e.2)
      ltac:(by apply (list_elem_of_fmap_2 (fun e => depth e.2)))).
    split; [destruct fuel; [lia | by apply parses_string] |]. apply IH; [done | done | lia].
Qed.
End Parse.

(** ** What was rebuilt is what was printed *)

Section Equiv.
Context {D : Type}.

Lemma put_all_wf (es : list (bytes * QObject D)) : forall d0,
  qdict_wf d0 -> qdict_wf (put_all d0 es).
Proof.
  induction es as [| e es IH]; intros d0 Hwf; [done |]. apply IH. by apply qdict_put_wf.
Qed.

Lemma put_all_get (es : list (bytes * QObject D)) (k : bytes) : forall d0,
  qdict_wf d0 -> NoDup es.*1 ->
  qdict_get (put_all d0 es) k =
    match chain_find k es with Some e => Some (rebuild e.2) | None => qdict_get d0 k end.
Proof.
  induction es as [| [k' v'] es IH]; intros d0 Hwf Hnd; [done |].
  apply NoDup_cons in Hnd as [Hni Hnd]. cbn [put_all foldl chain_find fst snd].
  change (foldl (fun d e => qdict_put_obj d e.1 (rebuild e.2)) (qdict_put_obj d0 k' (rebuild v')) es)
    with (put_all (qdict_put_obj d0 k' (rebuild v')) es).
  rewrite IH by (done || by apply qdict_put_wf). rewrite qdict_put_get by done.
  case_bool_decide as Hk.
  - subst k'. apply chain_find_None in Hni. cbn in Hni. rewrite Hni. by rewrite decide_True.
  - destruct (chain_find k es); [done |]. repeat case_match; congruence.
Qed.

Lemma qdict_new_get (k : bytes) : qdict_get (@qdict_new (QObject D)) k = None.
Proof.
  unfold qdict_get, qdict_find, bucket, qdict_new. cbn [qd_table].
  rewrite lookup_replicate_2 by apply bucket_of_lt. done.
Qed.

Lemma rebuild_equiv (obj : QObject D) : printable obj -> qobj_equiv obj (rebuild obj).
Proof.
  induction obj as [v | s | d | v | l IH | d IH] using qobject_ind'; intros Hp;
    inversion Hp as [? Hv | ? Hs | | ? Hl | ? Hwf Hd]; subst; cbn [rebuild].
  - constructor.
  - constructor.
  - constructor. by destruct (c_true v).
  - constructor. apply Forall2_fmap_r, Forall_Forall2_diag.
    pose proof (conj IH Hl) as Hb. apply Forall_and in Hb.
    eapply Forall_impl; [exact Hb |]. intros o [Ho Hpo]. auto.
  - change (qobj_equiv (QDictObj d) (rebuild (QDictObj d))). rewrite rebuild_dict.
    constructor; [done | apply put_all_wf, qdict_new_wf |]. intros k.
    rewrite put_all_get by (apply qdict_new_wf || by apply entries_nodup).
    unfold qdict_get at 1, qdict_find. rewrite <- chain_find_entries by done.
    destruct (chain_find k (qdict_entries d)) as [e |] eqn:He.
    + apply chain_find_Some in He as [He _]. rewrite Forall_forall in IH, Hd.
      constructor. apply IH; [done |]. by apply Hd.
    + rewrite qdict_new_get. constructor.
Qed.
End Equiv.

(** ** The whole pipeline *)

(** The messages of a text are those of its tokens, flushed ones included. *)
Lemma feed_flush_messages (s : bytes) (l1 l2 : JSONLexer) (ts1 ts2 : list Token)
    (msgs : list (option (list Token))) :
  json_lexer_feed json_lexer_init s = Some (l1, ts1) -> json_lexer_flush l1 = Some (l2, ts2) ->
  (process_tokens json_message_parser_init (ts1 ++ ts2)).2 = msgs ->
  exists p1 m1 p2 m2,
    json_message_parser_feed json_message_parser_init s = Some (p1, m1)
    /\ json_message_parser_flush p1 = Some (p2, m2) /\ m1 ++ m2 = msgs.
Proof.
  intros Hf Hfl Hm. unfold json_message_parser_feed, json_message_parser_flush.
  change (mp_lexer json_message_parser_init) with json_lexer_init. rewrite Hf.
  cbn [mbind option_bind]. rewrite process_tokens_lexer.
  eexists _, _, _, _. split; [reflexivity |].
  change (mp_lexer (set_lexer l1 (process_tokens json_message_parser_init ts1).1)) with l1.
  rewrite Hfl. cbn [mbind option_bind].
  change (set_lexer l2 (set_lexer l1 (process_tokens json_message_parser_init ts1).1))
    with (set_lexer l2 (process_tokens json_message_parser_init ts1).1).
  rewrite process_tokens_lexer. split; [reflexivity |].
  rewrite <- Hm, process_tokens_app. destruct (process_tokens _ ts1) as [p1 m1]. cbn [fst snd].
  by destruct (process_tokens p1 ts2).
Qed.

Lemma commas_max (gs : list (list ptoken)) :
  (max_list (map length gs) <= length (commas gs))%nat.
Proof.
  destruct gs as [| g gs]; [done |]. cbn [commas]. rewrite length_app.
  enough (max_list (map length gs) <= length (concat (map (cons (op 44%Z)) gs)))%nat
    by (unfold max_list in *; cbn [map foldr]; lia).
  induction gs as [| g' gs IH]; [done |]. unfold max_list in *. cbn [map foldr concat].
  rewrite length_app. cbn [length]. lia.
Qed.

Lemma max_list_mono {A} (f g : A -> nat) (l : list A) :
  Forall (fun a => f a <= g a)%nat l -> (max_list (map f l) <= max_list (map g l))%nat.
Proof. unfold max_list. induction 1; cbn [map foldr]; lia. Qed.

Lemma depth_toks {D : Type} (obj : QObject D) : (depth obj <= length (toks obj))%nat.
Proof.
  induction obj as [v | s | d | v | l IH | d IH] using qobject_ind'; try (cbn; lia).
  - pose proof (max_list_mono depth (fun o => length (toks o)) l IH) as Hm.
    pose proof (commas_max (map toks l)) as Hc.
    rewrite map_map in Hc. change (depth (QList l)) with (S (max_list (map depth l))).
    change (toks (QList l)) with (op 91 :: commas (map toks l) ++ [op 93]).
    cbn [length]. rewrite length_app. lia.
  - rewrite depth_dict, toks_dict.
    assert (Forall (fun e => depth e.2 <= length (pair_toks e))%nat (qdict_entries d)) as IH'
      by (eapply Forall_impl; [exact IH |]; intros e He; cbn beta in He;
          unfold pair_toks; cbn [length]; lia).
    pose proof (max_list_mono (fun e => depth e.2) (fun e => length (pair_toks e)) _ IH') as Hm.
    pose proof (commas_max (map pair_toks (qdict_entries d))) as Hc.
    rewrite map_map in Hc. cbn [length]. rewrite length_app. lia.
Qed.

(** ** Properties *)

(** C1: parsing the text [to_json] prints, plain or pretty, at any
    indentation, gives back the printed object, up to the order of bindings in
    dictionaries and the value of true; this for every object without floating
    point numbers whose integers have 64 bits, whose strings are UTF-8 of the
    basic plane, nested at most [MAX_NESTING] deep and printed in at most
    [MAX_TOKEN_SIZE] bytes. *)
Theorem qobject_json_round_trip {D : Type} (strtod : bytes -> D) (print_f : D -> bytes)
    (obj : QObject D) (pretty : bool) (indent : nat) :
  printable obj -> Z.of_nat (depth obj) <= MAX_NESTING ->
  Z.of_nat (length (to_json print_f obj [] pretty indent)) <= MAX_TOKEN_SIZE ->
  exists obj', qobject_from_json strtod (to_json print_f obj [] pretty indent) = Some (Some obj')
  /\ qobj_equiv obj obj'.
Proof.
  intros Hp Hdep Hlen. exists (rebuild obj). split; [| by apply rebuild_equiv].
  destruct (lexes_obj print_f pretty obj Hp indent) as [_ Hlex].
  specialize (Hlex [] [] eq_refl lexes_nil). rewrite !app_nil_r in Hlex.
  destruct (Hlex Hlen) as [Hsz Hrun]. cbn [length Nat.add] in Hsz. unfold text in *.
  destruct (Hrun 0 0) as (l1 & ts1 & l2 & ts2 & Hf & Hfl & Hts).
  pose proof (message_obj obj json_lexer_init (ts1 ++ ts2) Hp Hdep Hts ltac:(lia)) as Hmsg.
  destruct (feed_flush_messages _ l1 l2 ts1 ts2 [Some (ts1 ++ ts2)] Hf Hfl)
    as (p1 & m1 & p2 & m2 & Hfeed & Hflush & Hm);
    [change json_message_parser_init with (mkParser json_lexer_init 0 0 [] 0); by rewrite Hmsg |].
  unfold qobject_from_json, qobject_from_jsonv. rewrite Hfeed. cbn [mbind option_bind].
  rewrite Hflush. cbn [mbind option_bind]. rewrite Hm. cbn [foldl].
  unfold parse_json, json_parser_parse, json_parser_parse_err. cbn [mbind option_bind].
  change (fun t => (tok_type t, tok_str t)) with strip. rewrite Hts.
  pose proof (parses_obj strtod obj Hp (S (length (ts1 ++ ts2)))) as Hparse.
  rewrite <- (length_fmap strip), Hts in *.
  specialize (Hparse ltac:(pose proof (depth_toks obj); lia) [] None None).
  rewrite app_nil_r in Hparse. by rewrite Hparse.
Qed.

(** Show that a concrete string is well-formed. *)
Ltac utf8 :=
  repeat first [apply utf8_nil | apply utf8_one; [lia |] | apply utf8_two; [lia | lia |]].

(** A nested object, with the keys id and l *)
Definition sample_obj : QObject unit :=
  QDictObj (qdict_put_obj (qdict_put_obj qdict_new [105; 100] (QInt (-120)))
    [108] (QList [QBool 7; QString [0xC3; 0xA9; 34]])).

Lemma sample_printable : printable sample_obj.
Proof.
  apply printable_dict.
  - apply qdict_put_wf, qdict_put_wf, qdict_new_wf.
  - assert (qdict_entries (qdict_put_obj (qdict_put_obj qdict_new [105; 100] (QInt (-120)))
      [108] (QList [QBool 7; QString [0xC3; 0xA9; 34]] : QObject unit)) =
      [([108], QList [QBool 7; QString [0xC3; 0xA9; 34]]); ([105; 100], QInt (-120))]) as ->
      by (vm_compute; reflexivity).
    repeat (apply Forall_cons_2); [| | constructor]; cbn [fst snd].
    + split; [utf8 |]. apply printable_list. repeat (apply Forall_cons_2); [| | constructor].
      * apply printable_bool.
      * apply printable_str. utf8.
    + split; [utf8 |]. apply printable_int. unfold int64, INT64_MIN, INT64_MAX. lia.
Qed.

Lemma qobject_json_round_trip_witness :
  exists obj', qobject_from_json (fun _ => tt) (to_json (fun _ => []) sample_obj [] true 0)
    = Some (Some obj') /\ qobj_equiv sample_obj obj'.
Proof.
  apply qobject_json_round_trip; [apply sample_printable | vm_compute; discriminate |].
  vm_compute. discriminate.
Defined.

(** A reader cannot tell a dictionary from one that was printed and
    parsed: every accessor for integers and strings, strict or lenient, gives
    the same result on equivalent dictionaries, booleans are equal as truth
    values, and a list or dictionary found in one is found in the other. *)
Theorem equiv_same_access {D : Type} (d d' : QDict (QObject D)) (k : bytes) :
  qobj_equiv (QDictObj d) (QDictObj d') ->
  qdict_get_int d k = qdict_get_int d' k
  /\ qdict_get_str d k = qdict_get_str d' k
  /\ (c_true <$> qdict_get_bool d k) = (c_true <$> qdict_get_bool d' k)
  /\ option_Forall2 (Forall2 qobj_equiv) (qdict_get_qlist d k) (qdict_get_qlist d' k)
  /\ option_Forall2 (fun x y => qobj_equiv (QDictObj x) (QDictObj y))
       (qdict_get_qdict d k) (qdict_get_qdict d' k)
  /\ (forall def, qdict_get_try_int d k def = qdict_get_try_int d' k def)
  /\ qdict_get_try_str d k = qdict_get_try_str d' k.
Proof.
  intros He. inversion He as [| | | | ? ? _ _ Hk]; subst. specialize (Hk k).
  rewrite !get_int_spec, !get_str_spec, !get_bool_spec, !get_qlist_spec, !get_qdict_spec.
  unfold qdict_get_try_int, qdict_get_try_str.
  destruct Hk as [o o' Ho |]; [| split_and!; try done; constructor].
  destruct Ho; cbn; split_and!; try done;
    first [by constructor | constructor; by constructor | by f_equal].
Qed.

Lemma equiv_same_access_witness :
  qdict_get_int (qdict_put_obj (@qdict_new (QObject unit)) [105] (QInt 9)) [105] =
  qdict_get_int (put_all qdict_new
    (qdict_entries (qdict_put_obj (@qdict_new (QObject unit)) [105] (QInt 9)))) [105].
Proof.
  apply equiv_same_access. rewrite <- rebuild_dict. apply rebuild_equiv, printable_dict.
  - apply qdict_put_wf, qdict_new_wf.
  - assert (qdict_entries (qdict_put_obj (@qdict_new (QObject unit)) [105] (QInt 9)) =
      [([105], QInt 9)]) as -> by (vm_compute; reflexivity).
    apply Forall_singleton. split; [utf8 |]. apply printable_int. unfold int64, INT64_MIN, INT64_MAX. lia.
Defined.
