(* ===== verification/Stm.v ===== *)
(** * A state monad with failure, and its post-conditions

    Code that threads one object through many calls (the block layer and the
    image format) is written in this monad: [None] is a failure of the C
    program (an assertion, [abort], an access outside an array) or fuel that
    ran out.  [runs m s P] says that [m] returns from [s] and the result
    satisfies [P]; [post m s P] that its result, if there is one, does. *)

From stdpp Require Import base option.

Definition SM (S A : Type) : Type := S -> option (A * S).

#[global] Instance sm_ret {S} : MRet (SM S) := fun A x s => Some (x, s).
#[global] Instance sm_bind {S} : MBind (SM S) := fun A B f m s =>
  match m s with Some (a, s) => f a s | None => None end.

Definition sm_get {S A} (f : S -> A) : SM S A := fun s => Some (f s, s).
Definition sm_modify {S} (f : S -> S) : SM S unit := fun s => Some (tt, f s).
Definition sm_lift {S A} (o : option A) : SM S A := fun s => x ← o; Some (x, s).
Definition sm_fail {S A} : SM S A := fun _ => None.
Definition sm_assert {S} (b : bool) : SM S unit := if b then mret tt else sm_fail.

Definition runs {S A} (m : SM S A) (s : S) (P : A -> S -> Prop) : Prop :=
  exists a s', m s = Some (a, s') /\ P a s'.

Definition post {S A} (m : SM S A) (s : S) (P : A -> S -> Prop) : Prop :=
  forall a s', m s = Some (a, s') -> P a s'.

Section rules.
Context {S : Type}.

Lemma runs_ret {A} (x : A) (s : S) P : P x s -> runs (mret x) s P.
Proof. by exists x, s. Qed.

Lemma runs_bind {A B} (m : SM S A) (f : A -> SM S B) s P :
  runs m s (fun a s' => runs (f a) s' P) -> runs (m ≫= f) s P.
Proof.
  intros (a & s' & E & b & s'' & E' & HP). exists b, s''. split; [| done].
  unfold mbind, sm_bind. by rewrite E.
Qed.

Lemma sm_bind_some {A B} (m : SM S A) (f : A -> SM S B) s a s' :
  m s = Some (a, s') -> (m ≫= f) s = f a s'.
Proof. intros E. unfold mbind, sm_bind. by rewrite E. Qed.

Lemma runs_mono {A} (m : SM S A) s (P Q : A -> S -> Prop) :
  runs m s P -> (forall a s', P a s' -> Q a s') -> runs m s Q.
Proof. intros (a & s' & E & HP) H. exists a, s'. auto. Qed.

Lemma runs_get {A} (f : S -> A) s (P : A -> S -> Prop) : P (f s) s -> runs (sm_get f) s P.
Proof. by exists (f s), s. Qed.

Lemma runs_modify (f : S -> S) s (P : unit -> S -> Prop) : P tt (f s) -> runs (sm_modify f) s P.
Proof. by exists tt, (f s). Qed.

Lemma runs_lift {A} (o : option A) x s (P : A -> S -> Prop) :
  o = Some x -> P x s -> runs (sm_lift o) s P.
Proof. intros -> H. by exists x, s. Qed.

Lemma runs_post {A} (m : SM S A) s P : runs m s P -> post m s P.
Proof. intros (a & s' & E & HP) b t Eb. rewrite E in Eb. by simplify_eq. Qed.

Lemma post_ret {A} (x : A) (s : S) (P : A -> S -> Prop) : P x s -> post (mret x) s P.
Proof. intros H a s' E. by injection E as <- <-. Qed.

Lemma post_bind {A B} (m : SM S A) (f : A -> SM S B) s P :
  post m s (fun a s' => post (f a) s' P) -> post (m ≫= f) s P.
Proof.
  intros H b s'' E. unfold mbind, sm_bind in E.
  destruct (m s) as [[a s'] |] eqn:Em; [| done]. exact (H a s' Em b s'' E).
Qed.

Lemma post_mono {A} (m : SM S A) s (P Q : A -> S -> Prop) :
  post m s P -> (forall a s', P a s' -> Q a s') -> post m s Q.
Proof. intros H HPQ a s' E. by apply HPQ, H. Qed.

Lemma post_get {A} (f : S -> A) s (P : A -> S -> Prop) : P (f s) s -> post (sm_get f) s P.
Proof. intros H a s' E. by injection E as <- <-. Qed.

Lemma post_modify (f : S -> S) s (P : unit -> S -> Prop) : P tt (f s) -> post (sm_modify f) s P.
Proof. intros H a s' E. by injection E as <- <-. Qed.

Lemma post_lift {A} (o : option A) s (P : A -> S -> Prop) :
  (forall x, o = Some x -> P x s) -> post (sm_lift o) s P.
Proof. intros H a s' E. unfold sm_lift in E. destruct o; [| done]. injection E as <- <-. by apply H. Qed.

Lemma post_fail {A} (s : S) (P : A -> S -> Prop) : post sm_fail s P.
Proof. done. Qed.

Lemma post_assert b s (P : unit -> S -> Prop) : (b = true -> P tt s) -> post (sm_assert b) s P.
Proof. destruct b; [intros H; by apply post_ret, H | done]. Qed.

Lemma runs_assert b s (P : unit -> S -> Prop) : b = true -> P tt s -> runs (sm_assert b) s P.
Proof. intros ->. apply runs_ret. Qed.
End rules.

(** One syntactic step of a post-condition proof. *)
Ltac sm_step :=
  lazymatch goal with
  | |- runs (_ ≫= _) _ _ => apply runs_bind
  | |- runs (mret _) _ _ => apply runs_ret
  | |- runs (sm_get _) _ _ => apply runs_get
  | |- runs (sm_modify _) _ _ => apply runs_modify
  | |- post (_ ≫= _) _ _ => apply post_bind
  | |- post (mret _) _ _ => apply post_ret
  | |- post (sm_get _) _ _ => apply post_get
  | |- post (sm_modify _) _ _ => apply post_modify
  | |- post sm_fail _ _ => apply post_fail
  | |- post (sm_assert _) _ _ => apply post_assert
  | |- post (sm_lift _) _ _ => apply post_lift
  end; cbv beta.

(** A call, by what is known of its result. *)
Tactic Notation "sm_use" open_constr(H) := eapply runs_mono; [exact H | cbv beta].
