(* ===== verification/QemuFile.v ===== *)
(** * Buffered streams for machine state (qemu/savevm.c, qemu/hw/hw.h)

    A [QEMUFile] buffers what device state is saved to and loaded from: bytes,
    blocks and big-endian numbers of 16, 32 and 64 bits.  The medium behind it
    is a parameter: its put and get functions work on a state [D].  [Sink] and
    [Source] state what a working medium does; a file that records the bytes is
    an instance of both.

    [None] is [abort] or an access outside the buffer.

    Theorems: what is put is what is later got, across any number of buffers;
    reading past the end sets the error flag; numbers and blocks are codecs. *)

From Stdlib Require Import ZArith Lia.
From stdpp Require Import base option numbers strings list.
From S2P Require Import Prelude Stm.

Local Open Scope Z_scope.

Definition IO_BUF_SIZE : Z := 32768.
Definition EAGAIN : Z := 11.

(** [memcpy(buf + at, l, n)] *)
Definition copy_to (b : list Z) (i : nat) (l : list Z) : list Z :=
  take i b ++ l ++ drop (i + length l) b.

(** A record of a stream *)
Inductive item :=
  | IByte (v : Z) | IBe16 (v : Z) | IBe32 (v : Z) | IBe64 (v : Z) | IBlock (l : list Z).

Definition item_bytes (i : item) : list Z :=
  match i with
  | IByte v => be_bytes 1 v | IBe16 v => be_bytes 2 v | IBe32 v => be_bytes 4 v | IBe64 v => be_bytes 8 v
  | IBlock l => l
  end.

Definition item_ok (i : item) : Prop :=
  match i with
  | IByte v => in_u 8 v | IBe16 v => in_u 16 v | IBe32 v => in_u 32 v | IBe64 v => in_u 64 v
  | IBlock _ => True
  end.

Section File.
Context {D : Type}.

(** [struct QEMUFile]: the functions of the medium, its state, and the buffer.  A
    get function returns its code and the bytes it stored. *)
Record QEMUFile := mkFile {
  put_buffer : option (list Z -> Z -> D -> Z * D);
  get_buffer : option (Z -> Z -> D -> Z * list Z * D);
  opaque : D;
  is_write : bool;
  buf_offset : Z;
  buf_index : Z;
  buf_size : Z;
  buf : list Z;
  has_error : bool
}.

Definition set_put_buffer (v : option (list Z -> Z -> D -> Z * D)) (s : QEMUFile) : QEMUFile :=
  mkFile v s.(get_buffer) s.(opaque) s.(is_write) s.(buf_offset) s.(buf_index)
    s.(buf_size) s.(buf) s.(has_error).
Definition set_get_buffer (v : option (Z -> Z -> D -> Z * list Z * D)) (s : QEMUFile) : QEMUFile :=
  mkFile s.(put_buffer) v s.(opaque) s.(is_write) s.(buf_offset) s.(buf_index)
    s.(buf_size) s.(buf) s.(has_error).
Definition set_opaque (v : D) (s : QEMUFile) : QEMUFile :=
  mkFile s.(put_buffer) s.(get_buffer) v s.(is_write) s.(buf_offset) s.(buf_index)
    s.(buf_size) s.(buf) s.(has_error).
Definition set_is_write (v : bool) (s : QEMUFile) : QEMUFile :=
  mkFile s.(put_buffer) s.(get_buffer) s.(opaque) v s.(buf_offset) s.(buf_index)
    s.(buf_size) s.(buf) s.(has_error).
Definition set_buf_offset (v : Z) (s : QEMUFile) : QEMUFile :=
  mkFile s.(put_buffer) s.(get_buffer) s.(opaque) s.(is_write) v s.(buf_index)
    s.(buf_size) s.(buf) s.(has_error).
Definition set_buf_index (v : Z) (s : QEMUFile) : QEMUFile :=
  mkFile s.(put_buffer) s.(get_buffer) s.(opaque) s.(is_write) s.(buf_offset) v
    s.(buf_size) s.(buf) s.(has_error).
Definition set_buf_size (v : Z) (s : QEMUFile) : QEMUFile :=
  mkFile s.(put_buffer) s.(get_buffer) s.(opaque) s.(is_write) s.(buf_offset)
    s.(buf_index) v s.(buf) s.(has_error).
Definition set_buf (v : list Z) (s : QEMUFile) : QEMUFile :=
  mkFile s.(put_buffer) s.(get_buffer) s.(opaque) s.(is_write) s.(buf_offset)
    s.(buf_index) s.(buf_size) v s.(has_error).
Definition set_has_error (v : bool) (s : QEMUFile) : QEMUFile :=
  mkFile s.(put_buffer) s.(get_buffer) s.(opaque) s.(is_write) s.(buf_offset)
    s.(buf_index) s.(buf_size) s.(buf) v.

Abbreviation F A := (SM QEMUFile A).

Definition qemu_fopen_ops (put : option (list Z -> Z -> D -> Z * D))
    (get : option (Z -> Z -> D -> Z * list Z * D)) (o : D) : QEMUFile :=
  mkFile put get o false 0 0 0 (replicate (Z.to_nat IO_BUF_SIZE) 0) false.

Definition qemu_file_has_error (f : QEMUFile) : bool := f.(has_error).
Definition qemu_file_set_error (f : QEMUFile) : QEMUFile := set_has_error true f.

Definition qemu_fflush (f : QEMUFile) : QEMUFile :=
  match f.(put_buffer) with
  | None => f
  | Some put =>
      if f.(is_write) && (0 <? f.(buf_index)) then
        let '(len, o) := put (take (Z.to_nat f.(buf_index)) f.(buf)) f.(buf_offset) f.(opaque) in
        let f := set_opaque o f in
        let f := if 0 <? len then set_buf_offset (f.(buf_offset) + f.(buf_index)) f else set_has_error true f in
        set_buf_index 0 f
      else f
  end.

Definition qemu_fill_buffer : F unit := fun f =>
  match f.(get_buffer) with
  | None => Some (tt, f)
  | Some get =>
      if f.(is_write) then None
      else
        let '(len, data, o) := get f.(buf_offset) IO_BUF_SIZE f.(opaque) in
        let f := set_buf (copy_to f.(buf) 0 data) (set_opaque o f) in
        Some (tt, if 0 <? len then
                    set_buf_offset (f.(buf_offset) + len) (set_buf_size len (set_buf_index 0 f))
                  else if negb (len =? - EAGAIN) then set_has_error true f else f)
  end.

(** Closing: the flush, and the state of the medium *)
Definition qemu_fclose (f : QEMUFile)   : D := (qemu_fflush f).(opaque).

(** Writing is refused while unread bytes are in the buffer. *)
Definition check_writable : F unit := fun f =>
  if negb f.(has_error) && negb f.(is_write) && (0 <? f.(buf_index)) then None else Some (tt, f).

Fixpoint put_loop (fuel : nat) (data : list Z) : F unit := fun f =>
  if negb f.(has_error) && (0 <? Z.of_nat (length data)) then
    match fuel with
    | O => None
    | S fuel =>
        let l := Z.min (IO_BUF_SIZE - f.(buf_index)) (Z.of_nat (length data)) in
        let f := set_buf (copy_to f.(buf) (Z.to_nat f.(buf_index)) (take (Z.to_nat l) data)) f in
        let f := set_buf_index (f.(buf_index) + l) (set_is_write true f) in
        let f := if IO_BUF_SIZE <=? f.(buf_index) then qemu_fflush f else f in
        put_loop fuel (drop (Z.to_nat l) data) f
    end
  else Some (tt, f).

(** Every round copies a byte at least. *)
Definition qemu_put_buffer (data : list Z) : F unit :=
  check_writable;; put_loop (length data) data.

(** [f->buf[f->buf_index++] = v] and what follows *)
Definition store_byte (v : Z) : F unit := fun f =>
  if (0 <=? f.(buf_index)) && (f.(buf_index) <? IO_BUF_SIZE) then
    let f := set_buf (<[Z.to_nat f.(buf_index) := wrap 8 v]> f.(buf)) f in
    let f := set_is_write true (set_buf_index (f.(buf_index) + 1) f) in
    Some (tt, if IO_BUF_SIZE <=? f.(buf_index) then qemu_fflush f else f)
  else None.

Definition qemu_put_byte (v : Z) : F unit := check_writable;; store_byte v.

(** Up to [size] bytes; the result is what was copied. *)
Fixpoint get_loop (fuel : nat) (size : Z) (acc : list Z) : F (list Z) :=
  if 0 <? size then
    match fuel with
    | O => sm_fail
    | S fuel =>
        f ← sm_get id;
        (if f.(buf_size) - f.(buf_index) =? 0 then qemu_fill_buffer else mret tt);;
        f ← sm_get id;
        let l := f.(buf_size) - f.(buf_index) in
        if l =? 0 then mret acc
        else
          let l := Z.min l size in
          sm_modify (set_buf_index (f.(buf_index) + l));;
          get_loop fuel (size - l)
            (acc ++ take (Z.to_nat l) (drop (Z.to_nat f.(buf_index)) f.(buf)))
    end
  else mret acc.

Definition qemu_get_buffer (size : Z) : F (list Z) :=
  w ← sm_get is_write;
  if w : bool then sm_fail else get_loop (Z.to_nat size) size [].

(** The byte at the index, after a refill if there is none; [next] is the new
    index. *)
Definition read_at (next : Z -> Z) : F Z :=
  w ← sm_get is_write;
  if w : bool then sm_fail
  else
    f ← sm_get id;
    (if f.(buf_size) <=? f.(buf_index) then qemu_fill_buffer else mret tt);;
    f ← sm_get id;
    if f.(buf_size) <=? f.(buf_index) then mret 0
    else
      v ← sm_lift (f.(buf) !! Z.to_nat f.(buf_index));
      sm_modify (set_buf_index (next f.(buf_index)));;
      mret v.

Definition qemu_peek_byte : F Z := read_at (fun i => i).
Definition qemu_get_byte : F Z := read_at (fun i => i + 1).

Definition qemu_ftell (f : QEMUFile) : Z := f.(buf_offset) - f.(buf_size) + f.(buf_index).

Inductive whence_t := SEEK_SET | SEEK_CUR | SEEK_END.

Definition qemu_fseek (pos : Z) (whence : whence_t) (f : QEMUFile) : Z * QEMUFile :=
  match whence with
  | SEEK_END => (-1, f)
  | _ =>
      let pos := match whence with SEEK_CUR => pos + qemu_ftell f | _ => pos end in
      (pos, match f.(put_buffer) with
            | Some _ => set_buf_offset pos (qemu_fflush f)
            | None => set_buf_size 0 (set_buf_index 0 (set_buf_offset pos f))
            end)
  end.

(** ** Numbers *)

Definition qemu_put_be16 (v : Z) : F unit :=
  qemu_put_byte (Z.shiftr v 8);; qemu_put_byte v.
Definition qemu_put_be32 (v : Z) : F unit :=
  qemu_put_byte (Z.shiftr v 24);; qemu_put_byte (Z.shiftr v 16);;
  qemu_put_byte (Z.shiftr v 8);; qemu_put_byte v.
Definition qemu_put_be64 (v : Z) : F unit :=
  qemu_put_be32 (wrap 32 (Z.shiftr v 32));; qemu_put_be32 (wrap 32 v).

Definition qemu_get_be16 : F Z :=
  a ← qemu_get_byte; b ← qemu_get_byte; mret (Z.lor (Z.shiftl a 8) b).
Definition qemu_get_be32 : F Z :=
  a ← qemu_get_byte; b ← qemu_get_byte; c ← qemu_get_byte; d ← qemu_get_byte;
  mret (Z.lor (Z.lor (Z.lor (wrap 32 (Z.shiftl a 24)) (Z.shiftl b 16)) (Z.shiftl c 8)) d).
Definition qemu_get_be64 : F Z :=
  a ← qemu_get_be32; b ← qemu_get_be32; mret (Z.lor (Z.shiftl a 32) b).

(** ** Media *)

(** Putting at the end of what a sink holds appends. *)
Class Sink (put : list Z -> Z -> D -> Z * D) (bytes : D -> list Z) := sink_law : forall o l, l <> [] ->
  0 < (put l (Z.of_nat (length (bytes o))) o).1 /\
  bytes (put l (Z.of_nat (length (bytes o))) o).2 = bytes o ++ l.

(** A source yields a piece of what it holds, of any length it likes, and an
    error at the end. *)
Class Source (get : Z -> Z -> D -> Z * list Z * D) (bytes : D -> list Z) := source_law : forall o pos size,
  0 <= pos -> 0 < size ->
  let '(len, data, o') := get pos size o in
  bytes o' = bytes o /\
  (pos < Z.of_nat (length (bytes o)) ->
     0 < len <= size /\ len <= Z.of_nat (length (bytes o)) - pos /\
     data = take (Z.to_nat len) (drop (Z.to_nat pos) (bytes o))) /\
  (Z.of_nat (length (bytes o)) <= pos -> len <= 0 /\ len <> - EAGAIN /\ data = []).

Section Media.
Context (put : list Z -> Z -> D -> Z * D) (get : Z -> Z -> D -> Z * list Z * D) (bytes : D -> list Z).
Context {sink : Sink put bytes} {source : Source get bytes}.

(** *** Writing *)

(** Everything put so far: what the medium has and what the buffer has *)
Record writing (out : list Z) (f : QEMUFile) : Prop := {
  wr_put : f.(put_buffer) = Some put;
  wr_error : f.(has_error) = false;
  wr_mode : f.(is_write) = true \/ f.(buf_index) = 0;
  wr_index : 0 <= f.(buf_index) < IO_BUF_SIZE;
  wr_buf : Z.of_nat (length f.(buf)) = IO_BUF_SIZE;
  wr_size : f.(buf_size) = 0;
  wr_offset : f.(buf_offset) = Z.of_nat (length (bytes f.(opaque)));
  wr_out : out = bytes f.(opaque) ++ take (Z.to_nat f.(buf_index)) f.(buf)
}.

Lemma copy_to_length b i l : (i + length l <= length b)%nat -> length (copy_to b i l) = length b.
Proof. intros H. unfold copy_to. rewrite !length_app, length_take, length_drop. lia. Qed.

Lemma take_copy_to b i l : (i + length l <= length b)%nat -> take (i + length l) (copy_to b i l) = take i b ++ l.
Proof.
  intros H. unfold copy_to. rewrite app_assoc, take_app_le, take_ge; [done | |];
    rewrite length_app, length_take; lia.
Qed.

(** The buffer with [l] added, flushed when it is full *)
Lemma writing_more out f l b :
  writing out f -> l <> [] -> f.(buf_index) + Z.of_nat (length l) <= IO_BUF_SIZE ->
  Z.of_nat (length b) = IO_BUF_SIZE ->
  take (Z.to_nat (f.(buf_index) + Z.of_nat (length l))) b = take (Z.to_nat f.(buf_index)) f.(buf) ++ l ->
  let f' := set_is_write true (set_buf_index (f.(buf_index) + Z.of_nat (length l)) (set_buf b f)) in
  writing (out ++ l) (if IO_BUF_SIZE <=? f.(buf_index) + Z.of_nat (length l) then qemu_fflush f' else f').
Proof.
  intros [Hp He Hm [Hi0 Hi1] Hb Hz Ho Hout] Hne Hfit Hlen Htake f'. assert (0 < Z.of_nat (length l)) by (destruct l; [done | cbn; lia]).
  destruct (Z.leb_spec IO_BUF_SIZE (f.(buf_index) + Z.of_nat (length l))).
  - unfold qemu_fflush, f'. cbn [put_buffer set_is_write set_buf_index set_buf is_write buf_index andb buf buf_offset opaque].
    rewrite Hp, (proj2 (Z.ltb_lt 0 _)) by lia. rewrite Htake, Ho.
    set (l' := take _ _ ++ l). assert (Hne' : l' <> []) by (unfold l'; destruct l; [done |]; by destruct (take _ _)).
    destruct (sink_law f.(opaque) l' Hne') as [Hpos Happ]. destruct (put l' _ f.(opaque)) as [len o]. cbn [fst snd] in *.
    cbn [buf_offset set_opaque buf_index]. rewrite (proj2 (Z.ltb_lt 0 len)) by lia.
    split; cbn [put_buffer has_error is_write buf_index buf buf_offset opaque set_buf_index set_buf_offset set_opaque].
    + done.
    + done.
    + by right.
    + done.
    + done.
    + done.
    + cbn [set_is_write set_buf_index set_buf buf_offset buf_index]. rewrite Happ, length_app, Nat2Z.inj_add, Ho. unfold l'. rewrite length_app, length_take. lia.
    + rewrite take_0, app_nil_r, Happ, Hout. unfold l'. by rewrite app_assoc.
  - split; cbn; try done; try lia; try (by left). by rewrite Htake, Hout, app_assoc.
Qed.

Lemma check_writable_runs out f : writing out f -> check_writable f = Some (tt, f).
Proof.
  intros []. unfold check_writable. rewrite wr_error0. cbn [negb andb].
  destruct wr_mode0 as [-> | ->]; [done |]. by rewrite andb_false_r.
Qed.

Lemma put_byte_runs out f v :
  writing out f -> runs (qemu_put_byte v) f (fun _ f' => writing (out ++ [wrap 8 v]) f').
Proof.
  intros Hw. pose proof Hw as [_ _ _ [Hi0 Hi1] Hb _ _ _]. unfold qemu_put_byte. sm_step. exists tt, f. split; [by apply (check_writable_runs out) |].
  unfold store_byte. exists tt. eexists. cbv beta.
  rewrite (proj2 (Z.leb_le 0 _)), (proj2 (Z.ltb_lt _ IO_BUF_SIZE)) by lia. cbn [andb]. split; [reflexivity |].
  apply (writing_more out f [wrap 8 v]); [done | done | cbn; lia | by rewrite length_insert |].
  rewrite Z2Nat.inj_add by (cbn; lia). cbn [length Z.of_nat]. change (Z.to_nat (Z.of_nat 1)) with 1%nat.
  rewrite Nat.add_1_r. erewrite take_S_r by (apply list_lookup_insert_eq; lia).
  by rewrite take_insert_ge by lia.
Qed.

Lemma put_loop_runs fuel data out f :
  (length data <= fuel)%nat -> writing out f ->
  runs (put_loop fuel data) f (fun _ f' => writing (out ++ data) f').
Proof.
  revert data out f. induction fuel as [| fuel IH]; intros data out f Hfuel Hw; unfold runs; cbn [put_loop];
    rewrite (wr_error _ _ Hw); cbn [negb andb].
  - destruct data; [| cbn in Hfuel; lia]. exists tt, f. split; [done |]. by rewrite app_nil_r.
  - destruct (Z.ltb_spec 0 (Z.of_nat (length data))) as [Hpos |];
      [| destruct data; [| cbn in *; lia]; exists tt, f; split; [done |]; by rewrite app_nil_r].
    pose proof (wr_index _ _ Hw) as [Hi0 Hi1]. pose proof (wr_buf _ _ Hw) as Hb.
    set (l := Z.min (IO_BUF_SIZE - f.(buf_index)) (Z.of_nat (length data))).
    set (d := take (Z.to_nat l) data). assert (Hd : Z.of_nat (length d) = l) by (unfold d; rewrite length_take; lia).
    pose proof (writing_more out f d (copy_to f.(buf) (Z.to_nat f.(buf_index)) d) Hw) as Hmore.
    assert (Hne : d <> []) by (intros E; rewrite E in Hd; cbn in Hd; lia).
    assert (Hroom : (Z.to_nat f.(buf_index) + length d <= length f.(buf))%nat) by lia.
    specialize (Hmore Hne ltac:(lia)). rewrite copy_to_length in Hmore by lia. specialize (Hmore Hb).
    replace (Z.to_nat (f.(buf_index) + Z.of_nat (length d))) with (Z.to_nat f.(buf_index) + length d)%nat in Hmore by lia.
    specialize (Hmore (take_copy_to _ _ _ Hroom)). rewrite Hd in Hmore.
    cbn [set_buf set_is_write set_buf_index buf_index].
    destruct (IH (drop (Z.to_nat l) data) _ _ ltac:(rewrite length_drop; lia) Hmore) as (u & f' & E & Hw').
    exists u, f'. split; [exact E |]. rewrite <- app_assoc in Hw'. unfold d in Hw'. by rewrite take_drop in Hw'.
Qed.

Lemma put_buffer_runs data out f :
  writing out f -> runs (qemu_put_buffer data) f (fun _ f' => writing (out ++ data) f').
Proof.
  intros Hw. unfold qemu_put_buffer. sm_step. exists tt, f. split; [by apply (check_writable_runs out) |].
  by apply put_loop_runs.
Qed.

Lemma close_writes out f : writing out f -> bytes (qemu_fclose f) = out.
Proof.
  intros [Hp He Hm [Hi0 Hi1] Hb Hz Ho Hout]. unfold qemu_fclose, qemu_fflush. rewrite Hp.
  destruct (Z.ltb_spec 0 f.(buf_index)) as [Hpos |].
  - destruct Hm as [-> | ?]; [| lia]. cbn [andb]. rewrite Ho. set (l := take _ _).
    destruct (sink_law f.(opaque) l) as [H1 H2]; [intros E; apply (f_equal length) in E; unfold l in E;
      rewrite length_take in E; cbn in E; lia |].
    destruct (put l _ f.(opaque)) as [len o]. cbn [fst snd] in *. cbn [opaque set_buf_index].
    case_match; cbn; by rewrite Hout, H2.
  - rewrite andb_false_r, Hout. replace f.(buf_index) with 0 by lia. by rewrite take_0, app_nil_r.
Qed.

(** *** Reading *)

(** What is still to be read: the rest of the buffer, then of the medium *)
Record reading (rest : list Z) (f : QEMUFile) : Prop := {
  rd_get : f.(get_buffer) = Some get;
  rd_mode : f.(is_write) = false;
  rd_error : f.(has_error) = false;
  rd_index : 0 <= f.(buf_index) <= f.(buf_size);
  rd_size : f.(buf_size) <= IO_BUF_SIZE;
  rd_buf : Z.of_nat (length f.(buf)) = IO_BUF_SIZE;
  rd_offset : 0 <= f.(buf_offset) <= Z.of_nat (length (bytes f.(opaque)));
  rd_rest : rest = take (Z.to_nat (f.(buf_size) - f.(buf_index))) (drop (Z.to_nat f.(buf_index)) f.(buf)) ++
                   drop (Z.to_nat f.(buf_offset)) (bytes f.(opaque))
}.

(** Refilling an empty buffer *)
Lemma fill_runs rest f :
  reading rest f -> f.(buf_index) = f.(buf_size) ->
  runs qemu_fill_buffer f (fun _ f' =>
    (rest <> [] -> reading rest f' /\ f'.(buf_index) < f'.(buf_size)) /\
    (rest = [] -> f'.(has_error) = true /\ f'.(is_write) = false /\ (f'.(buf_index), f'.(buf_size)) = (f.(buf_index), f.(buf_size)))).
Proof.
  intros [Hg Hm He Hi Hs Hb Ho Hr] Heq. unfold runs, qemu_fill_buffer. rewrite Hg, Hm.
  rewrite Heq, Z.sub_diag, take_0 in Hr. cbn [app] in Hr.
  pose proof (source_law f.(opaque) f.(buf_offset) IO_BUF_SIZE (proj1 Ho) eq_refl) as Hlaw.
  destruct (get f.(buf_offset) IO_BUF_SIZE f.(opaque)) as [[len data] o]. destruct Hlaw as (Hby & Hmore & Hend).
  exists tt. eexists. split; [reflexivity |].
  destruct (decide (f.(buf_offset) < Z.of_nat (length (bytes f.(opaque))))) as [Hlt | Hge].
  - destruct (Hmore Hlt) as (Hlen & Hleft & ->). rewrite (proj2 (Z.ltb_lt 0 len)) by lia. split.
    + intros _. set (data := take _ _). assert (Hd : Z.of_nat (length data) = len).
      { unfold data. rewrite length_take, length_drop. lia. }
      split; [| cbn; lia]. split; cbn; try done; try lia.
      * rewrite copy_to_length by lia. done.
      * rewrite Hby. lia.
      * rewrite Z.sub_0_r, drop_0. replace (Z.to_nat len) with (0 + length data)%nat by lia.
        rewrite take_copy_to, take_0, Hby by lia. cbn [app].
        replace (Z.to_nat (f.(buf_offset) + len)) with (Z.to_nat f.(buf_offset) + Z.to_nat len)%nat by lia.
        rewrite <- drop_drop. unfold data. by rewrite take_drop.
    + intros E. rewrite Hr in E. apply (f_equal length) in E. rewrite length_drop in E. cbn in E. lia.
  - destruct Hend as (Hneg & Hag & ->); [lia |]. rewrite (proj2 (Z.ltb_ge 0 len)), (proj2 (Z.eqb_neq _ _)) by lia. split.
    + intros E. exfalso. apply E. rewrite Hr. apply drop_ge. lia.
    + intros _. cbn. by rewrite Hm.
Qed.

(** The buffer after the refill that an access makes if there is nothing in it *)
Lemma refill_runs rest f :
  reading rest f ->
  runs (if f.(buf_size) <=? f.(buf_index) then qemu_fill_buffer else mret tt) f (fun _ f' =>
    (rest <> [] -> reading rest f' /\ f'.(buf_index) < f'.(buf_size)) /\
    (rest = [] -> f'.(has_error) = true /\ f'.(is_write) = false /\ f'.(buf_index) = f'.(buf_size))).
Proof.
  intros Hr. pose proof (rd_index _ _ Hr) as Hi. destruct (Z.leb_spec f.(buf_size) f.(buf_index)).
  - eapply runs_mono; [apply (fill_runs rest f Hr); lia |]. intros _ f' [H1 H2]. split; [exact H1 |].
    intros E. destruct (H2 E) as (? & ? & Heq). injection Heq as -> ->. split; [done |]. split; [done | lia].
  - sm_step. split; [by intros _ |]. intros E. rewrite (rd_rest _ _ Hr) in E. apply app_nil in E as [E _].
    apply (f_equal length) in E. rewrite length_take, length_drop in E. pose proof (rd_size _ _ Hr).
    pose proof (rd_buf _ _ Hr). cbn in E. lia.
Qed.

Lemma read_at_runs next b rest f :
  reading (b :: rest) f ->
  runs (read_at next) f (fun v f' => v = b /\ exists f1, reading (b :: rest) f1 /\
    f1.(buf_index) < f1.(buf_size) /\ f' = set_buf_index (next f1.(buf_index)) f1).
Proof.
  intros Hr. unfold read_at. sm_step. sm_step. rewrite (rd_mode _ _ Hr). sm_step. sm_step. unfold id at 1.
  sm_step. eapply runs_mono; [by apply refill_runs |]. intros _ f1 [H1 _].
  destruct H1 as [Hr1 Hlt]; [done |]. sm_step. sm_step. unfold id. rewrite (proj2 (Z.leb_gt _ _)) by lia.
  pose proof (rd_rest _ _ Hr1) as E. pose proof (rd_index _ _ Hr1). pose proof (rd_size _ _ Hr1). pose proof (rd_buf _ _ Hr1).
  assert (Hb : f1.(buf) !! Z.to_nat f1.(buf_index) = Some b).
  { apply (f_equal (fun l => l !! 0%nat)) in E. cbn in E. rewrite lookup_app_l, lookup_take_lt, lookup_drop, Nat.add_0_r in E;
      [done | lia |]. rewrite length_take, length_drop. lia. }
  sm_step. apply (runs_lift _ b); [done |]. sm_step. sm_step. sm_step. split; [done |]. by exists f1.
Qed.

Lemma reading_next b rest f :
  reading (b :: rest) f -> f.(buf_index) < f.(buf_size) -> reading rest (set_buf_index (f.(buf_index) + 1) f).
Proof.
  intros [Hg Hm He Hi Hs Hb Ho Hr] Hlt. split; cbn; try done; try lia.
  apply (f_equal (drop 1)) in Hr. cbn in Hr. rewrite drop_0 in Hr. rewrite Hr.
  rewrite drop_app_le by (rewrite length_take, length_drop; lia). f_equal.
  rewrite skipn_firstn_comm, drop_drop. f_equal; [lia |]. f_equal. lia.
Qed.

Lemma get_byte_runs b rest f :
  reading (b :: rest) f -> runs qemu_get_byte f (fun v f' => v = b /\ reading rest f').
Proof.
  intros Hr. eapply runs_mono; [by apply read_at_runs |]. intros v f' (-> & f1 & Hr1 & Hlt & ->).
  split; [done |]. by apply (reading_next b).
Qed.

Lemma peek_byte_runs b rest f :
  reading (b :: rest) f -> runs qemu_peek_byte f (fun v f' => v = b /\ reading (b :: rest) f').
Proof.
  intros Hr. eapply runs_mono; [by apply read_at_runs |]. intros v f' (-> & f1 & Hr1 & Hlt & ->).
  split; [done |]. by destruct f1, Hr1; split.
Qed.

(** At the end of the stream the error flag is set and zero returned. *)
Lemma get_end_runs f :
  reading [] f -> runs qemu_get_byte f (fun v f' => v = 0 /\ f'.(has_error) = true).
Proof.
  intros Hr. unfold qemu_get_byte, read_at. sm_step. sm_step. rewrite (rd_mode _ _ Hr). sm_step. sm_step. unfold id at 1.
  sm_step. eapply runs_mono; [by apply refill_runs |]. intros _ f1 [_ H2]. destruct H2 as (He & _ & Heq); [done |].
  sm_step. sm_step. unfold id. rewrite (proj2 (Z.leb_le _ _)) by lia. by sm_step.
Qed.

Lemma get_loop_runs fuel size acc rest f :
  (Z.to_nat size <= fuel)%nat -> reading rest f -> size <= Z.of_nat (length rest) ->
  runs (get_loop fuel size acc) f (fun l f' => l = acc ++ take (Z.to_nat size) rest /\
    reading (drop (Z.to_nat size) rest) f').
Proof.
  revert size acc rest f. induction fuel as [| fuel IH]; intros size acc rest f Hfuel Hr Hlen; cbn [get_loop];
    (destruct (Z.ltb_spec 0 size); [| sm_step; replace (Z.to_nat size) with 0%nat by lia; by rewrite take_0, app_nil_r, drop_0]);
    [lia |].
  assert (Hne : rest <> []) by (intros ->; cbn in Hlen; lia).
  sm_step. sm_step. change (id f) with f. sm_step.
  pose proof (refill_runs rest f Hr) as Hfill. pose proof (rd_index _ _ Hr).
  replace (f.(buf_size) - f.(buf_index) =? 0) with (f.(buf_size) <=? f.(buf_index))
    by (case_cmp; try done; lia).
  eapply runs_mono; [exact Hfill |]. intros _ f1 [H1 _]. destruct (H1 Hne) as [Hr1 Hlt].
  sm_step. sm_step. unfold id. rewrite (proj2 (Z.eqb_neq _ 0)) by lia. sm_step. sm_step.
  set (l := Z.min (f1.(buf_size) - f1.(buf_index)) size).
  pose proof Hr1 as [Hg Hm He Hi Hs Hb Ho Hrest].
  assert (Hl : take (Z.to_nat l) (drop (Z.to_nat f1.(buf_index)) f1.(buf)) = take (Z.to_nat l) rest).
  { rewrite Hrest, take_app_le, take_take by (rewrite length_take, length_drop; lia). f_equal. lia. }
  assert (Hr2 : reading (drop (Z.to_nat l) rest) (set_buf_index (f1.(buf_index) + l) f1)).
  { split; cbn; try done; try lia. rewrite Hrest, drop_app_le by (rewrite length_take, length_drop; lia).
    rewrite skipn_firstn_comm, drop_drop. f_equal. f_equal; [lia |]. f_equal. lia. }
  rewrite Hl. eapply runs_mono; [apply IH; [lia | exact Hr2 | rewrite length_drop; lia] |].
  intros r f' [-> Hr']. rewrite drop_drop in Hr'. replace (Z.to_nat l + Z.to_nat (size - l))%nat with (Z.to_nat size) in Hr' by lia.
  split; [| done]. rewrite <- app_assoc. f_equal.
  replace (Z.to_nat size) with (Z.to_nat l + Z.to_nat (size - l))%nat by lia. by rewrite take_take_drop.
Qed.

Lemma get_buffer_runs size rest f :
  reading rest f -> size <= Z.of_nat (length rest) ->
  runs (qemu_get_buffer size) f (fun l f' => l = take (Z.to_nat size) rest /\ reading (drop (Z.to_nat size) rest) f').
Proof.
  intros Hr Hs. unfold qemu_get_buffer. sm_step. sm_step. rewrite (rd_mode _ _ Hr).
  by apply (get_loop_runs (Z.to_nat size) size [] rest f).
Qed.

(** *** Codecs *)

(** What is put is got back, whatever follows in the stream. *)
Class Codec {A} (ok : A -> Prop) (p : A -> F unit) (g : F A) (enc : A -> list Z) := {
  codec_put : forall a out f, writing out f -> runs (p a) f (fun _ f' => writing (out ++ enc a) f');
  codec_get : forall a rest f, ok a -> reading (enc a ++ rest) f -> runs g f (fun v f' => v = a /\ reading rest f')
}.

#[local] Instance byte_codec : Codec (in_u 8) qemu_put_byte qemu_get_byte (be_bytes 1).
Proof.
  split.
  - intros a out f Hw. sm_use (put_byte_runs _ _ _ Hw). done.
  - intros a rest f Ha Hr. change (be_bytes 1 a) with [wrap 8 (Z.shiftr a 0)] in Hr.
    rewrite Z.shiftr_0_r, wrap_small in Hr by done. by apply get_byte_runs.
Qed.

(** The numbers are put together from their bytes. *)
Lemma join_bits (k v hi lo : Z) :
  0 <= k -> 0 <= v -> hi = Z.shiftr v k -> lo = wrap k v -> Z.lor (Z.shiftl hi k) lo = v.
Proof.
  intros Hk Hv -> ->. apply Z.bits_inj'. intros i Hi. rewrite Z.lor_spec, Z.shiftl_spec, wrap_testbit by done.
  destruct (Z.ltb_spec i k).
  - by rewrite Z.testbit_neg_r by lia.
  - rewrite Z.shiftr_spec by lia. replace (i - k + k) with i by lia. by rewrite orb_false_r.
Qed.

Lemma shiftr_u (w k v : Z) : 0 <= k -> 0 <= w -> in_u (w + k) v -> in_u w (Z.shiftr v k).
Proof.
  intros Hk Hw [H0 H1]. rewrite Z.shiftr_div_pow2 by done. split; [apply Z.div_pos; lia |].
  apply Z.div_lt_upper_bound; [lia |]. rewrite <- Z.pow_add_r by lia. by rewrite Z.add_comm.
Qed.

#[local] Instance be16_codec : Codec (in_u 16) qemu_put_be16 qemu_get_be16 (be_bytes 2).
Proof.
  split.
  - intros a out f Hw. unfold qemu_put_be16. sm_step. sm_use (put_byte_runs _ _ _ Hw).
    intros _ f1 Hw1. sm_use (put_byte_runs _ _ _ Hw1). intros _ f2 Hw2. by rewrite <- app_assoc in Hw2.
  - intros a rest f Ha Hr. change (be_bytes 2 a) with [wrap 8 (Z.shiftr a 8); wrap 8 (Z.shiftr a 0)] in Hr.
    unfold qemu_get_be16. sm_step. sm_use (get_byte_runs _ _ _ Hr). intros v f1 [-> Hr1].
    sm_step. sm_use (get_byte_runs _ _ _ Hr1). intros v f2 [-> Hr2]. sm_step. split; [| done].
    apply join_bits; [lia | apply Ha | | by rewrite Z.shiftr_0_r]. apply wrap_small, (shiftr_u 8 8); [lia | lia | done].
Qed.

Lemma be32_join (v : Z) : in_u 32 v ->
  Z.lor (Z.lor (Z.lor (wrap 32 (Z.shiftl (wrap 8 (Z.shiftr v 24)) 24)) (Z.shiftl (wrap 8 (Z.shiftr v 16)) 16))
    (Z.shiftl (wrap 8 (Z.shiftr v 8)) 8)) (wrap 8 (Z.shiftr v 0)) = v.
Proof.
  intros Hv. apply Z.bits_inj'. intros i Hi. rewrite !Z.lor_spec, wrap_testbit, !Z.shiftl_spec, !wrap_testbit by done.
  destruct (decide (32 <= i)).
  { rewrite (testbit_high 32 v i) by (done || lia).
    rewrite (proj2 (Z.ltb_ge i 32)), (proj2 (Z.ltb_ge (i - 16) 8)), (proj2 (Z.ltb_ge (i - 8) 8)), (proj2 (Z.ltb_ge i 8)) by lia.
    done. }
  rewrite (proj2 (Z.ltb_lt i 32)) by lia.
  assert (Hs : forall k, 0 <= k -> Z.testbit (Z.shiftr v k) (i - k) = (k <=? i) && Z.testbit v i).
  { intros k Hk. destruct (Z.leb_spec k i); [| by rewrite Z.testbit_neg_r by lia].
    rewrite Z.shiftr_spec by lia. cbn [andb]. f_equal. lia. }
  rewrite !Hs, Z.shiftr_0_r by lia. cbn [andb]. destruct (Z.testbit v i); case_cmp; cbn; try done; lia.
Qed.

#[local] Instance be32_codec : Codec (in_u 32) qemu_put_be32 qemu_get_be32 (be_bytes 4).
Proof.
  split.
  - intros a out f Hw. unfold qemu_put_be32. sm_step. sm_use (put_byte_runs _ _ _ Hw).
    intros _ f1 Hw1. sm_step. sm_use (put_byte_runs _ _ _ Hw1). intros _ f2 Hw2. sm_step.
    sm_use (put_byte_runs _ _ _ Hw2). intros _ f3 Hw3.
    sm_use (put_byte_runs _ _ _ Hw3). intros _ f4 Hw4. by rewrite <- !app_assoc in Hw4.
  - intros a rest f Ha Hr.
    change (be_bytes 4 a) with [wrap 8 (Z.shiftr a 24); wrap 8 (Z.shiftr a 16); wrap 8 (Z.shiftr a 8); wrap 8 (Z.shiftr a 0)] in Hr.
    unfold qemu_get_be32. sm_step. sm_use (get_byte_runs _ _ _ Hr). intros v f1 [-> Hr1].
    sm_step. sm_use (get_byte_runs _ _ _ Hr1). intros v f2 [-> Hr2].
    sm_step. sm_use (get_byte_runs _ _ _ Hr2). intros v f3 [-> Hr3].
    sm_step. sm_use (get_byte_runs _ _ _ Hr3). intros v f4 [-> Hr4]. sm_step.
    split; [by apply be32_join | done].
Qed.

Lemma be_bytes_low n w v : 8 * Z.of_nat n <= w -> be_bytes n (wrap w v) = be_bytes n v.
Proof.
  induction n as [| n IH]; intros Hw; [done |]. cbn [be_bytes]. rewrite IH by lia. f_equal.
  change (wrap 8 (Z.shiftr (wrap w v) (8 * Z.of_nat n)) = wrap 8 (Z.shiftr v (8 * Z.of_nat n))).
  apply Z.bits_inj'. intros i Hi. rewrite !wrap_testbit, !Z.shiftr_spec, wrap_testbit by lia.
  destruct (Z.ltb_spec i 8); [| done]. by rewrite (proj2 (Z.ltb_lt _ w)) by lia.
Qed.

#[local] Instance be64_codec : Codec (in_u 64) qemu_put_be64 qemu_get_be64 (be_bytes 8).
Proof.
  assert (Henc : forall a, be_bytes 8 a = be_bytes 4 (wrap 32 (Z.shiftr a 32)) ++ be_bytes 4 (wrap 32 a)).
  { intros a. rewrite !be_bytes_low by lia. cbn [be_bytes app]. by rewrite !Z.shiftr_shiftr by lia. }
  split.
  - intros a out f Hw. unfold qemu_put_be64. sm_step. sm_use (codec_put _ _ _ Hw).
    intros _ f1 Hw1. sm_use (codec_put _ _ _ Hw1). intros _ f2 Hw2. by rewrite Henc, app_assoc.
  - intros a rest f Ha Hr. rewrite Henc, <- app_assoc in Hr. unfold qemu_get_be64. sm_step.
    sm_use (codec_get _ _ _ ltac:(apply in_u_wrap; lia) Hr). intros v f1 [-> Hr1]. sm_step.
    sm_use (codec_get _ _ _ ltac:(apply in_u_wrap; lia) Hr1). intros v f2 [-> Hr2]. sm_step.
    split; [| done]. apply join_bits; [lia | apply Ha | | done]. apply wrap_small, (shiftr_u 32 32); [lia | lia | done].
Qed.

(** The position is the number of bytes passed. *)
Lemma writing_tell out f : writing out f -> qemu_ftell f = Z.of_nat (length out).
Proof.
  intros [Hp He Hm [Hi0 Hi1] Hb Hz Ho Hout]. unfold qemu_ftell. rewrite Hout, length_app, length_take. lia.
Qed.

Lemma reading_tell rest f :
  reading rest f -> qemu_ftell f = Z.of_nat (length (bytes f.(opaque))) - Z.of_nat (length rest).
Proof.
  intros [Hg Hm He Hi Hs Hb Ho Hr]. unfold qemu_ftell. rewrite Hr, length_app, length_take, !length_drop. lia.
Qed.

(** *** Records of a stream *)

Definition put_item (i : item) : F unit :=
  match i with
  | IByte v => qemu_put_byte v
  | IBe16 v => qemu_put_be16 v
  | IBe32 v => qemu_put_be32 v
  | IBe64 v => qemu_put_be64 v
  | IBlock l => qemu_put_buffer l
  end.

(** The reader knows the kinds of the records and the sizes of the blocks. *)
Definition get_item (i : item) : F item :=
  match i with
  | IByte _ => v ← qemu_get_byte; mret (IByte v)
  | IBe16 _ => v ← qemu_get_be16; mret (IBe16 v)
  | IBe32 _ => v ← qemu_get_be32; mret (IBe32 v)
  | IBe64 _ => v ← qemu_get_be64; mret (IBe64 v)
  | IBlock l => l ← qemu_get_buffer (Z.of_nat (length l)); mret (IBlock l)
  end.

Fixpoint put_items (l : list item) : F unit :=
  match l with [] => mret tt | i :: l => put_item i;; put_items l end.
Fixpoint get_items (l : list item) : F (list item) :=
  match l with [] => mret [] | i :: l => i ← get_item i; l ← get_items l; mret (i :: l) end.

#[local] Instance item_codec i :
  Codec (fun j => item_ok j /\ j = i) put_item (get_item i) item_bytes.
Proof.
  split.
  - intros a out f Hw. destruct a; cbn [put_item item_bytes];
      first [exact (codec_put _ _ _ Hw) | by apply put_buffer_runs].
  - intros a rest f [Ha ->] Hr. destruct i as [v | v | v | v | l]; cbn [get_item item_bytes item_ok] in *; sm_step.
    1-4: sm_use (codec_get _ _ _ Ha Hr); intros x f' [-> Hr']; by sm_step.
    assert (Hlen : Z.of_nat (length l) <= Z.of_nat (length (l ++ rest))) by (rewrite length_app; lia).
    sm_use (get_buffer_runs _ _ _ Hr Hlen). intros x f' [-> Hr']. sm_step.
    rewrite Nat2Z.id, take_app_length. by rewrite Nat2Z.id, drop_app_length in Hr'.
Qed.

Lemma put_items_runs l out f :
  writing out f -> runs (put_items l) f (fun _ f' => writing (out ++ concat (map item_bytes l)) f').
Proof.
  revert out f. induction l as [| i l IH]; intros out f Hw; cbn [put_items map concat].
  - sm_step. by rewrite app_nil_r.
  - sm_step. sm_use (codec_put (Codec := item_codec i) i _ _ Hw). intros _ f1 Hw1. rewrite app_assoc. by apply IH.
Qed.

Lemma get_items_runs l rest f :
  Forall item_ok l -> reading (concat (map item_bytes l) ++ rest) f ->
  runs (get_items l) f (fun l' f' => l' = l /\ reading rest f').
Proof.
  intros Hok. revert rest f. induction Hok as [| i l Hi Hl IH]; intros rest f Hr; cbn [get_items map concat] in *.
  - by sm_step.
  - rewrite <- app_assoc in Hr. sm_step. sm_use (codec_get (Codec := item_codec i) i _ _ (conj Hi eq_refl) Hr).
    intros v f1 [-> Hr1]. sm_step. sm_use (IH _ _ Hr1). intros l' f2 [-> Hr2]. by sm_step.
Qed.

Lemma open_writing o : bytes o = [] -> writing [] (qemu_fopen_ops (Some put) None o).
Proof. intros E. split; cbn [qemu_fopen_ops put_buffer has_error is_write buf_index buf_size buf buf_offset opaque]; try done; [by right | by rewrite E | by rewrite E]. Qed.

Lemma open_reading o : reading (bytes o) (qemu_fopen_ops None (Some get) o).
Proof. split; cbn [qemu_fopen_ops get_buffer has_error is_write buf_index buf_size buf buf_offset opaque]; try done. lia. Qed.

(** C19: what is put into a stream comes back.  Over any medium that appends
    what is put at its end and gives back what it holds in pieces of any length:
    bytes, 16-, 32- and 64-bit numbers and blocks put one after the other, of any
    number and across any number of buffers, are written without an error, the
    position is the number of bytes put, and once the stream is closed a reader
    gets exactly the same records in the same order, is at the end of the data
    when it has them, and only then runs into an error. *)
Theorem stream_round_trip (l : list item) (o : D) :
  bytes o = [] -> Forall item_ok l ->
  runs (put_items l) (qemu_fopen_ops (Some put) None o) (fun _ f =>
    f.(has_error) = false /\ qemu_ftell f = Z.of_nat (length (concat (map item_bytes l))) /\
    bytes (qemu_fclose f) = concat (map item_bytes l) /\
    runs (get_items l) (qemu_fopen_ops None (Some get) (qemu_fclose f)) (fun l' f' =>
      l' = l /\ f'.(has_error) = false /\ qemu_ftell f' = Z.of_nat (length (bytes f'.(opaque))) /\
      runs qemu_get_byte f' (fun v f'' => v = 0 /\ f''.(has_error) = true))).
Proof.
  intros Ho Hok. sm_use (put_items_runs l _ _ (open_writing o Ho)). intros _ f Hw. cbn [app] in Hw.
  split; [by destruct Hw |]. split; [by apply (writing_tell _ _ Hw) |]. split; [by apply close_writes |].
  pose proof (open_reading (qemu_fclose f)) as Hr. rewrite (close_writes _ _ Hw) in Hr.
  rewrite <- (app_nil_r (concat _)) in Hr. sm_use (get_items_runs l [] _ Hok Hr). intros l' f' [-> Hr'].
  split; [done |]. split; [by destruct Hr' |]. split; [| by apply get_end_runs].
  rewrite (reading_tell _ _ Hr'). cbn. lia.
Qed.
End Media.
End File.

(** ** Files *)

(** Contents with [l] written at [pos]; what is skipped reads as zeros. *)
Definition splice (data : list Z) (pos : nat) (l : list Z) : list Z :=
  take pos data ++ replicate (pos - length data) 0 ++ l ++ drop (pos + length l) data.

(** [fseek] and [fwrite] on a disk with room for [limit] bytes of the file; the
    result is the number of bytes written *)
Definition file_put_buffer (limit : option nat) (l : list Z) (pos : Z) (data : list Z) : Z * list Z :=
  let l := match limit with None => l | Some n => take (n - Z.to_nat pos) l end in
  (Z.of_nat (length l), splice data (Z.to_nat pos) l).

(** [fseek] and [fread] *)
Definition file_get_buffer (pos size : Z) (data : list Z) : Z * list Z * list Z :=
  let l := take (Z.to_nat size) (drop (Z.to_nat pos) data) in
  (Z.of_nat (length l), l, data).

(** [fopen] in mode w truncates, in mode r it needs a file. *)
Definition qemu_fopen (limit : option nat) (file : option (list Z)) (mode : string) : option (QEMUFile (D := list Z)) :=
  if bool_decide (mode = "wb"%string) then Some (qemu_fopen_ops (Some (file_put_buffer limit)) None [])
  else if bool_decide (mode = "rb"%string) then
    data ← file; Some (qemu_fopen_ops None (Some file_get_buffer) data)
  else None.

Lemma splice_end data l : splice data (length data) l = data ++ l.
Proof.
  unfold splice. rewrite take_ge, Nat.sub_diag by lia. cbn [replicate app].
  by rewrite drop_ge, app_nil_r by lia.
Qed.

#[global] Instance file_sink : Sink (file_put_buffer None) id.
Proof.
  intros o l Hne. unfold file_put_buffer, id. cbn [fst snd]. rewrite Nat2Z.id, splice_end. split; [| done].
  destruct l; [done | cbn; lia].
Qed.

#[global] Instance file_source : Source file_get_buffer id.
Proof.
  intros o pos size Hp Hs. unfold file_get_buffer, id. rewrite length_take, length_drop. split; [done |]. split.
  - intros Hlt. split; [lia |]. split; [lia |].
    rewrite Nat2Z.id, <- length_drop, <- (firstn_all (drop (Z.to_nat pos) o)) at 1. by rewrite take_take.
  - intros Hge. rewrite (drop_ge o) by lia. rewrite take_nil. unfold EAGAIN. split; [lia |]. split; [lia | done].
Qed.

(** The records of the witness: three numbers around a block larger than the
    buffer *)
Definition demo_items : list item :=
  [IByte 7; IBe16 0xbeef; IBlock (replicate (Z.to_nat 40000) 3); IBe32 0xdeadbeef; IBe64 0x0123456789abcdef].

Lemma stream_round_trip_witness :
  runs (put_items demo_items) (qemu_fopen_ops (Some (file_put_buffer None)) None []) (fun _ f =>
    f.(has_error) = false /\ qemu_ftell f = Z.of_nat (length (concat (map item_bytes demo_items))) /\
    id (qemu_fclose f) = concat (map item_bytes demo_items) /\
    runs (get_items demo_items) (qemu_fopen_ops None (Some file_get_buffer) (qemu_fclose f)) (fun l' f' =>
      l' = demo_items /\ f'.(has_error) = false /\ qemu_ftell f' = Z.of_nat (length (id f'.(opaque))) /\
      runs qemu_get_byte f' (fun v f'' => v = 0 /\ f''.(has_error) = true))).
Proof.
  apply (stream_round_trip (file_put_buffer None) file_get_buffer id demo_items []); [reflexivity |].
  unfold demo_items. repeat (apply Forall_cons; split; [by vm_compute |]). constructor.
Defined.

(** A disk with room for 4 of 8 bytes: the flush writes half of the number and
    the stream has no error. *)
Lemma short_write_unnoticed :
  match qemu_fopen (Some 4%nat) None "wb" with
  | Some f => match qemu_put_be64 0x0102030405060708 f with
              | Some (_, f) => ((qemu_fflush f).(has_error), (qemu_fflush f).(buf_offset), (qemu_fflush f).(opaque))
              | None => (true, 0, [])
              end
  | None => (true, 0, [])
  end = (false, 8, [1; 2; 3; 4]).
Proof. by vm_compute. Qed.
