(* ===== verification/Vmstate.v ===== *)
(** * Descriptions of device state (qemu/savevm.c, qemu/hw/hw.h)

    A [VMStateDescription] says where in the memory of a device its fields are:
    plain numbers and buffers, arrays, structures, through pointers, with counts
    and sizes that are fields themselves, and optional subsections.  Saving walks
    the description and puts the fields into a stream of [QemuFile], loading
    walks it again and stores what it gets.

    The memory of the devices is a finite map from addresses to bytes; a host
    pointer has 32 bits and numbers are little-endian, as on Windows.  Hooks and
    tests of a device are functions on that memory; a description with its own
    way to store a field is [vmstate_info_own].

    [None] is [abort], an access outside the memory, a call of a null function or
    fuel that ran out: a description that is nested [fuel] deep is walked, and
    the subsections of one description are loaded in [rounds] rounds.

    Theorems: a saved device is loaded back exactly: every byte described is as
    it was saved and nothing else changes, as long as the destination knows the
    counts and pointers when it needs them; versions that do not fit are refused
    before anything is read; where subsections make a stream ambiguous. *)

From Stdlib Require Import ZArith Lia.
From stdpp Require Import base option numbers gmap list.
From S2P Require Import Prelude Stm QemuFile.

Local Open Scope Z_scope.

(** ** Memory *)

Abbreviation mem := (gmap Z Z).

Definition load_bytes (m : mem) (a n : Z) : option (list Z) := mapM (fun i => m !! (a + i)) (seqZ 0 n).

(** Only bytes that exist are written. *)
Fixpoint store_bytes (m : mem) (a : Z) (l : list Z) : option mem :=
  match l with
  | [] => Some m
  | b :: l => _ ← m !! a; store_bytes (<[a := b]> m) (a + 1) l
  end.

(** The number of a sequence of bytes, most significant first *)
Definition of_be (l : list Z) : Z := fold_left (fun v b => v * 256 + b) l 0.

Definition load_le (m : mem) (a n : Z) : option Z := l ← load_bytes m a n; Some (of_be (rev l)).
Definition store_le (m : mem) (a : Z) (n : nat) (v : Z) : option mem := store_bytes m a (rev (be_bytes n v)).

Definition EINVAL : Z := 22.
Definition ENOENT : Z := 2.
Definition QEMU_VM_EOF : Z := 0x00.
Definition QEMU_VM_SUBSECTION : Z := 0x05.

Definition VMS_SINGLE : Z := 0x001.
Definition VMS_POINTER : Z := 0x002.
Definition VMS_ARRAY : Z := 0x004.
Definition VMS_STRUCT : Z := 0x008.
Definition VMS_VARRAY_INT32 : Z := 0x010.
Definition VMS_BUFFER : Z := 0x020.
Definition VMS_ARRAY_OF_POINTER : Z := 0x040.
Definition VMS_VARRAY_UINT16 : Z := 0x080.
Definition VMS_VBUFFER : Z := 0x100.
Definition VMS_MULTIPLY : Z := 0x200.
Definition VMS_VARRAY_UINT8 : Z := 0x400.
Definition VMS_VARRAY_UINT32 : Z := 0x800.

Section Vmstate.
Context {D : Type}.

(** A stream and the memory of the devices *)
Abbreviation VM A := (SM (QEMUFile (D := D) * mem) A).

Definition on_file {A} (p : SM QEMUFile A) : VM A := fun s =>
  match p s.1 with Some (x, f) => Some (x, (f, s.2)) | None => None end.
Definition on_mem (g : mem -> option mem) : VM unit := fun s =>
  match g s.2 with Some m => Some (tt, (s.1, m)) | None => None end.
Definition look {A} (g : mem -> option A) : VM A := fun s =>
  match g s.2 with Some x => Some (x, s) | None => None end.

(** ** Kinds of fields *)

(** [struct VMStateInfo]: those of savevm.c, and the ones of a device *)
Inductive VMStateInfo :=
  | vmstate_info_bool
  | vmstate_info_int8 | vmstate_info_int16 | vmstate_info_int32
  | vmstate_info_int32_equal | vmstate_info_int32_le | vmstate_info_int64
  | vmstate_info_uint8 | vmstate_info_uint16 | vmstate_info_uint32
  | vmstate_info_uint32_equal | vmstate_info_uint64
  | vmstate_info_uint8_equal | vmstate_info_uint16_equal
  | vmstate_info_buffer | vmstate_info_unused_buffer
  | vmstate_info_own (get : Z -> Z -> VM Z) (put : Z -> Z -> VM unit).

Definition put_bool (pv : Z) : VM unit := v ← look (fun m => load_le m pv 1); on_file (qemu_put_byte v).
Definition get_bool (pv : Z) : VM Z :=
  v ← on_file qemu_get_byte; on_mem (fun m => store_le m pv 1 (c_bool (c_true v)));; mret 0.

Definition qemu_put_8s (pv : Z) : VM unit := v ← look (fun m => load_le m pv 1); on_file (qemu_put_byte v).
Definition qemu_put_be16s (pv : Z) : VM unit := v ← look (fun m => load_le m pv 2); on_file (qemu_put_be16 v).
Definition qemu_put_be32s (pv : Z) : VM unit := v ← look (fun m => load_le m pv 4); on_file (qemu_put_be32 v).
Definition qemu_put_be64s (pv : Z) : VM unit := v ← look (fun m => load_le m pv 8); on_file (qemu_put_be64 v).
Definition qemu_get_8s (pv : Z) : VM Z := v ← on_file qemu_get_byte; on_mem (fun m => store_le m pv 1 v);; mret 0.
Definition qemu_get_be16s (pv : Z) : VM Z := v ← on_file qemu_get_be16; on_mem (fun m => store_le m pv 2 v);; mret 0.
Definition qemu_get_be32s (pv : Z) : VM Z := v ← on_file qemu_get_be32; on_mem (fun m => store_le m pv 4 v);; mret 0.
Definition qemu_get_be64s (pv : Z) : VM Z := v ← on_file qemu_get_be64; on_mem (fun m => store_le m pv 8 v);; mret 0.

(** A received number against the one in the field *)
Definition get_uint8_equal (pv : Z) : VM Z :=
  v2 ← on_file qemu_get_byte; v ← look (fun m => load_le m pv 1); mret (if v =? v2 then 0 else - EINVAL).
Definition get_uint16_equal (pv : Z) : VM Z :=
  v2 ← on_file qemu_get_be16; v ← look (fun m => load_le m pv 2); mret (if v =? v2 then 0 else - EINVAL).
Definition get_uint32_equal (pv : Z) : VM Z :=
  v2 ← on_file qemu_get_be32; v ← look (fun m => load_le m pv 4); mret (if v =? v2 then 0 else - EINVAL).
Definition get_int32_equal (pv : Z) : VM Z :=
  v2 ← on_file qemu_get_be32; v ← look (fun m => load_le m pv 4);
  mret (if to_signed 32 v =? to_signed 32 v2 then 0 else - EINVAL).
Definition get_int32_le (pv : Z) : VM Z :=
  new ← on_file qemu_get_be32; old ← look (fun m => load_le m pv 4);
  mret (if to_signed 32 old <=? to_signed 32 new then 0 else - EINVAL).

Definition put_buffer_info (pv size : Z) : VM unit :=
  l ← look (fun m => load_bytes m pv size); on_file (qemu_put_buffer l).
Definition get_buffer_info (pv size : Z) : VM Z :=
  l ← on_file (qemu_get_buffer size); on_mem (fun m => store_bytes m pv l);; mret 0.

(** Blocks of 1024 bytes *)
Fixpoint put_unused_loop (fuel : nat) (size : Z) : VM unit :=
  if 0 <? size then
    match fuel with
    | O => sm_fail
    | S fuel =>
        let block_len := Z.min 1024 size in
        on_file (qemu_put_buffer (replicate (Z.to_nat block_len) 0));;
        put_unused_loop fuel (size - block_len)
    end
  else mret tt.
Fixpoint get_unused_loop (fuel : nat) (size : Z) : VM Z :=
  if 0 <? size then
    match fuel with
    | O => sm_fail
    | S fuel =>
        let block_len := Z.min 1024 size in
        on_file (qemu_get_buffer block_len);;
        get_unused_loop fuel (size - block_len)
    end
  else mret 0.
Definition put_unused_buffer (size : Z) : VM unit := put_unused_loop (Z.to_nat size) size.
Definition get_unused_buffer (size : Z) : VM Z := get_unused_loop (Z.to_nat size) size.

(** [info->put] and [info->get] *)
Definition info_put (i : VMStateInfo) (pv size : Z) : VM unit :=
  match i with
  | vmstate_info_bool => put_bool pv
  | vmstate_info_int8 | vmstate_info_uint8 | vmstate_info_uint8_equal => qemu_put_8s pv
  | vmstate_info_int16 | vmstate_info_uint16 | vmstate_info_uint16_equal => qemu_put_be16s pv
  | vmstate_info_int32 | vmstate_info_int32_equal | vmstate_info_int32_le
  | vmstate_info_uint32 | vmstate_info_uint32_equal => qemu_put_be32s pv
  | vmstate_info_int64 | vmstate_info_uint64 => qemu_put_be64s pv
  | vmstate_info_buffer => put_buffer_info pv size
  | vmstate_info_unused_buffer => put_unused_buffer size
  | vmstate_info_own _ put => put pv size
  end.

Definition info_get (i : VMStateInfo) (pv size : Z) : VM Z :=
  match i with
  | vmstate_info_bool => get_bool pv
  | vmstate_info_int8 | vmstate_info_uint8 => qemu_get_8s pv
  | vmstate_info_int16 | vmstate_info_uint16 => qemu_get_be16s pv
  | vmstate_info_int32 | vmstate_info_uint32 => qemu_get_be32s pv
  | vmstate_info_int64 | vmstate_info_uint64 => qemu_get_be64s pv
  | vmstate_info_uint8_equal => get_uint8_equal pv
  | vmstate_info_uint16_equal => get_uint16_equal pv
  | vmstate_info_uint32_equal => get_uint32_equal pv
  | vmstate_info_int32_equal => get_int32_equal pv
  | vmstate_info_int32_le => get_int32_le pv
  | vmstate_info_buffer => get_buffer_info pv size
  | vmstate_info_unused_buffer => get_unused_buffer size
  | vmstate_info_own get _ => get pv size
  end.

(** ** Descriptions *)

(** [struct VMStateDescription], [VMStateField] and [VMStateSubsection]; names are
    byte strings without their terminator, lists end where the C arrays do. *)
Inductive VMStateDescription := mkVmsd {
  name : list Z;
  version_id : Z;
  minimum_version_id : Z;
  minimum_version_id_old : Z;
  load_state_old : option (Z -> Z -> VM Z);
  pre_load : option (Z -> mem -> Z * mem);
  post_load : option (Z -> Z -> mem -> Z * mem);
  pre_save : option (Z -> mem -> mem);
  fields : list VMStateField;
  subsections : option (list VMStateSubsection)
}
with VMStateField := mkField {
  offset : Z;
  size : Z;
  start : Z;
  num : Z;
  num_offset : Z;
  size_offset : Z;
  info : VMStateInfo;
  flags : Z;
  field_vmsd : option VMStateDescription;
  field_version : Z;
  field_exists : option (Z -> Z -> mem -> bool)
}
with VMStateSubsection := mkSub {
  sub_vmsd : VMStateDescription;
  needed : Z -> mem -> bool
}.

(** How deep descriptions are nested *)
Fixpoint nesting (d : VMStateDescription) : nat :=
  S (list_max (map (fun f => match f with mkField _ _ _ _ _ _ _ _ (Some d) _ _ => nesting d | _ => 0%nat end) d.(fields)) `max`
     match d.(subsections) with
     | Some subs => list_max (map (fun s => match s with mkSub d _ => nesting d end) subs)
     | None => 0%nat
     end).

(** ** The layout of a field in the memory of a device *)

Definition has (f : VMStateField) (fl : Z) : bool := c_true (Z.land f.(flags) fl).

Definition field_size (f : VMStateField) (opaque : Z) (m : mem) : option Z :=
  if has f VMS_VBUFFER then
    sz ← load_le m (opaque + f.(size_offset)) 4;
    let sz := to_signed 32 sz in
    Some (if has f VMS_MULTIPLY then to_signed 32 (sz * f.(size)) else sz)
  else Some (to_signed 32 f.(size)).

(** Saving does not know [VMS_VARRAY_UINT32]. *)
Definition save_n_elems (f : VMStateField) (opaque : Z) (m : mem) : option Z :=
  if has f VMS_ARRAY then Some f.(num)
  else if has f VMS_VARRAY_INT32 then n ← load_le m (opaque + f.(num_offset)) 4; Some (to_signed 32 n)
  else if has f VMS_VARRAY_UINT16 then load_le m (opaque + f.(num_offset)) 2
  else if has f VMS_VARRAY_UINT8 then load_le m (opaque + f.(num_offset)) 1
  else Some 1.

Definition load_n_elems (f : VMStateField) (opaque : Z) (m : mem) : option Z :=
  if has f VMS_ARRAY then Some f.(num)
  else if has f VMS_VARRAY_INT32 then n ← load_le m (opaque + f.(num_offset)) 4; Some (to_signed 32 n)
  else if has f VMS_VARRAY_UINT32 then n ← load_le m (opaque + f.(num_offset)) 4; Some (to_signed 32 n)
  else if has f VMS_VARRAY_UINT16 then load_le m (opaque + f.(num_offset)) 2
  else if has f VMS_VARRAY_UINT8 then load_le m (opaque + f.(num_offset)) 1
  else Some 1.

Definition field_base (f : VMStateField) (opaque : Z) (m : mem) : option Z :=
  if has f VMS_POINTER then p ← load_le m (opaque + f.(offset)) 4; Some (p + f.(start))
  else Some (opaque + f.(offset)).

Definition elem_addr (f : VMStateField) (base sz i : Z) (m : mem) : option Z :=
  if has f VMS_ARRAY_OF_POINTER then load_le m (base + sz * i) 4 else Some (base + sz * i).

(** ** Saving *)

Section save.
Context (save_state : VMStateDescription -> Z -> VM unit).

Definition save_elem (f : VMStateField) (base sz i : Z) : VM unit :=
  addr ← look (elem_addr f base sz i);
  if has f VMS_STRUCT then
    vmsd ← sm_lift f.(field_vmsd);
    save_state vmsd addr
  else info_put f.(info) addr sz.

Fixpoint save_elems (f : VMStateField) (base sz i : Z) (n : nat) : VM unit :=
  match n with
  | O => mret tt
  | S n => save_elem f base sz i;; save_elems f base sz (i + 1) n
  end.

Definition save_field (version : Z) (f : VMStateField) (opaque : Z) : VM unit :=
  there ← look (fun m => Some (from_option (fun p => p opaque version m) true f.(field_exists)));
  if there : bool then
    sz ← look (field_size f opaque);
    n_elems ← look (save_n_elems f opaque);
    base ← look (field_base f opaque);
    save_elems f base sz 0 (Z.to_nat n_elems)
  else mret tt.

Fixpoint save_fields (version : Z) (fs : list VMStateField) (opaque : Z) : VM unit :=
  match fs with
  | [] => mret tt
  | f :: fs => save_field version f opaque;; save_fields version fs opaque
  end.

Definition save_subsection (s : VMStateSubsection) (opaque : Z) : VM unit :=
  n ← look (fun m => Some (s.(needed) opaque m));
  if n : bool then
    let vmsd := s.(sub_vmsd) in
    let len := wrap 8 (Z.of_nat (length vmsd.(name))) in
    on_file (qemu_put_byte QEMU_VM_SUBSECTION);;
    on_file (qemu_put_byte len);;
    on_file (qemu_put_buffer (take (Z.to_nat len) vmsd.(name)));;
    on_file (qemu_put_be32 (wrap 32 vmsd.(version_id)));;
    sm_assert (bool_decide (~ is_Some vmsd.(subsections)));;
    save_state vmsd opaque
  else mret tt.

Fixpoint save_subsections (subs : list VMStateSubsection) (opaque : Z) : VM unit :=
  match subs with
  | [] => mret tt
  | s :: subs => save_subsection s opaque;; save_subsections subs opaque
  end.
End save.

Definition vmstate_subsection_save save_state (vmsd : VMStateDescription) (opaque : Z) : VM unit :=
  save_subsections save_state (default [] vmsd.(subsections)) opaque.

Definition run_pre_save (vmsd : VMStateDescription) (opaque : Z) (m : mem) : mem :=
  match vmsd.(pre_save) with Some h => h opaque m | None => m end.

Fixpoint save_state (fuel : nat) (vmsd : VMStateDescription) (opaque : Z) : VM unit :=
  match fuel with
  | O => sm_fail
  | S fuel =>
      on_mem (fun m => Some (run_pre_save vmsd opaque m));;
      save_fields (save_state fuel) vmsd.(version_id) vmsd.(fields) opaque;;
      vmstate_subsection_save (save_state fuel) vmsd opaque
  end.

Definition vmstate_save_state (vmsd : VMStateDescription) (opaque : Z) : VM unit :=
  save_state (nesting vmsd) vmsd opaque.

(** ** Loading *)

(** A C string ends at its first zero. *)
Fixpoint c_string (l : list Z) : list Z :=
  match l with
  | [] => []
  | c :: l => if c =? 0 then [] else c :: c_string l
  end.

Fixpoint vmstate_get_subsection (subs : list VMStateSubsection) (idstr : list Z) : option VMStateDescription :=
  match subs with
  | [] => None
  | s :: subs =>
      if bool_decide (c_string idstr = s.(sub_vmsd).(name)) then Some s.(sub_vmsd)
      else vmstate_get_subsection subs idstr
  end.

Section load.
Context (load_state : VMStateDescription -> Z -> Z -> VM Z).

Definition load_elem (f : VMStateField) (base sz i : Z) : VM Z :=
  addr ← look (elem_addr f base sz i);
  if has f VMS_STRUCT then
    vmsd ← sm_lift f.(field_vmsd);
    load_state vmsd addr vmsd.(version_id)
  else info_get f.(info) addr sz.

Fixpoint load_elems (f : VMStateField) (base sz i : Z) (n : nat) : VM Z :=
  match n with
  | O => mret 0
  | S n =>
      ret ← load_elem f base sz i;
      if ret <? 0 then mret ret else load_elems f base sz (i + 1) n
  end.

Definition load_field (version : Z) (f : VMStateField) (opaque : Z) : VM Z :=
  there ← look (fun m => Some (match f.(field_exists) with
                               | Some p => p opaque version m
                               | None => f.(field_version) <=? version
                               end));
  if there : bool then
    sz ← look (field_size f opaque);
    n_elems ← look (load_n_elems f opaque);
    base ← look (field_base f opaque);
    load_elems f base sz 0 (Z.to_nat n_elems)
  else mret 0.

Fixpoint load_fields (version : Z) (fs : list VMStateField) (opaque : Z) : VM Z :=
  match fs with
  | [] => mret 0
  | f :: fs =>
      ret ← load_field version f opaque;
      if ret <? 0 then mret ret else load_fields version fs opaque
  end.

(** The name of a subsection is cut short by a short read only where the rest of
    the buffer is undefined. *)
Fixpoint load_subsections (rounds : nat) (subs : list VMStateSubsection) (opaque : Z) : VM Z :=
  b ← on_file qemu_peek_byte;
  if b =? QEMU_VM_SUBSECTION then
    match rounds with
    | O => sm_fail
    | S rounds =>
        on_file qemu_get_byte;;
        len ← on_file qemu_get_byte;
        idstr ← on_file (qemu_get_buffer len);
        sm_assert (Z.of_nat (length idstr) =? len);;
        v ← on_file qemu_get_be32;
        let version_id := wrap 8 v in
        match vmstate_get_subsection subs idstr with
        | None => mret (- ENOENT)
        | Some vmsd =>
            sm_assert (bool_decide (~ is_Some vmsd.(subsections)));;
            ret ← load_state vmsd opaque version_id;
            if c_true ret then mret ret else load_subsections rounds subs opaque
        end
    end
  else mret 0.

Definition vmstate_subsection_load (rounds : nat) (vmsd : VMStateDescription) (opaque : Z) : VM Z :=
  match vmsd.(subsections) with
  | None | Some [] => mret 0
  | Some subs => load_subsections rounds subs opaque
  end.
End load.

Definition run_pre_load (vmsd : VMStateDescription) (opaque : Z) (m : mem) : Z * mem :=
  match vmsd.(pre_load) with Some h => h opaque m | None => (0, m) end.
Definition run_post_load (vmsd : VMStateDescription) (opaque version : Z) (m : mem) : Z * mem :=
  match vmsd.(post_load) with Some h => h opaque version m | None => (0, m) end.

Definition hook (h : mem -> Z * mem) : VM Z := fun s => Some ((h s.2).1, (s.1, (h s.2).2)).

Fixpoint load_state (fuel rounds : nat) (vmsd : VMStateDescription) (opaque version : Z) : VM Z :=
  match fuel with
  | O => sm_fail
  | S fuel =>
      if vmsd.(version_id) <? version then mret (- EINVAL)
      else if version <? vmsd.(minimum_version_id_old) then mret (- EINVAL)
      else if version <? vmsd.(minimum_version_id) then
        old ← sm_lift vmsd.(load_state_old); old opaque version
      else
        ret ← hook (run_pre_load vmsd opaque);
        if c_true ret then mret ret
        else
          ret ← load_fields (load_state fuel rounds) version vmsd.(fields) opaque;
          if ret <? 0 then mret ret
          else
            ret ← vmstate_subsection_load (load_state fuel rounds) rounds vmsd opaque;
            if c_true ret then mret ret
            else hook (run_post_load vmsd opaque version)
  end.

Definition vmstate_load_state (rounds : nat) (vmsd : VMStateDescription) (opaque version : Z) : VM Z :=
  load_state (nesting vmsd) rounds vmsd opaque version.

(** ** What a description walks over *)

(** A look at a number of the layout, a test of the device, a field, bytes of the
    stream that are not in memory, the end of a list of subsections *)
Inductive event :=
  | Look (a n : Z)
  | Ask (p : mem -> bool)
  | Leaf (i : VMStateInfo) (a sz : Z)
  | Mark (l : list Z)
  | Done.

Section walk.
Context (m : mem) (walk : VMStateDescription -> Z -> option (list event)).

Definition walk_elem (f : VMStateField) (base sz i : Z) : option (list event) :=
  addr ← elem_addr f base sz i m;
  tr ← (if has f VMS_STRUCT then vmsd ← f.(field_vmsd); walk vmsd addr else Some [Leaf f.(info) addr sz]);
  Some ((if has f VMS_ARRAY_OF_POINTER then [Look (base + sz * i) 4] else []) ++ tr).

Fixpoint walk_elems (f : VMStateField) (base sz i : Z) (n : nat) : option (list event) :=
  match n with
  | O => Some []
  | S n => t1 ← walk_elem f base sz i; t2 ← walk_elems f base sz (i + 1) n; Some (t1 ++ t2)
  end.

Definition size_looks (f : VMStateField) (opaque : Z) : list event :=
  if has f VMS_VBUFFER then [Look (opaque + f.(size_offset)) 4] else [].
Definition count_looks (f : VMStateField) (opaque : Z) : list event :=
  if has f VMS_ARRAY then []
  else if has f VMS_VARRAY_INT32 then [Look (opaque + f.(num_offset)) 4]
  else if has f VMS_VARRAY_UINT16 then [Look (opaque + f.(num_offset)) 2]
  else if has f VMS_VARRAY_UINT8 then [Look (opaque + f.(num_offset)) 1]
  else [].
Definition base_looks (f : VMStateField) (opaque : Z) : list event :=
  if has f VMS_POINTER then [Look (opaque + f.(offset)) 4] else [].

Definition walk_field (version : Z) (f : VMStateField) (opaque : Z) : option (list event) :=
  tr ← (if from_option (fun p => p opaque version m) true f.(field_exists) then
          sz ← field_size f opaque m;
          n ← save_n_elems f opaque m;
          base ← field_base f opaque m;
          tr ← walk_elems f base sz 0 (Z.to_nat n);
          Some (size_looks f opaque ++ count_looks f opaque ++ base_looks f opaque ++ tr)
        else Some []);
  Some (from_option (fun p => [Ask (fun m => p opaque version m)]) [] f.(field_exists) ++ tr).

Fixpoint walk_fields (version : Z) (fs : list VMStateField) (opaque : Z) : option (list event) :=
  match fs with
  | [] => Some []
  | f :: fs => t1 ← walk_field version f opaque; t2 ← walk_fields version fs opaque; Some (t1 ++ t2)
  end.

Definition sub_header (vmsd : VMStateDescription) : list Z :=
  [QEMU_VM_SUBSECTION; Z.of_nat (length vmsd.(name))] ++ vmsd.(name) ++ be_bytes 4 vmsd.(version_id).

Fixpoint walk_subsections (subs : list VMStateSubsection) (opaque : Z) : option (list event) :=
  match subs with
  | [] => Some []
  | s :: subs =>
      t1 ← (if s.(needed) opaque m then tr ← walk s.(sub_vmsd) opaque; Some (Mark (sub_header s.(sub_vmsd)) :: tr)
            else Some []);
      t2 ← walk_subsections subs opaque;
      Some (t1 ++ t2)
  end.
End walk.

Fixpoint walk (m : mem) (fuel : nat) (vmsd : VMStateDescription) (opaque : Z) : option (list event) :=
  match fuel with
  | O => None
  | S fuel =>
      t1 ← walk_fields m (walk m fuel) vmsd.(version_id) vmsd.(fields) opaque;
      t2 ← walk_subsections m (walk m fuel) (default [] vmsd.(subsections)) opaque;
      Some (t1 ++ t2 ++ match vmsd.(subsections) with Some (_ :: _) => [Done] | _ => [] end)
  end.

(** The bytes of a field in the stream, how many bytes of memory it has, and
    whether loading only compares them *)
Definition span (i : VMStateInfo) (sz : Z) : Z :=
  match i with
  | vmstate_info_bool | vmstate_info_int8 | vmstate_info_uint8 | vmstate_info_uint8_equal => 1
  | vmstate_info_int16 | vmstate_info_uint16 | vmstate_info_uint16_equal => 2
  | vmstate_info_int64 | vmstate_info_uint64 => 8
  | vmstate_info_buffer => sz
  | vmstate_info_unused_buffer | vmstate_info_own _ _ => 0
  | _ => 4
  end.

Definition checks (i : VMStateInfo) : bool :=
  match i with
  | vmstate_info_uint8_equal | vmstate_info_uint16_equal | vmstate_info_uint32_equal
  | vmstate_info_int32_equal | vmstate_info_int32_le => true
  | _ => false
  end.

Definition is_byte (b : Z) : bool := (0 <=? b) && (b <? 256).

Definition leaf_bytes (m : mem) (i : VMStateInfo) (a sz : Z) : option (list Z) :=
  match i with
  | vmstate_info_own _ _ => None
  | vmstate_info_unused_buffer => Some (replicate (Z.to_nat sz) 0)
  | vmstate_info_buffer => load_bytes m a sz
  | vmstate_info_bool => b ← m !! a; if (0 <=? b) && (b <=? 1) then Some [b] else None
  | _ => l ← load_bytes m a (span i sz); if forallb is_byte l then Some (rev l) else None
  end.

Definition event_bytes (m : mem) (e : event) : list Z :=
  match e with
  | Leaf i a sz => default [] (leaf_bytes m i a sz)
  | Mark l => l
  | _ => []
  end.
Definition trace_bytes (m : mem) (tr : list event) : list Z := concat (map (event_bytes m) tr).

(** The addresses of the fields of a walk *)
Definition stored1 (e : event) (x : Z) : Prop :=
  match e with Leaf i a sz => a <= x < a + span i sz | _ => False end.
Definition stored (tr : list event) (x : Z) : Prop := exists e, e ∈ tr /\ stored1 e x.

(** Two memories with the same objects that agree on [K] *)
Definition agree (K : Z -> Prop) (m m' : mem) : Prop :=
  (forall x, is_Some (m !! x) <-> is_Some (m' !! x)) /\ (forall x, K x -> m !! x = m' !! x).

(** A walk that the destination can follow when it knows [K] to begin with: what
    it looks at it knows, from the beginning or from fields before; the fields
    can be saved; and what follows a list of subsections is no subsection. *)
Definition event_ok (m : mem) (K : Z -> Prop) (e : event) (after : list Z) : Prop :=
  match e with
  | Look a n => forall x, a <= x < a + n -> K x
  | Ask p => forall m', agree K m m' -> p m' = p m
  | Leaf i a sz => is_Some (leaf_bytes m i a sz) /\ (checks i = true -> forall x, stored1 e x -> K x)
  | Mark _ => True
  | Done => exists b after', after = b :: after' /\ b <> QEMU_VM_SUBSECTION
  end.

Fixpoint followed (m : mem) (K : Z -> Prop) (tr : list event) (after : list Z) : Prop :=
  match tr with
  | [] => True
  | e :: tr => event_ok m K e (trace_bytes m tr ++ after) /\
      followed m (fun x => K x \/ stored1 e x) tr after
  end.

(** What makes a description loadable at its own version: the versions of its
    fields are within it, and its nested descriptions have no hooks; subsections
    have distinct names, versions of one byte and no subsections themselves, and
    there are at most [rounds] of them. *)
Definition own_info (i : VMStateInfo) : bool := match i with vmstate_info_own _ _ => true | _ => false end.
Definition hookless (d : VMStateDescription) : bool :=
  match d.(pre_save), d.(pre_load), d.(post_load) with None, None, None => true | _, _, _ => false end.

Definition field_fits (fits : VMStateDescription -> bool) (version : Z) (f : VMStateField) : bool :=
  match f.(field_exists) with None => f.(field_version) <=? version | Some _ => true end &&
  negb (has f VMS_VARRAY_UINT32) &&
  match f.(field_vmsd) with None => true | Some d => hookless d && fits d end.

Definition sub_fits (fits : VMStateDescription -> bool) (s : VMStateSubsection) : bool :=
  let d := s.(sub_vmsd) in
  hookless d && fits d && (0 <=? d.(version_id)) && (d.(version_id) <? 256) &&
  (Z.of_nat (length d.(name)) <? 256) && bool_decide (c_string d.(name) = d.(name)) &&
  match d.(subsections) with None => true | Some _ => false end.

Fixpoint fits (fuel rounds : nat) (d : VMStateDescription) : bool :=
  match fuel with
  | O => false
  | S fuel =>
      let subs := default [] d.(subsections) in
      (d.(minimum_version_id_old) <=? d.(version_id)) && (d.(minimum_version_id) <=? d.(version_id)) &&
      forallb (field_fits (fits fuel rounds) d.(version_id)) d.(fields) &&
      forallb (sub_fits (fits fuel rounds)) subs &&
      bool_decide (NoDup (map (fun s => s.(sub_vmsd).(name)) subs)) && (length subs <=? rounds)%nat
  end.

(** ** Memory and numbers *)

Lemma load_bytes_lookup m a n l :
  load_bytes m a n = Some l <->
  Z.of_nat (length l) = Z.max 0 n /\ forall i, 0 <= i < n -> l !! Z.to_nat i = m !! (a + i).
Proof.
  unfold load_bytes. rewrite mapM_Some. split.
  - intros H. pose proof (Forall2_length _ _ _ H) as Hlen. rewrite length_seqZ in Hlen. split; [lia |].
    intros i Hi. destruct (lookup_lt_is_Some_2 l (Z.to_nat i)) as [b Hb]; [lia |]. rewrite Hb.
    eapply Forall2_lookup_lr in H; [by symmetry; exact H | | exact Hb]. apply lookup_seqZ. lia.
  - intros [Hlen Hl]. apply Forall2_same_length_lookup_2; [rewrite length_seqZ; lia |].
    intros i x b Hx Hb. apply lookup_seqZ in Hx as [-> Hi]. rewrite <- Hl by lia. by rewrite Z.add_0_l, Nat2Z.id.
Qed.

Lemma store_bytes_spec m a l :
  (forall i, (i < length l)%nat -> is_Some (m !! (a + Z.of_nat i))) ->
  exists m', store_bytes m a l = Some m' /\
    forall x, m' !! x = if decide (a <= x < a + Z.of_nat (length l)) then l !! Z.to_nat (x - a) else m !! x.
Proof.
  revert m a. induction l as [| b l IH]; intros m a Hm; cbn [store_bytes length].
  - exists m. split; [done |]. intros x. rewrite decide_False by (cbn; lia). done.
  - destruct (Hm 0%nat) as [v Hv]; [cbn; lia |]. rewrite Z.add_0_r in Hv. rewrite Hv. cbn [mbind option_bind].
    destruct (IH (<[a := b]> m) (a + 1)) as (m' & E & Hl).
    { intros i Hi. rewrite lookup_insert_ne by lia. replace (a + 1 + Z.of_nat i) with (a + Z.of_nat (S i)) by lia.
      apply Hm. cbn. lia. }
    exists m'. split; [done |]. intros x. rewrite Hl. destruct (decide (x = a)) as [-> | Hne].
    + rewrite decide_False, decide_True by (cbn [length]; lia). by rewrite lookup_insert_eq, Z.sub_diag.
    + destruct (decide (a + 1 <= x < a + 1 + Z.of_nat (length l))).
      * rewrite decide_True by (cbn [length]; lia). replace (Z.to_nat (x - a)) with (S (Z.to_nat (x - (a + 1)))) by lia. done.
      * rewrite decide_False by (cbn [length]; lia). by rewrite lookup_insert_ne.
Qed.

(** Storing a range of [m] into a memory with the same objects *)
Definition moved (W : Z -> Prop) (m m' m'' : mem) : Prop :=
  forall x, (W x -> m'' !! x = m !! x) /\ (~ W x -> m'' !! x = m' !! x).

Lemma store_moves K m m' a n l :
  agree K m m' -> load_bytes m a n = Some l ->
  exists m'', store_bytes m' a l = Some m'' /\ moved (fun x => a <= x < a + n) m m' m''.
Proof.
  intros [Hdom _] [Hlen Hl]%load_bytes_lookup. destruct (store_bytes_spec m' a l) as (m'' & E & Hm'').
  { intros i Hi. apply Hdom. specialize (Hl (Z.of_nat i)). rewrite Nat2Z.id in Hl. rewrite <- Hl by lia. by apply lookup_lt_is_Some_2. }
  exists m''. split; [done |]. intros x. rewrite Hm''. split; intros Hx.
  - rewrite decide_True by lia. rewrite Hl by lia. f_equal. lia.
  - rewrite decide_False by lia. done.
Qed.

Lemma load_bytes_agree K m m' a n :
  agree K m m' -> (forall x, a <= x < a + n -> K x) -> load_bytes m' a n = load_bytes m a n.
Proof.
  intros [_ Hag] HK. unfold load_bytes. apply Forall_mapM_ext, Forall_forall. intros i Hi%elem_of_seqZ. symmetry. apply Hag, HK. lia.
Qed.

Lemma load_le_agree K m m' a n :
  agree K m m' -> (forall x, a <= x < a + n -> K x) -> load_le m' a n = load_le m a n.
Proof. intros Hag HK. unfold load_le. by rewrite (load_bytes_agree K m m'). Qed.

Lemma of_be_snoc l b : of_be (l ++ [b]) = of_be l * 256 + b.
Proof. unfold of_be. by rewrite fold_left_app. Qed.

Lemma of_be_range l : Forall (in_u 8) l -> in_u (8 * Z.of_nat (length l)) (of_be l).
Proof.
  induction l as [| b l IH] using rev_ind; intros H; [done |].
  apply Forall_app in H as [Hl [[Hb0 Hb1] _]%Forall_cons]. rewrite of_be_snoc, length_app. destruct (IH Hl) as [H0 H1].
  cbn [length]. replace (8 * Z.of_nat (length l + 1)) with (8 * Z.of_nat (length l) + 8) by lia.
  unfold in_u. rewrite Z.pow_add_r by lia. lia.
Qed.

Lemma be_bytes_snoc n v : be_bytes (S n) v = be_bytes n (Z.shiftr v 8) ++ [v mod 256].
Proof.
  induction n as [| n IH]; [cbn; by rewrite Z.shiftr_0_r |].
  change (be_bytes (S (S n)) v) with ((Z.shiftr v (8 * Z.of_nat (S n))) mod 256 :: be_bytes (S n) v).
  rewrite IH. cbn [be_bytes app]. rewrite Z.shiftr_shiftr by lia. do 3 f_equal. lia.
Qed.

Lemma be_bytes_of_be l : Forall (in_u 8) l -> be_bytes (length l) (of_be l) = l.
Proof.
  induction l as [| b l IH] using rev_ind; intros H; [done |].
  apply Forall_app in H as [Hl [[Hb0 Hb1] _]%Forall_cons]. rewrite of_be_snoc, length_app, Nat.add_1_r, be_bytes_snoc.
  change (2 ^ 8) with 256 in Hb1. rewrite Z.shiftr_div_pow2 by lia. change (2 ^ 8) with 256.
  rewrite Z.div_add_l, (Z.div_small b), Z.add_0_r by lia. rewrite IH by done. f_equal.
  rewrite Z.add_comm, Z_mod_plus_full, Z.mod_small by lia. done.
Qed.

Lemma is_byte_true l : forallb is_byte l = true -> Forall (in_u 8) l.
Proof.
  intros H. apply Forall_forall. intros b Hb. rewrite forallb_forall in H. apply list_elem_of_In, H in Hb.
  unfold is_byte in Hb. apply andb_prop in Hb as [?%Z.leb_le ?%Z.ltb_lt]. split; cbn; lia.
Qed.

(** ** Walks *)

Lemma trace_bytes_app m t1 t2 : trace_bytes m (t1 ++ t2) = trace_bytes m t1 ++ trace_bytes m t2.
Proof. unfold trace_bytes. by rewrite map_app, concat_app. Qed.

Lemma stored_cons e tr x : stored (e :: tr) x <-> stored1 e x \/ stored tr x.
Proof.
  unfold stored. split.
  - intros (e' & [-> | H]%elem_of_cons & Hx); [by left | right; by exists e'].
  - intros [H | (e' & He & H)]; [exists e | exists e']; (split; [| done]); apply elem_of_cons; auto.
Qed.

Lemma stored_nil x : ~ stored [] x.
Proof. intros (e & H & _). by apply not_elem_of_nil in H. Qed.

Lemma stored_app t1 t2 x : stored (t1 ++ t2) x <-> stored t1 x \/ stored t2 x.
Proof.
  induction t1 as [| e t1 IH]; cbn [app].
  - split; [by right |]. intros [H | H]; [by apply stored_nil in H | done].
  - rewrite !stored_cons, IH. tauto.
Qed.

#[global] Instance stored1_dec e x : Decision (stored1 e x).
Proof. destruct e; cbn; apply _. Defined.

Lemma stored_dec tr x : stored tr x \/ ~ stored tr x.
Proof.
  induction tr as [| e tr IH]; [right; apply stored_nil |]. rewrite stored_cons.
  destruct (decide (stored1 e x)); tauto.
Qed.

Lemma agree_weaken (K K' : Z -> Prop) m m' : (forall x, K x -> K' x) -> agree K' m m' -> agree K m m'.
Proof. intros HK [Hd Ha]. split; [done |]. auto. Qed.

Lemma event_ok_weaken m (K K' : Z -> Prop) e after :
  (forall x, K x -> K' x) -> event_ok m K e after -> event_ok m K' e after.
Proof.
  intros HK. destruct e; cbn; auto.
  - intros H m' Hm'. by apply H, (agree_weaken K K').
  - intros [H1 H2]. split; auto.
Qed.

Lemma followed_weaken m (K K' : Z -> Prop) tr after :
  (forall x, K x -> K' x) -> followed m K tr after -> followed m K' tr after.
Proof.
  revert K K'. induction tr as [| e tr IH]; intros K K' HK; cbn; [done |]. intros [H1 H2].
  split; [by apply (event_ok_weaken m K K') |]. eapply IH; [| exact H2]. cbn. intros x [?|?]; auto.
Qed.

Lemma followed_app m K t1 t2 after :
  followed m K (t1 ++ t2) after ->
  followed m K t1 (trace_bytes m t2 ++ after) /\ followed m (fun x => K x \/ stored t1 x) t2 after.
Proof.
  revert K. induction t1 as [| e t1 IH]; intros K; cbn [followed app].
  - intros H. split; [done |]. by apply (followed_weaken m K); [auto |].
  - intros [H1 H2]. apply IH in H2 as [H2 H3]. rewrite trace_bytes_app, <- app_assoc in H1. split; [done |].
    eapply followed_weaken; [| exact H3]. cbn. intros x. rewrite stored_cons. tauto.
Qed.

Lemma moved_agree K W m m' m'' : agree K m m' -> moved W m m' m'' -> (forall x, W x \/ ~ W x) -> agree (fun x => K x \/ W x) m m''.
Proof.
  intros [Hd Ha] Hm Hdec. split.
  - intros x. destruct (Hm x) as [H1 H2], (Hdec x) as [Hw | Hw]; [by rewrite H1 | by rewrite H2].
  - intros x Hx. destruct (Hm x) as [H1 H2], (Hdec x) as [Hw | Hw]; [by rewrite H1 |].
    rewrite H2 by done. apply Ha. tauto.
Qed.

Lemma moved_trans W1 W2 m m1 m2 m3 :
  moved W1 m m1 m2 -> moved W2 m m2 m3 -> (forall x, W2 x \/ ~ W2 x) -> moved (fun x => W1 x \/ W2 x) m m1 m3.
Proof.
  intros H1 H2 Hdec x. destruct (H1 x) as [A1 A2], (H2 x) as [B1 B2], (Hdec x) as [Hw | Hw].
  - split; [intros _; by apply B1 |]. tauto.
  - rewrite B2 by done. split; [intros [?|?]; [by apply A1 | done] |]. intros H. apply A2. tauto.
Qed.

Lemma moved_ext (W W' : Z -> Prop) m m' m'' : (forall x, W x <-> W' x) -> moved W m m' m'' -> moved W' m m' m''.
Proof. intros HW H x. destruct (H x). rewrite <- HW. tauto. Qed.

Lemma moved_none (W : Z -> Prop) m m' : (forall x, ~ W x) -> moved W m m' m'.
Proof. intros H x. split; [by intros ?%H | done]. Qed.

(** A walk whose fields can be saved *)
Definition savable (m : mem) (tr : list event) : Prop :=
  Forall (fun e => match e with Leaf i a sz => is_Some (leaf_bytes m i a sz) | _ => True end) tr.

Lemma followed_savable m K tr after : followed m K tr after -> savable m tr.
Proof.
  revert K. induction tr as [| e tr IH]; intros K; cbn; [constructor |]. intros [H1 H2%IH].
  constructor; [| done]. destruct e; cbn in *; tauto.
Qed.

(** ** Saving and loading follow the walk *)

Section Media.
Context (put : list Z -> Z -> D -> Z * D) (get : Z -> Z -> D -> Z * list Z * D) (bytes : D -> list Z).
Context {sink : Sink put bytes} {source : Source get bytes}.

Definition saves (p : VM unit) (m : mem) (tr : list event) : Prop :=
  savable m tr -> forall out f, writing put bytes out f ->
  runs p (f, m) (fun _ s => s.2 = m /\ writing put bytes (out ++ trace_bytes m tr) s.1).

Definition loads (p : VM Z) (m : mem) (tr : list event) : Prop :=
  forall K m' after f, agree K m m' -> followed m K tr after ->
  reading get bytes (trace_bytes m tr ++ after) f ->
  runs p (f, m') (fun r s => r = 0 /\ reading get bytes after s.1 /\ moved (stored tr) m m' s.2).

Lemma on_file_runs {A} (p : SM QEMUFile A) f m (P : A -> QEMUFile -> Prop) (Q : A -> QEMUFile * mem -> Prop) :
  runs p f P -> (forall x f', P x f' -> Q x (f', m)) -> runs (on_file p) (f, m) Q.
Proof.
  intros (x & f' & E & HP) HQ. exists x, (f', m). split; [| by apply HQ]. unfold on_file. cbn [fst snd]. by rewrite E.
Qed.

Local Tactic Notation "file_use" open_constr(H) := eapply on_file_runs; [exact H | cbv beta].

Lemma look_runs {A} (g : mem -> option A) x f m (Q : A -> QEMUFile * mem -> Prop) :
  g m = Some x -> Q x (f, m) -> runs (look g) (f, m) Q.
Proof. intros E HQ. exists x, (f, m). split; [| done]. unfold look. cbn [snd]. by rewrite E. Qed.

Lemma on_mem_runs g f m m' (Q : unit -> QEMUFile * mem -> Prop) :
  g m = Some m' -> Q tt (f, m') -> runs (on_mem g) (f, m) Q.
Proof. intros E HQ. exists tt, (f, m'). split; [| done]. unfold on_mem. cbn [fst snd]. by rewrite E. Qed.

Lemma saves_nil m : saves (mret tt) m [].
Proof. intros _ out f Hw. sm_step. split; [done |]. by rewrite app_nil_r. Qed.

Lemma saves_seq p q m t1 t2 : saves p m t1 -> saves q m t2 -> saves (p;; q) m (t1 ++ t2).
Proof.
  intros Hp Hq [H1 H2]%Forall_app out f Hw. sm_step. sm_use (Hp H1 out f Hw). intros _ [f1 m1] [E1 Hw1].
  cbn [fst snd] in *. subst m1. sm_use (Hq H2 _ f1 Hw1). intros _ s [E Hs]. split; [done |]. by rewrite trace_bytes_app, app_assoc.
Qed.

Lemma loads_nil m : loads (mret 0) m [].
Proof.
  intros K m' after f Hag _ Hr. sm_step. split; [done |]. split; [done |]. apply moved_none, stored_nil.
Qed.

(** The next part of a load after one that returned zero *)
Lemma loads_then (p : VM Z) (k : Z -> VM Z) m t1 t2 : loads p m t1 -> loads (k 0) m t2 -> loads (p ≫= k) m (t1 ++ t2).
Proof.
  intros Hp Hq K m' after f Hag Hf Hr. apply followed_app in Hf as [Hf1 Hf2].
  rewrite trace_bytes_app, <- app_assoc in Hr. sm_step. sm_use (Hp K m' _ f Hag Hf1 Hr).
  intros r [f1 m1] (-> & Hr1 & Hm1). cbn [fst snd] in *.
  pose proof (moved_agree _ _ _ _ _ Hag Hm1 (stored_dec t1)) as Hag1.
  sm_use (Hq _ m1 _ f1 Hag1 Hf2 Hr1). intros r s (-> & Hr2 & Hm2). split; [done |]. split; [done |].
  eapply moved_ext; [intros x; symmetry; apply stored_app |]. by eapply moved_trans; [exact Hm1 | exact Hm2 | apply stored_dec].
Qed.

(** Steps of the walk that neither read nor write the stream *)
Definition quiet (e : event) : Prop := match e with Look _ _ | Ask _ => True | _ => False end.

Lemma quiet_bytes m es : Forall quiet es -> trace_bytes m es = [].
Proof. induction 1 as [| e es He _ IH]; [done |]. cbn. by destruct e. Qed.

Lemma quiet_stored es x : Forall quiet es -> ~ stored es x.
Proof.
  induction 1 as [| e es He _ IH]; [apply stored_nil |]. rewrite stored_cons. intros [H | H]; [by destruct e | done].
Qed.

Lemma quiet_followed m K es after : Forall quiet es -> followed m K es after -> Forall (fun e => event_ok m K e []) es.
Proof.
  intros Hq. revert K. induction Hq as [| e es He Hq IH]; intros K; cbn; [constructor |]. intros [H1 H2].
  constructor; [by destruct e |]. apply IH. eapply followed_weaken; [| exact H2]. cbn. intros x [?|?]; [done | by destruct e].
Qed.

Lemma loads_look {A} (g : mem -> option A) x (k : A -> VM Z) m es tr :
  Forall quiet es ->
  (forall K m', agree K m m' -> Forall (fun e => event_ok m K e []) es -> g m' = Some x) ->
  loads (k x) m tr -> loads (look g ≫= k) m (es ++ tr).
Proof.
  intros Hq Hg Hk K m' after f Hag Hf Hr. apply followed_app in Hf as [Hf1 Hf2]. sm_step. apply (look_runs _ x).
  { apply (Hg K); [done |]. by apply (quiet_followed m K es _ Hq) in Hf1. }
  rewrite trace_bytes_app, quiet_bytes in Hr by done.
  assert (Hf3 : followed m K tr after).
  { eapply followed_weaken; [| exact Hf2]. cbn. intros y [?|?%quiet_stored]; done. }
  sm_use (Hk K m' after f Hag Hf3 Hr).
  intros r s (-> & Hr' & Hm). split; [done |]. split; [done |]. eapply moved_ext; [| exact Hm].
  intros y. rewrite stored_app. split; [by right | intros [?%quiet_stored | ?]; done].
Qed.

Lemma saves_look {A} (g : mem -> option A) x (k : A -> VM unit) m es tr :
  Forall quiet es -> g m = Some x -> saves (k x) m tr -> saves (look g ≫= k) m (es ++ tr).
Proof.
  intros Hq Hg Hk [_ Hs]%Forall_app out f Hw. sm_step. apply (look_runs _ x); [done |].
  rewrite trace_bytes_app, quiet_bytes by done. by apply Hk.
Qed.

(** *** Fields *)

(** A number of [n] bytes, with the functions that put and get it *)
Lemma number_saves n (p : Z -> SM QEMUFile unit) g a l m out f :
  Codec put get bytes (in_u (8 * Z.of_nat n)) p g (be_bytes n) ->
  load_bytes m a (Z.of_nat n) = Some l -> forallb is_byte l = true -> writing put bytes out f ->
  runs (v ← look (fun m => load_le m a (Z.of_nat n)); on_file (p v)) (f, m)
    (fun _ s => s.2 = m /\ writing put bytes (out ++ rev l) s.1).
Proof.
  intros HC Hl Hb%is_byte_true Hw. sm_step. apply (look_runs _ (of_be (rev l))); [unfold load_le; by rewrite Hl |].
  eapply on_file_runs; [apply (codec_put put get bytes (of_be (rev l)) out f Hw) |]. intros x f' Hw'. split; [done |].
  cbn [fst]. pose proof Hl as [Hlen _]%load_bytes_lookup.
  assert (Hn : n = length (rev l)) by (rewrite length_rev; lia). rewrite Hn, be_bytes_of_be in Hw' by (by apply Forall_rev). done.
Qed.

Lemma number_got n (p : Z -> SM QEMUFile unit) g a l m after f m' (k : Z -> VM Z) Q :
  Codec put get bytes (in_u (8 * Z.of_nat n)) p g (be_bytes n) ->
  load_bytes m a (Z.of_nat n) = Some l -> forallb is_byte l = true ->
  reading get bytes (rev l ++ after) f ->
  (forall f', reading get bytes after f' -> runs (k (of_be (rev l))) (f', m') Q) ->
  runs (v ← on_file g; k v) (f, m') Q.
Proof.
  intros HC Hl Hb%is_byte_true Hr Hk. pose proof Hl as [Hlen _]%load_bytes_lookup.
  assert (Hn : n = length (rev l)) by (rewrite length_rev; lia). sm_step.
  assert (Hr' : reading get bytes (be_bytes n (of_be (rev l)) ++ after) f).
  { rewrite Hn, be_bytes_of_be by (by apply Forall_rev). done. }
  eapply on_file_runs; [apply (codec_get put get bytes (of_be (rev l)) after f); [| exact Hr'] |].
  - rewrite Hn. by apply of_be_range, Forall_rev.
  - intros v f' [-> Hr'']. by apply Hk.
Qed.

Lemma number_loads n (p : Z -> SM QEMUFile unit) g a l K m after f m' :
  Codec put get bytes (in_u (8 * Z.of_nat n)) p g (be_bytes n) ->
  agree K m m' -> load_bytes m a (Z.of_nat n) = Some l -> forallb is_byte l = true ->
  reading get bytes (rev l ++ after) f ->
  runs (v ← on_file g; on_mem (fun m => store_le m a n v);; mret 0) (f, m')
    (fun r s => r = 0 /\ reading get bytes after s.1 /\ moved (fun x => a <= x < a + Z.of_nat n) m m' s.2).
Proof.
  intros HC Hag Hl Hb Hr. eapply (number_got n p g a l m); [done | done | done | done |]. intros f' Hr'. sm_step.
  pose proof Hl as [Hlen _]%load_bytes_lookup. apply is_byte_true in Hb.
  assert (Hn : n = length (rev l)) by (rewrite length_rev; lia).
  destruct (store_moves K m m' a _ l Hag Hl) as (m'' & E & Hm). eapply on_mem_runs.
  - unfold store_le. rewrite Hn, be_bytes_of_be by (by apply Forall_rev). rewrite rev_involutive. exact E.
  - by sm_step.
Qed.

(** A comparison with what is there already *)
Lemma number_checked n (p : Z -> SM QEMUFile unit) g (test : Z -> Z -> bool) a l K m after f m' :
  Codec put get bytes (in_u (8 * Z.of_nat n)) p g (be_bytes n) -> (forall v, test v v = true) ->
  agree K m m' -> (forall x, a <= x < a + Z.of_nat n -> K x) ->
  load_bytes m a (Z.of_nat n) = Some l -> forallb is_byte l = true ->
  reading get bytes (rev l ++ after) f ->
  runs (v2 ← on_file g; v ← look (fun m => load_le m a (Z.of_nat n)); mret (if test v v2 then 0 else - EINVAL)) (f, m')
    (fun r s => r = 0 /\ reading get bytes after s.1 /\ moved (fun x => a <= x < a + Z.of_nat n) m m' s.2).
Proof.
  intros HC Htest Hag HK Hl Hb Hr. eapply (number_got n p g a l m); [done | done | done | done |]. intros f' Hr'. sm_step.
  apply (look_runs _ (of_be (rev l))); [rewrite (load_le_agree K m m' a _ Hag HK); unfold load_le; by rewrite Hl |].
  sm_step. rewrite Htest. split; [done |]. split; [done |]. intros x. cbn [snd]. split; [| done].
  intros Hx. symmetry. by apply Hag, HK.
Qed.

Lemma put_unused_runs fuel sz out f m :
  (Z.to_nat sz <= fuel)%nat -> writing put bytes out f ->
  runs (put_unused_loop fuel sz) (f, m) (fun _ s => s.2 = m /\ writing put bytes (out ++ replicate (Z.to_nat sz) 0) s.1).
Proof.
  revert sz out f. induction fuel as [| fuel IH]; intros sz out f Hfuel Hw; cbn [put_unused_loop];
    (destruct (Z.ltb_spec 0 sz); [| sm_step; replace (Z.to_nat sz) with 0%nat by lia; by rewrite app_nil_r]); [lia |].
  sm_step. file_use (put_buffer_runs put bytes _ _ _ Hw). intros _ f1 Hw1.
  sm_use (IH (sz - Z.min 1024 sz) _ f1 ltac:(lia) Hw1). intros _ s [E Hs]. split; [done |].
  rewrite <- app_assoc, <- replicate_add in Hs.
  by replace (Z.to_nat (Z.min 1024 sz) + Z.to_nat (sz - Z.min 1024 sz))%nat with (Z.to_nat sz) in Hs by lia.
Qed.

Lemma get_unused_runs fuel sz after f m :
  (Z.to_nat sz <= fuel)%nat -> reading get bytes (replicate (Z.to_nat sz) 0 ++ after) f ->
  runs (get_unused_loop fuel sz) (f, m) (fun r s => r = 0 /\ reading get bytes after s.1 /\ s.2 = m).
Proof.
  revert sz f. induction fuel as [| fuel IH]; intros sz f Hfuel Hr; cbn [get_unused_loop];
    (destruct (Z.ltb_spec 0 sz); [| sm_step; replace (Z.to_nat sz) with 0%nat in Hr by lia; done]); [lia |].
  set (b := Z.min 1024 sz). assert (Hlen : b <= Z.of_nat (length (replicate (Z.to_nat sz) 0 ++ after))).
  { rewrite length_app, length_replicate. lia. }
  sm_step. file_use (get_buffer_runs get bytes _ _ _ Hr Hlen). intros l f1 [_ Hr1].
  assert (E : replicate (Z.to_nat sz) 0 = replicate (Z.to_nat b) 0 ++ replicate (Z.to_nat (sz - b)) 0).
  { rewrite <- replicate_add. f_equal. lia. }
  rewrite E, <- app_assoc, drop_app_length' in Hr1 by (by rewrite length_replicate). exact (IH (sz - b) f1 ltac:(lia) Hr1).
Qed.

Lemma stored_leaf i a sz x : stored [Leaf i a sz] x <-> a <= x < a + span i sz.
Proof. rewrite stored_cons. cbn. split; [intros [? | ?%stored_nil]; done | by left]. Qed.

Lemma trace_bytes_one m e : trace_bytes m [e] = event_bytes m e.
Proof. unfold trace_bytes. cbn [map concat]. apply app_nil_r. Qed.

Lemma load_byte m a b : m !! a = Some b -> load_bytes m a 1 = Some [b].
Proof. intros E. apply load_bytes_lookup. split; [done |]. intros i Hi. replace i with 0 by lia. by rewrite Z.add_0_r. Qed.

(** The number in a field, for all kinds of numbers *)
Ltac leaf_number Hl :=
  let l := fresh "l" in let Hl' := fresh "Hl" in let Hb := fresh "Hb" in
  apply bind_Some in Hl as (l & Hl' & Hl); destruct (forallb is_byte l) eqn:Hb; [injection Hl as <- | done].

Lemma leaf_saves i a sz m : saves (info_put i a sz) m [Leaf i a sz].
Proof.
  intros [[l Hl] _]%Forall_cons out f Hw. rewrite trace_bytes_one. cbn [event_bytes]. rewrite Hl. change (default [] (Some l)) with l.
  destruct i; cbn [leaf_bytes span] in Hl; cbn [info_put].
  2-14: leaf_number Hl;
    first [ exact (number_saves 1 _ _ a _ m out f (byte_codec put get bytes) Hl0 Hb Hw)
          | exact (number_saves 2 _ _ a _ m out f (be16_codec put get bytes) Hl0 Hb Hw)
          | exact (number_saves 4 _ _ a _ m out f (be32_codec put get bytes) Hl0 Hb Hw)
          | exact (number_saves 8 _ _ a _ m out f (be64_codec put get bytes) Hl0 Hb Hw) ].
  - apply bind_Some in Hl as (b & Hb & Hl). case_match eqn:Hr; [injection Hl as <- | done].
    apply andb_prop in Hr as [H0%Z.leb_le H1%Z.leb_le].
    apply (number_saves 1 _ _ a [b] m out f (byte_codec put get bytes)); [by apply load_byte | | done].
    unfold is_byte. cbn. rewrite (proj2 (Z.leb_le 0 b)), (proj2 (Z.ltb_lt b 256)) by lia. done.
  - unfold put_buffer_info. sm_step. apply (look_runs _ l); [done |]. file_use (put_buffer_runs put bytes l _ _ Hw). done.
  - injection Hl as <-. by apply put_unused_runs.
  - done.
Qed.

Lemma leaf_loads i a sz m : loads (info_get i a sz) m [Leaf i a sz].
Proof.
  intros K m' after f Hag [[[l Hl] Hchk] _] Hr. rewrite trace_bytes_one in Hr. cbn [event_bytes] in Hr. rewrite Hl in Hr.
  change (default [] (Some l)) with l in Hr. eapply runs_mono with (P := fun r s => r = 0 /\ reading get bytes after s.1 /\
    moved (fun x => a <= x < a + span i sz) m m' s.2);
    [| intros r s (-> & Hr' & Hm); split; [done |]; split; [done |]; eapply moved_ext; [| exact Hm]; intros x; symmetry; apply stored_leaf].
  cbn [stored1] in Hchk.
  destruct i; cbn [leaf_bytes span checks] in *; cbn [info_get].
  2-14: leaf_number Hl;
    first [ exact (number_loads 1 _ _ a _ K m after f m' (byte_codec put get bytes) Hag Hl0 Hb Hr)
          | exact (number_loads 2 _ _ a _ K m after f m' (be16_codec put get bytes) Hag Hl0 Hb Hr)
          | exact (number_loads 4 _ _ a _ K m after f m' (be32_codec put get bytes) Hag Hl0 Hb Hr)
          | exact (number_loads 8 _ _ a _ K m after f m' (be64_codec put get bytes) Hag Hl0 Hb Hr)
          | exact (number_checked 1 _ _ Z.eqb a _ K m after f m' (byte_codec put get bytes) Z.eqb_refl Hag (Hchk eq_refl) Hl0 Hb Hr)
          | exact (number_checked 2 _ _ Z.eqb a _ K m after f m' (be16_codec put get bytes) Z.eqb_refl Hag (Hchk eq_refl) Hl0 Hb Hr)
          | exact (number_checked 4 _ _ Z.eqb a _ K m after f m' (be32_codec put get bytes) Z.eqb_refl Hag (Hchk eq_refl) Hl0 Hb Hr)
          | exact (number_checked 4 _ _ (fun v v2 => to_signed 32 v =? to_signed 32 v2) a _ K m after f m' (be32_codec put get bytes)
              (fun v => Z.eqb_refl _) Hag (Hchk eq_refl) Hl0 Hb Hr)
          | exact (number_checked 4 _ _ (fun v v2 => to_signed 32 v <=? to_signed 32 v2) a _ K m after f m' (be32_codec put get bytes)
              (fun v => Z.leb_refl _) Hag (Hchk eq_refl) Hl0 Hb Hr) ].
  - apply bind_Some in Hl as (b & Hb & Hl). case_match eqn:Hbr; [injection Hl as <- | done].
    apply andb_prop in Hbr as [H0%Z.leb_le H1%Z.leb_le]. unfold get_bool.
    assert (Hby : forallb is_byte [b] = true).
    { unfold is_byte. cbn. rewrite (proj2 (Z.leb_le 0 b)), (proj2 (Z.ltb_lt b 256)) by lia. done. }
    pose proof (number_loads 1 _ _ a [b] K m after f m' (byte_codec put get bytes) Hag (load_byte _ _ _ Hb) Hby Hr) as Hnum.
    eapply (number_got 1 _ _ a [b] m); [by apply (byte_codec put get bytes) | by apply load_byte | done | done |].
    intros f' Hr'. change (of_be (rev [b])) with (0 * 256 + b). sm_step.
    destruct (store_moves K m m' a 1 [b] Hag (load_byte _ _ _ Hb)) as (m'' & E & Hm). eapply on_mem_runs; [| by sm_step].
    unfold store_le. assert (Hb01 : b = 0 \/ b = 1) by lia. destruct Hb01 as [-> | ->]; exact E.
  - unfold get_buffer_info. pose proof Hl as [Hlen _]%load_bytes_lookup. sm_step.
    assert (Hle : sz <= Z.of_nat (length (l ++ after))) by (rewrite length_app; lia).
    file_use (get_buffer_runs get bytes sz _ f Hr Hle). intros l' f' [-> Hr'].
    rewrite take_app_length' by lia. rewrite drop_app_length' in Hr' by lia. sm_step.
    destruct (store_moves K m m' a sz l Hag Hl) as (m'' & E & Hm). eapply on_mem_runs; [exact E |]. by sm_step.
  - injection Hl as <-. sm_use (get_unused_runs _ _ _ _ m' (le_n _) Hr). intros r s (-> & Hr' & ->).
    split; [done |]. split; [done |]. apply moved_none. intros x. lia.
  - done.
Qed.

(** *** Composition *)

Section fields.
Context (m : mem) (sv : VMStateDescription -> Z -> VM unit) (ld : VMStateDescription -> Z -> Z -> VM Z)
  (wk : VMStateDescription -> Z -> option (list event)) (ft : VMStateDescription -> bool).
Hypothesis sv_ok : forall d a tr, hookless d = true -> ft d = true -> wk d a = Some tr -> saves (sv d a) m tr.
Hypothesis ld_ok : forall d a tr, hookless d = true -> ft d = true -> wk d a = Some tr -> loads (ld d a d.(version_id)) m tr.

Lemma quiet_if (b : bool) a n : Forall quiet (if b then [Look a n] else []).
Proof. destruct b; repeat constructor. Qed.

(** The layout is the same where the destination knows it. *)
Lemma elem_addr_known f base sz i K m' :
  agree K m m' -> Forall (fun e => event_ok m K e []) (if has f VMS_ARRAY_OF_POINTER then [Look (base + sz * i) 4] else []) ->
  elem_addr f base sz i m' = elem_addr f base sz i m.
Proof. intros Hag. unfold elem_addr. case_match; [| done]. intros [Hk _]%Forall_cons. by apply (load_le_agree K). Qed.

Lemma field_size_known f a K m' :
  agree K m m' -> Forall (fun e => event_ok m K e []) (size_looks f a) -> field_size f a m' = field_size f a m.
Proof.
  intros Hag. unfold size_looks, field_size. case_match; [| done]. intros [Hk _]%Forall_cons.
  by rewrite (load_le_agree K m m').
Qed.

Lemma load_n_elems_known f a K m' :
  has f VMS_VARRAY_UINT32 = false ->
  agree K m m' -> Forall (fun e => event_ok m K e []) (count_looks f a) -> load_n_elems f a m' = save_n_elems f a m.
Proof.
  intros Hu Hag. unfold count_looks, load_n_elems, save_n_elems. rewrite Hu.
  repeat case_match; try done; intros [Hk _]%Forall_cons; by rewrite (load_le_agree K m m').
Qed.

Lemma field_base_known f a K m' :
  agree K m m' -> Forall (fun e => event_ok m K e []) (base_looks f a) -> field_base f a m' = field_base f a m.
Proof.
  intros Hag. unfold base_looks, field_base. case_match; [| done]. intros [Hk _]%Forall_cons.
  by rewrite (load_le_agree K m m').
Qed.

Lemma count_looks_quiet f a : Forall quiet (count_looks f a).
Proof. unfold count_looks. repeat case_match; repeat constructor. Qed.

Definition nested_ok (f : VMStateField) : Prop :=
  forall d, f.(field_vmsd) = Some d -> hookless d = true /\ ft d = true.

Lemma elem_saves f base sz i tr :
  nested_ok f -> walk_elem m wk f base sz i = Some tr -> saves (save_elem sv f base sz i) m tr.
Proof.
  intros Hn (addr & Ha & (t & Ht & E)%bind_Some)%bind_Some. injection E as <-.
  apply (saves_look _ addr); [apply quiet_if | done |]. destruct (has f VMS_STRUCT).
  - apply bind_Some in Ht as (d & Hd & Ht). destruct (Hn d Hd) as [H1 H2]. rewrite Hd.
    intros Hs out fl Hw. sm_step. apply (runs_lift _ d); [done |]. by apply (sv_ok d addr t).
  - injection Ht as <-. apply leaf_saves.
Qed.

Lemma elem_loads f base sz i tr :
  nested_ok f -> walk_elem m wk f base sz i = Some tr -> loads (load_elem ld f base sz i) m tr.
Proof.
  intros Hn (addr & Ha & (t & Ht & E)%bind_Some)%bind_Some. injection E as <-.
  apply (loads_look _ addr); [apply quiet_if | intros K m' Hag H; by rewrite (elem_addr_known f base sz i K m') |].
  destruct (has f VMS_STRUCT).
  - apply bind_Some in Ht as (d & Hd & Ht). destruct (Hn d Hd) as [H1 H2]. rewrite Hd.
    intros K m' after fl Hag Hf Hr. sm_step. apply (runs_lift _ d); [done |]. by apply (ld_ok d addr t H1 H2 Ht K).
  - injection Ht as <-. apply leaf_loads.
Qed.

Lemma elems_saves f base sz n : nested_ok f -> forall i tr,
  walk_elems m wk f base sz i n = Some tr -> saves (save_elems sv f base sz i n) m tr.
Proof.
  intros Hn. induction n as [| n IH]; intros i tr E; cbn [walk_elems save_elems] in *.
  - injection E as <-. apply saves_nil.
  - apply bind_Some in E as (t1 & E1 & (t2 & E2 & E)%bind_Some). injection E as <-.
    apply saves_seq; [by apply elem_saves | by apply IH].
Qed.

Lemma elems_loads f base sz n : nested_ok f -> forall i tr,
  walk_elems m wk f base sz i n = Some tr -> loads (load_elems ld f base sz i n) m tr.
Proof.
  intros Hn. induction n as [| n IH]; intros i tr E; cbn [walk_elems load_elems] in *.
  - injection E as <-. apply loads_nil.
  - apply bind_Some in E as (t1 & E1 & (t2 & E2 & E)%bind_Some). injection E as <-.
    apply loads_then; [by apply elem_loads | by apply IH].
Qed.

Lemma field_fits_inv version f :
  field_fits ft version f = true ->
  (f.(field_exists) = None -> (f.(field_version) <=? version) = true) /\ has f VMS_VARRAY_UINT32 = false /\ nested_ok f.
Proof.
  unfold field_fits, nested_ok. intros [[H1 H2]%andb_prop H3]%andb_prop. split; [intros E; by rewrite E in H1 |].
  split; [by apply negb_true_iff |]. intros d Hd. rewrite Hd in H3. by apply andb_prop in H3.
Qed.

Lemma field_saves version f a tr :
  field_fits ft version f = true -> walk_field m wk version f a = Some tr -> saves (save_field sv version f a) m tr.
Proof.
  intros (_ & _ & Hn)%field_fits_inv (t & Ht & E)%bind_Some. injection E as <-. eapply saves_look; [| reflexivity |].
  { by destruct (field_exists f); repeat constructor. }
  case_match; [| injection Ht as <-; apply saves_nil].
  apply bind_Some in Ht as (sz & Hsz & (n & Hnum & (base & Hb & (t' & Ht' & E)%bind_Some)%bind_Some)%bind_Some). injection E as <-.
  apply (saves_look _ sz); [apply quiet_if | done |]. apply (saves_look _ n); [apply count_looks_quiet | done |].
  apply (saves_look _ base); [apply quiet_if | done |]. by apply elems_saves.
Qed.

Lemma field_loads version f a tr :
  field_fits ft version f = true -> walk_field m wk version f a = Some tr -> loads (load_field ld version f a) m tr.
Proof.
  intros (Hv & Hu & Hn)%field_fits_inv (t & Ht & E)%bind_Some. injection E as <-.
  apply (loads_look _ (from_option (fun p => p a version m) true f.(field_exists))).
  { by destruct (field_exists f); repeat constructor. }
  { intros K m' Hag. destruct (field_exists f) as [p |]; cbn.
    - intros [H _]%Forall_cons. by rewrite H.
    - intros _. by rewrite Hv. }
  case_match; [| injection Ht as <-; apply loads_nil].
  apply bind_Some in Ht as (sz & Hsz & (n & Hnum & (base & Hb & (t' & Ht' & E)%bind_Some)%bind_Some)%bind_Some). injection E as <-.
  apply (loads_look _ sz); [apply quiet_if | intros K m' Hag Hk; by rewrite (field_size_known f a K) |].
  apply (loads_look _ n); [apply count_looks_quiet | intros K m' Hag Hk; by rewrite (load_n_elems_known f a K) |].
  apply (loads_look _ base); [apply quiet_if | intros K m' Hag Hk; by rewrite (field_base_known f a K) |].
  by apply elems_loads.
Qed.

Lemma fields_saves version fs a tr :
  forallb (field_fits ft version) fs = true -> walk_fields m wk version fs a = Some tr ->
  saves (save_fields sv version fs a) m tr.
Proof.
  revert tr. induction fs as [| f fs IH]; intros tr Hf E; cbn [walk_fields save_fields] in *.
  - injection E as <-. apply saves_nil.
  - cbn in Hf. apply andb_prop in Hf as [Hf1 Hf2]. apply bind_Some in E as (t1 & E1 & (t2 & E2 & E)%bind_Some). injection E as <-.
    apply saves_seq; [by apply field_saves | by apply IH].
Qed.

Lemma fields_loads version fs a tr :
  forallb (field_fits ft version) fs = true -> walk_fields m wk version fs a = Some tr ->
  loads (load_fields ld version fs a) m tr.
Proof.
  revert tr. induction fs as [| f fs IH]; intros tr Hf E; cbn [walk_fields load_fields] in *.
  - injection E as <-. apply loads_nil.
  - cbn in Hf. apply andb_prop in Hf as [Hf1 Hf2]. apply bind_Some in E as (t1 & E1 & (t2 & E2 & E)%bind_Some). injection E as <-.
    apply loads_then; [by apply field_loads | by apply IH].
Qed.

(** *** Subsections *)

Lemma sub_fits_inv s :
  sub_fits ft s = true ->
  hookless s.(sub_vmsd) = true /\ ft s.(sub_vmsd) = true /\ 0 <= s.(sub_vmsd).(version_id) < 256 /\
  Z.of_nat (length s.(sub_vmsd).(name)) < 256 /\ c_string s.(sub_vmsd).(name) = s.(sub_vmsd).(name) /\
  s.(sub_vmsd).(subsections) = None.
Proof.
  unfold sub_fits. cbn zeta. rewrite !andb_true_iff. intros [[[[[[H1 H2] H3] H4] H5] H6] H7].
  apply Z.leb_le in H3. apply Z.ltb_lt in H4, H5. apply bool_decide_eq_true in H6.
  do 5 (split; [done || lia |]). by destruct (subsections (sub_vmsd s)).
Qed.

Lemma subsections_saves subs a tr :
  forallb (sub_fits ft) subs = true -> walk_subsections m wk subs a = Some tr ->
  saves (save_subsections sv subs a) m tr.
Proof.
  revert tr. induction subs as [| s subs IH]; intros tr Hf E; cbn [walk_subsections save_subsections] in *.
  { injection E as <-. apply saves_nil. }
  cbn in Hf. apply andb_prop in Hf as [Hf1 Hf2]. apply bind_Some in E as (t1 & E1 & (t2 & E2 & E)%bind_Some). injection E as <-.
  apply saves_seq; [| by apply IH]. apply sub_fits_inv in Hf1 as (Hh & Hft & Hv & Hlen & _ & Hns). unfold save_subsection.
  change t1 with ([] ++ t1). apply (saves_look _ (s.(needed) a m)); [constructor | done |].
  destruct (needed s a m); [| injection E1 as <-; apply saves_nil].
  apply bind_Some in E1 as (t & Et & E). injection E as <-. intros [_ Hs]%Forall_cons out f Hw.
  rewrite (wrap_small 8) by (split; cbn; lia). rewrite (wrap_small 32) by (split; cbn; lia). rewrite Nat2Z.id, firstn_all.
  sm_step. file_use (put_byte_runs put bytes _ _ _ Hw). intros _ f1 Hw1.
  sm_step. file_use (put_byte_runs put bytes _ _ _ Hw1). intros _ f2 Hw2.
  sm_step. file_use (put_buffer_runs put bytes _ _ _ Hw2). intros _ f3 Hw3.
  sm_step. file_use (codec_put put get bytes (Codec := be32_codec put get bytes) _ _ _ Hw3). intros _ f4 Hw4.
  sm_step. apply runs_assert; [by rewrite Hns |].
  sm_use (sv_ok _ _ _ Hh Hft Et Hs _ _ Hw4). intros _ s' [-> Hw5]. split; [done |].
  change (wrap 8 QEMU_VM_SUBSECTION) with QEMU_VM_SUBSECTION in Hw5.
  rewrite (wrap_small 8 (Z.of_nat _)) in Hw5 by (split; [lia | cbn; lia]).
  change (trace_bytes m (Mark (sub_header s.(sub_vmsd)) :: t)) with (sub_header s.(sub_vmsd) ++ trace_bytes m t).
  unfold sub_header. rewrite <- !app_assoc in *. exact Hw5.
Qed.

Lemma get_subsection_finds subs s :
  s ∈ subs -> NoDup (map (fun s => s.(sub_vmsd).(name)) subs) -> c_string s.(sub_vmsd).(name) = s.(sub_vmsd).(name) ->
  vmstate_get_subsection subs s.(sub_vmsd).(name) = Some s.(sub_vmsd).
Proof.
  intros Hin Hnd Hc. induction subs as [| s' subs IH].
  { by apply not_elem_of_nil in Hin. }
  cbn [map vmstate_get_subsection] in *. apply NoDup_cons in Hnd as [Hni Hnd]. rewrite Hc.
  apply elem_of_cons in Hin as [-> | Hin]; [by rewrite bool_decide_eq_true_2 |].
  rewrite bool_decide_eq_false_2; [by apply IH |].
  intros E. apply Hni. rewrite <- E. apply list_elem_of_In, in_map_iff. exists s. split; [done |]. by apply list_elem_of_In.
Qed.

(** The list of subsections [all] is searched for each name in the stream. *)
Lemma subsections_loads rounds all subs a tr :
  (length subs <= rounds)%nat -> (forall s, s ∈ subs -> s ∈ all) -> NoDup (map (fun s => s.(sub_vmsd).(name)) all) ->
  forallb (sub_fits ft) subs = true -> walk_subsections m wk subs a = Some tr ->
  loads (load_subsections ld rounds all a) m (tr ++ [Done]).
Proof.
  intros Hlen Hall Hnd. revert rounds Hlen tr. induction subs as [| s subs IH]; intros rounds Hlen tr Hf E; cbn [walk_subsections] in E.
  { injection E as <-. intros K m' after f Hag [(b & after' & E & Hb) _] Hr.
    change (after = b :: after') in E. subst after. destruct rounds; cbn [load_subsections]; sm_step;
      file_use (peek_byte_runs get bytes _ _ _ Hr); intros v f' [-> Hr']; rewrite (proj2 (Z.eqb_neq b _)) by done;
      sm_step; (split; [done |]; split; [done |]; apply moved_none; intros x; cbn [app]; rewrite stored_cons; intros [[] | ?%stored_nil]; done). }
  cbn in Hf. apply andb_prop in Hf as [Hf1 Hf2]. apply bind_Some in E as (t1 & E1 & (t2 & E2 & E)%bind_Some). injection E as <-.
  specialize (IH ltac:(intros s' H; apply Hall, elem_of_cons; by right)).
  destruct (needed s a m); [| injection E1 as <-; apply IH; [cbn in Hlen; lia | done | done]].
  apply bind_Some in E1 as (t & Et & E). injection E as <-. destruct rounds as [| rounds]; [cbn in Hlen; lia |].
  apply sub_fits_inv in Hf1 as (Hh & Hft & Hv & Hlen' & Hc & Hns).
  intros K m' after f Hag [_ Hfol] Hr. cbn [app] in Hr. rewrite <- !app_assoc in *. set (rest := t2 ++ [Done]) in *.
  change (trace_bytes m (Mark (sub_header s.(sub_vmsd)) :: t ++ rest)) with (sub_header s.(sub_vmsd) ++ trace_bytes m (t ++ rest)) in Hr.
  unfold sub_header in Hr. rewrite <- !app_assoc in Hr. cbn [load_subsections]. sm_step.
  file_use (peek_byte_runs get bytes _ _ _ Hr). intros v f1 [-> Hr1]. rewrite Z.eqb_refl.
  sm_step. file_use (get_byte_runs get bytes _ _ _ Hr1). intros v2 f2 [_ Hr2].
  sm_step. file_use (get_byte_runs get bytes _ _ _ Hr2). intros v3 f3 [-> Hr3].
  set (nm := s.(sub_vmsd).(name)) in *. set (w := be_bytes 4 _ ++ _ ++ _) in Hr3.
  sm_step. assert (Hle : Z.of_nat (length nm) <= Z.of_nat (length (nm ++ w))) by (rewrite length_app; lia).
  file_use (get_buffer_runs get bytes _ _ _ Hr3 Hle). intros l f4 [-> Hr4]. rewrite Nat2Z.id, take_app_length in *.
  rewrite drop_app_length in Hr4. sm_step. apply runs_assert; [by rewrite Z.eqb_refl |]. sm_step. unfold w in Hr4.
  assert (Hv32 : in_u 32 s.(sub_vmsd).(version_id)) by (split; cbn; lia).
  file_use (codec_get put get bytes (Codec := be32_codec put get bytes) _ _ _ Hv32 Hr4). intros v5 f5 [-> Hr5].
  rewrite (wrap_small 8) by (split; cbn; lia). unfold nm. rewrite (get_subsection_finds all s) by (done || apply Hall, elem_of_cons; by left).
  sm_step. apply runs_assert; [by rewrite Hns |].
  assert (Hload : loads (ret ← ld s.(sub_vmsd) a s.(sub_vmsd).(version_id);
                         if c_true ret then mret ret else load_subsections ld rounds all a) m (t ++ rest)).
  { apply loads_then; [by apply ld_ok |]. apply IH; [cbn in Hlen; lia | done | done]. }
  assert (Hfol' : followed m K (t ++ rest) after) by (eapply followed_weaken; [| exact Hfol]; cbn; intros x [? | []]; done).
  sm_use (Hload K m' after f5 Hag Hfol' Hr5). intros r st (-> & Hr6 & Hm). split; [done |]. split; [done |].
  eapply moved_ext; [| exact Hm]. intros x. cbn [app]. rewrite (stored_cons (Mark _)). cbn. tauto.
Qed.
End fields.

(** *** Whole descriptions *)

Lemma fits_inv fuel rounds d :
  fits (S fuel) rounds d = true ->
  d.(minimum_version_id_old) <= d.(version_id) /\ d.(minimum_version_id) <= d.(version_id) /\
  forallb (field_fits (fits fuel rounds) d.(version_id)) d.(fields) = true /\
  forallb (sub_fits (fits fuel rounds)) (default [] d.(subsections)) = true /\
  NoDup (map (fun s => s.(sub_vmsd).(name)) (default [] d.(subsections))) /\
  (length (default [] d.(subsections)) <= rounds)%nat.
Proof.
  cbn [fits]. rewrite !andb_true_iff. intros [[[[[H1 H2] H3] H4] H5] H6]. apply Z.leb_le in H1, H2.
  apply bool_decide_eq_true in H5. apply Nat.leb_le in H6. done.
Qed.

Lemma done_saves m (d : VMStateDescription) : saves (mret tt) m match d.(subsections) with Some (_ :: _) => [Done] | _ => [] end.
Proof. intros _ out f Hw. sm_step. split; [done |]. by repeat case_match; rewrite app_nil_r. Qed.

(** Fields and subsections, when the nested descriptions are saved *)
Lemma body_saves m fuel rounds d a tr :
  (forall d a tr, hookless d = true -> fits fuel rounds d = true -> walk m fuel d a = Some tr -> saves (save_state fuel d a) m tr) ->
  fits (S fuel) rounds d = true -> walk m (S fuel) d a = Some tr ->
  saves (save_fields (save_state fuel) d.(version_id) d.(fields) a;; vmstate_subsection_save (save_state fuel) d a) m tr.
Proof.
  intros IH (_ & _ & Hf & Hs & _ & _)%fits_inv E. cbn [walk] in E.
  apply bind_Some in E as (t1 & E1 & (t2 & E2 & E)%bind_Some). injection E as <-.
  apply saves_seq; [by eapply fields_saves |].
  pose proof (subsections_saves m (save_state fuel) (walk m fuel) (fits fuel rounds) IH _ a t2 Hs E2) as Hsub.
  intros [Hs1 Hs2]%Forall_app out f Hw. sm_use (Hsub Hs1 out f Hw). intros _ s [-> Hw']. split; [done |].
  rewrite trace_bytes_app. by repeat case_match; rewrite app_nil_r.
Qed.

Lemma save_follows m fuel rounds d a tr :
  hookless d = true -> fits fuel rounds d = true -> walk m fuel d a = Some tr -> saves (save_state fuel d a) m tr.
Proof.
  revert d a tr. induction fuel as [| fuel IH]; intros d a tr Hh Hf E; [done |].
  pose proof (body_saves m fuel rounds d a tr IH Hf E) as Hb. cbn [save_state].
  intros Hs out f Hw. sm_step. eapply on_mem_runs; [reflexivity |].
  assert (Hpre : run_pre_save d a m = m) by (unfold run_pre_save, hookless in *; by destruct (pre_save d)).
  rewrite Hpre. by apply Hb.
Qed.

Lemma hook_runs h f m (Q : Z -> QEMUFile * mem -> Prop) : Q (h m).1 (f, (h m).2) -> runs (hook h) (f, m) Q.
Proof. intros H. by exists (h m).1, (f, (h m).2). Qed.

Lemma body_loads m fuel rounds d a tr :
  (forall d a tr, hookless d = true -> fits fuel rounds d = true -> walk m fuel d a = Some tr ->
     loads (load_state fuel rounds d a d.(version_id)) m tr) ->
  fits (S fuel) rounds d = true -> walk m (S fuel) d a = Some tr ->
  loads (ret ← load_fields (load_state fuel rounds) d.(version_id) d.(fields) a;
         if ret <? 0 then mret ret else vmstate_subsection_load (load_state fuel rounds) rounds d a) m tr.
Proof.
  intros IH (_ & _ & Hf & Hs & Hnd & Hlen)%fits_inv E. cbn [walk] in E.
  apply bind_Some in E as (t1 & E1 & (t2 & E2 & E)%bind_Some). injection E as <-.
  apply loads_then; [by eapply fields_loads |]. cbn [Z.ltb Z.compare]. unfold vmstate_subsection_load.
  destruct (subsections d) as [[| s subs] |]; cbn [default id from_option] in *.
  - injection E2 as <-. apply loads_nil.
  - eapply subsections_loads; [exact IH | done | auto | done | done | done].
  - injection E2 as <-. apply loads_nil.
Qed.

(** Loading with the checks of the version and the hooks around the body *)
Lemma load_state_body m fuel rounds d a tr K m' after f :
  (forall d a tr, hookless d = true -> fits fuel rounds d = true -> walk m fuel d a = Some tr ->
     loads (load_state fuel rounds d a d.(version_id)) m tr) ->
  fits (S fuel) rounds d = true -> walk m (S fuel) d a = Some tr ->
  (run_pre_load d a m').1 = 0 -> agree K m (run_pre_load d a m').2 -> followed m K tr after ->
  reading get bytes (trace_bytes m tr ++ after) f ->
  runs (load_state (S fuel) rounds d a d.(version_id)) (f, m') (fun r s =>
    reading get bytes after s.1 /\ exists m2, moved (stored tr) m (run_pre_load d a m').2 m2 /\
    (r, s.2) = run_post_load d a d.(version_id) m2).
Proof.
  intros IH Hf E Hpre Hag Hfol Hr. pose proof (fits_inv _ _ _ Hf) as (H1 & H2 & _). cbn [load_state].
  rewrite Z.ltb_irrefl, (proj2 (Z.ltb_ge _ _)), (proj2 (Z.ltb_ge _ _)) by lia.
  sm_step. apply hook_runs. rewrite Hpre. cbn [c_true Z.eqb negb].
  pose proof (body_loads m fuel rounds d a tr IH Hf E K _ after f Hag Hfol Hr) as (r & s & Erun & -> & Hr' & Hm).
  unfold mbind, sm_bind in Erun.
  destruct (load_fields (load_state fuel rounds) (version_id d) (fields d) a (f, (run_pre_load d a m').2)) as [[r1 s1] |] eqn:E1; [| done].
  sm_step. exists r1, s1. split; [done |]. destruct (r1 <? 0) eqn:Er1.
  { injection Erun as -> ->. done. }
  sm_step. exists 0, s. split; [done |]. cbn [c_true Z.eqb negb]. destruct s as [f2 m2]. apply hook_runs. cbn [fst snd] in *.
  split; [done |]. exists m2. split; [done |]. by destruct (run_post_load _ _ _ _).
Qed.

Lemma load_follows m fuel rounds d a tr :
  hookless d = true -> fits fuel rounds d = true -> walk m fuel d a = Some tr ->
  loads (load_state fuel rounds d a d.(version_id)) m tr.
Proof.
  revert d a tr. induction fuel as [| fuel IH]; intros d a tr Hh Hf E; [done |].
  intros K m' after f Hag Hfol Hr. unfold hookless in Hh. destruct (pre_save d), (pre_load d) eqn:Epre, (post_load d) eqn:Epost; try done.
  assert (Hpre : run_pre_load d a m' = (0, m')) by (unfold run_pre_load; by rewrite Epre).
  assert (Hag' : agree K m (run_pre_load d a m').2) by (by rewrite Hpre).
  sm_use (load_state_body m fuel rounds d a tr K m' after f IH Hf E ltac:(by rewrite Hpre) Hag' Hfol Hr).
  intros r s (Hr' & m2 & Hm & Es). unfold run_post_load in Es. rewrite Epost in Es. rewrite Hpre in Hm. injection Es as -> <-. done.
Qed.

(** C15: a saved device is loaded back exactly.  For a description that fits (the
    versions of its fields within its own, distinct subsections, no hooks inside)
    and any memory of the source, saving its state and an end mark succeeds and
    changes nothing but what [pre_save] does.  A destination that has the same
    objects, and agrees on the counts, sizes and pointers it looks at before they
    are loaded ([followed]), loads that stream without an error and is at the end
    mark: every byte of a described field is as it was saved, every other byte is
    as [pre_load] left it, and [post_load] runs on the result.  What follows a
    list of subsections must not begin like a subsection. *)
Theorem vmstate_round_trip (d : VMStateDescription) (a : Z) (m m' : mem) (K : Z -> Prop) (tr : list event)
    (rounds : nat) (o : D) :
  bytes o = [] -> fits (nesting d) rounds d = true ->
  walk (run_pre_save d a m) (nesting d) d a = Some tr ->
  followed (run_pre_save d a m) K tr [QEMU_VM_EOF] ->
  (run_pre_load d a m').1 = 0 -> agree K (run_pre_save d a m) (run_pre_load d a m').2 ->
  runs (vmstate_save_state d a;; on_file (qemu_put_byte QEMU_VM_EOF)) (qemu_fopen_ops (Some put) None o, m) (fun _ s =>
    s.1.(has_error) = false /\ s.2 = run_pre_save d a m /\
    runs (ret ← vmstate_load_state rounds d a d.(version_id); eof ← on_file qemu_get_byte; mret (ret, eof))
      (qemu_fopen_ops None (Some get) (qemu_fclose s.1), m') (fun r s' =>
        s'.1.(has_error) = false /\ r.2 = QEMU_VM_EOF /\
        exists m2, moved (stored tr) (run_pre_save d a m) (run_pre_load d a m').2 m2 /\
          (r.1, s'.2) = run_post_load d a d.(version_id) m2)).
Proof.
  intros Ho Hf E Hfol Hpre Hag. set (ms := run_pre_save d a m) in *.
  unfold vmstate_save_state, vmstate_load_state. destruct (nesting d) as [| n] eqn:En; [done |].
  pose proof (body_saves ms n rounds d a tr (fun d' a' tr' => save_follows ms n rounds d' a' tr') Hf E) as Hsave.
  cbn [save_state]. sm_step. sm_step. eapply on_mem_runs; [reflexivity |]. fold ms.
  sm_use (Hsave (followed_savable _ _ _ _ Hfol) [] _ (open_writing put bytes o Ho)). intros _ [f1 m1] [E1 Hw]. cbn [fst snd] in *. subst m1.
  file_use (put_byte_runs put bytes _ _ _ Hw). intros _ f2 Hw2. cbn [fst snd].
  split; [exact (wr_error _ _ _ _ Hw2) |]. split; [done |].
  pose proof (open_reading get bytes (qemu_fclose f2)) as Hr. rewrite (close_writes put bytes _ _ Hw2) in Hr.
  sm_step. sm_use (load_state_body ms n rounds d a tr K m' _ _ (fun d' a' tr' => load_follows ms n rounds d' a' tr') Hf E Hpre Hag Hfol Hr).
  intros r [f3 m3] (Hr3 & m2 & Hm & Hpost). cbn [fst snd] in *. sm_step. file_use (get_byte_runs get bytes _ _ _ Hr3).
  intros v f4 [-> Hr4]. sm_step. split; [exact (rd_error _ _ _ _ Hr4) |]. split; [done |]. by exists m2.
Qed.

(** A version that does not fit is refused before anything happens: one above
    the version of the description, or below the oldest it can load, gives EINVAL
    with the stream and the memory untouched; one that only the old loader knows
    goes to that loader, and nothing else is done. *)
Lemma vmstate_load_refuses (d : VMStateDescription) (rounds : nat) (a version : Z) (s : QEMUFile (D := D) * mem) :
  ((d.(version_id) < version \/ version < d.(minimum_version_id_old)) ->
     vmstate_load_state rounds d a version s = Some (- EINVAL, s)) /\
  (d.(minimum_version_id_old) <= version <= d.(version_id) -> version < d.(minimum_version_id) ->
     forall old, d.(load_state_old) = Some old -> vmstate_load_state rounds d a version s = old a version s).
Proof.
  unfold vmstate_load_state. destruct (nesting d) eqn:E; [by destruct d |]. cbn [load_state]. split.
  - intros [H | H]; [by rewrite (proj2 (Z.ltb_lt _ _)) by lia |]. case_match; [done |].
    by rewrite (proj2 (Z.ltb_lt version _)) by lia.
  - intros [H1 H2] H3 old Hold. rewrite (proj2 (Z.ltb_ge _ version)), (proj2 (Z.ltb_ge version _)) by lia.
    rewrite (proj2 (Z.ltb_lt version _)) by lia. by rewrite Hold.
Qed.
End Media.
End Vmstate.

(** ** A device *)

Abbreviation vmsd_f := (VMStateDescription (D := list Z)).
Abbreviation field_f := (VMStateField (D := list Z)).

Definition plain (off sz : Z) (i : VMStateInfo) : field_f := mkField off sz 0 0 0 0 i VMS_SINGLE None 0 None.

(** A slot of an array: a 16-bit number and a flag *)
Definition slot : vmsd_f :=
  mkVmsd [115] 1 1 1 None None None None [plain 0 2 vmstate_info_uint16; plain 2 1 vmstate_info_bool] None.

(** An optional part with its own version *)
Definition extra : vmsd_f := mkVmsd [120; 49] 2 1 1 None None None None [plain 20 4 vmstate_info_int32] None.

(** A count, slots behind a pointer as many as the count says, an identity that
    must match, a buffer, and the optional part if a flag is set *)
Definition device : vmsd_f :=
  mkVmsd [100; 101; 118] 3 2 1 None None None (Some (fun a m => <[a + 17 := 9]> m))
    [plain 0 1 vmstate_info_uint8;
     mkField 4 4 0 0 0 0 vmstate_info_uint8 (Z.lor VMS_STRUCT (Z.lor VMS_VARRAY_UINT8 VMS_POINTER)) (Some slot) 2 None;
     plain 8 4 vmstate_info_uint32_equal;
     mkField 12 4 0 0 0 0 vmstate_info_buffer VMS_BUFFER None 3 None;
     plain 17 1 vmstate_info_uint8]
    (Some [mkSub extra (fun a m => bool_decide (m !! (a + 16) = Some 1))]).

Definition cells (a : Z) (l : list Z) : mem := list_to_map (zip (seqZ a (Z.of_nat (length l))) l).

(** The slots are at address 2000 in both memories. *)
Definition source_mem : mem :=
  cells 1000 [2; 0; 0; 0;  0xd0; 7; 0; 0;  1; 2; 3; 4;  10; 11; 12; 13;  1; 0; 0; 0;  0xef; 0xbe; 0xad; 0xde] ∪
  cells 2000 [0x34; 0x12; 1; 0;  0x78; 0x56; 0; 0].
Definition dest_mem : mem :=
  cells 1000 [0; 0; 0; 0;  0xd0; 7; 0; 0;  1; 2; 3; 4;  0; 0; 0; 0;  0; 0; 0; 0;  0; 0; 0; 0] ∪
  cells 2000 [0; 0; 0; 0;  0; 0; 0; 0].

Definition device_trace : list (event (D := list Z)) :=
  Eval vm_compute in default [] (walk (run_pre_save device 1000 source_mem) (nesting device) device 1000).

(** The pointer and the identity *)
Definition known_there (x : Z) : Prop := 1004 <= x < 1012.

Lemma agree_range (m m' : mem) (a : Z) (n : nat) :
  dom m = dom m' -> forallb (fun i => bool_decide (m !! i = m' !! i)) (seqZ a (Z.of_nat n)) = true ->
  agree (fun x => a <= x < a + Z.of_nat n) m m'.
Proof.
  intros Hd H. split.
  - intros x. by rewrite <- !elem_of_dom, Hd.
  - intros x Hx. rewrite forallb_forall in H. specialize (H x). rewrite bool_decide_eq_true in H.
    apply H, list_elem_of_In, elem_of_seqZ. lia.
Qed.

Lemma vmstate_round_trip_witness :
  runs (vmstate_save_state device 1000;; on_file (qemu_put_byte QEMU_VM_EOF))
    (qemu_fopen_ops (Some (file_put_buffer None)) None [], source_mem) (fun _ s =>
    s.1.(has_error) = false /\ s.2 = run_pre_save device 1000 source_mem /\
    runs (ret ← vmstate_load_state 1 device 1000 3; eof ← on_file qemu_get_byte; mret (ret, eof))
      (qemu_fopen_ops None (Some file_get_buffer) (qemu_fclose s.1), dest_mem) (fun r s' =>
        s'.1.(has_error) = false /\ r.2 = QEMU_VM_EOF /\
        exists m2, moved (stored device_trace) (run_pre_save device 1000 source_mem) dest_mem m2 /\ (r.1, s'.2) = (0, m2))).
Proof.
  apply (vmstate_round_trip (file_put_buffer None) file_get_buffer id device 1000 source_mem dest_mem known_there device_trace 1 []);
    [reflexivity | reflexivity | vm_compute; reflexivity | | reflexivity |].
  - unfold device_trace. cbn [followed event_ok]. repeat split; try (intros; discriminate); try (eexists; vm_compute; reflexivity);
      try (intros x Hx; unfold known_there; cbn in *; lia); try (intros _ x Hx; unfold known_there; cbn in *; lia).
    exists 0, []. split; [vm_compute; reflexivity | discriminate].
  - apply (agree_range _ _ 1004 8); [apply (bool_decide_unpack _); vm_compute; exact I | vm_compute; reflexivity].
Defined.

(** ** Where the code falls short *)

Definition saved (d : vmsd_f) (a : Z) (m : mem) : list Z :=
  match vmstate_save_state d a (qemu_fopen_ops (Some (file_put_buffer None)) None [], m) with
  | Some (_, s) => qemu_fclose s.1
  | None => []
  end.

(** Three bytes behind a pointer, with the count in a 32-bit field *)
Definition uint32_array : vmsd_f :=
  mkVmsd [97] 1 1 1 None None None None
    [mkField 4 1 0 0 0 0 vmstate_info_uint8 (Z.lor VMS_VARRAY_UINT32 VMS_POINTER) None 0 None] None.

(** One byte is saved, three are loaded: the last two come from what follows. *)
Lemma uint32_count_ignored :
  let m := cells 1000 [3; 0; 0; 0; 0xd0; 7; 0; 0] ∪ cells 2000 [7; 8; 9] in
  saved uint32_array 1000 m = [7] /\
  match vmstate_load_state 1 uint32_array 1000 1 (qemu_fopen_ops None (Some file_get_buffer) [7; 65; 66; 67], m) with
  | Some (r, s) => (r, load_bytes s.2 2000 3, qemu_ftell s.1)
  | None => (-1, None, 0)
  end = (0, Some [7; 65; 66], 3).
Proof. by vm_compute. Qed.

(** A structure whose subsection is not needed, followed by a buffer *)
Definition ambiguous : vmsd_f :=
  mkVmsd [97] 1 1 1 None None None None
    [mkField 0 1 0 0 0 0 vmstate_info_uint8 VMS_STRUCT
       (Some (mkVmsd [98] 1 1 1 None None None None [plain 0 1 vmstate_info_uint8] (Some [mkSub extra (fun _ _ => false)]))) 0 None;
     mkField 1 6 0 0 0 0 vmstate_info_buffer VMS_BUFFER None 0 None] None.

(** A buffer that begins with 5 is taken for a subsection, and the load fails. *)
Lemma subsection_ambiguous :
  let m := cells 0 [1; 5; 0; 0; 0; 0; 0] in
  saved ambiguous 0 m = [1; 5; 0; 0; 0; 0; 0] /\
  match vmstate_load_state 1 ambiguous 0 1 (qemu_fopen_ops None (Some file_get_buffer) (saved ambiguous 0 m ++ [0]), m) with
  | Some (r, _) => r
  | None => 0
  end = - ENOENT.
Proof. by vm_compute. Qed.

(** A received number greater than the field is accepted, a smaller one is not. *)
Lemma int32_le_is_ge :
  let load v := match get_int32_le 0 (qemu_fopen_ops None (Some file_get_buffer) (be_bytes 4 v), cells 0 [5; 0; 0; 0]) with
                | Some (r, _) => r | None => 1 end in
  load 6 = 0 /\ load 4 = - EINVAL.
Proof. by vm_compute. Qed.
