(* ===== verification/SaveVm.v ===== *)
(** * Saving and loading a whole machine (qemu/savevm.c)

    Devices register how their state is saved, under a name and an instance
    number; a machine is saved as a file of sections, one per device, and loaded
    by looking the devices up again.  The state of a device is described by a
    [VMStateDescription] of [Vmstate], or saved by functions of its own.

    The list of registered devices is a value that the operations get and
    return.  A device path, if the device is on a bus that has them, is an
    argument; functions of devices are fields of their entry.  On Windows there
    is no hardware accelerator, so the synchronisation of processor state around
    saving does nothing.

    [None] is [abort], a failed assertion, a call of a null function or fuel that
    ran out; [fuel] bounds the sections of a file and the rounds of live saving.

    Theorems: automatic registration gives every device a name of its own, under
    which it is found again; a machine that is saved is loaded back exactly; a
    file with a wrong head is refused. *)

From Stdlib Require Import ZArith Lia Sorted.
From stdpp Require Import base option numbers gmap list.
From S2P Require Import Prelude Stm QemuFile Vmstate.

Local Open Scope Z_scope.

Definition QEMU_VM_FILE_MAGIC : Z := 0x5145564d.
Definition QEMU_VM_FILE_VERSION_COMPAT : Z := 0x00000002.
Definition QEMU_VM_FILE_VERSION : Z := 0x00000003.
Definition QEMU_VM_SECTION_START : Z := 0x01.
Definition QEMU_VM_SECTION_PART : Z := 0x02.
Definition QEMU_VM_SECTION_END : Z := 0x03.
Definition QEMU_VM_SECTION_FULL : Z := 0x04.
Definition EIO : Z := 5.
Definition ENOTSUP : Z := 4096.

(** Strings are lists of bytes without their terminator; copies into a buffer of
    [n] bytes are cut to fit. *)
Definition pstrcpy (n : nat) (str : list Z) : list Z := take (n - 1) str.
Definition pstrcat (n : nat) (buf str : list Z) : list Z :=
  if (length buf <? n)%nat then buf ++ pstrcpy (n - length buf) str else buf.

(** [strstr] as a test *)
Fixpoint strstr (l pat : list Z) : bool :=
  bool_decide (take (length pat) l = pat) || match l with [] => false | _ :: l => strstr l pat end.

Section SaveVm.
Context {D : Type}.

Abbreviation VM A := (SM (QEMUFile (D := D) * gmap Z Z) A).
Abbreviation mem := (gmap Z Z).

Record CompatEntry := mkCompat { compat_idstr : list Z; compat_instance_id : Z }.

(** [struct SaveStateEntry]; a description comes with its address. *)
Record SaveStateEntry := mkEntry {
  idstr : list Z;
  instance_id : Z;
  alias_id : Z;
  se_version_id : Z;
  section_id : Z;
  set_params : option (Z -> Z -> Z -> mem -> mem);
  save_live_state : option (Z -> Z -> VM Z);
  se_save_state : option (Z -> VM unit);
  se_load_state : option (Z -> Z -> VM Z);
  vmsd : option (Z * VMStateDescription (D := D));
  se_opaque : Z;
  compat : option CompatEntry;
  no_migrate : bool
}.

(** [savevm_handlers] and [global_section_id] *)
Record Registry := mkRegistry { savevm_handlers : list SaveStateEntry; global_section_id : Z }.

(** ** Registration *)

Definition calculate_new_instance_id (id : list Z) (r : Registry) : Z :=
  fold_left (fun n se => if bool_decide (id = se.(idstr)) && (n <=? se.(instance_id)) then se.(instance_id) + 1 else n)
    r.(savevm_handlers) 0.

Definition calculate_compat_instance_id (id : list Z) (r : Registry) : Z :=
  fold_left (fun n se => match se.(compat) with
                         | None => n
                         | Some c => if bool_decide (id = c.(compat_idstr)) && (n <=? c.(compat_instance_id))
                                     then c.(compat_instance_id) + 1 else n
                         end) r.(savevm_handlers) 0.

(** The name of an entry, for a device with a path or without *)
Definition entry_idstr (path : option (list Z)) (id : list Z) : list Z :=
  pstrcat 256 (match path with Some p => pstrcat 256 (pstrcpy 256 p) [47] | None => [] end) id.

Definition entry_compat (path : option (list Z)) (id : list Z) (instance : Z) (r : Registry) : option CompatEntry :=
  match path with
  | Some _ => Some (mkCompat (pstrcpy 256 id) (if instance =? -1 then calculate_compat_instance_id id r else instance))
  | None => None
  end.

Definition entry_instance (path : option (list Z)) (id : list Z) (instance : Z) (r : Registry) : Z :=
  if (match path with Some _ => -1 | None => instance end) =? -1
  then calculate_new_instance_id (entry_idstr path id) r else instance.

(** The end of both ways to register *)
Definition insert_entry (se : SaveStateEntry) (r : Registry) : option Registry :=
  if bool_decide (is_Some se.(compat)) && negb (se.(instance_id) =? 0) then None
  else Some (mkRegistry (r.(savevm_handlers) ++ [se]) (r.(global_section_id) + 1)).

Definition register_savevm_live (path : option (list Z)) (id : list Z) (instance version : Z) params live save load
    (opaque : Z) (r : Registry) : option Registry :=
  insert_entry (mkEntry (entry_idstr path id) (entry_instance path id instance r) 0 version r.(global_section_id)
    params live save load None opaque (entry_compat path id instance r) false) r.

Definition register_savevm path id instance version save load opaque r : option Registry :=
  register_savevm_live path id instance version None None save load opaque r.

Definition vmstate_register_with_alias_id (path : option (list Z)) (instance : Z) (d : Z * VMStateDescription)
    (opaque alias required_for_version : Z) (r : Registry) : option Registry :=
  if negb ((alias =? -1) || (d.2.(minimum_version_id) <=? required_for_version)) then None
  else insert_entry (mkEntry (entry_idstr path d.2.(name)) (entry_instance path d.2.(name) instance r) alias
    d.2.(version_id) r.(global_section_id) None None None None (Some d) opaque
    (entry_compat path d.2.(name) instance r) false) r.

Definition vmstate_register path instance d opaque r : option Registry :=
  vmstate_register_with_alias_id path instance d opaque (-1) 0 r.

Definition unregister_savevm (path : option (list Z)) (id : list Z) (opaque : Z) (r : Registry) : Registry :=
  mkRegistry (filter (fun se => ~ (se.(idstr) = entry_idstr path id /\ se.(se_opaque) = opaque)) r.(savevm_handlers))
    r.(global_section_id).

Definition vmstate_unregister (d : Z * VMStateDescription (D := D)) (opaque : Z) (r : Registry) : Registry :=
  mkRegistry (filter (fun se => ~ (fst <$> se.(vmsd) = Some d.1 /\ se.(se_opaque) = opaque)) r.(savevm_handlers))
    r.(global_section_id).

Definition register_device_unmigratable (path : option (list Z)) (id : list Z) (opaque : Z) (r : Registry) : Registry :=
  mkRegistry (map (fun se => if bool_decide (se.(idstr) = entry_idstr path id /\ se.(se_opaque) = opaque)
      then mkEntry se.(idstr) se.(instance_id) se.(alias_id) se.(se_version_id) se.(section_id) se.(set_params)
             se.(save_live_state) se.(se_save_state) se.(se_load_state) se.(vmsd) se.(se_opaque) se.(compat) true
      else se) r.(savevm_handlers)) r.(global_section_id).

Definition is_named (id : list Z) (instance : Z) (se : SaveStateEntry) : bool :=
  bool_decide (se.(idstr) = id) && ((instance =? se.(instance_id)) || (instance =? se.(alias_id))).

(** The name a device had before it was given a path *)
Definition was_named (id : list Z) (instance : Z) (se : SaveStateEntry) : bool :=
  strstr se.(idstr) id &&
  match se.(compat) with
  | Some c => bool_decide (c.(compat_idstr) = id) && ((instance =? c.(compat_instance_id)) || (instance =? se.(alias_id)))
  | None => false
  end.

Fixpoint find_se (id : list Z) (instance : Z) (hs : list SaveStateEntry) : option SaveStateEntry :=
  match hs with
  | [] => None
  | se :: hs => if is_named id instance se || was_named id instance se then Some se else find_se id instance hs
  end.

(** ** Saving *)

Definition vmstate_save (se : SaveStateEntry) : VM unit :=
  match se.(vmsd) with
  | None => h ← sm_lift se.(se_save_state); h se.(se_opaque)
  | Some d => vmstate_save_state d.2 se.(se_opaque)
  end.

Definition vmstate_load (rounds : nat) (se : SaveStateEntry) (version : Z) : VM Z :=
  match se.(vmsd) with
  | None => h ← sm_lift se.(se_load_state); h se.(se_opaque) version
  | Some d => vmstate_load_state rounds d.2 se.(se_opaque) version
  end.

Definition qemu_savevm_state_blocked (hs : list SaveStateEntry) : bool := existsb no_migrate hs.

(** The head of a section with the name of its device *)
Definition put_section (type : Z) (se : SaveStateEntry) : VM unit :=
  on_file (qemu_put_byte type);;
  on_file (qemu_put_be32 (wrap 32 se.(section_id)));;
  on_file (qemu_put_byte (Z.of_nat (length se.(idstr))));;
  on_file (qemu_put_buffer se.(idstr));;
  on_file (qemu_put_be32 (wrap 32 se.(instance_id)));;
  on_file (qemu_put_be32 (wrap 32 se.(se_version_id))).

Fixpoint call_set_params (blk_enable shared : Z) (hs : list SaveStateEntry) : VM unit :=
  match hs with
  | [] => mret tt
  | se :: hs =>
      match se.(set_params) with
      | None => mret tt
      | Some h => on_mem (fun m => Some (h blk_enable shared se.(se_opaque) m))
      end;;
      call_set_params blk_enable shared hs
  end.

Fixpoint start_live (hs : list SaveStateEntry) : VM unit :=
  match hs with
  | [] => mret tt
  | se :: hs =>
      match se.(save_live_state) with
      | None => mret tt
      | Some h => put_section QEMU_VM_SECTION_START se;; h QEMU_VM_SECTION_START se.(se_opaque);; mret tt
      end;;
      start_live hs
  end.

Fixpoint qemu_savevm_state_cancel (hs : list SaveStateEntry) : VM unit :=
  match hs with
  | [] => mret tt
  | se :: hs =>
      match se.(save_live_state) with None => mret tt | Some h => h (-1) se.(se_opaque);; mret tt end;;
      qemu_savevm_state_cancel hs
  end.

Definition file_error : VM bool := f ← sm_get fst; mret (qemu_file_has_error f).

Definition qemu_savevm_state_begin (hs : list SaveStateEntry) (blk_enable shared : Z) : VM Z :=
  call_set_params blk_enable shared hs;;
  on_file (qemu_put_be32 QEMU_VM_FILE_MAGIC);;
  on_file (qemu_put_be32 QEMU_VM_FILE_VERSION);;
  start_live hs;;
  e ← file_error;
  if e : bool then qemu_savevm_state_cancel hs;; mret (- EIO) else mret 0.

(** One part of every live device, until one has more to come *)
Fixpoint save_parts (ret : Z) (hs : list SaveStateEntry) : VM Z :=
  match hs with
  | [] => mret ret
  | se :: hs =>
      match se.(save_live_state) with
      | None => save_parts ret hs
      | Some h =>
          on_file (qemu_put_byte QEMU_VM_SECTION_PART);;
          on_file (qemu_put_be32 (wrap 32 se.(section_id)));;
          ret ← h QEMU_VM_SECTION_PART se.(se_opaque);
          if ret =? 0 then mret ret else save_parts ret hs
      end
  end.

Definition qemu_savevm_state_iterate (hs : list SaveStateEntry) : VM Z :=
  ret ← save_parts 1 hs;
  if c_true ret then mret 1
  else
    e ← file_error;
    if e : bool then qemu_savevm_state_cancel hs;; mret (- EIO) else mret 0.

Fixpoint end_live (hs : list SaveStateEntry) : VM unit :=
  match hs with
  | [] => mret tt
  | se :: hs =>
      match se.(save_live_state) with
      | None => mret tt
      | Some h =>
          on_file (qemu_put_byte QEMU_VM_SECTION_END);;
          on_file (qemu_put_be32 (wrap 32 se.(section_id)));;
          h QEMU_VM_SECTION_END se.(se_opaque);; mret tt
      end;;
      end_live hs
  end.

Fixpoint save_full (hs : list SaveStateEntry) : VM unit :=
  match hs with
  | [] => mret tt
  | se :: hs =>
      (if bool_decide (is_Some se.(se_save_state) \/ is_Some se.(vmsd))
       then put_section QEMU_VM_SECTION_FULL se;; vmstate_save se else mret tt);;
      save_full hs
  end.

Definition qemu_savevm_state_complete (hs : list SaveStateEntry) : VM Z :=
  end_live hs;;
  save_full hs;;
  on_file (qemu_put_byte QEMU_VM_EOF);;
  e ← file_error;
  mret (if e : bool then - EIO else 0).

Fixpoint iterate_loop (fuel : nat) (hs : list SaveStateEntry) : VM Z :=
  match fuel with
  | O => sm_fail
  | S fuel => ret ← qemu_savevm_state_iterate hs; if ret =? 0 then iterate_loop fuel hs else mret ret
  end.

(** The result, and whether the machine runs afterwards *)
Definition qemu_savevm_state (fuel : nat) (hs : list SaveStateEntry) (vm_running : bool) : VM (Z * bool) :=
  ret ← (if qemu_savevm_state_blocked hs then mret (- EINVAL)
         else
           ret ← qemu_savevm_state_begin hs 0 0;
           if ret <? 0 then mret ret
           else
             ret ← iterate_loop fuel hs;
             if ret <? 0 then mret ret else qemu_savevm_state_complete hs);
  e ← file_error;
  let ret := if e : bool then - EIO else ret in
  mret (ret, (ret =? 0) && vm_running).

(** ** Loading *)

Record LoadStateEntry := mkLoad { le_se : SaveStateEntry; le_section_id : Z; le_version_id : Z }.

Section load.
Context (rounds : nat) (hs : list SaveStateEntry).

(** A section that starts a device *)
Definition load_start (les : list LoadStateEntry) : VM (Z * list LoadStateEntry) :=
  section ← on_file qemu_get_be32;
  len ← on_file qemu_get_byte;
  l ← on_file (qemu_get_buffer len);
  sm_assert (Z.of_nat (length l) =? len);;
  instance ← on_file qemu_get_be32;
  version ← on_file qemu_get_be32;
  match find_se (c_string l) (to_signed 32 instance) hs with
  | None => mret (- EINVAL, les)
  | Some se =>
      if wrap 32 se.(se_version_id) <? version then mret (- EINVAL, les)
      else
        let le := mkLoad se (to_signed 32 section) (to_signed 32 version) in
        ret ← vmstate_load rounds le.(le_se) le.(le_version_id);
        mret (ret, le :: les)
  end.

(** A further section of a device *)
Definition load_part (les : list LoadStateEntry) : VM Z :=
  section ← on_file qemu_get_be32;
  match list_find (fun le => wrap 32 le.(le_section_id) = section) les with
  | None => mret (- EINVAL)
  | Some (_, le) => vmstate_load rounds le.(le_se) le.(le_version_id)
  end.

Fixpoint load_sections (fuel : nat) (les : list LoadStateEntry) : VM Z :=
  match fuel with
  | O => sm_fail
  | S fuel =>
      type ← on_file qemu_get_byte;
      if type =? QEMU_VM_EOF then mret 0
      else if (type =? QEMU_VM_SECTION_START) || (type =? QEMU_VM_SECTION_FULL) then
        '(ret, les) ← load_start les;
        if ret <? 0 then mret ret else load_sections fuel les
      else if (type =? QEMU_VM_SECTION_PART) || (type =? QEMU_VM_SECTION_END) then
        ret ← load_part les;
        if ret <? 0 then mret ret else load_sections fuel les
      else mret (- EINVAL)
  end.
End load.

Definition qemu_loadvm_state (fuel rounds : nat) (hs : list SaveStateEntry) : VM Z :=
  if qemu_savevm_state_blocked hs then mret (- EINVAL)
  else
    v ← on_file qemu_get_be32;
    if negb (v =? QEMU_VM_FILE_MAGIC) then mret (- EINVAL)
    else
      v ← on_file qemu_get_be32;
      if v =? QEMU_VM_FILE_VERSION_COMPAT then mret (- ENOTSUP)
      else if negb (v =? QEMU_VM_FILE_VERSION) then mret (- ENOTSUP)
      else
        ret ← load_sections rounds hs fuel [];
        e ← file_error;
        mret (if e : bool then - EIO else ret).

(** ** Names *)

(** What registrations with automatic instance numbers, and removals, lead to *)
Inductive registered : Registry -> Prop :=
  | registered_none g : registered (mkRegistry [] g)
  | registered_savevm path id version params live save load opaque r r' :
      registered r -> register_savevm_live path id (-1) version params live save load opaque r = Some r' -> registered r'
  | registered_vmstate path d opaque r r' :
      registered r -> vmstate_register path (-1) d opaque r = Some r' -> registered r'
  | registered_unmigratable path id opaque r : registered r -> registered (register_device_unmigratable path id opaque r)
  | unregistered_savevm path id opaque r : registered r -> registered (unregister_savevm path id opaque r)
  | unregistered_vmstate d opaque r : registered r -> registered (vmstate_unregister d opaque r).

(** Later entries of the same name have greater numbers. *)
Definition after (e e' : SaveStateEntry) : Prop :=
  (e.(idstr) = e'.(idstr) -> e.(instance_id) < e'.(instance_id)) /\ e.(section_id) < e'.(section_id).

Record registry_ok (r : Registry) : Prop := {
  ok_sorted : StronglySorted after r.(savevm_handlers);
  ok_entries : Forall (fun e => 0 <= e.(instance_id) /\ e.(alias_id) <= 0 /\ e.(section_id) < r.(global_section_id)) r.(savevm_handlers)
}.

Lemma new_instance_above id hs n :
  let top := fold_left (fun n se => if bool_decide (id = se.(idstr)) && (n <=? se.(instance_id))
                                    then se.(instance_id) + 1 else n) hs n in
  n <= top /\ Forall (fun e => e.(idstr) = id -> e.(instance_id) < top) hs.
Proof.
  revert n. induction hs as [| e hs IH]; intros n; cbn [fold_left]; [split; [lia | constructor] |].
  match goal with |- context [fold_left _ hs ?k] => set (n' := k) end.
  destruct (IH n') as [H1 H2]. assert (Hn : n <= n' /\ (e.(idstr) = id -> e.(instance_id) < n')).
  { unfold n'. destruct (bool_decide_reflect (id = e.(idstr))) as [Heq | Hne]; cbn [andb]; [| split; [lia | by intros <-]].
    destruct (Z.leb_spec n e.(instance_id)); split; intros; lia. }
  split; [lia |]. constructor; [intros He; destruct Hn as [_ Hn]; specialize (Hn He); lia | exact H2].
Qed.

Lemma sorted_snoc hs e : StronglySorted after hs -> Forall (fun x => after x e) hs -> StronglySorted after (hs ++ [e]).
Proof.
  induction 1 as [| x hs Hs IH Hx]; intros H; cbn [app]; [repeat constructor |]. apply Forall_cons in H as [H1 H2].
  constructor; [by apply IH |]. apply Forall_app. split; [done | by constructor].
Qed.

Lemma Forall_kept (P Q : SaveStateEntry -> Prop) `{!forall x, Decision (P x)} hs : Forall Q hs -> Forall Q (filter P hs).
Proof. induction 1 as [| x hs Hx _ IH]; [constructor |]. rewrite filter_cons. case_decide; [by constructor | done]. Qed.

Lemma sorted_filter (P : SaveStateEntry -> Prop) `{!forall x, Decision (P x)} hs :
  StronglySorted after hs -> StronglySorted after (filter P hs).
Proof.
  induction 1 as [| x hs Hs IH Hx]; [constructor |]. rewrite filter_cons. case_decide; [| done]. constructor; [done |].
  by apply Forall_kept.
Qed.

Lemma insert_entry_ok path id se r r' :
  registry_ok r -> se.(idstr) = entry_idstr path id -> se.(instance_id) = entry_instance path id (-1) r ->
  se.(alias_id) <= 0 -> se.(section_id) = r.(global_section_id) -> insert_entry se r = Some r' -> registry_ok r'.
Proof.
  intros [Hs He] Hid Hinst Hal Hsec E. unfold insert_entry in E. case_match; [done |]. injection E as <-.
  assert (Hnew : se.(instance_id) = calculate_new_instance_id se.(idstr) r).
  { rewrite Hinst, Hid. unfold entry_instance. by destruct path. }
  destruct (new_instance_above se.(idstr) r.(savevm_handlers) 0) as [Hnn Habove]. fold (calculate_new_instance_id se.(idstr) r) in *.
  split; cbn [savevm_handlers global_section_id].
  - apply sorted_snoc; [done |]. apply Forall_forall. intros x Hx. rewrite Forall_forall in He, Habove.
    specialize (He x Hx) as (? & ? & ?). specialize (Habove x Hx). split; [intros Heq; rewrite Hnew; by apply Habove | lia].
  - apply Forall_app. split; [| repeat constructor; lia]. eapply Forall_impl; [exact He |]. cbn. intros x (? & ? & ?). lia.
Qed.

Lemma registered_ok r : registered r -> registry_ok r.
Proof.
  induction 1 as [| path id v ps lv sv ld op r r' _ IH E | path d op r r' _ IH E | path id op r _ IH | path id op r _ IH | d op r _ IH].
  - repeat constructor.
  - by eapply insert_entry_ok; [exact IH | | | | | exact E].
  - unfold vmstate_register, vmstate_register_with_alias_id in E. cbn in E. by eapply insert_entry_ok; [exact IH | | | | | exact E].
  - destruct IH as [Hs He]. unfold register_device_unmigratable. split; cbn [savevm_handlers global_section_id].
    + clear He. induction Hs as [| x hs Hs IH Hx]; cbn [map]; constructor; [done |]. apply Forall_forall. intros y Hy.
      apply list_elem_of_In, in_map_iff in Hy as (z & <- & Hz%list_elem_of_In). rewrite Forall_forall in Hx. specialize (Hx z Hz).
      by repeat case_match.
    + clear Hs. induction He as [| x hs Hx He IH]; cbn [map]; constructor; [by case_match | done].
  - destruct IH as [Hs He]. split; cbn [savevm_handlers global_section_id unregister_savevm]; [by apply sorted_filter | by apply Forall_kept].
  - destruct IH as [Hs He]. split; cbn [savevm_handlers global_section_id vmstate_unregister]; [by apply sorted_filter | by apply Forall_kept].
Qed.

(** C20: automatic registration gives every device a name of its own.  After any
    registrations with automatic instance numbers, and any removals, no two
    devices have the same name and number or the same section number, and a
    device is found under its name and number, as long as no device on a bus was
    once known by that name. *)
Theorem registered_found (r : Registry) :
  registered r ->
  NoDup (map (fun e => (e.(idstr), e.(instance_id))) r.(savevm_handlers)) /\
  NoDup (map section_id r.(savevm_handlers)) /\
  forall e, e ∈ r.(savevm_handlers) ->
    (forall e' c, e' ∈ r.(savevm_handlers) -> e'.(compat) = Some c -> c.(compat_idstr) <> e.(idstr)) ->
    find_se e.(idstr) e.(instance_id) r.(savevm_handlers) = Some e.
Proof.
  intros [Hs He]%registered_ok. split; [| split].
  - clear He. induction Hs as [| x hs Hs IH Hx]; cbn [map]; constructor; [| done].
    intros (y & Ey & Hy%list_elem_of_In)%list_elem_of_In%in_map_iff. rewrite Forall_forall in Hx. destruct (Hx y Hy) as [H1 _].
    injection Ey as E1 E2. specialize (H1 (eq_sym E1)). lia.
  - clear He. induction Hs as [| x hs Hs IH Hx]; cbn [map]; constructor; [| done].
    intros (y & Ey & Hy%list_elem_of_In)%list_elem_of_In%in_map_iff. rewrite Forall_forall in Hx. destruct (Hx y Hy) as [_ H2]. lia.
  - intros e Hin Hc. induction Hs as [| x hs Hs IH Hx]; [by apply not_elem_of_nil in Hin |]. cbn [find_se].
    apply Forall_cons in He as [(Hx0 & Hxa & _) He]. apply elem_of_cons in Hin as [-> | Hin].
    { unfold is_named. by rewrite bool_decide_eq_true_2, Z.eqb_refl. }
    assert (Hw : was_named e.(idstr) e.(instance_id) x = false).
    { unfold was_named. destruct (compat x) as [c |] eqn:Ec; [| apply andb_false_r].
      rewrite (bool_decide_eq_false_2 (compat_idstr c = idstr e)); [apply andb_false_r |].
      apply (Hc x c); [apply elem_of_cons; by left | done]. }
    rewrite Hw, orb_false_r. rewrite Forall_forall in Hx. destruct (Hx e Hin) as [Hlt _]. unfold is_named.
    destruct (bool_decide_reflect (x.(idstr) = e.(idstr))) as [Heq |]; cbn [andb].
    + specialize (Hlt Heq). rewrite !(proj2 (Z.eqb_neq _ _)) by lia. cbn. apply IH; [done | done |].
      intros e' c He' Ec'. apply (Hc e' c); [apply elem_of_cons; by right | done].
    + apply IH; [done | done |]. intros e' c He' Ec'. apply (Hc e' c); [apply elem_of_cons; by right | done].
Qed.

(** ** Whole machines *)

(** An entry with a description that can be saved and loaded (no hooks at all),
    not live, and found under its name *)
Record plain_entry (rounds : nat) (hs : list SaveStateEntry) (e : SaveStateEntry) : Prop := {
  pe_vmsd : exists p d, e.(vmsd) = Some (p, d) /\ hookless d = true /\ fits (nesting d) rounds d = true /\
    d.(version_id) = e.(se_version_id);
  pe_live : e.(save_live_state) = None;
  pe_params : e.(set_params) = None;
  pe_migrates : e.(no_migrate) = false;
  pe_version : 0 <= e.(se_version_id) < 2 ^ 31;
  pe_instance : 0 <= e.(instance_id) < 2 ^ 31;
  pe_length : Z.of_nat (length e.(idstr)) < 256;
  pe_string : c_string e.(idstr) = e.(idstr);
  pe_found : find_se e.(idstr) e.(instance_id) hs = Some e
}.

Definition section_head (type : Z) (e : SaveStateEntry) : list Z :=
  [type] ++ be_bytes 4 (wrap 32 e.(section_id)) ++ [Z.of_nat (length e.(idstr))] ++ e.(idstr) ++
  be_bytes 4 (wrap 32 e.(instance_id)) ++ be_bytes 4 (wrap 32 e.(se_version_id)).

(** What the machine's sections walk over, and the whole file *)
Fixpoint walk_sections (m : mem) (hs : list SaveStateEntry) : option (list (event (D := D))) :=
  match hs with
  | [] => Some [Mark [QEMU_VM_EOF]]
  | e :: hs =>
      d ← e.(vmsd);
      t1 ← walk m (nesting d.2) d.2 e.(se_opaque);
      t2 ← walk_sections m hs;
      Some (Mark (section_head QEMU_VM_SECTION_FULL e) :: t1 ++ t2)
  end.

Definition file_head : list Z := be_bytes 4 QEMU_VM_FILE_MAGIC ++ be_bytes 4 QEMU_VM_FILE_VERSION.

Section Media.
Context (put : list Z -> Z -> D -> Z * D) (get : Z -> Z -> D -> Z * list Z * D) (bytes : D -> list Z).
Context {sink : Sink put bytes} {source : Source get bytes}.

Local Tactic Notation "file_use" open_constr(H) := eapply (on_file_runs); [exact H | cbv beta].

Lemma put_section_saves m type e :
  in_u 8 type -> Z.of_nat (length e.(idstr)) < 256 -> saves put bytes (put_section type e) m [Mark (section_head type e)].
Proof.
  intros Ht Hlen _ out f Hw. rewrite trace_bytes_one. unfold put_section.
  sm_step. file_use (put_byte_runs put bytes _ _ _ Hw). intros _ f1 Hw1.
  sm_step. file_use (codec_put put get bytes (Codec := be32_codec put get bytes) _ _ _ Hw1). intros _ f2 Hw2.
  sm_step. file_use (put_byte_runs put bytes _ _ _ Hw2). intros _ f3 Hw3.
  sm_step. file_use (put_buffer_runs put bytes _ _ _ Hw3). intros _ f4 Hw4.
  sm_step. file_use (codec_put put get bytes (Codec := be32_codec put get bytes) _ _ _ Hw4). intros _ f5 Hw5.
  file_use (codec_put put get bytes (Codec := be32_codec put get bytes) _ _ _ Hw5). intros _ f6 Hw6.
  split; [done |]. rewrite (wrap_small 8 type), (wrap_small 8 (Z.of_nat _)) in Hw6 by first [done | split; [lia | cbn; lia]].
  cbn [event_bytes fst]. unfold section_head. rewrite <- !app_assoc in Hw6. exact Hw6.
Qed.

Lemma byte_saves m b : in_u 8 b -> saves put bytes (on_file (qemu_put_byte b)) m [Mark [b]].
Proof.
  intros Hb _ out f Hw. rewrite trace_bytes_one. file_use (put_byte_runs put bytes _ _ _ Hw). intros _ f1 Hw1.
  split; [done |]. by rewrite wrap_small in Hw1.
Qed.

Lemma full_saves rounds all hs m tr :
  Forall (plain_entry rounds all) hs -> walk_sections m hs = Some tr ->
  saves put bytes (save_full hs;; on_file (qemu_put_byte QEMU_VM_EOF)) m tr.
Proof.
  intros Hp. revert tr. induction Hp as [| e hs He Hp IH]; intros tr E; cbn [walk_sections save_full] in *.
  - injection E as <-. change [Mark [QEMU_VM_EOF]] with ([] ++ [Mark [QEMU_VM_EOF]] : list (event (D := D))).
    apply saves_seq; [apply saves_nil | by apply byte_saves].
  - destruct (pe_vmsd _ _ _ He) as (p & d & Hd & Hh & Hf & Hv). rewrite Hd in E. cbn [mbind option_bind] in E.
    apply bind_Some in E as (t1 & E1 & (t2 & E2 & E)%bind_Some). injection E as <-.
    rewrite bool_decide_eq_true_2 by (right; by rewrite Hd).
    intros Hs out f Hw.
    assert (Hall : saves put bytes ((put_section QEMU_VM_SECTION_FULL e;; vmstate_save e);; save_full hs;; on_file (qemu_put_byte QEMU_VM_EOF)) m
                     (([Mark (section_head QEMU_VM_SECTION_FULL e)] ++ t1) ++ t2)).
    { apply saves_seq; [| by apply IH]. apply saves_seq; [by apply put_section_saves, He |].
      unfold vmstate_save. rewrite Hd. by eapply save_follows. }
    destruct (Hall Hs out f Hw) as (u & s & Erun & HP). exists u, s. split; [| exact HP].
    revert Erun. unfold mbind, sm_bind. repeat case_match; try done; congruence.
Qed.

Lemma to_signed_small w z : 0 <= z < 2 ^ (w - 1) -> 0 < w -> to_signed w (wrap w z) = z.
Proof.
  intros Hz Hw. unfold to_signed. assert (2 ^ w = 2 * 2 ^ (w - 1)) by (rewrite <- Z.pow_succ_r by lia; f_equal; lia).
  rewrite (wrap_small w z), (wrap_small w z) by (split; lia). by rewrite (proj2 (Z.ltb_lt _ _)) by lia.
Qed.

(** Reading the head of a section finds its device. *)
Lemma load_start_runs rounds all e les rest f m' (Q : Z * list LoadStateEntry -> QEMUFile * mem -> Prop) :
  plain_entry rounds all e ->
  reading get bytes (drop 1 (section_head QEMU_VM_SECTION_FULL e) ++ rest) f ->
  (forall f' le, reading get bytes rest f' ->
     runs (vmstate_load rounds e e.(se_version_id)) (f', m') (fun r s => Q (r, le :: les) s)) ->
  runs (load_start rounds all les) (f, m') Q.
Proof.
  intros He Hr HQ. destruct He as [_ _ _ _ Hv Hi Hlen Hstr Hfound]. change (2 ^ 31) with (2 ^ (32 - 1)) in *.
  assert (Hw : forall z, in_u 32 (wrap 32 z)) by (intros z; by apply in_u_wrap).
  change (drop 1 (section_head QEMU_VM_SECTION_FULL e)) with (be_bytes 4 (wrap 32 e.(section_id)) ++ [Z.of_nat (length e.(idstr))] ++ e.(idstr) ++
    be_bytes 4 (wrap 32 e.(instance_id)) ++ be_bytes 4 (wrap 32 e.(se_version_id))) in Hr. rewrite <- !app_assoc in Hr.
  unfold load_start. sm_step. file_use (codec_get put get bytes (Codec := be32_codec put get bytes) _ _ _ (Hw _) Hr). intros v1 f1 [-> Hr1].
  sm_step. file_use (get_byte_runs get bytes _ _ _ Hr1). intros v2 f2 [-> Hr2]. sm_step.
  match type of Hr2 with reading _ _ (_ ++ ?x) _ => set (w := x) in Hr2 end.
  assert (Hle : Z.of_nat (length e.(idstr)) <= Z.of_nat (length (e.(idstr) ++ w))) by (rewrite length_app; lia).
  file_use (get_buffer_runs get bytes _ _ _ Hr2 Hle). intros l f3 [-> Hr3]. rewrite Nat2Z.id, take_app_length in *.
  rewrite drop_app_length in Hr3. sm_step. apply runs_assert; [by rewrite Z.eqb_refl |]. sm_step. unfold w in Hr3.
  file_use (codec_get put get bytes (Codec := be32_codec put get bytes) _ _ _ (Hw _) Hr3). intros v4 f4 [-> Hr4].
  sm_step. file_use (codec_get put get bytes (Codec := be32_codec put get bytes) _ _ _ (Hw _) Hr4). intros v5 f5 [-> Hr5].
  rewrite Hstr, (to_signed_small 32 e.(instance_id)), Hfound, Z.ltb_irrefl by lia. cbn zeta. cbn [le_se le_version_id].
  rewrite !(to_signed_small 32 e.(se_version_id)) by lia.
  sm_step. sm_use (HQ f5 (mkLoad e (to_signed 32 (wrap 32 e.(section_id))) e.(se_version_id)) Hr5). intros r s Hs. by sm_step.
Qed.

Lemma sections_loads rounds all hs fuel les m tr :
  Forall (plain_entry rounds all) hs -> (length hs < fuel)%nat -> walk_sections m hs = Some tr ->
  loads get bytes (load_sections rounds all fuel les) m tr.
Proof.
  intros Hp. revert fuel les tr. induction Hp as [| e hs He Hp IH]; intros fuel les tr Hfuel E; cbn [walk_sections length] in *;
    (destruct fuel as [| fuel]; [lia |]); cbn [load_sections].
  - injection E as <-. intros K m' after f Hag _ Hr. rewrite trace_bytes_one in Hr. cbn [event_bytes app] in Hr.
    sm_step. file_use (get_byte_runs get bytes _ _ _ Hr). intros v f1 [-> Hr1]. rewrite Z.eqb_refl. sm_step.
    split; [done |]. split; [done |]. apply moved_none. intros x. rewrite stored_cons. intros [[] | ?%stored_nil]; done.
  - destruct (pe_vmsd _ _ _ He) as (p & d & Hd & Hh & Hf & Hv). rewrite Hd in E. cbn [mbind option_bind] in E.
    apply bind_Some in E as (t1 & E1 & (t2 & E2 & E)%bind_Some). injection E as <-.
    assert (Hrest : forall les', loads get bytes (ret ← vmstate_load rounds e e.(se_version_id);
                      if ret <? 0 then mret ret else load_sections rounds all fuel les') m (t1 ++ t2)).
    { intros les'. apply loads_then; [| apply IH; [lia | done]]. unfold vmstate_load. rewrite Hd, <- Hv. by eapply load_follows. }
    intros K m' after f Hag [_ Hfol] Hr. set (head := section_head QEMU_VM_SECTION_FULL e) in *.
    change (trace_bytes m (Mark head :: t1 ++ t2)) with (QEMU_VM_SECTION_FULL :: drop 1 head ++ trace_bytes m (t1 ++ t2)) in Hr.
    rewrite <- app_comm_cons, <- app_assoc in Hr. sm_step. file_use (get_byte_runs get bytes _ _ _ Hr). intros v f1 [-> Hr1].
    change (QEMU_VM_SECTION_FULL =? QEMU_VM_EOF) with false. cbn iota.
    change ((QEMU_VM_SECTION_FULL =? QEMU_VM_SECTION_START) || (QEMU_VM_SECTION_FULL =? QEMU_VM_SECTION_FULL)) with true. cbn iota.
    assert (Hfol' : followed m K (t1 ++ t2) after) by (eapply followed_weaken; [| exact Hfol]; cbn; intros x [? | []]; done).
    sm_step. eapply (load_start_runs rounds all e les _ f1 m' _ He Hr1). intros f2 le Hr2.
    destruct (Hrest (le :: les) K m' after f2 Hag Hfol' Hr2) as (r & s & Erun & -> & Hr3 & Hm).
    unfold mbind, sm_bind in Erun. destruct (vmstate_load rounds e (se_version_id e) (f2, m')) as [[r1 s1] |] eqn:Eload; [| done].
    exists r1, s1. split; [done |]. cbv beta iota. exists 0, s. split; [exact Erun |]. split; [done |]. split; [done |].
    eapply moved_ext; [| exact Hm]. intros x. rewrite (stored_cons (Mark _)). cbn. tauto.
Qed.

(** Nothing is live. *)
Lemma no_params_runs rounds all hs b sh st : Forall (plain_entry rounds all) hs -> call_set_params b sh hs st = Some (tt, st).
Proof. induction 1 as [| e hs He _ IH]; [done |]. cbn [call_set_params]. rewrite (pe_params _ _ _ He). exact IH. Qed.

Lemma no_start_runs rounds all hs st : Forall (plain_entry rounds all) hs -> start_live hs st = Some (tt, st).
Proof. induction 1 as [| e hs He _ IH]; [done |]. cbn [start_live]. rewrite (pe_live _ _ _ He). exact IH. Qed.

Lemma no_parts_runs rounds all hs r st : Forall (plain_entry rounds all) hs -> save_parts r hs st = Some (r, st).
Proof. induction 1 as [| e hs He _ IH]; [done |]. cbn [save_parts]. by rewrite (pe_live _ _ _ He). Qed.

Lemma no_end_runs rounds all hs st : Forall (plain_entry rounds all) hs -> end_live hs st = Some (tt, st).
Proof. induction 1 as [| e hs He _ IH]; [done |]. cbn [end_live]. rewrite (pe_live _ _ _ He). exact IH. Qed.

Lemma not_blocked rounds all hs : Forall (plain_entry rounds all) hs -> qemu_savevm_state_blocked hs = false.
Proof. induction 1 as [| e hs He _ IH]; [done |]. cbn. by rewrite (pe_migrates _ _ _ He). Qed.

Lemma file_error_runs f (m : mem) b (Q : bool -> QEMUFile * mem -> Prop) :
  f.(has_error) = b -> Q b (f, m) -> runs file_error (f, m) Q.
Proof. intros <- HQ. unfold file_error. sm_step. sm_step. by sm_step. Qed.

(** The file of a machine *)
Lemma savevm_runs rounds hs running m tr f :
  Forall (plain_entry rounds hs) hs -> walk_sections m hs = Some tr -> savable m tr -> writing put bytes [] f ->
  runs (qemu_savevm_state 1 hs running) (f, m) (fun r s =>
    r = (0, running) /\ s.2 = m /\ writing put bytes (file_head ++ trace_bytes m tr) s.1).
Proof.
  intros Hp E Hs Hw. unfold qemu_savevm_state. sm_step. rewrite (not_blocked rounds hs hs Hp). sm_step.
  unfold qemu_savevm_state_begin. sm_step. exists tt, (f, m). split; [by eapply no_params_runs |].
  sm_step. file_use (codec_put put get bytes (Codec := be32_codec put get bytes) _ _ _ Hw). intros _ f1 Hw1.
  sm_step. file_use (codec_put put get bytes (Codec := be32_codec put get bytes) _ _ _ Hw1). intros _ f2 Hw2.
  sm_step. exists tt, (f2, m). split; [by eapply no_start_runs |].
  sm_step. apply (file_error_runs _ _ false); [exact (wr_error _ _ _ _ Hw2) |]. sm_step. cbn [Z.ltb Z.compare].
  sm_step. cbn [iterate_loop]. sm_step. unfold qemu_savevm_state_iterate. sm_step. exists 1, (f2, m).
  split; [by eapply no_parts_runs |]. cbn [c_true Z.eqb negb]. sm_step. cbn [Z.eqb]. sm_step. cbn [Z.ltb Z.compare].
  unfold qemu_savevm_state_complete. sm_step. exists tt, (f2, m). split; [by eapply no_end_runs |].
  destruct (full_saves rounds hs hs m tr Hp E Hs _ _ Hw2) as (u & [f3 m3] & Erun & Em & Hw3). cbn [fst snd] in *. subst m3.
  unfold mbind, sm_bind in Erun. destruct (save_full hs (f2, m)) as [[u1 s1] |] eqn:Efull; [| done].
  sm_step. exists u1, s1. split; [done |]. sm_step. exists u, (f3, m). split; [done |].
  sm_step. apply (file_error_runs _ _ false); [exact (wr_error _ _ _ _ Hw3) |]. sm_step.
  sm_step. apply (file_error_runs _ _ false); [exact (wr_error _ _ _ _ Hw3) |]. sm_step. done.
Qed.

Lemma loadvm_runs rounds hs fuel m m' K tr f :
  Forall (plain_entry rounds hs) hs -> (length hs < fuel)%nat -> walk_sections m hs = Some tr ->
  agree K m m' -> followed m K tr [] -> reading get bytes (file_head ++ trace_bytes m tr) f ->
  runs (qemu_loadvm_state fuel rounds hs) (f, m') (fun r s =>
    r = 0 /\ s.1.(has_error) = false /\ moved (stored tr) m m' s.2).
Proof.
  intros Hp Hfuel E Hag Hfol Hr. unfold qemu_loadvm_state. rewrite (not_blocked rounds hs hs Hp).
  unfold file_head in Hr. rewrite <- app_assoc in Hr.
  assert (H1 : in_u 32 QEMU_VM_FILE_MAGIC) by done. assert (H2 : in_u 32 QEMU_VM_FILE_VERSION) by done.
  sm_step. file_use (codec_get put get bytes (Codec := be32_codec put get bytes) _ _ _ H1 Hr). intros v1 f1 [-> Hr1].
  rewrite Z.eqb_refl. cbn [negb]. sm_step. file_use (codec_get put get bytes (Codec := be32_codec put get bytes) _ _ _ H2 Hr1). intros v2 f2 [-> Hr2].
  change (QEMU_VM_FILE_VERSION =? QEMU_VM_FILE_VERSION_COMPAT) with false. rewrite Z.eqb_refl. cbn [negb].
  rewrite <- (app_nil_r (trace_bytes m tr)) in Hr2.
  sm_step. sm_use (sections_loads rounds hs hs fuel [] m tr Hp Hfuel E K m' [] f2 Hag Hfol Hr2). intros r [f3 m3] (-> & Hr3 & Hm).
  cbn [fst snd] in *. sm_step. apply (file_error_runs _ _ false); [exact (rd_error _ _ _ _ Hr3) |]. sm_step.
  split; [done |]. split; [exact (rd_error _ _ _ _ Hr3) | exact Hm].
Qed.

(** C14: a saved machine is loaded back exactly.  For any number of registered
    devices with descriptions that fit, none of them live, each found under its
    name: saving the machine succeeds and changes nothing, and a machine with the
    same devices, whose memory has the same objects and agrees where a load looks
    before it has loaded, loads the file without an error.  Every byte of a
    described field of every device is then as it was saved, and no other byte of
    memory has changed. *)
Theorem machine_round_trip (hs : list SaveStateEntry) (rounds fuel : nat) (running : bool) (m m' : mem) (K : Z -> Prop)
    (tr : list event) (o : D) :
  bytes o = [] -> Forall (plain_entry rounds hs) hs -> (length hs < fuel)%nat ->
  walk_sections m hs = Some tr -> followed m K tr [] -> agree K m m' ->
  runs (qemu_savevm_state 1 hs running) (qemu_fopen_ops (Some put) None o, m) (fun r s =>
    r = (0, running) /\ s.2 = m /\
    runs (qemu_loadvm_state fuel rounds hs) (qemu_fopen_ops None (Some get) (qemu_fclose s.1), m') (fun r' s' =>
      r' = 0 /\ s'.1.(has_error) = false /\ moved (stored tr) m m' s'.2)).
Proof.
  intros Ho Hp Hfuel E Hfol Hag.
  sm_use (savevm_runs rounds hs running m tr _ Hp E (followed_savable _ _ _ _ Hfol) (open_writing put bytes o Ho)).
  intros r [f1 m1] (-> & E1 & Hw). cbn [fst snd] in *. subst m1. split; [done |]. split; [done |].
  pose proof (open_reading get bytes (qemu_fclose f1)) as Hr. rewrite (close_writes put bytes _ _ Hw) in Hr.
  by apply (loadvm_runs rounds hs fuel m m' K tr).
Qed.

(** What a file of the wrong kind does.  A stream that does not begin with the
    magic number is refused with EINVAL, one of another version with ENOTSUP, and
    a machine with a device that cannot be migrated refuses to load at all; the
    memory of the devices is untouched in each case. *)
Lemma loadvm_refuses (hs : list SaveStateEntry) (fuel rounds : nat) (m : mem) (magic version : Z) (rest : list Z) (f : QEMUFile) :
  in_u 32 magic -> in_u 32 version -> reading get bytes (be_bytes 4 magic ++ be_bytes 4 version ++ rest) f ->
  (existsb no_migrate hs = true -> qemu_loadvm_state fuel rounds hs (f, m) = Some (- EINVAL, (f, m))) /\
  (existsb no_migrate hs = false -> magic <> QEMU_VM_FILE_MAGIC \/ version <> QEMU_VM_FILE_VERSION ->
     runs (qemu_loadvm_state fuel rounds hs) (f, m) (fun r s =>
       r = (if decide (magic = QEMU_VM_FILE_MAGIC) then - ENOTSUP else - EINVAL) /\ s.2 = m)).
Proof.
  intros H1 H2 Hr. unfold qemu_loadvm_state, qemu_savevm_state_blocked. split; intros ->; [done |]. intros Hne.
  sm_step. file_use (codec_get put get bytes (Codec := be32_codec put get bytes) _ _ _ H1 Hr). intros v1 f1 [-> Hr1].
  destruct (Z.eqb_spec magic QEMU_VM_FILE_MAGIC) as [Heq | Hneq]; cbn [negb]; case_decide; try done; [| by sm_step].
  sm_step. file_use (codec_get put get bytes (Codec := be32_codec put get bytes) _ _ _ H2 Hr1). intros v2 f2 [-> Hr2].
  case_match; [by sm_step |]. destruct Hne as [Hne | Hne]; [done |]. rewrite (proj2 (Z.eqb_neq version _)) by done. cbn [negb]. by sm_step.
Qed.
End Media.
End SaveVm.

(** ** A machine *)

Abbreviation entry_f := (SaveStateEntry (D := list Z)).

(** A timer with a counter, two of them, and a device with an array *)
Definition counter : vmsd_f :=
  mkVmsd [99; 116; 114] 2 1 1 None None None None [plain 0 4 vmstate_info_uint32; plain 4 1 vmstate_info_bool] None.
Definition table : vmsd_f :=
  mkVmsd [116; 97; 98] 1 1 1 None None None None
    [mkField 0 2 0 3 0 0 vmstate_info_uint16 VMS_ARRAY None 0 None] None.

Definition no_devices : Registry (D := list Z) := mkRegistry [] 0.
Definition one_device := default no_devices (vmstate_register None (-1) (1, counter) 100 no_devices).
Definition two_devices := default no_devices (vmstate_register None (-1) (2, table) 200 one_device).
Definition machine := default no_devices (vmstate_register None (-1) (1, counter) 300 two_devices).

Definition devices : list entry_f := Eval vm_compute in machine.(savevm_handlers).
Definition second_counter : entry_f :=
  mkEntry [99; 116; 114] 1 (-1) 2 2 None None None None (Some (1, counter)) 300 None false.

Lemma registered_found_witness :
  machine.(savevm_handlers) = devices /\
  find_se [99; 116; 114] 1 machine.(savevm_handlers) = Some second_counter.
Proof.
  split; [vm_compute; reflexivity |].
  assert (Hr : registered machine).
  { apply (registered_vmstate None (1, counter) 300 two_devices); [| vm_compute; reflexivity].
    apply (registered_vmstate None (2, table) 200 one_device); [| vm_compute; reflexivity].
    apply (registered_vmstate None (1, counter) 100 no_devices); [constructor | vm_compute; reflexivity]. }
  destruct (registered_found machine Hr) as (_ & _ & H). apply (H second_counter).
  - vm_compute. right. right. left.
  - intros e' c He Hc. exfalso. change (savevm_handlers machine) with devices in He. revert Hc. unfold devices in He.
    repeat (apply elem_of_cons in He as [-> | He]; [discriminate |]). by apply not_elem_of_nil in He.
Defined.

(** *** The machine saved and loaded *)

Definition machine_source : gmap Z Z :=
  cells 100 [1; 2; 3; 4; 1] ∪ cells 200 [5; 6; 7; 8; 9; 10] ∪ cells 300 [11; 12; 13; 14; 0].
Definition machine_dest : gmap Z Z :=
  cells 100 [0; 0; 0; 0; 0] ∪ cells 200 [0; 0; 0; 0; 0; 0] ∪ cells 300 [0; 0; 0; 0; 1].

Definition machine_trace : list (event (D := list Z)) :=
  Eval vm_compute in default [] (walk_sections machine_source devices).

Lemma devices_plain : Forall (plain_entry 1 devices) devices.
Proof.
  unfold devices at 2. repeat (apply Forall_cons; split; [split; try (vm_compute; done); eexists _, _; vm_compute; done |]). constructor.
Qed.

Lemma machine_round_trip_witness :
  runs (qemu_savevm_state 1 devices true) (qemu_fopen_ops (Some (file_put_buffer None)) None [], machine_source) (fun r s =>
    r = (0, true) /\ s.2 = machine_source /\
    runs (qemu_loadvm_state 4 1 devices) (qemu_fopen_ops None (Some file_get_buffer) (qemu_fclose s.1), machine_dest) (fun r' s' =>
      r' = 0 /\ s'.1.(has_error) = false /\ moved (stored machine_trace) machine_source machine_dest s'.2)).
Proof.
  apply (machine_round_trip (file_put_buffer None) file_get_buffer id devices 1 4 true machine_source machine_dest
    (fun x => 0 <= x < 0 + Z.of_nat 0) machine_trace []);
    [reflexivity | exact devices_plain | cbn; lia | vm_compute; reflexivity | |].
  - unfold machine_trace. cbn [followed event_ok]. repeat split; try (intros; discriminate); try (eexists; vm_compute; reflexivity).
  - apply (agree_range _ _ 0 0); [apply (bool_decide_unpack _); vm_compute; exact I | vm_compute; reflexivity].
Defined.

(** ** Where the code falls short *)

(** A device registered with functions of its own has the alias number 0.  With
    numbers chosen by the devices, one that comes first takes the section of
    number 0. *)
Definition old_style (instance opaque : Z) (r : Registry) : Registry :=
  default no_devices (register_savevm None [120] instance 1 None None opaque r).

Lemma alias_takes_section :
  let r := old_style 0 7 (old_style 1 8 no_devices) in
  (fun e => e.(se_opaque)) <$> find_se [120] 0 r.(savevm_handlers) = Some 8.
Proof. by vm_compute. Qed.
