(* ===== verification/Async.v ===== *)
(** * Bottom halves and asynchronous contexts (qemu/async.c)

    A bottom half is work that the main loop runs as soon as it can.  Bottom
    halves live in a heap indexed by their addresses; those of a context are a
    singly linked list through their [next] fields, newest first, and the
    contexts are a stack.  What a callback does is a parameter: a function on the
    whole state, which may create, schedule, cancel and delete bottom halves, or
    poll again.

    [None] is undefined behaviour (a freed bottom half is used), [abort], a
    failure of a callback, or fuel that ran out; following a list has as much
    fuel as there are bottom halves, and the flush of a context a number of
    rounds that is given.

    Theorems: polling gives every bottom half of the list one turn, in order,
    whatever the callbacks create, schedule, cancel or delete meanwhile; it frees
    exactly the deleted ones and follows no dangling pointer; a context that is
    left has run its work and its parent is as it was. *)

From Stdlib Require Import ZArith Lia.
From stdpp Require Import base option numbers fin_maps gmap fin_sets list.
From S2P Require Import Prelude Stm.

Local Open Scope Z_scope.

(** What a bottom half runs: a function of a device with its argument, or the
    completions queued while a context was active, with its own address *)
Inductive bh_fun := BH_user (f opaque : Z) | bh_run_aio_completions (bh : nat).

(** [struct QEMUBH] *)
Record QEMUBH := mkBH {
  cb : bh_fun;
  scheduled : bool;
  idle : bool;
  deleted : bool;
  next : option nat
}.

Definition set_scheduled (v : bool) (b : QEMUBH) : QEMUBH := mkBH b.(cb) v b.(idle) b.(deleted) b.(next).
Definition set_idle (v : bool) (b : QEMUBH) : QEMUBH := mkBH b.(cb) b.(scheduled) v b.(deleted) b.(next).
Definition set_deleted (v : bool) (b : QEMUBH) : QEMUBH := mkBH b.(cb) b.(scheduled) b.(idle) v b.(next).
Definition set_next (v : option nat) (b : QEMUBH) : QEMUBH := mkBH b.(cb) b.(scheduled) b.(idle) b.(deleted) v.

(** [struct AsyncContext]; the parent is the rest of the stack. *)
Record AsyncContext := mkContext { id : Z; first_bh : option nat }.

(** The bottom halves, the active context with the ones below it, and how often
    the processor was told to stop *)
Record async := mkAsync {
  heap : gmap nat QEMUBH;
  async_context : AsyncContext;
  parents : list AsyncContext;
  notified : nat
}.

Definition set_heap (h : gmap nat QEMUBH) (s : async) : async := mkAsync h s.(async_context) s.(parents) s.(notified).
Definition set_first (b : option nat) (s : async) : async :=
  mkAsync s.(heap) (mkContext s.(async_context).(id) b) s.(parents) s.(notified).

Abbreviation A X := (SM async X).

Definition deref (b : nat) : A QEMUBH := fun s => match s.(heap) !! b with Some o => Some (o, s) | None => None end.
Definition update (b : nat) (g : QEMUBH -> QEMUBH) : A unit :=
  o ← deref b; sm_modify (fun s => set_heap (<[b := g o]> s.(heap)) s).

Definition qemu_bh_new (f : bh_fun) : A nat := fun s =>
  let b := fresh (dom s.(heap)) in
  Some (b, set_first (Some b) (set_heap (<[b := mkBH f false false false s.(async_context).(first_bh)]> s.(heap)) s)).

Definition qemu_bh_schedule_idle (b : nat) : A unit :=
  o ← deref b;
  if o.(scheduled) then mret tt else update b (fun o => set_idle true (set_scheduled true o)).

Definition qemu_notify_event : A unit := sm_modify (fun s => mkAsync s.(heap) s.(async_context) s.(parents) (S s.(notified))).

Definition qemu_bh_schedule (b : nat) : A unit :=
  o ← deref b;
  if o.(scheduled) then mret tt
  else update b (fun o => set_idle false (set_scheduled true o));; qemu_notify_event.

Definition qemu_bh_cancel (b : nat) : A unit := update b (set_scheduled false).
Definition qemu_bh_delete (b : nat) : A unit := update b (fun o => set_deleted true (set_scheduled false o)).

(** [*bhp] and [*bhp = v]; [bhp] is [None] for [&async_context->first_bh] and
    [Some b] for [&b->next] *)
Definition load_link (bhp : option nat) : A (option nat) :=
  match bhp with
  | None => sm_get (fun s => s.(async_context).(first_bh))
  | Some b => o ← deref b; mret o.(next)
  end.
Definition store_link (bhp v : option nat) : A unit :=
  match bhp with
  | None => sm_modify (set_first v)
  | Some b => update b (set_next v)
  end.

Definition loop_fuel (s : async) : nat := S (size s.(heap)).

(** Deleted bottom halves are unlinked and freed. *)
Fixpoint remove_deleted (fuel : nat) (bhp : option nat) : A unit :=
  match fuel with
  | O => sm_fail
  | S fuel =>
      bh ← load_link bhp;
      match bh with
      | None => mret tt
      | Some b =>
          o ← deref b;
          if o.(deleted) then
            store_link bhp o.(next);;
            sm_modify (fun s => set_heap (delete b s.(heap)) s);;
            remove_deleted fuel bhp
          else remove_deleted fuel (Some b)
      end
  end.

Section callbacks.
Context (user : Z -> Z -> A unit) (qemu_aio_process_queue : A unit).

Definition call (f : bh_fun) : A unit :=
  match f with
  | BH_user f opaque => user f opaque
  | bh_run_aio_completions b => qemu_bh_delete b;; qemu_aio_process_queue
  end.

(** One step of the loop over a list *)
Definition turn (b : nat) (ret : bool) : A bool :=
  o ← deref b;
  if negb o.(deleted) && o.(scheduled) then
    update b (set_scheduled false);;
    update b (set_idle false);;
    call o.(cb);;
    mret (if o.(idle) then ret else true)
  else mret ret.

Fixpoint poll_loop (fuel : nat) (bh : option nat) (ret : bool) : A bool :=
  match bh with
  | None => mret ret
  | Some b =>
      match fuel with
      | O => sm_fail
      | S fuel =>
          o ← deref b;
          ret ← turn b ret;
          poll_loop fuel o.(next) ret
      end
  end.

Definition qemu_bh_poll : A bool :=
  s ← sm_get (fun s => s);
  ret ← poll_loop (loop_fuel s) s.(async_context).(first_bh) false;
  s ← sm_get (fun s => s);
  remove_deleted (loop_fuel s) None;;
  mret ret.

Definition async_context_push : A unit :=
  sm_modify (fun s => mkAsync s.(heap) (mkContext (s.(async_context).(id) + 1) None) (s.(async_context) :: s.(parents)) s.(notified)).

(** [while (qemu_bh_poll());] *)
Fixpoint flush_loop (rounds : nat) : A unit :=
  match rounds with
  | O => sm_fail
  | S rounds => more ← qemu_bh_poll; if more : bool then flush_loop rounds else mret tt
  end.

(** Switching back to the parent; there has to be one. *)
Definition leave_context : A unit := fun s =>
  match s.(parents) with
  | [] => None
  | c :: parents => Some (tt, mkAsync s.(heap) c parents s.(notified))
  end.

(** The bottom half gets its own address as argument. *)
Definition async_context_pop (rounds : nat) : A unit :=
  flush_loop rounds;;
  leave_context;;
  b ← qemu_bh_new (BH_user 0 0);
  update b (fun o => mkBH (bh_run_aio_completions b) o.(scheduled) o.(idle) o.(deleted) o.(next));;
  qemu_bh_schedule b.
End callbacks.

Definition get_async_context_id (s : async) : Z := s.(async_context).(id).

Fixpoint timeout_loop (fuel : nat) (bh : option nat) (timeout : Z) : A Z :=
  match bh with
  | None => mret timeout
  | Some b =>
      match fuel with
      | O => sm_fail
      | S fuel =>
          o ← deref b;
          if negb o.(deleted) && o.(scheduled) then
            if o.(idle) then timeout_loop fuel o.(next) (Z.min 10 timeout) else mret 0
          else timeout_loop fuel o.(next) timeout
      end
  end.

Definition qemu_bh_update_timeout (timeout : Z) : A Z :=
  s ← sm_get (fun s => s);
  timeout_loop (loop_fuel s) s.(async_context).(first_bh) timeout.

(** ** Lists *)

(** From the link [p] through [l] to the link [q] *)
Fixpoint seg (h : gmap nat QEMUBH) (p : option nat) (l : list nat) (q : option nat) : Prop :=
  match l with
  | [] => p = q
  | b :: l => p = Some b /\ exists o, h !! b = Some o /\ seg h o.(next) l q
  end.

Lemma bh_seg_app h p l1 l2 q : seg h p (l1 ++ l2) q <-> exists r, seg h p l1 r /\ seg h r l2 q.
Proof.
  revert p. induction l1 as [| b l1 IH]; intros p; cbn [app seg].
  - split; [by exists p | by intros (r & -> & H)].
  - split.
    + intros (-> & o & Ho & (r & H1 & H2)%IH). exists r. split; [| done]. split; [done |]. by exists o.
    + intros (r & (-> & o & Ho & H1) & H2). split; [done |]. exists o. split; [done |]. apply IH. by exists r.
Qed.

(** Only the links matter. *)
Lemma seg_links h h' p l q :
  (forall b, b ∈ l -> next <$> h' !! b = next <$> h !! b) -> seg h p l q -> seg h' p l q.
Proof.
  revert p. induction l as [| b l IH]; intros p Hl; cbn [seg]; [done |]. intros (-> & o & Ho & Hs).
  split; [done |]. pose proof (Hl b ltac:(left)) as Hb. rewrite Ho in Hb. destruct (h' !! b) as [o' |] eqn:E; [| done].
  cbn in Hb. injection Hb as Hb. exists o'. split; [done |]. rewrite Hb. apply IH; [| done]. intros x Hx. apply Hl. by right.
Qed.

Lemma seg_dom h p l q b : seg h p l q -> b ∈ l -> is_Some (h !! b).
Proof.
  revert p. induction l as [| c l IH]; intros p; cbn [seg]; [by intros _ ?%not_elem_of_nil |].
  intros (-> & o & Ho & Hs) [-> | Hb]%elem_of_cons; [by rewrite Ho | by apply (IH o.(next))].
Qed.

Lemma bh_seg_length h p l q : seg h p l q -> NoDup l -> (length l <= size h)%nat.
Proof.
  intros Hs Hnd. assert (Hsub : (list_to_set l : gset nat) ⊆ dom h).
  { intros b Hb%elem_of_list_to_set. apply elem_of_dom. by apply (seg_dom h p l q). }
  apply subseteq_size in Hsub. rewrite size_list_to_set in Hsub by done. by rewrite size_dom in Hsub.
Qed.

(** A state whose active list is [l]; completions carry their own address. *)
Record holds (s : async) (l : list nat) : Prop := {
  h_list : seg s.(heap) s.(async_context).(first_bh) l None;
  h_nodup : NoDup l;
  h_self : forall b o b', s.(heap) !! b = Some o -> o.(cb) = bh_run_aio_completions b' -> b' = b
}.

(** *** What callbacks may do *)

Inductive moves : async -> async -> Prop :=
  | moves_refl s : moves s s
  | moves_new s s1 s2 f x b : moves s s1 -> qemu_bh_new (BH_user f x) s1 = Some (b, s2) -> moves s s2
  | moves_schedule s s1 s2 b : moves s s1 -> qemu_bh_schedule b s1 = Some (tt, s2) -> moves s s2
  | moves_schedule_idle s s1 s2 b : moves s s1 -> qemu_bh_schedule_idle b s1 = Some (tt, s2) -> moves s s2
  | moves_cancel s s1 s2 b : moves s s1 -> qemu_bh_cancel b s1 = Some (tt, s2) -> moves s s2
  | moves_delete s s1 s2 b : moves s s1 -> qemu_bh_delete b s1 = Some (tt, s2) -> moves s s2.

(** Old bottom halves keep their place and stay deleted if they are, new ones are
    in front, and the contexts do not change. *)
Record extends (s s' : async) : Prop := {
  e_old : forall b o, s.(heap) !! b = Some o -> exists o', s'.(heap) !! b = Some o' /\
    o'.(next) = o.(next) /\ o'.(cb) = o.(cb) /\ (o.(deleted) = true -> o'.(deleted) = true);
  e_id : s'.(async_context).(id) = s.(async_context).(id);
  e_parents : s'.(parents) = s.(parents);
  e_new : forall l, holds s l -> exists news, holds s' (news ++ l) /\ (forall b, b ∈ news -> s.(heap) !! b = None)
}.

Lemma extends_refl s : extends s s.
Proof. split; try done; [by eauto |]. intros l Hl. exists []. split; [done |]. by intros b ?%not_elem_of_nil. Qed.

Lemma extends_trans s1 s2 s3 : extends s1 s2 -> extends s2 s3 -> extends s1 s3.
Proof.
  intros [A1 A2 A3 A4] [B1 B2 B3 B4]. split; [| congruence | congruence |].
  - intros b o Ho. destruct (A1 b o Ho) as (o' & Ho' & ? & ? & ?). destruct (B1 b o' Ho') as (o'' & ? & ? & ? & ?).
    exists o''. repeat split; [done | congruence | congruence | auto].
  - intros l Hl. destruct (A4 l Hl) as (n1 & Hn1 & Hf1). destruct (B4 _ Hn1) as (n2 & Hn2 & Hf2).
    exists (n2 ++ n1). rewrite <- app_assoc. split; [done |]. intros b [Hb | Hb]%elem_of_app; [| auto].
    specialize (Hf2 b Hb). destruct (s1.(heap) !! b) as [o |] eqn:E; [| done]. destruct (A1 b o E) as (o' & Ho' & _). congruence.
Qed.

(** A change of the flags of one bottom half *)
Lemma extends_update s b o g :
  s.(heap) !! b = Some o -> (g o).(next) = o.(next) -> (g o).(cb) = o.(cb) -> (o.(deleted) = true -> (g o).(deleted) = true) ->
  extends s (set_heap (<[b := g o]> s.(heap)) s).
Proof.
  intros Ho Hn Hc Hd. split; cbn [heap set_heap async_context parents]; [| done | done |].
  - intros b' o' Ho'. destruct (decide (b' = b)) as [-> | Hne].
    + rewrite lookup_insert_eq. exists (g o). assert (o' = o) as -> by congruence. done.
    + rewrite lookup_insert_ne by done. by exists o'.
  - intros l [Hl Hnd Hself]. exists []. split; [| by intros x ?%not_elem_of_nil]. split; [| done |].
    + eapply seg_links; [| exact Hl]. intros x _. cbn [heap set_heap]. destruct (decide (x = b)) as [-> | Hne].
      * rewrite lookup_insert_eq, Ho. cbn. by rewrite Hn.
      * by rewrite lookup_insert_ne.
    + intros x ox b' Hx. cbn [heap set_heap] in Hx. destruct (decide (x = b)) as [-> | Hne].
      * rewrite lookup_insert_eq in Hx. injection Hx as <-. rewrite Hc. by apply Hself.
      * rewrite lookup_insert_ne in Hx by done. by apply Hself.
Qed.

Lemma extends_notify s k : extends s (mkAsync s.(heap) s.(async_context) s.(parents) k).
Proof.
  split; cbn [heap async_context parents]; [by eauto | done | done |]. intros l [H1 H2 H3]. exists [].
  split; [by split | by intros b ?%not_elem_of_nil].
Qed.

Lemma extends_new s f x b s' : qemu_bh_new (BH_user f x) s = Some (b, s') -> extends s s'.
Proof.
  unfold qemu_bh_new. intros E. injection E as <- <-. set (b := fresh (dom s.(heap))).
  assert (Hb : s.(heap) !! b = None) by (apply not_elem_of_dom, is_fresh).
  split; cbn [heap set_heap set_first async_context parents id first_bh]; [| done | done |].
  - intros b' o Ho. exists o. rewrite lookup_insert_ne by congruence. done.
  - intros l [Hl Hnd Hself]. exists [b]. split; [| by intros b' ->%list_elem_of_singleton]. cbn [app]. split.
    + cbn [heap set_heap set_first async_context first_bh]. cbn [seg]. split; [done |]. rewrite lookup_insert_eq. eexists. split; [done |]. cbn [next].
      eapply seg_links; [| exact Hl]. intros y Hy. rewrite lookup_insert_ne; [done |].
      intros <-. destruct (seg_dom _ _ _ _ _ Hl Hy) as [? ?]. congruence.
    + constructor; [| done]. intros Hy. destruct (seg_dom _ _ _ _ _ Hl Hy) as [? ?]. congruence.
    + intros y oy b' Hy. cbn [heap set_heap set_first] in Hy. destruct (decide (y = b)) as [-> | Hne].
      * rewrite lookup_insert_eq in Hy. injection Hy as <-. done.
      * rewrite lookup_insert_ne in Hy by done. by apply Hself.
Qed.

Lemma update_inv b g s s' :
  update b g s = Some (tt, s') -> exists o, s.(heap) !! b = Some o /\ s' = set_heap (<[b := g o]> s.(heap)) s.
Proof.
  unfold update, deref, mbind, sm_bind, sm_modify. destruct (s.(heap) !! b) as [o |]; [| done]. intros E. injection E as <-. by exists o.
Qed.

Lemma update_some b g s o : s.(heap) !! b = Some o -> update b g s = Some (tt, set_heap (<[b := g o]> s.(heap)) s).
Proof. intros Ho. unfold update, deref, mbind, sm_bind, sm_modify. by rewrite Ho. Qed.

Lemma deref_bind {X} b (k : QEMUBH -> A X) s o : s.(heap) !! b = Some o -> (deref b ≫= k) s = k o s.
Proof. intros Ho. unfold deref, mbind, sm_bind. by rewrite Ho. Qed.

Lemma moves_extends s s' : moves s s' -> extends s s'.
Proof.
  induction 1 as [s | s s1 s2 f x b _ IH E | s s1 s2 b _ IH E | s s1 s2 b _ IH E | s s1 s2 b _ IH E | s s1 s2 b _ IH E];
    [apply extends_refl | | | | |]; (eapply extends_trans; [exact IH |]).
  - by eapply extends_new.
  - unfold qemu_bh_schedule in E. destruct (s1.(heap) !! b) as [o |] eqn:Ho;
      [| unfold deref, mbind, sm_bind in E; by rewrite Ho in E].
    rewrite (deref_bind _ _ _ _ Ho) in E. case_match; [injection E as <-; apply extends_refl |].
    unfold mbind, sm_bind in E. rewrite (update_some _ _ _ _ Ho) in E.
    set (s3 := set_heap _ s1) in E. injection E as <-.
    apply (extends_trans _ s3); [by apply (extends_update s1 b o (fun o => set_idle false (set_scheduled true o))) |].
    exact (extends_notify s3 (S s3.(notified))).
  - unfold qemu_bh_schedule_idle in E. destruct (s1.(heap) !! b) as [o |] eqn:Ho;
      [| unfold deref, mbind, sm_bind in E; by rewrite Ho in E].
    rewrite (deref_bind _ _ _ _ Ho) in E. case_match; [injection E as <-; apply extends_refl |].
    rewrite (update_some _ _ _ _ Ho) in E. injection E as <-.
    by apply (extends_update s1 b o (fun o => set_idle true (set_scheduled true o))).
  - apply update_inv in E as (o & Ho & ->). by apply (extends_update s1 b o (set_scheduled false)).
  - apply update_inv in E as (o & Ho & ->). by apply (extends_update s1 b o (fun o => set_deleted true (set_scheduled false o))).
Qed.

(** ** Polling *)

Section poll.
Context (user : Z -> Z -> A unit) (qemu_aio_process_queue : A unit).

(** Callbacks return, and only create, schedule, cancel and delete. *)
Class Tame := {
  tame_user : forall f x s l, holds s l -> runs (user f x) s (fun _ s' => moves s s');
  tame_queue : forall s l, holds s l -> runs qemu_aio_process_queue s (fun _ s' => moves s s')
}.
Context {tame : Tame}.

(** The turns of a fixed list of bottom halves *)
Fixpoint run_turns (l : list nat) (ret : bool) : A bool :=
  match l with
  | [] => mret ret
  | b :: l => ret ← turn user qemu_aio_process_queue b ret; run_turns l ret
  end.

Lemma call_extends f s l :
  holds s l -> (forall b, f = bh_run_aio_completions b -> is_Some (s.(heap) !! b)) ->
  runs (call user qemu_aio_process_queue f) s (fun _ s' => extends s s').
Proof.
  intros Hl Hf. destruct f as [f x | b]; cbn [call].
  - sm_use (tame_user f x s l Hl). intros _ s'. apply moves_extends.
  - destruct (Hf b eq_refl) as [o Ho]. sm_step. eexists tt, _. split; [by apply update_some |].
    assert (He : extends s (set_heap (<[b := set_deleted true (set_scheduled false o)]> s.(heap)) s))
      by (by apply (extends_update s b o (fun o => set_deleted true (set_scheduled false o)))).
    destruct (e_new _ _ He l Hl) as (news & Hnew & _). sm_use (tame_queue _ (news ++ l) Hnew).
    intros _ s' Hs'. eapply extends_trans; [exact He | by apply moves_extends].
Qed.

(** A turn runs the callback if it is due, and clears it first. *)
Lemma turn_extends b ret s l o :
  holds s l -> s.(heap) !! b = Some o ->
  runs (turn user qemu_aio_process_queue b ret) s (fun _ s' => extends s s').
Proof.
  intros Hl Ho. unfold turn. sm_step. exists o, s. split; [unfold deref; by rewrite Ho |].
  case_match eqn:Hdue; [| sm_step; apply extends_refl].
  set (s1 := set_heap (<[b := set_scheduled false o]> s.(heap)) s).
  assert (E1 : extends s s1) by (by apply (extends_update s b o (set_scheduled false))).
  set (o1 := set_scheduled false o). assert (Ho1 : s1.(heap) !! b = Some o1) by apply lookup_insert_eq.
  set (s2 := set_heap (<[b := set_idle false o1]> s1.(heap)) s1).
  assert (E2 : extends s s2) by (eapply extends_trans; [exact E1 | by apply (extends_update s1 b o1 (set_idle false))]).
  sm_step. exists tt, s1. split; [by apply update_some |]. sm_step. exists tt, s2. split; [by apply update_some |].
  destruct (e_new _ _ E2 l Hl) as (news & Hnew & _). sm_step.
  assert (Hcb : forall b', o.(cb) = bh_run_aio_completions b' -> is_Some (s2.(heap) !! b')).
  { intros b' Hcb. rewrite (h_self _ _ Hl b o b' Ho Hcb). eexists. apply lookup_insert_eq. }
  sm_use (call_extends o.(cb) s2 (news ++ l) Hnew Hcb). intros _ s3 E3. sm_step. by eapply extends_trans.
Qed.

Lemma poll_loop_turns fuel l : forall bh ret s L,
  (length l <= fuel)%nat -> holds s L -> seg s.(heap) bh l None ->
  runs (poll_loop user qemu_aio_process_queue fuel bh ret) s (fun r s' =>
    run_turns l ret s = Some (r, s') /\ extends s s').
Proof.
  revert fuel. induction l as [| b l IH]; intros fuel bh ret s L Hfuel HL Hs; cbn [seg] in Hs.
  - subst bh. destruct fuel; cbn [poll_loop run_turns]; sm_step; (split; [done | apply extends_refl]).
  - destruct Hs as (-> & o & Ho & Hs). destruct fuel as [| fuel]; [cbn in Hfuel; lia |]. cbn [poll_loop].
    sm_step. exists o, s. split; [unfold deref; by rewrite Ho |]. sm_step.
    destruct (turn_extends b ret s L o HL Ho) as (r1 & s1 & E1 & X1). exists r1, s1. split; [done |].
    destruct (e_new _ _ X1 L HL) as (news & Hnew & _).
    assert (Hs1 : seg s1.(heap) o.(next) l None).
    { eapply seg_links; [| exact Hs]. intros c Hc. destruct (seg_dom _ _ _ _ _ Hs Hc) as [oc Hoc].
      destruct (e_old _ _ X1 c oc Hoc) as (oc' & Hoc' & Hn & _). rewrite Hoc, Hoc'. cbn. by rewrite Hn. }
    sm_use (IH fuel o.(next) r1 s1 (news ++ L) ltac:(cbn in Hfuel; lia) Hnew Hs1).
    intros r s2 [E2 X2]. split; [| by eapply extends_trans]. cbn [run_turns]. unfold mbind, sm_bind. by rewrite E1.
Qed.
End poll.

(** ** Removing *)

Definition flags (o : QEMUBH) : bh_fun * bool * bool * bool := (o.(cb), o.(scheduled), o.(idle), o.(deleted)).

Definition dead (s : async) (b : nat) : bool := from_option deleted false (s.(heap) !! b).

(** The link at the end of [pre], and changing it *)
Lemma load_link_last s pre r :
  seg s.(heap) s.(async_context).(first_bh) pre r -> load_link (last pre) s = Some (r, s).
Proof.
  destruct pre as [| b pre _] using rev_ind; intros Hs; [cbn in *; by subst r |].
  rewrite last_snoc. apply bh_seg_app in Hs as (q & _ & (-> & o & Ho & Hr)). cbn in Hr. cbn [load_link].
  rewrite (deref_bind _ _ _ _ Ho). by rewrite Hr.
Qed.

Lemma store_link_last s pre r v :
  seg s.(heap) s.(async_context).(first_bh) pre r -> NoDup pre ->
  exists s', store_link (last pre) v s = Some (tt, s') /\
    seg s'.(heap) s'.(async_context).(first_bh) pre v /\
    (forall b, b ∉ pre -> s'.(heap) !! b = s.(heap) !! b) /\
    (forall b, flags <$> s'.(heap) !! b = flags <$> s.(heap) !! b) /\
    s'.(async_context).(id) = s.(async_context).(id) /\ s'.(parents) = s.(parents) /\ s'.(notified) = s.(notified).
Proof.
  destruct pre as [| b pre _] using rev_ind; intros Hs Hnd.
  - exists (set_first v s). by repeat split.
  - rewrite last_snoc. cbn [store_link]. apply bh_seg_app in Hs as (q & Hpre & (-> & o & Ho & Hr)). cbn in Hr.
    apply NoDup_app in Hnd as (Hnd & Hdis & _). exists (set_heap (<[b := set_next v o]> s.(heap)) s).
    split; [by apply update_some |]. cbn [heap set_heap async_context id first_bh parents notified]. split; [| split; [| split; [| done]]].
    + apply bh_seg_app. exists (Some b). split; [| cbn; rewrite lookup_insert_eq; by eauto].
      eapply seg_links; [| exact Hpre]. intros c Hc. rewrite lookup_insert_ne; [done |]. intros <-.
      apply (Hdis b Hc). by left.
    + intros c Hc. rewrite lookup_insert_ne; [done |]. intros <-. apply Hc, elem_of_app. right. by left.
    + intros c. destruct (decide (c = b)) as [-> | Hne]; [rewrite lookup_insert_eq, Ho; done | by rewrite lookup_insert_ne].
Qed.

(** The state after a removal: the dead of [post] are gone, the others as before *)
Record removed (s s' : async) (post : list nat) : Prop := {
  r_gone : forall b, b ∈ post -> dead s b = true -> s'.(heap) !! b = None;
  r_kept : forall b, ~ (b ∈ post /\ dead s b = true) -> flags <$> s'.(heap) !! b = flags <$> s.(heap) !! b;
  r_id : s'.(async_context).(id) = s.(async_context).(id);
  r_parents : s'.(parents) = s.(parents);
  r_notified : s'.(notified) = s.(notified)
}.

Lemma dead_flags s s' b : flags <$> s'.(heap) !! b = flags <$> s.(heap) !! b -> dead s' b = dead s b.
Proof.
  unfold dead. destruct (s'.(heap) !! b) as [[] |], (s.(heap) !! b) as [[] |]; cbn; try done. intros E. by injection E.
Qed.

Lemma remove_spec fuel post : forall pre s,
  (length post < fuel)%nat -> holds s (pre ++ post) ->
  runs (remove_deleted fuel (last pre)) s (fun _ s' =>
    holds s' (pre ++ filter (fun b => dead s b = false) post) /\ removed s s' post /\
    (forall b, b ∉ pre ++ post -> s'.(heap) !! b = s.(heap) !! b)).
Proof.
  revert fuel. induction post as [| b post IH]; intros fuel pre s Hfuel [Hl Hnd Hself];
    (destruct fuel as [| fuel]; [lia |]); cbn [remove_deleted]; apply bh_seg_app in Hl as Hl'; destruct Hl' as (r & Hpre & Hpost).
  - cbn in Hpost. subst r. sm_step. exists None, s. split; [by apply load_link_last |]. sm_step. split; [by split |].
    split; [| done]. by split; try done; intros b ?%not_elem_of_nil.
  - destruct Hpost as (-> & o & Ho & Hpost). sm_step. exists (Some b), s. split; [by apply load_link_last |].
    sm_step. exists o, s. split; [unfold deref; by rewrite Ho |].
    assert (Hdead : dead s b = o.(deleted)) by (unfold dead; by rewrite Ho).
    apply NoDup_app in Hnd as Hnd'. destruct Hnd' as (Hnd1 & Hdis & [Hb Hnd2]%NoDup_cons). rewrite filter_cons, Hdead.
    destruct o.(deleted) eqn:Hdel; [rewrite decide_False by done | rewrite decide_True by done].
    + destruct (store_link_last s pre (Some b) o.(next) Hpre Hnd1) as (s1 & E1 & Hpre1 & Hsame & Hfl & Hid & Hpar & Hnot).
      sm_step. exists tt, s1. split; [done |]. sm_step. sm_step.
      set (s2 := set_heap (delete b s1.(heap)) s1).
      assert (Hbpre : b ∉ pre) by (intros Hx; apply (Hdis b Hx); by left).
      assert (Hh2 : holds s2 (pre ++ post)).
      { split.
        - apply bh_seg_app. exists o.(next). split.
          + eapply seg_links; [| exact Hpre1]. intros c Hc. cbn. rewrite lookup_delete_ne; [done |]. by intros ->.
          + eapply seg_links; [| exact Hpost]. intros c Hc. cbn. rewrite lookup_delete_ne by (by intros ->).
            rewrite Hsame; [done |]. intros Hc'. apply (Hdis c Hc'). by right.
        - apply NoDup_app. split; [done |]. split; [| done]. intros c Hc Hc'. apply (Hdis c Hc). by right.
        - intros c oc b' Hc. cbn in Hc. apply lookup_delete_Some in Hc as [_ Hc]. intros Hcb.
          pose proof (Hfl c) as Hf. rewrite Hc in Hf. destruct (s.(heap) !! c) as [oc' |] eqn:Hc'; [| done]. cbn in Hf.
          injection Hf as Hcb' _ _ _. apply (Hself c oc' b' Hc'). congruence. }
      assert (Hd2 : forall c, c <> b -> flags <$> s2.(heap) !! c = flags <$> s.(heap) !! c).
      { intros c Hc. cbn. rewrite lookup_delete_ne by done. apply Hfl. }
      sm_use (IH fuel pre s2 ltac:(cbn in Hfuel; lia) Hh2). intros _ s3 (H3 & [G1 G2 G3 G4 G5] & Hoth).
      assert (Hdd : forall c, c ∈ post -> dead s2 c = dead s c).
      { intros c Hc. apply dead_flags, Hd2. by intros ->. }
      rewrite (filter_same _ (fun c => dead s c = false)) in H3 by (intros c Hc; by rewrite Hdd).
      split; [done |]. split; [split; [| | cbn in *; congruence | cbn in *; congruence | cbn in *; congruence] |].
      * intros c [-> | Hc]%elem_of_cons Hcd; [| apply G1; [done | by rewrite Hdd]].
        specialize (G2 b ltac:(by intros [? _])). assert (Hgone : s2.(heap) !! b = None) by apply lookup_delete_eq.
        rewrite Hgone in G2. by destruct (s3.(heap) !! b).
      * intros c Hc. assert (Hcb : c <> b) by (intros ->; apply Hc; split; [by left | by rewrite Hdead]).
        rewrite G2; [by apply Hd2 |]. intros [Hin Hd]. apply Hc. split; [by right |]. by rewrite <- Hdd.
      * intros c Hc. rewrite not_elem_of_app, not_elem_of_cons in Hc. destruct Hc as (Hc1 & Hc2 & Hc3).
        rewrite Hoth by (rewrite not_elem_of_app; tauto). cbn. rewrite lookup_delete_ne by done. by apply Hsame.
    + assert (Hh2 : holds s ((pre ++ [b]) ++ post)) by (rewrite <- app_assoc; by split).
      rewrite <- (last_snoc b pre) at 1. sm_use (IH fuel (pre ++ [b]) s ltac:(cbn in Hfuel; lia) Hh2).
      intros _ s3 (H3 & [G1 G2 G3 G4 G5] & Hoth). rewrite <- app_assoc in H3, Hoth. split; [done |].
      split; [split; [| | done | done | done] | exact Hoth].
      * intros c [-> | Hc]%elem_of_cons Hcd; [congruence | by apply G1].
      * intros c Hc. apply G2. intros [Hin Hd]. apply Hc. split; [by right | done].
Qed.

(** ** The results *)

Section results.
Context (user : Z -> Z -> A unit) (qemu_aio_process_queue : A unit) {tame : Tame user qemu_aio_process_queue}.

Abbreviation poll := (qemu_bh_poll user qemu_aio_process_queue).
Abbreviation turns := (run_turns user qemu_aio_process_queue).

Lemma poll_spec s l :
  holds s l ->
  runs poll s (fun ret s' => exists s1 news,
    turns l false s = Some (ret, s1) /\ extends s s1 /\ (forall b, b ∈ news -> s.(heap) !! b = None) /\
    holds s' (filter (fun b => dead s1 b = false) (news ++ l)) /\ removed s1 s' (news ++ l) /\
    (forall b, b ∉ news ++ l -> s'.(heap) !! b = s1.(heap) !! b)).
Proof.
  intros Hl. unfold qemu_bh_poll. sm_step. sm_step. sm_step.
  assert (Hfuel : (length l <= loop_fuel s)%nat).
  { unfold loop_fuel. pose proof (bh_seg_length _ _ _ _ (h_list _ _ Hl) (h_nodup _ _ Hl)). lia. }
  sm_use (poll_loop_turns user qemu_aio_process_queue (loop_fuel s) l _ false s l Hfuel Hl (h_list _ _ Hl)).
  intros ret s1 [E1 X1]. destruct (e_new _ _ X1 l Hl) as (news & H1 & Hfresh). sm_step. sm_step.
  assert (Hfuel1 : (length (news ++ l) < loop_fuel s1)%nat).
  { unfold loop_fuel. pose proof (bh_seg_length _ _ _ _ (h_list _ _ H1) (h_nodup _ _ H1)). lia. }
  sm_step. sm_use (remove_spec (loop_fuel s1) (news ++ l) [] s1 Hfuel1 H1). intros _ s2 (H2 & Hrem & Hoth).
  sm_step. by exists s1, news.
Qed.

(** C24: polling gives every bottom half one turn.  For callbacks that create,
    schedule, cancel and delete bottom halves as they like, a poll of a
    well-formed context returns and uses nothing that is freed: the bottom halves
    that were in the list get one turn each, in the order of the list (one that
    is due then is run after its flags are cleared); those created meanwhile are
    in front of the list and wait for the next poll.  Afterwards the list has all
    of them, in order, but the deleted ones; those are freed, and nothing else
    of the others has changed. *)
Theorem bh_poll_turns (s : async) (l : list nat) :
  holds s l ->
  runs poll s (fun ret s' => exists s1 news,
    turns l false s = Some (ret, s1) /\ (forall b, b ∈ news -> s.(heap) !! b = None) /\
    holds s' (filter (fun b => dead s1 b = false) (news ++ l)) /\
    (forall b, b ∈ news ++ l -> dead s1 b = true -> s'.(heap) !! b = None) /\
    (forall b, ~ (b ∈ news ++ l /\ dead s1 b = true) -> flags <$> s'.(heap) !! b = flags <$> s1.(heap) !! b) /\
    s'.(async_context).(id) = s.(async_context).(id) /\ s'.(parents) = s.(parents)).
Proof.
  intros Hl. sm_use (poll_spec s l Hl). intros ret s' (s1 & news & E & [_ Xi Xp _] & Hf & Hh & [R1 R2 R3 R4 _] & _).
  exists s1, news. repeat (split; [congruence || done |]). congruence.
Qed.

(** *** Contexts *)

(** The list [lp] of another context, from its link [q], beside the active list *)
Definition beside (s : async) (q : option nat) (lp : list nat) : Prop :=
  exists l, holds s l /\ seg s.(heap) q lp None /\ (forall b, b ∈ lp -> b ∉ l).

Lemma poll_beside s q lp :
  beside s q lp -> runs poll s (fun _ s' => beside s' q lp /\ s'.(parents) = s.(parents)).
Proof.
  intros (l & Hl & Hq & Hdis). sm_use (poll_spec s l Hl). intros ret s' (s1 & news & E & [Xo _ Xp _] & Hf & Hh & [_ _ _ R4 _] & Hoth).
  split; [| congruence]. exists (filter (fun b => dead s1 b = false) (news ++ l)). split; [done |].
  assert (Hout : forall b, b ∈ lp -> b ∉ news ++ l).
  { intros b Hb [Hn | Hn]%elem_of_app; [| by apply (Hdis b)]. destruct (seg_dom _ _ _ _ _ Hq Hb) as [o Ho].
    specialize (Hf b Hn). congruence. }
  split.
  - eapply seg_links; [| exact Hq]. intros b Hb. rewrite Hoth by auto. destruct (seg_dom _ _ _ _ _ Hq Hb) as [o Ho].
    destruct (Xo b o Ho) as (o' & Ho' & Hn & _). rewrite Ho, Ho'. cbn. by rewrite Hn.
  - intros b Hb [_ Hin]%list_elem_of_filter. by apply (Hout b).
Qed.

Lemma flush_beside rounds s q lp :
  beside s q lp -> post (flush_loop user qemu_aio_process_queue rounds) s (fun _ s' => beside s' q lp /\ s'.(parents) = s.(parents)).
Proof.
  revert s. induction rounds as [| rounds IH]; intros s Hs; cbn [flush_loop]; [apply post_fail |]. sm_step.
  eapply post_mono; [apply runs_post, poll_beside, Hs |]. cbv beta. intros more s1 [H1 E1]. destruct more.
  - eapply post_mono; [apply IH, H1 |]. cbv beta. intros _ s2 [H2 E2]. split; [done | congruence].
  - sm_step. done.
Qed.

(** Leaving a context gives the parent back, with its list and a scheduled bottom
    half for the completions in front of it.  How long the flush takes is up to
    the callbacks. *)
Lemma pop_restores rounds s c ps lp :
  s.(parents) = c :: ps -> NoDup lp -> beside s c.(first_bh) lp ->
  post (async_context_pop user qemu_aio_process_queue rounds) s (fun _ s' => exists b o,
    s'.(async_context) = mkContext c.(id) (Some b) /\ s'.(parents) = ps /\ holds s' (b :: lp) /\
    s'.(heap) !! b = Some o /\ o.(cb) = bh_run_aio_completions b /\ o.(scheduled) = true /\ o.(idle) = false).
Proof.
  intros Hpar Hnd Hbes. unfold async_context_pop. sm_step. eapply post_mono; [apply (flush_beside rounds s _ _ Hbes) |].
  cbv beta. intros _ s1 [(l1 & [_ _ Hself] & Hq & _) E1]. rewrite Hpar in E1. sm_step.
  intros [] s2 E2. unfold leave_context in E2. rewrite E1 in E2. injection E2 as <-.
  sm_step. intros b s3 E3. unfold qemu_bh_new in E3. injection E3 as <- <-. cbn [heap async_context first_bh id parents notified].
  set (b := fresh (dom s1.(heap))). assert (Hb : s1.(heap) !! b = None) by (apply not_elem_of_dom, is_fresh).
  sm_step. intros [] s4 E4. apply update_inv in E4 as (o4 & Ho4 & ->). cbn in Ho4. rewrite lookup_insert_eq in Ho4. injection Ho4 as <-.
  intros [] s5 E5. unfold qemu_bh_schedule in E5. cbn in E5.
  rewrite (deref_bind b _ _ (mkBH (bh_run_aio_completions b) false false false c.(first_bh))) in E5 by (cbn; apply lookup_insert_eq).
  cbn [scheduled] in E5. unfold mbind, sm_bind in E5.
  rewrite (update_some b _ _ (mkBH (bh_run_aio_completions b) false false false c.(first_bh))) in E5 by (cbn; apply lookup_insert_eq).
  injection E5 as <-. cbn. rewrite !insert_insert_eq.
  eexists b, _. split; [done |]. split; [done |]. split; [| split; [apply lookup_insert_eq | done]].
  split; cbn.
  - split; [done |]. rewrite lookup_insert_eq. eexists. split; [done |]. cbn. eapply seg_links; [| exact Hq]. intros x Hx.
    rewrite lookup_insert_ne; [done |]. intros <-. destruct (seg_dom _ _ _ _ _ Hq Hx) as [? ?]. congruence.
  - constructor; [| done]. intros Hx. destruct (seg_dom _ _ _ _ _ Hq Hx) as [? ?]. congruence.
  - intros x ox b' Hx. destruct (decide (x = b)) as [-> | Hne].
    + rewrite lookup_insert_eq in Hx. injection Hx as <-. cbn. intros E. by injection E.
    + rewrite lookup_insert_ne in Hx by done. by apply Hself.
Qed.
End results.

(** ** The time until the next poll *)

Definition due (s : async) (b : nat) (i : bool) : Prop :=
  exists o, s.(heap) !! b = Some o /\ o.(deleted) = false /\ o.(scheduled) = true /\ o.(idle) = i.

(** No waiting with work to do, at most 10 ms with idle work, else no change *)
Lemma update_timeout_spec s l t :
  holds s l ->
  runs (qemu_bh_update_timeout t) s (fun t' s' => s' = s /\
    ((exists b, b ∈ l /\ due s b false) -> t' = 0) /\
    ((forall b, b ∈ l -> ~ due s b false) ->
       t' = t /\ (forall b, b ∈ l -> ~ due s b true) \/ t' = Z.min 10 t /\ exists b, b ∈ l /\ due s b true)).
Proof.
  intros Hl. unfold qemu_bh_update_timeout. sm_step. sm_step.
  assert (Hfuel : (length l <= loop_fuel s)%nat).
  { unfold loop_fuel. pose proof (bh_seg_length _ _ _ _ (h_list _ _ Hl) (h_nodup _ _ Hl)). lia. }
  destruct Hl as [Hs _ _]. revert Hs Hfuel. generalize (first_bh (async_context s)) (loop_fuel s). intros p fuel. revert p fuel t.
  induction l as [| b l IH]; intros p fuel t Hs Hfuel; cbn [seg] in Hs.
  - subst p. destruct fuel; cbn [timeout_loop]; sm_step; (split; [done |]; split;
      [by intros (b & ?%not_elem_of_nil & _) | left; split; [done | by intros b ?%not_elem_of_nil]]).
  - destruct Hs as (-> & o & Ho & Hs). destruct fuel as [| fuel]; [cbn in Hfuel; lia |]. cbn [timeout_loop].
    sm_step. exists o, s. split; [unfold deref; by rewrite Ho |].
    assert (Hdue : forall i, due s b i <-> negb o.(deleted) && o.(scheduled) = true /\ o.(idle) = i).
    { intros i. unfold due. rewrite andb_true_iff, negb_true_iff. split.
      - intros (o' & E & ?). rewrite Ho in E. injection E as <-. tauto.
      - intros [[? ?] ?]. by exists o. }
    destruct (negb o.(deleted) && o.(scheduled)) eqn:Ed; [destruct o.(idle) eqn:Ei |].
    + sm_use (IH o.(next) fuel (Z.min 10 t) Hs ltac:(cbn in Hfuel; lia)). intros t' s' (-> & H1 & H2). split; [done |]. split.
      * intros (c & [-> | Hc]%elem_of_cons & Hcd); [apply Hdue in Hcd as [_ ?]; done |]. apply H1. by exists c.
      * intros Hn. right. destruct H2 as [[-> _] | [-> _]]; [intros c Hc; apply Hn; by right | |];
          (split; [lia |]); exists b; (split; [by left | by apply Hdue]).
    + sm_step. split; [done |]. split; [done |]. intros Hn. exfalso. apply (Hn b); [by left | by apply Hdue].
    + sm_use (IH o.(next) fuel t Hs ltac:(cbn in Hfuel; lia)). intros t' s' (-> & H1 & H2). split; [done |]. split.
      * intros (c & [-> | Hc]%elem_of_cons & Hcd); [apply Hdue in Hcd as [? _]; done |]. apply H1. by exists c.
      * intros Hn. destruct H2 as [[-> H2] | [-> (c & Hc & H2)]]; [intros c Hc; apply Hn; by right | |].
        -- left. split; [done |]. intros c [-> | Hc]%elem_of_cons; [intros [? _]%Hdue; done | by apply H2].
        -- right. split; [done |]. exists c. split; [by right | done].
Qed.

(** ** Examples *)

(** Functions of the examples: 1 creates and schedules a bottom half, 2 deletes
    its argument, 3 schedules it *)
Definition demo_user (f x : Z) : A unit :=
  if f =? 1 then b ← qemu_bh_new (BH_user 0 0); qemu_bh_schedule b
  else fun s =>
    if bool_decide (is_Some (s.(heap) !! Z.to_nat x)) then
      (if f =? 2 then qemu_bh_delete (Z.to_nat x) else if f =? 3 then qemu_bh_schedule (Z.to_nat x) else mret tt) s
    else Some (tt, s).

#[local] Instance demo_tame : Tame demo_user (mret tt).
Proof.
  split; [| intros s l _; sm_step; constructor]. intros f x s l _. unfold demo_user. destruct (f =? 1).
  - unfold runs. destruct (qemu_bh_new (BH_user 0 0) s) as [[b s1] |] eqn:E1; [| done].
    assert (Hb : exists o, s1.(heap) !! b = Some o).
    { unfold qemu_bh_new in E1. injection E1 as <- <-. cbn. rewrite lookup_insert_eq. by eexists. }
    destruct Hb as [o Ho]. assert (Hs : exists s2, qemu_bh_schedule b s1 = Some (tt, s2)).
    { unfold qemu_bh_schedule. rewrite (deref_bind _ _ _ _ Ho). case_match; [by eexists |].
      unfold mbind, sm_bind. rewrite (update_some _ _ _ _ Ho). by eexists. }
    destruct Hs as [s2 E2]. exists tt, s2. unfold mbind, sm_bind. rewrite E1. split; [done |].
    eapply moves_schedule; [eapply moves_new; [apply moves_refl | exact E1] | exact E2].
  - unfold runs. case_bool_decide as Hx; [destruct Hx as [o Ho] | exists tt, s; split; [done | constructor]].
    destruct (f =? 2); [| destruct (f =? 3)].
    + pose proof (update_some (Z.to_nat x) (fun o => set_deleted true (set_scheduled false o)) s o Ho) as E2.
      exists tt. eexists. split; [exact E2 |]. eapply moves_delete; [apply moves_refl | exact E2].
    + assert (Hs : exists s2, qemu_bh_schedule (Z.to_nat x) s = Some (tt, s2)).
      { unfold qemu_bh_schedule. rewrite (deref_bind _ _ _ _ Ho). case_match; [by eexists |].
        unfold mbind, sm_bind. rewrite (update_some _ _ _ _ Ho). by eexists. }
      destruct Hs as [s2 E2]. exists tt, s2. split; [done |]. eapply moves_schedule; [apply moves_refl | exact E2].
    + exists tt, s. split; [done | constructor].
Qed.

Definition context_of (l : list (nat * QEMUBH)) (first : option nat) : async :=
  mkAsync (list_to_map l) (mkContext 1 first) [mkContext 0 None] 0.

(** Three bottom halves: the first creates another, the second deletes the third *)
Definition demo_bhs : async :=
  context_of [(0%nat, mkBH (BH_user 1 0) true false false (Some 1%nat));
              (1%nat, mkBH (BH_user 2 2) true false false (Some 2%nat));
              (2%nat, mkBH (BH_user 0 0) true false false None)] (Some 0%nat).

Lemma bh_poll_turns_witness :
  runs (qemu_bh_poll demo_user (mret tt)) demo_bhs (fun ret s' => exists s1 news,
    run_turns demo_user (mret tt) [0; 1; 2]%nat false demo_bhs = Some (ret, s1) /\
    (forall b, b ∈ news -> demo_bhs.(heap) !! b = None) /\
    holds s' (filter (fun b => dead s1 b = false) (news ++ [0; 1; 2]%nat)) /\
    (forall b, b ∈ news ++ [0; 1; 2]%nat -> dead s1 b = true -> s'.(heap) !! b = None) /\
    (forall b, ~ (b ∈ news ++ [0; 1; 2]%nat /\ dead s1 b = true) -> flags <$> s'.(heap) !! b = flags <$> s1.(heap) !! b) /\
    s'.(async_context).(id) = 1 /\ s'.(parents) = [mkContext 0 None]).
Proof.
  apply (bh_poll_turns demo_user (mret tt) (tame := demo_tame) demo_bhs [0; 1; 2]%nat). split.
  - cbn. repeat (split; [reflexivity |]; eexists; split; [reflexivity |]). reflexivity.
  - apply (bool_decide_unpack _). vm_compute. exact I.
  - intros b o b' Hb Hcb. unfold demo_bhs, context_of in Hb. cbn [heap] in Hb.
    apply elem_of_list_to_map_2 in Hb. repeat (apply elem_of_cons in Hb as [Hb | Hb]; [injection Hb as -> ->; discriminate |]).
    by apply not_elem_of_nil in Hb.
Defined.

(** ** Where the code falls short *)

(** A callback that deletes the next bottom half and polls, as waiting for
    requests does: the inner poll frees what the outer one holds on to. *)
Definition polling_user (f x : Z) : A unit :=
  if f =? 1 then qemu_bh_delete (Z.to_nat x);; qemu_bh_poll (fun _ _ => mret tt) (mret tt);; mret tt else mret tt.

Lemma nested_poll_dangles :
  let s := context_of [(0%nat, mkBH (BH_user 1 1) true false false (Some 1%nat));
                       (1%nat, mkBH (BH_user 0 0) false false false None)] (Some 0%nat) in
  qemu_bh_poll polling_user (mret tt) s = None.
Proof. by vm_compute. Qed.

(** Idle work that schedules a bottom half in front of it: the flush ends, and the
    scheduled one is in no list any more when the context is left. *)
Lemma pop_drops_work :
  let s := context_of [(0%nat, mkBH (BH_user 0 0) false false false (Some 1%nat));
                       (1%nat, mkBH (BH_user 3 0) true true false None)] (Some 0%nat) in
  match async_context_pop demo_user (mret tt) 5 s with
  | Some (_, s') => (scheduled <$> s'.(heap) !! 0%nat, s'.(async_context).(first_bh), next <$> s'.(heap) !! 2%nat)
  | None => (None, None, None)
  end = (Some true, Some 2%nat, Some None).
Proof. by vm_compute. Qed.
