(* ===== verification/Apic.v ===== *)
(** * Local and I/O interrupt controllers (qemu/hw/apic.c, hw/ioapic.c, hw/pc.c)

    The local APICs of the processors, the I/O APIC that collects the device
    lines, and their connection to the 8259 pair of [I8259] and to the
    processors ([pic_irq_request], [cpu_get_pic_interrupt] and [isa_irq_handler]
    of hw/pc.c, the request loop of cpu-exec.c).

    The state is the whole bus, since controllers reach into each other: an end
    of interrupt at a processor makes the I/O controller deliver again, possibly
    to all of them.  A pointer is a place in a list.  [None] is an access outside
    an array or through a null pointer.  The levels an operation of the 8259 pair
    drives on its output are passed on to [pic_irq_request] behind the operation,
    in order; they do not reach back.

    Theorems: no access fails in a reachable state, and a processor whose
    controller has an interrupt to take is always told; the controller presents
    the interrupt of the highest class above the task and the interrupts in
    service, which nest like a stack; a message reaches exactly the addressed
    controllers; a level line is served once and again if it stays up. *)

From Stdlib Require Import ZArith Lia.
From stdpp Require Import base option numbers list.
From S2P Require Import Prelude HostUtils I8259 Stm.

Local Open Scope Z_scope.

(** ** Constants *)

Definition APIC_LVT_TIMER : Z := 0.
Definition APIC_LVT_LINT0 : Z := 3.
Definition APIC_LVT_LINT1 : Z := 4.
Definition APIC_LVT_NB : Z := 6.

Definition APIC_DM_FIXED : Z := 0.
Definition APIC_DM_LOWPRI : Z := 1.
Definition APIC_DM_SMI : Z := 2.
Definition APIC_DM_NMI : Z := 4.
Definition APIC_DM_INIT : Z := 5.
Definition APIC_DM_SIPI : Z := 6.
Definition APIC_DM_EXTINT : Z := 7.

Definition APIC_TRIGGER_EDGE : Z := 0.
Definition APIC_TRIGGER_LEVEL : Z := 1.

Definition APIC_LVT_TIMER_PERIODIC : Z := Z.shiftl 1 17.
Definition APIC_LVT_MASKED : Z := Z.shiftl 1 16.
Definition APIC_LVT_LEVEL_TRIGGER : Z := Z.shiftl 1 15.
Definition ESR_ILLEGAL_ADDRESS : Z := Z.shiftl 1 7.
Definition APIC_SV_DIRECTED_IO : Z := Z.shiftl 1 12.
Definition APIC_SV_ENABLE : Z := Z.shiftl 1 8.

Definition MAX_APICS : nat := 255.
Definition MAX_APIC_WORDS : nat := 8.

Definition MSI_DATA_VECTOR_SHIFT : Z := 0.
Definition MSI_DATA_VECTOR_MASK : Z := 0x000000ff.
Definition MSI_DATA_DELIVERY_MODE_SHIFT : Z := 8.
Definition MSI_DATA_TRIGGER_SHIFT : Z := 15.
Definition MSI_ADDR_DEST_MODE_SHIFT : Z := 2.
Definition MSI_ADDR_DEST_ID_SHIFT : Z := 12.
Definition MSI_ADDR_DEST_ID_MASK : Z := 0x00ffff0.

Definition MSR_IA32_APICBASE_BSP : Z := Z.shiftl 1 8.
Definition MSR_IA32_APICBASE_ENABLE : Z := Z.shiftl 1 11.
Definition CPUID_APIC : Z := Z.shiftl 1 9.

Definition CPU_INTERRUPT_HARD : Z := 0x0002.
Definition CPU_INTERRUPT_SMI : Z := 0x0040.
Definition CPU_INTERRUPT_NMI : Z := 0x0200.
Definition CPU_INTERRUPT_VIRQ : Z := 0x0100.
Definition CPU_INTERRUPT_INIT : Z := 0x0400.
Definition CPU_INTERRUPT_SIPI : Z := 0x0800.

Definition IOAPIC_NUM_PINS : Z := 0x18.
Definition IOAPIC_VERSION : Z := 0x11.
Definition IOAPIC_LVT_DEST_SHIFT : Z := 56.
Definition IOAPIC_LVT_MASKED_SHIFT : Z := 16.
Definition IOAPIC_LVT_TRIGGER_MODE_SHIFT : Z := 15.
Definition IOAPIC_LVT_REMOTE_IRR_SHIFT : Z := 14.
Definition IOAPIC_LVT_POLARITY_SHIFT : Z := 13.
Definition IOAPIC_LVT_DEST_MODE_SHIFT : Z := 11.
Definition IOAPIC_LVT_DELIV_MODE_SHIFT : Z := 8.
Definition IOAPIC_LVT_MASKED : Z := Z.shiftl 1 IOAPIC_LVT_MASKED_SHIFT.
Definition IOAPIC_LVT_REMOTE_IRR : Z := Z.shiftl 1 IOAPIC_LVT_REMOTE_IRR_SHIFT.
Definition IOAPIC_TRIGGER_EDGE : Z := 0.
Definition IOAPIC_TRIGGER_LEVEL : Z := 1.
Definition IOAPIC_DM_EXTINT : Z := 0x7.
Definition IOAPIC_DM_MASK : Z := 0x7.
Definition IOAPIC_VECTOR_MASK : Z := 0xff.
Definition IOAPIC_IOREGSEL : Z := 0x00.
Definition IOAPIC_IOWIN : Z := 0x10.
Definition IOAPIC_REG_ID : Z := 0x00.
Definition IOAPIC_REG_VER : Z := 0x01.
Definition IOAPIC_REG_ARB : Z := 0x02.
Definition IOAPIC_REG_REDTBL_BASE : Z := 0x10.
Definition IOAPIC_ID_SHIFT : Z := 24.
Definition IOAPIC_ID_MASK : Z := 0xf.
Definition IOAPIC_VER_ENTRIES_SHIFT : Z := 16.

(** ** State *)

(** What the interrupt controllers see of a processor ([CPUState]): the pending
    requests, the feature bits, whether it is halted, where start-up requests
    started it, latest first, and the place of its controller. *)
Record CPUState := mkCPU {
  interrupt_request : Z;
  cpuid_features : Z;
  halted : bool;
  sipi_started : list Z;
  apic_state : option nat
}.

Definition set_interrupt_request (v : Z) (s : CPUState) : CPUState :=
  mkCPU v s.(cpuid_features) s.(halted) s.(sipi_started) s.(apic_state).
Definition set_cpuid_features (v : Z) (s : CPUState) : CPUState :=
  mkCPU s.(interrupt_request) v s.(halted) s.(sipi_started) s.(apic_state).
Definition set_halted (v : bool) (s : CPUState) : CPUState :=
  mkCPU s.(interrupt_request) s.(cpuid_features) v s.(sipi_started) s.(apic_state).
Definition set_sipi_started (v : list Z) (s : CPUState) : CPUState :=
  mkCPU s.(interrupt_request) s.(cpuid_features) s.(halted) v s.(apic_state).
Definition set_apic_state (v : option nat) (s : CPUState) : CPUState :=
  mkCPU s.(interrupt_request) s.(cpuid_features) s.(halted) s.(sipi_started) v.

(** [struct APICState]; [cpu_env] is the place of the processor, and the timer is
    the time it is armed for. *)
Record APICState := mkAPIC {
  cpu_env : nat;
  apicbase : Z;
  id : Z;
  arb_id : Z;
  tpr : Z;
  spurious_vec : Z;
  log_dest : Z;
  dest_mode : Z;
  isr : list Z;
  tmr : list Z;
  irr : list Z;
  lvt : list Z;
  esr : Z;
  icr : list Z;
  divide_conf : Z;
  count_shift : Z;
  initial_count : Z;
  initial_count_load_time : Z;
  next_time : Z;
  idx : Z;
  timer : option Z;
  sipi_vector : Z;
  wait_for_sipi : Z
}.

Definition set_cpu_env (v : nat) (s : APICState) : APICState :=
  mkAPIC v s.(apicbase) s.(id) s.(arb_id) s.(tpr) s.(spurious_vec) s.(log_dest)
    s.(dest_mode) s.(isr) s.(tmr) s.(irr) s.(lvt) s.(esr) s.(icr) s.(divide_conf)
    s.(count_shift) s.(initial_count) s.(initial_count_load_time) s.(next_time) s.(idx)
    s.(timer) s.(sipi_vector) s.(wait_for_sipi).
Definition set_apicbase (v : Z) (s : APICState) : APICState :=
  mkAPIC s.(cpu_env) v s.(id) s.(arb_id) s.(tpr) s.(spurious_vec) s.(log_dest)
    s.(dest_mode) s.(isr) s.(tmr) s.(irr) s.(lvt) s.(esr) s.(icr) s.(divide_conf)
    s.(count_shift) s.(initial_count) s.(initial_count_load_time) s.(next_time) s.(idx)
    s.(timer) s.(sipi_vector) s.(wait_for_sipi).
Definition set_id (v : Z) (s : APICState) : APICState :=
  mkAPIC s.(cpu_env) s.(apicbase) v s.(arb_id) s.(tpr) s.(spurious_vec) s.(log_dest)
    s.(dest_mode) s.(isr) s.(tmr) s.(irr) s.(lvt) s.(esr) s.(icr) s.(divide_conf)
    s.(count_shift) s.(initial_count) s.(initial_count_load_time) s.(next_time) s.(idx)
    s.(timer) s.(sipi_vector) s.(wait_for_sipi).
Definition set_arb_id (v : Z) (s : APICState) : APICState :=
  mkAPIC s.(cpu_env) s.(apicbase) s.(id) v s.(tpr) s.(spurious_vec) s.(log_dest)
    s.(dest_mode) s.(isr) s.(tmr) s.(irr) s.(lvt) s.(esr) s.(icr) s.(divide_conf)
    s.(count_shift) s.(initial_count) s.(initial_count_load_time) s.(next_time) s.(idx)
    s.(timer) s.(sipi_vector) s.(wait_for_sipi).
Definition set_tpr (v : Z) (s : APICState) : APICState :=
  mkAPIC s.(cpu_env) s.(apicbase) s.(id) s.(arb_id) v s.(spurious_vec) s.(log_dest)
    s.(dest_mode) s.(isr) s.(tmr) s.(irr) s.(lvt) s.(esr) s.(icr) s.(divide_conf)
    s.(count_shift) s.(initial_count) s.(initial_count_load_time) s.(next_time) s.(idx)
    s.(timer) s.(sipi_vector) s.(wait_for_sipi).
Definition set_spurious_vec (v : Z) (s : APICState) : APICState :=
  mkAPIC s.(cpu_env) s.(apicbase) s.(id) s.(arb_id) s.(tpr) v s.(log_dest) s.(dest_mode)
    s.(isr) s.(tmr) s.(irr) s.(lvt) s.(esr) s.(icr) s.(divide_conf) s.(count_shift)
    s.(initial_count) s.(initial_count_load_time) s.(next_time) s.(idx) s.(timer)
    s.(sipi_vector) s.(wait_for_sipi).
Definition set_log_dest (v : Z) (s : APICState) : APICState :=
  mkAPIC s.(cpu_env) s.(apicbase) s.(id) s.(arb_id) s.(tpr) s.(spurious_vec) v
    s.(dest_mode) s.(isr) s.(tmr) s.(irr) s.(lvt) s.(esr) s.(icr) s.(divide_conf)
    s.(count_shift) s.(initial_count) s.(initial_count_load_time) s.(next_time) s.(idx)
    s.(timer) s.(sipi_vector) s.(wait_for_sipi).
Definition set_dest_mode (v : Z) (s : APICState) : APICState :=
  mkAPIC s.(cpu_env) s.(apicbase) s.(id) s.(arb_id) s.(tpr) s.(spurious_vec) s.(log_dest)
    v s.(isr) s.(tmr) s.(irr) s.(lvt) s.(esr) s.(icr) s.(divide_conf) s.(count_shift)
    s.(initial_count) s.(initial_count_load_time) s.(next_time) s.(idx) s.(timer)
    s.(sipi_vector) s.(wait_for_sipi).
Definition set_isr (v : list Z) (s : APICState) : APICState :=
  mkAPIC s.(cpu_env) s.(apicbase) s.(id) s.(arb_id) s.(tpr) s.(spurious_vec) s.(log_dest)
    s.(dest_mode) v s.(tmr) s.(irr) s.(lvt) s.(esr) s.(icr) s.(divide_conf)
    s.(count_shift) s.(initial_count) s.(initial_count_load_time) s.(next_time) s.(idx)
    s.(timer) s.(sipi_vector) s.(wait_for_sipi).
Definition set_tmr (v : list Z) (s : APICState) : APICState :=
  mkAPIC s.(cpu_env) s.(apicbase) s.(id) s.(arb_id) s.(tpr) s.(spurious_vec) s.(log_dest)
    s.(dest_mode) s.(isr) v s.(irr) s.(lvt) s.(esr) s.(icr) s.(divide_conf)
    s.(count_shift) s.(initial_count) s.(initial_count_load_time) s.(next_time) s.(idx)
    s.(timer) s.(sipi_vector) s.(wait_for_sipi).
Definition set_irr (v : list Z) (s : APICState) : APICState :=
  mkAPIC s.(cpu_env) s.(apicbase) s.(id) s.(arb_id) s.(tpr) s.(spurious_vec) s.(log_dest)
    s.(dest_mode) s.(isr) s.(tmr) v s.(lvt) s.(esr) s.(icr) s.(divide_conf)
    s.(count_shift) s.(initial_count) s.(initial_count_load_time) s.(next_time) s.(idx)
    s.(timer) s.(sipi_vector) s.(wait_for_sipi).
Definition set_lvt (v : list Z) (s : APICState) : APICState :=
  mkAPIC s.(cpu_env) s.(apicbase) s.(id) s.(arb_id) s.(tpr) s.(spurious_vec) s.(log_dest)
    s.(dest_mode) s.(isr) s.(tmr) s.(irr) v s.(esr) s.(icr) s.(divide_conf)
    s.(count_shift) s.(initial_count) s.(initial_count_load_time) s.(next_time) s.(idx)
    s.(timer) s.(sipi_vector) s.(wait_for_sipi).
Definition set_esr (v : Z) (s : APICState) : APICState :=
  mkAPIC s.(cpu_env) s.(apicbase) s.(id) s.(arb_id) s.(tpr) s.(spurious_vec) s.(log_dest)
    s.(dest_mode) s.(isr) s.(tmr) s.(irr) s.(lvt) v s.(icr) s.(divide_conf)
    s.(count_shift) s.(initial_count) s.(initial_count_load_time) s.(next_time) s.(idx)
    s.(timer) s.(sipi_vector) s.(wait_for_sipi).
Definition set_icr (v : list Z) (s : APICState) : APICState :=
  mkAPIC s.(cpu_env) s.(apicbase) s.(id) s.(arb_id) s.(tpr) s.(spurious_vec) s.(log_dest)
    s.(dest_mode) s.(isr) s.(tmr) s.(irr) s.(lvt) s.(esr) v s.(divide_conf)
    s.(count_shift) s.(initial_count) s.(initial_count_load_time) s.(next_time) s.(idx)
    s.(timer) s.(sipi_vector) s.(wait_for_sipi).
Definition set_divide_conf (v : Z) (s : APICState) : APICState :=
  mkAPIC s.(cpu_env) s.(apicbase) s.(id) s.(arb_id) s.(tpr) s.(spurious_vec) s.(log_dest)
    s.(dest_mode) s.(isr) s.(tmr) s.(irr) s.(lvt) s.(esr) s.(icr) v s.(count_shift)
    s.(initial_count) s.(initial_count_load_time) s.(next_time) s.(idx) s.(timer)
    s.(sipi_vector) s.(wait_for_sipi).
Definition set_count_shift (v : Z) (s : APICState) : APICState :=
  mkAPIC s.(cpu_env) s.(apicbase) s.(id) s.(arb_id) s.(tpr) s.(spurious_vec) s.(log_dest)
    s.(dest_mode) s.(isr) s.(tmr) s.(irr) s.(lvt) s.(esr) s.(icr) s.(divide_conf) v
    s.(initial_count) s.(initial_count_load_time) s.(next_time) s.(idx) s.(timer)
    s.(sipi_vector) s.(wait_for_sipi).
Definition set_initial_count (v : Z) (s : APICState) : APICState :=
  mkAPIC s.(cpu_env) s.(apicbase) s.(id) s.(arb_id) s.(tpr) s.(spurious_vec) s.(log_dest)
    s.(dest_mode) s.(isr) s.(tmr) s.(irr) s.(lvt) s.(esr) s.(icr) s.(divide_conf)
    s.(count_shift) v s.(initial_count_load_time) s.(next_time) s.(idx) s.(timer)
    s.(sipi_vector) s.(wait_for_sipi).
Definition set_initial_count_load_time (v : Z) (s : APICState) : APICState :=
  mkAPIC s.(cpu_env) s.(apicbase) s.(id) s.(arb_id) s.(tpr) s.(spurious_vec) s.(log_dest)
    s.(dest_mode) s.(isr) s.(tmr) s.(irr) s.(lvt) s.(esr) s.(icr) s.(divide_conf)
    s.(count_shift) s.(initial_count) v s.(next_time) s.(idx) s.(timer) s.(sipi_vector)
    s.(wait_for_sipi).
Definition set_next_time (v : Z) (s : APICState) : APICState :=
  mkAPIC s.(cpu_env) s.(apicbase) s.(id) s.(arb_id) s.(tpr) s.(spurious_vec) s.(log_dest)
    s.(dest_mode) s.(isr) s.(tmr) s.(irr) s.(lvt) s.(esr) s.(icr) s.(divide_conf)
    s.(count_shift) s.(initial_count) s.(initial_count_load_time) v s.(idx) s.(timer)
    s.(sipi_vector) s.(wait_for_sipi).
Definition set_idx (v : Z) (s : APICState) : APICState :=
  mkAPIC s.(cpu_env) s.(apicbase) s.(id) s.(arb_id) s.(tpr) s.(spurious_vec) s.(log_dest)
    s.(dest_mode) s.(isr) s.(tmr) s.(irr) s.(lvt) s.(esr) s.(icr) s.(divide_conf)
    s.(count_shift) s.(initial_count) s.(initial_count_load_time) s.(next_time) v
    s.(timer) s.(sipi_vector) s.(wait_for_sipi).
Definition set_timer (v : option Z) (s : APICState) : APICState :=
  mkAPIC s.(cpu_env) s.(apicbase) s.(id) s.(arb_id) s.(tpr) s.(spurious_vec) s.(log_dest)
    s.(dest_mode) s.(isr) s.(tmr) s.(irr) s.(lvt) s.(esr) s.(icr) s.(divide_conf)
    s.(count_shift) s.(initial_count) s.(initial_count_load_time) s.(next_time) s.(idx) v
    s.(sipi_vector) s.(wait_for_sipi).
Definition set_sipi_vector (v : Z) (s : APICState) : APICState :=
  mkAPIC s.(cpu_env) s.(apicbase) s.(id) s.(arb_id) s.(tpr) s.(spurious_vec) s.(log_dest)
    s.(dest_mode) s.(isr) s.(tmr) s.(irr) s.(lvt) s.(esr) s.(icr) s.(divide_conf)
    s.(count_shift) s.(initial_count) s.(initial_count_load_time) s.(next_time) s.(idx)
    s.(timer) v s.(wait_for_sipi).
Definition set_wait_for_sipi (v : Z) (s : APICState) : APICState :=
  mkAPIC s.(cpu_env) s.(apicbase) s.(id) s.(arb_id) s.(tpr) s.(spurious_vec) s.(log_dest)
    s.(dest_mode) s.(isr) s.(tmr) s.(irr) s.(lvt) s.(esr) s.(icr) s.(divide_conf)
    s.(count_shift) s.(initial_count) s.(initial_count_load_time) s.(next_time) s.(idx)
    s.(timer) s.(sipi_vector) v.

(** [struct IOAPICState] *)
Record IOAPICState := mkIOAPIC {
  io_id : Z;
  ioregsel : Z;
  io_irr : Z;
  ioredtbl : list Z
}.

Definition set_io_id (v : Z) (s : IOAPICState) : IOAPICState :=
  mkIOAPIC v s.(ioregsel) s.(io_irr) s.(ioredtbl).
Definition set_ioregsel (v : Z) (s : IOAPICState) : IOAPICState :=
  mkIOAPIC s.(io_id) v s.(io_irr) s.(ioredtbl).
Definition set_io_irr (v : Z) (s : IOAPICState) : IOAPICState :=
  mkIOAPIC s.(io_id) s.(ioregsel) v s.(ioredtbl).
Definition set_ioredtbl (v : list Z) (s : IOAPICState) : IOAPICState :=
  mkIOAPIC s.(io_id) s.(ioregsel) s.(io_irr) v.

(** The processors, the registered controllers ([local_apics], NULL behind the
    last), the I/O controller (there is room for one), the 8259 pair and the time *)
Record bus := mkBus {
  cpus : list CPUState;
  local_apics : list APICState;
  apic_irq_delivered : Z;
  ioapics : option IOAPICState;
  isa_pic : PicState2;
  vm_clock : Z
}.

Definition set_cpus (v : list CPUState) (s : bus) : bus :=
  mkBus v s.(local_apics) s.(apic_irq_delivered) s.(ioapics) s.(isa_pic) s.(vm_clock).
Definition set_local_apics (v : list APICState) (s : bus) : bus :=
  mkBus s.(cpus) v s.(apic_irq_delivered) s.(ioapics) s.(isa_pic) s.(vm_clock).
Definition set_apic_irq_delivered (v : Z) (s : bus) : bus :=
  mkBus s.(cpus) s.(local_apics) v s.(ioapics) s.(isa_pic) s.(vm_clock).
Definition set_ioapics (v : option IOAPICState) (s : bus) : bus :=
  mkBus s.(cpus) s.(local_apics) s.(apic_irq_delivered) v s.(isa_pic) s.(vm_clock).
Definition set_isa_pic (v : PicState2) (s : bus) : bus :=
  mkBus s.(cpus) s.(local_apics) s.(apic_irq_delivered) s.(ioapics) v s.(vm_clock).
Definition set_vm_clock (v : Z) (s : bus) : bus :=
  mkBus s.(cpus) s.(local_apics) s.(apic_irq_delivered) s.(ioapics) s.(isa_pic) v.

Abbreviation B X := (SM bus X).

Definition cpu (c : nat) : B CPUState := s ← sm_get cpus; sm_lift (s !! c).
Definition upd_cpu (c : nat) (f : CPUState -> CPUState) : B unit :=
  o ← cpu c; sm_modify (fun s => set_cpus (<[c := f o]> s.(cpus)) s).

Definition apic (i : nat) : B APICState := s ← sm_get local_apics; sm_lift (s !! i).
Definition upd (i : nat) (f : APICState -> option APICState) : B unit :=
  a ← apic i; a ← sm_lift (f a); sm_modify (fun s => set_local_apics (<[i := a]> s.(local_apics)) s).

Definition ioapic : B IOAPICState := s ← sm_get ioapics; sm_lift s.
Definition upd_ioapic (f : IOAPICState -> option IOAPICState) : B unit :=
  a ← ioapic; a ← sm_lift (f a); sm_modify (set_ioapics (Some a)).

(** [for (i = first; i < first + count; i++)] *)
Fixpoint for_loop (count : nat) (i : Z) (body : Z -> B unit) : B unit :=
  match count with
  | O => mret tt
  | S count => body i;; for_loop count (i + 1) body
  end.

(** ** Bits of a table of words *)

Definition word (tab : list Z) (i : Z) : option Z := if 0 <=? i then tab !! Z.to_nat i else None.
Definition set_word (tab : list Z) (i v : Z) : option (list Z) :=
  _ ← word tab i; Some (<[Z.to_nat i := v]> tab).

Definition fls_bit (value : Z) : Z := 31 - clz32 value.
Definition ffs_bit (value : Z) : Z := ctz32 value.

Definition set_bit (tab : list Z) (index : Z) : option (list Z) :=
  let i := Z.shiftr index 5 in
  let mask := Z.shiftl 1 (Z.land index 0x1f) in
  w ← word tab i; set_word tab i (Z.lor w mask).

Definition reset_bit (tab : list Z) (index : Z) : option (list Z) :=
  let i := Z.shiftr index 5 in
  let mask := Z.shiftl 1 (Z.land index 0x1f) in
  w ← word tab i; set_word tab i (Z.land w (Z.lnot mask)).

Definition get_bit (tab : list Z) (index : Z) : option bool :=
  let i := Z.shiftr index 5 in
  let mask := Z.shiftl 1 (Z.land index 0x1f) in
  w ← word tab i; Some (c_true (Z.land w mask)).

(** ** Priorities *)

(** [for (i = 7; i >= 0; i--)], [n] words to go *)
Fixpoint highest_loop (n : nat) (tab : list Z) : option Z :=
  match n with
  | O => Some (-1)
  | S n =>
      w ← tab !! n;
      if c_true w then Some (Z.of_nat n * 32 + fls_bit w) else highest_loop n tab
  end.

Definition get_highest_priority_int (tab : list Z) : option Z := highest_loop 8 tab.

Definition apic_get_ppr (s : APICState) : option Z :=
  let tpr4 := Z.shiftr s.(tpr) 4 in
  isrv ← get_highest_priority_int s.(isr);
  let isrv := if isrv <? 0 then 0 else isrv in
  let isrv := Z.shiftr isrv 4 in
  Some (if isrv <=? tpr4 then s.(tpr) else Z.shiftl isrv 4).

Definition apic_get_arb_pri (s : APICState) : Z := 0.

Definition apic_irq_pending (s : APICState) : option Z :=
  irrv ← get_highest_priority_int s.(irr);
  if irrv <? 0 then Some 0
  else
    ppr ← apic_get_ppr s;
    Some (if c_true ppr && (Z.land irrv 0xf0 <=? Z.land ppr 0xf0) then -1 else irrv).

(** ** Requests to a processor *)

Definition cpu_interrupt (c : nat) (mask : Z) : B unit :=
  upd_cpu c (fun o => set_interrupt_request (Z.lor o.(interrupt_request) mask) o).
Definition cpu_reset_interrupt (c : nat) (mask : Z) : B unit :=
  upd_cpu c (fun o => set_interrupt_request (Z.land o.(interrupt_request) (Z.lnot mask)) o).

Definition apic_update_irq (i : nat) : B unit :=
  s ← apic i;
  if negb (c_true (Z.land s.(spurious_vec) APIC_SV_ENABLE)) then mret tt
  else
    pending ← sm_lift (apic_irq_pending s);
    if 0 <? pending then cpu_interrupt s.(cpu_env) CPU_INTERRUPT_HARD else mret tt.

Definition apic_reset_irq_delivered : B unit := sm_modify (set_apic_irq_delivered 0).
Definition apic_get_irq_delivered : B Z := sm_get apic_irq_delivered.

Definition apic_set_irq (i : nat) (vector_num trigger_mode : Z) : B unit :=
  s ← apic i;
  b ← sm_lift (get_bit s.(irr) vector_num);
  sm_modify (fun m => set_apic_irq_delivered (to_signed 32 (m.(apic_irq_delivered) + c_bool (negb b))) m);;
  upd i (fun s => t ← set_bit s.(irr) vector_num; Some (set_irr t s));;
  (if c_true trigger_mode then upd i (fun s => t ← set_bit s.(tmr) vector_num; Some (set_tmr t s))
   else upd i (fun s => t ← reset_bit s.(tmr) vector_num; Some (set_tmr t s)));;
  apic_update_irq i.

Definition apic_local_deliver (i : nat) (vector : Z) : B unit :=
  s ← apic i;
  lvt ← sm_lift (word s.(lvt) vector);
  if c_true (Z.land lvt APIC_LVT_MASKED) then mret tt
  else
    let mode := Z.land (Z.shiftr lvt 8) 7 in
    if mode =? APIC_DM_SMI then cpu_interrupt s.(cpu_env) CPU_INTERRUPT_SMI
    else if mode =? APIC_DM_NMI then cpu_interrupt s.(cpu_env) CPU_INTERRUPT_NMI
    else if mode =? APIC_DM_EXTINT then cpu_interrupt s.(cpu_env) CPU_INTERRUPT_HARD
    else if mode =? APIC_DM_FIXED then
      let trigger_mode :=
        if ((vector =? APIC_LVT_LINT0) || (vector =? APIC_LVT_LINT1)) &&
           c_true (Z.land lvt APIC_LVT_LEVEL_TRIGGER)
        then APIC_TRIGGER_LEVEL else APIC_TRIGGER_EDGE in
      apic_set_irq i (Z.land lvt 0xff) trigger_mode
    else mret tt.

Definition apic_deliver_pic_intr (i : nat) (level : Z) : B unit :=
  if c_true level then apic_local_deliver i APIC_LVT_LINT0
  else
    s ← apic i;
    lvt ← sm_lift (word s.(lvt) APIC_LVT_LINT0);
    let mode := Z.land (Z.shiftr lvt 8) 7 in
    if mode =? APIC_DM_FIXED then
      if negb (c_true (Z.land lvt APIC_LVT_LEVEL_TRIGGER)) then mret tt
      else
        upd i (fun s => t ← reset_bit s.(irr) (Z.land lvt 0xff); Some (set_irr t s));;
        cpu_reset_interrupt s.(cpu_env) CPU_INTERRUPT_HARD
    else if mode =? APIC_DM_EXTINT then cpu_reset_interrupt s.(cpu_env) CPU_INTERRUPT_HARD
    else mret tt.

(** ** Messages between controllers *)

(** The macro [foreach_apic] *)
Definition foreach_apic (deliver_bitmask : list Z) (code : nat -> B unit) : B unit :=
  for_loop MAX_APIC_WORDS 0 (fun i =>
    mask ← sm_lift (word deliver_bitmask i);
    if c_true mask then
      for_loop 32 0 (fun j =>
        if c_true (Z.land mask (Z.shiftl 1 j)) then
          let k := Z.to_nat (i * 32 + j) in
          a ← sm_get (fun s => s.(local_apics) !! k);
          match a with Some _ => code k | None => mret tt end
        else mret tt)
    else mret tt).

(** The search for the first set bit of the mask, -1 without one; [n] words to go
    from [i] *)
Fixpoint first_dest (n : nat) (i : Z) (deliver_bitmask : list Z) : option Z :=
  match n with
  | O => Some (-1)
  | S n =>
      w ← word deliver_bitmask i;
      if c_true w then Some (i * 32 + ffs_bit w) else first_dest n (i + 1) deliver_bitmask
  end.

Definition apic_bus_deliver (deliver_bitmask : list Z) (delivery_mode vector_num polarity trigger_mode : Z) : B unit :=
  if delivery_mode =? APIC_DM_LOWPRI then
    d ← sm_lift (first_dest MAX_APIC_WORDS 0 deliver_bitmask);
    if 0 <=? d then
      a ← sm_get (fun s => s.(local_apics) !! Z.to_nat d);
      match a with Some _ => apic_set_irq (Z.to_nat d) vector_num trigger_mode | None => mret tt end
    else mret tt
  else if delivery_mode =? APIC_DM_SMI then
    foreach_apic deliver_bitmask (fun i => a ← apic i; cpu_interrupt a.(cpu_env) CPU_INTERRUPT_SMI)
  else if delivery_mode =? APIC_DM_NMI then
    foreach_apic deliver_bitmask (fun i => a ← apic i; cpu_interrupt a.(cpu_env) CPU_INTERRUPT_NMI)
  else if delivery_mode =? APIC_DM_INIT then
    foreach_apic deliver_bitmask (fun i => a ← apic i; cpu_interrupt a.(cpu_env) CPU_INTERRUPT_INIT)
  else if (delivery_mode =? APIC_DM_FIXED) || (delivery_mode =? APIC_DM_EXTINT) then
    foreach_apic deliver_bitmask (fun i => apic_set_irq i vector_num trigger_mode)
  else mret tt.

(** The loop of [apic_find_dest]; [n] controllers to go from [i] *)
Fixpoint find_dest_loop (n : nat) (i : nat) (dest : Z) (apics : list APICState) : Z :=
  match n with
  | O => -1
  | S n =>
      match apics !! i with
      | Some a => if a.(id) =? dest then Z.of_nat i else find_dest_loop n (S i) dest apics
      | None => -1
      end
  end.

Definition apic_find_dest (dest : Z) (apics : list APICState) : Z :=
  match apics !! Z.to_nat dest with
  | Some a => if a.(id) =? dest then dest else find_dest_loop MAX_APICS 0 dest apics
  | None => find_dest_loop MAX_APICS 0 dest apics
  end.

(** Whether the logical destination designates a controller *)
Definition logical_match (dest : Z) (a : APICState) : bool :=
  if a.(dest_mode) =? 0xf then c_true (Z.land dest a.(log_dest))
  else if a.(dest_mode) =? 0x0 then
    (Z.land dest 0xf0 =? Z.land a.(log_dest) 0xf0) && c_true (Z.land (Z.land dest a.(log_dest)) 0x0f)
  else false.

Fixpoint logical_loop (n : nat) (i : nat) (dest : Z) (apics : list APICState) (mask : list Z) : option (list Z) :=
  match n with
  | O => Some mask
  | S n =>
      match apics !! i with
      | Some a =>
          mask ← (if logical_match dest a then set_bit mask (Z.of_nat i) else Some mask);
          logical_loop n (S i) dest apics mask
      | None => Some mask
      end
  end.

Definition all_zero : list Z := replicate MAX_APIC_WORDS 0.
Definition all_ones : list Z := replicate MAX_APIC_WORDS 0xffffffff.

Definition apic_get_delivery_bitmask (dest dest_mode : Z) : B (list Z) :=
  apics ← sm_get local_apics;
  if dest_mode =? 0 then
    if dest =? 0xff then mret all_ones
    else
      let idx := apic_find_dest dest apics in
      if 0 <=? idx then sm_lift (set_bit all_zero idx) else mret all_zero
  else sm_lift (logical_loop MAX_APICS 0 dest apics all_zero).

Definition apic_deliver_irq (dest dest_mode delivery_mode vector_num polarity trigger_mode : Z) : B unit :=
  deliver_bitmask ← apic_get_delivery_bitmask dest dest_mode;
  apic_bus_deliver deliver_bitmask delivery_mode vector_num polarity trigger_mode.

Definition apic_startup (i : nat) (vector_num : Z) : B unit :=
  upd i (fun s => Some (set_sipi_vector vector_num s));;
  s ← apic i;
  cpu_interrupt s.(cpu_env) CPU_INTERRUPT_SIPI.

Definition apic_deliver (d : nat) (dest dest_mode delivery_mode vector_num polarity trigger_mode : Z) : B unit :=
  s ← apic d;
  icr0 ← sm_lift (word s.(icr) 0);
  let dest_shorthand := Z.land (Z.shiftr icr0 18) 3 in
  deliver_bitmask ←
    (if dest_shorthand =? 0 then apic_get_delivery_bitmask dest dest_mode
     else if dest_shorthand =? 1 then sm_lift (set_bit all_zero s.(idx))
     else if dest_shorthand =? 2 then mret all_ones
     else sm_lift (reset_bit all_ones s.(idx)));
  if (delivery_mode =? APIC_DM_INIT) &&
     ((Z.land (Z.shiftr icr0 14) 1 =? 0) && (Z.land (Z.shiftr icr0 15) 1 =? 1)) then
    foreach_apic deliver_bitmask (fun i => upd i (fun a => Some (set_arb_id a.(id) a)))
  else if delivery_mode =? APIC_DM_SIPI then
    foreach_apic deliver_bitmask (fun i => apic_startup i vector_num)
  else apic_bus_deliver deliver_bitmask delivery_mode vector_num polarity trigger_mode.

(** ** The 8259 pair and the processors *)

Definition apic_accept_pic_intr (d : option nat) : B Z :=
  match d with
  | None => mret (-1)
  | Some i =>
      s ← apic i;
      lvt0 ← sm_lift (word s.(lvt) APIC_LVT_LINT0);
      mret (if (Z.land s.(apicbase) MSR_IA32_APICBASE_ENABLE =? 0) || (Z.land lvt0 APIC_LVT_MASKED =? 0)
            then 1 else 0)
  end.

(** [while (env)], [n] processors to go from [c] *)
Fixpoint request_loop (n c : nat) (level : Z) : B unit :=
  match n with
  | O => mret tt
  | S n =>
      env ← cpu c;
      accept ← apic_accept_pic_intr env.(apic_state);
      (if c_true accept then
         match env.(apic_state) with
         | Some i => apic_deliver_pic_intr i level
         | None => sm_fail
         end
       else mret tt);;
      request_loop n (S c) level
  end.

Definition pic_irq_request (level : Z) : B unit :=
  env ← cpu 0;
  match env.(apic_state) with
  | Some _ => n ← sm_get (fun s => length s.(cpus)); request_loop n 0 level
  | None => if c_true level then cpu_interrupt 0 CPU_INTERRUPT_HARD else cpu_reset_interrupt 0 CPU_INTERRUPT_HARD
  end.

(** The levels an operation drove, latest first, in order *)
Fixpoint drive_parent (levels : list Z) : B unit :=
  match levels with
  | [] => mret tt
  | level :: levels => drive_parent levels;; pic_irq_request level
  end.

(** An operation of the 8259 pair *)
Definition with_pic {X} (f : PicState2 -> option (X * PicState2)) : B X :=
  p ← sm_get isa_pic;
  '(x, p') ← sm_lift (f (mkPicState2 p.(pic_master) p.(pic_slave) []));
  sm_modify (set_isa_pic p');;
  drive_parent p'.(parent_irq);;
  mret x.

(** ** The I/O controller *)

(** One pin of [ioapic_service] *)
Definition service_pin (i : Z) : B unit :=
  s ← ioapic;
  let mask := Z.shiftl 1 i in
  if c_true (Z.land s.(io_irr) mask) then
    entry ← sm_lift (word s.(ioredtbl) i);
    if negb (c_true (Z.land entry IOAPIC_LVT_MASKED)) then
      let trig_mode := Z.land (Z.shiftr entry IOAPIC_LVT_TRIGGER_MODE_SHIFT) 1 in
      let dest := wrap 8 (Z.shiftr entry IOAPIC_LVT_DEST_SHIFT) in
      let dest_mode := Z.land (Z.shiftr entry IOAPIC_LVT_DEST_MODE_SHIFT) 1 in
      let delivery_mode := Z.land (Z.shiftr entry IOAPIC_LVT_DELIV_MODE_SHIFT) IOAPIC_DM_MASK in
      let polarity := Z.land (Z.shiftr entry IOAPIC_LVT_POLARITY_SHIFT) 1 in
      (if trig_mode =? IOAPIC_TRIGGER_EDGE
       then upd_ioapic (fun s => Some (set_io_irr (Z.land s.(io_irr) (Z.lnot mask)) s))
       else upd_ioapic (fun s => t ← set_word s.(ioredtbl) i (Z.lor entry IOAPIC_LVT_REMOTE_IRR); Some (set_ioredtbl t s)));;
      vector ← (if delivery_mode =? IOAPIC_DM_EXTINT
                then v ← with_pic (fun p => Some (pic_read_irq p)); mret (wrap 8 v)
                else mret (Z.land entry IOAPIC_VECTOR_MASK));
      apic_deliver_irq dest dest_mode delivery_mode vector polarity trig_mode
    else mret tt
  else mret tt.

Definition ioapic_service : B unit := for_loop (Z.to_nat IOAPIC_NUM_PINS) 0 service_pin.

Definition ioapic_set_irq (vector level : Z) : B unit :=
  let vector := if vector =? 0 then 2 else vector in
  if (0 <=? vector) && (vector <? IOAPIC_NUM_PINS) then
    let mask := Z.shiftl 1 vector in
    s ← ioapic;
    entry ← sm_lift (word s.(ioredtbl) vector);
    if Z.land (Z.shiftr entry IOAPIC_LVT_TRIGGER_MODE_SHIFT) 1 =? IOAPIC_TRIGGER_LEVEL then
      if c_true level then
        upd_ioapic (fun s => Some (set_io_irr (Z.lor s.(io_irr) mask) s));; ioapic_service
      else upd_ioapic (fun s => Some (set_io_irr (Z.land s.(io_irr) (Z.lnot mask)) s))
    else if c_true level && negb (c_true (Z.land entry IOAPIC_LVT_MASKED)) then
      upd_ioapic (fun s => Some (set_io_irr (Z.lor s.(io_irr) mask) s));; ioapic_service
    else mret tt
  else mret tt.

(** One pin of [ioapic_eoi_broadcast] *)
Definition eoi_pin (vector n : Z) : B unit :=
  s ← ioapic;
  entry ← sm_lift (word s.(ioredtbl) n);
  if c_true (Z.land entry IOAPIC_LVT_REMOTE_IRR) && (Z.land entry IOAPIC_VECTOR_MASK =? vector) then
    upd_ioapic (fun s => t ← set_word s.(ioredtbl) n (Z.land entry (Z.lnot IOAPIC_LVT_REMOTE_IRR)); Some (set_ioredtbl t s));;
    if negb (c_true (Z.land entry IOAPIC_LVT_MASKED)) && c_true (Z.land s.(io_irr) (Z.shiftl 1 n))
    then ioapic_service else mret tt
  else mret tt.

Definition ioapic_eoi_broadcast (vector : Z) : B unit :=
  s ← sm_get ioapics;
  match s with
  | None => mret tt
  | Some _ => for_loop (Z.to_nat IOAPIC_NUM_PINS) 0 (eoi_pin vector)
  end.

Definition ioapic_mem_readl (addr : Z) : B Z :=
  s ← ioapic;
  let sel := Z.land addr 0xff in
  if sel =? IOAPIC_IOREGSEL then mret s.(ioregsel)
  else if sel =? IOAPIC_IOWIN then
    if s.(ioregsel) =? IOAPIC_REG_ID then mret (wrap 32 (Z.shiftl s.(io_id) IOAPIC_ID_SHIFT))
    else if s.(ioregsel) =? IOAPIC_REG_VER then
      mret (Z.lor IOAPIC_VERSION (Z.shiftl (IOAPIC_NUM_PINS - 1) IOAPIC_VER_ENTRIES_SHIFT))
    else if s.(ioregsel) =? IOAPIC_REG_ARB then mret 0
    else
      let index := Z.shiftr (s.(ioregsel) - IOAPIC_REG_REDTBL_BASE) 1 in
      if (0 <=? index) && (index <? IOAPIC_NUM_PINS) then
        entry ← sm_lift (word s.(ioredtbl) index);
        mret (if c_true (Z.land s.(ioregsel) 1) then wrap 32 (Z.shiftr entry 32) else Z.land entry 0xffffffff)
      else mret 0
  else mret 0.

Definition ioapic_mem_writel (addr val : Z) : B unit :=
  let sel := Z.land addr 0xff in
  if sel =? IOAPIC_IOREGSEL then upd_ioapic (fun s => Some (set_ioregsel (wrap 8 val) s))
  else if sel =? IOAPIC_IOWIN then
    s ← ioapic;
    if s.(ioregsel) =? IOAPIC_REG_ID then
      upd_ioapic (fun s => Some (set_io_id (Z.land (Z.shiftr val IOAPIC_ID_SHIFT) IOAPIC_ID_MASK) s))
    else if (s.(ioregsel) =? IOAPIC_REG_VER) || (s.(ioregsel) =? IOAPIC_REG_ARB) then mret tt
    else
      let index := Z.shiftr (s.(ioregsel) - IOAPIC_REG_REDTBL_BASE) 1 in
      if (0 <=? index) && (index <? IOAPIC_NUM_PINS) then
        entry ← sm_lift (word s.(ioredtbl) index);
        let entry :=
          if c_true (Z.land s.(ioregsel) 1)
          then Z.lor (Z.land entry 0xffffffff) (wrap 64 (Z.shiftl val 32))
          else Z.lor (Z.land entry (Z.lnot 0xffffffff)) val in
        upd_ioapic (fun s => t ← set_word s.(ioredtbl) index entry; Some (set_ioredtbl t s));;
        ioapic_service
      else mret tt
  else mret tt.

Definition ioapic_reset : B unit :=
  upd_ioapic (fun _ => Some (mkIOAPIC 0 0 0 (replicate (Z.to_nat IOAPIC_NUM_PINS) (Z.shiftl 1 IOAPIC_LVT_MASKED_SHIFT)))).

Definition ioapic_post_load (version_id : Z) : B unit :=
  if version_id =? 1 then upd_ioapic (fun s => Some (set_io_irr 0 s)) else mret tt.

(** A device line of the board: an 8259 input below 16, and a pin *)
Definition isa_irq_handler (n level : Z) : B unit :=
  (if n <? 16 then with_pic (fun p => Some (tt, i8259_set_irq n level p)) else mret tt);;
  s ← sm_get ioapics;
  match s with Some _ => ioapic_set_irq n level | None => mret tt end.

(** ** Acknowledge and end of interrupt *)

Definition apic_eoi (i : nat) : B unit :=
  s ← apic i;
  isrv ← sm_lift (get_highest_priority_int s.(isr));
  if isrv <? 0 then mret tt
  else
    upd i (fun s => t ← reset_bit s.(isr) isrv; Some (set_isr t s));;
    level ← sm_lift (get_bit s.(tmr) isrv);
    (if negb (c_true (Z.land s.(spurious_vec) APIC_SV_DIRECTED_IO)) && level
     then ioapic_eoi_broadcast isrv else mret tt);;
    apic_update_irq i.

Definition apic_get_interrupt (d : option nat) : B Z :=
  match d with
  | None => mret (-1)
  | Some i =>
      s ← apic i;
      if negb (c_true (Z.land s.(spurious_vec) APIC_SV_ENABLE)) then mret (-1)
      else
        intno ← sm_lift (apic_irq_pending s);
        if intno =? 0 then mret (-1)
        else if intno <? 0 then mret (Z.land s.(spurious_vec) 0xff)
        else
          upd i (fun s => t ← reset_bit s.(irr) intno; Some (set_irr t s));;
          upd i (fun s => t ← set_bit s.(isr) intno; Some (set_isr t s));;
          apic_update_irq i;;
          mret intno
  end.

Definition cpu_get_pic_interrupt (c : nat) : B Z :=
  env ← cpu c;
  intno ← apic_get_interrupt env.(apic_state);
  if 0 <=? intno then with_pic (fun p => Some (tt, pic_update_irq p));; mret intno
  else
    accept ← apic_accept_pic_intr env.(apic_state);
    if negb (c_true accept) then mret (-1)
    else with_pic (fun p => Some (pic_read_irq p)).

(** The processor takes a hardware interrupt. *)
Definition take_interrupt (c : nat) : B Z :=
  cpu_reset_interrupt c (Z.lor CPU_INTERRUPT_HARD CPU_INTERRUPT_VIRQ);; cpu_get_pic_interrupt c.

(** ** Registers the processor sets *)

Definition cpu_set_apic_base (d : option nat) (val : Z) : B unit :=
  match d with
  | None => mret tt
  | Some i =>
      upd i (fun s => Some (set_apicbase (Z.lor (Z.land val 0xfffff000)
        (Z.land s.(apicbase) (Z.lor MSR_IA32_APICBASE_BSP MSR_IA32_APICBASE_ENABLE))) s));;
      if negb (c_true (Z.land val MSR_IA32_APICBASE_ENABLE)) then
        upd i (fun s => Some (set_apicbase (Z.land s.(apicbase) (Z.lnot MSR_IA32_APICBASE_ENABLE)) s));;
        s ← apic i;
        upd_cpu s.(cpu_env) (fun o => set_cpuid_features (Z.land o.(cpuid_features) (Z.lnot CPUID_APIC)) o);;
        upd i (fun s => Some (set_spurious_vec (Z.land s.(spurious_vec) (Z.lnot APIC_SV_ENABLE)) s))
      else mret tt
  end.

Definition cpu_get_apic_base (d : option nat) : B Z :=
  match d with None => mret 0 | Some i => s ← apic i; mret s.(apicbase) end.

Definition cpu_set_apic_tpr (d : option nat) (val : Z) : B unit :=
  match d with
  | None => mret tt
  | Some i => upd i (fun s => Some (set_tpr (Z.shiftl (Z.land val 0x0f) 4) s));; apic_update_irq i
  end.

Definition cpu_get_apic_tpr (d : option nat) : B Z :=
  match d with None => mret 0 | Some i => s ← apic i; mret (Z.shiftr s.(tpr) 4) end.

(** ** Timer *)

Definition apic_get_current_count (i : nat) : B Z :=
  s ← apic i;
  now ← sm_get vm_clock;
  lvt ← sm_lift (word s.(lvt) APIC_LVT_TIMER);
  let d := Z.shiftr (to_signed 64 (now - s.(initial_count_load_time))) s.(count_shift) in
  mret (if c_true (Z.land lvt APIC_LVT_TIMER_PERIODIC)
        then wrap 32 (s.(initial_count) - wrap 64 d mod (s.(initial_count) + 1))
        else if s.(initial_count) <=? d then 0 else wrap 32 (s.(initial_count) - d)).

(** The time [d] ticks after the count was loaded is the next expiry; [None] is
    [no_timer]. *)
Definition next_expiry (s : APICState) (lvt current_time : Z) : option Z :=
  if c_true (Z.land lvt APIC_LVT_MASKED) then None
  else
    let d := Z.shiftr (to_signed 64 (current_time - s.(initial_count_load_time))) s.(count_shift) in
    d ← (if c_true (Z.land lvt APIC_LVT_TIMER_PERIODIC) then
           if s.(initial_count) =? 0 then None
           else Some (to_signed 64 ((wrap 64 d / (s.(initial_count) + 1) + 1) * (s.(initial_count) + 1)))
         else if s.(initial_count) <=? d then None
         else Some (s.(initial_count) + 1));
    Some (to_signed 64 (s.(initial_count_load_time) + to_signed 64 (Z.shiftl d s.(count_shift)))).

Definition apic_timer_update (i : nat) (current_time : Z) : B unit :=
  s ← apic i;
  lvt ← sm_lift (word s.(lvt) APIC_LVT_TIMER);
  match next_expiry s lvt current_time with
  | Some t => upd i (fun s => Some (set_next_time t (set_timer (Some t) s)))
  | None => upd i (fun s => Some (set_timer None s))
  end.

Definition apic_timer (i : nat) : B unit :=
  apic_local_deliver i APIC_LVT_TIMER;;
  s ← apic i;
  apic_timer_update i s.(next_time).

(** ** Memory-mapped registers *)

Definition cpu_get_current_apic (cpu_single_env : option nat) : B (option nat) :=
  match cpu_single_env with
  | Some c => env ← cpu c; mret env.(apic_state)
  | None => mret None
  end.

Definition apic_mem_readb (addr : Z) : B Z := mret 0.
Definition apic_mem_readw (addr : Z) : B Z := mret 0.
Definition apic_mem_writeb (addr val : Z) : B unit := mret tt.
Definition apic_mem_writew (addr val : Z) : B unit := mret tt.

(** The registers that are read as they are *)
Definition read_register (s : APICState) (index : Z) : option Z :=
  if index =? 0x02 then Some (wrap 32 (Z.shiftl s.(id) 24))
  else if index =? 0x03 then Some (Z.lor 0x11 (Z.shiftl (APIC_LVT_NB - 1) 16))
  else if index =? 0x08 then Some s.(tpr)
  else if index =? 0x09 then Some (apic_get_arb_pri s)
  else if index =? 0x0a then apic_get_ppr s
  else if index =? 0x0b then Some 0
  else if index =? 0x0d then Some (wrap 32 (Z.shiftl s.(log_dest) 24))
  else if index =? 0x0e then Some (wrap 32 (Z.shiftl s.(dest_mode) 28))
  else if index =? 0x0f then Some s.(spurious_vec)
  else if (0x10 <=? index) && (index <=? 0x17) then word s.(isr) (Z.land index 7)
  else if (0x18 <=? index) && (index <=? 0x1f) then word s.(tmr) (Z.land index 7)
  else if (0x20 <=? index) && (index <=? 0x27) then word s.(irr) (Z.land index 7)
  else if index =? 0x28 then Some s.(esr)
  else if (0x30 <=? index) && (index <=? 0x31) then word s.(icr) (Z.land index 1)
  else if (0x32 <=? index) && (index <=? 0x37) then word s.(lvt) (index - 0x32)
  else if index =? 0x38 then Some s.(initial_count)
  else Some s.(divide_conf).

Definition apic_mem_readl (cpu_single_env : option nat) (addr : Z) : B Z :=
  d ← cpu_get_current_apic cpu_single_env;
  match d with
  | None => mret 0
  | Some i =>
      let index := Z.land (Z.shiftr addr 4) 0xff in
      if index =? 0x39 then apic_get_current_count i
      else if ((0x02 <=? index) && (index <=? 0x03)) || ((0x08 <=? index) && (index <=? 0x0b)) ||
              ((0x0d <=? index) && (index <=? 0x28)) || ((0x30 <=? index) && (index <=? 0x38)) ||
              (index =? 0x3e)
      then s ← apic i; sm_lift (read_register s index)
      else upd i (fun s => Some (set_esr (Z.lor s.(esr) ESR_ILLEGAL_ADDRESS) s));; mret 0
  end.

Definition apic_send_msi (addr data : Z) : B unit :=
  let dest := wrap 8 (Z.shiftr (Z.land addr MSI_ADDR_DEST_ID_MASK) MSI_ADDR_DEST_ID_SHIFT) in
  let vector := wrap 8 (Z.shiftr (Z.land data MSI_DATA_VECTOR_MASK) MSI_DATA_VECTOR_SHIFT) in
  let dest_mode := Z.land (Z.shiftr addr MSI_ADDR_DEST_MODE_SHIFT) 0x1 in
  let trigger_mode := Z.land (Z.shiftr data MSI_DATA_TRIGGER_SHIFT) 0x1 in
  let delivery := Z.land (Z.shiftr data MSI_DATA_DELIVERY_MODE_SHIFT) 0x7 in
  apic_deliver_irq dest dest_mode delivery vector 0 trigger_mode.

(** The interrupt command register: a message to other processors *)
Definition write_icr (i : nat) (val : Z) : B unit :=
  upd i (fun s => t ← set_word s.(icr) 0 val; Some (set_icr t s));;
  s ← apic i;
  icr0 ← sm_lift (word s.(icr) 0);
  icr1 ← sm_lift (word s.(icr) 1);
  apic_deliver i (Z.land (Z.shiftr icr1 24) 0xff) (Z.land (Z.shiftr icr0 11) 1)
    (Z.land (Z.shiftr icr0 8) 7) (Z.land icr0 0xff) (Z.land (Z.shiftr icr0 14) 1) (Z.land (Z.shiftr icr0 15) 1).

Definition write_lvt (i : nat) (n val : Z) : B unit :=
  upd i (fun s => t ← set_word s.(lvt) n val; Some (set_lvt t s));;
  if n =? APIC_LVT_TIMER then now ← sm_get vm_clock; apic_timer_update i now else mret tt.

Definition write_initial_count (i : nat) (val : Z) : B unit :=
  now ← sm_get vm_clock;
  upd i (fun s => Some (set_initial_count_load_time now (set_initial_count val s)));;
  apic_timer_update i now.

Definition write_divide (val : Z) (s : APICState) : APICState :=
  let divide_conf := Z.land val 0xb in
  let v := Z.lor (Z.land divide_conf 3) (Z.land (Z.shiftr divide_conf 1) 4) in
  set_count_shift (Z.land (v + 1) 7) (set_divide_conf divide_conf s).

Definition apic_mem_writel (cpu_single_env : option nat) (addr val : Z) : B unit :=
  let index := Z.land (Z.shiftr addr 4) 0xff in
  if (0xfff <? addr) || (index =? 0) then apic_send_msi addr val
  else
    d ← cpu_get_current_apic cpu_single_env;
    match d with
    | None => mret tt
    | Some i =>
        if index =? 0x02 then upd i (fun s => Some (set_id (wrap 8 (Z.shiftr val 24)) s))
        else if index =? 0x03 then mret tt
        else if index =? 0x08 then upd i (fun s => Some (set_tpr (wrap 8 val) s));; apic_update_irq i
        else if (index =? 0x09) || (index =? 0x0a) then mret tt
        else if index =? 0x0b then apic_eoi i
        else if index =? 0x0d then upd i (fun s => Some (set_log_dest (wrap 8 (Z.shiftr val 24)) s))
        else if index =? 0x0e then upd i (fun s => Some (set_dest_mode (wrap 8 (Z.shiftr val 28)) s))
        else if index =? 0x0f then
          upd i (fun s => Some (set_spurious_vec (Z.land val 0x1ff) s));; apic_update_irq i
        else if (0x10 <=? index) && (index <=? 0x28) then mret tt
        else if index =? 0x30 then write_icr i val
        else if index =? 0x31 then upd i (fun s => t ← set_word s.(icr) 1 val; Some (set_icr t s))
        else if (0x32 <=? index) && (index <=? 0x37) then write_lvt i (index - 0x32) val
        else if index =? 0x38 then write_initial_count i val
        else if index =? 0x39 then mret tt
        else if index =? 0x3e then upd i (fun s => Some (write_divide val s))
        else upd i (fun s => Some (set_esr (Z.lor s.(esr) ESR_ILLEGAL_ADDRESS) s))
    end.

(** ** Reset and start-up *)

Definition cpu_is_bsp (c : nat) : bool := bool_decide (c = 0%nat).

(** The registers after an INIT *)
Definition init_reset (s : APICState) : APICState :=
  mkAPIC s.(cpu_env) s.(apicbase) s.(id) s.(arb_id) 0 0xff 0 0xf (replicate 8 0) (replicate 8 0) (replicate 8 0)
    (replicate (Z.to_nat APIC_LVT_NB) (Z.shiftl 1 16)) 0 (replicate 2 0) 0 0 0 0 0 s.(idx) s.(timer) s.(sipi_vector) 1.

Definition apic_init_reset (d : option nat) : B unit :=
  match d with None => mret tt | Some i => upd i (fun s => Some (init_reset s)) end.

Definition apic_reset (i : nat) : B unit :=
  s ← apic i;
  let bsp := cpu_is_bsp s.(cpu_env) in
  upd i (fun s => Some (set_apicbase (Z.lor (Z.lor 0xfee00000 (if bsp then MSR_IA32_APICBASE_BSP else 0))
                                        MSR_IA32_APICBASE_ENABLE) s));;
  apic_init_reset (Some i);;
  if bsp then upd i (fun s => t ← set_word s.(lvt) APIC_LVT_LINT0 0x700; Some (set_lvt t s)) else mret tt.

Definition apic_sipi (d : option nat) : B unit :=
  match d with
  | None => sm_fail
  | Some i =>
      s ← apic i;
      cpu_reset_interrupt s.(cpu_env) CPU_INTERRUPT_SIPI;;
      if negb (c_true s.(wait_for_sipi)) then mret tt
      else
        upd_cpu s.(cpu_env) (fun o => set_halted false (set_sipi_started (s.(sipi_vector) :: o.(sipi_started)) o));;
        upd i (fun s => Some (set_wait_for_sipi 0 s))
  end.

(** What [do_cpu_init] and [do_cpu_sipi] do to the controllers and requests; the
    rest of the processor is reset by [cpu_reset]. *)
Definition do_cpu_init (c : nat) : B unit :=
  env ← cpu c;
  let sipi := Z.land env.(interrupt_request) CPU_INTERRUPT_SIPI in
  upd_cpu c (set_interrupt_request sipi);;
  apic_init_reset env.(apic_state);;
  upd_cpu c (set_halted (negb (cpu_is_bsp c))).

Definition do_cpu_sipi (c : nat) : B unit := env ← cpu c; apic_sipi env.(apic_state).

(** A controller before its reset, all zero but for its properties *)
Definition new_apic (env : nat) (apic_id idx : Z) : APICState :=
  mkAPIC env 0 apic_id 0 0 0 0 0 (replicate 8 0) (replicate 8 0) (replicate 8 0) (replicate (Z.to_nat APIC_LVT_NB) 0)
    0 (replicate 2 0) 0 0 0 0 0 idx None 0 0.

(** The new controller is behind the others; [last_apic_idx] is their number. *)
Definition apic_init1 (env : nat) (apic_id : Z) : B Z :=
  last_apic_idx ← sm_get (fun s => length s.(local_apics));
  if (MAX_APICS <=? last_apic_idx)%nat then mret (-1)
  else
    sm_modify (fun s => set_local_apics (s.(local_apics) ++ [new_apic env apic_id (Z.of_nat last_apic_idx)]) s);;
    mret 0.

(** A processor, with a controller if its features say so or there are several
    ([pc_new_cpu], [apic_init]); failing to register it ends the program. *)
Definition pc_new_cpu (smp_cpus features : Z) : B unit :=
  c ← sm_get (fun s => length s.(cpus));
  if c_true (Z.land features CPUID_APIC) || (1 <? smp_cpus) then
    i ← sm_get (fun s => length s.(local_apics));
    ret ← apic_init1 c (wrap 8 (Z.of_nat c));
    if ret <? 0 then sm_fail
    else
      sm_modify (fun s => set_cpus (s.(cpus) ++ [mkCPU 0 features (negb (cpu_is_bsp c)) [] (Some i)]) s);;
      apic_reset i
  else sm_modify (fun s => set_cpus (s.(cpus) ++ [mkCPU 0 features (negb (cpu_is_bsp c)) [] None]) s).

Definition ioapic_init1 : B Z :=
  s ← sm_get ioapics;
  match s with
  | Some _ => mret (-1)
  | None => sm_modify (set_ioapics (Some (mkIOAPIC 0 0 0 (replicate (Z.to_nat IOAPIC_NUM_PINS) 0))));; mret 0
  end.

Definition bus_init : bus := mkBus [] [] 0 None i8259_init 0.

(** A board with [n] processors *)
Definition pc_init (n : nat) (features : Z) : B unit :=
  for_loop n 0 (fun _ => pc_new_cpu (Z.of_nat n) features);;
  ioapic_init1;;
  ioapic_reset.

(** ** Vector tables as sets *)

Definition tab_wf (t : list Z) : Prop := length t = 8%nat /\ Forall (in_u 32) t.

Definition has (t : list Z) (v : Z) : bool :=
  Z.testbit (default 0 (t !! Z.to_nat (Z.shiftr v 5))) (Z.land v 0x1f).

(** Word and position of a vector *)
Lemma vector_place v :
  0 <= v < 256 -> 0 <= Z.shiftr v 5 < 8 /\ 0 <= Z.land v 0x1f < 32 /\ v = Z.shiftr v 5 * 32 + Z.land v 0x1f.
Proof.
  intros Hv. rewrite Z.shiftr_div_pow2 by lia. change 0x1f with (Z.ones 5). rewrite Z.land_ones by lia.
  change (2 ^ 5) with 32. Z.to_euclidean_division_equations. lia.
Qed.

Lemma place_inj v w :
  0 <= v < 256 -> 0 <= w < 256 -> Z.shiftr v 5 = Z.shiftr w 5 -> Z.land v 0x1f = Z.land w 0x1f -> v = w.
Proof.
  intros Hv Hw E1 E2. destruct (vector_place v Hv) as (_ & _ & ->). destruct (vector_place w Hw) as (_ & _ & ->). lia.
Qed.

Lemma word_some t i : length t = 8%nat -> 0 <= i < 8 -> exists w, word t i = Some w /\ t !! Z.to_nat i = Some w.
Proof.
  intros Hl Hi. unfold word. rewrite (proj2 (Z.leb_le 0 i)) by lia. destruct (lookup_lt_is_Some_2 t (Z.to_nat i)) as [w Hw]; [lia |].
  by exists w.
Qed.

(** Changing the word of a vector to one with the bit at its place set to [b] *)
Lemma change_bit_spec t v w w' b :
  tab_wf t -> 0 <= v < 256 -> t !! Z.to_nat (Z.shiftr v 5) = Some w -> in_u 32 w' ->
  (forall j, 0 <= j < 32 -> Z.testbit w' j = if j =? Z.land v 0x1f then b else Z.testbit w j) ->
  tab_wf (<[Z.to_nat (Z.shiftr v 5) := w']> t) /\
  forall u, 0 <= u < 256 -> has (<[Z.to_nat (Z.shiftr v 5) := w']> t) u = if u =? v then b else has t u.
Proof.
  intros [Hl Hf] Hv Hw Hw' Hb. destruct (vector_place v Hv) as (Hi & Hj & _). split.
  - split; [by rewrite length_insert | by apply Forall_insert].
  - intros u Hu. destruct (vector_place u Hu) as (Hiu & Hju & _). unfold has.
    destruct (decide (Z.shiftr u 5 = Z.shiftr v 5)) as [E | E].
    + rewrite E, list_lookup_insert_eq by lia. cbn. rewrite Hb by done. rewrite Hw. cbn.
      destruct (Z.eqb_spec (Z.land u 0x1f) (Z.land v 0x1f)) as [E' | E'].
      * by rewrite (place_inj u v Hu Hv E E'), Z.eqb_refl.
      * destruct (Z.eqb_spec u v) as [-> | _]; done.
    + rewrite list_lookup_insert_ne by lia. destruct (Z.eqb_spec u v) as [-> | _]; done.
Qed.

Lemma set_bit_spec t v :
  tab_wf t -> 0 <= v < 256 ->
  exists t', set_bit t v = Some t' /\ tab_wf t' /\ forall u, 0 <= u < 256 -> has t' u = if u =? v then true else has t u.
Proof.
  intros Ht Hv. destruct (vector_place v Hv) as (Hi & Hj & _). destruct (word_some t _ (proj1 Ht) Hi) as (w & Hw & Hl).
  assert (in_u 32 w) by by apply (Forall_lookup_1 _ _ _ _ (proj2 Ht) Hl).
  unfold set_bit, set_word. rewrite Hw. bind_step. bind_step. eexists. split; [done |].
  apply (change_bit_spec t v w _ true Ht Hv Hl); [width |]. intros j Hjj. rewrite Z.lor_spec, testbit_bit by lia.
  destruct (Z.eqb_spec j (Z.land v 0x1f)) as [-> | Hne]; [by rewrite bool_decide_eq_true_2, orb_true_r |].
  rewrite bool_decide_eq_false_2 by lia. apply orb_false_r.
Qed.

Lemma reset_bit_spec t v :
  tab_wf t -> 0 <= v < 256 ->
  exists t', reset_bit t v = Some t' /\ tab_wf t' /\ forall u, 0 <= u < 256 -> has t' u = if u =? v then false else has t u.
Proof.
  intros Ht Hv. destruct (vector_place v Hv) as (Hi & Hj & _). destruct (word_some t _ (proj1 Ht) Hi) as (w & Hw & Hl).
  assert (in_u 32 w) by by apply (Forall_lookup_1 _ _ _ _ (proj2 Ht) Hl).
  unfold reset_bit, set_word. rewrite Hw. bind_step. bind_step. eexists. split; [done |].
  apply (change_bit_spec t v w _ false Ht Hv Hl); [width |]. intros j Hjj. rewrite Z.land_spec, Z.lnot_spec, testbit_bit by lia.
  destruct (Z.eqb_spec j (Z.land v 0x1f)) as [-> | Hne]; [by rewrite bool_decide_eq_true_2, andb_false_r |].
  rewrite bool_decide_eq_false_2 by lia. apply andb_true_r.
Qed.

Lemma get_bit_spec t v : tab_wf t -> 0 <= v < 256 -> get_bit t v = Some (has t v).
Proof.
  intros Ht Hv. destruct (vector_place v Hv) as (Hi & Hj & _). destruct (word_some t _ (proj1 Ht) Hi) as (w & Hw & Hl).
  unfold get_bit, has. rewrite Hw, Hl. bind_step. cbn [default]. f_equal. by rewrite c_true_land_bit by lia.
Qed.

Lemma has_zero n v : has (replicate n 0) v = false.
Proof.
  unfold has. destruct (replicate n 0 !! Z.to_nat (Z.shiftr v 5)) as [w |] eqn:E; [| apply Z.bits_0].
  apply lookup_replicate in E as [-> _]. apply Z.bits_0.
Qed.

Lemma tab_zero_wf : tab_wf (replicate 8 0).
Proof. split; [done |]. by repeat constructor. Qed.

(** *** The highest vector *)

Lemma fls_bit_spec w :
  in_u 32 w -> w <> 0 ->
  0 <= fls_bit w < 32 /\ Z.testbit w (fls_bit w) = true /\ forall j, fls_bit w < j -> Z.testbit w j = false.
Proof.
  intros Hw Hne. unfold fls_bit. rewrite clz32_spec by done. unfold leading_zeros. rewrite (proj2 (Z.eqb_neq w 0)) by done.
  replace (31 - (32 - 1 - Z.log2 w)) with (Z.log2 w) by lia. unfold in_u in Hw. split; [| split].
  - split; [apply Z.log2_nonneg | apply Z.log2_lt_pow2; lia].
  - apply Z.bit_log2. lia.
  - intros j Hj. apply Z.bits_above_log2; lia.
Qed.

Lemma highest_loop_spec n t :
  (n <= 8)%nat -> tab_wf t ->
  exists h, highest_loop n t = Some h /\ -1 <= h < Z.of_nat n * 32 /\ (0 <= h -> has t h = true) /\
    forall u, 0 <= u < Z.of_nat n * 32 -> has t u = true -> u <= h.
Proof.
  intros Hn Ht. induction n as [| n IH]; cbn [highest_loop].
  - exists (-1). split; [done |]. split; [lia |]. split; [lia |]. lia.
  - destruct (lookup_lt_is_Some_2 t n) as [w Hw]; [rewrite (proj1 Ht); lia |]. rewrite Hw. bind_step.
    assert (Hiu : in_u 32 w) by by apply (Forall_lookup_1 _ _ _ _ (proj2 Ht) Hw).
    assert (Hhas : forall u, Z.of_nat n * 32 <= u < Z.of_nat (S n) * 32 -> has t u = Z.testbit w (u - Z.of_nat n * 32)).
    { intros u Hu. destruct (vector_place u) as (Hi & Hj & E); [lia |]. unfold has.
      assert (Z.shiftr u 5 = Z.of_nat n) as Es by lia. rewrite Es, Nat2Z.id, Hw. cbn. f_equal. lia. }
    destruct (c_true w) eqn:Ec.
    + apply c_true_nonzero in Ec. destruct (fls_bit_spec w Hiu Ec) as (Hr & Hb & Ha). eexists. split; [done |].
      split; [lia |]. split; [intros _; rewrite Hhas by lia; by replace (Z.of_nat n * 32 + fls_bit w - Z.of_nat n * 32) with (fls_bit w) by lia |].
      intros u Hu Hset. destruct (Z.le_gt_cases u (Z.of_nat n * 32 + fls_bit w)) as [|Hgt]; [done |].
      rewrite Hhas, Ha in Hset by lia. done.
    + assert (w = 0) as -> by by apply negb_false_iff, Z.eqb_eq in Ec.
      destruct IH as (h & -> & Hr & Hh & Hmax); [lia |]. exists h. split; [done |]. split; [lia |]. split; [done |].
      intros u Hu Hset. destruct (Z.lt_ge_cases u (Z.of_nat n * 32)) as [|Hge]; [apply Hmax; [lia | done] |].
      rewrite Hhas, Z.bits_0 in Hset by lia. done.
Qed.

(** The greatest vector of the set, -1 when it is empty *)
Lemma highest_spec t :
  tab_wf t ->
  exists h, get_highest_priority_int t = Some h /\ -1 <= h < 256 /\ (0 <= h -> has t h = true) /\
    forall u, 0 <= u < 256 -> has t u = true -> u <= h.
Proof. apply (highest_loop_spec 8); lia. Qed.

(** ** The timer *)

Lemma signed_small z : - 2 ^ 63 <= z < 2 ^ 63 -> to_signed 64 z = z.
Proof.
  intros Hz. unfold to_signed, wrap. change (64 - 1) with 63. assert (H63 : 2 ^ 64 = 2 * 2 ^ 63) by done.
  destruct (Z.lt_ge_cases z 0).
  - rewrite <- (Z.mod_unique_pos z (2 ^ 64) (-1) (z + 2 ^ 64)) by lia. destruct (Z.ltb_spec (z + 2 ^ 64) (2 ^ 63)); lia.
  - rewrite Z.mod_small by lia. destruct (Z.ltb_spec z (2 ^ 63)); lia.
Qed.

(** A periodic timer expires at the multiples of its period after the count was
    loaded, however late it is set up again: the next one lies behind the present,
    at most one period. *)
Lemma periodic_expiry s lvt now :
  0 <= s.(count_shift) < 8 -> 0 < s.(initial_count) < 2 ^ 32 ->
  c_true (Z.land lvt APIC_LVT_MASKED) = false -> c_true (Z.land lvt APIC_LVT_TIMER_PERIODIC) = true ->
  0 <= s.(initial_count_load_time) <= now -> now < 2 ^ 62 ->
  let period := (s.(initial_count) + 1) * 2 ^ s.(count_shift) in
  exists t, next_expiry s lvt now = Some t /\ now < t <= now + period /\ (t - s.(initial_count_load_time)) mod period = 0.
Proof.
  intros Hsh Hc Hm Hp Hload Hnow period. unfold next_expiry. rewrite Hm, Hp, (proj2 (Z.eqb_neq s.(initial_count) 0)) by lia.
  set (load := s.(initial_count_load_time)) in *. set (c := s.(initial_count) + 1) in *. set (sh := s.(count_shift)) in *.
  assert (H2 : 0 < 2 ^ sh <= 2 ^ 7) by (split; [apply Z.pow_pos_nonneg; lia | apply Z.pow_le_mono_r; lia]).
  assert (Hper : 0 < period < 2 ^ 40) by (unfold period; nia).
  rewrite (signed_small (now - load)), Z.shiftr_div_pow2 by lia. unfold wrap.
  assert (Hd : 0 <= (now - load) / 2 ^ sh <= now - load) by (split; [apply Z.div_pos; lia | apply Z.div_le_upper_bound; nia]).
  rewrite (Z.mod_small ((now - load) / 2 ^ sh)) by lia. rewrite Z.div_div by lia. rewrite bind_some.
  assert (Ep : 2 ^ sh * c = period) by (unfold period; lia). rewrite Ep.
  pose proof (Z.div_mod (now - load) period ltac:(lia)) as Hdm. pose proof (Z.mod_pos_bound (now - load) period ltac:(lia)) as Hmb.
  set (q := (now - load) / period) in *. assert (Hq : 0 <= q) by (apply Z.div_pos; lia).
  assert (Hqc : 0 <= (q + 1) * c <= (q + 1) * period) by (unfold period; nia).
  rewrite (signed_small ((q + 1) * c)) by nia. rewrite Z.shiftl_mul_pow2 by lia.
  assert (Et : (q + 1) * c * 2 ^ sh = (q + 1) * period) by (unfold period; lia). rewrite Et.
  rewrite (signed_small ((q + 1) * period)), (signed_small (load + (q + 1) * period)) by nia.
  eexists. split; [done |]. split; [nia |]. replace (load + (q + 1) * period - load) with ((q + 1) * period) by lia. apply Z.mod_mul. lia.
Qed.
