(* ===== verification/ApicBus.v ===== *)
(** * What the interrupt controllers guarantee (qemu/hw/apic.c, hw/ioapic.c, hw/pc.c)

    The invariants of the bus of [Apic], kept by every operation: registers have
    their widths, pointers and places agree, interrupts in service have different
    classes, and a processor whose controller has an interrupt to present is
    requested to stop.  Operations are then strung together arbitrarily.

    While an operation is under way, a controller may have an interrupt nobody
    was told of yet; [X] is the set of such controllers. *)

From Stdlib Require Import ZArith Lia.
From stdpp Require Import base option numbers list.
From S2P Require Import Prelude HostUtils I8259 Stm Apic.

Local Open Scope Z_scope.

(** ** Rules *)

Lemma runs_apic s i a (P : APICState -> bus -> Prop) : s.(local_apics) !! i = Some a -> P a s -> runs (apic i) s P.
Proof. intros E H. exists a, s. split; [| done]. unfold apic, mbind, sm_bind, sm_get, sm_lift. by rewrite E. Qed.

Lemma runs_upd s i a a' f (P : unit -> bus -> Prop) :
  s.(local_apics) !! i = Some a -> f a = Some a' ->
  P tt (set_local_apics (<[i := a']> s.(local_apics)) s) -> runs (upd i f) s P.
Proof.
  intros E Ef H. eexists _, _. split; [| exact H]. unfold upd, apic, mbind, sm_bind, sm_get, sm_lift, sm_modify.
  rewrite E. cbn. by rewrite Ef.
Qed.

Lemma runs_cpu s c o (P : CPUState -> bus -> Prop) : s.(cpus) !! c = Some o -> P o s -> runs (cpu c) s P.
Proof. intros E H. exists o, s. split; [| done]. unfold cpu, mbind, sm_bind, sm_get, sm_lift. by rewrite E. Qed.

Lemma runs_upd_cpu s c o f (P : unit -> bus -> Prop) :
  s.(cpus) !! c = Some o -> P tt (set_cpus (<[c := f o]> s.(cpus)) s) -> runs (upd_cpu c f) s P.
Proof.
  intros E H. eexists _, _. split; [| exact H]. unfold upd_cpu, cpu, mbind, sm_bind, sm_get, sm_lift, sm_modify.
  by rewrite E.
Qed.

Lemma runs_ioapic s io (P : IOAPICState -> bus -> Prop) : s.(ioapics) = Some io -> P io s -> runs ioapic s P.
Proof. intros E H. exists io, s. split; [| done]. unfold ioapic, mbind, sm_bind, sm_get, sm_lift. by rewrite E. Qed.

Lemma runs_upd_ioapic s io io' f (P : unit -> bus -> Prop) :
  s.(ioapics) = Some io -> f io = Some io' -> P tt (set_ioapics (Some io') s) -> runs (upd_ioapic f) s P.
Proof.
  intros E Ef H. eexists _, _. split; [| exact H]. unfold upd_ioapic, ioapic, mbind, sm_bind, sm_get, sm_lift, sm_modify.
  rewrite E. cbn. by rewrite Ef.
Qed.

Lemma for_loop_rule (I : Z -> bus -> Prop) count i body s :
  I i s -> (forall k s, i <= k < i + Z.of_nat count -> I k s -> runs (body k) s (fun _ s' => I (k + 1) s')) ->
  runs (for_loop count i body) s (fun _ s' => I (i + Z.of_nat count) s').
Proof.
  revert i s. induction count as [| count IH]; intros i s HI Hstep; cbn [for_loop].
  - sm_step. by rewrite Z.add_0_r.
  - sm_step. sm_use (Hstep i s ltac:(lia) HI). intros _ s1 H1.
    replace (i + Z.of_nat (S count)) with (i + 1 + Z.of_nat count) by lia. apply IH; [done |].
    intros k s2 Hk. apply Hstep. lia.
Qed.

(** [foreach_apic] as one loop over all controllers *)
Lemma foreach_rule (I : Z -> bus -> Prop) mask code s :
  tab_wf mask -> I 0 s ->
  (forall k s a, 0 <= k < 256 -> I k s -> has mask k = true -> s.(local_apics) !! Z.to_nat k = Some a ->
     runs (code (Z.to_nat k)) s (fun _ s' => I (k + 1) s')) ->
  (forall k s, 0 <= k < 256 -> I k s -> has mask k = false \/ s.(local_apics) !! Z.to_nat k = None -> I (k + 1) s) ->
  runs (foreach_apic mask code) s (fun _ s' => I 256 s').
Proof.
  intros Hm HI Hcode Hskip. unfold foreach_apic.
  eapply runs_mono; [apply (for_loop_rule (fun i s => I (i * 32) s)); [exact HI |] | done].
  intros i s1 Hi H1. unfold MAX_APIC_WORDS in Hi. destruct (word_some mask i (proj1 Hm)) as (w & Hw & Hl); [lia |]. sm_step.
  eapply runs_lift; [exact Hw |].
  assert (Hhas : forall j, 0 <= j < 32 -> has mask (i * 32 + j) = Z.testbit w j).
  { intros j Hj. destruct (vector_place (i * 32 + j)) as (A & C & E); [lia |]. unfold has.
    assert (Z.shiftr (i * 32 + j) 5 = i) as -> by lia. rewrite Hl. cbn. f_equal. lia. }
  replace ((i + 1) * 32) with (i * 32 + 32) by lia. destruct (c_true w) eqn:Ec.
  - eapply runs_mono; [apply (for_loop_rule (fun j s => I (i * 32 + j) s)); [by rewrite Z.add_0_r |] | done]. intros j s2 Hj H2. rewrite c_true_land_bit, <- Hhas by lia.
    replace (i * 32 + (j + 1)) with (i * 32 + j + 1) by lia. destruct (has mask (i * 32 + j)) eqn:Eh.
    + sm_step. sm_step. destruct (s2.(local_apics) !! Z.to_nat (i * 32 + j)) as [a |] eqn:Ea.
      * eapply Hcode; [lia | done | done | exact Ea].
      * sm_step. apply Hskip; [lia | done | by right].
    + sm_step. apply Hskip; [lia | done | by left].
  - sm_step. apply negb_false_iff, Z.eqb_eq in Ec. subst w.
    assert (Hj : forall j : nat, (j <= 32)%nat -> I (i * 32 + Z.of_nat j) s1); [| by apply (Hj 32%nat)].
    induction j as [| j IH]; intros Hj; [by rewrite Z.add_0_r |].
    replace (i * 32 + Z.of_nat (S j)) with (i * 32 + Z.of_nat j + 1) by lia.
    apply Hskip; [lia | apply IH; lia |]. left. rewrite Hhas by lia. apply Z.bits_0.
Qed.

(** ** Well-formed buses *)

Definition class (v : Z) : Z := Z.shiftr v 4.

(** Interrupts in service have different classes; class 0 is illegal, and not
    kept out. *)
Definition nested (t : list Z) : Prop :=
  forall v w, 0 <= v < 256 -> 0 <= w < 256 -> has t v = true -> has t w = true -> v <> w -> class v = class w -> class v = 0.

Record apic_wf (i : nat) (a : APICState) : Prop := {
  w_env : a.(cpu_env) = i;
  w_idx : a.(idx) = Z.of_nat i;
  w_id : in_u 8 a.(id);
  w_tpr : in_u 8 a.(tpr);
  w_spurious : in_u 32 a.(spurious_vec);
  w_log : in_u 8 a.(log_dest);
  w_mode : in_u 8 a.(dest_mode);
  w_isr : tab_wf a.(isr);
  w_tmr : tab_wf a.(tmr);
  w_irr : tab_wf a.(irr);
  w_lvt : length a.(lvt) = 6%nat /\ Forall (in_u 32) a.(lvt);
  w_icr : length a.(icr) = 2%nat /\ Forall (in_u 32) a.(icr);
  w_shift : 0 <= a.(count_shift) < 8;
  w_count : in_u 32 a.(initial_count);
  w_nested : nested a.(isr)
}.

Record ioapic_wf (io : IOAPICState) : Prop := {
  w_regsel : in_u 8 io.(ioregsel);
  w_io_irr : in_u 32 io.(io_irr);
  w_redtbl : length io.(ioredtbl) = 24%nat /\ Forall (in_u 64) io.(ioredtbl)
}.

Record bus_wf (s : bus) : Prop := {
  w_count_cpus : length s.(cpus) = length s.(local_apics);
  w_max : (0 < length s.(local_apics) <= 255)%nat;
  w_apics : forall i a, s.(local_apics) !! i = Some a -> apic_wf i a;
  w_cpus : forall c o, s.(cpus) !! c = Some o -> o.(apic_state) = Some c /\ in_u 32 o.(interrupt_request);
  w_io : exists io, s.(ioapics) = Some io /\ ioapic_wf io;
  w_pic : pics_wf s.(isa_pic)
}.

(** The controller has an interrupt for its processor. *)
Definition deliverable (a : APICState) : Prop :=
  Z.testbit a.(spurious_vec) 8 = true /\ exists p, apic_irq_pending a = Some p /\ 0 < p.

(** The processor is requested to take an interrupt. *)
Definition told (s : bus) (c : nat) : Prop := exists o, s.(cpus) !! c = Some o /\ Z.testbit o.(interrupt_request) 1 = true.

Definition signalled (X : nat -> Prop) (s : bus) : Prop :=
  forall i a, s.(local_apics) !! i = Some a -> deliverable a -> X i \/ told s i.

Record inv (X : nat -> Prop) (s : bus) : Prop := { i_wf : bus_wf s; i_sig : signalled X s }.

(** What no operation changes: the number of controllers *)
Definition frame (s s' : bus) : Prop := length s'.(local_apics) = length s.(local_apics).

Lemma frame_refl s : frame s s.
Proof. done. Qed.
Lemma frame_trans s1 s2 s3 : frame s1 s2 -> frame s2 s3 -> frame s1 s3.
Proof. unfold frame. congruence. Qed.

Lemma inv_mono (X Y : nat -> Prop) s : (forall i, X i -> Y i) -> inv X s -> inv Y s.
Proof. intros HXY [Hw Hs]. split; [done |]. intros i a Hi Hd. destruct (Hs i a Hi Hd); auto. Qed.

(** From [inv X] to [inv Y] *)
Definition changes {A} (X Y : nat -> Prop) (m : B A) : Prop :=
  forall s, inv X s -> runs m s (fun _ s' => inv Y s' /\ frame s s').
Abbreviation keeps X m := (changes X X m).

Lemma changes_bind {A C} X Y Z (m : B A) (f : A -> B C) :
  changes X Y m -> (forall a, changes Y Z (f a)) -> changes X Z (m ≫= f).
Proof.
  intros Hm Hf s Hs. sm_step. sm_use (Hm s Hs). intros a s1 [H1 F1]. sm_use (Hf a s1 H1). intros b s2 [H2 F2].
  split; [done |]. by apply (frame_trans _ s1).
Qed.

Lemma changes_ret {A} X (x : A) : keeps X (mret x).
Proof. intros s Hs. sm_step. split; [done | apply frame_refl]. Qed.

Lemma changes_mono {A} (X X' Y Y' : nat -> Prop) (m : B A) :
  (forall i, X' i -> X i) -> (forall i, Y i -> Y' i) -> changes X Y m -> changes X' Y' m.
Proof.
  intros HX HY Hm s Hs. sm_use (Hm s (inv_mono _ _ _ HX Hs)). intros a s' [H F]. split; [by apply (inv_mono Y) | done].
Qed.

Lemma keeps_for_loop X count i body :
  (forall k, i <= k < i + Z.of_nat count -> keeps X (body k)) -> keeps X (for_loop count i body).
Proof.
  intros Hb s Hs.
  eapply runs_mono; [apply (for_loop_rule (fun _ s' => inv X s' /\ frame s s')); [exact (conj Hs (frame_refl s)) |] | done].
  intros k s1 Hk [H1 F1]. sm_use (Hb k Hk s1 H1). intros _ s2 [H2 F2]. split; [done |]. by apply (frame_trans _ s1).
Qed.

Lemma keeps_foreach X mask code :
  tab_wf mask -> (forall i s, (i < length s.(local_apics))%nat -> inv X s -> runs (code i) s (fun _ s' => inv X s' /\ frame s s')) ->
  keeps X (foreach_apic mask code).
Proof.
  intros Hm Hb s Hs.
  eapply runs_mono; [apply (foreach_rule (fun _ s' => inv X s' /\ frame s s')); [exact Hm | exact (conj Hs (frame_refl s)) | |] | done].
  - intros k s1 a Hk [H1 F1] _ Ha. sm_use (Hb (Z.to_nat k) s1 (lookup_lt_Some _ _ _ Ha) H1). intros _ s2 [H2 F2].
    split; [done |]. by apply (frame_trans _ s1).
  - done.
Qed.

(** ** Single changes *)

Definition add (X : nat -> Prop) (i : nat) : nat -> Prop := fun j => X j \/ j = i.

Lemma frame_upd s i a : frame s (set_local_apics (<[i := a]> s.(local_apics)) s).
Proof. apply length_insert. Qed.

Lemma inv_upd X s i a a' :
  inv X s -> s.(local_apics) !! i = Some a -> apic_wf i a' -> (deliverable a' -> deliverable a \/ X i) ->
  inv X (set_local_apics (<[i := a']> s.(local_apics)) s).
Proof.
  intros [[W1 W2 W3 W4 W5 W6] Hs] Hi Hw Hd. split.
  - split; cbn; [by rewrite length_insert | by rewrite length_insert | | done | done | done].
    intros j b [(-> & <- & _) | (_ & Hj)]%list_lookup_insert_Some; [done | by apply W3].
  - intros j b Hj Hb. cbn in Hj. apply list_lookup_insert_Some in Hj as [(-> & <- & _) | (_ & Hj)]; [| by apply (Hs j b)].
    destruct (Hd Hb); [by apply (Hs j a) | by left].
Qed.

Lemma inv_cpu X s c o o' :
  inv X s -> s.(cpus) !! c = Some o -> o'.(apic_state) = o.(apic_state) -> in_u 32 o'.(interrupt_request) ->
  (Z.testbit o.(interrupt_request) 1 = true -> Z.testbit o'.(interrupt_request) 1 = true \/ X c) ->
  inv X (set_cpus (<[c := o']> s.(cpus)) s).
Proof.
  intros [[W1 W2 W3 W4 W5 W6] Hs] Hc Ha Hr Ht. destruct (W4 c o Hc) as [Hac _]. split.
  - split; cbn; [by rewrite length_insert | done | done | | done | done].
    intros d p [(-> & <- & _) | (_ & Hj)]%list_lookup_insert_Some; [by rewrite Ha | by apply W4].
  - intros j b Hj Hb. destruct (Hs j b Hj Hb) as [? | (p & Hp & Hbit)]; [by left |].
    destruct (decide (j = c)) as [-> | Hne].
    + assert (p = o) as -> by congruence. destruct (Ht Hbit); [| by left]. right. exists o'. cbn.
      by rewrite list_lookup_insert_eq by (by eapply lookup_lt_Some).
    + right. exists p. cbn. by rewrite list_lookup_insert_ne.
Qed.

Lemma frame_cpu s l : frame s (set_cpus l s).
Proof. done. Qed.

(** *** Operations on one controller *)

Definition acts {A} (X Y : nat -> Prop) (i : nat) (m : B A) : Prop :=
  forall s, inv X s -> (i < length s.(local_apics))%nat -> runs m s (fun _ s' => inv Y s' /\ frame s s').

Lemma acts_bind {A C} X Y Z i (m : B A) (f : A -> B C) :
  acts X Y i m -> (forall a, acts Y Z i (f a)) -> acts X Z i (m ≫= f).
Proof.
  intros Hm Hf s Hs Hi. sm_step. sm_use (Hm s Hs Hi). intros a s1 [H1 F1].
  sm_use (Hf a s1 H1 ltac:(by rewrite F1)). intros b s2 [H2 F2].
  split; [done |]. by apply (frame_trans _ s1).
Qed.

Lemma acts_changes {A} X Y i (m : B A) : changes X Y m -> acts X Y i m.
Proof. intros H s Hs _. by apply H. Qed.

Lemma acts_ret {A} X i (x : A) : acts X X i (mret x).
Proof. apply acts_changes, changes_ret. Qed.

Lemma acts_mono {A} (X X' Y Y' : nat -> Prop) i (m : B A) :
  (forall i, X' i -> X i) -> (forall i, Y i -> Y' i) -> acts X Y i m -> acts X' Y' i m.
Proof.
  intros HX HY Hm s Hs Hi. sm_use (Hm s (inv_mono _ _ _ HX Hs) Hi). intros a s' [H F]. split; [by apply (inv_mono Y) | done].
Qed.

Lemma acts_get {A C} X Y i (g : bus -> A) (f : A -> B C) : (forall a, acts X Y i (f a)) -> acts X Y i (sm_get g ≫= f).
Proof. intros Hf s Hs Hi. sm_step. sm_step. by apply Hf. Qed.

Lemma acts_lift {A C} X Y i (o : option A) (f : A -> B C) :
  (exists a, o = Some a /\ acts X Y i (f a)) -> acts X Y i (sm_lift o ≫= f).
Proof. intros (a & E & Hf) s Hs Hi. sm_step. eapply runs_lift; [exact E |]. by apply Hf. Qed.

Lemma acts_apic {C} X Y i (f : APICState -> B C) : (forall a, apic_wf i a -> acts X Y i (f a)) -> acts X Y i (apic i ≫= f).
Proof.
  intros Hf s Hs Hi. destruct (lookup_lt_is_Some_2 _ _ Hi) as [a Ha]. sm_step. eapply runs_apic; [exact Ha |].
  apply Hf; [| done..]. by apply (w_apics _ (i_wf _ _ Hs)).
Qed.

Lemma acts_upd (X : nat -> Prop) i f :
  (forall a, apic_wf i a -> exists a', f a = Some a' /\ apic_wf i a' /\ (deliverable a' -> deliverable a \/ X i)) ->
  acts X X i (upd i f).
Proof.
  intros Hf s Hs Hi. destruct (lookup_lt_is_Some_2 _ _ Hi) as [a Ha].
  destruct (Hf a) as (a' & E & Hw & Hd); [by apply (w_apics _ (i_wf _ _ Hs)) |].
  eapply runs_upd; [exact Ha | exact E |]. split; [by apply (inv_upd X s i a) | apply frame_upd].
Qed.

Lemma acts_cpu {C} X Y i (f : CPUState -> B C) :
  (forall o, o.(apic_state) = Some i -> in_u 32 o.(interrupt_request) -> acts X Y i (f o)) -> acts X Y i (cpu i ≫= f).
Proof.
  intros Hf s Hs Hi. rewrite <- (w_count_cpus _ (i_wf _ _ Hs)) in Hi. destruct (lookup_lt_is_Some_2 _ _ Hi) as [o Ho].
  destruct (w_cpus _ (i_wf _ _ Hs) _ _ Ho) as [? ?]. sm_step. eapply runs_cpu; [exact Ho |].
  rewrite (w_count_cpus _ (i_wf _ _ Hs)) in Hi. by apply Hf.
Qed.

Lemma acts_upd_cpu (X : nat -> Prop) i f :
  (forall o, in_u 32 o.(interrupt_request) -> (f o).(apic_state) = o.(apic_state) /\ in_u 32 (f o).(interrupt_request) /\
     (Z.testbit o.(interrupt_request) 1 = true -> Z.testbit (f o).(interrupt_request) 1 = true \/ X i)) ->
  acts X X i (upd_cpu i f).
Proof.
  intros Hf s Hs Hi. rewrite <- (w_count_cpus _ (i_wf _ _ Hs)) in Hi. destruct (lookup_lt_is_Some_2 _ _ Hi) as [o Ho].
  destruct (w_cpus _ (i_wf _ _ Hs) _ _ Ho) as [_ Hr]. destruct (Hf o Hr) as (H1 & H2 & H3).
  eapply runs_upd_cpu; [exact Ho |]. split; [by apply (inv_cpu X s i o) | apply frame_cpu].
Qed.

(** ** Pending interrupts *)

Lemma ppr_spec i a :
  apic_wf i a -> exists h, get_highest_priority_int a.(isr) = Some h /\ -1 <= h < 256 /\
    (0 <= h -> has a.(isr) h = true) /\ (forall u, 0 <= u < 256 -> has a.(isr) u = true -> u <= h) /\
    apic_get_ppr a = Some (if class (Z.max 0 h) <=? class a.(tpr) then a.(tpr) else Z.shiftl (class (Z.max 0 h)) 4).
Proof.
  intros Hw. destruct (highest_spec _ (w_isr _ _ Hw)) as (h & Eh & Hr & Hh & Hm). exists h. do 4 (split; [done |]).
  unfold apic_get_ppr. rewrite Eh. bind_step. f_equal. replace (if h <? 0 then 0 else h) with (Z.max 0 h); [done |].
  destruct (Z.ltb_spec h 0); lia.
Qed.

Lemma pending_total i a : apic_wf i a -> exists p, apic_irq_pending a = Some p /\ -1 <= p < 256.
Proof.
  intros Hw. destruct (highest_spec _ (w_irr _ _ Hw)) as (h & Eh & Hr & _ & _). destruct (ppr_spec i a Hw) as (g & _ & _ & _ & _ & Ep).
  unfold apic_irq_pending. rewrite Eh. bind_step. destruct (Z.ltb_spec h 0); [exists 0; split; [done | lia] |]. rewrite Ep. bind_step.
  eexists. split; [done |]. destruct (_ && _); lia.
Qed.

Lemma sv_enable a : c_true (Z.land a.(spurious_vec) APIC_SV_ENABLE) = Z.testbit a.(spurious_vec) 8.
Proof. apply (c_true_land_bit _ 8). lia. Qed.

(** The registers [deliverable] depends on *)
Lemma deliverable_same a a' :
  a'.(spurious_vec) = a.(spurious_vec) -> a'.(irr) = a.(irr) -> a'.(isr) = a.(isr) -> a'.(tpr) = a.(tpr) ->
  deliverable a' -> deliverable a.
Proof.
  unfold deliverable, apic_irq_pending, apic_get_ppr. intros -> -> -> -> H. exact H.
Qed.

(** *** Telling the processor *)

Lemma request_in_u o mask : in_u 32 o.(interrupt_request) -> in_u 32 mask -> in_u 32 (Z.lor o.(interrupt_request) mask).
Proof. intros. width. Qed.

Lemma cpu_interrupt_keeps X i mask : in_u 32 mask -> acts X X i (cpu_interrupt i mask).
Proof.
  intros Hm. apply acts_upd_cpu. intros o Ho. split; [done |]. split; [by apply request_in_u |].
  cbn [interrupt_request set_interrupt_request]. rewrite Z.lor_spec. intros ->. by left.
Qed.

Lemma update_irq_tells X i : acts (add X i) X i (apic_update_irq i).
Proof.
  intros s Hs Hi. destruct (lookup_lt_is_Some_2 _ _ Hi) as [a Ha]. pose proof (w_apics _ (i_wf _ _ Hs) i a Ha) as Hw.
  unfold apic_update_irq. sm_step. eapply runs_apic; [exact Ha |]. rewrite sv_enable.
  assert (Hquiet : ~ deliverable a -> inv X s).
  { intros Hn. destruct Hs as [Hwf Hs]. split; [done |]. intros j b Hj Hd. destruct (Hs j b Hj Hd) as [[? | ->] | ?]; auto.
    rewrite Ha in Hj. by injection Hj as <-. }
  destruct (Z.testbit a.(spurious_vec) 8) eqn:Ee; cbn [negb].
  - destruct (pending_total i a Hw) as (p & Ep & _). sm_step. eapply runs_lift; [exact Ep |].
    destruct (Z.ltb_spec 0 p) as [Hp | Hp].
    + rewrite (w_env _ _ Hw). pose proof Hi as Hi'. rewrite <- (w_count_cpus _ (i_wf _ _ Hs)) in Hi'.
      destruct (lookup_lt_is_Some_2 _ _ Hi') as [o Ho]. destruct (w_cpus _ (i_wf _ _ Hs) _ _ Ho) as [_ Hr].
      eapply runs_upd_cpu; [exact Ho |]. cbv beta. split; [| apply frame_cpu].
      destruct (inv_cpu (add X i) s i o (set_interrupt_request (Z.lor o.(interrupt_request) CPU_INTERRUPT_HARD) o) Hs Ho eq_refl)
        as [Hwf Hs']; [by apply request_in_u | cbn [interrupt_request set_interrupt_request]; rewrite Z.lor_spec; intros ->; by left |].
      split; [done |]. intros j b Hj Hd. destruct (Hs' j b Hj Hd) as [[? | ->] | ?]; [by left | | by right].
      right. eexists. cbn [cpus set_cpus]. rewrite list_lookup_insert_eq by done. split; [done |].
      cbn [interrupt_request set_interrupt_request]. rewrite Z.lor_spec. apply orb_true_r.
    + sm_step. split; [| apply frame_refl]. apply Hquiet. intros [_ (q & Eq & Hq)]. rewrite Ep in Eq. injection Eq as <-. lia.
  - sm_step. split; [| apply frame_refl]. apply Hquiet. intros [E _]. congruence.
Qed.

(** ** Requests *)

(** A changed register of a well-formed controller; the rest is as it was. *)
Ltac apic_field := match goal with H : apic_wf ?i ?a |- apic_wf ?i _ => destruct H; constructor; cbn; try assumption end.

Lemma acts_modify (X : nat -> Prop) i f : (forall s, inv X s -> inv X (f s) /\ frame s (f s)) -> acts X X i (sm_modify f).
Proof. intros H s Hs _. sm_step. by apply H. Qed.

(** A change that may make an interrupt deliverable *)
Lemma acts_upd_any (X : nat -> Prop) i f :
  (forall a, apic_wf i a -> exists a', f a = Some a' /\ apic_wf i a') -> acts (add X i) (add X i) i (upd i f).
Proof.
  intros Hf. apply acts_upd. intros a Hw. destruct (Hf a Hw) as (a' & E & Hw'). exists a'. do 2 (split; [done |]).
  intros _. right. by right.
Qed.

(** One that cannot *)
Lemma acts_upd_same (X : nat -> Prop) i f :
  (forall a, apic_wf i a -> exists a', f a = Some a' /\ apic_wf i a' /\ a'.(spurious_vec) = a.(spurious_vec) /\
     a'.(irr) = a.(irr) /\ a'.(isr) = a.(isr) /\ a'.(tpr) = a.(tpr)) ->
  acts X X i (upd i f).
Proof.
  intros Hf. apply acts_upd. intros a Hw. destruct (Hf a Hw) as (a' & E & Hw' & E1 & E2 & E3 & E4). exists a'.
  do 2 (split; [done |]). intros Hd. left. by apply (deliverable_same a a').
Qed.

(** Steps until the processor is told *)
Lemma acts_then_tell (X : nat -> Prop) i (m : B unit) :
  acts (add X i) (add X i) i m -> acts X X i (m;; apic_update_irq i).
Proof.
  intros Hm. apply (acts_bind X (add X i)); [| intros []; apply update_irq_tells].
  apply (acts_mono (add X i) X (add X i) (add X i)); [by left | done | done].
Qed.

Lemma delivered_keeps X v s : inv X s -> inv X (set_apic_irq_delivered v s) /\ frame s (set_apic_irq_delivered v s).
Proof. intros [[] Hs]. by split. Qed.

Lemma set_irq_keeps X i v t : 0 <= v < 256 -> acts X X i (apic_set_irq i v t).
Proof.
  intros Hv. unfold apic_set_irq. apply acts_apic. intros a Hw. apply acts_lift. rewrite (get_bit_spec _ _ (w_irr _ _ Hw) Hv).
  eexists. split; [done |]. eapply acts_bind; [apply acts_modify; intros s Hs; by apply delivered_keeps |]. intros _.
  apply (acts_bind X (add X i)).
  { apply (acts_mono (add X i) X (add X i) (add X i)); [by left | done |]. apply acts_upd_any. intros b Hb.
    destruct (set_bit_spec _ v (w_irr _ _ Hb) Hv) as (t' & E & Ht & _). rewrite E. bind_step. eexists. split; [done |]. apic_field. }
  intros _. apply (acts_bind _ (add X i)); [| intros _; apply update_irq_tells].
  destruct (c_true t); apply acts_upd_any; intros b Hb.
  - destruct (set_bit_spec _ v (w_tmr _ _ Hb) Hv) as (t' & E & Ht & _). rewrite E. bind_step. eexists. split; [done |]. apic_field.
  - destruct (reset_bit_spec _ v (w_tmr _ _ Hb) Hv) as (t' & E & Ht & _). rewrite E. bind_step. eexists. split; [done |]. apic_field.
Qed.

Lemma entry_some (t : list Z) n i : length t = n -> 0 <= i < Z.of_nat n -> exists w, word t i = Some w /\ t !! Z.to_nat i = Some w.
Proof.
  intros Hl Hi. unfold word. rewrite (proj2 (Z.leb_le 0 i)) by lia.
  destruct (lookup_lt_is_Some_2 t (Z.to_nat i)) as [w Hw]; [lia |]. by exists w.
Qed.

Lemma vector_of x : 0 <= Z.land x 0xff < 256.
Proof. change 0xff with (Z.ones 8). rewrite Z.land_ones by lia. by apply Z.mod_pos_bound. Qed.

Lemma local_deliver_keeps X i n : 0 <= n < 6 -> acts X X i (apic_local_deliver i n).
Proof.
  intros Hn. unfold apic_local_deliver. apply acts_apic. intros a Hw. apply acts_lift.
  destruct (entry_some _ _ n (proj1 (w_lvt _ _ Hw)) Hn) as (l & El & _). exists l. split; [done |]. rewrite (w_env _ _ Hw).
  repeat (case_match; try apply acts_ret; try (apply cpu_interrupt_keeps; by split)); apply set_irq_keeps, vector_of.
Qed.

(** Raising the output of the 8259 pair never takes a request back. *)
Lemma deliver_pic_raise_keeps X i level : c_true level = true -> acts X X i (apic_deliver_pic_intr i level).
Proof. intros H. unfold apic_deliver_pic_intr. rewrite H. apply local_deliver_keeps. unfold APIC_LVT_LINT0. lia. Qed.

Lemma no_exception (X : nat -> Prop) : (forall i, X i) -> forall i (f : CPUState -> CPUState),
  (forall o, in_u 32 o.(interrupt_request) -> (f o).(apic_state) = o.(apic_state) /\ in_u 32 (f o).(interrupt_request)) ->
  acts X X i (upd_cpu i f).
Proof. intros HX i f Hf. apply acts_upd_cpu. intros o Ho. destruct (Hf o Ho). split; [done |]. split; [done |]. by right. Qed.

Lemma clear_in_u o mask : in_u 32 o.(interrupt_request) -> in_u 32 (Z.land o.(interrupt_request) mask).
Proof. intros. width. Qed.

(** Lowering it does; what is left is well-formedness. *)
Lemma deliver_pic_wf X i level : (forall j, X j) -> acts X X i (apic_deliver_pic_intr i level).
Proof.
  intros HX. destruct (c_true level) eqn:E; [by apply deliver_pic_raise_keeps |]. unfold apic_deliver_pic_intr. rewrite E.
  assert (Hr : forall a, apic_wf i a -> acts X X i (cpu_reset_interrupt a.(cpu_env) CPU_INTERRUPT_HARD)).
  { intros a Hw. rewrite (w_env _ _ Hw). apply no_exception; [done |]. intros o Ho. split; [done | by apply clear_in_u]. }
  apply acts_apic. intros a Hw. apply acts_lift.
  destruct (entry_some _ _ 3 (proj1 (w_lvt _ _ Hw)) ltac:(lia)) as (l & El & _). exists l. split; [done |].
  repeat (case_match; try apply acts_ret; try by apply Hr).
  apply (acts_bind _ X); [| by intros _; apply Hr]. apply acts_upd. intros b Hb.
  destruct (reset_bit_spec _ (Z.land l 0xff) (w_irr _ _ Hb) (vector_of l)) as (t' & Et & Ht & _).
  rewrite Et. bind_step. eexists. split; [done |]. split; [apic_field | by right].
Qed.

(** ** Messages *)

Lemma foreach_cpu_keeps X mask m :
  tab_wf mask -> in_u 32 m -> keeps X (foreach_apic mask (fun i => a ← apic i; cpu_interrupt a.(cpu_env) m)).
Proof.
  intros Hm Hu. apply keeps_foreach; [done |]. intros i s Hi Hs. apply (acts_apic X X i); [| done..].
  intros a Hw. rewrite (w_env _ _ Hw). by apply cpu_interrupt_keeps.
Qed.

Lemma first_dest_total n i mask :
  tab_wf mask -> 0 <= i -> i + Z.of_nat n <= 8 -> exists d, first_dest n i mask = Some d /\ -1 <= d < 256.
Proof.
  intros Hm. revert i. induction n as [| n IH]; intros i Hi Hn; cbn [first_dest]; [exists (-1); split; [done | lia] |].
  destruct (word_some mask i (proj1 Hm)) as (w & Hw & Hl); [lia |]. rewrite Hw. bind_step. destruct (c_true w) eqn:Ec; [| apply IH; lia].
  eexists. split; [done |]. apply c_true_nonzero in Ec. unfold ffs_bit.
  destruct (ctz32_spec w) as (Hr & _); [by apply (Forall_lookup_1 _ _ _ _ (proj2 Hm) Hl) | done | lia].
Qed.

Lemma bus_deliver_keeps X mask mode v p t : tab_wf mask -> 0 <= v < 256 -> keeps X (apic_bus_deliver mask mode v p t).
Proof.
  intros Hm Hv. unfold apic_bus_deliver. destruct (mode =? APIC_DM_LOWPRI).
  - intros s Hs. sm_step. destruct (first_dest_total MAX_APIC_WORDS 0 mask Hm ltac:(lia) ltac:(unfold MAX_APIC_WORDS; lia)) as (d & Ed & Hd).
    eapply runs_lift; [exact Ed |]. destruct (0 <=? d); [| by apply changes_ret]. sm_step. sm_step.
    destruct (s.(local_apics) !! Z.to_nat d) as [a |] eqn:Ea; [| by apply changes_ret].
    apply (set_irq_keeps X); [done | done | by eapply lookup_lt_Some].
  - do 3 (destruct (_ =? _); [apply foreach_cpu_keeps; [done | by split] |]).
    destruct (_ || _); [| apply changes_ret]. apply keeps_foreach; [done |]. intros i s Hi Hs. by apply (set_irq_keeps X).
Qed.

Lemma all_zero_wf : tab_wf all_zero.
Proof. apply tab_zero_wf. Qed.
Lemma all_ones_wf : tab_wf all_ones.
Proof. split; [done |]. by repeat constructor. Qed.

Lemma find_dest_range n i dest apics : -1 <= find_dest_loop n i dest apics < Z.of_nat (n + i) \/ find_dest_loop n i dest apics = -1.
Proof.
  revert i. induction n as [| n IH]; intros i; cbn [find_dest_loop]; [by right |].
  destruct (apics !! i) as [a |]; [| by right]. destruct (a.(id) =? dest); [left; lia |]. specialize (IH (S i)). lia.
Qed.

Lemma find_dest_total dest apics : in_u 8 dest -> -1 <= apic_find_dest dest apics < 256.
Proof.
  intros Hd. unfold in_u in Hd. unfold apic_find_dest. pose proof (find_dest_range MAX_APICS 0 dest apics) as Hr. 
  change (Z.of_nat (MAX_APICS + 0)) with 255 in Hr.
  destruct (apics !! Z.to_nat dest) as [a |]; [destruct (a.(id) =? dest) |]; lia.
Qed.

Lemma logical_total n i dest apics mask :
  (n + i <= 256)%nat -> tab_wf mask -> exists mask', logical_loop n i dest apics mask = Some mask' /\ tab_wf mask'.
Proof.
  revert i mask. induction n as [| n IH]; intros i mask Hn Hm; cbn [logical_loop]; [by exists mask |].
  destruct (apics !! i) as [a |]; [| by exists mask]. destruct (logical_match dest a).
  - destruct (set_bit_spec mask (Z.of_nat i) Hm ltac:(lia)) as (m' & E & Hm' & _). rewrite E. bind_step. apply IH; [lia | done].
  - bind_step. apply IH; [lia | done].
Qed.

Lemma bitmask_total dest mode s :
  in_u 8 dest -> runs (apic_get_delivery_bitmask dest mode) s (fun mask s' => s' = s /\ tab_wf mask).
Proof.
  intros Hd. unfold apic_get_delivery_bitmask. sm_step. sm_step. destruct (mode =? 0).
  - destruct (dest =? 0xff); [sm_step; split; [done | apply all_ones_wf] |].
    destruct (Z.leb_spec 0 (apic_find_dest dest s.(local_apics))); [| sm_step; split; [done | apply all_zero_wf]].
    destruct (set_bit_spec all_zero (apic_find_dest dest s.(local_apics)) all_zero_wf) as (m & E & Hm & _);
      [pose proof (find_dest_total dest s.(local_apics) Hd); lia |].
    eapply runs_lift; [exact E | done].
  - destruct (logical_total MAX_APICS 0 dest s.(local_apics) all_zero) as (m & E & Hm); [unfold MAX_APICS; lia | apply all_zero_wf |].
    eapply runs_lift; [exact E | done].
Qed.

Lemma deliver_irq_keeps X dest dm mode v p t : in_u 8 dest -> 0 <= v < 256 -> keeps X (apic_deliver_irq dest dm mode v p t).
Proof.
  intros Hd Hv s Hs. unfold apic_deliver_irq. sm_step. sm_use (bitmask_total dest dm s Hd). intros mask s1 [-> Hm].
  by apply bus_deliver_keeps.
Qed.

Lemma deliver_keeps X i dest dm mode v p t : in_u 8 dest -> 0 <= v < 256 -> acts X X i (apic_deliver i dest dm mode v p t).
Proof.
  intros Hd Hv. unfold apic_deliver. intros s Hs Hi. revert s Hs Hi. apply acts_apic. intros a Hw. apply acts_lift.
  destruct (entry_some _ _ 0 (proj1 (w_icr _ _ Hw)) ltac:(lia)) as (c & Ec & _). exists c. split; [done |].
  intros s Hs Hi. assert (Hidx : 0 <= a.(idx) < 256).
  { rewrite (w_idx _ _ Hw). pose proof (w_max _ (i_wf _ _ Hs)). lia. }
  sm_step. apply (runs_mono _ _ (fun mask s' => s' = s /\ tab_wf mask)).
  { repeat case_match; [by apply bitmask_total | | sm_step; split; [done | apply all_ones_wf] |].
    - destruct (set_bit_spec all_zero _ all_zero_wf Hidx) as (m & E & Hm & _). by eapply runs_lift.
    - destruct (reset_bit_spec all_ones _ all_ones_wf Hidx) as (m & E & Hm & _). by eapply runs_lift. }
  intros mask s1 [-> Hm]. revert s Hs Hi. apply acts_changes. repeat case_match; [| | by apply bus_deliver_keeps].
  - apply keeps_foreach; [done |]. intros j s Hj Hs. apply (acts_upd_same X); [| done..]. intros b Hb. eexists. split; [done |].
    split; [apic_field | done].
  - apply keeps_foreach; [done |]. intros j s Hj Hs. unfold apic_startup. apply (acts_bind X X X j); [| | done..].
    + apply acts_upd_same. intros b Hb. eexists. split; [done |]. split; [apic_field | done].
    + intros _. apply acts_apic. intros b Hb. rewrite (w_env _ _ Hb). apply cpu_interrupt_keeps. by split.
Qed.

(** ** The 8259 pair *)

Lemma acts_zero {A} X Y i (m : B A) : acts X Y 0 m -> acts X Y i m.
Proof. intros H s Hs Hi. apply H; [done | lia]. Qed.

Lemma changes_zero {A} X Y (m : B A) : acts X Y 0 m -> changes X Y m.
Proof. intros H s Hs. apply H; [done |]. apply (w_max _ (i_wf _ _ Hs)). Qed.

(** Raising, or no promise at all *)
Definition harmless (X : nat -> Prop) (level : Z) : Prop := c_true level = true \/ forall j, X j.

Lemma accept_keeps {A} X Y i d (f : Z -> B A) :
  d = Some i -> (forall x, acts X Y i (f x)) -> acts X Y i (apic_accept_pic_intr d ≫= f).
Proof.
  intros -> Hf s Hs Hi. sm_step. destruct (lookup_lt_is_Some_2 _ _ Hi) as [a Ha]. cbn [apic_accept_pic_intr]. sm_step.
  eapply runs_apic; [exact Ha |]. pose proof (w_apics _ (i_wf _ _ Hs) i a Ha) as Hw. sm_step.
  destruct (entry_some _ _ 3 (proj1 (w_lvt _ _ Hw)) ltac:(lia)) as (l & El & _). eapply runs_lift; [exact El |]. sm_step. by apply Hf.
Qed.

Lemma request_loop_keeps X n c level s :
  harmless X level -> inv X s -> (n + c <= length s.(local_apics))%nat ->
  runs (request_loop n c level) s (fun _ s' => inv X s' /\ frame s s').
Proof.
  intros Hl. revert c s. induction n as [| n IH]; intros c s Hs Hn; cbn [request_loop]; [sm_step; split; [done | apply frame_refl] |].
  assert (Hone : acts X X c (env ← cpu c; accept ← apic_accept_pic_intr env.(apic_state);
    if c_true accept then match env.(apic_state) with Some i => apic_deliver_pic_intr i level | None => sm_fail end else mret tt)).
  { apply acts_cpu. intros o Ho _. apply accept_keeps; [done |]. intros x. destruct (c_true x); [| apply acts_ret]. rewrite Ho.
    destruct Hl; [by apply deliver_pic_raise_keeps | by apply deliver_pic_wf]. }
  destruct (Hone s Hs ltac:(lia)) as (u & s1 & E & H1 & F1). exists tt.
  destruct (IH (S c) s1 H1 ltac:(rewrite F1; lia)) as ([] & s2 & E2 & H2 & F2). exists s2.
  split; [| split; [done | by apply (frame_trans _ s1)]]. revert E. unfold mbind, sm_bind.
  destruct (cpu c s) as [[o t1] |]; [| done]. destruct (apic_accept_pic_intr _ t1) as [[x t2] |]; [| done].
  intros E. rewrite E. exact E2.
Qed.

Lemma pic_request_keeps X level : harmless X level -> keeps X (pic_irq_request level).
Proof.
  intros Hl. apply changes_zero. unfold pic_irq_request. apply acts_cpu. intros o Ho _. rewrite Ho. intros s Hs Hi. sm_step. sm_step.
  apply request_loop_keeps; [done | done |]. rewrite (w_count_cpus _ (i_wf _ _ Hs)). lia.
Qed.

Lemma drive_parent_keeps X levels : Forall (harmless X) levels -> keeps X (drive_parent levels).
Proof.
  induction 1 as [| level levels Hl Hls IH]; cbn [drive_parent]; [apply changes_ret |].
  apply (changes_bind X X X); [done |]. intros _. by apply pic_request_keeps.
Qed.

Lemma pics_wf_same p p' : p'.(pic_master) = p.(pic_master) -> p'.(pic_slave) = p.(pic_slave) -> pics_wf p -> pics_wf p'.
Proof. destruct p, p'. cbn. intros -> ->. by intros []. Qed.

Lemma with_pic_keeps {A} X (f : PicState2 -> option (A * PicState2)) :
  (forall p, pics_wf p -> p.(parent_irq) = [] -> exists x p', f p = Some (x, p') /\ pics_wf p' /\ Forall (harmless X) p'.(parent_irq)) ->
  keeps X (with_pic f).
Proof.
  intros Hf s Hs. unfold with_pic. sm_step. sm_step. sm_step.
  destruct (Hf (mkPicState2 s.(isa_pic).(pic_master) s.(isa_pic).(pic_slave) [])) as (x & p' & E & Hp & Hl);
    [by apply (pics_wf_same s.(isa_pic)), (w_pic _ (i_wf _ _ Hs)) | done |].
  eapply runs_lift; [exact E |]. cbv beta iota. sm_step. sm_step. sm_step.
  assert (H0 : inv X (set_isa_pic p' s)) by (destruct Hs as [[W1 W2 W3 W4 W5 W6] Hs]; by split).
  sm_use (drive_parent_keeps X p'.(parent_irq) Hl _ H0). intros _ s1 [H1 F1]. by sm_step.
Qed.

(** The operations of the pair only raise the output, but for an initialisation. *)
Definition raised (p : PicState2) : Prop := Forall (eq 1) p.(parent_irq).

Lemma raised_harmless X p : raised p -> Forall (harmless X) p.(parent_irq).
Proof. intros H. eapply Forall_impl; [exact H |]. intros l <-. by left. Qed.

Lemma raised_set w q p : raised p -> raised (set_pics w q p).
Proof. by destruct w. Qed.

Lemma raised_pic_update p : raised p -> raised (pic_update_irq p).
Proof.
  intros H. unfold pic_update_irq. set (p1 := if 0 <=? _ then _ else p).
  assert (H1 : raised p1) by (unfold p1; case_match; [by apply raised_set | done]). clearbody p1.
  case_match; [by constructor | done].
Qed.

Create HintDb raise.
#[local] Hint Resolve raised_set raised_pic_update : raise.
#[local] Hint Unfold update i8259_set_irq elcr_ioport_write : raise.

Ltac raise_cases := repeat case_match; simplify_eq/=; autounfold with raise; auto 8 with raise.

Lemma raised_poll w a p : raised p -> raised (pic_poll_read w a p).2.
Proof. intros H. unfold pic_poll_read. raise_cases. Qed.

Lemma raised_read_irq p : raised p -> raised (pic_read_irq p).2.
Proof. intros H. unfold pic_read_irq. raise_cases. Qed.

Lemma raised_read w a p : raised p -> raised (pic_ioport_read w a p).2.
Proof.
  intros H. unfold pic_ioport_read. pose proof (raised_poll w a p H). destruct (pic_poll_read w a p). raise_cases.
Qed.

Lemma raised_intack p : raised p -> raised (pic_intack_read p).2.
Proof.
  intros H. unfold pic_intack_read. pose proof (raised_poll Master 0 p H) as H1. destruct (pic_poll_read Master 0 p) as [r p1].
  pose proof (raised_poll Slave 0x80 p1 H1). destruct (pic_poll_read Slave 0x80 p1). raise_cases.
Qed.

Lemma raised_ocw2 w v p : raised p -> raised (pic_ocw2 w v p).
Proof. intros H. unfold pic_ocw2. raise_cases. Qed.

Lemma raised_data w v p : raised p -> raised (pic_write_data w v p).
Proof. intros H. unfold pic_write_data. raise_cases. Qed.

(** Port accesses of the processor to the pair *)
Inductive pic_access :=
  | P_write (w : which) (addr val : Z) | P_read (w : which) (addr : Z) | P_intack_read | P_elcr_write (w : which) (val : Z).

Definition pic_run (op : pic_access) (p : PicState2) : option (Z * PicState2) :=
  match op with
  | P_write w addr val => p' ← pic_ioport_write w addr val p; Some (0, p')
  | P_read w addr => Some (pic_ioport_read w addr p)
  | P_intack_read => Some (pic_intack_read p)
  | P_elcr_write w val => Some (0, elcr_ioport_write w val p)
  end.

(** The start of an initialisation *)
Definition initialises (op : pic_access) : bool :=
  match op with P_write _ addr val => (Z.land addr 1 =? 0) && Z.testbit val 4 | _ => false end.

(** Not the one that is refused, and bytes *)
Definition pic_access_ok (op : pic_access) : Prop :=
  match op with
  | P_write _ addr val => in_u 8 val /\ ~ (addr mod 2 = 0 /\ Z.testbit val 4 = true /\ Z.testbit val 3 = true)
  | P_elcr_write _ val => in_u 8 val
  | _ => True
  end.

Lemma raised_write w addr val p p' :
  (Z.land addr 1 =? 0) && Z.testbit val 4 = false -> raised p -> pic_ioport_write w addr val p = Some p' -> raised p'.
Proof.
  intros Hn H. unfold pic_ioport_write. change 0x10 with (Z.shiftl 1 4). rewrite c_true_land_bit by lia.
  destruct (Z.land addr 1 =? 0); [| intros E; injection E as <-; by apply raised_data]. rewrite andb_true_l in Hn. rewrite Hn.
  case_match; intros E; injection E as <-; [by apply raised_set | by apply raised_ocw2].
Qed.

Lemma pic_run_wf op p :
  pic_access_ok op -> pics_wf p -> raised p ->
  exists x p', pic_run op p = Some (x, p') /\ pics_wf p' /\ (initialises op = false -> raised p').
Proof.
  intros Hok Hp Hr. destruct op as [w addr val | w addr | | w val]; cbn [pic_run initialises].
  - destruct Hok as [Hv Hn]. destruct (pic_ioport_write w addr val p) as [p' |] eqn:E; [| by apply pic_write_error in E].
    eexists _, p'. split; [done |]. split; [by apply (pic_step_wf p), Hp; econstructor |]. intros Hi. by eapply raised_write.
  - pose proof (raised_read w addr p Hr). destruct (pic_ioport_read w addr p) as [x p'] eqn:E. exists x, p'. split; [done |].
    split; [| done]. apply (pic_step_wf p); [by econstructor | done].
  - pose proof (raised_intack p Hr). destruct (pic_intack_read p) as [x p'] eqn:E. exists x, p'. split; [done |].
    split; [| done]. apply (pic_step_wf p); [by econstructor | done].
  - eexists _, _. split; [done |]. split; [apply (pic_step_wf p); [by constructor | done] | intros _; by apply raised_set].
Qed.

Lemma pic_run_keeps X op : pic_access_ok op -> (initialises op = false \/ forall j, X j) -> keeps X (with_pic (pic_run op)).
Proof.
  intros Hok Hi. apply with_pic_keeps. intros p Hp Hn. destruct (pic_run_wf op p Hok Hp) as (x & p' & E & Hp' & Hr);
    [unfold raised; by rewrite Hn |].
  exists x, p'. do 2 (split; [done |]). destruct Hi as [Hi | HX]; [by apply raised_harmless, Hr |].
  apply Forall_forall. intros l _. by right.
Qed.

Lemma read_irq_keeps X : keeps X (with_pic (fun p => Some (pic_read_irq p))).
Proof.
  apply with_pic_keeps. intros p Hp Hn. pose proof (raised_read_irq p) as Hr. pose proof (pic_read_irq_wf p Hp) as Hw.
  destruct (pic_read_irq p) as [x p']. exists x, p'. do 2 (split; [done |]). apply raised_harmless, Hr. unfold raised. by rewrite Hn.
Qed.

Lemma pic_set_irq_keeps X n level : 0 <= n < 16 -> keeps X (with_pic (fun p => Some (tt, i8259_set_irq n level p))).
Proof.
  intros Hi. apply with_pic_keeps. intros p Hp Hn. eexists _, _. split; [done |].
  split; [apply (pic_step_wf p); [by constructor | done] |]. apply raised_harmless, raised_pic_update, raised_set. unfold raised. by rewrite Hn.
Qed.

Lemma pic_update_keeps X : keeps X (with_pic (fun p => Some (tt, pic_update_irq p))).
Proof.
  apply with_pic_keeps. intros p Hp Hn. eexists _, _. split; [done |]. split; [by apply pic_update_irq_wf |].
  apply raised_harmless, raised_pic_update. unfold raised. by rewrite Hn.
Qed.

(** ** The I/O controller *)

Lemma keeps_ioapic {A} X (f : IOAPICState -> B A) : (forall io, ioapic_wf io -> keeps X (f io)) -> keeps X (ioapic ≫= f).
Proof.
  intros Hf s Hs. destruct (w_io _ (i_wf _ _ Hs)) as (io & E & Hw). sm_step. eapply runs_ioapic; [exact E |]. by apply Hf.
Qed.

Lemma keeps_upd_ioapic X f :
  (forall io, ioapic_wf io -> exists io', f io = Some io' /\ ioapic_wf io') -> keeps X (upd_ioapic f).
Proof.
  intros Hf s Hs. destruct (w_io _ (i_wf _ _ Hs)) as (io & E & Hw). destruct (Hf io Hw) as (io' & E' & Hw').
  eapply runs_upd_ioapic; [exact E | exact E' |]. split; [| done].
  destruct Hs as [[W1 W2 W3 W4 W5 W6] Hs]. split; [split; cbn; try done; by exists io' | done].
Qed.

Lemma keeps_lift {A C} X (o : option A) (f : A -> B C) :
  (exists a, o = Some a /\ keeps X (f a)) -> keeps X (sm_lift o ≫= f).
Proof. intros (a & E & Hf) s Hs. sm_step. eapply runs_lift; [exact E |]. by apply Hf. Qed.

Lemma redtbl_entry io i : ioapic_wf io -> 0 <= i < 24 -> exists e, word io.(ioredtbl) i = Some e /\ in_u 64 e.
Proof.
  intros Hw Hi. destruct (entry_some _ _ i (proj1 (w_redtbl _ Hw)) Hi) as (e & E & Hl). exists e. split; [done |].
  by apply (Forall_lookup_1 _ _ _ _ (proj2 (w_redtbl _ Hw)) Hl).
Qed.

Lemma set_redtbl io i e :
  ioapic_wf io -> 0 <= i < 24 -> in_u 64 e ->
  exists io', (t ← set_word io.(ioredtbl) i e; Some (set_ioredtbl t io)) = Some io' /\ ioapic_wf io'.
Proof.
  intros Hw Hi He. destruct (redtbl_entry io i Hw Hi) as (e0 & E & _). unfold set_word. rewrite E. bind_step. bind_step.
  eexists. split; [done |]. destruct Hw as [H1 H2 [H3 H4]]. split; cbn; [done | done |].
  split; [by rewrite length_insert | by apply Forall_insert].
Qed.

Lemma set_io_irr_wf io v : ioapic_wf io -> in_u 32 v -> ioapic_wf (set_io_irr v io).
Proof. by intros [] ?. Qed.

Lemma changes_bind_val {A C} (P : A -> Prop) X Y Z (m : B A) (f : A -> B C) :
  (forall s, inv X s -> runs m s (fun a s' => P a /\ inv Y s' /\ frame s s')) ->
  (forall a, P a -> changes Y Z (f a)) -> changes X Z (m ≫= f).
Proof.
  intros Hm Hf s Hs. sm_step. sm_use (Hm s Hs). intros a s1 (Ha & H1 & F1). sm_use (Hf a Ha s1 H1). intros b s2 [H2 F2].
  split; [done |]. by apply (frame_trans _ s1).
Qed.

Lemma service_pin_keeps X i : 0 <= i < 24 -> keeps X (service_pin i).
Proof.
  intros Hi. unfold service_pin. apply keeps_ioapic. intros io Hw. destruct (c_true _); [| apply changes_ret].
  apply keeps_lift. destruct (redtbl_entry io i Hw Hi) as (e & Ee & He). exists e. split; [done |].
  destruct (negb _); [| apply changes_ret]. apply (changes_bind X X X).
  { destruct (_ =? IOAPIC_TRIGGER_EDGE); apply keeps_upd_ioapic; intros io' Hw'.
    - eexists. split; [done |]. apply set_io_irr_wf; [done |]. pose proof (w_io_irr _ Hw'). width.
    - apply set_redtbl; [done | done |]. width. }
  intros _. apply (changes_bind_val (fun v => 0 <= v < 256) X X X).
  { intros s Hs. destruct (_ =? IOAPIC_DM_EXTINT).
    - sm_step. sm_use (read_irq_keeps X s Hs). intros v s1 H1. sm_step. split; [by apply Z.mod_pos_bound | done].
    - sm_step. split; [apply vector_of | split; [done | apply frame_refl]]. }
  intros v Hv. apply deliver_irq_keeps; [by apply in_u_wrap | done].
Qed.

Lemma service_keeps X : keeps X ioapic_service.
Proof. apply keeps_for_loop. intros k Hk. change (Z.of_nat (Z.to_nat IOAPIC_NUM_PINS)) with 24 in Hk. apply service_pin_keeps. lia. Qed.

Lemma request_pin_keeps X mask : in_u 32 mask -> keeps X (upd_ioapic (fun s => Some (set_io_irr (Z.lor s.(io_irr) mask) s));; ioapic_service).
Proof.
  intros Hm. apply (changes_bind X X X); [| intros _; apply service_keeps]. apply keeps_upd_ioapic. intros io Hw.
  eexists. split; [done |]. apply set_io_irr_wf; [done |]. pose proof (w_io_irr _ Hw). width.
Qed.

Lemma ioapic_set_irq_keeps X n level : keeps X (ioapic_set_irq n level).
Proof.
  unfold ioapic_set_irq. generalize (if n =? 0 then 2 else n). clear n. intros n. unfold IOAPIC_NUM_PINS.
  destruct (Z.leb_spec 0 n) as [H0 | H0]; [destruct (Z.ltb_spec n 0x18) as [H1 | H1] |]; cbn [andb]; try apply changes_ret.
  assert (Hm : in_u 32 (Z.shiftl 1 n)) by (apply in_u_bit; lia).
  apply keeps_ioapic. intros io Hw. apply keeps_lift. destruct (redtbl_entry io n Hw) as (e & Ee & He); [lia |]. exists e.
  split; [done |]. destruct (_ =? IOAPIC_TRIGGER_LEVEL); [destruct (c_true level) | destruct (_ && _)];
    [by apply request_pin_keeps | | by apply request_pin_keeps | apply changes_ret].
  apply keeps_upd_ioapic. intros io' Hw'. eexists. split; [done |]. apply set_io_irr_wf; [done |]. pose proof (w_io_irr _ Hw'). width.
Qed.

Lemma isa_irq_keeps X n level : 0 <= n -> keeps X (isa_irq_handler n level).
Proof.
  intros Hn. unfold isa_irq_handler. apply (changes_bind X X X).
  - destruct (Z.ltb_spec n 16); [apply pic_set_irq_keeps; lia | apply changes_ret].
  - intros _ s Hs. sm_step. sm_step. destruct (s.(ioapics)); [by apply ioapic_set_irq_keeps | by apply changes_ret].
Qed.

Lemma eoi_broadcast_keeps X v : keeps X (ioapic_eoi_broadcast v).
Proof.
  unfold ioapic_eoi_broadcast. intros s Hs. sm_step. sm_step. destruct (s.(ioapics)); [| by apply changes_ret]. revert s Hs.
  apply keeps_for_loop. intros n Hn. change (Z.of_nat (Z.to_nat IOAPIC_NUM_PINS)) with 24 in Hn. unfold eoi_pin.
  apply keeps_ioapic. intros io Hw. apply keeps_lift. destruct (redtbl_entry io n Hw) as (e & Ee & He); [lia |].
  exists e. split; [done |]. destruct (_ && _); [| apply changes_ret]. apply (changes_bind X X X).
  - apply keeps_upd_ioapic. intros io' Hw'. apply set_redtbl; [done | lia | width].
  - intros _. destruct (_ && _); [apply service_keeps | apply changes_ret].
Qed.

Lemma ioapic_write_keeps X addr val : in_u 32 val -> keeps X (ioapic_mem_writel addr val).
Proof.
  intros Hv. unfold ioapic_mem_writel. destruct (_ =? IOAPIC_IOREGSEL).
  { apply keeps_upd_ioapic. intros io []. eexists. split; [done |]. split; cbn; [by apply in_u_wrap | done | done]. }
  destruct (_ =? IOAPIC_IOWIN); [| apply changes_ret]. apply keeps_ioapic. intros io Hw.
  destruct (_ =? IOAPIC_REG_ID). { apply keeps_upd_ioapic. intros io' []. eexists. split; [done |]. by split. }
  destruct (_ || _); [apply changes_ret |]. set (n := Z.shiftr _ 1). unfold IOAPIC_NUM_PINS.
  destruct (Z.leb_spec 0 n) as [H0 | H0]; [destruct (Z.ltb_spec n 0x18) as [H1 | H1] |]; cbn [andb]; try apply changes_ret.
  apply keeps_lift. destruct (redtbl_entry io n Hw) as (e & Ee & He); [lia |]. exists e. split; [done |].
  apply (changes_bind X X X); [| intros _; apply service_keeps]. apply keeps_upd_ioapic. intros io' Hw'. apply set_redtbl; [done | lia |].
  assert (in_u 64 val) by (apply (in_u_mono 32); [lia | done]). destruct (c_true _); width.
Qed.

Lemma ioapic_reset_keeps X : keeps X ioapic_reset.
Proof.
  apply keeps_upd_ioapic. intros io _. eexists. split; [done |]. split; [by split | by split |]. split; [done |].
  apply Forall_replicate. by split.
Qed.

(** ** Acknowledge and end of interrupt *)

Lemma class_range v : 0 <= v < 256 -> 0 <= class v < 16.
Proof. intros Hv. unfold class. rewrite Z.shiftr_div_pow2 by lia. change (2 ^ 4) with 16. Z.to_euclidean_division_equations. lia. Qed.

Lemma class_mono v w : v <= w -> class v <= class w.
Proof. intros H. unfold class. rewrite !Z.shiftr_div_pow2 by lia. by apply Z.div_le_mono. Qed.

Lemma class_mask v : 0 <= v < 256 -> Z.land v 0xf0 = 16 * class v.
Proof.
  intros Hv. unfold class. rewrite Z.mul_comm. change 16 with (2 ^ 4). rewrite <- Z.shiftl_mul_pow2 by lia.
  apply Z.bits_inj'. intros n Hn. destruct (Z.lt_ge_cases n 4).
  - rewrite Z.shiftl_spec_low, Z.land_spec by lia. replace (Z.testbit 0xf0 n) with false; [apply andb_false_r |].
    assert (n = 0 \/ n = 1 \/ n = 2 \/ n = 3) as [-> | [-> | [-> | ->]]] by lia; done.
  - rewrite Z.shiftl_spec, Z.shiftr_spec, Z.land_spec by lia. replace (n - 4 + 4) with n by lia.
    destruct (Z.lt_ge_cases n 8); [| rewrite (testbit_high 8 v) by (unfold in_u; lia); done].
    replace (Z.testbit 0xf0 n) with true; [apply andb_true_r |].
    assert (n = 4 \/ n = 5 \/ n = 6 \/ n = 7) as [-> | [-> | [-> | ->]]] by lia; done.
Qed.

(** The vector is of a higher class than the task and the interrupts in service;
    without any of them, an illegal one will do. *)
Definition outranks (a : APICState) (v : Z) : Prop :=
  (class a.(tpr) < class v /\ forall u, 0 <= u < 256 -> has a.(isr) u = true -> class u < class v) \/
  (class v = 0 /\ a.(tpr) = 0 /\ forall u, 0 <= u < 256 -> has a.(isr) u = true -> class u = 0).

(** The greatest requested vector *)
Definition foremost (a : APICState) (v : Z) : Prop :=
  0 <= v < 256 /\ has a.(irr) v = true /\ forall u, 0 <= u < 256 -> has a.(irr) u = true -> u <= v.

(** What the priority register says, declaratively *)
Lemma ppr_blocks i a v :
  apic_wf i a -> 0 <= v < 256 ->
  exists ppr, apic_get_ppr a = Some ppr /\ (c_true ppr && (Z.land v 0xf0 <=? Z.land ppr 0xf0) = false <-> outranks a v).
Proof.
  intros Hw Hv. destruct (ppr_spec i a Hw) as (h & _ & Hr & Hh & Hm & E). eexists. split; [exact E |].
  pose proof (w_tpr _ _ Hw) as Ht. unfold in_u in Ht. pose proof (class_range a.(tpr) Ht) as Hct.
  pose proof (class_range (Z.max 0 h) ltac:(lia)) as Hch. pose proof (class_range v Hv) as Hcv.
  set (ppr := if _ <=? _ then _ else _).
  assert (Hp : 0 <= ppr < 256 /\ class ppr = Z.max (class a.(tpr)) (class (Z.max 0 h)) /\ (ppr = 0 <-> a.(tpr) = 0 /\ class (Z.max 0 h) = 0)).
  { unfold ppr. destruct (Z.leb_spec (class (Z.max 0 h)) (class a.(tpr))) as [Hle | Hlt].
    - split; [lia |]. split; [lia |]. split; [intros E0; split; [done |]; rewrite E0 in Hle; change (class 0) with 0 in Hle; lia | tauto].
    - assert (E4 : Z.shiftl (class (Z.max 0 h)) 4 = 16 * class (Z.max 0 h)) by (rewrite Z.shiftl_mul_pow2 by lia; lia). rewrite E4.
      assert (Ec : class (16 * class (Z.max 0 h)) = class (Z.max 0 h)).
      { rewrite <- E4. unfold class at 1. by rewrite Z.shiftr_shiftl_l by lia. }
      split; [lia |]. rewrite Ec. lia. }
  destruct Hp as (Hpr & Hpc & Hp0). rewrite !class_mask by done.
  assert (Hisr : forall u, 0 <= u < 256 -> has a.(isr) u = true -> class u <= class (Z.max 0 h)).
  { intros u Hu Hset. apply class_mono. specialize (Hm u Hu Hset). lia. }
  rewrite andb_false_iff. unfold c_true. rewrite negb_false_iff, Z.eqb_eq, Z.leb_gt, Hp0. unfold outranks. split.
  - intros [[Ht0 Hh0] | Hlt].
    + destruct (decide (class v = 0)) as [Ev | Ev].
      * right. split; [done |]. split; [done |]. intros u Hu Hset. specialize (Hisr u Hu Hset). pose proof (class_range u Hu). lia.
      * left. split; [rewrite Ht0; change (class 0) with 0; lia |]. intros u Hu Hset. specialize (Hisr u Hu Hset). lia.
    + left. split; [lia |]. intros u Hu Hset. specialize (Hisr u Hu Hset). lia.
  - intros [[Hl Hu] | (Hv0 & Ht0 & Hu)].
    + right. destruct (Z.le_gt_cases 0 h) as [Hpos | Hneg].
      * specialize (Hu h ltac:(lia) (Hh Hpos)). rewrite (Z.max_r 0 h) in Hpc by lia. lia.
      * rewrite (Z.max_l 0 h) in Hpc by lia. change (class 0) with 0 in Hpc. lia.
    + left. split; [done |]. destruct (Z.le_gt_cases 0 h) as [Hpos | Hneg].
      * specialize (Hu h ltac:(lia) (Hh Hpos)). by rewrite Z.max_r by lia.
      * by rewrite Z.max_l by lia.
Qed.

(** The pending interrupt: the foremost, if it outranks the others, 0 if there is
    none (or vector 0), -1 if it does not *)
Lemma pending_spec i a :
  apic_wf i a ->
  exists p, apic_irq_pending a = Some p /\ -1 <= p < 256 /\
    (0 < p -> foremost a p /\ outranks a p) /\
    (p = 0 -> (forall u, 0 <= u < 256 -> has a.(irr) u = false) \/ foremost a 0 /\ outranks a 0) /\
    (p = -1 -> exists v, foremost a v /\ ~ outranks a v).
Proof.
  intros Hw. destruct (highest_spec _ (w_irr _ _ Hw)) as (h & Eh & Hr & Hh & Hm). unfold apic_irq_pending. rewrite Eh. bind_step.
  destruct (Z.ltb_spec h 0) as [Hneg | Hpos].
  - exists 0. split; [done |]. split; [lia |]. split; [lia |]. split; [| done]. intros _. left. intros u Hu.
    destruct (has a.(irr) u) eqn:E; [| done]. specialize (Hm u Hu E). lia.
  - assert (Hf : foremost a h) by (split; [lia | split; [by apply Hh | done]]).
    destruct (ppr_blocks i a h Hw ltac:(lia)) as (ppr & -> & Hb). bind_step. eexists. split; [done |].
    destruct (c_true ppr && (Z.land h 0xf0 <=? Z.land ppr 0xf0)) eqn:E.
    + split; [lia |]. split; [lia |]. split; [lia |]. intros _. exists h. split; [done |]. intros Ho. by apply Hb in Ho.
    + split; [lia |]. assert (outranks a h) by by apply Hb. split; [done |]. split; [intros ->; by right | lia].
Qed.

Lemma nested_set a v t :
  outranks a v -> nested a.(isr) -> (forall u, 0 <= u < 256 -> has t u = if u =? v then true else has a.(isr) u) -> nested t.
Proof.
  intros Ho Hn Ht x y Hx Hy Hsx Hsy Hne Hc. rewrite Ht in Hsx, Hsy by done.
  destruct (Z.eqb_spec x v) as [-> | Hxv]; destruct (Z.eqb_spec y v) as [-> | Hyv]; [done | | | by apply (Hn x y)].
  - destruct Ho as [[_ Ho] | [Hv _]]; [specialize (Ho y Hy Hsy); lia | done].
  - destruct Ho as [[_ Ho] | [Hv _]]; [specialize (Ho x Hx Hsx); lia | congruence].
Qed.

Lemma nested_reset t v t' :
  nested t -> (forall u, 0 <= u < 256 -> has t' u = if u =? v then false else has t u) -> nested t'.
Proof.
  intros Hn Ht x y Hx Hy Hsx Hsy. rewrite Ht in Hsx, Hsy by done.
  destruct (x =? v); [done |]. destruct (y =? v); [done |]. by apply Hn.
Qed.

Lemma nested_zero n : nested (replicate n 0).
Proof. intros v w _ _ H. by rewrite has_zero in H. Qed.

(** A controller that accepts [v] *)
Definition accepts (v : Z) (a a' : APICState) : Prop :=
  exists r t, a' = set_isr t (set_irr r a) /\ tab_wf r /\ tab_wf t /\
    (forall u, 0 <= u < 256 -> has r u = if u =? v then false else has a.(irr) u) /\
    (forall u, 0 <= u < 256 -> has t u = if u =? v then true else has a.(isr) u).

Lemma accepts_wf i a a' v : apic_wf i a -> outranks a v -> accepts v a a' -> apic_wf i a'.
Proof.
  intros Hw Ho (r & t & -> & Hr & Ht & _ & Hs). pose proof (nested_set a v t Ho (w_nested _ _ Hw) Hs). apic_field.
Qed.

Lemma accept_runs s i a v (P : unit -> bus -> Prop) :
  apic_wf i a -> s.(local_apics) !! i = Some a -> 0 <= v < 256 ->
  (forall a', accepts v a a' -> P tt (set_local_apics (<[i := a']> s.(local_apics)) s)) ->
  runs (upd i (fun s => t ← reset_bit s.(irr) v; Some (set_irr t s));;
        upd i (fun s => t ← set_bit s.(isr) v; Some (set_isr t s))) s P.
Proof.
  intros Hw Ha Hv HP. destruct (reset_bit_spec _ v (w_irr _ _ Hw) Hv) as (r & Er & Hr & Hur).
  destruct (set_bit_spec _ v (w_isr _ _ Hw) Hv) as (t & Et & Ht & Hut). sm_step.
  eapply runs_upd; [exact Ha | by rewrite Er |]. eapply runs_upd.
  - cbn. rewrite list_lookup_insert_eq by (by eapply lookup_lt_Some). done.
  - cbn. by rewrite Et.
  - cbn. specialize (HP (set_isr t (set_irr r a))). cbn in HP. rewrite list_insert_insert_eq. apply HP. by exists r, t.
Qed.

(** A controller whose processor stopped looking is asked again. *)
Lemma get_interrupt_tells X i d : d = Some i -> acts (add X i) X i (apic_get_interrupt d).
Proof.
  intros -> s Hs Hi. destruct (lookup_lt_is_Some_2 _ _ Hi) as [a Ha]. pose proof (w_apics _ (i_wf _ _ Hs) i a Ha) as Hw.
  assert (Hquiet : ~ deliverable a -> inv X s).
  { intros Hn. destruct Hs as [Hwf Hs]. split; [done |]. intros j b Hj Hd. destruct (Hs j b Hj Hd) as [[? | ->] | ?]; auto.
    rewrite Ha in Hj. by injection Hj as <-. }
  cbn [apic_get_interrupt]. sm_step. eapply runs_apic; [exact Ha |]. rewrite sv_enable.
  destruct (Z.testbit a.(spurious_vec) 8) eqn:Ee; cbn [negb].
  2: { sm_step. split; [| apply frame_refl]. apply Hquiet. intros [E _]. congruence. }
  destruct (pending_spec i a Hw) as (p & Ep & Hr & Hpos & _ & _). sm_step. eapply runs_lift; [exact Ep |].
  assert (Hnot : ~ 0 < p -> ~ deliverable a) by (intros Hn [_ (q & Eq & Hq)]; rewrite Ep in Eq; by injection Eq as <-).
  destruct (Z.eqb_spec p 0); [sm_step; split; [apply Hquiet, Hnot; lia | apply frame_refl] |].
  destruct (Z.ltb_spec p 0); [sm_step; split; [apply Hquiet, Hnot; lia | apply frame_refl] |].
  destruct (Hpos ltac:(lia)) as [_ Ho]. eapply (runs_mono _ _ (fun _ s' => inv X s' /\ frame s s')); [| done].
  assert (Hseq : forall (m1 m2 : B unit) (k : B Z), runs ((m1;; m2);; k) s (fun _ s' => inv X s' /\ frame s s') ->
    runs (m1;; m2;; k) s (fun _ s' => inv X s' /\ frame s s')).
  { intros m1 m2 k (x & s' & E & H'). exists x, s'. split; [| done]. revert E. unfold mbind, sm_bind.
    by destruct (m1 s) as [[? ?] |]. }
  apply Hseq. sm_step. apply (accept_runs s i a p); [done | done | lia |]. intros a' Hacc.
  assert (H1 : inv (add X i) (set_local_apics (<[i := a']> s.(local_apics)) s)).
  { apply (inv_upd _ s i a); [done | done | by eapply accepts_wf | intros _; right; by right]. }
  sm_step. sm_use (update_irq_tells X i _ H1 ltac:(cbn; by rewrite length_insert)). intros _ s2 [H2 F2]. sm_step.
  split; [done |]. eapply frame_trans; [apply frame_upd | exact F2].
Qed.

Lemma eoi_keeps X i : acts X X i (apic_eoi i).
Proof.
  unfold apic_eoi. apply acts_apic. intros a Hw. apply acts_lift.
  destruct (highest_spec _ (w_isr _ _ Hw)) as (h & Eh & Hr & _ & _). exists h. split; [done |].
  destruct (Z.ltb_spec h 0); [apply acts_ret |].
  apply (acts_bind X (add X i)).
  { apply (acts_mono (add X i) X (add X i) (add X i)); [by left | done |]. apply acts_upd_any. intros b Hb.
    destruct (reset_bit_spec _ h (w_isr _ _ Hb) ltac:(lia)) as (t & Et & Ht & Hu). rewrite Et. bind_step. eexists. split; [done |].
    pose proof (nested_reset _ h t (w_nested _ _ Hb) Hu). apic_field. }
  intros _. apply acts_lift. rewrite (get_bit_spec _ h (w_tmr _ _ Hw)) by lia. eexists. split; [done |].
  apply (acts_bind _ (add X i)); [| intros _; apply update_irq_tells].
  destruct (_ && _); [apply acts_changes, eoi_broadcast_keeps | apply acts_ret].
Qed.

(** Clearing requests of a processor *)
Lemma clear_request_adds X i m : acts X (add X i) i (cpu_reset_interrupt i m).
Proof.
  apply (acts_mono (add X i) X (add X i) (add X i)); [by left | done |]. apply acts_upd_cpu. intros o Ho.
  split; [done |]. split; [by apply clear_in_u |]. intros _. right. by right.
Qed.

Lemma take_keeps X c : acts X X c (take_interrupt c).
Proof.
  unfold take_interrupt. apply (acts_bind _ (add X c)); [apply clear_request_adds |]. intros _. unfold cpu_get_pic_interrupt.
  apply acts_cpu. intros o Ho _. apply (acts_bind _ X); [by apply get_interrupt_tells |]. intros v. destruct (0 <=? v).
  - apply (acts_bind _ X); [apply acts_changes, pic_update_keeps | intros _; apply acts_ret].
  - apply accept_keeps; [done |]. intros x. destruct (negb _); [apply acts_ret | apply acts_changes, read_irq_keeps].
Qed.

(** ** Registers and timer *)

(** A change of a register that priorities do not depend on *)
Ltac same_upd := apply acts_upd_same; intros ?a ?Ha; eexists; (split; [reflexivity |]); (split; [apic_field; try width | done]).

Lemma timer_update_keeps X i t : acts X X i (apic_timer_update i t).
Proof.
  unfold apic_timer_update. apply acts_apic. intros a Hw. apply acts_lift.
  destruct (entry_some _ _ 0 (proj1 (w_lvt _ _ Hw)) ltac:(lia)) as (l & El & _). exists l. split; [done |].
  destruct (next_expiry a l t); same_upd.
Qed.

Lemma timer_keeps X i : acts X X i (apic_timer i).
Proof.
  unfold apic_timer. apply (acts_bind _ X); [apply local_deliver_keeps; unfold APIC_LVT_TIMER; lia |]. intros _.
  apply acts_apic. intros a _. apply timer_update_keeps.
Qed.

Lemma base_keeps X i d val : d = Some i -> acts X X i (cpu_set_apic_base d val).
Proof.
  intros ->. cbn [cpu_set_apic_base]. apply (acts_bind _ X); [same_upd |]. intros _. destruct (negb _); [| apply acts_ret].
  apply (acts_bind _ X); [same_upd |]. intros _. apply acts_apic. intros a Hw. rewrite (w_env _ _ Hw).
  apply (acts_bind _ X); [apply acts_upd_cpu; intros o Ho; split; [done |]; split; [done |]; by left |]. intros _.
  apply acts_upd. intros b Hb. eexists. split; [done |]. split.
  - pose proof (w_spurious _ _ Hb). apic_field. width.
  - intros [E _]. exfalso. cbn [spurious_vec set_spurious_vec] in E. unfold APIC_SV_ENABLE in E. rewrite Z.land_spec, Z.lnot_spec, testbit_bit in E by lia.
    by rewrite bool_decide_eq_true_2, andb_false_r in E.
Qed.

(** A register that priorities depend on, and the update behind it *)
Lemma set_and_tell X i f : (forall a, apic_wf i a -> apic_wf i (f a)) -> acts X X i (upd i (fun s => Some (f s));; apic_update_irq i).
Proof. intros Hf. apply acts_then_tell, acts_upd_any. intros a Hw. eexists. split; [done |]. by apply Hf. Qed.

Lemma nibble v : 0 <= Z.land v 0x0f < 16.
Proof. change 0x0f with (Z.ones 4). rewrite Z.land_ones by lia. by apply Z.mod_pos_bound. Qed.

Lemma tpr_keeps X i d val : d = Some i -> acts X X i (cpu_set_apic_tpr d val).
Proof.
  intros ->. cbn [cpu_set_apic_tpr]. apply set_and_tell. intros a Hw. apic_field. pose proof (nibble val).
  unfold in_u. rewrite Z.shiftl_mul_pow2 by lia. lia.
Qed.

Lemma insert_words (t : list Z) n i v :
  length t = n -> Forall (in_u 32) t -> 0 <= i < Z.of_nat n -> in_u 32 v ->
  exists t', set_word t i v = Some t' /\ length t' = n /\ Forall (in_u 32) t'.
Proof.
  intros Hl Hf Hi Hv. destruct (entry_some t n i Hl Hi) as (w & E & _). unfold set_word. rewrite E. bind_step. eexists.
  split; [done |]. split; [by rewrite length_insert | by apply Forall_insert].
Qed.

Lemma write_lvt_keeps X i n val : 0 <= n < 6 -> in_u 32 val -> acts X X i (write_lvt i n val).
Proof.
  intros Hn Hv. unfold write_lvt. apply (acts_bind _ X).
  - apply acts_upd_same. intros a Hw. destruct (w_lvt _ _ Hw) as [Hl Hf].
    destruct (insert_words a.(lvt) 6 n val Hl Hf Hn Hv) as (t & E & Ht). rewrite E. bind_step. eexists. split; [done |]. split; [apic_field | done].
  - intros _. destruct (n =? APIC_LVT_TIMER); [| apply acts_ret]. apply acts_get. intros t. apply timer_update_keeps.
Qed.

Lemma write_icr_word X i n val : 0 <= n < 2 -> in_u 32 val -> acts X X i (upd i (fun s => t ← set_word s.(icr) n val; Some (set_icr t s))).
Proof.
  intros Hn Hv. apply acts_upd_same. intros a Hw. destruct (w_icr _ _ Hw) as [Hl Hf].
  destruct (insert_words a.(icr) 2 n val Hl Hf Hn Hv) as (t & E & Ht). rewrite E. bind_step. eexists. split; [done |]. split; [apic_field | done].
Qed.

Lemma write_icr_keeps X i val : in_u 32 val -> acts X X i (write_icr i val).
Proof.
  intros Hv. unfold write_icr. apply (acts_bind _ X); [apply write_icr_word; [lia | done] |]. intros _.
  apply acts_apic. intros a Hw. apply acts_lift. destruct (entry_some _ _ 0 (proj1 (w_icr _ _ Hw)) ltac:(lia)) as (c & Ec & _).
  exists c. split; [done |]. apply acts_lift. destruct (entry_some _ _ 1 (proj1 (w_icr _ _ Hw)) ltac:(lia)) as (c1 & Ec1 & _).
  exists c1. split; [done |]. apply deliver_keeps; [unfold in_u; pose proof (vector_of (Z.shiftr c1 24)); lia | apply vector_of].
Qed.

Lemma divide_wf i a val : apic_wf i a -> apic_wf i (write_divide val a).
Proof. intros Hw. apic_field. rewrite land_7. by apply Z.mod_pos_bound. Qed.

(** *** Memory-mapped registers *)

Lemma current_apic {A} X c (f : option nat -> B A) :
  acts X X c (f (Some c)) -> acts X X c (cpu_get_current_apic (Some c) ≫= f).
Proof.
  intros Hf s Hs Hi. pose proof Hi as Hi'. rewrite <- (w_count_cpus _ (i_wf _ _ Hs)) in Hi'. destruct (lookup_lt_is_Some_2 _ _ Hi') as [o Ho].
  destruct (w_cpus _ (i_wf _ _ Hs) _ _ Ho) as [Ec _]. sm_step. cbn [cpu_get_current_apic]. sm_step.
  eapply runs_cpu; [exact Ho |]. sm_step. rewrite Ec. by apply Hf.
Qed.

Lemma send_msi_keeps X addr val : keeps X (apic_send_msi addr val).
Proof. apply deliver_irq_keeps; [by apply in_u_wrap |]. by apply Z.mod_pos_bound. Qed.

Lemma write_keeps X c addr val : in_u 32 val -> acts X X c (apic_mem_writel (Some c) addr val).
Proof.
  intros Hv. unfold apic_mem_writel. set (index := Z.land _ 0xff).
  destruct (_ || _); [apply acts_changes, send_msi_keeps |]. apply current_apic.
  destruct (index =? 0x02); [same_upd |]. destruct (index =? 0x03); [apply acts_ret |].
  destruct (index =? 0x08); [apply set_and_tell; intros a Hw; apic_field; width |].
  destruct (_ || _); [apply acts_ret |]. destruct (index =? 0x0b); [apply eoi_keeps |].
  destruct (index =? 0x0d); [same_upd |]. destruct (index =? 0x0e); [same_upd |].
  destruct (index =? 0x0f); [apply set_and_tell; intros a Hw; apic_field; width |].
  destruct (_ && _); [apply acts_ret |]. destruct (index =? 0x30); [by apply write_icr_keeps |].
  destruct (index =? 0x31); [apply write_icr_word; [lia | done] |].
  destruct (Z.leb_spec 0x32 index); [destruct (Z.leb_spec index 0x37) |]; cbn [andb]; [apply write_lvt_keeps; [lia | done] | |];
    (destruct (index =? 0x38);
     [unfold write_initial_count; apply acts_get; intros t; apply (acts_bind _ X); [same_upd | intros _; apply timer_update_keeps] |];
     destruct (index =? 0x39); [apply acts_ret |]; destruct (index =? 0x3e); [| same_upd]);
    (apply acts_upd_same; intros a Hw; eexists; split; [reflexivity |]; split; [by apply divide_wf | done]).
Qed.

Lemma read_register_total i a index :
  apic_wf i a -> exists v, read_register a index = Some v.
Proof.
  intros Hw. destruct (ppr_spec i a Hw) as (h & _ & _ & _ & _ & Ep). unfold read_register.
  assert (H8 : forall t, tab_wf t -> exists v, word t (Z.land index 7) = Some v).
  { intros t [Hl _]. destruct (word_some t (Z.land index 7) Hl) as (v & E & _); [rewrite land_7; by apply Z.mod_pos_bound | by exists v]. }
  do 4 (destruct (_ =? _); [by eexists |]). destruct (index =? 0x0a); [rewrite Ep; by eexists |].
  do 4 (destruct (_ =? _); [by eexists |]). destruct (_ && _); [apply H8, Hw |]. destruct (_ && _); [apply H8, Hw |].
  destruct (_ && _); [apply H8, Hw |]. destruct (_ =? _); [by eexists |]. destruct (_ && _).
  { destruct (entry_some _ _ (Z.land index 1) (proj1 (w_icr _ _ Hw))) as (v & E & _); [rewrite land_1; by apply Z.mod_pos_bound | by exists v]. }
  destruct (Z.leb_spec 0x32 index); [destruct (Z.leb_spec index 0x37) |]; cbn [andb].
  - destruct (entry_some _ _ (index - 0x32) (proj1 (w_lvt _ _ Hw))) as (v & E & _); [lia | by exists v].
  - destruct (_ =? _); by eexists.
  - destruct (_ =? _); by eexists.
Qed.

Lemma read_keeps X c addr : acts X X c (apic_mem_readl (Some c) addr).
Proof.
  unfold apic_mem_readl. apply current_apic. set (index := Z.land _ 0xff). destruct (index =? 0x39).
  - unfold apic_get_current_count. apply acts_apic. intros a Hw. apply acts_get. intros t. apply acts_lift.
    destruct (entry_some _ _ 0 (proj1 (w_lvt _ _ Hw)) ltac:(lia)) as (l & El & _). exists l. split; [done | apply acts_ret].
  - destruct (_ || _); [| apply (acts_bind _ X); [same_upd | intros _; apply acts_ret]].
    apply acts_apic. intros a Hw s Hs _. destruct (read_register_total c a index Hw) as [v Ev].
    eapply runs_lift; [exact Ev |]. split; [done | apply frame_refl].
Qed.

Lemma io_read_keeps X addr : keeps X (ioapic_mem_readl addr).
Proof.
  unfold ioapic_mem_readl. apply keeps_ioapic. intros io Hw. destruct (_ =? IOAPIC_IOREGSEL); [apply changes_ret |].
  destruct (_ =? IOAPIC_IOWIN); [| apply changes_ret]. do 3 (destruct (_ =? _); [apply changes_ret |]).
  set (n := Z.shiftr _ 1). unfold IOAPIC_NUM_PINS.
  destruct (Z.leb_spec 0 n); [destruct (Z.ltb_spec n 0x18) |]; cbn [andb]; try apply changes_ret.
  apply keeps_lift. destruct (redtbl_entry io n Hw) as (e & Ee & _); [lia |]. exists e. split; [done | apply changes_ret].
Qed.

(** ** Reset *)

Lemma init_reset_wf i a : apic_wf i a -> apic_wf i (init_reset a).
Proof.
  intros Hw. pose proof tab_zero_wf. apic_field; try by split.
  - split; [done |]. by repeat constructor.
  - split; [done |]. by repeat constructor.
  - apply (nested_zero 8).
Qed.

Lemma init_reset_quiet a : ~ deliverable (init_reset a).
Proof. by intros [E _]. Qed.

Lemma init_reset_tells X i d : d = Some i -> acts (add X i) X i (apic_init_reset d).
Proof.
  intros -> s Hs Hi. destruct (lookup_lt_is_Some_2 _ _ Hi) as [a Ha]. pose proof (w_apics _ (i_wf _ _ Hs) i a Ha) as Hw.
  cbn [apic_init_reset]. eapply runs_upd; [exact Ha | done |]. split; [| apply frame_upd].
  destruct (inv_upd (add X i) s i a (init_reset a) Hs Ha (init_reset_wf _ _ Hw)) as [Hwf Hsig]; [by intros ?%init_reset_quiet |].
  split; [done |]. intros j b Hj Hd. destruct (Hsig j b Hj Hd) as [[? | ->] | ?]; [by left | | by right].
  cbn in Hj. rewrite list_lookup_insert_eq in Hj by done. injection Hj as <-. by apply init_reset_quiet in Hd.
Qed.

Lemma init_keeps X c : acts X X c (do_cpu_init c).
Proof.
  unfold do_cpu_init. apply acts_cpu. intros o Ho Hr. apply (acts_bind _ (add X c)).
  { apply (acts_mono (add X c) X (add X c) (add X c)); [by left | done |]. apply acts_upd_cpu. intros o' _.
    split; [done |]. split; [by apply clear_in_u | intros _; right; by right]. }
  intros _. apply (acts_bind _ X); [by apply init_reset_tells |]. intros _. apply acts_upd_cpu. intros o' Ho'.
  split; [done |]. split; [done | by left].
Qed.

Lemma sipi_keeps X c : acts X X c (do_cpu_sipi c).
Proof.
  unfold do_cpu_sipi. apply acts_cpu. intros o Ho Hr. rewrite Ho. cbn [apic_sipi]. apply acts_apic. intros a Hw.
  rewrite (w_env _ _ Hw). apply (acts_bind _ X).
  { apply acts_upd_cpu. intros o' Ho'. split; [done |]. split; [by apply clear_in_u |].
    cbn [interrupt_request set_interrupt_request]. rewrite Z.land_spec. intros ->. by left. }
  intros _. destruct (negb _); [apply acts_ret |]. apply (acts_bind _ X); [| intros _; same_upd].
  apply acts_upd_cpu. intros o' Ho'. split; [done |]. split; [done | by left].
Qed.

Lemma set_lint0_keeps X i : acts X X i (upd i (fun s => t ← set_word s.(lvt) APIC_LVT_LINT0 0x700; Some (set_lvt t s))).
Proof.
  apply acts_upd_same. intros a Hw. destruct (w_lvt _ _ Hw) as [Hl Hf].
  destruct (insert_words a.(lvt) 6 APIC_LVT_LINT0 0x700 Hl Hf ltac:(unfold APIC_LVT_LINT0; lia) ltac:(by split)) as (t & E & Ht).
  rewrite E. bind_step. eexists. split; [done |]. split; [apic_field | done].
Qed.

Lemma reset_keeps X i : acts X X i (apic_reset i).
Proof.
  unfold apic_reset. apply acts_apic. intros a Hw. apply (acts_bind _ X); [same_upd |]. intros _.
  apply (acts_bind _ X); [| intros _; destruct (cpu_is_bsp _); [apply set_lint0_keeps | apply acts_ret]].
  apply (acts_mono (add X i) X X X); [by left | done |]. by apply init_reset_tells.
Qed.

(** ** Runs of the machine *)

(** A timer that is due; it is disarmed before its function runs. *)
Definition expire (i : nat) : B unit :=
  a ← apic i;
  now ← sm_get vm_clock;
  match a.(timer) with
  | Some t => if t <=? now then upd i (fun s => Some (set_timer None s));; apic_timer i else mret tt
  | None => mret tt
  end.

(** What processors, devices and time do to the controllers *)
Inductive bus_op :=
  | O_read (c : nat) (addr : Z) | O_write (c : nat) (addr val : Z) | O_msi (addr val : Z)
  | O_io_read (addr : Z) | O_io_write (addr val : Z) | O_line (n level : Z) | O_pic (op : pic_access)
  | O_take (c : nat) | O_init (c : nat) | O_sipi (c : nat) | O_base (c : nat) (val : Z) | O_tpr (c : nat) (val : Z)
  | O_clock (t : Z) | O_timer (i : nat) | O_reset (i : nat) | O_io_reset.

Definition run_op (op : bus_op) : B unit :=
  match op with
  | O_read c addr => apic_mem_readl (Some c) addr;; mret tt
  | O_write c addr val => apic_mem_writel (Some c) addr val
  | O_msi addr val => apic_send_msi addr val
  | O_io_read addr => ioapic_mem_readl addr;; mret tt
  | O_io_write addr val => ioapic_mem_writel addr val
  | O_line n level => isa_irq_handler n level
  | O_pic op => with_pic (pic_run op);; mret tt
  | O_take c => take_interrupt c;; mret tt
  | O_init c => do_cpu_init c
  | O_sipi c => do_cpu_sipi c
  | O_base c val => cpu_set_apic_base (Some c) val
  | O_tpr c val => cpu_set_apic_tpr (Some c) val
  | O_clock t => sm_modify (set_vm_clock t)
  | O_timer i => expire i
  | O_reset i => apic_reset i
  | O_io_reset => ioapic_reset
  end.

Fixpoint run_ops (ops : list bus_op) : B unit :=
  match ops with [] => mret tt | op :: ops => run_op op;; run_ops ops end.

(** Processors that exist, words of 32 bits and lines *)
Definition op_ok (n : nat) (op : bus_op) : Prop :=
  match op with
  | O_read c _ | O_take c | O_init c | O_sipi c | O_base c _ | O_tpr c _ | O_timer c | O_reset c => (c < n)%nat
  | O_write c _ val => (c < n)%nat /\ in_u 32 val
  | O_io_write _ val => in_u 32 val
  | O_line n _ => 0 <= n
  | O_pic op => pic_access_ok op
  | _ => True
  end.

(** Not the start of an initialisation of an 8259 *)
Definition calm (op : bus_op) : Prop := match op with O_pic op => initialises op = false | _ => True end.

Lemma clock_keeps X t : keeps X (sm_modify (set_vm_clock t)).
Proof. intros s [[W1 W2 W3 W4 W5 W6] Hs]. sm_step. by split. Qed.

Lemma expire_keeps X i : acts X X i (expire i).
Proof.
  unfold expire. apply acts_apic. intros a _. apply acts_get. intros now. destruct a.(timer) as [t |]; [| apply acts_ret].
  destruct (t <=? now); [| apply acts_ret]. apply (acts_bind _ X); [same_upd | intros _; apply timer_keeps].
Qed.

Lemma run_op_keeps X n op s :
  op_ok n op -> (calm op \/ forall j, X j) -> inv X s -> length s.(local_apics) = n ->
  runs (run_op op) s (fun _ s' => inv X s' /\ frame s s').
Proof.
  intros Hok Hc Hs Hn. assert (Hd : forall {A} (m : B A), keeps X m -> runs (m;; mret tt) s (fun _ s' => inv X s' /\ frame s s')).
  { intros A m Hm. apply (changes_bind X X X); [done | intros _; apply changes_ret | done]. }
  destruct op; cbn [op_ok calm run_op] in *.
  - apply (acts_bind X X X c); [apply read_keeps | intros _; apply acts_ret | done | lia].
  - apply (write_keeps X c); [tauto | done | lia].
  - by apply send_msi_keeps.
  - apply Hd, io_read_keeps.
  - by apply ioapic_write_keeps.
  - by apply isa_irq_keeps.
  - by apply Hd, pic_run_keeps.
  - apply (acts_bind X X X c); [apply take_keeps | intros _; apply acts_ret | done | lia].
  - apply (init_keeps X c); [done | lia].
  - apply (sipi_keeps X c); [done | lia].
  - apply (base_keeps X c); [done | done | lia].
  - apply (tpr_keeps X c); [done | done | lia].
  - by apply clock_keeps.
  - apply (expire_keeps X i); [done | lia].
  - apply (reset_keeps X i); [done | lia].
  - by apply ioapic_reset_keeps.
Qed.

Lemma run_ops_keeps X n ops s :
  Forall (op_ok n) ops -> (Forall calm ops \/ forall j, X j) -> inv X s -> length s.(local_apics) = n ->
  runs (run_ops ops) s (fun _ s' => inv X s').
Proof.
  intros Hok. revert s. induction Hok as [| op ops Ho Hok IH]; intros s Hc Hs Hn; cbn [run_ops]; [by sm_step |]. sm_step.
  sm_use (run_op_keeps X n op s Ho ltac:(destruct Hc as [Hc |]; [left; by inversion Hc | by right]) Hs Hn). intros _ s1 [H1 F1].
  apply IH; [destruct Hc as [Hc |]; [left; by inversion Hc | by right] | done | by rewrite F1].
Qed.

(** *** The machine after power-on *)

Record starting (k : nat) (s : bus) : Prop := {
  st_cpus : length s.(cpus) = k;
  st_len : length s.(local_apics) = k;
  st_apics : forall i a, s.(local_apics) !! i = Some a -> apic_wf i a /\ ~ deliverable a;
  st_state : forall c o, s.(cpus) !! c = Some o -> o.(apic_state) = Some c /\ in_u 32 o.(interrupt_request);
  st_io : s.(ioapics) = None;
  st_pic : s.(isa_pic) = i8259_init
}.

Lemma new_apic_wf c k : apic_wf c (new_apic c (wrap 8 k) (Z.of_nat c)).
Proof.
  pose proof tab_zero_wf. split; cbn; try done; [by apply in_u_wrap | | | apply (nested_zero 8)];
    (split; [done | by repeat constructor]).
Qed.

Lemma runs_conj {A} (m : B A) s P Q : runs m s P -> post m s Q -> runs m s (fun a s' => P a s' /\ Q a s').
Proof. intros (a & s' & E & HP) HQ. exists a, s'. split; [done |]. split; [done | by apply HQ]. Qed.

(** A reset changes one controller, which is well formed and quiet afterwards. *)
Lemma apic_reset_runs s i a :
  apic_wf i a -> s.(local_apics) !! i = Some a ->
  runs (apic_reset i) s (fun _ s' => exists a', s' = set_local_apics (<[i := a']> s.(local_apics)) s /\ apic_wf i a' /\ ~ deliverable a').
Proof.
  intros Hw Ha. pose proof (lookup_lt_Some _ _ _ Ha) as Hlt. unfold apic_reset. sm_step. eapply runs_apic; [exact Ha |].
  set (b := Z.lor _ MSR_IA32_APICBASE_ENABLE).
  assert (Hw1 : apic_wf i (set_apicbase b a)) by apic_field. pose proof (init_reset_wf _ _ Hw1) as Hw2.
  sm_step. eapply runs_upd; [exact Ha | done |]. sm_step. cbn [apic_init_reset]. eapply runs_upd;
    [cbn; by rewrite list_lookup_insert_eq | done |]. cbv beta. cbn [set_local_apics local_apics]. rewrite list_insert_insert_eq.
  destruct (cpu_is_bsp _).
  - destruct (w_lvt _ _ Hw2) as [Hl Hf].
    destruct (insert_words _ 6 APIC_LVT_LINT0 0x700 Hl Hf ltac:(unfold APIC_LVT_LINT0; lia) ltac:(by split)) as (t & E & Ht).
    eapply runs_upd; [cbn; by rewrite list_lookup_insert_eq | cbv beta; rewrite E; reflexivity |]. cbn [set_local_apics local_apics].
    rewrite list_insert_insert_eq. eexists. split; [done |]. split; [apic_field | by intros [? _]].
  - sm_step. eexists. split; [done |]. split; [done | apply init_reset_quiet].
Qed.

(** Processors with a controller *)
Definition equipped (n : nat) (features : Z) : bool := Z.testbit features 9 || (1 <? Z.of_nat n).

Lemma new_cpu_starts n features k s :
  equipped n features = true -> starting k s -> (k < 255)%nat -> runs (pc_new_cpu (Z.of_nat n) features) s (fun _ s' => starting (S k) s').
Proof.
  intros Heq [H1 H2 H3 H4 H5 H6] Hk. unfold pc_new_cpu. sm_step. sm_step. unfold CPUID_APIC. rewrite c_true_land_bit by lia.
  fold (equipped n features). rewrite Heq. sm_step. sm_step. sm_step. unfold apic_init1. sm_step. sm_step.
  destruct (Nat.leb_spec MAX_APICS (length s.(local_apics))) as [Hm | _]; [unfold MAX_APICS in Hm; lia |].
  sm_step. sm_step. sm_step. cbn [Z.ltb Z.compare]. sm_step. sm_step. rewrite H1, H2.
  set (a := new_apic k _ _). set (s1 := set_cpus _ _).
  assert (Ha : s1.(local_apics) !! k = Some a) by (cbn; rewrite lookup_app_r, H2, Nat.sub_diag by lia; done).
  assert (Hw : apic_wf k a) by apply new_apic_wf.
  sm_use (apic_reset_runs s1 k a Hw Ha). intros _ s2 (a' & -> & Hw' & Hq). split; cbn.
  - rewrite length_app. cbn. lia.
  - rewrite length_insert, length_app. cbn. lia.
  - intros i b [(-> & <- & _) | (Hne & Hb)]%list_lookup_insert_Some; [done |].
    apply lookup_app_Some in Hb as [Hb | [Hge Hb]]; [by apply H3 |]. apply list_lookup_singleton_Some in Hb as [Hi _]. lia.
  - intros c o [Ho | [Hge Ho]]%lookup_app_Some; [by apply H4 |]. apply list_lookup_singleton_Some in Ho as [Hi <-].
    cbn. split; [f_equal; lia | done].
  - done.
  - done.
Qed.

Lemma pc_init_inv n features :
  (0 < n <= 255)%nat -> equipped n features = true -> runs (pc_init n features) bus_init (fun _ s => inv (fun _ => False) s /\ length s.(local_apics) = n).
Proof.
  intros Hn Heq. unfold pc_init. sm_step.
  eapply runs_mono; [apply (for_loop_rule (fun k s => starting (Z.to_nat k) s)) |].
  - by split; try done; intros [] ? ?.
  - intros k s Hk Hs. replace (Z.to_nat (k + 1)) with (S (Z.to_nat k)) by lia. apply new_cpu_starts; [done | done | lia].
  - cbv beta. rewrite Z.add_0_l, Nat2Z.id. intros _ s [H1 H2 H3 H4 H5 H6]. sm_step. unfold ioapic_init1. sm_step. sm_step.
    rewrite H5. sm_step. sm_step. sm_step. unfold ioapic_reset. eapply runs_upd_ioapic; [done | done |]. split; [| done]. split.
    + split; cbn; [congruence | lia | by intros i a [? _]%H3 | done | | rewrite H6; apply i8259_init_wf].
      eexists. split; [done |]. split; cbn; [by split | by split |]. split; [done | by repeat constructor].
    + intros i a Ha Hd. by apply H3 in Ha as [_ Hq].
Qed.

(** C3: the interrupt controllers are safe and lose nothing.  From power-on with
    up to 255 processors that have controllers, any sequence of register accesses, messages, device
    lines, acknowledges, start-up requests, resets and timer expiries runs
    without an access outside an array or through a null pointer; registers keep
    their widths, and the interrupts in service at a processor have different
    classes.  As long as nobody initialises an 8259 again, a processor whose
    controller has an interrupt for it is requested to take it. *)
Theorem apic_reachable (n : nat) (features : Z) (ops : list bus_op) :
  (0 < n <= 255)%nat -> equipped n features = true -> Forall (op_ok n) ops ->
  runs (pc_init n features;; run_ops ops) bus_init (fun _ s => bus_wf s /\
    (Forall calm ops -> forall i a, s.(local_apics) !! i = Some a -> deliverable a -> told s i)).
Proof.
  intros Hn Heq Hok. apply runs_bind. sm_use (pc_init_inv n features Hn Heq). intros _ s [Hs Hl].
  assert (Hwf : inv (fun _ => True) s) by (apply (inv_mono (fun _ => False)); done).
  sm_use (runs_conj _ _ _ _ (run_ops_keeps _ n ops s Hok (or_intror (fun _ => I)) Hwf Hl)
    (fun u s' E => (fun Hc => runs_post _ _ _ (run_ops_keeps (fun _ => False) n ops s Hok (or_introl Hc) Hs Hl) u s' E))).
  intros _ s' [[Hw _] Hc]. split; [done |]. intros Hcalm i a Ha Hd. destruct (Hc Hcalm) as [_ Hsig]. by destruct (Hsig i a Ha Hd).
Qed.

(** ** Nesting *)

(** Requests change no other part of a controller; [part] is one, as what is in
    service or the address. *)
Section steady.
Context {V : Type} (part : APICState -> V).
Context (part_irr : forall t a, part (set_irr t a) = part a) (part_tmr : forall t a, part (set_tmr t a) = part a).

Definition same_part (s s' : bus) : Prop := forall i, part <$> s'.(local_apics) !! i = part <$> s.(local_apics) !! i.
Definition steady {A} (m : B A) : Prop := forall s, post m s (fun _ s' => same_part s s').

Lemma steady_ret {A} (x : A) : steady (mret x).
Proof. intros s. by sm_step. Qed.
Lemma steady_get {A} (f : bus -> A) : steady (sm_get f).
Proof. intros s. by sm_step. Qed.
Lemma steady_lift {A} (o : option A) : steady (sm_lift o).
Proof. intros s. by sm_step. Qed.
Lemma steady_fail {A} : steady (sm_fail : B A).
Proof. intros s. by sm_step. Qed.
Lemma steady_modify f : (forall s, (f s).(local_apics) = s.(local_apics)) -> steady (sm_modify f).
Proof. intros H s. sm_step. intros i. by rewrite H. Qed.
Lemma steady_bind {A C} (m : B A) (f : A -> B C) : steady m -> (forall a, steady (f a)) -> steady (m ≫= f).
Proof.
  intros Hm Hf s. sm_step. eapply post_mono; [apply Hm |]. cbv beta. intros a s1 H1. eapply post_mono; [apply Hf |]. cbv beta.
  intros b s2 H2 i. by rewrite H2, H1.
Qed.

Lemma upd_inv i f s s' : upd i f s = Some (tt, s') ->
  exists a a', s.(local_apics) !! i = Some a /\ f a = Some a' /\ s' = set_local_apics (<[i := a']> s.(local_apics)) s.
Proof.
  unfold upd, apic, mbind, sm_bind, sm_get, sm_lift, sm_modify. destruct (s.(local_apics) !! i) as [a |] eqn:Ea; [| done]. cbn.
  destruct (f a) as [a' |] eqn:Ef; [| done]. cbn. intros E. injection E as <-. by exists a, a'.
Qed.

Lemma steady_apic_upd i f : (forall a a', f a = Some a' -> part a' = part a) -> steady (upd i f).
Proof.
  intros Hf s [] s' (a & a' & Ha & E & ->)%upd_inv j. cbn. destruct (decide (j = i)) as [-> | Hne].
  - rewrite list_lookup_insert_eq, Ha by (by eapply lookup_lt_Some). cbn. f_equal. by apply Hf.
  - by rewrite list_lookup_insert_ne.
Qed.

Lemma steady_upd_cpu c f : steady (upd_cpu c f).
Proof. apply steady_bind; [apply steady_bind; [apply steady_get | intros; apply steady_lift] | intros o]. by apply steady_modify. Qed.
Lemma steady_upd_ioapic f : steady (upd_ioapic f).
Proof.
  apply steady_bind; [apply steady_bind; [apply steady_get | intros; apply steady_lift] | intros o].
  apply steady_bind; [apply steady_lift |]. intros. by apply steady_modify.
Qed.
Lemma steady_for_loop n i body : (forall k, steady (body k)) -> steady (for_loop n i body).
Proof.
  intros Hb. revert i. induction n as [| n IH]; intros i; cbn [for_loop]; [apply steady_ret |].
  apply steady_bind; [apply Hb | intros _; apply IH].
Qed.

Create HintDb steady.
#[local] Hint Resolve steady_upd_cpu steady_upd_ioapic steady_ret steady_get steady_lift steady_fail : steady.

(** Follow the shape of a computation. *)
Ltac steady_shape :=
  repeat match goal with
  | |- steady (_ ≫= _) => apply steady_bind; [| intros ?]
  | |- steady (for_loop _ _ _) => apply steady_for_loop; intros ?
  | |- steady (sm_modify _) => by apply steady_modify
  | |- steady (upd _ _) => apply steady_apic_upd; intros ?a ?a' ?E; repeat case_match; simplify_option_eq; by rewrite ?part_irr, ?part_tmr
  | |- steady (if ?b then _ else _) => destruct b
  | |- steady (match ?x with _ => _ end) => destruct x
  | |- _ => solve [auto 2 with steady]
  end.

Lemma steady_apic i : steady (apic i). Proof. unfold apic. steady_shape. Qed.
Lemma steady_cpu c : steady (cpu c). Proof. unfold cpu. steady_shape. Qed.
Lemma steady_ioapic : steady ioapic. Proof. unfold ioapic. steady_shape. Qed.
#[local] Hint Resolve steady_apic steady_cpu steady_ioapic : steady.
Lemma steady_cpu_interrupt c m : steady (cpu_interrupt c m). Proof. unfold cpu_interrupt. steady_shape. Qed.
Lemma steady_cpu_reset c m : steady (cpu_reset_interrupt c m). Proof. unfold cpu_reset_interrupt. steady_shape. Qed.
#[local] Hint Resolve steady_cpu_interrupt steady_cpu_reset : steady.
Lemma steady_update_irq i : steady (apic_update_irq i). Proof. unfold apic_update_irq. steady_shape. Qed.
#[local] Hint Resolve steady_update_irq : steady.
Lemma steady_set_irq i v t : steady (apic_set_irq i v t). Proof. unfold apic_set_irq. steady_shape. Qed.
#[local] Hint Resolve steady_set_irq : steady.
Lemma steady_local i n : steady (apic_local_deliver i n). Proof. unfold apic_local_deliver. steady_shape. Qed.
#[local] Hint Resolve steady_local : steady.
Lemma steady_pic_intr i l : steady (apic_deliver_pic_intr i l). Proof. unfold apic_deliver_pic_intr. steady_shape. Qed.
Lemma steady_accept d : steady (apic_accept_pic_intr d). Proof. unfold apic_accept_pic_intr. steady_shape. Qed.
#[local] Hint Resolve steady_pic_intr steady_accept : steady.
Lemma steady_requests n c l : steady (request_loop n c l).
Proof. revert c. induction n as [| n IH]; intros c; cbn [request_loop]; steady_shape. Qed.
#[local] Hint Resolve steady_requests : steady.
Lemma steady_pic_request l : steady (pic_irq_request l). Proof. unfold pic_irq_request. steady_shape. Qed.
#[local] Hint Resolve steady_pic_request : steady.
Lemma steady_drive l : steady (drive_parent l).
Proof. induction l as [| x l IH]; cbn [drive_parent]; steady_shape. Qed.
#[local] Hint Resolve steady_drive : steady.
Lemma steady_with_pic {A} (f : PicState2 -> option (A * PicState2)) : steady (with_pic f). Proof. unfold with_pic. steady_shape. Qed.
#[local] Hint Resolve steady_with_pic : steady.
Lemma steady_deliver_irq d dm m v p t : steady (apic_deliver_irq d dm m v p t).
Proof. unfold apic_deliver_irq, apic_get_delivery_bitmask, apic_bus_deliver, foreach_apic. steady_shape. Qed.
#[local] Hint Resolve steady_deliver_irq : steady.
Lemma steady_service : steady ioapic_service. Proof. unfold ioapic_service, service_pin. steady_shape. Qed.
#[local] Hint Resolve steady_service : steady.
Lemma steady_broadcast v : steady (ioapic_eoi_broadcast v). Proof. unfold ioapic_eoi_broadcast, eoi_pin. steady_shape. Qed.
Lemma steady_pin n l : steady (ioapic_set_irq n l). Proof. unfold ioapic_set_irq. steady_shape. Qed.
End steady.

(** *** Exact effects *)

(** Everything but the controllers, and the processors other than [i] *)
Record elsewhere (i : nat) (s s' : bus) : Prop := {
  e_io : s'.(ioapics) = s.(ioapics);
  e_pic : s'.(isa_pic) = s.(isa_pic);
  e_clock : s'.(vm_clock) = s.(vm_clock);
  e_cpus : forall c, c <> i -> s'.(cpus) !! c = s.(cpus) !! c
}.

Lemma cpu_exists s i a : bus_wf s -> s.(local_apics) !! i = Some a -> exists o, s.(cpus) !! i = Some o.
Proof. intros Hs Ha. apply lookup_lt_is_Some_2. rewrite (w_count_cpus _ Hs). by eapply lookup_lt_Some. Qed.

Lemma update_irq_exact s i a o :
  apic_wf i a -> s.(local_apics) !! i = Some a -> s.(cpus) !! i = Some o ->
  runs (apic_update_irq i) s (fun _ s' => s'.(local_apics) = s.(local_apics) /\ elsewhere i s s' /\ (deliverable a -> told s' i)).
Proof.
  intros Hw Ha Ho. unfold apic_update_irq. sm_step. eapply runs_apic; [exact Ha |]. rewrite sv_enable.
  destruct (pending_total i a Hw) as (p & Ep & _). destruct (Z.testbit a.(spurious_vec) 8) eqn:Ee; cbn [negb].
  - sm_step. eapply runs_lift; [exact Ep |]. destruct (Z.ltb_spec 0 p) as [Hp | Hp].
    + rewrite (w_env _ _ Hw). eapply runs_upd_cpu; [exact Ho |]. split; [done |]. split.
      * split; [done | done | done |]. intros c Hc. cbn. by rewrite list_lookup_insert_ne.
      * intros _. eexists. cbn [cpus set_cpus]. rewrite list_lookup_insert_eq by (by eapply lookup_lt_Some). split; [done |].
        cbn [interrupt_request set_interrupt_request]. rewrite Z.lor_spec. apply orb_true_r.
    + sm_step. split; [done |]. split; [done |]. intros [_ (q & Eq & Hq)]. rewrite Ep in Eq. injection Eq as <-. lia.
  - sm_step. split; [done |]. split; [done |]. intros [E _]. congruence.
Qed.

(** *** In service, highest first *)

Definition in_service (a : APICState) : list Z := filter (fun v => has a.(isr) v = true) (rev (seqZ 0 256)).

Lemma vectors_split v : 0 <= v < 256 -> rev (seqZ 0 256) = rev (seqZ (v + 1) (255 - v)) ++ v :: rev (seqZ 0 v).
Proof.
  intros Hv. replace 256 with (v + (256 - v)) by lia. rewrite seqZ_app, Z.add_0_l, (seqZ_cons v) by lia.
  rewrite rev_app_distr. cbn [rev]. rewrite <- app_assoc. do 3 f_equal; lia.
Qed.

(** A vector above all members goes in front. *)
Lemma filter_push (t t' : list Z) v :
  0 <= v < 256 -> (forall u, 0 <= u < 256 -> has t' u = if u =? v then true else has t u) ->
  (forall u, 0 <= u < 256 -> has t u = true -> u < v) ->
  filter (fun u => has t' u = true) (rev (seqZ 0 256)) = v :: filter (fun u => has t u = true) (rev (seqZ 0 256)).
Proof.
  intros Hv Ht Hlt. rewrite (vectors_split v Hv), !filter_app.
  rewrite (filter_none (fun u => has t' u = true) (rev (seqZ (v + 1) _))), (filter_none (fun u => has t u = true) (rev (seqZ (v + 1) _))).
  - cbn [app]. rewrite filter_cons_True by (rewrite Ht, Z.eqb_refl by done; done).
    rewrite filter_cons_False by (intros E; specialize (Hlt v Hv E); lia). f_equal. apply filter_same.
    intros u Hu%list_elem_of_In%in_rev%list_elem_of_In%elem_of_seqZ. rewrite Ht by lia. by rewrite (proj2 (Z.eqb_neq u v)) by lia.
  - apply Forall_rev, Forall_seqZ. intros u Hu E. specialize (Hlt u ltac:(lia) E). lia.
  - apply Forall_rev, Forall_seqZ. intros u Hu. rewrite Ht by lia. rewrite (proj2 (Z.eqb_neq u v)) by lia. intros E.
    specialize (Hlt u ltac:(lia) E). lia.
Qed.

Lemma foremost_unique a u v : foremost a u -> foremost a v -> u = v.
Proof. intros (Hu & Su & Mu) (Hv & Sv & Mv). specialize (Mu v Hv Sv). specialize (Mv u Hu Su). lia. Qed.

Lemma foremost_some a u : foremost a u -> (forall u, 0 <= u < 256 -> has a.(irr) u = false) -> False.
Proof. intros (Hu & Su & _) H. by rewrite H in Su. Qed.

Lemma accepts_push v a a' :
  foremost a v -> outranks a v -> 0 < class v -> accepts v a a' -> in_service a' = v :: in_service a.
Proof.
  intros (Hv & _ & _) Ho Hc (r & t & -> & _ & _ & _ & Ht). apply filter_push; [done | done |]. intros u Hu Hs.
  destruct Ho as [[_ Ho] | (Hz & _)]; [| lia]. specialize (Ho u Hu Hs). destruct (Z.lt_ge_cases u v) as [|Hge]; [done |].
  pose proof (class_mono v u Hge). lia.
Qed.

Lemma get_interrupt_exact s i a :
  bus_wf s -> s.(local_apics) !! i = Some a -> Z.testbit a.(spurious_vec) 8 = true ->
  runs (apic_get_interrupt (Some i)) s (fun v s' =>
    ((forall u, 0 <= u < 256 -> has a.(irr) u = false) -> v = -1 /\ s' = s) /\
    (forall u, foremost a u -> ~ outranks a u -> v = Z.land a.(spurious_vec) 0xff /\ s' = s) /\
    (forall u, foremost a u -> outranks a u -> 0 < class u -> v = u /\
       exists a', s'.(local_apics) = <[i := a']> s.(local_apics) /\ accepts u a a' /\ elsewhere i s s')).
Proof.
  intros Hs Ha Hen. pose proof (w_apics _ Hs i a Ha) as Hw. destruct (cpu_exists s i a Hs Ha) as [o Ho]. cbn [apic_get_interrupt].
  sm_step. eapply runs_apic; [exact Ha |]. rewrite sv_enable, Hen. cbn [negb].
  destruct (pending_spec i a Hw) as (p & Ep & Hr & Hpos & Hzero & Hneg). sm_step. eapply runs_lift; [exact Ep |].
  destruct (Z.eqb_spec p 0) as [E0 | N0]; [| destruct (Z.ltb_spec p 0) as [L0 | G0]].
  - sm_step. split; [done |]. destruct (Hzero E0) as [Hn | [Hf Hor]].
    + split; intros u Hu; by destruct (foremost_some a u Hu).
    + split; intros u Hu Hou; pose proof (foremost_unique a u 0 Hu Hf); subst u; [done | intros Hc; change (class 0) with 0 in Hc; lia].
  - sm_step. destruct (Hneg ltac:(lia)) as (w & Hf & Hno). split; [intros Hn; by destruct (foremost_some a w Hf) |].
    split; [done |]. intros u Hu Hou. by rewrite (foremost_unique a u w Hu Hf) in Hou.
  - destruct (Hpos ltac:(lia)) as [Hf Hou]. eapply (runs_mono _ _ (fun v s' => v = p /\
      exists a', s'.(local_apics) = <[i := a']> s.(local_apics) /\ accepts p a a' /\ elsewhere i s s')).
    + destruct (accept_runs s i a p (fun _ s' => exists a', accepts p a a' /\ s' = set_local_apics (<[i := a']> s.(local_apics)) s) Hw Ha
        ltac:(lia)) as ([] & s1 & E1 & a' & Hacc & ->); [intros a' Hacc; by exists a' |].
      destruct (update_irq_exact (set_local_apics (<[i := a']> s.(local_apics)) s) i a' o) as ([] & s2 & E2 & Hl2 & He2 & _);
        [by eapply accepts_wf | cbn; by rewrite list_lookup_insert_eq by (by eapply lookup_lt_Some) | done |].
      exists p, s2. split; [| split; [done |]; exists a'; split; [done |]; split; [done |]; by destruct He2].
      revert E1. unfold mbind, sm_bind. destruct (upd i _ s) as [[[] t] |]; [| done]. intros ->. by rewrite E2.
    + intros v s' [-> H']. split; [intros Hn; by destruct (foremost_some a p Hf) |].
      split; intros u Hu Hou'; rewrite (foremost_unique a u p Hu Hf) in *; [done |]. intros _. split; [done | exact H'].
Qed.

Lemma eoi_pops s i a :
  bus_wf s -> s.(local_apics) !! i = Some a ->
  runs (apic_eoi i) s (fun _ s' => exists a', s'.(local_apics) !! i = Some a' /\ in_service a' = tail (in_service a)).
Proof.
  intros Hs Ha. pose proof (w_apics _ Hs i a Ha) as Hw. destruct (highest_spec _ (w_isr _ _ Hw)) as (h & Eh & Hr & Hh & Hm).
  unfold apic_eoi. sm_step. eapply runs_apic; [exact Ha |]. sm_step. eapply runs_lift; [exact Eh |].
  destruct (Z.ltb_spec h 0) as [L0 | G0].
  - sm_step. exists a. split; [done |]. replace (in_service a) with (@nil Z); [done |]. symmetry. apply filter_none.
    apply Forall_rev, Forall_seqZ. intros u Hu E. specialize (Hm u ltac:(lia) E). lia.
  - destruct (reset_bit_spec _ h (w_isr _ _ Hw) ltac:(lia)) as (t & Et & Ht & Hut).
    sm_step. eapply runs_upd; [exact Ha | by rewrite Et |]. cbv beta. set (s1 := set_local_apics _ _).
    assert (H1 : inv (fun _ => True) s1).
    { apply (inv_upd _ s i a); [by split; [done |]; left | done | | by right].
      pose proof (nested_reset _ h t (w_nested _ _ Hw) Hut). apic_field. }
    assert (Hlen : (i < length s1.(local_apics))%nat) by (cbn; rewrite length_insert; by eapply lookup_lt_Some).
    assert (Hl1 : s1.(local_apics) !! i = Some (set_isr t a)) by (cbn; by rewrite list_lookup_insert_eq by (by eapply lookup_lt_Some)).
    sm_step. rewrite (get_bit_spec _ h (w_tmr _ _ Hw)) by lia. eapply runs_lift; [done |].
    set (rest := (if _ && _ then ioapic_eoi_broadcast h else mret tt);; apic_update_irq i).
    assert (Hrun : acts (fun _ => True) (fun _ => True) i rest).
    { apply (acts_bind _ (fun _ => True)); [destruct (_ && _); [apply acts_changes, eoi_broadcast_keeps | apply acts_ret] |].
      intros _. eapply acts_mono; [| | apply (update_irq_tells (fun _ => True))]; [by left | done]. }
    assert (Hun : steady isr rest).
    { apply steady_bind; [destruct (_ && _); [by apply steady_broadcast | apply steady_ret] | intros _; apply steady_update_irq]. }
    sm_use (runs_conj _ _ _ _ (Hrun s1 H1 Hlen) (Hun s1)). intros _ s2 [[_ F2] Hsame]. specialize (Hsame i). rewrite Hl1 in Hsame.
    destruct (s2.(local_apics) !! i) as [a2 |]; [| done]. injection Hsame as Hisr. exists a2. split; [done |].
    unfold in_service. rewrite Hisr. cbn [isr set_isr]. rewrite (filter_push t a.(isr) h); [done | lia | |].
    + intros u Hu. rewrite Hut by done. destruct (Z.eqb_spec u h) as [-> | _]; [by apply Hh | done].
    + intros u Hu Hset. rewrite Hut in Hset by done. destruct (Z.eqb_spec u h) as [-> | Hne]; [done |]. specialize (Hm u Hu Hset). lia.
Qed.

(** ** Who gets a message *)

(** A controller with vector [v] requested besides, and its trigger mode noted *)
Definition gets (v t : Z) (a a' : APICState) : Prop :=
  exists r m, a' = set_tmr m (set_irr r a) /\ tab_wf r /\ tab_wf m /\
    (forall u, 0 <= u < 256 -> has r u = if u =? v then true else has a.(irr) u) /\
    (forall u, 0 <= u < 256 -> has m u = if u =? v then c_true t else has a.(tmr) u).

Lemma gets_wf i v t a a' : apic_wf i a -> gets v t a a' -> apic_wf i a'.
Proof. intros Hw (r & m & -> & Hr & Hm & _). apic_field. Qed.

Lemma set_irq_exact s i a v t :
  bus_wf s -> s.(local_apics) !! i = Some a -> 0 <= v < 256 ->
  runs (apic_set_irq i v t) s (fun _ s' => exists a', gets v t a a' /\ s'.(local_apics) = <[i := a']> s.(local_apics) /\
    elsewhere i s s' /\ (deliverable a' -> told s' i)).
Proof.
  intros Hs Ha Hv. pose proof (w_apics _ Hs i a Ha) as Hw. pose proof (lookup_lt_Some _ _ _ Ha) as Hlt.
  destruct (cpu_exists s i a Hs Ha) as [o Ho]. unfold apic_set_irq. sm_step. eapply runs_apic; [exact Ha |].
  sm_step. rewrite (get_bit_spec _ v (w_irr _ _ Hw) Hv). eapply runs_lift; [done |]. sm_step. sm_step.
  destruct (set_bit_spec _ v (w_irr _ _ Hw) Hv) as (r & Er & Hr & Hur). sm_step. eapply runs_upd; [exact Ha | by rewrite Er |].
  assert (Hm : exists m, tab_wf m /\ (forall u, 0 <= u < 256 -> has m u = if u =? v then c_true t else has a.(tmr) u) /\
    (if c_true t then set_bit a.(tmr) v else reset_bit a.(tmr) v) = Some m).
  { destruct (c_true t); [destruct (set_bit_spec _ v (w_tmr _ _ Hw) Hv) as (m & Em & Hm & Hum)
    | destruct (reset_bit_spec _ v (w_tmr _ _ Hw) Hv) as (m & Em & Hm & Hum)]; by exists m. }
  destruct Hm as (m & Hm & Hum & Em). sm_step. set (a' := set_tmr m (set_irr r a)).
  assert (Hg : gets v t a a') by by exists r, m.
  assert (Hstep : forall P : unit -> bus -> Prop,
    P tt (set_local_apics (<[i := a']> s.(local_apics)) (set_apic_irq_delivered (to_signed 32 (s.(apic_irq_delivered) + c_bool (negb (has a.(irr) v)))) s)) ->
    runs (if c_true t then upd i (fun s => t ← set_bit s.(tmr) v; Some (set_tmr t s)) else upd i (fun s => t ← reset_bit s.(tmr) v; Some (set_tmr t s)))
      (set_local_apics (<[i := set_irr r a]> s.(local_apics)) (set_apic_irq_delivered (to_signed 32 (s.(apic_irq_delivered) + c_bool (negb (has a.(irr) v)))) s)) P).
  { intros P HP. destruct (c_true t); (eapply runs_upd; [cbn; by rewrite list_lookup_insert_eq | cbn; by rewrite Em |]);
      cbn; by rewrite list_insert_insert_eq. }
  apply Hstep. cbv beta.
  set (s1 := set_local_apics _ _). sm_use (update_irq_exact s1 i a' o (gets_wf i v t a a' Hw Hg) ltac:(cbn; by rewrite list_lookup_insert_eq) Ho).
  intros _ s2 (Hl & He & Ht). exists a'. split; [done |]. split; [done |]. split; [by destruct He | done].
Qed.

(** Declaratively: by number, all, or by a common bit of the logical addresses, in
    clusters of four *)
Definition addressed (dest dest_mode : Z) (a : APICState) : Prop :=
  if dest_mode =? 0 then dest = 0xff \/ a.(id) = dest
  else a.(Apic.dest_mode) = 0xf /\ (exists j, 0 <= j < 8 /\ Z.testbit dest j = true /\ Z.testbit a.(log_dest) j = true) \/
       a.(Apic.dest_mode) = 0 /\ Z.shiftr dest 4 = Z.shiftr a.(log_dest) 4 /\
       (exists j, 0 <= j < 4 /\ Z.testbit dest j = true /\ Z.testbit a.(log_dest) j = true).

Lemma common_bit w x y : 0 <= w -> in_u w x -> c_true (Z.land x y) = true <-> exists j, 0 <= j < w /\ Z.testbit x j = true /\ Z.testbit y j = true.
Proof.
  intros Hw Hx. rewrite c_true_nonzero. split.
  - intros Hne. destruct (exists_bit w (Z.land x y)) as (j & Hj & Hb); [done | width | done |]. exists j. split; [done |].
    rewrite Z.land_spec in Hb. by apply andb_true_iff in Hb.
  - intros (j & _ & H1 & H2) E. assert (Hb : Z.testbit (Z.land x y) j = true) by (by rewrite Z.land_spec, H1, H2).
    by rewrite E, Z.bits_0 in Hb.
Qed.

Lemma logical_match_spec i a dest dm :
  apic_wf i a -> in_u 8 dest -> dm <> 0 -> logical_match dest a = true <-> addressed dest dm a.
Proof.
  intros Hw Hd Hdm. unfold addressed, logical_match. rewrite (proj2 (Z.eqb_neq dm 0)) by done.
  destruct (Z.eqb_spec a.(Apic.dest_mode) 0xf) as [Ef | Ef]; [| destruct (Z.eqb_spec a.(Apic.dest_mode) 0) as [Ez | Ez]].
  - rewrite (common_bit 8) by done. split; [by left |]. intros [[_ ?] | [? _]]; [done | congruence].
  - assert (Hlow : c_true (Z.land (Z.land dest a.(log_dest)) 0x0f) = true <->
      exists j, 0 <= j < 4 /\ Z.testbit dest j = true /\ Z.testbit a.(log_dest) j = true).
    { rewrite Z.land_comm, (common_bit 4) by (done || by split). split; intros (j & Hj & H); exists j; (split; [done |]);
        rewrite Z.land_spec, ?andb_true_iff in *; [tauto |]. split; [| tauto].
      assert (j = 0 \/ j = 1 \/ j = 2 \/ j = 3) as [-> | [-> | [-> | ->]]] by lia; done. }
    pose proof (w_log _ _ Hw) as Hl. rewrite andb_true_iff, Hlow, Z.eqb_eq, !class_mask by (done || by unfold in_u in *). unfold class. split.
    + intros [E H]. right. split; [done |]. split; [lia | done].
    + intros [[E _] | (_ & E & H)]; [congruence |]. rewrite E. done.
  - split; [done |]. intros [[? _] | [? _]]; congruence.
Qed.

Lemma find_dest_loop_spec n i dest apics r :
  find_dest_loop n i dest apics = r ->
  r = -1 /\ (forall j a, (i <= j < i + n)%nat -> apics !! j = Some a -> a.(id) <> dest) \/
  exists j a, r = Z.of_nat j /\ apics !! j = Some a /\ a.(id) = dest.
Proof.
  intros <-. revert i. induction n as [| n IH]; intros i; cbn [find_dest_loop]; [left; split; [done | lia] |].
  destruct (apics !! i) as [a |] eqn:Ei.
  - destruct (Z.eqb_spec a.(id) dest) as [E | E]; [right; by exists i, a |]. destruct (IH (S i)) as [[-> Hn] | H]; [| by right].
    left. split; [done |]. intros j b Hj Hb. destruct (decide (j = i)) as [-> | Hne]; [congruence | apply (Hn j b); [lia | done]].
  - left. split; [done |]. intros j b Hj Hb. apply lookup_ge_None in Ei. apply lookup_lt_Some in Hb. lia.
Qed.

Lemma find_dest_spec dest apics :
  in_u 8 dest -> (length apics <= 255)%nat ->
  apic_find_dest dest apics = -1 /\ (forall j a, apics !! j = Some a -> a.(id) <> dest) \/
  exists j a, apic_find_dest dest apics = Z.of_nat j /\ apics !! j = Some a /\ a.(id) = dest.
Proof.
  intros Hd Hl. unfold in_u in Hd. assert (Hloop := find_dest_loop_spec MAX_APICS 0 dest apics _ eq_refl).
  assert (H : find_dest_loop MAX_APICS 0 dest apics = -1 /\ (forall j a, apics !! j = Some a -> a.(id) <> dest) \/
    exists j a, find_dest_loop MAX_APICS 0 dest apics = Z.of_nat j /\ apics !! j = Some a /\ a.(id) = dest).
  { destruct Hloop as [[E Hn] | H]; [left | by right]. split; [done |]. intros j a Ha. apply (Hn j a); [| done].
    apply lookup_lt_Some in Ha. unfold MAX_APICS. lia. }
  unfold apic_find_dest. destruct (apics !! Z.to_nat dest) as [a |] eqn:Ea; [| done].
  destruct (Z.eqb_spec a.(id) dest) as [E | E]; [| done]. right. exists (Z.to_nat dest), a. split; [lia | done].
Qed.

Lemma logical_loop_spec n i dest apics mask mask' :
  (n + i <= 256)%nat -> tab_wf mask -> logical_loop n i dest apics mask = Some mask' ->
  forall j a, (j < 256)%nat -> apics !! j = Some a ->
  has mask' (Z.of_nat j) = has mask (Z.of_nat j) || (bool_decide (i <= j < i + n)%nat && logical_match dest a).
Proof.
  revert i mask. induction n as [| n IH]; intros i mask Hn Hm; cbn [logical_loop].
  - intros E j a _ _. injection E as <-. rewrite bool_decide_eq_false_2 by lia. by rewrite orb_false_r.
  - destruct (apics !! i) as [b |] eqn:Ei.
    2: { intros E j a _ Ha. injection E as <-. apply lookup_ge_None in Ei. apply lookup_lt_Some in Ha.
         rewrite bool_decide_eq_false_2 by lia. by rewrite orb_false_r. }
    destruct (set_bit_spec mask (Z.of_nat i) Hm ltac:(lia)) as (m1 & E1 & Hm1 & Hu1). intros E j a Hj Ha.
    destruct (logical_match dest b) eqn:Eb; [rewrite E1, bind_some in E; rewrite (IH (S i) m1 ltac:(lia) Hm1 E j a Hj Ha)
      | rewrite bind_some in E; rewrite (IH (S i) mask ltac:(lia) Hm E j a Hj Ha)]; destruct (decide (j = i)) as [-> | Hne].
    + rewrite Hu1, Z.eqb_refl by lia. assert (a = b) as -> by congruence. rewrite Eb.
      rewrite (bool_decide_eq_true_2 (i <= i < i + S n)%nat) by lia. by rewrite orb_true_r.
    + rewrite Hu1, (proj2 (Z.eqb_neq _ _)) by lia. do 2 f_equal. apply bool_decide_ext. lia.
    + assert (a = b) as -> by congruence. by rewrite Eb, !andb_false_r.
    + do 2 f_equal. apply bool_decide_ext. lia.
Qed.

Lemma has_ones v : 0 <= v < 256 -> has all_ones v = true.
Proof.
  intros Hv. destruct (vector_place v Hv) as (Hi & Hj & _). unfold has. unfold all_ones, MAX_APIC_WORDS. rewrite lookup_replicate_2 by lia.
  change (default 0 (Some 0xffffffff)) with (Z.ones 32). rewrite testbit_ones by lia. destruct (Z.leb_spec 0 (Z.land v 0x1f)), (Z.ltb_spec (Z.land v 0x1f) 32); done || lia.
Qed.

Lemma bitmask_exact dest dm s :
  bus_wf s -> in_u 8 dest -> (dm = 0 -> NoDup (id <$> s.(local_apics))) ->
  runs (apic_get_delivery_bitmask dest dm) s (fun mask s' => s' = s /\ tab_wf mask /\
    forall i a, s.(local_apics) !! i = Some a -> has mask (Z.of_nat i) = true <-> addressed dest dm a).
Proof.
  intros Hs Hd Hnd. pose proof (w_max _ Hs) as Hmax.
  assert (Hi : forall i a, s.(local_apics) !! i = Some a -> 0 <= Z.of_nat i < 256) by (intros i a ?%lookup_lt_Some; lia).
  unfold apic_get_delivery_bitmask. sm_step. sm_step. unfold addressed. destruct (Z.eqb_spec dm 0) as [Edm | Edm].
  - destruct (Z.eqb_spec dest 0xff) as [-> | Ne].
    { sm_step. split; [done |]. split; [apply all_ones_wf |]. intros i a Ha. rewrite has_ones by (by eapply Hi). tauto. }
    destruct (find_dest_spec dest s.(local_apics) Hd ltac:(lia)) as [[E Hno] | (j & b & E & Hj & Hb)]; rewrite E.
    + cbn [Z.leb Z.compare]. sm_step. split; [done |]. split; [apply all_zero_wf |]. intros i a Ha. unfold all_zero. rewrite has_zero.
      split; [done |]. intros [? | Hid]; [done |]. by destruct (Hno i a Ha).
    + rewrite (proj2 (Z.leb_le 0 (Z.of_nat j))) by lia.
      destruct (set_bit_spec all_zero (Z.of_nat j) all_zero_wf ltac:(by eapply Hi)) as (m & Em & Hm & Hu).
      eapply runs_lift; [exact Em |]. split; [done |]. split; [done |]. intros i a Ha. rewrite Hu by (by eapply Hi). unfold all_zero. rewrite has_zero.
      destruct (Z.eqb_spec (Z.of_nat i) (Z.of_nat j)) as [Eij | Nij].
      * assert (i = j) as -> by lia. assert (a = b) as -> by congruence. split; [by right | done].
      * split; [done |]. intros [? | Hid]; [done |]. exfalso. apply Nij. f_equal.
        apply (NoDup_lookup (id <$> s.(local_apics)) i j dest (Hnd Edm)); rewrite list_lookup_fmap; [by rewrite Ha; cbn; f_equal | by rewrite Hj; cbn; f_equal].
  - destruct (logical_total MAX_APICS 0 dest s.(local_apics) all_zero) as (m & Em & Hm); [unfold MAX_APICS; lia | apply all_zero_wf |].
    eapply runs_lift; [exact Em |]. split; [done |]. split; [done |]. intros i a Ha. pose proof (Hi i a Ha) as Hr.
    rewrite (logical_loop_spec MAX_APICS 0 dest s.(local_apics) all_zero m ltac:(unfold MAX_APICS; lia) all_zero_wf Em i a ltac:(lia) Ha).
    unfold all_zero. rewrite has_zero, orb_false_l, bool_decide_eq_true_2 by (apply lookup_lt_Some in Ha; unfold MAX_APICS; lia).
    rewrite andb_true_l, (logical_match_spec i a dest dm (w_apics _ Hs i a Ha) Hd Edm). unfold addressed.
    by rewrite (proj2 (Z.eqb_neq dm 0)).
Qed.

Lemma first_dest_spec n i mask d :
  tab_wf mask -> 0 <= i -> i + Z.of_nat n <= 8 -> first_dest n i mask = Some d ->
  d = -1 /\ (forall u, i * 32 <= u < (i + Z.of_nat n) * 32 -> has mask u = false) \/
  i * 32 <= d < 256 /\ has mask d = true /\ forall u, i * 32 <= u < d -> has mask u = false.
Proof.
  intros Hm. revert i. induction n as [| n IH]; intros i Hi Hn; cbn [first_dest]; [intros E; injection E as <-; left; split; [done | lia] |].
  destruct (word_some mask i (proj1 Hm)) as (w & Hw & Hl); [lia |]. rewrite Hw. bind_step.
  assert (Hhas : forall u, i * 32 <= u < i * 32 + 32 -> has mask u = Z.testbit w (u - i * 32)).
  { intros u Hu. destruct (vector_place u) as (A & C & E); [lia |]. unfold has. assert (Z.shiftr u 5 = i) as -> by lia. rewrite Hl. cbn. f_equal. lia. }
  destruct (c_true w) eqn:Ec.
  - apply c_true_nonzero in Ec. unfold ffs_bit.
    destruct (ctz32_spec w) as (Hr & Hb & Hlow); [by apply (Forall_lookup_1 _ _ _ _ (proj2 Hm) Hl) | done |].
    intros E. injection E as <-. right. split; [lia |]. rewrite Hhas by lia. split; [by replace (i * 32 + ctz32 w - i * 32) with (ctz32 w) by lia |].
    intros u Hu. rewrite Hhas by lia. apply Hlow. lia.
  - apply negb_false_iff, Z.eqb_eq in Ec. subst w. assert (Hz : forall u, i * 32 <= u < i * 32 + 32 -> has mask u = false).
    { intros u Hu. rewrite Hhas by done. apply Z.bits_0. }
    intros E. apply IH in E; [| lia | lia]. destruct E as [[-> Hn'] | (Hr & Hb & Hlow)].
    + left. split; [done |]. intros u Hu. destruct (Z.lt_ge_cases u (i * 32 + 32)); [apply Hz; lia | apply Hn'; lia].
    + right. split; [lia |]. split; [done |]. intros u Hu. destruct (Z.lt_ge_cases u (i * 32 + 32)); [apply Hz; lia | apply Hlow; lia].
Qed.

(** What became of the controllers: the targets got the vector and their
    processors are told, the others are as they were. *)
Record delivered (T : nat -> Prop) (v t : Z) (s s' : bus) : Prop := {
  d_wf : bus_wf s';
  d_len : length s'.(local_apics) = length s.(local_apics);
  d_hit : forall i a, s.(local_apics) !! i = Some a -> T i -> exists a', s'.(local_apics) !! i = Some a' /\ gets v t a a' /\ (deliverable a' -> told s' i);
  d_miss : forall i, ~ T i -> s'.(local_apics) !! i = s.(local_apics) !! i /\ s'.(cpus) !! i = s.(cpus) !! i;
  d_io : s'.(ioapics) = s.(ioapics);
  d_pic : s'.(isa_pic) = s.(isa_pic)
}.

Lemma told_same s s' c : s'.(cpus) !! c = s.(cpus) !! c -> told s c -> told s' c.
Proof. intros E (o & Ho & Hb). exists o. by rewrite E. Qed.

(** One more target *)
Lemma deliver_one (T : nat -> Prop) v t s s1 i :
  delivered T v t s s1 -> ~ T i -> (i < length s.(local_apics))%nat -> 0 <= v < 256 ->
  runs (apic_set_irq i v t) s1 (fun _ s2 => delivered (add T i) v t s s2).
Proof.
  intros [Hw Hlen Hhit Hmiss Hio Hpic] Hi Hlt Hv. destruct (lookup_lt_is_Some_2 _ _ Hlt) as [a Ha].
  pose proof Ha as Ha1. destruct (Hmiss i Hi) as [Ei _]. rewrite <- Ei in Ha1.
  assert (Hinv : inv (fun _ => True) s1) by (split; [done | by left]).
  assert (Hlt1 : (i < length s1.(local_apics))%nat) by (by eapply lookup_lt_Some).
  sm_use (runs_conj _ _ _ _ (set_irq_exact s1 i a v t Hw Ha1 Hv) (runs_post _ _ _ (set_irq_keeps (fun _ => True) i v t Hv s1 Hinv Hlt1))).
  intros _ s2 [(a' & Hg & Hl & [E1 E2 E3 E4] & Ht) [[Hw2 _] _]]. split; [done | by rewrite Hl, length_insert | | | congruence | congruence].
  - intros j b Hb Hj. rewrite Hl. destruct (decide (j = i)) as [-> | Hne].
    + exists a'. rewrite list_lookup_insert_eq by done. assert (b = a) as -> by congruence. done.
    + destruct Hj as [Hj | ->]; [| done]. destruct (Hhit j b Hb Hj) as (b' & Hb' & Hgb & Htb). exists b'.
      rewrite list_lookup_insert_ne by done. split; [done |]. split; [done |]. intros Hd. apply (told_same s1); [by apply E4 | by apply Htb].
  - intros j Hj. assert (j <> i) by (intros ->; apply Hj; by right). assert (HT : ~ T j) by (intros ?; apply Hj; by left).
    destruct (Hmiss j HT) as [M1 M2]. rewrite Hl, list_lookup_insert_ne, E4 by done. done.
Qed.

Lemma delivered_none v t s : bus_wf s -> delivered (fun _ => False) v t s s.
Proof. intros Hs. by split. Qed.

Lemma delivered_ext (T T' : nat -> Prop) v t s s' :
  (forall i, (i < length s.(local_apics))%nat -> T i <-> T' i) -> bus_wf s ->
  delivered T v t s s' -> delivered T' v t s s'.
Proof.
  intros HT Hs [Hw Hl Hhit Hmiss Hio Hpic]. split; [done | done | | | done | done].
  - intros i a Ha Hi. apply Hhit; [done |]. apply HT; [by eapply lookup_lt_Some | done].
  - intros i Hi. destruct (decide (i < length s.(local_apics))%nat) as [Hlt | Hge].
    + apply Hmiss. by rewrite HT.
    + pose proof (w_count_cpus _ Hs). pose proof (w_count_cpus _ Hw).
      rewrite !(proj2 (lookup_ge_None _ _)) by lia. done.
Qed.

(** To all of a mask *)
Lemma deliver_foreach mask v t s :
  bus_wf s -> tab_wf mask -> 0 <= v < 256 ->
  runs (foreach_apic mask (fun i => apic_set_irq i v t)) s (fun _ s' => delivered (fun i => has mask (Z.of_nat i) = true) v t s s').
Proof.
  intros Hs Hm Hv. eapply runs_mono;
    [apply (foreach_rule (fun k s' => delivered (fun i => Z.of_nat i < k /\ has mask (Z.of_nat i) = true) v t s s')); [exact Hm | | |] |].
  - eapply delivered_ext; [| done | by apply delivered_none]. intros i _. cbv beta. split; [done | lia].
  - intros k s1 a Hk H1 Hh Ha. pose proof (d_len _ _ _ _ _ H1) as Hl. eapply runs_mono; [apply (deliver_one _ v t s s1 (Z.to_nat k) H1) |].
    + lia.
    + rewrite <- Hl. by eapply lookup_lt_Some.
    + done.
    + cbv beta. intros _ s2 H2. eapply delivered_ext; [| done | exact H2]. intros i Hi. unfold add. split; [intros [? | ->] | intros [? ?]].
      * split; [lia | tauto].
      * rewrite Z2Nat.id by lia. split; [lia | done].
      * destruct (decide (i = Z.to_nat k)); [by right | left; split; [lia | done]].
  - intros k s1 Hk H1 Hno. eapply delivered_ext; [| done | exact H1]. intros i Hi. cbv beta. split; [intros [? ?]; split; [lia | done] |].
    intros [Hlt Hh]. split; [| done]. destruct (decide (Z.of_nat i = k)) as [E | E]; [| lia]. exfalso. destruct Hno as [Hno | Hno].
    + rewrite E in Hh. congruence.
    + apply lookup_ge_None in Hno. rewrite (d_len _ _ _ _ _ H1) in Hno. lia.
  - cbv beta. intros _ s' H'. eapply delivered_ext; [| done | exact H']. intros i Hi. pose proof (w_max _ Hs). cbv beta. split; [tauto | split; [lia | done]].
Qed.

(** A message names a controller; with the lowest priority, the first of them. *)
Definition target (s : bus) (dest dm mode : Z) (i : nat) : Prop :=
  exists a, s.(local_apics) !! i = Some a /\ addressed dest dm a /\
    (mode = APIC_DM_LOWPRI -> forall j b, (j < i)%nat -> s.(local_apics) !! j = Some b -> ~ addressed dest dm b).

Lemma deliver_irq_exact s dest dm mode v p t :
  bus_wf s -> in_u 8 dest -> 0 <= v < 256 -> (dm = 0 -> NoDup (id <$> s.(local_apics))) ->
  mode = APIC_DM_FIXED \/ mode = APIC_DM_LOWPRI ->
  runs (apic_deliver_irq dest dm mode v p t) s (fun _ s' => delivered (target s dest dm mode) v t s s').
Proof.
  intros Hs Hd Hv Hnd Hmode. pose proof (w_max _ Hs) as Hmax. unfold apic_deliver_irq. sm_step. sm_use (bitmask_exact dest dm s Hs Hd Hnd). intros mask s1 (-> & Hm & Hmask).
  assert (Hbit : forall i, (i < length s.(local_apics))%nat -> exists a, s.(local_apics) !! i = Some a /\ (has mask (Z.of_nat i) = true <-> addressed dest dm a)).
  { intros i Hi. destruct (lookup_lt_is_Some_2 _ _ Hi) as [a Ha]. exists a. split; [done | by apply Hmask]. }
  destruct Hmode as [-> | ->]; unfold apic_bus_deliver; cbn [APIC_DM_FIXED APIC_DM_LOWPRI Z.eqb Pos.eqb orb].
  - sm_use (deliver_foreach mask v t s Hs Hm Hv). intros _ s' H'. eapply delivered_ext; [| done | exact H']. intros i Hi. cbv beta.
    destruct (Hbit i Hi) as (a & Ha & ->). unfold target. split; [by exists a |]. intros (b & Hb & H & _). by rewrite Ha in Hb; injection Hb as <-.
  - destruct (first_dest_total MAX_APIC_WORDS 0 mask Hm) as (d & Ed & Hr); [lia | unfold MAX_APIC_WORDS; lia |]. sm_step. eapply runs_lift; [exact Ed |].
    apply first_dest_spec in Ed; [| done | lia | unfold MAX_APIC_WORDS; lia]. change (Z.of_nat MAX_APIC_WORDS) with 8 in Ed.
    assert (Hnone : (forall i, (i < length s.(local_apics))%nat -> has mask (Z.of_nat i) = false) ->
      delivered (target s dest dm APIC_DM_LOWPRI) v t s s).
    { intros Hno. eapply delivered_ext; [| done | by apply delivered_none]. intros i Hi. destruct (Hbit i Hi) as (a & Ha & Hb).
      rewrite (Hno i Hi) in Hb. split; [done |]. intros (b & Hb' & H & _). rewrite Ha in Hb'. injection Hb' as <-. by apply Hb in H. }
    destruct Ed as [[-> Hno] | (Hd0 & Hset & Hlow)]; [cbn [Z.leb Z.compare]; sm_step; apply Hnone; intros i Hi; apply Hno; lia |].
    rewrite (proj2 (Z.leb_le 0 d)) by lia. sm_step. sm_step. destruct (s.(local_apics) !! Z.to_nat d) as [a |] eqn:Ea.
    + pose proof (lookup_lt_Some _ _ _ Ea) as Hlt. sm_use (deliver_one (fun _ => False) v t s s (Z.to_nat d) (delivered_none v t s Hs) (fun H => H) Hlt Hv).
      intros _ s' H'. eapply delivered_ext; [| done | exact H']. intros i Hi. unfold add, target. split.
      * intros [[] | ->]. exists a. split; [done |]. split; [apply (Hmask (Z.to_nat d) a Ea); by rewrite Z2Nat.id by lia |].
        intros _ j b Hj Hb Hadd. apply (Hmask j b Hb) in Hadd. rewrite Hlow in Hadd by lia. done.
      * intros (b & Hb & Hadd & Hfirst). right. apply (Hmask i b Hb) in Hadd. destruct (Z.lt_trichotomy (Z.of_nat i) d) as [Hc | [Hc | Hc]]; [| lia |].
        -- rewrite Hlow in Hadd by lia. done.
        -- exfalso. apply (Hfirst eq_refl (Z.to_nat d) a); [lia | done |]. apply (Hmask (Z.to_nat d) a Ea). by rewrite Z2Nat.id by lia.
    + sm_step. apply Hnone. intros i Hi. apply lookup_ge_None in Ea. apply Hlow. lia.
Qed.

(** ** A level-triggered line *)

Lemma bit_at e k : 0 <= k -> Z.land (Z.shiftr e k) 1 = Z.b2z (Z.testbit e k).
Proof. intros Hk. rewrite land_1, <- Z.bit0_mod, Z.shiftr_spec by lia. by rewrite Z.add_0_l. Qed.

(** An unmasked level-triggered entry of the redirection table for a message of
    normal delivery; no entry waits for an end of interrupt. *)
Record level_entry (io : IOAPICState) (n e : Z) : Prop := {
  l_pin : 1 <= n < 24;
  l_word : word io.(ioredtbl) n = Some e;
  l_level : Z.testbit e 15 = true;
  l_unmasked : Z.testbit e 16 = false;
  l_mode : Z.land (Z.shiftr e 8) 7 = APIC_DM_FIXED \/ Z.land (Z.shiftr e 8) 7 = APIC_DM_LOWPRI;
  l_idle : forall k e', word io.(ioredtbl) k = Some e' -> Z.testbit e' 14 = false
}.

Definition entry_dest (e : Z) : Z := wrap 8 (Z.shiftr e 56).
Definition entry_dest_mode (e : Z) : Z := Z.land (Z.shiftr e 11) 1.
Definition entry_mode (e : Z) : Z := Z.land (Z.shiftr e 8) 7.
Definition entry_vector (e : Z) : Z := Z.land e 0xff.
Definition waiting (e : Z) : Z := Z.lor e IOAPIC_LVT_REMOTE_IRR.

(** The controller with the line up, and with the entry waiting *)
Definition io_served (io : IOAPICState) (n e : Z) : IOAPICState :=
  mkIOAPIC io.(io_id) io.(ioregsel) (Z.shiftl 1 n) (<[Z.to_nat n := waiting e]> io.(ioredtbl)).

Lemma word_insert (t : list Z) n v k x :
  0 <= n -> 0 <= k -> word t n = Some x -> word (<[Z.to_nat n := v]> t) k = if k =? n then Some v else word t k.
Proof.
  intros Hn Hk. unfold word. rewrite !(proj2 (Z.leb_le 0 _)) by lia. intros Hx. destruct (Z.eqb_spec k n) as [-> | Hne].
  - apply list_lookup_insert_eq. by eapply lookup_lt_Some.
  - apply list_lookup_insert_ne. lia.
Qed.

Lemma set_word_some t n v x : word t n = Some x -> set_word t n v = Some (<[Z.to_nat n := v]> t).
Proof. intros E. unfold set_word. by rewrite E. Qed.

Lemma waiting_testbit e k : 0 <= k -> Z.testbit (waiting e) k = if k =? 14 then true else Z.testbit e k.
Proof.
  intros Hk. unfold waiting, IOAPIC_LVT_REMOTE_IRR, IOAPIC_LVT_REMOTE_IRR_SHIFT. rewrite Z.lor_spec, testbit_bit by lia.
  destruct (Z.eqb_spec k 14) as [-> | Hne]; [by rewrite bool_decide_eq_true_2, orb_true_r |]. by rewrite bool_decide_eq_false_2, orb_false_r by lia.
Qed.

(** The fields of the entry are the same while it waits. *)
Lemma field_testbit x y k w : 0 <= k -> 0 <= w -> (forall j, k <= j < k + w -> Z.testbit x j = Z.testbit y j) ->
  Z.land (Z.shiftr x k) (Z.ones w) = Z.land (Z.shiftr y k) (Z.ones w).
Proof.
  intros Hk Hw H. apply Z.bits_inj'. intros j Hj. rewrite !Z.land_spec, !Z.shiftr_spec, testbit_ones by lia.
  destruct (Z.leb_spec 0 j), (Z.ltb_spec j w); rewrite ?andb_false_r; try lia; try done. rewrite H by lia. done.
Qed.

Lemma waiting_vector e : entry_vector (waiting e) = entry_vector e.
Proof.
  unfold entry_vector. rewrite <- (Z.shiftr_0_r (waiting e)), <- (Z.shiftr_0_r e). apply (field_testbit _ _ 0 8); [lia | lia |].
  intros j Hj. rewrite waiting_testbit by lia. by rewrite (proj2 (Z.eqb_neq j 14)) by lia.
Qed.

Lemma waiting_mode e : entry_mode (waiting e) = entry_mode e.
Proof.
  apply (field_testbit _ _ 8 3); [lia | lia |]. intros j Hj. rewrite waiting_testbit by lia. by rewrite (proj2 (Z.eqb_neq j 14)) by lia.
Qed.

Lemma waiting_dest_mode e : entry_dest_mode (waiting e) = entry_dest_mode e.
Proof. unfold entry_dest_mode. rewrite !bit_at, waiting_testbit by lia. done. Qed.

Lemma waiting_dest e : entry_dest (waiting e) = entry_dest e.
Proof.
  unfold entry_dest, wrap. rewrite <- !Z.land_ones by lia. apply (field_testbit _ _ 56 8); [lia | lia |].
  intros j Hj. rewrite waiting_testbit by lia. by rewrite (proj2 (Z.eqb_neq j 14)) by lia.
Qed.

Lemma waiting_twice e : waiting (waiting e) = waiting e.
Proof. unfold waiting. by rewrite <- Z.lor_assoc, Z.lor_diag. Qed.

Lemma waiting_clear e : Z.testbit e 14 = false -> Z.land (waiting e) (Z.lnot IOAPIC_LVT_REMOTE_IRR) = e.
Proof.
  intros H. apply Z.bits_inj'. intros j Hj. rewrite Z.land_spec, waiting_testbit by lia.
  unfold IOAPIC_LVT_REMOTE_IRR, IOAPIC_LVT_REMOTE_IRR_SHIFT. rewrite Z.lnot_spec, testbit_bit by lia.
  destruct (Z.eqb_spec j 14) as [-> | Hne]; [by rewrite bool_decide_eq_true_2, H |].
  rewrite bool_decide_eq_false_2 by lia. apply andb_true_r.
Qed.

(** Serving the pin [n], whose entry [e] may wait already *)
Lemma service_pin_level s io n e :
  bus_wf s -> s.(ioapics) = Some io -> 1 <= n < 24 -> io.(io_irr) = Z.shiftl 1 n -> word io.(ioredtbl) n = Some e ->
  in_u 64 e -> Z.testbit e 15 = true -> Z.testbit e 16 = false -> entry_mode e = APIC_DM_FIXED \/ entry_mode e = APIC_DM_LOWPRI ->
  (entry_dest_mode e = 0 -> NoDup (id <$> s.(local_apics))) ->
  runs (service_pin n) s (fun _ s' =>
    delivered (target s (entry_dest e) (entry_dest_mode e) (entry_mode e)) (entry_vector e) 1 (set_ioapics (Some (io_served io n e)) s) s').
Proof.
  intros Hs Hio Hn Hirr He Hu H15 H16 Hmode Hnd. unfold service_pin. sm_step. eapply runs_ioapic; [exact Hio |].
  rewrite Hirr, c_true_land_bit, testbit_bit, bool_decide_eq_true_2 by lia. sm_step. eapply runs_lift; [exact He |].
  unfold IOAPIC_LVT_MASKED, IOAPIC_LVT_MASKED_SHIFT. rewrite c_true_land_bit, H16 by lia. cbn [negb].
  unfold IOAPIC_LVT_TRIGGER_MODE_SHIFT, IOAPIC_TRIGGER_EDGE. rewrite (bit_at e 15), H15 by lia. cbn [Z.b2z Z.eqb]. sm_step.
  eapply runs_upd_ioapic; [exact Hio | rewrite (set_word_some _ _ _ e He); reflexivity |]. sm_step.
  fold (waiting e). assert (Hnext : (Z.land (Z.shiftr e IOAPIC_LVT_DELIV_MODE_SHIFT) IOAPIC_DM_MASK =? IOAPIC_DM_EXTINT) = false).
  { apply Z.eqb_neq. change (entry_mode e <> 7). destruct Hmode as [-> | ->]; done. }
  rewrite Hnext. sm_step. set (io' := set_ioredtbl _ io).
  assert (Eio : io' = io_served io n e) by (unfold io', io_served, set_ioredtbl; by rewrite Hirr). rewrite Eio. clear io' Eio.
  assert (Hs' : bus_wf (set_ioapics (Some (io_served io n e)) s)).
  { destruct Hs as [W1 W2 W3 W4 (io0 & E0 & [Q1 Q2 [Q3 Q4]]) W6]. assert (io0 = io) as -> by congruence. split; cbn; try done.
    eexists. split; [done |]. split; cbn; [done | apply in_u_bit; lia |]. split; [by rewrite length_insert |]. apply Forall_insert; [done |].
    unfold waiting. width. }
  apply (deliver_irq_exact (set_ioapics (Some (io_served io n e)) s) (entry_dest e) (entry_dest_mode e) (entry_mode e) (entry_vector e));
    [done | by apply in_u_wrap | apply vector_of | done | done].
Qed.

(** A pin that is down is passed over. *)
Lemma service_pin_idle s io k (P : unit -> bus -> Prop) :
  s.(ioapics) = Some io -> 0 <= k -> Z.testbit io.(io_irr) k = false -> P tt s -> runs (service_pin k) s P.
Proof.
  intros Hio Hk Hb HP. unfold service_pin. sm_step. eapply runs_ioapic; [exact Hio |]. rewrite c_true_land_bit, Hb by lia. by sm_step.
Qed.

Lemma service_level s io n e :
  bus_wf s -> s.(ioapics) = Some io -> 1 <= n < 24 -> io.(io_irr) = Z.shiftl 1 n -> word io.(ioredtbl) n = Some e ->
  in_u 64 e -> Z.testbit e 15 = true -> Z.testbit e 16 = false -> entry_mode e = APIC_DM_FIXED \/ entry_mode e = APIC_DM_LOWPRI ->
  (entry_dest_mode e = 0 -> NoDup (id <$> s.(local_apics))) ->
  runs ioapic_service s (fun _ s' =>
    delivered (target s (entry_dest e) (entry_dest_mode e) (entry_mode e)) (entry_vector e) 1 (set_ioapics (Some (io_served io n e)) s) s').
Proof.
  intros Hs Hio Hn Hirr He Hu H15 H16 Hmode Hnd. set (D := delivered _ _ _ _). unfold ioapic_service.
  eapply runs_mono; [apply (for_loop_rule (fun k s' => if k <=? n then s' = s else D s')) |].
  - by rewrite (proj2 (Z.leb_le 0 n)) by lia.
  - intros k s1 Hk H1. change (Z.of_nat (Z.to_nat IOAPIC_NUM_PINS)) with 24 in Hk.
    destruct (Z.leb_spec k n) as [Hle | Hgt]; [subst s1; destruct (decide (k = n)) as [-> | Hne] |].
    + rewrite (proj2 (Z.leb_gt (n + 1) n)) by lia. by apply (service_pin_level s io n e).
    + rewrite (proj2 (Z.leb_le (k + 1) n)) by lia. apply (service_pin_idle s io); [done | lia | | done].
      by rewrite Hirr, testbit_bit, bool_decide_eq_false_2 by lia.
    + rewrite (proj2 (Z.leb_gt (k + 1) n)) by lia. apply (service_pin_idle s1 (io_served io n e)); [| lia | | done].
      * rewrite (d_io _ _ _ _ _ H1). done.
      * cbn [io_irr io_served]. by rewrite testbit_bit, bool_decide_eq_false_2 by lia.
  - cbv beta. intros _ s' H'. change (0 + Z.of_nat (Z.to_nat IOAPIC_NUM_PINS)) with 24 in H'. by rewrite (proj2 (Z.leb_gt 24 n)) in H' by lia.
Qed.

(** What a message goes by *)
Definition address (a : APICState) : Z * Z * Z := (a.(id), a.(Apic.dest_mode), a.(log_dest)).

Lemma addressed_same dest dm a b : address a = address b -> addressed dest dm a -> addressed dest dm b.
Proof. unfold address, addressed. intros E. injection E as -> -> ->. done. Qed.

Lemma same_ids s s' : same_part address s s' -> NoDup (id <$> s.(local_apics)) -> NoDup (id <$> s'.(local_apics)).
Proof.
  intros H Hn. assert (E : id <$> s'.(local_apics) = id <$> s.(local_apics)); [| by rewrite E].
  apply list_eq. intros i. rewrite !list_lookup_fmap. specialize (H i).
  destruct (s'.(local_apics) !! i) as [a |], (s.(local_apics) !! i) as [b |]; cbn in *; try done. by injection H as -> _ _.
Qed.

Lemma same_target s s' dest dm mode i : same_part address s s' -> target s dest dm mode i -> target s' dest dm mode i.
Proof.
  intros H (a & Ha & Hadd & Hfirst). pose proof (H i) as Hi. rewrite Ha in Hi. destruct (s'.(local_apics) !! i) as [a' |] eqn:Ea; [| done].
  exists a'. split; [done |]. split; [apply (addressed_same _ _ a); [cbn in Hi; congruence | done] |]. intros Hm j b Hj Hb Hadd'.
  specialize (H j). rewrite Hb in H. destruct (s.(local_apics) !! j) as [b0 |] eqn:Eb; [| done].
  apply (Hfirst Hm j b0 Hj Eb). apply (addressed_same _ _ b); [cbn in H; congruence | done].
Qed.

Lemma same_part_trans {V} (part : APICState -> V) s1 s2 s3 : same_part part s1 s2 -> same_part part s2 s3 -> same_part part s1 s3.
Proof. intros H1 H2 i. by rewrite H2, H1. Qed.

Lemma same_part_insert {V} (part : APICState -> V) s s' i a a' :
  s.(local_apics) !! i = Some a -> s'.(local_apics) = <[i := a']> s.(local_apics) -> part a' = part a -> same_part part s s'.
Proof.
  intros Ha Hl Hp j. rewrite Hl. destruct (decide (j = i)) as [-> | Hne]; [| by rewrite list_lookup_insert_ne].
  rewrite list_lookup_insert_eq, Ha by (by eapply lookup_lt_Some). cbn. by rewrite Hp.
Qed.

Section level.
Context (io : IOAPICState) (n e : Z) (Hentry : level_entry io n e) (Hwide : in_u 64 e).

Abbreviation v := (entry_vector e).
Abbreviation tgt s := (target s (entry_dest e) (entry_dest_mode e) (entry_mode e)).

(** The line goes up. *)
Lemma raise_level s :
  bus_wf s -> s.(ioapics) = Some io -> io.(io_irr) = 0 -> (entry_dest_mode e = 0 -> NoDup (id <$> s.(local_apics))) ->
  runs (ioapic_set_irq n 1) s (fun _ s' => delivered (tgt s) v 1 (set_ioapics (Some (io_served io n e)) s) s').
Proof.
  intros Hs Hio Hz Hnd. destruct Hentry as [Hn Hword H15 H16 Hmode Hidle]. unfold ioapic_set_irq. rewrite (proj2 (Z.eqb_neq n 0)) by lia.
  unfold IOAPIC_NUM_PINS. rewrite (proj2 (Z.leb_le 0 n)), (proj2 (Z.ltb_lt n 0x18)) by lia. cbn [andb].
  sm_step. eapply runs_ioapic; [exact Hio |]. sm_step. eapply runs_lift; [exact Hword |].
  unfold IOAPIC_LVT_TRIGGER_MODE_SHIFT, IOAPIC_TRIGGER_LEVEL. rewrite (bit_at e 15), H15 by lia. cbn [Z.b2z Z.eqb Pos.eqb c_true negb].
  sm_step. eapply runs_upd_ioapic; [exact Hio | done |]. rewrite Hz, Z.lor_0_l. set (io0 := set_io_irr _ io).
  assert (Hs0 : bus_wf (set_ioapics (Some io0) s)).
  { destruct Hs as [W1 W2 W3 W4 (io' & E' & [Q1 Q2 Q3]) W6]. assert (io' = io) as -> by congruence. split; cbn; try done.
    eexists. split; [done |]. split; cbn; [done | apply in_u_bit; lia | done]. }
  apply (service_level (set_ioapics (Some io0) s) io0 n e); done.
Qed.

(** It goes down while the entry waits. *)
Lemma lower_level s :
  s.(ioapics) = Some (io_served io n e) ->
  runs (ioapic_set_irq n 0) s (fun _ s' => s' = set_ioapics (Some (set_io_irr 0 (io_served io n e))) s).
Proof.
  intros Hio. destruct Hentry as [Hn Hword H15 H16 Hmode Hidle]. unfold ioapic_set_irq. rewrite (proj2 (Z.eqb_neq n 0)) by lia.
  unfold IOAPIC_NUM_PINS. rewrite (proj2 (Z.leb_le 0 n)), (proj2 (Z.ltb_lt n 0x18)) by lia. cbn [andb].
  sm_step. eapply runs_ioapic; [exact Hio |]. sm_step. eapply (runs_lift _ (waiting e)).
  { cbn [io_served ioredtbl]. rewrite (word_insert _ n _ n e) by (lia || done). by rewrite Z.eqb_refl. }
  unfold IOAPIC_LVT_TRIGGER_MODE_SHIFT, IOAPIC_TRIGGER_LEVEL. rewrite (bit_at (waiting e) 15), waiting_testbit, H15 by lia.
  cbn [Z.b2z Z.eqb Pos.eqb c_true negb]. eapply runs_upd_ioapic; [exact Hio | done |].
  cbn [io_irr io_served]. by rewrite Z.land_lnot_diag.
Qed.

Lemma io_entries s k : 0 <= k < 24 -> bus_wf s -> s.(ioapics) = Some io -> exists x, word io.(ioredtbl) k = Some x /\ in_u 64 x.
Proof. intros Hk Hs E. destruct (w_io _ Hs) as (io' & E' & Hw). assert (io' = io) as -> by congruence. by apply redtbl_entry. Qed.

(** The other pins do not wait. *)
Lemma eoi_pin_idle s irrs x u k (P : unit -> bus -> Prop) :
  length io.(ioredtbl) = 24%nat ->
  s.(ioapics) = Some (mkIOAPIC io.(io_id) io.(ioregsel) irrs (<[Z.to_nat n := x]> io.(ioredtbl))) ->
  0 <= k < 24 -> k <> n -> P tt s -> runs (eoi_pin u k) s P.
Proof.
  intros Hl Hio Hk Hne HP. destruct Hentry as [Hn Hword _ _ _ Hidle]. unfold eoi_pin. sm_step. eapply runs_ioapic; [exact Hio |].
  destruct (entry_some io.(ioredtbl) 24 k Hl) as (y & Ey & _); [lia |]. sm_step. eapply (runs_lift _ y).
  { cbn [ioredtbl]. rewrite (word_insert _ n _ k e) by (lia || done). by rewrite (proj2 (Z.eqb_neq k n)). }
  unfold IOAPIC_LVT_REMOTE_IRR, IOAPIC_LVT_REMOTE_IRR_SHIFT. rewrite c_true_land_bit, (Hidle k y Ey) by lia. cbn [andb]. by sm_step.
Qed.

(** The pin of the entry: it does not wait any more, and is served if it is up. *)
Lemma eoi_pin_level s irrs (P : unit -> bus -> Prop) :
  s.(ioapics) = Some (mkIOAPIC io.(io_id) io.(ioregsel) irrs (<[Z.to_nat n := waiting e]> io.(ioredtbl))) ->
  runs (if Z.testbit irrs n then ioapic_service else mret tt)
    (set_ioapics (Some (mkIOAPIC io.(io_id) io.(ioregsel) irrs (<[Z.to_nat n := e]> io.(ioredtbl)))) s) P ->
  runs (eoi_pin v n) s P.
Proof.
  intros Hio HP. destruct Hentry as [Hn Hword H15 H16 _ Hidle]. unfold eoi_pin. sm_step. eapply runs_ioapic; [exact Hio |].
  assert (Ew : word (<[Z.to_nat n := waiting e]> io.(ioredtbl)) n = Some (waiting e)).
  { rewrite (word_insert _ n _ n e) by (lia || done). by rewrite Z.eqb_refl. }
  sm_step. eapply (runs_lift _ (waiting e)); [exact Ew |].
  unfold IOAPIC_LVT_REMOTE_IRR at 1, IOAPIC_LVT_REMOTE_IRR_SHIFT. rewrite c_true_land_bit, waiting_testbit by lia. cbn [Z.eqb Pos.eqb].
  change (Z.land (waiting e) IOAPIC_VECTOR_MASK) with (entry_vector (waiting e)). rewrite waiting_vector, Z.eqb_refl. cbn [andb]. sm_step.
  eapply runs_upd_ioapic; [exact Hio | cbn [ioredtbl]; rewrite (set_word_some _ _ _ _ Ew); reflexivity |].
  rewrite (waiting_clear e (Hidle n e Hword)). cbn [io_irr set_ioredtbl io_id ioregsel]. rewrite list_insert_insert_eq.
  unfold IOAPIC_LVT_MASKED, IOAPIC_LVT_MASKED_SHIFT. rewrite !c_true_land_bit, waiting_testbit by lia. cbn [Z.eqb Pos.eqb]. rewrite H16. exact HP.
Qed.

Lemma broadcast_loop s irrs (Q : bus -> Prop) :
  length io.(ioredtbl) = 24%nat ->
  s.(ioapics) = Some (mkIOAPIC io.(io_id) io.(ioregsel) irrs (<[Z.to_nat n := waiting e]> io.(ioredtbl))) ->
  runs (eoi_pin v n) s (fun _ s' => Q s') ->
  (forall s', Q s' -> exists x, s'.(ioapics) = Some (mkIOAPIC io.(io_id) io.(ioregsel) irrs (<[Z.to_nat n := x]> io.(ioredtbl)))) ->
  runs (ioapic_eoi_broadcast v) s (fun _ s' => Q s').
Proof.
  intros Hl Hio Hpin HQ. pose proof (l_pin _ _ _ Hentry) as Hn. unfold ioapic_eoi_broadcast. sm_step. sm_step. rewrite Hio.
  eapply runs_mono; [apply (for_loop_rule (fun k s' => if k <=? n then s' = s else Q s')) |].
  - by rewrite (proj2 (Z.leb_le 0 n)) by lia.
  - intros k s1 Hk H1. change (Z.of_nat (Z.to_nat IOAPIC_NUM_PINS)) with 24 in Hk.
    destruct (Z.leb_spec k n) as [Hle | Hgt]; [subst s1; destruct (decide (k = n)) as [-> | Hne] |].
    + by rewrite (proj2 (Z.leb_gt (n + 1) n)) by lia.
    + rewrite (proj2 (Z.leb_le (k + 1) n)) by lia. by apply (eoi_pin_idle s irrs (waiting e)); [| | lia | |].
    + rewrite (proj2 (Z.leb_gt (k + 1) n)) by lia. destruct (HQ s1 H1) as [x Hx]. by apply (eoi_pin_idle s1 irrs x); [| | lia | lia |].
  - cbv beta. intros _ s' H'. change (0 + Z.of_nat (Z.to_nat IOAPIC_NUM_PINS)) with 24 in H'. by rewrite (proj2 (Z.leb_gt 24 n)) in H' by lia.
Qed.

Lemma table_length s : bus_wf s -> (exists irrs x, s.(ioapics) = Some (mkIOAPIC io.(io_id) io.(ioregsel) irrs (<[Z.to_nat n := x]> io.(ioredtbl)))) ->
  length io.(ioredtbl) = 24%nat.
Proof.
  intros Hs (irrs & x & E). destruct (w_io _ Hs) as (io' & E' & [_ _ [Hl _]]). rewrite E in E'. injection E' as <-. cbn in Hl. by rewrite length_insert in Hl.
Qed.

(** An end of interrupt with the line still up delivers it again. *)
Lemma broadcast_up s :
  bus_wf s -> s.(ioapics) = Some (io_served io n e) -> (entry_dest_mode e = 0 -> NoDup (id <$> s.(local_apics))) ->
  runs (ioapic_eoi_broadcast v) s (fun _ s' => delivered (tgt s) v 1 s s').
Proof.
  intros Hs Hio Hnd. pose proof (table_length s Hs ltac:(by eexists _, _)) as Hl. destruct Hentry as [Hn Hword H15 H16 Hmode Hidle].
  apply (broadcast_loop s (Z.shiftl 1 n)); [done | done | |].
  - apply (eoi_pin_level s (Z.shiftl 1 n)); [done |]. rewrite testbit_bit, bool_decide_eq_true_2 by lia.
    set (io3 := mkIOAPIC _ _ _ _). assert (E3 : io_served io3 n e = io_served io n e).
    { unfold io_served, io3. cbn. by rewrite list_insert_insert_eq. }
    assert (Hs3 : bus_wf (set_ioapics (Some io3) s)).
    { destruct Hs as [W1 W2 W3 W4 (io' & E' & [Q1 Q2 [Q3 Q4]]) W6]. rewrite Hio in E'. injection E' as <-. split; cbn; try done.
      eexists. split; [done |]. split; cbn; [done | done |]. split; [by rewrite length_insert |].
      rewrite <- (list_insert_insert_eq io.(ioredtbl) (Z.to_nat n) e (waiting e)). by apply Forall_insert. }
    eapply runs_mono; [apply (service_level (set_ioapics (Some io3) s) io3 n e); try done |].
    + cbn. rewrite (word_insert _ n _ n e) by (lia || done). by rewrite Z.eqb_refl.
    + cbv beta. rewrite E3. intros _ s' [D1 D2 D3 D4 D5 D6]. split; try done. by rewrite D5.
  - intros s' H'. exists (waiting e). by rewrite (d_io _ _ _ _ _ H').
Qed.

(** With the line down, the entry only stops waiting. *)
Lemma broadcast_down s :
  bus_wf s -> s.(ioapics) = Some (set_io_irr 0 (io_served io n e)) ->
  runs (ioapic_eoi_broadcast v) s (fun _ s' => s' = set_ioapics (Some (mkIOAPIC io.(io_id) io.(ioregsel) 0 (<[Z.to_nat n := e]> io.(ioredtbl)))) s).
Proof.
  intros Hs Hio. pose proof (table_length s Hs ltac:(exists 0, (waiting e); exact Hio)) as Hl.
  apply (broadcast_loop s 0); [done | done | |].
  - apply (eoi_pin_level s 0); [done |]. rewrite Z.bits_0. by sm_step.
  - intros s' ->. by exists e.
Qed.
End level.

(** ** From the line to the end of interrupt *)

(** The highest in service is ended, and the I/O controller told. *)
Lemma eoi_steps s i a v (P : unit -> bus -> Prop) :
  bus_wf s -> s.(local_apics) !! i = Some a -> 0 <= v < 256 -> has a.(isr) v = true ->
  (forall u, 0 <= u < 256 -> has a.(isr) u = true -> u <= v) -> has a.(tmr) v = true -> Z.testbit a.(spurious_vec) 12 = false ->
  (forall t, tab_wf t -> (forall u, 0 <= u < 256 -> has t u = if u =? v then false else has a.(isr) u) ->
     runs (ioapic_eoi_broadcast v;; apic_update_irq i) (set_local_apics (<[i := set_isr t a]> s.(local_apics)) s) P) ->
  runs (apic_eoi i) s P.
Proof.
  intros Hs Ha Hv Hset Hmax Htmr H12 HP. pose proof (w_apics _ Hs i a Ha) as Hw.
  destruct (highest_spec _ (w_isr _ _ Hw)) as (h & Eh & Hr & Hh & Hm). pose proof (Hm v Hv Hset).
  assert (h = v) as -> by (specialize (Hmax h ltac:(lia) (Hh ltac:(lia))); lia).
  unfold apic_eoi. sm_step. eapply runs_apic; [exact Ha |]. sm_step. eapply runs_lift; [exact Eh |]. rewrite (proj2 (Z.ltb_ge v 0)) by lia.
  destruct (reset_bit_spec _ v (w_isr _ _ Hw) Hv) as (t & Et & Ht & Hut). sm_step. eapply runs_upd; [exact Ha | by rewrite Et |].
  sm_step. rewrite (get_bit_spec _ v (w_tmr _ _ Hw) Hv), Htmr. eapply runs_lift; [done |].
  unfold APIC_SV_DIRECTED_IO. rewrite c_true_land_bit, H12 by lia. cbn [negb andb]. by apply HP.
Qed.

(** A controller for which [v] is the next thing to do *)
Record awaits (a : APICState) (v : Z) : Prop := {
  y_on : Z.testbit a.(spurious_vec) 8 = true;
  y_broadcast : Z.testbit a.(spurious_vec) 12 = false;
  y_legal : 0 < class v;
  y_tpr : class a.(tpr) < class v;
  y_isr : forall u, 0 <= u < 256 -> has a.(isr) u = true -> class u < class v;
  y_irr : forall u, 0 <= u < 256 -> has a.(irr) u = true -> u < v
}.

(** Requested and acknowledged, nothing else changed *)
Definition in_hand (v : Z) (a a2 : APICState) : Prop :=
  address a2 = address a /\ a2.(spurious_vec) = a.(spurious_vec) /\ has a2.(irr) v = false /\ has a2.(tmr) v = true /\
  (forall u, 0 <= u < 256 -> has a2.(isr) u = if u =? v then true else has a.(isr) u).

Lemma gets_accepts v a a1 a2 : 0 <= v < 256 -> gets v 1 a a1 -> accepts v a1 a2 -> in_hand v a a2.
Proof.
  intros Hv (r & m & -> & _ & _ & Hr & Hm) (r2 & t2 & -> & _ & _ & Hr2 & Ht2). split; [done |]. split; [done |]. cbn in *.
  rewrite Hr2, Hm, Z.eqb_refl by done. done.
Qed.

Lemma awaits_next a a1 v : 0 <= v < 256 -> awaits a v -> gets v 1 a a1 -> foremost a1 v /\ outranks a1 v.
Proof.
  intros Hv [] (r & m & -> & _ & _ & Hr & _). split.
  - split; [done |]. cbn. rewrite Hr, Z.eqb_refl by done. split; [done |]. intros u Hu Hset. rewrite Hr in Hset by done.
    destruct (Z.eqb_spec u v) as [-> | _]; [lia |]. specialize (y_irr0 u Hu Hset). lia.
  - left. split; [done | exact y_isr0].
Qed.

Section cycle.
Context (io : IOAPICState) (n e : Z) (Hentry : level_entry io n e) (Hwide : in_u 64 e).
Context (s : bus) (Hs : bus_wf s) (Hio : s.(ioapics) = Some io) (Hdown : io.(io_irr) = 0).
Context (Hnd : entry_dest_mode e = 0 -> NoDup (id <$> s.(local_apics))).
Context (i : nat) (a : APICState) (Ha : s.(local_apics) !! i = Some a).
Context (Hi : target s (entry_dest e) (entry_dest_mode e) (entry_mode e) i) (Haw : awaits a (entry_vector e)).

Abbreviation v := (entry_vector e).

(** After the line and the acknowledge *)
Record acknowledged (s2 : bus) : Prop := {
  k_wf : bus_wf s2;
  k_io : s2.(ioapics) = Some (io_served io n e);
  k_address : same_part address s s2;
  k_apic : exists a2, s2.(local_apics) !! i = Some a2 /\ in_hand v a a2
}.

Lemma raise_and_take : runs (ioapic_set_irq n 1;; apic_get_interrupt (Some i)) s (fun x s2 => x = v /\ acknowledged s2).
Proof.
  pose proof (vector_of e : 0 <= v < 256) as Hv. sm_step.
  sm_use (runs_conj _ _ _ _ (raise_level io n e Hentry Hwide s Hs Hio Hdown Hnd) (steady_pin address ltac:(done) ltac:(done) n 1 s)).
  intros _ s1 [[Hw1 Hl1 Hhit _ Hio1 _] Hadd1]. destruct (Hhit i a Ha Hi) as (a1 & Ha1 & Hg & _).
  destruct (awaits_next a a1 v Hv Haw Hg) as [Hf Ho].
  assert (Hon : Z.testbit a1.(spurious_vec) 8 = true) by (destruct Hg as (r & m & -> & _); apply (y_on _ _ Haw)).
  assert (Hinv : inv (add (fun _ => True) i) s1) by (split; [done |]; intros j b _ _; left; by left).
  sm_use (runs_conj _ _ _ _ (get_interrupt_exact s1 i a1 Hw1 Ha1 Hon)
    (runs_post _ _ _ (get_interrupt_tells (fun _ => True) i (Some i) eq_refl s1 Hinv (lookup_lt_Some _ _ _ Ha1)))).
  intros x s2 [(_ & _ & Hacc) [[Hw2 _] _]]. destruct (Hacc v Hf Ho (y_legal _ _ Haw)) as (-> & a2 & Hl2 & Ha2 & [E1 E2 E3 E4]).
  split; [done |]. split; [done | by rewrite E1 | |].
  - eapply same_part_trans; [exact Hadd1 |]. apply (same_part_insert address s1 s2 i a1 a2 Ha1 Hl2). by destruct Ha2 as (? & ? & -> & _).
  - exists a2. rewrite Hl2, list_lookup_insert_eq by (by eapply lookup_lt_Some). split; [done |]. by apply (gets_accepts v a a1 a2).
Qed.

(** In service as before, once [v] is ended *)
Lemma service_restored a2 t :
  in_hand v a a2 -> (forall u, 0 <= u < 256 -> has t u = if u =? v then false else has a2.(isr) u) ->
  filter (fun u => has t u = true) (rev (seqZ 0 256)) = in_service a.
Proof.
  intros (_ & _ & _ & _ & Hisr) Ht. apply filter_same. intros u Hu%list_elem_of_In%in_rev%list_elem_of_In%elem_of_seqZ.
  rewrite Ht, Hisr by lia. destruct (Z.eqb_spec u v) as [-> | _]; [| done]. split; [done |]. intros Hset.
  pose proof (y_isr _ _ Haw v (vector_of e) Hset). lia.
Qed.

(** The end of interrupt, up to the message to the I/O controller *)
Lemma eoi_in_hand s2 a2 (P : unit -> bus -> Prop) :
  bus_wf s2 -> s2.(local_apics) !! i = Some a2 -> in_hand v a a2 ->
  (forall t, bus_wf (set_local_apics (<[i := set_isr t a2]> s2.(local_apics)) s2) ->
     filter (fun u => has t u = true) (rev (seqZ 0 256)) = in_service a ->
     runs (ioapic_eoi_broadcast v;; apic_update_irq i) (set_local_apics (<[i := set_isr t a2]> s2.(local_apics)) s2) P) ->
  runs (apic_eoi i) s2 P.
Proof.
  intros Hw2 Ha2 Hhand HP. pose proof (vector_of e : 0 <= v < 256) as Hv. pose proof Hhand as (Had & Hsp & Hirr & Htmr & Hisr).
  assert (Hwa : apic_wf i a2) by by apply (w_apics _ Hw2).
  apply (eoi_steps s2 i a2 v); [done | done | done | by rewrite Hisr, Z.eqb_refl | | done | rewrite Hsp; apply (y_broadcast _ _ Haw) |].
  - intros u Hu Hset. rewrite Hisr in Hset by done. destruct (Z.eqb_spec u v) as [-> | _]; [lia |].
    pose proof (y_isr _ _ Haw u Hu Hset). destruct (Z.le_gt_cases u v) as [|Hgt]; [done |]. pose proof (class_mono v u ltac:(lia)). lia.
  - intros t Ht Hut. apply HP; [| by apply (service_restored a2)].
    apply (inv_upd (fun _ => True) s2 i a2); [by split; [done |]; left | done | | by right].
    pose proof (nested_reset _ v t (w_nested _ _ Hwa) Hut). apic_field.
Qed.

Lemma update_last s4 b (P : unit -> bus -> Prop) :
  bus_wf s4 -> s4.(local_apics) !! i = Some b -> (forall s5, s5.(local_apics) = s4.(local_apics) -> s5.(ioapics) = s4.(ioapics) -> P tt s5) ->
  runs (apic_update_irq i) s4 P.
Proof.
  intros Hw Hb HP. destruct (cpu_exists s4 i b Hw Hb) as [o Ho]. sm_use (update_irq_exact s4 i b o (w_apics _ Hw i b Hb) Hb Ho).
  intros [] s5 (Hl & [E1 _ _ _] & _). by apply HP.
Qed.

(** The line stays up: the interrupt is requested again. *)
Lemma eoi_line_up s2 :
  acknowledged s2 -> runs (apic_eoi i) s2 (fun _ s5 => exists a5, s5.(local_apics) !! i = Some a5 /\
    has a5.(irr) v = true /\ has a5.(tmr) v = true /\ in_service a5 = in_service a).
Proof.
  intros [Hw2 Hio2 Had2 (a2 & Ha2 & Hhand)]. apply (eoi_in_hand s2 a2 _ Hw2 Ha2 Hhand). intros t Hw4 Hrest. pose proof (vector_of e : 0 <= v < 256) as Hv.
  set (s4 := set_local_apics _ _) in *.
  assert (Had4 : same_part address s s4).
  { eapply same_part_trans; [exact Had2 |]. by apply (same_part_insert address s2 s4 i a2 (set_isr t a2)). }
  assert (Ha4 : s4.(local_apics) !! i = Some (set_isr t a2)) by (cbn; by rewrite list_lookup_insert_eq by (by eapply lookup_lt_Some)).
  sm_step. sm_use (broadcast_up io n e Hentry Hwide s4 Hw4 Hio2 (fun E => same_ids s s4 Had4 (Hnd E))). intros _ s5 [Hw5 _ Hhit _ _ _].
  destruct (Hhit i _ Ha4 (same_target s s4 _ _ _ i Had4 Hi)) as (a5 & Ha5 & (r & m & -> & _ & _ & Hr & Hm) & _).
  apply (update_last s5 _ _ Hw5 Ha5). intros s6 Hl _. rewrite Hl. eexists. split; [exact Ha5 |]. cbn.
  rewrite Hr, Hm, Z.eqb_refl by done. done.
Qed.

(** The line went down: it is not, and the entry stops waiting. *)
Lemma lower_and_eoi s2 :
  acknowledged s2 -> runs (ioapic_set_irq n 0;; apic_eoi i) s2 (fun _ s5 => exists a5 io5, s5.(local_apics) !! i = Some a5 /\
    has a5.(irr) v = false /\ in_service a5 = in_service a /\ s5.(ioapics) = Some io5 /\ io5.(io_irr) = 0 /\ io5.(ioredtbl) = io.(ioredtbl)).
Proof.
  intros [Hw2 Hio2 Had2 (a2 & Ha2 & Hhand)]. sm_step. sm_use (lower_level io n e Hentry s2 Hio2). intros _ s3 ->.
  set (s3 := set_ioapics _ s2). assert (Hw3 : bus_wf s3).
  { destruct Hw2 as [W1 W2 W3 W4 (io' & E' & [Q1 Q2 Q3]) W6]. rewrite Hio2 in E'. injection E' as <-. split; cbn; try done.
    eexists. split; [done |]. by split. }
  apply (eoi_in_hand s3 a2 _ Hw3 Ha2 Hhand). intros t Hw4 Hrest. set (s4 := set_local_apics _ _) in *.
  assert (Ha4 : s4.(local_apics) !! i = Some (set_isr t a2)) by (cbn; by rewrite list_lookup_insert_eq by (by eapply lookup_lt_Some)).
  sm_step. sm_use (broadcast_down io n e Hentry s4 Hw4 eq_refl). intros _ s5 ->. set (s5 := set_ioapics _ s4).
  assert (Htab : <[Z.to_nat n := e]> io.(ioredtbl) = io.(ioredtbl)).
  { apply list_insert_id. pose proof (l_word _ _ _ Hentry) as E. unfold word in E. by destruct (0 <=? n). }
  assert (Hw5 : bus_wf s5).
  { destruct Hw4 as [W1 W2 W3 W4 (io' & E' & [Q1 Q2 [Q3 Q4]]) W6]. split; cbn; try done. rewrite Htab. cbn in E'. injection E' as <-. cbn in *.
    destruct (w_io _ Hs) as (io0 & E0 & [R1 R2 R3]). rewrite Hio in E0. injection E0 as <-. eexists. split; [done |]. by split. }
  apply (update_last s5 _ _ Hw5 Ha4). intros s6 Hl Hio6. eexists _, _. split; [rewrite Hl; exact Ha4 |].
  destruct Hhand as (_ & _ & Hirr & _). split; [exact Hirr |]. split; [exact Hrest |]. split; [exact Hio6 |]. done.
Qed.
End cycle.

(** ** The results *)

Lemma runs_assoc {A C D} (m1 : B A) (m2 : B C) (k : C -> B D) s P : runs ((m1;; m2) ≫= k) s P -> runs (m1;; x ← m2; k x) s P.
Proof.
  intros (x & s' & E & H). exists x, s'. split; [| done]. revert E. unfold mbind, sm_bind. by destruct (m1 s) as [[? ?] |].
Qed.

(** C4: interrupts nest.  An enabled controller that is asked by its processor
    presents the greatest requested vector if its class is above the task's and
    above all classes in service; the vector moves from the requests to what is in
    service, on top of what is there.  If the class is not high enough the answer
    is the spurious vector, without requests it is none, and nothing changes.  An
    end of interrupt takes the top away, and only that. *)
Theorem interrupts_nest (s : bus) (i : nat) (a : APICState) :
  bus_wf s -> s.(local_apics) !! i = Some a -> Z.testbit a.(spurious_vec) 8 = true ->
  runs (apic_get_interrupt (Some i)) s (fun v s' =>
    ((forall u, 0 <= u < 256 -> has a.(irr) u = false) -> v = -1 /\ s' = s) /\
    (forall u, foremost a u -> ~ outranks a u -> v = Z.land a.(spurious_vec) 0xff /\ s' = s) /\
    (forall u, foremost a u -> outranks a u -> 0 < class u -> v = u /\
       exists a', s'.(local_apics) = <[i := a']> s.(local_apics) /\ accepts u a a' /\ in_service a' = u :: in_service a)) /\
  runs (apic_eoi i) s (fun _ s' => exists a', s'.(local_apics) !! i = Some a' /\ in_service a' = tail (in_service a)).
Proof.
  intros Hs Ha Hen. split; [| by apply eoi_pops]. sm_use (get_interrupt_exact s i a Hs Ha Hen). intros v s' (H1 & H2 & H3).
  split; [done |]. split; [done |]. intros u Hu Ho Hc. destruct (H3 u Hu Ho Hc) as (-> & a' & Hl & Hacc & _). split; [done |].
  exists a'. split; [done |]. split; [done |]. by apply accepts_push.
Qed.

(** C16: a message reaches the addressed controllers and no others.  With fixed
    delivery all of them get the vector, with lowest priority the first: by
    number, all at once, or by logical address, flat or in clusters.  The
    processor of each is told if the interrupt is the next for it.  The other
    controllers and processors, the I/O controller and the 8259 pair do not
    change. *)
Theorem message_reaches_addressed (s : bus) (dest dm mode v polarity t : Z) :
  bus_wf s -> in_u 8 dest -> 0 <= v < 256 -> (dm = 0 -> NoDup (id <$> s.(local_apics))) ->
  mode = APIC_DM_FIXED \/ mode = APIC_DM_LOWPRI ->
  runs (apic_deliver_irq dest dm mode v polarity t) s (fun _ s' =>
    (forall i a, s.(local_apics) !! i = Some a -> target s dest dm mode i ->
       exists a', s'.(local_apics) !! i = Some a' /\ gets v t a a' /\ (deliverable a' -> told s' i)) /\
    (forall i, ~ target s dest dm mode i -> s'.(local_apics) !! i = s.(local_apics) !! i /\ s'.(cpus) !! i = s.(cpus) !! i) /\
    s'.(ioapics) = s.(ioapics) /\ s'.(isa_pic) = s.(isa_pic)).
Proof.
  intros Hs Hd Hv Hnd Hmode. sm_use (deliver_irq_exact s dest dm mode v polarity t Hs Hd Hv Hnd Hmode). intros _ s' []. done.
Qed.

(** C17: a level-triggered line is served as often as it asks.  When it goes up
    while every other line of the I/O controller is down, the processor its entry names gets the vector at its next question, if that is
    the most urgent.  If the line is still up at the end of interrupt, the vector
    is requested again; if it went down meanwhile, it is not, and the table is as
    it was before.  Either way the interrupts in service are those from before. *)
Theorem level_line_served (io : IOAPICState) (n e : Z) (s : bus) (i : nat) (a : APICState) :
  level_entry io n e -> in_u 64 e -> bus_wf s -> s.(ioapics) = Some io -> io.(io_irr) = 0 ->
  (entry_dest_mode e = 0 -> NoDup (id <$> s.(local_apics))) -> s.(local_apics) !! i = Some a ->
  target s (entry_dest e) (entry_dest_mode e) (entry_mode e) i -> awaits a (entry_vector e) ->
  runs (ioapic_set_irq n 1;; v ← apic_get_interrupt (Some i); apic_eoi i;; mret v) s (fun v s' => v = entry_vector e /\
    exists a', s'.(local_apics) !! i = Some a' /\ has a'.(irr) v = true /\ has a'.(tmr) v = true /\ in_service a' = in_service a) /\
  runs (ioapic_set_irq n 1;; v ← apic_get_interrupt (Some i); (ioapic_set_irq n 0;; apic_eoi i);; mret v) s (fun v s' => v = entry_vector e /\
    exists a' io', s'.(local_apics) !! i = Some a' /\ has a'.(irr) v = false /\ in_service a' = in_service a /\
      s'.(ioapics) = Some io' /\ io'.(io_irr) = 0 /\ io'.(ioredtbl) = io.(ioredtbl)).
Proof.
  intros Hentry Hwide Hs Hio Hdown Hnd Ha Hi Haw. pose proof (raise_and_take io n e Hentry Hwide s Hs Hio Hdown Hnd i a Ha Hi Haw) as Hrun.
  split; apply runs_assoc, runs_bind; sm_use Hrun; intros v s2 [-> Hack]; sm_step.
  - sm_use (eoi_line_up io n e Hentry Hwide s Hnd i a Hi Haw s2 Hack). intros _ s5 H5. by sm_step.
  - sm_use (lower_and_eoi io n e Hentry s Hs Hio i a Haw s2 Hack). intros _ s5 H5. by sm_step.
Qed.

(** ** Examples *)

Definition run_from (n : nat) (ops : list bus_op) : bus :=
  match (pc_init n CPUID_APIC;; run_ops ops) bus_init with Some (_, s) => s | None => bus_init end.

Lemma run_from_wf n ops : (0 < n <= 255)%nat -> Forall (op_ok n) ops -> bus_wf (run_from n ops).
Proof.
  intros Hn Hok. assert (H : runs (pc_init n CPUID_APIC;; run_ops ops) bus_init (fun _ s => bus_wf s)).
  { sm_step. sm_use (pc_init_inv n CPUID_APIC Hn eq_refl). intros _ s [Hs Hl].
    sm_use (run_ops_keeps (fun _ => True) n ops s Hok (or_intror (fun _ => I)) (inv_mono _ _ _ (fun _ _ => I) Hs) Hl). by intros _ s' []. }
  destruct H as (x & s & E & Hw). unfold run_from. by rewrite E.
Qed.

(** Two processors with enabled controllers; pin 5 is level-triggered with vector
    0x31 for the first *)
Definition demo_ops : list bus_op :=
  [O_write 0 0xf0 0x1ff; O_write 1 0xf0 0x1ff; O_io_write 0 0x1a; O_io_write 0x10 0x8031].

Lemma demo_ops_ok : Forall (op_ok 2) demo_ops.
Proof. by repeat (constructor; [cbn; repeat split; lia || done |]). Qed.

Definition demo : bus := run_from 2 demo_ops.
Definition demo_apic (s : bus) (i : nat) : APICState := default (new_apic 0 0 0) (s.(local_apics) !! i).
Definition demo_io (s : bus) : IOAPICState := default (mkIOAPIC 0 0 0 []) s.(ioapics).

Lemma demo_wf : bus_wf demo.
Proof. apply run_from_wf; [lia | apply demo_ops_ok]. Qed.

(** Checking all vectors by evaluation *)
Lemma all_vectors (P : Z -> bool) : forallb P (seqZ 0 256) = true -> forall u, 0 <= u < 256 -> P u = true.
Proof. intros H u Hu. rewrite forallb_forall in H. apply H, list_elem_of_In, elem_of_seqZ. lia. Qed.

Lemma empty_vectors t : forallb (fun u => negb (has t u)) (seqZ 0 256) = true -> forall u, 0 <= u < 256 -> has t u = false.
Proof. intros H u Hu. apply negb_true_iff. by apply (all_vectors _ H). Qed.

Lemma apic_reachable_witness :
  runs (pc_init 2 CPUID_APIC;; run_ops (demo_ops ++ [O_line 5 1; O_take 0; O_clock 100])) bus_init (fun _ s => bus_wf s /\
    (Forall calm (demo_ops ++ [O_line 5 1; O_take 0; O_clock 100]) ->
     forall i a, s.(local_apics) !! i = Some a -> deliverable a -> told s i)).
Proof.
  apply (apic_reachable 2 CPUID_APIC); [lia | reflexivity |]. apply Forall_app. split; [apply demo_ops_ok |].
  by repeat (constructor; [cbn; repeat split; lia || done |]).
Defined.

Lemma interrupts_nest_witness :
  runs (apic_get_interrupt (Some 0%nat)) demo (fun v s' =>
    ((forall u, 0 <= u < 256 -> has (demo_apic demo 0).(irr) u = false) -> v = -1 /\ s' = demo) /\
    (forall u, foremost (demo_apic demo 0) u -> ~ outranks (demo_apic demo 0) u ->
       v = Z.land (demo_apic demo 0).(spurious_vec) 0xff /\ s' = demo) /\
    (forall u, foremost (demo_apic demo 0) u -> outranks (demo_apic demo 0) u -> 0 < class u -> v = u /\
       exists a', s'.(local_apics) = <[0%nat := a']> demo.(local_apics) /\ accepts u (demo_apic demo 0) a' /\
         in_service a' = u :: in_service (demo_apic demo 0))) /\
  runs (apic_eoi 0) demo (fun _ s' => exists a', s'.(local_apics) !! 0%nat = Some a' /\
    in_service a' = tail (in_service (demo_apic demo 0))).
Proof. apply (interrupts_nest demo 0 (demo_apic demo 0)); [exact demo_wf | by vm_compute | by vm_compute]. Defined.

Lemma message_reaches_addressed_witness :
  runs (apic_deliver_irq 1 0 APIC_DM_FIXED 0x41 0 0) demo (fun _ s' =>
    (forall i a, demo.(local_apics) !! i = Some a -> target demo 1 0 APIC_DM_FIXED i ->
       exists a', s'.(local_apics) !! i = Some a' /\ gets 0x41 0 a a' /\ (deliverable a' -> told s' i)) /\
    (forall i, ~ target demo 1 0 APIC_DM_FIXED i ->
       s'.(local_apics) !! i = demo.(local_apics) !! i /\ s'.(cpus) !! i = demo.(cpus) !! i) /\
    s'.(ioapics) = demo.(ioapics) /\ s'.(isa_pic) = demo.(isa_pic)).
Proof.
  apply (message_reaches_addressed demo 1 0 APIC_DM_FIXED 0x41 0 0); [exact demo_wf | by split | lia | | by left].
  intros _. by_eval.
Defined.

Lemma demo_entry : level_entry (demo_io demo) 5 0x8031.
Proof.
  split; [lia | by vm_compute | done | done | by left |]. intros k e' E. unfold word in E. destruct (0 <=? k); [| done].
  assert (H : Forall (fun x => Z.testbit x 14 = false) (demo_io demo).(ioredtbl)) by by_eval.
  by apply (Forall_lookup_1 _ _ _ _ H E).
Qed.

Lemma demo_awaits : awaits (demo_apic demo 0) 0x31.
Proof.
  split; try by vm_compute.
  - intros u Hu Hset. rewrite (empty_vectors (demo_apic demo 0).(isr)) in Hset; [done | by vm_compute | done].
  - intros u Hu Hset. rewrite (empty_vectors (demo_apic demo 0).(irr)) in Hset; [done | by vm_compute | done].
Qed.

Lemma level_line_served_witness :
  runs (ioapic_set_irq 5 1;; v ← apic_get_interrupt (Some 0%nat); apic_eoi 0;; mret v) demo (fun v s' => v = 0x31 /\
    exists a', s'.(local_apics) !! 0%nat = Some a' /\ has a'.(irr) v = true /\ has a'.(tmr) v = true /\
      in_service a' = in_service (demo_apic demo 0)) /\
  runs (ioapic_set_irq 5 1;; v ← apic_get_interrupt (Some 0%nat); (ioapic_set_irq 5 0;; apic_eoi 0);; mret v) demo (fun v s' => v = 0x31 /\
    exists a' io', s'.(local_apics) !! 0%nat = Some a' /\ has a'.(irr) v = false /\ in_service a' = in_service (demo_apic demo 0) /\
      s'.(ioapics) = Some io' /\ io'.(io_irr) = 0 /\ io'.(ioredtbl) = (demo_io demo).(ioredtbl)).
Proof.
  apply (level_line_served (demo_io demo) 5 0x8031 demo 0 (demo_apic demo 0));
    [exact demo_entry | by split | exact demo_wf | by vm_compute | by vm_compute | intros _; by_eval | by vm_compute | | exact demo_awaits].
  exists (demo_apic demo 0). split; [by vm_compute |]. split; [right; by vm_compute | done].
Defined.

(** ** Where the code falls short *)

Definition told_bit (s : bus) (c : nat) : option bool := (fun o => Z.testbit o.(interrupt_request) 1) <$> s.(cpus) !! c.

(** An interrupt is requested at the first processor; then an 8259 is initialised,
    which lowers its output: the request to the processor is taken back, though the
    interrupt is still to be presented. *)
Lemma initialisation_drops_request :
  let s := run_from 1 [O_write 0 0xf0 0x1ff; O_msi 0 0x41; O_pic (P_write Master 0 0x11)] in
  (apic_irq_pending (demo_apic s 0), Z.testbit (demo_apic s 0).(spurious_vec) 8, told_bit s 0) = (Some 0x41, true, Some false).
Proof. by vm_compute. Qed.

(** The 8259 pair has an interrupt while LINT0 is masked; unmasking it does not
    tell the processor. *)
Lemma unmasked_line_not_seen :
  let s := run_from 1 [O_write 0 0x350 0x10700; O_line 1 1; O_write 0 0x350 0x700] in
  (pic_get_irq Master s.(isa_pic).(pic_master), word (demo_apic s 0).(lvt) APIC_LVT_LINT0, told_bit s 0) = (1, Some 0x700, Some false).
Proof. by vm_compute. Qed.

(** The level interrupt of pin 5 is being served when an edge arrives at pin 6: it
    is requested again, and presented again after the end of interrupt, though its
    line is down. *)
Lemma level_requested_twice :
  let s := run_from 1 [O_write 0 0xf0 0x1ff; O_io_write 0 0x1a; O_io_write 0x10 0x8031; O_io_write 0 0x1c; O_io_write 0x10 0x21;
                       O_line 5 1; O_take 0; O_line 6 1; O_line 5 0; O_write 0 0xb0 0] in
  (has (demo_apic s 0).(irr) 0x31, (demo_io s).(io_irr)) = (true, 0).
Proof. by vm_compute. Qed.

(** A one-shot timer of count 5 expires after 6 ticks; writing its vector after 5
    disarms it. *)
Lemma oneshot_disarmed :
  let s := run_from 1 [O_write 0 0xf0 0x1ff; O_write 0 0x320 0x40; O_write 0 0x380 5; O_clock 5; O_write 0 0x320 0x41] in
  let s' := run_from 1 [O_write 0 0xf0 0x1ff; O_write 0 0x320 0x40; O_write 0 0x380 5; O_clock 5] in
  ((demo_apic s' 0).(timer), (demo_apic s 0).(timer)) = (Some 6, None).
Proof. by vm_compute. Qed.
