(* ===== verification/Block.v ===== *)
(** * Block devices: byte and sector access (qemu/block.c)

    A block device over a driver: the request checks, sector reads and writes,
    the byte accesses built from them, flushing, truncation, and the bitmap of
    dirty chunks used by block migration.  The driver is a record of functions
    on its own state, as [struct BlockDriver] is; [SectorStore] states what the
    block layer expects of one.

    Theorems: byte writes and reads refine an array of bytes for every
    alignment; the dirty bitmap and its counter agree; the last word of the
    bitmap lies outside its allocation for most disk sizes. *)

From Stdlib Require Import ZArith Lia.
From stdpp Require Import base option numbers list.
From S2P Require Import Prelude Bitops Stm.

Local Open Scope Z_scope.

Definition BDRV_SECTOR_BITS : Z := 9.
Definition BDRV_SECTOR_SIZE : Z := 512.
Definition BDRV_SECTORS_PER_DIRTY_CHUNK : Z := 2048.
Definition BDRV_O_NO_FLUSH : Z := 0x0200.
(** [BDRV_O_NOCACHE | BDRV_O_CACHE_WB | BDRV_O_NO_FLUSH] *)
Definition BDRV_O_CACHE_MASK : Z := 0x0260.

Definition EIO : Z := 5.
Definition ENOENT : Z := 2.
Definition EACCES : Z := 13.
Definition EBUSY : Z := 16.
Definition ENOMEDIUM : Z := 19.
Definition EINVAL : Z := 22.
Definition ENOSPC : Z := 28.
Definition ENOTSUP : Z := 4096.

(** The functions of [struct BlockDriver] that the operations call; the optional
    ones may be null.  A read returns its code and the bytes it stored in the
    buffer. *)
Record BlockDriver (D : Type) := mkDriver {
  drv_read : Z -> Z -> D -> Z * list Z * D;
  drv_write : Z -> list Z -> Z -> D -> Z * D;
  drv_flush : option (D -> Z * D);
  drv_getlength : option (D -> Z);
  drv_truncate : option (Z -> D -> Z * D);
  drv_is_inserted : option (D -> Z);
  drv_discard : option (Z -> Z -> D -> Z * D);
  drv_is_allocated : option (Z -> Z -> D -> Z * Z)
}.
Arguments mkDriver {_}.
Arguments drv_read {_}.
Arguments drv_write {_}.
Arguments drv_flush {_}.
Arguments drv_getlength {_}.
Arguments drv_truncate {_}.
Arguments drv_is_inserted {_}.
Arguments drv_discard {_}.
Arguments drv_is_allocated {_}.

(** The dirty bitmap: words of 32 bits ([unsigned long]) over an allocation of
    [alloc] bytes *)
Record DirtyBitmap := mkBitmap { words : list Z; alloc : Z }.

Definition load_word (bm : DirtyBitmap) (idx : Z) : option Z :=
  if (0 <=? idx) && (4 * idx + 4 <=? bm.(alloc)) then bm.(words) !! Z.to_nat idx else None.
Definition store_word (bm : DirtyBitmap) (idx v : Z) : DirtyBitmap :=
  mkBitmap (<[Z.to_nat idx := v]> bm.(words)) bm.(alloc).

Section Block.
Context {D : Type}.
(** The width of [size_t]: 32 or 64 *)
Context (size_bits : Z).

(** [struct BlockDriverState], as far as the operations below use it.  [opaque]
    is the state of the driver, [size_changes] counts the calls of [change_cb]. *)
Record BlockDriverState := mkBDS {
  drv : option (BlockDriver D);
  opaque : D;
  total_sectors : Z;
  read_only : bool;
  growable : bool;
  removable : bool;
  tray_open : bool;
  sg : bool;
  in_use : bool;
  open_flags : Z;
  dirty_bitmap : option DirtyBitmap;
  dirty_count : Z;
  wr_highest_sector : Z;
  size_changes : nat
}.

Definition set_drv (v : option (BlockDriver D)) (s : BlockDriverState) : BlockDriverState :=
  mkBDS v s.(opaque) s.(total_sectors) s.(read_only) s.(growable) s.(removable)
    s.(tray_open) s.(sg) s.(in_use) s.(open_flags) s.(dirty_bitmap) s.(dirty_count)
    s.(wr_highest_sector) s.(size_changes).
Definition set_opaque (v : D) (s : BlockDriverState) : BlockDriverState :=
  mkBDS s.(drv) v s.(total_sectors) s.(read_only) s.(growable) s.(removable) s.(tray_open)
    s.(sg) s.(in_use) s.(open_flags) s.(dirty_bitmap) s.(dirty_count)
    s.(wr_highest_sector) s.(size_changes).
Definition set_total_sectors (v : Z) (s : BlockDriverState) : BlockDriverState :=
  mkBDS s.(drv) s.(opaque) v s.(read_only) s.(growable) s.(removable) s.(tray_open) s.(sg)
    s.(in_use) s.(open_flags) s.(dirty_bitmap) s.(dirty_count) s.(wr_highest_sector)
    s.(size_changes).
Definition set_read_only (v : bool) (s : BlockDriverState) : BlockDriverState :=
  mkBDS s.(drv) s.(opaque) s.(total_sectors) v s.(growable) s.(removable) s.(tray_open)
    s.(sg) s.(in_use) s.(open_flags) s.(dirty_bitmap) s.(dirty_count)
    s.(wr_highest_sector) s.(size_changes).
Definition set_growable (v : bool) (s : BlockDriverState) : BlockDriverState :=
  mkBDS s.(drv) s.(opaque) s.(total_sectors) s.(read_only) v s.(removable) s.(tray_open)
    s.(sg) s.(in_use) s.(open_flags) s.(dirty_bitmap) s.(dirty_count)
    s.(wr_highest_sector) s.(size_changes).
Definition set_removable (v : bool) (s : BlockDriverState) : BlockDriverState :=
  mkBDS s.(drv) s.(opaque) s.(total_sectors) s.(read_only) s.(growable) v s.(tray_open)
    s.(sg) s.(in_use) s.(open_flags) s.(dirty_bitmap) s.(dirty_count)
    s.(wr_highest_sector) s.(size_changes).
Definition set_tray_open (v : bool) (s : BlockDriverState) : BlockDriverState :=
  mkBDS s.(drv) s.(opaque) s.(total_sectors) s.(read_only) s.(growable) s.(removable) v
    s.(sg) s.(in_use) s.(open_flags) s.(dirty_bitmap) s.(dirty_count)
    s.(wr_highest_sector) s.(size_changes).
Definition set_sg (v : bool) (s : BlockDriverState) : BlockDriverState :=
  mkBDS s.(drv) s.(opaque) s.(total_sectors) s.(read_only) s.(growable) s.(removable)
    s.(tray_open) v s.(in_use) s.(open_flags) s.(dirty_bitmap) s.(dirty_count)
    s.(wr_highest_sector) s.(size_changes).
Definition set_in_use (v : bool) (s : BlockDriverState) : BlockDriverState :=
  mkBDS s.(drv) s.(opaque) s.(total_sectors) s.(read_only) s.(growable) s.(removable)
    s.(tray_open) s.(sg) v s.(open_flags) s.(dirty_bitmap) s.(dirty_count)
    s.(wr_highest_sector) s.(size_changes).
Definition set_open_flags (v : Z) (s : BlockDriverState) : BlockDriverState :=
  mkBDS s.(drv) s.(opaque) s.(total_sectors) s.(read_only) s.(growable) s.(removable)
    s.(tray_open) s.(sg) s.(in_use) v s.(dirty_bitmap) s.(dirty_count)
    s.(wr_highest_sector) s.(size_changes).
Definition set_dirty_bitmap_field (v : option DirtyBitmap) (s : BlockDriverState) : BlockDriverState :=
  mkBDS s.(drv) s.(opaque) s.(total_sectors) s.(read_only) s.(growable) s.(removable)
    s.(tray_open) s.(sg) s.(in_use) s.(open_flags) v s.(dirty_count) s.(wr_highest_sector)
    s.(size_changes).
Definition set_dirty_count (v : Z) (s : BlockDriverState) : BlockDriverState :=
  mkBDS s.(drv) s.(opaque) s.(total_sectors) s.(read_only) s.(growable) s.(removable)
    s.(tray_open) s.(sg) s.(in_use) s.(open_flags) s.(dirty_bitmap) v
    s.(wr_highest_sector) s.(size_changes).
Definition set_wr_highest_sector (v : Z) (s : BlockDriverState) : BlockDriverState :=
  mkBDS s.(drv) s.(opaque) s.(total_sectors) s.(read_only) s.(growable) s.(removable)
    s.(tray_open) s.(sg) s.(in_use) s.(open_flags) s.(dirty_bitmap) s.(dirty_count) v
    s.(size_changes).
Definition set_size_changes (v : nat) (s : BlockDriverState) : BlockDriverState :=
  mkBDS s.(drv) s.(opaque) s.(total_sectors) s.(read_only) s.(growable) s.(removable)
    s.(tray_open) s.(sg) s.(in_use) s.(open_flags) s.(dirty_bitmap) s.(dirty_count)
    s.(wr_highest_sector) v.

Abbreviation M A := (SM BlockDriverState A).

(** ** Requests *)

Definition bdrv_is_inserted (bs : BlockDriverState) : bool :=
  match bs.(drv) with
  | None => false
  | Some d =>
      match d.(drv_is_inserted) with
      | None => negb bs.(tray_open)
      | Some f => c_true (f bs.(opaque))
      end
  end.

Definition bdrv_getlength (bs : BlockDriverState) : Z :=
  match bs.(drv) with
  | None => - ENOMEDIUM
  | Some d =>
      match d.(drv_getlength) with
      | Some f => if bs.(growable) || bs.(removable) then f bs.(opaque)
                  else to_signed 64 (bs.(total_sectors) * BDRV_SECTOR_SIZE)
      | None => to_signed 64 (bs.(total_sectors) * BDRV_SECTOR_SIZE)
      end
  end.

Definition bdrv_check_byte_request (bs : BlockDriverState) (offset size : Z) : Z :=
  if negb (bdrv_is_inserted bs) then - ENOMEDIUM
  else if bs.(growable) then 0
  else
    let len := bdrv_getlength bs in
    if offset <? 0 then - EIO
    else if (len <? offset) || (len - offset <? size) then - EIO
    else 0.

Definition bdrv_check_request (bs : BlockDriverState) (sector_num nb_sectors : Z) : Z :=
  bdrv_check_byte_request bs (to_signed 64 (sector_num * BDRV_SECTOR_SIZE))
    (wrap size_bits (nb_sectors * BDRV_SECTOR_SIZE)).

Definition bdrv_read (sector_num nb_sectors : Z) : M (Z * list Z) := fun bs =>
  match bs.(drv) with
  | None => Some (- ENOMEDIUM, [], bs)
  | Some d =>
      if c_true (bdrv_check_request bs sector_num nb_sectors) then Some (- EIO, [], bs)
      else
        let '(ret, buf, o) := d.(drv_read) sector_num nb_sectors bs.(opaque) in
        Some (ret, buf, set_opaque o bs)
  end.

(** ** The dirty bitmap *)

(** One turn of the loop of [set_dirty_bitmap] *)
Definition dirty_chunk (start : Z) (dirty : bool) (bm : DirtyBitmap) (count : Z)
    : option (DirtyBitmap * Z) :=
  let idx := wrap 32 (start `quot` 32) in
  let bit := wrap 32 (start `rem` 32) in
  val ← load_word bm idx;
  Some (if dirty then
          if negb (c_true (Z.land val (Z.shiftl 1 bit)))
          then (store_word bm idx (Z.lor val (Z.shiftl 1 bit)), count + 1)
          else (store_word bm idx val, count)
        else if c_true (Z.land val (Z.shiftl 1 bit))
        then (store_word bm idx (Z.land val (wrap 32 (Z.lnot (Z.shiftl 1 bit)))), count - 1)
        else (store_word bm idx val, count)).

Fixpoint dirty_loop (n : nat) (start : Z) (dirty : bool) (bm : DirtyBitmap) (count : Z)
    : option (DirtyBitmap * Z) :=
  match n with
  | O => Some (bm, count)
  | S n => '(bm, count) ← dirty_chunk start dirty bm count; dirty_loop n (start + 1) dirty bm count
  end.

Definition set_dirty_bitmap (sector_num nb_sectors : Z) (dirty : bool) : M unit := fun bs =>
  let start := sector_num `quot` BDRV_SECTORS_PER_DIRTY_CHUNK in
  let last := (sector_num + nb_sectors - 1) `quot` BDRV_SECTORS_PER_DIRTY_CHUNK in
  bm ← bs.(dirty_bitmap);
  '(bm, count) ← dirty_loop (Z.to_nat (last - start + 1)) start dirty bm bs.(dirty_count);
  Some (tt, set_dirty_bitmap_field (Some bm) (set_dirty_count count bs)).

Definition bdrv_set_dirty_tracking (enable : bool) (bs : BlockDriverState) : BlockDriverState :=
  let bs := set_dirty_count 0 bs in
  if enable then
    match bs.(dirty_bitmap) with
    | None =>
        let bitmap_size :=
          (Z.shiftr (bdrv_getlength bs) BDRV_SECTOR_BITS + BDRV_SECTORS_PER_DIRTY_CHUNK * 8 - 1)
            `quot` (BDRV_SECTORS_PER_DIRTY_CHUNK * 8) in
        set_dirty_bitmap_field
          (Some (mkBitmap (replicate (Z.to_nat ((bitmap_size + 3) / 4)) 0) bitmap_size)) bs
    | Some _ => bs
    end
  else set_dirty_bitmap_field None bs.

Definition bdrv_get_dirty (sector : Z) (bs : BlockDriverState) : option Z :=
  let chunk := sector `quot` BDRV_SECTORS_PER_DIRTY_CHUNK in
  match bs.(dirty_bitmap) with
  | Some bm =>
      if Z.shiftl sector BDRV_SECTOR_BITS <? bdrv_getlength bs then
        val ← load_word bm (chunk `quot` 32);
        Some (c_bool (c_true (Z.land val (Z.shiftl 1 (chunk `rem` 32)))))
      else Some 0
  | None => Some 0
  end.

Definition bdrv_reset_dirty (cur_sector nr_sectors : Z) : M unit :=
  set_dirty_bitmap cur_sector nr_sectors false.

Definition bdrv_get_dirty_count (bs : BlockDriverState) : Z := bs.(dirty_count).

(** ** Sector and byte writes *)

Definition bdrv_write (sector_num : Z) (buf : list Z) (nb_sectors : Z) : M Z := fun bs =>
  match bs.(drv) with
  | None => Some (- ENOMEDIUM, bs)
  | Some d =>
      if bs.(read_only) then Some (- EACCES, bs)
      else if c_true (bdrv_check_request bs sector_num nb_sectors) then Some (- EIO, bs)
      else
        '(_, bs) ← (if decide (bs.(dirty_bitmap) = None) then Some (tt, bs)
                    else set_dirty_bitmap sector_num nb_sectors true bs);
        let bs :=
          if bs.(wr_highest_sector) <? wrap 64 (sector_num + nb_sectors - 1)
          then set_wr_highest_sector (wrap 64 (sector_num + nb_sectors - 1)) bs else bs in
        let '(ret, o) := d.(drv_write) sector_num buf nb_sectors bs.(opaque) in
        Some (ret, set_opaque o bs)
  end.

(** The three parts of [bdrv_pread]: up to the first sector boundary, the
    whole sectors, the rest; [buf] is what the buffer holds so far. *)
Definition pread_last (buf : list Z) (sector_num count count1 : Z) : M (Z * list Z) :=
  if 0 <? count then
    '(ret, tmp_buf) ← bdrv_read sector_num 1;
    if ret <? 0 then mret (ret, buf)
    else mret (count1, buf ++ take (Z.to_nat count) tmp_buf)
  else mret (count1, buf).

Definition pread_sectors (buf : list Z) (sector_num count count1 : Z) : M (Z * list Z) :=
  let nb_sectors := Z.shiftr count BDRV_SECTOR_BITS in
  if 0 <? nb_sectors then
    '(ret, data) ← bdrv_read sector_num nb_sectors;
    if ret <? 0 then mret (ret, buf ++ data)
    else
      let len := Z.shiftl nb_sectors BDRV_SECTOR_BITS in
      pread_last (buf ++ data) (sector_num + nb_sectors) (count - len) count1
  else pread_last buf sector_num count count1.

(** [(BDRV_SECTOR_SIZE - offset) & (BDRV_SECTOR_SIZE - 1)], at most [count] *)
Definition head_len (offset count : Z) : Z :=
  let len := Z.land (BDRV_SECTOR_SIZE - offset) (BDRV_SECTOR_SIZE - 1) in
  if count <? len then count else len.

Definition bdrv_pread (offset count1 : Z) : M (Z * list Z) :=
  let len := head_len offset count1 in
  let sector_num := Z.shiftr offset BDRV_SECTOR_BITS in
  if 0 <? len then
    '(ret, tmp_buf) ← bdrv_read sector_num 1;
    if ret <? 0 then mret (ret, [])
    else
      let buf := take (Z.to_nat len)
                   (drop (Z.to_nat (Z.land offset (BDRV_SECTOR_SIZE - 1))) tmp_buf) in
      let count := count1 - len in
      if count =? 0 then mret (count1, buf)
      else pread_sectors buf (sector_num + 1) count count1
  else pread_sectors [] sector_num count1 count1.

(** [memcpy(tmp + at, buf, len)] *)
Definition overwrite (tmp : list Z) (at_ : nat) (buf : list Z) : list Z :=
  take at_ tmp ++ buf ++ drop (at_ + length buf) tmp.

Definition pwrite_last (sector_num : Z) (buf : list Z) (count count1 : Z) : M Z :=
  if 0 <? count then
    '(ret, tmp_buf) ← bdrv_read sector_num 1;
    if ret <? 0 then mret ret
    else
      ret ← bdrv_write sector_num (overwrite tmp_buf 0 (take (Z.to_nat count) buf)) 1;
      if ret <? 0 then mret ret else mret count1
  else mret count1.

Definition pwrite_sectors (sector_num : Z) (buf : list Z) (count count1 : Z) : M Z :=
  let nb_sectors := Z.shiftr count BDRV_SECTOR_BITS in
  if 0 <? nb_sectors then
    let len := Z.shiftl nb_sectors BDRV_SECTOR_BITS in
    ret ← bdrv_write sector_num (take (Z.to_nat len) buf) nb_sectors;
    if ret <? 0 then mret ret
    else pwrite_last (sector_num + nb_sectors) (drop (Z.to_nat len) buf) (count - len) count1
  else pwrite_last sector_num buf count count1.

Definition bdrv_pwrite (offset : Z) (buf : list Z) (count1 : Z) : M Z :=
  let len := head_len offset count1 in
  let sector_num := Z.shiftr offset BDRV_SECTOR_BITS in
  if 0 <? len then
    '(ret, tmp_buf) ← bdrv_read sector_num 1;
    if ret <? 0 then mret ret
    else
      let tmp_buf := overwrite tmp_buf (Z.to_nat (Z.land offset (BDRV_SECTOR_SIZE - 1)))
                       (take (Z.to_nat len) buf) in
      ret ← bdrv_write sector_num tmp_buf 1;
      if ret <? 0 then mret ret
      else
        let count := count1 - len in
        if count =? 0 then mret count1
        else pwrite_sectors (sector_num + 1) (drop (Z.to_nat len) buf) count count1
  else pwrite_sectors sector_num buf count1 count1.

(** ** Flushing, size and the smaller operations *)

Definition bdrv_flush : M Z := fun bs =>
  if c_true (Z.land bs.(open_flags) BDRV_O_NO_FLUSH) then Some (0, bs)
  else
    match bs.(drv) ≫= drv_flush with
    | Some f => let '(ret, o) := f bs.(opaque) in Some (ret, set_opaque o bs)
    | None => Some (0, bs)
    end.

Definition bdrv_pwrite_sync (offset : Z) (buf : list Z) (count : Z) : M Z :=
  ret ← bdrv_pwrite offset buf count;
  if ret <? 0 then mret ret
  else
    flags ← sm_get open_flags;
    (if c_true (Z.land flags BDRV_O_CACHE_MASK) then _ ← bdrv_flush; mret tt else mret tt);;
    mret 0.

Definition bdrv_write_sync (sector_num : Z) (buf : list Z) (nb_sectors : Z) : M Z :=
  bdrv_pwrite_sync (BDRV_SECTOR_SIZE * sector_num) buf (BDRV_SECTOR_SIZE * nb_sectors).

Definition refresh_total_sectors (hint : Z) : M Z := fun bs =>
  if bs.(sg) then Some (0, bs)
  else
    d ← bs.(drv);
    match d.(drv_getlength) with
    | Some f =>
        let length := f bs.(opaque) in
        if length <? 0 then Some (to_signed 32 length, bs)
        else Some (0, set_total_sectors (Z.shiftr length BDRV_SECTOR_BITS) bs)
    | None => Some (0, set_total_sectors hint bs)
    end.

Definition bdrv_in_use (bs : BlockDriverState) : bool := bs.(in_use).

Definition bdrv_set_in_use (v : bool) : M unit := fun bs =>
  if bool_decide (bs.(in_use) = v) then None else Some (tt, set_in_use v bs).

Definition bdrv_truncate (offset : Z) : M Z := fun bs =>
  match bs.(drv) with
  | None => Some (- ENOMEDIUM, bs)
  | Some d =>
      match d.(drv_truncate) with
      | None => Some (- ENOTSUP, bs)
      | Some f =>
          if bs.(read_only) then Some (- EACCES, bs)
          else if bdrv_in_use bs then Some (- EBUSY, bs)
          else
            let '(ret, o) := f offset bs.(opaque) in
            let bs := set_opaque o bs in
            if ret =? 0 then
              '(ret, bs) ← refresh_total_sectors (Z.shiftr offset BDRV_SECTOR_BITS) bs;
              Some (ret, set_size_changes (S bs.(size_changes)) bs)
            else Some (ret, bs)
      end
  end.

Definition bdrv_get_geometry (bs : BlockDriverState) : Z :=
  let length := bdrv_getlength bs in
  if length <? 0 then 0 else Z.shiftr length BDRV_SECTOR_BITS.

Definition bdrv_discard (sector_num nb_sectors : Z) : M Z := fun bs =>
  match bs.(drv) with
  | None => Some (- ENOMEDIUM, bs)
  | Some d =>
      match d.(drv_discard) with
      | None => Some (0, bs)
      | Some f => let '(ret, o) := f sector_num nb_sectors bs.(opaque) in Some (ret, set_opaque o bs)
      end
  end.

(** The result and [*pnum] *)
Definition bdrv_is_allocated (sector_num nb_sectors : Z) (bs : BlockDriverState)
    : option (Z * Z) :=
  d ← bs.(drv);
  match d.(drv_is_allocated) with
  | None =>
      if bs.(total_sectors) <=? sector_num then Some (0, 0)
      else
        let n := bs.(total_sectors) - sector_num in
        Some (1, if n <? nb_sectors then n else nb_sectors)
  | Some f => Some (f sector_num nb_sectors bs.(opaque))
  end.
End Block.

(** ** What the block layer expects of a driver *)

(** The bytes of a device are a function of their position. *)
Definition bytes_at (f : Z -> Z) (off n : Z) : list Z := f <$> seqZ off n.

Definition splice (f : Z -> Z) (off : Z) (buf : list Z) (p : Z) : Z :=
  if off <=? p then default (f p) (buf !! Z.to_nat (p - off)) else f p.

(** A driver over [content]: a read that succeeds returns the bytes of its
    sectors, a write that succeeds replaces them, and no operation touches
    other sectors, even when it fails.  Requests have the sizes that fit the
    [int] and [int64_t] of their lengths and positions in bytes. *)
Definition request_fits (s n : Z) : Prop := 0 <= s < 2 ^ 54 /\ 0 <= n < 2 ^ 22 /\ s + n <= 2 ^ 54.

Class SectorStore {D} (d : BlockDriver D) := {
  content : D -> Z -> Z;
  read_law : forall s n o r l o', request_fits s n -> drv_read d s n o = (r, l, o') ->
    (forall p, content o' p = content o p) /\ Z.of_nat (length l) <= 512 * n /\
    (0 <= r -> l = bytes_at (content o) (512 * s) (512 * n));
  write_law : forall s buf n o r o', request_fits s n -> Z.of_nat (length buf) = 512 * n ->
    drv_write d s buf n o = (r, o') ->
    (forall p, ~ (512 * s <= p < 512 * (s + n)) -> content o' p = content o p) /\
    (0 <= r -> forall p, content o' p = splice (content o) (512 * s) buf p);
  flush_law : forall f o r o', drv_flush d = Some f -> f o = (r, o') ->
    forall p, content o' p = content o p
}.

Section splice.
Implicit Types (f : Z -> Z) (buf : list Z).

Lemma bytes_at_length f off n : 0 <= n -> Z.of_nat (length (bytes_at f off n)) = n.
Proof. intros. unfold bytes_at. rewrite length_fmap, length_seqZ. lia. Qed.

Lemma bytes_at_lookup f off n (i : nat) :
  Z.of_nat i < n -> bytes_at f off n !! i = Some (f (off + Z.of_nat i)).
Proof. intros. unfold bytes_at. rewrite list_lookup_fmap, lookup_seqZ_lt by lia. done. Qed.

Lemma bytes_at_ext f g off n :
  (forall p, off <= p < off + n -> f p = g p) -> bytes_at f off n = bytes_at g off n.
Proof.
  intros H. apply list_fmap_ext. intros i x Hi. apply lookup_seqZ in Hi. apply H. lia.
Qed.

Lemma bytes_at_app f off n m :
  0 <= n -> 0 <= m -> bytes_at f off n ++ bytes_at f (off + n) m = bytes_at f off (n + m).
Proof. intros. unfold bytes_at. by rewrite <- fmap_app, <- seqZ_app. Qed.

Lemma bytes_at_slice f off n (k m : nat) :
  Z.of_nat k + Z.of_nat m <= n ->
  take m (drop k (bytes_at f off n)) = bytes_at f (off + Z.of_nat k) (Z.of_nat m).
Proof.
  intros H. apply list_eq. intros i. destruct (decide (i < m)%nat).
  - rewrite lookup_take_lt, lookup_drop, !bytes_at_lookup by lia. f_equal. f_equal. lia.
  - rewrite lookup_take_ge by lia. symmetry. apply lookup_ge_None.
    pose proof (bytes_at_length f (off + Z.of_nat k) (Z.of_nat m)). lia.
Qed.

Lemma splice_out f off buf p :
  ~ (off <= p < off + Z.of_nat (length buf)) -> splice f off buf p = f p.
Proof.
  intros H. unfold splice. destruct (Z.leb_spec off p); [| done].
  by rewrite lookup_ge_None_2 by lia.
Qed.

Lemma splice_in f off buf p b :
  off <= p -> buf !! Z.to_nat (p - off) = Some b -> splice f off buf p = b.
Proof. intros H E. unfold splice. rewrite (proj2 (Z.leb_le off p)) by lia. by rewrite E. Qed.

Lemma splice_ext f g off buf p : (forall p, f p = g p) -> splice f off buf p = splice g off buf p.
Proof. intros H. unfold splice. by rewrite H. Qed.

Lemma splice_nil f off p : splice f off [] p = f p.
Proof. apply splice_out. cbn. lia. Qed.

Lemma splice_app f off a b p :
  splice (splice f off a) (off + Z.of_nat (length a)) b p = splice f off (a ++ b) p.
Proof.
  unfold splice at 1 3. rewrite lookup_app.
  destruct (Z.leb_spec (off + Z.of_nat (length a)) p).
  - rewrite (proj2 (Z.leb_le off p)) by lia. rewrite (lookup_ge_None_2 a) by lia.
    rewrite splice_out by lia. do 2 f_equal. lia.
  - unfold splice. destruct (Z.leb_spec off p); [| done].
    destruct (lookup_lt_is_Some_2 a (Z.to_nat (p - off))) as [x ->]; [lia | done].
Qed.

(** Replacing a whole sector by a copy of it with [b] stored inside is storing [b]. *)
Lemma splice_overwrite f off n (k : nat) b p :
  Z.of_nat k + Z.of_nat (length b) <= n ->
  splice f off (overwrite (bytes_at f off n) k b) p = splice f (off + Z.of_nat k) b p.
Proof.
  intros H. pose proof (bytes_at_length f off n) as Hl.
  set (l := bytes_at f off n) in *. assert (Hk : (length (take k l) = k)%nat).
  { rewrite length_take. lia. }
  unfold overwrite. rewrite app_assoc, <- splice_app, length_app, Hk.
  assert (Hd : drop (k + length b) l = bytes_at f (off + Z.of_nat (k + length b))
                 (n - Z.of_nat (k + length b))).
  { rewrite <- (firstn_all (drop (k + length b) l)), length_drop. unfold l at 2.
    rewrite bytes_at_slice by lia. f_equal. lia. }
  rewrite Hd. destruct (decide (off + Z.of_nat (k + length b) <= p < off + n)) as [Hin | Hout].
  - rewrite (splice_in _ _ _ _ (f p)); [| lia |].
    + rewrite splice_out by lia. done.
    + rewrite bytes_at_lookup by lia. f_equal. f_equal. lia.
  - rewrite splice_out by (rewrite bytes_at_length by lia; lia).
    rewrite <- splice_app, Hk. apply splice_ext. intros q.
    destruct (decide (off <= q < off + Z.of_nat k)) as [Hq | Hq].
    + apply splice_in; [lia |]. rewrite lookup_take_lt by lia. unfold l.
      rewrite bytes_at_lookup by lia. f_equal. f_equal. lia.
    + apply splice_out. rewrite Hk. lia.
Qed.
End splice.

(** ** Byte access refines an array of bytes *)

Section refine.
Context {D : Type} (size_bits : Z) (d : BlockDriver D) {store : SectorStore d}.
Implicit Types (bs : BlockDriverState (D := D)) (f : Z -> Z) (buf : list Z).

Definition plain bs : Prop := bs.(drv) = Some d /\ bs.(dirty_bitmap) = None.
Definition view bs : Z -> Z := content bs.(opaque).
Definition same_dev bs bs' : Prop :=
  exists o w, bs' = set_opaque o (set_wr_highest_sector w bs).

Lemma same_dev_refl bs : same_dev bs bs.
Proof. exists bs.(opaque), bs.(wr_highest_sector). by destruct bs. Qed.
Lemma same_dev_trans bs1 bs2 bs3 : same_dev bs1 bs2 -> same_dev bs2 bs3 -> same_dev bs1 bs3.
Proof. intros (o & w & ->) (o' & w' & ->). by exists o', w'. Qed.
Lemma same_dev_plain bs bs' : same_dev bs bs' -> plain bs -> plain bs'.
Proof. by intros (o & w & ->). Qed.
#[local] Hint Resolve same_dev_refl same_dev_plain : core.

Lemma bdrv_read_runs bs s n :
  plain bs -> request_fits s n ->
  runs (bdrv_read size_bits s n) bs (fun r bs' =>
    same_dev bs bs' /\ (forall p, view bs' p = view bs p) /\ Z.of_nat (length r.2) <= 512 * n /\
    (0 <= r.1 -> r.2 = bytes_at (view bs) (512 * s) (512 * n))).
Proof.
  intros [Hd _] Hs. unfold runs, bdrv_read. rewrite Hd.
  destruct (c_true _).
  { do 2 eexists. split; [done |]. cbn. split; [done |]. split; [done |].
    unfold request_fits in Hs. split; [lia |]. unfold EIO. lia. }
  destruct (drv_read d s n bs.(opaque)) as [[r l] o] eqn:E.
  destruct (read_law s n _ _ _ _ Hs E) as (Hc & Hlen & Hl).
  do 2 eexists. split; [done |]. split; [| done].
  exists o, bs.(wr_highest_sector). by destruct bs.
Qed.

Lemma bdrv_write_runs bs s buf n :
  plain bs -> request_fits s n -> Z.of_nat (length buf) = 512 * n ->
  runs (bdrv_write size_bits s buf n) bs (fun r bs' =>
    same_dev bs bs' /\
    (forall p, ~ (512 * s <= p < 512 * (s + n)) -> view bs' p = view bs p) /\
    (0 <= r -> forall p, view bs' p = splice (view bs) (512 * s) buf p)).
Proof.
  intros [Hd Hb] Hs Hl. unfold runs, bdrv_write. rewrite Hd.
  destruct (read_only bs).
  { do 2 eexists. split; [done |]. split; [done |]. split; [done |]. unfold EACCES. lia. }
  destruct (c_true _).
  { do 2 eexists. split; [done |]. split; [done |]. split; [done |]. unfold EIO. lia. }
  rewrite decide_True by done. bind_step. set (b1 := if _ <? _ then _ else _).
  assert (same_dev bs b1 /\ b1.(opaque) = bs.(opaque)) as [Hsame ->].
  { unfold b1. case_match; [| done]. split; [| by destruct bs].
    exists bs.(opaque), (wrap 64 (s + n - 1)). by destruct bs. }
  destruct (drv_write d s buf n bs.(opaque)) as [r o] eqn:E.
  destruct (write_law s buf n _ _ _ Hs Hl E) as [Hout Hin].
  do 2 eexists. split; [done |]. split; [| done].
  apply (same_dev_trans _ _ _ Hsame). exists o, b1.(wr_highest_sector). by destruct b1.
Qed.

(** What a byte write leaves behind: on success the bytes are replaced, and
    in any case nothing changes outside the sectors it touches. *)
Definition wrote bs bs' (off : Z) buf (ok : bool) : Prop :=
  same_dev bs bs' /\
  (forall p, ~ (512 * (off / 512) <= p < 512 * ((off + Z.of_nat (length buf) + 511) / 512)) ->
     view bs' p = view bs p) /\
  (ok = true -> forall p, view bs' p = splice (view bs) off buf p).

Lemma wrote_same bs off buf : wrote bs bs off buf false.
Proof. by split; [| split]. Qed.

Lemma wrote_read bs bs1 bs2 off buf ok :
  same_dev bs bs1 -> (forall p, view bs1 p = view bs p) -> wrote bs1 bs2 off buf ok ->
  wrote bs bs2 off buf ok.
Proof.
  intros Hs Hv (Hs' & Hout & Hin). split; [by eapply same_dev_trans |]. split.
  - intros p Hp. by rewrite Hout.
  - intros Hok p. rewrite Hin by done. by apply splice_ext.
Qed.

Lemma wrote_app bs bs1 bs2 off a b ok :
  (off + Z.of_nat (length a)) mod 512 = 0 \/ b = [] ->
  wrote bs bs1 off a true -> wrote bs1 bs2 (off + Z.of_nat (length a)) b ok ->
  wrote bs bs2 off (a ++ b) ok.
Proof.
  intros Hal (Hs1 & Ho1 & Hi1) (Hs2 & Ho2 & Hi2). split; [by eapply same_dev_trans |]. split.
  - intros p Hp. rewrite length_app in Hp.
    rewrite Ho2, Ho1; [done | |]; destruct Hal as [Hal | ->]; cbn [length] in *;
      Z.to_euclidean_division_equations; lia.
  - intros Hok p. rewrite Hi2 by done. rewrite <- splice_app.
    apply splice_ext. by apply Hi1.
Qed.

Lemma wrote_first bs bs1 off a b :
  wrote bs bs1 off a false -> wrote bs bs1 off (a ++ b) false.
Proof.
  intros (Hs1 & Ho1 & _). split; [done |]. split; [| done]. intros p Hp. apply Ho1.
  rewrite length_app in Hp. Z.to_euclidean_division_equations; lia.
Qed.

(** Storing [b] inside one sector by reading it, changing it and writing it back *)
Lemma write_in_sector bs s (k : nat) b (next : SM BlockDriverState Z) Q :
  plain bs -> 0 <= s < 2 ^ 54 -> Z.of_nat k + Z.of_nat (length b) <= 512 -> (0 < length b)%nat ->
  (forall r bs', r < 0 -> wrote bs bs' (512 * s + Z.of_nat k) b false -> Q r bs') ->
  (forall bs', plain bs' -> wrote bs bs' (512 * s + Z.of_nat k) b true -> runs next bs' Q) ->
  runs ('(ret, tmp) ← bdrv_read size_bits s 1;
        if ret <? 0 then mret ret
        else ret ← bdrv_write size_bits s (overwrite tmp k b) 1;
             if ret <? 0 then mret ret else next) bs Q.
Proof.
  intros Hp Hs Hk Hb Hbad Hgood. apply runs_bind.
  eapply runs_mono; [apply bdrv_read_runs; [done | unfold request_fits; lia] |].
  intros [r l] bs1 (Hsame & Hv & Hlen' & Hl). cbn [fst snd] in *. destruct (Z.ltb_spec r 0).
  { apply runs_ret, Hbad; [done |]. apply (wrote_read _ _ _ _ _ _ Hsame Hv), wrote_same. }
  rewrite Hl by lia. pose proof (bytes_at_length (view bs) (512 * s) (512 * 1)) as Hlen.
  apply runs_bind. eapply runs_mono; [apply bdrv_write_runs; [by eauto | unfold request_fits; lia |] |].
  { unfold overwrite. rewrite !length_app, length_take, length_drop. lia. }
  intros r' bs2 (Hsame2 & Ho & Hi).
  assert (Hw : wrote bs bs2 (512 * s + Z.of_nat k) b (0 <=? r')).
  { apply (wrote_read _ _ _ _ _ _ Hsame Hv). split; [done |]. split.
    - intros p Hout. apply Ho. Z.to_euclidean_division_equations; lia.
    - intros Hr p. rewrite Hi by lia. rewrite (splice_ext _ (view bs)) by done.
      rewrite splice_overwrite by lia. apply splice_ext. intros q. by rewrite Hv. }
  destruct (Z.ltb_spec r' 0).
  - apply runs_ret, Hbad; [done |]. by rewrite (proj2 (Z.leb_gt 0 r')) in Hw by lia.
  - apply Hgood; [by eauto |]. by rewrite (proj2 (Z.leb_le 0 r')) in Hw by lia.
Qed.

(** The outcome of a byte write of [buf] at [off] that reports [n] bytes *)
Definition outcome bs off buf n (r : Z) bs' : Prop :=
  (r = n \/ r < 0) /\ wrote bs bs' off buf (0 <=? r).

Lemma outcome_bad bs off buf n r bs' :
  r < 0 -> wrote bs bs' off buf false -> outcome bs off buf n r bs'.
Proof. intros. split; [by right |]. by rewrite (proj2 (Z.leb_gt 0 r)) by lia. Qed.

Lemma outcome_good bs off buf n bs' :
  0 <= n -> wrote bs bs' off buf true -> outcome bs off buf n n bs'.
Proof. intros. split; [by left |]. by rewrite (proj2 (Z.leb_le 0 n)) by lia. Qed.

Lemma outcome_app bs bs1 bs2 off a b n r :
  (off + Z.of_nat (length a)) mod 512 = 0 \/ b = [] ->
  wrote bs bs1 off a true -> outcome bs1 (off + Z.of_nat (length a)) b n r bs2 ->
  outcome bs off (a ++ b) n r bs2.
Proof. intros Hal H1 [Hr H2]. split; [done |]. by eapply wrote_app. Qed.

Lemma pwrite_last_runs bs s buf n :
  plain bs -> 0 <= s < 2 ^ 54 -> Z.of_nat (length buf) < 512 -> 0 <= n ->
  runs (pwrite_last size_bits s buf (Z.of_nat (length buf)) n) bs (outcome bs (512 * s) buf n).
Proof.
  intros Hp Hs Hlen Hn. unfold pwrite_last. destruct (Z.ltb_spec 0 (Z.of_nat (length buf))).
  - rewrite Nat2Z.id, firstn_all.
    apply (write_in_sector bs s 0 buf); [done | done | lia | lia | |];
      rewrite Z.add_0_r; [by apply outcome_bad |].
    intros bs' _ Hw. by apply runs_ret, outcome_good.
  - destruct buf; [| cbn in *; lia]. apply runs_ret, outcome_good; [done |].
    split; [done |]. split; [done |]. intros _ p. by rewrite splice_nil.
Qed.

Lemma pwrite_sectors_runs bs s buf n :
  plain bs -> 0 <= s -> Z.of_nat (length buf) < 2 ^ 31 ->
  512 * s + Z.of_nat (length buf) < 2 ^ 63 -> 0 <= n ->
  runs (pwrite_sectors size_bits s buf (Z.of_nat (length buf)) n) bs (outcome bs (512 * s) buf n).
Proof.
  intros Hp Hs Hint Hpos Hn. unfold pwrite_sectors, BDRV_SECTOR_BITS.
  rewrite Z.shiftr_div_pow2, Z.shiftl_mul_pow2 by lia. change (2 ^ 9) with 512.
  set (nb := Z.of_nat (length buf) / 512). destruct (Z.ltb_spec 0 nb).
  - set (a := take (Z.to_nat (nb * 512)) buf). set (b := drop (Z.to_nat (nb * 512)) buf).
    assert (Ha : Z.of_nat (length a) = 512 * nb).
    { unfold a. rewrite length_take. subst nb. Z.to_euclidean_division_equations; lia. }
    assert (Hab : buf = a ++ b) by (symmetry; apply take_drop).
    assert (Hl : Z.of_nat (length buf) = 512 * nb + Z.of_nat (length b)).
    { rewrite Hab at 1. rewrite length_app. lia. }
    assert (Hb : Z.of_nat (length b) < 512).
    { clearbody a b. subst nb. Z.to_euclidean_division_equations; lia. }
    apply runs_bind. eapply runs_mono; [apply (bdrv_write_runs bs s a nb); [done | unfold request_fits; lia | done] |].
    intros r bs1 (Hsame & Ho & Hi).
    assert (Hw : wrote bs bs1 (512 * s) a (0 <=? r)).
    { split; [done |]. split.
      - intros p Hout. apply Ho. Z.to_euclidean_division_equations; lia.
      - intros Hr. apply Hi. lia. }
    destruct (Z.ltb_spec r 0).
    { apply runs_ret, outcome_bad; [done |]. rewrite (proj2 (Z.leb_gt 0 r)) in Hw by lia.
      rewrite Hab. by apply wrote_first. }
    rewrite (proj2 (Z.leb_le 0 r)) in Hw by lia.
    replace (Z.of_nat (length buf) - nb * 512) with (Z.of_nat (length b)) by lia.
    eapply runs_mono; [apply pwrite_last_runs; [by eauto | lia | done | done] |].
    intros r' bs2 Hout. rewrite Hab. eapply outcome_app; [| done |].
    + left. rewrite Ha. Z.to_euclidean_division_equations; lia.
    + rewrite Ha. by replace (512 * s + 512 * nb) with (512 * (s + nb)) by lia.
  - apply pwrite_last_runs; [done | lia | | done].
    subst nb. Z.to_euclidean_division_equations; lia.
Qed.

(** The first part ends at a sector boundary or at the end of the request. *)
Lemma head_len_spec off n :
  0 <= n -> 0 <= head_len off n <= n /\ (head_len off n = 0 -> off mod 512 = 0 \/ n = 0) /\
  off mod 512 + head_len off n <= 512 /\
  ((off + head_len off n) mod 512 = 0 \/ head_len off n = n).
Proof.
  intros Hn. unfold head_len, BDRV_SECTOR_SIZE. change (512 - 1) with (Z.ones 9).
  rewrite Z.land_ones by lia. change (2 ^ 9) with 512.
  destruct (Z.ltb_spec n ((512 - off) mod 512)); Z.to_euclidean_division_equations; lia.
Qed.

Lemma land_sector off : Z.land off (BDRV_SECTOR_SIZE - 1) = off mod 512.
Proof. apply (Z.land_ones off 9). lia. Qed.

Lemma shiftr_sector off : Z.shiftr off BDRV_SECTOR_BITS = off / 512.
Proof. apply (Z.shiftr_div_pow2 off 9). lia. Qed.

Lemma bdrv_pwrite_runs bs off buf :
  plain bs -> 0 <= off -> Z.of_nat (length buf) < 2 ^ 31 -> off + Z.of_nat (length buf) < 2 ^ 63 ->
  runs (bdrv_pwrite size_bits off buf (Z.of_nat (length buf))) bs
    (outcome bs off buf (Z.of_nat (length buf))).
Proof.
  intros Hp Hoff. set (n := Z.of_nat (length buf)). intros Hint Hlim. assert (Hn : 0 <= n) by lia.
  unfold bdrv_pwrite. rewrite land_sector, shiftr_sector.
  pose proof (head_len_spec off n ltac:(lia)) as (Hl & Hl0 & Hk & Hal). set (len := head_len off n) in *.
  assert (Hs : 0 <= off / 512 < 2 ^ 54) by (Z.to_euclidean_division_equations; lia).
  pose proof (Z.div_mod off 512 ltac:(lia)) as Hdm. pose proof (Z.mod_pos_bound off 512 ltac:(lia)).
  destruct (Z.ltb_spec 0 len).
  - set (a := take (Z.to_nat len) buf). set (b := drop (Z.to_nat len) buf).
    assert (Ha : Z.of_nat (length a) = len) by (unfold a; rewrite length_take; lia).
    assert (Hab : buf = a ++ b) by (symmetry; apply take_drop).
    assert (Hb : n = len + Z.of_nat (length b)).
    { unfold n. rewrite Hab at 1. rewrite length_app. lia. }
    assert (Hpos : 512 * (off / 512) + Z.of_nat (Z.to_nat (off mod 512)) = off) by lia.
    apply (write_in_sector bs (off / 512) (Z.to_nat (off mod 512)) a);
      [done | done | lia | lia | |]; rewrite Hpos.
    { intros r bs' Hr Hw. apply outcome_bad; [done |]. rewrite Hab. by apply wrote_first. }
    intros bs1 Hp1 Hw. destruct (Z.eqb_spec (n - len) 0) as [E | E].
    + apply runs_ret, outcome_good; [done |]. destruct b; [| cbn in *; lia].
      by rewrite Hab, app_nil_r.
    + replace (n - len) with (Z.of_nat (length b)) by lia.
      assert (Hend : (off + Z.of_nat (length a)) mod 512 = 0) by (rewrite Ha; destruct Hal; [done | lia]).
      assert (Hnext : off + Z.of_nat (length a) = 512 * (off / 512 + 1)).
      { rewrite Ha in *. Z.to_euclidean_division_equations; lia. }
      eapply runs_mono; [apply pwrite_sectors_runs; [done | lia..] |].
      intros r bs2 Hout. rewrite Hab. eapply outcome_app; [by left | done |].
      by rewrite Hnext.
  - eapply runs_mono; [apply pwrite_sectors_runs; [done | fold n; lia..] |]. intros r bs' Hout.
    destruct Hl0 as [Hl0 | Hl0]; [lia | |].
    + by replace (512 * (off / 512)) with off in Hout by lia.
    + destruct buf; [| cbn in *; lia]. destruct Hout as [Hr (Hsame & Ho & Hi)].
      split; [done |]. split; [done |]. split.
      * intros q Hq. apply Ho. cbn [length] in *. Z.to_euclidean_division_equations; lia.
      * intros Hok q. rewrite Hi by done. by rewrite !splice_nil.
Qed.

(** What a byte read returns *)
Definition read_outcome bs off n (r : Z * list Z) bs' : Prop :=
  same_dev bs bs' /\ (forall p, view bs' p = view bs p) /\ Z.of_nat (length r.2) <= n /\
  (r.1 = n /\ r.2 = bytes_at (view bs) off n \/ r.1 < 0).

Lemma read_outcome_ok bs off n bs' :
  0 <= n -> same_dev bs bs' -> (forall p, view bs' p = view bs p) ->
  read_outcome bs off n (n, bytes_at (view bs) off n) bs'.
Proof.
  intros Hn Hs Hv. split; [done |]. split; [done |]. cbn [fst snd]. rewrite bytes_at_length by done.
  split; [lia | by left].
Qed.

Lemma read_outcome_bad bs off n r l bs' :
  r < 0 -> Z.of_nat (length l) <= n -> same_dev bs bs' -> (forall p, view bs' p = view bs p) ->
  read_outcome bs off n (r, l) bs'.
Proof. intros Hr Hl Hs Hv. split; [done |]. split; [done |]. split; [done | by right]. Qed.

Lemma pread_last_runs bs s off n m :
  plain bs -> 0 <= s < 2 ^ 54 -> 0 <= m < 512 -> m <= n -> 512 * s = off + (n - m) ->
  runs (pread_last size_bits (bytes_at (view bs) off (n - m)) s m n) bs (read_outcome bs off n).
Proof.
  intros Hp Hs Hm Hn Hpos. unfold pread_last. destruct (Z.ltb_spec 0 m).
  - apply runs_bind. eapply runs_mono; [apply bdrv_read_runs; [done | unfold request_fits; lia] |].
    intros [r l] bs1 (Hsame & Hv & Hlen' & Hl). cbn [fst snd] in *. destruct (Z.ltb_spec r 0).
    { apply runs_ret, read_outcome_bad; [done | rewrite bytes_at_length; lia | done | done]. }
    apply runs_ret. rewrite Hl by done. rewrite <- (drop_0 (bytes_at (view bs) (512 * s) _)).
    rewrite bytes_at_slice by lia. rewrite Z2Nat.id, Hpos by lia. cbn [Z.of_nat].
    rewrite Z.add_0_r, bytes_at_app by lia. replace (n - m + m) with n by lia.
    apply read_outcome_ok; [lia | done | done].
  - apply runs_ret. replace (n - m) with n by lia. apply read_outcome_ok; [lia | done | done].
Qed.

Lemma read_outcome_after bs bs1 off n r bs2 :
  same_dev bs bs1 -> (forall p, view bs1 p = view bs p) -> read_outcome bs1 off n r bs2 ->
  read_outcome bs off n r bs2.
Proof.
  intros Hs Hv (Hs2 & Hv2 & Hlen & Hr). split; [by eapply same_dev_trans |].
  split; [intros p; by rewrite Hv2 |]. split; [done |].
  destruct Hr as [[E1 E2] | Hr]; [left | by right]. split; [done |]. rewrite E2.
  apply bytes_at_ext. auto.
Qed.

Lemma pread_sectors_runs bs s off n m :
  plain bs -> 0 <= s < 2 ^ 54 -> 0 <= m <= n -> n < 2 ^ 31 -> 512 * s + m < 2 ^ 63 -> (m = 0 \/ 512 * s = off + (n - m)) ->
  runs (pread_sectors size_bits (bytes_at (view bs) off (n - m)) s m n) bs (read_outcome bs off n).
Proof.
  intros Hp Hs Hm Hint Hend Hpos. unfold pread_sectors, BDRV_SECTOR_BITS.
  rewrite Z.shiftr_div_pow2, Z.shiftl_mul_pow2 by lia. change (2 ^ 9) with 512.
  set (nb := m / 512). destruct (Z.ltb_spec 0 nb).
  - assert (Hrest : 0 <= m - nb * 512 < 512).
    { subst nb. Z.to_euclidean_division_equations; lia. }
    apply runs_bind. eapply runs_mono; [apply (bdrv_read_runs bs s nb); [done |] |].
    { unfold request_fits. subst nb. Z.to_euclidean_division_equations; lia. }
    intros [r l] bs1 (Hsame & Hv & Hlen' & Hl). cbn [fst snd] in *. destruct (Z.ltb_spec r 0).
    { apply runs_ret, read_outcome_bad; [done | | done | done].
      rewrite length_app, Nat2Z.inj_add, bytes_at_length; subst nb;
        Z.to_euclidean_division_equations; lia. }
    rewrite Hl by done. replace (512 * s) with (off + (n - m)) by lia.
    rewrite bytes_at_app, (bytes_at_ext _ (view bs1)) by (done || lia).
    replace (n - m + 512 * nb) with (n - (m - nb * 512)) by lia.
    eapply runs_mono; [apply pread_last_runs; [by eauto | lia..] |].
    intros r' bs2. by apply read_outcome_after.
  - destruct Hpos as [-> | Hpos].
    + unfold pread_last. cbn [Z.ltb Z.compare]. rewrite Z.sub_0_r.
      apply runs_ret, read_outcome_ok; [lia | done | done].
    + apply pread_last_runs; [done | done | | lia | done].
      subst nb. Z.to_euclidean_division_equations; lia.
Qed.

Lemma bdrv_pread_runs bs off n :
  plain bs -> 0 <= off -> 0 <= n < 2 ^ 31 -> off + n < 2 ^ 63 ->
  runs (bdrv_pread size_bits off n) bs (read_outcome bs off n).
Proof.
  intros Hp Hoff Hn Hend. unfold bdrv_pread. rewrite land_sector, shiftr_sector.
  pose proof (head_len_spec off n ltac:(lia)) as (Hl & Hl0 & Hk & Hal). set (len := head_len off n) in *.
  assert (Hs : 0 <= off / 512 < 2 ^ 54) by (Z.to_euclidean_division_equations; lia).
  pose proof (Z.div_mod off 512 ltac:(lia)) as Hdm. pose proof (Z.mod_pos_bound off 512 ltac:(lia)).
  destruct (Z.ltb_spec 0 len).
  - apply runs_bind. eapply runs_mono; [apply bdrv_read_runs; [done | unfold request_fits; lia] |].
    intros [r l] bs1 (Hsame & Hv & Hlen' & Hl'). cbn [fst snd] in *. destruct (Z.ltb_spec r 0).
    { apply runs_ret, read_outcome_bad; [done | cbn; lia | done | done]. }
    rewrite Hl' by done. rewrite bytes_at_slice by lia.
    replace (512 * (off / 512) + Z.of_nat (Z.to_nat (off mod 512))) with off by lia.
    rewrite Z2Nat.id by lia. destruct (Z.eqb_spec (n - len) 0).
    + apply runs_ret. replace len with n by lia. apply read_outcome_ok; [lia | done | done].
    + rewrite (bytes_at_ext _ (view bs1)) by auto. replace len with (n - (n - len)) at 1 by lia.
      assert (Hnext : off + len = 512 * (off / 512 + 1)).
      { destruct Hal; [| lia]. Z.to_euclidean_division_equations; lia. }
      eapply runs_mono; [apply pread_sectors_runs; [by eauto | lia | lia | lia | lia |] |].
      * right. lia.
      * intros r' bs2. by apply read_outcome_after.
  - replace (@nil Z) with (bytes_at (view bs) off (n - n)) by (by rewrite Z.sub_diag).
    apply pread_sectors_runs; [done | done | lia | lia | lia |].
    destruct Hl0 as [| ->]; [lia | right; lia | by left].
Qed.
End refine.

(** ** The dirty bitmap and its counter *)

(** How many of the first [n] positions satisfy [p] *)
Fixpoint population (p : Z -> bool) (n : nat) : Z :=
  match n with
  | O => 0
  | S n => population p n + c_bool (p (Z.of_nat n))
  end.

Lemma population_ext p q n :
  (forall i, 0 <= i < Z.of_nat n -> p i = q i) -> population p n = population q n.
Proof.
  induction n as [| n IH]; intros H; [done |]. cbn [population].
  rewrite IH by (intros; apply H; lia). by rewrite H by lia.
Qed.

Lemma population_flip p q n c :
  0 <= c < Z.of_nat n -> (forall i, i <> c -> q i = p i) ->
  population q n = population p n + c_bool (q c) - c_bool (p c).
Proof.
  induction n as [| n IH]; intros Hc H; [lia |]. cbn [population].
  destruct (decide (c = Z.of_nat n)) as [-> | Hne].
  - rewrite (population_ext q p) by (intros; apply H; lia). lia.
  - rewrite IH by (done || lia). rewrite (H (Z.of_nat n)) by lia. lia.
Qed.

(** The allocation is inside the words of the model, and they have 32 bits. *)
Definition bitmap_wf (bm : DirtyBitmap) : Prop :=
  words_wf bm.(words) /\ bm.(alloc) <= 4 * Z.of_nat (length bm.(words)) /\ bm.(alloc) < 2 ^ 32.

Definition is_dirty (bm : DirtyBitmap) (chunk : Z) : bool := bit_at bm.(words) chunk.
Definition dirty_population (bm : DirtyBitmap) : Z :=
  population (is_dirty bm) (32 * length bm.(words)).

(** The chunk has its whole word inside the allocation. *)
Definition chunk_inside (bm : DirtyBitmap) (chunk : Z) : Prop :=
  0 <= chunk /\ 4 * (chunk / 32) + 4 <= bm.(alloc).

Lemma load_inside bm c :
  bitmap_wf bm -> chunk_inside bm c ->
  exists w, load_word bm (wrap 32 (c `quot` 32)) = Some w /\ in_u 32 w /\
    bm.(words) !! Z.to_nat (c / 32) = Some w /\ wrap 32 (c `quot` 32) = c / 32.
Proof.
  intros (Hw & Hal & Hmax) [Hc Hin]. rewrite Z.quot_div_nonneg by lia.
  assert (0 <= c / 32) by (apply Z.div_pos; lia).
  rewrite wrap_small by (split; [done | lia]).
  destruct (lookup_lt_is_Some_2 bm.(words) (Z.to_nat (c / 32))) as [w E]; [lia |].
  exists w. unfold load_word. rewrite (proj2 (Z.leb_le _ _)), (proj2 (Z.leb_le _ _)) by lia.
  cbn [andb]. repeat split; try done; by apply (Forall_lookup_1 _ _ _ _ Hw E).
Qed.

Lemma store_bit bm c w w' b :
  bitmap_wf bm -> 0 <= c -> bm.(words) !! Z.to_nat (c / 32) = Some w -> in_u 32 w' ->
  (forall i, 0 <= i < 32 -> Z.testbit w' i = if decide (i = c mod 32) then b else Z.testbit w i) ->
  bitmap_wf (store_word bm (c / 32) w') /\
  forall i, 0 <= i -> is_dirty (store_word bm (c / 32) w') i =
    if decide (i = c) then b else is_dirty bm i.
Proof.
  intros (Hw & Hal & Hmax) Hc E Hu Hbits. split.
  - split; [by apply Forall_insert |].
    unfold store_word. cbn [words alloc]. by rewrite length_insert.
  - intros i Hi. unfold is_dirty, bit_at, word_at, store_word, BITS_PER_LONG. cbn [words].
    destruct (decide (i / 32 = c / 32)) as [Heq | Hne].
    + rewrite Heq, list_lookup_insert_eq by (by eapply lookup_lt_Some). rewrite E. cbn.
      rewrite Hbits by (apply Z.mod_pos_bound; lia).
      destruct (decide (i = c)) as [-> | Hic]; [by rewrite decide_True |].
      rewrite decide_False; [done |]. intros Hm. apply Hic.
      rewrite (Z.div_mod i 32), (Z.div_mod c 32) by lia. congruence.
    + rewrite list_lookup_insert_ne; [by rewrite decide_False by (intros ->; done) |].
      intros Hz. apply Hne. apply Z2Nat.inj in Hz; [done | apply Z.div_pos; lia..].
Qed.

Lemma population_marked bm bm' c b :
  0 <= c -> (Z.to_nat (c / 32) < length bm.(words))%nat -> length bm'.(words) = length bm.(words) ->
  (forall i, 0 <= i -> is_dirty bm' i = if decide (i = c) then b else is_dirty bm i) ->
  dirty_population bm' = dirty_population bm + c_bool b - c_bool (is_dirty bm c).
Proof.
  intros Hc Hin Hl Hb. unfold dirty_population. rewrite Hl.
  rewrite (population_ext (is_dirty bm') (fun i => if decide (i = c) then b else is_dirty bm i))
    by (intros; apply Hb; lia).
  rewrite (population_flip (is_dirty bm) _ _ c), decide_True; [done | done | |].
  - split; [done |]. Z.to_euclidean_division_equations; lia.
  - intros i Hi. by rewrite decide_False.
Qed.

Lemma dirty_chunk_ok c b bm n :
  bitmap_wf bm -> chunk_inside bm c ->
  exists bm' n', dirty_chunk c b bm n = Some (bm', n') /\ bitmap_wf bm' /\ bm'.(alloc) = bm.(alloc) /\
    (forall i, 0 <= i -> is_dirty bm' i = if decide (i = c) then b else is_dirty bm i) /\
    n' - dirty_population bm' = n - dirty_population bm.
Proof.
  intros Hwf Hin. destruct (load_inside bm c Hwf Hin) as (w & El & Hw & Ew & Ei).
  destruct Hin as [Hc Hin]. unfold dirty_chunk. rewrite El. bind_step. rewrite Ei.
  rewrite Z.rem_mod_nonneg by lia. pose proof (Z.mod_pos_bound c 32 ltac:(lia)) as Hm.
  rewrite (wrap_small 32 (c mod 32)) by (split; [lia | cbn; lia]).
  rewrite c_true_land_bit by lia.
  assert (Hold : is_dirty bm c = Z.testbit w (c mod 32)).
  { unfold is_dirty, bit_at, word_at, BITS_PER_LONG. by rewrite Ew. }
  assert (Hgo : forall w' n', in_u 32 w' ->
    (forall i, 0 <= i < 32 -> Z.testbit w' i = if decide (i = c mod 32) then b else Z.testbit w i) ->
    n' = n + c_bool b - c_bool (is_dirty bm c) ->
    exists bm' k, Some (store_word bm (c / 32) w', n') = Some (bm', k) /\ bitmap_wf bm' /\
      bm'.(alloc) = bm.(alloc) /\
      (forall i, 0 <= i -> is_dirty bm' i = if decide (i = c) then b else is_dirty bm i) /\
      k - dirty_population bm' = n - dirty_population bm).
  { intros w' n' Hu Hbits ->. destruct (store_bit bm c w w' b Hwf Hc Ew Hu Hbits) as [Hwf' Hb].
    do 2 eexists. split; [done |]. split; [done |]. split; [done |]. split; [done |].
    apply lookup_lt_Some in Ew.
    rewrite (population_marked bm (store_word bm (c / 32) w') c b Hc Ew (length_insert _ _ _) Hb).
    lia. }
  assert (Hsame : Z.testbit w (c mod 32) = b ->
    forall i, 0 <= i < 32 -> Z.testbit w i = if decide (i = c mod 32) then b else Z.testbit w i).
  { intros E i Hi. case_decide; congruence. }
  destruct b; destruct (Z.testbit w (c mod 32)) eqn:E; cbn [negb].
  - apply Hgo; [done | by apply Hsame |]. rewrite Hold. cbn. lia.
  - apply Hgo; [eauto with width | | rewrite Hold; cbn; lia].
    intros i Hi. rewrite Z.lor_spec, testbit_bit by lia. destruct (decide (i = c mod 32)) as [-> |].
    + rewrite bool_decide_eq_true_2 by done. apply orb_true_r.
    + rewrite bool_decide_eq_false_2 by congruence. apply orb_false_r.
  - apply Hgo; [apply in_u_land_l; [lia | done] | | rewrite Hold; cbn; lia].
    intros i Hi. rewrite Z.land_spec, wrap_testbit, Z.lnot_spec, testbit_bit by lia.
    rewrite (proj2 (Z.ltb_lt i 32)) by lia. destruct (decide (i = c mod 32)) as [-> |].
    + rewrite bool_decide_eq_true_2 by done. apply andb_false_r.
    + rewrite bool_decide_eq_false_2 by congruence. apply andb_true_r.
  - apply Hgo; [done | by apply Hsame |]. rewrite Hold. cbn. lia.
Qed.

Lemma dirty_loop_ok k c b bm n :
  bitmap_wf bm -> (forall i, c <= i < c + Z.of_nat k -> chunk_inside bm i) -> 0 <= c ->
  exists bm' n', dirty_loop k c b bm n = Some (bm', n') /\ bitmap_wf bm' /\ bm'.(alloc) = bm.(alloc) /\
    (forall i, 0 <= i -> is_dirty bm' i =
       if decide (c <= i < c + Z.of_nat k) then b else is_dirty bm i) /\
    n' - dirty_population bm' = n - dirty_population bm.
Proof.
  revert c bm n. induction k as [| k IH]; intros c bm n Hwf Hin Hc.
  - exists bm, n. split; [done |]. split; [done |]. split; [done |]. split; [| done].
    intros i Hi. by rewrite decide_False by lia.
  - destruct (dirty_chunk_ok c b bm n Hwf (Hin c ltac:(lia))) as (bm1 & n1 & E1 & Hwf1 & Ha1 & Hb1 & Hp1).
    destruct (IH (c + 1) bm1 n1 Hwf1) as (bm2 & n2 & E2 & Hwf2 & Ha2 & Hb2 & Hp2).
    { intros i Hi. destruct (Hin i ltac:(lia)). split; [done |]. by rewrite Ha1. }
    { lia. }
    exists bm2, n2. cbn [dirty_loop]. rewrite E1. bind_step.
    split; [done |]. split; [done |]. split; [congruence |]. split; [| lia].
    intros i Hi. rewrite Hb2, Hb1 by done.
    repeat case_decide; try done; lia.
Qed.

Section tracking.
Context {D : Type} (size_bits : Z).
Implicit Types bs : BlockDriverState (D := D).

(** Tracking is on, and the counter is the number of dirty chunks. *)
Definition tracked bs (bm : DirtyBitmap) : Prop :=
  bs.(dirty_bitmap) = Some bm /\ bitmap_wf bm /\ bs.(dirty_count) = dirty_population bm.

(** The chunk of sector [p] is one of those of the request. *)
Definition covered (s n p : Z) : Prop := s / 2048 <= p / 2048 <= (s + n - 1) / 2048.

#[local] Instance covered_dec s n p : Decision (covered s n p).
Proof. unfold covered. apply _. Defined.

Lemma set_dirty_ok bs bm s n b :
  tracked bs bm -> 0 <= s -> 0 < n -> chunk_inside bm ((s + n - 1) / 2048) ->
  exists bm' k, set_dirty_bitmap s n b bs =
      Some (tt, set_dirty_bitmap_field (Some bm') (set_dirty_count k bs)) /\
    bitmap_wf bm' /\ k = dirty_population bm' /\
    forall p, 0 <= p -> is_dirty bm' (p / 2048) =
      if decide (covered s n p) then b else is_dirty bm (p / 2048).
Proof.
  intros (Eb & Hwf & Hcount) Hs Hn [_ Hin]. unfold set_dirty_bitmap, BDRV_SECTORS_PER_DIRTY_CHUNK.
  rewrite !Z.quot_div_nonneg by lia. rewrite Eb. bind_step.
  assert (0 <= s / 2048 <= (s + n - 1) / 2048).
  { split; [apply Z.div_pos; lia | apply Z.div_le_mono; lia]. }
  destruct (dirty_loop_ok (Z.to_nat ((s + n - 1) / 2048 - s / 2048 + 1)) (s / 2048) b bm
              bs.(dirty_count) Hwf) as (bm' & k & E & Hwf' & _ & Hb & Hp); [| lia |].
  { intros i Hi. split; [lia |].
    assert (i / 32 <= (s + n - 1) / 2048 / 32) by (apply Z.div_le_mono; lia). lia. }
  rewrite E. bind_step. exists bm', k. split; [done |]. split; [done |]. split; [lia |].
  intros p Hp0. rewrite Hb by (apply Z.div_pos; lia). unfold covered.
  repeat case_decide; try done; lia.
Qed.
End tracking.

(** A device over an array of bytes: the simplest driver *)
Definition array_driver : BlockDriver (Z -> Z) :=
  mkDriver (fun s n f => (0, bytes_at f (512 * s) (512 * n), f))
    (fun s buf n f => (0, splice f (512 * s) buf))
    None None None None None None.

#[global] Instance array_store : SectorStore array_driver.
Proof.
  refine {| content := fun f : Z -> Z => f |}.
  - intros s n o r l o' (_ & Hn & _) [= <- <- <-]. split; [done |]. split; [| done].
    rewrite bytes_at_length; lia.
  - intros s buf n o r o' Hs Hl [= <- <-]. split; [| done].
    intros p Hp. apply splice_out. lia.
  - done.
Defined.

Definition array_device (sectors : Z) : BlockDriverState :=
  mkBDS (Some array_driver) (fun _ => 0) sectors false false false false false false 0 None 0 0 0.

(** C10: Over any driver that reads and writes whole sectors, and with dirty
    tracking off, byte access refines an array of bytes for every offset and
    length: a byte write returns, with
    the number of bytes or an error; on success exactly the bytes of the request
    are replaced (the rest of the first and last sector keeps its value), and
    on failure nothing changes outside the sectors of the request; a later read
    at any offset and of any length changes nothing and, when it succeeds,
    returns the bytes as written. *)
Theorem byte_access_refines {D} size_bits (d : BlockDriver D) `{!SectorStore d}
    (bs : BlockDriverState) off buf off' n :
  plain d bs -> 0 <= off -> Z.of_nat (length buf) < 2 ^ 31 -> off + Z.of_nat (length buf) < 2 ^ 63 ->
  0 <= off' -> 0 <= n < 2 ^ 31 -> off' + n < 2 ^ 63 ->
  exists r bs', bdrv_pwrite size_bits off buf (Z.of_nat (length buf)) bs = Some (r, bs') /\
    (r = Z.of_nat (length buf) \/ r < 0) /\ wrote d bs bs' off buf (0 <=? r) /\
    exists r' l bs'', bdrv_pread size_bits off' n bs' = Some ((r', l), bs'') /\
      (forall p, view d bs'' p = view d bs' p) /\
      (r' < 0 \/ r' = n /\ l = bytes_at (view d bs') off' n) /\
      (0 <= r -> 0 <= r' -> l = bytes_at (splice (view d bs) off buf) off' n).
Proof.
  intros Hp Hoff Hint Hend Hoff' Hn Hend'.
  destruct (bdrv_pwrite_runs size_bits d bs off buf Hp Hoff Hint Hend) as (r & bs' & E & Hr & Hw).
  exists r, bs'. split; [done |]. split; [done |]. split; [done |].
  destruct Hw as (Hsame & Hout & Hin).
  destruct (bdrv_pread_runs size_bits d bs' off' n) as ([r' l] & bs'' & E' & _ & Hv & _ & Hl);
    [by eapply same_dev_plain | done | done | done |].
  exists r', l, bs''. split; [done |]. split; [done |]. cbn [fst snd] in Hl.
  split; [tauto |]. intros Hok Hok'. destruct Hl as [[_ ->] | Hl]; [| lia].
  apply bytes_at_ext. intros p _. apply Hin. by apply Z.leb_le.
Qed.

(** Three bytes across a sector boundary *)
Lemma byte_access_refines_witness :
  exists r bs', bdrv_pwrite 32 510 [7; 8; 9] 3 (array_device 4) = Some (r, bs') /\ r = 3 /\
    exists r' l bs'', bdrv_pread 32 509 5 bs' = Some ((r', l), bs'') /\ l = [0; 7; 8; 9; 0].
Proof.
  destruct (byte_access_refines 32 array_driver (array_device 4) 510 [7; 8; 9] 509 5)
    as (r & bs' & E & Hr & _ & r' & l & bs'' & E' & _ & Hl' & Hl); [done | cbn; lia.. |].
  assert (Hr3 : r = 3).
  { assert (Hc : fst <$> bdrv_pwrite 32 510 [7; 8; 9] 3 (array_device 4) = Some 3) by by_eval.
    change (Z.of_nat (length [7; 8; 9])) with 3 in E. rewrite E in Hc. by injection Hc. }
  exists r, bs'. split; [done |]. split; [done |]. exists r', l, bs''. split; [done |].
  rewrite Hl; [reflexivity | lia |].
  destruct (Z.le_gt_cases 0 r') as [? | Hneg]; [done | exfalso].
  change (Z.of_nat (length [7; 8; 9])) with 3 in E.
  assert (Hc : ('(_, b) ← bdrv_pwrite 32 510 [7; 8; 9] 3 (array_device 4);
                '((q, _), _) ← bdrv_pread 32 509 5 b; Some (0 <=? q)) = Some true) by by_eval.
  rewrite E in Hc. cbn [mbind option_bind] in Hc. rewrite E' in Hc. injection Hc as Hc. lia.
Defined.

(** C39: While dirty tracking is on and the request lies in the part of the
    device whose bitmap words are allocated, the counter is always the number
    of dirty chunks: a write marks exactly the chunks of its sectors, whatever
    the driver answers, a reset clears exactly those, and no other chunk
    changes. *)
Theorem dirty_tracking_exact {D} size_bits (d : BlockDriver D) (bs : BlockDriverState) bm s buf n :
  tracked bs bm -> bs.(drv) = Some d -> bs.(read_only) = false ->
  bdrv_check_request size_bits bs s n = 0 ->
  0 <= s -> 0 < n -> chunk_inside bm ((s + n - 1) / 2048) ->
  (exists r bs' bm', bdrv_write size_bits s buf n bs = Some (r, bs') /\ tracked bs' bm' /\
     forall p, 0 <= p -> is_dirty bm' (p / 2048) = true <->
       covered s n p \/ is_dirty bm (p / 2048) = true) /\
  (exists bs' bm', bdrv_reset_dirty s n bs = Some (tt, bs') /\ tracked bs' bm' /\
     forall p, 0 <= p -> is_dirty bm' (p / 2048) = true <->
       ~ covered s n p /\ is_dirty bm (p / 2048) = true).
Proof.
  intros Ht Hd Hro Hreq Hs Hn Hin. split.
  - destruct (set_dirty_ok bs bm s n true Ht Hs Hn Hin) as (bm' & k & E & Hwf & Hk & Hb).
    unfold bdrv_write. rewrite Hd, Hro, Hreq. cbn [c_true Z.eqb negb].
    rewrite decide_False by (by rewrite (proj1 Ht)). rewrite E. bind_step.
    destruct (drv_write d _ _ _ _) as [r o] eqn:Er. exists r. eexists _, bm'. split; [done |].
    split; [by case_match |].
    intros p Hp. rewrite Hb by done. case_decide; intuition done.
  - destruct (set_dirty_ok bs bm s n false Ht Hs Hn Hin) as (bm' & k & E & Hwf & Hk & Hb).
    eexists _, bm'. split; [exact E |]. split; [done |].
    intros p Hp. rewrite Hb by done. case_decide; intuition done.
Qed.

(** A disk of 128 MiB: one chunk dirty, then the next one *)
Lemma dirty_tracking_exact_witness :
  let bs := bdrv_set_dirty_tracking true (array_device 262144) in
  exists r bs' bm', bdrv_write 32 4095 (replicate 1024 7) 2 bs = Some (r, bs') /\ tracked bs' bm' /\
    is_dirty bm' (4096 / 2048) = true.
Proof.
  intros bs.
  destruct (dirty_tracking_exact 32 array_driver bs (mkBitmap (replicate 4 0) 16) 4095 (replicate 1024 7) 2)
    as [(r & bs' & bm' & E & Ht & Hb) _].
  - split; [reflexivity |]. split; [| reflexivity]. split; [by_eval |]. cbn. lia.
  - reflexivity.
  - reflexivity.
  - reflexivity.
  - lia.
  - lia.
  - split; by_eval.
  - exists r, bs', bm'. split; [done |]. split; [done |].
    apply (Hb 4096); [lia |]. left. unfold covered. by_eval.
Defined.

(** The bitmap of the dirty chunks is allocated in bytes and accessed in
    words of 32 bits: after tracking is switched on, marking a sector of the
    device stays inside the allocation exactly when the whole word of its chunk
    is allocated, that is not in the last word unless the number of bytes is a
    multiple of four. *)
Theorem dirty_bitmap_bounds {D} (bs : BlockDriverState (D := D)) len s :
  bs.(dirty_bitmap) = None -> bdrv_getlength bs = 512 * len -> len < 2 ^ 40 -> 0 <= s < len ->
  is_Some (set_dirty_bitmap s 1 true (bdrv_set_dirty_tracking true bs)) <->
  4 * (s / 65536) + 4 <= (len + 16383) / 16384.
Proof.
  intros Hnone Hlen Hmax Hs. set (bytes := (len + 16383) / 16384).
  set (bm := mkBitmap (replicate (Z.to_nat ((bytes + 3) / 4)) 0) bytes).
  assert (Hon : bdrv_set_dirty_tracking true bs =
                set_dirty_bitmap_field (Some bm) (set_dirty_count 0 bs)).
  { unfold bdrv_set_dirty_tracking. cbn [dirty_bitmap set_dirty_count]. rewrite Hnone.
    change (bdrv_getlength (set_dirty_count 0 bs)) with (bdrv_getlength bs). rewrite Hlen.
    unfold BDRV_SECTORS_PER_DIRTY_CHUNK, BDRV_SECTOR_BITS.
    rewrite Z.shiftr_div_pow2 by lia. change (2 ^ 9) with 512. rewrite (Z.mul_comm 512), Z.div_mul by lia.
    rewrite Z.quot_div_nonneg by lia. unfold bm, bytes. repeat f_equal; lia. }
  assert (Hbytes : 0 <= bytes < 2 ^ 32) by (unfold bytes; Z.to_euclidean_division_equations; lia).
  assert (Hwf : bitmap_wf bm).
  { split; [by apply Forall_replicate |]. cbn [words alloc bm]. rewrite length_replicate.
    Z.to_euclidean_division_equations; lia. }
  assert (Hchunk : s / 2048 / 32 = s / 65536) by (rewrite Z.div_div by lia; done).
  assert (0 <= s / 2048) by (apply Z.div_pos; lia). rewrite Hon. split.
  - intros [[[] x] E]. unfold set_dirty_bitmap, BDRV_SECTORS_PER_DIRTY_CHUNK in E.
    replace (s + 1 - 1) with s in E by lia. rewrite Z.sub_diag, Z.quot_div_nonneg in E by lia.
    cbn [dirty_bitmap set_dirty_bitmap_field] in E. rewrite bind_some in E.
    change (Z.to_nat (0 + 1)) with 1%nat in E. cbn [dirty_loop] in E.
    unfold dirty_chunk, load_word in E. rewrite Z.quot_div_nonneg in E by lia.
    rewrite Hchunk, (wrap_small 32 (s / 65536)) in E
      by (split; [apply Z.div_pos; lia | Z.to_euclidean_division_equations; lia]).
    destruct (Z.leb_spec (4 * (s / 65536) + 4) (alloc bm)) as [H1 | H1]; [done |].
    rewrite andb_false_r in E. done.
  - intros Hin. destruct (set_dirty_ok (bdrv_set_dirty_tracking true bs) bm s 1 true)
      as (bm' & k & E & _); [| lia | lia | |].
    + rewrite Hon. split; [done |]. split; [done |]. cbn [dirty_count set_dirty_bitmap_field set_dirty_count].
      unfold dirty_population. cbn [words bm]. rewrite length_replicate.
      rewrite (population_ext _ (fun _ => false)).
      * induction (32 * _)%nat as [| m IH]; [done |]. cbn [population c_bool]. lia.
      * intros i Hi. unfold is_dirty, bit_at, word_at. cbn [words bm].
        destruct (replicate _ 0 !! _) as [w |] eqn:Ew; [| apply Z.bits_0].
        apply lookup_replicate in Ew as [-> _]. apply Z.bits_0.
    + replace (s + 1 - 1) with s by lia. split; [done |]. by rewrite Hchunk.
    + rewrite Hon in E. by rewrite E.
Qed.

(** A disk of one megabyte has a bitmap of one byte, outside of which its first
    word reaches. *)
Lemma dirty_bitmap_bounds_witness :
  ~ is_Some (set_dirty_bitmap 0 1 true (bdrv_set_dirty_tracking true (array_device 2048))).
Proof.
  intros Hs. apply (dirty_bitmap_bounds (array_device 2048) 2048 0) in Hs;
    [vm_compute in Hs; by apply Hs | reflexivity | reflexivity | lia | lia].
Defined.

(** Switching tracking on again sets the counter to zero and leaves the bits. *)
Lemma tracking_restart_miscounts {D} (bs : BlockDriverState (D := D)) bm :
  tracked bs bm -> 0 < dirty_population bm ->
  let bs' := bdrv_set_dirty_tracking true bs in
  bs'.(dirty_bitmap) = Some bm /\ bs'.(dirty_count) < dirty_population bm.
Proof.
  intros (E & _ & _) Hpos. unfold bdrv_set_dirty_tracking. cbn [dirty_bitmap set_dirty_count].
  rewrite E. split; [done |]. cbn [dirty_count]. done.
Qed.
