(* ===== verification/RawWin32.v ===== *)
(** * Image files on Windows (qemu/block/raw-win32.c)

    The "file" driver under every image: sector reads and writes with
    [ReadFile] and [WriteFile], flushing, truncation and the length of the
    file.  The Win32 calls are the record [Win32] of functions on the state of
    the file; what they are documented to do is stated where it is used.

    Theorems: over calls that transfer what they are asked the driver is a
    [SectorStore]; a call that fails is reported as a success, through the byte
    accesses of the block layer too; truncation to a multiple of four gigabytes
    is reported as a failure. *)

From Stdlib Require Import ZArith Lia.
From stdpp Require Import base option numbers list.
From S2P Require Import Prelude Stm Block.

Local Open Scope Z_scope.

(** The kinds of file *)
Inductive ftype := FTYPE_FILE | FTYPE_CD | FTYPE_HARDDISK.

(** The Win32 functions on the open file [F].  The offset of an access is the
    pair of doublewords in [OVERLAPPED].  A read returns the success flag, the
    number of bytes and the bytes; [GetFileSize] its two doublewords and
    whether the last error is set; the two disk queries the size they found. *)
Record Win32 (F : Type) := mkWin32 {
  ReadFile : Z -> Z -> Z -> F -> bool * Z * list Z * F;
  WriteFile : Z -> Z -> list Z -> Z -> F -> bool * Z * F;
  FlushFileBuffers : F -> bool * F;
  SetFilePointer : Z -> Z -> F -> Z * F;
  SetEndOfFile : F -> bool * F;
  GetFileSize : F -> Z * Z * bool;
  GetDiskFreeSpaceEx : F -> option Z;
  disk_geometry : F -> option Z
}.
Arguments mkWin32 {_}.
Arguments ReadFile {_}.
Arguments WriteFile {_}.
Arguments FlushFileBuffers {_}.
Arguments SetFilePointer {_}.
Arguments SetEndOfFile {_}.
Arguments GetFileSize {_}.
Arguments GetDiskFreeSpaceEx {_}.
Arguments disk_geometry {_}.

Section Raw.
Context {F : Type} (api : Win32 F).
(** The uninitialised local variable of [raw_getlength] *)
Context (stack_garbage : Z).

(** [struct BDRVRawState]; the drive path only names the disk to query *)
Record BDRVRawState := mkRaw { hfile : F; type : ftype }.

Definition raw_read (sector_num nb_sectors : Z) (s : BDRVRawState) : Z * list Z * BDRVRawState :=
  let offset := to_signed 64 (sector_num * 512) in
  let count := to_signed 32 (nb_sectors * 512) in
  let '(ok, ret_count, buf, h) :=
    api.(ReadFile) (wrap 32 offset) (wrap 32 (Z.shiftr offset 32)) (wrap 32 count) s.(hfile) in
  let s := mkRaw h s.(type) in
  if negb ok then (to_signed 32 ret_count, buf, s)
  else if ret_count =? wrap 32 count then (0, buf, s)
  else (to_signed 32 ret_count, buf, s).

Definition raw_write (sector_num : Z) (buf : list Z) (nb_sectors : Z) (s : BDRVRawState)
    : Z * BDRVRawState :=
  let offset := to_signed 64 (sector_num * 512) in
  let count := to_signed 32 (nb_sectors * 512) in
  let '(ok, ret_count, h) :=
    api.(WriteFile) (wrap 32 offset) (wrap 32 (Z.shiftr offset 32)) buf (wrap 32 count) s.(hfile) in
  let s := mkRaw h s.(type) in
  if negb ok then (to_signed 32 ret_count, s)
  else if ret_count =? wrap 32 count then (0, s)
  else (to_signed 32 ret_count, s).

Definition raw_flush (s : BDRVRawState) : Z * BDRVRawState :=
  let '(ok, h) := api.(FlushFileBuffers) s.(hfile) in
  let s := mkRaw h s.(type) in
  if negb ok then (- EIO, s) else (0, s).

Definition raw_truncate (offset : Z) (s : BDRVRawState) : Z * BDRVRawState :=
  let low := to_signed 32 offset in
  let high := to_signed 32 (Z.shiftr offset 32) in
  let '(ret, h) := api.(SetFilePointer) low high s.(hfile) in
  let s := mkRaw h s.(type) in
  if ret =? 0 then (- EIO, s)
  else
    let '(ok, h) := api.(SetEndOfFile) s.(hfile) in
    let s := mkRaw h s.(type) in
    if negb ok then (- EIO, s) else (0, s).

Definition raw_getlength (s : BDRVRawState) : Z :=
  match s.(type) with
  | FTYPE_FILE =>
      let '(low, high, err) := api.(GetFileSize) s.(hfile) in
      if (low =? 0xffffffff) && err then - EIO
      else to_signed 64 (Z.shiftl high 32 + low)
  | FTYPE_CD =>
      match api.(GetDiskFreeSpaceEx) s.(hfile) with
      | None => - EIO
      | Some total => to_signed 64 total
      end
  | FTYPE_HARDDISK =>
      match api.(disk_geometry) s.(hfile) with
      | Some size => to_signed 64 size
      | None => stack_garbage
      end
  end.

Definition bdrv_file : BlockDriver BDRVRawState :=
  mkDriver raw_read raw_write (Some raw_flush) (Some raw_getlength) (Some raw_truncate)
    None None None.

Definition bdrv_host_device : BlockDriver BDRVRawState :=
  mkDriver raw_read raw_write (Some raw_flush) (Some raw_getlength) None None None None.
End Raw.

(** ** Calls that transfer everything *)

(** The file is an unbounded array of bytes: reads and writes succeed and
    transfer all the bytes asked for, and flushing changes nothing. *)
Class FullTransfer {F} (api : Win32 F) (bytes : F -> Z -> Z) := {
  full_read : forall lo hi n f,
    0 <= n < 2 ^ 31 -> api.(ReadFile) lo hi n f = (true, n, bytes_at (bytes f) (hi * 2 ^ 32 + lo) n, f);
  full_write : forall lo hi buf n f,
    Z.of_nat (length buf) = n -> n < 2 ^ 31 ->
    exists f', api.(WriteFile) lo hi buf n f = (true, n, f') /\
      forall p, bytes f' p = splice (bytes f) (hi * 2 ^ 32 + lo) buf p;
  full_flush : forall f p, bytes (api.(FlushFileBuffers) f).2 p = bytes f p
}.

(** The two doublewords of a position and the count, as the driver computes them *)
Lemma raw_position s n :
  request_fits s n ->
  let off := to_signed 64 (s * 512) in
  wrap 32 (Z.shiftr off 32) * 2 ^ 32 + wrap 32 off = 512 * s /\
  wrap 32 (to_signed 32 (n * 512)) = 512 * n /\ 0 <= 512 * n < 2 ^ 31.
Proof.
  intros (Hs & Hn & _) off.
  assert (Hoff : off = s * 512).
  { unfold off, to_signed. rewrite wrap_small by (split; cbn; lia).
    by rewrite (proj2 (Z.ltb_lt _ _)) by (cbn; lia). }
  assert (Hcount : to_signed 32 (n * 512) = n * 512).
  { unfold to_signed. rewrite wrap_small by (split; cbn; lia).
    by rewrite (proj2 (Z.ltb_lt _ _)) by (cbn; lia). }
  rewrite Hoff, Hcount, Z.shiftr_div_pow2 by lia. clear off Hoff Hcount.
  rewrite (wrap_small 32 (s * 512 / 2 ^ 32)), (wrap_small 32 (n * 512)).
  - unfold wrap. split; [| lia]. rewrite (Z.mul_comm _ (2 ^ 32)), <- Z.div_mod by done. lia.
  - split; cbn; lia.
  - split; [apply Z.div_pos; lia |]. apply Z.div_lt_upper_bound; lia.
Qed.

#[global] Instance raw_store {F} (api : Win32 F) bytes g `{!FullTransfer api bytes} :
  SectorStore (bdrv_file api g).
Proof.
  refine {| content := fun s : BDRVRawState => bytes s.(hfile) |}.
  - intros s n o r l o' Hfits E. destruct (raw_position s n Hfits) as (Hpos & Hcount & Hn).
    cbn [drv_read bdrv_file] in E. unfold raw_read in E.
    rewrite full_read in E by (by rewrite Hcount). rewrite Hpos, Hcount, Z.eqb_refl in E.
    cbn [negb] in E. simplify_eq. split; [done |]. split; [| done].
    rewrite bytes_at_length; lia.
  - intros s buf n o r o' Hfits Hl E. destruct (raw_position s n Hfits) as (Hpos & Hcount & Hn).
    cbn [drv_write bdrv_file] in E. unfold raw_write in E. rewrite Hcount in E.
    destruct (full_write (wrap 32 (to_signed 64 (s * 512)))
      (wrap 32 (Z.shiftr (to_signed 64 (s * 512)) 32)) buf (512 * n) o.(hfile)) as (f' & Ew & Hf);
      [done | lia |].
    rewrite Ew, Z.eqb_refl in E. cbn [negb] in E. simplify_eq. cbn [hfile]. rewrite Hpos in Hf.
    split; [| done]. intros p Hp. rewrite Hf. apply splice_out. lia.
  - intros f o r o' [= <-] E p. unfold raw_flush in E.
    pose proof (full_flush o.(hfile) p) as Hf. destruct (FlushFileBuffers api o.(hfile)) as [ok h].
    cbn [snd] in Hf. destruct ok; cbn [negb] in E; simplify_eq; done.
Defined.

(** ** Failures are not reported *)

(** What is documented of the counts: at most what was asked for, and set even
    when the call fails. *)
Class CountLaw {F} (api : Win32 F) := {
  read_count : forall lo hi n f, 0 <= n < 2 ^ 31 -> 0 <= (api.(ReadFile) lo hi n f).1.1.2 <= n;
  write_count : forall lo hi buf n f, 0 <= n < 2 ^ 31 -> 0 <= (api.(WriteFile) lo hi buf n f).1.2 <= n
}.

Lemma small_signed k : 0 <= k < 2 ^ 31 -> 0 <= to_signed 32 k.
Proof.
  intros Hk. unfold to_signed. rewrite wrap_small by (split; cbn in *; lia).
  rewrite (proj2 (Z.ltb_lt _ _)) by (cbn in *; lia). lia.
Qed.

Lemma raw_read_nonneg {F} (api : Win32 F) `{!CountLaw api} s n o :
  request_fits s n -> 0 <= (raw_read api s n o).1.1.
Proof.
  intros Hfits. destruct (raw_position s n Hfits) as (_ & Hcount & Hn). unfold raw_read.
  rewrite Hcount. pose proof (read_count (wrap 32 (to_signed 64 (s * 512)))
    (wrap 32 (Z.shiftr (to_signed 64 (s * 512)) 32)) (512 * n) o.(hfile) Hn) as Hk.
  destruct (ReadFile api _ _ _ _) as [[[ok k] l] h]. cbn [fst snd] in Hk.
  pose proof (small_signed k ltac:(lia)).
  destruct ok; cbn [negb]; [case_match |]; cbn [fst]; lia.
Qed.

Lemma raw_write_nonneg {F} (api : Win32 F) `{!CountLaw api} s buf n o :
  request_fits s n -> 0 <= (raw_write api s buf n o).1.
Proof.
  intros Hfits. destruct (raw_position s n Hfits) as (_ & Hcount & Hn). unfold raw_write.
  rewrite Hcount. pose proof (write_count (wrap 32 (to_signed 64 (s * 512)))
    (wrap 32 (Z.shiftr (to_signed 64 (s * 512)) 32)) buf (512 * n) o.(hfile) Hn) as Hk.
  destruct (WriteFile api _ _ _ _ _) as [[ok k] h]. cbn [fst snd] in Hk.
  pose proof (small_signed k ltac:(lia)).
  destruct ok; cbn [negb]; [case_match |]; cbn [fst]; lia.
Qed.

Section lost.
Context {F : Type} (api : Win32 F) (g size_bits : Z) `{!CountLaw api}.
Implicit Types bs : BlockDriverState (D := BDRVRawState (F := F)).

(** An image file as [bdrv_file_open] leaves it: writable and growable *)
Definition image_file bs : Prop :=
  bs.(drv) = Some (bdrv_file api g) /\ bs.(dirty_bitmap) = None /\ bs.(read_only) = false /\
  bs.(growable) = true /\ bs.(tray_open) = false.

Lemma image_check bs s n : image_file bs -> bdrv_check_request size_bits bs s n = 0.
Proof.
  intros (Hd & _ & _ & Hg & Ht). unfold bdrv_check_request, bdrv_check_byte_request, bdrv_is_inserted.
  rewrite Hd, Hg, Ht. done.
Qed.

Lemma image_read bs s n :
  image_file bs -> request_fits s n ->
  runs (bdrv_read size_bits s n) bs (fun r bs' => image_file bs' /\ 0 <= r.1).
Proof.
  intros Hi Hfits. unfold runs, bdrv_read. rewrite (image_check bs) by done.
  destruct Hi as (Hd & Hi). rewrite Hd. cbn [c_true Z.eqb negb drv_read bdrv_file].
  pose proof (raw_read_nonneg api s n bs.(opaque) Hfits) as H.
  destruct (raw_read api s n bs.(opaque)) as [[r l] o]. do 2 eexists. split; [done |].
  split; [by destruct bs | done].
Qed.

Lemma image_write bs s buf n :
  image_file bs -> request_fits s n ->
  runs (bdrv_write size_bits s buf n) bs (fun r bs' => image_file bs' /\ 0 <= r).
Proof.
  intros Hi Hfits. unfold runs, bdrv_write. rewrite (image_check bs) by done.
  destruct Hi as (Hd & Hb & Hro & Hi). rewrite Hd, Hro, decide_True by done. bind_step.
  cbn [c_true Z.eqb negb drv_write bdrv_file]. set (b1 := if _ <? _ then _ else _).
  pose proof (raw_write_nonneg api s buf n b1.(opaque) Hfits) as H.
  destruct (raw_write api s buf n b1.(opaque)) as [r o]. do 2 eexists. split; [done |].
  split; [| done]. unfold b1. by case_match; destruct bs.
Qed.

(** The read, change and write back of one sector goes on whatever the calls did. *)
Lemma image_in_sector bs s (k : nat) b (next : SM BlockDriverState Z) Q :
  image_file bs -> 0 <= s < 2 ^ 54 -> (forall bs', image_file bs' -> runs next bs' Q) ->
  runs ('(ret, tmp) ← bdrv_read size_bits s 1;
        if ret <? 0 then mret ret
        else ret ← bdrv_write size_bits s (overwrite tmp k b) 1;
             if ret <? 0 then mret ret else next) bs Q.
Proof.
  intros Hi Hs HQ. assert (Hfits : request_fits s 1) by (unfold request_fits; lia).
  apply runs_bind. eapply runs_mono; [by apply image_read |].
  intros [r l] bs1 [Hi1 Hr]. cbn [fst] in Hr. rewrite (proj2 (Z.ltb_ge r 0)) by lia.
  apply runs_bind. eapply runs_mono; [by apply image_write |].
  intros r' bs2 [Hi2 Hr']. rewrite (proj2 (Z.ltb_ge r' 0)) by lia. by apply HQ.
Qed.

Lemma image_pwrite_last bs s buf m n :
  image_file bs -> 0 <= s < 2 ^ 54 \/ m <= 0 ->
  runs (pwrite_last size_bits s buf m n) bs (fun r bs' => image_file bs' /\ r = n).
Proof.
  intros Hi Hs. unfold pwrite_last. destruct (Z.ltb_spec 0 m); [| by apply runs_ret].
  apply (image_in_sector bs s 0 (take (Z.to_nat m) buf)); [done | lia |].
  intros bs' Hi'. by apply runs_ret.
Qed.

Lemma image_pwrite_sectors bs s buf m n :
  image_file bs -> 0 <= s -> 0 <= m < 2 ^ 31 -> 512 * s + m < 2 ^ 63 ->
  runs (pwrite_sectors size_bits s buf m n) bs (fun r bs' => image_file bs' /\ r = n).
Proof.
  intros Hi Hs Hm Hend. unfold pwrite_sectors, BDRV_SECTOR_BITS.
  rewrite Z.shiftr_div_pow2, Z.shiftl_mul_pow2 by lia. change (2 ^ 9) with 512.
  set (nb := m / 512). assert (512 * nb <= m < 512 * nb + 512).
  { unfold nb. Z.to_euclidean_division_equations; lia. }
  destruct (Z.ltb_spec 0 nb); [| apply image_pwrite_last; [done | lia]].
  apply runs_bind. eapply runs_mono; [apply image_write; [done | unfold request_fits; lia] |].
  intros r bs1 [Hi1 Hr]. rewrite (proj2 (Z.ltb_ge r 0)) by lia.
  apply image_pwrite_last; [done | lia].
Qed.

Lemma image_pwrite bs off buf :
  image_file bs -> 0 <= off -> Z.of_nat (length buf) < 2 ^ 31 ->
  off + Z.of_nat (length buf) < 2 ^ 63 ->
  runs (bdrv_pwrite size_bits off buf (Z.of_nat (length buf))) bs
    (fun r bs' => image_file bs' /\ r = Z.of_nat (length buf)).
Proof.
  intros Hi Hoff. set (n := Z.of_nat (length buf)). intros Hint Hlim.
  unfold bdrv_pwrite. rewrite land_sector, shiftr_sector.
  pose proof (head_len_spec off n ltac:(lia)) as (Hl & _ & Hk & Hal).
  set (len := head_len off n) in *.
  assert (Hs : 0 <= off / 512 < 2 ^ 54) by (Z.to_euclidean_division_equations; lia).
  assert (Hdown : 512 * (off / 512) <= off) by (Z.to_euclidean_division_equations; lia).
  destruct (Z.ltb_spec 0 len); [| apply image_pwrite_sectors; (done || lia)].
  apply image_in_sector; [done | done |].
  intros bs1 Hi1. destruct (Z.eqb_spec (n - len) 0); [by apply runs_ret |].
  apply image_pwrite_sectors; [done | lia | lia |].
  destruct Hal; [| lia]. Z.to_euclidean_division_equations; lia.
Qed.
End lost.

(** On Windows no failure of [ReadFile] or [WriteFile] is ever reported: as
    long as the counts the calls return are at most what was asked for, as
    documented, the sector functions of the image file return no error, and
    every byte write of less than two gigabytes to an image file reports that
    all its bytes were written, whatever the calls did. *)
Theorem raw_failures_unreported {F} (api : Win32 F) g size_bits (bs : BlockDriverState) :
  CountLaw api -> image_file api g bs ->
  (forall s buf n, request_fits s n ->
     0 <= (raw_read api s n bs.(opaque)).1.1 /\ 0 <= (raw_write api s buf n bs.(opaque)).1) /\
  (forall off buf, 0 <= off -> Z.of_nat (length buf) < 2 ^ 31 ->
     off + Z.of_nat (length buf) < 2 ^ 63 ->
     exists bs', bdrv_pwrite size_bits off buf (Z.of_nat (length buf)) bs =
       Some (Z.of_nat (length buf), bs')).
Proof.
  intros Hlaw Hi. split.
  - intros s buf n Hfits. split; [by apply raw_read_nonneg | by apply raw_write_nonneg].
  - intros off buf Hoff Hint Hlim.
    destruct (image_pwrite api g size_bits bs off buf Hi Hoff Hint Hlim) as (r & bs' & E & _ & ->).
    by exists bs'.
Qed.

(** A disk whose every call fails *)
Definition dead_disk : Win32 unit :=
  mkWin32 (fun _ _ _ f => (false, 0, [], f)) (fun _ _ _ _ f => (false, 0, f)) (fun f => (false, f))
    (fun _ _ f => (0xffffffff, f)) (fun f => (false, f)) (fun _ => (0xffffffff, 0, true))
    (fun _ => None) (fun _ => None).

Lemma raw_failures_unreported_witness :
  exists bs', bdrv_pwrite 32 1000 [1; 2; 3]
    3 (mkBDS (Some (bdrv_file dead_disk 0)) (mkRaw tt FTYPE_FILE) 8 false true false false false
         false 0 None 0 0 0) = Some (3, bs').
Proof.
  apply (proj2 (raw_failures_unreported dead_disk 0 32
    (mkBDS (Some (bdrv_file dead_disk 0)) (mkRaw tt FTYPE_FILE) 8 false true false false false
         false 0 None 0 0 0)
    ltac:(split; intros; cbn; lia) ltac:(by repeat split))); cbn; lia.
Defined.

(** [SetFilePointer] returns the low half of the new position, which the driver
    takes for a failure when it is zero. *)
Lemma truncate_4g_fails {F} (api : Win32 F) offset s :
  (forall low high f, (api.(SetFilePointer) low high f).1 = wrap 32 low) ->
  offset mod 2 ^ 32 = 0 -> (raw_truncate api offset s).1 = - EIO.
Proof.
  intros Hlaw Hoff. unfold raw_truncate.
  pose proof (Hlaw (to_signed 32 offset) (to_signed 32 (Z.shiftr offset 32)) s.(hfile)) as H.
  destruct (SetFilePointer api _ _ _) as [ret h]. cbn [fst] in H.
  assert (Hw : wrap 32 (to_signed 32 offset) = wrap 32 offset).
  { unfold to_signed. case_match; unfold wrap; [by rewrite Z.mod_mod |].
    rewrite Zminus_mod, Z_mod_same_full, Z.sub_0_r, !Z.mod_mod; done. }
  rewrite Hw in H. unfold wrap in H. rewrite Hoff in H. by rewrite H.
Qed.
