(* ===== verification/Qcow2Cache.v ===== *)
(** * The metadata caches of an image (qemu/block/qcow2-cache.c)

    The qcow2 format keeps its L2 tables and its refcount blocks in two
    write-back caches with reference counts; one cache may depend on the other,
    whose tables must reach the disk first.  The model follows the code entry
    by entry over the byte access of [Block]; every write and flush of the file
    is also recorded, so that their order can be stated.

    Theorems: the caches refine one array of bytes (no operation loses an
    update, failures included); flushing ends and leaves every table on disk;
    nothing of a dependent cache is written before the tables it depends on. *)

From Stdlib Require Import ZArith Lia.
From stdpp Require Import base option numbers sets list.
From S2P Require Import Prelude Stm Block.

Local Open Scope Z_scope.

Definition INT_MAX : Z := 0x7fffffff.
Definition L2_CACHE_SIZE : nat := 16.
Definition REFCOUNT_CACHE_SIZE : nat := 4.

(** Which of the two caches of an image *)
Inductive cid := L2_CACHE | REFCOUNT_CACHE.

#[global] Instance cid_eq_dec : EqDecision cid.
Proof. solve_decision. Defined.

(** [struct Qcow2CachedTable]; the buffer of the entry is its contents, and the
    pointer to it is the index of the entry. *)
Record Qcow2CachedTable := mkEntry {
  table : list Z;
  offset : Z;
  dirty : bool;
  cache_hits : Z;
  ref : Z
}.

Definition set_table (v : list Z) (s : Qcow2CachedTable) : Qcow2CachedTable :=
  mkEntry v s.(offset) s.(dirty) s.(cache_hits) s.(ref).
Definition set_offset (v : Z) (s : Qcow2CachedTable) : Qcow2CachedTable :=
  mkEntry s.(table) v s.(dirty) s.(cache_hits) s.(ref).
Definition set_dirty (v : bool) (s : Qcow2CachedTable) : Qcow2CachedTable :=
  mkEntry s.(table) s.(offset) v s.(cache_hits) s.(ref).
Definition set_cache_hits (v : Z) (s : Qcow2CachedTable) : Qcow2CachedTable :=
  mkEntry s.(table) s.(offset) s.(dirty) v s.(ref).
Definition set_ref (v : Z) (s : Qcow2CachedTable) : Qcow2CachedTable :=
  mkEntry s.(table) s.(offset) s.(dirty) s.(cache_hits) v.

(** [struct Qcow2Cache]; its size is the number of entries. *)
Record Qcow2Cache := mkCache {
  entries : list Qcow2CachedTable;
  depends : option cid;
  depends_on_flush : bool;
  writethrough : bool
}.

Definition set_entries (v : list Qcow2CachedTable) (s : Qcow2Cache) : Qcow2Cache :=
  mkCache v s.(depends) s.(depends_on_flush) s.(writethrough).
Definition set_depends (v : option cid) (s : Qcow2Cache) : Qcow2Cache :=
  mkCache s.(entries) v s.(depends_on_flush) s.(writethrough).
Definition set_depends_on_flush (v : bool) (s : Qcow2Cache) : Qcow2Cache :=
  mkCache s.(entries) s.(depends) v s.(writethrough).
Definition set_writethrough (v : bool) (s : Qcow2Cache) : Qcow2Cache :=
  mkCache s.(entries) s.(depends) s.(depends_on_flush) v.

(** Writes and flushes of the image file, with what they returned *)
Inductive io_event :=
  | IoWrite (off : Z) (buf : list Z) (ret : Z)
  | IoFlush (ret : Z).

Section Qcow2.
Context {D : Type} (size_bits : Z).

(** [struct BDRVQcowState], as far as this file and [Qcow2Refcount] use it, with
    [bs->file] and the record of the writes and flushes, latest first *)
Record BDRVQcowState := mkQcow {
  file : BlockDriverState (D := D);
  cluster_bits : Z;
  l2_table_cache : Qcow2Cache;
  refcount_block_cache : Qcow2Cache;
  refcount_table : list Z;
  refcount_table_offset : Z;
  refcount_table_size : Z;
  free_cluster_index : Z;
  free_byte_offset : Z;
  io_log : list io_event
}.

Definition set_file (v : BlockDriverState (D := D)) (s : BDRVQcowState) : BDRVQcowState :=
  mkQcow v s.(cluster_bits) s.(l2_table_cache) s.(refcount_block_cache) s.(refcount_table)
    s.(refcount_table_offset) s.(refcount_table_size) s.(free_cluster_index)
    s.(free_byte_offset) s.(io_log).
Definition set_cluster_bits (v : Z) (s : BDRVQcowState) : BDRVQcowState :=
  mkQcow s.(file) v s.(l2_table_cache) s.(refcount_block_cache) s.(refcount_table)
    s.(refcount_table_offset) s.(refcount_table_size) s.(free_cluster_index)
    s.(free_byte_offset) s.(io_log).
Definition set_l2_table_cache (v : Qcow2Cache) (s : BDRVQcowState) : BDRVQcowState :=
  mkQcow s.(file) s.(cluster_bits) v s.(refcount_block_cache) s.(refcount_table)
    s.(refcount_table_offset) s.(refcount_table_size) s.(free_cluster_index)
    s.(free_byte_offset) s.(io_log).
Definition set_refcount_block_cache (v : Qcow2Cache) (s : BDRVQcowState) : BDRVQcowState :=
  mkQcow s.(file) s.(cluster_bits) s.(l2_table_cache) v s.(refcount_table)
    s.(refcount_table_offset) s.(refcount_table_size) s.(free_cluster_index)
    s.(free_byte_offset) s.(io_log).
Definition set_refcount_table (v : list Z) (s : BDRVQcowState) : BDRVQcowState :=
  mkQcow s.(file) s.(cluster_bits) s.(l2_table_cache) s.(refcount_block_cache) v
    s.(refcount_table_offset) s.(refcount_table_size) s.(free_cluster_index)
    s.(free_byte_offset) s.(io_log).
Definition set_refcount_table_offset (v : Z) (s : BDRVQcowState) : BDRVQcowState :=
  mkQcow s.(file) s.(cluster_bits) s.(l2_table_cache) s.(refcount_block_cache)
    s.(refcount_table) v s.(refcount_table_size) s.(free_cluster_index)
    s.(free_byte_offset) s.(io_log).
Definition set_refcount_table_size (v : Z) (s : BDRVQcowState) : BDRVQcowState :=
  mkQcow s.(file) s.(cluster_bits) s.(l2_table_cache) s.(refcount_block_cache)
    s.(refcount_table) s.(refcount_table_offset) v s.(free_cluster_index)
    s.(free_byte_offset) s.(io_log).
Definition set_free_cluster_index (v : Z) (s : BDRVQcowState) : BDRVQcowState :=
  mkQcow s.(file) s.(cluster_bits) s.(l2_table_cache) s.(refcount_block_cache)
    s.(refcount_table) s.(refcount_table_offset) s.(refcount_table_size) v
    s.(free_byte_offset) s.(io_log).
Definition set_free_byte_offset (v : Z) (s : BDRVQcowState) : BDRVQcowState :=
  mkQcow s.(file) s.(cluster_bits) s.(l2_table_cache) s.(refcount_block_cache)
    s.(refcount_table) s.(refcount_table_offset) s.(refcount_table_size)
    s.(free_cluster_index) v s.(io_log).
Definition set_io_log (v : list io_event) (s : BDRVQcowState) : BDRVQcowState :=
  mkQcow s.(file) s.(cluster_bits) s.(l2_table_cache) s.(refcount_block_cache)
    s.(refcount_table) s.(refcount_table_offset) s.(refcount_table_size)
    s.(free_cluster_index) s.(free_byte_offset) v.

Abbreviation Q A := (SM BDRVQcowState A).

Definition cluster_size (s : BDRVQcowState) : Z := Z.shiftl 1 s.(cluster_bits).

Definition get_cache (c : cid) (s : BDRVQcowState) : Qcow2Cache :=
  match c with L2_CACHE => s.(l2_table_cache) | REFCOUNT_CACHE => s.(refcount_block_cache) end.
Definition set_cache (c : cid) (v : Qcow2Cache) (s : BDRVQcowState) : BDRVQcowState :=
  match c with L2_CACHE => set_l2_table_cache v s | REFCOUNT_CACHE => set_refcount_block_cache v s end.

Definition get_entry (c : cid) (i : nat) : Q Qcow2CachedTable :=
  e ← sm_get (fun s => (get_cache c s).(entries) !! i); sm_lift e.
Definition upd_entry (c : cid) (i : nat) (f : Qcow2CachedTable -> Qcow2CachedTable) : Q unit :=
  sm_modify (fun s => set_cache c (set_entries (alter f i (get_cache c s).(entries)) (get_cache c s)) s).

(** An operation of the block layer on [bs->file] *)
Definition on_file {A} (m : SM (BlockDriverState (D := D)) A) : Q A := fun s =>
  '(x, f) ← m s.(file); Some (x, set_file f s).
Definition record_io (e : io_event) : Q unit := sm_modify (fun s => set_io_log (e :: s.(io_log)) s).

Definition file_pread (off count : Z) : Q (Z * list Z) := on_file (bdrv_pread size_bits off count).
Definition file_pwrite (off : Z) (buf : list Z) : Q Z :=
  ret ← on_file (bdrv_pwrite size_bits off buf (Z.of_nat (length buf)));
  record_io (IoWrite off buf ret);; mret ret.
Definition file_flush : Q Z :=
  ret ← on_file bdrv_flush; record_io (IoFlush ret);; mret ret.

(** ** Flushing *)

Section flush.
Context (flush_rec : cid -> Q Z).

Definition qcow2_cache_flush_dependency (c : cid) : Q Z :=
  d ← sm_get (fun s => (get_cache c s).(depends));
  d ← sm_lift d;
  ret ← flush_rec d;
  if ret <? 0 then mret ret
  else
    sm_modify (fun s => set_cache c (set_depends_on_flush false (set_depends None (get_cache c s))) s);;
    mret 0.

Definition qcow2_cache_entry_flush (c : cid) (i : nat) : Q Z :=
  e ← get_entry c i;
  if negb e.(dirty) || (e.(offset) =? 0) then mret 0
  else
    ch ← sm_get (get_cache c);
    ret ← (if decide (is_Some ch.(depends)) then qcow2_cache_flush_dependency c
           else if ch.(depends_on_flush) then
             ret ← file_flush;
             (if 0 <=? ret
              then sm_modify (fun s => set_cache c (set_depends_on_flush false (get_cache c s)) s)
              else mret tt);;
             mret ret
           else mret 0);
    if ret <? 0 then mret ret
    else
      e ← get_entry c i;
      ret ← file_pwrite e.(offset) e.(table);
      if ret <? 0 then mret ret
      else upd_entry c i (set_dirty false);; mret 0.

(** The loop over the entries; [todo] of them are left. *)
Fixpoint flush_entries (c : cid) (i todo : nat) (result : Z) : Q Z :=
  match todo with
  | O => mret result
  | S todo =>
      ret ← qcow2_cache_entry_flush c i;
      flush_entries c (S i) todo
        (if (ret <? 0) && negb (result =? - ENOSPC) then ret else result)
  end.

Definition flush_body (c : cid) : Q Z :=
  n ← sm_get (fun s => length (get_cache c s).(entries));
  result ← flush_entries c 0 n 0;
  if result =? 0 then
    ret ← file_flush;
    mret (if ret <? 0 then ret else result)
  else mret result.
End flush.

(** The recursion through the dependency, with [fuel] as its depth *)
Fixpoint cache_flush (fuel : nat) (c : cid) : Q Z :=
  match fuel with
  | O => sm_fail
  | S fuel => flush_body (cache_flush fuel) c
  end.

(** A cache, the one it depends on, and one more *)
Definition DEPTH : nat := 3.

Definition qcow2_cache_flush (c : cid) : Q Z := cache_flush DEPTH c.
Definition flush_dependency (c : cid) : Q Z := qcow2_cache_flush_dependency qcow2_cache_flush c.
Definition entry_flush (c : cid) (i : nat) : Q Z := qcow2_cache_entry_flush qcow2_cache_flush c i.

Definition qcow2_cache_set_dependency (c dependency : cid) : Q Z :=
  dd ← sm_get (fun s => (get_cache dependency s).(depends));
  ret ← (if decide (is_Some dd) then flush_dependency dependency else mret 0);
  if ret <? 0 then mret ret
  else
    cd ← sm_get (fun s => (get_cache c s).(depends));
    ret ← (if decide (is_Some cd) then
             if decide (cd = Some dependency) then mret 0 else flush_dependency c
           else mret 0);
    if ret <? 0 then mret ret
    else
      sm_modify (fun s => set_cache c (set_depends (Some dependency) (get_cache c s)) s);; mret 0.

Definition qcow2_cache_depends_on_flush (c : cid) : Q unit :=
  sm_modify (fun s => set_cache c (set_depends_on_flush true (get_cache c s)) s).

(** ** Access to the tables *)

(** The search for the least used entry that nobody holds; every such entry
    loses half its hits.  [None] is the index -1. *)
Fixpoint replace_scan (l : list Qcow2CachedTable) (i : nat) (min_count : Z) (min_index : option nat)
    : option nat * list Qcow2CachedTable :=
  match l with
  | [] => (min_index, [])
  | e :: l =>
      if c_true e.(ref) then
        let '(r, l) := replace_scan l (S i) min_count min_index in (r, e :: l)
      else
        let '(min_count', min_index') :=
          if e.(cache_hits) <? min_count then (e.(cache_hits), Some i) else (min_count, min_index) in
        let '(r, l) := replace_scan l (S i) min_count' min_index' in
        (r, set_cache_hits (e.(cache_hits) `quot` 2) e :: l)
  end.

Definition qcow2_cache_find_entry_to_replace (c : cid) : Q nat :=
  l ← sm_get (fun s => (get_cache c s).(entries));
  let '(r, l) := replace_scan l 0 INT_MAX None in
  sm_modify (fun s => set_cache c (set_entries l (get_cache c s)) s);;
  sm_lift r.

(** The first entry of the offset *)
Fixpoint find_offset (l : list Qcow2CachedTable) (i : nat) (off : Z) : option nat :=
  match l with
  | [] => None
  | e :: l => if wrap 64 e.(offset) =? off then Some i else find_offset l (S i) off
  end.

(** The label [found], with the index of the entry as the table *)
Definition take_entry (c : cid) (i : nat) : Q (Z * nat) :=
  upd_entry c i (fun e => set_ref (e.(ref) + 1) (set_cache_hits (to_signed 32 (e.(cache_hits) + 1)) e));;
  mret (0, i).

(** [bdrv_pread] into the buffer of the entry; what it stored stays there even
    when it fails. *)
Definition fill_table (c : cid) (i : nat) (off : Z) : Q Z :=
  s ← sm_get id;
  '(ret, buf) ← file_pread off (cluster_size s);
  upd_entry c i (fun e => set_table (overwrite e.(table) 0 buf) e);;
  mret ret.

Definition qcow2_cache_do_get (c : cid) (off : Z) (read_from_disk : bool) : Q (Z * nat) :=
  l ← sm_get (fun s => (get_cache c s).(entries));
  match find_offset l 0 off with
  | Some i => take_entry c i
  | None =>
      i ← qcow2_cache_find_entry_to_replace c;
      ret ← entry_flush c i;
      if ret <? 0 then mret (ret, i)
      else
        upd_entry c i (set_offset 0);;
        ret ← (if read_from_disk then fill_table c i off else mret 0);
        if ret <? 0 then mret (ret, i)
        else
          upd_entry c i (fun e => set_offset (to_signed 64 off) (set_cache_hits 32 e));;
          take_entry c i
  end.

Definition qcow2_cache_get (c : cid) (off : Z) : Q (Z * nat) := qcow2_cache_do_get c off true.
Definition qcow2_cache_get_empty (c : cid) (off : Z) : Q (Z * nat) := qcow2_cache_do_get c off false.

Definition qcow2_cache_put (c : cid) (i : nat) : Q Z :=
  n ← sm_get (fun s => length (get_cache c s).(entries));
  if decide (i < n)%nat then
    upd_entry c i (fun e => set_ref (e.(ref) - 1) e);;
    e ← get_entry c i;
    sm_assert (0 <=? e.(ref));;
    ch ← sm_get (get_cache c);
    if ch.(writethrough) then entry_flush c i else mret 0
  else mret (- ENOENT).

Definition qcow2_cache_entry_mark_dirty (c : cid) (i : nat) : Q unit :=
  _ ← get_entry c i;
  upd_entry c i (set_dirty true).

(** The client stores into the buffer it got. *)
Definition table_store (c : cid) (i : nat) (t : list Z) : Q unit := upd_entry c i (set_table t).

Definition qcow2_cache_create (buffers : list (list Z)) (wt : bool) : Qcow2Cache :=
  mkCache ((fun t => mkEntry t 0 false 0 0) <$> buffers) None false wt.

Definition qcow2_cache_destroy (c : Qcow2Cache) : option Z :=
  if forallb (fun e => e.(ref) =? 0) c.(entries) then Some 0 else None.
End Qcow2.

(** ** The invariant: the caches over the file are one array of bytes *)

Section refine.
Context {D : Type} (size_bits : Z) (d : BlockDriver D) {store : SectorStore d}.
Implicit Types (s : BDRVQcowState (D := D)) (f : Z -> Z) (e : Qcow2CachedTable).

Definition entry_at s (c : cid) (i : nat) : option Qcow2CachedTable := (get_cache c s).(entries) !! i.
Definition file_view s : Z -> Z := view d s.(file).
Definition covers s e (p : Z) : Prop := e.(offset) <> 0 /\ e.(offset) <= p < e.(offset) + cluster_size s.

(** An offset of a table: a multiple of the cluster size inside 63 bits *)
Definition table_offset s (off : Z) : Prop :=
  0 < off /\ off mod cluster_size s = 0 /\ off + cluster_size s < 2 ^ 63.

Definition entry_ok s e : Prop :=
  Z.of_nat (length e.(table)) = cluster_size s /\ (e.(offset) <> 0 -> table_offset s e.(offset)).

(** Everything but the agreement of the tables with [f] *)
Record shape s : Prop := {
  sh_plain : plain d s.(file);
  sh_bits : 9 <= s.(cluster_bits) <= 21;
  sh_entry : forall c i e, entry_at s c i = Some e -> entry_ok s e;
  sh_distinct : forall c i e c' j e', entry_at s c i = Some e -> entry_at s c' j = Some e' ->
    e.(offset) <> 0 -> e.(offset) = e'.(offset) -> c = c' /\ i = j;
  sh_depends : forall c c', (get_cache c s).(depends) = Some c' ->
    c' <> c /\ (get_cache c' s).(depends) = None
}.

(** [f] is what the image holds: every cached table agrees with it, and so does
    the file wherever no dirty table lies.  The entry [h] may be exempt. *)
Record agrees (h : option (cid * nat)) s f : Prop := {
  ag_table : forall c i e, entry_at s c i = Some e -> e.(offset) <> 0 -> h <> Some (c, i) ->
    e.(table) = bytes_at f e.(offset) (cluster_size s);
  ag_file : forall p,
    (forall c i e, entry_at s c i = Some e -> e.(dirty) = true \/ h = Some (c, i) -> ~ covers s e p) ->
    file_view s p = f p
}.

Definition inv s f : Prop := shape s /\ agrees None s f.

Lemma cluster_size_pos s : shape s -> 512 <= cluster_size s < 2 ^ 22 /\ cluster_size s mod 512 = 0.
Proof.
  intros Hs. pose proof (sh_bits s Hs) as Hb. unfold cluster_size. rewrite Z.shiftl_1_l.
  replace s.(cluster_bits) with (9 + (s.(cluster_bits) - 9)) by lia.
  rewrite Z.pow_add_r by lia. change (2 ^ 9) with 512.
  pose proof (Z.pow_le_mono_r 2 (s.(cluster_bits) - 9) 12 ltac:(lia) ltac:(lia)).
  pose proof (Z.pow_pos_nonneg 2 (s.(cluster_bits) - 9) ltac:(lia) ltac:(lia)).
  change (2 ^ 12) with 4096 in *. split; [lia |]. by rewrite Z.mul_comm, Z.mod_mul by lia.
Qed.

(** Tables at different offsets do not overlap. *)
Lemma offsets_disjoint s o o' p :
  shape s -> table_offset s o -> table_offset s o' ->
  o <= p < o + cluster_size s -> o' <= p < o' + cluster_size s -> o = o'.
Proof.
  intros Hs (Ho & Hm & _) (Ho' & Hm' & _) Hp Hp'. pose proof (cluster_size_pos s Hs) as [Hcs _].
  apply Z.mod_divide in Hm as [k Hk]; [| lia]. apply Z.mod_divide in Hm' as [k' Hk']; [| lia].
  rewrite Hk, Hk' in *. assert (k = k') as -> by nia. done.
Qed.

(** *** Changes of the state *)

Lemma get_set_cache c c' v s :
  get_cache c (set_cache c' v s) = if decide (c = c') then v else get_cache c s.
Proof. by destruct c, c'. Qed.

Definition upd (c : cid) (i : nat) (g : Qcow2CachedTable -> Qcow2CachedTable) s :=
  set_cache c (set_entries (alter g i (get_cache c s).(entries)) (get_cache c s)) s.

Lemma entry_at_upd c i g s c' j :
  entry_at (upd c i g s) c' j =
  if decide (c' = c /\ j = i) then g <$> entry_at s c i else entry_at s c' j.
Proof.
  unfold entry_at, upd. rewrite get_set_cache. destruct (decide (c' = c)) as [-> | Hc]; cbn.
  - destruct (decide (j = i)) as [-> | Hj].
    + rewrite decide_True by done. apply list_lookup_alter_eq.
    + rewrite decide_False by tauto. by rewrite list_lookup_alter_ne by congruence.
  - by rewrite decide_False by tauto.
Qed.

Lemma depends_upd c i g s c' : (get_cache c' (upd c i g s)).(depends) = (get_cache c' s).(depends).
Proof. unfold upd. rewrite get_set_cache. by case_decide; subst. Qed.

(** What flushing may change: dirty marks go away, dependencies are resolved *)
Definition meta s :=
  (s.(cluster_bits), s.(refcount_table), s.(refcount_table_offset), s.(refcount_table_size),
   s.(free_cluster_index), s.(free_byte_offset)).

Definition cleaned e e' : Prop := exists b, e' = set_dirty b e /\ (b = true -> e.(dirty) = true).

Record tidies s s' : Prop := {
  td_meta : meta s' = meta s;
  td_entry : forall c i e, entry_at s c i = Some e -> exists e', entry_at s' c i = Some e' /\ cleaned e e';
  td_none : forall c i, entry_at s c i = None -> entry_at s' c i = None;
  td_wt : forall c, (get_cache c s').(writethrough) = (get_cache c s).(writethrough);
  td_dep : forall c, (get_cache c s').(depends) = (get_cache c s).(depends) \/ (get_cache c s').(depends) = None
}.

(** ... and every mark that went away stands for a write that succeeded. *)
Definition written (l : list io_event) e : Prop :=
  exists r, 0 <= r /\ IoWrite e.(offset) e.(table) r ∈ l.

Definition accounted s s' (new : list io_event) : Prop :=
  s'.(io_log) = new ++ s.(io_log) /\
  forall c i e e', entry_at s c i = Some e -> entry_at s' c i = Some e' ->
    e.(dirty) = true -> e.(offset) <> 0 -> e'.(dirty) = false -> written new e.

Definition flushes s s' : Prop := tidies s s' /\ exists new, accounted s s' new.

Lemma cleaned_refl e : cleaned e e.
Proof. exists e.(dirty). by destruct e. Qed.

Lemma cleaned_trans e1 e2 e3 : cleaned e1 e2 -> cleaned e2 e3 -> cleaned e1 e3.
Proof. intros (b & -> & Hb) (b' & -> & Hb'). exists b'. split; [done |]. cbn in *. auto. Qed.

Lemma tidies_same s s' :
  meta s' = meta s -> (forall c i, entry_at s' c i = entry_at s c i) ->
  (forall c, (get_cache c s').(writethrough) = (get_cache c s).(writethrough) /\
     (get_cache c s').(depends) = (get_cache c s).(depends)) -> tidies s s'.
Proof.
  intros Hm He Hc. split; [done | | | apply Hc | intros c; left; apply Hc].
  - intros c i e E. exists e. rewrite He. split; [done | apply cleaned_refl].
  - intros c i. by rewrite He.
Qed.

Lemma tidies_trans s1 s2 s3 : tidies s1 s2 -> tidies s2 s3 -> tidies s1 s3.
Proof.
  intros [M1 E1 N1 W1 D1] [M2 E2 N2 W2 D2]. split.
  - congruence.
  - intros c i e E. destruct (E1 c i e E) as (e' & E' & H1). destruct (E2 c i e' E') as (e'' & E'' & H2).
    exists e''. split; [done |]. by eapply cleaned_trans.
  - auto.
  - intros c. by rewrite W2.
  - intros c. destruct (D2 c) as [-> | ->]; [apply D1 | by right].
Qed.

Lemma td_back s s' c i e' :
  tidies s s' -> entry_at s' c i = Some e' -> exists e, entry_at s c i = Some e /\ cleaned e e'.
Proof.
  intros Hf E'. destruct (entry_at s c i) as [e |] eqn:E.
  - destruct (td_entry _ _ Hf c i e E) as (e'' & E'' & H). exists e. split; [done |]. congruence.
  - by rewrite (td_none _ _ Hf c i E) in E'.
Qed.

Lemma written_mono l l' e : l ⊆ l' -> written l e -> written l' e.
Proof. intros Hsub (r & Hr & Hin). exists r. split; [done |]. by apply Hsub. Qed.

Lemma accounted_trans s1 s2 s3 n1 n2 :
  tidies s1 s2 -> accounted s1 s2 n1 -> accounted s2 s3 n2 -> accounted s1 s3 (n2 ++ n1).
Proof.
  intros Ht [L1 A1] [L2 A2]. split; [by rewrite L2, L1, app_assoc |].
  intros c i e e'' E E'' Hd Ho Hd''. destruct (td_entry _ _ Ht c i e E) as (e' & E' & b & -> & Hb).
  destruct b.
  - apply (written_mono n2); [set_solver |].
    exact (A2 c i _ e'' E' E'' eq_refl Ho Hd'').
  - apply (written_mono n1); [set_solver |].
    exact (A1 c i e _ E E' Hd Ho eq_refl).
Qed.

Lemma accounted_same s s' new :
  s'.(io_log) = new ++ s.(io_log) -> (forall c i, entry_at s' c i = entry_at s c i) ->
  accounted s s' new.
Proof.
  intros Hl He. split; [done |]. intros c i e e' E E'. rewrite He in E'. congruence.
Qed.

Lemma flushes_refl s : flushes s s.
Proof. split; [by apply tidies_same |]. exists []. by apply accounted_same. Qed.

Lemma flushes_trans s1 s2 s3 : flushes s1 s2 -> flushes s2 s3 -> flushes s1 s3.
Proof.
  intros [T1 [n1 A1]] [T2 [n2 A2]]. split; [by eapply tidies_trans |].
  exists (n2 ++ n1). by eapply accounted_trans.
Qed.

Lemma same_cluster_size s s' : meta s' = meta s -> cluster_size s' = cluster_size s.
Proof. intros H. unfold cluster_size. by injection H as ->. Qed.

(** The shape depends on the offsets and the lengths of the tables only. *)
Lemma shape_tidies s s' :
  shape s -> tidies s s' -> plain d s'.(file) -> shape s'.
Proof.
  intros Hs Hf Hp. pose proof (td_meta _ _ Hf) as Hm.
  assert (Hb : s'.(cluster_bits) = s.(cluster_bits)) by (by injection Hm).
  pose proof (same_cluster_size _ _ Hm) as Hcs. split.
  - done.
  - rewrite Hb. apply (sh_bits s Hs).
  - intros c i e' E'. destruct (td_back _ _ _ _ _ Hf E') as (e & E & b & -> & _).
    destruct (sh_entry s Hs c i e E) as [Hl Ho]. unfold entry_ok, table_offset in *. by rewrite Hcs.
  - intros c i e1 c' j e2 E1 E2. destruct (td_back _ _ _ _ _ Hf E1) as (e & E & b & -> & _).
    destruct (td_back _ _ _ _ _ Hf E2) as (e' & E' & b' & -> & _). cbn. by apply (sh_distinct s Hs).
  - intros c c' E. destruct (td_dep _ _ Hf c) as [Hd | Hd]; [| congruence].
    destruct (sh_depends s Hs c c') as [Hne Hn]; [congruence |]. split; [done |].
    destruct (td_dep _ _ Hf c') as [-> | ->]; [by rewrite Hn | done].
Qed.

(** *** The operations of the file *)

Definition with_file fl s : BDRVQcowState := set_file fl s.
Definition logged ev fl s : BDRVQcowState := set_io_log (ev :: s.(io_log)) (set_file fl s).

Lemma file_pread_runs s off n :
  plain d s.(file) -> 0 <= off -> 0 <= n < 2 ^ 31 -> off + n < 2 ^ 63 ->
  runs (file_pread size_bits off n) s (fun r s' => exists fl, s' = set_file fl s /\
    read_outcome d s.(file) off n r fl).
Proof.
  intros Hp Ho Hn Hlim. unfold runs, file_pread, on_file.
  destruct (bdrv_pread_runs size_bits d s.(file) off n Hp Ho Hn Hlim) as (r & fl & E & H).
  do 2 eexists. rewrite E. split; [done |]. by exists fl.
Qed.

Lemma file_pwrite_runs s off buf :
  plain d s.(file) -> 0 <= off -> Z.of_nat (length buf) < 2 ^ 31 ->
  off + Z.of_nat (length buf) < 2 ^ 63 ->
  runs (file_pwrite size_bits off buf) s (fun r s' => exists fl,
    s' = logged (IoWrite off buf r) fl s /\ outcome d s.(file) off buf (Z.of_nat (length buf)) r fl).
Proof.
  intros Hp Ho Hn Hlim. unfold file_pwrite. sm_step.
  destruct (bdrv_pwrite_runs size_bits d s.(file) off buf Hp Ho Hn Hlim) as (r & fl & E & H).
  exists r, (set_file fl s). split; [unfold on_file; by rewrite E |].
  unfold record_io. sm_step. sm_step. sm_step. by exists fl.
Qed.

Lemma file_flush_runs s :
  plain d s.(file) ->
  runs file_flush s (fun r s' => exists fl, s' = logged (IoFlush r) fl s /\
    plain d fl /\ forall p, view d fl p = view d s.(file) p).
Proof.
  intros Hp. unfold file_flush. sm_step.
  assert (exists r fl, bdrv_flush s.(file) = Some (r, fl) /\ plain d fl /\
    forall p, view d fl p = view d s.(file) p) as (r & fl & E & Hfl).
  { unfold bdrv_flush. destruct (c_true _); [by exists 0, s.(file) |].
    rewrite (proj1 Hp). cbn [mbind option_bind]. destruct (drv_flush d) as [g |] eqn:Eg;
      [| by exists 0, s.(file)].
    destruct (g _) as [r o] eqn:Er. do 2 eexists. split; [done |]. split; [by destruct s.(file) |].
    intros p. exact (flush_law _ _ _ _ Eg Er p). }
  exists r, (set_file fl s). split; [unfold on_file; by rewrite E |].
  unfold record_io. sm_step. sm_step. sm_step. by exists fl.
Qed.

(** An event of the file that leaves the caches alone *)
Lemma tidies_logged ev fl s : tidies s (logged ev fl s).
Proof. apply tidies_same; [done | by intros [] | by intros []]. Qed.

Lemma accounted_logged ev fl s : accounted s (logged ev fl s) [ev].
Proof. apply accounted_same; [done | by intros []]. Qed.

Lemma entry_at_logged ev fl s c i : entry_at (logged ev fl s) c i = entry_at s c i.
Proof. by destruct c. Qed.

(** A step that keeps the entries and what the file shows keeps the agreement. *)
Lemma agrees_file h s s' f :
  agrees h s f -> (forall c i, entry_at s' c i = entry_at s c i) ->
  cluster_size s' = cluster_size s -> (forall p, file_view s' p = file_view s p) -> agrees h s' f.
Proof.
  intros [Ht Hf] He Hcs Hv. split.
  - intros c i e E. rewrite He in E. rewrite Hcs. by apply Ht.
  - intros p Hp. rewrite Hv. apply Hf. intros c i e E. rewrite <- He in E. unfold covers in *.
    rewrite <- Hcs. by apply (Hp c i e).
Qed.

Lemma inv_flush_event s f r fl :
  inv s f -> plain d fl -> (forall p, view d fl p = view d s.(file) p) ->
  inv (logged (IoFlush r) fl s) f.
Proof.
  intros [Hs Ha] Hp Hv. split; [by apply (shape_tidies s _ Hs (tidies_logged _ _ _)) |].
  apply (agrees_file None s); [done | apply entry_at_logged | done | done].
Qed.

(** Writing a dirty table, whether it succeeds or not *)
Lemma inv_write_event s f c i e r fl :
  inv s f -> entry_at s c i = Some e -> e.(dirty) = true -> e.(offset) <> 0 ->
  outcome d s.(file) e.(offset) e.(table) (cluster_size s) r fl ->
  inv (logged (IoWrite e.(offset) e.(table) r) fl s) f /\
  (0 <= r -> forall p, view d fl p = splice (file_view s) e.(offset) e.(table) p).
Proof.
  intros [Hs Ha] E Hd Ho [_ (Hsame & Hout & Hin)].
  destruct (sh_entry s Hs c i e E) as [Hl Htab]. destruct (Htab Ho) as (Hpos & Hmod & Hlim).
  pose proof (cluster_size_pos s Hs) as [Hcs Hcs512].
  assert (Hp : plain d fl) by (eapply same_dev_plain; [done | apply (sh_plain s Hs)]).
  split; [| intros Hr p; apply Hin; by apply Z.leb_le].
  split; [by apply (shape_tidies s _ Hs (tidies_logged _ _ _)) |]. split.
  - intros c' j e'. rewrite entry_at_logged. apply (ag_table _ _ _ Ha).
  - intros p Hp'. assert (~ covers s e p) as Hne.
    { specialize (Hp' c i e). rewrite entry_at_logged in Hp'. by apply Hp'; [| left]. }
    assert (Hoff : e.(offset) mod 512 = 0).
    { apply Z.mod_divide in Hmod as [k ->]; [| lia]. apply Z.mod_divide in Hcs512 as [k' ->]; [| lia].
      rewrite Z.mul_assoc. by apply Z.mod_mul. }
    change (view d fl p = f p). rewrite Hout.
    + apply (ag_file _ _ _ Ha). intros c' j e' E'. specialize (Hp' c' j e').
      rewrite entry_at_logged in Hp'. by apply Hp'.
    + intros Hr. apply Hne. split; [done |]. rewrite Hl in Hr.
      Z.to_euclidean_division_equations; lia.
Qed.

(** Clearing the mark of a table that is on disk *)
Lemma tidies_clean c i s : tidies s (upd c i (set_dirty false) s).
Proof.
  split; [by destruct c | | | |].
  - intros c' j e' E'. rewrite entry_at_upd. destruct (decide _) as [[-> ->] |].
    + rewrite E'. exists (set_dirty false e'). split; [done |]. by exists false.
    + exists e'. split; [done | apply cleaned_refl].
  - intros c' j Hn. rewrite entry_at_upd. destruct (decide _) as [[-> ->] |]; [by rewrite Hn | done].
  - intros c'. unfold upd. rewrite get_set_cache. by case_decide; subst.
  - intros c'. left. apply depends_upd.
Qed.

Lemma inv_clean s f c i e :
  inv s f -> entry_at s c i = Some e ->
  (e.(offset) <> 0 -> forall p, covers s e p -> file_view s p = f p) ->
  inv (upd c i (set_dirty false) s) f.
Proof.
  intros [Hs Ha] E Hdisk. pose proof (tidies_clean c i s) as Hf.
  set (s' := upd c i (set_dirty false) s) in *.
  assert (Hcs : cluster_size s' = cluster_size s) by apply same_cluster_size, Hf.
  assert (Hfile : s'.(file) = s.(file)) by (by destruct c). split.
  - apply (shape_tidies s s' Hs Hf). rewrite Hfile. apply (sh_plain s Hs).
  - split.
    + intros c' j e' E' Ho' _. destruct (td_back _ _ _ _ _ Hf E') as (e0 & E0 & b & -> & _).
      rewrite Hcs. by apply (ag_table _ _ _ Ha c' j e0).
    + intros p Hp. change (view d s'.(file) p = f p). rewrite Hfile.
      destruct (decide (e.(offset) <> 0 /\ e.(offset) <= p < e.(offset) + cluster_size s)) as [Hc | Hc].
      * exact (Hdisk (proj1 Hc) p Hc).
      * apply (ag_file _ _ _ Ha). intros c' j e' E' Hd'. destruct (decide (c' = c /\ j = i)) as [[-> ->] |].
        { rewrite E in E'. by injection E' as <-. }
        assert (He : entry_at s' c' j = Some e').
        { unfold s'. by rewrite entry_at_upd, decide_False. }
        unfold covers in *. rewrite <- Hcs. by apply (Hp c' j e').
Qed.

Definition clean_at s c i : Prop :=
  forall e, entry_at s c i = Some e -> e.(dirty) = false \/ e.(offset) = 0.

(** The writes of [new] are of tables of the cache [c]. *)
Definition only_writes (c : cid) s (new : list io_event) : Prop :=
  forall off t r, IoWrite off t r ∈ new ->
    exists i e, entry_at s c i = Some e /\ e.(offset) = off /\ off <> 0.

(** What every flushing operation establishes; [A] holds of its events and the
    state in any case, [P] when it succeeds. *)
Definition flush_post s f (A P : list io_event -> BDRVQcowState -> Prop) (r : Z) s' : Prop :=
  r <= 0 /\ inv s' f /\ tidies s s' /\
  exists new, accounted s s' new /\ A new s' /\ (r = 0 -> P new s').

(** Only the cache [c] changed. *)
Definition only (c : cid) s s' : Prop := forall c', c' <> c -> get_cache c' s' = get_cache c' s.

Lemma only_refl c s : only c s s.
Proof. done. Qed.
Lemma only_trans c s1 s2 s3 : only c s1 s2 -> only c s2 s3 -> only c s1 s3.
Proof. intros H1 H2 c' Hc. by rewrite H2, H1. Qed.
Lemma only_upd c i g s : only c s (upd c i g s).
Proof. intros c' Hc. unfold upd. by rewrite get_set_cache, decide_False. Qed.
Lemma only_logged c ev fl s : only c s (logged ev fl s).
Proof. by intros [] _. Qed.
Lemma only_set_cache c v s : only c s (set_cache c v s).
Proof. intros c' Hc. by rewrite get_set_cache, decide_False. Qed.

Lemma flush_post_refl s f (A P : list io_event -> BDRVQcowState -> Prop) :
  inv s f -> A [] s -> P [] s -> flush_post s f A P 0 s.
Proof.
  intros Hi HA HP. split; [done |]. split; [done |]. split; [by apply tidies_same |].
  exists []. split; [by apply accounted_same | done].
Qed.

Lemma flush_post_after s s1 f n1 (A A1 P P1 : list io_event -> BDRVQcowState -> Prop) r s' :
  tidies s s1 -> accounted s s1 n1 -> flush_post s1 f A1 P1 r s' ->
  (forall n, A1 n s' -> A (n ++ n1) s') -> (forall n, A1 n s' -> P1 n s' -> P (n ++ n1) s') ->
  flush_post s f A P r s'.
Proof.
  intros Ht Ha (Hr & Hi & Ht' & n & Ha' & HA & HP) HA' HP'. split; [done |]. split; [done |].
  split; [by eapply tidies_trans |]. exists (n ++ n1). split; [by eapply accounted_trans |]. auto.
Qed.

(** A step that keeps the entries and what the file shows *)
Lemma inv_same s s' f :
  inv s f -> tidies s s' -> (forall c i, entry_at s' c i = entry_at s c i) -> plain d s'.(file) ->
  (forall p, file_view s' p = file_view s p) -> inv s' f.
Proof.
  intros [Hs Ha] Ht He Hp Hv. split; [by apply (shape_tidies s) |].
  apply (agrees_file None s); [done | done | apply same_cluster_size, Ht | done].
Qed.

(** A change of the flags of a cache *)
Lemma flag_step s f c (g : Qcow2Cache -> Qcow2Cache) :
  inv s f ->
  (forall ch, (g ch).(entries) = ch.(entries) /\ (g ch).(writethrough) = ch.(writethrough) /\
     ((g ch).(depends) = ch.(depends) \/ (g ch).(depends) = None)) ->
  let s' := set_cache c (g (get_cache c s)) s in
  inv s' f /\ tidies s s' /\ accounted s s' [].
Proof.
  intros Hi Hg s'.
  assert (He : forall c' i, entry_at s' c' i = entry_at s c' i).
  { intros c' i. unfold entry_at, s'. rewrite get_set_cache. case_decide; [| done]. subst.
    by rewrite (proj1 (Hg _)). }
  assert (Ht : tidies s s').
  { split; [by destruct c | | | |].
    - intros c' i e E. exists e. rewrite He. split; [done | apply cleaned_refl].
    - intros c' i. by rewrite He.
    - intros c'. unfold s'. rewrite get_set_cache. case_decide; [| done]. subst. apply Hg.
    - intros c'. unfold s'. rewrite get_set_cache. case_decide; [| by left]. subst. apply Hg. }
  assert (Hf : s'.(file) = s.(file)) by (by destruct c).
  split; [| split; [done | apply accounted_same; [by destruct c | done]]].
  apply (inv_same s); [done | done | done | |].
  - rewrite Hf. apply (sh_plain s), Hi.
  - intros p. unfold file_view. by rewrite Hf.
Qed.

Lemma write_entry_runs s f c i e :
  inv s f -> entry_at s c i = Some e -> e.(dirty) = true -> e.(offset) <> 0 ->
  runs (ret ← file_pwrite size_bits e.(offset) e.(table);
        if ret <? 0 then mret ret else upd_entry c i (set_dirty false);; mret 0) s
    (flush_post s f (fun new s' => (exists r, new = [IoWrite e.(offset) e.(table) r]) /\ only c s s')
       (fun _ s' => clean_at s' c i)).
Proof.
  intros Hinv E Hd Ho. pose proof Hinv as [Hs Ha].
  destruct (sh_entry s Hs c i e E) as [Hl Htab]. destruct (Htab Ho) as (Hpos & Hmod & Hlim).
  pose proof (cluster_size_pos s Hs) as [Hcs _].
  sm_step. eapply runs_mono; [apply file_pwrite_runs; [apply (sh_plain s Hs) | lia..] |].
  intros r s1 (fl & -> & Hout). rewrite Hl in Hout.
  destruct (inv_write_event s f c i e r fl Hinv E Hd Ho Hout) as [Hinv1 Hview].
  set (ev := IoWrite e.(offset) e.(table) r) in *.
  pose proof (tidies_logged ev fl s) as Ht1. pose proof (accounted_logged ev fl s) as Ha1.
  set (s1 := logged ev fl s) in *. destruct (Z.ltb_spec r 0).
  { sm_step. split; [lia |]. split; [done |]. split; [done |]. exists [ev].
    split; [done |]. split; [| lia].
    split; [by exists r | apply only_logged]. }
  assert (E1 : entry_at s1 c i = Some e) by (unfold s1; by rewrite entry_at_logged).
  unfold upd_entry. sm_step. sm_step. sm_step. fold (upd c i (set_dirty false) s1).
  split; [done |]. split; [| split].
  - apply (inv_clean s1 f c i e Hinv1 E1). intros _ p [_ Hp].
    change (view d fl p = f p). rewrite Hview by done.
    rewrite (ag_table _ _ _ Ha c i e E Ho) by done.
    change (cluster_size s1) with (cluster_size s) in Hp.
    rewrite (splice_in _ _ _ _ (f p)); [done | lia |].
    rewrite bytes_at_lookup by lia. f_equal. f_equal. lia.
  - eapply tidies_trans; [done | apply tidies_clean].
  - exists [ev]. split; [| split; [split; [by exists r |] |]]; last first.
    { intros _ e' E'. rewrite entry_at_upd, decide_True, E1 in E' by done. injection E' as <-. by left. }
    { eapply only_trans; [apply only_logged | apply only_upd]. }
    split; [by destruct c |]. intros c' j e0 e' E0 E' Hd0 _ Hd'. rewrite entry_at_upd in E'.
    destruct (decide (c' = c /\ j = i)) as [[-> ->] |].
    + rewrite E in E0. injection E0 as <-. exists r. split; [lia |]. by apply list_elem_of_singleton.
    + unfold s1 in E'. rewrite entry_at_logged in E'. congruence.
Qed.

(** *** Flushing one entry *)

Lemma get_entry_runs s c i e (P : Qcow2CachedTable -> BDRVQcowState -> Prop) :
  entry_at s c i = Some e -> P e s -> runs (get_entry c i) s P.
Proof. intros E HP. unfold get_entry. sm_step. sm_step. by apply (runs_lift _ e). Qed.

Lemma only_writes_entry s c i e r :
  entry_at s c i = Some e -> e.(offset) <> 0 -> only_writes c s [IoWrite e.(offset) e.(table) r].
Proof.
  intros E Ho off t r' [= -> _ _]%list_elem_of_singleton. by exists i, e.
Qed.

Lemma only_writes_app s s1 c n n1 :
  tidies s s1 -> only_writes c s n1 -> only_writes c s1 n -> only_writes c s (n ++ n1).
Proof.
  intros Ht H1 H off t r [Hin | Hin]%elem_of_app; [| by eapply H1].
  destruct (H off t r Hin) as (i & e & E & Ho). destruct (td_back _ _ _ _ _ Ht E) as (e0 & E0 & b & -> & _).
  by exists i, e0.
Qed.

Lemma only_writes_flush s c r : only_writes c s [IoFlush r].
Proof. intros off t r' Hin%list_elem_of_singleton. done. Qed.

Lemma only_writes_nil s c : only_writes c s [].
Proof. intros off t r Hin. by apply not_elem_of_nil in Hin. Qed.

#[local] Hint Resolve only_writes_flush only_writes_nil only_refl only_logged only_set_cache : core.

(** Writing the entry after whatever had to come first *)
Lemma entry_written_runs s s1 f c i e n1 (A : list io_event -> BDRVQcowState -> Prop) :
  entry_at s c i = Some e -> e.(dirty) = true -> e.(offset) <> 0 ->
  inv s1 f -> tidies s s1 -> accounted s s1 n1 ->
  (forall b, entry_at s1 c i = Some (set_dirty b e) -> b = true) ->
  (forall r s', only c s1 s' -> A (IoWrite e.(offset) e.(table) r :: n1) s') ->
  runs (e ← get_entry c i;
        ret ← file_pwrite size_bits e.(offset) e.(table);
        if ret <? 0 then mret ret else upd_entry c i (set_dirty false);; mret 0) s1
    (flush_post s f A (fun _ s' => clean_at s' c i)).
Proof.
  intros E Hd Ho Hi Ht Ha Hb HA.
  destruct (td_entry _ _ Ht c i e E) as (e1 & E1 & b & -> & _). pose proof (Hb b E1) as ->.
  sm_step. apply (get_entry_runs _ _ _ _ _ E1).
  eapply runs_mono; [by apply write_entry_runs |]. intros r s' Hpost.
  apply (flush_post_after _ _ _ _ _ _ _ _ _ _ Ht Ha Hpost); [| done].
  intros n [(r' & ->) Hon]. by apply HA.
Qed.

(** A flush of a cache that depends on nothing *)
Definition all_clean (c : cid) s : Prop := forall i, clean_at s c i.

Definition flushed_log (new : list io_event) : Prop := exists r l, new = IoFlush r :: l /\ 0 <= r.

Definition rec_ok (rec : cid -> SM BDRVQcowState Z) : Prop :=
  forall s f c, inv s f -> (get_cache c s).(depends) = None ->
    runs (rec c) s (flush_post s f (fun new s' => only_writes c s new /\ only c s s')
      (fun new s' => all_clean c s' /\ flushed_log new)).

(** The entry is still dirty after a step that does not touch its cache. *)
Lemma still_dirty s s1 c i e :
  entry_at s c i = Some e -> e.(dirty) = true -> get_cache c s1 = get_cache c s ->
  forall b, entry_at s1 c i = Some (set_dirty b e) -> b = true.
Proof. intros E Hd Hc b. unfold entry_at in *. rewrite Hc, E. intros [= Hb]. rewrite Hb in Hd. done. Qed.

Lemma same_entries_dirty s s1 c i e :
  entry_at s c i = Some e -> e.(dirty) = true -> entry_at s1 c i = entry_at s c i ->
  forall b, entry_at s1 c i = Some (set_dirty b e) -> b = true.
Proof. intros E Hd Hc b. rewrite Hc, E. intros [= Hb]. rewrite Hb in Hd. done. Qed.

(** The flush of the file before the first write of a cache that asked for it *)
Lemma flush_first_runs s f c :
  inv s f ->
  runs (ret ← file_flush;
        (if 0 <=? ret
         then sm_modify (fun s => set_cache c (set_depends_on_flush false (get_cache c s)) s)
         else mret tt);;
        mret ret) s (fun r s' => inv s' f /\ tidies s s' /\ only c s s' /\
    accounted s s' [IoFlush r] /\ forall i, entry_at s' c i = entry_at s c i).
Proof.
  intros Hi. sm_step. eapply runs_mono; [apply file_flush_runs, (sh_plain s), Hi |].
  intros r s1 (fl & -> & Hp & Hv). pose proof (inv_flush_event s f r fl Hi Hp Hv) as Hi1.
  pose proof (tidies_logged (IoFlush r) fl s) as Ht1.
  pose proof (accounted_logged (IoFlush r) fl s) as Ha1. set (s1 := logged _ _ _) in *.
  assert (He1 : forall i, entry_at s1 c i = entry_at s c i) by (intros; apply entry_at_logged).
  sm_step. destruct (Z.leb_spec 0 r).
  - sm_step. sm_step.
    destruct (flag_step s1 f c (set_depends_on_flush false) Hi1) as (Hi2 & Ht2 & Ha2).
    { intros ch. split; [done |]. split; [done |]. by left. }
    split; [done |]. split; [by eapply tidies_trans |].
    split; [eapply only_trans; [apply only_logged | apply only_set_cache] |].
    split; [by apply (accounted_trans s s1 _ [IoFlush r] [] Ht1 Ha1) |].
    intros i. rewrite <- He1. unfold entry_at. rewrite get_set_cache, decide_True by done. done.
  - sm_step. sm_step. split; [done |]. split; [done |]. split; [by apply only_logged |]. done.
Qed.

Lemma entry_flush_nodep rec s f c i :
  inv s f -> (get_cache c s).(depends) = None -> is_Some (entry_at s c i) ->
  runs (qcow2_cache_entry_flush size_bits rec c i) s
    (flush_post s f (fun new s' => only_writes c s new /\ only c s s') (fun _ s' => clean_at s' c i)).
Proof.
  intros Hi Hdep [e E]. unfold qcow2_cache_entry_flush. sm_step. apply (get_entry_runs _ _ _ _ _ E).
  destruct (negb (dirty e) || (offset e =? 0)) eqn:Hskip.
  { sm_step. apply flush_post_refl; [done | done |]. intros e' E'. rewrite E in E'. injection E' as <-.
    apply orb_true_iff in Hskip as [Hc%negb_true_iff | Hc%Z.eqb_eq]; auto. }
  apply orb_false_iff in Hskip as [Hd%negb_false_iff Ho%Z.eqb_neq].
  sm_step. sm_step. rewrite Hdep. rewrite decide_False by (by intros [? ?]).
  sm_step. destruct (depends_on_flush _).
  - eapply runs_mono; [by apply (flush_first_runs s f c) |].
    intros r s1 (Hi1 & Ht1 & Hon & Ha1 & He1). destruct (Z.ltb_spec r 0).
    + sm_step. split; [lia |]. split; [done |]. split; [done |]. exists [IoFlush r].
      split; [done |]. split; [auto | lia].
    + eapply entry_written_runs; [done | done | done | done | done | done | |].
      * by apply (same_entries_dirty s s1 c i e E Hd).
      * intros r' s' Hon'. split; [| by eapply only_trans].
        by apply (only_writes_app s s c [_] [_]); [apply tidies_same | | apply only_writes_entry with i].
  - sm_step. eapply entry_written_runs with (n1 := []); [done | done | done | done | | | |].
    + by apply tidies_same.
    + by apply accounted_same.
    + by apply (same_entries_dirty s s c i e E Hd).
    + intros r' s' Hon'. split; [| done]. by apply only_writes_entry with i.
Qed.

(** The loop over the entries, given what flushing one of them does *)
Lemma flush_entries_runs rec c (A : BDRVQcowState -> list io_event -> BDRVQcowState -> Prop)
    (I : BDRVQcowState -> Prop) f :
  (forall s i, inv s f -> I s -> is_Some (entry_at s c i) ->
     runs (qcow2_cache_entry_flush size_bits rec c i) s (fun r s' =>
       flush_post s f (A s) (fun _ s' => clean_at s' c i) r s' /\ I s')) ->
  (forall s, A s [] s) ->
  (forall s s1 s2 n1 n2, tidies s s1 -> A s n1 s1 -> A s1 n2 s2 -> A s (n2 ++ n1) s2) ->
  forall todo i result s, inv s f -> I s -> result <= 0 ->
  (forall j, (i <= j < i + todo)%nat -> is_Some (entry_at s c j)) ->
  runs (flush_entries size_bits rec c i todo result) s (fun r s' =>
    (r = 0 -> result = 0) /\ I s' /\
    flush_post s f (A s) (fun _ s' => forall j, (i <= j < i + todo)%nat -> clean_at s' c j) r s').
Proof.
  intros Hentry HA0 HA. induction todo as [| todo IH]; intros i result s Hi HI Hres Hin; cbn [flush_entries].
  { sm_step. split; [done |]. split; [done |]. split; [done |]. split; [done |].
    split; [by apply tidies_same |]. exists []. split; [by apply accounted_same |]. split; [done |].
    intros _ j Hj. lia. }
  sm_step. eapply runs_mono; [apply Hentry; [done | done | apply Hin; lia] |].
  intros r s1 [(Hr & Hi1 & Ht1 & n1 & Ha1 & HA1 & HP1) HI1].
  eapply runs_mono; [apply (IH (S i)); [done | done | |] |].
  - destruct ((r <? 0) && _); lia.
  - intros j Hj. destruct (Hin j ltac:(lia)) as [e E].
    destruct (td_entry _ _ Ht1 c j e E) as (e' & E' & _). by exists e'.
  - intros r' s2 (Hz & HI2 & Hr' & Hi2 & Ht2 & n2 & Ha2 & HA2 & HP2).
    assert (Hzero : r' = 0 -> result = 0 /\ r = 0).
    { intros H0%Hz. destruct (Z.ltb_spec r 0); cbn [andb] in H0; [| lia].
      destruct (result =? - ENOSPC) eqn:En; cbn [negb] in H0; [| lia].
      apply Z.eqb_eq in En. unfold ENOSPC in En. lia. }
    split; [tauto |]. split; [done |]. split; [done |]. split; [done |].
    split; [by eapply tidies_trans |]. exists (n2 ++ n1).
    split; [by eapply accounted_trans |]. split; [by eapply HA |].
    intros H0 j Hj. destruct (decide (j = i)) as [-> |]; [| apply (HP2 H0); lia].
    intros e2 E2. destruct (td_back _ _ _ _ _ Ht2 E2) as (e1 & E1 & b & -> & Hb). cbn.
    destruct (HP1 (proj2 (Hzero H0)) e1 E1) as [Hc | Hc]; [left | by right].
    destruct b; [| done]. by rewrite Hb in Hc.
Qed.

(** *** Flushing a cache *)

(** The end of [qcow2_cache_flush], after the loop *)
Lemma flush_body_runs rec c s f (A : list io_event -> BDRVQcowState -> Prop) :
  inv s f ->
  runs (flush_entries size_bits rec c 0 (length (get_cache c s).(entries)) 0) s
    (flush_post s f A (fun _ s' =>
       forall j, (0 <= j < 0 + length (get_cache c s).(entries))%nat -> clean_at s' c j)) ->
  (forall n s1 r fl, A n s1 -> A (IoFlush r :: n) (logged (IoFlush r) fl s1)) ->
  runs (flush_body size_bits rec c) s
    (flush_post s f A (fun new s' => all_clean c s' /\ flushed_log new)).
Proof.
  intros Hi Hloop HA. unfold flush_body. sm_step. sm_step. sm_step.
  eapply runs_mono; [done |]. intros r s1 (Hr & Hi1 & Ht1 & n1 & Ha1 & HA1 & HP1).
  destruct (Z.eqb_spec r 0) as [-> | Hne].
  - sm_step. eapply runs_mono; [apply file_flush_runs, (sh_plain s1), Hi1 |].
    intros r2 s2 (fl & -> & Hp & Hv). pose proof (inv_flush_event s1 f r2 fl Hi1 Hp Hv) as Hi2.
    pose proof (tidies_logged (IoFlush r2) fl s1) as Ht2.
    pose proof (accounted_trans _ _ _ _ _ Ht1 Ha1 (accounted_logged (IoFlush r2) fl s1)) as Ha2.
    sm_step. split; [case_match; lia |]. split; [done |]. split; [by eapply tidies_trans |].
    exists (IoFlush r2 :: n1). split; [done |]. split; [by apply HA |].
    destruct (Z.ltb_spec r2 0); [lia |]. intros _. split; [| by exists r2, n1].
    intros i e E. rewrite entry_at_logged in E. apply (HP1 eq_refl i); [| done].
    destruct (td_back _ _ _ _ _ Ht1 E) as (e0 & E0 & _). apply lookup_lt_Some in E0. lia.
  - sm_step. split; [done |]. split; [done |]. split; [done |]. exists n1. split; [done |].
    split; [done | lia].
Qed.

Lemma entries_inside s c j :
  (0 <= j < 0 + length (get_cache c s).(entries))%nat -> is_Some (entry_at s c j).
Proof. intros Hj. apply lookup_lt_is_Some. lia. Qed.

Lemma flush_nodep rec s f c :
  inv s f -> (get_cache c s).(depends) = None ->
  runs (flush_body size_bits rec c) s
    (flush_post s f (fun new s' => only_writes c s new /\ only c s s')
       (fun new s' => all_clean c s' /\ flushed_log new)).
Proof.
  intros Hi Hdep. apply flush_body_runs; [done | |].
  - eapply runs_mono;
      [apply (flush_entries_runs rec c (fun s new s' => only_writes c s new /\ only c s s')
         (fun s => (get_cache c s).(depends) = None) f) |].
    + intros s1 i Hi1 Hd1 Hs1. eapply runs_mono; [by apply entry_flush_nodep |].
      intros r s2 Hp. split; [done |]. destruct Hp as (_ & _ & Ht & _).
      destruct (td_dep _ _ Ht c) as [-> | ->]; [by rewrite Hd1 | done].
    + intros s1. split; [apply only_writes_nil | apply only_refl].
    + intros s0 s1 s2 n1 n2 Ht [H1 O1] [H2 O2].
      split; [by eapply only_writes_app | by eapply only_trans].
    + done.
    + done.
    + done.
    + apply entries_inside.
    + intros r s' (_ & _ & H). exact H.
  - intros n s1 r fl [H O]. split; [| eapply only_trans; [done | apply only_logged]].
    intros off t r' [[=] | Hin]%elem_of_cons. by eapply H.
Qed.

Lemma cache_flush_rec_ok k : rec_ok (cache_flush size_bits (S k)).
Proof. intros s f c Hi Hd. cbn [cache_flush]. by apply flush_nodep. Qed.

(** The events [l] (latest first) contain a successful flush of the file, and
    before it a successful write of every table of [c] that is dirty in [s]. *)
Definition barrier (c : cid) s (l : list io_event) : Prop :=
  exists l1 r l2, l = l1 ++ IoFlush r :: l2 /\ 0 <= r /\
    forall i e, entry_at s c i = Some e -> e.(dirty) = true -> e.(offset) <> 0 -> written l2 e.

(** What a dependency adds to the events: every write of a table of [c] has the
    barrier behind it, and the dependency is only given up after the barrier. *)
Definition in_order (c : cid) s (new : list io_event) s' : Prop :=
  forall c', (get_cache c s).(depends) = Some c' ->
    (forall off t r l, (IoWrite off t r :: l) `suffix_of` new ->
       (exists i e, entry_at s c i = Some e /\ e.(offset) = off /\ off <> 0) -> barrier c' s l) /\
    ((get_cache c s').(depends) = None -> barrier c' s new).

Lemma dependency_runs rec s f c c' :
  rec_ok rec -> inv s f -> (get_cache c s).(depends) = Some c' ->
  runs (qcow2_cache_flush_dependency rec c) s (fun r s' =>
    flush_post s f (fun new s' => only_writes c' s new /\ forall i, entry_at s' c i = entry_at s c i)
      (fun new s' => all_clean c' s' /\ flushed_log new /\ (get_cache c s').(depends) = None) r s' /\
    (r < 0 -> get_cache c s' = get_cache c s)).
Proof.
  intros Hrec Hi Hdep. destruct (sh_depends s (proj1 Hi) c c' Hdep) as [Hne Hnone].
  unfold qcow2_cache_flush_dependency. sm_step. sm_step. sm_step.
  apply (runs_lift _ c'); [done |]. sm_step.
  eapply runs_mono; [apply (Hrec s f c' Hi Hnone) |].
  intros r s1 (Hr & Hi1 & Ht1 & n1 & Ha1 & [Hw Hon] & HP).
  assert (He1 : forall i, entry_at s1 c i = entry_at s c i).
  { intros i. unfold entry_at. by rewrite Hon. }
  destruct (Z.ltb_spec r 0).
  { sm_step. split; [| intros _; by apply Hon]. split; [lia |]. split; [done |]. split; [done |].
    exists n1. split; [done |]. split; [done | lia]. }
  assert (r = 0) as -> by lia. destruct (HP eq_refl) as [Hclean Hlog].
  destruct (flag_step s1 f c (fun ch => set_depends_on_flush false (set_depends None ch)) Hi1)
    as (Hi2 & Ht2 & Ha2). { intros ch. split; [done |]. split; [done |]. by right. }
  sm_step. sm_step. sm_step. split; [| lia]. split; [done |]. split; [done |].
  split; [by eapply tidies_trans |].
  exists n1. split; [by apply (accounted_trans _ _ _ _ _ Ht1 Ha1 Ha2) |]. split.
  - split; [done |]. intros i. rewrite <- He1. unfold entry_at. by rewrite get_set_cache, decide_True.
  - intros _. split; [| split; [done | by rewrite get_set_cache, decide_True]].
    intros i e E. apply (Hclean i). unfold entry_at in *. by rewrite get_set_cache, decide_False in E.
Qed.

(** The dependency is flushed, so its dirty tables were written. *)
Lemma dependency_written s s1 c new :
  accounted s s1 new -> tidies s s1 -> all_clean c s1 ->
  forall i e, entry_at s c i = Some e -> e.(dirty) = true -> e.(offset) <> 0 -> written new e.
Proof.
  intros [_ Ha] Ht Hclean i e E Hd Ho. destruct (td_entry _ _ Ht c i e E) as (e' & E' & b & -> & Hb).
  apply (Ha c i e _ E E' Hd Ho). by destruct (Hclean i _ E') as [? | ?].
Qed.

Lemma barrier_older c s l n : barrier c s n -> barrier c s (l ++ n).
Proof.
  intros (l1 & r & l2 & -> & Hr & H). exists (l ++ l1), r, l2. by rewrite app_assoc.
Qed.

Lemma barrier_later c s s1 n1 l :
  tidies s s1 -> accounted s s1 n1 -> barrier c s1 l -> barrier c s (l ++ n1).
Proof.
  intros Ht [_ Ha] (l1 & r & l2 & -> & Hr & H). exists l1, r, (l2 ++ n1).
  split; [by rewrite <- app_assoc |]. split; [done |]. intros i e E Hd Ho.
  destruct (td_entry _ _ Ht c i e E) as (e' & E' & b & -> & Hb). destruct b.
  - apply (written_mono l2); [set_solver |]. exact (H i _ E' eq_refl Ho).
  - apply (written_mono n1); [set_solver |]. exact (Ha c i e _ E E' Hd Ho eq_refl).
Qed.

Lemma suffix_split {A} (x : A) l a b :
  (x :: l) `suffix_of` (a ++ b) ->
  (x :: l) `suffix_of` b \/ exists k, l = k ++ b /\ (x :: k) `suffix_of` a.
Proof.
  induction a as [| y a IH]; intros H; [by left |]. apply suffix_cons_inv in H as [H | H].
  - injection H as -> ->. right. by exists a.
  - destruct (IH H) as [Hb | (k & -> & Hk)]; [by left | right].
    exists k. split; [done |]. by apply suffix_cons_r.
Qed.

Lemma in_order_app c s s1 s2 n1 n2 :
  tidies s s1 -> accounted s s1 n1 -> in_order c s n1 s1 -> in_order c s1 n2 s2 ->
  in_order c s (n2 ++ n1) s2.
Proof.
  intros Ht Ha H1 H2 c' Hdep. destruct (H1 c' Hdep) as [Hw1 Hd1].
  assert (Hlater : forall l, (forall x, (get_cache c s1).(depends) = Some x -> barrier x s1 l) ->
    barrier c' s (l ++ n1)).
  { intros l Hl. destruct (td_dep _ _ Ht c) as [E | E].
    - apply (barrier_later _ _ _ _ _ Ht Ha), Hl. congruence.
    - by apply barrier_older, Hd1. }
  split.
  - intros off t r l [Hsuf | (k & -> & Hsuf)]%suffix_split Hent; [by eapply Hw1 |].
    apply Hlater. intros x Hx. destruct (H2 x Hx) as [Hw2 _]. apply (Hw2 off t r k Hsuf).
    destruct Hent as (i & e & E & Ho). destruct (td_entry _ _ Ht c i e E) as (e' & E' & b & -> & _).
    by exists i, (set_dirty b e).
  - intros Hnone. apply Hlater. intros x Hx. destruct (H2 x Hx) as [_ Hd2]. by apply Hd2.
Qed.

(** Without a dependency there is nothing to order. *)
Lemma in_order_free c s new s' : (get_cache c s).(depends) = None -> in_order c s new s'.
Proof. intros H c' Hc. congruence. Qed.

(** The writes of the dependency are not writes of the cache itself. *)
Lemma foreign_writes c c' s new off t r l :
  shape s -> c' <> c -> only_writes c' s new -> (IoWrite off t r :: l) `suffix_of` new ->
  (exists i e, entry_at s c i = Some e /\ e.(offset) = off /\ off <> 0) -> False.
Proof.
  intros Hs Hne Hw [k ->] (i & e & E & Ho & Hnz).
  destruct (Hw off t r) as (j & e' & E' & Ho' & _); [set_solver |].
  destruct (sh_distinct s Hs c i e c' j e' E E'); congruence.
Qed.

Lemma entry_flush_runs rec s f c i :
  rec_ok rec -> inv s f -> is_Some (entry_at s c i) ->
  runs (qcow2_cache_entry_flush size_bits rec c i) s
    (flush_post s f (in_order c s) (fun _ s' => clean_at s' c i)).
Proof.
  intros Hrec Hi [e E]. destruct (get_cache c s).(depends) as [c' |] eqn:Hdep; last first.
  { eapply runs_mono; [by apply entry_flush_nodep |]. intros r s' (Hr & Hi' & Ht & n & Ha & _ & HP).
    split; [done |]. split; [done |]. split; [done |]. exists n. split; [done |].
    split; [by apply in_order_free | done]. }
  destruct (sh_depends s (proj1 Hi) c c' Hdep) as [Hne _].
  unfold qcow2_cache_entry_flush. sm_step. apply (get_entry_runs _ _ _ _ _ E).
  destruct (negb (dirty e) || (offset e =? 0)) eqn:Hskip.
  { sm_step. apply flush_post_refl; [done | |].
    - intros x Hx. split; [intros off t r l [k Hk]; by destruct k |]. congruence.
    - intros e' E'. rewrite E in E'. injection E' as <-.
      apply orb_true_iff in Hskip as [Hc%negb_true_iff | Hc%Z.eqb_eq]; auto. }
  apply orb_false_iff in Hskip as [Hd%negb_false_iff Ho%Z.eqb_neq].
  sm_step. sm_step. rewrite Hdep, decide_True by done.
  sm_step. eapply runs_mono; [by apply (dependency_runs rec s f c c') |].
  intros r s1 [(Hr & Hi1 & Ht1 & n1 & Ha1 & [Hw1 He1] & HP1) Hfail].
  assert (Hno : forall off t q l, (IoWrite off t q :: l) `suffix_of` n1 ->
    (exists i e, entry_at s c i = Some e /\ e.(offset) = off /\ off <> 0) -> False).
  { intros off t q l. apply (foreign_writes c c' s n1 off t q l (proj1 Hi) Hne Hw1). }
  destruct (Z.ltb_spec r 0).
  - sm_step. split; [lia |]. split; [done |]. split; [done |]. exists n1. split; [done |].
    split; [| lia]. intros x Hx. rewrite Hdep in Hx. injection Hx as <-. split.
    + intros off t q l Hsuf Hent. destruct (Hno off t q l Hsuf Hent).
    + rewrite Hfail, Hdep by done. done.
  - assert (r = 0) as -> by lia. destruct (HP1 eq_refl) as (Hclean & (rf & l2 & Hlog & Hrf) & Hnone).
    assert (Hbar : barrier c' s n1).
    { exists [], rf, l2. split; [done |]. split; [done |]. intros j e' E' Hd' Ho'.
      destruct (dependency_written s s1 c' n1 Ha1 Ht1 Hclean j e' E' Hd' Ho') as (q & Hq & Hin).
      exists q. split; [done |]. rewrite Hlog in Hin. by apply elem_of_cons in Hin as [[=] | Hin]. }
    eapply entry_written_runs; [done | done | done | done | done | done | |].
    + by apply (same_entries_dirty s s1 c i e E Hd).
    + intros q s' _ x Hx. rewrite Hdep in Hx. injection Hx as <-. split.
      * intros off t q' l [[= _ _ _ ->] | Hsuf]%suffix_cons_inv Hent; [done |].
        destruct (Hno off t q' l Hsuf Hent).
      * intros _. by apply (barrier_older _ _ [_]).
Qed.

Lemma flush_ordered rec s f c :
  rec_ok rec -> inv s f ->
  runs (flush_body size_bits rec c) s
    (flush_post s f (in_order c s) (fun new s' => all_clean c s' /\ flushed_log new)).
Proof.
  intros Hrec Hi.
  assert (Hbody : runs (flush_body size_bits rec c) s
    (flush_post s f (fun new s' => accounted s s' new /\ in_order c s new s')
       (fun new s' => all_clean c s' /\ flushed_log new))).
  { apply flush_body_runs; [done | |].
    - eapply runs_mono;
        [apply (flush_entries_runs rec c (fun s new s' => accounted s s' new /\ in_order c s new s')
           (fun _ => True) f) |].
      + intros s1 i Hi1 _ Hs1. eapply runs_mono; [by apply entry_flush_runs |].
        intros r s2 (Hr & Hi2 & Ht & n & Ha & HA & HP). split; [| done].
        split; [done |]. split; [done |]. split; [done |]. by exists n.
      + intros s1. split; [by apply accounted_same |]. intros c' Hc.
        split; [intros off t r l [k Hk]; by destruct k | congruence].
      + intros s0 s1 s2 n1 n2 Ht [A1 O1] [A2 O2].
        split; [by eapply accounted_trans | by eapply in_order_app].
      + done.
      + done.
      + done.
      + apply entries_inside.
      + intros r s' (_ & _ & H). exact H.
    - intros n s1 r fl [Ha HO].
      assert (Ha' : accounted s (logged (IoFlush r) fl s1) (IoFlush r :: n)).
      { destruct Ha as [Hl Ha]. split; [cbn; by rewrite Hl |]. intros c' i e e' E E' Hd Ho Hd'.
        rewrite entry_at_logged in E'. apply (written_mono n); [set_solver |]. by eapply Ha. }
      split; [done |]. intros c' Hc'. destruct (HO c' Hc') as [Hw Hdone]. split.
      + intros off t r' l [[=] | Hsuf]%suffix_cons_inv. by eapply Hw.
      + intros Hn. apply (barrier_older _ _ [_]), Hdone. by destruct c. }
  eapply runs_mono; [exact Hbody |]. intros r s' (Hr & Hi' & Ht & n & Ha & [_ HO] & HP).
  split; [done |]. split; [done |]. split; [done |]. by exists n.
Qed.

Lemma cache_flush_runs s f c :
  inv s f ->
  runs (qcow2_cache_flush size_bits c) s
    (flush_post s f (in_order c s) (fun new s' => all_clean c s' /\ flushed_log new)).
Proof. intros Hi. apply (flush_ordered _ _ _ _ (cache_flush_rec_ok 1) Hi). Qed.

Lemma entry_flush_ok s f c i :
  inv s f -> is_Some (entry_at s c i) ->
  runs (entry_flush size_bits c i) s (flush_post s f (in_order c s) (fun _ s' => clean_at s' c i)).
Proof. apply entry_flush_runs, (cache_flush_rec_ok 2). Qed.

(** *** Frames for the users of the caches *)

(** The entry holds the same table for the same users. *)
Definition alike e e' : Prop :=
  e'.(offset) = e.(offset) /\ e'.(table) = e.(table) /\ e'.(ref) = e.(ref).

(** Everything but the entry [h], if there is one, is alike. *)
Record steady (h : option (cid * nat)) s s' : Prop := {
  st_meta : meta s' = meta s;
  st_wt : forall c, (get_cache c s').(writethrough) = (get_cache c s).(writethrough);
  st_entry : forall c i e, entry_at s c i = Some e -> exists e', entry_at s' c i = Some e' /\
    (h <> Some (c, i) -> alike e e');
  st_none : forall c i, entry_at s c i = None -> entry_at s' c i = None
}.

Lemma steady_refl h s : steady h s s.
Proof. split; [done | done | | done]. intros c i e E. by exists e. Qed.

Lemma steady_trans h s1 s2 s3 : steady h s1 s2 -> steady h s2 s3 -> steady h s1 s3.
Proof.
  intros [M1 W1 E1 N1] [M2 W2 E2 N2]. split; [congruence | intros c; by rewrite W2 | | auto].
  intros c i e E. destruct (E1 c i e E) as (e' & E' & H1). destruct (E2 c i e' E') as (e'' & E'' & H2).
  exists e''. split; [done |]. intros Hh. destruct (H1 Hh) as (? & ? & ?). destruct (H2 Hh) as (? & ? & ?).
  unfold alike. repeat split; congruence.
Qed.

Lemma steady_weaken h s s' : steady None s s' -> steady h s s'.
Proof.
  intros [M W E N]. split; [done | done | | done]. intros c i e Hc.
  destruct (E c i e Hc) as (e' & E' & H). exists e'. split; [done |]. intros _. by apply H.
Qed.

Lemma tidies_steady h s s' : tidies s s' -> steady h s s'.
Proof.
  intros [M E N W _]. split; [done | done | | done]. intros c i e Hc.
  destruct (E c i e Hc) as (e' & E' & b & -> & _). exists (set_dirty b e). done.
Qed.

Lemma steady_upd c i g s : steady (Some (c, i)) s (upd c i g s).
Proof.
  split; [by destruct c | | |].
  - intros c'. unfold upd. rewrite get_set_cache. by case_decide; subst.
  - intros c' j e E. rewrite entry_at_upd. destruct (decide _) as [[-> ->] |].
    + rewrite E. by exists (g e).
    + by exists e.
  - intros c' j E. rewrite entry_at_upd. destruct (decide _) as [[-> ->] |]; [by rewrite E | done].
Qed.

(** *** Changes of one entry *)

Lemma upd_file c i g s : (upd c i g s).(file) = s.(file).
Proof. by destruct c. Qed.
Lemma upd_cluster_size c i g s : cluster_size (upd c i g s) = cluster_size s.
Proof. by destruct c. Qed.
Lemma entry_at_upd_eq c i g s e :
  entry_at s c i = Some e -> entry_at (upd c i g s) c i = Some (g e).
Proof. intros E. by rewrite entry_at_upd, decide_True, E. Qed.

(** The other entries, seen from the entry that changes *)
Lemma upd_cases c i g s e c' j e' :
  entry_at s c i = Some e -> entry_at (upd c i g s) c' j = Some e' ->
  (c' = c /\ j = i /\ e' = g e) \/ (~ (c' = c /\ j = i) /\ entry_at s c' j = Some e').
Proof.
  intros E E'. rewrite entry_at_upd in E'. destruct (decide _) as [[-> ->] | Hne]; [left | by right].
  rewrite E in E'. by injection E' as <-.
Qed.

Lemma shape_upd c i g s e :
  shape s -> entry_at s c i = Some e -> entry_ok s (g e) ->
  (forall c' j e', entry_at s c' j = Some e' -> ~ (c' = c /\ j = i) -> (g e).(offset) <> 0 ->
     e'.(offset) <> (g e).(offset)) ->
  shape (upd c i g s).
Proof.
  intros Hs E Hok Hfresh. split.
  - rewrite upd_file. apply (sh_plain s Hs).
  - destruct c; apply (sh_bits s Hs).
  - intros c' j e' E'. unfold entry_ok, table_offset. rewrite upd_cluster_size.
    destruct (upd_cases _ _ _ _ _ _ _ _ E E') as [(-> & -> & ->) | [_ E0]]; [done |].
    by apply (sh_entry s Hs c' j).
  - intros c1 i1 e1 c2 i2 e2 E1 E2 Hnz Heq.
    destruct (upd_cases _ _ _ _ _ _ _ _ E E1) as [(-> & -> & ->) | [Hn1 E1']];
    destruct (upd_cases _ _ _ _ _ _ _ _ E E2) as [(-> & -> & ->) | [Hn2 E2']].
    + done.
    + by destruct (Hfresh _ _ _ E2' Hn2 Hnz).
    + destruct (Hfresh _ _ _ E1' Hn1); congruence.
    + by apply (sh_distinct s Hs c1 i1 e1 c2 i2 e2).
  - intros c' x. rewrite !depends_upd. apply (sh_depends s Hs).
Qed.

(** A change that keeps the offset *)
Lemma shape_keep c i g s e :
  shape s -> entry_at s c i = Some e -> (g e).(offset) = e.(offset) ->
  length (g e).(table) = length e.(table) -> shape (upd c i g s).
Proof.
  intros Hs E Ho Hl. apply (shape_upd c i g s e Hs E).
  - destruct (sh_entry s Hs c i e E) as [H1 H2]. unfold entry_ok. by rewrite Hl, Ho.
  - intros c' j e' E' Hne Hnz Heq. apply Hne.
    destruct (sh_distinct s Hs c i e c' j e' E E'); [congruence | congruence | by subst].
Qed.

(** Hits and users do not matter. *)
Lemma inv_keep c i g s f e :
  inv s f -> entry_at s c i = Some e -> (g e).(offset) = e.(offset) ->
  (g e).(table) = e.(table) -> (e.(dirty) = true -> (g e).(dirty) = true) -> inv (upd c i g s) f.
Proof.
  intros [Hs Ha] E Ho Ht Hd. split; [apply (shape_keep c i g s e Hs E Ho); by rewrite Ht |]. split.
  - intros c' j e' E' Hnz _. rewrite upd_cluster_size.
    destruct (upd_cases _ _ _ _ _ _ _ _ E E') as [(-> & -> & ->) | [_ E0]].
    + rewrite Ht, Ho in *. by apply (ag_table _ _ _ Ha c i).
    + by apply (ag_table _ _ _ Ha c' j).
  - intros p Hp. unfold file_view. rewrite upd_file. apply (ag_file _ _ _ Ha).
    intros c' j e' E' [Hd' | [=]]. destruct (decide (c' = c /\ j = i)) as [[-> ->] | Hne].
    + rewrite E in E'. injection E' as <-. specialize (Hp c i (g e) (entry_at_upd_eq _ _ _ _ _ E)).
      unfold covers in *. rewrite upd_cluster_size, Ho in Hp. apply Hp. left. by apply Hd.
    + specialize (Hp c' j e'). unfold covers in *.
      rewrite upd_cluster_size, entry_at_upd, decide_False in Hp by done. apply Hp; [done | by left].
Qed.

(** The exempt entry may change its contents. *)
Lemma hole_upd c i g s f e :
  agrees (Some (c, i)) s f -> entry_at s c i = Some e -> (g e).(offset) = e.(offset) ->
  agrees (Some (c, i)) (upd c i g s) f.
Proof.
  intros Ha E Ho. split.
  - intros c' j e' E' Hnz Hh. rewrite upd_cluster_size.
    destruct (upd_cases _ _ _ _ _ _ _ _ E E') as [(-> & -> & ->) | [_ E0]]; [done |].
    by apply (ag_table _ _ _ Ha c' j).
  - intros p Hp. unfold file_view. rewrite upd_file. apply (ag_file _ _ _ Ha).
    intros c' j e' E' Hd'. destruct (decide (c' = c /\ j = i)) as [[-> ->] | Hne].
    + rewrite E in E'. injection E' as <-. specialize (Hp c i (g e) (entry_at_upd_eq _ _ _ _ _ E)).
      unfold covers in *. rewrite upd_cluster_size, Ho in Hp. apply Hp. by right.
    + specialize (Hp c' j e'). unfold covers in *.
      rewrite upd_cluster_size, entry_at_upd, decide_False in Hp by done. by apply Hp.
Qed.

Lemma hole_open h s f : agrees None s f -> agrees h s f.
Proof.
  intros [Ht Hf]. split; [intros c i e E Ho _; by apply (Ht c i) |].
  intros p Hp. apply Hf. intros c i e E [Hd | [=]]. apply (Hp c i e E). by left.
Qed.

(** A dirty entry defines what the image holds at its offset. *)
Lemma hole_close c i s f e :
  shape s -> agrees (Some (c, i)) s f -> entry_at s c i = Some e -> e.(offset) <> 0 ->
  e.(dirty) = true -> inv s (splice f e.(offset) e.(table)).
Proof.
  intros Hs Ha E Ho Hd. destruct (sh_entry s Hs c i e E) as [Hl Hto].
  pose proof (cluster_size_pos s Hs) as [Hcs _]. split; [done |]. split.
  - intros c' j e' E' Ho' _. destruct (decide (c' = c /\ j = i)) as [[-> ->] | Hne].
    + rewrite E in E'. injection E' as <-. apply list_eq. intros k.
      destruct (decide (k < length e.(table))%nat) as [Hk | Hk].
      * rewrite bytes_at_lookup by lia. destruct (lookup_lt_is_Some_2 _ _ Hk) as [x Hx].
        rewrite Hx. f_equal. symmetry. apply splice_in; [lia |].
        by replace (Z.to_nat _) with k by lia.
      * rewrite !lookup_ge_None_2; [done | | lia].
        pose proof (bytes_at_length (splice f e.(offset) e.(table)) e.(offset) (cluster_size s)). lia.
    + rewrite (ag_table _ _ _ Ha c' j e' E' Ho') by (intros [= -> ->]; by apply Hne).
      apply bytes_at_ext.
      intros p Hp. symmetry. apply splice_out. intros Hin. apply Hne.
      destruct (sh_entry s Hs c' j e' E') as [_ Hto'].
      destruct (sh_distinct s Hs c' j e' c i e E' E Ho'); [| done].
      apply (offsets_disjoint s _ _ p Hs (Hto' Ho') (Hto Ho)); lia.
  - intros p Hp. rewrite splice_out.
    + apply (ag_file _ _ _ Ha). intros c' j e' E' [Hd' | [= <- <-]]; [by apply (Hp c' j); [| left] |].
      rewrite E in E'. injection E' as <-. apply (Hp c i); [done | by left].
    + intros Hin. apply (Hp c i e E); [by left |]. split; [done | lia].
Qed.

(** Giving up an entry that is on disk *)
Lemma inv_drop c i s f e :
  inv s f -> entry_at s c i = Some e -> clean_at s c i -> inv (upd c i (set_offset 0) s) f.
Proof.
  intros [Hs Ha] E Hclean. split.
  - apply (shape_upd c i _ s e Hs E).
    + split; [apply (sh_entry s Hs c i e E) | done].
    + done.
  - split.
    + intros c' j e' E' Hnz _. rewrite upd_cluster_size.
      destruct (upd_cases _ _ _ _ _ _ _ _ E E') as [(-> & -> & ->) | [_ E0]]; [done |].
      by apply (ag_table _ _ _ Ha c' j).
    + intros p Hp. unfold file_view. rewrite upd_file. apply (ag_file _ _ _ Ha).
      intros c' j e' E' [Hd' | [=]]. destruct (decide (c' = c /\ j = i)) as [[-> ->] | Hne].
      * rewrite E in E'. injection E' as <-. intros [Hnz _]. destruct (Hclean e E); congruence.
      * specialize (Hp c' j e'). unfold covers in *.
        rewrite upd_cluster_size, entry_at_upd, decide_False in Hp by done. apply Hp; [done | by left].
Qed.

(** Using a free entry for an offset nobody has *)
Lemma inv_load c i g s f e off :
  inv s f -> entry_at s c i = Some e -> e.(offset) = 0 -> table_offset s off ->
  (forall c' j e', entry_at s c' j = Some e' -> e'.(offset) <> off) ->
  (g e).(offset) = off -> (g e).(table) = e.(table) ->
  shape (upd c i g s) /\ agrees (Some (c, i)) (upd c i g s) f.
Proof.
  intros [Hs Ha] E H0 Hto Hfresh Ho Ht. split.
  - apply (shape_upd c i g s e Hs E).
    + unfold entry_ok. rewrite Ht, Ho. split; [apply (sh_entry s Hs c i e E) | done].
    + intros c' j e' E' _ _. rewrite Ho. by apply (Hfresh c' j).
  - split.
    + intros c' j e' E' Hnz Hh. rewrite upd_cluster_size.
      destruct (upd_cases _ _ _ _ _ _ _ _ E E') as [(-> & -> & ->) | [_ E0]]; [done |].
      by apply (ag_table _ _ _ Ha c' j).
    + intros p Hp. unfold file_view. rewrite upd_file. apply (ag_file _ _ _ Ha).
      intros c' j e' E' [Hd' | [=]]. destruct (decide (c' = c /\ j = i)) as [[-> ->] | Hne].
      * rewrite E in E'. injection E' as <-. intros [Hnz _]. done.
      * specialize (Hp c' j e'). unfold covers in *.
        rewrite upd_cluster_size, entry_at_upd, decide_False in Hp by done. apply Hp; [done | by left].
Qed.

(** An exempt entry that agrees and has its bytes on disk is exempt no more. *)
Lemma hole_agrees c i s f e :
  shape s -> agrees (Some (c, i)) s f -> entry_at s c i = Some e ->
  e.(table) = bytes_at f e.(offset) (cluster_size s) ->
  (forall p, covers s e p -> file_view s p = f p) -> inv s f.
Proof.
  intros Hs Ha E Ht Hdisk. split; [done |]. split.
  - intros c' j e' E' Hnz _. destruct (decide (c' = c /\ j = i)) as [[-> ->] | Hne].
    + rewrite E in E'. by injection E' as <-.
    + apply (ag_table _ _ _ Ha c' j e' E' Hnz). intros [= -> ->]. by apply Hne.
  - intros p Hp. destruct (decide (offset e <> 0 /\ offset e <= p < offset e + cluster_size s)) as [Hc | Hc].
    + by apply Hdisk.
    + apply (ag_file _ _ _ Ha). intros c' j e' E' [Hd' | [= <- <-]]; [by apply (Hp c' j); [| left] |].
      rewrite E in E'. by injection E' as <-.
Qed.

(** Where no cached table lies, the file shows what the image holds. *)
Lemma file_shows s f off p :
  inv s f -> table_offset s off -> (forall c j e, entry_at s c j = Some e -> e.(offset) <> off) ->
  off <= p < off + cluster_size s -> file_view s p = f p.
Proof.
  intros [Hs Ha] Hto Hfresh Hp. apply (ag_file _ _ _ Ha). intros c j e E _ [Hnz Hin].
  apply (Hfresh c j e E). destruct (sh_entry s Hs c j e E) as [_ Hto'].
  by apply (offsets_disjoint s _ _ p Hs (Hto' Hnz) Hto).
Qed.

(** *** Searching *)

Lemma find_offset_some l i off j :
  find_offset l i off = Some j -> exists e, l !! (j - i)%nat = Some e /\ wrap 64 e.(offset) = off /\ (i <= j)%nat.
Proof.
  revert i. induction l as [| e l IH]; intros i; [done |]. cbn [find_offset].
  destruct (Z.eqb_spec (wrap 64 e.(offset)) off) as [He | _].
  - intros [= <-]. exists e. rewrite Nat.sub_diag. done.
  - intros (e' & E' & Ho & Hle)%IH. exists e'. replace (j - i)%nat with (S (j - S i)) by lia.
    split; [done |]. split; [done | lia].
Qed.

Lemma find_offset_none l i off e : find_offset l i off = None -> e ∈ l -> wrap 64 e.(offset) <> off.
Proof.
  revert i. induction l as [| e' l IH]; intros i; [by intros _ ?%not_elem_of_nil |]. cbn [find_offset].
  destruct (Z.eqb_spec (wrap 64 e'.(offset)) off) as [He | Hne]; [done |].
  intros Hf [-> | Hin]%elem_of_cons; [done | by eapply IH].
Qed.

(** The hits of the entries of a cache are between zero and [k]. *)
Definition cool (k : Z) s : Prop :=
  forall c i e, entry_at s c i = Some e -> 0 <= e.(cache_hits) <= k.

(** Somebody can be evicted. *)
Definition room (c : cid) s : Prop := exists i e, entry_at s c i = Some e /\ e.(ref) = 0.

Lemma replace_scan_spec l i mc mi r l' :
  replace_scan l i mc mi = (r, l') ->
  length l' = length l /\
  (forall j e, l !! j = Some e -> l' !! j = Some e \/ l' !! j = Some (set_cache_hits (e.(cache_hits) `quot` 2) e)) /\
  ((exists j e, r = Some (i + j)%nat /\ l !! j = Some e /\ e.(ref) = 0) \/ r = mi /\
     forall j e, l !! j = Some e -> e.(ref) = 0 -> mc <= e.(cache_hits)).
Proof.
  revert i mc mi r l'. induction l as [| e l IH]; intros i mc mi r l' E; cbn [replace_scan] in E.
  { injection E as <- <-. split; [done |]. split; [done |]. right. done. }
  destruct (c_true (ref e)) eqn:Eref.
  - destruct (replace_scan l (S i) mc mi) as [r1 l1] eqn:E1. injection E as <- <-.
    destruct (IH _ _ _ _ _ E1) as (Hl & Hent & Hr). split; [cbn; lia |]. split.
    + intros [| j] e' Ej; cbn in *; [left; congruence | by apply Hent].
    + destruct Hr as [(j & e' & -> & Ej & Hz) | [-> Hmin]].
      * left. exists (S j), e'. split; [f_equal; lia | done].
      * right. split; [done |]. intros [| j] e' Ej Hz; cbn in Ej; [| by eapply Hmin].
        injection Ej as <-. apply c_true_nonzero in Eref. done.
  - set (mm := if cache_hits e <? mc then (cache_hits e, Some i) else (mc, mi)) in E.
    destruct mm as [mc' mi'] eqn:Emm. destruct (replace_scan l (S i) mc' mi') as [r1 l1] eqn:E1.
    injection E as <- <-. destruct (IH _ _ _ _ _ E1) as (Hl & Hent & Hr).
    assert (Hz0 : ref e = 0).
    { unfold c_true in Eref. apply negb_false_iff, Z.eqb_eq in Eref. done. }
    split; [cbn; lia |]. split.
    + intros [| j] e' Ej; cbn in *; [right; congruence | by apply Hent].
    + destruct Hr as [(j & e' & -> & Ej & Hz) | [-> Hmin]].
      * left. exists (S j), e'. split; [f_equal; lia | done].
      * unfold mm in Emm. destruct (Z.ltb_spec (cache_hits e) mc); injection Emm as <- <-.
        { left. exists 0%nat, e. split; [f_equal; lia | done]. }
        right. split; [done |]. intros [| j] e' Ej Hz; cbn in Ej; [congruence | by eapply Hmin].
Qed.

(** The invariant does not see hits and users. *)
Definition same_store e e' : Prop :=
  e'.(offset) = e.(offset) /\ e'.(table) = e.(table) /\ e'.(dirty) = e.(dirty).

Lemma inv_same_store s s' f :
  inv s f -> s'.(file) = s.(file) -> s'.(cluster_bits) = s.(cluster_bits) ->
  (forall c, (get_cache c s').(depends) = (get_cache c s).(depends)) ->
  (forall c i e, entry_at s c i = Some e -> exists e', entry_at s' c i = Some e' /\ same_store e e') ->
  (forall c i, entry_at s c i = None -> entry_at s' c i = None) -> inv s' f.
Proof.
  intros [Hs Ha] Hf Hb Hd He Hn.
  assert (Hcs : cluster_size s' = cluster_size s) by (unfold cluster_size; by rewrite Hb).
  assert (Hback : forall c i e', entry_at s' c i = Some e' ->
    exists e, entry_at s c i = Some e /\ same_store e e').
  { intros c i e' E'. destruct (entry_at s c i) as [e |] eqn:E; [| by rewrite Hn in E'].
    destruct (He c i e E) as (e'' & E'' & H). exists e. split; [done |]. congruence. }
  split; [split |].
  - rewrite Hf. apply (sh_plain s Hs).
  - rewrite Hb. apply (sh_bits s Hs).
  - intros c i e' E'. destruct (Hback c i e' E') as (e & E & Ho & Ht & _).
    unfold entry_ok, table_offset. rewrite Ho, Ht, Hcs. apply (sh_entry s Hs c i e E).
  - intros c i e1 c' j e2 E1 E2. destruct (Hback _ _ _ E1) as (e & E & Ho & _).
    destruct (Hback _ _ _ E2) as (e' & E' & Ho' & _). rewrite Ho, Ho'. by apply (sh_distinct s Hs).
  - intros c c'. rewrite !Hd. apply (sh_depends s Hs).
  - split.
    + intros c i e' E' Hnz _. destruct (Hback _ _ _ E') as (e & E & Ho & Ht & _).
      rewrite Ho, Ht, Hcs in *. by apply (ag_table _ _ _ Ha c i).
    + intros p Hp. unfold file_view. rewrite Hf. apply (ag_file _ _ _ Ha). intros c i e E [Hde | [=]].
      destruct (He c i e E) as (e' & E' & Ho & _ & Hde'). specialize (Hp c i e' E').
      unfold covers in *. rewrite Ho, Hcs in Hp. apply Hp. left. congruence.
Qed.

Lemma cool_tidies k s s' : cool k s -> tidies s s' -> cool k s'.
Proof.
  intros Hc Ht c i e' E'. destruct (td_back _ _ _ _ _ Ht E') as (e & E & b & -> & _). by apply (Hc c i e).
Qed.

Lemma cool_upd k c i g s e :
  cool k s -> entry_at s c i = Some e -> 0 <= (g e).(cache_hits) <= k -> cool k (upd c i g s).
Proof.
  intros Hc E Hg c' j e' E'. destruct (upd_cases _ _ _ _ _ _ _ _ E E') as [(-> & -> & ->) | [_ E0]]; [done |].
  by apply (Hc c' j).
Qed.

Lemma cool_mono k k' s : k <= k' -> cool k s -> cool k' s.
Proof. intros Hk Hc c i e E. specialize (Hc c i e E). lia. Qed.

Lemma find_entry_runs k s f c :
  inv s f -> cool k s -> k < INT_MAX -> room c s ->
  runs (qcow2_cache_find_entry_to_replace c) s (fun i s' =>
    inv s' f /\ steady None s s' /\ cool k s' /\ exists e, entry_at s' c i = Some e /\ e.(ref) = 0).
Proof.
  intros Hi Hc Hk (i0 & e0 & E0 & Hz0). unfold qcow2_cache_find_entry_to_replace. sm_step. sm_step.
  destruct (replace_scan _ 0 INT_MAX None) as [r l'] eqn:Escan.
  destruct (replace_scan_spec _ _ _ _ _ _ Escan) as (Hlen & Hent & Hr).
  sm_step. sm_step. set (s' := set_cache c _ s).
  assert (He : forall c' j e, entry_at s c' j = Some e -> exists h, 0 <= h <= k /\
    entry_at s' c' j = Some (set_cache_hits h e)).
  { intros c' j e E. pose proof (Hc c' j e E) as Hh. unfold s', entry_at. rewrite get_set_cache.
    destruct (decide (c' = c)) as [-> |]; cbn [entries set_entries].
    - destruct (Hent j e E) as [E' | E']; [exists e.(cache_hits); split; [done |]; by destruct e |].
      exists (e.(cache_hits) `quot` 2). split; [| done].
      rewrite Z.quot_div_nonneg by lia. Z.to_euclidean_division_equations; lia.
    - exists e.(cache_hits). split; [done |]. change (entry_at s c' j = Some (set_cache_hits (cache_hits e) e)).
      rewrite E. by destruct e. }
  assert (Hn : forall c' j, entry_at s c' j = None -> entry_at s' c' j = None).
  { intros c' j E. unfold s', entry_at. rewrite get_set_cache. destruct (decide (c' = c)) as [-> |]; [| done].
    apply lookup_ge_None. cbn [entries set_entries]. rewrite Hlen. by apply lookup_ge_None. }
  assert (exists j e, r = Some j /\ entry_at s c j = Some e /\ e.(ref) = 0) as (j & e & -> & Ej & Hz).
  { destruct Hr as [(j & e & -> & Ej & Hz) | [_ Hmin]]; [by exists j, e |].
    specialize (Hmin i0 e0 E0 Hz0). specialize (Hc c i0 e0 E0). lia. }
  apply (runs_lift _ j); [done |]. split; [| split; [| split]].
  - apply (inv_same_store s); [done | by destruct c | by destruct c | | | done].
    + intros c'. unfold s'. rewrite get_set_cache. by case_decide; subst.
    + intros c' j' e' E'. destruct (He c' j' e' E') as (h & _ & Eh). by eexists.
  - split; [by destruct c | | | done].
    + intros c'. unfold s'. rewrite get_set_cache. by case_decide; subst.
    + intros c' j' e' E'. destruct (He c' j' e' E') as (h & _ & Eh). by eexists.
  - intros c' j' e' E'. destruct (entry_at s c' j') as [e1 |] eqn:E1; [| by rewrite Hn in E'].
    destruct (He c' j' e1 E1) as (h & Hh & Eh). rewrite Eh in E'. by injection E' as <-.
  - destruct (He c j e Ej) as (h & _ & Eh). by eexists.
Qed.

Definition taken e : Qcow2CachedTable :=
  set_ref (e.(ref) + 1) (set_cache_hits (to_signed 32 (e.(cache_hits) + 1)) e).

Lemma take_entry_runs s c i (P : Z * nat -> BDRVQcowState -> Prop) :
  P (0, i) (upd c i taken s) -> runs (take_entry c i) s P.
Proof. intros HP. unfold take_entry, upd_entry. sm_step. sm_step. by sm_step. Qed.

Lemma hits_up h k : 0 <= h <= k -> k < INT_MAX -> 0 <= to_signed 32 (h + 1) <= k + 1.
Proof.
  unfold INT_MAX. intros Hh Hk. unfold to_signed. rewrite wrap_small by (split; cbn; lia).
  rewrite (proj2 (Z.ltb_lt _ _)) by (cbn; lia). lia.
Qed.

Lemma fill_table_runs s f c i e off :
  inv s f -> entry_at s c i = Some e -> e.(offset) = 0 -> table_offset s off ->
  (forall c' j e', entry_at s c' j = Some e' -> e'.(offset) <> off) ->
  runs (fill_table size_bits c i off) s (fun r s' => exists t, inv s' f /\ steady (Some (c, i)) s s' /\
    entry_at s' c i = Some (set_table t e) /\
    (forall c' j, ~ (c' = c /\ j = i) -> entry_at s' c' j = entry_at s c' j) /\
    (r < 0 \/ t = bytes_at f off (cluster_size s)) /\ (forall p, file_view s' p = file_view s p)).
Proof.
  intros Hi E H0 Hto Hfresh. pose proof (cluster_size_pos s (proj1 Hi)) as [Hcs _].
  destruct Hto as (Hpos & Hmod & Hlim). unfold fill_table. sm_step. sm_step. sm_step.
  eapply runs_mono; [apply file_pread_runs; [apply (sh_plain s), Hi | lia | unfold id; lia | unfold id; lia] |].
  unfold id. intros [r buf] s1 (fl & -> & Hsame & Hv & Hlen & Hres). cbn [fst snd] in *.
  set (s1 := set_file fl s). assert (E1 : entry_at s1 c i = Some e) by (by destruct c).
  assert (Hi1 : inv s1 f).
  { apply (inv_same s); [done | | by intros [] | | done].
    - apply tidies_same; [done | by intros [] | by intros []].
    - eapply same_dev_plain; [done |]. apply (sh_plain s), Hi. }
  unfold upd_entry. sm_step. sm_step. sm_step.
  fold (upd c i (fun e => set_table (overwrite (table e) 0 buf) e) s1).
  destruct (sh_entry s (proj1 Hi) c i e E) as [Hl _].
  assert (Hlt : length (overwrite (table e) 0 buf) = length (table e)).
  { unfold overwrite. rewrite !length_app, length_take, length_drop. lia. }
  exists (overwrite (table e) 0 buf). split; [| split; [| split; [| split; [| split]]]].
  - split; [by apply (shape_keep c i _ s1 e (proj1 Hi1) E1) |].
    destruct Hi1 as [Hs1 Ha1]. split.
    + intros c' j e' E' Hnz _. destruct (upd_cases _ _ _ _ _ _ _ _ E1 E') as [(-> & -> & ->) | [_ E0]]; [done |].
      rewrite upd_cluster_size. by apply (ag_table _ _ _ Ha1 c' j).
    + intros p Hp. unfold file_view. rewrite upd_file. apply (ag_file _ _ _ Ha1).
      intros c' j e' E' [Hd' | [=]]. destruct (decide (c' = c /\ j = i)) as [[-> ->] | Hne].
      * rewrite E1 in E'. injection E' as <-. intros [Hnz _]. done.
      * specialize (Hp c' j e'). unfold covers in *.
        rewrite upd_cluster_size, entry_at_upd, decide_False in Hp by done. apply Hp; [done | by left].
  - eapply steady_trans; [| apply steady_upd]. apply steady_weaken.
    apply (tidies_steady None), tidies_same; [done | by intros [] | by intros []].
  - by apply (entry_at_upd_eq c i (fun e => set_table (overwrite (table e) 0 buf) e)).
  - intros c' j Hne. rewrite entry_at_upd, decide_False by done. by destruct c'.
  - destruct Hres as [[-> ->] | Hneg]; [right | by left].
    unfold overwrite. rewrite take_0, drop_ge.
    + cbn [app]. rewrite app_nil_r. apply bytes_at_ext. intros p Hp.
      apply (file_shows s f off p Hi); [done | done | done].
    + pose proof (bytes_at_length (view d (file s)) off (cluster_size s)). lia.
  - intros p. unfold file_view. rewrite upd_file. apply Hv.
Qed.

(** *** Getting a table *)

(** What a get leaves behind: all other entries are alike.  When it fails the
    image is unchanged and the entry is free of users; when it succeeds, the
    entry is the caller's, with the bytes of the image or, for an empty table,
    with contents the caller has yet to define. *)
Definition got k s f (c : cid) (off : Z) (read : bool) (r : Z * nat) s' : Prop :=
  steady (Some (c, r.2)) s s' /\ cool (Z.max 33 (k + 1)) s' /\
  exists e e', entry_at s c r.2 = Some e /\ entry_at s' c r.2 = Some e' /\
  ((r.1 < 0 /\ inv s' f /\ e.(ref) = 0 /\ e'.(ref) = 0) \/
   (r.1 = 0 /\ e'.(offset) = off /\ e'.(ref) = e.(ref) + 1 /\
    (e.(ref) = 0 \/ e.(offset) = off /\ e'.(table) = e.(table)) /\
    if read then inv s' f /\ e'.(table) = bytes_at f off (cluster_size s)
    else shape s' /\ agrees (Some (c, r.2)) s' f)).

(** No other cache has the table. *)
Definition home (c : cid) (off : Z) s : Prop :=
  forall c' i e, entry_at s c' i = Some e -> e.(offset) = off -> c' = c.

Lemma offset_wrap s c i e : shape s -> entry_at s c i = Some e -> wrap 64 e.(offset) = e.(offset).
Proof.
  intros Hs E. apply wrap_small. pose proof (cluster_size_pos s Hs) as [Hcs _].
  destruct (sh_entry s Hs c i e E) as [_ Hto]. destruct (decide (e.(offset) = 0)) as [-> | Hnz];
    [split; cbn; lia |]. destruct (Hto Hnz) as (? & ? & ?). split; cbn in *; lia.
Qed.

Lemma get_found k s f c off read i :
  inv s f -> cool k s -> k < INT_MAX -> table_offset s off ->
  find_offset (get_cache c s).(entries) 0 off = Some i ->
  runs (take_entry c i) s (got k s f c off read).
Proof.
  intros Hi Hc Hk Hto Hf. destruct (find_offset_some _ _ _ _ Hf) as (e & E & Ho & _).
  rewrite Nat.sub_0_r in E. change (entry_at s c i = Some e) in E.
  rewrite (offset_wrap s c i e (proj1 Hi) E) in Ho.
  apply take_entry_runs. assert (Hi' : inv (upd c i taken s) f) by (by apply (inv_keep c i taken s f e)).
  split; [apply steady_upd |]. split.
  { apply (cool_upd _ c i taken s e); [apply (cool_mono k); [lia | done] | done |].
    pose proof (hits_up (cache_hits e) k (Hc c i e E) Hk). cbn. lia. }
  exists e, (taken e). split; [done |]. split; [by apply entry_at_upd_eq |]. right.
  split; [done |]. split; [done |]. split; [done |]. split; [by right |]. destruct read.
  - split; [done |]. rewrite <- Ho. apply (ag_table _ _ _ (proj2 Hi) c i e E); [| done].
    rewrite Ho. destruct Hto. lia.
  - split; [apply Hi' | apply hole_open, Hi'].
Qed.

(** The last steps: the offset, the first hits and the first user *)
Lemma get_install k s0 s f c i e0 e off read t :
  steady (Some (c, i)) s0 s -> entry_at s0 c i = Some e0 -> e0.(ref) = 0 ->
  inv s f -> cool k s -> entry_at s c i = Some e -> e.(ref) = 0 -> e.(offset) = 0 -> e.(table) = t ->
  table_offset s off -> (forall c' j e', entry_at s c' j = Some e' -> e'.(offset) <> off) ->
  (read = true -> t = bytes_at f off (cluster_size s)) ->
  runs (upd_entry c i (fun e => set_offset (to_signed 64 off) (set_cache_hits 32 e));; take_entry c i) s
    (got k s0 f c off read).
Proof.
  intros Hst E0 Hz0 Hi Hc E Hz Ho Ht Hto Hfresh Hread.
  assert (Hoff : to_signed 64 off = off).
  { destruct Hto as (? & _ & ?). pose proof (cluster_size_pos s (proj1 Hi)) as [Hcs _]. unfold to_signed.
    rewrite wrap_small by (split; cbn in *; lia). by rewrite (proj2 (Z.ltb_lt _ _)) by (cbn in *; lia). }
  unfold upd_entry. sm_step. sm_step.
  set (g := fun e => set_offset (to_signed 64 off) (set_cache_hits 32 e)). fold (upd c i g s).
  destruct (inv_load c i g s f e off Hi E Ho Hto Hfresh Hoff eq_refl) as [Hs1 Ha1].
  pose proof (entry_at_upd_eq c i g s e E) as E1. set (s1 := upd c i g s) in *.
  apply take_entry_runs. pose proof (entry_at_upd_eq c i taken s1 _ E1) as E2.
  assert (Hs2 : shape (upd c i taken s1)) by (by apply (shape_keep c i taken s1 (g e))).
  assert (Ha2 : agrees (Some (c, i)) (upd c i taken s1) f) by (by apply (hole_upd c i taken s1 f (g e))).
  assert (Hcs : cluster_size (upd c i taken s1) = cluster_size s0).
  { unfold s1. rewrite !upd_cluster_size. apply same_cluster_size, Hst. }
  assert (Hcs' : cluster_size s = cluster_size s0) by apply same_cluster_size, Hst.
  split; [eapply steady_trans; [exact Hst |]; eapply steady_trans; apply steady_upd |]. split.
  { apply (cool_upd _ c i taken s1 (g e)); [| done |].
    - apply (cool_upd _ c i g s e); [apply (cool_mono k); [lia | done] | done | cbn; lia].
    - change (0 <= 33 <= Z.max 33 (k + 1)). lia. }
  exists e0, (taken (g e)). split; [done |]. split; [done |]. right. cbn [fst].
  split; [done |]. split; [done |]. split; [cbn; lia |]. split; [by left |]. destruct read; [| done].
  cbn [snd]. split; [| cbn; rewrite <- Hcs', Ht; by apply Hread].
  apply (hole_agrees c i _ f (taken (g e)) Hs2 Ha2 E2).
  - cbn [table offset taken g set_ref set_cache_hits set_offset]. rewrite Hoff, Hcs, <- Hcs', Ht. by apply Hread.
  - intros p [_ Hp]. cbn [offset taken g set_ref set_cache_hits set_offset] in Hp. rewrite Hoff, Hcs, <- Hcs' in Hp.
    unfold file_view, s1. rewrite !upd_file. by apply (file_shows s f off p Hi Hto Hfresh).
Qed.

(** No entry at all has the table. *)
Definition fresh (off : Z) s : Prop := forall c j e, entry_at s c j = Some e -> e.(offset) <> off.

Lemma fresh_steady s s' off : steady None s s' -> fresh off s -> fresh off s'.
Proof.
  intros Hst Hfr c j e' E'. destruct (entry_at s c j) as [e |] eqn:E; [| by rewrite (st_none _ _ _ Hst c j E) in E'].
  destruct (st_entry _ _ _ Hst c j e E) as (e'' & E'' & Hal). rewrite E' in E''. injection E'' as <-.
  destruct (Hal ltac:(done)) as (-> & _). by apply (Hfr c j).
Qed.

(** The state when an entry of the cache is free for another table *)
Definition evicted k s f (c : cid) (off : Z) i s' : Prop :=
  inv s' f /\ steady (Some (c, i)) s s' /\ cool k s' /\ fresh off s' /\
  exists e e', entry_at s c i = Some e /\ e.(ref) = 0 /\ entry_at s' c i = Some e' /\ e'.(ref) = 0.

Lemma got_failed k s f c off read r i s' :
  r < 0 -> evicted k s f c off i s' -> got k s f c off read (r, i) s'.
Proof.
  intros Hr (Hi & Hst & Hc & _ & e & e' & E & Hz & E' & Hz').
  split; [done |]. split; [apply (cool_mono k); [lia | done] |]. exists e, e'.
  split; [done |]. split; [done |]. by left.
Qed.

Lemma evict_runs k s f c off (K : nat -> SM BDRVQcowState (Z * nat)) P :
  inv s f -> cool k s -> k < INT_MAX -> room c s -> fresh off s ->
  (forall r i s', r < 0 -> evicted k s f c off i s' -> P (r, i) s') ->
  (forall i s', evicted k s f c off i s' -> clean_at s' c i -> runs (K i) s' P) ->
  runs (i ← qcow2_cache_find_entry_to_replace c;
        ret ← entry_flush size_bits c i;
        if ret <? 0 then mret (ret, i) else K i) s P.
Proof.
  intros Hi Hc Hk Hroom Hfr Hbad Hgood. sm_step. eapply runs_mono; [by apply (find_entry_runs k) |].
  intros i s1 (Hi1 & Hst1 & Hc1 & e1 & E1 & Hz1). pose proof (fresh_steady _ _ _ Hst1 Hfr) as Hfr1.
  sm_step. eapply runs_mono; [by apply (entry_flush_ok s1 f c i Hi1) |].
  intros r s2 (Hr & Hi2 & Ht2 & n2 & _ & _ & Hclean).
  assert (Hev : evicted k s f c off i s2).
  { pose proof (tidies_steady None _ _ Ht2) as Hst2. split; [done |].
    split; [apply steady_weaken; by eapply steady_trans |]. split; [by eapply cool_tidies |].
    split; [by apply (fresh_steady s1) |].
    destruct (td_entry _ _ Ht2 c i e1 E1) as (e2 & E2 & b2 & -> & _).
    destruct (entry_at s c i) as [e0 |] eqn:E0; [| by rewrite (st_none _ _ _ Hst1 c i E0) in E1].
    destruct (st_entry _ _ _ Hst1 c i e0 E0) as (e' & E' & Hal). rewrite E1 in E'. injection E' as <-.
    destruct (Hal ltac:(done)) as (_ & _ & Href). exists e0, (set_dirty b2 e1). repeat split; try done. congruence. }
  destruct (Z.ltb_spec r 0); [sm_step; by apply Hbad |]. apply Hgood; [done |]. apply Hclean. lia.
Qed.

(** The second half of a get that missed *)
Lemma get_refill k s0 s f c off read i :
  evicted k s0 f c off i s -> clean_at s c i -> table_offset s0 off ->
  runs (upd_entry c i (set_offset 0);;
        ret ← (if read : bool then fill_table size_bits c i off else mret 0);
        if ret <? 0 then mret (ret, i)
        else upd_entry c i (fun e => set_offset (to_signed 64 off) (set_cache_hits 32 e));;
             take_entry c i) s (got k s0 f c off read).
Proof.
  intros (Hi & Hst & Hc & Hfr & e0 & e & E0 & Hz0 & E & Hz) Hclean Hto.
  sm_step. unfold upd_entry at 1. sm_step. fold (upd c i (set_offset 0) s).
  pose proof (inv_drop c i s f e Hi E Hclean) as Hi1.
  pose proof (entry_at_upd_eq c i (set_offset 0) s e E) as E1.
  pose proof (steady_trans _ _ _ _ Hst (steady_upd c i (set_offset 0) s)) as Hst1.
  pose proof (cool_upd k c i (set_offset 0) s e Hc E (Hc c i e E)) as Hc1.
  assert (Hto1 : table_offset (upd c i (set_offset 0) s) off).
  { unfold table_offset. rewrite (same_cluster_size s0 _ (st_meta _ _ _ Hst1)). exact Hto. }
  assert (Hfr1 : fresh off (upd c i (set_offset 0) s)).
  { intros c' j e' E'. destruct (upd_cases _ _ _ _ _ _ _ _ E E') as [(_ & _ & ->) | [_ E'']];
      [cbn; destruct Hto; lia | by apply (Hfr c' j)]. }
  set (s1 := upd c i (set_offset 0) s) in *. set (e1 := set_offset 0 e) in *.
  sm_step. destruct read.
  - eapply runs_mono; [by apply (fill_table_runs s1 f c i e1 off) |].
    intros r2 s2 (t & Hi2 & Hst2 & E2 & Hoth & Ht & _).
    pose proof (steady_trans _ _ _ _ Hst1 Hst2) as Hst02.
    assert (Hothers : forall (P : Qcow2CachedTable -> Prop), P (set_table t e1) ->
      (forall c' j e', entry_at s1 c' j = Some e' -> P e') ->
      forall c' j e', entry_at s2 c' j = Some e' -> P e').
    { intros P Hp Hall c' j e' E'. destruct (decide (c' = c /\ j = i)) as [[-> ->] | Hne].
      - rewrite E2 in E'. by injection E' as <-.
      - rewrite Hoth in E' by done. by apply (Hall c' j). }
    assert (Hc2 : cool k s2) 
      by exact (Hothers (fun e => 0 <= e.(cache_hits) <= k) (Hc1 c i e1 E1) Hc1).
    assert (Hfr2 : fresh off s2) 
      by exact (Hothers (fun e => e.(offset) <> off) (Hfr1 c i e1 E1) Hfr1).
    destruct (Z.ltb_spec r2 0).
    { sm_step. apply got_failed; [done |]. split; [done |]. split; [done |]. split; [done |]. split; [done |].
      by exists e0, (set_table t e1). }
    destruct Ht as [? | Ht]; [lia |]. pose proof (same_cluster_size s1 s2 (st_meta _ _ _ Hst2)) as Hcs.
    apply (get_install k s0 s2 f c i e0 (set_table t e1) off true t); try done.
    + unfold table_offset. rewrite Hcs. exact Hto1.
    + intros _. by rewrite Hcs.
  - sm_step. cbn [Z.ltb Z.compare].
    by apply (get_install k s0 s1 f c i e0 e1 off false e1.(table)).
Qed.

Lemma do_get_runs k s f c off read :
  inv s f -> cool k s -> k < INT_MAX -> room c s -> table_offset s off -> home c off s ->
  runs (qcow2_cache_do_get size_bits c off read) s (got k s f c off read).
Proof.
  intros Hi Hc Hk Hroom Hto Hhome. unfold qcow2_cache_do_get. sm_step. sm_step.
  destruct (find_offset (entries (get_cache c s)) 0 off) as [i |] eqn:Hf; [by apply get_found |].
  assert (Hfr : fresh off s).
  { intros c' j e' E' Ho. pose proof (Hhome c' j e' E' Ho) as ->.
    apply (find_offset_none _ _ _ e' Hf); [by apply (list_elem_of_lookup_2 _ j) |].
    by rewrite (offset_wrap s c j e' (proj1 Hi) E'). }
  apply (evict_runs k s f c off); [done | done | done | done | done | |].
  - intros r i s'. apply got_failed.
  - intros i s' Hev Hclean. by apply get_refill.
Qed.

(** *** Putting, marking and storing *)

(** A put: the user is gone; with write-through the table is written. *)
Lemma put_runs k s f c i e :
  inv s f -> cool k s -> entry_at s c i = Some e -> 0 < e.(ref) ->
  runs (qcow2_cache_put size_bits c i) s (fun r s' => r <= 0 /\ inv s' f /\ cool k s' /\
    steady (Some (c, i)) s s' /\ exists e', entry_at s' c i = Some e' /\
      e'.(offset) = e.(offset) /\ e'.(table) = e.(table) /\ e'.(ref) = e.(ref) - 1 /\
      ((get_cache c s).(writethrough) = false -> e'.(dirty) = e.(dirty))).
Proof.
  intros Hi Hc E Href. unfold qcow2_cache_put. sm_step. sm_step.
  rewrite decide_True by (by eapply lookup_lt_Some).
  set (g := fun e => set_ref (e.(ref) - 1) e). pose proof (entry_at_upd_eq c i g s e E) as E1.
  assert (Hi1 : inv (upd c i g s) f) by (by apply (inv_keep c i g s f e)).
  assert (Hc1 : cool k (upd c i g s)) by (apply (cool_upd k c i g s e Hc E), (Hc c i e E)).
  assert (Hw : (get_cache c (upd c i g s)).(writethrough) = (get_cache c s).(writethrough)) by apply steady_upd.
  sm_step. unfold upd_entry. sm_step. fold (upd c i g s). sm_step. apply (get_entry_runs _ _ _ _ _ E1).
  sm_step. apply runs_assert; [apply Z.leb_le; cbn; lia |]. sm_step. sm_step.
  destruct (writethrough _) eqn:Hwt.
  - eapply runs_mono; [by apply (entry_flush_ok _ f c i Hi1) |].
    intros r s2 (Hr & Hi2 & Ht2 & _). split; [done |]. split; [done |]. split; [by eapply cool_tidies |].
    split; [eapply steady_trans; [apply steady_upd | by apply tidies_steady] |].
    destruct (td_entry _ _ Ht2 c i _ E1) as (e2 & E2 & b & -> & _). eexists.
    split; [done |]. split; [done |]. split; [done |]. split; [done |]. intros Hno. congruence.
  - sm_step. split; [done |]. split; [done |]. split; [done |]. split; [apply steady_upd |]. by exists (g e).
Qed.

Lemma mark_dirty_runs k s f c i e :
  inv s f -> cool k s -> entry_at s c i = Some e ->
  runs (qcow2_cache_entry_mark_dirty c i) s (fun _ s' => s' = upd c i (set_dirty true) s /\
    inv s' f /\ cool k s' /\ entry_at s' c i = Some (set_dirty true e)).
Proof.
  intros Hi Hc E. unfold qcow2_cache_entry_mark_dirty. sm_step. apply (get_entry_runs _ _ _ _ _ E).
  unfold upd_entry. sm_step. fold (upd c i (set_dirty true) s). split; [done |].
  split; [by apply (inv_keep c i _ s f e) |]. split; [| by apply (entry_at_upd_eq c i (set_dirty true))].
  apply (cool_upd k c i _ s e Hc E), (Hc c i e E).
Qed.

(** Storing into a dirty table changes the image there, and nowhere else. *)
Lemma table_store_inv k s f c i e t :
  inv s f -> cool k s -> entry_at s c i = Some e -> e.(dirty) = true -> e.(offset) <> 0 ->
  length t = length e.(table) ->
  inv (upd c i (set_table t) s) (splice f e.(offset) t) /\ cool k (upd c i (set_table t) s).
Proof.
  intros Hi Hc E Hd Ho Hl. pose proof (entry_at_upd_eq c i (set_table t) s e E) as E1. split.
  - apply (hole_close c i _ f (set_table t e)); [| | done | done | done].
    + by apply (shape_keep c i _ s e (proj1 Hi) E).
    + apply (hole_upd c i _ s f e); [by apply hole_open, Hi | done | done].
  - apply (cool_upd k c i _ s e Hc E), (Hc c i e E).
Qed.

(** Defining an empty table: store, then mark. *)
Lemma define_empty_inv k s f c i e t :
  shape s -> agrees (Some (c, i)) s f -> cool k s -> entry_at s c i = Some e -> e.(offset) <> 0 ->
  length t = length e.(table) ->
  let s' := upd c i (set_dirty true) (upd c i (set_table t) s) in
  inv s' (splice f e.(offset) t) /\ cool k s' /\ entry_at s' c i = Some (set_dirty true (set_table t e)).
Proof.
  intros Hs Ha Hc E Ho Hl s'. pose proof (entry_at_upd_eq c i (set_table t) s e E) as E1.
  pose proof (entry_at_upd_eq c i (set_dirty true) _ _ E1) as E2. split; [| split; [| done]].
  - apply (hole_close c i s' f (set_dirty true (set_table t e))); [| | exact E2 | done | done].
    + apply (shape_keep c i _ _ (set_table t e)); [| done | done | done].
      by apply (shape_keep c i _ s e).
    + apply (hole_upd c i _ _ f (set_table t e)); [| done | done]. by apply (hole_upd c i _ s f e).
  - apply (cool_upd k c i _ _ (set_table t e)); [| done | apply (Hc c i e E)].
    apply (cool_upd k c i _ s e Hc E), (Hc c i e E).
Qed.

(** A new dependency *)
Lemma depends_inv k s f c c' :
  inv s f -> cool k s -> c' <> c -> (get_cache c' s).(depends) = None ->
  let s' := set_cache c (set_depends (Some c') (get_cache c s)) s in
  inv s' f /\ cool k s' /\ steady None s s'.
Proof.
  intros [Hs Ha] Hc Hne Hnone s'.
  assert (He : forall x i, entry_at s' x i = entry_at s x i).
  { intros x i. unfold s', entry_at. rewrite get_set_cache. by case_decide; subst. }
  assert (Hf : s'.(file) = s.(file)) by (by destruct c).
  assert (Hcs : cluster_size s' = cluster_size s) by (by destruct c).
  split; [split; [split |] | split].
  - rewrite Hf. apply (sh_plain s Hs).
  - destruct c; apply (sh_bits s Hs).
  - intros x i e E. rewrite He in E. unfold entry_ok, table_offset. rewrite Hcs. apply (sh_entry s Hs x i e E).
  - intros x i e y j e'. rewrite !He. apply (sh_distinct s Hs).
  - intros x y. unfold s'. rewrite !get_set_cache. destruct (decide (x = c)) as [-> | Hx]; cbn [depends set_depends].
    + intros [= <-]. by rewrite decide_False.
    + intros Hy. destruct (sh_depends s Hs x y Hy) as [Hyx Hn]. exfalso. assert (x = c') as ->; [| congruence].
      by destruct c, c', x.
  - apply (agrees_file None s); [done | done | done |]. intros p. unfold file_view. by rewrite Hf.
  - intros x i e E. rewrite He in E. by apply (Hc x i).
  - split; [by destruct c | | |].
    + intros x. unfold s'. rewrite get_set_cache. by case_decide; subst.
    + intros x i e E. exists e. by rewrite He.
    + intros x i E. by rewrite He.
Qed.

(** The dependency of the cache, if it has one, is resolved. *)
Lemma resolve_runs s f c :
  inv s f ->
  runs (if decide (is_Some (depends (get_cache c s))) then flush_dependency size_bits c else mret 0) s
    (fun r s' => r <= 0 /\ inv s' f /\ tidies s s' /\ (r = 0 -> (get_cache c s').(depends) = None)).
Proof.
  intros Hi. destruct (depends (get_cache c s)) as [x |] eqn:Ex.
  - rewrite decide_True by done. eapply runs_mono; [by apply (dependency_runs _ s f c x (cache_flush_rec_ok 2)) |].
    intros r s' [(Hr & Hi' & Ht & n & _ & _ & HP) _]. split; [done |]. split; [done |]. split; [done |].
    intros H0. by destruct (HP H0) as (_ & _ & ?).
  - rewrite decide_False by (by intros [? ?]). sm_step. split; [done |]. split; [done |].
    split; [by apply tidies_same | done].
Qed.

Lemma set_dependency_runs k s f c c' :
  inv s f -> cool k s -> c' <> c ->
  runs (qcow2_cache_set_dependency size_bits c c') s (fun r s' => r <= 0 /\ inv s' f /\ cool k s' /\
    steady None s s' /\ (r = 0 -> (get_cache c s').(depends) = Some c')).
Proof.
  intros Hi Hc Hne. unfold qcow2_cache_set_dependency. sm_step. sm_step. sm_step.
  eapply runs_mono; [by apply resolve_runs |]. intros r s1 (Hr & Hi1 & Ht1 & Hd1).
  pose proof (cool_tidies _ _ _ Hc Ht1) as Hc1. pose proof (tidies_steady None _ _ Ht1) as Hst1.
  destruct (Z.ltb_spec r 0).
  { sm_step. split; [done |]. split; [done |]. split; [done |]. split; [done | lia]. }
  specialize (Hd1 ltac:(lia)). sm_step. sm_step. sm_step.
  assert (Hkeep : runs (if decide (is_Some (depends (get_cache c s1)))
      then if decide (depends (get_cache c s1) = Some c') then mret 0 else flush_dependency size_bits c
      else mret 0) s1 (fun r s' => r = 0 /\ s' = s1)).
  { destruct (depends (get_cache c s1)) as [x |] eqn:Ex; [rewrite decide_True by done |
      rewrite decide_False by (by intros [? ?]); by sm_step].
    destruct (sh_depends s1 (proj1 Hi1) c x Ex) as [Hx _]. rewrite decide_True; [by sm_step |].
    f_equal. by destruct c, c', x. }
  eapply runs_mono; [exact Hkeep |]. intros r2 s2 [-> ->]. cbn [Z.ltb Z.compare].
  sm_step. sm_step. sm_step. destruct (depends_inv k s1 f c c' Hi1 Hc1 Hne Hd1) as (Hi2 & Hc2 & Hst2).
  split; [done |]. split; [done |]. split; [done |]. split; [by eapply steady_trans |].
  intros _. by rewrite get_set_cache, decide_True.
Qed.

(** A clean table is on disk. *)
Lemma clean_on_disk s f c i e :
  inv s f -> entry_at s c i = Some e -> e.(offset) <> 0 -> e.(dirty) = false ->
  bytes_at (file_view s) e.(offset) (cluster_size s) = e.(table).
Proof.
  intros [Hs Ha] E Ho Hd. rewrite (ag_table _ _ _ Ha c i e E Ho) by done. apply bytes_at_ext.
  intros p Hp. apply (ag_file _ _ _ Ha). intros c' j e' E' [Hd' | [=]] [Hnz Hin].
  destruct (sh_entry s Hs c i e E) as [_ Hto]. destruct (sh_entry s Hs c' j e' E') as [_ Hto'].
  assert (Heq : e.(offset) = e'.(offset)) by (by apply (offsets_disjoint s _ _ p Hs (Hto Ho) (Hto' Hnz))).
  destruct (sh_distinct s Hs c i e c' j e' E E' Ho Heq); subst. congruence.
Qed.
End refine.

(** ** A small image: two caches of two tables over an array of bytes *)

Definition sample_table (x : Z) : list Z := replicate 512 x.
(** Counts of one for the first three clusters *)
Definition sample_counts : list Z := [0; 1; 0; 1; 0; 1] ++ replicate 506 0.

Definition sample_image : BDRVQcowState :=
  mkQcow (array_device 64) 9
    (mkCache [mkEntry (sample_table 7) 1024 true 3 0; mkEntry (sample_table 0) 0 false 0 0]
       (Some REFCOUNT_CACHE) false false)
    (mkCache [mkEntry sample_counts 512 true 3 0; mkEntry (sample_table 0) 0 false 0 0]
       None false true)
    [512] 0 1 0 0 [].

Definition sample_bytes : Z -> Z :=
  splice (splice (fun _ => 0) 512 sample_counts) 1024 (sample_table 7).

Lemma sample_entries c i e :
  entry_at sample_image c i = Some e ->
  (c = L2_CACHE /\ i = 0%nat /\ e = mkEntry (sample_table 7) 1024 true 3 0) \/
  (c = REFCOUNT_CACHE /\ i = 0%nat /\ e = mkEntry sample_counts 512 true 3 0) \/
  (i = 1%nat /\ e = mkEntry (sample_table 0) 0 false 0 0).
Proof.
  intros E. destruct c, i as [| [| i]]; cbn in E; injection E as <- || discriminate; auto.
Qed.

Lemma sample_inv : inv array_driver sample_image sample_bytes.
Proof.
  assert (Hcs : cluster_size sample_image = 512) by reflexivity.
  split; [split |].
  - done.
  - cbn. lia.
  - intros c i e [(-> & -> & ->) | [(-> & -> & ->) | (-> & ->)]]%sample_entries;
      split; unfold table_offset; rewrite ?Hcs; cbn [table offset]; by_eval || (intros _; by_eval) || done.
  - intros c i e c' j e' H1%sample_entries H2%sample_entries Hnz Heq.
    destruct H1 as [(-> & -> & ->) | [(-> & -> & ->) | (-> & ->)]]; [| | done];
      destruct H2 as [(-> & -> & ->) | [(-> & -> & ->) | (-> & ->)]]; cbn in Heq; done.
  - intros [] c'; cbn; [intros [= <-] | done]. done.
  - split.
    + intros c i e [(-> & -> & ->) | [(-> & -> & ->) | (-> & ->)]]%sample_entries Hnz _; [| | done];
        vm_compute; reflexivity.
    + intros p Hp. change (0 = sample_bytes p). unfold sample_bytes.
      pose proof (Hp L2_CACHE 0%nat _ eq_refl (or_introl eq_refl)) as H1.
      pose proof (Hp REFCOUNT_CACHE 0%nat _ eq_refl (or_introl eq_refl)) as H2.
      unfold covers in H1, H2. rewrite Hcs in H1, H2. cbn [offset] in H1, H2.
      assert (Hl : Z.of_nat (length (sample_table 7)) = 512) by done.
      assert (Hl' : Z.of_nat (length sample_counts) = 512) by done.
      rewrite !splice_out; [done | rewrite Hl'; lia | rewrite Hl; lia].
Qed.

Lemma sample_cool : cool 32 sample_image.
Proof.
  intros c i e [(-> & -> & ->) | [(-> & -> & ->) | (-> & ->)]]%sample_entries; cbn; lia.
Qed.

(** ** The theorems *)

(** C9: The two caches over the image file are one array of bytes.  Flushing a
    cache always ends; it does not change what the image holds, even when
    writes or the flush fail, and when it succeeds every table of the cache is
    on disk.  Getting a table never fails to return as long as some entry has
    no user; it leaves the image as it is and yields, unless it reports an
    error, exactly the bytes of the image.  Storing into a table that is marked
    dirty changes the image at that table and nowhere else, and putting a table
    back loses nothing. *)
Theorem cache_refines_array {D} size_bits (dr : BlockDriver D) `{!SectorStore dr} s f c k :
  inv dr s f -> cool k s -> k < INT_MAX ->
  (exists r s', qcow2_cache_flush size_bits c s = Some (r, s') /\ inv dr s' f /\ r <= 0 /\
     (r = 0 -> forall i e, entry_at s' c i = Some e -> e.(offset) <> 0 ->
        bytes_at (file_view dr s') e.(offset) (cluster_size s') = e.(table))) /\
  (forall off, room c s -> table_offset s off -> home c off s ->
     exists r i s', qcow2_cache_get size_bits c off s = Some ((r, i), s') /\ inv dr s' f /\
       (r < 0 \/ r = 0 /\ exists e, entry_at s' c i = Some e /\ e.(offset) = off /\
          e.(table) = bytes_at f off (cluster_size s))) /\
  (forall i e t, entry_at s c i = Some e -> e.(dirty) = true -> e.(offset) <> 0 ->
     length t = length e.(table) ->
     exists s', table_store c i t s = Some (tt, s') /\ inv dr s' (splice f e.(offset) t)) /\
  (forall i e, entry_at s c i = Some e -> 0 < e.(ref) ->
     exists r s', qcow2_cache_put size_bits c i s = Some (r, s') /\ inv dr s' f).
Proof.
  intros Hi Hc Hk. split; [| split; [| split]].
  - destruct (cache_flush_runs size_bits dr s f c Hi) as (r & s' & E & Hr & Hi' & _ & n & _ & _ & HP).
    exists r, s'. split; [done |]. split; [done |]. split; [done |]. intros H0 i e Ee Ho.
    destruct (HP H0) as [Hclean _]. apply (clean_on_disk dr s' f c i e Hi' Ee Ho).
    by destruct (Hclean i e Ee).
  - intros off Hroom Hto Hhome.
    destruct (do_get_runs size_bits dr k s f c off true Hi Hc Hk Hroom Hto Hhome)
      as ([r i] & s' & E & _ & _ & e & e' & _ & E' & Hg). cbn [fst snd] in *.
    exists r, i, s'. split; [done |]. destruct Hg as [(Hr & Hi' & _) | (Hr & Ho & _ & _ & Hi' & Ht)].
    + split; [done | by left].
    + split; [done |]. right. split; [done |]. by exists e'.
  - intros i e t E Hd Ho Hl. eexists. split; [reflexivity |].
    apply (table_store_inv dr k s f c i e t Hi Hc E Hd Ho Hl).
  - intros i e E Href. destruct (put_runs size_bits dr k s f c i e Hi Hc E Href) as (r & s' & Ep & _ & Hi' & _).
    by exists r, s'.
Qed.

(** The sample image, with both tables dirty and one cache depending on the other *)
Lemma cache_refines_array_witness :
  exists r s', qcow2_cache_flush 32 L2_CACHE sample_image = Some (r, s') /\ r = 0 /\
    inv array_driver s' sample_bytes.
Proof.
  destruct (cache_refines_array 32 array_driver sample_image sample_bytes L2_CACHE 32
    sample_inv sample_cool eq_refl) as [(r & s' & E & Hi & _) _].
  exists r, s'. split; [done |]. split; [| done].
  assert (H0 : fst <$> qcow2_cache_flush 32 L2_CACHE sample_image = Some 0) by by_eval.
  rewrite E in H0. by injection H0.
Defined.

(** C13: Tables reach the disk in the order of the dependencies.  While cache [c]
    depends on cache [c'], whatever of [c] is written by a flush of the cache, by
    an eviction or by a write-through put, is written after a flush of the file
    that succeeded, and that flush came after a successful write of every table
    of [c'] that was dirty; if such a write or the flush fails, no table of [c] is
    written, and the dependency stays. *)
Theorem cache_write_order {D} size_bits (dr : BlockDriver D) `{!SectorStore dr} s f c c' :
  inv dr s f -> (get_cache c s).(depends) = Some c' ->
  (forall (m : SM BDRVQcowState Z),
     m = qcow2_cache_flush size_bits c \/
     (exists i, m = entry_flush size_bits c i /\ is_Some (entry_at s c i)) ->
     exists r s' new, m s = Some (r, s') /\ s'.(io_log) = new ++ s.(io_log) /\
       (forall i e l t q, entry_at s c i = Some e -> e.(offset) <> 0 ->
          (IoWrite e.(offset) t q :: l) `suffix_of` new -> barrier c' s l) /\
       ((get_cache c s').(depends) = None -> barrier c' s new)).
Proof.
  intros Hi Hdep m Hm.
  assert (Hruns : runs m s (fun r s' => exists new, accounted s s' new /\ in_order c s new s')).
  { destruct Hm as [-> | (i & -> & Hs)].
    - eapply runs_mono; [by apply cache_flush_runs |]. intros r s' (_ & _ & _ & n & Ha & HO & _). by exists n.
    - eapply runs_mono; [by apply (entry_flush_ok size_bits dr s f) |].
      intros r s' (_ & _ & _ & n & Ha & HO & _). by exists n. }
  destruct Hruns as (r & s' & E & new & [Hlog _] & HO). destruct (HO c' Hdep) as [Hw Hd].
  exists r, s', new. split; [done |]. split; [done |]. split; [| done].
  intros i e l t q Ee Ho Hsuf. apply (Hw _ _ _ _ Hsuf). by exists i, e.
Qed.

(** The L2 table of the sample image is written last. *)
Lemma cache_write_order_witness :
  exists r s' new, qcow2_cache_flush 32 L2_CACHE sample_image = Some (r, s') /\
    s'.(io_log) = new ++ [] /\ forall l t q, (IoWrite 1024 t q :: l) `suffix_of` new ->
      barrier REFCOUNT_CACHE sample_image l.
Proof.
  destruct (cache_write_order 32 array_driver sample_image sample_bytes L2_CACHE REFCOUNT_CACHE
    sample_inv eq_refl (qcow2_cache_flush 32 L2_CACHE)) as (r & s' & new & E & Hl & Hw & _); [by left |].
  exists r, s', new. split; [done |]. split; [done |]. intros l t q.
  exact (Hw 0%nat _ l t q eq_refl ltac:(done)).
Defined.
