(* ===== verification/Qcow2Refcount.v ===== *)
(** * Reference counts of clusters (qemu/block/qcow2-refcount.c)

    Every cluster of a qcow2 image has a 16-bit reference count, kept in refcount
    blocks that a table in memory points to.  This file models reading and
    updating counts, the allocation of clusters and of bytes for compressed
    clusters, freeing, and the allocation of refcount blocks with the growth of
    the table, over the caches of [Qcow2Cache].

    [update_refcount] and [alloc_refcount_block] call each other: [fuel] bounds
    the depth of these calls.

    Theorems: counts are read and updated exactly, and the counts of other
    clusters survive every outcome; allocation hands out free clusters only;
    the search for free clusters ends; where growing the table writes past its
    buffer. *)

From Stdlib Require Import ZArith Lia.
From stdpp Require Import base option numbers sets list.
From S2P Require Import Prelude Stm Block Qcow2Cache.

Local Open Scope Z_scope.

Definition REFCOUNT_SHIFT : Z := 1.
Definition QCOW_OFLAG_COMPRESSED : Z := Z.shiftl 1 62.
(** [offsetof(QCowHeader, refcount_table_offset)] *)
Definition HEADER_REFCOUNT_TABLE : Z := 48.

(** Big-endian numbers in a buffer *)
Definition be16_at (t : list Z) (i : Z) : option Z :=
  hi ← t !! Z.to_nat (2 * i); lo ← t !! Z.to_nat (2 * i + 1); Some (hi * 256 + lo).
Definition put_be16 (t : list Z) (i v : Z) : option (list Z) :=
  if (0 <=? i) && (2 * i + 1 <? Z.of_nat (length t)) then
    Some (<[Z.to_nat (2 * i) := v / 256 mod 256]> (<[Z.to_nat (2 * i + 1) := v mod 256]> t))
  else None.

Section Refcount.
Context {D : Type} (size_bits : Z).

Abbreviation Q A := (SM (BDRVQcowState (D := D)) A).

Definition size_to_clusters (s : BDRVQcowState (D := D)) (size : Z) : Z :=
  to_signed 32 (Z.shiftr (size + (cluster_size s - 1)) s.(cluster_bits)).

(** [1 << (s->cluster_bits - REFCOUNT_SHIFT)], the counts of a block *)
Definition block_counts (s : BDRVQcowState (D := D)) : Z :=
  Z.shiftl 1 (s.(cluster_bits) - REFCOUNT_SHIFT).

Definition block_index (s : BDRVQcowState (D := D)) (cluster_index : Z) : Z :=
  Z.land cluster_index (block_counts s - 1).

Definition file_pwrite_sync (off : Z) (buf : list Z) : Q Z :=
  ret ← on_file (bdrv_pwrite_sync size_bits off buf (Z.of_nat (length buf)));
  record_io (IoWrite off buf ret);; mret ret.

Definition load_refcount_block (off : Z) : Q (Z * option nat) :=
  '(ret, i) ← qcow2_cache_get size_bits REFCOUNT_CACHE off;
  mret (ret, if ret <? 0 then None else Some i).

Definition get_refcount (cluster_index : Z) : Q Z :=
  s ← sm_get id;
  let refcount_table_index := wrap 32 (Z.shiftr cluster_index (s.(cluster_bits) - REFCOUNT_SHIFT)) in
  if s.(refcount_table_size) <=? refcount_table_index then mret 0
  else
    refcount_block_offset ← sm_lift (s.(refcount_table) !! Z.to_nat refcount_table_index);
    if refcount_block_offset =? 0 then mret 0
    else
      '(ret, i) ← qcow2_cache_get size_bits REFCOUNT_CACHE refcount_block_offset;
      if ret <? 0 then mret ret
      else
        e ← get_entry REFCOUNT_CACHE i;
        refcount ← sm_lift (be16_at e.(table) (block_index s cluster_index));
        ret ← qcow2_cache_put size_bits REFCOUNT_CACHE i;
        if ret <? 0 then mret ret else mret refcount.

(** ** The size of the table *)

(** The loop of [next_refcount_table_size] *)
Fixpoint round_up (fuel : nat) (min_clusters clusters : Z) : Z :=
  match fuel with
  | O => clusters
  | S fuel =>
      if clusters <? min_clusters then round_up fuel min_clusters (wrap 32 (wrap 32 (clusters * 3 + 1) / 2))
      else clusters
  end.

Definition next_refcount_table_size (s : BDRVQcowState (D := D)) (min_size : Z) : Z :=
  let min_clusters := wrap 32 (Z.shiftr (wrap 32 min_size) (s.(cluster_bits) - 3) + 1) in
  let refcount_table_clusters := Z.max 1 (Z.shiftr s.(refcount_table_size) (s.(cluster_bits) - 3)) in
  wrap 32 (Z.shiftl (round_up (Z.to_nat min_clusters) min_clusters refcount_table_clusters)
             (s.(cluster_bits) - 3)).

Definition in_same_refcount_block (s : BDRVQcowState (D := D)) (offset_a offset_b : Z) : bool :=
  Z.shiftr offset_a (2 * s.(cluster_bits) - REFCOUNT_SHIFT) =?
  Z.shiftr offset_b (2 * s.(cluster_bits) - REFCOUNT_SHIFT).

(** The number of blocks in use, and the loop that finds the size of the new
    table and the clusters of the blocks that describe it *)
Definition blocks_used (s : BDRVQcowState (D := D)) : Z :=
  (s.(free_cluster_index) + block_counts s - 1) / block_counts s.

Fixpoint table_size_loop (fuel : nat) (s : BDRVQcowState (D := D)) (table_size : Z) : option (Z * Z) :=
  match fuel with
  | O => None
  | S fuel =>
      let table_clusters := size_to_clusters s table_size in
      let blocks_clusters := 1 + (table_clusters + block_counts s - 1) / block_counts s in
      let meta_clusters := table_clusters + blocks_clusters in
      let table_size' := next_refcount_table_size s
        (blocks_used s + (meta_clusters + block_counts s - 1) / block_counts s) in
      if table_size =? table_size' then Some (table_size', blocks_clusters)
      else table_size_loop fuel s table_size'
  end.

(** Every turn but the last makes the table larger by half. *)
Definition TABLE_ROUNDS : nat := 64.

Definition new_table_size (s : BDRVQcowState (D := D)) : option (Z * Z) :=
  table_size_loop TABLE_ROUNDS s (next_refcount_table_size s (blocks_used s + 1)).

(** ** Searching free clusters *)

(** The loop of [alloc_clusters_noref]: [i] of [nb_clusters] are found, and a
    used cluster starts over; [fuel] bounds the clusters looked at. *)
Fixpoint noref_loop (fuel : nat) (i nb_clusters : Z) : Q Z :=
  if nb_clusters <=? i then
    s ← sm_get id; mret (Z.shiftl (s.(free_cluster_index) - nb_clusters) s.(cluster_bits))
  else
    match fuel with
    | O => sm_fail
    | S fuel =>
        next_cluster_index ← sm_get free_cluster_index;
        sm_modify (set_free_cluster_index (next_cluster_index + 1));;
        refcount ← get_refcount next_cluster_index;
        if refcount <? 0 then mret refcount
        else if c_true refcount then noref_loop fuel 0 nb_clusters
        else noref_loop fuel (i + 1) nb_clusters
    end.

(** Every cluster the table describes is looked at once at most before the
    search comes to clusters without a count. *)
Definition noref_fuel (s : BDRVQcowState (D := D)) (nb_clusters : Z) : nat :=
  Z.to_nat (Z.max 0 (s.(refcount_table_size) * block_counts s - s.(free_cluster_index)) + nb_clusters).

Definition alloc_clusters_noref (size : Z) : Q Z :=
  s ← sm_get id;
  let nb_clusters := size_to_clusters s size in
  noref_loop (noref_fuel s nb_clusters) 0 nb_clusters.

(** ** Allocating a refcount block *)

Section alloc.
Context (update : Z -> Z -> Z -> Q Z).

(** [qcow2_free_clusters], which only reports its failure *)
Definition free_with (offset size : Z) : Q unit := _ ← update offset size (-1); mret tt.

(** [goto fail_block] *)
Definition fail_block (ret : Z) (rb : option nat) : Q (Z * option nat) :=
  match rb with
  | Some i => _ ← qcow2_cache_put size_bits REFCOUNT_CACHE i; mret (ret, None)
  | None => mret (ret, None)
  end.

(** The new block in the cache, empty but for its own count if it describes
    itself *)
Definition init_block (new_block cluster_index : Z) : Q (Z * option nat) :=
  s ← sm_get id;
  let zeros := replicate (Z.to_nat (cluster_size s)) 0 in
  if in_same_refcount_block s new_block (Z.shiftl cluster_index s.(cluster_bits)) then
    '(ret, i) ← qcow2_cache_get_empty size_bits REFCOUNT_CACHE new_block;
    if ret <? 0 then mret (ret, None)
    else
      t ← sm_lift (put_be16 zeros (block_index s (Z.shiftr new_block s.(cluster_bits))) 1);
      table_store REFCOUNT_CACHE i t;;
      mret (0, Some i)
  else
    ret ← update new_block (cluster_size s) 1;
    if ret <? 0 then mret (ret, None)
    else
      _ ← file_flush;
      '(ret, i) ← qcow2_cache_get_empty size_bits REFCOUNT_CACHE new_block;
      if ret <? 0 then mret (ret, None)
      else table_store REFCOUNT_CACHE i zeros;; mret (0, Some i).

(** [new_blocks[block++] = cpu_to_be16(1)], [n] times *)
Fixpoint fill_counts (n : nat) (block : Z) (buf : list Z) : option (list Z) :=
  match n with
  | O => Some buf
  | S n => buf ← put_be16 buf block 1; fill_counts n (block + 1) buf
  end.

(** The entries of the new table that point to the new blocks *)
Fixpoint point_blocks (n : nat) (i : Z) (used meta_offset csize : Z) (table : list Z) : option (list Z) :=
  match n with
  | O => Some table
  | S n =>
      if Z.of_nat (length table) <=? used + i then None
      else point_blocks n (i + 1) used meta_offset csize
             (<[Z.to_nat (used + i) := wrap 64 (meta_offset + i * csize)]> table)
  end.

(** The bytes of the new blocks and the new table *)
Definition grown (s : BDRVQcowState (D := D)) (refcount_table_index new_block table_size blocks_clusters : Z)
    : option (list Z * list Z) :=
  let meta_offset := blocks_used s * block_counts s * cluster_size s in
  let blocks := replicate (Z.to_nat (blocks_clusters * cluster_size s)) 0 in
  let table := replicate (Z.to_nat table_size) 0 in
  if meta_offset <? s.(free_cluster_index) * cluster_size s then None
  else if table_size <? s.(refcount_table_size) then None
  else if table_size <=? refcount_table_index then None
  else
    let table := overwrite table 0 s.(refcount_table) in
    let table := <[Z.to_nat refcount_table_index := new_block]> table in
    table ← point_blocks (Z.to_nat blocks_clusters) 0 (blocks_used s) meta_offset (cluster_size s) table;
    blocks ← fill_counts (Z.to_nat (size_to_clusters s (table_size * 8) + blocks_clusters)) 0 blocks;
    Some (blocks, table).

Definition grow_table (refcount_table_index new_block : Z) : Q (Z * option nat) :=
  s ← sm_get id;
  '(table_size, blocks_clusters) ← sm_lift (new_table_size s);
  let meta_offset := blocks_used s * block_counts s * cluster_size s in
  let table_offset := meta_offset + blocks_clusters * cluster_size s in
  '(blocks, table) ← sm_lift (grown s refcount_table_index new_block table_size blocks_clusters);
  ret ← file_pwrite_sync meta_offset blocks;
  if ret <? 0 then mret (ret, None)
  else
    ret ← file_pwrite_sync table_offset (concat (be_bytes 8 <$> table));
    if ret <? 0 then mret (ret, None)
    else
      ret ← file_pwrite_sync HEADER_REFCOUNT_TABLE
              (be_bytes 8 table_offset ++ be_bytes 4 (size_to_clusters s (table_size * 8)));
      if ret <? 0 then mret (ret, None)
      else
        sm_modify (fun s => set_refcount_table_offset table_offset
          (set_refcount_table_size table_size (set_refcount_table table s)));;
        free_with s.(refcount_table_offset) (s.(refcount_table_size) * 8);;
        sm_modify (set_free_cluster_index s.(free_cluster_index));;
        '(ret, rb) ← load_refcount_block new_block;
        if ret <? 0 then mret (ret, None) else mret (to_signed 32 new_block, rb).

Definition alloc_refcount_block (cluster_index : Z) : Q (Z * option nat) :=
  s ← sm_get id;
  let refcount_table_index := wrap 32 (Z.shiftr cluster_index (s.(cluster_bits) - REFCOUNT_SHIFT)) in
  off ← (if refcount_table_index <? s.(refcount_table_size)
         then sm_lift (s.(refcount_table) !! Z.to_nat refcount_table_index) else mret 0);
  if c_true off then load_refcount_block off
  else
    _ ← qcow2_cache_flush size_bits L2_CACHE;
    new_block ← alloc_clusters_noref (cluster_size s);
    if new_block <? 0 then mret (to_signed 32 new_block, None)
    else
      '(ret, rb) ← init_block new_block cluster_index;
      if ret <? 0 then mret (ret, None)
      else
        i ← sm_lift rb;
        qcow2_cache_entry_mark_dirty REFCOUNT_CACHE i;;
        ret ← qcow2_cache_flush size_bits REFCOUNT_CACHE;
        if ret <? 0 then fail_block ret (Some i)
        else
          s ← sm_get id;
          if refcount_table_index <? s.(refcount_table_size) then
            ret ← file_pwrite_sync (s.(refcount_table_offset) + refcount_table_index * 8)
                    (be_bytes 8 new_block);
            if ret <? 0 then fail_block ret (Some i)
            else
              sm_modify (set_refcount_table (<[Z.to_nat refcount_table_index := new_block]> s.(refcount_table)));;
              mret (0, Some i)
          else
            ret ← qcow2_cache_put size_bits REFCOUNT_CACHE i;
            if ret <? 0 then mret (ret, None)
            else grow_table refcount_table_index new_block.
End alloc.

(** ** Updating counts *)

(** One cluster, with its refcount block in entry [i] *)
Definition update_one (i : nat) (cluster_index addend : Z) : Q Z :=
  s ← sm_get id;
  qcow2_cache_entry_mark_dirty REFCOUNT_CACHE i;;
  e ← get_entry REFCOUNT_CACHE i;
  old ← sm_lift (be16_at e.(table) (block_index s cluster_index));
  let refcount := old + addend in
  if (refcount <? 0) || (0xffff <? refcount) then mret (- EINVAL)
  else
    (if (refcount =? 0) && (cluster_index <? s.(free_cluster_index))
     then sm_modify (set_free_cluster_index cluster_index) else mret tt);;
    t ← sm_lift (put_be16 e.(table) (block_index s cluster_index) refcount);
    table_store REFCOUNT_CACHE i t;;
    mret 0.

(** The block of the next cluster: the old one if it is the same, else the old
    one is put back and the new one loaded or allocated *)
Definition next_block (alloc : Z -> Q (Z * option nat)) (cluster_index table_index old_table_index : Z)
    (rb : option nat) : Q (Z * option nat) :=
  if table_index =? old_table_index then mret (0, rb)
  else
    ret ← (match rb with
           | Some i => qcow2_cache_put size_bits REFCOUNT_CACHE i
           | None => mret 0
           end);
    if ret <? 0 then mret (ret, None) else alloc cluster_index.

(** The loop over [n] clusters from [cluster_offset]: the code, the block still
    held and the offset where it stopped *)
Fixpoint update_loop (alloc : Z -> Q (Z * option nat)) (n : nat) (cluster_offset addend old_table_index : Z)
    (rb : option nat) : Q (Z * option nat * Z) :=
  match n with
  | O => mret (0, rb, cluster_offset)
  | S n =>
      s ← sm_get id;
      let cluster_index := Z.shiftr cluster_offset s.(cluster_bits) in
      let table_index := Z.shiftr cluster_index (s.(cluster_bits) - REFCOUNT_SHIFT) in
      '(ret, rb) ← next_block alloc cluster_index table_index old_table_index rb;
      if ret <? 0 then mret (ret, rb, cluster_offset)
      else
        i ← sm_lift rb;
        ret ← update_one i cluster_index addend;
        if ret <? 0 then mret (ret, Some i, cluster_offset)
        else update_loop alloc n (cluster_offset + cluster_size s) addend table_index (Some i)
  end.

Fixpoint update_refcount (fuel : nat) (offset length addend : Z) : Q Z :=
  match fuel with
  | O => sm_fail
  | S fuel =>
      if length <? 0 then mret (- EINVAL)
      else if length =? 0 then mret 0
      else
        (if addend <? 0 then _ ← qcow2_cache_set_dependency size_bits REFCOUNT_CACHE L2_CACHE; mret tt
         else mret tt);;
        s ← sm_get id;
        let start := Z.land offset (Z.lnot (cluster_size s - 1)) in
        let last := Z.land (offset + length - 1) (Z.lnot (cluster_size s - 1)) in
        '(ret, rb, cluster_offset) ←
          update_loop (alloc_refcount_block (update_refcount fuel))
            (Z.to_nat (Z.shiftr (last - start) s.(cluster_bits) + 1)) start addend (-1) None;
        wret ← (match rb with
                | Some i => qcow2_cache_put size_bits REFCOUNT_CACHE i
                | None => mret 0
                end);
        if wret <? 0 then mret (if ret <? 0 then ret else wret)
        else
          (if ret <? 0 then _ ← update_refcount fuel offset (cluster_offset - offset) (- addend); mret tt
           else mret tt);;
          mret ret
  end.

(** An undo covers fewer clusters than the update that failed, and allocating
    blocks nests only a few calls. *)
Definition update_fuel (s : BDRVQcowState (D := D)) (length : Z) : nat :=
  Z.to_nat (Z.shiftr length s.(cluster_bits)) + 8.

Definition update (offset length addend : Z) : Q Z :=
  s ← sm_get id; update_refcount (update_fuel s length) offset length addend.

Definition update_cluster_refcount (cluster_index addend : Z) : Q Z :=
  s ← sm_get id;
  ret ← update (Z.shiftl cluster_index s.(cluster_bits)) 1 addend;
  if ret <? 0 then mret ret
  else _ ← file_flush; get_refcount cluster_index.

(** ** Allocating and freeing *)

Definition qcow2_alloc_clusters (size : Z) : Q Z :=
  offset ← alloc_clusters_noref size;
  if offset <? 0 then mret offset
  else
    ret ← update offset size 1;
    if ret <? 0 then mret ret else mret offset.

(** From the label [redo]; the second turn finds a whole cluster. *)
Fixpoint alloc_bytes_redo (fuel : nat) (size : Z) : Q Z :=
  match fuel with
  | O => sm_fail
  | S fuel =>
      s ← sm_get id;
      let csize := cluster_size s in
      let free_in_cluster := csize - Z.land s.(free_byte_offset) (csize - 1) in
      if size <=? free_in_cluster then
        let offset := s.(free_byte_offset) in
        sm_modify (set_free_byte_offset (if free_in_cluster - size =? 0 then 0 else offset + size));;
        (if c_true (Z.land offset (csize - 1))
         then _ ← update_cluster_refcount (Z.shiftr offset s.(cluster_bits)) 1; mret tt else mret tt);;
        _ ← file_flush;
        mret offset
      else
        offset ← qcow2_alloc_clusters csize;
        if offset <? 0 then mret offset
        else
          s ← sm_get id;
          let cluster_offset := Z.land s.(free_byte_offset) (Z.lnot (csize - 1)) in
          if cluster_offset + csize =? offset then
            let offset := s.(free_byte_offset) in
            _ ← update_cluster_refcount (Z.shiftr offset s.(cluster_bits)) 1;
            sm_modify (fun s => set_free_byte_offset (s.(free_byte_offset) + size) s);;
            _ ← file_flush;
            mret offset
          else
            sm_modify (set_free_byte_offset offset);;
            alloc_bytes_redo fuel size
  end.

Definition qcow2_alloc_bytes (size : Z) : Q Z :=
  s ← sm_get id;
  sm_assert ((0 <? size) && (size <=? cluster_size s));;
  ret ← (if s.(free_byte_offset) =? 0 then
           offset ← qcow2_alloc_clusters (cluster_size s);
           sm_modify (set_free_byte_offset offset);; mret offset
         else mret 0);
  if ret <? 0 then mret ret else alloc_bytes_redo 2 size.

Definition qcow2_free_clusters (offset size : Z) : Q unit := free_with update offset size.

Definition qcow2_free_any_clusters (csize_shift csize_mask cluster_offset_mask : Z)
    (cluster_offset nb_clusters : Z) : Q unit :=
  if c_true (Z.land cluster_offset QCOW_OFLAG_COMPRESSED) then
    let nb_csectors := Z.land (Z.shiftr cluster_offset csize_shift) csize_mask + 1 in
    qcow2_free_clusters (Z.land (Z.land cluster_offset cluster_offset_mask) (Z.lnot 511))
      (nb_csectors * 512)
  else
    s ← sm_get id;
    qcow2_free_clusters cluster_offset (Z.shiftl nb_clusters s.(cluster_bits)).
End Refcount.

(** The counts of a new image, one block in memory *)
Fixpoint create_update_loop (n : nat) (cluster : Z) (block : list Z) : option (list Z) :=
  match n with
  | O => Some block
  | S n =>
      refcount ← be16_at block cluster;
      block ← put_be16 block cluster (wrap 16 (refcount + 1));
      create_update_loop n (cluster + 1) block
  end.

Definition qcow2_create_refcount_update (bits offset size : Z) (block : list Z) : option (list Z) :=
  let csize := Z.shiftl 1 bits in
  let start := Z.land offset (Z.lnot (csize - 1)) in
  let last := Z.land (offset + size - 1) (Z.lnot (csize - 1)) in
  create_update_loop (Z.to_nat (Z.shiftr (last - start) bits + 1)) (Z.shiftr start bits) block.

(** ** Counts as bytes of the image *)

Lemma be16_bytes f off n (i : Z) :
  0 <= i -> 2 * i + 1 < n ->
  be16_at (bytes_at f off n) i = Some (f (off + 2 * i) * 256 + f (off + 2 * i + 1)).
Proof.
  intros Hi Hn. unfold be16_at. rewrite !bytes_at_lookup by lia. cbn [mbind option_bind].
  rewrite !Z2Nat.id by lia. by rewrite Z.add_assoc.
Qed.

Lemma put_be16_spec t i v t' :
  put_be16 t i v = Some t' -> length t' = length t /\ 0 <= i /\
  forall j, t' !! j = if decide (Z.of_nat j = 2 * i) then Some (v / 256 mod 256)
                      else if decide (Z.of_nat j = 2 * i + 1) then Some (v mod 256) else t !! j.
Proof.
  unfold put_be16. destruct (Z.leb_spec 0 i); [| done]. destruct (Z.ltb_spec (2 * i + 1) (Z.of_nat (length t)));
    [| done]. cbn [andb]. intros [= <-]. split; [by rewrite !length_insert |]. split; [done |].
  intros j. destruct (decide (Z.of_nat j = 2 * i)) as [Hj | Hj].
  - replace (Z.to_nat (2 * i)) with j by lia. apply list_lookup_insert_eq. rewrite length_insert. lia.
  - rewrite list_lookup_insert_ne by lia. destruct (decide (Z.of_nat j = 2 * i + 1)) as [Hj' | Hj'].
    + replace (Z.to_nat (2 * i + 1)) with j by lia. apply list_lookup_insert_eq. lia.
    + by rewrite list_lookup_insert_ne by lia.
Qed.

Lemma put_be16_some t i v :
  0 <= i -> 2 * i + 1 < Z.of_nat (length t) -> is_Some (put_be16 t i v).
Proof.
  intros Hi Hl. unfold put_be16. rewrite (proj2 (Z.leb_le _ _)), (proj2 (Z.ltb_lt _ _)) by lia. by eexists.
Qed.

(** Storing one count in the block at [off] *)
Lemma splice_count f off n i v t p :
  0 <= n -> put_be16 (bytes_at f off n) i v = Some t ->
  splice f off t p = if decide (p = off + 2 * i) then v / 256 mod 256
                     else if decide (p = off + 2 * i + 1) then v mod 256 else f p.
Proof.
  intros Hn Ht. destruct (put_be16_spec _ _ _ _ Ht) as (Hl & Hi & Hlook).
  pose proof (bytes_at_length f off n Hn) as Hlen.
  assert (Hfit : 2 * i + 1 < n).
  { unfold put_be16 in Ht. destruct (Z.ltb_spec (2 * i + 1) (Z.of_nat (length (bytes_at f off n)))); [lia |].
    by rewrite andb_false_r in Ht. }
  destruct (decide (off <= p < off + n)) as [Hp | Hp].
  - apply splice_in; [lia |]. rewrite Hlook, Z2Nat.id by lia.
    repeat case_decide; try lia; try done. rewrite bytes_at_lookup by lia. f_equal. f_equal. lia.
  - rewrite splice_out by lia. rewrite !decide_False by lia. done.
Qed.

Section counts.
Context {D : Type} (size_bits : Z) (d : BlockDriver D) {store : SectorStore d}.
Implicit Types (s : BDRVQcowState (D := D)) (f : Z -> Z).

Definition table_index s (ci : Z) : Z := ci / block_counts s.

(** The offset of the block that describes the cluster, 0 if there is none *)
Definition block_of s (ci : Z) : Z :=
  if (0 <=? table_index s ci) && (table_index s ci <? s.(refcount_table_size))
  then default 0 (s.(refcount_table) !! Z.to_nat (table_index s ci)) else 0.

(** The count of a cluster in the image [f] *)
Definition refcount_of s f (ci : Z) : Z :=
  if block_of s ci =? 0 then 0
  else
    let p := block_of s ci + 2 * (ci mod block_counts s) in f p * 256 + f (p + 1).

(** The image with the refcount blocks in their cache: [h] is the entry in use,
    the blocks lie at different offsets that the other cache does not have, and
    their contents are bytes. *)
Record image (h : option nat) (k : Z) s f : Prop := {
  im_inv : inv d s f;
  im_cool : cool k s;
  im_room : is_Some (entry_at s REFCOUNT_CACHE 0);
  im_held : forall i e, entry_at s REFCOUNT_CACHE i = Some e -> e.(ref) = if decide (h = Some i) then 1 else 0;
  im_size : Z.of_nat (length s.(refcount_table)) = s.(refcount_table_size) /\ s.(refcount_table_size) < 2 ^ 31;
  im_table : forall i off, s.(refcount_table) !! i = Some off -> off <> 0 ->
    table_offset s off /\ home REFCOUNT_CACHE off s /\
    (forall p, off <= p < off + cluster_size s -> 0 <= f p < 256);
  im_distinct : forall i j off, s.(refcount_table) !! i = Some off -> s.(refcount_table) !! j = Some off ->
    off <> 0 -> i = j
}.

Lemma counts_of_block s :
  9 <= s.(cluster_bits) -> block_counts s = cluster_size s / 2 /\ cluster_size s = 2 * block_counts s /\
  256 <= block_counts s.
Proof.
  intros Hb. unfold block_counts, cluster_size, REFCOUNT_SHIFT. rewrite !Z.shiftl_1_l.
  replace s.(cluster_bits) with (1 + (s.(cluster_bits) - 1)) at 2 3 by lia.
  rewrite Z.pow_add_r by lia. change (2 ^ 1) with 2. rewrite (Z.mul_comm 2), Z.div_mul by lia.
  pose proof (Z.pow_le_mono_r 2 8 (s.(cluster_bits) - 1) ltac:(lia) ltac:(lia)). lia.
Qed.

Lemma image_bits h k s f : image h k s f -> 9 <= s.(cluster_bits) <= 21.
Proof. intros Him. apply (sh_bits d s), Him. Qed.

Lemma block_index_mod s ci : 9 <= s.(cluster_bits) -> block_index s ci = ci mod block_counts s.
Proof.
  intros Hb. unfold block_index, block_counts, REFCOUNT_SHIFT. rewrite Z.shiftl_1_l.
  replace (2 ^ (s.(cluster_bits) - 1) - 1) with (Z.ones (s.(cluster_bits) - 1)).
  - apply Z.land_ones. lia.
  - rewrite Z.ones_equiv. lia.
Qed.

Lemma table_index_shift s ci : 9 <= s.(cluster_bits) -> Z.shiftr ci (s.(cluster_bits) - REFCOUNT_SHIFT) = table_index s ci.
Proof.
  intros Hb. unfold table_index, block_counts, REFCOUNT_SHIFT.
  rewrite Z.shiftr_div_pow2, Z.shiftl_1_l by lia. done.
Qed.

(** Clusters inside the range of the 32-bit table index *)
Definition cluster_fits (ci : Z) : Prop := 0 <= ci < 2 ^ 40.

Lemma table_index_fits s ci : 9 <= s.(cluster_bits) -> cluster_fits ci -> in_u 32 (table_index s ci).
Proof.
  intros Hb [H0 H1]. destruct (counts_of_block s Hb) as (_ & _ & Hc). unfold table_index.
  split; [apply Z.div_pos; lia |]. apply Z.div_lt_upper_bound; [lia |].
  change (2 ^ 40) with (256 * 2 ^ 32) in H1. nia.
Qed.

Lemma block_position s ci : 9 <= s.(cluster_bits) ->
  0 <= 2 * (ci mod block_counts s) /\ 2 * (ci mod block_counts s) + 1 < cluster_size s.
Proof.
  intros Hb. destruct (counts_of_block s Hb) as (_ & Hcs & Hc).
  pose proof (Z.mod_pos_bound ci (block_counts s) ltac:(lia)). lia.
Qed.

(** Two clusters have their counts at the same place only if they are the same. *)
Lemma count_places h k s f ci ci' p :
  image h k s f -> block_of s ci <> 0 -> block_of s ci' <> 0 ->
  (p = block_of s ci + 2 * (ci mod block_counts s) \/ p = block_of s ci + 2 * (ci mod block_counts s) + 1) ->
  (p = block_of s ci' + 2 * (ci' mod block_counts s) \/ p = block_of s ci' + 2 * (ci' mod block_counts s) + 1) ->
  ci = ci'.
Proof.
  intros Him Hb Hb' Hp Hp'. pose proof (image_bits _ _ _ _ Him) as Hbits.
  destruct (block_position s ci ltac:(lia)) as [Hq0 Hq1]. destruct (block_position s ci' ltac:(lia)) as [Hq0' Hq1'].
  destruct (counts_of_block s ltac:(lia)) as (_ & _ & Hc).
  pose proof (Z.div_mod ci (block_counts s) ltac:(lia)). pose proof (Z.div_mod ci' (block_counts s) ltac:(lia)).
  unfold block_of in Hb, Hb', Hp, Hp'. fold (table_index s ci) in *. fold (table_index s ci') in *.
  destruct (Z.leb_spec 0 (table_index s ci)); [| done].
  destruct (Z.ltb_spec (table_index s ci) (refcount_table_size s)); [| done].
  destruct (Z.leb_spec 0 (table_index s ci')); [| done].
  destruct (Z.ltb_spec (table_index s ci') (refcount_table_size s)); [| done]. cbn [andb] in *.
  destruct (refcount_table s !! Z.to_nat (table_index s ci)) as [o |] eqn:E; [| done].
  destruct (refcount_table s !! Z.to_nat (table_index s ci')) as [o' |] eqn:E'; [| done].
  cbn [default id] in *. destruct (im_table _ _ _ _ Him _ _ E Hb) as (Hto & _).
  destruct (im_table _ _ _ _ Him _ _ E' Hb') as (Hto' & _).
  assert (o = o') as ->.
  { apply (offsets_disjoint d s _ _ p (proj1 (im_inv _ _ _ _ Him)) Hto Hto'); lia. }
  pose proof (im_distinct _ _ _ _ Him _ _ _ E E' Hb) as Hi.
  assert (table_index s ci = table_index s ci') by lia. unfold table_index in *. lia.
Qed.

(** *** Steps of the caches as steps of the image *)

Lemma image_next h h' k k' s s' f f' x :
  image h k s f -> inv d s' f' -> cool k' s' ->
  (s'.(cluster_bits), s'.(refcount_table), s'.(refcount_table_size)) =
    (s.(cluster_bits), s.(refcount_table), s.(refcount_table_size)) ->
  steady (Some (REFCOUNT_CACHE, x)) (set_free_cluster_index s'.(free_cluster_index) s) s' ->
  (forall i e, entry_at s' REFCOUNT_CACHE i = Some e -> e.(ref) = if decide (h' = Some i) then 1 else 0) ->
  (forall i off p, s.(refcount_table) !! i = Some off -> off <> 0 ->
     off <= p < off + cluster_size s -> 0 <= f' p < 256) ->
  image h' k' s' f'.
Proof.
  intros Him Hi Hc Hmeta Hst Hheld Hbytes. injection Hmeta as Hb Ht Hn.
  assert (Hcs : cluster_size s' = cluster_size s) by (unfold cluster_size; by rewrite Hb). split.
  - done.
  - done.
  - destruct (im_room _ _ _ _ Him) as [e E].
    destruct (st_entry _ _ _ Hst REFCOUNT_CACHE 0 e E) as (e' & E' & _). by exists e'.
  - done.
  - rewrite Ht, Hn. apply (im_size _ _ _ _ Him).
  - rewrite Ht. intros i off Hoff Hnz. destruct (im_table _ _ _ _ Him i off Hoff Hnz) as (Hto & Hhome & _).
    split; [unfold table_offset; by rewrite Hcs |]. split.
    + intros c j e' E' Ho. destruct c; [| done].
      destruct (entry_at s L2_CACHE j) as [e |] eqn:E.
      * destruct (st_entry _ _ _ Hst L2_CACHE j e E) as (e'' & E'' & Hal). rewrite E' in E''.
        injection E'' as <-. destruct (Hal ltac:(done)) as (Hoe & _). apply (Hhome L2_CACHE j e E). congruence.
      * by rewrite (st_none _ _ _ Hst L2_CACHE j E) in E'.
    + intros p Hp. rewrite Hcs in Hp. by apply (Hbytes i off).
  - rewrite Ht. apply (im_distinct _ _ _ _ Him).
Qed.

Lemma set_free_id s : set_free_cluster_index s.(free_cluster_index) s = s.
Proof. by destruct s. Qed.

(** A step that leaves the counts alone *)
Lemma image_same h h' k k' s s' f x :
  image h k s f -> inv d s' f -> cool k' s' -> steady (Some (REFCOUNT_CACHE, x)) s s' ->
  (forall i e, entry_at s' REFCOUNT_CACHE i = Some e -> e.(ref) = if decide (h' = Some i) then 1 else 0) ->
  image h' k' s' f /\ meta s' = meta s.
Proof.
  intros Him Hi Hc Hst Hheld. pose proof (st_meta _ _ _ Hst) as Hm. split; [| done].
  apply (image_next h h' k k' s s' f f x); [done | done | done | | | done |].
  - injection Hm as E1 E2 _ E3 _ _. congruence.
  - replace s'.(free_cluster_index) with s.(free_cluster_index) by (by injection Hm).
    by rewrite set_free_id.
  - intros i off p Hoff Hnz. by apply (im_table _ _ _ _ Him i off Hoff Hnz).
Qed.

(** The users of the other entries *)
Lemma held_others h h' s s' i :
  (forall j e, entry_at s REFCOUNT_CACHE j = Some e -> e.(ref) = if decide (h = Some j) then 1 else 0) ->
  steady (Some (REFCOUNT_CACHE, i)) s s' ->
  (forall j, j <> i -> h = Some j <-> h' = Some j) ->
  (forall e, entry_at s' REFCOUNT_CACHE i = Some e -> e.(ref) = if decide (h' = Some i) then 1 else 0) ->
  forall j e, entry_at s' REFCOUNT_CACHE j = Some e -> e.(ref) = if decide (h' = Some j) then 1 else 0.
Proof.
  intros Hheld Hst Hh Hi j e' E'. destruct (decide (j = i)) as [-> | Hne]; [by apply Hi |].
  destruct (entry_at s REFCOUNT_CACHE j) as [e |] eqn:E;
    [| by rewrite (st_none _ _ _ Hst REFCOUNT_CACHE j E) in E'].
  destruct (st_entry _ _ _ Hst REFCOUNT_CACHE j e E) as (e'' & E'' & Hal). rewrite E' in E''. injection E'' as <-.
  destruct (Hal ltac:(congruence)) as (_ & _ & ->). rewrite (Hheld j e E).
  pose proof (Hh j Hne). repeat case_decide; tauto || done.
Qed.

Lemma cache_get_block k s f i off :
  image None k s f -> 33 <= k < INT_MAX -> s.(refcount_table) !! i = Some off -> off <> 0 ->
  runs (qcow2_cache_get size_bits REFCOUNT_CACHE off) s (fun r s' => meta s' = meta s /\
    (r.1 < 0 /\ image None (k + 1) s' f \/
     r.1 = 0 /\ image (Some r.2) (k + 1) s' f /\ exists e, entry_at s' REFCOUNT_CACHE r.2 = Some e /\
       e.(offset) = off /\ e.(table) = bytes_at f off (cluster_size s))).
Proof.
  intros Him Hk Hoff Hnz. destruct (im_table _ _ _ _ Him i off Hoff Hnz) as (Hto & Hhome & _).
  eapply runs_mono; [apply (do_get_runs size_bits d k s f REFCOUNT_CACHE off true) |].
  - apply Him.
  - apply Him.
  - lia.
  - destruct (im_room _ _ _ _ Him) as [e E]. exists 0%nat, e. split; [done |].
    rewrite (im_held _ _ _ _ Him 0 e E). by rewrite decide_False.
  - done.
  - done.
  - intros [r j] s' (Hst & Hc & e & e' & E & E' & Hres). cbn [fst snd] in *.
    replace (Z.max 33 (k + 1)) with (k + 1) in Hc by lia.
    pose proof (im_held _ _ _ _ Him j e E) as Hz. rewrite decide_False in Hz by done.
    split; [apply Hst |]. destruct Hres as [(Hr & Hi & _ & Hz') | (Hr & Ho & Hz' & _ & Hi & Ht)]; [left | right].
    + split; [done |]. apply (image_same None None k (k + 1) s s' f j Him Hi Hc Hst).
      apply (held_others None None s s' j (im_held _ _ _ _ Him) Hst); [done |].
      intros e1 E1. rewrite E' in E1. injection E1 as <-. by rewrite decide_False.
    + split; [done |]. split; [| by exists e'].
      apply (image_same None (Some j) k (k + 1) s s' f j Him Hi Hc Hst).
      apply (held_others None (Some j) s s' j (im_held _ _ _ _ Him) Hst); [intros j' Hj; split; congruence |].
      intros e1 E1. rewrite E' in E1. injection E1 as <-. rewrite decide_True by done. lia.
Qed.

Lemma cache_put_block k s f i :
  image (Some i) k s f -> is_Some (entry_at s REFCOUNT_CACHE i) ->
  runs (qcow2_cache_put size_bits REFCOUNT_CACHE i) s (fun r s' =>
    r <= 0 /\ image None k s' f /\ meta s' = meta s).
Proof.
  intros Him [e E]. pose proof (im_held _ _ _ _ Him i e E) as Href. rewrite decide_True in Href by done.
  eapply runs_mono; [apply (put_runs size_bits d k s f REFCOUNT_CACHE i e); [apply Him | apply Him | done | lia] |].
  intros r s' (Hr & Hi & Hc & Hst & e' & E' & _ & _ & Href' & _). split; [done |].
  apply (image_same (Some i) None k k s s' f i Him Hi Hc Hst).
  apply (held_others (Some i) None s s' i (im_held _ _ _ _ Him) Hst); [intros j Hj; split; congruence |].
  intros e1 E1. rewrite E' in E1. injection E1 as <-. rewrite decide_False by done. lia.
Qed.

Lemma block_of_lookup s ci :
  block_of s ci <> 0 -> Z.of_nat (length s.(refcount_table)) = s.(refcount_table_size) ->
  s.(refcount_table) !! Z.to_nat (table_index s ci) = Some (block_of s ci) /\
  0 <= table_index s ci < s.(refcount_table_size).
Proof.
  unfold block_of. intros Hb Hl. destruct (Z.leb_spec 0 (table_index s ci)); [| done].
  destruct (Z.ltb_spec (table_index s ci) (refcount_table_size s)); [| done]. cbn [andb] in *.
  destruct (lookup_lt_is_Some_2 s.(refcount_table) (Z.to_nat (table_index s ci))) as [o Eo]; [lia |].
  rewrite Eo. cbn. split; [done | lia].
Qed.

(** Reading a count *)
Lemma get_refcount_runs k s f ci :
  image None k s f -> 33 <= k < INT_MAX -> cluster_fits ci ->
  runs (get_refcount size_bits ci) s (fun r s' => (r < 0 \/ r = refcount_of s f ci) /\
    image None (k + 1) s' f /\ meta s' = meta s).
Proof.
  intros Him Hk Hci. pose proof (image_bits _ _ _ _ Him) as Hbits.
  assert (Hup : image None (k + 1) s f).
  { destruct Him. split; try done. apply (cool_mono k); [lia | done]. }
  unfold get_refcount. sm_step. sm_step. unfold id. rewrite table_index_shift by lia.
  pose proof (table_index_fits s ci ltac:(lia) Hci) as Hidx. rewrite wrap_small by done.
  destruct (im_size _ _ _ _ Him) as [Hlen _]. unfold refcount_of.
  destruct (Z.leb_spec (refcount_table_size s) (table_index s ci)) as [Hout | Hin].
  { sm_step. split; [right | done]. unfold block_of. rewrite (proj2 (Z.ltb_ge _ _)) by lia.
    by rewrite andb_false_r. }
  assert (Hblock : s.(refcount_table) !! Z.to_nat (table_index s ci) = Some (block_of s ci)).
  { unfold block_of. rewrite (proj2 (Z.leb_le _ _)), (proj2 (Z.ltb_lt _ _)) by (destruct Hidx; lia). cbn [andb].
    destruct (lookup_lt_is_Some_2 s.(refcount_table) (Z.to_nat (table_index s ci))) as [o Eo];
      [destruct Hidx; lia |]. by rewrite Eo. }
  sm_step. apply (runs_lift _ (block_of s ci)); [done |].
  destruct (Z.eqb_spec (block_of s ci) 0) as [Hz | Hnz]; [sm_step; split; [by right | done] |].
  sm_step. eapply runs_mono; [by apply (cache_get_block k s f _ _ Him Hk Hblock Hnz) |].
  intros [r i] s1 (Hm1 & Hget). cbn [fst snd] in Hget. destruct Hget as [[Hr Him1] | (-> & Him1 & e & E & Ho & Ht)].
  { rewrite (proj2 (Z.ltb_lt r 0)) by lia. sm_step. split; [by left | done]. }
  cbn [Z.ltb Z.compare]. sm_step. apply (get_entry_runs _ _ _ _ _ E).
  sm_step. destruct (block_position s ci ltac:(lia)) as [Hq0 Hq1].
  apply (runs_lift _ (f (block_of s ci + 2 * (ci mod block_counts s)) * 256 +
                      f (block_of s ci + 2 * (ci mod block_counts s) + 1))).
  { rewrite Ht, block_index_mod by lia. apply be16_bytes; lia. }
  sm_step. eapply runs_mono; [apply (cache_put_block (k + 1) s1 f i Him1); by exists e |].
  intros r2 s2 (Hr2 & Him2 & Hm2). destruct (Z.ltb_spec r2 0); sm_step.
  - split; [by left |]. split; [done | congruence].
  - split; [by right |]. split; [done | congruence].
Qed.

(** *** Searching free clusters *)

Lemma entry_at_free v s c i : entry_at (set_free_cluster_index v s) c i = entry_at s c i.
Proof. by destruct c. Qed.

Lemma image_free h k v s f : image h k s f -> image h k (set_free_cluster_index v s) f.
Proof.
  intros Him. apply (image_next h h k k s _ f f 0); [done | | | done | | |].
  - apply (inv_same_store d s); [apply Him | done | done | by intros [] | |].
    + intros c i e E. exists e. by rewrite entry_at_free.
    + intros c i E. by rewrite entry_at_free.
  - intros c i e. rewrite entry_at_free. apply (im_cool _ _ _ _ Him).
  - apply steady_refl.
  - intros i e. rewrite entry_at_free. apply (im_held _ _ _ _ Him).
  - intros i off p Hoff Hnz. by apply (im_table _ _ _ _ Him i off Hoff Hnz).
Qed.

Lemma image_cooler h k k' s f : k <= k' -> image h k s f -> image h k' s f.
Proof. intros Hk []. split; try done. by apply (cool_mono k). Qed.

(** The fields that say where the counts are *)
Definition layout s := (s.(cluster_bits), s.(refcount_table), s.(refcount_table_size)).

Lemma layout_counts s s' f ci : layout s' = layout s -> refcount_of s' f ci = refcount_of s f ci.
Proof.
  intros H. injection H as Hb Ht Hn. unfold refcount_of, block_of, table_index, block_counts.
  by rewrite Hb, Ht, Hn.
Qed.

Lemma layout_meta s s' : meta s' = meta s -> layout s' = layout s.
Proof. intros H. injection H as E1 E2 _ E3 _ _. unfold layout. congruence. Qed.

(** Beyond the table there are no counts. *)
Lemma used_described s f ci :
  9 <= s.(cluster_bits) -> refcount_of s f ci <> 0 -> ci < s.(refcount_table_size) * block_counts s.
Proof.
  intros Hb H. destruct (counts_of_block s Hb) as (_ & _ & Hc). unfold refcount_of, block_of, table_index in H.
  destruct (Z.leb_spec 0 (ci / block_counts s)); [| done].
  destruct (Z.ltb_spec (ci / block_counts s) s.(refcount_table_size)); [| done].
  pose proof (Z.div_mod ci (block_counts s) ltac:(lia)).
  pose proof (Z.mod_pos_bound ci (block_counts s) ltac:(lia)). nia.
Qed.

(** The clusters the search may still have to look at *)
Definition to_look s (i nb : Z) : Z :=
  let last := s.(refcount_table_size) * block_counts s in
  if last <=? s.(free_cluster_index) then nb - i else last - s.(free_cluster_index) + nb.

(** A run of [nb] free clusters was found, or reading a count failed. *)
Definition found s f (from nb r : Z) s' : Prop :=
  layout s' = layout s /\
  (r < 0 \/ exists first, r = Z.shiftl first s.(cluster_bits) /\ from <= first /\
     s'.(free_cluster_index) = first + nb /\
     forall ci, first <= ci < first + nb -> refcount_of s f ci = 0).

Lemma noref_loop_runs fuel i nb k s f :
  image None k s f -> 33 <= k -> k + Z.of_nat fuel < INT_MAX -> 0 <= i <= nb ->
  i <= s.(free_cluster_index) -> s.(free_cluster_index) + Z.of_nat fuel < 2 ^ 40 ->
  to_look s i nb <= Z.of_nat fuel ->
  (forall ci, s.(free_cluster_index) - i <= ci < s.(free_cluster_index) -> refcount_of s f ci = 0) ->
  runs (noref_loop size_bits fuel i nb) s (fun r s' => image None (k + Z.of_nat fuel) s' f /\
    found s f (s.(free_cluster_index) - i) nb r s').
Proof.
  revert i k s. induction fuel as [| fuel IH]; intros i k s Him Hk Hhot Hi Hfree Hfits Hlook Hzero;
    cbn [noref_loop]; (destruct (Z.leb_spec nb i);
      [sm_step; sm_step; sm_step; split; [by apply (image_cooler None k); [lia |] |];
       split; [done |]; right; exists (s.(free_cluster_index) - nb); unfold id; split; [done |];
       split; [lia |]; split; [lia |]; intros ci Hci; apply Hzero; lia |]).
  { exfalso. unfold to_look in Hlook. case_match; lia. }
  sm_step. sm_step. sm_step. sm_step. set (s1 := set_free_cluster_index _ s).
  pose proof (image_free None k (s.(free_cluster_index) + 1) s f Him) as Him1. fold s1 in Him1.
  sm_step. eapply runs_mono; [apply (get_refcount_runs k s1 f _ Him1); [lia | unfold cluster_fits; lia] |].
  intros r s2 (Hr & Him2 & Hm2). destruct (Z.ltb_spec r 0).
  { sm_step. split; [apply (image_cooler None (k + 1)); [lia | done] |].
    split; [| by left]. apply layout_meta in Hm2. done. }
  destruct Hr as [? | ->]; [lia |]. rewrite (layout_counts s s1) by done.
  pose proof (layout_meta _ _ Hm2) as Hl2.
  assert (Hfr : s2.(free_cluster_index) = s.(free_cluster_index) + 1) by (by injection Hm2).
  assert (Hnext : forall i', 0 <= i' <= nb -> i' <= i + 1 ->
    (forall ci, s.(free_cluster_index) + 1 - i' <= ci < s.(free_cluster_index) + 1 -> refcount_of s f ci = 0) ->
    to_look s2 i' nb <= Z.of_nat fuel ->
    runs (noref_loop size_bits fuel i' nb) s2 (fun r s' => image None (k + Z.of_nat (S fuel)) s' f /\
      found s f (s.(free_cluster_index) - i) nb r s')).
  { intros i' Hi' Hle Hz Hlk.
    eapply runs_mono; [apply (IH i' (k + 1) s2 Him2); rewrite ?Hfr; try lia; try done |].
    - intros ci Hci. rewrite (layout_counts s1 s2), (layout_counts s s1) by done. apply Hz. lia.
    - intros r s' [Him' [Hl' Hres]]. split; [by replace (k + Z.of_nat (S fuel)) with (k + 1 + Z.of_nat fuel) by lia |].
      split; [by rewrite Hl', Hl2 |]. destruct Hres as [? | (first & -> & Hf & Hfree' & Hzf)]; [by left | right].
      exists first. injection Hl2 as Hb2 _ _. rewrite Hb2. split; [done |]. split; [lia |]. split; [done |].
      intros ci Hci. rewrite <- (Hzf ci Hci). rewrite (layout_counts s1 s2), (layout_counts s s1); [done | done |].
      by apply layout_meta. }
  assert (Hlast : s2.(refcount_table_size) * block_counts s2 = s.(refcount_table_size) * block_counts s).
  { injection Hl2 as Hb2 _ Hn2. unfold block_counts. rewrite Hb2, Hn2. done. }
  pose proof (image_bits _ _ _ _ Him) as Hbits.
  destruct (c_true (refcount_of s f (free_cluster_index s))) eqn:Hused.
  - apply c_true_nonzero in Hused. apply used_described in Hused; [| lia].
    apply Hnext; [lia | lia | intros; lia |]. unfold to_look in *. rewrite Hlast, Hfr.
    repeat case_match; lia.
  - unfold c_true in Hused. apply negb_false_iff, Z.eqb_eq in Hused.
    apply Hnext; [lia | lia | |].
    + intros ci Hci. destruct (decide (ci = s.(free_cluster_index))) as [-> | Hne]; [done | apply Hzero; lia].
    + unfold to_look in *. rewrite Hlast, Hfr. repeat case_match; lia.
Qed.

(** [alloc_clusters_noref] ends, and finds clusters without references. *)
Lemma alloc_noref_runs k s f size :
  image None k s f -> 33 <= k -> 0 <= s.(free_cluster_index) ->
  0 <= size_to_clusters s size ->
  let fuel := Z.of_nat (noref_fuel s (size_to_clusters s size)) in
  k + fuel < INT_MAX -> s.(free_cluster_index) + fuel < 2 ^ 40 ->
  runs (alloc_clusters_noref size_bits size) s (fun r s' => image None (k + fuel) s' f /\
    found s f s.(free_cluster_index) (size_to_clusters s size) r s').
Proof.
  intros Him Hk Hfree Hnb fuel Hhot Hfits. unfold alloc_clusters_noref. sm_step. sm_step. unfold id.
  eapply runs_mono; [apply (noref_loop_runs _ 0 _ k s f Him); [done | done | lia | done | done | | intros; lia] |].
  - unfold to_look, noref_fuel. pose proof (image_bits _ _ _ _ Him).
    destruct (counts_of_block s ltac:(lia)) as (_ & _ & Hc). case_match; lia.
  - intros r s' H. by rewrite Z.sub_0_r in H.
Qed.

(** *** Updating counts *)

(** Outside the refcount blocks nothing changes. *)
Definition only_counts s f f' : Prop :=
  forall p, (forall i off, s.(refcount_table) !! i = Some off -> off <> 0 ->
    ~ (off <= p < off + cluster_size s)) -> f' p = f p.

(** One count is stored in the image. *)
Lemma count_stored h k s f ci v t :
  image h k s f -> block_of s ci <> 0 -> 0 <= v <= 0xffff ->
  put_be16 (bytes_at f (block_of s ci) (cluster_size s)) (ci mod block_counts s) v = Some t ->
  let f' := splice f (block_of s ci) t in
  (forall ci', refcount_of s f' ci' = if decide (ci' = ci) then v else refcount_of s f ci') /\
  only_counts s f f' /\
  (forall i off p, s.(refcount_table) !! i = Some off -> off <> 0 ->
     off <= p < off + cluster_size s -> 0 <= f' p < 256).
Proof.
  intros Him Hb Hv Ht f'. pose proof (image_bits _ _ _ _ Him) as Hbits.
  destruct (counts_of_block s ltac:(lia)) as (_ & Hcs & Hc).
  assert (Hf' : forall p, f' p = if decide (p = block_of s ci + 2 * (ci mod block_counts s)) then v / 256 mod 256
    else if decide (p = block_of s ci + 2 * (ci mod block_counts s) + 1) then v mod 256 else f p).
  { intros p. by apply (splice_count f _ (cluster_size s)); [lia |]. }
  destruct (im_size _ _ _ _ Him) as [Hlen _]. destruct (block_of_lookup s ci Hb Hlen) as [Hlook _].
  destruct (block_position s ci ltac:(lia)) as [Hq0 Hq1]. split; [| split].
  - intros ci'. unfold refcount_of. destruct (decide (ci' = ci)) as [-> | Hne].
    + rewrite (proj2 (Z.eqb_neq _ _)) by done. rewrite !Hf'. rewrite decide_True by done.
      rewrite decide_False, decide_True by lia. rewrite Z.mod_small by (Z.to_euclidean_division_equations; lia).
      rewrite (Z.div_mod v 256) at 3 by lia. lia.
    + destruct (Z.eqb_spec (block_of s ci') 0) as [Hz | Hnz]; [done |]. rewrite !Hf'.
      assert (Hno : forall p, p = block_of s ci' + 2 * (ci' mod block_counts s) \/
        p = block_of s ci' + 2 * (ci' mod block_counts s) + 1 ->
        p <> block_of s ci + 2 * (ci mod block_counts s) /\ p <> block_of s ci + 2 * (ci mod block_counts s) + 1).
      { intros p Hp. split; intros Hq; apply Hne; apply (count_places h k s f ci' ci p Him Hnz Hb Hp); auto. }
      destruct (Hno _ (or_introl eq_refl)) as [H1 H2]. destruct (Hno _ (or_intror eq_refl)) as [H3 H4].
      by rewrite !decide_False.
  - intros p Hp. rewrite Hf'. specialize (Hp _ _ Hlook Hb). rewrite !decide_False by lia. done.
  - intros i off p Hoff Hnz Hp. rewrite Hf'. repeat case_decide; [apply Z.mod_pos_bound; lia.. |].
    by apply (im_table _ _ _ _ Him i off Hoff Hnz).
Qed.

(** Reading the table of an entry in the image *)
Lemma image_entry h k s f i e :
  image h k s f -> entry_at s REFCOUNT_CACHE i = Some e -> e.(offset) <> 0 ->
  e.(table) = bytes_at f e.(offset) (cluster_size s).
Proof. intros Him E Ho. apply (ag_table _ _ _ _ (proj2 (im_inv _ _ _ _ Him)) REFCOUNT_CACHE i e E Ho). done. Qed.

Lemma refcount_range h k s f ci : image h k s f -> 0 <= refcount_of s f ci <= 0xffff.
Proof.
  intros Him. pose proof (image_bits _ _ _ _ Him) as Hbits. unfold refcount_of.
  destruct (Z.eqb_spec (block_of s ci) 0) as [| Hnz]; [lia |].
  destruct (im_size _ _ _ _ Him) as [Hlen _]. destruct (block_of_lookup s ci Hnz Hlen) as [Hlook _].
  destruct (im_table _ _ _ _ Him _ _ Hlook Hnz) as (_ & _ & Hb).
  destruct (block_position s ci ltac:(lia)) as [Hq0 Hq1].
  pose proof (Hb (block_of s ci + 2 * (ci mod block_counts s)) ltac:(lia)).
  pose proof (Hb (block_of s ci + 2 * (ci mod block_counts s) + 1) ltac:(lia)). lia.
Qed.

(** The entry [i] is in use and holds the block at [off]. *)
Definition holding (i : nat) (off : Z) k s f : Prop :=
  image (Some i) k s f /\ exists e, entry_at s REFCOUNT_CACHE i = Some e /\ e.(offset) = off.

Lemma mark_image i off k s f :
  holding i off k s f ->
  runs (qcow2_cache_entry_mark_dirty REFCOUNT_CACHE i) s (fun _ s' => holding i off k s' f /\ meta s' = meta s /\
    exists e, entry_at s' REFCOUNT_CACHE i = Some e /\ e.(offset) = off /\ e.(dirty) = true).
Proof.
  intros [Him (e & E & Ho)].
  eapply runs_mono; [apply (mark_dirty_runs d k s f REFCOUNT_CACHE i e); [apply Him | apply Him | done] |].
  intros _ s' (-> & Hi & Hc & E').
  destruct (image_same (Some i) (Some i) k k s _ f i Him Hi Hc (steady_upd _ _ _ _)) as [Him' Hm].
  { apply (held_others (Some i) (Some i) s _ i (im_held _ _ _ _ Him) (steady_upd _ _ _ _)); [done |].
    intros e1 E1. rewrite E' in E1. injection E1 as <-. apply (im_held _ _ _ _ Him i e E). }
  split; [| split; [done | by eexists]]. split; [done | by eexists].
Qed.

(** Storing a table in the entry in use, perhaps with a new free cluster *)
Lemma store_image i off k s f e t v :
  holding i off k s f -> entry_at s REFCOUNT_CACHE i = Some e -> e.(offset) = off -> e.(dirty) = true ->
  off <> 0 -> length t = length e.(table) ->
  (forall j o p, s.(refcount_table) !! j = Some o -> o <> 0 -> o <= p < o + cluster_size s ->
     0 <= splice f off t p < 256) ->
  let s' := upd REFCOUNT_CACHE i (set_table t) (set_free_cluster_index v s) in
  holding i off k s' (splice f off t) /\ layout s' = layout s.
Proof.
  intros [Him _] E Ho Hd Hnz Hl Hbytes s'. pose proof (image_free (Some i) k v s f Him) as Him1.
  set (s1 := set_free_cluster_index v s) in *. assert (E1 : entry_at s1 REFCOUNT_CACHE i = Some e) by done.
  destruct (table_store_inv d k s1 f REFCOUNT_CACHE i e t (im_inv _ _ _ _ Him1) (im_cool _ _ _ _ Him1) E1 Hd)
    as [Hi2 Hc2]; [congruence | done |]. fold s' in Hi2, Hc2. rewrite Ho in Hi2.
  pose proof (entry_at_upd_eq REFCOUNT_CACHE i (set_table t) s1 e E1) as E2. fold s' in E2.
  split; [| done]. split; [| by eexists].
  apply (image_next (Some i) (Some i) k k s s' f _ i Him Hi2 Hc2); [done | | | done].
  - change (free_cluster_index s') with v. apply steady_upd.
  - apply (held_others (Some i) (Some i) s1 s' i (im_held _ _ _ _ Him1) (steady_upd _ _ _ _)); [done |].
    intros e1 E3. rewrite E2 in E3. injection E3 as <-. apply (im_held _ _ _ _ Him i e E).
Qed.

(** What an update of [addend] for the clusters in [P] leaves *)
Definition updated s f (P : Z -> bool) addend s' f' : Prop :=
  layout s' = layout s /\ only_counts s f f' /\
  forall ci, refcount_of s' f' ci = if P ci then refcount_of s f ci + addend else refcount_of s f ci.

Lemma update_one_runs i k s f ci addend :
  holding i (block_of s ci) k s f -> block_of s ci <> 0 ->
  runs (update_one i ci addend) s (fun r s' => exists f', holding i (block_of s ci) k s' f' /\
    (r = - EINVAL /\ updated s f (fun _ => false) addend s' f' \/
     r = 0 /\ updated s f (fun c => c =? ci) addend s' f')).
Proof.
  intros Hh Hb. pose proof (image_bits _ _ _ _ (proj1 Hh)) as Hbits. unfold update_one. sm_step. sm_step. unfold id.
  sm_step. eapply runs_mono; [by apply mark_image |]. intros _ s1 (Hh1 & Hm1 & e & E & Ho & Hd).
  pose proof (layout_meta _ _ Hm1) as Hl1. pose proof (same_cluster_size _ _ Hm1) as Hcs1.
  pose proof (image_entry _ _ _ _ _ _ (proj1 Hh1) E) as Ht. rewrite Ho, Hcs1 in Ht. specialize (Ht Hb).
  sm_step. apply (get_entry_runs _ _ _ _ _ E). sm_step.
  destruct (block_position s ci ltac:(lia)) as [Hq0 Hq1]. destruct (counts_of_block s ltac:(lia)) as (_ & Hcs & Hc).
  apply (runs_lift _ (refcount_of s f ci)).
  { rewrite Ht, block_index_mod by lia. unfold refcount_of. rewrite (proj2 (Z.eqb_neq _ _)) by done.
    apply be16_bytes; lia. }
  destruct (_ || _) eqn:Hrange.
  { sm_step. exists f. split; [done |]. left. split; [done |]. split; [done |]. split; [done |].
    intros c. by apply layout_counts. }
  apply orb_false_iff in Hrange as [Hlo%Z.ltb_ge Hhi%Z.ltb_ge].
  assert (Hfree : runs (if (refcount_of s f ci + addend =? 0) && (ci <? s.(free_cluster_index))
     then sm_modify (set_free_cluster_index ci) else mret tt) s1
     (fun _ s' => exists v, s' = set_free_cluster_index v s1)).
  { case_match; sm_step; [by exists ci |]. exists s1.(free_cluster_index). by rewrite set_free_id. }
  sm_step. eapply runs_mono; [exact Hfree |]. intros _ s2 [v ->].
  destruct (put_be16_some (table e) (block_index s ci) (refcount_of s f ci + addend)) as [t Hput].
  { rewrite block_index_mod by lia. lia. }
  { rewrite Ht, bytes_at_length, block_index_mod by lia. lia. }
  sm_step. apply (runs_lift _ t); [done |]. unfold table_store, upd_entry. sm_step. sm_step. sm_step.
  fold (upd REFCOUNT_CACHE i (set_table t) (set_free_cluster_index v s1)).
  destruct (put_be16_spec _ _ _ _ Hput) as (Hlt & _).
  assert (Hb1 : block_of s1 ci = block_of s ci).
  { injection Hl1 as H1 H2 H3. unfold block_of, table_index, block_counts. by rewrite H1, H2, H3. }
  assert (Hbc1 : block_counts s1 = block_counts s) by (injection Hl1 as H1 _ _; unfold block_counts; by rewrite H1).
  rewrite Ht, block_index_mod in Hput by lia.
  destruct (count_stored (Some i) k s1 f ci (refcount_of s f ci + addend) t (proj1 Hh1)) as (Hcounts & Honly & Hbytes).
  { congruence. } { lia. } { by rewrite Hb1, Hcs1, Hbc1. }
  rewrite Hb1 in *.
  destruct (store_image i (block_of s ci) k s1 f e t v Hh1 E Ho Hd Hb Hlt Hbytes) as [Hh3 Hl3].
  exists (splice f (block_of s ci) t). split; [done |]. right. split; [done |].
  set (s3 := upd _ _ _ _) in *. split; [congruence |]. split.
  { intros p Hp. apply Honly. intros j o Hj. injection Hl1 as _ H2 _. rewrite H2 in Hj. rewrite Hcs1. by apply (Hp j). }
  intros c. rewrite (layout_counts s1 s3) by done. rewrite Hcounts.
  destruct (Z.eqb_spec c ci) as [-> | Hne]; [by rewrite decide_True |].
  rewrite decide_False by done. by apply layout_counts.
Qed.

Lemma updated_none s s' f addend : layout s' = layout s -> updated s f (fun _ => false) addend s' f.
Proof. intros Hl. split; [done |]. split; [done |]. intros ci. by apply layout_counts. Qed.

Lemma updated_ext s f P P' addend s' f' :
  (forall ci, P ci = P' ci) -> updated s f P addend s' f' -> updated s f P' addend s' f'.
Proof. intros HP (Hl & Ho & Hc). split; [done |]. split; [done |]. intros ci. by rewrite <- HP. Qed.

Lemma only_counts_trans s s1 f f1 f2 :
  layout s1 = layout s -> only_counts s f f1 -> only_counts s1 f1 f2 -> only_counts s f f2.
Proof.
  intros Hl H1 H2 p Hp. injection Hl as Hb Ht Hn. rewrite H2, H1; [done | done |].
  intros i off Hoff. rewrite Ht in Hoff. unfold cluster_size. rewrite Hb. by apply (Hp i off).
Qed.

(** Disjoint updates add up; an update and its opposite cancel. *)
Lemma updated_then s f P addend s1 f1 Q s2 f2 :
  updated s f P addend s1 f1 -> updated s1 f1 Q addend s2 f2 -> (forall ci, P ci && Q ci = false) ->
  updated s f (fun ci => P ci || Q ci) addend s2 f2.
Proof.
  intros (Hl1 & Ho1 & Hc1) (Hl2 & Ho2 & Hc2) Hdis. split; [congruence |].
  split; [by apply (only_counts_trans s s1 f f1 f2 Hl1) |]. intros ci. rewrite Hc2, Hc1.
  specialize (Hdis ci). by destruct (P ci), (Q ci).
Qed.

Lemma updated_undo s f P addend s1 f1 Q s2 f2 :
  updated s f P addend s1 f1 -> updated s1 f1 Q (- addend) s2 f2 ->
  (forall ci, Q ci = true -> P ci = true) ->
  updated s f (fun ci => P ci && negb (Q ci)) addend s2 f2.
Proof.
  intros (Hl1 & Ho1 & Hc1) (Hl2 & Ho2 & Hc2) Hsub. split; [congruence |].
  split; [by apply (only_counts_trans s s1 f f1 f2 Hl1) |]. intros ci. rewrite Hc2, Hc1.
  specialize (Hsub ci). destruct (P ci), (Q ci); cbn [andb negb]; lia || by specialize (Hsub eq_refl).
Qed.

(** The clusters [ci, ci + n) *)
Definition range (ci n : Z) (c : Z) : bool := (ci <=? c) && (c <? ci + n).

Lemma range_cons ci n c : 0 <= n -> (c =? ci) || range (ci + 1) n c = range ci (n + 1) c.
Proof. intros Hn. unfold range. destruct (Z.eqb_spec c ci); case_cmp; cbn; try done; lia. Qed.

Lemma range_empty s f addend s' ci :
  layout s' = layout s -> updated s f (range ci 0) addend s' f.
Proof.
  intros Hl. apply (updated_ext s f (fun _ => false)); [| by apply updated_none].
  intros c. unfold range. case_cmp; cbn; try done; lia.
Qed.

(** The clusters have their refcount blocks. *)
Definition present s (ci n : Z) : Prop :=
  forall c, ci <= c < ci + n -> block_of s c <> 0 /\ cluster_fits c.

Lemma present_layout s s' ci n : layout s' = layout s -> present s ci n -> present s' ci n.
Proof.
  intros Hl Hp c Hc. destruct (Hp c Hc) as [Hb Hf]. split; [| done]. injection Hl as H1 H2 H3.
  unfold block_of, table_index, block_counts in *. by rewrite H1, H2, H3.
Qed.

Lemma block_of_layout s s' c : layout s' = layout s -> block_of s' c = block_of s c.
Proof.
  intros Hl. injection Hl as H1 H2 H3. unfold block_of, table_index, block_counts. by rewrite H1, H2, H3.
Qed.

(** What is held between two clusters of the loop *)
Definition loop_state (rb : option nat) (old : Z) k s f : Prop :=
  match rb with
  | None => image None k s f /\ old = -1
  | Some i => exists off, s.(refcount_table) !! Z.to_nat old = Some off /\ off <> 0 /\ 0 <= old /\
      holding i off k s f
  end.

Lemma alloc_present upd k s f ci :
  image None k s f -> 33 <= k < INT_MAX -> block_of s ci <> 0 -> cluster_fits ci ->
  runs (alloc_refcount_block size_bits upd ci) s (fun r s' => meta s' = meta s /\
    (r.1 < 0 /\ r.2 = None /\ image None (k + 1) s' f \/
     r.1 = 0 /\ exists i, r.2 = Some i /\ holding i (block_of s ci) (k + 1) s' f)).
Proof.
  intros Him Hk Hb Hci. pose proof (image_bits _ _ _ _ Him) as Hbits.
  destruct (im_size _ _ _ _ Him) as [Hlen _]. destruct (block_of_lookup s ci Hb Hlen) as [Hlook Hidx].
  unfold alloc_refcount_block. sm_step. sm_step. unfold id. rewrite table_index_shift by lia.
  rewrite wrap_small by (apply table_index_fits; [lia | done]).
  rewrite (proj2 (Z.ltb_lt _ _)) by lia. sm_step. apply (runs_lift _ (block_of s ci)); [done |].
  rewrite (proj2 (c_true_nonzero _)) by done. unfold load_refcount_block. sm_step.
  eapply runs_mono; [by apply (cache_get_block k s f _ _ Him Hk Hlook Hb) |].
  intros [r i] s1 (Hm1 & Hget). cbn [fst snd] in Hget. sm_step. cbn [fst snd]. split; [done |].
  destruct Hget as [[Hr Him1] | (-> & Him1 & e & E & Ho & _)]; [left | right].
  - split; [done |]. rewrite (proj2 (Z.ltb_lt r 0)) by lia. done.
  - split; [done |]. exists i. split; [done |]. split; [done | by exists e].
Qed.

Lemma next_block_runs alloc_upd rb old k s f ci :
  loop_state rb old k s f -> 33 <= k < INT_MAX -> block_of s ci <> 0 -> cluster_fits ci ->
  runs (next_block size_bits (alloc_refcount_block size_bits alloc_upd) ci (table_index s ci) old rb) s
    (fun r s' => meta s' = meta s /\
      (r.1 < 0 /\ r.2 = None /\ image None (k + 1) s' f \/
       r.1 = 0 /\ exists i, r.2 = Some i /\ holding i (block_of s ci) (k + 1) s' f)).
Proof.
  intros Hst Hk Hb Hci. unfold next_block.
  assert (Hsize : Z.of_nat (length s.(refcount_table)) = s.(refcount_table_size)).
  { destruct rb as [i |]; [destruct Hst as (off & _ & _ & _ & Him & _) | destruct Hst as [Him _]]; apply Him. }
  destruct (block_of_lookup s ci Hb Hsize) as [Hlook Hidx].
  destruct (Z.eqb_spec (table_index s ci) old) as [Heq | Hne].
  - destruct rb as [i |]; [| destruct Hst as [_ ->]; lia].
    destruct Hst as (off & Hoff & Hnz & Hold & Him & He). sm_step. split; [done |]. right. split; [done |].
    exists i. split; [done |]. rewrite <- Heq, Hlook in Hoff. injection Hoff as Hoff.
    split; [by apply (image_cooler (Some i) k); [lia |] | by rewrite Hoff].
  - sm_step. destruct rb as [i |].
    + destruct Hst as (off & _ & _ & _ & Him & e & E & _).
      eapply runs_mono; [apply (cache_put_block k s f i Him); by exists e |].
      intros r s1 (Hr & Him1 & Hm1). pose proof (layout_meta _ _ Hm1) as Hl1. destruct (Z.ltb_spec r 0).
      * sm_step. split; [done |]. left. split; [done |]. split; [done |]. by apply (image_cooler None k); [lia |].
      * eapply runs_mono; [apply (alloc_present alloc_upd k s1 f ci Him1 Hk); [by rewrite (block_of_layout s s1) | done] |].
        intros r2 s2 [Hm2 Hres]. rewrite (block_of_layout s s1) in Hres by done. split; [congruence | done].
    + destruct Hst as [Him _]. sm_step. cbn [Z.ltb Z.compare]. by apply alloc_present.
Qed.

(** The end of the loop: the block still held, if any *)
Definition loop_end (rb : option nat) k s f : Prop :=
  match rb with None => image None k s f | Some i => exists off, holding i off k s f end.

Lemma update_loop_runs alloc_upd addend n ci old rb k s f :
  loop_state rb old k s f -> 33 <= k -> k + Z.of_nat n < INT_MAX -> present s ci (Z.of_nat n) ->
  runs (update_loop size_bits (alloc_refcount_block size_bits alloc_upd) n (ci * cluster_size s) addend old rb) s
    (fun r s' => exists f' m, 0 <= m <= Z.of_nat n /\ updated s f (range ci m) addend s' f' /\
      r.2 = (ci + m) * cluster_size s /\ r.1.1 <= 0 /\ (r.1.1 = 0 <-> m = Z.of_nat n) /\
      loop_end r.1.2 (k + Z.of_nat n) s' f').
Proof.
  revert ci old rb k s f. induction n as [| n IH]; intros ci old rb k s f Hst Hk Hhot Hpres; cbn [update_loop].
  { sm_step. exists f, 0. split; [lia |]. split; [| split; [cbn; lia | split; [done | split; [done |]]]].
    - by apply range_empty.
    - rewrite Z.add_0_r. destruct rb as [i |]; [| by destruct Hst].
      destruct Hst as (off & _ & _ & _ & Hh). by exists off. }
  destruct (Hpres ci ltac:(lia)) as [Hb Hci].
  assert (Hbits : 9 <= s.(cluster_bits) <= 21).
  { destruct rb as [i |]; [destruct Hst as (off & _ & _ & _ & Him & _) | destruct Hst as [Him _]];
      by eapply image_bits. }
  assert (Hshift : Z.shiftr (ci * cluster_size s) s.(cluster_bits) = ci).
  { unfold cluster_size. rewrite Z.shiftl_1_l, Z.shiftr_div_pow2, Z.div_mul by lia. done. }
  sm_step. sm_step. unfold id. rewrite Hshift, table_index_shift by lia. sm_step.
  eapply runs_mono; [by apply (next_block_runs alloc_upd rb old k s f ci Hst ltac:(lia) Hb Hci) |].
  intros [r rb1] s1 [Hm1 Hres]. cbn [fst snd] in Hres. pose proof (layout_meta _ _ Hm1) as Hl1.
  destruct Hres as [(Hr & -> & Him1) | (-> & i & -> & Hh1)].
  { rewrite (proj2 (Z.ltb_lt r 0)) by lia. sm_step. exists f, 0. cbn [fst snd]. split; [lia |].
    split; [| split; [lia | split; [lia | split; [lia |]]]].
    - by apply range_empty.
    - apply (image_cooler None (k + 1)); [lia | done]. }
  cbn [Z.ltb Z.compare]. sm_step. apply (runs_lift _ i); [done |]. sm_step.
  rewrite <- (block_of_layout s s1 ci Hl1) in Hh1, Hb.
  eapply runs_mono; [by apply (update_one_runs i (k + 1) s1 f ci addend Hh1 Hb) |].
  intros r s2 (f2 & Hh2 & Hres).
  assert (Hup1 : forall P, updated s1 f P addend s2 f2 -> updated s f P addend s2 f2).
  { intros P H. eapply updated_ext; [| apply (updated_then s f (fun _ => false) addend s1 f P s2 f2);
      [by apply updated_none | done | done]]. done. }
  destruct Hres as [[-> Hup] | [-> Hup]]; apply Hup1 in Hup.
  { change (- EINVAL <? 0) with true. cbv iota. sm_step. exists f2, 0. cbn [fst snd]. split; [lia |].
    split; [| split; [lia | split; [done | split; [split; [done | lia] |]]]].
    - eapply updated_ext; [| exact Hup]. intros c. unfold range. case_cmp; cbn; try done; lia.
    - exists (block_of s1 ci). destruct Hh2 as [Him2 He2]. split; [by apply (image_cooler (Some i) (k + 1)); [lia |] | done]. }
  cbn [Z.ltb Z.compare]. pose proof (proj1 Hup) as Hl2.
  assert (Hcs2 : cluster_size s2 = cluster_size s) by (injection Hl2 as H1 _ _; unfold cluster_size; by rewrite H1).
  replace (ci * cluster_size s + cluster_size s) with ((ci + 1) * cluster_size s2) by lia.
  eapply runs_mono; [apply (IH (ci + 1) (table_index s ci) (Some i) (k + 1) s2 f2) |].
  - destruct (im_size _ _ _ _ (proj1 Hh1)) as [Hsz _]. destruct (block_of_lookup s1 ci Hb Hsz) as [Hlook Hidx].
    exists (block_of s1 ci). injection Hl1 as H1 H2 H3. injection Hl2 as H4 H5 H6.
    assert (Hti : table_index s1 ci = table_index s ci) by (unfold table_index, block_counts; by rewrite H1).
    rewrite H5, <- H2, <- Hti. split; [done |]. split; [done |]. split; [lia | done].
  - lia.
  - lia.
  - apply (present_layout s s2); [done |]. intros c Hc. apply Hpres. lia.
  - intros [[r3 rb3] co3] s3 (f3 & m & Hm & Hup3 & Hco & Hr3 & Hz3 & Hend). cbn [fst snd] in *.
    exists f3, (m + 1). split; [lia |]. split; [| split; [rewrite Hco, Hcs2; lia | split; [done | split; [lia |]]]].
    + eapply updated_ext; [| apply (updated_then _ _ _ _ _ _ _ _ _ Hup Hup3)].
      * intros c. apply range_cons. lia.
      * intros c. unfold range. destruct (Z.eqb_spec c ci); case_cmp; cbn; try done; lia.
    + by replace (k + Z.of_nat (S n)) with (k + 1 + Z.of_nat n) by lia.
Qed.

(** The clusters of a request *)
Definition first_cluster s (offset : Z) : Z := offset / cluster_size s.
Definition cluster_count s (offset length : Z) : Z :=
  if length <=? 0 then 0 else (offset + length - 1) / cluster_size s - offset / cluster_size s + 1.

(** Every change is by [addend], inside the request, and complete on success. *)
Definition update_post s f (offset length addend : Z) k (r : Z) s' : Prop :=
  r <= 0 /\ exists f' P, image None k s' f' /\ updated s f P addend s' f' /\
    (forall c, P c = true -> range (first_cluster s offset) (cluster_count s offset length) c = true) /\
    (r = 0 -> forall c, P c = range (first_cluster s offset) (cluster_count s offset length) c).

Lemma image_steady h k s s' f :
  image h k s f -> inv d s' f -> cool k s' -> steady None s s' -> image h k s' f /\ meta s' = meta s.
Proof.
  intros Him Hi Hc Hst. apply (image_same h h k k s s' f 0 Him Hi Hc (steady_weaken _ _ _ Hst)).
  intros j e' E'. destruct (entry_at s REFCOUNT_CACHE j) as [e |] eqn:E;
    [| by rewrite (st_none _ _ _ Hst REFCOUNT_CACHE j E) in E'].
  destruct (st_entry _ _ _ Hst REFCOUNT_CACHE j e E) as (e'' & E'' & Hal). rewrite E' in E''. injection E'' as <-.
  destruct (Hal ltac:(done)) as (_ & _ & ->). apply (im_held _ _ _ _ Him j e E).
Qed.

Lemma align_down s x : 9 <= s.(cluster_bits) ->
  Z.land x (Z.lnot (cluster_size s - 1)) = (x / cluster_size s) * cluster_size s.
Proof.
  intros Hb. unfold cluster_size. rewrite Z.shiftl_1_l.
  replace (2 ^ s.(cluster_bits) - 1) with (Z.ones s.(cluster_bits)) by (rewrite Z.ones_equiv; lia).
  rewrite <- Z.ldiff_land, Z.ldiff_ones_r, Z.shiftr_div_pow2, Z.shiftl_mul_pow2 by lia. done.
Qed.

(** The dependency that a decrease sets up first *)
Lemma decrease_first k s f addend :
  image None k s f ->
  runs (if addend <? 0 then _ ← qcow2_cache_set_dependency size_bits REFCOUNT_CACHE L2_CACHE; mret tt
        else mret tt) s (fun _ s' => image None k s' f /\ meta s' = meta s).
Proof.
  intros Him. destruct (addend <? 0); [| by sm_step]. sm_step.
  eapply runs_mono; [apply (set_dependency_runs size_bits d k s f); [apply Him | apply Him | done] |].
  intros r s' (_ & Hi & Hc & Hst & _). sm_step. by apply image_steady.
Qed.

(** Putting back what the loop still holds *)
Lemma put_last k s f rb :
  loop_end rb k s f ->
  runs (match rb with Some i => qcow2_cache_put size_bits REFCOUNT_CACHE i | None => mret 0 end) s
    (fun r s' => r <= 0 /\ image None k s' f /\ meta s' = meta s).
Proof.
  destruct rb as [i |].
  - intros (off & Him & e & E & _). apply (cache_put_block k s f i Him). by exists e.
  - intros Him. by sm_step.
Qed.

Lemma cluster_count_bounds s offset length :
  9 <= s.(cluster_bits) -> 0 <= offset -> 0 < length ->
  1 <= cluster_count s offset length /\
  Z.shiftr ((offset + length - 1) / cluster_size s * cluster_size s - offset / cluster_size s * cluster_size s)
    s.(cluster_bits) + 1 = cluster_count s offset length.
Proof.
  intros Hb Ho Hl. assert (Hcs : cluster_size s = 2 ^ s.(cluster_bits)) by apply Z.shiftl_1_l.
  pose proof (Z.pow_pos_nonneg 2 s.(cluster_bits) ltac:(lia) ltac:(lia)).
  unfold cluster_count. rewrite (proj2 (Z.leb_gt _ _)) by lia.
  assert (offset / cluster_size s <= (offset + length - 1) / cluster_size s) by (apply Z.div_le_mono; lia).
  split; [lia |]. rewrite <- Z.mul_sub_distr_r, Z.shiftr_div_pow2, <- Hcs, Z.div_mul by lia. done.
Qed.

(** The clusters of an undo are those the loop finished. *)
Lemma undo_count s offset m :
  9 <= s.(cluster_bits) -> 0 <= m ->
  cluster_count s offset ((first_cluster s offset + m) * cluster_size s - offset) = m.
Proof.
  intros Hb Hm. destruct (counts_of_block s Hb) as (_ & Hcs & Hc). unfold cluster_count, first_cluster.
  pose proof (Z.div_mod offset (cluster_size s) ltac:(lia)) as Hd.
  pose proof (Z.mod_pos_bound offset (cluster_size s) ltac:(lia)).
  destruct (decide (m = 0)) as [-> | Hne]; [rewrite (proj2 (Z.leb_le _ _)); [done | nia] |].
  rewrite (proj2 (Z.leb_gt _ _)) by nia.
  replace (offset + ((offset / cluster_size s + m) * cluster_size s - offset) - 1) with
    ((offset / cluster_size s + m - 1) * cluster_size s + (cluster_size s - 1)) by lia.
  rewrite Z.div_add_l, (Z.div_small (cluster_size s - 1)) by lia. lia.
Qed.

(** A step between two parts of an update that keeps the image *)
Lemma updated_around s s1 s2 s3 f f2 P addend :
  layout s1 = layout s -> updated s1 f P addend s2 f2 -> layout s3 = layout s2 ->
  updated s f P addend s3 f2.
Proof.
  intros Hl1 (Hl2 & Ho2 & Hc2) Hl3. split; [congruence |].
  split; [by apply (only_counts_trans s s1 f f f2 Hl1) |].
  intros c. by rewrite (layout_counts s2 s3), Hc2, (layout_counts s s1) by done.
Qed.

Lemma update_nothing offset length addend k s f r :
  image None k s f -> length <= 0 -> r <= 0 -> update_post s f offset length addend k r s.
Proof.
  intros Him Hl Hr. split; [done |]. exists f, (range (first_cluster s offset) 0). unfold cluster_count.
  rewrite (proj2 (Z.leb_le length 0)) by lia. split; [done |]. split; [by apply range_empty |]. done.
Qed.

(** After the loop: the block is put back, and a failure undone *)
Lemma update_finish (undo : Z -> SM BDRVQcowState Z) offset length addend k s f s2 f2 ret rb m :
  let n := cluster_count s offset length in
  9 <= s.(cluster_bits) -> 0 <= m <= n ->
  updated s f (range (first_cluster s offset) m) addend s2 f2 -> loop_end rb (k + n) s2 f2 ->
  ret <= 0 -> (ret = 0 <-> m = n) ->
  (forall s3, image None (k + n) s3 f2 -> layout s3 = layout s -> m < n ->
     let length' := (first_cluster s offset + m) * cluster_size s - offset in
     cluster_count s3 offset length' = m -> first_cluster s3 offset = first_cluster s offset ->
     runs (undo length') s3 (update_post s3 f2 offset length' (- addend) (k + n + m * (m + 1)))) ->
  runs (wret ← (match rb with Some i => qcow2_cache_put size_bits REFCOUNT_CACHE i | None => mret 0 end);
        if wret <? 0 then mret (if ret <? 0 then ret else wret)
        else (if ret <? 0 then _ ← undo ((first_cluster s offset + m) * cluster_size s - offset); mret tt
              else mret tt);; mret ret) s2
    (update_post s f offset length addend (k + n * (n + 1))).
Proof.
  intros n Hbits Hm Hup Hend Hret Hz Hundo. sm_step. eapply runs_mono; [by apply put_last |].
  intros wret s3 (Hw & Him3 & Hm3). pose proof (updated_around s s s2 s3 f f2 _ addend eq_refl Hup (layout_meta _ _ Hm3)) as Hup3.
  assert (Hsub : forall c, range (first_cluster s offset) m c = true -> range (first_cluster s offset) n c = true).
  { intros c. unfold range. case_cmp; cbn; try done; lia. }
  assert (Hkeep : (ret = 0 -> m = n) -> update_post s f offset length addend (k + n * (n + 1)) ret s3).
  { intros Hfull. split; [done |]. exists f2, (range (first_cluster s offset) m). fold n.
    split; [apply (image_cooler None (k + n)); [nia | done] |]. split; [done |]. split; [done |].
    intros H0 c. by rewrite Hfull. }
  destruct (Z.ltb_spec wret 0).
  { sm_step. destruct (Z.ltb_spec ret 0); [apply Hkeep; lia |].
    destruct Hkeep as (_ & f' & P & Hi & Hu & Hs & _); [lia |]. split; [lia |]. exists f', P. split; [done |]. split; [done |].
    split; [done | lia]. }
  destruct (Z.ltb_spec ret 0); [| sm_step; sm_step; sm_step; apply Hkeep; lia].
  assert (Hlt : m < n) by (destruct (decide (m = n)) as [E |]; [apply Hz in E; lia | lia]).
  pose proof (proj1 Hup3) as Hl3.
  assert (Hcs3 : cluster_size s3 = cluster_size s) by (injection Hl3 as Hx _ _; unfold cluster_size; by rewrite Hx).
  assert (Hfirst3 : first_cluster s3 offset = first_cluster s offset) by (unfold first_cluster; by rewrite Hcs3).
  assert (Hcount3 : cluster_count s3 offset ((first_cluster s offset + m) * cluster_size s - offset) = m).
  { rewrite <- Hfirst3, <- Hcs3. injection Hl3 as Hx _ _. apply undo_count; lia. }
  sm_step. sm_step. eapply runs_mono; [by apply Hundo |].
  intros r4 s4 (_ & f4 & P & Him4 & Hup4 & HP & _). rewrite Hcount3, Hfirst3 in HP. sm_step. sm_step.
  split; [done |].
  exists f4, (fun c => range (first_cluster s offset) m c && negb (P c)). fold n.
  split; [apply (image_cooler None (k + n + m * (m + 1))); [nia | done] |].
  split; [by apply (updated_undo _ _ _ _ _ _ _ _ _ Hup3 Hup4) |].
  split; [| lia]. intros c [Hr _]%andb_true_iff. by apply Hsub.
Qed.

Lemma update_refcount_runs fuel offset length addend k s f :
  image None k s f -> 0 <= offset -> cluster_count s offset length < Z.of_nat fuel ->
  present s (first_cluster s offset) (cluster_count s offset length) -> 33 <= k ->
  let n := cluster_count s offset length in
  k + n * (n + 1) < INT_MAX ->
  runs (update_refcount size_bits fuel offset length addend) s
    (update_post s f offset length addend (k + n * (n + 1))).
Proof.
  revert offset length addend k s f.
  induction fuel as [| fuel IH]; intros offset length addend k s f Him Hoff Hfuel Hpres Hk n Hhot;
    pose proof (image_bits _ _ _ _ Him) as Hbits.
  all: destruct (decide (length <= 0)) as [Hle | Hpos].
  1: { exfalso. unfold cluster_count in Hfuel. rewrite (proj2 (Z.leb_le length 0)) in Hfuel; lia. }
  1: { destruct (cluster_count_bounds s offset length ltac:(lia) Hoff ltac:(lia)). lia. }
  all: cbn [update_refcount].
  - assert (Hn : n = 0) by (unfold n, cluster_count; by rewrite (proj2 (Z.leb_le length 0))).
    destruct (Z.ltb_spec length 0); [| destruct (Z.eqb_spec length 0); [| lia]]; sm_step;
      rewrite Hn, Z.add_0_r; apply update_nothing; done || (unfold EINVAL; lia).
  - rewrite (proj2 (Z.ltb_ge length 0)), (proj2 (Z.eqb_neq length 0)) by lia.
    destruct (cluster_count_bounds s offset length ltac:(lia) Hoff ltac:(lia)) as [Hn1 Hncount].
    fold n in Hn1, Hncount.
    sm_step. eapply runs_mono; [by apply decrease_first |]. intros _ s1 [Him1 Hm1].
    pose proof (layout_meta _ _ Hm1) as Hl1. pose proof (same_cluster_size _ _ Hm1) as Hcs1.
    assert (Hb1 : s1.(cluster_bits) = s.(cluster_bits)) by (by injection Hl1).
    sm_step. sm_step. unfold id. rewrite !align_down by lia. rewrite Hcs1, Hb1, Hncount.
    rewrite <- Hcs1 at 2. sm_step.
    eapply runs_mono; [apply (update_loop_runs _ addend (Z.to_nat n) (offset / cluster_size s) (-1) None k s1 f) |].
    { done. } { done. } { nia. }
    { rewrite Z2Nat.id by lia. by apply (present_layout s s1). }
    intros [[ret rb] co] s2 (f2 & m & Hm & Hup & Hco & Hret & Hz & Hend). cbn [fst snd] in *.
    rewrite Z2Nat.id in * by lia. rewrite Hcs1 in Hco. rewrite Hco.
    apply (update_finish (fun l => update_refcount size_bits fuel offset l (- addend)) offset length addend k s f s2 f2
             ret rb m); [lia | done | | done | done | done |].
    + by apply (updated_around s s1 s2 s2).
    + intros s3 Him3 Hl3 Hlt length' Hc3 Hf3.
      eapply runs_mono; [apply (IH offset length' (- addend) (k + n) s3 f2 Him3 Hoff) |].
      * rewrite Hc3. lia.
      * rewrite Hc3, Hf3. apply (present_layout s s3); [done |]. intros c Hc'. apply Hpres. fold n. lia.
      * lia.
      * rewrite Hc3. nia.
      * intros r s'. by rewrite Hc3.
Qed.

(** *** The whole calls *)

Lemma update_runs offset length addend k s f :
  image None k s f -> 0 <= offset -> present s (first_cluster s offset) (cluster_count s offset length) ->
  33 <= k -> let n := cluster_count s offset length in k + n * (n + 1) < INT_MAX ->
  runs (update size_bits offset length addend) s (update_post s f offset length addend (k + n * (n + 1))).
Proof.
  intros Him Hoff Hpres Hk n Hhot. unfold update. sm_step. sm_step.
  apply update_refcount_runs; [done | done | | done | done | done].
  pose proof (image_bits _ _ _ _ Him) as Hbits. destruct (counts_of_block s ltac:(lia)) as (_ & Hcs & Hc).
  unfold update_fuel, id. rewrite Nat2Z.inj_add, Z.shiftr_div_pow2, <- Z.shiftl_1_l by lia.
  change (Z.shiftl 1 s.(cluster_bits)) with (cluster_size s). unfold cluster_count.
  destruct (Z.leb_spec length 0); [lia |].
  rewrite Z2Nat.id by (apply Z.div_pos; lia).
  assert ((offset + length - 1) / cluster_size s <= offset / cluster_size s + length / cluster_size s + 1); [| lia].
  apply Z.lt_succ_r, Z.div_lt_upper_bound; [lia |].
  pose proof (Z.div_mod offset (cluster_size s) ltac:(lia)). pose proof (Z.div_mod length (cluster_size s) ltac:(lia)).
  pose proof (Z.mod_pos_bound offset (cluster_size s) ltac:(lia)).
  pose proof (Z.mod_pos_bound length (cluster_size s) ltac:(lia)). nia.
Qed.

(** The clusters that hold [size] bytes, without wrap-around *)
Lemma size_to_clusters_spec s size :
  9 <= s.(cluster_bits) -> 0 < size < 2 ^ 39 ->
  size_to_clusters s size = (size + (cluster_size s - 1)) / cluster_size s /\ 1 <= size_to_clusters s size \/
  21 < s.(cluster_bits).
Proof.
  intros Hb Hsize. destruct (decide (21 < s.(cluster_bits))); [by right | left].
  destruct (counts_of_block s Hb) as (_ & Hcs & Hc). unfold size_to_clusters.
  rewrite Z.shiftr_div_pow2, <- Z.shiftl_1_l by lia. change (Z.shiftl 1 s.(cluster_bits)) with (cluster_size s).
  assert (Hlim : cluster_size s <= 2 ^ 21).
  { unfold cluster_size. rewrite Z.shiftl_1_l. apply Z.pow_le_mono_r; lia. }
  assert (Hq : 1 <= (size + (cluster_size s - 1)) / cluster_size s < 2 ^ 31).
  { split; [apply Z.div_le_lower_bound; lia |]. apply Z.div_lt_upper_bound; [lia |].
    change (2 ^ 39) with (256 * 2 ^ 31) in Hsize. nia. }
  unfold to_signed. rewrite wrap_small by (split; cbn in *; lia).
  rewrite (proj2 (Z.ltb_lt _ _)) by (cbn in *; lia). lia.
Qed.

Lemma aligned_request s first size :
  9 <= s.(cluster_bits) <= 21 -> 0 < size < 2 ^ 39 ->
  first_cluster s (Z.shiftl first s.(cluster_bits)) = first /\
  cluster_count s (Z.shiftl first s.(cluster_bits)) size = size_to_clusters s size /\
  Z.shiftl first s.(cluster_bits) = first * cluster_size s.
Proof.
  intros Hb Hsize. destruct (counts_of_block s ltac:(lia)) as (_ & Hcs & Hc).
  destruct (size_to_clusters_spec s size ltac:(lia) Hsize) as [[-> _] | ?]; [| lia].
  assert (Hsh : Z.shiftl first s.(cluster_bits) = first * cluster_size s).
  { unfold cluster_size. by rewrite Z.shiftl_1_l, Z.shiftl_mul_pow2 by lia. }
  rewrite Hsh. unfold first_cluster, cluster_count. rewrite Z.div_mul by lia. split; [done |]. split; [| done].
  rewrite (proj2 (Z.leb_gt _ _)) by lia.
  replace (first * cluster_size s + size - 1) with (first * cluster_size s + (size - 1)) by lia.
  rewrite Z.div_add_l by lia.
  replace (size + (cluster_size s - 1)) with (1 * cluster_size s + (size - 1)) by lia.
  rewrite Z.div_add_l by lia. lia.
Qed.
End counts.

(** ** Where growing the table fails *)

Lemma fill_counts_room n block buf buf' :
  0 <= block -> fill_counts n block buf = Some buf' ->
  n = 0%nat \/ 2 * (block + Z.of_nat n) <= Z.of_nat (length buf).
Proof.
  revert block buf. induction n as [| n IH]; intros block buf Hb H; [by left | right]. cbn [fill_counts] in H.
  destruct (put_be16 buf block 1) as [buf1 |] eqn:E; [| done]. cbn [mbind option_bind] in H.
  destruct (put_be16_spec _ _ _ _ E) as (Hl & _). unfold put_be16 in E.
  destruct (Z.ltb_spec (2 * block + 1) (Z.of_nat (length buf))) as [Hfit |];
    [| by rewrite andb_false_r in E].
  destruct (IH (block + 1) buf1 ltac:(lia) H) as [-> | H2]; lia.
Qed.

Lemma fill_counts_fits n block buf :
  0 <= block -> 2 * (block + Z.of_nat n) <= Z.of_nat (length buf) -> is_Some (fill_counts n block buf).
Proof.
  revert block buf. induction n as [| n IH]; intros block buf Hb H; [done |]. cbn [fill_counts].
  destruct (put_be16_some buf block 1) as [buf1 E]; [lia.. |]. rewrite E. cbn [mbind option_bind].
  destruct (put_be16_spec _ _ _ _ E) as (Hl & _). apply IH; lia.
Qed.

(** The loop that fills the counts stays inside its buffer exactly when it has
    room for them *)
Lemma fill_counts_none n size :
  fill_counts n 0 (replicate size 0) = None <-> Z.of_nat size < 2 * Z.of_nat n.
Proof.
  split; intros H.
  - destruct (decide (2 * Z.of_nat n <= Z.of_nat size)) as [Hfit |]; [| lia].
    destruct (fill_counts_fits n 0 (replicate size 0)) as [? E];
      [lia | rewrite length_replicate; lia | congruence].
  - destruct (fill_counts n 0 _) eqn:E; [exfalso | done].
    apply fill_counts_room in E; [| lia]. rewrite length_replicate in E. lia.
Qed.

(** What the sizing loop leaves: blocks for the clusters of [table_size] bytes *)
Lemma table_size_loop_blocks {D} fuel (s : BDRVQcowState (D := D)) t table_size blocks_clusters :
  table_size_loop fuel s t = Some (table_size, blocks_clusters) ->
  blocks_clusters = 1 + (size_to_clusters s table_size + block_counts s - 1) / block_counts s.
Proof.
  revert t. induction fuel as [| fuel IH]; intros t; cbn [table_size_loop]; [done |].
  case_match eqn:E; [| apply IH]. intros [= <- <-]. apply Z.eqb_eq in E. by rewrite <- E.
Qed.

Lemma div_between c x : 0 < c -> c * (x / c) <= x < c * (x / c) + c.
Proof. intros H. pose proof (Z.div_mod x c). pose proof (Z.mod_pos_bound x c). lia. Qed.

Lemma new_table_size_blocks {D} (s : BDRVQcowState (D := D)) table_size blocks_clusters :
  new_table_size s = Some (table_size, blocks_clusters) ->
  blocks_clusters = 1 + (size_to_clusters s table_size + block_counts s - 1) / block_counts s.
Proof. unfold new_table_size. generalize TABLE_ROUNDS. intros fuel H. by apply table_size_loop_blocks in H. Qed.

(** The counts of the table and of the blocks against the room of the blocks *)
Lemma growth_room {D} (s : BDRVQcowState (D := D)) table_size :
  9 <= s.(cluster_bits) <= 21 -> 0 < table_size < 2 ^ 36 ->
  let blocks := 1 + (size_to_clusters s table_size + block_counts s - 1) / block_counts s in
  blocks * block_counts s < size_to_clusters s (table_size * 8) + blocks <->
  (block_counts s - 1) * cluster_size s < 4 * table_size.
Proof.
  intros Hb Ht. destruct (counts_of_block s ltac:(lia)) as (_ & Hcs & Hc).
  destruct (size_to_clusters_spec s table_size ltac:(lia) ltac:(lia)) as [[Hs1 ?] | ?]; [| lia].
  destruct (size_to_clusters_spec s (table_size * 8) ltac:(lia) ltac:(lia)) as [[Hs8 ?] | ?]; [| lia].
  cbv zeta. set (T1 := size_to_clusters s table_size) in *. set (T8 := size_to_clusters s (table_size * 8)) in *.
  set (C := block_counts s) in *. set (cs := cluster_size s) in *. clearbody T1 T8 C cs.
  assert (H1 : cs * T1 <= table_size + (cs - 1) < cs * T1 + cs) by (rewrite Hs1; apply div_between; lia).
  assert (H8 : cs * T8 <= table_size * 8 + (cs - 1) < cs * T8 + cs) by (rewrite Hs8; apply div_between; lia).
  set (q := (T1 + C - 1) / C).
  assert (Hq : C * q <= T1 + C - 1 < C * q + C) by (unfold q; apply div_between; lia).
  clearbody q. clear Hs1 Hs8.
  destruct (decide (T1 <= C)).
  - assert (q = 1) as -> by nia. split; nia.
  - split; intros _; nia.
Qed.

Lemma grow_without_room {D} (s : BDRVQcowState (D := D)) table_size blocks_clusters size_bits update
    refcount_table_index new_block :
  new_table_size s = Some (table_size, blocks_clusters) ->
  fill_counts (Z.to_nat (size_to_clusters s (table_size * 8) + blocks_clusters)) 0
     (replicate (Z.to_nat (blocks_clusters * cluster_size s)) 0) = None ->
  grow_table size_bits update refcount_table_index new_block s = None.
Proof.
  intros Hsize Hfill.
  assert (Hnone : grown s refcount_table_index new_block table_size blocks_clusters = None).
  { unfold grown. repeat (case_match; [done |]). destruct (point_blocks _ _ _ _ _ _); [| done].
    cbn [mbind option_bind]. by rewrite Hfill. }
  unfold grow_table. rewrite (sm_bind_some _ _ s s s) by done. unfold id.
  rewrite (sm_bind_some _ _ s (table_size, blocks_clusters) s) by (unfold sm_lift; by rewrite Hsize).
  unfold mbind, sm_bind, sm_lift. by rewrite Hnone.
Qed.

(** An image whose table of 30272 blocks is full *)
Definition full_image : BDRVQcowState (D := Z -> Z) :=
  mkQcow sample_image.(file) 9 sample_image.(l2_table_cache) sample_image.(refcount_block_cache)
    [] 0 30272 (30272 * 256 + 2) 0 [].

(** ** The sample image *)

Lemma sample_refcounts : image array_driver None 33 sample_image sample_bytes.
Proof.
  assert (Hoff : forall i off, sample_image.(refcount_table) !! i = Some off -> i = 0%nat /\ off = 512).
  { intros [| [| i]] off H; [by injection H | done | done]. }
  split.
  - apply sample_inv.
  - apply (cool_mono 32); [lia | apply sample_cool].
  - by eexists.
  - intros i e [(? & _) | [(_ & _ & ->) | (_ & ->)]]%sample_entries; done.
  - done.
  - intros i off [-> ->]%Hoff _. split; [done |]. split.
    + intros c j e [(-> & _ & ->) | [(-> & _ & ->) | (_ & ->)]]%sample_entries Ho; done.
    + intros p Hp. change (cluster_size sample_image) with 512 in Hp.
      assert (Hb : Forall (fun b => 0 <= b < 256) (bytes_at sample_bytes 512 512)) by by_eval.
      rewrite Forall_lookup in Hb. apply (Hb (Z.to_nat (p - 512))). rewrite bytes_at_lookup by lia.
      do 2 f_equal. lia.
  - intros i j off [-> _]%Hoff [-> _]%Hoff _. done.
Qed.

Lemma sample_present n : n <= 256 -> present sample_image 0 n.
Proof.
  intros Hn c Hc. split; [| unfold cluster_fits; lia]. unfold block_of, table_index.
  change (block_counts sample_image) with 256. by rewrite Z.div_small by lia.
Qed.

(** ** The theorems *)

(** C11: The counts of an image are read and updated exactly.  Reading a count
    yields it or an error code, and changes nothing.  An update by [addend] of
    clusters that refcount blocks describe always returns: on success the count
    of every cluster of the request has changed by [addend] and no other; an
    error leaves each count of the request at its old or its updated value, the
    others unchanged; no byte outside the refcount blocks changes; and a request
    that would take some count below zero or above 16 bits is refused. *)
Theorem update_refcount_exact {D} size_bits (dr : BlockDriver D) `{!SectorStore dr} s f k offset length addend :
  image dr None k s f -> 0 <= offset -> present s (first_cluster s offset) (cluster_count s offset length) ->
  33 <= k -> let n := cluster_count s offset length in k + n * (n + 1) < INT_MAX ->
  (forall ci, cluster_fits ci -> exists r s', get_refcount size_bits ci s = Some (r, s') /\
     (r < 0 \/ r = refcount_of s f ci) /\ image dr None (k + 1) s' f /\ meta s' = meta s) /\
  exists r s' f', update size_bits offset length addend s = Some (r, s') /\ r <= 0 /\
    image dr None (k + n * (n + 1)) s' f' /\ only_counts s f f' /\
    let asked ci := first_cluster s offset <= ci < first_cluster s offset + n in
    (forall ci, ~ asked ci -> refcount_of s' f' ci = refcount_of s f ci) /\
    (forall ci, asked ci ->
       refcount_of s' f' ci = refcount_of s f ci + addend \/ r < 0 /\ refcount_of s' f' ci = refcount_of s f ci) /\
    ((exists ci, asked ci /\ ~ (0 <= refcount_of s f ci + addend <= 0xffff)) -> r < 0).
Proof.
  intros Him Hoff Hpres Hk n Hhot.
  assert (Hn0 : 0 <= n).
  { unfold n, cluster_count. destruct (Z.leb_spec length 0) as [| Hl]; [lia |].
    assert (offset / cluster_size s <= (offset + length - 1) / cluster_size s); [| lia].
    apply Z.div_le_mono; [| lia]. pose proof (image_bits dr _ _ _ _ Him) as Hb.
    destruct (counts_of_block s ltac:(lia)). lia. }
  split.
  { intros ci Hci. destruct (get_refcount_runs size_bits dr k s f ci Him ltac:(nia) Hci) as (r & s' & E & H).
    by exists r, s'. }
  destruct (update_runs size_bits dr offset length addend k s f Him Hoff Hpres Hk Hhot)
    as (r & s' & E & Hr & f' & P & Him' & (_ & Honly & Hc) & HP & Hfull).
  exists r, s', f'. split; [done |]. split; [done |]. split; [done |]. split; [done |]. intros asked.
  fold n in HP, Hfull.
  assert (Hasked : forall ci, range (first_cluster s offset) n ci = true <-> asked ci).
  { intros ci. unfold range, asked. rewrite andb_true_iff, Z.leb_le, Z.ltb_lt. lia. }
  assert (Hall : r = 0 -> forall ci, asked ci -> refcount_of s' f' ci = refcount_of s f ci + addend).
  { intros H0 ci Ha%Hasked. by rewrite Hc, Hfull, Ha. }
  split; [| split].
  - intros ci Hn. rewrite Hc. destruct (P ci) eqn:EP; [| done]. by apply HP, Hasked in EP.
  - intros ci Ha. destruct (decide (r = 0)) as [H0 | Hne]; [left; by apply Hall |].
    rewrite Hc. destruct (P ci); [by left | right; split; [lia | done]].
  - intros (ci & Ha & Hbad). destruct (decide (r = 0)) as [H0 | Hne]; [| lia].
    exfalso. apply Hbad. rewrite <- Hall by done. by apply (refcount_range dr None (k + n * (n + 1))).
Qed.

(** Freeing three used clusters and one without a reference is refused. *)
Lemma update_refcount_exact_witness :
  exists r s', update 32 0 2048 (-1) sample_image = Some (r, s') /\ r < 0.
Proof.
  destruct (update_refcount_exact 32 array_driver sample_image sample_bytes 33 0 2048 (-1)) as [_ Hup];
    [apply sample_refcounts | lia | by apply sample_present | lia | vm_compute; reflexivity |].
  destruct Hup as (r & s' & f' & E & _ & _ & _ & _ & _ & Hbad). exists r, s'. split; [exact E |].
  apply Hbad. exists 3. split; [vm_compute; split; [discriminate | reflexivity] |].
  intros [H _]. vm_compute in H. by apply H.
Defined.

(** C12: Allocation hands out clusters that nobody refers to.  The search for a
    run of free clusters always ends, whatever the counts are; it reports a
    failed read, or finds a run at or after the first free cluster in which every
    count is zero, and changes no count.  Where refcount blocks describe that
    run, [qcow2_alloc_clusters] returns an error code, or the run with every
    count in it one; no other count changes in either case. *)
Theorem alloc_clusters_fresh {D} size_bits (dr : BlockDriver D) `{!SectorStore dr} s f k size :
  image dr None k s f -> 33 <= k -> 0 <= s.(free_cluster_index) -> 0 < size < 2 ^ 39 ->
  let nb := size_to_clusters s size in
  let fuel := Z.of_nat (noref_fuel s nb) in
  k + fuel + nb * (nb + 1) < INT_MAX -> s.(free_cluster_index) + fuel < 2 ^ 40 ->
  exists r s', alloc_clusters_noref size_bits size s = Some (r, s') /\ image dr None (k + fuel) s' f /\
    layout s' = layout s /\
    (r < 0 \/ exists first, r = first * cluster_size s /\ s.(free_cluster_index) <= first /\
       s'.(free_cluster_index) = first + nb /\
       (forall ci, first <= ci < first + nb -> refcount_of s f ci = 0) /\
       (present s first nb ->
        exists r' s2 f', qcow2_alloc_clusters size_bits size s = Some (r', s2) /\
          (r' < 0 \/ r' = r /\ forall ci, first <= ci < first + nb -> refcount_of s2 f' ci = 1) /\
          image dr None (k + fuel + nb * (nb + 1)) s2 f' /\ only_counts s f f' /\
          forall ci, ~ (first <= ci < first + nb) -> refcount_of s2 f' ci = refcount_of s f ci)).
Proof.
  intros Him Hk Hfree Hsize nb fuel Hhot Hfits. pose proof (image_bits dr _ _ _ _ Him) as Hbits.
  destruct (size_to_clusters_spec s size ltac:(lia) Hsize) as [[_ Hnb] | ?]; [| lia]. fold nb in Hnb.
  assert (0 <= nb * (nb + 1)) by nia.
  destruct (alloc_noref_runs size_bits dr k s f size Him Hk Hfree ltac:(lia) ltac:(fold nb; fold fuel; lia) Hfits)
    as (r & s1 & E & Him1 & Hl & Hres).
  exists r, s1. split; [done |]. split; [done |]. split; [done |].
  destruct Hres as [Hr | (first & -> & Hfrom & Hnext & Hzero)]; [by left | right].
  destruct (aligned_request s first size Hbits Hsize) as (Hfst & Hcnt & Hsh).
  exists first. split; [done |]. split; [done |]. split; [done |]. split; [done |]. intros Hpres.
  pose proof Hl as Hl'. injection Hl' as Hb _ _.
  assert (Hfst1 : first_cluster s1 (Z.shiftl first s.(cluster_bits)) = first)
    by (unfold first_cluster, cluster_size; by rewrite Hb).
  assert (Hcnt1 : cluster_count s1 (Z.shiftl first s.(cluster_bits)) size = nb)
    by (unfold nb; rewrite <- Hcnt; unfold cluster_count, cluster_size; by rewrite Hb).
  destruct (counts_of_block s ltac:(lia)) as (_ & Hcs & Hc).
  destruct (update_runs size_bits dr (Z.shiftl first s.(cluster_bits)) size 1 (k + fuel) s1 f Him1)
    as (r2 & s2 & E2 & Hr2 & f' & P & Him2 & (_ & Honly & Hcounts) & HP & Hfull).
  { rewrite Hsh. nia. }
  { rewrite Hfst1, Hcnt1. by apply (present_layout s s1). }
  { lia. }
  { by rewrite Hcnt1. }
  rewrite Hfst1, Hcnt1 in *.
  assert (Hrange : forall ci, range first nb ci = true <-> first <= ci < first + nb).
  { intros ci. unfold range. rewrite andb_true_iff, Z.leb_le, Z.ltb_lt. lia. }
  exists (if r2 <? 0 then r2 else Z.shiftl first s.(cluster_bits)), s2, f'. split; [| split; [| split; [done | split]]].
  - unfold qcow2_alloc_clusters. rewrite (sm_bind_some _ _ _ _ _ E), (proj2 (Z.ltb_ge _ 0)) by nia.
    rewrite (sm_bind_some _ _ _ _ _ E2). by destruct (r2 <? 0).
  - destruct (Z.ltb_spec r2 0); [by left | right]. split; [done |]. intros ci Hci.
    rewrite Hcounts, Hfull by lia. rewrite (proj2 (Hrange ci)) by done.
    rewrite (layout_counts s s1) by done. by rewrite Hzero.
  - by apply (only_counts_trans s s1 f f f' Hl).
  - intros ci Hci. rewrite Hcounts. destruct (P ci) eqn:EP; [by apply HP, Hrange in EP |]. by apply layout_counts.
Qed.

(** Two clusters of the sample image, after the three in use *)
Lemma alloc_clusters_fresh_witness :
  exists s' f', qcow2_alloc_clusters 32 1024 sample_image = Some (1536, s') /\
    refcount_of s' f' 3 = 1 /\ refcount_of s' f' 4 = 1 /\ refcount_of s' f' 2 = 1.
Proof.
  destruct (alloc_clusters_fresh 32 array_driver sample_image sample_bytes 33 1024)
    as (r & s' & E & _ & _ & Hres);
    [apply sample_refcounts | lia | done | lia | vm_compute; reflexivity | vm_compute; reflexivity |].
  assert (H0 : fst <$> alloc_clusters_noref 32 1024 sample_image = Some 1536) by by_eval.
  rewrite E in H0. injection H0 as ->. destruct Hres as [| (first & Hf & _ & _ & _ & Halloc)]; [lia |].
  change (cluster_size sample_image) with 512 in Hf. assert (first = 3) as -> by lia.
  destruct Halloc as (r' & s2 & f' & E2 & Hr & _ & _ & Hother).
  { intros c Hc. apply (sample_present 256); [lia |]. change (size_to_clusters sample_image 1024) with 2 in Hc. lia. }
  assert (H1 : fst <$> qcow2_alloc_clusters 32 1024 sample_image = Some 1536) by by_eval.
  rewrite E2 in H1. injection H1 as ->. destruct Hr as [| [_ Hone]]; [lia |].
  exists s2, f'. split; [done |]. change (size_to_clusters sample_image 1024) with 2 in *.
  split; [apply Hone; lia |]. split; [apply Hone; lia |]. rewrite Hother by lia. by vm_compute.
Defined.

(** C40: Growing the refcount table overruns a buffer exactly for the larger
    tables.  The loop that sizes the new refcount blocks takes [table_size], a
    number of entries of eight bytes, as a number of bytes.  Its result
    therefore leaves too few blocks exactly when four times [table_size] exceeds
    the bytes of a cluster times one less than the counts of a block: then, and
    only then, the loop that fills the counts of the new table and blocks writes
    past their buffer, so that the growth is undefined.  For clusters of 512 bytes
    these are the tables of more than 32640 entries. *)
Theorem refcount_growth_overruns {D} (s : BDRVQcowState (D := D)) table_size blocks_clusters :
  9 <= s.(cluster_bits) <= 21 -> new_table_size s = Some (table_size, blocks_clusters) ->
  0 < table_size < 2 ^ 36 ->
  let overrun := (block_counts s - 1) * cluster_size s < 4 * table_size in
  (fill_counts (Z.to_nat (size_to_clusters s (table_size * 8) + blocks_clusters)) 0
     (replicate (Z.to_nat (blocks_clusters * cluster_size s)) 0) = None <-> overrun) /\
  (overrun -> forall size_bits update refcount_table_index new_block,
     grow_table size_bits update refcount_table_index new_block s = None).
Proof.
  intros Hb Hsize Ht overrun.
  pose proof (new_table_size_blocks _ _ _ Hsize) as Hbc.
  pose proof (growth_room s table_size Hb Ht) as Hroom. cbv zeta in Hroom. rewrite <- Hbc in Hroom.
  destruct (counts_of_block s ltac:(lia)) as (_ & Hcs & Hc).
  destruct (size_to_clusters_spec s table_size ltac:(lia) ltac:(lia)) as [[_ H1] | ?]; [| lia].
  destruct (size_to_clusters_spec s (table_size * 8) ltac:(lia) ltac:(lia)) as [[_ H8] | ?]; [| lia].
  assert (1 <= blocks_clusters).
  { rewrite Hbc. pose proof (Z.div_pos (size_to_clusters s table_size + block_counts s - 1) (block_counts s)). lia. }
  assert (Hfill : fill_counts (Z.to_nat (size_to_clusters s (table_size * 8) + blocks_clusters)) 0
     (replicate (Z.to_nat (blocks_clusters * cluster_size s)) 0) = None <-> overrun).
  { rewrite fill_counts_none, !Z2Nat.id by nia. unfold overrun. rewrite <- Hroom. split; nia. }
  split; [done |]. intros Hover size_bits update refcount_table_index new_block.
  apply (grow_without_room s table_size blocks_clusters); [done | by apply Hfill].
Qed.

(** Clusters of 512 bytes, and a table that must grow to 45440 entries: the 710
    clusters of the table and two of blocks are counted in room for 512. *)
Lemma refcount_growth_overruns_witness :
  new_table_size full_image = Some (45440, 2) /\ size_to_clusters full_image (45440 * 8) = 710 /\
  fill_counts (Z.to_nat 712) 0 (replicate (Z.to_nat 1024) 0) = None /\
  grow_table 32 (fun _ _ _ => mret 0) 30272 0 full_image = None.
Proof.
  split; [vm_compute; reflexivity |]. split; [vm_compute; reflexivity |].
  destruct (refcount_growth_overruns full_image 45440 2) as [Hfill Hgrow];
    [by_eval | vm_compute; reflexivity | lia |].
  split; [apply Hfill; by_eval | apply Hgrow; by_eval].
Defined.
